(* ===== verification/_CoqProject ===== *)
-Q . S2P
Prelude.v
Str.v
In.v
Tag.v
TagHeap.v
TkzBase.v
HtmlIn.v
TokenData.v
TokenWs.v
Sbst.v
EntityRes.v
ParserChar.v
ParserCharSpec.v
ParserCharUtf8.v
ParserCharName.v
ParserCharProof.v
ParserCharRun.v
TokenParse.v
DomNode.v
DomTree.v
DomLink.v
DomPointers.v
DomWalk.v
DomAttr.v
DomAttrSpec.v
DomRead.v
DomQuery.v
TreeAttr.v
TagCat.v
TagConst.v
Array.v
Mem.v
Bst.v
MRaw.v
TreeStack.v
TreeStackSpec.v
TreeFormatSpec.v
TreeM.v
TreeInsert.v
Serialize.v
SerializeSpec.v
SerializeText.v
TreeAdopt.v
TreeMode.v
TreeInitial.v
TreeHead.v
TreeBody.v
TreeTable.v
TreeSelect.v
TreeLogic.v
TreeKeep.v
TkzState.v
TkzComment.v
TkzDoctype.v
TkzText.v
TkzScript.v
TkzRun.v
TkzInst.v
TkzNotes.v
TkzStep.v
TkzSafe.v
TkzChunk.v
TkzParse.v
TreeBuild.v
TreeGood.v
TreeSound.v
TreeLaws.v
TreeSpec.v
TkzSpec.v
TreeRender.v
TreeWrite.v
TreeRound.v
AppWorkers.v
AppDocs.v
AppLang.v
AppHtml.v
AppFeatures.v
AppNews.v
AppGroups.v
AppMain.v
