(* ===== verification/Prelude.v ===== *)
(** * tgnews: a verification development

    tgnews classifies news articles.  [main] ([src/tgnews.cpp]) takes a task and
    a folder, loads the HTML files below it, recognises their languages, counts
    features of their texts, decides which are news, groups them, and prints a
    JSON report.  HTML is read by the C library lexbor, whose sources are part of
    the repository ([src/lexbor]); the rest of the program is C++ headers around
    it and around libraries that are only called (UDPipe, CLD3, BigARTM, Boost,
    nlohmann JSON).

    ** Parts of the program and files of the development

    The HTML tokenizer of lexbor ([source/lexbor]), in the order of its layers:
    - [Str]: character tables and comparisons of byte strings
      ([core/str_res.h], [core/str.c]);
    - [In]: the doubly linked chain of input buffers ([core/in.c], [core/in.h]);
      [HtmlIn]: data that spans buffers ([html/in.c]);
    - [Tag]: the built-in tags and their generated static hash ([tag/const.h],
      [tag/res.h], [core/shs.c]); [TagHeap]: the tags met while parsing
      ([tag/tag.c], [core/shbst.c]; the trees of [core/bst.c] as values);
    - [TkzBase]: tokens, attributes, the tokenizer's record, the macros of
      [html/tokenizer/state.h], and the interface [TkzEnv] to the code the
      tokenizer calls back;
    - [TkzState], [TkzComment], [TkzDoctype], [TkzText], [TkzScript]: every state
      function of [html/tokenizer/state.c], [state_comment.c],
      [state_doctype.c], [state_rcdata.c] and [state_rawtext.c],
      [state_script.c], one definition each, under its C name;
    - [TkzRun]: the operations of [html/tokenizer.c]: [init], [begin], [chunk],
      [end], release of buffers, the setters used by the tree builder;
    - [TokenData], [TokenWs]: what is made of a token's data ([html/token.c]);
    - [Sbst], [EntityRes]: the search of character references and its table of
      9854 entries ([core/sbst.h], [html/tokenizer/res.h]); [ParserChar]: the
      state machine that decodes them ([html/parser_char.c],
      [html/parser_char_ref.c]); [ParserCharSpec]: a decoder of byte lists, the
      reference; [ParserCharProof], [ParserCharName], [ParserCharRun],
      [ParserCharUtf8]: that the machine computes it; [TokenParse]: the text,
      attributes and doctype of a token ([html/token.c], [html/token_attr.c]);
    - [TkzInst]: two clients of the tokenizer; [TkzStep], [TkzSafe], [TkzChunk],
      [TkzParse]: safety and termination; [TkzSpec]: what is tokenized, with the
      interface [Expects] of a client that is told what tokens it will get;
      [TkzNotes]: behaviours that differ from the HTML standard.

    The document lexbor builds ([dom/interfaces]):
    - [DomNode]: nodes, insertion, removal, walk, text ([node.c]); [DomTree]:
      heaps of nodes as trees and contexts; [DomLink]: insertion and removal
      refine those of trees; [DomWalk]: the walk is a fold in document order;
    - [DomAttr]: attributes and the attribute lists of elements ([attr.c],
      [element.c]); [DomAttrSpec]: they refine association lists;
    - [DomQuery]: elements by tag name, class, attribute ([element.c]);
    - [DomPointers]: the pointers between the nodes of any heap agree, and
      insertion and removal keep that; [DomRead]: the document a heap holds, as a
      tree of labels.

    The tree construction of lexbor ([html/tree.c], [html/tree/]):
    - [TreeAttr]: the attributes of new elements; [TagCat], [TagConst]: the
      categories, names and spellings of tags ([html/tag_res.h], [tag/const.h]);
    - [Array]: arrays of pointers ([core/array.c]); [TreeStack]: the builder's
      record, the stack of open elements, the list of formatting elements, scopes,
      implied end tags, the reset of the mode ([open_elements.c],
      [active_formatting.c]); [TreeStackSpec], [TreeFormatSpec]: that these loops
      are searches in lists;
    - [TreeM]: the monad of the builder (state, and [None] for a bad pointer) and
      the class [TreeAlloc] of its allocators; [TreeInsert]: creating and placing
      nodes; [TreeAdopt]: reconstruction and the adoption agency; [TreeMode]: what
      the modes share; [TreeInitial], [TreeHead], [TreeBody], [TreeTable],
      [TreeSelect]: the 23 insertion modes of [html/tree/insertion_mode/] and
      foreign content, a definition for each C function; [TreeBuild]: the
      dispatcher and the callback of the tokenizer, the builder as the client of the
      tokenizer and [lxb_html_document_parse];
    - [TreeLogic]: a logic for "if it ends, then" and one for "it ends, and then";
      [TreeKeep], [TreeGood]: what every mode keeps; [TreeSound], [TreeLaws]: the
      document is well formed in every state a parse gets to; [TreeSpec]: the tree
      that is built, against a reference machine with a stack; [TreeRender],
      [TreeWrite], [TreeRound]: documents that are written and parsed.

    The memory of lexbor: [Mem]: chunks cut in pieces and pools of objects of one
    size ([core/mem.c], [core/dobject.c]), over a [malloc] that may fail ([CHeap]),
    and the interface [ObjectPool]; [Bst]: the tree of free blocks over nodes with
    parent pointers ([core/bst.c]), on any such pool; [MRaw]: blocks of bytes with
    headers, given, freed to the tree and made longer or shorter ([core/mraw.c]).

    The serialiser ([html/serialize.c]): [Serialize]: every function, of the plain
    and of the indented output; [SerializeSpec]: the walk is a recursion over the tree;
    [SerializeText]: escaping and its inverse.

    The program around it ([src/*.hpp], [src/tgnews.cpp]):
    - [AppWorkers]: the threads of the four parallel stages;
    - [AppDocs]: files, printed paths, bags of words ([utils.hpp], [io.hpp],
      [common.h], [features.hpp]), and how the JSON library writes a string, or
      throws ([json.hpp]);
    - [AppHtml]: loading a page ([html_parse.hpp]); [AppLang]: documents and their
      languages ([langrec.hpp], the record of [html_parse.hpp]); [AppFeatures]:
      features ([features.hpp]); [AppNews]: the news detector ([news_det.hpp], [logreg.hpp]); [AppGroups]: threads and
      categories ([news_threads.hpp], [news_categories.hpp]);
    - [AppMain]: the tasks and their reports ([tgnews.cpp], [io.hpp]).

    This file holds what they share: notation, automation, C loops, bytes.

    ** State and operations

    Integers are [Z]; where C's width matters (the static hash, [size()-5], the
    conversion of [-1]) the wrap-around is written out.  Memory read by the
    tokenizer is a function from addresses to bytes; node pointers are keys of
    finite maps and [None] is NULL.  The tokenizer's record has a [fault] flag
    that every access through a NULL, dangling or released pointer raises, and
    that nothing lowers.  A state function is a function from the record, a
    position and the end of the buffer to the record and the position it
    returns; [call_state] is the call through [tkz->state].  The token callback,
    the answers of the allocator, the tag heap and the tree builder's current
    namespace are the class [TkzEnv], so that the theorems hold of every client;
    [TkzEnvLaws] asks of a callback only that it leaves the tokenizer in a text
    state, as [html/tokenizer.h] documents, and lets a client have a property
    [env_ok] of its own state that its callback keeps.  [TreeBuild] makes the tree
    builder such a client and [TreeLaws] proves its laws.  In the C++ part a call that throws
    is [None]; libraries are arguments of the definitions that call them.

    The DOM is a heap of nodes and a heap of attributes; an operation that would
    follow a NULL or dangling pointer answers [None].  Its theorems are about
    heaps on which a tree is laid out ([forest_at]) and elements with an attribute
    list ([attributes]).  Memory for strings, collections and attributes is always
    given there.  The tree builder is a record with the document in it; a function
    of [html/tree.c] is a computation [M] on it, an insertion mode answers whether
    the token is done with.  [TreeAlloc] says what memory is given for nodes and
    arrays; its laws are [TreeAllocLaws] (new memory is not in use), for safety, and
    [TreePlenty] (there is memory too), for what is built.  The parser as the program uses it is the class [HtmlParser],
    what is relied on of its result the class [HtmlParserOk].

    ** What is shown

    - Safety and termination of tokenizing ([TkzStep], [TkzSafe], [TkzChunk],
      [TkzParse]): a contract for every state function on every byte (position
      in bounds, progress, frame, no fault), lifted to whole buffers, to
      [lxb_html_tokenizer_chunk] with its release of buffers, to
      [lxb_html_tokenizer_end], and to a parse of any number of chunks.
    - Functional correctness of tokenizing ([TkzSpec]): a written document of
      texts, tags with attributes and comments is tokenized to its items.
    - The layers below: position walks, slices across buffers, the static hash
      against linear search, the tag heap as a map up to case, token data
      independent of buffer boundaries ([TokenData]).
    - Character references ([TokenParse]): a token's text, attributes and doctype
      are what the reference decoder makes of its bytes in the whole input,
      wherever buffers cut it; numeric references are UTF-8 of one character; the
      table's binary searches are membership.
    - The DOM: every change of pointers refines the change of a tree and writes
      nothing else; the walk ends and visits each node once; attributes are an
      association list with the right caches; queries by attribute find exactly the
      elements that match, those by tag name the elements of the name but for the
      foreign ones that a hyphen or digit in the name hides; a token's attributes
      become the element's.
    - Documents ([TreeLaws], [TreeRender]): in every state the tree construction gets
      to, for every input and whether or not it ends, the pointers of the document
      agree and the builder's point at live nodes; a page of properly nested tags with
      attributes, texts and comments is parsed, and becomes exactly the tree that a
      stack machine builds.
    - Memory ([Bst], [MRaw]): the tree of free blocks is a multiset with best-fit
      removal; blocks in use and free ones never have a byte in common, keep their
      bytes, and are what was asked for; where the code breaks this is said, and why.
    - Serialising ([SerializeSpec], [TreeRound]): it is a recursion over the tree,
      it stops at the first piece the callback refuses, and what was serialised is
      parsed to the same document.
    - The stacks of the builder: scopes, implied end tags, cutting the stack, the
      reset of the mode, the Noah's Ark clause, markers.
    - The threads: partition, no race, result independent of scheduling.
    - The program: what the tasks [languages] and [news] print, from the
      documents read to the paths, through language recognition, features,
      detection, and that they throw when a path is not UTF-8; bags of words as
      counters; categories; what is read of a page.
    - Deviations met while modelling ([TkzNotes], [TokenWs], [TokenData],
      [TokenParse], [DomQuery], [TreeAttr], [TreeStackSpec], [MRaw], [AppMain],
      [AppGroups], [AppDocs]), each stated as what the code computes.

    ** Fuel

    [scan], the loop over the bytes of a buffer, has the number of bytes left as
    its fuel, which is exact ([scan_step]).  [run] gets [8 n] state calls for [n]
    bytes, [eof_loop] and [end_loop] a constant: [TkzSafe] proves that none runs
    out ([4 n + 4] are enough, and none is needed for [n = 0]), a measure of
    bytes left and rank of the state decreasing with each call.  Walks along the buffer chain get one step per
    node of the map ([walk_fuel]).  [remove_https] has the length of its
    text and [process_run] [4 n + 4] calls, proved enough beside them.  The search
    of references has the height of the table (300, checked over the table),
    [pc_run] [6 n + 6] calls for [n] bytes; the walk of a tree and its climbs have
    the number of nodes, a walk of attributes that of attributes, which is proved
    enough for heaps that hold trees and lists; a walk of the serialiser has twice
    the number of nodes, proved enough in [SerializeSpec].  Insertion modes call
    each other at most [MODE_DEPTH] deep, and the dispatcher repeats a token at most
    [loop_fuel] times; that is enough for the documents of [TreeRender] (they parse
    to a result), and is not proved for all: where it is not, or where a pointer is
    followed that is NULL or dangling, [lxb_html_document_parse] has no answer.
    [TreeLaws] needs neither: its theorem is about every state between two calls.
    The loops of [Bst] have the number of entries, proved enough.

    ** Not modelled

    Reference counts, inheritance and destruction of tokenizers; parsing of
    fragments and of a document again ([html/parser.c]); cloning and destroying DOM
    nodes, and interfaces the parser does not make; running scripts, which the
    program does not do; that the DOM, the strings and the tag heap
    lie in the memory of [MRaw] and [Mem]: they are maps and lists; other containers
    ([core/avl.c], [core/hash.c], [core/array_obj.c]);
    encodings, CSS and the HTTP and WARC readers ([encoding/], [css/], [utils/]),
    which the program does not use; the debug table ([debug.hpp]); the libraries
    the program only calls, but for the way JSON strings are written. *)
From Stdlib Require Export ZArith Lia List Bool.
From stdpp Require Export base tactics list gmap.

#[global] Open Scope Z_scope.

(** ** Scopes and notation

    [byte] is an 8-bit [lxb_char_t] kept as a [Z]; an address is a [Z] too,
    with 0 for the C null pointer. *)

Declare Scope tgnews_scope.
Delimit Scope tgnews_scope with tgnews.

Notation "'NULL'" := 0 (only parsing) : tgnews_scope.
#[global] Open Scope tgnews_scope.

(** ** Automation *)

Create HintDb tgnews discriminated.
Create Rewrite HintDb tgnews.

(** Turn boolean comparisons of hypotheses and goal into propositions. *)
Ltac bool_to_prop :=
  repeat match goal with
  | H : _ && _ = true |- _ => apply andb_true_iff in H; destruct H
  | H : _ || _ = false |- _ => apply orb_false_iff in H; destruct H
  | H : negb _ = true |- _ => apply negb_true_iff in H
  | H : negb _ = false |- _ => apply negb_false_iff in H
  | H : (_ =? _) = true |- _ => apply Z.eqb_eq in H
  | H : (_ =? _) = false |- _ => apply Z.eqb_neq in H
  | H : (_ <? _) = true |- _ => apply Z.ltb_lt in H
  | H : (_ <? _) = false |- _ => apply Z.ltb_ge in H
  | H : (_ <=? _) = true |- _ => apply Z.leb_le in H
  | H : (_ <=? _) = false |- _ => apply Z.leb_gt in H
  end.

(** Case analysis on the innermost scrutinee of a conditional or match of the
    goal, remembering the equation. *)
Ltac case_if :=
  match goal with
  | |- context [if ?b then _ else _] =>
      lazymatch b with
      | context [if _ then _ else _] => fail
      | context [match _ with _ => _ end] => fail
      | _ => let E := fresh "E" in destruct b eqn:E
      end
  end.

Ltac case_ifs := repeat case_if.

(** ** Membership of a byte in a [case] group of a C [switch] *)

Definition one_of (c : Z) (l : list Z) : bool := existsb (Z.eqb c) l.

Lemma one_of_true c l : one_of c l = true <-> In c l.
Proof.
  unfold one_of. rewrite existsb_exists. split.
  - intros (x & Hx & E). apply Z.eqb_eq in E. by subst.
  - intros Hin. exists c. split; [done | apply Z.eqb_refl].
Qed.

Lemma one_of_false c l : one_of c l = false <-> ~ In c l.
Proof. rewrite <- one_of_true. destruct (one_of c l); intuition congruence. Qed.

(** ** Loops

    [scan body s data end_] is the C loop
      [while (data != end) { body; data++; } return data;]
    run from [data <= end_].  The body returns [None] when it falls through to
    [data++] and [Some p] when it executes [return p].  The fuel is the number
    of bytes left, which is exact: [scan_step] and [scan_done] are the loop's
    own equations and mention no fuel. *)
Section Scan.
Context {S : Type} (body : S -> Z -> S * option Z).

Fixpoint scan_fuel (fuel : nat) (s : S) (data end_ : Z) : S * Z :=
  match fuel with
  | O => (s, data)
  | Datatypes.S fuel' =>
      match body s data with
      | (s', Some p) => (s', p)
      | (s', None) => scan_fuel fuel' s' (data + 1) end_
      end
  end.

Definition scan (s : S) (data end_ : Z) : S * Z :=
  scan_fuel (Z.to_nat (end_ - data)) s data end_.

Lemma scan_done s data end_ : end_ <= data -> scan s data end_ = (s, data).
Proof. intros H. unfold scan. by replace (Z.to_nat (end_ - data)) with O by lia. Qed.

Lemma scan_step s data end_ :
  data < end_ ->
  scan s data end_ =
    match body s data with
    | (s', Some p) => (s', p)
    | (s', None) => scan s' (data + 1) end_
    end.
Proof.
  intros H. unfold scan.
  replace (Z.to_nat (end_ - data)) with (Datatypes.S (Z.to_nat (end_ - (data + 1)))) by lia.
  reflexivity.
Qed.
End Scan.

(** Induction along a scanned range: prove a property at the end, and at every
    position from the next one. *)
Lemma range_ind (P : Z -> Prop) (end_ : Z) :
  (forall d, end_ <= d -> P d) ->
  (forall d, d < end_ -> P (d + 1) -> P d) ->
  forall d, P d.
Proof.
  intros Hend Hstep d.
  remember (Z.to_nat (end_ - d)) as n eqn:Hn. revert d Hn.
  induction n as [|n IH]; intros d Hn.
  - apply Hend. lia.
  - apply Hstep; [lia | apply IH; lia].
Qed.

(** A rule for loops: an invariant of the state at the loop head, and a
    post-condition that every [return] establishes. *)
Lemma scan_rule {S : Type} (body : S -> Z -> S * option Z)
    (Inv : S -> Z -> Prop) (Post : S -> Z -> Prop) (end_ : Z) :
  (forall s d, d < end_ -> Inv s d ->
     match body s d with
     | (s', Some p) => Post s' p
     | (s', None) => Inv s' (d + 1)
     end) ->
  (forall s d, end_ <= d -> Inv s d -> Post s d) ->
  forall d s, Inv s d ->
    let '(s', p) := scan body s d end_ in Post s' p.
Proof.
  intros Hbody Hend d. pattern d. apply (range_ind _ end_); clear d.
  - intros d Hd s Hs. rewrite scan_done by done. eauto.
  - intros d Hd IH s Hs. rewrite scan_step by done.
    specialize (Hbody s d Hd Hs).
    destruct (body s d) as [s' [p|]]; [done | by apply IH].
Qed.

(** ** Bytes at an address *)

(** [bytes_at rd a l]: the bytes [l] are stored from address [a] on. *)
Fixpoint bytes_at (rd : Z -> Z) (a : Z) (l : list Z) : Prop :=
  match l with
  | [] => True
  | b :: l' => rd a = b /\ bytes_at rd (a + 1) l'
  end.

(** The [n] bytes from address [a] on. *)
Fixpoint read_bytes (rd : Z -> Z) (a : Z) (n : nat) : list Z :=
  match n with
  | O => []
  | S n' => rd a :: read_bytes rd (a + 1) n'
  end.

Definition read_range (rd : Z -> Z) (b e : Z) : list Z := read_bytes rd b (Z.to_nat (e - b)).

Lemma length_read_bytes rd n : forall a, length (read_bytes rd a n) = n.
Proof. induction n; intros; simpl; auto. Qed.

Lemma bytes_at_read rd l : forall a, bytes_at rd a l -> read_bytes rd a (length l) = l.
Proof. induction l as [|b l IH]; intros a; simpl; [done|]. intros [-> H]. by rewrite IH. Qed.

Lemma bytes_at_app rd l1 l2 : forall a,
  bytes_at rd a (l1 ++ l2) <-> bytes_at rd a l1 /\ bytes_at rd (a + Z.of_nat (length l1)) l2.
Proof.
  induction l1 as [|b l1 IH]; intros a.
  - simpl. rewrite Z.add_0_r. tauto.
  - change ((b :: l1) ++ l2) with (b :: (l1 ++ l2)). cbn [bytes_at length].
    rewrite IH. replace (a + 1 + Z.of_nat (length l1))
      with (a + Z.of_nat (S (length l1))) by lia. tauto.
Qed.

Lemma read_bytes_app rd n m : forall a,
  read_bytes rd a (n + m) = read_bytes rd a n ++ read_bytes rd (a + Z.of_nat n) m.
Proof.
  induction n as [|n IH]; intros a.
  - simpl. by rewrite Z.add_0_r.
  - cbn [read_bytes Nat.add app]. rewrite IH.
    by replace (a + 1 + Z.of_nat n) with (a + Z.of_nat (S n)) by lia.
Qed.

Lemma bytes_at_range rd a l :
  bytes_at rd a l -> read_range rd a (a + Z.of_nat (length l)) = l.
Proof.
  intros H. unfold read_range.
  replace (Z.to_nat (a + Z.of_nat (length l) - a)) with (length l) by lia.
  by apply bytes_at_read.
Qed.

Lemma read_range_split rd a b c :
  a <= b <= c -> read_range rd a c = read_range rd a b ++ read_range rd b c.
Proof.
  intros H. unfold read_range.
  replace (Z.to_nat (c - a)) with (Z.to_nat (b - a) + Z.to_nat (c - b))%nat by lia.
  rewrite read_bytes_app. by replace (a + Z.of_nat (Z.to_nat (b - a))) with b by lia.
Qed.

Lemma bytes_at_all rd (p : Z -> bool) l : forall a, bytes_at rd a l -> forallb p l = true ->
  forall x, a <= x < a + Z.of_nat (length l) -> p (rd x) = true.
Proof.
  induction l as [|b l IH]; intros a Hl Hp x Hx; [cbn in Hx; lia|].
  cbn [bytes_at forallb length] in *. destruct Hl as [Hb Hl]. apply andb_true_iff in Hp as [Hpb Hp].
  destruct (decide (x = a)) as [->|]; [by rewrite Hb|]. apply (IH (a + 1)); [done|done|lia].
Qed.

Lemma not_one_of c l x : one_of c l = false -> one_of x l = true -> (c =? x) = false.
Proof. intros Hc Hx. apply Z.eqb_neq. intros ->. congruence. Qed.

Lemma scan_skip {S} (body : S -> Z -> S * option Z) s end_ : forall n d,
  (forall x, d <= x < d + Z.of_nat n -> body s x = (s, None)) -> d + Z.of_nat n <= end_ ->
  scan body s d end_ = scan body s (d + Z.of_nat n) end_.
Proof.
  induction n as [|n IH]; intros d Hb Hle; [by rewrite Z.add_0_r|].
  rewrite scan_step by lia. rewrite Hb by lia. rewrite IH; [f_equal; lia | | lia].
  intros x Hx. apply Hb. lia.
Qed.

#[export] Hint Rewrite length_read_bytes : tgnews.

(** Different keys of a map are no more than its size. *)
Lemma keys_size {A} (m : gmap positive A) (l : list positive) :
  NoDup l -> (forall k, k ∈ l -> is_Some (m !! k)) -> (length l <= size m)%nat.
Proof.
  intros Hnd Hal. rewrite <- (size_list_to_set (C := gset positive) l) by done. rewrite <- size_dom.
  apply subseteq_size. intros k Hk. apply elem_of_list_to_set in Hk. by apply elem_of_dom, Hal.
Qed.

(** [a | b] where [b] has only bits that the multiple [a] of a power has not. *)
Lemma lor_add a b n k : 0 <= n -> a = k * 2 ^ n -> 0 <= b < 2 ^ n -> Z.lor a b = a + b.
Proof.
  intros Hn -> Hb. rewrite <- Z.shiftl_mul_pow2 by done. symmetry.
  assert (Z.land (Z.shiftl k n) b = 0) as H0; [|pose proof (Z.add_lor_land (Z.shiftl k n) b); lia].
  apply Z.bits_inj'. intros i Hi. rewrite Z.land_spec, Z.bits_0. destruct (Z.ltb_spec i n).
  - by rewrite Z.shiftl_spec_low.
  - destruct (Z.eq_dec b 0) as [->|]; [by rewrite Z.bits_0, andb_false_r|].
    rewrite (Z.bits_above_log2 b i), andb_false_r; [done | lia |].
    apply Z.lt_le_trans with n; [apply Z.log2_lt_pow2; lia | done].
Qed.
