(* ===== verification/Str.v ===== *)
(** * Byte-string primitives: [core/str_res.h], [core/str.c]

    The character tables of [str_res.h], the case-insensitive comparisons of
    [str.c] over a memory [rd : address -> byte], and what the tables and the
    comparisons compute. *)
From S2P Require Import Prelude.

Definition LEXBOR_STR_RES_SLIP : Z := 0xFF.

(** ** Tables *)

Definition lexbor_str_res_map_lowercase : list Z :=
  [0x00; 0x01; 0x02; 0x03; 0x04; 0x05; 0x06; 0x07; 0x08; 0x09; 0x0a; 0x0b; 0x0c; 0x0d; 0x0e; 0x0f;
   0x10; 0x11; 0x12; 0x13; 0x14; 0x15; 0x16; 0x17; 0x18; 0x19; 0x1a; 0x1b; 0x1c; 0x1d; 0x1e; 0x1f;
   0x20; 0x21; 0x22; 0x23; 0x24; 0x25; 0x26; 0x27; 0x28; 0x29; 0x2a; 0x2b; 0x2c; 0x2d; 0x2e; 0x2f;
   0x30; 0x31; 0x32; 0x33; 0x34; 0x35; 0x36; 0x37; 0x38; 0x39; 0x3a; 0x3b; 0x3c; 0x3d; 0x3e; 0x3f;
   0x40; 0x61; 0x62; 0x63; 0x64; 0x65; 0x66; 0x67; 0x68; 0x69; 0x6a; 0x6b; 0x6c; 0x6d; 0x6e; 0x6f;
   0x70; 0x71; 0x72; 0x73; 0x74; 0x75; 0x76; 0x77; 0x78; 0x79; 0x7a; 0x5b; 0x5c; 0x5d; 0x5e; 0x5f;
   0x60; 0x61; 0x62; 0x63; 0x64; 0x65; 0x66; 0x67; 0x68; 0x69; 0x6a; 0x6b; 0x6c; 0x6d; 0x6e; 0x6f;
   0x70; 0x71; 0x72; 0x73; 0x74; 0x75; 0x76; 0x77; 0x78; 0x79; 0x7a; 0x7b; 0x7c; 0x7d; 0x7e; 0x7f;
   0x80; 0x81; 0x82; 0x83; 0x84; 0x85; 0x86; 0x87; 0x88; 0x89; 0x8a; 0x8b; 0x8c; 0x8d; 0x8e; 0x8f;
   0x90; 0x91; 0x92; 0x93; 0x94; 0x95; 0x96; 0x97; 0x98; 0x99; 0x9a; 0x9b; 0x9c; 0x9d; 0x9e; 0x9f;
   0xa0; 0xa1; 0xa2; 0xa3; 0xa4; 0xa5; 0xa6; 0xa7; 0xa8; 0xa9; 0xaa; 0xab; 0xac; 0xad; 0xae; 0xaf;
   0xb0; 0xb1; 0xb2; 0xb3; 0xb4; 0xb5; 0xb6; 0xb7; 0xb8; 0xb9; 0xba; 0xbb; 0xbc; 0xbd; 0xbe; 0xbf;
   0xc0; 0xc1; 0xc2; 0xc3; 0xc4; 0xc5; 0xc6; 0xc7; 0xc8; 0xc9; 0xca; 0xcb; 0xcc; 0xcd; 0xce; 0xcf;
   0xd0; 0xd1; 0xd2; 0xd3; 0xd4; 0xd5; 0xd6; 0xd7; 0xd8; 0xd9; 0xda; 0xdb; 0xdc; 0xdd; 0xde; 0xdf;
   0xe0; 0xe1; 0xe2; 0xe3; 0xe4; 0xe5; 0xe6; 0xe7; 0xe8; 0xe9; 0xea; 0xeb; 0xec; 0xed; 0xee; 0xef;
   0xf0; 0xf1; 0xf2; 0xf3; 0xf4; 0xf5; 0xf6; 0xf7; 0xf8; 0xf9; 0xfa; 0xfb; 0xfc; 0xfd; 0xfe; 0xff].

Definition lexbor_str_res_alpha_character : list Z :=
  [0xff; 0xff; 0xff; 0xff; 0xff; 0xff; 0xff; 0xff; 0xff; 0xff; 0xff; 0xff; 0xff; 0xff; 0xff; 0xff;
   0xff; 0xff; 0xff; 0xff; 0xff; 0xff; 0xff; 0xff; 0xff; 0xff; 0xff; 0xff; 0xff; 0xff; 0xff; 0xff;
   0xff; 0xff; 0xff; 0xff; 0xff; 0xff; 0xff; 0xff; 0xff; 0xff; 0xff; 0xff; 0xff; 0xff; 0xff; 0xff;
   0xff; 0xff; 0xff; 0xff; 0xff; 0xff; 0xff; 0xff; 0xff; 0xff; 0xff; 0xff; 0xff; 0xff; 0xff; 0xff;
   0xff; 0x0a; 0x0b; 0x0c; 0x0d; 0x0e; 0x0f; 0x0a; 0x0b; 0x0c; 0x0d; 0x0e; 0x0f; 0x0a; 0x0b; 0x0c;
   0x0d; 0x0e; 0x0f; 0x0a; 0x0b; 0x0c; 0x0d; 0x0e; 0x0f; 0x0a; 0x0b; 0xff; 0xff; 0xff; 0xff; 0xff;
   0xff; 0x0c; 0x0d; 0x0e; 0x0f; 0x0a; 0x0b; 0x0c; 0x0d; 0x0e; 0x0f; 0x0a; 0x0b; 0x0c; 0x0d; 0x0e;
   0x0f; 0x0a; 0x0b; 0x0c; 0x0d; 0x0e; 0x0f; 0x0a; 0x0b; 0x0c; 0x0d; 0xff; 0xff; 0xff; 0xff; 0xff;
   0xff; 0xff; 0xff; 0xff; 0xff; 0xff; 0xff; 0xff; 0xff; 0xff; 0xff; 0xff; 0xff; 0xff; 0xff; 0xff;
   0xff; 0xff; 0xff; 0xff; 0xff; 0xff; 0xff; 0xff; 0xff; 0xff; 0xff; 0xff; 0xff; 0xff; 0xff; 0xff;
   0xff; 0xff; 0xff; 0xff; 0xff; 0xff; 0xff; 0xff; 0xff; 0xff; 0xff; 0xff; 0xff; 0xff; 0xff; 0xff;
   0xff; 0xff; 0xff; 0xff; 0xff; 0xff; 0xff; 0xff; 0xff; 0xff; 0xff; 0xff; 0xff; 0xff; 0xff; 0xff;
   0xff; 0xff; 0xff; 0xff; 0xff; 0xff; 0xff; 0xff; 0xff; 0xff; 0xff; 0xff; 0xff; 0xff; 0xff; 0xff;
   0xff; 0xff; 0xff; 0xff; 0xff; 0xff; 0xff; 0xff; 0xff; 0xff; 0xff; 0xff; 0xff; 0xff; 0xff; 0xff;
   0xff; 0xff; 0xff; 0xff; 0xff; 0xff; 0xff; 0xff; 0xff; 0xff; 0xff; 0xff; 0xff; 0xff; 0xff; 0xff;
   0xff; 0xff; 0xff; 0xff; 0xff; 0xff; 0xff; 0xff; 0xff; 0xff; 0xff; 0xff; 0xff; 0xff; 0xff; 0xff].

Definition lexbor_str_res_map_num : list Z :=
  [0xff; 0xff; 0xff; 0xff; 0xff; 0xff; 0xff; 0xff; 0xff; 0xff; 0xff; 0xff; 0xff; 0xff; 0xff; 0xff;
   0xff; 0xff; 0xff; 0xff; 0xff; 0xff; 0xff; 0xff; 0xff; 0xff; 0xff; 0xff; 0xff; 0xff; 0xff; 0xff;
   0xff; 0xff; 0xff; 0xff; 0xff; 0xff; 0xff; 0xff; 0xff; 0xff; 0xff; 0xff; 0xff; 0xff; 0xff; 0xff;
   0x00; 0x01; 0x02; 0x03; 0x04; 0x05; 0x06; 0x07; 0x08; 0x09; 0xff; 0xff; 0xff; 0xff; 0xff; 0xff;
   0xff; 0xff; 0xff; 0xff; 0xff; 0xff; 0xff; 0xff; 0xff; 0xff; 0xff; 0xff; 0xff; 0xff; 0xff; 0xff;
   0xff; 0xff; 0xff; 0xff; 0xff; 0xff; 0xff; 0xff; 0xff; 0xff; 0xff; 0xff; 0xff; 0xff; 0xff; 0xff;
   0xff; 0xff; 0xff; 0xff; 0xff; 0xff; 0xff; 0xff; 0xff; 0xff; 0xff; 0xff; 0xff; 0xff; 0xff; 0xff;
   0xff; 0xff; 0xff; 0xff; 0xff; 0xff; 0xff; 0xff; 0xff; 0xff; 0xff; 0xff; 0xff; 0xff; 0xff; 0xff;
   0xff; 0xff; 0xff; 0xff; 0xff; 0xff; 0xff; 0xff; 0xff; 0xff; 0xff; 0xff; 0xff; 0xff; 0xff; 0xff;
   0xff; 0xff; 0xff; 0xff; 0xff; 0xff; 0xff; 0xff; 0xff; 0xff; 0xff; 0xff; 0xff; 0xff; 0xff; 0xff;
   0xff; 0xff; 0xff; 0xff; 0xff; 0xff; 0xff; 0xff; 0xff; 0xff; 0xff; 0xff; 0xff; 0xff; 0xff; 0xff;
   0xff; 0xff; 0xff; 0xff; 0xff; 0xff; 0xff; 0xff; 0xff; 0xff; 0xff; 0xff; 0xff; 0xff; 0xff; 0xff;
   0xff; 0xff; 0xff; 0xff; 0xff; 0xff; 0xff; 0xff; 0xff; 0xff; 0xff; 0xff; 0xff; 0xff; 0xff; 0xff;
   0xff; 0xff; 0xff; 0xff; 0xff; 0xff; 0xff; 0xff; 0xff; 0xff; 0xff; 0xff; 0xff; 0xff; 0xff; 0xff;
   0xff; 0xff; 0xff; 0xff; 0xff; 0xff; 0xff; 0xff; 0xff; 0xff; 0xff; 0xff; 0xff; 0xff; 0xff; 0xff;
   0xff; 0xff; 0xff; 0xff; 0xff; 0xff; 0xff; 0xff; 0xff; 0xff; 0xff; 0xff; 0xff; 0xff; 0xff; 0xff].

Definition lexbor_str_res_map_hex : list Z :=
  [0xff; 0xff; 0xff; 0xff; 0xff; 0xff; 0xff; 0xff; 0xff; 0xff; 0xff; 0xff; 0xff; 0xff; 0xff; 0xff;
   0xff; 0xff; 0xff; 0xff; 0xff; 0xff; 0xff; 0xff; 0xff; 0xff; 0xff; 0xff; 0xff; 0xff; 0xff; 0xff;
   0xff; 0xff; 0xff; 0xff; 0xff; 0xff; 0xff; 0xff; 0xff; 0xff; 0xff; 0xff; 0xff; 0xff; 0xff; 0xff;
   0x00; 0x01; 0x02; 0x03; 0x04; 0x05; 0x06; 0x07; 0x08; 0x09; 0xff; 0xff; 0xff; 0xff; 0xff; 0xff;
   0xff; 0x0a; 0x0b; 0x0c; 0x0d; 0x0e; 0x0f; 0xff; 0xff; 0xff; 0xff; 0xff; 0xff; 0xff; 0xff; 0xff;
   0xff; 0xff; 0xff; 0xff; 0xff; 0xff; 0xff; 0xff; 0xff; 0xff; 0xff; 0xff; 0xff; 0xff; 0xff; 0xff;
   0xff; 0x0a; 0x0b; 0x0c; 0x0d; 0x0e; 0x0f; 0xff; 0xff; 0xff; 0xff; 0xff; 0xff; 0xff; 0xff; 0xff;
   0xff; 0xff; 0xff; 0xff; 0xff; 0xff; 0xff; 0xff; 0xff; 0xff; 0xff; 0xff; 0xff; 0xff; 0xff; 0xff;
   0xff; 0xff; 0xff; 0xff; 0xff; 0xff; 0xff; 0xff; 0xff; 0xff; 0xff; 0xff; 0xff; 0xff; 0xff; 0xff;
   0xff; 0xff; 0xff; 0xff; 0xff; 0xff; 0xff; 0xff; 0xff; 0xff; 0xff; 0xff; 0xff; 0xff; 0xff; 0xff;
   0xff; 0xff; 0xff; 0xff; 0xff; 0xff; 0xff; 0xff; 0xff; 0xff; 0xff; 0xff; 0xff; 0xff; 0xff; 0xff;
   0xff; 0xff; 0xff; 0xff; 0xff; 0xff; 0xff; 0xff; 0xff; 0xff; 0xff; 0xff; 0xff; 0xff; 0xff; 0xff;
   0xff; 0xff; 0xff; 0xff; 0xff; 0xff; 0xff; 0xff; 0xff; 0xff; 0xff; 0xff; 0xff; 0xff; 0xff; 0xff;
   0xff; 0xff; 0xff; 0xff; 0xff; 0xff; 0xff; 0xff; 0xff; 0xff; 0xff; 0xff; 0xff; 0xff; 0xff; 0xff;
   0xff; 0xff; 0xff; 0xff; 0xff; 0xff; 0xff; 0xff; 0xff; 0xff; 0xff; 0xff; 0xff; 0xff; 0xff; 0xff;
   0xff; 0xff; 0xff; 0xff; 0xff; 0xff; 0xff; 0xff; 0xff; 0xff; 0xff; 0xff; 0xff; 0xff; 0xff; 0xff].

(** Indexing a table with a byte.  A byte is below 256, the length of every
    table; outside it the default keeps the function total. *)
Definition tbl (t : list Z) (c : Z) : Z :=
  if c <? 0 then LEXBOR_STR_RES_SLIP else nth (Z.to_nat c) t LEXBOR_STR_RES_SLIP.

Definition lower (c : Z) : Z := tbl lexbor_str_res_map_lowercase c.

(** [lexbor_str_res_alpha_character[c] != LEXBOR_STR_RES_SLIP] *)
Definition is_alpha (c : Z) : bool :=
  negb (tbl lexbor_str_res_alpha_character c =? LEXBOR_STR_RES_SLIP).

(** ** Comparisons of [str.c] *)

Section Compare.
Context (rd : Z -> Z).

(** [lexbor_str_data_ncasecmp_first]: [None] is the C NULL (mismatch),
    otherwise the address in [first] where the comparison stopped. *)
Fixpoint ncasecmp_first_loop (n : nat) (first sec : Z) : option Z :=
  match n with
  | O => Some first
  | S n' =>
      if rd first =? 0 then Some first
      else if negb (lower (rd first) =? lower (rd sec)) then None
      else ncasecmp_first_loop n' (first + 1) (sec + 1)
  end.

Definition lexbor_str_data_ncasecmp_first (first sec sec_size : Z) : option Z :=
  ncasecmp_first_loop (Z.to_nat sec_size) first sec.

Fixpoint ncasecmp_loop (n : nat) (first sec : Z) : bool :=
  match n with
  | O => true
  | S n' =>
      if negb (lower (rd first) =? lower (rd sec)) then false
      else ncasecmp_loop n' (first + 1) (sec + 1)
  end.

Definition lexbor_str_data_ncasecmp (first sec size : Z) : bool :=
  ncasecmp_loop (Z.to_nat size) first sec.

Fixpoint ncmp_loop (n : nat) (first sec : Z) : bool :=
  match n with
  | O => true
  | S n' => if rd first =? rd sec then ncmp_loop n' (first + 1) (sec + 1) else false
  end.

(** [memcmp(first, sec, size) == 0] *)
Definition lexbor_str_data_ncmp (first sec size : Z) : bool :=
  ncmp_loop (Z.to_nat size) first sec.
End Compare.

(** ** What the tables hold *)

(** Checking a statement on every byte by computation. *)
Definition bytes256 : list Z := map Z.of_nat (seq 0 256).

Lemma byte_in_bytes256 c : 0 <= c < 256 -> In c bytes256.
Proof.
  intros H. apply in_map_iff. exists (Z.to_nat c). split; [lia|]. apply in_seq. lia.
Qed.

Lemma forall_bytes (f : Z -> bool) :
  forallb f bytes256 = true -> forall c, 0 <= c < 256 -> f c = true.
Proof. intros H c Hc. by apply (proj1 (forallb_forall f bytes256) H), byte_in_bytes256. Qed.

Definition is_letter (c : Z) : bool := (65 <=? c) && (c <=? 90) || (97 <=? c) && (c <=? 122).

Lemma tbl_out t c : length t = 256%nat -> ~ 0 <= c < 256 -> tbl t c = LEXBOR_STR_RES_SLIP.
Proof.
  intros Hl Hc. unfold tbl. destruct (c <? 0) eqn:E; [done|]. bool_to_prop.
  apply nth_overflow. lia.
Qed.

(** The table marks exactly the ASCII letters (and no byte outside 0..255). *)
Lemma is_alpha_spec c : is_alpha c = is_letter c.
Proof.
  destruct (decide (0 <= c < 256)) as [H|H].
  - apply eqb_prop.
    exact (forall_bytes (fun c => eqb (is_alpha c) (is_letter c))
             ltac:(vm_compute; reflexivity) c H).
  - unfold is_alpha. rewrite tbl_out by (reflexivity || done). unfold is_letter.
    destruct (65 <=? c) eqn:E1, (c <=? 90) eqn:E2, (97 <=? c) eqn:E3, (c <=? 122) eqn:E4;
      bool_to_prop; (reflexivity || lia).
Qed.

Lemma lower_spec c : 0 <= c < 256 ->
  lower c = if (65 <=? c) && (c <=? 90) then c + 32 else c.
Proof.
  intros H. apply Z.eqb_eq.
  exact (forall_bytes (fun c => lower c =? (if (65 <=? c) && (c <=? 90) then c + 32 else c))
           ltac:(vm_compute; reflexivity) c H).
Qed.

Lemma lower_byte c : 0 <= c < 256 -> 0 <= lower c < 256.
Proof.
  intros H. rewrite lower_spec by done.
  destruct ((65 <=? c) && (c <=? 90)) eqn:E; bool_to_prop; lia.
Qed.

Lemma lower_idem c : 0 <= c < 256 -> lower (lower c) = lower c.
Proof.
  intros H. apply Z.eqb_eq.
  exact (forall_bytes (fun c => lower (lower c) =? lower c) ltac:(vm_compute; reflexivity) c H).
Qed.

(** ** What the comparisons compute *)

Lemma ncasecmp_spec rd n : forall first sec,
  ncasecmp_loop rd n first sec = true <->
  map lower (read_bytes rd first n) = map lower (read_bytes rd sec n).
Proof.
  induction n as [|n IH]; intros f s; simpl; [tauto|].
  destruct (lower (rd f) =? lower (rd s)) eqn:E; bool_to_prop; simpl.
  - rewrite IH, E. split; [intros ->; reflexivity | by intros [= ->]].
  - split; [done | intros [= H1 _]; contradiction].
Qed.

Lemma ncmp_spec rd n : forall first sec,
  ncmp_loop rd n first sec = true <-> read_bytes rd first n = read_bytes rd sec n.
Proof.
  induction n as [|n IH]; intros f s; simpl; [tauto|].
  destruct (rd f =? rd s) eqn:E; bool_to_prop.
  - rewrite IH, E. split; [intros ->; reflexivity | by intros [= ->]].
  - split; [done | intros [= H1 _]; contradiction].
Qed.

(** Equality up to case implies the comparison that ignores it. *)
Lemma ncmp_ncasecmp rd n first sec :
  ncmp_loop rd n first sec = true -> ncasecmp_loop rd n first sec = true.
Proof. rewrite ncmp_spec, ncasecmp_spec. by intros ->. Qed.

(** A prefix comparison stops between [first] and [first + size]. *)
Lemma ncasecmp_first_range rd n : forall first sec p,
  ncasecmp_first_loop rd n first sec = Some p -> first <= p <= first + Z.of_nat n.
Proof.
  induction n as [|n IH]; intros f s p; simpl.
  - intros [= <-]. lia.
  - destruct (rd f =? 0); [intros [= <-]; lia|].
    destruct (negb _); [done|]. intros H%IH. lia.
Qed.

(** Comparing [m] bytes and then [n] more is comparing [m + n] bytes, unless the
    first part already met the terminator. *)
Lemma ncasecmp_first_app rd n m : forall first sec,
  ncasecmp_first_loop rd (m + n) first sec =
  match ncasecmp_first_loop rd m first sec with
  | None => None
  | Some p =>
      if p =? first + Z.of_nat m then ncasecmp_first_loop rd n p (sec + Z.of_nat m)
      else Some p
  end.
Proof.
  induction m as [|m IH]; intros f s.
  - simpl. by rewrite !Z.add_0_r, Z.eqb_refl.
  - cbn [ncasecmp_first_loop Nat.add].
    destruct (rd f =? 0) eqn:E0.
    { destruct (f =? f + Z.of_nat (S m)) eqn:E; bool_to_prop; [lia|done]. }
    destruct (negb _); [done|]. rewrite IH.
    destruct (ncasecmp_first_loop rd m (f + 1) (s + 1)) as [p|]; [|done].
    replace (f + 1 + Z.of_nat m) with (f + Z.of_nat (S m)) by lia.
    by replace (s + 1 + Z.of_nat m) with (s + Z.of_nat (S m)) by lia.
Qed.

#[export] Hint Resolve lower_byte : tgnews.
