(* ===== verification/In.v ===== *)
(** * The chain of incoming buffers: [core/in.c], [core/in.h]

    The tokenizer reads its input from a doubly linked list of
    [lexbor_in_node_t]; each node describes one buffer fed by a call of
    [lxb_html_tokenizer_chunk].  Node pointers are [positive] keys of a finite
    map; [None] is the C NULL.  Positions are addresses. *)
From S2P Require Import Prelude.

(** [enum lexbor_in_opt] *)
Definition LEXBOR_IN_OPT_UNDEF : Z := 0x00.
Definition LEXBOR_IN_OPT_ALLOC : Z := 0x08.

(** [struct lexbor_in_node]; the [incoming] back pointer is the map itself. *)
Record in_node := mk_in_node {
  in_offset : Z;
  in_opt : Z;
  in_begin : Z;
  in_end : Z;
  in_use : Z;
  in_next : option positive;
  in_prev : option positive
}.

(** [lexbor_in_t]: the live nodes of its object pool and the next key. *)
Record lexbor_in := mk_in { in_nodes : gmap positive in_node; in_fresh : positive }.

Definition set_in_next (nx : option positive) (n : in_node) : in_node :=
  mk_in_node (in_offset n) (in_opt n) (in_begin n) (in_end n) (in_use n) nx (in_prev n).
Definition set_in_prev (pv : option positive) (n : in_node) : in_node :=
  mk_in_node (in_offset n) (in_opt n) (in_begin n) (in_end n) (in_use n) (in_next n) pv.
Definition set_in_use (u : Z) (n : in_node) : in_node :=
  mk_in_node (in_offset n) (in_opt n) (in_begin n) (in_end n) u (in_next n) (in_prev n).
Definition set_in_opt (o : Z) (n : in_node) : in_node :=
  mk_in_node (in_offset n) o (in_begin n) (in_end n) (in_use n) (in_next n) (in_prev n).

(** The state [lexbor_in_init] leaves. *)
Definition lexbor_in_init : lexbor_in := mk_in ∅ 1%positive.

Definition lexbor_in_clean (inc : lexbor_in) : lexbor_in := mk_in ∅ (in_fresh inc).

(** [alloc_ok] is the answer of [lexbor_dobject_alloc]. *)
Definition lexbor_in_node_make (inc : lexbor_in) (alloc_ok : bool)
    (last_node : option positive) (buf buf_size : Z) : lexbor_in * option positive :=
  if negb alloc_ok then (inc, None)
  else
    let i := in_fresh inc in
    let offset :=
      match last_node ≫= (in_nodes inc !!.) with
      | Some ln => in_offset ln + (in_end ln - in_begin ln)
      | None => 0
      end in
    let linked :=
      match last_node with
      | Some l => alter (set_in_next (Some i)) l (in_nodes inc)
      | None => in_nodes inc
      end in
    let node := mk_in_node offset LEXBOR_IN_OPT_UNDEF buf (buf + buf_size) buf None last_node in
    (mk_in (<[i := node]> linked) (Pos.succ i), Some i).

(** [lexbor_in_node_destroy] with [self_destroy]. *)
Definition lexbor_in_node_destroy (inc : lexbor_in) (node : option positive) : lexbor_in :=
  match node with
  | None => inc
  | Some i => mk_in (delete i (in_nodes inc)) (in_fresh inc)
  end.

Definition lexbor_in_node_split (inc : lexbor_in) (alloc_ok : bool) (node : positive) (pos : Z)
    : lexbor_in * option positive :=
  if negb alloc_ok then (inc, None)
  else
    match in_nodes inc !! node with
    | None => (inc, None)
    | Some n =>
        let i := in_fresh inc in
        let '(new_use, old_use) :=
          if in_use n >? pos then (in_use n, pos) else (pos, in_use n) in
        let new_node := mk_in_node (in_offset n + (pos - in_begin n)) LEXBOR_IN_OPT_UNDEF
                          pos (in_end n) new_use None (Some node) in
        let old := mk_in_node (in_offset n) (in_opt n) (in_begin n) pos old_use
                     (Some i) (in_prev n) in
        (mk_in (<[i := new_node]> (<[node := old]> (in_nodes inc))) (Pos.succ i), Some i)
    end.

(** [lexbor_in_segment] *)
Definition lexbor_in_segment (n : in_node) (data : Z) : bool :=
  (in_begin n <=? data) && (in_end n >=? data).

(** The walks below follow [next]/[prev]; their fuel is the number of live
    nodes plus one, and [None] is a walk that left the chain (a dangling
    pointer) or did not end. *)
Section Walks.
Context (m : gmap positive in_node).

Definition walk_fuel : nat := S (size m).

Fixpoint last_node_loop (fuel : nat) (node : positive) : option positive :=
  match fuel with
  | O => None
  | S fuel' =>
      n ← m !! node;
      match in_next n with
      | Some nx => last_node_loop fuel' nx
      | None => Some node
      end
  end.

(** [while (node && (node->begin > pos || node->end < pos)) node = node->prev] *)
Fixpoint find_back_loop (fuel : nat) (node : option positive) (pos : Z)
    : option (option positive) :=
  match fuel with
  | O => None
  | S fuel' =>
      match node with
      | None => Some None
      | Some i =>
          n ← m !! i;
          if (in_begin n >? pos) || (in_end n <? pos)
          then find_back_loop fuel' (in_prev n) pos
          else Some (Some i)
      end
  end.

Definition lexbor_in_node_find (node : positive) (pos : Z) : option (option positive) :=
  l ← last_node_loop walk_fuel node;
  find_back_loop (S walk_fuel) (Some l) pos.

(** Both position walks return the node they stop in ([return_node]) and the
    position. *)
Fixpoint pos_up_loop (fuel : nat) (node : positive) (pos offset : Z)
    : option (positive * Z) :=
  match fuel with
  | O => None
  | S fuel' =>
      n ← m !! node;
      let pos := pos + offset in
      if in_end n >=? pos then Some (node, pos)
      else
        match in_next n with
        | None => Some (node, in_end n)
        | Some nx =>
            nn ← m !! nx;
            pos_up_loop fuel' nx (in_begin nn) (pos - in_end n)
        end
  end.

Definition lexbor_in_node_pos_up (node : positive) (pos offset : Z) :=
  pos_up_loop walk_fuel node pos offset.

Fixpoint pos_down_loop (fuel : nat) (node : positive) (pos offset : Z)
    : option (positive * Z) :=
  match fuel with
  | O => None
  | S fuel' =>
      n ← m !! node;
      let pos := pos - offset in
      if in_begin n <=? pos then Some (node, pos)
      else
        match in_prev n with
        | None => Some (node, in_begin n)
        | Some pv =>
            pn ← m !! pv;
            pos_down_loop fuel' pv (in_end pn) (in_begin n - pos)
        end
  end.

Definition lexbor_in_node_pos_down (node : positive) (pos offset : Z) :=
  pos_down_loop walk_fuel node pos offset.
End Walks.

(** ** The chain invariant *)

(** [chain_wf m ids]: the nodes [ids], first to last, are linked both ways,
    each [use] lies in its buffer, and the offsets add up. *)
Record chain_wf (m : gmap positive in_node) (ids : list positive) : Prop := {
  chain_nodup : NoDup ids;
  chain_node : forall k i, ids !! k = Some i -> exists n,
    m !! i = Some n /\
    in_prev n = match k with O => None | S k' => ids !! k' end /\
    in_next n = ids !! S k /\
    in_begin n <= in_use n <= in_end n;
  chain_offset : forall k i j n pn,
    ids !! k = Some j -> ids !! S k = Some i -> m !! j = Some pn -> m !! i = Some n ->
    in_offset n = in_offset pn + (in_end pn - in_begin pn)
}.

(** The absolute position of an address of a node's buffer in the whole input. *)
Definition in_abs (n : in_node) (pos : Z) : Z := in_offset n + (pos - in_begin n).

Section ChainFacts.
Context {m : gmap positive in_node} {ids : list positive} (WF : chain_wf m ids).

Lemma chain_length_size : (length ids <= size m)%nat.
Proof.
  rewrite <- size_dom.
  rewrite <- (size_list_to_set (C := gset positive) ids) by apply WF.
  apply subseteq_size. intros i Hi. apply elem_of_list_to_set in Hi.
  apply list_elem_of_lookup in Hi as [k Hk].
  destruct (chain_node _ _ WF _ _ Hk) as (n & Hn & _). apply elem_of_dom. eauto.
Qed.

Lemma chain_index_fuel k i : ids !! k = Some i -> (k < walk_fuel m)%nat.
Proof.
  intros H%lookup_lt_Some. pose proof chain_length_size. unfold walk_fuel. lia.
Qed.

Lemma chain_lookup k i : ids !! k = Some i ->
  exists n, m !! i = Some n /\ in_prev n = match k with O => None | S k' => ids !! k' end /\
    in_next n = ids !! S k /\ in_begin n <= in_use n <= in_end n.
Proof. apply WF. Qed.

Lemma chain_before k j : ids !! S k = Some j -> exists i, ids !! k = Some i.
Proof. intros H%lookup_lt_Some. apply lookup_lt_is_Some. lia. Qed.

(** Offsets and end positions grow along the chain. *)
Lemma chain_mono d : forall k i j ni nj,
  ids !! k = Some i -> ids !! (k + d)%nat = Some j -> m !! i = Some ni -> m !! j = Some nj ->
  in_offset ni <= in_offset nj /\ in_abs ni (in_end ni) <= in_abs nj (in_end nj).
Proof.
  induction d as [|d IH]; intros k i j ni nj Hi Hj Hni Hnj.
  - rewrite Nat.add_0_r in Hj. simplify_eq. lia.
  - rewrite Nat.add_succ_r in Hj. destruct (chain_before _ _ Hj) as [j' Hj'].
    destruct (chain_lookup _ _ Hj') as (nj' & Hnj' & _ & _ & Huse').
    destruct (chain_lookup _ _ Hj) as (nj2 & Hnj2 & _ & _ & Huse). simplify_eq.
    pose proof (chain_offset _ _ WF _ _ _ _ _ Hj' Hj Hnj' Hnj).
    destruct (IH _ _ _ _ _ Hi Hj' Hni Hnj'). unfold in_abs in *. lia.
Qed.

(** Walking [offset] bytes down from a position stops at the position that
    many bytes before in the whole input, or at the first byte. *)
Lemma pos_down_loop_spec i0 n0 : ids !! 0%nat = Some i0 -> m !! i0 = Some n0 ->
  forall k fuel i n pos offset,
  (k < fuel)%nat -> ids !! k = Some i -> m !! i = Some n ->
  in_begin n <= pos <= in_end n -> 0 <= offset ->
  exists j q nj,
    pos_down_loop m fuel i pos offset = Some (j, q) /\
    j ∈ ids /\ m !! j = Some nj /\ in_begin nj <= q <= in_end nj /\
    in_abs nj q = Z.max (in_offset n0) (in_abs n pos - offset) /\
    (in_abs n pos - offset < in_offset n0 -> j = i0 /\ q = in_begin n0).
Proof.
  intros Hi0 Hn0 k. induction k as [|k IH]; intros fuel i n pos offset Hf Hi Hn Hpos Hoff;
    (destruct fuel as [|fuel]; [lia|]);
    destruct (chain_lookup _ _ Hi) as (n' & Hn' & Hprev & _ & _);
    rewrite Hn in Hn'; injection Hn' as <-;
    pose proof (chain_mono _ 0%nat _ _ _ _ Hi0 Hi Hn0 Hn) as [Hle _];
    cbn [pos_down_loop]; rewrite Hn; cbn;
    (destruct (in_begin n <=? pos - offset) eqn:E; bool_to_prop;
     [ exists i, (pos - offset), n; unfold in_abs;
       repeat split; eauto using list_elem_of_lookup_2; lia | rewrite Hprev ]).
  - assert (i0 = i) as -> by congruence. assert (n0 = n) as -> by congruence.
    exists i, (in_begin n), n. unfold in_abs.
    repeat split; eauto using list_elem_of_lookup_2; lia.
  - destruct (chain_before _ _ Hi) as [j0 Hj0]. rewrite Hj0.
    destruct (chain_lookup _ _ Hj0) as (pn & Hpn & _ & _ & Huse). rewrite Hpn. cbn.
    pose proof (chain_offset _ _ WF _ _ _ _ _ Hj0 Hi Hpn Hn) as Ho.
    destruct (IH fuel j0 pn (in_end pn) (in_begin n - (pos - offset)))
      as (j & q & nj & Hr & Hin & Hj & Hq & Habs & Hout); eauto; try lia.
    exists j, q, nj. split; [done|]. split; [done|]. split; [done|]. split; [done|].
    split; [rewrite Habs; unfold in_abs; lia|]. intros. apply Hout. unfold in_abs in *. lia.
Qed.

(** Walking up is the mirror image, clamped at the last byte. *)
Lemma pos_up_loop_spec i1 n1 : last ids = Some i1 -> m !! i1 = Some n1 ->
  forall r k fuel i n pos offset,
  (length ids = k + S r)%nat -> (r < fuel)%nat ->
  ids !! k = Some i -> m !! i = Some n ->
  in_begin n <= pos <= in_end n -> 0 <= offset ->
  exists j q nj,
    pos_up_loop m fuel i pos offset = Some (j, q) /\
    j ∈ ids /\ m !! j = Some nj /\ in_begin nj <= q <= in_end nj /\
    in_abs nj q = Z.min (in_abs n1 (in_end n1)) (in_abs n pos + offset) /\
    (in_abs n1 (in_end n1) < in_abs n pos + offset -> j = i1 /\ q = in_end n1).
Proof.
  intros Hi1 Hn1. rewrite last_lookup in Hi1.
  intros r. induction r as [|r IH]; intros k fuel i n pos offset Hlen Hf Hi Hn Hpos Hoff;
    (destruct fuel as [|fuel]; [lia|]);
    destruct (chain_lookup _ _ Hi) as (n' & Hn' & _ & Hnext & _);
    rewrite Hn in Hn'; injection Hn' as <-;
    replace (pred (length ids)) with (k + (pred (length ids) - k))%nat in Hi1 by lia;
    pose proof (chain_mono _ _ _ _ _ _ Hi Hi1 Hn Hn1) as [_ Hle];
    cbn [pos_up_loop]; rewrite Hn; cbn; rewrite Z.geb_leb;
    (destruct (pos + offset <=? in_end n) eqn:E; bool_to_prop;
     [ exists i, (pos + offset), n; unfold in_abs in *;
       repeat split; eauto using list_elem_of_lookup_2; lia | rewrite Hnext ]).
  - rewrite (lookup_ge_None_2 ids (S k)) by lia.
    replace (k + (pred (length ids) - k))%nat with k in Hi1 by lia.
    assert (i1 = i) as -> by congruence. assert (n1 = n) as -> by congruence.
    exists i, (in_end n), n. unfold in_abs.
    repeat split; eauto using list_elem_of_lookup_2; lia.
  - destruct (ids !! S k) as [j0|] eqn:Hj0; [|apply lookup_ge_None in Hj0; lia].
    destruct (chain_lookup _ _ Hj0) as (nn & Hnn & _ & _ & Huse). rewrite Hnn. cbn.
    pose proof (chain_offset _ _ WF _ _ _ _ _ Hi Hj0 Hn Hnn) as Ho.
    destruct (IH (S k) fuel j0 nn (in_begin nn) (pos + offset - in_end n))
      as (j & q & nj & Hr & Hin & Hj & Hq & Habs & Hout); eauto; try lia.
    exists j, q, nj. split; [done|]. split; [done|]. split; [done|]. split; [done|].
    split; [rewrite Habs; unfold in_abs; lia|]. intros. apply Hout. unfold in_abs in *. lia.
Qed.
End ChainFacts.

(** ** The operations keep the chain *)

(** Every live key is below the next one the pool hands out. *)
Definition in_fresh_ok (inc : lexbor_in) : Prop :=
  forall i, is_Some (in_nodes inc !! i) -> (i < in_fresh inc)%positive.

Lemma in_fresh_none inc : in_fresh_ok inc -> in_nodes inc !! in_fresh inc = None.
Proof.
  intros H. destruct (in_nodes inc !! in_fresh inc) eqn:E; [|done].
  specialize (H (in_fresh inc) ltac:(eauto)). lia.
Qed.

Lemma chain_fresh_notin inc ids :
  in_fresh_ok inc -> chain_wf (in_nodes inc) ids -> in_fresh inc ∉ ids.
Proof.
  intros Hf WF [k Hk]%list_elem_of_lookup.
  destruct (chain_lookup WF _ _ Hk) as (n & Hn & _).
  rewrite in_fresh_none in Hn by done. discriminate.
Qed.

Lemma in_fresh_ok_insert m f n m' :
  in_fresh_ok (mk_in m f) -> (forall i, is_Some (m' !! i) -> is_Some (m !! i)) ->
  in_fresh_ok (mk_in (<[f := n]> m') (Pos.succ f)).
Proof.
  intros Hf Hm i Hi. cbn in *. destruct (decide (i = f)) as [->|Hne]; [lia|].
  rewrite lookup_insert_ne in Hi by done. apply Hm in Hi. specialize (Hf i Hi). cbn in Hf. lia.
Qed.

(** [n'] is [n] up to its [next] pointer. *)
Definition same_span (n n' : in_node) : Prop :=
  in_offset n' = in_offset n /\ in_begin n' = in_begin n /\ in_end n' = in_end n /\
  in_use n' = in_use n /\ in_prev n' = in_prev n.

(** The map [lexbor_in_node_make] builds. *)
Definition in_link (m : gmap positive in_node) (last_node : option positive) (f : positive)
    (node : in_node) : gmap positive in_node :=
  <[f := node]> match last_node with
                | Some l => alter (set_in_next (Some f)) l m
                | None => m
                end.

(** The nodes of a chain after its last node is linked to a new one. *)
Lemma in_link_lookup m ids f node k i :
  chain_wf m ids -> ids !! k = Some i -> f ∉ ids ->
  exists n n', m !! i = Some n /\ in_link m (last ids) f node !! i = Some n' /\
    same_span n n' /\ in_next n' = (ids ++ [f]) !! S k.
Proof.
  intros WF Hk Hf. destruct (chain_lookup WF _ _ Hk) as (n & Hn & _ & Hnx & _).
  assert (i <> f) by (intros ->; apply Hf; eauto using list_elem_of_lookup_2).
  pose proof (lookup_lt_Some _ _ _ Hk). unfold in_link. rewrite lookup_insert_ne by done.
  rewrite last_lookup.
  destruct (ids !! pred (length ids)) as [l|] eqn:Hl;
    [|apply lookup_ge_None in Hl; lia].
  rewrite lookup_alter. case_decide as El; subst.
  - assert (pred (length ids) = k) as Hkl by (eapply NoDup_lookup; eauto; apply WF).
    exists n, (set_in_next (Some f) n). rewrite Hn. repeat split.
    rewrite lookup_app_r by lia. by replace (S k - length ids)%nat with 0%nat by lia.
  - exists n, n. repeat split; eauto. rewrite Hnx, lookup_app_l; [done|].
    destruct (decide (S k = length ids)); [|lia]. exfalso. apply El.
    replace (pred (length ids)) with k in Hl by lia. congruence.
Qed.

(** The three parts of [chain_wf] for the linked map. *)
Lemma in_link_node m ids f node :
  chain_wf m ids -> f ∉ ids -> in_prev node = last ids -> in_next node = None ->
  in_begin node <= in_use node <= in_end node ->
  forall k i, (ids ++ [f]) !! k = Some i -> exists n,
    in_link m (last ids) f node !! i = Some n /\
    in_prev n = match k with O => None | S k' => (ids ++ [f]) !! k' end /\
    in_next n = (ids ++ [f]) !! S k /\ in_begin n <= in_use n <= in_end n.
Proof.
  intros WF Hf Hp Hx Hu k i Hk.
  apply lookup_app_Some in Hk as [Hk|[Hge Hk]].
  - destruct (in_link_lookup _ _ f node _ _ WF Hk Hf) as (n & n' & Hn & Hn' & Hs & Hnx).
    destruct (chain_lookup WF _ _ Hk) as (n2 & Hn2 & Hprev & _ & Huse).
    rewrite Hn in Hn2. injection Hn2 as <-.
    destruct Hs as (_ & Hb & He & Hus & Hpr).
    exists n'. rewrite Hn', Hpr, Hb, He, Hus. repeat split; try done; try lia.
    rewrite Hprev. destruct k; [done|]. apply lookup_lt_Some in Hk.
    by rewrite lookup_app_l by lia.
  - destruct (k - length ids)%nat as [|?] eqn:Ek; [|done]. injection Hk as <-.
    assert (k = length ids) as -> by lia.
    exists node. unfold in_link. rewrite lookup_insert_eq. repeat split; try done; try lia.
    + rewrite Hp, last_lookup. destruct ids as [|a ids]; [done|]. cbn [length pred].
      rewrite lookup_app_l by (simpl; lia). done.
    + rewrite Hx, lookup_ge_None_2; [done|]. rewrite length_app. simpl. lia.
Qed.

Definition in_last_end (m : gmap positive in_node) (last_node : option positive) : Z :=
  match last_node ≫= (m !!.) with
  | Some ln => in_offset ln + (in_end ln - in_begin ln)
  | None => 0
  end.

Lemma in_link_offset m ids f node :
  chain_wf m ids -> f ∉ ids -> in_offset node = in_last_end m (last ids) ->
  forall k i j n pn, (ids ++ [f]) !! k = Some j -> (ids ++ [f]) !! S k = Some i ->
    in_link m (last ids) f node !! j = Some pn -> in_link m (last ids) f node !! i = Some n ->
    in_offset n = in_offset pn + (in_end pn - in_begin pn).
Proof.
  intros WF Hf Ho k i j n pn Hj Hi Hpn Hn.
  assert (Hj' : ids !! k = Some j).
  { apply lookup_app_Some in Hj as [Hj|[Hge Hj]]; [done|].
    apply lookup_lt_Some in Hi. rewrite length_app in Hi. simpl in Hi. lia. }
  destruct (in_link_lookup _ _ f node _ _ WF Hj' Hf) as (pn0 & pn' & Hpn0 & Hpn' & Hs & _).
  rewrite Hpn in Hpn'. injection Hpn' as <-. destruct Hs as (-> & -> & -> & _).
  apply lookup_app_Some in Hi as [Hi|[Hge Hi]].
  - destruct (in_link_lookup _ _ f node _ _ WF Hi Hf) as (n0 & n' & Hn0 & Hn' & Hs & _).
    rewrite Hn in Hn'. injection Hn' as <-. destruct Hs as (-> & _).
    eapply (chain_offset _ _ WF k); eauto.
  - pose proof (lookup_lt_Some _ _ _ Hj').
    destruct (S k - length ids)%nat as [|?] eqn:Ek; [|done]. injection Hi as <-.
    unfold in_link in Hn. rewrite lookup_insert_eq in Hn. injection Hn as <-.
    rewrite Ho. unfold in_last_end. rewrite last_lookup.
    replace (pred (length ids)) with k by lia. rewrite Hj'. cbn. by rewrite Hpn0.
Qed.

Lemma in_link_wf m ids f node :
  chain_wf m ids -> f ∉ ids -> in_prev node = last ids -> in_next node = None ->
  in_begin node <= in_use node <= in_end node -> in_offset node = in_last_end m (last ids) ->
  chain_wf (in_link m (last ids) f node) (ids ++ [f]).
Proof.
  intros WF Hf Hp Hx Hu Ho. constructor.
  - apply NoDup_app. split; [apply WF|]. split; [|apply NoDup_singleton].
    intros x Hx' ->%list_elem_of_singleton. done.
  - by apply in_link_node.
  - by apply in_link_offset.
Qed.

Lemma in_node_make_ok inc ids buf buf_size :
  chain_wf (in_nodes inc) ids -> in_fresh_ok inc -> 0 <= buf_size ->
  exists inc' i n,
    lexbor_in_node_make inc true (last ids) buf buf_size = (inc', Some i) /\
    chain_wf (in_nodes inc') (ids ++ [i]) /\ in_fresh_ok inc' /\
    in_nodes inc' !! i = Some n /\ in_begin n = buf /\ in_end n = buf + buf_size /\
    in_offset n = in_last_end (in_nodes inc) (last ids).
Proof.
  intros WF Hf Hsz. pose proof (chain_fresh_notin _ _ Hf WF) as Hni.
  destruct inc as [m f]. cbn in *.
  eexists _, f, _. split; [reflexivity|]. cbn. split; [|split; [|split]].
  - by apply in_link_wf; cbn; try lia.
  - eapply in_fresh_ok_insert; [exact Hf|]. intros i Hi.
    destruct (last ids); [|done]. rewrite lookup_alter in Hi.
    case_decide; [|done]. subst. by apply fmap_is_Some in Hi.
  - apply lookup_insert_eq.
  - done.
Qed.

(** A chain of two buffers, of 3 and 2 bytes. *)
Definition two_buffers : lexbor_in :=
  let '(inc, i) := lexbor_in_node_make lexbor_in_init true None 1000 3 in
  fst (lexbor_in_node_make inc true i 2000 2).

Lemma in_init_wf : chain_wf (in_nodes lexbor_in_init) [] /\ in_fresh_ok lexbor_in_init.
Proof.
  split; [split; [constructor | done | done] | intros i [n Hn]; discriminate Hn].
Qed.

Lemma two_buffers_wf : chain_wf (in_nodes two_buffers) [1; 2]%positive.
Proof.
  destruct in_init_wf as [WF0 F0].
  destruct (in_node_make_ok _ _ 1000 3 WF0 F0) as (inc & i & n & [= <- <-] & WF1 & F1 & _); [lia|].
  destruct (in_node_make_ok _ _ 2000 2 WF1 F1) as (inc & i & n' & [= <- <-] & WF2 & _); [lia|].
  exact WF2.
Qed.

(** Appending a buffer with [lexbor_in_node_make] keeps the incoming chain
    well formed: the new node is the last of the chain, covers the buffer, and
    its offset is the total length of the chain before it. *)
Theorem in_node_make_wf inc ids buf buf_size :
  chain_wf (in_nodes inc) ids -> in_fresh_ok inc -> 0 <= buf_size ->
  exists inc' i n,
    lexbor_in_node_make inc true (last ids) buf buf_size = (inc', Some i) /\
    chain_wf (in_nodes inc') (ids ++ [i]) /\ in_fresh_ok inc' /\
    in_nodes inc' !! i = Some n /\ in_begin n = buf /\ in_end n = buf + buf_size /\
    in_offset n = in_last_end (in_nodes inc) (last ids).
Proof. apply in_node_make_ok. Qed.

Lemma in_node_make_wf_witness : exists inc' i n,
  lexbor_in_node_make lexbor_in_init true None 1000 3 = (inc', Some i) /\
  chain_wf (in_nodes inc') [i] /\ in_fresh_ok inc' /\
  in_nodes inc' !! i = Some n /\ in_begin n = 1000 /\ in_end n = 1003 /\ in_offset n = 0.
Proof.
  apply (in_node_make_wf lexbor_in_init [] 1000 3);
    [apply in_init_wf | apply in_init_wf | lia].
Defined.

(** C32: [lexbor_in_node_pos_down] and [lexbor_in_node_pos_up] move a position by
    [offset] bytes of the input, across buffer boundaries, and stop when there are
    not that many: down at the begin of the first node, up at the end of the last
    one, which they return with that node.  The comments of [core/in.h] promise the
    opposite ends.  In every case the position lies in the buffer of the node
    returned, and both loops terminate within the number of live nodes.  Addresses
    are unbounded: the buffers are taken not to lie so near the ends of memory that
    [pos - offset] or [pos + offset] wraps. *)
Theorem in_node_pos_walk m ids k i n pos offset i0 n0 i1 n1 :
  chain_wf m ids -> ids !! k = Some i -> m !! i = Some n ->
  ids !! 0%nat = Some i0 -> m !! i0 = Some n0 -> last ids = Some i1 -> m !! i1 = Some n1 ->
  in_begin n <= pos <= in_end n -> 0 <= offset ->
  (exists j q nj, lexbor_in_node_pos_down m i pos offset = Some (j, q) /\
     m !! j = Some nj /\ in_begin nj <= q <= in_end nj /\
     in_abs nj q = Z.max (in_offset n0) (in_abs n pos - offset) /\
     (in_abs n pos - offset < in_offset n0 -> j = i0 /\ q = in_begin n0)) /\
  (exists j q nj, lexbor_in_node_pos_up m i pos offset = Some (j, q) /\
     m !! j = Some nj /\ in_begin nj <= q <= in_end nj /\
     in_abs nj q = Z.min (in_abs n1 (in_end n1)) (in_abs n pos + offset) /\
     (in_abs n1 (in_end n1) < in_abs n pos + offset -> j = i1 /\ q = in_end n1)).
Proof.
  intros WF Hk Hn Hi0 Hn0 Hi1 Hn1 Hpos Hoff. split.
  - destruct (pos_down_loop_spec WF _ _ Hi0 Hn0 k (walk_fuel m) i n pos offset)
      as (j & q & nj & ? & ? & ? & ? & ? & ?); eauto;
      [by eapply chain_index_fuel|].
    exists j, q, nj. eauto 10.
  - pose proof (lookup_lt_Some _ _ _ Hk). pose proof (chain_length_size WF).
    destruct (pos_up_loop_spec WF _ _ Hi1 Hn1 (length ids - S k) k (walk_fuel m) i n pos offset)
      as (j & q & nj & ? & ? & ? & ? & ? & ?); eauto; unfold walk_fuel; try lia.
    exists j, q, nj. eauto 10.
Qed.

(** Five bytes back from the second byte of the second buffer, there being four:
    the begin of the first buffer; five bytes on: the end of the last. *)
Lemma in_node_pos_walk_witness :
  lexbor_in_node_pos_down (in_nodes two_buffers) 2 2001 5 = Some (1%positive, 1000) /\
  lexbor_in_node_pos_up (in_nodes two_buffers) 2 2001 5 = Some (2%positive, 2002).
Proof.
  destruct (in_node_pos_walk (in_nodes two_buffers) [1; 2]%positive 1 2
    (mk_in_node 3 0 2000 2002 2000 None (Some 1%positive)) 2001 5
    1 (mk_in_node 0 0 1000 1003 1000 (Some 2%positive) None)
    2 (mk_in_node 3 0 2000 2002 2000 None (Some 1%positive)) two_buffers_wf)
    as [(j & q & nj & Hd & _ & _ & _ & Hout) (j' & q' & nj' & Hu & _ & _ & _ & Hout')];
    try reflexivity; try (cbn; lia).
  destruct Hout as [-> ->]; [vm_compute; reflexivity|]. destruct Hout' as [-> ->]; [vm_compute; reflexivity|]. split; assumption.
Defined.
