(* ===== verification/Tag.v ===== *)
(** * Tag names: [tag/const.h], [tag/res.h], [core/shs.c]

    The built-in tags with their ids and the generated static hash table that
    maps a name to its tag ([lexbor_shs_entry_get_static]).  The table is
    checked against a plain linear search of the tag list. *)
From Stdlib Require Import String Ascii.
From S2P Require Import Prelude.
From S2P Require Import Str.

(** The bytes of an ASCII string literal. *)
Fixpoint bytes (s : string) : list Z :=
  match s with
  | EmptyString => []
  | String a s' => Z.of_nat (nat_of_ascii a) :: bytes s'
  end.

(** ** Tag ids: [lxb_tag_id_enum_t] (the ones the model names) *)

Definition LXB_TAG__UNDEF : Z := 0x0000.
Definition LXB_TAG__END_OF_FILE : Z := 0x0001.
Definition LXB_TAG__TEXT : Z := 0x0002.
Definition LXB_TAG__DOCUMENT : Z := 0x0003.
Definition LXB_TAG__EM_COMMENT : Z := 0x0004.
Definition LXB_TAG__EM_DOCTYPE : Z := 0x0005.
Definition LXB_TAG_A : Z := 0x0006.
Definition LXB_TAG_IFRAME : Z := 0x0067.
Definition LXB_TAG_META : Z := 0x007c.
Definition LXB_TAG_NOEMBED : Z := 0x0089.
Definition LXB_TAG_NOFRAMES : Z := 0x008a.
Definition LXB_TAG_NOSCRIPT : Z := 0x008b.
Definition LXB_TAG_P : Z := 0x0091.
Definition LXB_TAG_PLAINTEXT : Z := 0x0095.
Definition LXB_TAG_SCRIPT : Z := 0x00a1.
Definition LXB_TAG_STYLE : Z := 0x00ab.
Definition LXB_TAG_TEXTAREA : Z := 0x00b4.
Definition LXB_TAG_TITLE : Z := 0x00ba.
Definition LXB_TAG_XMP : Z := 0x00c3.
Definition LXB_TAG__LAST_ENTRY : Z := 0x00c4.

(** [lxb_tag_data_t] ([name_upper] and [name_len] are functions of [name]). *)
Record lxb_tag_data := mk_tag_data { tag_name : list Z; tag_id : Z }.

#[export] Instance lxb_tag_data_eq_dec : EqDecision lxb_tag_data.
Proof. solve_decision. Defined.

(** [lexbor_shs_entry_t]; [value] points into [lxb_tag_res_data_default]. *)
Record shs_entry := mk_shs {
  shs_key : option (list Z);
  shs_value : Z;
  shs_key_len : Z;
  shs_next : Z
}.

Definition D (n : string) (i : Z) : lxb_tag_data := mk_tag_data (bytes n) i.
Definition E (k : string) (v len nx : Z) : shs_entry := mk_shs (Some (bytes k)) v len nx.
Definition E0 (len : Z) : shs_entry := mk_shs None 0 len 0.

Definition lxb_tag_res_data_default : list lxb_tag_data := (
  [
   D "#undef" 0; D "#end-of-file" 1; D "#text" 2; D "#document" 3; D "!--" 4; D "!doctype" 5;
   D "a" 6; D "abbr" 7; D "acronym" 8; D "address" 9; D "altglyph" 10; D "altglyphdef" 11;
   D "altglyphitem" 12; D "animatecolor" 13; D "animatemotion" 14; D "animatetransform" 15;
   D "annotation-xml" 16; D "applet" 17; D "area" 18; D "article" 19; D "aside" 20;
   D "audio" 21; D "b" 22; D "base" 23; D "basefont" 24; D "bdi" 25; D "bdo" 26;
   D "bgsound" 27; D "big" 28; D "blink" 29; D "blockquote" 30; D "body" 31; D "br" 32;
   D "button" 33; D "canvas" 34; D "caption" 35; D "center" 36; D "cite" 37; D "clippath" 38;
   D "code" 39; D "col" 40; D "colgroup" 41; D "data" 42; D "datalist" 43; D "dd" 44;
   D "del" 45; D "desc" 46; D "details" 47; D "dfn" 48; D "dialog" 49; D "dir" 50; D "div" 51;
   D "dl" 52; D "dt" 53; D "em" 54; D "embed" 55; D "feblend" 56; D "fecolormatrix" 57;
   D "fecomponenttransfer" 58; D "fecomposite" 59; D "feconvolvematrix" 60;
   D "fediffuselighting" 61; D "fedisplacementmap" 62; D "fedistantlight" 63;
   D "fedropshadow" 64; D "feflood" 65; D "fefunca" 66; D "fefuncb" 67; D "fefuncg" 68;
   D "fefuncr" 69; D "fegaussianblur" 70; D "feimage" 71; D "femerge" 72; D "femergenode" 73;
   D "femorphology" 74; D "feoffset" 75; D "fepointlight" 76; D "fespecularlighting" 77;
   D "fespotlight" 78; D "fetile" 79; D "feturbulence" 80; D "fieldset" 81; D "figcaption" 82;
   D "figure" 83; D "font" 84; D "footer" 85; D "foreignobject" 86; D "form" 87; D "frame" 88;
   D "frameset" 89; D "glyphref" 90; D "h1" 91; D "h2" 92; D "h3" 93; D "h4" 94; D "h5" 95;
   D "h6" 96; D "head" 97; D "header" 98; D "hgroup" 99; D "hr" 100; D "html" 101; D "i" 102;
   D "iframe" 103; D "image" 104; D "img" 105; D "input" 106; D "ins" 107; D "isindex" 108;
   D "kbd" 109; D "keygen" 110; D "label" 111; D "legend" 112; D "li" 113;
   D "lineargradient" 114; D "link" 115; D "listing" 116; D "main" 117; D "malignmark" 118;
   D "map" 119; D "mark" 120; D "marquee" 121; D "math" 122; D "menu" 123; D "meta" 124;
   D "meter" 125; D "mfenced" 126; D "mglyph" 127; D "mi" 128; D "mn" 129; D "mo" 130;
   D "ms" 131; D "mtext" 132; D "multicol" 133; D "nav" 134; D "nextid" 135; D "nobr" 136;
   D "noembed" 137; D "noframes" 138; D "noscript" 139; D "object" 140; D "ol" 141;
   D "optgroup" 142; D "option" 143; D "output" 144; D "p" 145; D "param" 146; D "path" 147;
   D "picture" 148; D "plaintext" 149; D "pre" 150; D "progress" 151; D "q" 152;
   D "radialgradient" 153; D "rb" 154; D "rp" 155; D "rt" 156; D "rtc" 157; D "ruby" 158;
   D "s" 159; D "samp" 160; D "script" 161; D "section" 162; D "select" 163; D "slot" 164;
   D "small" 165; D "source" 166; D "spacer" 167; D "span" 168; D "strike" 169; D "strong" 170;
   D "style" 171; D "sub" 172; D "summary" 173; D "sup" 174; D "svg" 175; D "table" 176;
   D "tbody" 177; D "td" 178; D "template" 179; D "textarea" 180; D "textpath" 181;
   D "tfoot" 182; D "th" 183; D "thead" 184; D "time" 185; D "title" 186; D "tr" 187;
   D "track" 188; D "tt" 189; D "u" 190; D "ul" 191; D "var" 192; D "video" 193; D "wbr" 194;
   D "xmp" 195]
)%string.

Definition lxb_tag_res_shs_data_default : list shs_entry := (
  [
   E0 262; E "radialgradient" 153 14 0; E "fecomponenttransfer" 58 19 0; E "abbr" 7 4 1;
   E "feflood" 65 7 0; E "marquee" 121 7 0; E "feblend" 56 7 4; E "optgroup" 142 8 0;
   E "video" 193 5 10; E "u" 190 1 0; E "iframe" 103 6 0; E "animatecolor" 13 12 0;
   E "output" 144 6 0; E "figcaption" 82 10 0; E "mglyph" 127 6 0; E "!--" 4 3 0;
   E "fefuncg" 68 7 0; E "aside" 20 5 0; E "style" 171 5 0; E "strike" 169 6 0;
   E "header" 98 6 0; E "glyphref" 90 8 23; E "label" 111 5 0; E "feconvolvematrix" 60 16 0;
   E "altglyphdef" 11 11 0; E "title" 186 5 0; E "head" 97 4 0; E "noframes" 138 8 0;
   E "code" 39 4 30; E "rb" 154 2 5; E "blink" 29 5 0; E "image" 104 5 0; E "col" 40 3 8;
   E "object" 140 6 12; E "template" 179 8 36; E "h2" 92 2 13; E "lineargradient" 114 14 0;
   E "math" 122 4 0; E "base" 23 4 45; E "dl" 52 2 14; E "del" 45 3 16; E "svg" 175 3 17;
   E "dir" 50 3 0; E "article" 19 7 0; E "strong" 170 6 0; E "dialog" 49 6 0;
   E "details" 47 7 0; E "textpath" 181 8 52; E "mark" 120 4 0; E "basefont" 24 8 0;
   E "fediffuselighting" 61 17 0; E "fespecularlighting" 77 18 0; E "blockquote" 30 10 0;
   E "script" 161 6 58; E "malignmark" 118 10 0; E "hr" 100 2 18; E "source" 166 6 19;
   E "mn" 129 2 0; E "select" 163 6 0; E "main" 117 4 20; E "fieldset" 81 8 62;
   E "ins" 107 3 0; E "frameset" 89 8 0; E "button" 33 6 0; E "fecolormatrix" 57 13 0;
   E "q" 152 1 0; E "animatemotion" 14 13 0; E "time" 185 4 21; E "table" 176 5 25;
   E "h6" 96 2 26; E "cite" 37 4 28; E "img" 105 3 34; E "fepointlight" 76 12 0;
   E "audio" 21 5 0; E "#end-of-file" 1 12 0; E "noscript" 139 8 0; E "foreignobject" 86 13 0;
   E "spacer" 167 6 0; E "samp" 160 4 0; E "altglyphitem" 12 12 0; E "dt" 53 2 0;
   E "data" 42 4 0; E "mtext" 132 5 0; E "path" 147 4 0; E "input" 106 5 0; E "th" 183 2 38;
   E "p" 145 1 0; E "animatetransform" 15 16 0; E "datalist" 43 8 0; E "small" 165 5 0;
   E "b" 22 1 46; E "nextid" 135 6 47; E "noembed" 137 7 0; E "nav" 134 3 0;
   E "bgsound" 27 7 0; E "slot" 164 4 0; E "param" 146 5 0; E "font" 84 4 53;
   E "figure" 83 6 0; E "femerge" 72 7 0; E "femergenode" 73 11 0; E "feoffset" 75 8 60;
   E "#text" 2 5 0; E "ul" 191 2 0; E "fespotlight" 78 11 66; E "form" 87 4 72;
   E "#document" 3 9 76; E "fedistantlight" 63 14 0; E "track" 188 5 0; E "h3" 93 2 77;
   E "h1" 91 2 0; E "i" 102 1 0; E "altglyph" 10 8 0; E "legend" 112 6 115; E "tbody" 177 5 0;
   E "address" 9 7 0; E "caption" 35 7 0; E "option" 143 6 0; E "sup" 174 3 0;
   E "body" 31 4 78; E "progress" 151 8 122; E "acronym" 8 7 0; E "fegaussianblur" 70 14 0;
   E0 0; E0 0; E0 0; E "mi" 128 2 79; E0 0; E "dfn" 48 3 0; E "a" 6 1 80; E "listing" 116 7 87;
   E "span" 168 4 0; E "area" 18 4 0; E "clippath" 38 8 0; E "section" 162 7 0;
   E "li" 113 2 88; E0 0; E "html" 101 4 0; E0 0; E "fedropshadow" 64 12 0; E "embed" 55 5 0;
   E0 0; E0 0; E "multicol" 133 8 0; E "var" 192 3 89; E "rp" 155 2 0; E0 0; E "link" 115 4 0;
   E "mo" 130 2 0; E0 0; E0 0; E "annotation-xml" 16 14 0; E "fedisplacementmap" 62 17 0;
   E "center" 36 6 0; E0 0; E0 0; E0 0; E0 0; E "fefuncb" 67 7 0; E0 0; E0 0; E0 0;
   E "meter" 125 5 0; E0 0; E0 0; E "tt" 189 2 0; E "big" 28 3 93; E0 0; E "tfoot" 182 5 0;
   E "desc" 46 4 0; E "isindex" 108 7 0; E0 0; E "menu" 123 4 0; E "hgroup" 99 6 0; E0 0; E0 0;
   E "wbr" 194 3 0; E0 0; E "pre" 150 3 94; E0 0; E0 0; E0 0; E "picture" 148 7 0;
   E "h4" 94 2 0; E0 0; E0 0; E "meta" 124 4 96; E0 0; E "rtc" 157 3 0; E0 0; E "frame" 88 5 0;
   E "fetile" 79 6 98; E "feimage" 71 7 99; E0 0; E "xmp" 195 3 0; E0 0;
   E "fecomposite" 59 11 100; E "feturbulence" 80 12 0; E0 0; E "summary" 173 7 0;
   E "mfenced" 126 7 0; E0 0; E "sub" 172 3 0; E "colgroup" 41 8 0; E0 0; E0 0; E0 0; E0 0;
   E0 0; E0 0; E0 0; E "dd" 44 2 103; E0 0; E0 0; E0 0; E0 0; E0 0; E0 0; E "div" 51 3 0;
   E "textarea" 180 8 0; E "!doctype" 5 8 0; E "applet" 17 6 0; E0 0; E "br" 32 2 110; E0 0;
   E "keygen" 110 6 0; E "kbd" 109 3 0; E0 0; E "plaintext" 149 9 0; E "s" 159 1 0; E0 0; E0 0;
   E "bdo" 26 3 0; E "td" 178 2 0; E "fefunca" 66 7 0; E "ol" 141 2 0; E "thead" 184 5 0;
   E "nobr" 136 4 112; E0 0; E "tr" 187 2 0; E "map" 119 3 0; E0 0; E0 0; E0 0; E0 0;
   E "#undef" 0 6 113; E "em" 54 2 0; E0 0; E "bdi" 25 3 0; E "femorphology" 74 12 0;
   E "ms" 131 2 116; E "footer" 85 6 0; E "fefuncr" 69 7 0; E "rt" 156 2 117; E0 0; E0 0; E0 0;
   E "h5" 95 2 0; E0 0; E "ruby" 158 4 120; E "canvas" 34 6 0; E0 0; E0 0]
)%string.

(** ** [core/shs.c] *)

(** [lexbor_shs_make_id_m]: [key[0]] and [key[size - 1]] of a non-empty key. *)
Definition lexbor_shs_make_id (key : list Z) (table_size : Z) : Z :=
  let k0 := nth 0 key 0 in
  let kn := nth (length key - 1) key 0 in
  (lower k0 * lower kn * lower k0 + Z.of_nat (length key)) mod table_size + 0x01.

(** [lexbor_str_data_ncasecmp] on two byte strings of the same length. *)
Definition eq_nocase (a b : list Z) : bool :=
  bool_decide (map lower a = map lower b).

Definition shs_at (root : list shs_entry) (i : Z) : shs_entry := nth (Z.to_nat i) root (E0 0).

(** The loop [while (entry->key != NULL)]; the chains of the table are shorter
    than the table, which is the fuel. *)
Fixpoint shs_get_loop (fuel : nat) (root : list shs_entry) (entry : shs_entry) (key : list Z)
    : option shs_entry :=
  match fuel with
  | O => None
  | S fuel' =>
      match shs_key entry with
      | None => None
      | Some ek =>
          let key_len := Z.of_nat (length key) in
          if shs_key_len entry =? key_len then
            if eq_nocase ek key then Some entry
            else shs_get_loop fuel' root (shs_at root (shs_next entry)) key
          else if shs_key_len entry >? key_len then None
          else shs_get_loop fuel' root (shs_at root (shs_next entry)) key
      end
  end.

Definition lexbor_shs_entry_get_static (root : list shs_entry) (key : list Z) : option shs_entry :=
  let entry := shs_at root (lexbor_shs_make_id key (shs_key_len (shs_at root 0))) in
  shs_get_loop (length root) root entry key.

(** The tag a static entry points to. *)
Definition tag_at (i : Z) : lxb_tag_data := nth (Z.to_nat i) lxb_tag_res_data_default (D "" 0).

(** The static part of [lxb_tag_data_by_name_default_cb]. *)
Definition lxb_tag_static_by_name (name : list Z) : option lxb_tag_data :=
  match name with
  | [] => None
  | _ :: _ =>
      match lexbor_shs_entry_get_static lxb_tag_res_shs_data_default name with
      | Some e => Some (tag_at (shs_value e))
      | None => None
      end
  end.

(** ** The reference: a linear search, ignoring case *)

Definition tag_search (name : list Z) : option lxb_tag_data :=
  find (fun d => eq_nocase (tag_name d) name) lxb_tag_res_data_default.

(** *** The lookup depends on the name up to case only *)

Lemma lower_twice c : lower (lower c) = lower c.
Proof.
  destruct (decide (0 <= c < 256)) as [H|H]; [by apply lower_idem|].
  assert (lower c = LEXBOR_STR_RES_SLIP) as -> by (apply tbl_out; [reflexivity | done]).
  reflexivity.
Qed.

Lemma map_lower_twice l : map lower (map lower l) = map lower l.
Proof. rewrite map_map. apply map_ext, lower_twice. Qed.

Lemma eq_nocase_lower a b : eq_nocase a (map lower b) = eq_nocase a b.
Proof. unfold eq_nocase. by rewrite map_lower_twice. Qed.

Lemma nth_map_lower l i : (i < length l)%nat -> nth i (map lower l) 0 = lower (nth i l 0).
Proof.
  intros H. rewrite (nth_indep _ 0 (lower 0)) by (by rewrite length_map). apply map_nth.
Qed.

Lemma shs_make_id_lower k n : k <> [] ->
  lexbor_shs_make_id (map lower k) n = lexbor_shs_make_id k n.
Proof.
  intros Hk. unfold lexbor_shs_make_id. rewrite length_map.
  assert (0 < length k)%nat by (destruct k; simpl; [done | lia]).
  by rewrite !nth_map_lower, !lower_twice by lia.
Qed.

Lemma shs_get_loop_lower root k : forall fuel e,
  shs_get_loop fuel root e (map lower k) = shs_get_loop fuel root e k.
Proof.
  induction fuel as [|fuel IH]; intros e; simpl; [done|].
  destruct (shs_key e); [|done]. by rewrite length_map, eq_nocase_lower, IH.
Qed.

Lemma shs_get_static_lower root k : k <> [] ->
  lexbor_shs_entry_get_static root (map lower k) = lexbor_shs_entry_get_static root k.
Proof.
  intros Hk. unfold lexbor_shs_entry_get_static.
  by rewrite shs_make_id_lower, shs_get_loop_lower.
Qed.

(** *** Facts of the tables, by computation *)

Lemma tag_table_complete :
  forallb (fun d =>
    match lxb_tag_static_by_name (tag_name d) with
    | Some d' => bool_decide (tag_id d' = tag_id d /\ tag_name d' = tag_name d)
    | None => false
    end && bool_decide (map lower (tag_name d) = tag_name d)
        && negb (bool_decide (tag_name d = []))) lxb_tag_res_data_default = true.
Proof. vm_compute. reflexivity. Qed.

Lemma shs_table_sound :
  forallb (fun e =>
    match shs_key e with
    | None => true
    | Some k => bool_decide (tag_name (tag_at (shs_value e)) = k)
    end) lxb_tag_res_shs_data_default = true.
Proof. vm_compute. reflexivity. Qed.

Lemma tag_id_index :
  forallb (fun d => (tag_id d <? LXB_TAG__LAST_ENTRY) &&
     bool_decide (lxb_tag_res_data_default !! Z.to_nat (tag_id d) = Some d))
    lxb_tag_res_data_default = true.
Proof. vm_compute. reflexivity. Qed.

Lemma shs_table_name e k : In e lxb_tag_res_shs_data_default -> shs_key e = Some k ->
  tag_name (tag_at (shs_value e)) = k.
Proof.
  intros Hin Hk. pose proof (proj1 (forallb_forall _ _) shs_table_sound e Hin) as Hs.
  cbv beta in Hs. rewrite Hk in Hs. exact (proj1 (bool_decide_eq_true _) Hs).
Qed.

Lemma tag_table_row d : In d lxb_tag_res_data_default ->
  lxb_tag_static_by_name (tag_name d) = Some d.
Proof.
  intros Hin. pose proof (proj1 (forallb_forall _ _) tag_table_complete d Hin) as H.
  cbv beta in H. apply andb_true_iff in H as [H _]. apply andb_true_iff in H as [H _].
  destruct (lxb_tag_static_by_name (tag_name d)) as [d'|]; [|discriminate H].
  apply bool_decide_eq_true in H as [Hi Hn]. destruct d, d'; cbn [tag_id tag_name] in *.
  congruence.
Qed.

(** A built-in tag's name is in lower case and its id is its row. *)
Lemma tag_table_in d : In d lxb_tag_res_data_default ->
  map lower (tag_name d) = tag_name d /\ tag_id d < LXB_TAG__LAST_ENTRY /\ (lxb_tag_res_data_default !! Z.to_nat (tag_id d)) = Some d.
Proof.
  intros Hin. pose proof (proj1 (forallb_forall _ _) tag_table_complete d Hin) as H.
  pose proof (proj1 (forallb_forall _ _) tag_id_index d Hin) as Hi. cbv beta in H, Hi.
  apply andb_true_iff in H as [H _]. apply andb_true_iff in H as [_ H].
  apply andb_true_iff in Hi as [Hl Hi]. apply Z.ltb_lt in Hl.
  apply bool_decide_eq_true in H, Hi. done.
Qed.

#[global] Opaque lxb_tag_res_shs_data_default lxb_tag_res_data_default.

(** *** What a hit of the hash lookup is *)

Lemma shs_at_in root i : shs_key (shs_at root i) <> None -> In (shs_at root i) root.
Proof.
  intros H. unfold shs_at in *. destruct (nth_in_or_default (Z.to_nat i) root (E0 0)) as [Hin|Hd].
  - done.
  - rewrite Hd in H. by cbn in H.
Qed.

Lemma shs_get_loop_hit root k e' : forall fuel e,
  (shs_key e <> None -> In e root) ->
  shs_get_loop fuel root e k = Some e' ->
  In e' root /\ exists ek, shs_key e' = Some ek /\ eq_nocase ek k = true.
Proof.
  induction fuel as [|fuel IH]; intros e Hin; cbn [shs_get_loop]; [done|].
  destruct (shs_key e) as [ek|] eqn:Ek; [|done]. specialize (Hin ltac:(done)).
  assert (Hnext : forall i, shs_key (shs_at root i) <> None -> In (shs_at root i) root)
    by (intros; by apply shs_at_in).
  destruct (_ =? _); [|destruct (_ >? _); [done | apply IH, Hnext]].
  destruct (eq_nocase ek k) eqn:Ec; [|apply IH, Hnext].
  intros [= <-]. eauto.
Qed.

Lemma shs_get_static_hit root k e :
  lexbor_shs_entry_get_static root k = Some e ->
  In e root /\ exists ek, shs_key e = Some ek /\ eq_nocase ek k = true.
Proof. apply shs_get_loop_hit, shs_at_in. Qed.

Lemma static_by_name_hit name d :
  lxb_tag_static_by_name name = Some d -> eq_nocase (tag_name d) name = true.
Proof.
  unfold lxb_tag_static_by_name. destruct name as [|b name]; [done|].
  destruct (lexbor_shs_entry_get_static _ _) as [e|] eqn:He; [|done].
  apply shs_get_static_hit in He as (Hin & ek & Hk & Hc).
  rewrite <- (shs_table_name _ _ Hin Hk) in Hc. congruence.
Qed.

Lemma static_by_name_nocase n1 n2 :
  map lower n1 = map lower n2 -> lxb_tag_static_by_name n1 = lxb_tag_static_by_name n2.
Proof.
  intros H. destruct n1 as [|a n1], n2 as [|b n2]; try done.
  unfold lxb_tag_static_by_name.
  rewrite <- (shs_get_static_lower _ (a :: n1)), <- (shs_get_static_lower _ (b :: n2)) by done.
  by rewrite H.
Qed.

Lemma tag_at_in i : tag_at i <> D "" 0 -> In (tag_at i) lxb_tag_res_data_default.
Proof.
  intros H. unfold tag_at in *.
  destruct (nth_in_or_default (Z.to_nat i) lxb_tag_res_data_default (D "" 0)); [done|].
  contradiction.
Qed.

Lemma static_by_name_search name : lxb_tag_static_by_name name = tag_search name.
Proof.
  unfold tag_search.
  destruct (find _ lxb_tag_res_data_default) as [d|] eqn:Hf.
  - apply find_some in Hf as [Hin Hc]. rewrite <- (tag_table_row d Hin).
    apply static_by_name_nocase. symmetry. by apply bool_decide_eq_true in Hc.
  - destruct (lxb_tag_static_by_name name) as [d|] eqn:Hs; [|done].
    pose proof (static_by_name_hit _ _ Hs) as Hc.
    assert (Hin : In d lxb_tag_res_data_default).
    { unfold lxb_tag_static_by_name in Hs. destruct name; [done|].
      destruct (lexbor_shs_entry_get_static _ _) as [e|]; [|done].
      assert (d = tag_at (shs_value e)) as -> by congruence.
      apply tag_at_in. intros Hd. rewrite Hd in Hc. discriminate Hc. }
    pose proof (find_none _ _ Hf d Hin) as Hn. cbn in Hn. congruence.
Qed.

Lemma static_by_name_some name d : lxb_tag_static_by_name name = Some d ->
  In d lxb_tag_res_data_default /\ tag_name d = map lower name.
Proof.
  rewrite static_by_name_search. intros [Hin Hc]%find_some. split; [done|].
  apply bool_decide_eq_true in Hc. destruct (tag_table_in d Hin) as [<- _]. done.
Qed.

(** C30: the generated static hash table of tag names is right: for every name,
    whatever its case and bytes, the hash lookup of
    [lxb_tag_data_by_name_default_cb] finds exactly the tag that a linear
    search of the 196 built-in tags ignoring case finds, and finds nothing
    when there is none. *)
Theorem static_by_name_is_search name : lxb_tag_static_by_name name = tag_search name.
Proof. apply static_by_name_search. Qed.
