(* ===== verification/TagHeap.v ===== *)
(** * The tag heap: [core/bst.c], [core/shbst.c], [tag/tag.c]

    Tags that are not built in are appended, at parse time, to a hash table of
    binary search trees keyed by name length; the trees' nodes chain the
    entries of one length.  The file ends with the contract the parser relies
    on: a tag id and a tag name determine each other. *)
From S2P Require Import Prelude.
From S2P Require Import Str.
From S2P Require Import Tag.

(** ** [core/bst.c]

    A tree node carries its [size], the entries chained by [next] (the node's
    own value first) and its two subtrees.  The [parent] pointers, used by
    removal only, are not represented; [Bst] has the same operations on a heap of nodes. *)
Inductive bst (V : Type) :=
  | bst_null
  | bst_node (size : Z) (value : V) (next : list V) (left right : bst V).
Arguments bst_null {V}.
Arguments bst_node {V}.

(** [lexbor_bst_insert] *)
Fixpoint tree_insert {V} (scope : bst V) (size : Z) (value : V) : bst V :=
  match scope with
  | bst_null => bst_node size value [] bst_null bst_null
  | bst_node s v nx l r =>
      if size =? s then bst_node s v (value :: nx) l r
      else if size >? s then bst_node s v nx l (tree_insert r size value)
      else bst_node s v nx (tree_insert l size value) r
  end.

(** [lexbor_bst_search]: the entries of the node it returns, in [next] order. *)
Fixpoint tree_search {V} (scope : bst V) (size : Z) : list V :=
  match scope with
  | bst_null => []
  | bst_node s v nx l r =>
      if s =? size then v :: nx
      else if size >? s then tree_search r size
      else tree_search l size
  end.

(** Inserting after the first entry of a chain. *)
Definition chain_insert {V} (v : V) (c : list V) : list V :=
  match c with
  | [] => [v]
  | h :: t => h :: v :: t
  end.

Lemma bst_search_insert {V} (t : bst V) size v size' :
  tree_search (tree_insert t size v) size' =
  if size =? size' then chain_insert v (tree_search t size') else tree_search t size'.
Proof.
  induction t as [|s w nx l IHl r IHr]; cbn; rewrite ?Z.gtb_ltb.
  - destruct (Z.eqb_spec size size'); [done|]. by destruct (size <? size').
  - destruct (Z.eqb_spec size s), (Z.ltb_spec s size); cbn; rewrite ?Z.gtb_ltb, ?IHl, ?IHr;
      destruct (Z.eqb_spec s size'), (Z.eqb_spec size size'), (Z.ltb_spec s size');
      subst; try lia; done.
Qed.

(** ** [core/shbst.c] *)

Record shbst_entry (V : Type) := mk_shbst_entry { shbst_key : list Z; shbst_value : V }.
Arguments mk_shbst_entry {V}.
Arguments shbst_key {V}.
Arguments shbst_value {V}.

(** [table] has [table_size + 1] slots; slot 0 is never used. *)
Record lexbor_shbst (V : Type) := mk_shbst {
  shbst_table : list (bst (shbst_entry V));
  shbst_table_size : Z
}.
Arguments mk_shbst {V}.
Arguments shbst_table {V}.
Arguments shbst_table_size {V}.

Section Shbst.
Context {V : Type}.

Definition lexbor_shbst_init (table_size : Z) : lexbor_shbst V :=
  mk_shbst (replicate (Z.to_nat (table_size + 1)) bst_null) table_size.

(** [lexbor_shbst_make_id_m] is the same hash as [lexbor_shs_make_id_m]. *)
Definition lexbor_shbst_make_id (s : lexbor_shbst V) (key : list Z) : Z :=
  lexbor_shs_make_id key (shbst_table_size s).

Definition shbst_slot (s : lexbor_shbst V) (idx : Z) : bst (shbst_entry V) :=
  default bst_null (shbst_table s !! Z.to_nat idx).

(** [lexbor_shbst_search] with [case_insensitive] true. *)
Definition lexbor_shbst_search (s : lexbor_shbst V) (key : list Z) : option (shbst_entry V) :=
  match key with
  | [] => None
  | _ :: _ =>
      let node := tree_search (shbst_slot s (lexbor_shbst_make_id s key))
                    (Z.of_nat (length key)) in
      find (fun e => eq_nocase (shbst_key e) key) node
  end.

(** [lexbor_shbst_insert_lowercase], allocation succeeding. *)
Definition lexbor_shbst_insert_lowercase (s : lexbor_shbst V) (key : list Z) (value : V)
    : lexbor_shbst V * option (shbst_entry V) :=
  match key with
  | [] => (s, None)
  | _ :: _ =>
      let idx := lexbor_shbst_make_id s key in
      let entry := mk_shbst_entry (map lower key) value in
      (mk_shbst (<[Z.to_nat idx :=
          tree_insert (shbst_slot s idx) (Z.of_nat (length key)) entry]> (shbst_table s))
         (shbst_table_size s), Some entry)
  end.

Definition shbst_wf (s : lexbor_shbst V) : Prop :=
  0 < shbst_table_size s /\ Z.of_nat (length (shbst_table s)) = shbst_table_size s + 1.

Lemma shbst_init_wf n : 0 < n -> shbst_wf (lexbor_shbst_init n).
Proof. intros H. split; cbn; [done|]. rewrite length_replicate. lia. Qed.

Lemma shbst_id_range s key : shbst_wf s ->
  (0 < Z.to_nat (lexbor_shbst_make_id s key) < length (shbst_table s))%nat.
Proof.
  intros [Hp Hl]. unfold lexbor_shbst_make_id, lexbor_shs_make_id.
  pose proof (Z.mod_pos_bound (lower (nth 0 key 0) * lower (nth (length key - 1) key 0) *
    lower (nth 0 key 0) + Z.of_nat (length key)) (shbst_table_size s) Hp). lia.
Qed.

Lemma shbst_insert_wf s key v : shbst_wf s -> shbst_wf (fst (lexbor_shbst_insert_lowercase s key v)).
Proof. intros [? ?]. destruct key; split; cbn; rewrite ?length_insert; done. Qed.

(** Names equal up to case share slot and length. *)
Lemma shbst_id_nocase s k1 k2 : k1 <> [] -> map lower k1 = map lower k2 ->
  lexbor_shbst_make_id s k1 = lexbor_shbst_make_id s k2.
Proof.
  intros Hk H. unfold lexbor_shbst_make_id.
  rewrite <- (shs_make_id_lower k1), <- (shs_make_id_lower k2); [by rewrite H | | done].
  intros ->. by destruct k1.
Qed.

Lemma shbst_search_nocase s k1 k2 : map lower k1 = map lower k2 ->
  lexbor_shbst_search s k1 = lexbor_shbst_search s k2.
Proof.
  intros H. assert (length k1 = length k2) as Hl.
  { rewrite <- (length_map lower k1), <- (length_map lower k2). by rewrite H. }
  destruct k1 as [|a k1], k2 as [|b k2]; try done. unfold lexbor_shbst_search.
  rewrite (shbst_id_nocase s (a :: k1) (b :: k2)), Hl by done.
  assert (Hext : forall e : shbst_entry V, eq_nocase (shbst_key e) (a :: k1) =
                           eq_nocase (shbst_key e) (b :: k2))
    by (intros; unfold eq_nocase; by rewrite H).
  induction (tree_search _ _) as [|e c IH]; [done|]. cbn [find]. by rewrite Hext, IH.
Qed.

Lemma find_chain_insert (f : shbst_entry V -> bool) e c :
  find f (chain_insert e c) =
  match c with
  | h :: _ => if f h then Some h else if f e then Some e else find f c
  | [] => if f e then Some e else None
  end.
Proof. destruct c as [|h c]; [done|]. cbn. by destruct (f h). Qed.

(** The entries chained under a key's slot and length after an insertion. *)
Definition shbst_chain (s : lexbor_shbst V) (key : list Z) : list (shbst_entry V) :=
  tree_search (shbst_slot s (lexbor_shbst_make_id s key)) (Z.of_nat (length key)).

Lemma shbst_chain_insert s key v key' : shbst_wf s -> key <> [] ->
  shbst_chain (fst (lexbor_shbst_insert_lowercase s key v)) key' =
  if decide (lexbor_shbst_make_id s key = lexbor_shbst_make_id s key' /\ length key = length key')
  then chain_insert (mk_shbst_entry (map lower key) v) (shbst_chain s key')
  else shbst_chain s key'.
Proof.
  intros WF Hk. destruct key as [|a key]; [done|].
  set (K := a :: key) in *. set (e := mk_shbst_entry (map lower K) v).
  change (fst (lexbor_shbst_insert_lowercase s K v)) with
    (mk_shbst (<[Z.to_nat (lexbor_shbst_make_id s K) :=
      tree_insert (shbst_slot s (lexbor_shbst_make_id s K)) (Z.of_nat (length K)) e]>
      (shbst_table s)) (shbst_table_size s)).
  pose proof (shbst_id_range s K WF). pose proof (shbst_id_range s key' WF).
  unfold shbst_chain, shbst_slot at 1. cbn [shbst_table].
  change (lexbor_shbst_make_id (mk_shbst _ (shbst_table_size s)))
    with (lexbor_shbst_make_id s).
  destruct (decide (lexbor_shbst_make_id s K = lexbor_shbst_make_id s key')) as [He|Hne].
  - rewrite <- He, list_lookup_insert_eq by apply shbst_id_range, WF. cbn [default id].
    rewrite bst_search_insert.
    destruct (Z.eqb_spec (Z.of_nat (length K)) (Z.of_nat (length key'))); case_decide; lia || done.
  - rewrite decide_False by tauto. rewrite list_lookup_insert_ne; [done|]. lia.
Qed.

Lemma shbst_search_chain s key : key <> [] ->
  lexbor_shbst_search s key = find (fun e => eq_nocase (shbst_key e) key) (shbst_chain s key).
Proof. by destruct key. Qed.

Lemma shbst_search_insert_ok s key v key' :
  shbst_wf s -> key <> [] -> lexbor_shbst_search s key = None ->
  lexbor_shbst_search (fst (lexbor_shbst_insert_lowercase s key v)) key' =
  if eq_nocase key key' then Some (mk_shbst_entry (map lower key) v)
  else lexbor_shbst_search s key'.
Proof.
  intros WF Hk Hnone. destruct (eq_nocase key key') eqn:Ec.
  - apply bool_decide_eq_true in Ec. rewrite <- (shbst_search_nocase _ key) by done.
    rewrite shbst_search_chain in * by done.
    rewrite shbst_chain_insert, decide_True; [|done..].
    rewrite find_chain_insert. cbn [shbst_key].
    assert (eq_nocase (map lower key) key = true) as ->
      by (apply bool_decide_eq_true, map_lower_twice).
    destruct (shbst_chain s key) as [|h c]; [done|]. cbn [find] in Hnone.
    by destruct (eq_nocase (shbst_key h) key).
  - destruct (decide (key' = [])) as [->|Hk']; [done|].
    rewrite !shbst_search_chain by done. rewrite shbst_chain_insert by done.
    case_decide; [|done]. rewrite find_chain_insert. cbn [shbst_key].
    assert (eq_nocase (map lower key) key' = false) as ->.
    { apply bool_decide_eq_false. rewrite map_lower_twice. by apply bool_decide_eq_false in Ec. }
    destruct (shbst_chain s key') as [|h c]; [done|]. cbn [find].
    by destruct (eq_nocase (shbst_key h) key').
Qed.

(** The string hash of the tag heap is a map from names up to case: after
    inserting a name that was absent, searching any spelling of it finds the
    new entry, and the search of every other name is unchanged, whatever
    hash slot or tree the names share. *)
Theorem shbst_search_insert s key v key' :
  shbst_wf s -> key <> [] -> lexbor_shbst_search s key = None ->
  lexbor_shbst_search (fst (lexbor_shbst_insert_lowercase s key v)) key' =
  if eq_nocase key key' then Some (mk_shbst_entry (map lower key) v)
  else lexbor_shbst_search s key'.
Proof. apply shbst_search_insert_ok. Qed.

Lemma shbst_search_init n key : lexbor_shbst_search (lexbor_shbst_init n) key = None.
Proof.
  destruct key as [|a key]; [done|]. unfold lexbor_shbst_search, shbst_slot, lexbor_shbst_init.
  cbn [shbst_table]. destruct (_ !! _) as [t|] eqn:Hl; [|done]. cbn [default].
  apply lookup_replicate in Hl as [-> _]. done.
Qed.
End Shbst.

Lemma shbst_search_insert_witness :
  lexbor_shbst_search (fst (lexbor_shbst_insert_lowercase (lexbor_shbst_init 128) [0x58; 0x79] 7%nat))
    [0x78; 0x59] = Some (mk_shbst_entry [0x78; 0x79] 7%nat).
Proof.
  refine (eq_trans (shbst_search_insert (lexbor_shbst_init 128) [0x58; 0x79] 7%nat [0x78; 0x59]
    _ _ _) _); [apply shbst_init_wf; lia | done | vm_compute; reflexivity | vm_compute; reflexivity].
Defined.

(** ** [tag/tag.c] *)

(** [lxb_tag_heap_t] with the default callbacks.  [th_data] is the object pool
    [data] by absolute position; a heap entry's [value] points into it, so it
    is the position.  Nothing frees a tag, hence the pool's [allocated] counter
    is the number of its entries. *)
Record lxb_tag_heap := mk_tag_heap {
  th_data : list lxb_tag_data;
  th_heap : lexbor_shbst nat
}.

(** [lxb_tag_heap_init]; [None] is [LXB_STATUS_ERROR_WRONG_ARGS]. *)
Definition lxb_tag_heap_init (table_size : Z) : option lxb_tag_heap :=
  if table_size =? 0 then None
  else Some (mk_tag_heap [] (lexbor_shbst_init table_size)).

(** [lexbor_dobject_clean], [lexbor_shbst_clean]: every slot is zeroed. *)
Definition lxb_tag_heap_clean (h : lxb_tag_heap) : lxb_tag_heap :=
  mk_tag_heap [] (mk_shbst (replicate (length (shbst_table (th_heap h))) bst_null)
                    (shbst_table_size (th_heap h))).

(** [lxb_tag_append] ([lxb_tag_data_set_attr] included). *)
Definition lxb_tag_append (h : lxb_tag_heap) (name : list Z)
    : lxb_tag_heap * option lxb_tag_data :=
  match name with
  | [] => (h, None)
  | _ :: _ =>
      let pos := length (th_data h) in
      match lexbor_shbst_insert_lowercase (th_heap h) name pos with
      | (hp, None) => (mk_tag_heap (th_data h) hp, None)
      | (hp, Some entry) =>
          let data := mk_tag_data (shbst_key entry)
                        (LXB_TAG__LAST_ENTRY + (Z.of_nat (length (th_data h) + 1) - 1)) in
          (mk_tag_heap (th_data h ++ [data]) hp, Some data)
      end
  end.

Definition lxb_tag_data_by_id_default_cb (h : lxb_tag_heap) (id : Z) : option lxb_tag_data :=
  if id >=? LXB_TAG__LAST_ENTRY then th_data h !! Z.to_nat (id - LXB_TAG__LAST_ENTRY)
  else lxb_tag_res_data_default !! Z.to_nat id.

Definition lxb_tag_data_by_name_default_cb (h : lxb_tag_heap) (name : list Z)
    : option lxb_tag_data :=
  match lxb_tag_static_by_name name with
  | Some d => Some d
  | None =>
      match lexbor_shbst_search (th_heap h) name with
      | None => None
      | Some hp_entry => th_data h !! shbst_value hp_entry
      end
  end.

Definition lxb_tag_id_by_name (h : lxb_tag_heap) (name : list Z) : Z :=
  match lxb_tag_data_by_name_default_cb h name with
  | None => LXB_TAG__UNDEF
  | Some data => tag_id data
  end.

Definition lxb_tag_find_or_append (h : lxb_tag_heap) (name : list Z)
    : lxb_tag_heap * option lxb_tag_data :=
  match lxb_tag_data_by_name_default_cb h name with
  | Some d => (h, Some d)
  | None => lxb_tag_append h name
  end.

(** What the heap keeps: its entries point into the pool, at a tag of that
    name, and the tag at position [i] has id [LXB_TAG__LAST_ENTRY + i]. *)
Record tag_heap_wf (h : lxb_tag_heap) : Prop := {
  th_table : shbst_wf (th_heap h);
  th_ids : forall i d, th_data h !! i = Some d -> tag_id d = LXB_TAG__LAST_ENTRY + Z.of_nat i;
  th_entries : forall name e, lexbor_shbst_search (th_heap h) name = Some e ->
    exists d, th_data h !! shbst_value e = Some d /\ tag_name d = map lower name
}.

Lemma tag_heap_init_wf n h : 0 <= n -> lxb_tag_heap_init n = Some h -> tag_heap_wf h.
Proof.
  unfold lxb_tag_heap_init. intros Hn. case_if; [done|]. intros [= <-]. bool_to_prop.
  split; cbn.
  - apply shbst_init_wf. lia.
  - done.
  - intros name e. by rewrite shbst_search_init.
Qed.

(** *** Lookups depend on the name up to case *)

Lemma by_name_nocase h n1 n2 : map lower n1 = map lower n2 ->
  lxb_tag_data_by_name_default_cb h n1 = lxb_tag_data_by_name_default_cb h n2.
Proof.
  intros H. unfold lxb_tag_data_by_name_default_cb.
  by rewrite (static_by_name_nocase n1 n2), (shbst_search_nocase _ n1 n2).
Qed.

Lemma by_name_some h n d : tag_heap_wf h -> lxb_tag_data_by_name_default_cb h n = Some d ->
  tag_name d = map lower n /\ lxb_tag_data_by_id_default_cb h (tag_id d) = Some d.
Proof.
  intros WF. unfold lxb_tag_data_by_name_default_cb, lxb_tag_data_by_id_default_cb.
  destruct (lxb_tag_static_by_name n) as [d'|] eqn:Hs.
  - intros [= ->]. apply static_by_name_some in Hs as [Hin Hn].
    destruct (tag_table_in d Hin) as (_ & Hl & Hi). split; [done|].
    rewrite Z.geb_leb. case_if; bool_to_prop; [lia|done].
  - destruct (lexbor_shbst_search (th_heap h) n) as [e|] eqn:He; [|done].
    intros Hd. destruct (th_entries h WF _ _ He) as (d' & Hd' & Hn). simplify_eq.
    split; [done|]. rewrite (th_ids h WF _ _ Hd), Z.geb_leb.
    case_if; bool_to_prop; [|lia]. rewrite <- Hd. f_equal. lia.
Qed.

(** *** Appending a tag *)

Lemma tag_append_spec h name :
  tag_heap_wf h -> name <> [] -> lxb_tag_data_by_name_default_cb h name = None ->
  exists h' d, lxb_tag_append h name = (h', Some d) /\ tag_heap_wf h' /\
    th_data h' = th_data h ++ [d] /\
    tag_id d = LXB_TAG__LAST_ENTRY + Z.of_nat (length (th_data h)) /\
    forall n, lxb_tag_data_by_name_default_cb h' n =
              if eq_nocase name n then Some d else lxb_tag_data_by_name_default_cb h n.
Proof.
  intros WF Hne. unfold lxb_tag_data_by_name_default_cb at 1.
  destruct (lxb_tag_static_by_name name) eqn:Hs; [done|]. intros Hnone.
  destruct (lexbor_shbst_search (th_heap h) name) as [e|] eqn:Hsr.
  { destruct (th_entries h WF _ _ Hsr) as (? & ? & ?). congruence. }
  set (d := mk_tag_data (map lower name)
              (LXB_TAG__LAST_ENTRY + (Z.of_nat (length (th_data h) + 1) - 1))).
  set (hp := fst (lexbor_shbst_insert_lowercase (th_heap h) name (length (th_data h)))).
  assert (Hsi : forall n, lexbor_shbst_search hp n =
    if eq_nocase name n then Some (mk_shbst_entry (map lower name) (length (th_data h)))
    else lexbor_shbst_search (th_heap h) n)
    by (intros; apply shbst_search_insert_ok; [apply WF|done|done]).
  assert (Hold : forall n e, lexbor_shbst_search (th_heap h) n = Some e ->
    (th_data h ++ [d]) !! shbst_value e = th_data h !! shbst_value e).
  { intros n e (d' & Hd' & _)%(th_entries h WF). apply lookup_app_l. eauto using lookup_lt_Some. }
  exists (mk_tag_heap (th_data h ++ [d]) hp), d. split; [|split; [|split; [|split]]].
  - unfold lxb_tag_append, hp, d. by destruct name.
  - split; cbn.
    + apply shbst_insert_wf, WF.
    + intros i d' [Hi|[Hge Hi]]%lookup_app_Some; [by apply (th_ids h WF)|].
      apply list_lookup_singleton_Some in Hi as [Hz <-]. cbn. lia.
    + intros n e. rewrite Hsi. destruct (eq_nocase name n) eqn:Ec.
      * intros [= <-]. exists d. cbn. rewrite lookup_app_r, Nat.sub_diag by lia.
        split; [done|]. by apply bool_decide_eq_true in Ec.
      * intros He. destruct (th_entries h WF _ _ He) as (d' & Hd' & Hn).
        exists d'. by rewrite (Hold n e He).
  - done.
  - cbn. lia.
  - intros n. unfold lxb_tag_data_by_name_default_cb. cbn [th_data th_heap]. rewrite Hsi.
    destruct (eq_nocase name n) eqn:Ec.
    + apply bool_decide_eq_true in Ec. rewrite <- (static_by_name_nocase name n), Hs by done.
      cbn [shbst_value]. by rewrite lookup_app_r, Nat.sub_diag by lia.
    + destruct (lxb_tag_static_by_name n); [done|].
      destruct (lexbor_shbst_search (th_heap h) n) eqn:He; [|done]. by apply (Hold n).
Qed.

(** C31: a tag id and a tag name determine each other.  [lxb_tag_find_or_append]
    returns, for any name, a tag of that name in lower case; afterwards every
    spelling of the name finds this tag, its id gives it back, and the tags
    found before by any name or id are still found. *)
Theorem tag_find_or_append_roundtrip h name :
  tag_heap_wf h -> name <> [] ->
  exists h' d, lxb_tag_find_or_append h name = (h', Some d) /\ tag_heap_wf h' /\
    tag_name d = map lower name /\
    lxb_tag_data_by_id_default_cb h' (tag_id d) = Some d /\
    (forall n, map lower n = map lower name -> lxb_tag_data_by_name_default_cb h' n = Some d) /\
    (forall n d0, lxb_tag_data_by_name_default_cb h n = Some d0 ->
       lxb_tag_data_by_name_default_cb h' n = Some d0) /\
    (forall i d0, lxb_tag_data_by_id_default_cb h i = Some d0 ->
       lxb_tag_data_by_id_default_cb h' i = Some d0).
Proof.
  intros WF Hne. unfold lxb_tag_find_or_append.
  destruct (lxb_tag_data_by_name_default_cb h name) as [d|] eqn:Hd.
  - destruct (by_name_some h name d WF Hd). exists h, d. repeat split; eauto; try apply WF.
    intros n Hn. by rewrite (by_name_nocase h n name).
  - destruct (tag_append_spec h name WF Hne Hd) as (h' & d & Ha & WF' & Hdata & Hid & Hby).
    assert (Hself : lxb_tag_data_by_name_default_cb h' name = Some d)
      by (rewrite Hby; unfold eq_nocase; by rewrite bool_decide_true).
    destruct (by_name_some h' name d WF' Hself) as [Hn Hi].
    exists h', d. repeat split; eauto; try apply WF'.
    + intros n Hl. by rewrite (by_name_nocase h' n name).
    + intros n d0 H0. rewrite Hby. destruct (eq_nocase name n) eqn:Ec; [|done].
      apply bool_decide_eq_true in Ec. rewrite (by_name_nocase h n name) in H0 by done. congruence.
    + intros i d0. unfold lxb_tag_data_by_id_default_cb. case_if; [|done].
      intros H0. rewrite Hdata, lookup_app_l; eauto using lookup_lt_Some.
Qed.

Lemma tag_find_or_append_roundtrip_witness :
  exists h' d, lxb_tag_find_or_append (mk_tag_heap [] (lexbor_shbst_init 128)) [0x58; 0x2D] = (h', Some d) /\
    tag_name d = [0x78; 0x2D] /\ lxb_tag_data_by_id_default_cb h' (tag_id d) = Some d.
Proof.
  destruct (tag_find_or_append_roundtrip (mk_tag_heap [] (lexbor_shbst_init 128)) [0x58; 0x2D])
    as (h' & d & H & _ & Hn & Hi & _); [apply (tag_heap_init_wf 128); [lia | reflexivity] | done |].
  exists h', d. split; [exact H|]. split; [exact Hn | exact Hi].
Defined.
