(* ===== verification/TkzBase.v ===== *)
(** * The tokenizer's data and macros: [html/token.h], [html/token_attr.h],
      [html/tokenizer.h], [html/tokenizer/error.h], [html/tokenizer/state.h]

    The state every tokenizer function passes on, with one setter per field;
    the interface to the code the tokenizer calls back (the tree builder); and
    the macros of [state.h].  A macro that executes [return v_end] in the C
    function that uses it takes the rest of that function as its last
    argument. *)
From S2P Require Import Prelude.
From S2P Require Import Str.
From S2P Require Import In.
From S2P Require Import Tag.
From S2P Require Import TagHeap.

(** ** Status codes and flags *)

Definition LXB_STATUS_OK : Z := 0x0000.
Definition LXB_STATUS_ERROR : Z := 0x0001.
Definition LXB_STATUS_ERROR_MEMORY_ALLOCATION : Z := 0x0002.

Definition LXB_NS__UNDEF : Z := 0x00.
Definition LXB_NS_HTML : Z := 0x02.

Definition LXB_HTML_TOKEN_TYPE_OPEN : Z := 0x0000.
Definition LXB_HTML_TOKEN_TYPE_CLOSE : Z := 0x0001.
Definition LXB_HTML_TOKEN_TYPE_CLOSE_SELF : Z := 0x0002.
Definition LXB_HTML_TOKEN_TYPE_TEXT : Z := 0x0004.
Definition LXB_HTML_TOKEN_TYPE_DATA : Z := 0x0008.
Definition LXB_HTML_TOKEN_TYPE_RCDATA : Z := 0x0010.
Definition LXB_HTML_TOKEN_TYPE_CDATA : Z := 0x0020.
Definition LXB_HTML_TOKEN_TYPE_NULL : Z := 0x0040.
Definition LXB_HTML_TOKEN_TYPE_FORCE_QUIRKS : Z := 0x0080.
Definition LXB_HTML_TOKEN_TYPE_DONE : Z := 0x0100.

Definition LXB_HTML_TOKEN_ATTR_TYPE_UNDEF : Z := 0x0000.
Definition LXB_HTML_TOKEN_ATTR_TYPE_NAME_NULL : Z := 0x0001.
Definition LXB_HTML_TOKEN_ATTR_TYPE_VALUE_NULL : Z := 0x0002.

Definition LXB_HTML_TOKENIZER_OPT_WO_COPY : Z := 0x01.
Definition LXB_HTML_TOKENIZER_OPT_WO_IN_DESTROY : Z := 0x02.

(** [lxb_html_tokenizer_error_id_t] *)
Inductive error_id :=
  | ABCLOFEMCO | ABDOPUID | ABDOSYID | ABOFDIINNUCHRE | CDINHTCO | CHREOUUNRA | COCHININST
  | COCHRE | ENTAWIAT | DUAT | ENTAWITRSO | EOBETANA | EOINCD | EOINCO | EOINDO
  | EOINSCHTCOLITE | EOINTA | INCLCO | INOPCO | INCHSEAFDONA | INFICHOFTANA | MIATVA | MIDONA
  | MIDOPUID | MIDOSYID | MIENTANA | MIQUBEDOPUID | MIQUBEDOSYID | MISEAFCHRE | MIWHAFDOPUKE
  | MIWHAFDOSYKE | MIWHBEDONA | MIWHBEAT | MIWHBEDOPUANSYID | NECO | NOCHRE | NOININST
  | NOVOHTELSTTAWITRSO | NUCHRE | SUCHRE | SUININST | UNCHAFDOSYID | UNCHINATNA
  | UNCHINUNATVA | UNEQSIBEATNA | UNNUCH | UNQUMAINOFTANA | UNSOINTA | UNNACHRE.

(** [lxb_html_tokenizer_state_f]: the functions [tkz->state] can point to. *)
Inductive tkz_state :=
  (* state.c *)
  | S_data_before | S_data | S_plaintext_before | S_plaintext | S_tag_open | S_end_tag_open
  | S_tag_name | S_before_attribute_name | S_attribute_name | S_after_attribute_name
  | S_before_attribute_value | S_attribute_value_double_quoted
  | S_attribute_value_single_quoted | S_attribute_value_unquoted
  | S_after_attribute_value_quoted | S_self_closing_start_tag | S_bogus_comment_before
  | S_bogus_comment | S_markup_declaration_open | S_markup_declaration_comment
  | S_markup_declaration_doctype | S_markup_declaration_cdata | S_cdata_section_before
  | S_cdata_section | S_cdata_section_bracket | S_cdata_section_end
  (* state_comment.c *)
  | S_comment_before_start | S_comment_start_dash | S_comment | S_comment_less_than_sign
  | S_comment_less_than_sign_bang | S_comment_less_than_sign_bang_dash
  | S_comment_less_than_sign_bang_dash_dash | S_comment_end_dash | S_comment_end
  | S_comment_end_bang
  (* state_doctype.c *)
  | S_doctype_before | S_doctype_before_name | S_doctype_name | S_doctype_after_name
  | S_doctype_after_name_public | S_doctype_after_name_system | S_doctype_after_public_keyword
  | S_doctype_before_public_identifier | S_doctype_public_identifier_double_quoted
  | S_doctype_public_identifier_single_quoted | S_doctype_after_public_identifier
  | S_doctype_between_public_and_system_identifiers | S_doctype_after_system_keyword
  | S_doctype_before_system_identifier | S_doctype_system_identifier_double_quoted
  | S_doctype_system_identifier_single_quoted | S_doctype_after_system_identifier
  | S_doctype_bogus
  (* state_rcdata.c *)
  | S_rcdata_before | S_rcdata | S_rcdata_less_than_sign | S_rcdata_end_tag_open
  | S_rcdata_end_tag_name
  (* state_rawtext.c *)
  | S_rawtext_before | S_rawtext | S_rawtext_less_than_sign | S_rawtext_end_tag_open
  | S_rawtext_end_tag_name
  (* state_script.c *)
  | S_script_data_before | S_script_data | S_script_data_less_than_sign
  | S_script_data_end_tag_open | S_script_data_end_tag_name | S_script_data_escape_start
  | S_script_data_escape_start_dash | S_script_data_escaped | S_script_data_escaped_dash
  | S_script_data_escaped_dash_dash | S_script_data_escaped_less_than_sign
  | S_script_data_escaped_end_tag_open | S_script_data_escaped_end_tag_name
  | S_script_data_double_escape_start | S_script_data_double_escaped
  | S_script_data_double_escaped_dash | S_script_data_double_escaped_dash_dash
  | S_script_data_double_escaped_less_than_sign | S_script_data_double_escaped_end_tag_open
  | S_script_data_double_escape_end.

#[export] Instance tkz_state_eq_dec : EqDecision tkz_state.
Proof. solve_decision. Defined.

(** ** Tokens *)

(** [lxb_html_token_attr_t]; the [next]/[prev] links are the order of the
    token's list of attributes. *)
Record token_attr := mk_attr {
  name_begin : Z; name_end : Z; value_begin : Z; value_end : Z;
  in_name : option positive; in_value : option positive; attr_type : Z
}.

Definition attr_zero : token_attr := mk_attr 0 0 0 0 None None 0.

(** [lxb_html_token_t]; [attr_first] and [attr_last] are the ends of
    [tok_attrs]. *)
Record html_token := mk_token {
  tok_begin : Z; tok_end : Z; tok_in_begin : option positive;
  tok_attrs : list token_attr; tok_base_element : Z; tok_tag_id : Z; tok_type : Z
}.

Definition token_zero : html_token := mk_token 0 0 None [] 0 0 0.

Definition with_begin (v : Z) (k : html_token) : html_token :=
  mk_token v (tok_end k) (tok_in_begin k) (tok_attrs k) (tok_base_element k) (tok_tag_id k) (tok_type k).
Definition with_end (v : Z) (k : html_token) : html_token :=
  mk_token (tok_begin k) v (tok_in_begin k) (tok_attrs k) (tok_base_element k) (tok_tag_id k) (tok_type k).
Definition with_in_begin (v : option positive) (k : html_token) : html_token :=
  mk_token (tok_begin k) (tok_end k) v (tok_attrs k) (tok_base_element k) (tok_tag_id k) (tok_type k).
Definition with_attrs (v : list token_attr) (k : html_token) : html_token :=
  mk_token (tok_begin k) (tok_end k) (tok_in_begin k) v (tok_base_element k) (tok_tag_id k) (tok_type k).
Definition with_tag_id (v : Z) (k : html_token) : html_token :=
  mk_token (tok_begin k) (tok_end k) (tok_in_begin k) (tok_attrs k) (tok_base_element k) v (tok_type k).
Definition with_type (v : Z) (k : html_token) : html_token :=
  mk_token (tok_begin k) (tok_end k) (tok_in_begin k) (tok_attrs k) (tok_base_element k) (tok_tag_id k) v.

Definition attr_with_name_begin (n : option positive) (v : Z) (a : token_attr) : token_attr :=
  mk_attr v (name_end a) (value_begin a) (value_end a) n (in_value a) (attr_type a).
Definition attr_with_name_end (v : Z) (a : token_attr) : token_attr :=
  mk_attr (name_begin a) v (value_begin a) (value_end a) (in_name a) (in_value a) (attr_type a).
Definition attr_with_value_begin (n : option positive) (v : Z) (a : token_attr) : token_attr :=
  mk_attr (name_begin a) (name_end a) v (value_end a) (in_name a) n (attr_type a).
Definition attr_with_value_end (v : Z) (a : token_attr) : token_attr :=
  mk_attr (name_begin a) (name_end a) (value_begin a) v (in_name a) (in_value a) (attr_type a).
Definition attr_with_type (v : Z) (a : token_attr) : token_attr :=
  mk_attr (name_begin a) (name_end a) (value_begin a) (value_end a) (in_name a) (in_value a) v.

(** Replacing the last element of a list. *)
Definition map_last {A} (f : A -> A) (l : list A) : list A :=
  match last l with
  | None => l
  | Some a => removelast l ++ [f a]
  end.

(** [lxb_html_token_attr_append], the new attribute being all zero
    ([lexbor_dobject_calloc]). *)
Definition lxb_html_token_attr_append (k : html_token) : html_token :=
  with_attrs (tok_attrs k ++ [attr_zero]) k.

(** [lxb_html_token_attr_remove] of the attribute at position [i]. *)
Definition lxb_html_token_attr_remove (k : html_token) (i : nat) : html_token :=
  with_attrs (take i (tok_attrs k) ++ drop (S i) (tok_attrs k)) k.

(** [lxb_html_token_attr_delete]: the attribute's memory goes back to the pool. *)
Definition lxb_html_token_attr_delete (k : html_token) (i : nat) : html_token :=
  lxb_html_token_attr_remove k i.

(** ** The tokenizer *)

(** [lxb_html_tokenizer_t].  [env] is what [callback_token_ctx], [tree] and
    [tag_heap] point to; [tree] says whether the [tree] pointer is set.  The
    fields no function of the tokenizer reads ([state_return], [entity],
    [entity_pos], [entity_value]) and the memory pools are left out, as are
    [base] and [ref_count], which only destruction uses.  [mem] is the memory
    the buffers live in.  [fault] records that the C code would have followed
    a null or dangling pointer. *)
Record tokenizer (E : Type) := mk_tkz {
  state : tkz_state;
  token : option html_token;
  env : E;
  tree : bool;
  incoming : lexbor_in;
  incoming_first : option positive;
  incoming_node : option positive;
  parse_errors : list (Z * error_id);
  markup : Z;
  tmp_incoming_node : option positive;
  tmp_tag_id : Z;
  opt : Z;
  status : Z;
  is_eof : bool;
  reuse : bool;
  attrs_allocated : nat;
  mem : Z -> Z;
  fault : bool
}.
Arguments mk_tkz {E}.
Arguments state {E}. Arguments token {E}. Arguments env {E}. Arguments tree {E}.
Arguments incoming {E}. Arguments incoming_first {E}. Arguments incoming_node {E}.
Arguments parse_errors {E}. Arguments markup {E}. Arguments tmp_incoming_node {E}.
Arguments tmp_tag_id {E}. Arguments opt {E}. Arguments status {E}. Arguments is_eof {E}.
Arguments reuse {E}. Arguments attrs_allocated {E}. Arguments mem {E}. Arguments fault {E}.

Section Setters.
Context {E : Type}.
Implicit Types t : tokenizer E.

Definition set_state t v : tokenizer E := mk_tkz v (token t) (env t) (tree t) (incoming t) (incoming_first t) (incoming_node t) (parse_errors t) (markup t) (tmp_incoming_node t) (tmp_tag_id t) (opt t) (status t) (is_eof t) (reuse t) (attrs_allocated t) (mem t) (fault t).
Definition set_token t v : tokenizer E := mk_tkz (state t) v (env t) (tree t) (incoming t) (incoming_first t) (incoming_node t) (parse_errors t) (markup t) (tmp_incoming_node t) (tmp_tag_id t) (opt t) (status t) (is_eof t) (reuse t) (attrs_allocated t) (mem t) (fault t).
Definition set_env t (v : E) : tokenizer E := mk_tkz (state t) (token t) v (tree t) (incoming t) (incoming_first t) (incoming_node t) (parse_errors t) (markup t) (tmp_incoming_node t) (tmp_tag_id t) (opt t) (status t) (is_eof t) (reuse t) (attrs_allocated t) (mem t) (fault t).
Definition set_tree t v : tokenizer E := mk_tkz (state t) (token t) (env t) v (incoming t) (incoming_first t) (incoming_node t) (parse_errors t) (markup t) (tmp_incoming_node t) (tmp_tag_id t) (opt t) (status t) (is_eof t) (reuse t) (attrs_allocated t) (mem t) (fault t).
Definition set_incoming t v : tokenizer E := mk_tkz (state t) (token t) (env t) (tree t) v (incoming_first t) (incoming_node t) (parse_errors t) (markup t) (tmp_incoming_node t) (tmp_tag_id t) (opt t) (status t) (is_eof t) (reuse t) (attrs_allocated t) (mem t) (fault t).
Definition set_incoming_first t v : tokenizer E := mk_tkz (state t) (token t) (env t) (tree t) (incoming t) v (incoming_node t) (parse_errors t) (markup t) (tmp_incoming_node t) (tmp_tag_id t) (opt t) (status t) (is_eof t) (reuse t) (attrs_allocated t) (mem t) (fault t).
Definition set_incoming_node t v : tokenizer E := mk_tkz (state t) (token t) (env t) (tree t) (incoming t) (incoming_first t) v (parse_errors t) (markup t) (tmp_incoming_node t) (tmp_tag_id t) (opt t) (status t) (is_eof t) (reuse t) (attrs_allocated t) (mem t) (fault t).
Definition set_parse_errors t v : tokenizer E := mk_tkz (state t) (token t) (env t) (tree t) (incoming t) (incoming_first t) (incoming_node t) v (markup t) (tmp_incoming_node t) (tmp_tag_id t) (opt t) (status t) (is_eof t) (reuse t) (attrs_allocated t) (mem t) (fault t).
Definition set_markup t v : tokenizer E := mk_tkz (state t) (token t) (env t) (tree t) (incoming t) (incoming_first t) (incoming_node t) (parse_errors t) v (tmp_incoming_node t) (tmp_tag_id t) (opt t) (status t) (is_eof t) (reuse t) (attrs_allocated t) (mem t) (fault t).
Definition set_tmp_incoming_node t v : tokenizer E := mk_tkz (state t) (token t) (env t) (tree t) (incoming t) (incoming_first t) (incoming_node t) (parse_errors t) (markup t) v (tmp_tag_id t) (opt t) (status t) (is_eof t) (reuse t) (attrs_allocated t) (mem t) (fault t).
Definition set_tmp_tag_id t v : tokenizer E := mk_tkz (state t) (token t) (env t) (tree t) (incoming t) (incoming_first t) (incoming_node t) (parse_errors t) (markup t) (tmp_incoming_node t) v (opt t) (status t) (is_eof t) (reuse t) (attrs_allocated t) (mem t) (fault t).
Definition set_opt t v : tokenizer E := mk_tkz (state t) (token t) (env t) (tree t) (incoming t) (incoming_first t) (incoming_node t) (parse_errors t) (markup t) (tmp_incoming_node t) (tmp_tag_id t) v (status t) (is_eof t) (reuse t) (attrs_allocated t) (mem t) (fault t).
Definition set_status t v : tokenizer E := mk_tkz (state t) (token t) (env t) (tree t) (incoming t) (incoming_first t) (incoming_node t) (parse_errors t) (markup t) (tmp_incoming_node t) (tmp_tag_id t) (opt t) v (is_eof t) (reuse t) (attrs_allocated t) (mem t) (fault t).
Definition set_is_eof t v : tokenizer E := mk_tkz (state t) (token t) (env t) (tree t) (incoming t) (incoming_first t) (incoming_node t) (parse_errors t) (markup t) (tmp_incoming_node t) (tmp_tag_id t) (opt t) (status t) v (reuse t) (attrs_allocated t) (mem t) (fault t).
Definition set_reuse t v : tokenizer E := mk_tkz (state t) (token t) (env t) (tree t) (incoming t) (incoming_first t) (incoming_node t) (parse_errors t) (markup t) (tmp_incoming_node t) (tmp_tag_id t) (opt t) (status t) (is_eof t) v (attrs_allocated t) (mem t) (fault t).
Definition set_attrs_allocated t v : tokenizer E := mk_tkz (state t) (token t) (env t) (tree t) (incoming t) (incoming_first t) (incoming_node t) (parse_errors t) (markup t) (tmp_incoming_node t) (tmp_tag_id t) (opt t) (status t) (is_eof t) (reuse t) v (mem t) (fault t).
Definition set_mem t v : tokenizer E := mk_tkz (state t) (token t) (env t) (tree t) (incoming t) (incoming_first t) (incoming_node t) (parse_errors t) (markup t) (tmp_incoming_node t) (tmp_tag_id t) (opt t) (status t) (is_eof t) (reuse t) (attrs_allocated t) v (fault t).
Definition set_fault t v : tokenizer E := mk_tkz (state t) (token t) (env t) (tree t) (incoming t) (incoming_first t) (incoming_node t) (parse_errors t) (markup t) (tmp_incoming_node t) (tmp_tag_id t) (opt t) (status t) (is_eof t) (reuse t) (attrs_allocated t) (mem t) v.
End Setters.

(** ** The interface to the tree builder *)

(** What a token callback can do to the tokenizer: it returns a token or NULL,
    and may call [lxb_html_tokenizer_state_set],
    [lxb_html_tokenizer_tmp_tag_id_set] and [lxb_html_tokenizer_status_set]. *)
Record reply := mk_reply {
  reply_token : option html_token;
  reply_state : option tkz_state;
  reply_tmp_tag_id : option Z;
  reply_status : option Z
}.

Class TkzEnv (E : Type) := {
  (** [tkz->callback_token_done(tkz, token, tkz->callback_token_ctx)] *)
  callback_token_done : tokenizer E -> html_token -> E * reply;
  (** [lxb_html_tree_adjusted_current_node]: the namespace of the node, or no node. *)
  lxb_html_tree_adjusted_current_node : E -> option Z;
  (** [tkz->tag_heap] *)
  tag_heap : E -> lxb_tag_heap;
  (** The answer of [lexbor_dobject_alloc] for the n-th attribute. *)
  attr_alloc_ok : E -> nat -> bool
}.

(** The states the tree builder puts the tokenizer in. *)
Definition text_state (s : tkz_state) : bool :=
  match s with
  | S_data_before | S_rcdata_before | S_rawtext_before | S_script_data_before
  | S_plaintext_before => true
  | _ => false
  end.

(** What the tokenizer relies on: [lxb_html_tokenizer_state_set] is called with
    the initial state of a text mode only.  What the client relies on: a property of
    its own state, which the callback keeps as long as it takes the tokens. *)
Class TkzEnvLaws (E : Type) `{TkzEnv E} : Type := {
  callback_state : forall t k e r s,
    callback_token_done t k = (e, r) -> reply_state r = Some s -> text_state s = true;
  env_ok : E -> Prop;
  callback_env : forall t k e r, env_ok (env t) -> callback_token_done t k = (e, r) ->
    is_Some (reply_token r) -> env_ok e
}.

(** The laws of a client that keeps no property. *)
Definition plain_env {E} `{TkzEnv E} (callback : forall t k e r s,
    callback_token_done t k = (e, r) -> reply_state r = Some s -> text_state s = true) : TkzEnvLaws E :=
  {| callback_state := callback; env_ok _ := True; callback_env _ _ _ _ _ _ _ := I |}.

(** ** Memory

    The first 128 addresses hold the static strings the states compare with;
    the input buffers are elsewhere. *)

Definition lxb_html_tokenizer_eof : Z := 16.
Definition str_doctype : Z := 32.
Definition str_cdata : Z := 48.
Definition str_public : Z := 64.
Definition str_system : Z := 80.
Definition str_script : Z := 96.
Definition STATIC_END : Z := 128.

Definition static_strings : list (Z * list Z) :=
  [ (str_doctype, [100; 111; 99; 116; 121; 112; 101]);   (* "doctype" *)
    (str_cdata, [91; 67; 68; 65; 84; 65; 91]);           (* "[CDATA[" *)
    (str_public, [80; 85; 66; 76; 73; 67]);              (* "PUBLIC" *)
    (str_system, [83; 89; 83; 84; 69; 77]);              (* "SYSTEM" *)
    (str_script, [115; 99; 114; 105; 112; 116]) ].       (* "script" *)

(** Every string is followed by its terminating zero. *)
Definition static_byte (a : Z) : Z :=
  fold_right (fun '(base, s) acc =>
    if (base <=? a) && (a <? base + Z.of_nat (length s)) then nth (Z.to_nat (a - base)) s 0
    else acc) 0 static_strings.

(** The byte at an address, given the memory of the buffers. *)
Definition rdm (m : Z -> Z) (a : Z) : Z := if a <? STATIC_END then static_byte a else m a.

Definition rd {E} (t : tokenizer E) (a : Z) : Z := rdm (mem t) a.

(** ** [lxb_html_tokenizer_error_add] *)

Definition error_add {E} (t : tokenizer E) (pos : Z) (id : error_id) : tokenizer E :=
  set_parse_errors t (parse_errors t ++ [(pos, id)]).

(** ** Access through pointers *)

Section Access.
Context {E : Type}.
Implicit Types t : tokenizer E.

(** [tkz->token] is read: a fault if it is NULL. *)
Definition deref_token t : tokenizer E :=
  match token t with Some _ => t | None => set_fault t true end.

Definition tok t : html_token := default token_zero (token t).

Definition upd_token t (f : html_token -> html_token) : tokenizer E :=
  match token t with
  | Some k => set_token t (Some (f k))
  | None => set_fault t true
  end.

(** [tkz->token->attr_last] *)
Definition attr_last t : option token_attr := last (tok_attrs (tok t)).

Definition deref_attr_last t : tokenizer E :=
  match attr_last t with Some _ => t | None => set_fault t true end.

Definition attr_last_ t : token_attr := default attr_zero (attr_last t).

Definition upd_attr_last t (f : token_attr -> token_attr) : tokenizer E :=
  match attr_last t with
  | Some _ => upd_token t (fun k => with_attrs (map_last f (tok_attrs k)) k)
  | None => set_fault t true
  end.

Definition in_lookup t (i : option positive) : option in_node := i ≫= (in_nodes (incoming t) !!.).

(** [tkz->incoming_node->end] *)
Definition incoming_end t : Z :=
  match in_lookup t (incoming_node t) with Some n => in_end n | None => 0 end.

Definition deref_node t (i : option positive) : tokenizer E :=
  match in_lookup t i with Some _ => t | None => set_fault t true end.

Definition type_or t (flag : Z) : tokenizer E :=
  upd_token t (fun k => with_type (Z.lor (tok_type k) flag) k).

Definition set_type t (ty : Z) : tokenizer E := upd_token t (with_type ty).
Definition set_tag_id t (id : Z) : tokenizer E := upd_token t (with_tag_id id).

Definition attr_type_or t (flag : Z) : tokenizer E :=
  upd_attr_last t (fun a => attr_with_type (Z.lor (attr_type a) flag) a).

(** [lxb_html_tokenizer_error_add(.., tkz->incoming_node->end, id)] *)
Definition error_add_eof t (id : error_id) : tokenizer E :=
  let t := deref_node t (incoming_node t) in error_add t (incoming_end t) id.

(** [lxb_html_tokenizer_error_add(.., tkz->token->end, id)] *)
Definition error_add_token_end t (id : error_id) : tokenizer E :=
  let t := deref_token t in error_add t (tok_end (tok t)) id.
End Access.

(** ** The macros of [state.h] *)

(** The result of a state function, or of the body of its loop. *)
Class Ret (E R : Type) := ret : tokenizer E -> Z -> R.
#[export] Instance ret_state E : Ret E (tokenizer E * Z) := fun t p => (t, p).
#[export] Instance ret_loop E : Ret E (tokenizer E * option Z) := fun t p => (t, Some p).

(** [break] out of the [switch]: on to [data++]. *)
Definition next {E} (t : tokenizer E) : tokenizer E * option Z := (t, None).

Section Macros.
Context {E : Type} `{EV : TkzEnv E}.
Context {R : Type} `{RT : Ret E R}.
Implicit Types t : tokenizer E.

Definition set_begin t (v : Z) : tokenizer E :=
  upd_token t (fun k => with_begin v (with_in_begin (incoming_node t) k)).

Definition set_end t (v : Z) : tokenizer E := upd_token t (with_end v).

Definition set_end_down t (v offset : Z) : tokenizer E :=
  match incoming_node t with
  | None => set_fault t true
  | Some i =>
      match lexbor_in_node_pos_down (in_nodes (incoming t)) i v offset with
      | Some (_, q) => set_end t q
      | None => set_fault t true
      end
  end.

Definition set_end_oef t : tokenizer E :=
  let t := deref_node t (incoming_node t) in set_end t (incoming_end t).

Definition attr_add_m t (v_end : Z) (k : tokenizer E -> R) : R :=
  let t := deref_token t in
  if attr_alloc_ok (env t) (attrs_allocated t) then
    k (upd_token (set_attrs_allocated t (S (attrs_allocated t))) lxb_html_token_attr_append)
  else ret (set_status t LXB_STATUS_ERROR_MEMORY_ALLOCATION) v_end.

Definition attr_set_name_begin t (v : Z) : tokenizer E :=
  upd_attr_last t (attr_with_name_begin (incoming_node t) v).
Definition attr_set_name_end t (v : Z) : tokenizer E := upd_attr_last t (attr_with_name_end v).
Definition attr_set_name_end_oef t : tokenizer E :=
  let t := deref_node t (incoming_node t) in attr_set_name_end t (incoming_end t).
Definition attr_set_value_begin t (v : Z) : tokenizer E :=
  upd_attr_last t (attr_with_value_begin (incoming_node t) v).
Definition attr_set_value_end t (v : Z) : tokenizer E := upd_attr_last t (attr_with_value_end v).
Definition attr_set_value_end_oef t : tokenizer E :=
  let t := deref_node t (incoming_node t) in attr_set_value_end t (incoming_end t).

(** Deleting [attr_last]. *)
Definition attr_delete_last t : tokenizer E :=
  let t := deref_attr_last t in
  upd_token t (fun k => lxb_html_token_attr_delete k (pred (length (tok_attrs k)))).

(** The call of the callback, with what it does to the tokenizer. *)
Definition call_token_done t : tokenizer E :=
  match token t with
  | None => set_fault t true
  | Some k =>
      let '(e, r) := callback_token_done t k in
      let t := set_env t e in
      let t := set_state t (default (state t) (reply_state r)) in
      let t := set_tmp_tag_id t (default (tmp_tag_id t) (reply_tmp_tag_id r)) in
      let t := set_status t (default (status t) (reply_status r)) in
      set_token t (reply_token r)
  end.

Definition _token_done_m t (v_end : Z) (k : tokenizer E -> R) : R :=
  let t := call_token_done t in
  match token t with
  | None =>
      let t := if status t =? LXB_STATUS_OK then set_status t LXB_STATUS_ERROR else t in
      ret t v_end
  | Some _ => k t
  end.

Definition lxb_html_token_clean t : tokenizer E := upd_token t (fun _ => token_zero).

Definition token_done_m t (v_end : Z) (k : tokenizer E -> R) : R :=
  let t := deref_token t in
  if negb (tok_begin (tok t) =? tok_end (tok t)) then
    _token_done_m t v_end (fun t => k (lxb_html_token_clean t))
  else k (lxb_html_token_clean t).

Definition token_done_wo_check_m t (v_end : Z) (k : tokenizer E -> R) : R :=
  _token_done_m t v_end (fun t => k (lxb_html_token_clean t)).

Definition emit_text_not_empty_m t (v_end : Z) (k : tokenizer E -> R) : R :=
  let t := deref_token t in
  if negb (tok_begin (tok t) =? tok_end (tok t)) then
    let t := set_tag_id t LXB_TAG__TEXT in
    let t := set_type t LXB_HTML_TOKEN_TYPE_TEXT in
    _token_done_m t v_end (fun t => k (lxb_html_token_clean t))
  else k t.
End Macros.

(** The five white-space characters the states switch on. *)
Definition is_ws (c : Z) : bool := one_of c [0x09; 0x0A; 0x0C; 0x0D; 0x20].
