(* ===== verification/HtmlIn.v ===== *)
(** * Reading data that spans incoming buffers: [html/in.c]

    A token is a pair of addresses that may lie in different buffers of the
    incoming chain.  The functions here collect or compare the bytes between
    them.  A walk that meets a dangling pointer gives [None]. *)
From S2P Require Import Prelude.
From S2P Require Import Str.
From S2P Require Import In.
From S2P Require Import Tag.
From S2P Require Import TagHeap.
From S2P Require Import TkzBase.

Section HtmlIn.
Context (m : gmap positive in_node) (rd : Z -> Z).

Fixpoint in_make_loop (fuel : nat) (node : positive) (begin_ end_ : Z) (str : list Z)
    : option (Z * list Z) :=
  match fuel with
  | O => None
  | S fuel' =>
      n ← m !! node;
      if lexbor_in_segment n end_ then Some (LXB_STATUS_OK, str ++ read_range rd begin_ end_)
      else
        let str := str ++ read_range rd begin_ (in_end n) in
        match in_next n with
        | None => Some (LXB_STATUS_ERROR, str)
        | Some nx => nn ← m !! nx; in_make_loop fuel' nx (in_begin nn) end_ str
        end
  end.

(** [lxb_html_in_make], the allocations of [str] succeeding: the status and
    the string. *)
Definition lxb_html_in_make (node : option positive) (begin_ end_ : Z) (str : list Z)
    : option (Z * list Z) :=
  if begin_ =? NULL then Some (LXB_STATUS_OK, str)
  else node ≫= fun i => in_make_loop (walk_fuel m) i begin_ end_ str.

Definition lxb_html_in_tag_id (node : option positive) (heap : lxb_tag_heap)
    (begin_ end_ : Z) : option Z :=
  n ← (node ≫= (m !!.));
  if lexbor_in_segment n end_ then Some (lxb_tag_id_by_name heap (read_range rd begin_ end_))
  else
    '(st, str) ← lxb_html_in_make node begin_ end_ [];
    if st =? LXB_STATUS_OK then Some (lxb_tag_id_by_name heap str) else Some LXB_TAG__UNDEF.

Fixpoint in_ncasecmp_loop (fuel : nat) (node : positive) (begin_ data len : Z) : option bool :=
  match fuel with
  | O => None
  | S fuel' =>
      nd ← m !! node;
      let n := in_end nd - begin_ in
      let n := if n >? len then len else n in
      if negb (lexbor_str_data_ncasecmp rd begin_ data n) then Some false
      else
        let len := len - n in
        if len =? 0 then Some true
        else
          match in_next nd with
          | None => Some false
          | Some nx => nn ← m !! nx; in_ncasecmp_loop fuel' nx (in_begin nn) (data + n) len
          end
  end.

Definition lxb_html_in_ncasecmp (node : option positive) (begin_ end_ data len : Z)
    : option bool :=
  i ← node;
  n ← m !! i;
  if lexbor_in_segment n end_ then
    if negb (end_ - begin_ =? len) then Some false
    else Some (lexbor_str_data_ncasecmp rd begin_ data len)
  else in_ncasecmp_loop (walk_fuel m) i begin_ data len.
End HtmlIn.

(** ** What is read does not depend on how the input was cut

    [chain_input] is the whole input held by the chain.  A span from an address
    of one node to an address of a later one is a slice of it. *)
Section Spans.
Context (m : gmap positive in_node) (rd : Z -> Z).

Definition node_bytes (i : positive) : list Z :=
  match m !! i with
  | Some n => read_range rd (in_begin n) (in_end n)
  | None => []
  end.

Definition chain_input (ids : list positive) : list Z := concat (map node_bytes ids).

Context {ids : list positive} (WF : chain_wf m ids).

Lemma length_read_range b e : b <= e -> Z.of_nat (length (read_range rd b e)) = e - b.
Proof. intros H. unfold read_range. rewrite length_read_bytes. lia. Qed.

Lemma take_read_range b e c l : b <= e <= c ->
  take (Z.to_nat (e - b)) (read_range rd b c ++ l) = read_range rd b e.
Proof.
  intros H. rewrite (read_range_split rd b e c) by lia. rewrite <- app_assoc.
  rewrite take_app_length'; [done|]. unfold read_range. by rewrite length_read_bytes.
Qed.

(** The input from an address on. *)
Lemma chain_input_from i0 n0 : ids !! 0%nat = Some i0 -> m !! i0 = Some n0 ->
  forall k i n b, ids !! k = Some i -> m !! i = Some n -> in_begin n <= b <= in_end n ->
  in_offset n0 <= in_abs n b /\
  drop (Z.to_nat (in_abs n b - in_offset n0)) (chain_input ids) =
    read_range rd b (in_end n) ++ chain_input (drop (S k) ids).
Proof.
  intros Hi0 Hn0 k i n b Hi Hn Hb.
  assert (Hlen : forall k i n, ids !! k = Some i -> m !! i = Some n ->
    Z.of_nat (length (chain_input (take k ids))) = in_offset n - in_offset n0).
  { clear k i n b Hi Hn Hb. induction k as [|k IH]; intros i n Hi Hn.
    - rewrite take_0. cbn. assert (n0 = n) by congruence. subst. lia.
    - destruct (chain_before _ _ Hi) as [j Hj].
      destruct (chain_lookup WF _ _ Hj) as (pn & Hpn & _ & _ & Hu).
      pose proof (chain_offset _ _ WF _ _ _ _ _ Hj Hi Hpn Hn).
      rewrite (take_S_r _ _ _ Hj). unfold chain_input in *.
      rewrite map_app, concat_app, length_app. cbn [map concat]. rewrite app_nil_r.
      unfold node_bytes at 2. rewrite Hpn. rewrite Nat2Z.inj_add, (IH _ _ Hj Hpn).
      rewrite length_read_range; lia. }
  pose proof (Hlen _ _ _ Hi Hn) as Hl. unfold in_abs. split; [lia|].
  rewrite <- (take_drop k ids) at 1. rewrite (drop_S _ _ _ Hi). unfold chain_input in *.
  rewrite map_app, concat_app. cbn [map concat]. unfold node_bytes at 2. rewrite Hn.
  rewrite drop_app, drop_ge by lia.
  rewrite (read_range_split rd (in_begin n) b (in_end n)) by lia. rewrite <- app_assoc.
  cbn [app]. rewrite drop_app_length'; [done|]. unfold read_range. rewrite length_read_bytes. lia.
Qed.

Lemma in_make_loop_slice e j nj l : ids !! l = Some j -> m !! j = Some nj ->
  in_begin nj <= e <= in_end nj ->
  forall r k fuel i n b str, (l = k + r)%nat -> (r < fuel)%nat ->
  ids !! k = Some i -> m !! i = Some n -> in_begin n <= b <= in_end n -> in_abs n b <= in_abs nj e ->
  (forall k' i' n', (k <= k' < l)%nat -> ids !! k' = Some i' -> m !! i' = Some n' ->
     lexbor_in_segment n' e = false) ->
  in_make_loop m rd fuel i b e str =
    Some (LXB_STATUS_OK, str ++ take (Z.to_nat (in_abs nj e - in_abs n b))
                                 (read_range rd b (in_end n) ++ chain_input (drop (S k) ids))).
Proof.
  intros Hj Hnj He r. induction r as [|r IH]; intros k fuel i n b str Hl Hf Hi Hn Hb Hle Hseg;
    (destruct fuel as [|fuel]; [lia|]); cbn [in_make_loop]; rewrite Hn; cbn [mbind option_bind].
  - rewrite Nat.add_0_r in Hl. subst l. assert (i = j) as -> by congruence.
    assert (n = nj) as -> by congruence. unfold in_abs in *.
    assert (lexbor_in_segment nj e = true) as ->.
    { unfold lexbor_in_segment. rewrite Z.geb_leb. apply andb_true_iff. split; apply Z.leb_le; lia. }
    do 3 f_equal. rewrite <- (take_read_range b e (in_end nj) (chain_input (drop (S k) ids))) by lia.
    f_equal. lia.
  - rewrite (Hseg k i n) by (done || lia).
    destruct (chain_lookup WF _ _ Hi) as (n' & Hn' & _ & Hnx & _). simplify_eq. rewrite Hnx.
    assert (S k < length ids)%nat by (apply lookup_lt_Some in Hj; lia).
    destruct (ids !! S k) as [i2|] eqn:Hi2; [|apply lookup_ge_None in Hi2; lia].
    destruct (chain_lookup WF _ _ Hi2) as (n2 & Hn2 & _ & _ & Hu2). rewrite Hn2.
    cbn [mbind option_bind].
    pose proof (chain_offset _ _ WF _ _ _ _ _ Hi Hi2 Hn Hn2) as Ho.
    replace (k + S r)%nat with (S k + r)%nat in Hj by lia.
    pose proof (chain_mono WF _ _ _ _ _ _ Hi2 Hj Hn2 Hnj) as [Hm _].
    rewrite (IH (S k) fuel i2 n2 (in_begin n2)); try done; try lia.
    + rewrite <- app_assoc. do 2 f_equal. f_equal.
      rewrite (drop_S _ _ _ Hi2). unfold chain_input at 2. cbn [map concat].
      unfold node_bytes at 1. rewrite Hn2. fold (chain_input (drop (S (S k)) ids)).
      rewrite (take_app (read_range rd b (in_end n))).
      pose proof (length_read_range b (in_end n)). unfold in_abs in *.
      rewrite (take_ge (read_range rd b (in_end n))) by lia. f_equal. f_equal. lia.
    + unfold in_abs in *. lia.
    + intros k' i' n' Hk'. apply Hseg. lia.
Qed.
End Spans.

(** A span of the input that crosses buffers is read as the slice of the
    input it is, however the input was cut into buffers.  For a span from [b] in
    a node of the chain to [e] in the same or a later node (and [e] an address of
    no buffer in between), [lxb_html_in_make] returns OK and exactly the bytes of
    the whole input between the two absolute positions. *)
Theorem html_in_make_slice m rd ids i0 n0 k i n b l j nj e str :
  chain_wf m ids -> ids !! 0%nat = Some i0 -> m !! i0 = Some n0 ->
  ids !! k = Some i -> m !! i = Some n -> in_begin n <= b <= in_end n ->
  ids !! l = Some j -> m !! j = Some nj -> in_begin nj <= e <= in_end nj ->
  (k <= l)%nat -> in_abs n b <= in_abs nj e -> b <> NULL ->
  (forall k' i' n', (k <= k' < l)%nat -> ids !! k' = Some i' -> m !! i' = Some n' ->
     lexbor_in_segment n' e = false) ->
  lxb_html_in_make m rd (Some i) b e str =
    Some (LXB_STATUS_OK,
          str ++ take (Z.to_nat (in_abs nj e - in_abs n b))
                   (drop (Z.to_nat (in_abs n b - in_offset n0)) (chain_input m rd ids))).
Proof.
  intros WF Hi0 Hn0 Hi Hn Hb Hj Hnj He Hkl Hle Hne Hseg.
  unfold lxb_html_in_make. rewrite (proj2 (Z.eqb_neq b NULL)) by done. cbn [mbind option_bind].
  destruct (chain_input_from m rd WF i0 n0 Hi0 Hn0 k i n b Hi Hn Hb) as [_ ->].
  apply (in_make_loop_slice m rd WF e j nj l Hj Hnj He (l - k) k); try done; [lia|].
  pose proof (chain_index_fuel WF _ _ Hj). lia.
Qed.

(** From the second byte of the first buffer to the end of the second. *)
Lemma html_in_make_slice_witness :
  lxb_html_in_make (in_nodes two_buffers) (fun a => a) (Some 1%positive) 1001 2002 [] =
    Some (LXB_STATUS_OK, [1001; 1002; 2000; 2001]).
Proof.
  refine (eq_trans (html_in_make_slice (in_nodes two_buffers) (fun a => a) [1; 2]%positive
    1 _ 0 1 _ 1001 1 2 _ 2002 [] two_buffers_wf _ _ _ _ _ _ _ _ _ _ _ _) _);
    try reflexivity; try (cbn; lia).
  - discriminate.
  - intros k' i' n' Hk. assert (k' = 0)%nat as -> by lia. intros [= <-] [= <-]. reflexivity.
Defined.
