(* ===== verification/TokenData.v ===== *)
(** * The data of a token: [html/token.c]

    A token holds two addresses, perhaps in different buffers.  Here are the
    functions that copy what lies between them and that find the tag it names.
    The tag a token names does not
    depend on how the input was cut. *)
From S2P Require Import Prelude.
From S2P Require Import Str.
From S2P Require Import In.
From S2P Require Import Tag.
From S2P Require Import TagHeap.
From S2P Require Import TkzBase.
From S2P Require Import HtmlIn.

(** [lexbor_str_res_ansi_replacement_character] *)
Definition replacement_character : list Z := [0xEF; 0xBF; 0xBD].

(** ** Copying *)

Section Copy.
Context (m : gmap positive in_node) (rd : Z -> Z).

(** [lxb_html_token_make_data]: the allocations of [str] succeeding. *)
Fixpoint make_data_loop (fuel : nat) (node : positive) (begin_ end_ : Z) (str : list Z)
    : option (Z * list Z) :=
  match fuel with
  | O => None
  | S fuel' =>
      n ← m !! node;
      if lexbor_in_segment n end_ then Some (LXB_STATUS_OK, str ++ read_range rd begin_ end_)
      else
        let str := str ++ read_range rd begin_ (in_end n) in
        match in_next n with
        | None => Some (LXB_STATUS_ERROR, str)
        | Some nx => nn ← m !! nx; make_data_loop fuel' nx (in_begin nn) end_ str
        end
  end.

Definition lxb_html_token_make_data (k : html_token) (str : list Z) : option (Z * list Z) :=
  i ← tok_in_begin k;
  make_data_loop (walk_fuel m) i (tok_begin k) (tok_end k) str.

(** [if (begin_pos != begin) lexbor_str_append_lowercase(..)] *)
Definition strict_flush (begin_pos begin_ : Z) (str : list Z) : list Z :=
  if negb (begin_pos =? begin_) then str ++ map lower (read_range rd begin_pos begin_) else str.

(** One [while (begin < end)] loop of [lxb_html_token_make_data_strict]. *)
Fixpoint strict_run (fuel : nat) (begin_pos begin_ end_ : Z) (str : list Z) : list Z :=
  match fuel with
  | O => str
  | S fuel' =>
      if begin_ <? end_ then
        if rd begin_ =? 0x00 then
          let str := strict_flush begin_pos begin_ str in
          let str := str ++ replacement_character in
          strict_run fuel' (begin_ + 1) (begin_ + 1) end_ str
        else strict_run fuel' begin_pos (begin_ + 1) end_ str
      else strict_flush begin_pos begin_ str
  end.

Definition strict_fuel (begin_ end_ : Z) : nat := S (Z.to_nat (end_ - begin_)).

Fixpoint make_data_strict_loop (fuel : nat) (node : positive) (begin_ end_ : Z) (str : list Z)
    : option (Z * list Z) :=
  match fuel with
  | O => None
  | S fuel' =>
      n ← m !! node;
      if lexbor_in_segment n end_ then
        Some (LXB_STATUS_OK, strict_run (strict_fuel begin_ end_) begin_ begin_ end_ str)
      else
        let str := strict_run (strict_fuel begin_ (in_end n)) begin_ begin_ (in_end n) str in
        match in_next n with
        | None => Some (LXB_STATUS_ERROR, str)
        | Some nx => nn ← m !! nx; make_data_strict_loop fuel' nx (in_begin nn) end_ str
        end
  end.

Definition lxb_html_token_make_data_strict (k : html_token) (str : list Z)
    : option (Z * list Z) :=
  i ← tok_in_begin k;
  make_data_strict_loop (walk_fuel m) i (tok_begin k) (tok_end k) str.

(** [lxb_html_token_data_calc_length] *)
Fixpoint calc_length_loop (fuel : nat) (node : positive) (begin_ end_ len : Z) : option Z :=
  match fuel with
  | O => None
  | S fuel' =>
      n ← m !! node;
      if (begin_ <? end_) || (in_end n >? end_) then
        let len := len + (in_end n - begin_) in
        match in_next n with
        | None => Some 0
        | Some nx => nn ← m !! nx; calc_length_loop fuel' nx (in_begin nn) end_ len
        end
      else Some (len + (end_ - begin_))
  end.

Definition lxb_html_token_data_calc_length (k : html_token) : option Z :=
  i ← tok_in_begin k;
  calc_length_loop (walk_fuel m) i (tok_begin k) (tok_end k) 0.

(** ** The tag *)

(** [lexbor_shbst_insert_wo_copy] and [lxb_tag_append_wo_copy]: the key is kept
    as it is. *)
Definition lexbor_shbst_insert_wo_copy {V} (s : lexbor_shbst V) (key : list Z) (value : V)
    : lexbor_shbst V * option (shbst_entry V) :=
  match key with
  | [] => (s, None)
  | _ :: _ =>
      let idx := lexbor_shbst_make_id s key in
      let entry := mk_shbst_entry key value in
      (mk_shbst (<[Z.to_nat idx :=
          tree_insert (shbst_slot s idx) (Z.of_nat (length key)) entry]> (shbst_table s))
         (shbst_table_size s), Some entry)
  end.

Definition lxb_tag_append_wo_copy (h : lxb_tag_heap) (name : list Z)
    : lxb_tag_heap * option lxb_tag_data :=
  match name with
  | [] => (h, None)
  | _ :: _ =>
      let pos := length (th_data h) in
      match lexbor_shbst_insert_wo_copy (th_heap h) name pos with
      | (hp, None) => (mk_tag_heap (th_data h) hp, None)
      | (hp, Some entry) =>
          let data := mk_tag_data (shbst_key entry)
                        (LXB_TAG__LAST_ENTRY + (Z.of_nat (length (th_data h) + 1) - 1)) in
          (mk_tag_heap (th_data h ++ [data]) hp, Some data)
      end
  end.

Definition tag_id_or_undef (d : option lxb_tag_data) : Z :=
  match d with None => LXB_TAG__UNDEF | Some d => tag_id d end.

Definition lxb_html_token_tag_id_from_data (h : lxb_tag_heap) (k : html_token)
    : option (lxb_tag_heap * Z) :=
  n ← (tok_in_begin k ≫= (m !!.));
  if lexbor_in_segment n (tok_end k) && (Z.land (tok_type k) LXB_HTML_TOKEN_TYPE_NULL =? 0) then
    let name := read_range rd (tok_begin k) (tok_end k) in
    let id := lxb_tag_id_by_name h name in
    if negb (id =? LXB_TAG__UNDEF) then Some (h, id)
    else
      let '(h, d) := lxb_tag_append h name in
      Some (h, tag_id_or_undef d)
  else
    '(st, str) ← lxb_html_token_make_data_strict k [];
    if negb (st =? LXB_STATUS_OK) then Some (h, LXB_TAG__UNDEF)
    else
      let id := lxb_tag_id_by_name h str in
      if negb (id =? LXB_TAG__UNDEF) then Some (h, id)
      else
        let '(h, d) := lxb_tag_append_wo_copy h str in
        Some (h, tag_id_or_undef d).

(** ** What they compute *)

(** NUL becomes U+FFFD, ASCII letters their lower case. *)
Definition strict_byte (c : Z) : list Z := if c =? 0 then replacement_character else [lower c].
Definition strict (l : list Z) : list Z := concat (map strict_byte l).

Lemma strict_app a b : strict (a ++ b) = strict a ++ strict b.
Proof. unfold strict. by rewrite map_app, concat_app. Qed.

Lemma strict_no_null l : ~ In 0 l -> strict l = map lower l.
Proof.
  induction l as [|c l IH]; [done|]. intros Hn. unfold strict, strict_byte in *. cbn.
  rewrite (proj2 (Z.eqb_neq c 0)) by (intros ->; apply Hn; by left). cbn. f_equal. apply IH.
  intros H. apply Hn. by right.
Qed.

Lemma strict_lower l : map lower (strict l) = strict l.
Proof.
  induction l as [|c l IH]; [done|]. change (strict (c :: l)) with (strict_byte c ++ strict l).
  rewrite map_app, IH. f_equal. unfold strict_byte. case_if; [reflexivity|]. cbn.
  by rewrite lower_twice.
Qed.

Lemma read_range_empty a : read_range rd a a = [].
Proof. unfold read_range. by rewrite Z.sub_diag. Qed.

Lemma read_range_first a b : a < b -> read_range rd a b = rd a :: read_range rd (a + 1) b.
Proof.
  intros H. unfold read_range. replace (Z.to_nat (b - a)) with (S (Z.to_nat (b - (a + 1)))) by lia.
  done.
Qed.

Lemma strict_flush_eq bp b str : strict_flush bp b str = str ++ map lower (read_range rd bp b).
Proof.
  unfold strict_flush. destruct (Z.eqb_spec bp b) as [->|]; cbn [negb]; [|done].
  by rewrite read_range_empty, app_nil_r.
Qed.

Lemma strict_run_eq fuel : forall bp b e str, bp <= b -> (Z.to_nat (e - b) < fuel)%nat ->
  strict_run fuel bp b e str = str ++ map lower (read_range rd bp b) ++ strict (read_range rd b e).
Proof.
  induction fuel as [|fuel IH]; intros bp b e str Hb Hf; [lia|]. cbn [strict_run].
  destruct (Z.ltb_spec b e).
  - rewrite (read_range_first b e) by done.
    change (strict (rd b :: ?l)) with (strict_byte (rd b) ++ strict l). unfold strict_byte.
    destruct (rd b =? 0) eqn:E.
    + rewrite strict_flush_eq, IH by lia. rewrite read_range_empty. cbn [map app].
      by rewrite <- !app_assoc.
    + rewrite IH by lia. rewrite (read_range_split rd bp b (b + 1)) by lia.
      rewrite (read_range_first b (b + 1)) by lia. rewrite read_range_empty, map_app.
      by rewrite <- !app_assoc.
  - rewrite strict_flush_eq. unfold read_range at 3. replace (Z.to_nat (e - b)) with O by lia.
    cbn. by rewrite app_nil_r.
Qed.

Lemma strict_run_range b e str :
  strict_run (strict_fuel b e) b b e str = str ++ strict (read_range rd b e).
Proof.
  rewrite strict_run_eq by (unfold strict_fuel; lia). by rewrite read_range_empty.
Qed.

(** The strict copy is the plain copy, mapped. *)
Lemma make_data_strict_loop_eq fuel : forall i b e str str',
  make_data_strict_loop fuel i b e (str ++ strict str') =
  '(st, s) ← make_data_loop fuel i b e str'; Some (st, str ++ strict s).
Proof.
  induction fuel as [|fuel IH]; intros i b e str str'; cbn [make_data_strict_loop make_data_loop];
    [done|].
  destruct (m !! i) as [n|]; cbn [mbind option_bind]; [|done].
  rewrite !strict_run_range, <- !app_assoc, <- !strict_app.
  destruct (lexbor_in_segment n e); [done|].
  destruct (in_next n) as [j|]; [|done]. destruct (m !! j) as [nn|]; cbn [mbind option_bind]; [|done].
  apply IH.
Qed.

Lemma make_data_strict_eq k str :
  lxb_html_token_make_data_strict k str =
  '(st, s) ← lxb_html_token_make_data k []; Some (st, str ++ strict s).
Proof.
  unfold lxb_html_token_make_data_strict, lxb_html_token_make_data.
  destruct (tok_in_begin k) as [i|]; cbn [mbind option_bind]; [|done].
  rewrite <- make_data_strict_loop_eq. f_equal. by rewrite app_nil_r.
Qed.

Lemma make_data_loop_in_make fuel : forall i b e str,
  make_data_loop fuel i b e str = in_make_loop m rd fuel i b e str.
Proof.
  induction fuel as [|fuel IH]; intros; cbn; [done|].
  destruct (m !! i) as [n|]; cbn; [|done]. destruct (lexbor_in_segment n e); [done|].
  destruct (in_next n) as [j|]; [|done]. destruct (m !! j); cbn; [apply IH | done].
Qed.
End Copy.

(** *** Tag ids *)

Lemma shbst_insert_lower {V} (s : lexbor_shbst V) k v : k <> [] ->
  lexbor_shbst_insert_lowercase s (map lower k) v = lexbor_shbst_insert_lowercase s k v.
Proof.
  intros Hk. unfold lexbor_shbst_insert_lowercase, lexbor_shbst_make_id.
  rewrite shs_make_id_lower by done. rewrite map_lower_twice, length_map.
  destruct k; done.
Qed.

Lemma tag_append_lower h k : lxb_tag_append h (map lower k) = lxb_tag_append h k.
Proof.
  destruct k as [|c k]; [done|]. unfold lxb_tag_append.
  rewrite (shbst_insert_lower (th_heap h) (c :: k)) by done. done.
Qed.

Lemma find_or_append_lower h k : lxb_tag_find_or_append h (map lower k) = lxb_tag_find_or_append h k.
Proof.
  unfold lxb_tag_find_or_append.
  rewrite (by_name_nocase h (map lower k) k) by apply map_lower_twice. by rewrite tag_append_lower.
Qed.

Lemma append_wo_copy_eq h k : map lower k = k -> lxb_tag_append_wo_copy h k = lxb_tag_append h k.
Proof.
  intros Hk. unfold lxb_tag_append_wo_copy, lxb_tag_append, lexbor_shbst_insert_wo_copy,
    lexbor_shbst_insert_lowercase. rewrite Hk. by destruct k.
Qed.

Lemma undef_name : forallb (fun d => implb (tag_id d =? LXB_TAG__UNDEF)
  (bool_decide (hd 0 (tag_name d) = 0x23))) lxb_tag_res_data_default = true.
Proof. vm_compute. reflexivity. Qed.

Lemma is_alpha_lower c : is_alpha (lower c) = is_alpha c.
Proof.
  rewrite !is_alpha_spec. destruct (decide (0 <= c < 256)) as [H|H].
  - apply eqb_prop. exact (forall_bytes (fun c => eqb (is_letter (lower c)) (is_letter c))
      ltac:(vm_compute; reflexivity) c H).
  - unfold lower. rewrite tbl_out by (reflexivity || done). unfold is_letter, LEXBOR_STR_RES_SLIP.
    destruct (65 <=? c) eqn:E1, (c <=? 90) eqn:E2, (97 <=? c) eqn:E3, (c <=? 122) eqn:E4;
      bool_to_prop; (reflexivity || lia).
Qed.

Lemma is_alpha_lower_hash c : is_alpha c = true -> lower c <> 0x23.
Proof.
  rewrite is_alpha_spec. unfold is_letter. intros H.
  assert (Hc : 65 <= c <= 90 \/ 97 <= c <= 122).
  { apply orb_true_iff in H as [H|H]; apply andb_true_iff in H as [H1 H2]; bool_to_prop; lia. }
  rewrite lower_spec by lia. case_if; lia.
Qed.

(** A name that begins with a letter is not [#undef]. *)
Lemma by_name_not_undef h s d : tag_heap_wf h -> is_alpha (hd 0 s) = true ->
  lxb_tag_data_by_name_default_cb h s = Some d -> tag_id d <> LXB_TAG__UNDEF.
Proof.
  intros WF Ha Hd. destruct (by_name_some h s d WF Hd) as [Hn Hi].
  assert (Hs : s <> []) by (intros ->; discriminate Ha).
  unfold lxb_tag_data_by_id_default_cb in Hi. intros H0. rewrite H0 in Hi. cbn [Z.geb Z.compare] in Hi.
  change (LXB_TAG__UNDEF >=? LXB_TAG__LAST_ENTRY) with false in Hi. cbv iota in Hi.
  apply list_elem_of_lookup_2, list_elem_of_In in Hi.
  pose proof (proj1 (forallb_forall _ _) undef_name d Hi) as Hu. cbn beta in Hu.
  rewrite H0 in Hu. cbn in Hu. apply bool_decide_eq_true in Hu. rewrite Hn in Hu.
  destruct s as [|c s]; [done|]. cbn in Hu, Ha. by apply is_alpha_lower_hash in Ha.
Qed.

(** The bytes of the whole input between an address of one node and one of
    another, [o0] being the offset of the first node. *)
Definition input_slice (m : gmap positive in_node) (rd : Z -> Z) (ids : list positive)
    (o0 a b : Z) : list Z :=
  take (Z.to_nat (b - a)) (drop (Z.to_nat (a - o0)) (chain_input m rd ids)).

(** A span of the chain [ids]: from [b] in its [k]-th node to [e] in its [l]-th,
    no node in between having [e] as an address. *)
Record chain_span (m : gmap positive in_node) (ids : list positive) (i j : positive)
    (n nj : in_node) (b e : Z) : Prop := {
  span_wf : chain_wf m ids;
  span_index : exists k l, ids !! k = Some i /\ ids !! l = Some j /\ (k <= l)%nat /\
    (forall k' i' n', (k <= k' < l)%nat -> ids !! k' = Some i' -> m !! i' = Some n' ->
       lexbor_in_segment n' e = false);
  span_first : m !! i = Some n /\ in_begin n <= b <= in_end n;
  span_last : m !! j = Some nj /\ in_begin nj <= e <= in_end nj;
  span_le : in_abs n b <= in_abs nj e
}.

Section Tag.
Context {m : gmap positive in_node} {rd : Z -> Z} {ids : list positive}.
Context {i0 i j : positive} {n0 n nj : in_node} {k : html_token}.
Context (SP : chain_span m ids i j n nj (tok_begin k) (tok_end k)).
Context (H_first : ids !! 0%nat = Some i0) (H_n0 : m !! i0 = Some n0).
Context (H_in : tok_in_begin k = Some i).

Definition token_bytes : list Z :=
  input_slice m rd ids (in_offset n0) (in_abs n (tok_begin k)) (in_abs nj (tok_end k)).

Lemma make_data_slice str :
  lxb_html_token_make_data m rd k str = Some (LXB_STATUS_OK, str ++ token_bytes).
Proof.
  destruct SP as [WF (a & l & Ha & Hl & Hal & Hseg) [Hn Hb] [Hnj He] Hle].
  unfold lxb_html_token_make_data. rewrite H_in. cbn [mbind option_bind].
  rewrite make_data_loop_in_make. unfold token_bytes, input_slice.
  destruct (chain_input_from m rd WF i0 n0 H_first H_n0 a i n _ Ha Hn Hb) as [_ ->].
  apply (in_make_loop_slice m rd WF (tok_end k) j nj l Hl Hnj He (l - a) a); try done; [lia|].
  pose proof (chain_index_fuel WF _ _ Hl). lia.
Qed.

Lemma one_buffer_bytes : lexbor_in_segment n (tok_end k) = true ->
  read_range rd (tok_begin k) (tok_end k) = token_bytes.
Proof.
  intros Hs. destruct SP as [WF (a & l & Ha & Hl & Hal & Hseg) [Hn Hb] [Hnj He] Hle].
  pose proof (make_data_slice []) as Hm. unfold lxb_html_token_make_data in Hm.
  rewrite H_in in Hm. cbn [mbind option_bind] in Hm. unfold walk_fuel in Hm.
  cbn [make_data_loop] in Hm. rewrite Hn in Hm. cbn [mbind option_bind] in Hm.
  rewrite Hs in Hm. cbn [app] in Hm. congruence.
Qed.

Lemma id_by_name_find h s : tag_heap_wf h -> is_alpha (hd 0 s) = true ->
  forall h' d, lxb_tag_append h s = (h', d) ->
  (if negb (lxb_tag_id_by_name h s =? LXB_TAG__UNDEF) then (h, lxb_tag_id_by_name h s)
   else (h', tag_id_or_undef d)) =
  (let '(h2, d2) := lxb_tag_find_or_append h s in (h2, tag_id_or_undef d2)).
Proof.
  intros WF Ha h' d Happ. unfold lxb_tag_find_or_append, lxb_tag_id_by_name.
  destruct (lxb_tag_data_by_name_default_cb h s) as [d0|] eqn:Hd.
  - pose proof (by_name_not_undef h s d0 WF Ha Hd) as Hne.
    by rewrite (proj2 (Z.eqb_neq _ _) Hne).
  - rewrite Z.eqb_refl. cbn [negb]. by rewrite Happ.
Qed.

(** C33: the tag a start or end tag names does not depend on how the input was
    cut into buffers.  [lxb_html_token_tag_id_from_data], which looks the bytes up
    in place when they lie in one buffer and otherwise copies them first
    (lower-cased, NUL replaced by U+FFFD), gives in both cases the id of the tag
    that [lxb_tag_find_or_append] finds or makes for the token's bytes in the
    whole input. *)
Theorem tag_id_from_data_spec h :
  tag_heap_wf h -> is_alpha (hd 0 token_bytes) = true ->
  (Z.land (tok_type k) LXB_HTML_TOKEN_TYPE_NULL = 0 -> ~ In 0 token_bytes) ->
  lxb_html_token_tag_id_from_data m rd h k =
    Some (let '(h', d) := lxb_tag_find_or_append h (strict token_bytes) in (h', tag_id_or_undef d)).
Proof.
  intros WF Ha Hnull. unfold lxb_html_token_tag_id_from_data. rewrite H_in.
  cbn [mbind option_bind]. pose proof SP as [_ _ [Hn _] _ _]. rewrite Hn. cbn [mbind option_bind].
  assert (Has : is_alpha (hd 0 (strict token_bytes)) = true).
  { destruct token_bytes as [|c l]; [done|]. cbn [hd] in Ha.
    change (strict (c :: l)) with (strict_byte c ++ strict l). unfold strict_byte.
    destruct (Z.eqb_spec c 0) as [->|]; [discriminate Ha|]. cbn. by rewrite is_alpha_lower. }
  destruct (lexbor_in_segment n (tok_end k) && _) eqn:Hc.
  - apply andb_true_iff in Hc as [Hs Ht%Z.eqb_eq]. rewrite (one_buffer_bytes Hs).
    rewrite (strict_no_null _ (Hnull Ht)), find_or_append_lower.
    destruct (lxb_tag_append h token_bytes) as [h' d] eqn:Happ.
    rewrite <- (id_by_name_find h token_bytes WF Ha _ _ Happ). by case_if.
  - rewrite make_data_strict_eq, make_data_slice. cbn [mbind option_bind app].
    change (LXB_STATUS_OK =? LXB_STATUS_OK) with true. cbn [negb].
    rewrite append_wo_copy_eq by apply strict_lower.
    destruct (lxb_tag_append h (strict token_bytes)) as [h' d] eqn:Happ.
    rewrite <- (id_by_name_find h (strict token_bytes) WF Has _ _ Happ). by case_if.
Qed.
End Tag.

Section Strict.
Context {m : gmap positive in_node} {rd : Z -> Z} {ids : list positive}.

(** [lxb_html_token_make_data_strict] appends the token's bytes of the whole
    input with ASCII letters lowered and each NUL replaced by the three bytes of
    U+FFFD, across any number of buffers, runs of other bytes being copied
    whole. *)
Theorem make_data_strict_spec i0 i j n0 n nj k str :
  chain_span m ids i j n nj (tok_begin k) (tok_end k) ->
  ids !! 0%nat = Some i0 -> m !! i0 = Some n0 -> tok_in_begin k = Some i ->
  lxb_html_token_make_data_strict m rd k str =
    Some (LXB_STATUS_OK, str ++ concat (map (fun c =>
            if c =? 0 then replacement_character else [lower c])
          (input_slice m rd ids (in_offset n0) (in_abs n (tok_begin k)) (in_abs nj (tok_end k))))).
Proof.
  intros SP H0 Hn0 Hin. rewrite make_data_strict_eq.
  by rewrite (make_data_slice SP H0 Hn0 Hin).
Qed.

(** [lxb_html_token_data_calc_length] does not compute the length of the
    token's data: for a token in the last buffer it returns 0 whenever there is
    data at all, or more bytes follow the token in its buffer. *)
Theorem calc_length_last_buffer k i n :
  tok_in_begin k = Some i -> m !! i = Some n -> in_next n = None ->
  tok_begin k < tok_end k \/ tok_end k < in_end n ->
  lxb_html_token_data_calc_length m k = Some 0.
Proof.
  intros Hin Hn Hnx Hlt. unfold lxb_html_token_data_calc_length, walk_fuel. rewrite Hin.
  cbn [mbind option_bind calc_length_loop]. rewrite Hn. cbn [mbind option_bind].
  assert ((tok_begin k <? tok_end k) || (in_end n >? tok_end k) = true) as ->.
  { apply orb_true_iff. rewrite Z.gtb_ltb, !Z.ltb_lt. done. }
  by rewrite Hnx.
Qed.
End Strict.

(** A tag name [aB] over the two buffers of [two_buffers], from 1002 to 2001, in
    a memory that holds [a] at 1002 and [B] at 2000. *)
Definition split_token : html_token := mk_token 1002 2001 (Some 1%positive) [] 0 0 0.
Definition split_memory (a : Z) : Z := if a =? 1002 then 0x61 else 0x42.

Definition node_1 : in_node := mk_in_node 0 0 1000 1003 1000 (Some 2%positive) None.
Definition node_2 : in_node := mk_in_node 3 0 2000 2002 2000 None (Some 1%positive).

Lemma split_token_span :
  chain_span (in_nodes two_buffers) [1; 2]%positive 1 2 node_1 node_2 1002 2001.
Proof.
  split; [exact two_buffers_wf | | split; [reflexivity | cbn; lia] | split; [reflexivity | cbn; lia]
    | vm_compute; discriminate].
  exists 0%nat, 1%nat. split; [done|]. split; [done|]. split; [lia|].
  intros k' i' n' Hk. assert (k' = 0)%nat as -> by lia. intros [= <-] [= <-]. reflexivity.
Qed.

Lemma tag_id_from_data_spec_witness : exists h' id,
  lxb_html_token_tag_id_from_data (in_nodes two_buffers) split_memory
    (mk_tag_heap [] (lexbor_shbst_init 128)) split_token = Some (h', id) /\
  id = LXB_TAG__LAST_ENTRY.
Proof.
  pose proof (tag_id_from_data_spec (rd := split_memory) (k := split_token) split_token_span
    (n0 := node_1) (i0 := 1%positive) eq_refl eq_refl eq_refl
    (mk_tag_heap [] (lexbor_shbst_init 128))) as H.
  eexists _, _. split.
  - refine (eq_trans (H _ _ _) _).
    + apply (tag_heap_init_wf 128); [lia | reflexivity].
    + reflexivity.
    + intros _. vm_compute. intros [?|[?|[]]]; discriminate.
    + vm_compute. reflexivity.
  - reflexivity.
Defined.

Lemma make_data_strict_spec_witness :
  lxb_html_token_make_data_strict (in_nodes two_buffers) split_memory split_token [0x2D] =
    Some (LXB_STATUS_OK, [0x2D; 0x61; 0x62]).
Proof.
  refine (eq_trans (make_data_strict_spec 1 1 2 node_1 node_1 node_2 split_token [0x2D]
    split_token_span eq_refl eq_refl eq_refl) _). vm_compute. reflexivity.
Defined.

Lemma calc_length_last_buffer_witness :
  lxb_html_token_data_calc_length (in_nodes two_buffers) (mk_token 2000 2002 (Some 2%positive) [] 0 0 0)
    = Some 0.
Proof.
  apply (calc_length_last_buffer _ 2 node_2); [reflexivity.. | left; reflexivity].
Defined.
