(* ===== verification/TokenWs.v ===== *)
(** * Leading white space of a token: [html/token.c]

    [lxb_html_token_process_data] drives a small state machine over the data of
    a token, moving the token's begin; two machines use it: one drops leading
    white space, the other one leading newline.  Both understand numeric
    character references ([&#32;], [&#x20;]) and restore the position saved at
    the ampersand when the reference is something else. *)
From S2P Require Import Prelude.
From S2P Require Import Str.
From S2P Require Import In.
From S2P Require Import Tag.
From S2P Require Import TagHeap.
From S2P Require Import TkzBase.
From S2P Require Import TokenData.

Definition LXB_STATUS_STOPPED : Z := 0x0010.

(** [lxb_html_token_process_eof]: a NUL byte at a static address. *)
Definition lxb_html_token_process_eof : Z := lxb_html_tokenizer_eof.

(** The values of [process->state] and of [process->end_state]. *)
Inductive process_state :=
  | PS_amp | PS_numeric | PS_hexademical_start | PS_decimal_start | PS_hexademical | PS_decimal
  | PS_skip_ws_before | PS_newline_before | PS_newline_cr.

Inductive process_end := PE_skip_ws | PE_newline.

(** [lxb_html_token_process_t]; [context] is not used. *)
Record process := mk_process {
  ps_state : process_state; ps_return : process_state; ps_end : process_end;
  ps_token : html_token; ps_tmp : html_token; ps_num : Z; ps_status : Z; ps_is_eof : bool
}.

Definition ps_set_state (s : process_state) (p : process) : process :=
  mk_process s (ps_return p) (ps_end p) (ps_token p) (ps_tmp p) (ps_num p) (ps_status p) (ps_is_eof p).
Definition ps_set_token (k : html_token) (p : process) : process :=
  mk_process (ps_state p) (ps_return p) (ps_end p) k (ps_tmp p) (ps_num p) (ps_status p) (ps_is_eof p).
Definition ps_set_tmp (k : html_token) (p : process) : process :=
  mk_process (ps_state p) (ps_return p) (ps_end p) (ps_token p) k (ps_num p) (ps_status p) (ps_is_eof p).
Definition ps_set_num (n : Z) (p : process) : process :=
  mk_process (ps_state p) (ps_return p) (ps_end p) (ps_token p) (ps_tmp p) n (ps_status p) (ps_is_eof p).
Definition ps_set_status (s : Z) (p : process) : process :=
  mk_process (ps_state p) (ps_return p) (ps_end p) (ps_token p) (ps_tmp p) (ps_num p) s (ps_is_eof p).
Definition ps_set_is_eof (b : bool) (p : process) : process :=
  mk_process (ps_state p) (ps_return p) (ps_end p) (ps_token p) (ps_tmp p) (ps_num p) (ps_status p) b.

Section Process.
Context (m : gmap positive in_node) (rd : Z -> Z).

Definition lxb_html_token_process_save_pos (p : process) (data : Z) : process :=
  let k := with_begin data (ps_token p) in
  ps_set_tmp k (ps_set_token k p).

Definition lxb_html_token_process_restore_pos (p : process) : process * Z :=
  (ps_set_token (ps_tmp p) p, tok_begin (ps_tmp p)).

(** [process->status = LXB_STATUS_STOPPED; return restore_pos(process);] *)
Definition stop_restore (p : process) : process * Z :=
  lxb_html_token_process_restore_pos (ps_set_status LXB_STATUS_STOPPED p).

Definition lxb_html_token_skip_ws_begin_state_end (p : process) (data end_ : Z) : process * Z :=
  if one_of (ps_num p) [0x09; 0x0A; 0x0C; 0x0D; 0x20] then (p, data) else stop_restore p.

Definition lxb_html_token_skip_one_newline_state_end (p : process) (data end_ : Z) : process * Z :=
  let p := ps_set_status LXB_STATUS_STOPPED p in
  if one_of (ps_num p) [0x0A; 0x0D] then (p, data) else lxb_html_token_process_restore_pos p.

(** [process->end_state(process, data, end)] *)
Definition call_end_state (p : process) (data end_ : Z) : process * Z :=
  match ps_end p with
  | PE_skip_ws => lxb_html_token_skip_ws_begin_state_end p data end_
  | PE_newline => lxb_html_token_skip_one_newline_state_end p data end_
  end.

Definition lxb_html_token_process_state_amp (p : process) (data end_ : Z) : process * Z :=
  if rd data =? 0x23 then (ps_set_state PS_numeric p, data + 1) else stop_restore p.

Definition lxb_html_token_process_state_numeric (p : process) (data end_ : Z) : process * Z :=
  if (rd data =? 0x78) || (rd data =? 0x58) then (ps_set_state PS_hexademical_start p, data + 1)
  else (ps_set_state PS_decimal_start p, data).

Definition lxb_html_token_process_state_hexademical_start (p : process) (data end_ : Z)
    : process * Z :=
  if negb (tbl lexbor_str_res_map_hex (rd data) =? LEXBOR_STR_RES_SLIP)
  then (ps_set_state PS_hexademical p, data) else stop_restore p.

Definition lxb_html_token_process_state_decimal_start (p : process) (data end_ : Z)
    : process * Z :=
  if negb (tbl lexbor_str_res_map_num (rd data) =? LEXBOR_STR_RES_SLIP)
  then (ps_set_state PS_decimal p, data) else stop_restore p.

(** The loops of the two digit states; [add] is how a digit enters [num]. *)
Definition digits_body (table : list Z) (add : Z -> Z -> Z) (end_ : Z) (p : process) (data : Z)
    : process * option Z :=
  let v := tbl table (rd data) in
  if v =? LEXBOR_STR_RES_SLIP then
    let p := ps_set_state (ps_return p) p in
    let data := if rd data =? 0x3B then data + 1 else data in
    let '(p, data) := call_end_state p data end_ in
    (p, Some data)
  else
    let p := if ps_num p <=? 0x10FFFF then ps_set_num (add (ps_num p) v) p else p in
    (p, None).

Definition lxb_html_token_process_state_hexademical (p : process) (data end_ : Z) : process * Z :=
  scan (digits_body lexbor_str_res_map_hex (fun n v => Z.lor (Z.shiftl n 4) v) end_) p data end_.

Definition lxb_html_token_process_state_decimal (p : process) (data end_ : Z) : process * Z :=
  scan (digits_body lexbor_str_res_map_num (fun n v => v + n * 10) end_) p data end_.

Definition skip_ws_body (end_ : Z) (p : process) (data : Z) : process * option Z :=
  let c := rd data in
  if is_ws c then (p, None)
  else if c =? 0x26 then
    let p := lxb_html_token_process_save_pos p data in
    (ps_set_state PS_amp p, Some (data + 1))
  else if (c =? 0x00) && ps_is_eof p then (p, Some end_)
  else (ps_set_status LXB_STATUS_STOPPED p, Some data).

Definition lxb_html_token_skip_ws_begin_state_before (p : process) (data end_ : Z) : process * Z :=
  scan (skip_ws_body end_) p data end_.

Definition lxb_html_token_skip_one_newline_state_before (p : process) (data end_ : Z)
    : process * Z :=
  let c := rd data in
  if c =? 0x0A then (ps_set_status LXB_STATUS_STOPPED p, data + 1)
  else if c =? 0x0D then (ps_set_state PS_newline_cr p, data + 1)
  else if c =? 0x26 then
    let p := lxb_html_token_process_save_pos p data in
    (ps_set_state PS_amp p, data + 1)
  else if (c =? 0x00) && ps_is_eof p then (p, end_)
  else (ps_set_status LXB_STATUS_STOPPED p, data).

Definition lxb_html_token_skip_one_newline_state_cr (p : process) (data end_ : Z) : process * Z :=
  let p := ps_set_status LXB_STATUS_STOPPED p in
  if rd data =? 0x0A then (p, data + 1) else (p, data).

(** [process->state(process, data, end)] *)
Definition call_process (p : process) (data end_ : Z) : process * Z :=
  match ps_state p with
  | PS_amp => lxb_html_token_process_state_amp p data end_
  | PS_numeric => lxb_html_token_process_state_numeric p data end_
  | PS_hexademical_start => lxb_html_token_process_state_hexademical_start p data end_
  | PS_decimal_start => lxb_html_token_process_state_decimal_start p data end_
  | PS_hexademical => lxb_html_token_process_state_hexademical p data end_
  | PS_decimal => lxb_html_token_process_state_decimal p data end_
  | PS_skip_ws_before => lxb_html_token_skip_ws_begin_state_before p data end_
  | PS_newline_before => lxb_html_token_skip_one_newline_state_before p data end_
  | PS_newline_cr => lxb_html_token_skip_one_newline_state_cr p data end_
  end.

(** [while (token->begin < limit) token->begin = process->state(..)]: whether a
    state stopped it. *)
Fixpoint process_run (fuel : nat) (p : process) (limit : Z) : option (process * bool) :=
  if tok_begin (ps_token p) <? limit then
    match fuel with
    | O => None
    | S fuel' =>
        let '(p, data) := call_process p (tok_begin (ps_token p)) limit in
        let p := ps_set_token (with_begin data (ps_token p)) p in
        if ps_status p =? LXB_STATUS_STOPPED then Some (p, true) else process_run fuel' p limit
    end
  else Some (p, false).

Definition process_fuel (b e : Z) : nat := Z.to_nat (4 * (e - b) + 4).

(** The loop on the fake end-of-file byte. *)
Fixpoint process_eof_loop (fuel : nat) (p : process) (data : Z) : option (process * Z) :=
  match fuel with
  | O => None
  | S fuel' =>
      if data <? lxb_html_token_process_eof + 1 then
        let '(p, data) := call_process p data (lxb_html_token_process_eof + 1) in
        if ps_status p =? LXB_STATUS_STOPPED then Some (p, LXB_STATUS_OK)
        else process_eof_loop fuel' p data
      else Some (p, ps_status p)
  end.

Definition with_node (i : positive) (n : in_node) (p : process) : process :=
  ps_set_token (with_begin (in_begin n) (with_in_begin (Some i) (ps_token p))) p.

Fixpoint process_nodes (fuel : nat) (p : process) : option (process * Z) :=
  match fuel with
  | O => None
  | S fuel' =>
      n ← (tok_in_begin (ps_token p) ≫= (m !!.));
      let e := tok_end (ps_token p) in
      if lexbor_in_segment n e then
        '(p, stopped) ← process_run (process_fuel (tok_begin (ps_token p)) e) p e;
        if stopped : bool then Some (p, LXB_STATUS_OK)
        else if negb (ps_status p =? LXB_STATUS_OK) then Some (p, ps_status p)
        else process_eof_loop 5 (ps_set_is_eof true p) lxb_html_token_process_eof
      else
        '(p, stopped) ← process_run (process_fuel (tok_begin (ps_token p)) (in_end n)) p (in_end n);
        n ← (tok_in_begin (ps_token p) ≫= (m !!.));
        if stopped : bool then
          match in_next n with
          | None => Some (p, LXB_STATUS_ERROR)
          | Some j =>
              if tok_begin (ps_token p) =? in_end n then
                nj ← m !! j;
                Some (with_node j nj p, LXB_STATUS_OK)
              else Some (p, LXB_STATUS_OK)
          end
        else if negb (ps_status p =? LXB_STATUS_OK) then Some (p, ps_status p)
        else
          match in_next n with
          | None => Some (p, LXB_STATUS_ERROR)
          | Some j => nj ← m !! j; process_nodes fuel' (with_node j nj p)
          end
  end.

(** The process left by the call, which has the token, and its status. *)
Definition lxb_html_token_process_data (p : process) (k : html_token) : option (process * Z) :=
  process_nodes (walk_fuel m) (ps_set_is_eof false (ps_set_token k p)).

Definition process_start (s : process_state) (e : process_end) : process :=
  mk_process s s e token_zero token_zero 0 0 false.

Definition lxb_html_token_data_skip_ws_begin (k : html_token) : option (html_token * Z) :=
  '(p, st) ← lxb_html_token_process_data (process_start PS_skip_ws_before PE_skip_ws) k;
  Some (ps_token p, st).

Definition lxb_html_token_data_skip_one_newline_begin (k : html_token) : option (html_token * Z) :=
  '(p, st) ← lxb_html_token_process_data (process_start PS_newline_before PE_newline) k;
  Some (ps_token p, st).

(** The token, the white-space token and the status. *)
Definition lxb_html_token_data_split_ws_begin (k : html_token)
    : option (html_token * html_token * Z) :=
  let ws := k in
  '(k, st) ← lxb_html_token_data_skip_ws_begin k;
  if negb (st =? LXB_STATUS_OK) then Some (k, ws, st)
  else if tok_begin k =? tok_end k then Some (k, ws, LXB_STATUS_OK)
  else if tok_begin k =? tok_begin ws then Some (k, token_zero, LXB_STATUS_OK)
  else Some (k, with_end (tok_begin k) ws, LXB_STATUS_OK).
End Process.

(** ** Termination and bounds *)

(** How many more calls may leave the position where it is. *)
Definition process_rank (s : process_state) : Z :=
  match s with
  | PS_numeric => 3
  | PS_hexademical_start | PS_decimal_start => 2
  | PS_hexademical | PS_decimal => 1
  | _ => 0
  end.

(** The states of the text around a reference. *)
Definition process_base (s : process_state) : bool :=
  match s with PS_skip_ws_before | PS_newline_before | PS_newline_cr => true | _ => false end.

Section ProcessBounds.
Context (rd : Z -> Z) (k : html_token) (lo hi : Z).
Implicit Types (p : process) (d : Z).

(** The token, up to a begin in range. *)
Definition tok_in_range (t : html_token) : Prop := exists v, t = with_begin v k /\ lo <= v <= hi.

Record process_ok p : Prop := {
  po_token : tok_in_range (ps_token p);
  po_tmp : process_base (ps_state p) = false -> tok_in_range (ps_tmp p);
  po_return : process_base (ps_return p) = true;
  po_status : ps_status p = LXB_STATUS_OK
}.

(** What one call gives: it stopped somewhere in range, or moved on, or got
    closer to a state that moves. *)
Definition call_post p d end_ (r : process * Z) : Prop :=
  let '(p', d') := r in
  tok_in_range (ps_token p') /\ ps_is_eof p' = ps_is_eof p /\
  (ps_status p' = LXB_STATUS_STOPPED /\ (d <= d' <= end_ \/ lo <= d' <= hi) \/
   process_ok p' /\ d <= d' <= end_ /\
   (d' = d -> process_rank (ps_state p') < process_rank (ps_state p))).

Lemma stop_restore_post p d end_ : process_ok p -> process_base (ps_state p) = false ->
  call_post p d end_ (stop_restore p).
Proof.
  intros [Ht Hm Hr Hs] Hb. destruct (Hm Hb) as (v & Hv & Hlo). cbn. split; [by exists v|].
  split; [done|]. left. split; [done|]. right. by rewrite Hv.
Qed.

Lemma end_state_post p d d1 end_ : process_ok p -> process_rank (ps_state p) = 1 ->
  d <= d1 <= end_ -> call_post p d end_ (call_end_state (ps_set_state (ps_return p) p) d1 end_).
Proof.
  intros PO Hrk Hd. pose proof PO as [Ht Hm Hr Hs].
  assert (Hb : process_base (ps_state p) = false) by (by destruct (ps_state p)).
  destruct (Hm Hb) as (v & Hv & Hlo).
  unfold call_end_state. cbn [ps_end ps_set_state]. destruct (ps_end p).
  - unfold lxb_html_token_skip_ws_begin_state_end. cbn [ps_num ps_set_state]. case_if.
    + split; [done|]. split; [done|]. right. split; [|split; [done|]].
      * split; cbn; [done | by rewrite Hr | done | done].
      * intros ->. cbn. rewrite Hrk. by destruct (ps_return p).
    + cbn. split; [by exists v|]. split; [done|]. left. split; [done|]. right. by rewrite Hv.
  - unfold lxb_html_token_skip_one_newline_state_end. cbn [ps_num ps_set_state ps_set_status]. case_if.
    + split; [done|]. split; [done|]. left. split; [done|]. by left.
    + cbn. split; [by exists v|]. split; [done|]. left. split; [done|]. right. by rewrite Hv.
Qed.

Lemma call_post_eq p1 p d end_ r : process_rank (ps_state p1) = process_rank (ps_state p) ->
  ps_is_eof p1 = ps_is_eof p -> call_post p1 d end_ r -> call_post p d end_ r.
Proof. unfold call_post. by intros -> ->. Qed.

Lemma digits_post table add p d end_ : process_ok p -> process_rank (ps_state p) = 1 -> d < end_ ->
  call_post p d end_ (scan (digits_body rd table add end_) p d end_).
Proof.
  intros PO Hrk Hlt.
  pose proof (scan_rule (digits_body rd table add end_)
    (fun s x => process_ok s /\ ps_state s = ps_state p /\ ps_is_eof s = ps_is_eof p /\
                d <= x <= end_ /\ (x = end_ -> d < x))
    (fun s x => call_post p d end_ (s, x)) end_) as Hscan.
  specialize (Hscan) as Hs. clear Hscan.
  assert (H0 : let '(s', q) := scan (digits_body rd table add end_) p d end_ in
               call_post p d end_ (s', q)).
  { apply Hs; clear Hs.
    - intros s x Hx (Ho & Hst & He & Hr & _). unfold digits_body.
      destruct (_ =? LEXBOR_STR_RES_SLIP).
      + destruct (rd x =? 0x3B).
        * pose proof (end_state_post s d (x + 1) end_ Ho) as H. rewrite Hst in H.
          specialize (H Hrk ltac:(lia)). destruct (call_end_state _ _ _) as [p2 d2].
          eapply call_post_eq; [| |exact H]; congruence.
        * pose proof (end_state_post s d x end_ Ho) as H. rewrite Hst in H.
          specialize (H Hrk ltac:(lia)). destruct (call_end_state _ _ _) as [p2 d2].
          eapply call_post_eq; [| |exact H]; congruence.
      + split; [|split; [|split; [|lia]]]; case_if; try done; destruct Ho as [Ht Hm Hr' Hst']; by split.
    - intros s x Hx (Ho & Hst & He & Hr & Hp). assert (x = end_) as -> by lia.
      split; [apply Ho|]. split; [done|]. right. split; [done|]. split; [lia|].
      intros ->. specialize (Hp eq_refl). lia.
    - split; [done|]. split; [done|]. split; [done|]. lia. }
  by destruct (scan _ _ _ _).
Qed.

Lemma save_pos_ok p d : process_ok p -> lo <= d <= hi ->
  process_ok (ps_set_state PS_amp (lxb_html_token_process_save_pos p d)).
Proof.
  intros [(v & Hv & Hlo) Hm Hr Hs] Hd. split; cbn; [| |done|done].
  - rewrite Hv. by exists d.
  - intros _. rewrite Hv. by exists d.
Qed.

Lemma process_ok_state p s : process_ok p -> process_base s = true \/ process_base (ps_state p) = false ->
  process_ok (ps_set_state s p).
Proof.
  intros [Ht Hm Hr Hs] Hb. split; cbn; [done | | done | done].
  intros Hb'. destruct Hb as [Hb|Hb]; [congruence | by apply Hm].
Qed.

(** Every call keeps its contract; an ampersand is met only in range. *)
Lemma call_process_post p d end_ : process_ok p -> d < end_ ->
  (forall x, d <= x < end_ -> rd x = 0x26 -> lo <= x <= hi) ->
  call_post p d end_ (call_process rd p d end_).
Proof.
  intros PO Hlt Hamp. unfold call_process. pose proof PO as [Ht Hm Hr Hs].
  destruct (ps_state p) eqn:Es; cbv iota.
  - unfold lxb_html_token_process_state_amp. case_if.
    + split; [done|]. split; [done|]. right. split; [|split; [lia | lia]].
      apply process_ok_state; [done|]. right. by rewrite Es.
    + apply stop_restore_post; [done | by rewrite Es].
  - unfold lxb_html_token_process_state_numeric.
    case_if; (split; [done|]; split; [done|]; right; split;
      [apply process_ok_state; [done | right; by rewrite Es] | split; [lia|]; intros; cbn; rewrite Es; cbn; lia]).
  - unfold lxb_html_token_process_state_hexademical_start. case_if.
    + split; [done|]. split; [done|]. right. split.
      * apply process_ok_state; [done | right; by rewrite Es].
      * split; [lia|]. intros _. cbn. by rewrite Es.
    + apply stop_restore_post; [done | by rewrite Es].
  - unfold lxb_html_token_process_state_decimal_start. case_if.
    + split; [done|]. split; [done|]. right. split.
      * apply process_ok_state; [done | right; by rewrite Es].
      * split; [lia|]. intros _. cbn. by rewrite Es.
    + apply stop_restore_post; [done | by rewrite Es].
  - apply digits_post; [done | by rewrite Es | done].
  - apply digits_post; [done | by rewrite Es | done].
  - assert (H0 : let '(s', q) := scan (skip_ws_body rd end_) p d end_ in call_post p d end_ (s', q)).
    { apply (scan_rule (skip_ws_body rd end_) (fun s x => s = p /\ d <= x <= end_ /\ (x = end_ -> d < x))
        (fun s x => call_post p d end_ (s, x))); [| | split; [done | lia]].
      - intros s x Hx (-> & Hx2 & _). unfold skip_ws_body. case_if; [split; [done | lia] |]. case_if.
        + bool_to_prop. assert (Hin : lo <= x <= hi) by (apply Hamp; [lia | done]).
          pose proof (save_pos_ok p x PO Hin) as Hsp. split; [apply Hsp|]. split; [done|].
          right. split; [done|]. split; [lia | lia].
        + case_if.
          * split; [done|]. split; [done|]. right. split; [done|]. split; [lia|]. intros ->. lia.
          * split; [done|]. split; [done|]. left. split; [done|]. left. lia.
      - intros s x Hx (-> & Hx2 & Hp). assert (x = end_) as -> by lia.
        split; [done|]. split; [done|]. right. split; [done|]. split; [lia|].
        intros ->. specialize (Hp eq_refl). lia. }
    unfold lxb_html_token_skip_ws_begin_state_before. by destruct (scan _ _ _ _).
  - unfold lxb_html_token_skip_one_newline_state_before. case_if.
    { split; [done|]. split; [done|]. left. split; [done|]. left. lia. }
    case_if.
    { split; [done|]. split; [done|]. right. split; [by apply process_ok_state; [|left]|].
      split; [lia | lia]. }
    case_if.
    { bool_to_prop. assert (Hin : lo <= d <= hi) by (apply Hamp; [lia | done]).
      pose proof (save_pos_ok p d PO Hin) as Hsp. split; [apply Hsp|]. split; [done|].
      right. split; [done|]. split; [lia | lia]. }
    case_if.
    { split; [done|]. split; [done|]. right. split; [done|]. split; [lia|]. intros ->. lia. }
    split; [done|]. split; [done|]. left. split; [done|]. left. lia.
  - unfold lxb_html_token_skip_one_newline_state_cr. case_if; (split; [done|]); (split; [done|]);
      left; (split; [done|]); left; lia.
Qed.

(** The loop over one buffer, [hi] being its end. *)
Lemma process_run_ok fuel : forall p, process_ok p ->
  4 * (hi - tok_begin (ps_token p)) + process_rank (ps_state p) < Z.of_nat fuel ->
  exists p' b, process_run rd fuel p hi = Some (p', b) /\ tok_in_range (ps_token p') /\
    (b = true \/ b = false /\ process_ok p' /\ tok_begin (ps_token p') = hi).
Proof.
  assert (Hrank : forall q, 0 <= process_rank q <= 3) by (intros []; cbn; lia).
  induction fuel as [|fuel IH]; intros p PO Hm; cbn [process_run];
    pose proof PO as [(v & Hv & Hlo) _ _ _]; rewrite Hv in *; cbn [with_begin tok_begin] in *;
    (destruct (Z.ltb_spec v hi);
     [|exists p, false; split; [done|]; rewrite Hv; split; [by exists v|]; right;
       split; [done|]; split; [done|]; cbn; lia]).
  - pose proof (Hrank (ps_state p)). lia.
  - pose proof (call_process_post p v hi PO ltac:(lia) ltac:(lia)) as Hp.
    destruct (call_process rd p v hi) as [p1 d1]. destruct Hp as (Ht & _ & Hc).
    assert (Hset : forall d, lo <= d <= hi ->
      tok_in_range (ps_token (ps_set_token (with_begin d (ps_token p1)) p1))).
    { intros d Hd. destruct Ht as (w & Hw & _). exists d. cbn. by rewrite Hw. }
    cbn [ps_status ps_set_token]. destruct Hc as [[-> Hd]|(PO1 & Hd & Hp)].
    + eexists _, true. split; [done|]. split; [apply Hset; lia | by left].
    + rewrite (po_status _ PO1). cbn [LXB_STATUS_OK LXB_STATUS_STOPPED Z.eqb].
      destruct (IH (ps_set_token (with_begin d1 (ps_token p1)) p1)) as (p2 & b & Hr & Hrest).
      * destruct PO1 as [Ht1 Hm1 Hr1 Hs1]. split; cbn; [apply Hset; lia | done..].
      * cbn. pose proof (Hrank (ps_state p)). pose proof (Hrank (ps_state p1)). destruct (decide (d1 = v)) as [->|]; [|lia].
        specialize (Hp eq_refl). lia.
      * exists p2, b. done.
Qed.

(** The loop on the end-of-file byte. *)
Lemma process_eof_ok (H_eof : rd lxb_html_token_process_eof = 0) fuel : forall p d, process_ok p ->
  ps_is_eof p = true ->
  lxb_html_token_process_eof <= d <= lxb_html_token_process_eof + 1 ->
  (if d <? lxb_html_token_process_eof + 1 then process_rank (ps_state p) + 1 else 0) < Z.of_nat fuel ->
  exists p', process_eof_loop rd fuel p d = Some (p', LXB_STATUS_OK) /\ tok_in_range (ps_token p').
Proof.
  assert (Hrank : forall q, 0 <= process_rank q <= 3) by (intros []; cbn; lia).
  induction fuel as [|fuel IH]; intros p d PO He Hd Hm; pose proof (Hrank (ps_state p)).
  - destruct (d <? _); lia.
  - cbn [process_eof_loop]. destruct (Z.ltb_spec d (lxb_html_token_process_eof + 1)).
    + assert (d = lxb_html_token_process_eof) as -> by lia.
      pose proof (call_process_post p lxb_html_token_process_eof (lxb_html_token_process_eof + 1) PO
        ltac:(lia)) as Hp.
      assert (Hamp : forall x, lxb_html_token_process_eof <= x < lxb_html_token_process_eof + 1 ->
        rd x = 0x26 -> lo <= x <= hi).
      { intros x Hx Hr. assert (x = lxb_html_token_process_eof) as -> by lia. congruence. }
      specialize (Hp Hamp). destruct (call_process rd p _ _) as [p1 d1].
      destruct Hp as (Ht & He1 & Hc). destruct (ps_status p1 =? LXB_STATUS_STOPPED) eqn:Hst.
      { by exists p1. }
      destruct Hc as [[Hst' _]|(PO1 & Hd1 & Hp)]; [by rewrite Hst' in Hst|].
      apply IH; [done | congruence | lia |]. pose proof (Hrank (ps_state p1)).
      destruct (Z.ltb_spec d1 (lxb_html_token_process_eof + 1)); [|lia].
      assert (d1 = lxb_html_token_process_eof) as -> by lia. specialize (Hp eq_refl). lia.
    + exists p. split; [by rewrite (po_status _ PO) | apply PO].
Qed.

Lemma process_data_ok m i n s e : rd lxb_html_token_process_eof = 0 ->
  tok_in_begin k = Some i -> m !! i = Some n ->
  lexbor_in_segment n (tok_end k) = true -> lo = tok_begin k -> hi = tok_end k -> lo <= hi ->
  process_base s = true ->
  exists p', lxb_html_token_process_data m rd (process_start s e) k = Some (p', LXB_STATUS_OK) /\
    tok_in_range (ps_token p').
Proof.
  intros H_eof Hin Hn Hseg Hlo Hhi Hle Hs. unfold lxb_html_token_process_data, walk_fuel.
  cbn [process_nodes]. cbn [ps_set_is_eof ps_set_token ps_token]. rewrite Hin.
  cbn [mbind option_bind]. rewrite Hn. cbn [mbind option_bind]. rewrite Hseg.
  set (p0 := mk_process s s e k token_zero 0 0 false).
  change (ps_set_is_eof false (ps_set_token k (process_start s e))) with p0.
  assert (PO : process_ok p0).
  { split; cbn; [|by rewrite Hs | done | done]. exists (tok_begin k). split; [by destruct k | lia]. }
  destruct (process_run_ok (process_fuel (tok_begin k) (tok_end k)) p0 PO) as (p1 & b & Hr & Ht & Hb).
  { cbn. assert (process_rank s = 0) as -> by (by destruct s). unfold process_fuel. lia. }
  rewrite <- Hhi. rewrite <- Hhi in Hr. rewrite Hr. cbn [mbind option_bind].
  destruct Hb as [->|(-> & PO1 & _)]; [by exists p1|].
  rewrite (po_status _ PO1). cbn [negb Z.eqb LXB_STATUS_OK].
  apply process_eof_ok; [done | | done | lia |].
  - destruct PO1 as [Ht1 Hm1 Hr1 Hs1]. by split.
  - cbn. case_if; [|lia]. destruct (ps_state p1); cbn; lia.
Qed.
End ProcessBounds.

(** A token whose data lies in one buffer. *)
Record one_buffer (m : gmap positive in_node) (k : html_token) : Prop := {
  ob_node : exists i n, tok_in_begin k = Some i /\ m !! i = Some n /\
    lexbor_in_segment n (tok_end k) = true;
  ob_le : tok_begin k <= tok_end k
}.

(** Dropping leading white space always ends, with an OK status, and only
    moves the token's begin forward inside its data: for every token in one
    buffer and all its bytes, malformed and unfinished references included, for
    white space as for one newline.  Splitting yields a white-space token that
    ends where the rest begins. *)
Theorem skip_ws_bounds m rd k :
  one_buffer m k -> rd lxb_html_token_process_eof = 0 ->
  (exists b, lxb_html_token_data_skip_ws_begin m rd k = Some (with_begin b k, LXB_STATUS_OK) /\
     tok_begin k <= b <= tok_end k /\
     lxb_html_token_data_split_ws_begin m rd k =
       Some (with_begin b k,
             if b =? tok_end k then k
             else if b =? tok_begin k then token_zero else with_end b k, LXB_STATUS_OK)) /\
  (exists b, lxb_html_token_data_skip_one_newline_begin m rd k =
       Some (with_begin b k, LXB_STATUS_OK) /\ tok_begin k <= b <= tok_end k).
Proof.
  intros [(i & n & Hin & Hn & Hseg) Hle] He.
  destruct (process_data_ok rd k (tok_begin k) (tok_end k) m i n PS_skip_ws_before PE_skip_ws He
    Hin Hn Hseg eq_refl eq_refl Hle eq_refl) as (p & Hp & (b & Hb & Hbr)).
  destruct (process_data_ok rd k (tok_begin k) (tok_end k) m i n PS_newline_before PE_newline He
    Hin Hn Hseg eq_refl eq_refl Hle eq_refl) as (p2 & Hp2 & (b2 & Hb2 & Hbr2)).
  assert (Hskip : lxb_html_token_data_skip_ws_begin m rd k = Some (with_begin b k, LXB_STATUS_OK)).
  { unfold lxb_html_token_data_skip_ws_begin. rewrite Hp. cbn [mbind option_bind]. by rewrite Hb. }
  split.
  - exists b. split; [done|]. split; [done|]. unfold lxb_html_token_data_split_ws_begin.
    rewrite Hskip. cbn [mbind option_bind]. cbn [negb Z.eqb LXB_STATUS_OK].
    cbn [tok_begin tok_end with_begin]. case_if; [done|]. by case_if.
  - exists b2. split; [|done]. unfold lxb_html_token_data_skip_one_newline_begin.
    rewrite Hp2. cbn [mbind option_bind]. by rewrite Hb2.
Qed.

Section Exact.
Context (m : gmap positive in_node) (rd : Z -> Z) (k : html_token) (i : positive) (n : in_node).
Context (H_in : tok_in_begin k = Some i) (H_n : m !! i = Some n).
Context (H_seg : lexbor_in_segment n (tok_end k) = true).

(** One call of the white-space state. *)
Lemma skip_ws_call p d ws c : ps_state p = PS_skip_ws_before -> bytes_at rd d ws ->
  forallb is_ws ws = true -> d + Z.of_nat (length ws) <= tok_end k ->
  (d + Z.of_nat (length ws) < tok_end k ->
     rd (d + Z.of_nat (length ws)) = c /\ is_ws c = false /\ c <> 0x26 /\ (c <> 0 \/ ps_is_eof p = false)) ->
  call_process rd p d (tok_end k) =
    (if d + Z.of_nat (length ws) <? tok_end k then ps_set_status LXB_STATUS_STOPPED p else p,
     d + Z.of_nat (length ws)).
Proof.
  intros Hs Hb Hws Hle Hc. unfold call_process. rewrite Hs.
  unfold lxb_html_token_skip_ws_begin_state_before. rewrite (scan_skip _ _ _ (length ws)); [|intros x Hx | done].
  - destruct (Z.ltb_spec (d + Z.of_nat (length ws)) (tok_end k)) as [Hlt|Hge].
    + rewrite scan_step by done. destruct (Hc Hlt) as (Hr & H1 & H2 & H3).
      unfold skip_ws_body. rewrite Hr, H1, (proj2 (Z.eqb_neq _ _) H2).
      destruct H3 as [H3|H3]; [by rewrite (proj2 (Z.eqb_neq _ _) H3)|].
      by rewrite H3, andb_false_r.
    + by rewrite scan_done by lia.
  - unfold skip_ws_body. by rewrite (bytes_at_all _ _ _ _ Hb Hws x Hx).
Qed.

(** Leading white space without references is dropped exactly: for a token
    whose data is white space [ws] followed by [rest], [rest] beginning with
    neither white space nor an ampersand, the token's begin moves past [ws], and
    the split-off white-space token is [ws]. *)
Theorem skip_ws_exact ws rest :
  bytes_at rd (tok_begin k) (ws ++ rest) ->
  tok_end k = tok_begin k + Z.of_nat (length (ws ++ rest)) ->
  forallb is_ws ws = true -> rd lxb_html_token_process_eof = 0 ->
  match rest with c :: _ => is_ws c = false /\ c <> 0x26 | [] => True end ->
  lxb_html_token_data_skip_ws_begin m rd k =
    Some (with_begin (tok_begin k + Z.of_nat (length ws)) k, LXB_STATUS_OK).
Proof.
  intros Hb He Hws Heof Hrest. rewrite bytes_at_app in Hb. destruct Hb as [Hbw Hbr].
  rewrite length_app in He. set (b := tok_begin k + Z.of_nat (length ws)) in *.
  unfold lxb_html_token_data_skip_ws_begin, lxb_html_token_process_data, walk_fuel.
  set (p0 := mk_process PS_skip_ws_before PS_skip_ws_before PE_skip_ws k token_zero 0 0 false).
  change (ps_set_is_eof false (ps_set_token k (process_start PS_skip_ws_before PE_skip_ws))) with p0.
  cbn [process_nodes p0 ps_token]. rewrite H_in. cbn [mbind option_bind]. rewrite H_n.
  cbn [mbind option_bind]. rewrite H_seg.
  assert (Hcall : tok_begin k < tok_end k ->
    call_process rd p0 (tok_begin k) (tok_end k) =
    (if b <? tok_end k then ps_set_status LXB_STATUS_STOPPED p0 else p0, b)).
  { intros Hlt. apply (skip_ws_call p0 _ ws (hd 0 rest)); try done; [lia|]. fold b. intros Hb.
    destruct rest as [|c rest]; [cbn in He; lia|]. destruct Hbr as [Hr _].
    split; [done|]. split; [apply Hrest|]. split; [apply Hrest | by right]. }
  assert (Hlast : forall q, ps_state q = PS_skip_ws_before -> ps_status q = 0 ->
    process_eof_loop rd 5 (ps_set_is_eof true q) lxb_html_token_process_eof =
    Some (ps_set_is_eof true q, LXB_STATUS_OK)).
  { intros q Hq Hst. cbn [process_eof_loop]. rewrite (proj2 (Z.ltb_lt _ _)) by lia.
    unfold call_process. cbn [ps_state ps_set_is_eof]. rewrite Hq.
    unfold lxb_html_token_skip_ws_begin_state_before. rewrite scan_step by lia.
    unfold skip_ws_body. rewrite Heof. cbn [is_ws one_of existsb Z.eqb orb andb ps_is_eof ps_set_is_eof].
    cbn [ps_status ps_set_is_eof]. rewrite Hst. cbn [Z.eqb LXB_STATUS_STOPPED].
    by rewrite Z.ltb_irrefl. }
  unfold process_fuel. replace (Z.to_nat (4 * (tok_end k - tok_begin k) + 4))
    with (S (S (Z.to_nat (4 * (tok_end k - tok_begin k) + 2)))) by lia.
  cbn [process_run]. change (ps_token p0) with k.
  destruct (Z.ltb_spec (tok_begin k) (tok_end k)) as [Hlt|Hge].
  - rewrite (Hcall Hlt). destruct (Z.ltb_spec b (tok_end k)).
    + by cbn.
    + assert (b = tok_end k) as -> by lia. cbn [ps_set_token ps_token ps_status p0 with_begin tok_begin].
      cbn [Z.eqb LXB_STATUS_STOPPED]. rewrite Z.ltb_irrefl. cbn [mbind option_bind ps_status negb Z.eqb LXB_STATUS_OK].
      rewrite Hlast by done. by cbn.
  - assert (length ws = 0)%nat as Hw by lia. unfold b. rewrite Hw. cbn [mbind option_bind].
    cbn [ps_status p0 negb Z.eqb LXB_STATUS_OK]. rewrite Hlast by done. cbn.
    rewrite Z.add_0_r. by destruct k.
Qed.
End Exact.

(** A token over the whole of a buffer at 1024 that holds the bytes [l]. *)
Definition ws_buffer (l : list Z) : gmap positive in_node :=
  {[1%positive := mk_in_node 0 0 1024 (1024 + Z.of_nat (length l)) 1024 None None]}.
Definition ws_memory (l : list Z) : Z -> Z := rdm (fun a => nth (Z.to_nat (a - 1024)) l 0).
Definition ws_token (l : list Z) : html_token :=
  mk_token 1024 (1024 + Z.of_nat (length l)) (Some 1%positive) [] 0 0 0.

(** [&#32;A] and the split of its data. *)
Lemma skip_ws_bounds_witness :
  one_buffer (ws_buffer [38; 35; 51; 50; 59; 65]) (ws_token [38; 35; 51; 50; 59; 65]) /\
  exists b, lxb_html_token_data_skip_ws_begin (ws_buffer [38; 35; 51; 50; 59; 65])
      (ws_memory [38; 35; 51; 50; 59; 65]) (ws_token [38; 35; 51; 50; 59; 65]) =
    Some (with_begin b (ws_token [38; 35; 51; 50; 59; 65]), LXB_STATUS_OK).
Proof.
  assert (H : one_buffer (ws_buffer [38; 35; 51; 50; 59; 65]) (ws_token [38; 35; 51; 50; 59; 65])).
  { split; [|vm_compute; discriminate]. exists 1%positive. eexists.
    split; [reflexivity|]. split; reflexivity. }
  split; [exact H|].
  destruct (skip_ws_bounds _ (ws_memory [38; 35; 51; 50; 59; 65]) _ H eq_refl)
    as [(b & Hb & _) _]. exists b. exact Hb.
Defined.

Lemma skip_ws_exact_witness :
  lxb_html_token_data_skip_ws_begin (ws_buffer [32; 10; 65; 32]) (ws_memory [32; 10; 65; 32])
    (ws_token [32; 10; 65; 32]) = Some (with_begin 1026 (ws_token [32; 10; 65; 32]), LXB_STATUS_OK).
Proof.
  apply (skip_ws_exact (ws_buffer [32; 10; 65; 32]) (ws_memory [32; 10; 65; 32])
    (ws_token [32; 10; 65; 32]) 1 (mk_in_node 0 0 1024 1028 1024 None None) eq_refl eq_refl eq_refl
    [32; 10] [65; 32]); try reflexivity.
  - vm_compute. repeat split.
  - split; [reflexivity | discriminate].
Defined.

(** Dropping leading white space stops after the first numeric reference: the
    accumulated value is not reset between references, so that the second of two
    space references [&#32;&#32;] is read as 3232 and kept, while white space
    around a single reference is dropped. *)
Theorem skip_ws_second_reference_kept :
  lxb_html_token_data_skip_ws_begin (ws_buffer [38; 35; 51; 50; 59; 38; 35; 51; 50; 59; 65])
    (ws_memory [38; 35; 51; 50; 59; 38; 35; 51; 50; 59; 65])
    (ws_token [38; 35; 51; 50; 59; 38; 35; 51; 50; 59; 65]) =
    Some (with_begin (1024 + 5) (ws_token [38; 35; 51; 50; 59; 38; 35; 51; 50; 59; 65]), LXB_STATUS_OK) /\
  lxb_html_token_data_skip_ws_begin (ws_buffer [32; 38; 35; 51; 50; 59; 32; 65])
    (ws_memory [32; 38; 35; 51; 50; 59; 32; 65]) (ws_token [32; 38; 35; 51; 50; 59; 32; 65]) =
    Some (with_begin (1024 + 7) (ws_token [32; 38; 35; 51; 50; 59; 32; 65]), LXB_STATUS_OK).
Proof. split; vm_compute; reflexivity. Qed.
