(* ===== verification/Sbst.v ===== *)
(** * Static tries of search trees: [core/sbst.h]

    The entries of a generated array: the bytes that may follow a prefix are a
    binary search tree linked by [left] and [right], and [next] is the tree of
    the bytes after them.  Index 0 is the end of every link.  The array is a
    variable here; [tree_ok] is what the decoder of character references needs of
    it, decided by computation. *)
From S2P Require Import Prelude.
From S2P Require Import Str.

(** ** Tables of [core/str_res.h] *)

Definition lexbor_str_res_alphanumeric_character : list Z :=
  [0xff; 0xff; 0xff; 0xff; 0xff; 0xff; 0xff; 0xff; 0xff; 0xff; 0xff; 0xff; 0xff; 0xff; 0xff; 0xff;
   0xff; 0xff; 0xff; 0xff; 0xff; 0xff; 0xff; 0xff; 0xff; 0xff; 0xff; 0xff; 0xff; 0xff; 0xff; 0xff;
   0xff; 0xff; 0xff; 0xff; 0xff; 0xff; 0xff; 0xff; 0xff; 0xff; 0xff; 0xff; 0xff; 0xff; 0xff; 0xff;
   0x00; 0x01; 0x02; 0x03; 0x04; 0x05; 0x06; 0x07; 0x08; 0x09; 0xff; 0xff; 0xff; 0xff; 0xff; 0xff;
   0xff; 0x0a; 0x0b; 0x0c; 0x0d; 0x0e; 0x0f; 0x0a; 0x0b; 0x0c; 0x0d; 0x0e; 0x0f; 0x0a; 0x0b; 0x0c;
   0x0d; 0x0e; 0x0f; 0x0a; 0x0b; 0x0c; 0x0d; 0x0e; 0x0f; 0x0a; 0x0b; 0xff; 0xff; 0xff; 0xff; 0xff;
   0xff; 0x0c; 0x0d; 0x0e; 0x0f; 0x0a; 0x0b; 0x0c; 0x0d; 0x0e; 0x0f; 0x0a; 0x0b; 0x0c; 0x0d; 0x0e;
   0x0f; 0x0a; 0x0b; 0x0c; 0x0d; 0x0e; 0x0f; 0x0a; 0x0b; 0x0c; 0x0d; 0xff; 0xff; 0xff; 0xff; 0xff;
   0xff; 0xff; 0xff; 0xff; 0xff; 0xff; 0xff; 0xff; 0xff; 0xff; 0xff; 0xff; 0xff; 0xff; 0xff; 0xff;
   0xff; 0xff; 0xff; 0xff; 0xff; 0xff; 0xff; 0xff; 0xff; 0xff; 0xff; 0xff; 0xff; 0xff; 0xff; 0xff;
   0xff; 0xff; 0xff; 0xff; 0xff; 0xff; 0xff; 0xff; 0xff; 0xff; 0xff; 0xff; 0xff; 0xff; 0xff; 0xff;
   0xff; 0xff; 0xff; 0xff; 0xff; 0xff; 0xff; 0xff; 0xff; 0xff; 0xff; 0xff; 0xff; 0xff; 0xff; 0xff;
   0xff; 0xff; 0xff; 0xff; 0xff; 0xff; 0xff; 0xff; 0xff; 0xff; 0xff; 0xff; 0xff; 0xff; 0xff; 0xff;
   0xff; 0xff; 0xff; 0xff; 0xff; 0xff; 0xff; 0xff; 0xff; 0xff; 0xff; 0xff; 0xff; 0xff; 0xff; 0xff;
   0xff; 0xff; 0xff; 0xff; 0xff; 0xff; 0xff; 0xff; 0xff; 0xff; 0xff; 0xff; 0xff; 0xff; 0xff; 0xff;
   0xff; 0xff; 0xff; 0xff; 0xff; 0xff; 0xff; 0xff; 0xff; 0xff; 0xff; 0xff; 0xff; 0xff; 0xff; 0xff].

Definition lexbor_str_res_replacement_character : list Z :=
  [65533; 1; 2; 3; 4; 5; 6; 7; 8; 9; 10; 11; 12; 13; 14; 15;
   16; 17; 18; 19; 20; 21; 22; 23; 24; 25; 26; 27; 28; 29; 30; 31;
   32; 33; 34; 35; 36; 37; 38; 39; 40; 41; 42; 43; 44; 45; 46; 47;
   48; 49; 50; 51; 52; 53; 54; 55; 56; 57; 58; 59; 60; 61; 62; 63;
   64; 65; 66; 67; 68; 69; 70; 71; 72; 73; 74; 75; 76; 77; 78; 79;
   80; 81; 82; 83; 84; 85; 86; 87; 88; 89; 90; 91; 92; 93; 94; 95;
   96; 97; 98; 99; 100; 101; 102; 103; 104; 105; 106; 107; 108; 109; 110; 111;
   112; 113; 114; 115; 116; 117; 118; 119; 120; 121; 122; 123; 124; 125; 126; 127;
   8364; 129; 8218; 402; 8222; 8230; 8224; 8225; 710; 8240; 352; 8249; 338; 141; 381; 143;
   144; 8216; 8217; 8220; 8221; 8226; 8211; 8212; 732; 8482; 353; 8250; 339; 157; 382; 376].

Definition is_alnum (c : Z) : bool :=
  negb (tbl lexbor_str_res_alphanumeric_character c =? LEXBOR_STR_RES_SLIP).

(** ** The entries *)

(** [lexbor_sbst_entry_static_t] *)
Record sbst_entry := E {
  sb_key : Z; sb_value : option (list Z); sb_value_len : Z; sb_left : Z; sb_right : Z; sb_next : Z
}.


(** An array by index, with a bound of the height of its search trees. *)
Record sbst := mk_sbst { sbst_entries : gmap Z sbst_entry; sbst_height : nat }.

Section Sbst.
Context (T : sbst).

(** ** [lexbor_sbst_entry_static_find]

    From the node [root] of a search tree; 0 is the sentinel [strt] and [None]
    the C NULL.  The fuel is enough for every tree that is [tree_ok]: [find_sibling]. *)
Fixpoint sbst_find_loop (fuel : nat) (root key : Z) : option Z :=
  if root =? 0 then None
  else
    match fuel with
    | O => None
    | S fuel' =>
        e ← sbst_entries T !! root;
        if sb_key e =? key then Some root
        else if key >? sb_key e then sbst_find_loop fuel' (sb_right e) key
        else sbst_find_loop fuel' (sb_left e) key
    end.

Definition lexbor_sbst_entry_static_find (root key : Z) : option Z := sbst_find_loop (sbst_height T) root key.

Definition entity_next (i : Z) : Z := match sbst_entries T !! i with Some e => sb_next e | None => 0 end.
Definition entity_value (i : Z) : option (list Z) := e ← sbst_entries T !! i; sb_value e.
Definition entity_key (i : Z) : Z := match sbst_entries T !! i with Some e => sb_key e | None => 0 end.

(** ** What holds of the whole table *)

(** Of an entry reached after [depth] bytes: its byte is alphanumeric or a
    semicolon; a semicolon ends a name; a value has the length the entry says,
    and either is no longer than the reference's text or belongs to a name with
    a semicolon. *)
Definition entry_ok (depth : Z) (e : sbst_entry) : bool :=
  (is_alnum (sb_key e) || (sb_key e =? 0x3B)) &&
  (negb (sb_key e =? 0x3B) || (bool_decide (is_Some (sb_value e)) && (sb_next e =? 0))) &&
  match sb_value e with
  | None => true
  | Some v => (Z.of_nat (length v) =? sb_value_len e) &&
      ((sb_value_len e <=? 1 + depth) || (sb_key e =? 0x3B) && (depth + 2 <=? sb_value_len e))
  end.

(** The search tree at [root] has its keys in order between [lo] and [hi], and
    everything below is as it should be. *)
Fixpoint tree_ok (fuel : nat) (depth lo hi root : Z) : bool :=
  if root =? 0 then true
  else
    match fuel with
    | O => false
    | S fuel' =>
        match sbst_entries T !! root with
        | None => false
        | Some e =>
            (lo <? sb_key e) && (sb_key e <? hi) && entry_ok depth e &&
            tree_ok fuel' depth lo (sb_key e) (sb_left e) &&
            tree_ok fuel' depth (sb_key e) hi (sb_right e) &&
            tree_ok fuel' (depth + 1) 0 256 (sb_next e)
        end
    end.

(** The bytes of a search tree in order, with their entries. *)
Fixpoint siblings (fuel : nat) (root : Z) : list (Z * Z) :=
  if root =? 0 then []
  else
    match fuel with
    | O => []
    | S fuel' =>
        match sbst_entries T !! root with
        | None => []
        | Some e => siblings fuel' (sb_left e) ++ [(sb_key e, root)] ++ siblings fuel' (sb_right e)
        end
    end.

(** The groups of bytes that can follow a prefix, and the prefix's length plus
    one. *)
Inductive entity_group : Z -> Z -> Prop :=
  | group_first : entity_group 1 1
  | group_next d r c j : entity_group d r -> lexbor_sbst_entry_static_find r c = Some j ->
      entity_group (d + 1) (entity_next j).

(** ** The search *)

(** The entry of a byte among siblings. *)
Definition sibling (l : list (Z * Z)) (key : Z) : option Z :=
  match List.find (fun p => fst p =? key) l with Some p => Some (snd p) | None => None end.

Lemma sibling_app l1 l2 key :
  sibling (l1 ++ l2) key = match sibling l1 key with Some i => Some i | None => sibling l2 key end.
Proof.
  unfold sibling. induction l1 as [|p l1 IH]; [done|]. cbn [app List.find].
  destruct (fst p =? key); [done | exact IH].
Qed.

Lemma sibling_cons p l key :
  sibling (p :: l) key = if fst p =? key then Some (snd p) else sibling l key.
Proof. unfold sibling. cbn [List.find]. by destruct (fst p =? key). Qed.

Lemma tree_ok_inv fuel depth lo hi root : tree_ok (S fuel) depth lo hi root = true -> root <> 0 ->
  exists e, sbst_entries T !! root = Some e /\ lo < sb_key e < hi /\ entry_ok depth e = true /\
    tree_ok fuel depth lo (sb_key e) (sb_left e) = true /\
    tree_ok fuel depth (sb_key e) hi (sb_right e) = true /\
    tree_ok fuel (depth + 1) 0 256 (sb_next e) = true.
Proof.
  intros H Hr. cbn [tree_ok] in H. apply Z.eqb_neq in Hr. rewrite Hr in H.
  destruct (sbst_entries T !! root) as [e|]; [|done]. exists e.
  rewrite !andb_true_iff, !Z.ltb_lt in H. destruct H as [[[[[? ?] ?] ?] ?] ?]. done.
Qed.

Lemma siblings_range fuel : forall depth lo hi root, tree_ok fuel depth lo hi root = true ->
  Forall (fun p => lo < fst p < hi) (siblings fuel root).
Proof.
  induction fuel as [|fuel IH]; intros depth lo hi root H;
    (destruct (Z.eqb_spec root 0) as [->|Hr]; [cbn; constructor|]).
  - cbn in H. apply Z.eqb_neq in Hr. by rewrite Hr in H.
  - destruct (tree_ok_inv _ _ _ _ _ H Hr) as (e & He & Hk & _ & Hl & Hrt & _).
    cbn [siblings]. apply Z.eqb_neq in Hr. rewrite Hr, He. apply Forall_app. split.
    + eapply Forall_impl; [by eapply IH|]. cbn. intros; lia.
    + apply Forall_cons. split; [done|]. eapply Forall_impl; [by eapply IH|]. cbn. intros; lia.
Qed.

Lemma sibling_none l key : Forall (fun p => fst p <> key) l -> sibling l key = None.
Proof.
  intros H. unfold sibling. destruct (List.find _ l) as [p|] eqn:E; [|done].
  apply List.find_some in E as [Hin Hk]. rewrite List.Forall_forall in H.
  apply Z.eqb_eq in Hk. by specialize (H p Hin).
Qed.

Lemma find_sibling fuel : forall depth lo hi root key n, tree_ok fuel depth lo hi root = true ->
  (fuel <= n)%nat -> sbst_find_loop n root key = sibling (siblings fuel root) key.
Proof.
  induction fuel as [|fuel IH]; intros depth lo hi root key n H Hn;
    (destruct (Z.eqb_spec root 0) as [->|Hr]; [by destruct n|]).
  - cbn in H. apply Z.eqb_neq in Hr. by rewrite Hr in H.
  - destruct n as [|n]; [lia|].
    destruct (tree_ok_inv _ _ _ _ _ H Hr) as (e & He & Hk & _ & Hl & Hrt & _).
    cbn [siblings sbst_find_loop]. apply Z.eqb_neq in Hr. rewrite Hr, He. cbn [mbind option_bind].
    rewrite sibling_app. cbn [app]. rewrite sibling_cons. cbn [fst snd].
    pose proof (siblings_range _ _ _ _ _ Hl) as Rl. pose proof (siblings_range _ _ _ _ _ Hrt) as Rr.
    destruct (Z.eqb_spec (sb_key e) key) as [<-|Hne].
    + rewrite sibling_none; [done|]. eapply Forall_impl; [exact Rl|]. cbn. intros; lia.
    + destruct (Z.gtb_spec key (sb_key e)).
      * rewrite sibling_none; [eapply IH; [exact Hrt | lia]|].
        eapply Forall_impl; [exact Rl|]. cbn. intros; lia.
      * rewrite (IH _ _ _ _ key n Hl) by lia. destruct (sibling (siblings fuel (sb_left e)) key); [done|].
        rewrite sibling_none; [done|]. eapply Forall_impl; [exact Rr|]. cbn. intros; lia.
Qed.

Lemma find_entry fuel : forall depth lo hi root key n j, tree_ok fuel depth lo hi root = true ->
  (fuel <= n)%nat -> sbst_find_loop n root key = Some j ->
  exists e fuel', sbst_entries T !! j = Some e /\ sb_key e = key /\ entry_ok depth e = true /\
    (fuel' <= fuel)%nat /\ tree_ok fuel' (depth + 1) 0 256 (sb_next e) = true.
Proof.
  induction fuel as [|fuel IH]; intros depth lo hi root key n j H Hn Hf;
    (destruct (Z.eqb_spec root 0) as [->|Hr]; [by destruct n|]).
  - cbn in H. apply Z.eqb_neq in Hr. by rewrite Hr in H.
  - destruct n as [|n]; [lia|].
    destruct (tree_ok_inv _ _ _ _ _ H Hr) as (e & He & _ & Hok & Hl & Hrt & Hnx).
    cbn [sbst_find_loop] in Hf. apply Z.eqb_neq in Hr. rewrite Hr, He in Hf. cbn [mbind option_bind] in Hf.
    destruct (Z.eqb_spec (sb_key e) key) as [Hk|Hne].
    + injection Hf as <-. exists e, fuel. split; [exact He|]. split; [exact Hk|]. auto with lia.
    + destruct (key >? sb_key e).
      * destruct (IH _ _ _ _ key n j Hrt ltac:(lia) Hf) as (e' & f' & ? & ? & ? & ? & ?).
        exists e', f'. auto 10 with lia.
      * destruct (IH _ _ _ _ key n j Hl ltac:(lia) Hf) as (e' & f' & ? & ? & ? & ? & ?).
        exists e', f'. auto 10 with lia.
Qed.

(** The whole table is as it should be: the first bytes are the tree at index 1. *)
Context (table_ok : tree_ok (sbst_height T) 1 0 256 1 = true).

Lemma group_ok d r : entity_group d r ->
  exists fuel, (fuel <= (sbst_height T))%nat /\ tree_ok fuel d 0 256 r = true.
Proof.
  induction 1 as [|d r c j _ (fuel & Hle & Hok) Hf]; [exists (sbst_height T); split; [done | exact table_ok]|].
  destruct (find_entry _ _ _ _ _ _ _ _ Hok Hle Hf) as (e & f' & He & _ & _ & Hle' & Hok').
  exists f'. split; [lia|]. unfold entity_next. by rewrite He.
Qed.

(** What finding a byte gives. *)
Lemma group_find d r c j : entity_group d r -> lexbor_sbst_entry_static_find r c = Some j ->
  exists e, sbst_entries T !! j = Some e /\ sb_key e = c /\ entry_ok d e = true.
Proof.
  intros Hg Hf. destruct (group_ok d r Hg) as (fuel & Hle & Hok).
  destruct (find_entry _ _ _ _ _ _ _ _ Hok Hle Hf) as (e & f' & ? & ? & ? & _). eauto.
Qed.

Lemma sibling_in l key j : NoDup (map fst l) -> sibling l key = Some j <-> In (key, j) l.
Proof.
  intros Hnd. induction l as [|[k i] l IH]; [cbn; intuition discriminate|].
  cbn [map fst] in Hnd. apply NoDup_cons in Hnd as [Hk Hnd]. rewrite sibling_cons. cbn [fst snd In].
  destruct (Z.eqb_spec k key) as [->|Hne].
  - split; [intros [= ->]; by left|]. intros [[= ->]|Hin]; [done|].
    exfalso. apply Hk. apply list_elem_of_In. by apply (in_map fst) in Hin.
  - rewrite IH by done. split; [by right|]. by intros [[= -> _]|Hin].
Qed.

Lemma siblings_more fuel : forall depth lo hi root n, tree_ok fuel depth lo hi root = true ->
  (fuel <= n)%nat -> siblings n root = siblings fuel root.
Proof.
  induction fuel as [|fuel IH]; intros depth lo hi root n H Hn;
    (destruct (Z.eqb_spec root 0) as [->|Hr]; [by destruct n|]).
  - cbn in H. apply Z.eqb_neq in Hr. by rewrite Hr in H.
  - destruct n as [|n]; [lia|].
    destruct (tree_ok_inv _ _ _ _ _ H Hr) as (e & He & _ & _ & Hl & Hrt & _).
    cbn [siblings]. apply Z.eqb_neq in Hr. rewrite Hr, He.
    by rewrite (IH _ _ _ _ n Hl), (IH _ _ _ _ n Hrt) by lia.
Qed.

Lemma siblings_nodup fuel : forall depth lo hi root, tree_ok fuel depth lo hi root = true ->
  NoDup (map fst (siblings fuel root)).
Proof.
  induction fuel as [|fuel IH]; intros depth lo hi root H;
    (destruct (Z.eqb_spec root 0) as [->|Hr]; [constructor|]).
  - cbn in H. apply Z.eqb_neq in Hr. by rewrite Hr in H.
  - destruct (tree_ok_inv _ _ _ _ _ H Hr) as (e & He & _ & _ & Hl & Hrt & _).
    cbn [siblings]. apply Z.eqb_neq in Hr. rewrite Hr, He, map_app. cbn [map fst app].
    pose proof (siblings_range _ _ _ _ _ Hl) as Rl. pose proof (siblings_range _ _ _ _ _ Hrt) as Rr.
    assert (Hin : forall lo' hi' l x, Forall (fun p : Z * Z => lo' < fst p < hi') l -> In x (map fst l) ->
      lo' < x < hi').
    { intros lo' hi' l x Hl' (p & <- & Hp)%in_map_iff. rewrite List.Forall_forall in Hl'. by apply Hl'. }
    apply NoDup_app. split; [by eapply IH|]. split.
    + intros x Hx%list_elem_of_In [->|Hx2%list_elem_of_In]%elem_of_cons;
        pose proof (Hin _ _ _ _ Rl Hx); [lia|]. pose proof (Hin _ _ _ _ Rr Hx2). lia.
    + apply NoDup_cons. split; [|by eapply IH]. intros Hx%list_elem_of_In. pose proof (Hin _ _ _ _ Rr Hx). lia.
Qed.


Lemma group_search d r c : entity_group d r ->
  let group := siblings (sbst_height T) r in
  NoDup (map fst group) /\
  (forall j, lexbor_sbst_entry_static_find r c = Some j <-> In (c, j) group) /\
  (forall j, In (c, j) group -> exists e, sbst_entries T !! j = Some e /\ sb_key e = c /\ entry_ok d e = true).
Proof.
  intros Hg group. destruct (group_ok d r Hg) as (fuel & Hle & Hok).
  assert (Hs : group = siblings fuel r) by (by eapply siblings_more).
  assert (Hnd : NoDup (map fst group)) by (rewrite Hs; by eapply siblings_nodup).
  assert (Hf : forall j, lexbor_sbst_entry_static_find r c = Some j <-> In (c, j) group).
  { intros j. unfold lexbor_sbst_entry_static_find. rewrite (find_sibling _ _ _ _ _ _ _ Hok Hle), <- Hs.
    by apply sibling_in. }
  split; [done|]. split; [done|]. intros j Hj. apply Hf in Hj. by eapply group_find.
Qed.
End Sbst.
