(* ===== verification/EntityRes.v ===== *)
(** * The table of named character references: [html/tokenizer/res.h]

    The generated table in full, and the check of it. *)
From S2P Require Import Prelude.
From S2P Require Import Str.
From S2P Require Import Sbst.

Definition entities_0 : list sbst_entry :=
  [E 0x00 None 0 0 0 0; E 0x61 None 0 3 2 53; E 0x6e None 0 30 29 257; E 0x4e None 0 5 4 856;
   E 0x55 None 0 19 18 1421; E 0x47 None 0 7 6 1636; E 0x4b None 0 14 13 1743;
   E 0x44 None 0 9 8 1775; E 0x46 None 0 12 0 2152; E 0x42 None 0 11 10 2213;
   E 0x43 None 0 0 0 2273; E 0x41 None 0 0 0 2522; E 0x45 None 0 0 0 2616;
   E 0x4d None 0 17 0 2762; E 0x49 None 0 16 15 2809; E 0x4a None 0 0 0 2934;
   E 0x48 None 0 0 0 2962; E 0x4c None 0 0 0 3039; E 0x58 None 0 26 25 3468;
   E 0x52 None 0 21 20 3481; E 0x54 None 0 24 0 3779; E 0x50 None 0 23 22 3895;
   E 0x51 None 0 0 0 3998; E 0x4f None 0 0 0 4013; E 0x53 None 0 0 0 4144;
   E 0x5a None 0 28 0 4380; E 0x57 None 0 27 0 4430; E 0x56 None 0 0 0 4451;
   E 0x59 None 0 0 0 4537; E 0x75 None 0 43 42 4577; E 0x68 None 0 32 31 4793;
   E 0x6b None 0 39 38 4936; E 0x65 None 0 34 33 4976; E 0x67 None 0 37 0 5223;
   E 0x63 None 0 36 35 5427; E 0x64 None 0 0 0 5812; E 0x62 None 0 0 0 6116;
   E 0x66 None 0 0 0 6542; E 0x6d None 0 41 0 6677; E 0x6a None 0 40 0 6826;
   E 0x69 None 0 0 0 6859; E 0x6c None 0 0 0 7051; E 0x78 None 0 50 49 7695;
   E 0x72 None 0 45 44 7797; E 0x74 None 0 48 0 8231; E 0x70 None 0 47 46 8481;
   E 0x71 None 0 0 0 8726; E 0x6f None 0 0 0 8772; E 0x73 None 0 0 0 8971;
   E 0x7a None 0 52 0 9523; E 0x77 None 0 51 0 9578; E 0x76 None 0 0 0 9619;
   E 0x79 None 0 0 0 9814; E 0x6e None 0 55 54 69; E 0x73 None 0 64 63 132;
   E 0x66 None 0 57 56 144; E 0x6c None 0 62 61 147; E 0x63 None 0 59 58 160;
   E 0x65 None 0 0 0 175; E 0x62 None 0 60 0 179; E 0x61 None 0 0 0 184; E 0x6d None 0 0 0 189;
   E 0x67 None 0 0 0 198; E 0x75 None 0 68 67 203; E 0x70 None 0 66 65 206;
   E 0x72 None 0 0 0 230; E 0x6f None 0 0 0 234; E 0x77 None 0 0 0 241; E 0x74 None 0 0 0 252;
   E 0x67 None 0 70 0 71; E 0x64 None 0 0 0 117; E 0x6d None 0 73 72 78; E 0x73 None 0 77 76 98;
   E 0x65 None 0 75 74 103; E 0x6c None 0 0 0 104; E 0x3b (Some [0xe2; 0x88; 0xa0]) 3 0 0 0;
   E 0x7a None 0 0 0 106; E 0x72 None 0 0 0 110; E 0x73 None 0 0 0 79; E 0x64 None 0 0 0 80;
   E 0x61 None 0 81 0 82; E 0x3b (Some [0xe2; 0x88; 0xa1]) 3 0 0 0; E 0x65 None 0 84 83 90;
   E 0x67 None 0 89 88 91; E 0x63 None 0 86 85 92; E 0x64 None 0 0 0 93; E 0x62 None 0 87 0 94;
   E 0x61 None 0 0 0 95; E 0x68 None 0 0 0 96; E 0x66 None 0 0 0 97;
   E 0x3b (Some [0xe2; 0xa6; 0xac]) 3 0 0 0; E 0x3b (Some [0xe2; 0xa6; 0xae]) 3 0 0 0;
   E 0x3b (Some [0xe2; 0xa6; 0xaa]) 3 0 0 0; E 0x3b (Some [0xe2; 0xa6; 0xab]) 3 0 0 0;
   E 0x3b (Some [0xe2; 0xa6; 0xa9]) 3 0 0 0; E 0x3b (Some [0xe2; 0xa6; 0xa8]) 3 0 0 0;
   E 0x3b (Some [0xe2; 0xa6; 0xaf]) 3 0 0 0; E 0x3b (Some [0xe2; 0xa6; 0xad]) 3 0 0 0;
   E 0x74 None 0 99 0 100; E 0x70 None 0 0 0 101; E 0x3b (Some [0xc3; 0x85]) 2 0 0 0;
   E 0x68 None 0 0 0 102; E 0x3b (Some [0xe2; 0x88; 0xa2]) 3 0 0 0;
   E 0x3b (Some [0xe2; 0xa6; 0xa4]) 3 0 0 0; E 0x65 None 0 0 0 105;
   E 0x3b (Some [0xe2; 0x88; 0xa0]) 3 0 0 0; E 0x61 None 0 0 0 107; E 0x72 None 0 0 0 108;
   E 0x72 None 0 0 0 109; E 0x3b (Some [0xe2; 0x8d; 0xbc]) 3 0 0 0; E 0x74 None 0 0 0 111;
   E 0x76 None 0 112 0 113; E 0x3b (Some [0xe2; 0x88; 0x9f]) 3 0 0 0; E 0x62 None 0 0 0 114;
   E 0x64 None 0 115 0 116; E 0x3b (Some [0xe2; 0x8a; 0xbe]) 3 0 0 0;
   E 0x3b (Some [0xe2; 0xa6; 0x9d]) 3 0 0 0; E 0x64 None 0 119 118 122; E 0x76 None 0 121 0 123;
   E 0x61 None 0 120 0 124; E 0x3b (Some [0xe2; 0x88; 0xa7]) 3 0 0 0; E 0x73 None 0 0 0 127;
   E 0x3b (Some [0xe2; 0xa9; 0x9c]) 3 0 0 0; E 0x3b (Some [0xe2; 0xa9; 0x9a]) 3 0 0 0;
   E 0x6e None 0 0 0 125; E 0x64 None 0 0 0 126; E 0x3b (Some [0xe2; 0xa9; 0x95]) 3 0 0 0;
   E 0x6c None 0 0 0 128; E 0x6f None 0 0 0 129; E 0x70 None 0 0 0 130; E 0x65 None 0 0 0 131;
   E 0x3b (Some [0xe2; 0xa9; 0x98]) 3 0 0 0; E 0x74 None 0 134 133 135; E 0x79 None 0 0 0 136;
   E 0x63 None 0 0 0 142; E 0x3b (Some [0x2a]) 1 0 0 0; E 0x6d None 0 0 0 137;
   E 0x70 None 0 0 0 138; E 0x65 None 0 139 0 140; E 0x3b (Some [0xe2; 0x89; 0x88]) 3 0 0 0;
   E 0x71 None 0 0 0 141; E 0x3b (Some [0xe2; 0x89; 0x8d]) 3 0 0 0; E 0x72 None 0 0 0 143;
   E 0x3b (Some [0xf0; 0x9d; 0x92; 0xb6]) 4 0 0 0; E 0x72 None 0 145 0 146;
   E 0x3b (Some [0xe2; 0x81; 0xa1]) 3 0 0 0; E 0x3b (Some [0xf0; 0x9d; 0x94; 0x9e]) 4 0 0 0;
   E 0x70 None 0 148 0 149; E 0x65 None 0 0 0 152; E 0x68 None 0 0 0 150; E 0x61 None 0 0 0 151;
   E 0x3b (Some [0xce; 0xb1]) 2 0 0 0; E 0x70 None 0 153 0 154; E 0x66 None 0 0 0 156;
   E 0x68 None 0 0 0 155; E 0x3b (Some [0xe2; 0x84; 0xb5]) 3 0 0 0; E 0x73 None 0 0 0 157;
   E 0x79 None 0 0 0 158; E 0x6d None 0 0 0 159; E 0x3b (Some [0xe2; 0x84; 0xb5]) 3 0 0 0;
   E 0x69 None 0 162 161 166; E 0x79 None 0 165 0 169; E 0x45 None 0 164 163 170;
   E 0x64 None 0 0 0 171; E 0x3b (Some [0xe2; 0x88; 0xbe]) 3 0 0 0; E 0x75 None 0 0 0 172;
   E 0x72 None 0 0 0 167; E 0x63 (Some [0xc3; 0xa2]) 2 0 0 168;
   E 0x3b (Some [0xc3; 0xa2]) 2 0 0 0; E 0x3b (Some [0xd0; 0xb0]) 2 0 0 0;
   E 0x3b (Some [0xe2; 0x88; 0xbe; 0xcc; 0xb3]) 5 0 0 0;
   E 0x3b (Some [0xe2; 0x88; 0xbf]) 3 0 0 0; E 0x74 None 0 0 0 173;
   E 0x65 (Some [0xc2; 0xb4]) 2 0 0 174; E 0x3b (Some [0xc2; 0xb4]) 2 0 0 0;
   E 0x6c None 0 0 0 176; E 0x69 None 0 0 0 177; E 0x67 (Some [0xc3; 0xa6]) 2 0 0 178;
   E 0x3b (Some [0xc3; 0xa6]) 2 0 0 0; E 0x72 None 0 0 0 180; E 0x65 None 0 0 0 181;
   E 0x76 None 0 0 0 182; E 0x65 None 0 0 0 183; E 0x3b (Some [0xc4; 0x83]) 2 0 0 0;
   E 0x63 None 0 0 0 185; E 0x75 None 0 0 0 186; E 0x74 None 0 0 0 187;
   E 0x65 (Some [0xc3; 0xa1]) 2 0 0 188; E 0x3b (Some [0xc3; 0xa1]) 2 0 0 0;
   E 0x70 (Some [0x26]) 1 190 0 191; E 0x61 None 0 0 0 192; E 0x3b (Some [0x26]) 1 0 0 0;
   E 0x6c None 0 193 0 194; E 0x63 None 0 0 0 196; E 0x67 None 0 0 0 195;
   E 0x3b (Some [0xe2; 0xa8; 0xbf]) 3 0 0 0; E 0x72 None 0 0 0 197;
   E 0x3b (Some [0xc4; 0x81]) 2 0 0 0; E 0x72 None 0 0 0 199; E 0x61 None 0 0 0 200;
   E 0x76 None 0 0 0 201; E 0x65 (Some [0xc3; 0xa0]) 2 0 0 202;
   E 0x3b (Some [0xc3; 0xa0]) 2 0 0 0; E 0x6d None 0 0 0 204;
   E 0x6c (Some [0xc3; 0xa4]) 2 0 0 205; E 0x3b (Some [0xc3; 0xa4]) 2 0 0 0;
   E 0x65 None 0 208 207 213; E 0x6f None 0 212 211 214; E 0x45 None 0 210 209 216;
   E 0x61 None 0 0 0 217; E 0x3b (Some [0xe2; 0x89; 0x88]) 3 0 0 0; E 0x70 None 0 0 0 221;
   E 0x69 None 0 0 0 228; E 0x3b (Some [0xe2; 0x89; 0x8a]) 3 0 0 0; E 0x73 None 0 0 0 215;
   E 0x3b (Some [0x27]) 1 0 0 0; E 0x3b (Some [0xe2; 0xa9; 0xb0]) 3 0 0 0; E 0x63 None 0 0 0 218;
   E 0x69 None 0 0 0 219; E 0x72 None 0 0 0 220; E 0x3b (Some [0xe2; 0xa9; 0xaf]) 3 0 0 0;
   E 0x72 None 0 0 0 222; E 0x6f None 0 0 0 223; E 0x78 None 0 0 0 224; E 0x65 None 0 225 0 226;
   E 0x3b (Some [0xe2; 0x89; 0x88]) 3 0 0 0; E 0x71 None 0 0 0 227;
   E 0x3b (Some [0xe2; 0x89; 0x8a]) 3 0 0 0; E 0x64 None 0 0 0 229;
   E 0x3b (Some [0xe2; 0x89; 0x8b]) 3 0 0 0; E 0x69 None 0 0 0 231; E 0x6e None 0 0 0 232;
   E 0x67 (Some [0xc3; 0xa5]) 2 0 0 233; E 0x3b (Some [0xc3; 0xa5]) 2 0 0 0;
   E 0x70 None 0 235 0 236; E 0x67 None 0 0 0 238; E 0x66 None 0 0 0 237;
   E 0x3b (Some [0xf0; 0x9d; 0x95; 0x92]) 4 0 0 0; E 0x6f None 0 0 0 239; E 0x6e None 0 0 0 240;
   E 0x3b (Some [0xc4; 0x85]) 2 0 0 0; E 0x69 None 0 242 0 243; E 0x63 None 0 0 0 246;
   E 0x6e None 0 0 0 244; E 0x74 None 0 0 0 245; E 0x3b (Some [0xe2; 0xa8; 0x91]) 3 0 0 0;
   E 0x6f None 0 0 0 247; E 0x6e None 0 0 0 248; E 0x69 None 0 0 0 249; E 0x6e None 0 0 0 250;
   E 0x74 None 0 0 0 251; E 0x3b (Some [0xe2; 0x88; 0xb3]) 3 0 0 0; E 0x69 None 0 0 0 253;
   E 0x6c None 0 0 0 254; E 0x64 None 0 0 0 255; E 0x65 (Some [0xc3; 0xa3]) 2 0 0 256;
   E 0x3b (Some [0xc3; 0xa3]) 2 0 0 0; E 0x69 None 0 259 258 281; E 0x72 None 0 272 271 288;
   E 0x63 None 0 261 260 316; E 0x66 None 0 268 267 341; E 0x56 None 0 263 262 343;
   E 0x62 None 0 266 0 353; E 0x4c None 0 265 264 362; E 0x52 None 0 0 0 388;
   E 0x47 None 0 0 0 398; E 0x61 None 0 0 0 404; E 0x68 None 0 270 0 440;
   E 0x65 None 0 269 0 452; E 0x64 None 0 0 0 491; E 0x67 None 0 0 0 495;
   E 0x75 None 0 278 277 519; E 0x6d None 0 274 273 529; E 0x70 None 0 276 0 532;
   E 0x6c None 0 275 0 565; E 0x6a None 0 0 0 624; E 0x6f None 0 0 0 627;
   E 0x77 None 0 280 0 658; E 0x74 None 0 279 0 677; E 0x73 None 0 0 0 712;
   E 0x76 None 0 0 0 800; E 0x73 None 0 283 282 284; E 0x76 None 0 0 0 287;
   E 0x3b (Some [0xe2; 0x88; 0x8b]) 3 0 0 0; E 0x64 None 0 285 0 286;
   E 0x3b (Some [0xe2; 0x8b; 0xbc]) 3 0 0 0; E 0x3b (Some [0xe2; 0x8b; 0xba]) 3 0 0 0;
   E 0x3b (Some [0xe2; 0x88; 0x8b]) 3 0 0 0; E 0x69 None 0 290 289 292; E 0x74 None 0 0 0 301;
   E 0x61 None 0 291 0 306; E 0x41 None 0 0 0 313; E 0x67 None 0 0 0 293; E 0x68 None 0 0 0 294;
   E 0x74 None 0 0 0 295; E 0x61 None 0 0 0 296; E 0x72 None 0 0 0 297; E 0x72 None 0 0 0 298;
   E 0x6f None 0 0 0 299; E 0x77 None 0 0 0 300; E 0x3b (Some [0xe2; 0x86; 0x9b]) 3 0 0 0;
   E 0x72 None 0 0 0 302; E 0x69 None 0 0 0 303; E 0x65 None 0 304 0 305;
   E 0x3b (Some [0xe2; 0x8b; 0xab]) 3 0 0 0; E 0x3b (Some [0xe2; 0x8b; 0xad]) 3 0 0 0;
   E 0x72 None 0 0 0 307; E 0x72 None 0 0 0 308; E 0x63 None 0 310 309 311;
   E 0x77 None 0 0 0 312; E 0x3b (Some [0xe2; 0x86; 0x9b]) 3 0 0 0;
   E 0x3b (Some [0xe2; 0xa4; 0xb3; 0xcc; 0xb8]) 5 0 0 0;
   E 0x3b (Some [0xe2; 0x86; 0x9d; 0xcc; 0xb8]) 5 0 0 0; E 0x72 None 0 0 0 314;
   E 0x72 None 0 0 0 315; E 0x3b (Some [0xe2; 0x87; 0x8f]) 3 0 0 0; E 0x6f None 0 318 317 321;
   E 0x79 None 0 320 0 328; E 0x65 None 0 319 0 329; E 0x61 None 0 0 0 333;
   E 0x75 None 0 0 0 339; E 0x6e None 0 0 0 322; E 0x67 None 0 0 0 323; E 0x64 None 0 324 0 325;
   E 0x3b (Some [0xe2; 0x89; 0x87]) 3 0 0 0; E 0x6f None 0 0 0 326; E 0x74 None 0 0 0 327;
   E 0x3b (Some [0xe2; 0xa9; 0xad; 0xcc; 0xb8]) 5 0 0 0; E 0x3b (Some [0xd0; 0xbd]) 2 0 0 0;
   E 0x64 None 0 0 0 330; E 0x69 None 0 0 0 331; E 0x6c None 0 0 0 332;
   E 0x3b (Some [0xc5; 0x86]) 2 0 0 0; E 0x72 None 0 334 0 335; E 0x70 None 0 0 0 338;
   E 0x6f None 0 0 0 336; E 0x6e None 0 0 0 337; E 0x3b (Some [0xc5; 0x88]) 2 0 0 0;
   E 0x3b (Some [0xe2; 0xa9; 0x83]) 3 0 0 0; E 0x70 None 0 0 0 340;
   E 0x3b (Some [0xe2; 0xa9; 0x82]) 3 0 0 0; E 0x72 None 0 0 0 342;
   E 0x3b (Some [0xf0; 0x9d; 0x94; 0xab]) 4 0 0 0; E 0x64 None 0 344 0 345;
   E 0x44 None 0 0 0 349; E 0x61 None 0 0 0 346; E 0x73 None 0 0 0 347; E 0x68 None 0 0 0 348;
   E 0x3b (Some [0xe2; 0x8a; 0xae]) 3 0 0 0; E 0x61 None 0 0 0 350; E 0x73 None 0 0 0 351;
   E 0x68 None 0 0 0 352; E 0x3b (Some [0xe2; 0x8a; 0xaf]) 3 0 0 0; E 0x75 None 0 354 0 355;
   E 0x73 None 0 0 0 360; E 0x6d None 0 0 0 356; E 0x70 None 0 0 0 357; E 0x65 None 0 358 0 359;
   E 0x3b (Some [0xe2; 0x89; 0x8e; 0xcc; 0xb8]) 5 0 0 0;
   E 0x3b (Some [0xe2; 0x89; 0x8f; 0xcc; 0xb8]) 5 0 0 0; E 0x70 (Some [0xc2; 0xa0]) 2 0 0 361;
   E 0x3b (Some [0xc2; 0xa0]) 2 0 0 0; E 0x6c None 0 364 363 365; E 0x74 None 0 0 0 366;
   E 0x65 None 0 0 0 369; E 0x3b (Some [0xe2; 0x8b; 0x98; 0xcc; 0xb8]) 5 0 0 0;
   E 0x76 None 0 367 0 368; E 0x3b (Some [0xe2; 0x89; 0xaa; 0xe2; 0x83; 0x92]) 6 0 0 0;
   E 0x3b (Some [0xe2; 0x89; 0xaa; 0xcc; 0xb8]) 5 0 0 0; E 0x66 None 0 0 0 370;
   E 0x74 None 0 0 0 371; E 0x72 None 0 372 0 373; E 0x61 None 0 0 0 383; E 0x69 None 0 0 0 374;
   E 0x67 None 0 0 0 375; E 0x68 None 0 0 0 376; E 0x74 None 0 0 0 377; E 0x61 None 0 0 0 378;
   E 0x72 None 0 0 0 379; E 0x72 None 0 0 0 380; E 0x6f None 0 0 0 381; E 0x77 None 0 0 0 382;
   E 0x3b (Some [0xe2; 0x87; 0x8e]) 3 0 0 0; E 0x72 None 0 0 0 384; E 0x72 None 0 0 0 385;
   E 0x6f None 0 0 0 386; E 0x77 None 0 0 0 387; E 0x3b (Some [0xe2; 0x87; 0x8d]) 3 0 0 0;
   E 0x69 None 0 0 0 389; E 0x67 None 0 0 0 390; E 0x68 None 0 0 0 391; E 0x74 None 0 0 0 392;
   E 0x61 None 0 0 0 393; E 0x72 None 0 0 0 394; E 0x72 None 0 0 0 395; E 0x6f None 0 0 0 396;
   E 0x77 None 0 0 0 397; E 0x3b (Some [0xe2; 0x87; 0x8f]) 3 0 0 0; E 0x74 None 0 399 0 400;
   E 0x67 None 0 0 0 403; E 0x76 None 0 401 0 402;
   E 0x3b (Some [0xe2; 0x89; 0xab; 0xe2; 0x83; 0x92]) 6 0 0 0;
   E 0x3b (Some [0xe2; 0x89; 0xab; 0xcc; 0xb8]) 5 0 0 0;
   E 0x3b (Some [0xe2; 0x8b; 0x99; 0xcc; 0xb8]) 5 0 0 0; E 0x6e None 0 406 405 409;
   E 0x74 None 0 408 0 411; E 0x63 None 0 407 0 419; E 0x62 None 0 0 0 423;
   E 0x70 None 0 0 0 426; E 0x67 None 0 0 0 410;
   E 0x3b (Some [0xe2; 0x88; 0xa0; 0xe2; 0x83; 0x92]) 6 0 0 0; E 0x75 None 0 0 0 412;
   E 0x72 None 0 0 0 413; E 0x61 None 0 414 0 415; E 0x3b (Some [0xe2; 0x99; 0xae]) 3 0 0 0;
   E 0x6c None 0 0 0 416; E 0x73 None 0 417 0 418; E 0x3b (Some [0xe2; 0x99; 0xae]) 3 0 0 0;
   E 0x3b (Some [0xe2; 0x84; 0x95]) 3 0 0 0; E 0x75 None 0 0 0 420; E 0x74 None 0 0 0 421;
   E 0x65 None 0 0 0 422; E 0x3b (Some [0xc5; 0x84]) 2 0 0 0; E 0x6c None 0 0 0 424;
   E 0x61 None 0 0 0 425; E 0x3b (Some [0xe2; 0x88; 0x87]) 3 0 0 0; E 0x69 None 0 428 427 431;
   E 0x70 None 0 430 0 433; E 0x45 None 0 429 0 437; E 0x3b (Some [0xe2; 0x89; 0x89]) 3 0 0 0;
   E 0x6f None 0 0 0 438; E 0x64 None 0 0 0 432;
   E 0x3b (Some [0xe2; 0x89; 0x8b; 0xcc; 0xb8]) 5 0 0 0; E 0x72 None 0 0 0 434;
   E 0x6f None 0 0 0 435; E 0x78 None 0 0 0 436; E 0x3b (Some [0xe2; 0x89; 0x89]) 3 0 0 0;
   E 0x3b (Some [0xe2; 0xa9; 0xb0; 0xcc; 0xb8]) 5 0 0 0; E 0x73 None 0 0 0 439;
   E 0x3b (Some [0xc5; 0x89]) 2 0 0 0; E 0x61 None 0 442 441 443; E 0x70 None 0 0 0 446;
   E 0x41 None 0 0 0 449; E 0x72 None 0 0 0 444; E 0x72 None 0 0 0 445;
   E 0x3b (Some [0xe2; 0x86; 0xae]) 3 0 0 0; E 0x61 None 0 0 0 447; E 0x72 None 0 0 0 448;
   E 0x3b (Some [0xe2; 0xab; 0xb2]) 3 0 0 0; E 0x72 None 0 0 0 450; E 0x72 None 0 0 0 451;
   E 0x3b (Some [0xe2; 0x87; 0x8e]) 3 0 0 0; E 0x64 None 0 454 453 459;
   E 0x73 None 0 458 457 462; E 0x41 None 0 456 455 469; E 0x61 None 0 0 0 472;
   E 0x3b (Some [0xe2; 0x89; 0xa0]) 3 0 0 0; E 0x78 None 0 0 0 481; E 0x71 None 0 0 0 487;
   E 0x6f None 0 0 0 460; E 0x74 None 0 0 0 461;
   E 0x3b (Some [0xe2; 0x89; 0x90; 0xcc; 0xb8]) 5 0 0 0; E 0x69 None 0 463 0 464;
   E 0x65 None 0 0 0 466; E 0x6d None 0 0 0 465;
   E 0x3b (Some [0xe2; 0x89; 0x82; 0xcc; 0xb8]) 5 0 0 0; E 0x61 None 0 0 0 467;
   E 0x72 None 0 0 0 468; E 0x3b (Some [0xe2; 0xa4; 0xa8]) 3 0 0 0; E 0x72 None 0 0 0 470;
   E 0x72 None 0 0 0 471; E 0x3b (Some [0xe2; 0x87; 0x97]) 3 0 0 0; E 0x72 None 0 0 0 473;
   E 0x72 None 0 474 0 475; E 0x68 None 0 0 0 479; E 0x6f None 0 476 0 477;
   E 0x3b (Some [0xe2; 0x86; 0x97]) 3 0 0 0; E 0x77 None 0 0 0 478;
   E 0x3b (Some [0xe2; 0x86; 0x97]) 3 0 0 0; E 0x6b None 0 0 0 480;
   E 0x3b (Some [0xe2; 0xa4; 0xa4]) 3 0 0 0; E 0x69 None 0 0 0 482; E 0x73 None 0 0 0 483;
   E 0x74 None 0 0 0 484; E 0x73 None 0 485 0 486; E 0x3b (Some [0xe2; 0x88; 0x84]) 3 0 0 0;
   E 0x3b (Some [0xe2; 0x88; 0x84]) 3 0 0 0; E 0x75 None 0 0 0 488; E 0x69 None 0 0 0 489;
   E 0x76 None 0 0 0 490; E 0x3b (Some [0xe2; 0x89; 0xa2]) 3 0 0 0; E 0x61 None 0 0 0 492;
   E 0x73 None 0 0 0 493; E 0x68 None 0 0 0 494; E 0x3b (Some [0xe2; 0x80; 0x93]) 3 0 0 0;
   E 0x73 None 0 497 496 499; E 0x74 None 0 0 0 502; E 0x65 None 0 498 0 505;
   E 0x45 None 0 0 0 518; E 0x69 None 0 0 0 500].

Definition entities_1 : list sbst_entry :=
  [E 0x6d None 0 0 0 501; E 0x3b (Some [0xe2; 0x89; 0xb5]) 3 0 0 0; E 0x72 None 0 503 0 504;
   E 0x3b (Some [0xe2; 0x89; 0xaf]) 3 0 0 0; E 0x3b (Some [0xe2; 0x89; 0xaf]) 3 0 0 0;
   E 0x71 None 0 507 506 508; E 0x73 None 0 0 0 517; E 0x3b (Some [0xe2; 0x89; 0xb1]) 3 0 0 0;
   E 0x71 None 0 510 509 511; E 0x73 None 0 0 0 512; E 0x3b (Some [0xe2; 0x89; 0xb1]) 3 0 0 0;
   E 0x3b (Some [0xe2; 0x89; 0xa7; 0xcc; 0xb8]) 5 0 0 0; E 0x6c None 0 0 0 513;
   E 0x61 None 0 0 0 514; E 0x6e None 0 0 0 515; E 0x74 None 0 0 0 516;
   E 0x3b (Some [0xe2; 0xa9; 0xbe; 0xcc; 0xb8]) 5 0 0 0;
   E 0x3b (Some [0xe2; 0xa9; 0xbe; 0xcc; 0xb8]) 5 0 0 0;
   E 0x3b (Some [0xe2; 0x89; 0xa7; 0xcc; 0xb8]) 5 0 0 0; E 0x6d None 0 520 0 521;
   E 0x3b (Some [0xce; 0xbd]) 2 0 0 0; E 0x65 None 0 523 522 524; E 0x73 None 0 0 0 527;
   E 0x3b (Some [0x23]) 1 0 0 0; E 0x72 None 0 0 0 525; E 0x6f None 0 0 0 526;
   E 0x3b (Some [0xe2; 0x84; 0x96]) 3 0 0 0; E 0x70 None 0 0 0 528;
   E 0x3b (Some [0xe2; 0x80; 0x87]) 3 0 0 0; E 0x69 None 0 0 0 530; E 0x64 None 0 0 0 531;
   E 0x3b (Some [0xe2; 0x88; 0xa4]) 3 0 0 0; E 0x6f None 0 534 533 535; E 0x72 None 0 0 0 540;
   E 0x61 None 0 0 0 552; E 0x6c None 0 0 0 536; E 0x69 None 0 0 0 537; E 0x6e None 0 0 0 538;
   E 0x74 None 0 0 0 539; E 0x3b (Some [0xe2; 0xa8; 0x94]) 3 0 0 0; E 0x63 None 0 542 541 543;
   E 0x65 None 0 0 0 546; E 0x3b (Some [0xe2; 0x8a; 0x80]) 3 0 0 0; E 0x75 None 0 0 0 544;
   E 0x65 None 0 0 0 545; E 0x3b (Some [0xe2; 0x8b; 0xa0]) 3 0 0 0; E 0x63 None 0 547 0 548;
   E 0x3b (Some [0xe2; 0xaa; 0xaf; 0xcc; 0xb8]) 5 0 0 0; E 0x65 None 0 549 0 550;
   E 0x3b (Some [0xe2; 0x8a; 0x80]) 3 0 0 0; E 0x71 None 0 0 0 551;
   E 0x3b (Some [0xe2; 0xaa; 0xaf; 0xcc; 0xb8]) 5 0 0 0; E 0x72 None 0 0 0 553;
   E 0x73 None 0 555 554 557; E 0x74 None 0 0 0 559; E 0x61 None 0 556 0 560;
   E 0x3b (Some [0xe2; 0x88; 0xa6]) 3 0 0 0; E 0x6c None 0 0 0 558;
   E 0x3b (Some [0xe2; 0xab; 0xbd; 0xe2; 0x83; 0xa5]) 6 0 0 0;
   E 0x3b (Some [0xe2; 0x88; 0x82; 0xcc; 0xb8]) 5 0 0 0; E 0x6c None 0 0 0 561;
   E 0x6c None 0 0 0 562; E 0x65 None 0 0 0 563; E 0x6c None 0 0 0 564;
   E 0x3b (Some [0xe2; 0x88; 0xa6]) 3 0 0 0; E 0x64 None 0 567 566 572;
   E 0x73 None 0 571 570 574; E 0x45 None 0 569 568 577; E 0x61 None 0 0 0 578;
   E 0x41 None 0 0 0 581; E 0x74 None 0 0 0 584; E 0x65 None 0 0 0 590; E 0x72 None 0 0 0 573;
   E 0x3b (Some [0xe2; 0x80; 0xa5]) 3 0 0 0; E 0x69 None 0 0 0 575; E 0x6d None 0 0 0 576;
   E 0x3b (Some [0xe2; 0x89; 0xb4]) 3 0 0 0;
   E 0x3b (Some [0xe2; 0x89; 0xa6; 0xcc; 0xb8]) 5 0 0 0; E 0x72 None 0 0 0 579;
   E 0x72 None 0 0 0 580; E 0x3b (Some [0xe2; 0x86; 0x9a]) 3 0 0 0; E 0x72 None 0 0 0 582;
   E 0x72 None 0 0 0 583; E 0x3b (Some [0xe2; 0x87; 0x8d]) 3 0 0 0; E 0x72 None 0 585 0 586;
   E 0x3b (Some [0xe2; 0x89; 0xae]) 3 0 0 0; E 0x69 None 0 0 0 587; E 0x65 None 0 588 0 589;
   E 0x3b (Some [0xe2; 0x8b; 0xaa]) 3 0 0 0; E 0x3b (Some [0xe2; 0x8b; 0xac]) 3 0 0 0;
   E 0x71 None 0 592 591 594; E 0x73 None 0 0 0 603; E 0x66 None 0 593 0 606;
   E 0x3b (Some [0xe2; 0x89; 0xb0]) 3 0 0 0; E 0x71 None 0 596 595 597; E 0x73 None 0 0 0 598;
   E 0x3b (Some [0xe2; 0x89; 0xb0]) 3 0 0 0;
   E 0x3b (Some [0xe2; 0x89; 0xa6; 0xcc; 0xb8]) 5 0 0 0; E 0x6c None 0 0 0 599;
   E 0x61 None 0 0 0 600; E 0x6e None 0 0 0 601; E 0x74 None 0 0 0 602;
   E 0x3b (Some [0xe2; 0xa9; 0xbd; 0xcc; 0xb8]) 5 0 0 0; E 0x73 None 0 604 0 605;
   E 0x3b (Some [0xe2; 0xa9; 0xbd; 0xcc; 0xb8]) 5 0 0 0;
   E 0x3b (Some [0xe2; 0x89; 0xae]) 3 0 0 0; E 0x74 None 0 0 0 607; E 0x72 None 0 608 0 609;
   E 0x61 None 0 0 0 619; E 0x69 None 0 0 0 610; E 0x67 None 0 0 0 611; E 0x68 None 0 0 0 612;
   E 0x74 None 0 0 0 613; E 0x61 None 0 0 0 614; E 0x72 None 0 0 0 615; E 0x72 None 0 0 0 616;
   E 0x6f None 0 0 0 617; E 0x77 None 0 0 0 618; E 0x3b (Some [0xe2; 0x86; 0xae]) 3 0 0 0;
   E 0x72 None 0 0 0 620; E 0x72 None 0 0 0 621; E 0x6f None 0 0 0 622; E 0x77 None 0 0 0 623;
   E 0x3b (Some [0xe2; 0x86; 0x9a]) 3 0 0 0; E 0x63 None 0 0 0 625; E 0x79 None 0 0 0 626;
   E 0x3b (Some [0xd1; 0x9a]) 2 0 0 0; E 0x74 (Some [0xc2; 0xac]) 2 628 0 629;
   E 0x70 None 0 0 0 656; E 0x69 None 0 631 630 632; E 0x6e None 0 0 0 647;
   E 0x3b (Some [0xc2; 0xac]) 2 0 0 0; E 0x6e None 0 0 0 633; E 0x64 None 0 635 634 637;
   E 0x76 None 0 0 0 640; E 0x45 None 0 636 0 646; E 0x3b (Some [0xe2; 0x88; 0x89]) 3 0 0 0;
   E 0x6f None 0 0 0 638; E 0x74 None 0 0 0 639;
   E 0x3b (Some [0xe2; 0x8b; 0xb5; 0xcc; 0xb8]) 5 0 0 0; E 0x62 None 0 642 641 643;
   E 0x63 None 0 0 0 644; E 0x61 None 0 0 0 645; E 0x3b (Some [0xe2; 0x8b; 0xb7]) 3 0 0 0;
   E 0x3b (Some [0xe2; 0x8b; 0xb6]) 3 0 0 0; E 0x3b (Some [0xe2; 0x88; 0x89]) 3 0 0 0;
   E 0x3b (Some [0xe2; 0x8b; 0xb9; 0xcc; 0xb8]) 5 0 0 0; E 0x69 None 0 0 0 648;
   E 0x76 None 0 649 0 650; E 0x3b (Some [0xe2; 0x88; 0x8c]) 3 0 0 0; E 0x62 None 0 652 651 653;
   E 0x63 None 0 0 0 654; E 0x61 None 0 0 0 655; E 0x3b (Some [0xe2; 0x8b; 0xbe]) 3 0 0 0;
   E 0x3b (Some [0xe2; 0x8b; 0xbd]) 3 0 0 0; E 0x3b (Some [0xe2; 0x88; 0x8c]) 3 0 0 0;
   E 0x66 None 0 0 0 657; E 0x3b (Some [0xf0; 0x9d; 0x95; 0x9f]) 4 0 0 0;
   E 0x61 None 0 660 659 661; E 0x6e None 0 0 0 670; E 0x41 None 0 0 0 674;
   E 0x72 None 0 0 0 662; E 0x72 None 0 663 0 664; E 0x68 None 0 0 0 668;
   E 0x6f None 0 665 0 666; E 0x3b (Some [0xe2; 0x86; 0x96]) 3 0 0 0; E 0x77 None 0 0 0 667;
   E 0x3b (Some [0xe2; 0x86; 0x96]) 3 0 0 0; E 0x6b None 0 0 0 669;
   E 0x3b (Some [0xe2; 0xa4; 0xa3]) 3 0 0 0; E 0x65 None 0 0 0 671; E 0x61 None 0 0 0 672;
   E 0x72 None 0 0 0 673; E 0x3b (Some [0xe2; 0xa4; 0xa7]) 3 0 0 0; E 0x72 None 0 0 0 675;
   E 0x72 None 0 0 0 676; E 0x3b (Some [0xe2; 0x87; 0x96]) 3 0 0 0; E 0x6c None 0 679 678 681;
   E 0x72 None 0 0 0 683; E 0x69 None 0 680 0 706; E 0x67 None 0 0 0 710; E 0x67 None 0 0 0 682;
   E 0x3b (Some [0xe2; 0x89; 0xb8]) 3 0 0 0; E 0x69 None 0 0 0 684; E 0x61 None 0 0 0 685;
   E 0x6e None 0 0 0 686; E 0x67 None 0 0 0 687; E 0x6c None 0 0 0 688; E 0x65 None 0 0 0 689;
   E 0x72 None 0 690 0 691; E 0x6c None 0 0 0 699; E 0x69 None 0 0 0 692; E 0x67 None 0 0 0 693;
   E 0x68 None 0 0 0 694; E 0x74 None 0 0 0 695; E 0x65 None 0 696 0 697;
   E 0x3b (Some [0xe2; 0x8b; 0xab]) 3 0 0 0; E 0x71 None 0 0 0 698;
   E 0x3b (Some [0xe2; 0x8b; 0xad]) 3 0 0 0; E 0x65 None 0 0 0 700; E 0x66 None 0 0 0 701;
   E 0x74 None 0 0 0 702; E 0x65 None 0 703 0 704; E 0x3b (Some [0xe2; 0x8b; 0xaa]) 3 0 0 0;
   E 0x71 None 0 0 0 705; E 0x3b (Some [0xe2; 0x8b; 0xac]) 3 0 0 0; E 0x6c None 0 0 0 707;
   E 0x64 None 0 0 0 708; E 0x65 (Some [0xc3; 0xb1]) 2 0 0 709;
   E 0x3b (Some [0xc3; 0xb1]) 2 0 0 0; E 0x6c None 0 0 0 711;
   E 0x3b (Some [0xe2; 0x89; 0xb9]) 3 0 0 0; E 0x6d None 0 714 713 719;
   E 0x71 None 0 718 717 722; E 0x68 None 0 716 715 730; E 0x69 None 0 0 0 746;
   E 0x63 None 0 0 0 752; E 0x75 None 0 0 0 761; E 0x70 None 0 0 0 797; E 0x69 None 0 0 0 720;
   E 0x64 None 0 0 0 721; E 0x3b (Some [0xe2; 0x88; 0xa4]) 3 0 0 0; E 0x73 None 0 0 0 723;
   E 0x75 None 0 0 0 724; E 0x70 None 0 725 0 726; E 0x62 None 0 0 0 728; E 0x65 None 0 0 0 727;
   E 0x3b (Some [0xe2; 0x8b; 0xa3]) 3 0 0 0; E 0x65 None 0 0 0 729;
   E 0x3b (Some [0xe2; 0x8b; 0xa2]) 3 0 0 0; E 0x6f None 0 0 0 731; E 0x72 None 0 0 0 732;
   E 0x74 None 0 0 0 733; E 0x70 None 0 734 0 735; E 0x6d None 0 0 0 743; E 0x61 None 0 0 0 736;
   E 0x72 None 0 0 0 737; E 0x61 None 0 0 0 738; E 0x6c None 0 0 0 739; E 0x6c None 0 0 0 740;
   E 0x65 None 0 0 0 741; E 0x6c None 0 0 0 742; E 0x3b (Some [0xe2; 0x88; 0xa6]) 3 0 0 0;
   E 0x69 None 0 0 0 744; E 0x64 None 0 0 0 745; E 0x3b (Some [0xe2; 0x88; 0xa4]) 3 0 0 0;
   E 0x6d None 0 0 0 747; E 0x65 None 0 748 0 749; E 0x3b (Some [0xe2; 0x89; 0x81]) 3 0 0 0;
   E 0x71 None 0 750 0 751; E 0x3b (Some [0xe2; 0x89; 0x84]) 3 0 0 0;
   E 0x3b (Some [0xe2; 0x89; 0x84]) 3 0 0 0; E 0x65 None 0 754 753 756; E 0x72 None 0 0 0 757;
   E 0x63 None 0 755 0 758; E 0x3b (Some [0xe2; 0x8a; 0x81]) 3 0 0 0;
   E 0x3b (Some [0xe2; 0xaa; 0xb0; 0xcc; 0xb8]) 5 0 0 0;
   E 0x3b (Some [0xf0; 0x9d; 0x93; 0x83]) 4 0 0 0; E 0x75 None 0 0 0 759; E 0x65 None 0 0 0 760;
   E 0x3b (Some [0xe2; 0x8b; 0xa1]) 3 0 0 0; E 0x63 None 0 763 762 764; E 0x70 None 0 0 0 769;
   E 0x62 None 0 0 0 783; E 0x63 None 0 0 0 765; E 0x65 None 0 766 0 767;
   E 0x3b (Some [0xe2; 0x8a; 0x81]) 3 0 0 0; E 0x71 None 0 0 0 768;
   E 0x3b (Some [0xe2; 0xaa; 0xb0; 0xcc; 0xb8]) 5 0 0 0; E 0x65 None 0 771 770 773;
   E 0x73 None 0 0 0 774; E 0x45 None 0 772 0 782; E 0x3b (Some [0xe2; 0x8a; 0x85]) 3 0 0 0;
   E 0x3b (Some [0xe2; 0x8a; 0x89]) 3 0 0 0; E 0x65 None 0 0 0 775; E 0x74 None 0 0 0 776;
   E 0x65 None 0 777 0 778; E 0x3b (Some [0xe2; 0x8a; 0x83; 0xe2; 0x83; 0x92]) 6 0 0 0;
   E 0x71 None 0 0 0 779; E 0x71 None 0 780 0 781; E 0x3b (Some [0xe2; 0x8a; 0x89]) 3 0 0 0;
   E 0x3b (Some [0xe2; 0xab; 0x86; 0xcc; 0xb8]) 5 0 0 0;
   E 0x3b (Some [0xe2; 0xab; 0x86; 0xcc; 0xb8]) 5 0 0 0; E 0x65 None 0 785 784 787;
   E 0x73 None 0 0 0 788; E 0x45 None 0 786 0 796; E 0x3b (Some [0xe2; 0x8a; 0x84]) 3 0 0 0;
   E 0x3b (Some [0xe2; 0x8a; 0x88]) 3 0 0 0; E 0x65 None 0 0 0 789; E 0x74 None 0 0 0 790;
   E 0x65 None 0 791 0 792; E 0x3b (Some [0xe2; 0x8a; 0x82; 0xe2; 0x83; 0x92]) 6 0 0 0;
   E 0x71 None 0 0 0 793; E 0x71 None 0 794 0 795; E 0x3b (Some [0xe2; 0x8a; 0x88]) 3 0 0 0;
   E 0x3b (Some [0xe2; 0xab; 0x85; 0xcc; 0xb8]) 5 0 0 0;
   E 0x3b (Some [0xe2; 0xab; 0x85; 0xcc; 0xb8]) 5 0 0 0; E 0x61 None 0 0 0 798;
   E 0x72 None 0 0 0 799; E 0x3b (Some [0xe2; 0x88; 0xa6]) 3 0 0 0; E 0x67 None 0 802 801 809;
   E 0x72 None 0 807 806 813; E 0x61 None 0 804 803 822; E 0x64 None 0 0 0 824;
   E 0x48 None 0 805 0 828; E 0x44 None 0 0 0 832; E 0x73 None 0 0 0 836;
   E 0x6c None 0 808 0 839; E 0x69 None 0 0 0 851; E 0x74 None 0 810 0 811;
   E 0x65 None 0 0 0 812; E 0x3b (Some [0x3e; 0xe2; 0x83; 0x92]) 4 0 0 0;
   E 0x3b (Some [0xe2; 0x89; 0xa5; 0xe2; 0x83; 0x92]) 6 0 0 0; E 0x74 None 0 814 0 815;
   E 0x41 None 0 0 0 819; E 0x72 None 0 0 0 816; E 0x69 None 0 0 0 817; E 0x65 None 0 0 0 818;
   E 0x3b (Some [0xe2; 0x8a; 0xb5; 0xe2; 0x83; 0x92]) 6 0 0 0; E 0x72 None 0 0 0 820;
   E 0x72 None 0 0 0 821; E 0x3b (Some [0xe2; 0xa4; 0x83]) 3 0 0 0; E 0x70 None 0 0 0 823;
   E 0x3b (Some [0xe2; 0x89; 0x8d; 0xe2; 0x83; 0x92]) 6 0 0 0; E 0x61 None 0 0 0 825;
   E 0x73 None 0 0 0 826; E 0x68 None 0 0 0 827; E 0x3b (Some [0xe2; 0x8a; 0xac]) 3 0 0 0;
   E 0x61 None 0 0 0 829; E 0x72 None 0 0 0 830; E 0x72 None 0 0 0 831;
   E 0x3b (Some [0xe2; 0xa4; 0x84]) 3 0 0 0; E 0x61 None 0 0 0 833; E 0x73 None 0 0 0 834;
   E 0x68 None 0 0 0 835; E 0x3b (Some [0xe2; 0x8a; 0xad]) 3 0 0 0; E 0x69 None 0 0 0 837;
   E 0x6d None 0 0 0 838; E 0x3b (Some [0xe2; 0x88; 0xbc; 0xe2; 0x83; 0x92]) 6 0 0 0;
   E 0x65 None 0 841 840 842; E 0x74 None 0 0 0 843; E 0x41 None 0 0 0 848;
   E 0x3b (Some [0xe2; 0x89; 0xa4; 0xe2; 0x83; 0x92]) 6 0 0 0; E 0x72 None 0 844 0 845;
   E 0x3b (Some [0x3c; 0xe2; 0x83; 0x92]) 4 0 0 0; E 0x69 None 0 0 0 846; E 0x65 None 0 0 0 847;
   E 0x3b (Some [0xe2; 0x8a; 0xb4; 0xe2; 0x83; 0x92]) 6 0 0 0; E 0x72 None 0 0 0 849;
   E 0x72 None 0 0 0 850; E 0x3b (Some [0xe2; 0xa4; 0x82]) 3 0 0 0; E 0x6e None 0 0 0 852;
   E 0x66 None 0 0 0 853; E 0x69 None 0 0 0 854; E 0x6e None 0 0 0 855;
   E 0x3b (Some [0xe2; 0xa7; 0x9e]) 3 0 0 0; E 0x66 None 0 858 857 865;
   E 0x74 None 0 863 862 867; E 0x63 None 0 860 859 872; E 0x65 None 0 0 0 884;
   E 0x61 None 0 861 0 968; E 0x4a None 0 0 0 973; E 0x75 None 0 0 0 976;
   E 0x73 None 0 864 0 977; E 0x6f None 0 0 0 980; E 0x72 None 0 0 0 866;
   E 0x3b (Some [0xf0; 0x9d; 0x94; 0x91]) 4 0 0 0; E 0x69 None 0 0 0 868; E 0x6c None 0 0 0 869;
   E 0x64 None 0 0 0 870; E 0x65 (Some [0xc3; 0x91]) 2 0 0 871;
   E 0x3b (Some [0xc3; 0x91]) 2 0 0 0; E 0x65 None 0 874 873 875; E 0x79 None 0 0 0 879;
   E 0x61 None 0 0 0 880; E 0x64 None 0 0 0 876; E 0x69 None 0 0 0 877; E 0x6c None 0 0 0 878;
   E 0x3b (Some [0xc5; 0x85]) 2 0 0 0; E 0x3b (Some [0xd0; 0x9d]) 2 0 0 0; E 0x72 None 0 0 0 881;
   E 0x6f None 0 0 0 882; E 0x6e None 0 0 0 883; E 0x3b (Some [0xc5; 0x87]) 2 0 0 0;
   E 0x73 None 0 886 885 887; E 0x77 None 0 0 0 914; E 0x67 None 0 0 0 919;
   E 0x74 None 0 0 0 888; E 0x65 None 0 0 0 889; E 0x64 None 0 0 0 890; E 0x4c None 0 891 0 892;
   E 0x47 None 0 0 0 900; E 0x65 None 0 0 0 893; E 0x73 None 0 0 0 894; E 0x73 None 0 0 0 895;
   E 0x4c None 0 0 0 896; E 0x65 None 0 0 0 897; E 0x73 None 0 0 0 898; E 0x73 None 0 0 0 899;
   E 0x3b (Some [0xe2; 0x89; 0xaa]) 3 0 0 0; E 0x72 None 0 0 0 901; E 0x65 None 0 0 0 902;
   E 0x61 None 0 0 0 903; E 0x74 None 0 0 0 904; E 0x65 None 0 0 0 905; E 0x72 None 0 0 0 906;
   E 0x47 None 0 0 0 907; E 0x72 None 0 0 0 908; E 0x65 None 0 0 0 909; E 0x61 None 0 0 0 910;
   E 0x74 None 0 0 0 911; E 0x65 None 0 0 0 912; E 0x72 None 0 0 0 913;
   E 0x3b (Some [0xe2; 0x89; 0xab]) 3 0 0 0; E 0x4c None 0 0 0 915; E 0x69 None 0 0 0 916;
   E 0x6e None 0 0 0 917; E 0x65 None 0 0 0 918; E 0x3b (Some [0x0a]) 1 0 0 0;
   E 0x61 None 0 0 0 920; E 0x74 None 0 0 0 921; E 0x69 None 0 0 0 922; E 0x76 None 0 0 0 923;
   E 0x65 None 0 0 0 924; E 0x54 None 0 926 925 927; E 0x56 None 0 0 0 944;
   E 0x4d None 0 0 0 957; E 0x68 None 0 0 0 928; E 0x69 None 0 0 0 929; E 0x6e None 0 930 0 931;
   E 0x63 None 0 0 0 937; E 0x53 None 0 0 0 932; E 0x70 None 0 0 0 933; E 0x61 None 0 0 0 934;
   E 0x63 None 0 0 0 935; E 0x65 None 0 0 0 936; E 0x3b (Some [0xe2; 0x80; 0x8b]) 3 0 0 0;
   E 0x6b None 0 0 0 938; E 0x53 None 0 0 0 939; E 0x70 None 0 0 0 940; E 0x61 None 0 0 0 941;
   E 0x63 None 0 0 0 942; E 0x65 None 0 0 0 943; E 0x3b (Some [0xe2; 0x80; 0x8b]) 3 0 0 0;
   E 0x65 None 0 0 0 945; E 0x72 None 0 0 0 946; E 0x79 None 0 0 0 947; E 0x54 None 0 0 0 948;
   E 0x68 None 0 0 0 949; E 0x69 None 0 0 0 950; E 0x6e None 0 0 0 951; E 0x53 None 0 0 0 952;
   E 0x70 None 0 0 0 953; E 0x61 None 0 0 0 954; E 0x63 None 0 0 0 955; E 0x65 None 0 0 0 956;
   E 0x3b (Some [0xe2; 0x80; 0x8b]) 3 0 0 0; E 0x65 None 0 0 0 958; E 0x64 None 0 0 0 959;
   E 0x69 None 0 0 0 960; E 0x75 None 0 0 0 961; E 0x6d None 0 0 0 962; E 0x53 None 0 0 0 963;
   E 0x70 None 0 0 0 964; E 0x61 None 0 0 0 965; E 0x63 None 0 0 0 966; E 0x65 None 0 0 0 967;
   E 0x3b (Some [0xe2; 0x80; 0x8b]) 3 0 0 0; E 0x63 None 0 0 0 969; E 0x75 None 0 0 0 970;
   E 0x74 None 0 0 0 971; E 0x65 None 0 0 0 972; E 0x3b (Some [0xc5; 0x83]) 2 0 0 0;
   E 0x63 None 0 0 0 974; E 0x79 None 0 0 0 975; E 0x3b (Some [0xd0; 0x8a]) 2 0 0 0;
   E 0x3b (Some [0xce; 0x9d]) 2 0 0 0; E 0x63 None 0 0 0 978; E 0x72 None 0 0 0 979;
   E 0x3b (Some [0xf0; 0x9d; 0x92; 0xa9]) 4 0 0 0; E 0x70 None 0 982 981 984;
   E 0x74 None 0 0 0 986; E 0x6e None 0 983 0 1402; E 0x42 None 0 0 0 1416;
   E 0x66 None 0 0 0 985; E 0x3b (Some [0xe2; 0x84; 0x95]) 3 0 0 0; E 0x4c None 0 988 987 999;
   E 0x53 None 0 995 994 1060; E 0x45 None 0 990 989 1146; E 0x48 None 0 993 0 1170;
   E 0x43 None 0 992 991 1188; E 0x44 None 0 0 0 1203; E 0x3b (Some [0xe2; 0xab; 0xac]) 3 0 0 0;
   E 0x47 None 0 0 0 1220; E 0x56 None 0 998 0 1273; E 0x50 None 0 997 996 1284;
   E 0x52 None 0 0 0 1309; E 0x4e None 0 0 0 1346; E 0x54 None 0 0 0 1375;
   E 0x65 None 0 0 0 1000].

Definition entities_2 : list sbst_entry :=
  [E 0x73 None 0 1001 0 1002; E 0x66 None 0 0 0 1040; E 0x73 None 0 0 0 1003;
   E 0x4c None 0 1005 1004 1009; E 0x54 None 0 1008 0 1013; E 0x45 None 0 1007 1006 1018;
   E 0x47 None 0 0 0 1023; E 0x3b (Some [0xe2; 0x89; 0xae]) 3 0 0 0; E 0x53 None 0 0 0 1030;
   E 0x65 None 0 0 0 1010; E 0x73 None 0 0 0 1011; E 0x73 None 0 0 0 1012;
   E 0x3b (Some [0xe2; 0x89; 0xaa; 0xcc; 0xb8]) 5 0 0 0; E 0x69 None 0 0 0 1014;
   E 0x6c None 0 0 0 1015; E 0x64 None 0 0 0 1016; E 0x65 None 0 0 0 1017;
   E 0x3b (Some [0xe2; 0x89; 0xb4]) 3 0 0 0; E 0x71 None 0 0 0 1019; E 0x75 None 0 0 0 1020;
   E 0x61 None 0 0 0 1021; E 0x6c None 0 0 0 1022; E 0x3b (Some [0xe2; 0x89; 0xb0]) 3 0 0 0;
   E 0x72 None 0 0 0 1024; E 0x65 None 0 0 0 1025; E 0x61 None 0 0 0 1026;
   E 0x74 None 0 0 0 1027; E 0x65 None 0 0 0 1028; E 0x72 None 0 0 0 1029;
   E 0x3b (Some [0xe2; 0x89; 0xb8]) 3 0 0 0; E 0x6c None 0 0 0 1031; E 0x61 None 0 0 0 1032;
   E 0x6e None 0 0 0 1033; E 0x74 None 0 0 0 1034; E 0x45 None 0 0 0 1035;
   E 0x71 None 0 0 0 1036; E 0x75 None 0 0 0 1037; E 0x61 None 0 0 0 1038;
   E 0x6c None 0 0 0 1039; E 0x3b (Some [0xe2; 0xa9; 0xbd; 0xcc; 0xb8]) 5 0 0 0;
   E 0x74 None 0 0 0 1041; E 0x54 None 0 0 0 1042; E 0x72 None 0 0 0 1043;
   E 0x69 None 0 0 0 1044; E 0x61 None 0 0 0 1045; E 0x6e None 0 0 0 1046;
   E 0x67 None 0 0 0 1047; E 0x6c None 0 0 0 1048; E 0x65 None 0 0 0 1049;
   E 0x42 None 0 1051 1050 1052; E 0x45 None 0 0 0 1055;
   E 0x3b (Some [0xe2; 0x8b; 0xaa]) 3 0 0 0; E 0x61 None 0 0 0 1053; E 0x72 None 0 0 0 1054;
   E 0x3b (Some [0xe2; 0xa7; 0x8f; 0xcc; 0xb8]) 5 0 0 0; E 0x71 None 0 0 0 1056;
   E 0x75 None 0 0 0 1057; E 0x61 None 0 0 0 1058; E 0x6c None 0 0 0 1059;
   E 0x3b (Some [0xe2; 0x8b; 0xac]) 3 0 0 0; E 0x75 None 0 1061 0 1062; E 0x71 None 0 0 0 1116;
   E 0x63 None 0 1064 1063 1065; E 0x70 None 0 0 0 1094; E 0x62 None 0 0 0 1106;
   E 0x63 None 0 0 0 1066; E 0x65 None 0 0 0 1067; E 0x65 None 0 0 0 1068;
   E 0x64 None 0 0 0 1069; E 0x73 None 0 0 0 1070; E 0x53 None 0 1072 1071 1074;
   E 0x54 None 0 0 0 1084; E 0x45 None 0 1073 0 1089; E 0x3b (Some [0xe2; 0x8a; 0x81]) 3 0 0 0;
   E 0x6c None 0 0 0 1075; E 0x61 None 0 0 0 1076; E 0x6e None 0 0 0 1077;
   E 0x74 None 0 0 0 1078; E 0x45 None 0 0 0 1079; E 0x71 None 0 0 0 1080;
   E 0x75 None 0 0 0 1081; E 0x61 None 0 0 0 1082; E 0x6c None 0 0 0 1083;
   E 0x3b (Some [0xe2; 0x8b; 0xa1]) 3 0 0 0; E 0x69 None 0 0 0 1085; E 0x6c None 0 0 0 1086;
   E 0x64 None 0 0 0 1087; E 0x65 None 0 0 0 1088;
   E 0x3b (Some [0xe2; 0x89; 0xbf; 0xcc; 0xb8]) 5 0 0 0; E 0x71 None 0 0 0 1090;
   E 0x75 None 0 0 0 1091; E 0x61 None 0 0 0 1092; E 0x6c None 0 0 0 1093;
   E 0x3b (Some [0xe2; 0xaa; 0xb0; 0xcc; 0xb8]) 5 0 0 0; E 0x65 None 0 0 0 1095;
   E 0x72 None 0 0 0 1096; E 0x73 None 0 0 0 1097; E 0x65 None 0 0 0 1098;
   E 0x74 None 0 0 0 1099; E 0x45 None 0 1100 0 1101;
   E 0x3b (Some [0xe2; 0x8a; 0x83; 0xe2; 0x83; 0x92]) 6 0 0 0; E 0x71 None 0 0 0 1102;
   E 0x75 None 0 0 0 1103; E 0x61 None 0 0 0 1104; E 0x6c None 0 0 0 1105;
   E 0x3b (Some [0xe2; 0x8a; 0x89]) 3 0 0 0; E 0x73 None 0 0 0 1107; E 0x65 None 0 0 0 1108;
   E 0x74 None 0 0 0 1109; E 0x45 None 0 1110 0 1111;
   E 0x3b (Some [0xe2; 0x8a; 0x82; 0xe2; 0x83; 0x92]) 6 0 0 0; E 0x71 None 0 0 0 1112;
   E 0x75 None 0 0 0 1113; E 0x61 None 0 0 0 1114; E 0x6c None 0 0 0 1115;
   E 0x3b (Some [0xe2; 0x8a; 0x88]) 3 0 0 0; E 0x75 None 0 0 0 1117; E 0x61 None 0 0 0 1118;
   E 0x72 None 0 0 0 1119; E 0x65 None 0 0 0 1120; E 0x53 None 0 0 0 1121;
   E 0x75 None 0 0 0 1122; E 0x70 None 0 1123 0 1124; E 0x62 None 0 0 0 1136;
   E 0x65 None 0 0 0 1125; E 0x72 None 0 0 0 1126; E 0x73 None 0 0 0 1127;
   E 0x65 None 0 0 0 1128; E 0x74 None 0 0 0 1129; E 0x45 None 0 1130 0 1131;
   E 0x3b (Some [0xe2; 0x8a; 0x90; 0xcc; 0xb8]) 5 0 0 0; E 0x71 None 0 0 0 1132;
   E 0x75 None 0 0 0 1133; E 0x61 None 0 0 0 1134; E 0x6c None 0 0 0 1135;
   E 0x3b (Some [0xe2; 0x8b; 0xa3]) 3 0 0 0; E 0x73 None 0 0 0 1137; E 0x65 None 0 0 0 1138;
   E 0x74 None 0 0 0 1139; E 0x45 None 0 1140 0 1141;
   E 0x3b (Some [0xe2; 0x8a; 0x8f; 0xcc; 0xb8]) 5 0 0 0; E 0x71 None 0 0 0 1142;
   E 0x75 None 0 0 0 1143; E 0x61 None 0 0 0 1144; E 0x6c None 0 0 0 1145;
   E 0x3b (Some [0xe2; 0x8b; 0xa2]) 3 0 0 0; E 0x71 None 0 1148 1147 1149;
   E 0x78 None 0 0 0 1159; E 0x6c None 0 0 0 1164; E 0x75 None 0 0 0 1150;
   E 0x61 None 0 0 0 1151; E 0x6c None 0 0 0 1152; E 0x54 None 0 1153 0 1154;
   E 0x3b (Some [0xe2; 0x89; 0xa0]) 3 0 0 0; E 0x69 None 0 0 0 1155; E 0x6c None 0 0 0 1156;
   E 0x64 None 0 0 0 1157; E 0x65 None 0 0 0 1158;
   E 0x3b (Some [0xe2; 0x89; 0x82; 0xcc; 0xb8]) 5 0 0 0; E 0x69 None 0 0 0 1160;
   E 0x73 None 0 0 0 1161; E 0x74 None 0 0 0 1162; E 0x73 None 0 0 0 1163;
   E 0x3b (Some [0xe2; 0x88; 0x84]) 3 0 0 0; E 0x65 None 0 0 0 1165; E 0x6d None 0 0 0 1166;
   E 0x65 None 0 0 0 1167; E 0x6e None 0 0 0 1168; E 0x74 None 0 0 0 1169;
   E 0x3b (Some [0xe2; 0x88; 0x89]) 3 0 0 0; E 0x75 None 0 0 0 1171; E 0x6d None 0 0 0 1172;
   E 0x70 None 0 0 0 1173; E 0x45 None 0 1174 0 1175; E 0x44 None 0 0 0 1180;
   E 0x71 None 0 0 0 1176; E 0x75 None 0 0 0 1177; E 0x61 None 0 0 0 1178;
   E 0x6c None 0 0 0 1179; E 0x3b (Some [0xe2; 0x89; 0x8f; 0xcc; 0xb8]) 5 0 0 0;
   E 0x6f None 0 0 0 1181; E 0x77 None 0 0 0 1182; E 0x6e None 0 0 0 1183;
   E 0x48 None 0 0 0 1184; E 0x75 None 0 0 0 1185; E 0x6d None 0 0 0 1186;
   E 0x70 None 0 0 0 1187; E 0x3b (Some [0xe2; 0x89; 0x8e; 0xcc; 0xb8]) 5 0 0 0;
   E 0x75 None 0 1189 0 1190; E 0x6f None 0 0 0 1195; E 0x70 None 0 0 0 1191;
   E 0x43 None 0 0 0 1192; E 0x61 None 0 0 0 1193; E 0x70 None 0 0 0 1194;
   E 0x3b (Some [0xe2; 0x89; 0xad]) 3 0 0 0; E 0x6e None 0 0 0 1196; E 0x67 None 0 0 0 1197;
   E 0x72 None 0 0 0 1198; E 0x75 None 0 0 0 1199; E 0x65 None 0 0 0 1200;
   E 0x6e None 0 0 0 1201; E 0x74 None 0 0 0 1202; E 0x3b (Some [0xe2; 0x89; 0xa2]) 3 0 0 0;
   E 0x6f None 0 0 0 1204; E 0x75 None 0 0 0 1205; E 0x62 None 0 0 0 1206;
   E 0x6c None 0 0 0 1207; E 0x65 None 0 0 0 1208; E 0x56 None 0 0 0 1209;
   E 0x65 None 0 0 0 1210; E 0x72 None 0 0 0 1211; E 0x74 None 0 0 0 1212;
   E 0x69 None 0 0 0 1213; E 0x63 None 0 0 0 1214; E 0x61 None 0 0 0 1215;
   E 0x6c None 0 0 0 1216; E 0x42 None 0 0 0 1217; E 0x61 None 0 0 0 1218;
   E 0x72 None 0 0 0 1219; E 0x3b (Some [0xe2; 0x88; 0xa6]) 3 0 0 0; E 0x72 None 0 0 0 1221;
   E 0x65 None 0 0 0 1222; E 0x61 None 0 0 0 1223; E 0x74 None 0 0 0 1224;
   E 0x65 None 0 0 0 1225; E 0x72 None 0 0 0 1226; E 0x47 None 0 1228 1227 1233;
   E 0x53 None 0 1232 1231 1240; E 0x45 None 0 1230 1229 1250; E 0x46 None 0 0 0 1255;
   E 0x3b (Some [0xe2; 0x89; 0xaf]) 3 0 0 0; E 0x54 None 0 0 0 1264; E 0x4c None 0 0 0 1269;
   E 0x72 None 0 0 0 1234; E 0x65 None 0 0 0 1235; E 0x61 None 0 0 0 1236;
   E 0x74 None 0 0 0 1237; E 0x65 None 0 0 0 1238; E 0x72 None 0 0 0 1239;
   E 0x3b (Some [0xe2; 0x89; 0xab; 0xcc; 0xb8]) 5 0 0 0; E 0x6c None 0 0 0 1241;
   E 0x61 None 0 0 0 1242; E 0x6e None 0 0 0 1243; E 0x74 None 0 0 0 1244;
   E 0x45 None 0 0 0 1245; E 0x71 None 0 0 0 1246; E 0x75 None 0 0 0 1247;
   E 0x61 None 0 0 0 1248; E 0x6c None 0 0 0 1249;
   E 0x3b (Some [0xe2; 0xa9; 0xbe; 0xcc; 0xb8]) 5 0 0 0; E 0x71 None 0 0 0 1251;
   E 0x75 None 0 0 0 1252; E 0x61 None 0 0 0 1253; E 0x6c None 0 0 0 1254;
   E 0x3b (Some [0xe2; 0x89; 0xb1]) 3 0 0 0; E 0x75 None 0 0 0 1256; E 0x6c None 0 0 0 1257;
   E 0x6c None 0 0 0 1258; E 0x45 None 0 0 0 1259; E 0x71 None 0 0 0 1260;
   E 0x75 None 0 0 0 1261; E 0x61 None 0 0 0 1262; E 0x6c None 0 0 0 1263;
   E 0x3b (Some [0xe2; 0x89; 0xa7; 0xcc; 0xb8]) 5 0 0 0; E 0x69 None 0 0 0 1265;
   E 0x6c None 0 0 0 1266; E 0x64 None 0 0 0 1267; E 0x65 None 0 0 0 1268;
   E 0x3b (Some [0xe2; 0x89; 0xb5]) 3 0 0 0; E 0x65 None 0 0 0 1270; E 0x73 None 0 0 0 1271;
   E 0x73 None 0 0 0 1272; E 0x3b (Some [0xe2; 0x89; 0xb9]) 3 0 0 0; E 0x65 None 0 0 0 1274;
   E 0x72 None 0 0 0 1275; E 0x74 None 0 0 0 1276; E 0x69 None 0 0 0 1277;
   E 0x63 None 0 0 0 1278; E 0x61 None 0 0 0 1279; E 0x6c None 0 0 0 1280;
   E 0x42 None 0 0 0 1281; E 0x61 None 0 0 0 1282; E 0x72 None 0 0 0 1283;
   E 0x3b (Some [0xe2; 0x88; 0xa4]) 3 0 0 0; E 0x72 None 0 0 0 1285; E 0x65 None 0 0 0 1286;
   E 0x63 None 0 0 0 1287; E 0x65 None 0 0 0 1288; E 0x64 None 0 0 0 1289;
   E 0x65 None 0 0 0 1290; E 0x73 None 0 0 0 1291; E 0x45 None 0 1293 1292 1294;
   E 0x53 None 0 0 0 1299; E 0x3b (Some [0xe2; 0x8a; 0x80]) 3 0 0 0; E 0x71 None 0 0 0 1295;
   E 0x75 None 0 0 0 1296; E 0x61 None 0 0 0 1297; E 0x6c None 0 0 0 1298;
   E 0x3b (Some [0xe2; 0xaa; 0xaf; 0xcc; 0xb8]) 5 0 0 0; E 0x6c None 0 0 0 1300;
   E 0x61 None 0 0 0 1301; E 0x6e None 0 0 0 1302; E 0x74 None 0 0 0 1303;
   E 0x45 None 0 0 0 1304; E 0x71 None 0 0 0 1305; E 0x75 None 0 0 0 1306;
   E 0x61 None 0 0 0 1307; E 0x6c None 0 0 0 1308; E 0x3b (Some [0xe2; 0x8b; 0xa0]) 3 0 0 0;
   E 0x69 None 0 1310 0 1311; E 0x65 None 0 0 0 1333; E 0x67 None 0 0 0 1312;
   E 0x68 None 0 0 0 1313; E 0x74 None 0 0 0 1314; E 0x54 None 0 0 0 1315;
   E 0x72 None 0 0 0 1316; E 0x69 None 0 0 0 1317; E 0x61 None 0 0 0 1318;
   E 0x6e None 0 0 0 1319; E 0x67 None 0 0 0 1320; E 0x6c None 0 0 0 1321;
   E 0x65 None 0 0 0 1322; E 0x42 None 0 1324 1323 1325; E 0x45 None 0 0 0 1328;
   E 0x3b (Some [0xe2; 0x8b; 0xab]) 3 0 0 0; E 0x61 None 0 0 0 1326; E 0x72 None 0 0 0 1327;
   E 0x3b (Some [0xe2; 0xa7; 0x90; 0xcc; 0xb8]) 5 0 0 0; E 0x71 None 0 0 0 1329;
   E 0x75 None 0 0 0 1330; E 0x61 None 0 0 0 1331; E 0x6c None 0 0 0 1332;
   E 0x3b (Some [0xe2; 0x8b; 0xad]) 3 0 0 0; E 0x76 None 0 0 0 1334; E 0x65 None 0 0 0 1335;
   E 0x72 None 0 0 0 1336; E 0x73 None 0 0 0 1337; E 0x65 None 0 0 0 1338;
   E 0x45 None 0 0 0 1339; E 0x6c None 0 0 0 1340; E 0x65 None 0 0 0 1341;
   E 0x6d None 0 0 0 1342; E 0x65 None 0 0 0 1343; E 0x6e None 0 0 0 1344;
   E 0x74 None 0 0 0 1345; E 0x3b (Some [0xe2; 0x88; 0x8c]) 3 0 0 0; E 0x65 None 0 0 0 1347;
   E 0x73 None 0 0 0 1348; E 0x74 None 0 0 0 1349; E 0x65 None 0 0 0 1350;
   E 0x64 None 0 0 0 1351; E 0x4c None 0 1352 0 1353; E 0x47 None 0 0 0 1361;
   E 0x65 None 0 0 0 1354; E 0x73 None 0 0 0 1355; E 0x73 None 0 0 0 1356;
   E 0x4c None 0 0 0 1357; E 0x65 None 0 0 0 1358; E 0x73 None 0 0 0 1359;
   E 0x73 None 0 0 0 1360; E 0x3b (Some [0xe2; 0xaa; 0xa1; 0xcc; 0xb8]) 5 0 0 0;
   E 0x72 None 0 0 0 1362; E 0x65 None 0 0 0 1363; E 0x61 None 0 0 0 1364;
   E 0x74 None 0 0 0 1365; E 0x65 None 0 0 0 1366; E 0x72 None 0 0 0 1367;
   E 0x47 None 0 0 0 1368; E 0x72 None 0 0 0 1369; E 0x65 None 0 0 0 1370;
   E 0x61 None 0 0 0 1371; E 0x74 None 0 0 0 1372; E 0x65 None 0 0 0 1373;
   E 0x72 None 0 0 0 1374; E 0x3b (Some [0xe2; 0xaa; 0xa2; 0xcc; 0xb8]) 5 0 0 0;
   E 0x69 None 0 0 0 1376; E 0x6c None 0 0 0 1377; E 0x64 None 0 0 0 1378;
   E 0x65 None 0 0 0 1379; E 0x46 None 0 1381 1380 1383; E 0x54 None 0 0 0 1392;
   E 0x45 None 0 1382 0 1397; E 0x3b (Some [0xe2; 0x89; 0x81]) 3 0 0 0; E 0x75 None 0 0 0 1384;
   E 0x6c None 0 0 0 1385; E 0x6c None 0 0 0 1386; E 0x45 None 0 0 0 1387;
   E 0x71 None 0 0 0 1388; E 0x75 None 0 0 0 1389; E 0x61 None 0 0 0 1390;
   E 0x6c None 0 0 0 1391; E 0x3b (Some [0xe2; 0x89; 0x87]) 3 0 0 0; E 0x69 None 0 0 0 1393;
   E 0x6c None 0 0 0 1394; E 0x64 None 0 0 0 1395; E 0x65 None 0 0 0 1396;
   E 0x3b (Some [0xe2; 0x89; 0x89]) 3 0 0 0; E 0x71 None 0 0 0 1398; E 0x75 None 0 0 0 1399;
   E 0x61 None 0 0 0 1400; E 0x6c None 0 0 0 1401; E 0x3b (Some [0xe2; 0x89; 0x84]) 3 0 0 0;
   E 0x42 None 0 0 0 1403; E 0x72 None 0 0 0 1404; E 0x65 None 0 0 0 1405;
   E 0x61 None 0 0 0 1406; E 0x6b None 0 0 0 1407; E 0x69 None 0 0 0 1408;
   E 0x6e None 0 0 0 1409; E 0x67 None 0 0 0 1410; E 0x53 None 0 0 0 1411;
   E 0x70 None 0 0 0 1412; E 0x61 None 0 0 0 1413; E 0x63 None 0 0 0 1414;
   E 0x65 None 0 0 0 1415; E 0x3b (Some [0xc2; 0xa0]) 2 0 0 0; E 0x72 None 0 0 0 1417;
   E 0x65 None 0 0 0 1418; E 0x61 None 0 0 0 1419; E 0x6b None 0 0 0 1420;
   E 0x3b (Some [0xe2; 0x81; 0xa0]) 3 0 0 0; E 0x6e None 0 1423 1422 1435;
   E 0x73 None 0 1431 1430 1472; E 0x64 None 0 1425 1424 1475; E 0x67 None 0 1429 1428 1480;
   E 0x62 None 0 1427 1426 1485; E 0x63 None 0 0 0 1493; E 0x61 None 0 0 0 1499;
   E 0x6d None 0 0 0 1512; E 0x66 None 0 0 0 1516; E 0x75 None 0 1434 0 1518;
   E 0x70 None 0 1433 1432 1521; E 0x72 None 0 0 0 1620; E 0x6f None 0 0 0 1624;
   E 0x74 None 0 0 0 1631; E 0x69 None 0 1436 0 1437; E 0x64 None 0 0 0 1445;
   E 0x6f None 0 0 0 1438; E 0x6e None 0 0 0 1439; E 0x50 None 0 1440 0 1441;
   E 0x3b (Some [0xe2; 0x8b; 0x83]) 3 0 0 0; E 0x6c None 0 0 0 1442; E 0x75 None 0 0 0 1443;
   E 0x73 None 0 0 0 1444; E 0x3b (Some [0xe2; 0x8a; 0x8e]) 3 0 0 0; E 0x65 None 0 0 0 1446;
   E 0x72 None 0 0 0 1447; E 0x50 None 0 1448 0 1449; E 0x42 None 0 0 0 1460;
   E 0x61 None 0 0 0 1450; E 0x72 None 0 0 0 1451; E 0x65 None 0 0 0 1452;
   E 0x6e None 0 0 0 1453; E 0x74 None 0 0 0 1454; E 0x68 None 0 0 0 1455;
   E 0x65 None 0 0 0 1456; E 0x73 None 0 0 0 1457; E 0x69 None 0 0 0 1458;
   E 0x73 None 0 0 0 1459; E 0x3b (Some [0xe2; 0x8f; 0x9d]) 3 0 0 0; E 0x72 None 0 1461 0 1462;
   E 0x61 None 0 0 0 1470; E 0x61 None 0 0 0 1463; E 0x63 None 0 0 0 1464;
   E 0x6b None 0 1465 0 1466; E 0x65 None 0 0 0 1469; E 0x65 None 0 0 0 1467;
   E 0x74 None 0 0 0 1468; E 0x3b (Some [0xe2; 0x8e; 0xb5]) 3 0 0 0;
   E 0x3b (Some [0xe2; 0x8f; 0x9f]) 3 0 0 0; E 0x72 None 0 0 0 1471;
   E 0x3b (Some [0x5f]) 1 0 0 0; E 0x63 None 0 0 0 1473; E 0x72 None 0 0 0 1474;
   E 0x3b (Some [0xf0; 0x9d; 0x92; 0xb0]) 4 0 0 0; E 0x62 None 0 0 0 1476;
   E 0x6c None 0 0 0 1477; E 0x61 None 0 0 0 1478; E 0x63 None 0 0 0 1479;
   E 0x3b (Some [0xc5; 0xb0]) 2 0 0 0; E 0x72 None 0 0 0 1481; E 0x61 None 0 0 0 1482;
   E 0x76 None 0 0 0 1483; E 0x65 (Some [0xc3; 0x99]) 2 0 0 1484;
   E 0x3b (Some [0xc3; 0x99]) 2 0 0 0; E 0x72 None 0 0 0 1486; E 0x65 None 0 1487 0 1488;
   E 0x63 None 0 0 0 1491; E 0x76 None 0 0 0 1489; E 0x65 None 0 0 0 1490;
   E 0x3b (Some [0xc5; 0xac]) 2 0 0 0; E 0x79 None 0 0 0 1492;
   E 0x3b (Some [0xd0; 0x8e]) 2 0 0 0; E 0x79 None 0 1494 0 1495; E 0x69 None 0 0 0 1496;
   E 0x3b (Some [0xd0; 0xa3]) 2 0 0 0; E 0x72 None 0 0 0 1497;
   E 0x63 (Some [0xc3; 0x9b]) 2 0 0 1498; E 0x3b (Some [0xc3; 0x9b]) 2 0 0 0;
   E 0x72 None 0 1500 0 1501].

Definition entities_3 : list sbst_entry :=
  [E 0x63 None 0 0 0 1508; E 0x72 None 0 0 0 1502; E 0x6f None 0 1503 0 1504;
   E 0x3b (Some [0xe2; 0x86; 0x9f]) 3 0 0 0; E 0x63 None 0 0 0 1505; E 0x69 None 0 0 0 1506;
   E 0x72 None 0 0 0 1507; E 0x3b (Some [0xe2; 0xa5; 0x89]) 3 0 0 0; E 0x75 None 0 0 0 1509;
   E 0x74 None 0 0 0 1510; E 0x65 (Some [0xc3; 0x9a]) 2 0 0 1511;
   E 0x3b (Some [0xc3; 0x9a]) 2 0 0 0; E 0x61 None 0 0 0 1513; E 0x63 None 0 0 0 1514;
   E 0x72 None 0 0 0 1515; E 0x3b (Some [0xc5; 0xaa]) 2 0 0 0; E 0x72 None 0 0 0 1517;
   E 0x3b (Some [0xf0; 0x9d; 0x94; 0x98]) 4 0 0 0; E 0x6d None 0 0 0 1519;
   E 0x6c (Some [0xc3; 0x9c]) 2 0 0 1520; E 0x3b (Some [0xc3; 0x9c]) 2 0 0 0;
   E 0x61 None 0 1523 1522 1529; E 0x70 None 0 1528 1527 1534; E 0x45 None 0 1525 1524 1557;
   E 0x54 None 0 0 0 1568; E 0x44 None 0 1526 0 1577; E 0x41 None 0 0 0 1586;
   E 0x73 None 0 0 0 1605; E 0x64 None 0 0 0 1611; E 0x72 None 0 0 0 1530;
   E 0x72 None 0 0 0 1531; E 0x6f None 0 0 0 1532; E 0x77 None 0 0 0 1533;
   E 0x3b (Some [0xe2; 0x87; 0x91]) 3 0 0 0; E 0x65 None 0 0 0 1535; E 0x72 None 0 0 0 1536;
   E 0x52 None 0 1537 0 1538; E 0x4c None 0 0 0 1548; E 0x69 None 0 0 0 1539;
   E 0x67 None 0 0 0 1540; E 0x68 None 0 0 0 1541; E 0x74 None 0 0 0 1542;
   E 0x41 None 0 0 0 1543; E 0x72 None 0 0 0 1544; E 0x72 None 0 0 0 1545;
   E 0x6f None 0 0 0 1546; E 0x77 None 0 0 0 1547; E 0x3b (Some [0xe2; 0x86; 0x97]) 3 0 0 0;
   E 0x65 None 0 0 0 1549; E 0x66 None 0 0 0 1550; E 0x74 None 0 0 0 1551;
   E 0x41 None 0 0 0 1552; E 0x72 None 0 0 0 1553; E 0x72 None 0 0 0 1554;
   E 0x6f None 0 0 0 1555; E 0x77 None 0 0 0 1556; E 0x3b (Some [0xe2; 0x86; 0x96]) 3 0 0 0;
   E 0x71 None 0 0 0 1558; E 0x75 None 0 0 0 1559; E 0x69 None 0 0 0 1560;
   E 0x6c None 0 0 0 1561; E 0x69 None 0 0 0 1562; E 0x62 None 0 0 0 1563;
   E 0x72 None 0 0 0 1564; E 0x69 None 0 0 0 1565; E 0x75 None 0 0 0 1566;
   E 0x6d None 0 0 0 1567; E 0x3b (Some [0xe2; 0xa5; 0xae]) 3 0 0 0; E 0x65 None 0 0 0 1569;
   E 0x65 None 0 0 0 1570; E 0x41 None 0 1571 0 1572; E 0x3b (Some [0xe2; 0x8a; 0xa5]) 3 0 0 0;
   E 0x72 None 0 0 0 1573; E 0x72 None 0 0 0 1574; E 0x6f None 0 0 0 1575;
   E 0x77 None 0 0 0 1576; E 0x3b (Some [0xe2; 0x86; 0xa5]) 3 0 0 0; E 0x6f None 0 0 0 1578;
   E 0x77 None 0 0 0 1579; E 0x6e None 0 0 0 1580; E 0x41 None 0 0 0 1581;
   E 0x72 None 0 0 0 1582; E 0x72 None 0 0 0 1583; E 0x6f None 0 0 0 1584;
   E 0x77 None 0 0 0 1585; E 0x3b (Some [0xe2; 0x86; 0x95]) 3 0 0 0; E 0x72 None 0 0 0 1587;
   E 0x72 None 0 0 0 1588; E 0x6f None 0 0 0 1589; E 0x77 None 0 0 0 1590;
   E 0x42 None 0 1592 1591 1593; E 0x44 None 0 0 0 1596;
   E 0x3b (Some [0xe2; 0x86; 0x91]) 3 0 0 0; E 0x61 None 0 0 0 1594; E 0x72 None 0 0 0 1595;
   E 0x3b (Some [0xe2; 0xa4; 0x92]) 3 0 0 0; E 0x6f None 0 0 0 1597; E 0x77 None 0 0 0 1598;
   E 0x6e None 0 0 0 1599; E 0x41 None 0 0 0 1600; E 0x72 None 0 0 0 1601;
   E 0x72 None 0 0 0 1602; E 0x6f None 0 0 0 1603; E 0x77 None 0 0 0 1604;
   E 0x3b (Some [0xe2; 0x87; 0x85]) 3 0 0 0; E 0x69 None 0 0 0 1606; E 0x6c None 0 1607 0 1608;
   E 0x3b (Some [0xcf; 0x92]) 2 0 0 0; E 0x6f None 0 0 0 1609; E 0x6e None 0 0 0 1610;
   E 0x3b (Some [0xce; 0xa5]) 2 0 0 0; E 0x6f None 0 0 0 1612; E 0x77 None 0 0 0 1613;
   E 0x6e None 0 0 0 1614; E 0x61 None 0 0 0 1615; E 0x72 None 0 0 0 1616;
   E 0x72 None 0 0 0 1617; E 0x6f None 0 0 0 1618; E 0x77 None 0 0 0 1619;
   E 0x3b (Some [0xe2; 0x87; 0x95]) 3 0 0 0; E 0x69 None 0 0 0 1621; E 0x6e None 0 0 0 1622;
   E 0x67 None 0 0 0 1623; E 0x3b (Some [0xc5; 0xae]) 2 0 0 0; E 0x70 None 0 1625 0 1626;
   E 0x67 None 0 0 0 1628; E 0x66 None 0 0 0 1627;
   E 0x3b (Some [0xf0; 0x9d; 0x95; 0x8c]) 4 0 0 0; E 0x6f None 0 0 0 1629;
   E 0x6e None 0 0 0 1630; E 0x3b (Some [0xc5; 0xb2]) 2 0 0 0; E 0x69 None 0 0 0 1632;
   E 0x6c None 0 0 0 1633; E 0x64 None 0 0 0 1634; E 0x65 None 0 0 0 1635;
   E 0x3b (Some [0xc5; 0xa8]) 2 0 0 0; E 0x66 None 0 1638 1637 1648;
   E 0x72 None 0 1645 1644 1650; E 0x62 None 0 1640 1639 1706; E 0x64 None 0 1643 0 1711;
   E 0x54 (Some [0x3e]) 1 1642 1641 1714; E 0x61 None 0 0 0 1715; E 0x4a None 0 0 0 1721;
   E 0x63 None 0 0 0 1724; E 0x74 None 0 1647 0 1735; E 0x6f None 0 1646 0 1736;
   E 0x67 None 0 0 0 1739; E 0x73 None 0 0 0 1740; E 0x72 None 0 0 0 1649;
   E 0x3b (Some [0xf0; 0x9d; 0x94; 0x8a]) 4 0 0 0; E 0x65 None 0 0 0 1651;
   E 0x61 None 0 0 0 1652; E 0x74 None 0 0 0 1653; E 0x65 None 0 0 0 1654;
   E 0x72 None 0 0 0 1655; E 0x4c None 0 1657 1656 1661; E 0x54 None 0 1660 0 1665;
   E 0x46 None 0 1659 1658 1670; E 0x47 None 0 0 0 1679; E 0x45 None 0 0 0 1686;
   E 0x53 None 0 0 0 1696; E 0x65 None 0 0 0 1662; E 0x73 None 0 0 0 1663;
   E 0x73 None 0 0 0 1664; E 0x3b (Some [0xe2; 0x89; 0xb7]) 3 0 0 0; E 0x69 None 0 0 0 1666;
   E 0x6c None 0 0 0 1667; E 0x64 None 0 0 0 1668; E 0x65 None 0 0 0 1669;
   E 0x3b (Some [0xe2; 0x89; 0xb3]) 3 0 0 0; E 0x75 None 0 0 0 1671; E 0x6c None 0 0 0 1672;
   E 0x6c None 0 0 0 1673; E 0x45 None 0 0 0 1674; E 0x71 None 0 0 0 1675;
   E 0x75 None 0 0 0 1676; E 0x61 None 0 0 0 1677; E 0x6c None 0 0 0 1678;
   E 0x3b (Some [0xe2; 0x89; 0xa7]) 3 0 0 0; E 0x72 None 0 0 0 1680; E 0x65 None 0 0 0 1681;
   E 0x61 None 0 0 0 1682; E 0x74 None 0 0 0 1683; E 0x65 None 0 0 0 1684;
   E 0x72 None 0 0 0 1685; E 0x3b (Some [0xe2; 0xaa; 0xa2]) 3 0 0 0; E 0x71 None 0 0 0 1687;
   E 0x75 None 0 0 0 1688; E 0x61 None 0 0 0 1689; E 0x6c None 0 0 0 1690;
   E 0x4c None 0 1691 0 1692; E 0x3b (Some [0xe2; 0x89; 0xa5]) 3 0 0 0; E 0x65 None 0 0 0 1693;
   E 0x73 None 0 0 0 1694; E 0x73 None 0 0 0 1695; E 0x3b (Some [0xe2; 0x8b; 0x9b]) 3 0 0 0;
   E 0x6c None 0 0 0 1697; E 0x61 None 0 0 0 1698; E 0x6e None 0 0 0 1699;
   E 0x74 None 0 0 0 1700; E 0x45 None 0 0 0 1701; E 0x71 None 0 0 0 1702;
   E 0x75 None 0 0 0 1703; E 0x61 None 0 0 0 1704; E 0x6c None 0 0 0 1705;
   E 0x3b (Some [0xe2; 0xa9; 0xbe]) 3 0 0 0; E 0x72 None 0 0 0 1707; E 0x65 None 0 0 0 1708;
   E 0x76 None 0 0 0 1709; E 0x65 None 0 0 0 1710; E 0x3b (Some [0xc4; 0x9e]) 2 0 0 0;
   E 0x6f None 0 0 0 1712; E 0x74 None 0 0 0 1713; E 0x3b (Some [0xc4; 0xa0]) 2 0 0 0;
   E 0x3b (Some [0x3e]) 1 0 0 0; E 0x6d None 0 0 0 1716; E 0x6d None 0 0 0 1717;
   E 0x61 None 0 0 0 1718; E 0x64 None 0 1719 0 1720; E 0x3b (Some [0xce; 0x93]) 2 0 0 0;
   E 0x3b (Some [0xcf; 0x9c]) 2 0 0 0; E 0x63 None 0 0 0 1722; E 0x79 None 0 0 0 1723;
   E 0x3b (Some [0xd0; 0x83]) 2 0 0 0; E 0x69 None 0 1726 1725 1727; E 0x79 None 0 0 0 1730;
   E 0x65 None 0 0 0 1731; E 0x72 None 0 0 0 1728; E 0x63 None 0 0 0 1729;
   E 0x3b (Some [0xc4; 0x9c]) 2 0 0 0; E 0x3b (Some [0xd0; 0x93]) 2 0 0 0;
   E 0x64 None 0 0 0 1732; E 0x69 None 0 0 0 1733; E 0x6c None 0 0 0 1734;
   E 0x3b (Some [0xc4; 0xa2]) 2 0 0 0; E 0x3b (Some [0xe2; 0x89; 0xab]) 3 0 0 0;
   E 0x70 None 0 0 0 1737; E 0x66 None 0 0 0 1738;
   E 0x3b (Some [0xf0; 0x9d; 0x94; 0xbe]) 4 0 0 0; E 0x3b (Some [0xe2; 0x8b; 0x99]) 3 0 0 0;
   E 0x63 None 0 0 0 1741; E 0x72 None 0 0 0 1742;
   E 0x3b (Some [0xf0; 0x9d; 0x92; 0xa2]) 4 0 0 0; E 0x63 None 0 1745 1744 1750;
   E 0x6f None 0 1749 1748 1757; E 0x4a None 0 1747 1746 1760; E 0x61 None 0 0 0 1763;
   E 0x48 None 0 0 0 1767; E 0x73 None 0 0 0 1770; E 0x66 None 0 0 0 1773;
   E 0x79 None 0 1751 0 1752; E 0x65 None 0 0 0 1753; E 0x3b (Some [0xd0; 0x9a]) 2 0 0 0;
   E 0x64 None 0 0 0 1754; E 0x69 None 0 0 0 1755; E 0x6c None 0 0 0 1756;
   E 0x3b (Some [0xc4; 0xb6]) 2 0 0 0; E 0x70 None 0 0 0 1758; E 0x66 None 0 0 0 1759;
   E 0x3b (Some [0xf0; 0x9d; 0x95; 0x82]) 4 0 0 0; E 0x63 None 0 0 0 1761;
   E 0x79 None 0 0 0 1762; E 0x3b (Some [0xd0; 0x8c]) 2 0 0 0; E 0x70 None 0 0 0 1764;
   E 0x70 None 0 0 0 1765; E 0x61 None 0 0 0 1766; E 0x3b (Some [0xce; 0x9a]) 2 0 0 0;
   E 0x63 None 0 0 0 1768; E 0x79 None 0 0 0 1769; E 0x3b (Some [0xd0; 0xa5]) 2 0 0 0;
   E 0x63 None 0 0 0 1771; E 0x72 None 0 0 0 1772;
   E 0x3b (Some [0xf0; 0x9d; 0x92; 0xa6]) 4 0 0 0; E 0x72 None 0 0 0 1774;
   E 0x3b (Some [0xf0; 0x9d; 0x94; 0x8e]) 4 0 0 0; E 0x63 None 0 1777 1776 1786;
   E 0x69 None 0 1783 1782 1793; E 0x53 None 0 1779 1778 1851; E 0x61 None 0 1781 0 1854;
   E 0x4a None 0 1780 0 1866; E 0x44 None 0 0 0 1869; E 0x5a None 0 0 0 1877;
   E 0x73 None 0 1785 0 1880; E 0x66 None 0 1784 0 1888; E 0x65 None 0 0 0 1890;
   E 0x6f None 0 0 0 1895; E 0x79 None 0 1787 0 1788; E 0x61 None 0 0 0 1789;
   E 0x3b (Some [0xd0; 0x94]) 2 0 0 0; E 0x72 None 0 0 0 1790; E 0x6f None 0 0 0 1791;
   E 0x6e None 0 0 0 1792; E 0x3b (Some [0xc4; 0x8e]) 2 0 0 0; E 0x66 None 0 1794 0 1795;
   E 0x61 None 0 0 0 1806; E 0x66 None 0 0 0 1796; E 0x65 None 0 0 0 1797;
   E 0x72 None 0 0 0 1798; E 0x65 None 0 0 0 1799; E 0x6e None 0 0 0 1800;
   E 0x74 None 0 0 0 1801; E 0x69 None 0 0 0 1802; E 0x61 None 0 0 0 1803;
   E 0x6c None 0 0 0 1804; E 0x44 None 0 0 0 1805; E 0x3b (Some [0xe2; 0x85; 0x86]) 3 0 0 0;
   E 0x6d None 0 1807 0 1808; E 0x63 None 0 0 0 1812; E 0x6f None 0 0 0 1809;
   E 0x6e None 0 0 0 1810; E 0x64 None 0 0 0 1811; E 0x3b (Some [0xe2; 0x8b; 0x84]) 3 0 0 0;
   E 0x72 None 0 0 0 1813; E 0x69 None 0 0 0 1814; E 0x74 None 0 0 0 1815;
   E 0x69 None 0 0 0 1816; E 0x63 None 0 0 0 1817; E 0x61 None 0 0 0 1818;
   E 0x6c None 0 0 0 1819; E 0x47 None 0 1821 1820 1823; E 0x54 None 0 0 0 1828;
   E 0x44 None 0 1822 0 1833; E 0x41 None 0 0 0 1846; E 0x72 None 0 0 0 1824;
   E 0x61 None 0 0 0 1825; E 0x76 None 0 0 0 1826; E 0x65 None 0 0 0 1827;
   E 0x3b (Some [0x60]) 1 0 0 0; E 0x69 None 0 0 0 1829; E 0x6c None 0 0 0 1830;
   E 0x64 None 0 0 0 1831; E 0x65 None 0 0 0 1832; E 0x3b (Some [0xcb; 0x9c]) 2 0 0 0;
   E 0x6f None 0 0 0 1834; E 0x75 None 0 1835 0 1836; E 0x74 None 0 0 0 1845;
   E 0x62 None 0 0 0 1837; E 0x6c None 0 0 0 1838; E 0x65 None 0 0 0 1839;
   E 0x41 None 0 0 0 1840; E 0x63 None 0 0 0 1841; E 0x75 None 0 0 0 1842;
   E 0x74 None 0 0 0 1843; E 0x65 None 0 0 0 1844; E 0x3b (Some [0xcb; 0x9d]) 2 0 0 0;
   E 0x3b (Some [0xcb; 0x99]) 2 0 0 0; E 0x63 None 0 0 0 1847; E 0x75 None 0 0 0 1848;
   E 0x74 None 0 0 0 1849; E 0x65 None 0 0 0 1850; E 0x3b (Some [0xc2; 0xb4]) 2 0 0 0;
   E 0x63 None 0 0 0 1852; E 0x79 None 0 0 0 1853; E 0x3b (Some [0xd0; 0x85]) 2 0 0 0;
   E 0x72 None 0 1856 1855 1857; E 0x73 None 0 0 0 1859; E 0x67 None 0 0 0 1862;
   E 0x72 None 0 0 0 1858; E 0x3b (Some [0xe2; 0x86; 0xa1]) 3 0 0 0; E 0x68 None 0 0 0 1860;
   E 0x76 None 0 0 0 1861; E 0x3b (Some [0xe2; 0xab; 0xa4]) 3 0 0 0; E 0x67 None 0 0 0 1863;
   E 0x65 None 0 0 0 1864; E 0x72 None 0 0 0 1865; E 0x3b (Some [0xe2; 0x80; 0xa1]) 3 0 0 0;
   E 0x63 None 0 0 0 1867; E 0x79 None 0 0 0 1868; E 0x3b (Some [0xd0; 0x82]) 2 0 0 0;
   E 0x6f None 0 1870 0 1871; E 0x3b (Some [0xe2; 0x85; 0x85]) 3 0 0 0; E 0x74 None 0 0 0 1872;
   E 0x72 None 0 0 0 1873; E 0x61 None 0 0 0 1874; E 0x68 None 0 0 0 1875;
   E 0x64 None 0 0 0 1876; E 0x3b (Some [0xe2; 0xa4; 0x91]) 3 0 0 0; E 0x63 None 0 0 0 1878;
   E 0x79 None 0 0 0 1879; E 0x3b (Some [0xd0; 0x8f]) 2 0 0 0; E 0x74 None 0 1881 0 1882;
   E 0x63 None 0 0 0 1886; E 0x72 None 0 0 0 1883; E 0x6f None 0 0 0 1884;
   E 0x6b None 0 0 0 1885; E 0x3b (Some [0xc4; 0x90]) 2 0 0 0; E 0x72 None 0 0 0 1887;
   E 0x3b (Some [0xf0; 0x9d; 0x92; 0x9f]) 4 0 0 0; E 0x72 None 0 0 0 1889;
   E 0x3b (Some [0xf0; 0x9d; 0x94; 0x87]) 4 0 0 0; E 0x6c None 0 0 0 1891;
   E 0x74 None 0 1892 0 1893; E 0x3b (Some [0xe2; 0x88; 0x87]) 3 0 0 0; E 0x61 None 0 0 0 1894;
   E 0x3b (Some [0xce; 0x94]) 2 0 0 0; E 0x75 None 0 1897 1896 1899; E 0x77 None 0 0 0 2035;
   E 0x74 None 0 1898 0 2139; E 0x70 None 0 0 0 2150; E 0x62 None 0 0 0 1900;
   E 0x6c None 0 0 0 1901; E 0x65 None 0 0 0 1902; E 0x52 None 0 1904 1903 1908;
   E 0x56 None 0 1907 0 1922; E 0x44 None 0 1906 1905 1933; E 0x4c None 0 0 0 1944;
   E 0x43 None 0 0 0 2003; E 0x55 None 0 0 0 2018; E 0x69 None 0 0 0 1909;
   E 0x67 None 0 0 0 1910; E 0x68 None 0 0 0 1911; E 0x74 None 0 0 0 1912;
   E 0x54 None 0 1913 0 1914; E 0x41 None 0 0 0 1917; E 0x65 None 0 0 0 1915;
   E 0x65 None 0 0 0 1916; E 0x3b (Some [0xe2; 0x8a; 0xa8]) 3 0 0 0; E 0x72 None 0 0 0 1918;
   E 0x72 None 0 0 0 1919; E 0x6f None 0 0 0 1920; E 0x77 None 0 0 0 1921;
   E 0x3b (Some [0xe2; 0x87; 0x92]) 3 0 0 0; E 0x65 None 0 0 0 1923; E 0x72 None 0 0 0 1924;
   E 0x74 None 0 0 0 1925; E 0x69 None 0 0 0 1926; E 0x63 None 0 0 0 1927;
   E 0x61 None 0 0 0 1928; E 0x6c None 0 0 0 1929; E 0x42 None 0 0 0 1930;
   E 0x61 None 0 0 0 1931; E 0x72 None 0 0 0 1932; E 0x3b (Some [0xe2; 0x88; 0xa5]) 3 0 0 0;
   E 0x6f None 0 0 0 1934; E 0x77 None 0 1935 0 1936; E 0x74 None 0 0 0 1943;
   E 0x6e None 0 0 0 1937; E 0x41 None 0 0 0 1938; E 0x72 None 0 0 0 1939;
   E 0x72 None 0 0 0 1940; E 0x6f None 0 0 0 1941; E 0x77 None 0 0 0 1942;
   E 0x3b (Some [0xe2; 0x87; 0x93]) 3 0 0 0; E 0x3b (Some [0xc2; 0xa8]) 2 0 0 0;
   E 0x6f None 0 1945 0 1946; E 0x65 None 0 0 0 1980; E 0x6e None 0 0 0 1947;
   E 0x67 None 0 0 0 1948; E 0x52 None 0 1949 0 1950; E 0x4c None 0 0 0 1960;
   E 0x69 None 0 0 0 1951; E 0x67 None 0 0 0 1952; E 0x68 None 0 0 0 1953;
   E 0x74 None 0 0 0 1954; E 0x41 None 0 0 0 1955; E 0x72 None 0 0 0 1956;
   E 0x72 None 0 0 0 1957; E 0x6f None 0 0 0 1958; E 0x77 None 0 0 0 1959;
   E 0x3b (Some [0xe2; 0x9f; 0xb9]) 3 0 0 0; E 0x65 None 0 0 0 1961; E 0x66 None 0 0 0 1962;
   E 0x74 None 0 0 0 1963; E 0x52 None 0 1964 0 1965; E 0x41 None 0 0 0 1975;
   E 0x69 None 0 0 0 1966; E 0x67 None 0 0 0 1967; E 0x68 None 0 0 0 1968;
   E 0x74 None 0 0 0 1969; E 0x41 None 0 0 0 1970; E 0x72 None 0 0 0 1971;
   E 0x72 None 0 0 0 1972; E 0x6f None 0 0 0 1973; E 0x77 None 0 0 0 1974;
   E 0x3b (Some [0xe2; 0x9f; 0xba]) 3 0 0 0; E 0x72 None 0 0 0 1976; E 0x72 None 0 0 0 1977;
   E 0x6f None 0 0 0 1978; E 0x77 None 0 0 0 1979; E 0x3b (Some [0xe2; 0x9f; 0xb8]) 3 0 0 0;
   E 0x66 None 0 0 0 1981; E 0x74 None 0 0 0 1982; E 0x52 None 0 1984 1983 1985;
   E 0x54 None 0 0 0 1995; E 0x41 None 0 0 0 1998; E 0x69 None 0 0 0 1986;
   E 0x67 None 0 0 0 1987; E 0x68 None 0 0 0 1988; E 0x74 None 0 0 0 1989;
   E 0x41 None 0 0 0 1990; E 0x72 None 0 0 0 1991; E 0x72 None 0 0 0 1992;
   E 0x6f None 0 0 0 1993; E 0x77 None 0 0 0 1994; E 0x3b (Some [0xe2; 0x87; 0x94]) 3 0 0 0;
   E 0x65 None 0 0 0 1996; E 0x65 None 0 0 0 1997; E 0x3b (Some [0xe2; 0xab; 0xa4]) 3 0 0 0;
   E 0x72 None 0 0 0 1999; E 0x72 None 0 0 0 2000].

Definition entities_4 : list sbst_entry :=
  [E 0x6f None 0 0 0 2001; E 0x77 None 0 0 0 2002; E 0x3b (Some [0xe2; 0x87; 0x90]) 3 0 0 0;
   E 0x6f None 0 0 0 2004; E 0x6e None 0 0 0 2005; E 0x74 None 0 0 0 2006;
   E 0x6f None 0 0 0 2007; E 0x75 None 0 0 0 2008; E 0x72 None 0 0 0 2009;
   E 0x49 None 0 0 0 2010; E 0x6e None 0 0 0 2011; E 0x74 None 0 0 0 2012;
   E 0x65 None 0 0 0 2013; E 0x67 None 0 0 0 2014; E 0x72 None 0 0 0 2015;
   E 0x61 None 0 0 0 2016; E 0x6c None 0 0 0 2017; E 0x3b (Some [0xe2; 0x88; 0xaf]) 3 0 0 0;
   E 0x70 None 0 0 0 2019; E 0x44 None 0 2020 0 2021; E 0x41 None 0 0 0 2030;
   E 0x6f None 0 0 0 2022; E 0x77 None 0 0 0 2023; E 0x6e None 0 0 0 2024;
   E 0x41 None 0 0 0 2025; E 0x72 None 0 0 0 2026; E 0x72 None 0 0 0 2027;
   E 0x6f None 0 0 0 2028; E 0x77 None 0 0 0 2029; E 0x3b (Some [0xe2; 0x87; 0x95]) 3 0 0 0;
   E 0x72 None 0 0 0 2031; E 0x72 None 0 0 0 2032; E 0x6f None 0 0 0 2033;
   E 0x77 None 0 0 0 2034; E 0x3b (Some [0xe2; 0x87; 0x91]) 3 0 0 0; E 0x6e None 0 0 0 2036;
   E 0x52 None 0 2038 2037 2042; E 0x61 None 0 2041 0 2067; E 0x42 None 0 2040 2039 2072;
   E 0x4c None 0 0 0 2077; E 0x41 None 0 0 0 2113; E 0x54 None 0 0 0 2130;
   E 0x69 None 0 0 0 2043; E 0x67 None 0 0 0 2044; E 0x68 None 0 0 0 2045;
   E 0x74 None 0 0 0 2046; E 0x56 None 0 2047 0 2048; E 0x54 None 0 0 0 2058;
   E 0x65 None 0 0 0 2049; E 0x63 None 0 0 0 2050; E 0x74 None 0 0 0 2051;
   E 0x6f None 0 0 0 2052; E 0x72 None 0 0 0 2053; E 0x42 None 0 2054 0 2055;
   E 0x3b (Some [0xe2; 0x87; 0x81]) 3 0 0 0; E 0x61 None 0 0 0 2056; E 0x72 None 0 0 0 2057;
   E 0x3b (Some [0xe2; 0xa5; 0x97]) 3 0 0 0; E 0x65 None 0 0 0 2059; E 0x65 None 0 0 0 2060;
   E 0x56 None 0 0 0 2061; E 0x65 None 0 0 0 2062; E 0x63 None 0 0 0 2063;
   E 0x74 None 0 0 0 2064; E 0x6f None 0 0 0 2065; E 0x72 None 0 0 0 2066;
   E 0x3b (Some [0xe2; 0xa5; 0x9f]) 3 0 0 0; E 0x72 None 0 0 0 2068; E 0x72 None 0 0 0 2069;
   E 0x6f None 0 0 0 2070; E 0x77 None 0 0 0 2071; E 0x3b (Some [0xe2; 0x87; 0x93]) 3 0 0 0;
   E 0x72 None 0 0 0 2073; E 0x65 None 0 0 0 2074; E 0x76 None 0 0 0 2075;
   E 0x65 None 0 0 0 2076; E 0x3b (Some [0xcc; 0x91]) 2 0 0 0; E 0x65 None 0 0 0 2078;
   E 0x66 None 0 0 0 2079; E 0x74 None 0 0 0 2080; E 0x54 None 0 2082 2081 2083;
   E 0x56 None 0 0 0 2092; E 0x52 None 0 0 0 2102; E 0x65 None 0 0 0 2084;
   E 0x65 None 0 0 0 2085; E 0x56 None 0 0 0 2086; E 0x65 None 0 0 0 2087;
   E 0x63 None 0 0 0 2088; E 0x74 None 0 0 0 2089; E 0x6f None 0 0 0 2090;
   E 0x72 None 0 0 0 2091; E 0x3b (Some [0xe2; 0xa5; 0x9e]) 3 0 0 0; E 0x65 None 0 0 0 2093;
   E 0x63 None 0 0 0 2094; E 0x74 None 0 0 0 2095; E 0x6f None 0 0 0 2096;
   E 0x72 None 0 0 0 2097; E 0x42 None 0 2098 0 2099; E 0x3b (Some [0xe2; 0x86; 0xbd]) 3 0 0 0;
   E 0x61 None 0 0 0 2100; E 0x72 None 0 0 0 2101; E 0x3b (Some [0xe2; 0xa5; 0x96]) 3 0 0 0;
   E 0x69 None 0 0 0 2103; E 0x67 None 0 0 0 2104; E 0x68 None 0 0 0 2105;
   E 0x74 None 0 0 0 2106; E 0x56 None 0 0 0 2107; E 0x65 None 0 0 0 2108;
   E 0x63 None 0 0 0 2109; E 0x74 None 0 0 0 2110; E 0x6f None 0 0 0 2111;
   E 0x72 None 0 0 0 2112; E 0x3b (Some [0xe2; 0xa5; 0x90]) 3 0 0 0; E 0x72 None 0 0 0 2114;
   E 0x72 None 0 0 0 2115; E 0x6f None 0 0 0 2116; E 0x77 None 0 0 0 2117;
   E 0x42 None 0 2119 2118 2120; E 0x55 None 0 0 0 2123;
   E 0x3b (Some [0xe2; 0x86; 0x93]) 3 0 0 0; E 0x61 None 0 0 0 2121; E 0x72 None 0 0 0 2122;
   E 0x3b (Some [0xe2; 0xa4; 0x93]) 3 0 0 0; E 0x70 None 0 0 0 2124; E 0x41 None 0 0 0 2125;
   E 0x72 None 0 0 0 2126; E 0x72 None 0 0 0 2127; E 0x6f None 0 0 0 2128;
   E 0x77 None 0 0 0 2129; E 0x3b (Some [0xe2; 0x87; 0xb5]) 3 0 0 0; E 0x65 None 0 0 0 2131;
   E 0x65 None 0 0 0 2132; E 0x41 None 0 2133 0 2134; E 0x3b (Some [0xe2; 0x8a; 0xa4]) 3 0 0 0;
   E 0x72 None 0 0 0 2135; E 0x72 None 0 0 0 2136; E 0x6f None 0 0 0 2137;
   E 0x77 None 0 0 0 2138; E 0x3b (Some [0xe2; 0x86; 0xa7]) 3 0 0 0;
   E 0x44 None 0 2141 2140 2142; E 0x45 None 0 0 0 2145; E 0x3b (Some [0xc2; 0xa8]) 2 0 0 0;
   E 0x6f None 0 0 0 2143; E 0x74 None 0 0 0 2144; E 0x3b (Some [0xe2; 0x83; 0x9c]) 3 0 0 0;
   E 0x71 None 0 0 0 2146; E 0x75 None 0 0 0 2147; E 0x61 None 0 0 0 2148;
   E 0x6c None 0 0 0 2149; E 0x3b (Some [0xe2; 0x89; 0x90]) 3 0 0 0; E 0x66 None 0 0 0 2151;
   E 0x3b (Some [0xf0; 0x9d; 0x94; 0xbb]) 4 0 0 0; E 0x69 None 0 2154 2153 2157;
   E 0x73 None 0 2156 0 2189; E 0x66 None 0 2155 0 2192; E 0x63 None 0 0 0 2194;
   E 0x6f None 0 0 0 2196; E 0x6c None 0 0 0 2158; E 0x6c None 0 0 0 2159;
   E 0x65 None 0 0 0 2160; E 0x64 None 0 0 0 2161; E 0x56 None 0 2162 0 2163;
   E 0x53 None 0 0 0 2178; E 0x65 None 0 0 0 2164; E 0x72 None 0 0 0 2165;
   E 0x79 None 0 0 0 2166; E 0x53 None 0 0 0 2167; E 0x6d None 0 0 0 2168;
   E 0x61 None 0 0 0 2169; E 0x6c None 0 0 0 2170; E 0x6c None 0 0 0 2171;
   E 0x53 None 0 0 0 2172; E 0x71 None 0 0 0 2173; E 0x75 None 0 0 0 2174;
   E 0x61 None 0 0 0 2175; E 0x72 None 0 0 0 2176; E 0x65 None 0 0 0 2177;
   E 0x3b (Some [0xe2; 0x96; 0xaa]) 3 0 0 0; E 0x6d None 0 0 0 2179; E 0x61 None 0 0 0 2180;
   E 0x6c None 0 0 0 2181; E 0x6c None 0 0 0 2182; E 0x53 None 0 0 0 2183;
   E 0x71 None 0 0 0 2184; E 0x75 None 0 0 0 2185; E 0x61 None 0 0 0 2186;
   E 0x72 None 0 0 0 2187; E 0x65 None 0 0 0 2188; E 0x3b (Some [0xe2; 0x97; 0xbc]) 3 0 0 0;
   E 0x63 None 0 0 0 2190; E 0x72 None 0 0 0 2191; E 0x3b (Some [0xe2; 0x84; 0xb1]) 3 0 0 0;
   E 0x72 None 0 0 0 2193; E 0x3b (Some [0xf0; 0x9d; 0x94; 0x89]) 4 0 0 0;
   E 0x79 None 0 0 0 2195; E 0x3b (Some [0xd0; 0xa4]) 2 0 0 0; E 0x72 None 0 2198 2197 2199;
   E 0x75 None 0 0 0 2203; E 0x70 None 0 0 0 2211; E 0x41 None 0 0 0 2200;
   E 0x6c None 0 0 0 2201; E 0x6c None 0 0 0 2202; E 0x3b (Some [0xe2; 0x88; 0x80]) 3 0 0 0;
   E 0x72 None 0 0 0 2204; E 0x69 None 0 0 0 2205; E 0x65 None 0 0 0 2206;
   E 0x72 None 0 0 0 2207; E 0x74 None 0 0 0 2208; E 0x72 None 0 0 0 2209;
   E 0x66 None 0 0 0 2210; E 0x3b (Some [0xe2; 0x84; 0xb1]) 3 0 0 0; E 0x66 None 0 0 0 2212;
   E 0x3b (Some [0xf0; 0x9d; 0x94; 0xbd]) 4 0 0 0; E 0x6f None 0 2215 2214 2221;
   E 0x73 None 0 2220 2219 2224; E 0x65 None 0 2217 2216 2227; E 0x66 None 0 0 0 2245;
   E 0x63 None 0 2218 0 2247; E 0x61 None 0 0 0 2249; E 0x75 None 0 0 0 2264;
   E 0x72 None 0 0 0 2269; E 0x70 None 0 0 0 2222; E 0x66 None 0 0 0 2223;
   E 0x3b (Some [0xf0; 0x9d; 0x94; 0xb9]) 4 0 0 0; E 0x63 None 0 0 0 2225;
   E 0x72 None 0 0 0 2226; E 0x3b (Some [0xe2; 0x84; 0xac]) 3 0 0 0;
   E 0x72 None 0 2229 2228 2230; E 0x74 None 0 0 0 2238; E 0x63 None 0 0 0 2240;
   E 0x6e None 0 0 0 2231; E 0x6f None 0 0 0 2232; E 0x75 None 0 0 0 2233;
   E 0x6c None 0 0 0 2234; E 0x6c None 0 0 0 2235; E 0x69 None 0 0 0 2236;
   E 0x73 None 0 0 0 2237; E 0x3b (Some [0xe2; 0x84; 0xac]) 3 0 0 0; E 0x61 None 0 0 0 2239;
   E 0x3b (Some [0xce; 0x92]) 2 0 0 0; E 0x61 None 0 0 0 2241; E 0x75 None 0 0 0 2242;
   E 0x73 None 0 0 0 2243; E 0x65 None 0 0 0 2244; E 0x3b (Some [0xe2; 0x88; 0xb5]) 3 0 0 0;
   E 0x72 None 0 0 0 2246; E 0x3b (Some [0xf0; 0x9d; 0x94; 0x85]) 4 0 0 0;
   E 0x79 None 0 0 0 2248; E 0x3b (Some [0xd0; 0x91]) 2 0 0 0; E 0x72 None 0 2250 0 2251;
   E 0x63 None 0 0 0 2257; E 0x77 None 0 2252 0 2253; E 0x76 None 0 0 0 2256;
   E 0x65 None 0 0 0 2254; E 0x64 None 0 0 0 2255; E 0x3b (Some [0xe2; 0x8c; 0x86]) 3 0 0 0;
   E 0x3b (Some [0xe2; 0xab; 0xa7]) 3 0 0 0; E 0x6b None 0 0 0 2258; E 0x73 None 0 0 0 2259;
   E 0x6c None 0 0 0 2260; E 0x61 None 0 0 0 2261; E 0x73 None 0 0 0 2262;
   E 0x68 None 0 0 0 2263; E 0x3b (Some [0xe2; 0x88; 0x96]) 3 0 0 0; E 0x6d None 0 0 0 2265;
   E 0x70 None 0 0 0 2266; E 0x65 None 0 0 0 2267; E 0x71 None 0 0 0 2268;
   E 0x3b (Some [0xe2; 0x89; 0x8e]) 3 0 0 0; E 0x65 None 0 0 0 2270; E 0x76 None 0 0 0 2271;
   E 0x65 None 0 0 0 2272; E 0x3b (Some [0xcb; 0x98]) 2 0 0 0; E 0x68 None 0 2275 2274 2287;
   E 0x72 None 0 2283 2282 2289; E 0x63 None 0 2277 2276 2293; E 0x65 None 0 2281 2280 2313;
   E 0x4f None 0 2279 2278 2327; E 0x61 None 0 0 0 2330; E 0x48 None 0 0 0 2361;
   E 0x66 None 0 0 0 2364; E 0x64 None 0 0 0 2366; E 0x75 None 0 2286 0 2369;
   E 0x6c None 0 2285 2284 2375; E 0x6f None 0 0 0 2423; E 0x69 None 0 0 0 2494;
   E 0x73 None 0 0 0 2519; E 0x69 None 0 0 0 2288; E 0x3b (Some [0xce; 0xa7]) 2 0 0 0;
   E 0x6f None 0 0 0 2290; E 0x73 None 0 0 0 2291; E 0x73 None 0 0 0 2292;
   E 0x3b (Some [0xe2; 0xa8; 0xaf]) 3 0 0 0; E 0x69 None 0 2295 2294 2297;
   E 0x6f None 0 0 0 2300; E 0x65 None 0 2296 0 2305; E 0x61 None 0 0 0 2309;
   E 0x72 None 0 0 0 2298; E 0x63 None 0 0 0 2299; E 0x3b (Some [0xc4; 0x88]) 2 0 0 0;
   E 0x6e None 0 0 0 2301; E 0x69 None 0 0 0 2302; E 0x6e None 0 0 0 2303;
   E 0x74 None 0 0 0 2304; E 0x3b (Some [0xe2; 0x88; 0xb0]) 3 0 0 0; E 0x64 None 0 0 0 2306;
   E 0x69 None 0 0 0 2307; E 0x6c (Some [0xc3; 0x87]) 2 0 0 2308;
   E 0x3b (Some [0xc3; 0x87]) 2 0 0 0; E 0x72 None 0 0 0 2310; E 0x6f None 0 0 0 2311;
   E 0x6e None 0 0 0 2312; E 0x3b (Some [0xc4; 0x8c]) 2 0 0 0; E 0x6e None 0 2314 0 2315;
   E 0x64 None 0 0 0 2322; E 0x74 None 0 0 0 2316; E 0x65 None 0 0 0 2317;
   E 0x72 None 0 0 0 2318; E 0x44 None 0 0 0 2319; E 0x6f None 0 0 0 2320;
   E 0x74 None 0 0 0 2321; E 0x3b (Some [0xc2; 0xb7]) 2 0 0 0; E 0x69 None 0 0 0 2323;
   E 0x6c None 0 0 0 2324; E 0x6c None 0 0 0 2325; E 0x61 None 0 0 0 2326;
   E 0x3b (Some [0xc2; 0xb8]) 2 0 0 0; E 0x50 None 0 0 0 2328;
   E 0x59 (Some [0xc2; 0xa9]) 2 0 0 2329; E 0x3b (Some [0xc2; 0xa9]) 2 0 0 0;
   E 0x70 None 0 2332 2331 2333; E 0x79 None 0 0 0 2352; E 0x63 None 0 0 0 2357;
   E 0x69 None 0 2334 0 2335; E 0x3b (Some [0xe2; 0x8b; 0x92]) 3 0 0 0; E 0x74 None 0 0 0 2336;
   E 0x61 None 0 0 0 2337; E 0x6c None 0 0 0 2338; E 0x44 None 0 0 0 2339;
   E 0x69 None 0 0 0 2340; E 0x66 None 0 0 0 2341; E 0x66 None 0 0 0 2342;
   E 0x65 None 0 0 0 2343; E 0x72 None 0 0 0 2344; E 0x65 None 0 0 0 2345;
   E 0x6e None 0 0 0 2346; E 0x74 None 0 0 0 2347; E 0x69 None 0 0 0 2348;
   E 0x61 None 0 0 0 2349; E 0x6c None 0 0 0 2350; E 0x44 None 0 0 0 2351;
   E 0x3b (Some [0xe2; 0x85; 0x85]) 3 0 0 0; E 0x6c None 0 0 0 2353; E 0x65 None 0 0 0 2354;
   E 0x79 None 0 0 0 2355; E 0x73 None 0 0 0 2356; E 0x3b (Some [0xe2; 0x84; 0xad]) 3 0 0 0;
   E 0x75 None 0 0 0 2358; E 0x74 None 0 0 0 2359; E 0x65 None 0 0 0 2360;
   E 0x3b (Some [0xc4; 0x86]) 2 0 0 0; E 0x63 None 0 0 0 2362; E 0x79 None 0 0 0 2363;
   E 0x3b (Some [0xd0; 0xa7]) 2 0 0 0; E 0x72 None 0 0 0 2365;
   E 0x3b (Some [0xe2; 0x84; 0xad]) 3 0 0 0; E 0x6f None 0 0 0 2367; E 0x74 None 0 0 0 2368;
   E 0x3b (Some [0xc4; 0x8a]) 2 0 0 0; E 0x70 None 0 0 0 2370; E 0x43 None 0 2371 0 2372;
   E 0x3b (Some [0xe2; 0x8b; 0x93]) 3 0 0 0; E 0x61 None 0 0 0 2373; E 0x70 None 0 0 0 2374;
   E 0x3b (Some [0xe2; 0x89; 0x8d]) 3 0 0 0; E 0x6f None 0 0 0 2376; E 0x73 None 0 2377 0 2378;
   E 0x63 None 0 0 0 2402; E 0x65 None 0 0 0 2379; E 0x43 None 0 0 0 2380;
   E 0x75 None 0 0 0 2381; E 0x72 None 0 0 0 2382; E 0x6c None 0 0 0 2383;
   E 0x79 None 0 0 0 2384; E 0x51 None 0 2385 0 2386; E 0x44 None 0 0 0 2391;
   E 0x75 None 0 0 0 2387; E 0x6f None 0 0 0 2388; E 0x74 None 0 0 0 2389;
   E 0x65 None 0 0 0 2390; E 0x3b (Some [0xe2; 0x80; 0x99]) 3 0 0 0; E 0x6f None 0 0 0 2392;
   E 0x75 None 0 0 0 2393; E 0x62 None 0 0 0 2394; E 0x6c None 0 0 0 2395;
   E 0x65 None 0 0 0 2396; E 0x51 None 0 0 0 2397; E 0x75 None 0 0 0 2398;
   E 0x6f None 0 0 0 2399; E 0x74 None 0 0 0 2400; E 0x65 None 0 0 0 2401;
   E 0x3b (Some [0xe2; 0x80; 0x9d]) 3 0 0 0; E 0x6b None 0 0 0 2403; E 0x77 None 0 0 0 2404;
   E 0x69 None 0 0 0 2405; E 0x73 None 0 0 0 2406; E 0x65 None 0 0 0 2407;
   E 0x43 None 0 0 0 2408; E 0x6f None 0 0 0 2409; E 0x6e None 0 0 0 2410;
   E 0x74 None 0 0 0 2411; E 0x6f None 0 0 0 2412; E 0x75 None 0 0 0 2413;
   E 0x72 None 0 0 0 2414; E 0x49 None 0 0 0 2415; E 0x6e None 0 0 0 2416;
   E 0x74 None 0 0 0 2417; E 0x65 None 0 0 0 2418; E 0x67 None 0 0 0 2419;
   E 0x72 None 0 0 0 2420; E 0x61 None 0 0 0 2421; E 0x6c None 0 0 0 2422;
   E 0x3b (Some [0xe2; 0x88; 0xb2]) 3 0 0 0; E 0x70 None 0 2425 2424 2427;
   E 0x75 None 0 0 0 2436; E 0x6e None 0 2426 0 2465; E 0x6c None 0 0 0 2489;
   E 0x72 None 0 2428 0 2429; E 0x66 None 0 0 0 2435; E 0x6f None 0 0 0 2430;
   E 0x64 None 0 0 0 2431; E 0x75 None 0 0 0 2432; E 0x63 None 0 0 0 2433;
   E 0x74 None 0 0 0 2434; E 0x3b (Some [0xe2; 0x88; 0x90]) 3 0 0 0;
   E 0x3b (Some [0xe2; 0x84; 0x82]) 3 0 0 0; E 0x6e None 0 0 0 2437; E 0x74 None 0 0 0 2438;
   E 0x65 None 0 0 0 2439; E 0x72 None 0 0 0 2440; E 0x43 None 0 0 0 2441;
   E 0x6c None 0 0 0 2442; E 0x6f None 0 0 0 2443; E 0x63 None 0 0 0 2444;
   E 0x6b None 0 0 0 2445; E 0x77 None 0 0 0 2446; E 0x69 None 0 0 0 2447;
   E 0x73 None 0 0 0 2448; E 0x65 None 0 0 0 2449; E 0x43 None 0 0 0 2450;
   E 0x6f None 0 0 0 2451; E 0x6e None 0 0 0 2452; E 0x74 None 0 0 0 2453;
   E 0x6f None 0 0 0 2454; E 0x75 None 0 0 0 2455; E 0x72 None 0 0 0 2456;
   E 0x49 None 0 0 0 2457; E 0x6e None 0 0 0 2458; E 0x74 None 0 0 0 2459;
   E 0x65 None 0 0 0 2460; E 0x67 None 0 0 0 2461; E 0x72 None 0 0 0 2462;
   E 0x61 None 0 0 0 2463; E 0x6c None 0 0 0 2464; E 0x3b (Some [0xe2; 0x88; 0xb3]) 3 0 0 0;
   E 0x69 None 0 2467 2466 2468; E 0x74 None 0 0 0 2471; E 0x67 None 0 0 0 2483;
   E 0x6e None 0 0 0 2469; E 0x74 None 0 0 0 2470; E 0x3b (Some [0xe2; 0x88; 0xaf]) 3 0 0 0;
   E 0x6f None 0 0 0 2472; E 0x75 None 0 0 0 2473; E 0x72 None 0 0 0 2474;
   E 0x49 None 0 0 0 2475; E 0x6e None 0 0 0 2476; E 0x74 None 0 0 0 2477;
   E 0x65 None 0 0 0 2478; E 0x67 None 0 0 0 2479; E 0x72 None 0 0 0 2480;
   E 0x61 None 0 0 0 2481; E 0x6c None 0 0 0 2482; E 0x3b (Some [0xe2; 0x88; 0xae]) 3 0 0 0;
   E 0x72 None 0 0 0 2484; E 0x75 None 0 0 0 2485; E 0x65 None 0 0 0 2486;
   E 0x6e None 0 0 0 2487; E 0x74 None 0 0 0 2488; E 0x3b (Some [0xe2; 0x89; 0xa1]) 3 0 0 0;
   E 0x6f None 0 0 0 2490; E 0x6e None 0 0 0 2491; E 0x65 None 0 2492 0 2493;
   E 0x3b (Some [0xe2; 0x88; 0xb7]) 3 0 0 0; E 0x3b (Some [0xe2; 0xa9; 0xb4]) 3 0 0 0;
   E 0x72 None 0 0 0 2495; E 0x63 None 0 0 0 2496; E 0x6c None 0 0 0 2497;
   E 0x65 None 0 0 0 2498; E 0x50 None 0 2500 2499 2502; E 0x54 None 0 0 0 2506].

Definition entities_5 : list sbst_entry :=
  [E 0x4d None 0 2501 0 2511; E 0x44 None 0 0 0 2516; E 0x6c None 0 0 0 2503;
   E 0x75 None 0 0 0 2504; E 0x73 None 0 0 0 2505; E 0x3b (Some [0xe2; 0x8a; 0x95]) 3 0 0 0;
   E 0x69 None 0 0 0 2507; E 0x6d None 0 0 0 2508; E 0x65 None 0 0 0 2509;
   E 0x73 None 0 0 0 2510; E 0x3b (Some [0xe2; 0x8a; 0x97]) 3 0 0 0; E 0x69 None 0 0 0 2512;
   E 0x6e None 0 0 0 2513; E 0x75 None 0 0 0 2514; E 0x73 None 0 0 0 2515;
   E 0x3b (Some [0xe2; 0x8a; 0x96]) 3 0 0 0; E 0x6f None 0 0 0 2517; E 0x74 None 0 0 0 2518;
   E 0x3b (Some [0xe2; 0x8a; 0x99]) 3 0 0 0; E 0x63 None 0 0 0 2520; E 0x72 None 0 0 0 2521;
   E 0x3b (Some [0xf0; 0x9d; 0x92; 0x9e]) 4 0 0 0; E 0x6d None 0 2524 2523 2538;
   E 0x72 None 0 2533 2532 2542; E 0x63 None 0 2526 2525 2546; E 0x67 None 0 2531 2530 2552;
   E 0x61 None 0 2528 2527 2557; E 0x62 None 0 0 0 2562; E 0x4d None 0 2529 0 2567;
   E 0x45 None 0 0 0 2569; E 0x6c None 0 0 0 2573; E 0x66 None 0 0 0 2577;
   E 0x74 None 0 2537 2536 2579; E 0x6f None 0 2535 2534 2584; E 0x70 None 0 0 0 2591;
   E 0x6e None 0 0 0 2603; E 0x75 None 0 0 0 2605; E 0x73 None 0 0 0 2608;
   E 0x61 None 0 0 0 2539; E 0x63 None 0 0 0 2540; E 0x72 None 0 0 0 2541;
   E 0x3b (Some [0xc4; 0x80]) 2 0 0 0; E 0x69 None 0 0 0 2543; E 0x6e None 0 0 0 2544;
   E 0x67 (Some [0xc3; 0x85]) 2 0 0 2545; E 0x3b (Some [0xc3; 0x85]) 2 0 0 0;
   E 0x79 None 0 2547 0 2548; E 0x69 None 0 0 0 2549; E 0x3b (Some [0xd0; 0x90]) 2 0 0 0;
   E 0x72 None 0 0 0 2550; E 0x63 (Some [0xc3; 0x82]) 2 0 0 2551;
   E 0x3b (Some [0xc3; 0x82]) 2 0 0 0; E 0x72 None 0 0 0 2553; E 0x61 None 0 0 0 2554;
   E 0x76 None 0 0 0 2555; E 0x65 (Some [0xc3; 0x80]) 2 0 0 2556;
   E 0x3b (Some [0xc3; 0x80]) 2 0 0 0; E 0x63 None 0 0 0 2558; E 0x75 None 0 0 0 2559;
   E 0x74 None 0 0 0 2560; E 0x65 (Some [0xc3; 0x81]) 2 0 0 2561;
   E 0x3b (Some [0xc3; 0x81]) 2 0 0 0; E 0x72 None 0 0 0 2563; E 0x65 None 0 0 0 2564;
   E 0x76 None 0 0 0 2565; E 0x65 None 0 0 0 2566; E 0x3b (Some [0xc4; 0x82]) 2 0 0 0;
   E 0x50 (Some [0x26]) 1 0 0 2568; E 0x3b (Some [0x26]) 1 0 0 0; E 0x6c None 0 0 0 2570;
   E 0x69 None 0 0 0 2571; E 0x67 (Some [0xc3; 0x86]) 2 0 0 2572;
   E 0x3b (Some [0xc3; 0x86]) 2 0 0 0; E 0x70 None 0 0 0 2574; E 0x68 None 0 0 0 2575;
   E 0x61 None 0 0 0 2576; E 0x3b (Some [0xce; 0x91]) 2 0 0 0; E 0x72 None 0 0 0 2578;
   E 0x3b (Some [0xf0; 0x9d; 0x94; 0x84]) 4 0 0 0; E 0x69 None 0 0 0 2580;
   E 0x6c None 0 0 0 2581; E 0x64 None 0 0 0 2582; E 0x65 (Some [0xc3; 0x83]) 2 0 0 2583;
   E 0x3b (Some [0xc3; 0x83]) 2 0 0 0; E 0x70 None 0 2585 0 2586; E 0x67 None 0 0 0 2588;
   E 0x66 None 0 0 0 2587; E 0x3b (Some [0xf0; 0x9d; 0x94; 0xb8]) 4 0 0 0;
   E 0x6f None 0 0 0 2589; E 0x6e None 0 0 0 2590; E 0x3b (Some [0xc4; 0x84]) 2 0 0 0;
   E 0x70 None 0 0 0 2592; E 0x6c None 0 0 0 2593; E 0x79 None 0 0 0 2594;
   E 0x46 None 0 0 0 2595; E 0x75 None 0 0 0 2596; E 0x6e None 0 0 0 2597;
   E 0x63 None 0 0 0 2598; E 0x74 None 0 0 0 2599; E 0x69 None 0 0 0 2600;
   E 0x6f None 0 0 0 2601; E 0x6e None 0 0 0 2602; E 0x3b (Some [0xe2; 0x81; 0xa1]) 3 0 0 0;
   E 0x64 None 0 0 0 2604; E 0x3b (Some [0xe2; 0xa9; 0x93]) 3 0 0 0; E 0x6d None 0 0 0 2606;
   E 0x6c (Some [0xc3; 0x84]) 2 0 0 2607; E 0x3b (Some [0xc3; 0x84]) 2 0 0 0;
   E 0x73 None 0 2609 0 2610; E 0x63 None 0 0 0 2614; E 0x69 None 0 0 0 2611;
   E 0x67 None 0 0 0 2612; E 0x6e None 0 0 0 2613; E 0x3b (Some [0xe2; 0x89; 0x94]) 3 0 0 0;
   E 0x72 None 0 0 0 2615; E 0x3b (Some [0xf0; 0x9d; 0x92; 0x9c]) 4 0 0 0;
   E 0x6d None 0 2618 2617 2632; E 0x73 None 0 2627 2626 2667; E 0x64 None 0 2620 2619 2673;
   E 0x67 None 0 2625 2624 2676; E 0x61 None 0 2622 2621 2681; E 0x63 None 0 0 0 2686;
   E 0x54 None 0 2623 0 2697; E 0x4e None 0 0 0 2699; E 0x6c None 0 0 0 2701;
   E 0x66 None 0 0 0 2707; E 0x75 None 0 2631 2630 2709; E 0x70 None 0 2629 2628 2712;
   E 0x71 None 0 0 0 2718; E 0x6f None 0 0 0 2737; E 0x78 None 0 0 0 2744;
   E 0x74 None 0 0 0 2760; E 0x70 None 0 2633 0 2634; E 0x61 None 0 0 0 2664;
   E 0x74 None 0 0 0 2635; E 0x79 None 0 0 0 2636; E 0x56 None 0 2637 0 2638;
   E 0x53 None 0 0 0 2653; E 0x65 None 0 0 0 2639; E 0x72 None 0 0 0 2640;
   E 0x79 None 0 0 0 2641; E 0x53 None 0 0 0 2642; E 0x6d None 0 0 0 2643;
   E 0x61 None 0 0 0 2644; E 0x6c None 0 0 0 2645; E 0x6c None 0 0 0 2646;
   E 0x53 None 0 0 0 2647; E 0x71 None 0 0 0 2648; E 0x75 None 0 0 0 2649;
   E 0x61 None 0 0 0 2650; E 0x72 None 0 0 0 2651; E 0x65 None 0 0 0 2652;
   E 0x3b (Some [0xe2; 0x96; 0xab]) 3 0 0 0; E 0x6d None 0 0 0 2654; E 0x61 None 0 0 0 2655;
   E 0x6c None 0 0 0 2656; E 0x6c None 0 0 0 2657; E 0x53 None 0 0 0 2658;
   E 0x71 None 0 0 0 2659; E 0x75 None 0 0 0 2660; E 0x61 None 0 0 0 2661;
   E 0x72 None 0 0 0 2662; E 0x65 None 0 0 0 2663; E 0x3b (Some [0xe2; 0x97; 0xbb]) 3 0 0 0;
   E 0x63 None 0 0 0 2665; E 0x72 None 0 0 0 2666; E 0x3b (Some [0xc4; 0x92]) 2 0 0 0;
   E 0x69 None 0 2668 0 2669; E 0x63 None 0 0 0 2671; E 0x6d None 0 0 0 2670;
   E 0x3b (Some [0xe2; 0xa9; 0xb3]) 3 0 0 0; E 0x72 None 0 0 0 2672;
   E 0x3b (Some [0xe2; 0x84; 0xb0]) 3 0 0 0; E 0x6f None 0 0 0 2674; E 0x74 None 0 0 0 2675;
   E 0x3b (Some [0xc4; 0x96]) 2 0 0 0; E 0x72 None 0 0 0 2677; E 0x61 None 0 0 0 2678;
   E 0x76 None 0 0 0 2679; E 0x65 (Some [0xc3; 0x88]) 2 0 0 2680;
   E 0x3b (Some [0xc3; 0x88]) 2 0 0 0; E 0x63 None 0 0 0 2682; E 0x75 None 0 0 0 2683;
   E 0x74 None 0 0 0 2684; E 0x65 (Some [0xc3; 0x89]) 2 0 0 2685;
   E 0x3b (Some [0xc3; 0x89]) 2 0 0 0; E 0x69 None 0 2688 2687 2689; E 0x79 None 0 0 0 2692;
   E 0x61 None 0 0 0 2693; E 0x72 None 0 0 0 2690; E 0x63 (Some [0xc3; 0x8a]) 2 0 0 2691;
   E 0x3b (Some [0xc3; 0x8a]) 2 0 0 0; E 0x3b (Some [0xd0; 0xad]) 2 0 0 0;
   E 0x72 None 0 0 0 2694; E 0x6f None 0 0 0 2695; E 0x6e None 0 0 0 2696;
   E 0x3b (Some [0xc4; 0x9a]) 2 0 0 0; E 0x48 (Some [0xc3; 0x90]) 2 0 0 2698;
   E 0x3b (Some [0xc3; 0x90]) 2 0 0 0; E 0x47 None 0 0 0 2700;
   E 0x3b (Some [0xc5; 0x8a]) 2 0 0 0; E 0x65 None 0 0 0 2702; E 0x6d None 0 0 0 2703;
   E 0x65 None 0 0 0 2704; E 0x6e None 0 0 0 2705; E 0x74 None 0 0 0 2706;
   E 0x3b (Some [0xe2; 0x88; 0x88]) 3 0 0 0; E 0x72 None 0 0 0 2708;
   E 0x3b (Some [0xf0; 0x9d; 0x94; 0x88]) 4 0 0 0; E 0x6d None 0 0 0 2710;
   E 0x6c (Some [0xc3; 0x8b]) 2 0 0 2711; E 0x3b (Some [0xc3; 0x8b]) 2 0 0 0;
   E 0x73 None 0 0 0 2713; E 0x69 None 0 0 0 2714; E 0x6c None 0 0 0 2715;
   E 0x6f None 0 0 0 2716; E 0x6e None 0 0 0 2717; E 0x3b (Some [0xce; 0x95]) 2 0 0 0;
   E 0x75 None 0 0 0 2719; E 0x69 None 0 2720 0 2721; E 0x61 None 0 0 0 2729;
   E 0x6c None 0 0 0 2722; E 0x69 None 0 0 0 2723; E 0x62 None 0 0 0 2724;
   E 0x72 None 0 0 0 2725; E 0x69 None 0 0 0 2726; E 0x75 None 0 0 0 2727;
   E 0x6d None 0 0 0 2728; E 0x3b (Some [0xe2; 0x87; 0x8c]) 3 0 0 0; E 0x6c None 0 0 0 2730;
   E 0x54 None 0 2731 0 2732; E 0x3b (Some [0xe2; 0xa9; 0xb5]) 3 0 0 0; E 0x69 None 0 0 0 2733;
   E 0x6c None 0 0 0 2734; E 0x64 None 0 0 0 2735; E 0x65 None 0 0 0 2736;
   E 0x3b (Some [0xe2; 0x89; 0x82]) 3 0 0 0; E 0x70 None 0 2738 0 2739; E 0x67 None 0 0 0 2741;
   E 0x66 None 0 0 0 2740; E 0x3b (Some [0xf0; 0x9d; 0x94; 0xbc]) 4 0 0 0;
   E 0x6f None 0 0 0 2742; E 0x6e None 0 0 0 2743; E 0x3b (Some [0xc4; 0x98]) 2 0 0 0;
   E 0x70 None 0 2745 0 2746; E 0x69 None 0 0 0 2756; E 0x6f None 0 0 0 2747;
   E 0x6e None 0 0 0 2748; E 0x65 None 0 0 0 2749; E 0x6e None 0 0 0 2750;
   E 0x74 None 0 0 0 2751; E 0x69 None 0 0 0 2752; E 0x61 None 0 0 0 2753;
   E 0x6c None 0 0 0 2754; E 0x45 None 0 0 0 2755; E 0x3b (Some [0xe2; 0x85; 0x87]) 3 0 0 0;
   E 0x73 None 0 0 0 2757; E 0x74 None 0 0 0 2758; E 0x73 None 0 0 0 2759;
   E 0x3b (Some [0xe2; 0x88; 0x83]) 3 0 0 0; E 0x61 None 0 0 0 2761;
   E 0x3b (Some [0xce; 0x97]) 2 0 0 0; E 0x69 None 0 2764 2763 2770;
   E 0x73 None 0 2769 2768 2778; E 0x65 None 0 2766 2765 2781; E 0x66 None 0 0 0 2799;
   E 0x63 None 0 2767 0 2801; E 0x61 None 0 0 0 2803; E 0x75 None 0 0 0 2805;
   E 0x6f None 0 0 0 2806; E 0x6e None 0 0 0 2771; E 0x75 None 0 0 0 2772;
   E 0x73 None 0 0 0 2773; E 0x50 None 0 0 0 2774; E 0x6c None 0 0 0 2775;
   E 0x75 None 0 0 0 2776; E 0x73 None 0 0 0 2777; E 0x3b (Some [0xe2; 0x88; 0x93]) 3 0 0 0;
   E 0x63 None 0 0 0 2779; E 0x72 None 0 0 0 2780; E 0x3b (Some [0xe2; 0x84; 0xb3]) 3 0 0 0;
   E 0x6c None 0 2782 0 2783; E 0x64 None 0 0 0 2790; E 0x6c None 0 0 0 2784;
   E 0x69 None 0 0 0 2785; E 0x6e None 0 0 0 2786; E 0x74 None 0 0 0 2787;
   E 0x72 None 0 0 0 2788; E 0x66 None 0 0 0 2789; E 0x3b (Some [0xe2; 0x84; 0xb3]) 3 0 0 0;
   E 0x69 None 0 0 0 2791; E 0x75 None 0 0 0 2792; E 0x6d None 0 0 0 2793;
   E 0x53 None 0 0 0 2794; E 0x70 None 0 0 0 2795; E 0x61 None 0 0 0 2796;
   E 0x63 None 0 0 0 2797; E 0x65 None 0 0 0 2798; E 0x3b (Some [0xe2; 0x81; 0x9f]) 3 0 0 0;
   E 0x72 None 0 0 0 2800; E 0x3b (Some [0xf0; 0x9d; 0x94; 0x90]) 4 0 0 0;
   E 0x79 None 0 0 0 2802; E 0x3b (Some [0xd0; 0x9c]) 2 0 0 0; E 0x70 None 0 0 0 2804;
   E 0x3b (Some [0xe2; 0xa4; 0x85]) 3 0 0 0; E 0x3b (Some [0xce; 0x9c]) 2 0 0 0;
   E 0x70 None 0 0 0 2807; E 0x66 None 0 0 0 2808;
   E 0x3b (Some [0xf0; 0x9d; 0x95; 0x84]) 4 0 0 0; E 0x67 None 0 2811 2810 2823;
   E 0x73 None 0 2819 2818 2828; E 0x61 None 0 2813 2812 2831; E 0x64 None 0 2817 2816 2836;
   E 0x4a None 0 2815 2814 2839; E 0x4f None 0 0 0 2843; E 0x45 None 0 0 0 2846;
   E 0x66 None 0 0 0 2849; E 0x63 None 0 0 0 2851; E 0x75 None 0 2822 0 2857;
   E 0x6e None 0 2821 2820 2864; E 0x6f None 0 0 0 2900; E 0x6d None 0 0 0 2910;
   E 0x74 None 0 0 0 2929; E 0x72 None 0 0 0 2824; E 0x61 None 0 0 0 2825;
   E 0x76 None 0 0 0 2826; E 0x65 (Some [0xc3; 0x8c]) 2 0 0 2827;
   E 0x3b (Some [0xc3; 0x8c]) 2 0 0 0; E 0x63 None 0 0 0 2829; E 0x72 None 0 0 0 2830;
   E 0x3b (Some [0xe2; 0x84; 0x90]) 3 0 0 0; E 0x63 None 0 0 0 2832; E 0x75 None 0 0 0 2833;
   E 0x74 None 0 0 0 2834; E 0x65 (Some [0xc3; 0x8d]) 2 0 0 2835;
   E 0x3b (Some [0xc3; 0x8d]) 2 0 0 0; E 0x6f None 0 0 0 2837; E 0x74 None 0 0 0 2838;
   E 0x3b (Some [0xc4; 0xb0]) 2 0 0 0; E 0x6c None 0 0 0 2840; E 0x69 None 0 0 0 2841;
   E 0x67 None 0 0 0 2842; E 0x3b (Some [0xc4; 0xb2]) 2 0 0 0; E 0x63 None 0 0 0 2844;
   E 0x79 None 0 0 0 2845; E 0x3b (Some [0xd0; 0x81]) 2 0 0 0; E 0x63 None 0 0 0 2847;
   E 0x79 None 0 0 0 2848; E 0x3b (Some [0xd0; 0x95]) 2 0 0 0; E 0x72 None 0 0 0 2850;
   E 0x3b (Some [0xe2; 0x84; 0x91]) 3 0 0 0; E 0x79 None 0 2852 0 2853; E 0x69 None 0 0 0 2854;
   E 0x3b (Some [0xd0; 0x98]) 2 0 0 0; E 0x72 None 0 0 0 2855;
   E 0x63 (Some [0xc3; 0x8e]) 2 0 0 2856; E 0x3b (Some [0xc3; 0x8e]) 2 0 0 0;
   E 0x6d None 0 2858 0 2859; E 0x6b None 0 0 0 2861; E 0x6c (Some [0xc3; 0x8f]) 2 0 0 2860;
   E 0x3b (Some [0xc3; 0x8f]) 2 0 0 0; E 0x63 None 0 0 0 2862; E 0x79 None 0 0 0 2863;
   E 0x3b (Some [0xd0; 0x86]) 2 0 0 0; E 0x76 None 0 2865 0 2866; E 0x74 None 0 0 0 2884;
   E 0x69 None 0 0 0 2867; E 0x73 None 0 0 0 2868; E 0x69 None 0 0 0 2869;
   E 0x62 None 0 0 0 2870; E 0x6c None 0 0 0 2871; E 0x65 None 0 0 0 2872;
   E 0x54 None 0 2873 0 2874; E 0x43 None 0 0 0 2879; E 0x69 None 0 0 0 2875;
   E 0x6d None 0 0 0 2876; E 0x65 None 0 0 0 2877; E 0x73 None 0 0 0 2878;
   E 0x3b (Some [0xe2; 0x81; 0xa2]) 3 0 0 0; E 0x6f None 0 0 0 2880; E 0x6d None 0 0 0 2881;
   E 0x6d None 0 0 0 2882; E 0x61 None 0 0 0 2883; E 0x3b (Some [0xe2; 0x81; 0xa3]) 3 0 0 0;
   E 0x65 None 0 2885 0 2886; E 0x3b (Some [0xe2; 0x88; 0xac]) 3 0 0 0;
   E 0x72 None 0 2887 0 2888; E 0x67 None 0 0 0 2896; E 0x73 None 0 0 0 2889;
   E 0x65 None 0 0 0 2890; E 0x63 None 0 0 0 2891; E 0x74 None 0 0 0 2892;
   E 0x69 None 0 0 0 2893; E 0x6f None 0 0 0 2894; E 0x6e None 0 0 0 2895;
   E 0x3b (Some [0xe2; 0x8b; 0x82]) 3 0 0 0; E 0x72 None 0 0 0 2897; E 0x61 None 0 0 0 2898;
   E 0x6c None 0 0 0 2899; E 0x3b (Some [0xe2; 0x88; 0xab]) 3 0 0 0;
   E 0x70 None 0 2902 2901 2903; E 0x74 None 0 0 0 2905; E 0x67 None 0 0 0 2907;
   E 0x66 None 0 0 0 2904; E 0x3b (Some [0xf0; 0x9d; 0x95; 0x80]) 4 0 0 0;
   E 0x61 None 0 0 0 2906; E 0x3b (Some [0xce; 0x99]) 2 0 0 0; E 0x6f None 0 0 0 2908;
   E 0x6e None 0 0 0 2909; E 0x3b (Some [0xc4; 0xae]) 2 0 0 0; E 0x61 None 0 2912 2911 2913;
   E 0x70 None 0 0 0 2924; E 0x3b (Some [0xe2; 0x84; 0x91]) 3 0 0 0; E 0x67 None 0 2914 0 2915;
   E 0x63 None 0 0 0 2922; E 0x69 None 0 0 0 2916; E 0x6e None 0 0 0 2917;
   E 0x61 None 0 0 0 2918; E 0x72 None 0 0 0 2919; E 0x79 None 0 0 0 2920;
   E 0x49 None 0 0 0 2921; E 0x3b (Some [0xe2; 0x85; 0x88]) 3 0 0 0; E 0x72 None 0 0 0 2923;
   E 0x3b (Some [0xc4; 0xaa]) 2 0 0 0; E 0x6c None 0 0 0 2925; E 0x69 None 0 0 0 2926;
   E 0x65 None 0 0 0 2927; E 0x73 None 0 0 0 2928; E 0x3b (Some [0xe2; 0x87; 0x92]) 3 0 0 0;
   E 0x69 None 0 0 0 2930; E 0x6c None 0 0 0 2931; E 0x64 None 0 0 0 2932;
   E 0x65 None 0 0 0 2933; E 0x3b (Some [0xc4; 0xa8]) 2 0 0 0; E 0x6f None 0 2936 2935 2939;
   E 0x75 None 0 2938 0 2942; E 0x66 None 0 2937 0 2946; E 0x63 None 0 0 0 2948;
   E 0x73 None 0 0 0 2954; E 0x70 None 0 0 0 2940; E 0x66 None 0 0 0 2941;
   E 0x3b (Some [0xf0; 0x9d; 0x95; 0x81]) 4 0 0 0; E 0x6b None 0 0 0 2943;
   E 0x63 None 0 0 0 2944; E 0x79 None 0 0 0 2945; E 0x3b (Some [0xd0; 0x84]) 2 0 0 0;
   E 0x72 None 0 0 0 2947; E 0x3b (Some [0xf0; 0x9d; 0x94; 0x8d]) 4 0 0 0;
   E 0x79 None 0 2949 0 2950; E 0x69 None 0 0 0 2951; E 0x3b (Some [0xd0; 0x99]) 2 0 0 0;
   E 0x72 None 0 0 0 2952; E 0x63 None 0 0 0 2953; E 0x3b (Some [0xc4; 0xb4]) 2 0 0 0;
   E 0x65 None 0 2955 0 2956; E 0x63 None 0 0 0 2960; E 0x72 None 0 0 0 2957;
   E 0x63 None 0 0 0 2958; E 0x79 None 0 0 0 2959; E 0x3b (Some [0xd0; 0x88]) 2 0 0 0;
   E 0x72 None 0 0 0 2961; E 0x3b (Some [0xf0; 0x9d; 0x92; 0xa5]) 4 0 0 0;
   E 0x69 None 0 2964 2963 2970; E 0x73 None 0 2969 2968 2981; E 0x63 None 0 2966 2965 2989;
   E 0x66 None 0 0 0 2993; E 0x61 None 0 2967 0 2995; E 0x41 None 0 0 0 3001;
   E 0x75 None 0 0 0 3006; E 0x6f None 0 0 0 3023; E 0x6c None 0 0 0 2971;
   E 0x62 None 0 0 0 2972; E 0x65 None 0 0 0 2973; E 0x72 None 0 0 0 2974;
   E 0x74 None 0 0 0 2975; E 0x53 None 0 0 0 2976; E 0x70 None 0 0 0 2977;
   E 0x61 None 0 0 0 2978; E 0x63 None 0 0 0 2979; E 0x65 None 0 0 0 2980;
   E 0x3b (Some [0xe2; 0x84; 0x8b]) 3 0 0 0; E 0x74 None 0 2982 0 2983; E 0x63 None 0 0 0 2987;
   E 0x72 None 0 0 0 2984; E 0x6f None 0 0 0 2985; E 0x6b None 0 0 0 2986;
   E 0x3b (Some [0xc4; 0xa6]) 2 0 0 0; E 0x72 None 0 0 0 2988;
   E 0x3b (Some [0xe2; 0x84; 0x8b]) 3 0 0 0; E 0x69 None 0 0 0 2990; E 0x72 None 0 0 0 2991;
   E 0x63 None 0 0 0 2992; E 0x3b (Some [0xc4; 0xa4]) 2 0 0 0; E 0x72 None 0 0 0 2994;
   E 0x3b (Some [0xe2; 0x84; 0x8c]) 3 0 0 0; E 0x74 None 0 2996 0 2997; E 0x63 None 0 0 0 2998;
   E 0x3b (Some [0x5e]) 1 0 0 0; E 0x65 None 0 0 0 2999; E 0x6b None 0 0 0 3000].

Definition entities_6 : list sbst_entry :=
  [E 0x3b (Some [0xcb; 0x87]) 2 0 0 0; E 0x52 None 0 0 0 3002; E 0x44 None 0 0 0 3003;
   E 0x63 None 0 0 0 3004; E 0x79 None 0 0 0 3005; E 0x3b (Some [0xd0; 0xaa]) 2 0 0 0;
   E 0x6d None 0 0 0 3007; E 0x70 None 0 0 0 3008; E 0x45 None 0 3009 0 3010;
   E 0x44 None 0 0 0 3015; E 0x71 None 0 0 0 3011; E 0x75 None 0 0 0 3012;
   E 0x61 None 0 0 0 3013; E 0x6c None 0 0 0 3014; E 0x3b (Some [0xe2; 0x89; 0x8f]) 3 0 0 0;
   E 0x6f None 0 0 0 3016; E 0x77 None 0 0 0 3017; E 0x6e None 0 0 0 3018;
   E 0x48 None 0 0 0 3019; E 0x75 None 0 0 0 3020; E 0x6d None 0 0 0 3021;
   E 0x70 None 0 0 0 3022; E 0x3b (Some [0xe2; 0x89; 0x8e]) 3 0 0 0; E 0x72 None 0 3024 0 3025;
   E 0x70 None 0 0 0 3037; E 0x69 None 0 0 0 3026; E 0x7a None 0 0 0 3027;
   E 0x6f None 0 0 0 3028; E 0x6e None 0 0 0 3029; E 0x74 None 0 0 0 3030;
   E 0x61 None 0 0 0 3031; E 0x6c None 0 0 0 3032; E 0x4c None 0 0 0 3033;
   E 0x69 None 0 0 0 3034; E 0x6e None 0 0 0 3035; E 0x65 None 0 0 0 3036;
   E 0x3b (Some [0xe2; 0x94; 0x80]) 3 0 0 0; E 0x66 None 0 0 0 3038;
   E 0x3b (Some [0xe2; 0x84; 0x8d]) 3 0 0 0; E 0x66 None 0 3041 3040 3050;
   E 0x6f None 0 3047 3046 3052; E 0x61 None 0 3043 3042 3145; E 0x65 None 0 3045 0 3170;
   E 0x54 (Some [0x3c]) 1 3044 0 3426; E 0x4a None 0 0 0 3427; E 0x63 None 0 0 0 3430;
   E 0x74 None 0 3049 0 3442; E 0x6d None 0 3048 0 3443; E 0x6c None 0 0 0 3448;
   E 0x73 None 0 0 0 3458; E 0x72 None 0 0 0 3051;
   E 0x3b (Some [0xf0; 0x9d; 0x94; 0x8f]) 4 0 0 0; E 0x70 None 0 3054 3053 3055;
   E 0x77 None 0 0 0 3057; E 0x6e None 0 0 0 3080; E 0x66 None 0 0 0 3056;
   E 0x3b (Some [0xf0; 0x9d; 0x95; 0x83]) 4 0 0 0; E 0x65 None 0 0 0 3058;
   E 0x72 None 0 0 0 3059; E 0x52 None 0 3060 0 3061; E 0x4c None 0 0 0 3071;
   E 0x69 None 0 0 0 3062; E 0x67 None 0 0 0 3063; E 0x68 None 0 0 0 3064;
   E 0x74 None 0 0 0 3065; E 0x41 None 0 0 0 3066; E 0x72 None 0 0 0 3067;
   E 0x72 None 0 0 0 3068; E 0x6f None 0 0 0 3069; E 0x77 None 0 0 0 3070;
   E 0x3b (Some [0xe2; 0x86; 0x98]) 3 0 0 0; E 0x65 None 0 0 0 3072; E 0x66 None 0 0 0 3073;
   E 0x74 None 0 0 0 3074; E 0x41 None 0 0 0 3075; E 0x72 None 0 0 0 3076;
   E 0x72 None 0 0 0 3077; E 0x6f None 0 0 0 3078; E 0x77 None 0 0 0 3079;
   E 0x3b (Some [0xe2; 0x86; 0x99]) 3 0 0 0; E 0x67 None 0 0 0 3081;
   E 0x6c None 0 3083 3082 3085; E 0x72 None 0 0 0 3105; E 0x52 None 0 3084 0 3115;
   E 0x4c None 0 0 0 3125; E 0x65 None 0 0 0 3086; E 0x66 None 0 0 0 3087;
   E 0x74 None 0 0 0 3088; E 0x72 None 0 3089 0 3090; E 0x61 None 0 0 0 3100;
   E 0x69 None 0 0 0 3091; E 0x67 None 0 0 0 3092; E 0x68 None 0 0 0 3093;
   E 0x74 None 0 0 0 3094; E 0x61 None 0 0 0 3095; E 0x72 None 0 0 0 3096;
   E 0x72 None 0 0 0 3097; E 0x6f None 0 0 0 3098; E 0x77 None 0 0 0 3099;
   E 0x3b (Some [0xe2; 0x9f; 0xba]) 3 0 0 0; E 0x72 None 0 0 0 3101; E 0x72 None 0 0 0 3102;
   E 0x6f None 0 0 0 3103; E 0x77 None 0 0 0 3104; E 0x3b (Some [0xe2; 0x9f; 0xb8]) 3 0 0 0;
   E 0x69 None 0 0 0 3106; E 0x67 None 0 0 0 3107; E 0x68 None 0 0 0 3108;
   E 0x74 None 0 0 0 3109; E 0x61 None 0 0 0 3110; E 0x72 None 0 0 0 3111;
   E 0x72 None 0 0 0 3112; E 0x6f None 0 0 0 3113; E 0x77 None 0 0 0 3114;
   E 0x3b (Some [0xe2; 0x9f; 0xb9]) 3 0 0 0; E 0x69 None 0 0 0 3116; E 0x67 None 0 0 0 3117;
   E 0x68 None 0 0 0 3118; E 0x74 None 0 0 0 3119; E 0x41 None 0 0 0 3120;
   E 0x72 None 0 0 0 3121; E 0x72 None 0 0 0 3122; E 0x6f None 0 0 0 3123;
   E 0x77 None 0 0 0 3124; E 0x3b (Some [0xe2; 0x9f; 0xb6]) 3 0 0 0; E 0x65 None 0 0 0 3126;
   E 0x66 None 0 0 0 3127; E 0x74 None 0 0 0 3128; E 0x52 None 0 3129 0 3130;
   E 0x41 None 0 0 0 3140; E 0x69 None 0 0 0 3131; E 0x67 None 0 0 0 3132;
   E 0x68 None 0 0 0 3133; E 0x74 None 0 0 0 3134; E 0x41 None 0 0 0 3135;
   E 0x72 None 0 0 0 3136; E 0x72 None 0 0 0 3137; E 0x6f None 0 0 0 3138;
   E 0x77 None 0 0 0 3139; E 0x3b (Some [0xe2; 0x9f; 0xb7]) 3 0 0 0; E 0x72 None 0 0 0 3141;
   E 0x72 None 0 0 0 3142; E 0x6f None 0 0 0 3143; E 0x77 None 0 0 0 3144;
   E 0x3b (Some [0xe2; 0x9f; 0xb5]) 3 0 0 0; E 0x6e None 0 3147 3146 3150;
   E 0x72 None 0 3149 0 3152; E 0x6d None 0 3148 0 3154; E 0x63 None 0 0 0 3158;
   E 0x70 None 0 0 0 3162; E 0x67 None 0 0 0 3151; E 0x3b (Some [0xe2; 0x9f; 0xaa]) 3 0 0 0;
   E 0x72 None 0 0 0 3153; E 0x3b (Some [0xe2; 0x86; 0x9e]) 3 0 0 0; E 0x62 None 0 0 0 3155;
   E 0x64 None 0 0 0 3156; E 0x61 None 0 0 0 3157; E 0x3b (Some [0xce; 0x9b]) 2 0 0 0;
   E 0x75 None 0 0 0 3159; E 0x74 None 0 0 0 3160; E 0x65 None 0 0 0 3161;
   E 0x3b (Some [0xc4; 0xb9]) 2 0 0 0; E 0x6c None 0 0 0 3163; E 0x61 None 0 0 0 3164;
   E 0x63 None 0 0 0 3165; E 0x65 None 0 0 0 3166; E 0x74 None 0 0 0 3167;
   E 0x72 None 0 0 0 3168; E 0x66 None 0 0 0 3169; E 0x3b (Some [0xe2; 0x84; 0x92]) 3 0 0 0;
   E 0x73 None 0 3171 0 3172; E 0x66 None 0 0 0 3226; E 0x73 None 0 0 0 3173;
   E 0x4c None 0 3175 3174 3179; E 0x54 None 0 3178 0 3183; E 0x46 None 0 3177 3176 3188;
   E 0x47 None 0 0 0 3197; E 0x45 None 0 0 0 3204; E 0x53 None 0 0 0 3216;
   E 0x65 None 0 0 0 3180; E 0x73 None 0 0 0 3181; E 0x73 None 0 0 0 3182;
   E 0x3b (Some [0xe2; 0xaa; 0xa1]) 3 0 0 0; E 0x69 None 0 0 0 3184; E 0x6c None 0 0 0 3185;
   E 0x64 None 0 0 0 3186; E 0x65 None 0 0 0 3187; E 0x3b (Some [0xe2; 0x89; 0xb2]) 3 0 0 0;
   E 0x75 None 0 0 0 3189; E 0x6c None 0 0 0 3190; E 0x6c None 0 0 0 3191;
   E 0x45 None 0 0 0 3192; E 0x71 None 0 0 0 3193; E 0x75 None 0 0 0 3194;
   E 0x61 None 0 0 0 3195; E 0x6c None 0 0 0 3196; E 0x3b (Some [0xe2; 0x89; 0xa6]) 3 0 0 0;
   E 0x72 None 0 0 0 3198; E 0x65 None 0 0 0 3199; E 0x61 None 0 0 0 3200;
   E 0x74 None 0 0 0 3201; E 0x65 None 0 0 0 3202; E 0x72 None 0 0 0 3203;
   E 0x3b (Some [0xe2; 0x89; 0xb6]) 3 0 0 0; E 0x71 None 0 0 0 3205; E 0x75 None 0 0 0 3206;
   E 0x61 None 0 0 0 3207; E 0x6c None 0 0 0 3208; E 0x47 None 0 0 0 3209;
   E 0x72 None 0 0 0 3210; E 0x65 None 0 0 0 3211; E 0x61 None 0 0 0 3212;
   E 0x74 None 0 0 0 3213; E 0x65 None 0 0 0 3214; E 0x72 None 0 0 0 3215;
   E 0x3b (Some [0xe2; 0x8b; 0x9a]) 3 0 0 0; E 0x6c None 0 0 0 3217; E 0x61 None 0 0 0 3218;
   E 0x6e None 0 0 0 3219; E 0x74 None 0 0 0 3220; E 0x45 None 0 0 0 3221;
   E 0x71 None 0 0 0 3222; E 0x75 None 0 0 0 3223; E 0x61 None 0 0 0 3224;
   E 0x6c None 0 0 0 3225; E 0x3b (Some [0xe2; 0xa9; 0xbd]) 3 0 0 0; E 0x74 None 0 0 0 3227;
   E 0x54 None 0 3229 3228 3237; E 0x61 None 0 3235 3234 3271; E 0x44 None 0 3231 3230 3276;
   E 0x52 None 0 3233 0 3312; E 0x43 None 0 3232 0 3329; E 0x41 None 0 0 0 3336;
   E 0x46 None 0 0 0 3368; E 0x72 None 0 0 0 3373; E 0x56 None 0 3236 0 3383;
   E 0x55 None 0 0 0 3393; E 0x72 None 0 3238 0 3239; E 0x65 None 0 0 0 3256;
   E 0x69 None 0 0 0 3240; E 0x61 None 0 0 0 3241; E 0x6e None 0 0 0 3242;
   E 0x67 None 0 0 0 3243; E 0x6c None 0 0 0 3244; E 0x65 None 0 0 0 3245;
   E 0x42 None 0 3247 3246 3248; E 0x45 None 0 0 0 3251;
   E 0x3b (Some [0xe2; 0x8a; 0xb2]) 3 0 0 0; E 0x61 None 0 0 0 3249; E 0x72 None 0 0 0 3250;
   E 0x3b (Some [0xe2; 0xa7; 0x8f]) 3 0 0 0; E 0x71 None 0 0 0 3252; E 0x75 None 0 0 0 3253;
   E 0x61 None 0 0 0 3254; E 0x6c None 0 0 0 3255; E 0x3b (Some [0xe2; 0x8a; 0xb4]) 3 0 0 0;
   E 0x65 None 0 0 0 3257; E 0x41 None 0 3259 3258 3260; E 0x56 None 0 0 0 3265;
   E 0x3b (Some [0xe2; 0x8a; 0xa3]) 3 0 0 0; E 0x72 None 0 0 0 3261; E 0x72 None 0 0 0 3262;
   E 0x6f None 0 0 0 3263; E 0x77 None 0 0 0 3264; E 0x3b (Some [0xe2; 0x86; 0xa4]) 3 0 0 0;
   E 0x65 None 0 0 0 3266; E 0x63 None 0 0 0 3267; E 0x74 None 0 0 0 3268;
   E 0x6f None 0 0 0 3269; E 0x72 None 0 0 0 3270; E 0x3b (Some [0xe2; 0xa5; 0x9a]) 3 0 0 0;
   E 0x72 None 0 0 0 3272; E 0x72 None 0 0 0 3273; E 0x6f None 0 0 0 3274;
   E 0x77 None 0 0 0 3275; E 0x3b (Some [0xe2; 0x87; 0x90]) 3 0 0 0; E 0x6f None 0 0 0 3277;
   E 0x77 None 0 3278 0 3279; E 0x75 None 0 0 0 3301; E 0x6e None 0 0 0 3280;
   E 0x56 None 0 3281 0 3282; E 0x54 None 0 0 0 3292; E 0x65 None 0 0 0 3283;
   E 0x63 None 0 0 0 3284; E 0x74 None 0 0 0 3285; E 0x6f None 0 0 0 3286;
   E 0x72 None 0 0 0 3287; E 0x42 None 0 3288 0 3289; E 0x3b (Some [0xe2; 0x87; 0x83]) 3 0 0 0;
   E 0x61 None 0 0 0 3290; E 0x72 None 0 0 0 3291; E 0x3b (Some [0xe2; 0xa5; 0x99]) 3 0 0 0;
   E 0x65 None 0 0 0 3293; E 0x65 None 0 0 0 3294; E 0x56 None 0 0 0 3295;
   E 0x65 None 0 0 0 3296; E 0x63 None 0 0 0 3297; E 0x74 None 0 0 0 3298;
   E 0x6f None 0 0 0 3299; E 0x72 None 0 0 0 3300; E 0x3b (Some [0xe2; 0xa5; 0xa1]) 3 0 0 0;
   E 0x62 None 0 0 0 3302; E 0x6c None 0 0 0 3303; E 0x65 None 0 0 0 3304;
   E 0x42 None 0 0 0 3305; E 0x72 None 0 0 0 3306; E 0x61 None 0 0 0 3307;
   E 0x63 None 0 0 0 3308; E 0x6b None 0 0 0 3309; E 0x65 None 0 0 0 3310;
   E 0x74 None 0 0 0 3311; E 0x3b (Some [0xe2; 0x9f; 0xa6]) 3 0 0 0; E 0x69 None 0 0 0 3313;
   E 0x67 None 0 0 0 3314; E 0x68 None 0 0 0 3315; E 0x74 None 0 0 0 3316;
   E 0x56 None 0 3317 0 3318; E 0x41 None 0 0 0 3324; E 0x65 None 0 0 0 3319;
   E 0x63 None 0 0 0 3320; E 0x74 None 0 0 0 3321; E 0x6f None 0 0 0 3322;
   E 0x72 None 0 0 0 3323; E 0x3b (Some [0xe2; 0xa5; 0x8e]) 3 0 0 0; E 0x72 None 0 0 0 3325;
   E 0x72 None 0 0 0 3326; E 0x6f None 0 0 0 3327; E 0x77 None 0 0 0 3328;
   E 0x3b (Some [0xe2; 0x86; 0x94]) 3 0 0 0; E 0x65 None 0 0 0 3330; E 0x69 None 0 0 0 3331;
   E 0x6c None 0 0 0 3332; E 0x69 None 0 0 0 3333; E 0x6e None 0 0 0 3334;
   E 0x67 None 0 0 0 3335; E 0x3b (Some [0xe2; 0x8c; 0x88]) 3 0 0 0; E 0x72 None 0 3337 0 3338;
   E 0x6e None 0 0 0 3357; E 0x72 None 0 0 0 3339; E 0x6f None 0 0 0 3340;
   E 0x77 None 0 0 0 3341; E 0x42 None 0 3343 3342 3344; E 0x52 None 0 0 0 3347;
   E 0x3b (Some [0xe2; 0x86; 0x90]) 3 0 0 0; E 0x61 None 0 0 0 3345; E 0x72 None 0 0 0 3346;
   E 0x3b (Some [0xe2; 0x87; 0xa4]) 3 0 0 0; E 0x69 None 0 0 0 3348; E 0x67 None 0 0 0 3349;
   E 0x68 None 0 0 0 3350; E 0x74 None 0 0 0 3351; E 0x41 None 0 0 0 3352;
   E 0x72 None 0 0 0 3353; E 0x72 None 0 0 0 3354; E 0x6f None 0 0 0 3355;
   E 0x77 None 0 0 0 3356; E 0x3b (Some [0xe2; 0x87; 0x86]) 3 0 0 0; E 0x67 None 0 0 0 3358;
   E 0x6c None 0 0 0 3359; E 0x65 None 0 0 0 3360; E 0x42 None 0 0 0 3361;
   E 0x72 None 0 0 0 3362; E 0x61 None 0 0 0 3363; E 0x63 None 0 0 0 3364;
   E 0x6b None 0 0 0 3365; E 0x65 None 0 0 0 3366; E 0x74 None 0 0 0 3367;
   E 0x3b (Some [0xe2; 0x9f; 0xa8]) 3 0 0 0; E 0x6c None 0 0 0 3369; E 0x6f None 0 0 0 3370;
   E 0x6f None 0 0 0 3371; E 0x72 None 0 0 0 3372; E 0x3b (Some [0xe2; 0x8c; 0x8a]) 3 0 0 0;
   E 0x69 None 0 0 0 3374; E 0x67 None 0 0 0 3375; E 0x68 None 0 0 0 3376;
   E 0x74 None 0 0 0 3377; E 0x61 None 0 0 0 3378; E 0x72 None 0 0 0 3379;
   E 0x72 None 0 0 0 3380; E 0x6f None 0 0 0 3381; E 0x77 None 0 0 0 3382;
   E 0x3b (Some [0xe2; 0x87; 0x94]) 3 0 0 0; E 0x65 None 0 0 0 3384; E 0x63 None 0 0 0 3385;
   E 0x74 None 0 0 0 3386; E 0x6f None 0 0 0 3387; E 0x72 None 0 0 0 3388;
   E 0x42 None 0 3389 0 3390; E 0x3b (Some [0xe2; 0x86; 0xbc]) 3 0 0 0; E 0x61 None 0 0 0 3391;
   E 0x72 None 0 0 0 3392; E 0x3b (Some [0xe2; 0xa5; 0x92]) 3 0 0 0; E 0x70 None 0 0 0 3394;
   E 0x54 None 0 3396 3395 3397; E 0x56 None 0 0 0 3406; E 0x44 None 0 0 0 3416;
   E 0x65 None 0 0 0 3398; E 0x65 None 0 0 0 3399; E 0x56 None 0 0 0 3400;
   E 0x65 None 0 0 0 3401; E 0x63 None 0 0 0 3402; E 0x74 None 0 0 0 3403;
   E 0x6f None 0 0 0 3404; E 0x72 None 0 0 0 3405; E 0x3b (Some [0xe2; 0xa5; 0xa0]) 3 0 0 0;
   E 0x65 None 0 0 0 3407; E 0x63 None 0 0 0 3408; E 0x74 None 0 0 0 3409;
   E 0x6f None 0 0 0 3410; E 0x72 None 0 0 0 3411; E 0x42 None 0 3412 0 3413;
   E 0x3b (Some [0xe2; 0x86; 0xbf]) 3 0 0 0; E 0x61 None 0 0 0 3414; E 0x72 None 0 0 0 3415;
   E 0x3b (Some [0xe2; 0xa5; 0x98]) 3 0 0 0; E 0x6f None 0 0 0 3417; E 0x77 None 0 0 0 3418;
   E 0x6e None 0 0 0 3419; E 0x56 None 0 0 0 3420; E 0x65 None 0 0 0 3421;
   E 0x63 None 0 0 0 3422; E 0x74 None 0 0 0 3423; E 0x6f None 0 0 0 3424;
   E 0x72 None 0 0 0 3425; E 0x3b (Some [0xe2; 0xa5; 0x91]) 3 0 0 0;
   E 0x3b (Some [0x3c]) 1 0 0 0; E 0x63 None 0 0 0 3428; E 0x79 None 0 0 0 3429;
   E 0x3b (Some [0xd0; 0x89]) 2 0 0 0; E 0x65 None 0 3432 3431 3433; E 0x79 None 0 0 0 3437;
   E 0x61 None 0 0 0 3438; E 0x64 None 0 0 0 3434; E 0x69 None 0 0 0 3435;
   E 0x6c None 0 0 0 3436; E 0x3b (Some [0xc4; 0xbb]) 2 0 0 0;
   E 0x3b (Some [0xd0; 0x9b]) 2 0 0 0; E 0x72 None 0 0 0 3439; E 0x6f None 0 0 0 3440;
   E 0x6e None 0 0 0 3441; E 0x3b (Some [0xc4; 0xbd]) 2 0 0 0;
   E 0x3b (Some [0xe2; 0x89; 0xaa]) 3 0 0 0; E 0x69 None 0 0 0 3444; E 0x64 None 0 0 0 3445;
   E 0x6f None 0 0 0 3446; E 0x74 None 0 0 0 3447; E 0x3b (Some [0xc4; 0xbf]) 2 0 0 0;
   E 0x65 None 0 3449 0 3450; E 0x3b (Some [0xe2; 0x8b; 0x98]) 3 0 0 0; E 0x66 None 0 0 0 3451;
   E 0x74 None 0 0 0 3452; E 0x61 None 0 0 0 3453; E 0x72 None 0 0 0 3454;
   E 0x72 None 0 0 0 3455; E 0x6f None 0 0 0 3456; E 0x77 None 0 0 0 3457;
   E 0x3b (Some [0xe2; 0x87; 0x9a]) 3 0 0 0; E 0x68 None 0 3460 3459 3461;
   E 0x74 None 0 0 0 3462; E 0x63 None 0 0 0 3466; E 0x3b (Some [0xe2; 0x86; 0xb0]) 3 0 0 0;
   E 0x72 None 0 0 0 3463; E 0x6f None 0 0 0 3464; E 0x6b None 0 0 0 3465;
   E 0x3b (Some [0xc5; 0x81]) 2 0 0 0; E 0x72 None 0 0 0 3467;
   E 0x3b (Some [0xe2; 0x84; 0x92]) 3 0 0 0; E 0x6f None 0 3470 3469 3472;
   E 0x73 None 0 0 0 3475; E 0x69 None 0 3471 0 3478; E 0x66 None 0 0 0 3479;
   E 0x70 None 0 0 0 3473; E 0x66 None 0 0 0 3474;
   E 0x3b (Some [0xf0; 0x9d; 0x95; 0x8f]) 4 0 0 0; E 0x63 None 0 0 0 3476;
   E 0x72 None 0 0 0 3477; E 0x3b (Some [0xf0; 0x9d; 0x92; 0xb3]) 4 0 0 0;
   E 0x3b (Some [0xce; 0x9e]) 2 0 0 0; E 0x72 None 0 0 0 3480;
   E 0x3b (Some [0xf0; 0x9d; 0x94; 0x9b]) 4 0 0 0; E 0x68 None 0 3483 3482 3493;
   E 0x72 None 0 3490 3489 3495; E 0x63 None 0 3485 3484 3505; E 0x66 None 0 3488 0 3517;
   E 0x45 None 0 3487 3486 3519; E 0x61 None 0 0 0 3521; E 0x42 None 0 0 0 3535;
   E 0x65 None 0 0 0 3539; E 0x75 None 0 3492 0 3578; E 0x6f None 0 3491 0 3588;
   E 0x69 None 0 0 0 3602; E 0x73 None 0 0 0 3774; E 0x6f None 0 0 0 3494;
   E 0x3b (Some [0xce; 0xa1]) 2 0 0 0; E 0x69 None 0 0 0 3496; E 0x67 None 0 0 0 3497;
   E 0x68 None 0 0 0 3498; E 0x74 None 0 0 0 3499; E 0x61 None 0 0 0 3500].

Definition entities_7 : list sbst_entry :=
  [E 0x72 None 0 0 0 3501; E 0x72 None 0 0 0 3502; E 0x6f None 0 0 0 3503;
   E 0x77 None 0 0 0 3504; E 0x3b (Some [0xe2; 0x87; 0x9b]) 3 0 0 0;
   E 0x65 None 0 3507 3506 3508; E 0x79 None 0 0 0 3512; E 0x61 None 0 0 0 3513;
   E 0x64 None 0 0 0 3509; E 0x69 None 0 0 0 3510; E 0x6c None 0 0 0 3511;
   E 0x3b (Some [0xc5; 0x96]) 2 0 0 0; E 0x3b (Some [0xd0; 0xa0]) 2 0 0 0;
   E 0x72 None 0 0 0 3514; E 0x6f None 0 0 0 3515; E 0x6e None 0 0 0 3516;
   E 0x3b (Some [0xc5; 0x98]) 2 0 0 0; E 0x72 None 0 0 0 3518;
   E 0x3b (Some [0xe2; 0x84; 0x9c]) 3 0 0 0; E 0x47 (Some [0xc2; 0xae]) 2 0 0 3520;
   E 0x3b (Some [0xc2; 0xae]) 2 0 0 0; E 0x6e None 0 3523 3522 3524; E 0x72 None 0 0 0 3526;
   E 0x63 None 0 0 0 3531; E 0x67 None 0 0 0 3525; E 0x3b (Some [0xe2; 0x9f; 0xab]) 3 0 0 0;
   E 0x72 None 0 0 0 3527; E 0x74 None 0 3528 0 3529; E 0x3b (Some [0xe2; 0x86; 0xa0]) 3 0 0 0;
   E 0x6c None 0 0 0 3530; E 0x3b (Some [0xe2; 0xa4; 0x96]) 3 0 0 0; E 0x75 None 0 0 0 3532;
   E 0x74 None 0 0 0 3533; E 0x65 None 0 0 0 3534; E 0x3b (Some [0xc5; 0x94]) 2 0 0 0;
   E 0x61 None 0 0 0 3536; E 0x72 None 0 0 0 3537; E 0x72 None 0 0 0 3538;
   E 0x3b (Some [0xe2; 0xa4; 0x90]) 3 0 0 0; E 0x76 None 0 3540 0 3541;
   E 0x3b (Some [0xe2; 0x84; 0x9c]) 3 0 0 0; E 0x65 None 0 0 0 3542; E 0x72 None 0 0 0 3543;
   E 0x73 None 0 0 0 3544; E 0x65 None 0 0 0 3545; E 0x55 None 0 3546 0 3547;
   E 0x45 None 0 0 0 3560; E 0x70 None 0 0 0 3548; E 0x45 None 0 0 0 3549;
   E 0x71 None 0 0 0 3550; E 0x75 None 0 0 0 3551; E 0x69 None 0 0 0 3552;
   E 0x6c None 0 0 0 3553; E 0x69 None 0 0 0 3554; E 0x62 None 0 0 0 3555;
   E 0x72 None 0 0 0 3556; E 0x69 None 0 0 0 3557; E 0x75 None 0 0 0 3558;
   E 0x6d None 0 0 0 3559; E 0x3b (Some [0xe2; 0xa5; 0xaf]) 3 0 0 0; E 0x71 None 0 3561 0 3562;
   E 0x6c None 0 0 0 3572; E 0x75 None 0 0 0 3563; E 0x69 None 0 0 0 3564;
   E 0x6c None 0 0 0 3565; E 0x69 None 0 0 0 3566; E 0x62 None 0 0 0 3567;
   E 0x72 None 0 0 0 3568; E 0x69 None 0 0 0 3569; E 0x75 None 0 0 0 3570;
   E 0x6d None 0 0 0 3571; E 0x3b (Some [0xe2; 0x87; 0x8b]) 3 0 0 0; E 0x65 None 0 0 0 3573;
   E 0x6d None 0 0 0 3574; E 0x65 None 0 0 0 3575; E 0x6e None 0 0 0 3576;
   E 0x74 None 0 0 0 3577; E 0x3b (Some [0xe2; 0x88; 0x8b]) 3 0 0 0; E 0x6c None 0 0 0 3579;
   E 0x65 None 0 0 0 3580; E 0x44 None 0 0 0 3581; E 0x65 None 0 0 0 3582;
   E 0x6c None 0 0 0 3583; E 0x61 None 0 0 0 3584; E 0x79 None 0 0 0 3585;
   E 0x65 None 0 0 0 3586; E 0x64 None 0 0 0 3587; E 0x3b (Some [0xe2; 0xa7; 0xb4]) 3 0 0 0;
   E 0x75 None 0 3589 0 3590; E 0x70 None 0 0 0 3600; E 0x6e None 0 0 0 3591;
   E 0x64 None 0 0 0 3592; E 0x49 None 0 0 0 3593; E 0x6d None 0 0 0 3594;
   E 0x70 None 0 0 0 3595; E 0x6c None 0 0 0 3596; E 0x69 None 0 0 0 3597;
   E 0x65 None 0 0 0 3598; E 0x73 None 0 0 0 3599; E 0x3b (Some [0xe2; 0xa5; 0xb0]) 3 0 0 0;
   E 0x66 None 0 0 0 3601; E 0x3b (Some [0xe2; 0x84; 0x9d]) 3 0 0 0; E 0x67 None 0 0 0 3603;
   E 0x68 None 0 0 0 3604; E 0x74 None 0 0 0 3605; E 0x54 None 0 3607 3606 3613;
   E 0x56 None 0 3612 3611 3647; E 0x44 None 0 3609 3608 3657; E 0x46 None 0 0 0 3693;
   E 0x43 None 0 3610 0 3698; E 0x41 None 0 0 0 3705; E 0x61 None 0 0 0 3736;
   E 0x55 None 0 0 0 3741; E 0x72 None 0 3614 0 3615; E 0x65 None 0 0 0 3632;
   E 0x69 None 0 0 0 3616; E 0x61 None 0 0 0 3617; E 0x6e None 0 0 0 3618;
   E 0x67 None 0 0 0 3619; E 0x6c None 0 0 0 3620; E 0x65 None 0 0 0 3621;
   E 0x42 None 0 3623 3622 3624; E 0x45 None 0 0 0 3627;
   E 0x3b (Some [0xe2; 0x8a; 0xb3]) 3 0 0 0; E 0x61 None 0 0 0 3625; E 0x72 None 0 0 0 3626;
   E 0x3b (Some [0xe2; 0xa7; 0x90]) 3 0 0 0; E 0x71 None 0 0 0 3628; E 0x75 None 0 0 0 3629;
   E 0x61 None 0 0 0 3630; E 0x6c None 0 0 0 3631; E 0x3b (Some [0xe2; 0x8a; 0xb5]) 3 0 0 0;
   E 0x65 None 0 0 0 3633; E 0x41 None 0 3635 3634 3636; E 0x56 None 0 0 0 3641;
   E 0x3b (Some [0xe2; 0x8a; 0xa2]) 3 0 0 0; E 0x72 None 0 0 0 3637; E 0x72 None 0 0 0 3638;
   E 0x6f None 0 0 0 3639; E 0x77 None 0 0 0 3640; E 0x3b (Some [0xe2; 0x86; 0xa6]) 3 0 0 0;
   E 0x65 None 0 0 0 3642; E 0x63 None 0 0 0 3643; E 0x74 None 0 0 0 3644;
   E 0x6f None 0 0 0 3645; E 0x72 None 0 0 0 3646; E 0x3b (Some [0xe2; 0xa5; 0x9b]) 3 0 0 0;
   E 0x65 None 0 0 0 3648; E 0x63 None 0 0 0 3649; E 0x74 None 0 0 0 3650;
   E 0x6f None 0 0 0 3651; E 0x72 None 0 0 0 3652; E 0x42 None 0 3653 0 3654;
   E 0x3b (Some [0xe2; 0x87; 0x80]) 3 0 0 0; E 0x61 None 0 0 0 3655; E 0x72 None 0 0 0 3656;
   E 0x3b (Some [0xe2; 0xa5; 0x93]) 3 0 0 0; E 0x6f None 0 0 0 3658; E 0x77 None 0 3659 0 3660;
   E 0x75 None 0 0 0 3682; E 0x6e None 0 0 0 3661; E 0x56 None 0 3662 0 3663;
   E 0x54 None 0 0 0 3673; E 0x65 None 0 0 0 3664; E 0x63 None 0 0 0 3665;
   E 0x74 None 0 0 0 3666; E 0x6f None 0 0 0 3667; E 0x72 None 0 0 0 3668;
   E 0x42 None 0 3669 0 3670; E 0x3b (Some [0xe2; 0x87; 0x82]) 3 0 0 0; E 0x61 None 0 0 0 3671;
   E 0x72 None 0 0 0 3672; E 0x3b (Some [0xe2; 0xa5; 0x95]) 3 0 0 0; E 0x65 None 0 0 0 3674;
   E 0x65 None 0 0 0 3675; E 0x56 None 0 0 0 3676; E 0x65 None 0 0 0 3677;
   E 0x63 None 0 0 0 3678; E 0x74 None 0 0 0 3679; E 0x6f None 0 0 0 3680;
   E 0x72 None 0 0 0 3681; E 0x3b (Some [0xe2; 0xa5; 0x9d]) 3 0 0 0; E 0x62 None 0 0 0 3683;
   E 0x6c None 0 0 0 3684; E 0x65 None 0 0 0 3685; E 0x42 None 0 0 0 3686;
   E 0x72 None 0 0 0 3687; E 0x61 None 0 0 0 3688; E 0x63 None 0 0 0 3689;
   E 0x6b None 0 0 0 3690; E 0x65 None 0 0 0 3691; E 0x74 None 0 0 0 3692;
   E 0x3b (Some [0xe2; 0x9f; 0xa7]) 3 0 0 0; E 0x6c None 0 0 0 3694; E 0x6f None 0 0 0 3695;
   E 0x6f None 0 0 0 3696; E 0x72 None 0 0 0 3697; E 0x3b (Some [0xe2; 0x8c; 0x8b]) 3 0 0 0;
   E 0x65 None 0 0 0 3699; E 0x69 None 0 0 0 3700; E 0x6c None 0 0 0 3701;
   E 0x69 None 0 0 0 3702; E 0x6e None 0 0 0 3703; E 0x67 None 0 0 0 3704;
   E 0x3b (Some [0xe2; 0x8c; 0x89]) 3 0 0 0; E 0x72 None 0 3706 0 3707; E 0x6e None 0 0 0 3725;
   E 0x72 None 0 0 0 3708; E 0x6f None 0 0 0 3709; E 0x77 None 0 0 0 3710;
   E 0x42 None 0 3712 3711 3713; E 0x4c None 0 0 0 3716;
   E 0x3b (Some [0xe2; 0x86; 0x92]) 3 0 0 0; E 0x61 None 0 0 0 3714; E 0x72 None 0 0 0 3715;
   E 0x3b (Some [0xe2; 0x87; 0xa5]) 3 0 0 0; E 0x65 None 0 0 0 3717; E 0x66 None 0 0 0 3718;
   E 0x74 None 0 0 0 3719; E 0x41 None 0 0 0 3720; E 0x72 None 0 0 0 3721;
   E 0x72 None 0 0 0 3722; E 0x6f None 0 0 0 3723; E 0x77 None 0 0 0 3724;
   E 0x3b (Some [0xe2; 0x87; 0x84]) 3 0 0 0; E 0x67 None 0 0 0 3726; E 0x6c None 0 0 0 3727;
   E 0x65 None 0 0 0 3728; E 0x42 None 0 0 0 3729; E 0x72 None 0 0 0 3730;
   E 0x61 None 0 0 0 3731; E 0x63 None 0 0 0 3732; E 0x6b None 0 0 0 3733;
   E 0x65 None 0 0 0 3734; E 0x74 None 0 0 0 3735; E 0x3b (Some [0xe2; 0x9f; 0xa9]) 3 0 0 0;
   E 0x72 None 0 0 0 3737; E 0x72 None 0 0 0 3738; E 0x6f None 0 0 0 3739;
   E 0x77 None 0 0 0 3740; E 0x3b (Some [0xe2; 0x87; 0x92]) 3 0 0 0; E 0x70 None 0 0 0 3742;
   E 0x54 None 0 3744 3743 3745; E 0x56 None 0 0 0 3754; E 0x44 None 0 0 0 3764;
   E 0x65 None 0 0 0 3746; E 0x65 None 0 0 0 3747; E 0x56 None 0 0 0 3748;
   E 0x65 None 0 0 0 3749; E 0x63 None 0 0 0 3750; E 0x74 None 0 0 0 3751;
   E 0x6f None 0 0 0 3752; E 0x72 None 0 0 0 3753; E 0x3b (Some [0xe2; 0xa5; 0x9c]) 3 0 0 0;
   E 0x65 None 0 0 0 3755; E 0x63 None 0 0 0 3756; E 0x74 None 0 0 0 3757;
   E 0x6f None 0 0 0 3758; E 0x72 None 0 0 0 3759; E 0x42 None 0 3760 0 3761;
   E 0x3b (Some [0xe2; 0x86; 0xbe]) 3 0 0 0; E 0x61 None 0 0 0 3762; E 0x72 None 0 0 0 3763;
   E 0x3b (Some [0xe2; 0xa5; 0x94]) 3 0 0 0; E 0x6f None 0 0 0 3765; E 0x77 None 0 0 0 3766;
   E 0x6e None 0 0 0 3767; E 0x56 None 0 0 0 3768; E 0x65 None 0 0 0 3769;
   E 0x63 None 0 0 0 3770; E 0x74 None 0 0 0 3771; E 0x6f None 0 0 0 3772;
   E 0x72 None 0 0 0 3773; E 0x3b (Some [0xe2; 0xa5; 0x8f]) 3 0 0 0; E 0x68 None 0 3775 0 3776;
   E 0x63 None 0 0 0 3777; E 0x3b (Some [0xe2; 0x86; 0xb1]) 3 0 0 0; E 0x72 None 0 0 0 3778;
   E 0x3b (Some [0xe2; 0x84; 0x9b]) 3 0 0 0; E 0x66 None 0 3781 3780 3790;
   E 0x6f None 0 3787 3786 3792; E 0x53 None 0 3783 3782 3795; E 0x63 None 0 3785 0 3802;
   E 0x52 None 0 3784 0 3814; E 0x48 None 0 0 0 3818; E 0x61 None 0 0 0 3822;
   E 0x73 None 0 3789 0 3826; E 0x69 None 0 3788 0 3834; E 0x68 None 0 0 0 3860;
   E 0x72 None 0 0 0 3887; E 0x72 None 0 0 0 3791;
   E 0x3b (Some [0xf0; 0x9d; 0x94; 0x97]) 4 0 0 0; E 0x70 None 0 0 0 3793;
   E 0x66 None 0 0 0 3794; E 0x3b (Some [0xf0; 0x9d; 0x95; 0x8b]) 4 0 0 0;
   E 0x63 None 0 3796 0 3797; E 0x48 None 0 0 0 3799; E 0x79 None 0 0 0 3798;
   E 0x3b (Some [0xd0; 0xa6]) 2 0 0 0; E 0x63 None 0 0 0 3800; E 0x79 None 0 0 0 3801;
   E 0x3b (Some [0xd0; 0x8b]) 2 0 0 0; E 0x65 None 0 3804 3803 3805; E 0x79 None 0 0 0 3809;
   E 0x61 None 0 0 0 3810; E 0x64 None 0 0 0 3806; E 0x69 None 0 0 0 3807;
   E 0x6c None 0 0 0 3808; E 0x3b (Some [0xc5; 0xa2]) 2 0 0 0;
   E 0x3b (Some [0xd0; 0xa2]) 2 0 0 0; E 0x72 None 0 0 0 3811; E 0x6f None 0 0 0 3812;
   E 0x6e None 0 0 0 3813; E 0x3b (Some [0xc5; 0xa4]) 2 0 0 0; E 0x41 None 0 0 0 3815;
   E 0x44 None 0 0 0 3816; E 0x45 None 0 0 0 3817; E 0x3b (Some [0xe2; 0x84; 0xa2]) 3 0 0 0;
   E 0x4f None 0 0 0 3819; E 0x52 None 0 0 0 3820; E 0x4e (Some [0xc3; 0x9e]) 2 0 0 3821;
   E 0x3b (Some [0xc3; 0x9e]) 2 0 0 0; E 0x75 None 0 3823 0 3824; E 0x62 None 0 0 0 3825;
   E 0x3b (Some [0xce; 0xa4]) 2 0 0 0; E 0x3b (Some [0x09]) 1 0 0 0; E 0x74 None 0 3827 0 3828;
   E 0x63 None 0 0 0 3832; E 0x72 None 0 0 0 3829; E 0x6f None 0 0 0 3830;
   E 0x6b None 0 0 0 3831; E 0x3b (Some [0xc5; 0xa6]) 2 0 0 0; E 0x72 None 0 0 0 3833;
   E 0x3b (Some [0xf0; 0x9d; 0x92; 0xaf]) 4 0 0 0; E 0x6c None 0 0 0 3835;
   E 0x64 None 0 0 0 3836; E 0x65 None 0 0 0 3837; E 0x46 None 0 3839 3838 3841;
   E 0x54 None 0 0 0 3850; E 0x45 None 0 3840 0 3855; E 0x3b (Some [0xe2; 0x88; 0xbc]) 3 0 0 0;
   E 0x75 None 0 0 0 3842; E 0x6c None 0 0 0 3843; E 0x6c None 0 0 0 3844;
   E 0x45 None 0 0 0 3845; E 0x71 None 0 0 0 3846; E 0x75 None 0 0 0 3847;
   E 0x61 None 0 0 0 3848; E 0x6c None 0 0 0 3849; E 0x3b (Some [0xe2; 0x89; 0x85]) 3 0 0 0;
   E 0x69 None 0 0 0 3851; E 0x6c None 0 0 0 3852; E 0x64 None 0 0 0 3853;
   E 0x65 None 0 0 0 3854; E 0x3b (Some [0xe2; 0x89; 0x88]) 3 0 0 0; E 0x71 None 0 0 0 3856;
   E 0x75 None 0 0 0 3857; E 0x61 None 0 0 0 3858; E 0x6c None 0 0 0 3859;
   E 0x3b (Some [0xe2; 0x89; 0x83]) 3 0 0 0; E 0x69 None 0 3861 0 3862; E 0x65 None 0 0 0 3877;
   E 0x6e None 0 3863 0 3864; E 0x63 None 0 0 0 3870; E 0x53 None 0 0 0 3865;
   E 0x70 None 0 0 0 3866; E 0x61 None 0 0 0 3867; E 0x63 None 0 0 0 3868;
   E 0x65 None 0 0 0 3869; E 0x3b (Some [0xe2; 0x80; 0x89]) 3 0 0 0; E 0x6b None 0 0 0 3871;
   E 0x53 None 0 0 0 3872; E 0x70 None 0 0 0 3873; E 0x61 None 0 0 0 3874;
   E 0x63 None 0 0 0 3875; E 0x65 None 0 0 0 3876;
   E 0x3b (Some [0xe2; 0x81; 0x9f; 0xe2; 0x80; 0x8a]) 6 0 0 0; E 0x74 None 0 3878 0 3879;
   E 0x72 None 0 0 0 3881; E 0x61 None 0 0 0 3880; E 0x3b (Some [0xce; 0x98]) 2 0 0 0;
   E 0x65 None 0 0 0 3882; E 0x66 None 0 0 0 3883; E 0x6f None 0 0 0 3884;
   E 0x72 None 0 0 0 3885; E 0x65 None 0 0 0 3886; E 0x3b (Some [0xe2; 0x88; 0xb4]) 3 0 0 0;
   E 0x69 None 0 0 0 3888; E 0x70 None 0 0 0 3889; E 0x6c None 0 0 0 3890;
   E 0x65 None 0 0 0 3891; E 0x44 None 0 0 0 3892; E 0x6f None 0 0 0 3893;
   E 0x74 None 0 0 0 3894; E 0x3b (Some [0xe2; 0x83; 0x9b]) 3 0 0 0;
   E 0x69 None 0 3897 3896 3904; E 0x72 None 0 3902 3901 3905; E 0x66 None 0 3899 3898 3957;
   E 0x68 None 0 0 0 3959; E 0x63 None 0 3900 0 3961; E 0x61 None 0 0 0 3963;
   E 0x73 None 0 0 0 3970; E 0x6f None 0 3903 0 3975; E 0x6c None 0 0 0 3990;
   E 0x3b (Some [0xce; 0xa0]) 2 0 0 0; E 0x69 None 0 3907 3906 3909; E 0x6f None 0 0 0 3912;
   E 0x65 None 0 3908 0 3928; E 0x3b (Some [0xe2; 0xaa; 0xbb]) 3 0 0 0; E 0x6d None 0 0 0 3910;
   E 0x65 None 0 0 0 3911; E 0x3b (Some [0xe2; 0x80; 0xb3]) 3 0 0 0; E 0x70 None 0 3913 0 3914;
   E 0x64 None 0 0 0 3924; E 0x6f None 0 0 0 3915; E 0x72 None 0 0 0 3916;
   E 0x74 None 0 0 0 3917; E 0x69 None 0 0 0 3918; E 0x6f None 0 0 0 3919;
   E 0x6e None 0 0 0 3920; E 0x61 None 0 3921 0 3922; E 0x3b (Some [0xe2; 0x88; 0xb7]) 3 0 0 0;
   E 0x6c None 0 0 0 3923; E 0x3b (Some [0xe2; 0x88; 0x9d]) 3 0 0 0; E 0x75 None 0 0 0 3925;
   E 0x63 None 0 0 0 3926; E 0x74 None 0 0 0 3927; E 0x3b (Some [0xe2; 0x88; 0x8f]) 3 0 0 0;
   E 0x63 None 0 0 0 3929; E 0x65 None 0 0 0 3930; E 0x64 None 0 0 0 3931;
   E 0x65 None 0 0 0 3932; E 0x73 None 0 0 0 3933; E 0x53 None 0 3935 3934 3937;
   E 0x54 None 0 0 0 3947; E 0x45 None 0 3936 0 3952; E 0x3b (Some [0xe2; 0x89; 0xba]) 3 0 0 0;
   E 0x6c None 0 0 0 3938; E 0x61 None 0 0 0 3939; E 0x6e None 0 0 0 3940;
   E 0x74 None 0 0 0 3941; E 0x45 None 0 0 0 3942; E 0x71 None 0 0 0 3943;
   E 0x75 None 0 0 0 3944; E 0x61 None 0 0 0 3945; E 0x6c None 0 0 0 3946;
   E 0x3b (Some [0xe2; 0x89; 0xbc]) 3 0 0 0; E 0x69 None 0 0 0 3948; E 0x6c None 0 0 0 3949;
   E 0x64 None 0 0 0 3950; E 0x65 None 0 0 0 3951; E 0x3b (Some [0xe2; 0x89; 0xbe]) 3 0 0 0;
   E 0x71 None 0 0 0 3953; E 0x75 None 0 0 0 3954; E 0x61 None 0 0 0 3955;
   E 0x6c None 0 0 0 3956; E 0x3b (Some [0xe2; 0xaa; 0xaf]) 3 0 0 0; E 0x72 None 0 0 0 3958;
   E 0x3b (Some [0xf0; 0x9d; 0x94; 0x93]) 4 0 0 0; E 0x69 None 0 0 0 3960;
   E 0x3b (Some [0xce; 0xa6]) 2 0 0 0; E 0x79 None 0 0 0 3962;
   E 0x3b (Some [0xd0; 0x9f]) 2 0 0 0; E 0x72 None 0 0 0 3964; E 0x74 None 0 0 0 3965;
   E 0x69 None 0 0 0 3966; E 0x61 None 0 0 0 3967; E 0x6c None 0 0 0 3968;
   E 0x44 None 0 0 0 3969; E 0x3b (Some [0xe2; 0x88; 0x82]) 3 0 0 0; E 0x69 None 0 3971 0 3972;
   E 0x63 None 0 0 0 3973; E 0x3b (Some [0xce; 0xa8]) 2 0 0 0; E 0x72 None 0 0 0 3974;
   E 0x3b (Some [0xf0; 0x9d; 0x92; 0xab]) 4 0 0 0; E 0x70 None 0 3976 0 3977;
   E 0x69 None 0 0 0 3979; E 0x66 None 0 0 0 3978; E 0x3b (Some [0xe2; 0x84; 0x99]) 3 0 0 0;
   E 0x6e None 0 0 0 3980; E 0x63 None 0 0 0 3981; E 0x61 None 0 0 0 3982;
   E 0x72 None 0 0 0 3983; E 0x65 None 0 0 0 3984; E 0x70 None 0 0 0 3985;
   E 0x6c None 0 0 0 3986; E 0x61 None 0 0 0 3987; E 0x6e None 0 0 0 3988;
   E 0x65 None 0 0 0 3989; E 0x3b (Some [0xe2; 0x84; 0x8c]) 3 0 0 0; E 0x75 None 0 0 0 3991;
   E 0x73 None 0 0 0 3992; E 0x4d None 0 0 0 3993; E 0x69 None 0 0 0 3994;
   E 0x6e None 0 0 0 3995; E 0x75 None 0 0 0 3996; E 0x73 None 0 0 0 3997;
   E 0x3b (Some [0xc2; 0xb1]) 2 0 0 0; E 0x6f None 0 4000 3999 4002; E 0x73 None 0 0 0 4005].

Definition entities_8 : list sbst_entry :=
  [E 0x66 None 0 4001 0 4008; E 0x55 None 0 0 0 4010; E 0x70 None 0 0 0 4003;
   E 0x66 None 0 0 0 4004; E 0x3b (Some [0xe2; 0x84; 0x9a]) 3 0 0 0; E 0x63 None 0 0 0 4006;
   E 0x72 None 0 0 0 4007; E 0x3b (Some [0xf0; 0x9d; 0x92; 0xac]) 4 0 0 0;
   E 0x72 None 0 0 0 4009; E 0x3b (Some [0xf0; 0x9d; 0x94; 0x94]) 4 0 0 0;
   E 0x4f None 0 0 0 4011; E 0x54 (Some [0x22]) 1 0 0 4012; E 0x3b (Some [0x22]) 1 0 0 0;
   E 0x6f None 0 4015 4014 4027; E 0x74 None 0 4023 4022 4030; E 0x64 None 0 4017 4016 4039;
   E 0x67 None 0 4021 4020 4044; E 0x61 None 0 4019 4018 4049; E 0x63 None 0 0 0 4054;
   E 0x45 None 0 0 0 4060; E 0x6d None 0 0 0 4064; E 0x66 None 0 0 0 4078;
   E 0x76 None 0 4026 0 4080; E 0x72 None 0 4025 4024 4107; E 0x73 None 0 0 0 4108;
   E 0x70 None 0 0 0 4116; E 0x75 None 0 0 0 4141; E 0x70 None 0 0 0 4028;
   E 0x66 None 0 0 0 4029; E 0x3b (Some [0xf0; 0x9d; 0x95; 0x86]) 4 0 0 0;
   E 0x69 None 0 0 0 4031; E 0x6d None 0 4032 0 4033; E 0x6c None 0 0 0 4036;
   E 0x65 None 0 0 0 4034; E 0x73 None 0 0 0 4035; E 0x3b (Some [0xe2; 0xa8; 0xb7]) 3 0 0 0;
   E 0x64 None 0 0 0 4037; E 0x65 (Some [0xc3; 0x95]) 2 0 0 4038;
   E 0x3b (Some [0xc3; 0x95]) 2 0 0 0; E 0x62 None 0 0 0 4040; E 0x6c None 0 0 0 4041;
   E 0x61 None 0 0 0 4042; E 0x63 None 0 0 0 4043; E 0x3b (Some [0xc5; 0x90]) 2 0 0 0;
   E 0x72 None 0 0 0 4045; E 0x61 None 0 0 0 4046; E 0x76 None 0 0 0 4047;
   E 0x65 (Some [0xc3; 0x92]) 2 0 0 4048; E 0x3b (Some [0xc3; 0x92]) 2 0 0 0;
   E 0x63 None 0 0 0 4050; E 0x75 None 0 0 0 4051; E 0x74 None 0 0 0 4052;
   E 0x65 (Some [0xc3; 0x93]) 2 0 0 4053; E 0x3b (Some [0xc3; 0x93]) 2 0 0 0;
   E 0x79 None 0 4055 0 4056; E 0x69 None 0 0 0 4057; E 0x3b (Some [0xd0; 0x9e]) 2 0 0 0;
   E 0x72 None 0 0 0 4058; E 0x63 (Some [0xc3; 0x94]) 2 0 0 4059;
   E 0x3b (Some [0xc3; 0x94]) 2 0 0 0; E 0x6c None 0 0 0 4061; E 0x69 None 0 0 0 4062;
   E 0x67 None 0 0 0 4063; E 0x3b (Some [0xc5; 0x92]) 2 0 0 0; E 0x65 None 0 4066 4065 4067;
   E 0x69 None 0 0 0 4070; E 0x61 None 0 0 0 4075; E 0x67 None 0 0 0 4068;
   E 0x61 None 0 0 0 4069; E 0x3b (Some [0xce; 0xa9]) 2 0 0 0; E 0x63 None 0 0 0 4071;
   E 0x72 None 0 0 0 4072; E 0x6f None 0 0 0 4073; E 0x6e None 0 0 0 4074;
   E 0x3b (Some [0xce; 0x9f]) 2 0 0 0; E 0x63 None 0 0 0 4076; E 0x72 None 0 0 0 4077;
   E 0x3b (Some [0xc5; 0x8c]) 2 0 0 0; E 0x72 None 0 0 0 4079;
   E 0x3b (Some [0xf0; 0x9d; 0x94; 0x92]) 4 0 0 0; E 0x65 None 0 0 0 4081;
   E 0x72 None 0 0 0 4082; E 0x50 None 0 4083 0 4084; E 0x42 None 0 0 0 4095;
   E 0x61 None 0 0 0 4085; E 0x72 None 0 0 0 4086; E 0x65 None 0 0 0 4087;
   E 0x6e None 0 0 0 4088; E 0x74 None 0 0 0 4089; E 0x68 None 0 0 0 4090;
   E 0x65 None 0 0 0 4091; E 0x73 None 0 0 0 4092; E 0x69 None 0 0 0 4093;
   E 0x73 None 0 0 0 4094; E 0x3b (Some [0xe2; 0x8f; 0x9c]) 3 0 0 0; E 0x72 None 0 4096 0 4097;
   E 0x61 None 0 0 0 4105; E 0x61 None 0 0 0 4098; E 0x63 None 0 0 0 4099;
   E 0x6b None 0 4100 0 4101; E 0x65 None 0 0 0 4104; E 0x65 None 0 0 0 4102;
   E 0x74 None 0 0 0 4103; E 0x3b (Some [0xe2; 0x8e; 0xb4]) 3 0 0 0;
   E 0x3b (Some [0xe2; 0x8f; 0x9e]) 3 0 0 0; E 0x72 None 0 0 0 4106;
   E 0x3b (Some [0xe2; 0x80; 0xbe]) 3 0 0 0; E 0x3b (Some [0xe2; 0xa9; 0x94]) 3 0 0 0;
   E 0x6c None 0 4109 0 4110; E 0x63 None 0 0 0 4114; E 0x61 None 0 0 0 4111;
   E 0x73 None 0 0 0 4112; E 0x68 (Some [0xc3; 0x98]) 2 0 0 4113;
   E 0x3b (Some [0xc3; 0x98]) 2 0 0 0; E 0x72 None 0 0 0 4115;
   E 0x3b (Some [0xf0; 0x9d; 0x92; 0xaa]) 4 0 0 0; E 0x65 None 0 0 0 4117;
   E 0x6e None 0 0 0 4118; E 0x43 None 0 0 0 4119; E 0x75 None 0 0 0 4120;
   E 0x72 None 0 0 0 4121; E 0x6c None 0 0 0 4122; E 0x79 None 0 0 0 4123;
   E 0x51 None 0 4124 0 4125; E 0x44 None 0 0 0 4130; E 0x75 None 0 0 0 4126;
   E 0x6f None 0 0 0 4127; E 0x74 None 0 0 0 4128; E 0x65 None 0 0 0 4129;
   E 0x3b (Some [0xe2; 0x80; 0x98]) 3 0 0 0; E 0x6f None 0 0 0 4131; E 0x75 None 0 0 0 4132;
   E 0x62 None 0 0 0 4133; E 0x6c None 0 0 0 4134; E 0x65 None 0 0 0 4135;
   E 0x51 None 0 0 0 4136; E 0x75 None 0 0 0 4137; E 0x6f None 0 0 0 4138;
   E 0x74 None 0 0 0 4139; E 0x65 None 0 0 0 4140; E 0x3b (Some [0xe2; 0x80; 0x9c]) 3 0 0 0;
   E 0x6d None 0 0 0 4142; E 0x6c (Some [0xc3; 0x96]) 2 0 0 4143;
   E 0x3b (Some [0xc3; 0x96]) 2 0 0 0; E 0x69 None 0 4146 4145 4157;
   E 0x73 None 0 4153 4152 4161; E 0x63 None 0 4148 4147 4164; E 0x68 None 0 4151 0 4181;
   E 0x4f None 0 4150 4149 4223; E 0x61 None 0 0 0 4228; E 0x48 None 0 0 0 4233;
   E 0x66 None 0 0 0 4241; E 0x75 None 0 4156 0 4243; E 0x6f None 0 4155 4154 4311;
   E 0x71 None 0 0 0 4314; E 0x6d None 0 0 0 4367; E 0x74 None 0 0 0 4377;
   E 0x67 None 0 0 0 4158; E 0x6d None 0 0 0 4159; E 0x61 None 0 0 0 4160;
   E 0x3b (Some [0xce; 0xa3]) 2 0 0 0; E 0x63 None 0 0 0 4162; E 0x72 None 0 0 0 4163;
   E 0x3b (Some [0xf0; 0x9d; 0x92; 0xae]) 4 0 0 0; E 0x65 None 0 4166 4165 4169;
   E 0x79 None 0 4168 0 4173; E 0x61 None 0 4167 0 4174;
   E 0x3b (Some [0xe2; 0xaa; 0xbc]) 3 0 0 0; E 0x69 None 0 0 0 4178; E 0x64 None 0 0 0 4170;
   E 0x69 None 0 0 0 4171; E 0x6c None 0 0 0 4172; E 0x3b (Some [0xc5; 0x9e]) 2 0 0 0;
   E 0x3b (Some [0xd0; 0xa1]) 2 0 0 0; E 0x72 None 0 0 0 4175; E 0x6f None 0 0 0 4176;
   E 0x6e None 0 0 0 4177; E 0x3b (Some [0xc5; 0xa0]) 2 0 0 0; E 0x72 None 0 0 0 4179;
   E 0x63 None 0 0 0 4180; E 0x3b (Some [0xc5; 0x9c]) 2 0 0 0; E 0x6f None 0 0 0 4182;
   E 0x72 None 0 0 0 4183; E 0x74 None 0 0 0 4184; E 0x52 None 0 4186 4185 4188;
   E 0x55 None 0 0 0 4198; E 0x4c None 0 4187 0 4205; E 0x44 None 0 0 0 4214;
   E 0x69 None 0 0 0 4189; E 0x67 None 0 0 0 4190; E 0x68 None 0 0 0 4191;
   E 0x74 None 0 0 0 4192; E 0x41 None 0 0 0 4193; E 0x72 None 0 0 0 4194;
   E 0x72 None 0 0 0 4195; E 0x6f None 0 0 0 4196; E 0x77 None 0 0 0 4197;
   E 0x3b (Some [0xe2; 0x86; 0x92]) 3 0 0 0; E 0x70 None 0 0 0 4199; E 0x41 None 0 0 0 4200;
   E 0x72 None 0 0 0 4201; E 0x72 None 0 0 0 4202; E 0x6f None 0 0 0 4203;
   E 0x77 None 0 0 0 4204; E 0x3b (Some [0xe2; 0x86; 0x91]) 3 0 0 0; E 0x65 None 0 0 0 4206;
   E 0x66 None 0 0 0 4207; E 0x74 None 0 0 0 4208; E 0x41 None 0 0 0 4209;
   E 0x72 None 0 0 0 4210; E 0x72 None 0 0 0 4211; E 0x6f None 0 0 0 4212;
   E 0x77 None 0 0 0 4213; E 0x3b (Some [0xe2; 0x86; 0x90]) 3 0 0 0; E 0x6f None 0 0 0 4215;
   E 0x77 None 0 0 0 4216; E 0x6e None 0 0 0 4217; E 0x41 None 0 0 0 4218;
   E 0x72 None 0 0 0 4219; E 0x72 None 0 0 0 4220; E 0x6f None 0 0 0 4221;
   E 0x77 None 0 0 0 4222; E 0x3b (Some [0xe2; 0x86; 0x93]) 3 0 0 0; E 0x46 None 0 0 0 4224;
   E 0x54 None 0 0 0 4225; E 0x63 None 0 0 0 4226; E 0x79 None 0 0 0 4227;
   E 0x3b (Some [0xd0; 0xac]) 2 0 0 0; E 0x63 None 0 0 0 4229; E 0x75 None 0 0 0 4230;
   E 0x74 None 0 0 0 4231; E 0x65 None 0 0 0 4232; E 0x3b (Some [0xc5; 0x9a]) 2 0 0 0;
   E 0x63 None 0 4234 0 4235; E 0x43 None 0 0 0 4237; E 0x79 None 0 0 0 4236;
   E 0x3b (Some [0xd0; 0xa8]) 2 0 0 0; E 0x48 None 0 0 0 4238; E 0x63 None 0 0 0 4239;
   E 0x79 None 0 0 0 4240; E 0x3b (Some [0xd0; 0xa9]) 2 0 0 0; E 0x72 None 0 0 0 4242;
   E 0x3b (Some [0xf0; 0x9d; 0x94; 0x96]) 4 0 0 0; E 0x6d None 0 4245 4244 4247;
   E 0x70 None 0 0 0 4248; E 0x63 None 0 4246 0 4265; E 0x62 None 0 0 0 4300;
   E 0x3b (Some [0xe2; 0x88; 0x91]) 3 0 0 0; E 0x65 None 0 4250 4249 4251;
   E 0x73 None 0 0 0 4262; E 0x3b (Some [0xe2; 0x8b; 0x91]) 3 0 0 0; E 0x72 None 0 0 0 4252;
   E 0x73 None 0 0 0 4253; E 0x65 None 0 0 0 4254; E 0x74 None 0 0 0 4255;
   E 0x45 None 0 4256 0 4257; E 0x3b (Some [0xe2; 0x8a; 0x83]) 3 0 0 0; E 0x71 None 0 0 0 4258;
   E 0x75 None 0 0 0 4259; E 0x61 None 0 0 0 4260; E 0x6c None 0 0 0 4261;
   E 0x3b (Some [0xe2; 0x8a; 0x87]) 3 0 0 0; E 0x65 None 0 0 0 4263; E 0x74 None 0 0 0 4264;
   E 0x3b (Some [0xe2; 0x8b; 0x91]) 3 0 0 0; E 0x68 None 0 4266 0 4267; E 0x63 None 0 0 0 4272;
   E 0x54 None 0 0 0 4268; E 0x68 None 0 0 0 4269; E 0x61 None 0 0 0 4270;
   E 0x74 None 0 0 0 4271; E 0x3b (Some [0xe2; 0x88; 0x8b]) 3 0 0 0; E 0x65 None 0 0 0 4273;
   E 0x65 None 0 0 0 4274; E 0x64 None 0 0 0 4275; E 0x73 None 0 0 0 4276;
   E 0x53 None 0 4278 4277 4280; E 0x54 None 0 0 0 4290; E 0x45 None 0 4279 0 4295;
   E 0x3b (Some [0xe2; 0x89; 0xbb]) 3 0 0 0; E 0x6c None 0 0 0 4281; E 0x61 None 0 0 0 4282;
   E 0x6e None 0 0 0 4283; E 0x74 None 0 0 0 4284; E 0x45 None 0 0 0 4285;
   E 0x71 None 0 0 0 4286; E 0x75 None 0 0 0 4287; E 0x61 None 0 0 0 4288;
   E 0x6c None 0 0 0 4289; E 0x3b (Some [0xe2; 0x89; 0xbd]) 3 0 0 0; E 0x69 None 0 0 0 4291;
   E 0x6c None 0 0 0 4292; E 0x64 None 0 0 0 4293; E 0x65 None 0 0 0 4294;
   E 0x3b (Some [0xe2; 0x89; 0xbf]) 3 0 0 0; E 0x71 None 0 0 0 4296; E 0x75 None 0 0 0 4297;
   E 0x61 None 0 0 0 4298; E 0x6c None 0 0 0 4299; E 0x3b (Some [0xe2; 0xaa; 0xb0]) 3 0 0 0;
   E 0x73 None 0 4301 0 4302; E 0x3b (Some [0xe2; 0x8b; 0x90]) 3 0 0 0; E 0x65 None 0 0 0 4303;
   E 0x74 None 0 0 0 4304; E 0x45 None 0 4305 0 4306; E 0x3b (Some [0xe2; 0x8b; 0x90]) 3 0 0 0;
   E 0x71 None 0 0 0 4307; E 0x75 None 0 0 0 4308; E 0x61 None 0 0 0 4309;
   E 0x6c None 0 0 0 4310; E 0x3b (Some [0xe2; 0x8a; 0x86]) 3 0 0 0; E 0x70 None 0 0 0 4312;
   E 0x66 None 0 0 0 4313; E 0x3b (Some [0xf0; 0x9d; 0x95; 0x8a]) 4 0 0 0;
   E 0x75 None 0 4315 0 4316; E 0x72 None 0 0 0 4365; E 0x61 None 0 0 0 4317;
   E 0x72 None 0 0 0 4318; E 0x65 None 0 0 0 4319; E 0x53 None 0 4321 4320 4323;
   E 0x55 None 0 0 0 4348; E 0x49 None 0 4322 0 4353; E 0x3b (Some [0xe2; 0x96; 0xa1]) 3 0 0 0;
   E 0x75 None 0 0 0 4324; E 0x70 None 0 4325 0 4326; E 0x62 None 0 0 0 4338;
   E 0x65 None 0 0 0 4327; E 0x72 None 0 0 0 4328; E 0x73 None 0 0 0 4329;
   E 0x65 None 0 0 0 4330; E 0x74 None 0 0 0 4331; E 0x45 None 0 4332 0 4333;
   E 0x3b (Some [0xe2; 0x8a; 0x90]) 3 0 0 0; E 0x71 None 0 0 0 4334; E 0x75 None 0 0 0 4335;
   E 0x61 None 0 0 0 4336; E 0x6c None 0 0 0 4337; E 0x3b (Some [0xe2; 0x8a; 0x92]) 3 0 0 0;
   E 0x73 None 0 0 0 4339; E 0x65 None 0 0 0 4340; E 0x74 None 0 0 0 4341;
   E 0x45 None 0 4342 0 4343; E 0x3b (Some [0xe2; 0x8a; 0x8f]) 3 0 0 0; E 0x71 None 0 0 0 4344;
   E 0x75 None 0 0 0 4345; E 0x61 None 0 0 0 4346; E 0x6c None 0 0 0 4347;
   E 0x3b (Some [0xe2; 0x8a; 0x91]) 3 0 0 0; E 0x6e None 0 0 0 4349; E 0x69 None 0 0 0 4350;
   E 0x6f None 0 0 0 4351; E 0x6e None 0 0 0 4352; E 0x3b (Some [0xe2; 0x8a; 0x94]) 3 0 0 0;
   E 0x6e None 0 0 0 4354; E 0x74 None 0 0 0 4355; E 0x65 None 0 0 0 4356;
   E 0x72 None 0 0 0 4357; E 0x73 None 0 0 0 4358; E 0x65 None 0 0 0 4359;
   E 0x63 None 0 0 0 4360; E 0x74 None 0 0 0 4361; E 0x69 None 0 0 0 4362;
   E 0x6f None 0 0 0 4363; E 0x6e None 0 0 0 4364; E 0x3b (Some [0xe2; 0x8a; 0x93]) 3 0 0 0;
   E 0x74 None 0 0 0 4366; E 0x3b (Some [0xe2; 0x88; 0x9a]) 3 0 0 0; E 0x61 None 0 0 0 4368;
   E 0x6c None 0 0 0 4369; E 0x6c None 0 0 0 4370; E 0x43 None 0 0 0 4371;
   E 0x69 None 0 0 0 4372; E 0x72 None 0 0 0 4373; E 0x63 None 0 0 0 4374;
   E 0x6c None 0 0 0 4375; E 0x65 None 0 0 0 4376; E 0x3b (Some [0xe2; 0x88; 0x98]) 3 0 0 0;
   E 0x61 None 0 0 0 4378; E 0x72 None 0 0 0 4379; E 0x3b (Some [0xe2; 0x8b; 0x86]) 3 0 0 0;
   E 0x65 None 0 4382 4381 4388; E 0x6f None 0 4387 4386 4404; E 0x63 None 0 4384 4383 4407;
   E 0x64 None 0 0 0 4414; E 0x61 None 0 4385 0 4417; E 0x48 None 0 0 0 4422;
   E 0x73 None 0 0 0 4425; E 0x66 None 0 0 0 4428; E 0x74 None 0 4389 0 4390;
   E 0x72 None 0 0 0 4392; E 0x61 None 0 0 0 4391; E 0x3b (Some [0xce; 0x96]) 2 0 0 0;
   E 0x6f None 0 0 0 4393; E 0x57 None 0 0 0 4394; E 0x69 None 0 0 0 4395;
   E 0x64 None 0 0 0 4396; E 0x74 None 0 0 0 4397; E 0x68 None 0 0 0 4398;
   E 0x53 None 0 0 0 4399; E 0x70 None 0 0 0 4400; E 0x61 None 0 0 0 4401;
   E 0x63 None 0 0 0 4402; E 0x65 None 0 0 0 4403; E 0x3b (Some [0xe2; 0x80; 0x8b]) 3 0 0 0;
   E 0x70 None 0 0 0 4405; E 0x66 None 0 0 0 4406; E 0x3b (Some [0xe2; 0x84; 0xa4]) 3 0 0 0;
   E 0x79 None 0 4408 0 4409; E 0x61 None 0 0 0 4410; E 0x3b (Some [0xd0; 0x97]) 2 0 0 0;
   E 0x72 None 0 0 0 4411; E 0x6f None 0 0 0 4412; E 0x6e None 0 0 0 4413;
   E 0x3b (Some [0xc5; 0xbd]) 2 0 0 0; E 0x6f None 0 0 0 4415; E 0x74 None 0 0 0 4416;
   E 0x3b (Some [0xc5; 0xbb]) 2 0 0 0; E 0x63 None 0 0 0 4418; E 0x75 None 0 0 0 4419;
   E 0x74 None 0 0 0 4420; E 0x65 None 0 0 0 4421; E 0x3b (Some [0xc5; 0xb9]) 2 0 0 0;
   E 0x63 None 0 0 0 4423; E 0x79 None 0 0 0 4424; E 0x3b (Some [0xd0; 0x96]) 2 0 0 0;
   E 0x63 None 0 0 0 4426; E 0x72 None 0 0 0 4427;
   E 0x3b (Some [0xf0; 0x9d; 0x92; 0xb5]) 4 0 0 0; E 0x72 None 0 0 0 4429;
   E 0x3b (Some [0xe2; 0x84; 0xa8]) 3 0 0 0; E 0x66 None 0 4432 4431 4435;
   E 0x73 None 0 4434 0 4437; E 0x65 None 0 4433 0 4440; E 0x63 None 0 0 0 4444;
   E 0x6f None 0 0 0 4448; E 0x72 None 0 0 0 4436;
   E 0x3b (Some [0xf0; 0x9d; 0x94; 0x9a]) 4 0 0 0; E 0x63 None 0 0 0 4438;
   E 0x72 None 0 0 0 4439; E 0x3b (Some [0xf0; 0x9d; 0x92; 0xb2]) 4 0 0 0;
   E 0x64 None 0 0 0 4441; E 0x67 None 0 0 0 4442; E 0x65 None 0 0 0 4443;
   E 0x3b (Some [0xe2; 0x8b; 0x80]) 3 0 0 0; E 0x69 None 0 0 0 4445; E 0x72 None 0 0 0 4446;
   E 0x63 None 0 0 0 4447; E 0x3b (Some [0xc5; 0xb4]) 2 0 0 0; E 0x70 None 0 0 0 4449;
   E 0x66 None 0 0 0 4450; E 0x3b (Some [0xf0; 0x9d; 0x95; 0x8e]) 4 0 0 0;
   E 0x65 None 0 4453 4452 4460; E 0x73 None 0 4458 4457 4509; E 0x63 None 0 4455 4454 4512;
   E 0x64 None 0 0 0 4514; E 0x62 None 0 4456 0 4520; E 0x44 None 0 0 0 4523;
   E 0x76 None 0 0 0 4527; E 0x6f None 0 4459 0 4532; E 0x66 None 0 0 0 4535;
   E 0x72 None 0 4461 0 4462; E 0x65 None 0 0 0 4508; E 0x74 None 0 4464 4463 4465;
   E 0x79 None 0 0 0 4495; E 0x62 None 0 0 0 4505; E 0x69 None 0 4466 0 4467;
   E 0x3b (Some [0xe2; 0x80; 0x96]) 3 0 0 0; E 0x63 None 0 0 0 4468; E 0x61 None 0 0 0 4469;
   E 0x6c None 0 0 0 4470; E 0x53 None 0 4472 4471 4474; E 0x54 None 0 0 0 4483;
   E 0x4c None 0 4473 0 4488; E 0x42 None 0 0 0 4492; E 0x65 None 0 0 0 4475;
   E 0x70 None 0 0 0 4476; E 0x61 None 0 0 0 4477; E 0x72 None 0 0 0 4478;
   E 0x61 None 0 0 0 4479; E 0x74 None 0 0 0 4480; E 0x6f None 0 0 0 4481;
   E 0x72 None 0 0 0 4482; E 0x3b (Some [0xe2; 0x9d; 0x98]) 3 0 0 0; E 0x69 None 0 0 0 4484;
   E 0x6c None 0 0 0 4485; E 0x64 None 0 0 0 4486; E 0x65 None 0 0 0 4487;
   E 0x3b (Some [0xe2; 0x89; 0x80]) 3 0 0 0; E 0x69 None 0 0 0 4489; E 0x6e None 0 0 0 4490;
   E 0x65 None 0 0 0 4491; E 0x3b (Some [0x7c]) 1 0 0 0; E 0x61 None 0 0 0 4493;
   E 0x72 None 0 0 0 4494; E 0x3b (Some [0xe2; 0x88; 0xa3]) 3 0 0 0; E 0x54 None 0 0 0 4496;
   E 0x68 None 0 0 0 4497; E 0x69 None 0 0 0 4498; E 0x6e None 0 0 0 4499;
   E 0x53 None 0 0 0 4500].

Definition entities_9 : list sbst_entry :=
  [E 0x70 None 0 0 0 4501; E 0x61 None 0 0 0 4502; E 0x63 None 0 0 0 4503;
   E 0x65 None 0 0 0 4504; E 0x3b (Some [0xe2; 0x80; 0x8a]) 3 0 0 0; E 0x61 None 0 0 0 4506;
   E 0x72 None 0 0 0 4507; E 0x3b (Some [0xe2; 0x80; 0x96]) 3 0 0 0;
   E 0x3b (Some [0xe2; 0x8b; 0x81]) 3 0 0 0; E 0x63 None 0 0 0 4510; E 0x72 None 0 0 0 4511;
   E 0x3b (Some [0xf0; 0x9d; 0x92; 0xb1]) 4 0 0 0; E 0x79 None 0 0 0 4513;
   E 0x3b (Some [0xd0; 0x92]) 2 0 0 0; E 0x61 None 0 0 0 4515; E 0x73 None 0 0 0 4516;
   E 0x68 None 0 0 0 4517; E 0x6c None 0 4518 0 4519; E 0x3b (Some [0xe2; 0x8a; 0xa9]) 3 0 0 0;
   E 0x3b (Some [0xe2; 0xab; 0xa6]) 3 0 0 0; E 0x61 None 0 0 0 4521; E 0x72 None 0 0 0 4522;
   E 0x3b (Some [0xe2; 0xab; 0xab]) 3 0 0 0; E 0x61 None 0 0 0 4524; E 0x73 None 0 0 0 4525;
   E 0x68 None 0 0 0 4526; E 0x3b (Some [0xe2; 0x8a; 0xab]) 3 0 0 0; E 0x64 None 0 0 0 4528;
   E 0x61 None 0 0 0 4529; E 0x73 None 0 0 0 4530; E 0x68 None 0 0 0 4531;
   E 0x3b (Some [0xe2; 0x8a; 0xaa]) 3 0 0 0; E 0x70 None 0 0 0 4533; E 0x66 None 0 0 0 4534;
   E 0x3b (Some [0xf0; 0x9d; 0x95; 0x8d]) 4 0 0 0; E 0x72 None 0 0 0 4536;
   E 0x3b (Some [0xf0; 0x9d; 0x94; 0x99]) 4 0 0 0; E 0x63 None 0 4539 4538 4546;
   E 0x73 None 0 4544 4543 4552; E 0x55 None 0 4541 4540 4555; E 0x61 None 0 0 0 4558;
   E 0x49 None 0 4542 0 4563; E 0x41 None 0 0 0 4566; E 0x75 None 0 0 0 4569;
   E 0x6f None 0 4545 0 4572; E 0x66 None 0 0 0 4575; E 0x79 None 0 4547 0 4548;
   E 0x69 None 0 0 0 4549; E 0x3b (Some [0xd0; 0xab]) 2 0 0 0; E 0x72 None 0 0 0 4550;
   E 0x63 None 0 0 0 4551; E 0x3b (Some [0xc5; 0xb6]) 2 0 0 0; E 0x63 None 0 0 0 4553;
   E 0x72 None 0 0 0 4554; E 0x3b (Some [0xf0; 0x9d; 0x92; 0xb4]) 4 0 0 0;
   E 0x63 None 0 0 0 4556; E 0x79 None 0 0 0 4557; E 0x3b (Some [0xd0; 0xae]) 2 0 0 0;
   E 0x63 None 0 0 0 4559; E 0x75 None 0 0 0 4560; E 0x74 None 0 0 0 4561;
   E 0x65 (Some [0xc3; 0x9d]) 2 0 0 4562; E 0x3b (Some [0xc3; 0x9d]) 2 0 0 0;
   E 0x63 None 0 0 0 4564; E 0x79 None 0 0 0 4565; E 0x3b (Some [0xd0; 0x87]) 2 0 0 0;
   E 0x63 None 0 0 0 4567; E 0x79 None 0 0 0 4568; E 0x3b (Some [0xd0; 0xaf]) 2 0 0 0;
   E 0x6d None 0 0 0 4570; E 0x6c None 0 0 0 4571; E 0x3b (Some [0xc5; 0xb8]) 2 0 0 0;
   E 0x70 None 0 0 0 4573; E 0x66 None 0 0 0 4574;
   E 0x3b (Some [0xf0; 0x9d; 0x95; 0x90]) 4 0 0 0; E 0x72 None 0 0 0 4576;
   E 0x3b (Some [0xf0; 0x9d; 0x94; 0x9c]) 4 0 0 0; E 0x6c None 0 4579 4578 4595;
   E 0x73 None 0 4589 4588 4611; E 0x63 None 0 4581 4580 4614; E 0x67 None 0 4586 4585 4620;
   E 0x61 None 0 4583 4582 4625; E 0x62 None 0 0 0 4633; E 0x48 None 0 4584 0 4641;
   E 0x41 None 0 0 0 4644; E 0x68 None 0 0 0 4647; E 0x66 None 0 4587 0 4657;
   E 0x64 None 0 0 0 4664; E 0x75 None 0 4594 4593 4677; E 0x70 None 0 4591 4590 4684;
   E 0x72 None 0 0 0 4740; E 0x6f None 0 4592 0 4760; E 0x6d None 0 0 0 4767;
   E 0x77 None 0 0 0 4773; E 0x74 None 0 0 0 4779; E 0x74 None 0 4596 0 4597;
   E 0x63 None 0 0 0 4600; E 0x72 None 0 0 0 4598; E 0x69 None 0 0 0 4599;
   E 0x3b (Some [0xe2; 0x97; 0xb8]) 3 0 0 0; E 0x72 None 0 4601 0 4602; E 0x6f None 0 0 0 4605;
   E 0x6f None 0 0 0 4603; E 0x70 None 0 0 0 4604; E 0x3b (Some [0xe2; 0x8c; 0x8f]) 3 0 0 0;
   E 0x72 None 0 0 0 4606; E 0x6e None 0 0 0 4607; E 0x65 None 0 4608 0 4609;
   E 0x3b (Some [0xe2; 0x8c; 0x9c]) 3 0 0 0; E 0x72 None 0 0 0 4610;
   E 0x3b (Some [0xe2; 0x8c; 0x9c]) 3 0 0 0; E 0x63 None 0 0 0 4612; E 0x72 None 0 0 0 4613;
   E 0x3b (Some [0xf0; 0x9d; 0x93; 0x8a]) 4 0 0 0; E 0x79 None 0 4615 0 4616;
   E 0x69 None 0 0 0 4617; E 0x3b (Some [0xd1; 0x83]) 2 0 0 0; E 0x72 None 0 0 0 4618;
   E 0x63 (Some [0xc3; 0xbb]) 2 0 0 4619; E 0x3b (Some [0xc3; 0xbb]) 2 0 0 0;
   E 0x72 None 0 0 0 4621; E 0x61 None 0 0 0 4622; E 0x76 None 0 0 0 4623;
   E 0x65 (Some [0xc3; 0xb9]) 2 0 0 4624; E 0x3b (Some [0xc3; 0xb9]) 2 0 0 0;
   E 0x72 None 0 4626 0 4627; E 0x63 None 0 0 0 4629; E 0x72 None 0 0 0 4628;
   E 0x3b (Some [0xe2; 0x86; 0x91]) 3 0 0 0; E 0x75 None 0 0 0 4630; E 0x74 None 0 0 0 4631;
   E 0x65 (Some [0xc3; 0xba]) 2 0 0 4632; E 0x3b (Some [0xc3; 0xba]) 2 0 0 0;
   E 0x72 None 0 0 0 4634; E 0x65 None 0 4635 0 4636; E 0x63 None 0 0 0 4639;
   E 0x76 None 0 0 0 4637; E 0x65 None 0 0 0 4638; E 0x3b (Some [0xc5; 0xad]) 2 0 0 0;
   E 0x79 None 0 0 0 4640; E 0x3b (Some [0xd1; 0x9e]) 2 0 0 0; E 0x61 None 0 0 0 4642;
   E 0x72 None 0 0 0 4643; E 0x3b (Some [0xe2; 0xa5; 0xa3]) 3 0 0 0; E 0x72 None 0 0 0 4645;
   E 0x72 None 0 0 0 4646; E 0x3b (Some [0xe2; 0x87; 0x91]) 3 0 0 0; E 0x62 None 0 4648 0 4649;
   E 0x61 None 0 0 0 4652; E 0x6c None 0 0 0 4650; E 0x6b None 0 0 0 4651;
   E 0x3b (Some [0xe2; 0x96; 0x80]) 3 0 0 0; E 0x72 None 0 0 0 4653; E 0x72 None 0 4654 0 4655;
   E 0x6c None 0 0 0 4656; E 0x3b (Some [0xe2; 0x86; 0xbe]) 3 0 0 0;
   E 0x3b (Some [0xe2; 0x86; 0xbf]) 3 0 0 0; E 0x72 None 0 4658 0 4659; E 0x69 None 0 0 0 4660;
   E 0x3b (Some [0xf0; 0x9d; 0x94; 0xb2]) 4 0 0 0; E 0x73 None 0 0 0 4661;
   E 0x68 None 0 0 0 4662; E 0x74 None 0 0 0 4663; E 0x3b (Some [0xe2; 0xa5; 0xbe]) 3 0 0 0;
   E 0x62 None 0 4666 4665 4667; E 0x68 None 0 0 0 4671; E 0x61 None 0 0 0 4674;
   E 0x6c None 0 0 0 4668; E 0x61 None 0 0 0 4669; E 0x63 None 0 0 0 4670;
   E 0x3b (Some [0xc5; 0xb1]) 2 0 0 0; E 0x61 None 0 0 0 4672; E 0x72 None 0 0 0 4673;
   E 0x3b (Some [0xe2; 0xa5; 0xae]) 3 0 0 0; E 0x72 None 0 0 0 4675; E 0x72 None 0 0 0 4676;
   E 0x3b (Some [0xe2; 0x87; 0x85]) 3 0 0 0; E 0x6d None 0 4678 0 4679; E 0x61 None 0 0 0 4681;
   E 0x6c (Some [0xc3; 0xbc]) 2 0 0 4680; E 0x3b (Some [0xc3; 0xbc]) 2 0 0 0;
   E 0x72 None 0 0 0 4682; E 0x72 None 0 0 0 4683; E 0x3b (Some [0xe2; 0x87; 0x88]) 3 0 0 0;
   E 0x6c None 0 4686 4685 4690; E 0x75 None 0 4689 0 4693; E 0x64 None 0 4688 4687 4701;
   E 0x68 None 0 0 0 4710; E 0x61 None 0 0 0 4727; E 0x73 None 0 0 0 4732;
   E 0x75 None 0 0 0 4691; E 0x73 None 0 0 0 4692; E 0x3b (Some [0xe2; 0x8a; 0x8e]) 3 0 0 0;
   E 0x70 None 0 0 0 4694; E 0x61 None 0 0 0 4695; E 0x72 None 0 0 0 4696;
   E 0x72 None 0 0 0 4697; E 0x6f None 0 0 0 4698; E 0x77 None 0 0 0 4699;
   E 0x73 None 0 0 0 4700; E 0x3b (Some [0xe2; 0x87; 0x88]) 3 0 0 0; E 0x6f None 0 0 0 4702;
   E 0x77 None 0 0 0 4703; E 0x6e None 0 0 0 4704; E 0x61 None 0 0 0 4705;
   E 0x72 None 0 0 0 4706; E 0x72 None 0 0 0 4707; E 0x6f None 0 0 0 4708;
   E 0x77 None 0 0 0 4709; E 0x3b (Some [0xe2; 0x86; 0x95]) 3 0 0 0; E 0x61 None 0 0 0 4711;
   E 0x72 None 0 0 0 4712; E 0x70 None 0 0 0 4713; E 0x6f None 0 0 0 4714;
   E 0x6f None 0 0 0 4715; E 0x6e None 0 0 0 4716; E 0x72 None 0 4717 0 4718;
   E 0x6c None 0 0 0 4723; E 0x69 None 0 0 0 4719; E 0x67 None 0 0 0 4720;
   E 0x68 None 0 0 0 4721; E 0x74 None 0 0 0 4722; E 0x3b (Some [0xe2; 0x86; 0xbe]) 3 0 0 0;
   E 0x65 None 0 0 0 4724; E 0x66 None 0 0 0 4725; E 0x74 None 0 0 0 4726;
   E 0x3b (Some [0xe2; 0x86; 0xbf]) 3 0 0 0; E 0x72 None 0 0 0 4728; E 0x72 None 0 0 0 4729;
   E 0x6f None 0 0 0 4730; E 0x77 None 0 0 0 4731; E 0x3b (Some [0xe2; 0x86; 0x91]) 3 0 0 0;
   E 0x69 None 0 0 0 4733; E 0x68 None 0 4735 4734 4736; E 0x6c None 0 0 0 4737;
   E 0x3b (Some [0xcf; 0x85]) 2 0 0 0; E 0x3b (Some [0xcf; 0x92]) 2 0 0 0;
   E 0x6f None 0 0 0 4738; E 0x6e None 0 0 0 4739; E 0x3b (Some [0xcf; 0x85]) 2 0 0 0;
   E 0x69 None 0 4742 4741 4743; E 0x74 None 0 0 0 4746; E 0x63 None 0 0 0 4749;
   E 0x6e None 0 0 0 4744; E 0x67 None 0 0 0 4745; E 0x3b (Some [0xc5; 0xaf]) 2 0 0 0;
   E 0x72 None 0 0 0 4747; E 0x69 None 0 0 0 4748; E 0x3b (Some [0xe2; 0x97; 0xb9]) 3 0 0 0;
   E 0x72 None 0 4750 0 4751; E 0x6f None 0 0 0 4754; E 0x6f None 0 0 0 4752;
   E 0x70 None 0 0 0 4753; E 0x3b (Some [0xe2; 0x8c; 0x8e]) 3 0 0 0; E 0x72 None 0 0 0 4755;
   E 0x6e None 0 0 0 4756; E 0x65 None 0 4757 0 4758; E 0x3b (Some [0xe2; 0x8c; 0x9d]) 3 0 0 0;
   E 0x72 None 0 0 0 4759; E 0x3b (Some [0xe2; 0x8c; 0x9d]) 3 0 0 0; E 0x70 None 0 4761 0 4762;
   E 0x67 None 0 0 0 4764; E 0x66 None 0 0 0 4763;
   E 0x3b (Some [0xf0; 0x9d; 0x95; 0xa6]) 4 0 0 0; E 0x6f None 0 0 0 4765;
   E 0x6e None 0 0 0 4766; E 0x3b (Some [0xc5; 0xb3]) 2 0 0 0;
   E 0x6c (Some [0xc2; 0xa8]) 2 4768 0 4769; E 0x61 None 0 0 0 4770;
   E 0x3b (Some [0xc2; 0xa8]) 2 0 0 0; E 0x63 None 0 0 0 4771; E 0x72 None 0 0 0 4772;
   E 0x3b (Some [0xc5; 0xab]) 2 0 0 0; E 0x61 None 0 0 0 4774; E 0x6e None 0 0 0 4775;
   E 0x67 None 0 0 0 4776; E 0x6c None 0 0 0 4777; E 0x65 None 0 0 0 4778;
   E 0x3b (Some [0xe2; 0xa6; 0xa7]) 3 0 0 0; E 0x69 None 0 4781 4780 4782;
   E 0x72 None 0 0 0 4786; E 0x64 None 0 0 0 4790; E 0x6c None 0 0 0 4783;
   E 0x64 None 0 0 0 4784; E 0x65 None 0 0 0 4785; E 0x3b (Some [0xc5; 0xa9]) 2 0 0 0;
   E 0x69 None 0 0 0 4787; E 0x66 None 0 4788 0 4789; E 0x3b (Some [0xe2; 0x96; 0xb5]) 3 0 0 0;
   E 0x3b (Some [0xe2; 0x96; 0xb4]) 3 0 0 0; E 0x6f None 0 0 0 4791; E 0x74 None 0 0 0 4792;
   E 0x3b (Some [0xe2; 0x8b; 0xb0]) 3 0 0 0; E 0x66 None 0 4795 4794 4803;
   E 0x73 None 0 4801 4800 4805; E 0x62 None 0 4797 4796 4818; E 0x65 None 0 4799 0 4821;
   E 0x61 None 0 4798 0 4840; E 0x41 None 0 0 0 4866; E 0x63 None 0 0 0 4869;
   E 0x79 None 0 0 0 4873; E 0x6f None 0 4802 0 4883; E 0x6b None 0 0 0 4923;
   E 0x72 None 0 0 0 4804; E 0x3b (Some [0xf0; 0x9d; 0x94; 0xa5]) 4 0 0 0;
   E 0x6c None 0 4807 4806 4808; E 0x74 None 0 0 0 4812; E 0x63 None 0 0 0 4816;
   E 0x61 None 0 0 0 4809; E 0x73 None 0 0 0 4810; E 0x68 None 0 0 0 4811;
   E 0x3b (Some [0xe2; 0x84; 0x8f]) 3 0 0 0; E 0x72 None 0 0 0 4813; E 0x6f None 0 0 0 4814;
   E 0x6b None 0 0 0 4815; E 0x3b (Some [0xc4; 0xa7]) 2 0 0 0; E 0x72 None 0 0 0 4817;
   E 0x3b (Some [0xf0; 0x9d; 0x92; 0xbd]) 4 0 0 0; E 0x61 None 0 0 0 4819;
   E 0x72 None 0 0 0 4820; E 0x3b (Some [0xe2; 0x84; 0x8f]) 3 0 0 0;
   E 0x6c None 0 4823 4822 4824; E 0x72 None 0 0 0 4828; E 0x61 None 0 0 0 4832;
   E 0x6c None 0 0 0 4825; E 0x69 None 0 0 0 4826; E 0x70 None 0 0 0 4827;
   E 0x3b (Some [0xe2; 0x80; 0xa6]) 3 0 0 0; E 0x63 None 0 0 0 4829; E 0x6f None 0 0 0 4830;
   E 0x6e None 0 0 0 4831; E 0x3b (Some [0xe2; 0x8a; 0xb9]) 3 0 0 0; E 0x72 None 0 0 0 4833;
   E 0x74 None 0 0 0 4834; E 0x73 None 0 0 0 4835; E 0x75 None 0 4836 0 4837;
   E 0x3b (Some [0xe2; 0x99; 0xa5]) 3 0 0 0; E 0x69 None 0 0 0 4838; E 0x74 None 0 0 0 4839;
   E 0x3b (Some [0xe2; 0x99; 0xa5]) 3 0 0 0; E 0x6d None 0 4842 4841 4844;
   E 0x72 None 0 0 0 4848; E 0x6c None 0 4843 0 4860; E 0x69 None 0 0 0 4862;
   E 0x69 None 0 0 0 4845; E 0x6c None 0 0 0 4846; E 0x74 None 0 0 0 4847;
   E 0x3b (Some [0xe2; 0x84; 0x8b]) 3 0 0 0; E 0x72 None 0 4849 0 4850; E 0x64 None 0 0 0 4857;
   E 0x63 None 0 4852 4851 4853; E 0x77 None 0 0 0 4856;
   E 0x3b (Some [0xe2; 0x86; 0x94]) 3 0 0 0; E 0x69 None 0 0 0 4854; E 0x72 None 0 0 0 4855;
   E 0x3b (Some [0xe2; 0xa5; 0x88]) 3 0 0 0; E 0x3b (Some [0xe2; 0x86; 0xad]) 3 0 0 0;
   E 0x63 None 0 0 0 4858; E 0x79 None 0 0 0 4859; E 0x3b (Some [0xd1; 0x8a]) 2 0 0 0;
   E 0x66 None 0 0 0 4861; E 0x3b (Some [0xc2; 0xbd]) 2 0 0 0; E 0x72 None 0 0 0 4863;
   E 0x73 None 0 0 0 4864; E 0x70 None 0 0 0 4865; E 0x3b (Some [0xe2; 0x80; 0x8a]) 3 0 0 0;
   E 0x72 None 0 0 0 4867; E 0x72 None 0 0 0 4868; E 0x3b (Some [0xe2; 0x87; 0x94]) 3 0 0 0;
   E 0x69 None 0 0 0 4870; E 0x72 None 0 0 0 4871; E 0x63 None 0 0 0 4872;
   E 0x3b (Some [0xc4; 0xa5]) 2 0 0 0; E 0x70 None 0 4874 0 4875; E 0x62 None 0 0 0 4879;
   E 0x68 None 0 0 0 4876; E 0x65 None 0 0 0 4877; E 0x6e None 0 0 0 4878;
   E 0x3b (Some [0xe2; 0x80; 0x90]) 3 0 0 0; E 0x75 None 0 0 0 4880; E 0x6c None 0 0 0 4881;
   E 0x6c None 0 0 0 4882; E 0x3b (Some [0xe2; 0x81; 0x83]) 3 0 0 0;
   E 0x6f None 0 4885 4884 4888; E 0x72 None 0 4887 0 4910; E 0x6d None 0 4886 0 4914;
   E 0x61 None 0 0 0 4918; E 0x70 None 0 0 0 4921; E 0x6b None 0 0 0 4889;
   E 0x72 None 0 4890 0 4891; E 0x6c None 0 0 0 4901; E 0x69 None 0 0 0 4892;
   E 0x67 None 0 0 0 4893; E 0x68 None 0 0 0 4894; E 0x74 None 0 0 0 4895;
   E 0x61 None 0 0 0 4896; E 0x72 None 0 0 0 4897; E 0x72 None 0 0 0 4898;
   E 0x6f None 0 0 0 4899; E 0x77 None 0 0 0 4900; E 0x3b (Some [0xe2; 0x86; 0xaa]) 3 0 0 0;
   E 0x65 None 0 0 0 4902; E 0x66 None 0 0 0 4903; E 0x74 None 0 0 0 4904;
   E 0x61 None 0 0 0 4905; E 0x72 None 0 0 0 4906; E 0x72 None 0 0 0 4907;
   E 0x6f None 0 0 0 4908; E 0x77 None 0 0 0 4909; E 0x3b (Some [0xe2; 0x86; 0xa9]) 3 0 0 0;
   E 0x62 None 0 0 0 4911; E 0x61 None 0 0 0 4912; E 0x72 None 0 0 0 4913;
   E 0x3b (Some [0xe2; 0x80; 0x95]) 3 0 0 0; E 0x74 None 0 0 0 4915; E 0x68 None 0 0 0 4916;
   E 0x74 None 0 0 0 4917; E 0x3b (Some [0xe2; 0x88; 0xbb]) 3 0 0 0; E 0x72 None 0 0 0 4919;
   E 0x72 None 0 0 0 4920; E 0x3b (Some [0xe2; 0x87; 0xbf]) 3 0 0 0; E 0x66 None 0 0 0 4922;
   E 0x3b (Some [0xf0; 0x9d; 0x95; 0x99]) 4 0 0 0; E 0x73 None 0 0 0 4924;
   E 0x77 None 0 4925 0 4926; E 0x65 None 0 0 0 4931; E 0x61 None 0 0 0 4927;
   E 0x72 None 0 0 0 4928; E 0x6f None 0 0 0 4929; E 0x77 None 0 0 0 4930;
   E 0x3b (Some [0xe2; 0xa4; 0xa6]) 3 0 0 0; E 0x61 None 0 0 0 4932; E 0x72 None 0 0 0 4933;
   E 0x6f None 0 0 0 4934; E 0x77 None 0 0 0 4935; E 0x3b (Some [0xe2; 0xa4; 0xa5]) 3 0 0 0;
   E 0x68 None 0 4938 4937 4944; E 0x6f None 0 4943 4942 4947; E 0x66 None 0 4940 4939 4950;
   E 0x67 None 0 0 0 4952; E 0x63 None 0 4941 0 4957; E 0x61 None 0 0 0 4964;
   E 0x73 None 0 0 0 4970; E 0x6a None 0 0 0 4973; E 0x63 None 0 0 0 4945;
   E 0x79 None 0 0 0 4946; E 0x3b (Some [0xd1; 0x85]) 2 0 0 0; E 0x70 None 0 0 0 4948;
   E 0x66 None 0 0 0 4949; E 0x3b (Some [0xf0; 0x9d; 0x95; 0x9c]) 4 0 0 0;
   E 0x72 None 0 0 0 4951; E 0x3b (Some [0xf0; 0x9d; 0x94; 0xa8]) 4 0 0 0;
   E 0x72 None 0 0 0 4953; E 0x65 None 0 0 0 4954; E 0x65 None 0 0 0 4955;
   E 0x6e None 0 0 0 4956; E 0x3b (Some [0xc4; 0xb8]) 2 0 0 0; E 0x79 None 0 4958 0 4959;
   E 0x65 None 0 0 0 4960; E 0x3b (Some [0xd0; 0xba]) 2 0 0 0; E 0x64 None 0 0 0 4961;
   E 0x69 None 0 0 0 4962; E 0x6c None 0 0 0 4963; E 0x3b (Some [0xc4; 0xb7]) 2 0 0 0;
   E 0x70 None 0 0 0 4965; E 0x70 None 0 0 0 4966; E 0x61 None 0 0 0 4967;
   E 0x76 None 0 4968 0 4969; E 0x3b (Some [0xce; 0xba]) 2 0 0 0;
   E 0x3b (Some [0xcf; 0xb0]) 2 0 0 0; E 0x63 None 0 0 0 4971; E 0x72 None 0 0 0 4972;
   E 0x3b (Some [0xf0; 0x9d; 0x93; 0x80]) 4 0 0 0; E 0x63 None 0 0 0 4974;
   E 0x79 None 0 0 0 4975; E 0x3b (Some [0xd1; 0x9c]) 2 0 0 0; E 0x6e None 0 4978 4977 4994;
   E 0x73 None 0 4988 4987 4999; E 0x65 None 0 4980 4979 5009; E 0x6c None 0 4985 4984 5010;
   E 0x63 None 0 4982 4981 5026; E 0x64 None 0 0 0 5043; E 0x61 None 0 4983 0 5046;
   E 0x44 None 0 0 0 5056; E 0x6d None 0 0 0 5063; E 0x67 None 0 4986 0 5085;
   E 0x66 None 0 0 0 5097; E 0x75 None 0 4993 4992 5103; E 0x71 None 0 4990 4989 5109;
   E 0x72 None 0 0 0 5158; E 0x70 None 0 4991 0 5166; E 0x6f None 0 0 0 5185;
   E 0x78 None 0 0 0 5192; E 0x74 None 0 0 0 5219; E 0x73 None 0 4995 0 4996;
   E 0x67 None 0 0 0 4998; E 0x70 None 0 0 0 4997; E 0x3b (Some [0xe2; 0x80; 0x82]) 3 0 0 0;
   E 0x3b (Some [0xc5; 0x8b]) 2 0 0 0; E 0x64 None 0 5001 5000 5002].

Definition entities_10 : list sbst_entry :=
  [E 0x69 None 0 0 0 5005; E 0x63 None 0 0 0 5007; E 0x6f None 0 0 0 5003;
   E 0x74 None 0 0 0 5004; E 0x3b (Some [0xe2; 0x89; 0x90]) 3 0 0 0; E 0x6d None 0 0 0 5006;
   E 0x3b (Some [0xe2; 0x89; 0x82]) 3 0 0 0; E 0x72 None 0 0 0 5008;
   E 0x3b (Some [0xe2; 0x84; 0xaf]) 3 0 0 0; E 0x3b (Some [0xe2; 0x85; 0x87]) 3 0 0 0;
   E 0x6c None 0 5012 5011 5014; E 0x73 None 0 0 0 5015; E 0x69 None 0 5013 0 5020;
   E 0x3b (Some [0xe2; 0xaa; 0x99]) 3 0 0 0; E 0x3b (Some [0xe2; 0x84; 0x93]) 3 0 0 0;
   E 0x64 None 0 5016 0 5017; E 0x3b (Some [0xe2; 0xaa; 0x95]) 3 0 0 0; E 0x6f None 0 0 0 5018;
   E 0x74 None 0 0 0 5019; E 0x3b (Some [0xe2; 0xaa; 0x97]) 3 0 0 0; E 0x6e None 0 0 0 5021;
   E 0x74 None 0 0 0 5022; E 0x65 None 0 0 0 5023; E 0x72 None 0 0 0 5024;
   E 0x73 None 0 0 0 5025; E 0x3b (Some [0xe2; 0x8f; 0xa7]) 3 0 0 0;
   E 0x6f None 0 5028 5027 5030; E 0x79 None 0 0 0 5034; E 0x69 None 0 5029 0 5035;
   E 0x61 None 0 0 0 5039; E 0x6c None 0 0 0 5031; E 0x6f None 0 0 0 5032;
   E 0x6e None 0 0 0 5033; E 0x3b (Some [0xe2; 0x89; 0x95]) 3 0 0 0;
   E 0x3b (Some [0xd1; 0x8d]) 2 0 0 0; E 0x72 None 0 0 0 5036;
   E 0x63 (Some [0xc3; 0xaa]) 2 5037 0 5038; E 0x3b (Some [0xe2; 0x89; 0x96]) 3 0 0 0;
   E 0x3b (Some [0xc3; 0xaa]) 2 0 0 0; E 0x72 None 0 0 0 5040; E 0x6f None 0 0 0 5041;
   E 0x6e None 0 0 0 5042; E 0x3b (Some [0xc4; 0x9b]) 2 0 0 0; E 0x6f None 0 0 0 5044;
   E 0x74 None 0 0 0 5045; E 0x3b (Some [0xc4; 0x97]) 2 0 0 0; E 0x73 None 0 5047 0 5048;
   E 0x63 None 0 0 0 5052; E 0x74 None 0 0 0 5049; E 0x65 None 0 0 0 5050;
   E 0x72 None 0 0 0 5051; E 0x3b (Some [0xe2; 0xa9; 0xae]) 3 0 0 0; E 0x75 None 0 0 0 5053;
   E 0x74 None 0 0 0 5054; E 0x65 (Some [0xc3; 0xa9]) 2 0 0 5055;
   E 0x3b (Some [0xc3; 0xa9]) 2 0 0 0; E 0x6f None 0 5057 0 5058; E 0x44 None 0 0 0 5060;
   E 0x74 None 0 0 0 5059; E 0x3b (Some [0xe2; 0x89; 0x91]) 3 0 0 0; E 0x6f None 0 0 0 5061;
   E 0x74 None 0 0 0 5062; E 0x3b (Some [0xe2; 0xa9; 0xb7]) 3 0 0 0;
   E 0x70 None 0 5065 5064 5066; E 0x73 None 0 0 0 5075; E 0x61 None 0 0 0 5082;
   E 0x74 None 0 0 0 5067; E 0x79 None 0 0 0 5068; E 0x73 None 0 5070 5069 5071;
   E 0x76 None 0 0 0 5074; E 0x3b (Some [0xe2; 0x88; 0x85]) 3 0 0 0; E 0x65 None 0 0 0 5072;
   E 0x74 None 0 0 0 5073; E 0x3b (Some [0xe2; 0x88; 0x85]) 3 0 0 0;
   E 0x3b (Some [0xe2; 0x88; 0x85]) 3 0 0 0; E 0x70 None 0 0 0 5076;
   E 0x3b (Some [0xe2; 0x80; 0x83]) 3 5077 0 0; E 0x31 None 0 0 0 5078;
   E 0x34 None 0 5079 0 5080; E 0x33 None 0 0 0 5081; E 0x3b (Some [0xe2; 0x80; 0x85]) 3 0 0 0;
   E 0x3b (Some [0xe2; 0x80; 0x84]) 3 0 0 0; E 0x63 None 0 0 0 5083; E 0x72 None 0 0 0 5084;
   E 0x3b (Some [0xc4; 0x93]) 2 0 0 0; E 0x72 None 0 5087 5086 5088; E 0x73 None 0 0 0 5092;
   E 0x3b (Some [0xe2; 0xaa; 0x9a]) 3 0 0 0; E 0x61 None 0 0 0 5089; E 0x76 None 0 0 0 5090;
   E 0x65 (Some [0xc3; 0xa8]) 2 0 0 5091; E 0x3b (Some [0xc3; 0xa8]) 2 0 0 0;
   E 0x64 None 0 5093 0 5094; E 0x3b (Some [0xe2; 0xaa; 0x96]) 3 0 0 0; E 0x6f None 0 0 0 5095;
   E 0x74 None 0 0 0 5096; E 0x3b (Some [0xe2; 0xaa; 0x98]) 3 0 0 0; E 0x72 None 0 5098 0 5099;
   E 0x44 None 0 0 0 5100; E 0x3b (Some [0xf0; 0x9d; 0x94; 0xa2]) 4 0 0 0;
   E 0x6f None 0 0 0 5101; E 0x74 None 0 0 0 5102; E 0x3b (Some [0xe2; 0x89; 0x92]) 3 0 0 0;
   E 0x72 None 0 5104 0 5105; E 0x6d None 0 0 0 5107; E 0x6f None 0 0 0 5106;
   E 0x3b (Some [0xe2; 0x82; 0xac]) 3 0 0 0; E 0x6c (Some [0xc3; 0xab]) 2 0 0 5108;
   E 0x3b (Some [0xc3; 0xab]) 2 0 0 0; E 0x75 None 0 5111 5110 5113; E 0x76 None 0 0 0 5127;
   E 0x73 None 0 5112 0 5133; E 0x63 None 0 0 0 5149; E 0x65 None 0 5115 5114 5116;
   E 0x69 None 0 0 0 5119; E 0x61 None 0 0 0 5124; E 0x73 None 0 0 0 5117;
   E 0x74 None 0 0 0 5118; E 0x3b (Some [0xe2; 0x89; 0x9f]) 3 0 0 0; E 0x76 None 0 0 0 5120;
   E 0x44 None 0 5121 0 5122; E 0x3b (Some [0xe2; 0x89; 0xa1]) 3 0 0 0; E 0x44 None 0 0 0 5123;
   E 0x3b (Some [0xe2; 0xa9; 0xb8]) 3 0 0 0; E 0x6c None 0 0 0 5125; E 0x73 None 0 0 0 5126;
   E 0x3b (Some [0x3d]) 1 0 0 0; E 0x70 None 0 0 0 5128; E 0x61 None 0 0 0 5129;
   E 0x72 None 0 0 0 5130; E 0x73 None 0 0 0 5131; E 0x6c None 0 0 0 5132;
   E 0x3b (Some [0xe2; 0xa7; 0xa5]) 3 0 0 0; E 0x6c None 0 5134 0 5135; E 0x69 None 0 0 0 5147;
   E 0x61 None 0 0 0 5136; E 0x6e None 0 0 0 5137; E 0x74 None 0 0 0 5138;
   E 0x6c None 0 5139 0 5140; E 0x67 None 0 0 0 5144; E 0x65 None 0 0 0 5141;
   E 0x73 None 0 0 0 5142; E 0x73 None 0 0 0 5143; E 0x3b (Some [0xe2; 0xaa; 0x95]) 3 0 0 0;
   E 0x74 None 0 0 0 5145; E 0x72 None 0 0 0 5146; E 0x3b (Some [0xe2; 0xaa; 0x96]) 3 0 0 0;
   E 0x6d None 0 0 0 5148; E 0x3b (Some [0xe2; 0x89; 0x82]) 3 0 0 0; E 0x6f None 0 5150 0 5151;
   E 0x69 None 0 0 0 5155; E 0x6c None 0 0 0 5152; E 0x6f None 0 0 0 5153;
   E 0x6e None 0 0 0 5154; E 0x3b (Some [0xe2; 0x89; 0x95]) 3 0 0 0; E 0x72 None 0 0 0 5156;
   E 0x63 None 0 0 0 5157; E 0x3b (Some [0xe2; 0x89; 0x96]) 3 0 0 0; E 0x61 None 0 5159 0 5160;
   E 0x44 None 0 0 0 5163; E 0x72 None 0 0 0 5161; E 0x72 None 0 0 0 5162;
   E 0x3b (Some [0xe2; 0xa5; 0xb1]) 3 0 0 0; E 0x6f None 0 0 0 5164; E 0x74 None 0 0 0 5165;
   E 0x3b (Some [0xe2; 0x89; 0x93]) 3 0 0 0; E 0x6c None 0 5168 5167 5169;
   E 0x73 None 0 0 0 5172; E 0x61 None 0 0 0 5180; E 0x75 None 0 0 0 5170;
   E 0x73 None 0 0 0 5171; E 0x3b (Some [0xe2; 0xa9; 0xb1]) 3 0 0 0; E 0x69 None 0 0 0 5173;
   E 0x6c None 0 5175 5174 5176; E 0x76 None 0 0 0 5179; E 0x3b (Some [0xce; 0xb5]) 2 0 0 0;
   E 0x6f None 0 0 0 5177; E 0x6e None 0 0 0 5178; E 0x3b (Some [0xce; 0xb5]) 2 0 0 0;
   E 0x3b (Some [0xcf; 0xb5]) 2 0 0 0; E 0x72 None 0 0 0 5181; E 0x73 None 0 5182 0 5183;
   E 0x3b (Some [0xe2; 0x8b; 0x95]) 3 0 0 0; E 0x6c None 0 0 0 5184;
   E 0x3b (Some [0xe2; 0xa7; 0xa3]) 3 0 0 0; E 0x70 None 0 5186 0 5187; E 0x67 None 0 0 0 5189;
   E 0x66 None 0 0 0 5188; E 0x3b (Some [0xf0; 0x9d; 0x95; 0x96]) 4 0 0 0;
   E 0x6f None 0 0 0 5190; E 0x6e None 0 0 0 5191; E 0x3b (Some [0xc4; 0x99]) 2 0 0 0;
   E 0x69 None 0 5194 5193 5195; E 0x70 None 0 0 0 5198; E 0x63 None 0 0 0 5217;
   E 0x73 None 0 0 0 5196; E 0x74 None 0 0 0 5197; E 0x3b (Some [0xe2; 0x88; 0x83]) 3 0 0 0;
   E 0x6f None 0 5199 0 5200; E 0x65 None 0 0 0 5209; E 0x6e None 0 0 0 5201;
   E 0x65 None 0 0 0 5202; E 0x6e None 0 0 0 5203; E 0x74 None 0 0 0 5204;
   E 0x69 None 0 0 0 5205; E 0x61 None 0 0 0 5206; E 0x6c None 0 0 0 5207;
   E 0x65 None 0 0 0 5208; E 0x3b (Some [0xe2; 0x85; 0x87]) 3 0 0 0; E 0x63 None 0 0 0 5210;
   E 0x74 None 0 0 0 5211; E 0x61 None 0 0 0 5212; E 0x74 None 0 0 0 5213;
   E 0x69 None 0 0 0 5214; E 0x6f None 0 0 0 5215; E 0x6e None 0 0 0 5216;
   E 0x3b (Some [0xe2; 0x84; 0xb0]) 3 0 0 0; E 0x6c None 0 0 0 5218;
   E 0x3b (Some [0x21]) 1 0 0 0; E 0x68 (Some [0xc3; 0xb0]) 2 5220 0 5221;
   E 0x61 None 0 0 0 5222; E 0x3b (Some [0xc3; 0xb0]) 2 0 0 0;
   E 0x3b (Some [0xce; 0xb7]) 2 0 0 0; E 0x69 None 0 5225 5224 5240;
   E 0x72 None 0 5234 5233 5244; E 0x64 None 0 5227 5226 5248; E 0x66 None 0 5232 5231 5251;
   E 0x62 None 0 5229 5228 5253; E 0x63 None 0 0 0 5258; E 0x61 None 0 5230 0 5264;
   E 0x45 None 0 0 0 5277; E 0x67 None 0 0 0 5280; E 0x65 None 0 0 0 5283;
   E 0x74 (Some [0x3e]) 1 5239 5238 5314; E 0x6e None 0 5236 5235 5373; E 0x6f None 0 0 0 5393;
   E 0x6c None 0 5237 0 5396; E 0x6a None 0 0 0 5403; E 0x76 None 0 0 0 5406;
   E 0x73 None 0 0 0 5417; E 0x6d None 0 0 0 5241; E 0x65 None 0 0 0 5242;
   E 0x6c None 0 0 0 5243; E 0x3b (Some [0xe2; 0x84; 0xb7]) 3 0 0 0; E 0x61 None 0 0 0 5245;
   E 0x76 None 0 0 0 5246; E 0x65 None 0 0 0 5247; E 0x3b (Some [0x60]) 1 0 0 0;
   E 0x6f None 0 0 0 5249; E 0x74 None 0 0 0 5250; E 0x3b (Some [0xc4; 0xa1]) 2 0 0 0;
   E 0x72 None 0 0 0 5252; E 0x3b (Some [0xf0; 0x9d; 0x94; 0xa4]) 4 0 0 0;
   E 0x72 None 0 0 0 5254; E 0x65 None 0 0 0 5255; E 0x76 None 0 0 0 5256;
   E 0x65 None 0 0 0 5257; E 0x3b (Some [0xc4; 0x9f]) 2 0 0 0; E 0x79 None 0 5259 0 5260;
   E 0x69 None 0 0 0 5261; E 0x3b (Some [0xd0; 0xb3]) 2 0 0 0; E 0x72 None 0 0 0 5262;
   E 0x63 None 0 0 0 5263; E 0x3b (Some [0xc4; 0x9d]) 2 0 0 0; E 0x6d None 0 5266 5265 5267;
   E 0x70 None 0 0 0 5272; E 0x63 None 0 0 0 5273; E 0x6d None 0 0 0 5268;
   E 0x61 None 0 0 0 5269; E 0x64 None 0 5270 0 5271; E 0x3b (Some [0xce; 0xb3]) 2 0 0 0;
   E 0x3b (Some [0xcf; 0x9d]) 2 0 0 0; E 0x3b (Some [0xe2; 0xaa; 0x86]) 3 0 0 0;
   E 0x75 None 0 0 0 5274; E 0x74 None 0 0 0 5275; E 0x65 None 0 0 0 5276;
   E 0x3b (Some [0xc7; 0xb5]) 2 0 0 0; E 0x6c None 0 5278 0 5279;
   E 0x3b (Some [0xe2; 0x89; 0xa7]) 3 0 0 0; E 0x3b (Some [0xe2; 0xaa; 0x8c]) 3 0 0 0;
   E 0x67 None 0 5281 0 5282; E 0x3b (Some [0xe2; 0x89; 0xab]) 3 0 0 0;
   E 0x3b (Some [0xe2; 0x8b; 0x99]) 3 0 0 0; E 0x71 None 0 5285 5284 5287;
   E 0x73 None 0 0 0 5296; E 0x6c None 0 5286 0 5313; E 0x3b (Some [0xe2; 0x89; 0xa5]) 3 0 0 0;
   E 0x71 None 0 5289 5288 5290; E 0x73 None 0 0 0 5291;
   E 0x3b (Some [0xe2; 0x89; 0xa5]) 3 0 0 0; E 0x3b (Some [0xe2; 0x89; 0xa7]) 3 0 0 0;
   E 0x6c None 0 0 0 5292; E 0x61 None 0 0 0 5293; E 0x6e None 0 0 0 5294;
   E 0x74 None 0 0 0 5295; E 0x3b (Some [0xe2; 0xa9; 0xbe]) 3 0 0 0;
   E 0x64 None 0 5298 5297 5300; E 0x6c None 0 0 0 5307; E 0x63 None 0 5299 0 5311;
   E 0x3b (Some [0xe2; 0xa9; 0xbe]) 3 0 0 0; E 0x6f None 0 0 0 5301; E 0x74 None 0 0 0 5302;
   E 0x6f None 0 5303 0 5304; E 0x3b (Some [0xe2; 0xaa; 0x80]) 3 0 0 0;
   E 0x6c None 0 5305 0 5306; E 0x3b (Some [0xe2; 0xaa; 0x82]) 3 0 0 0;
   E 0x3b (Some [0xe2; 0xaa; 0x84]) 3 0 0 0; E 0x65 None 0 5308 0 5309;
   E 0x3b (Some [0xe2; 0x8b; 0x9b; 0xef; 0xb8; 0x80]) 6 0 0 0; E 0x73 None 0 0 0 5310;
   E 0x3b (Some [0xe2; 0xaa; 0x94]) 3 0 0 0; E 0x63 None 0 0 0 5312;
   E 0x3b (Some [0xe2; 0xaa; 0xa9]) 3 0 0 0; E 0x3b (Some [0xe2; 0x8b; 0x9b]) 3 0 0 0;
   E 0x6c None 0 5316 5315 5320; E 0x72 None 0 5319 0 5324; E 0x63 None 0 5318 5317 5360;
   E 0x64 None 0 0 0 5365; E 0x3b (Some [0x3e]) 1 0 0 0; E 0x71 None 0 0 0 5368;
   E 0x50 None 0 0 0 5321; E 0x61 None 0 0 0 5322; E 0x72 None 0 0 0 5323;
   E 0x3b (Some [0xe2; 0xa6; 0x95]) 3 0 0 0; E 0x65 None 0 5326 5325 5329;
   E 0x73 None 0 5328 0 5341; E 0x64 None 0 5327 0 5344; E 0x61 None 0 0 0 5347;
   E 0x6c None 0 0 0 5356; E 0x71 None 0 0 0 5330; E 0x71 None 0 5331 0 5332;
   E 0x6c None 0 0 0 5337; E 0x6c None 0 0 0 5333; E 0x65 None 0 0 0 5334;
   E 0x73 None 0 0 0 5335; E 0x73 None 0 0 0 5336; E 0x3b (Some [0xe2; 0xaa; 0x8c]) 3 0 0 0;
   E 0x65 None 0 0 0 5338; E 0x73 None 0 0 0 5339; E 0x73 None 0 0 0 5340;
   E 0x3b (Some [0xe2; 0x8b; 0x9b]) 3 0 0 0; E 0x69 None 0 0 0 5342; E 0x6d None 0 0 0 5343;
   E 0x3b (Some [0xe2; 0x89; 0xb3]) 3 0 0 0; E 0x6f None 0 0 0 5345; E 0x74 None 0 0 0 5346;
   E 0x3b (Some [0xe2; 0x8b; 0x97]) 3 0 0 0; E 0x72 None 0 5348 0 5349; E 0x70 None 0 0 0 5351;
   E 0x72 None 0 0 0 5350; E 0x3b (Some [0xe2; 0xa5; 0xb8]) 3 0 0 0; E 0x70 None 0 0 0 5352;
   E 0x72 None 0 0 0 5353; E 0x6f None 0 0 0 5354; E 0x78 None 0 0 0 5355;
   E 0x3b (Some [0xe2; 0xaa; 0x86]) 3 0 0 0; E 0x65 None 0 0 0 5357; E 0x73 None 0 0 0 5358;
   E 0x73 None 0 0 0 5359; E 0x3b (Some [0xe2; 0x89; 0xb7]) 3 0 0 0; E 0x69 None 0 5361 0 5362;
   E 0x63 None 0 0 0 5364; E 0x72 None 0 0 0 5363; E 0x3b (Some [0xe2; 0xa9; 0xba]) 3 0 0 0;
   E 0x3b (Some [0xe2; 0xaa; 0xa7]) 3 0 0 0; E 0x6f None 0 0 0 5366; E 0x74 None 0 0 0 5367;
   E 0x3b (Some [0xe2; 0x8b; 0x97]) 3 0 0 0; E 0x75 None 0 0 0 5369; E 0x65 None 0 0 0 5370;
   E 0x73 None 0 0 0 5371; E 0x74 None 0 0 0 5372; E 0x3b (Some [0xe2; 0xa9; 0xbc]) 3 0 0 0;
   E 0x65 None 0 5375 5374 5377; E 0x73 None 0 0 0 5382; E 0x61 None 0 5376 0 5385;
   E 0x45 None 0 0 0 5392; E 0x71 None 0 5378 0 5379; E 0x3b (Some [0xe2; 0xaa; 0x88]) 3 0 0 0;
   E 0x71 None 0 5380 0 5381; E 0x3b (Some [0xe2; 0xaa; 0x88]) 3 0 0 0;
   E 0x3b (Some [0xe2; 0x89; 0xa9]) 3 0 0 0; E 0x69 None 0 0 0 5383; E 0x6d None 0 0 0 5384;
   E 0x3b (Some [0xe2; 0x8b; 0xa7]) 3 0 0 0; E 0x70 None 0 0 0 5386; E 0x70 None 0 5387 0 5388;
   E 0x3b (Some [0xe2; 0xaa; 0x8a]) 3 0 0 0; E 0x72 None 0 0 0 5389; E 0x6f None 0 0 0 5390;
   E 0x78 None 0 0 0 5391; E 0x3b (Some [0xe2; 0xaa; 0x8a]) 3 0 0 0;
   E 0x3b (Some [0xe2; 0x89; 0xa9]) 3 0 0 0; E 0x70 None 0 0 0 5394; E 0x66 None 0 0 0 5395;
   E 0x3b (Some [0xf0; 0x9d; 0x95; 0x98]) 4 0 0 0; E 0x61 None 0 5398 5397 5400;
   E 0x6a None 0 0 0 5401; E 0x45 None 0 5399 0 5402; E 0x3b (Some [0xe2; 0x89; 0xb7]) 3 0 0 0;
   E 0x3b (Some [0xe2; 0xaa; 0xa5]) 3 0 0 0; E 0x3b (Some [0xe2; 0xaa; 0xa4]) 3 0 0 0;
   E 0x3b (Some [0xe2; 0xaa; 0x92]) 3 0 0 0; E 0x63 None 0 0 0 5404; E 0x79 None 0 0 0 5405;
   E 0x3b (Some [0xd1; 0x93]) 2 0 0 0; E 0x6e None 0 5407 0 5408; E 0x65 None 0 0 0 5410;
   E 0x45 None 0 0 0 5409; E 0x3b (Some [0xe2; 0x89; 0xa9; 0xef; 0xb8; 0x80]) 6 0 0 0;
   E 0x72 None 0 0 0 5411; E 0x74 None 0 0 0 5412; E 0x6e None 0 0 0 5413;
   E 0x65 None 0 0 0 5414; E 0x71 None 0 0 0 5415; E 0x71 None 0 0 0 5416;
   E 0x3b (Some [0xe2; 0x89; 0xa9; 0xef; 0xb8; 0x80]) 6 0 0 0; E 0x69 None 0 5418 0 5419;
   E 0x63 None 0 0 0 5425; E 0x6d None 0 0 0 5420; E 0x65 None 0 5422 5421 5423;
   E 0x6c None 0 0 0 5424; E 0x3b (Some [0xe2; 0x89; 0xb3]) 3 0 0 0;
   E 0x3b (Some [0xe2; 0xaa; 0x8e]) 3 0 0 0; E 0x3b (Some [0xe2; 0xaa; 0x90]) 3 0 0 0;
   E 0x72 None 0 0 0 5426; E 0x3b (Some [0xe2; 0x84; 0x8a]) 3 0 0 0;
   E 0x6c None 0 5429 5428 5442; E 0x74 None 0 5437 5436 5450; E 0x65 None 0 5431 5430 5454;
   E 0x68 None 0 5435 5434 5473; E 0x63 None 0 5433 5432 5487; E 0x64 None 0 0 0 5511;
   E 0x61 None 0 0 0 5514; E 0x69 None 0 0 0 5551; E 0x66 None 0 0 0 5614;
   E 0x77 None 0 5441 5440 5616; E 0x72 None 0 5439 5438 5627; E 0x73 None 0 0 0 5635;
   E 0x6f None 0 0 0 5647; E 0x79 None 0 0 0 5700; E 0x75 None 0 0 0 5705;
   E 0x75 None 0 0 0 5443; E 0x62 None 0 0 0 5444; E 0x73 None 0 0 0 5445;
   E 0x75 None 0 5446 0 5447; E 0x3b (Some [0xe2; 0x99; 0xa3]) 3 0 0 0; E 0x69 None 0 0 0 5448;
   E 0x74 None 0 0 0 5449; E 0x3b (Some [0xe2; 0x99; 0xa3]) 3 0 0 0; E 0x64 None 0 0 0 5451;
   E 0x6f None 0 0 0 5452; E 0x74 None 0 0 0 5453; E 0x3b (Some [0xe2; 0x8b; 0xaf]) 3 0 0 0;
   E 0x6d None 0 5456 5455 5457; E 0x6e None 0 0 0 5462; E 0x64 None 0 0 0 5470;
   E 0x70 None 0 0 0 5458; E 0x74 None 0 0 0 5459; E 0x79 None 0 0 0 5460;
   E 0x76 None 0 0 0 5461; E 0x3b (Some [0xe2; 0xa6; 0xb2]) 3 0 0 0;
   E 0x74 (Some [0xc2; 0xa2]) 2 0 0 5463; E 0x65 None 0 5464 0 5465;
   E 0x3b (Some [0xc2; 0xa2]) 2 0 0 0; E 0x72 None 0 0 0 5466; E 0x64 None 0 0 0 5467;
   E 0x6f None 0 0 0 5468; E 0x74 None 0 0 0 5469; E 0x3b (Some [0xc2; 0xb7]) 2 0 0 0;
   E 0x69 None 0 0 0 5471; E 0x6c (Some [0xc2; 0xb8]) 2 0 0 5472;
   E 0x3b (Some [0xc2; 0xb8]) 2 0 0 0; E 0x65 None 0 5475 5474 5476; E 0x69 None 0 0 0 5484;
   E 0x63 None 0 0 0 5485; E 0x63 None 0 0 0 5477; E 0x6b None 0 0 0 5478;
   E 0x6d None 0 5479 0 5480; E 0x3b (Some [0xe2; 0x9c; 0x93]) 3 0 0 0; E 0x61 None 0 0 0 5481;
   E 0x72 None 0 0 0 5482; E 0x6b None 0 0 0 5483; E 0x3b (Some [0xe2; 0x9c; 0x93]) 3 0 0 0;
   E 0x3b (Some [0xcf; 0x87]) 2 0 0 0; E 0x79 None 0 0 0 5486;
   E 0x3b (Some [0xd1; 0x87]) 2 0 0 0; E 0x69 None 0 5489 5488 5491; E 0x75 None 0 0 0 5494;
   E 0x65 None 0 5490 0 5500; E 0x61 None 0 0 0 5504; E 0x72 None 0 0 0 5492;
   E 0x63 None 0 0 0 5493; E 0x3b (Some [0xc4; 0x89]) 2 0 0 0; E 0x70 None 0 0 0 5495;
   E 0x73 None 0 0 0 5496; E 0x73 None 0 5497 0 5498; E 0x3b (Some [0xe2; 0xa9; 0x8c]) 3 0 0 0;
   E 0x6d None 0 0 0 5499; E 0x3b (Some [0xe2; 0xa9; 0x90]) 3 0 0 0].

Definition entities_11 : list sbst_entry :=
  [E 0x64 None 0 0 0 5501; E 0x69 None 0 0 0 5502; E 0x6c (Some [0xc3; 0xa7]) 2 0 0 5503;
   E 0x3b (Some [0xc3; 0xa7]) 2 0 0 0; E 0x72 None 0 5505 0 5506; E 0x70 None 0 0 0 5509;
   E 0x6f None 0 0 0 5507; E 0x6e None 0 0 0 5508; E 0x3b (Some [0xc4; 0x8d]) 2 0 0 0;
   E 0x73 None 0 0 0 5510; E 0x3b (Some [0xe2; 0xa9; 0x8d]) 3 0 0 0; E 0x6f None 0 0 0 5512;
   E 0x74 None 0 0 0 5513; E 0x3b (Some [0xc4; 0x8b]) 2 0 0 0; E 0x70 None 0 5516 5515 5517;
   E 0x72 None 0 0 0 5541; E 0x63 None 0 0 0 5547; E 0x63 None 0 5519 5518 5523;
   E 0x73 None 0 5522 0 5529; E 0x61 None 0 5521 5520 5530; E 0x62 None 0 0 0 5533;
   E 0x3b (Some [0xe2; 0x88; 0xa9]) 3 0 0 0; E 0x64 None 0 0 0 5538; E 0x75 None 0 5524 0 5525;
   E 0x61 None 0 0 0 5527; E 0x70 None 0 0 0 5526; E 0x3b (Some [0xe2; 0xa9; 0x87]) 3 0 0 0;
   E 0x70 None 0 0 0 5528; E 0x3b (Some [0xe2; 0xa9; 0x8b]) 3 0 0 0;
   E 0x3b (Some [0xe2; 0x88; 0xa9; 0xef; 0xb8; 0x80]) 6 0 0 0; E 0x6e None 0 0 0 5531;
   E 0x64 None 0 0 0 5532; E 0x3b (Some [0xe2; 0xa9; 0x84]) 3 0 0 0; E 0x72 None 0 0 0 5534;
   E 0x63 None 0 0 0 5535; E 0x75 None 0 0 0 5536; E 0x70 None 0 0 0 5537;
   E 0x3b (Some [0xe2; 0xa9; 0x89]) 3 0 0 0; E 0x6f None 0 0 0 5539; E 0x74 None 0 0 0 5540;
   E 0x3b (Some [0xe2; 0xa9; 0x80]) 3 0 0 0; E 0x6f None 0 5542 0 5543; E 0x65 None 0 0 0 5545;
   E 0x6e None 0 0 0 5544; E 0x3b (Some [0xcb; 0x87]) 2 0 0 0; E 0x74 None 0 0 0 5546;
   E 0x3b (Some [0xe2; 0x81; 0x81]) 3 0 0 0; E 0x75 None 0 0 0 5548; E 0x74 None 0 0 0 5549;
   E 0x65 None 0 0 0 5550; E 0x3b (Some [0xc4; 0x87]) 2 0 0 0; E 0x72 None 0 0 0 5552;
   E 0x65 None 0 5554 5553 5559; E 0x6d None 0 5558 5557 5560; E 0x45 None 0 5556 5555 5563;
   E 0x63 None 0 0 0 5564; E 0x3b (Some [0xe2; 0x97; 0x8b]) 3 0 0 0; E 0x73 None 0 0 0 5605;
   E 0x66 None 0 0 0 5609; E 0x3b (Some [0xe2; 0x89; 0x97]) 3 0 0 0; E 0x69 None 0 0 0 5561;
   E 0x64 None 0 0 0 5562; E 0x3b (Some [0xe2; 0xab; 0xaf]) 3 0 0 0;
   E 0x3b (Some [0xe2; 0xa7; 0x83]) 3 0 0 0; E 0x65 None 0 5566 5565 5567;
   E 0x6c None 0 0 0 5569; E 0x3b (Some [0xcb; 0x86]) 2 0 0 0; E 0x71 None 0 0 0 5568;
   E 0x3b (Some [0xe2; 0x89; 0x97]) 3 0 0 0; E 0x65 None 0 0 0 5570; E 0x64 None 0 5571 0 5572;
   E 0x61 None 0 0 0 5590; E 0x61 None 0 5574 5573 5577; E 0x64 None 0 5576 0 5580;
   E 0x53 None 0 5575 0 5584; E 0x52 None 0 0 0 5585; E 0x63 None 0 0 0 5586;
   E 0x73 None 0 0 0 5578; E 0x74 None 0 0 0 5579; E 0x3b (Some [0xe2; 0x8a; 0x9b]) 3 0 0 0;
   E 0x61 None 0 0 0 5581; E 0x73 None 0 0 0 5582; E 0x68 None 0 0 0 5583;
   E 0x3b (Some [0xe2; 0x8a; 0x9d]) 3 0 0 0; E 0x3b (Some [0xe2; 0x93; 0x88]) 3 0 0 0;
   E 0x3b (Some [0xc2; 0xae]) 2 0 0 0; E 0x69 None 0 0 0 5587; E 0x72 None 0 0 0 5588;
   E 0x63 None 0 0 0 5589; E 0x3b (Some [0xe2; 0x8a; 0x9a]) 3 0 0 0; E 0x72 None 0 0 0 5591;
   E 0x72 None 0 0 0 5592; E 0x6f None 0 0 0 5593; E 0x77 None 0 0 0 5594;
   E 0x72 None 0 5595 0 5596; E 0x6c None 0 0 0 5601; E 0x69 None 0 0 0 5597;
   E 0x67 None 0 0 0 5598; E 0x68 None 0 0 0 5599; E 0x74 None 0 0 0 5600;
   E 0x3b (Some [0xe2; 0x86; 0xbb]) 3 0 0 0; E 0x65 None 0 0 0 5602; E 0x66 None 0 0 0 5603;
   E 0x74 None 0 0 0 5604; E 0x3b (Some [0xe2; 0x86; 0xba]) 3 0 0 0; E 0x63 None 0 0 0 5606;
   E 0x69 None 0 0 0 5607; E 0x72 None 0 0 0 5608; E 0x3b (Some [0xe2; 0xa7; 0x82]) 3 0 0 0;
   E 0x6e None 0 0 0 5610; E 0x69 None 0 0 0 5611; E 0x6e None 0 0 0 5612;
   E 0x74 None 0 0 0 5613; E 0x3b (Some [0xe2; 0xa8; 0x90]) 3 0 0 0; E 0x72 None 0 0 0 5615;
   E 0x3b (Some [0xf0; 0x9d; 0x94; 0xa0]) 4 0 0 0; E 0x69 None 0 5617 0 5618;
   E 0x63 None 0 0 0 5621; E 0x6e None 0 0 0 5619; E 0x74 None 0 0 0 5620;
   E 0x3b (Some [0xe2; 0x88; 0xb1]) 3 0 0 0; E 0x6f None 0 0 0 5622; E 0x6e None 0 0 0 5623;
   E 0x69 None 0 0 0 5624; E 0x6e None 0 0 0 5625; E 0x74 None 0 0 0 5626;
   E 0x3b (Some [0xe2; 0x88; 0xb2]) 3 0 0 0; E 0x6f None 0 5628 0 5629; E 0x61 None 0 0 0 5632;
   E 0x73 None 0 0 0 5630; E 0x73 None 0 0 0 5631; E 0x3b (Some [0xe2; 0x9c; 0x97]) 3 0 0 0;
   E 0x72 None 0 0 0 5633; E 0x72 None 0 0 0 5634; E 0x3b (Some [0xe2; 0x86; 0xb5]) 3 0 0 0;
   E 0x75 None 0 5636 0 5637; E 0x63 None 0 0 0 5645; E 0x70 None 0 5638 0 5639;
   E 0x62 None 0 0 0 5642; E 0x65 None 0 5640 0 5641; E 0x3b (Some [0xe2; 0xab; 0x90]) 3 0 0 0;
   E 0x3b (Some [0xe2; 0xab; 0x92]) 3 0 0 0; E 0x65 None 0 5643 0 5644;
   E 0x3b (Some [0xe2; 0xab; 0x8f]) 3 0 0 0; E 0x3b (Some [0xe2; 0xab; 0x91]) 3 0 0 0;
   E 0x72 None 0 0 0 5646; E 0x3b (Some [0xf0; 0x9d; 0x92; 0xb8]) 4 0 0 0;
   E 0x6e None 0 5649 5648 5651; E 0x70 None 0 0 0 5661; E 0x6d None 0 5650 0 5672;
   E 0x6c None 0 0 0 5693; E 0x69 None 0 5652 0 5653; E 0x67 None 0 0 0 5656;
   E 0x6e None 0 0 0 5654; E 0x74 None 0 0 0 5655; E 0x3b (Some [0xe2; 0x88; 0xae]) 3 0 0 0;
   E 0x64 None 0 5657 0 5658; E 0x3b (Some [0xe2; 0x89; 0x85]) 3 0 0 0; E 0x6f None 0 0 0 5659;
   E 0x74 None 0 0 0 5660; E 0x3b (Some [0xe2; 0xa9; 0xad]) 3 0 0 0;
   E 0x72 None 0 5663 5662 5664; E 0x79 (Some [0xc2; 0xa9]) 2 0 0 5667; E 0x66 None 0 0 0 5671;
   E 0x6f None 0 0 0 5665; E 0x64 None 0 0 0 5666; E 0x3b (Some [0xe2; 0x88; 0x90]) 3 0 0 0;
   E 0x73 None 0 5668 0 5669; E 0x3b (Some [0xc2; 0xa9]) 2 0 0 0; E 0x72 None 0 0 0 5670;
   E 0x3b (Some [0xe2; 0x84; 0x97]) 3 0 0 0; E 0x3b (Some [0xf0; 0x9d; 0x95; 0x94]) 4 0 0 0;
   E 0x70 None 0 5673 0 5674; E 0x6d None 0 0 0 5689; E 0x66 None 0 5676 5675 5677;
   E 0x6c None 0 0 0 5679; E 0x3b (Some [0xe2; 0x88; 0x81]) 3 0 0 0; E 0x6e None 0 0 0 5678;
   E 0x3b (Some [0xe2; 0x88; 0x98]) 3 0 0 0; E 0x65 None 0 0 0 5680; E 0x78 None 0 5681 0 5682;
   E 0x6d None 0 0 0 5685; E 0x65 None 0 0 0 5683; E 0x73 None 0 0 0 5684;
   E 0x3b (Some [0xe2; 0x84; 0x82]) 3 0 0 0; E 0x65 None 0 0 0 5686; E 0x6e None 0 0 0 5687;
   E 0x74 None 0 0 0 5688; E 0x3b (Some [0xe2; 0x88; 0x81]) 3 0 0 0; E 0x61 None 0 0 0 5690;
   E 0x74 None 0 5691 0 5692; E 0x3b (Some [0x2c]) 1 0 0 0; E 0x3b (Some [0x40]) 1 0 0 0;
   E 0x6f None 0 0 0 5694; E 0x6e None 0 0 0 5695; E 0x65 None 0 5696 0 5697;
   E 0x3b (Some [0x3a]) 1 0 0 0; E 0x71 None 0 5698 0 5699;
   E 0x3b (Some [0xe2; 0x89; 0x94]) 3 0 0 0; E 0x3b (Some [0xe2; 0x89; 0x94]) 3 0 0 0;
   E 0x6c None 0 0 0 5701; E 0x63 None 0 0 0 5702; E 0x74 None 0 0 0 5703;
   E 0x79 None 0 0 0 5704; E 0x3b (Some [0xe2; 0x8c; 0xad]) 3 0 0 0;
   E 0x70 None 0 5707 5706 5712; E 0x76 None 0 5711 5710 5735; E 0x65 None 0 5709 5708 5738;
   E 0x6c None 0 0 0 5744; E 0x64 None 0 0 0 5750; E 0x77 None 0 0 0 5757;
   E 0x72 None 0 0 0 5760; E 0x64 None 0 5714 5713 5718; E 0x73 None 0 5717 0 5721;
   E 0x62 None 0 5716 5715 5722; E 0x63 None 0 0 0 5727;
   E 0x3b (Some [0xe2; 0x88; 0xaa]) 3 0 0 0; E 0x6f None 0 0 0 5733; E 0x6f None 0 0 0 5719;
   E 0x74 None 0 0 0 5720; E 0x3b (Some [0xe2; 0x8a; 0x8d]) 3 0 0 0;
   E 0x3b (Some [0xe2; 0x88; 0xaa; 0xef; 0xb8; 0x80]) 6 0 0 0; E 0x72 None 0 0 0 5723;
   E 0x63 None 0 0 0 5724; E 0x61 None 0 0 0 5725; E 0x70 None 0 0 0 5726;
   E 0x3b (Some [0xe2; 0xa9; 0x88]) 3 0 0 0; E 0x75 None 0 5728 0 5729; E 0x61 None 0 0 0 5731;
   E 0x70 None 0 0 0 5730; E 0x3b (Some [0xe2; 0xa9; 0x8a]) 3 0 0 0; E 0x70 None 0 0 0 5732;
   E 0x3b (Some [0xe2; 0xa9; 0x86]) 3 0 0 0; E 0x72 None 0 0 0 5734;
   E 0x3b (Some [0xe2; 0xa9; 0x85]) 3 0 0 0; E 0x65 None 0 0 0 5736; E 0x65 None 0 0 0 5737;
   E 0x3b (Some [0xe2; 0x8b; 0x8e]) 3 0 0 0; E 0x73 None 0 5739 0 5740; E 0x70 None 0 0 0 5742;
   E 0x63 None 0 0 0 5741; E 0x3b (Some [0xe2; 0x8b; 0x9f]) 3 0 0 0; E 0x72 None 0 0 0 5743;
   E 0x3b (Some [0xe2; 0x8b; 0x9e]) 3 0 0 0; E 0x61 None 0 0 0 5745; E 0x72 None 0 0 0 5746;
   E 0x72 None 0 0 0 5747; E 0x70 None 0 5748 0 5749; E 0x3b (Some [0xe2; 0x86; 0xb6]) 3 0 0 0;
   E 0x3b (Some [0xe2; 0xa4; 0xbd]) 3 0 0 0; E 0x61 None 0 0 0 5751; E 0x72 None 0 0 0 5752;
   E 0x72 None 0 0 0 5753; E 0x72 None 0 5754 0 5755; E 0x6c None 0 0 0 5756;
   E 0x3b (Some [0xe2; 0xa4; 0xb5]) 3 0 0 0; E 0x3b (Some [0xe2; 0xa4; 0xb8]) 3 0 0 0;
   E 0x65 None 0 0 0 5758; E 0x64 None 0 0 0 5759; E 0x3b (Some [0xe2; 0x8b; 0x8f]) 3 0 0 0;
   E 0x72 None 0 5762 5761 5764; E 0x76 None 0 0 0 5767; E 0x6c None 0 5763 0 5784;
   E 0x61 None 0 0 0 5807; E 0x65 None 0 0 0 5765; E 0x6e (Some [0xc2; 0xa4]) 2 0 0 5766;
   E 0x3b (Some [0xc2; 0xa4]) 2 0 0 0; E 0x65 None 0 0 0 5768; E 0x61 None 0 0 0 5769;
   E 0x72 None 0 0 0 5770; E 0x72 None 0 0 0 5771; E 0x6f None 0 0 0 5772;
   E 0x77 None 0 0 0 5773; E 0x72 None 0 5774 0 5775; E 0x6c None 0 0 0 5780;
   E 0x69 None 0 0 0 5776; E 0x67 None 0 0 0 5777; E 0x68 None 0 0 0 5778;
   E 0x74 None 0 0 0 5779; E 0x3b (Some [0xe2; 0x86; 0xb7]) 3 0 0 0; E 0x65 None 0 0 0 5781;
   E 0x66 None 0 0 0 5782; E 0x74 None 0 0 0 5783; E 0x3b (Some [0xe2; 0x86; 0xb6]) 3 0 0 0;
   E 0x79 None 0 0 0 5785; E 0x76 None 0 5787 5786 5788; E 0x77 None 0 0 0 5791;
   E 0x65 None 0 0 0 5796; E 0x65 None 0 0 0 5789; E 0x65 None 0 0 0 5790;
   E 0x3b (Some [0xe2; 0x8b; 0x8e]) 3 0 0 0; E 0x65 None 0 0 0 5792; E 0x64 None 0 0 0 5793;
   E 0x67 None 0 0 0 5794; E 0x65 None 0 0 0 5795; E 0x3b (Some [0xe2; 0x8b; 0x8f]) 3 0 0 0;
   E 0x71 None 0 0 0 5797; E 0x73 None 0 5798 0 5799; E 0x70 None 0 0 0 5803;
   E 0x75 None 0 0 0 5800; E 0x63 None 0 0 0 5801; E 0x63 None 0 0 0 5802;
   E 0x3b (Some [0xe2; 0x8b; 0x9f]) 3 0 0 0; E 0x72 None 0 0 0 5804; E 0x65 None 0 0 0 5805;
   E 0x63 None 0 0 0 5806; E 0x3b (Some [0xe2; 0x8b; 0x9e]) 3 0 0 0; E 0x72 None 0 0 0 5808;
   E 0x72 None 0 0 0 5809; E 0x6d None 0 5810 0 5811; E 0x3b (Some [0xe2; 0x86; 0xb7]) 3 0 0 0;
   E 0x3b (Some [0xe2; 0xa4; 0xbc]) 3 0 0 0; E 0x69 None 0 5814 5813 5831;
   E 0x73 None 0 5824 5823 5875; E 0x63 None 0 5816 5815 5888; E 0x66 None 0 5821 5820 5895;
   E 0x61 None 0 5818 5817 5902; E 0x62 None 0 0 0 5920; E 0x48 None 0 5819 0 5930;
   E 0x41 None 0 0 0 5933; E 0x68 None 0 0 0 5936; E 0x65 None 0 5822 0 5942;
   E 0x64 None 0 0 0 5954; E 0x77 None 0 5829 5828 5970; E 0x6f None 0 5826 5825 5976;
   E 0x72 None 0 0 0 6061; E 0x6c None 0 5827 0 6077; E 0x6a None 0 0 0 6086;
   E 0x7a None 0 0 0 6089; E 0x75 None 0 5830 0 6099; E 0x74 None 0 0 0 6107;
   E 0x67 None 0 5833 5832 5836; E 0x76 None 0 5835 0 5841; E 0x65 None 0 5834 0 5858;
   E 0x61 None 0 0 0 5859; E 0x73 None 0 0 0 5872; E 0x61 None 0 0 0 5837;
   E 0x6d None 0 0 0 5838; E 0x6d None 0 0 0 5839; E 0x61 None 0 0 0 5840;
   E 0x3b (Some [0xcf; 0x9d]) 2 0 0 0; E 0x69 None 0 5843 5842 5844; E 0x6f None 0 0 0 5855;
   E 0x3b (Some [0xc3; 0xb7]) 2 0 0 0; E 0x64 None 0 0 0 5845;
   E 0x65 (Some [0xc3; 0xb7]) 2 0 0 5846; E 0x6f None 0 5847 0 5848;
   E 0x3b (Some [0xc3; 0xb7]) 2 0 0 0; E 0x6e None 0 0 0 5849; E 0x74 None 0 0 0 5850;
   E 0x69 None 0 0 0 5851; E 0x6d None 0 0 0 5852; E 0x65 None 0 0 0 5853;
   E 0x73 None 0 0 0 5854; E 0x3b (Some [0xe2; 0x8b; 0x87]) 3 0 0 0; E 0x6e None 0 0 0 5856;
   E 0x78 None 0 0 0 5857; E 0x3b (Some [0xe2; 0x8b; 0x87]) 3 0 0 0;
   E 0x3b (Some [0xc2; 0xa8]) 2 0 0 0; E 0x6d None 0 0 0 5860; E 0x6f None 0 5862 5861 5863;
   E 0x73 None 0 0 0 5871; E 0x3b (Some [0xe2; 0x8b; 0x84]) 3 0 0 0; E 0x6e None 0 0 0 5864;
   E 0x64 None 0 0 0 5865; E 0x73 None 0 5866 0 5867; E 0x3b (Some [0xe2; 0x8b; 0x84]) 3 0 0 0;
   E 0x75 None 0 0 0 5868; E 0x69 None 0 0 0 5869; E 0x74 None 0 0 0 5870;
   E 0x3b (Some [0xe2; 0x99; 0xa6]) 3 0 0 0; E 0x3b (Some [0xe2; 0x99; 0xa6]) 3 0 0 0;
   E 0x69 None 0 0 0 5873; E 0x6e None 0 0 0 5874; E 0x3b (Some [0xe2; 0x8b; 0xb2]) 3 0 0 0;
   E 0x6f None 0 5877 5876 5878; E 0x74 None 0 0 0 5880; E 0x63 None 0 0 0 5884;
   E 0x6c None 0 0 0 5879; E 0x3b (Some [0xe2; 0xa7; 0xb6]) 3 0 0 0; E 0x72 None 0 0 0 5881;
   E 0x6f None 0 0 0 5882; E 0x6b None 0 0 0 5883; E 0x3b (Some [0xc4; 0x91]) 2 0 0 0;
   E 0x79 None 0 5885 0 5886; E 0x72 None 0 0 0 5887; E 0x3b (Some [0xd1; 0x95]) 2 0 0 0;
   E 0x3b (Some [0xf0; 0x9d; 0x92; 0xb9]) 4 0 0 0; E 0x79 None 0 5889 0 5890;
   E 0x61 None 0 0 0 5891; E 0x3b (Some [0xd0; 0xb4]) 2 0 0 0; E 0x72 None 0 0 0 5892;
   E 0x6f None 0 0 0 5893; E 0x6e None 0 0 0 5894; E 0x3b (Some [0xc4; 0x8f]) 2 0 0 0;
   E 0x72 None 0 5896 0 5897; E 0x69 None 0 0 0 5898;
   E 0x3b (Some [0xf0; 0x9d; 0x94; 0xa1]) 4 0 0 0; E 0x73 None 0 0 0 5899;
   E 0x68 None 0 0 0 5900; E 0x74 None 0 0 0 5901; E 0x3b (Some [0xe2; 0xa5; 0xbf]) 3 0 0 0;
   E 0x72 None 0 5904 5903 5906; E 0x73 None 0 0 0 5908; E 0x6c None 0 5905 0 5912;
   E 0x67 None 0 0 0 5916; E 0x72 None 0 0 0 5907; E 0x3b (Some [0xe2; 0x86; 0x93]) 3 0 0 0;
   E 0x68 None 0 0 0 5909; E 0x76 None 0 5910 0 5911; E 0x3b (Some [0xe2; 0x80; 0x90]) 3 0 0 0;
   E 0x3b (Some [0xe2; 0x8a; 0xa3]) 3 0 0 0; E 0x65 None 0 0 0 5913; E 0x74 None 0 0 0 5914;
   E 0x68 None 0 0 0 5915; E 0x3b (Some [0xe2; 0x84; 0xb8]) 3 0 0 0; E 0x67 None 0 0 0 5917;
   E 0x65 None 0 0 0 5918; E 0x72 None 0 0 0 5919; E 0x3b (Some [0xe2; 0x80; 0xa0]) 3 0 0 0;
   E 0x6c None 0 5921 0 5922; E 0x6b None 0 0 0 5925; E 0x61 None 0 0 0 5923;
   E 0x63 None 0 0 0 5924; E 0x3b (Some [0xcb; 0x9d]) 2 0 0 0; E 0x61 None 0 0 0 5926;
   E 0x72 None 0 0 0 5927; E 0x6f None 0 0 0 5928; E 0x77 None 0 0 0 5929;
   E 0x3b (Some [0xe2; 0xa4; 0x8f]) 3 0 0 0; E 0x61 None 0 0 0 5931; E 0x72 None 0 0 0 5932;
   E 0x3b (Some [0xe2; 0xa5; 0xa5]) 3 0 0 0; E 0x72 None 0 0 0 5934; E 0x72 None 0 0 0 5935;
   E 0x3b (Some [0xe2; 0x87; 0x93]) 3 0 0 0; E 0x61 None 0 0 0 5937; E 0x72 None 0 0 0 5938;
   E 0x72 None 0 5939 0 5940; E 0x6c None 0 0 0 5941; E 0x3b (Some [0xe2; 0x87; 0x82]) 3 0 0 0;
   E 0x3b (Some [0xe2; 0x87; 0x83]) 3 0 0 0; E 0x6c None 0 5944 5943 5945;
   E 0x6d None 0 0 0 5948; E 0x67 (Some [0xc2; 0xb0]) 2 0 0 5953; E 0x74 None 0 0 0 5946;
   E 0x61 None 0 0 0 5947; E 0x3b (Some [0xce; 0xb4]) 2 0 0 0; E 0x70 None 0 0 0 5949;
   E 0x74 None 0 0 0 5950; E 0x79 None 0 0 0 5951; E 0x76 None 0 0 0 5952;
   E 0x3b (Some [0xe2; 0xa6; 0xb1]) 3 0 0 0; E 0x3b (Some [0xc2; 0xb0]) 2 0 0 0;
   E 0x61 None 0 5956 5955 5957; E 0x6f None 0 0 0 5965;
   E 0x3b (Some [0xe2; 0x85; 0x86]) 3 0 0 0; E 0x72 None 0 5958 0 5959; E 0x67 None 0 0 0 5961;
   E 0x72 None 0 0 0 5960; E 0x3b (Some [0xe2; 0x87; 0x8a]) 3 0 0 0; E 0x67 None 0 0 0 5962;
   E 0x65 None 0 0 0 5963; E 0x72 None 0 0 0 5964; E 0x3b (Some [0xe2; 0x80; 0xa1]) 3 0 0 0;
   E 0x74 None 0 0 0 5966; E 0x73 None 0 0 0 5967; E 0x65 None 0 0 0 5968;
   E 0x71 None 0 0 0 5969; E 0x3b (Some [0xe2; 0xa9; 0xb7]) 3 0 0 0; E 0x61 None 0 0 0 5971;
   E 0x6e None 0 0 0 5972; E 0x67 None 0 0 0 5973; E 0x6c None 0 0 0 5974;
   E 0x65 None 0 0 0 5975; E 0x3b (Some [0xe2; 0xa6; 0xa6]) 3 0 0 0;
   E 0x74 None 0 5978 5977 5981; E 0x77 None 0 5980 0 6007; E 0x70 None 0 5979 0 6043;
   E 0x6c None 0 0 0 6045; E 0x75 None 0 0 0 6049; E 0x6d None 0 5983 5982 5986;
   E 0x73 None 0 5985 0 5991; E 0x65 None 0 5984 0 5997; E 0x3b (Some [0xcb; 0x99]) 2 0 0 0;
   E 0x70 None 0 0 0 6003; E 0x69 None 0 0 0 5987; E 0x6e None 0 0 0 5988;
   E 0x75 None 0 0 0 5989; E 0x73 None 0 0 0 5990; E 0x3b (Some [0xe2; 0x88; 0xb8]) 3 0 0 0;
   E 0x71 None 0 0 0 5992; E 0x75 None 0 0 0 5993; E 0x61 None 0 0 0 5994;
   E 0x72 None 0 0 0 5995; E 0x65 None 0 0 0 5996; E 0x3b (Some [0xe2; 0x8a; 0xa1]) 3 0 0 0;
   E 0x71 None 0 0 0 5998; E 0x64 None 0 5999 0 6000; E 0x3b (Some [0xe2; 0x89; 0x90]) 3 0 0 0].

Definition entities_12 : list sbst_entry :=
  [E 0x6f None 0 0 0 6001; E 0x74 None 0 0 0 6002; E 0x3b (Some [0xe2; 0x89; 0x91]) 3 0 0 0;
   E 0x6c None 0 0 0 6004; E 0x75 None 0 0 0 6005; E 0x73 None 0 0 0 6006;
   E 0x3b (Some [0xe2; 0x88; 0x94]) 3 0 0 0; E 0x6e None 0 0 0 6008;
   E 0x64 None 0 6010 6009 6011; E 0x68 None 0 0 0 6021; E 0x61 None 0 0 0 6038;
   E 0x6f None 0 0 0 6012; E 0x77 None 0 0 0 6013; E 0x6e None 0 0 0 6014;
   E 0x61 None 0 0 0 6015; E 0x72 None 0 0 0 6016; E 0x72 None 0 0 0 6017;
   E 0x6f None 0 0 0 6018; E 0x77 None 0 0 0 6019; E 0x73 None 0 0 0 6020;
   E 0x3b (Some [0xe2; 0x87; 0x8a]) 3 0 0 0; E 0x61 None 0 0 0 6022; E 0x72 None 0 0 0 6023;
   E 0x70 None 0 0 0 6024; E 0x6f None 0 0 0 6025; E 0x6f None 0 0 0 6026;
   E 0x6e None 0 0 0 6027; E 0x72 None 0 6028 0 6029; E 0x6c None 0 0 0 6034;
   E 0x69 None 0 0 0 6030; E 0x67 None 0 0 0 6031; E 0x68 None 0 0 0 6032;
   E 0x74 None 0 0 0 6033; E 0x3b (Some [0xe2; 0x87; 0x82]) 3 0 0 0; E 0x65 None 0 0 0 6035;
   E 0x66 None 0 0 0 6036; E 0x74 None 0 0 0 6037; E 0x3b (Some [0xe2; 0x87; 0x83]) 3 0 0 0;
   E 0x72 None 0 0 0 6039; E 0x72 None 0 0 0 6040; E 0x6f None 0 0 0 6041;
   E 0x77 None 0 0 0 6042; E 0x3b (Some [0xe2; 0x86; 0x93]) 3 0 0 0; E 0x66 None 0 0 0 6044;
   E 0x3b (Some [0xf0; 0x9d; 0x95; 0x95]) 4 0 0 0; E 0x6c None 0 0 0 6046;
   E 0x61 None 0 0 0 6047; E 0x72 None 0 0 0 6048; E 0x3b (Some [0x24]) 1 0 0 0;
   E 0x62 None 0 0 0 6050; E 0x6c None 0 0 0 6051; E 0x65 None 0 0 0 6052;
   E 0x62 None 0 0 0 6053; E 0x61 None 0 0 0 6054; E 0x72 None 0 0 0 6055;
   E 0x77 None 0 0 0 6056; E 0x65 None 0 0 0 6057; E 0x64 None 0 0 0 6058;
   E 0x67 None 0 0 0 6059; E 0x65 None 0 0 0 6060; E 0x3b (Some [0xe2; 0x8c; 0x86]) 3 0 0 0;
   E 0x63 None 0 6062 0 6063; E 0x62 None 0 0 0 6071; E 0x72 None 0 6064 0 6065;
   E 0x6f None 0 0 0 6068; E 0x6f None 0 0 0 6066; E 0x70 None 0 0 0 6067;
   E 0x3b (Some [0xe2; 0x8c; 0x8c]) 3 0 0 0; E 0x72 None 0 0 0 6069; E 0x6e None 0 0 0 6070;
   E 0x3b (Some [0xe2; 0x8c; 0x9f]) 3 0 0 0; E 0x6b None 0 0 0 6072; E 0x61 None 0 0 0 6073;
   E 0x72 None 0 0 0 6074; E 0x6f None 0 0 0 6075; E 0x77 None 0 0 0 6076;
   E 0x3b (Some [0xe2; 0xa4; 0x90]) 3 0 0 0; E 0x63 None 0 0 0 6078; E 0x72 None 0 6079 0 6080;
   E 0x6f None 0 0 0 6083; E 0x6f None 0 0 0 6081; E 0x70 None 0 0 0 6082;
   E 0x3b (Some [0xe2; 0x8c; 0x8d]) 3 0 0 0; E 0x72 None 0 0 0 6084; E 0x6e None 0 0 0 6085;
   E 0x3b (Some [0xe2; 0x8c; 0x9e]) 3 0 0 0; E 0x63 None 0 0 0 6087; E 0x79 None 0 0 0 6088;
   E 0x3b (Some [0xd1; 0x92]) 2 0 0 0; E 0x69 None 0 6090 0 6091; E 0x63 None 0 0 0 6097;
   E 0x67 None 0 0 0 6092; E 0x72 None 0 0 0 6093; E 0x61 None 0 0 0 6094;
   E 0x72 None 0 0 0 6095; E 0x72 None 0 0 0 6096; E 0x3b (Some [0xe2; 0x9f; 0xbf]) 3 0 0 0;
   E 0x79 None 0 0 0 6098; E 0x3b (Some [0xd1; 0x9f]) 2 0 0 0; E 0x68 None 0 6100 0 6101;
   E 0x61 None 0 0 0 6104; E 0x61 None 0 0 0 6102; E 0x72 None 0 0 0 6103;
   E 0x3b (Some [0xe2; 0xa5; 0xaf]) 3 0 0 0; E 0x72 None 0 0 0 6105; E 0x72 None 0 0 0 6106;
   E 0x3b (Some [0xe2; 0x87; 0xb5]) 3 0 0 0; E 0x72 None 0 6108 0 6109; E 0x64 None 0 0 0 6113;
   E 0x69 None 0 0 0 6110; E 0x66 None 0 6111 0 6112; E 0x3b (Some [0xe2; 0x96; 0xbf]) 3 0 0 0;
   E 0x3b (Some [0xe2; 0x96; 0xbe]) 3 0 0 0; E 0x6f None 0 0 0 6114; E 0x74 None 0 0 0 6115;
   E 0x3b (Some [0xe2; 0x8b; 0xb1]) 3 0 0 0; E 0x6b None 0 6118 6117 6132;
   E 0x70 None 0 6127 6126 6137; E 0x64 None 0 6120 6119 6142; E 0x66 None 0 6125 6124 6146;
   E 0x62 None 0 6122 6121 6148; E 0x63 None 0 0 0 6156; E 0x61 None 0 6123 0 6162;
   E 0x4e None 0 0 0 6202; E 0x69 None 0 0 0 6205; E 0x65 None 0 0 0 6275;
   E 0x73 None 0 6131 6130 6307; E 0x6e None 0 6129 6128 6329; E 0x6f None 0 0 0 6339;
   E 0x6c None 0 0 0 6459; E 0x75 None 0 0 0 6518; E 0x72 None 0 0 0 6533;
   E 0x61 None 0 0 0 6133; E 0x72 None 0 0 0 6134; E 0x6f None 0 0 0 6135;
   E 0x77 None 0 0 0 6136; E 0x3b (Some [0xe2; 0xa4; 0x8d]) 3 0 0 0; E 0x72 None 0 0 0 6138;
   E 0x69 None 0 0 0 6139; E 0x6d None 0 0 0 6140; E 0x65 None 0 0 0 6141;
   E 0x3b (Some [0xe2; 0x80; 0xb5]) 3 0 0 0; E 0x71 None 0 0 0 6143; E 0x75 None 0 0 0 6144;
   E 0x6f None 0 0 0 6145; E 0x3b (Some [0xe2; 0x80; 0x9e]) 3 0 0 0; E 0x72 None 0 0 0 6147;
   E 0x3b (Some [0xf0; 0x9d; 0x94; 0x9f]) 4 0 0 0; E 0x72 None 0 0 0 6149;
   E 0x6b None 0 0 0 6150; E 0x74 None 0 6151 0 6152; E 0x3b (Some [0xe2; 0x8e; 0xb5]) 3 0 0 0;
   E 0x62 None 0 0 0 6153; E 0x72 None 0 0 0 6154; E 0x6b None 0 0 0 6155;
   E 0x3b (Some [0xe2; 0x8e; 0xb6]) 3 0 0 0; E 0x79 None 0 6157 0 6158; E 0x6f None 0 0 0 6159;
   E 0x3b (Some [0xd0; 0xb1]) 2 0 0 0; E 0x6e None 0 0 0 6160; E 0x67 None 0 0 0 6161;
   E 0x3b (Some [0xe2; 0x89; 0x8c]) 3 0 0 0; E 0x72 None 0 6163 0 6164; E 0x63 None 0 0 0 6175;
   E 0x77 None 0 6165 0 6166; E 0x76 None 0 0 0 6172; E 0x65 None 0 0 0 6167;
   E 0x64 None 0 0 0 6168; E 0x67 None 0 6169 0 6170; E 0x3b (Some [0xe2; 0x8c; 0x85]) 3 0 0 0;
   E 0x65 None 0 0 0 6171; E 0x3b (Some [0xe2; 0x8c; 0x85]) 3 0 0 0; E 0x65 None 0 0 0 6173;
   E 0x65 None 0 0 0 6174; E 0x3b (Some [0xe2; 0x8a; 0xbd]) 3 0 0 0; E 0x6b None 0 0 0 6176;
   E 0x70 None 0 6178 6177 6180; E 0x73 None 0 0 0 6185; E 0x65 None 0 6179 0 6191;
   E 0x63 None 0 0 0 6198; E 0x72 None 0 0 0 6181; E 0x69 None 0 0 0 6182;
   E 0x6d None 0 0 0 6183; E 0x65 None 0 0 0 6184; E 0x3b (Some [0xe2; 0x80; 0xb5]) 3 0 0 0;
   E 0x69 None 0 0 0 6186; E 0x6d None 0 0 0 6187; E 0x65 None 0 6188 0 6189;
   E 0x3b (Some [0xe2; 0x88; 0xbd]) 3 0 0 0; E 0x71 None 0 0 0 6190;
   E 0x3b (Some [0xe2; 0x8b; 0x8d]) 3 0 0 0; E 0x70 None 0 0 0 6192; E 0x73 None 0 0 0 6193;
   E 0x69 None 0 0 0 6194; E 0x6c None 0 0 0 6195; E 0x6f None 0 0 0 6196;
   E 0x6e None 0 0 0 6197; E 0x3b (Some [0xcf; 0xb6]) 2 0 0 0; E 0x6f None 0 0 0 6199;
   E 0x6e None 0 0 0 6200; E 0x67 None 0 0 0 6201; E 0x3b (Some [0xe2; 0x89; 0x8c]) 3 0 0 0;
   E 0x6f None 0 0 0 6203; E 0x74 None 0 0 0 6204; E 0x3b (Some [0xe2; 0xab; 0xad]) 3 0 0 0;
   E 0x67 None 0 0 0 6206; E 0x74 None 0 6208 6207 6213; E 0x76 None 0 6212 6211 6228;
   E 0x6f None 0 6210 6209 6231; E 0x73 None 0 0 0 6246; E 0x63 None 0 0 0 6255;
   E 0x77 None 0 0 0 6265; E 0x75 None 0 0 0 6270; E 0x72 None 0 0 0 6214;
   E 0x69 None 0 0 0 6215; E 0x61 None 0 0 0 6216; E 0x6e None 0 0 0 6217;
   E 0x67 None 0 0 0 6218; E 0x6c None 0 0 0 6219; E 0x65 None 0 0 0 6220;
   E 0x75 None 0 6221 0 6222; E 0x64 None 0 0 0 6224; E 0x70 None 0 0 0 6223;
   E 0x3b (Some [0xe2; 0x96; 0xb3]) 3 0 0 0; E 0x6f None 0 0 0 6225; E 0x77 None 0 0 0 6226;
   E 0x6e None 0 0 0 6227; E 0x3b (Some [0xe2; 0x96; 0xbd]) 3 0 0 0; E 0x65 None 0 0 0 6229;
   E 0x65 None 0 0 0 6230; E 0x3b (Some [0xe2; 0x8b; 0x81]) 3 0 0 0;
   E 0x70 None 0 6233 6232 6234; E 0x74 None 0 0 0 6238; E 0x64 None 0 0 0 6243;
   E 0x6c None 0 0 0 6235; E 0x75 None 0 0 0 6236; E 0x73 None 0 0 0 6237;
   E 0x3b (Some [0xe2; 0xa8; 0x81]) 3 0 0 0; E 0x69 None 0 0 0 6239; E 0x6d None 0 0 0 6240;
   E 0x65 None 0 0 0 6241; E 0x73 None 0 0 0 6242; E 0x3b (Some [0xe2; 0xa8; 0x82]) 3 0 0 0;
   E 0x6f None 0 0 0 6244; E 0x74 None 0 0 0 6245; E 0x3b (Some [0xe2; 0xa8; 0x80]) 3 0 0 0;
   E 0x74 None 0 6247 0 6248; E 0x71 None 0 0 0 6251; E 0x61 None 0 0 0 6249;
   E 0x72 None 0 0 0 6250; E 0x3b (Some [0xe2; 0x98; 0x85]) 3 0 0 0; E 0x63 None 0 0 0 6252;
   E 0x75 None 0 0 0 6253; E 0x70 None 0 0 0 6254; E 0x3b (Some [0xe2; 0xa8; 0x86]) 3 0 0 0;
   E 0x69 None 0 6257 6256 6258; E 0x75 None 0 0 0 6261; E 0x61 None 0 0 0 6263;
   E 0x72 None 0 0 0 6259; E 0x63 None 0 0 0 6260; E 0x3b (Some [0xe2; 0x97; 0xaf]) 3 0 0 0;
   E 0x70 None 0 0 0 6262; E 0x3b (Some [0xe2; 0x8b; 0x83]) 3 0 0 0; E 0x70 None 0 0 0 6264;
   E 0x3b (Some [0xe2; 0x8b; 0x82]) 3 0 0 0; E 0x65 None 0 0 0 6266; E 0x64 None 0 0 0 6267;
   E 0x67 None 0 0 0 6268; E 0x65 None 0 0 0 6269; E 0x3b (Some [0xe2; 0x8b; 0x80]) 3 0 0 0;
   E 0x70 None 0 0 0 6271; E 0x6c None 0 0 0 6272; E 0x75 None 0 0 0 6273;
   E 0x73 None 0 0 0 6274; E 0x3b (Some [0xe2; 0xa8; 0x84]) 3 0 0 0;
   E 0x70 None 0 6277 6276 6280; E 0x74 None 0 6279 0 6283; E 0x6d None 0 6278 0 6292;
   E 0x63 None 0 0 0 6297; E 0x72 None 0 0 0 6303; E 0x73 None 0 0 0 6281;
   E 0x69 None 0 0 0 6282; E 0x3b (Some [0xcf; 0xb6]) 2 0 0 0; E 0x68 None 0 6285 6284 6286;
   E 0x77 None 0 0 0 6287; E 0x61 None 0 0 0 6291; E 0x3b (Some [0xe2; 0x84; 0xb6]) 3 0 0 0;
   E 0x65 None 0 0 0 6288; E 0x65 None 0 0 0 6289; E 0x6e None 0 0 0 6290;
   E 0x3b (Some [0xe2; 0x89; 0xac]) 3 0 0 0; E 0x3b (Some [0xce; 0xb2]) 2 0 0 0;
   E 0x70 None 0 0 0 6293; E 0x74 None 0 0 0 6294; E 0x79 None 0 0 0 6295;
   E 0x76 None 0 0 0 6296; E 0x3b (Some [0xe2; 0xa6; 0xb0]) 3 0 0 0; E 0x61 None 0 0 0 6298;
   E 0x75 None 0 0 0 6299; E 0x73 None 0 0 0 6300; E 0x65 None 0 6301 0 6302;
   E 0x3b (Some [0xe2; 0x88; 0xb5]) 3 0 0 0; E 0x3b (Some [0xe2; 0x88; 0xb5]) 3 0 0 0;
   E 0x6e None 0 0 0 6304; E 0x6f None 0 0 0 6305; E 0x75 None 0 0 0 6306;
   E 0x3b (Some [0xe2; 0x84; 0xac]) 3 0 0 0; E 0x69 None 0 6309 6308 6311;
   E 0x6f None 0 0 0 6315; E 0x65 None 0 6310 0 6324; E 0x63 None 0 0 0 6327;
   E 0x6d None 0 0 0 6312; E 0x65 None 0 6313 0 6314; E 0x3b (Some [0xe2; 0x88; 0xbd]) 3 0 0 0;
   E 0x3b (Some [0xe2; 0x8b; 0x8d]) 3 0 0 0; E 0x6c None 0 0 0 6316;
   E 0x62 None 0 6318 6317 6319; E 0x68 None 0 0 0 6320; E 0x3b (Some [0x5c]) 1 0 0 0;
   E 0x3b (Some [0xe2; 0xa7; 0x85]) 3 0 0 0; E 0x73 None 0 0 0 6321; E 0x75 None 0 0 0 6322;
   E 0x62 None 0 0 0 6323; E 0x3b (Some [0xe2; 0x9f; 0x88]) 3 0 0 0; E 0x6d None 0 0 0 6325;
   E 0x69 None 0 0 0 6326; E 0x3b (Some [0xe2; 0x81; 0x8f]) 3 0 0 0; E 0x72 None 0 0 0 6328;
   E 0x3b (Some [0xf0; 0x9d; 0x92; 0xb7]) 4 0 0 0; E 0x6f None 0 6330 0 6331;
   E 0x65 None 0 0 0 6333; E 0x74 None 0 0 0 6332; E 0x3b (Some [0xe2; 0x8c; 0x90]) 3 0 0 0;
   E 0x71 None 0 6334 0 6335; E 0x3b (Some [0x3d; 0xe2; 0x83; 0xa5]) 4 0 0 0;
   E 0x75 None 0 0 0 6336; E 0x69 None 0 0 0 6337; E 0x76 None 0 0 0 6338;
   E 0x3b (Some [0xe2; 0x89; 0xa1; 0xe2; 0x83; 0xa5]) 6 0 0 0; E 0x77 None 0 6341 6340 6343;
   E 0x78 None 0 0 0 6347; E 0x74 None 0 6342 0 6452; E 0x70 None 0 0 0 6457;
   E 0x74 None 0 0 0 6344; E 0x69 None 0 0 0 6345; E 0x65 None 0 0 0 6346;
   E 0x3b (Some [0xe2; 0x8b; 0x88]) 3 0 0 0; E 0x68 None 0 6349 6348 6359;
   E 0x74 None 0 6356 6355 6368; E 0x56 None 0 6351 6350 6373; E 0x64 None 0 6354 0 6386;
   E 0x48 None 0 6353 6352 6394; E 0x55 None 0 0 0 6403; E 0x44 None 0 0 0 6411;
   E 0x62 None 0 0 0 6419; E 0x76 None 0 6358 0 6422; E 0x70 None 0 6357 0 6435;
   E 0x6d None 0 0 0 6439; E 0x75 None 0 0 0 6444; E 0x55 None 0 6361 6360 6364;
   E 0x75 None 0 6363 0 6365; E 0x44 None 0 6362 0 6366;
   E 0x3b (Some [0xe2; 0x94; 0x80]) 3 0 0 0; E 0x64 None 0 0 0 6367;
   E 0x3b (Some [0xe2; 0x95; 0xa8]) 3 0 0 0; E 0x3b (Some [0xe2; 0x94; 0xb4]) 3 0 0 0;
   E 0x3b (Some [0xe2; 0x95; 0xa5]) 3 0 0 0; E 0x3b (Some [0xe2; 0x94; 0xac]) 3 0 0 0;
   E 0x69 None 0 0 0 6369; E 0x6d None 0 0 0 6370; E 0x65 None 0 0 0 6371;
   E 0x73 None 0 0 0 6372; E 0x3b (Some [0xe2; 0x8a; 0xa0]) 3 0 0 0;
   E 0x52 None 0 6375 6374 6380; E 0x6c None 0 6379 6378 6381; E 0x48 None 0 6377 6376 6382;
   E 0x4c None 0 0 0 6383; E 0x3b (Some [0xe2; 0x95; 0x91]) 3 0 0 0; E 0x72 None 0 0 0 6384;
   E 0x68 None 0 0 0 6385; E 0x3b (Some [0xe2; 0x95; 0xa0]) 3 0 0 0;
   E 0x3b (Some [0xe2; 0x95; 0xa2]) 3 0 0 0; E 0x3b (Some [0xe2; 0x95; 0xac]) 3 0 0 0;
   E 0x3b (Some [0xe2; 0x95; 0xa3]) 3 0 0 0; E 0x3b (Some [0xe2; 0x95; 0x9f]) 3 0 0 0;
   E 0x3b (Some [0xe2; 0x95; 0xab]) 3 0 0 0; E 0x6c None 0 6388 6387 6390;
   E 0x72 None 0 0 0 6391; E 0x52 None 0 6389 0 6392; E 0x4c None 0 0 0 6393;
   E 0x3b (Some [0xe2; 0x94; 0x90]) 3 0 0 0; E 0x3b (Some [0xe2; 0x94; 0x8c]) 3 0 0 0;
   E 0x3b (Some [0xe2; 0x95; 0x92]) 3 0 0 0; E 0x3b (Some [0xe2; 0x95; 0x95]) 3 0 0 0;
   E 0x55 None 0 6396 6395 6399; E 0x75 None 0 6398 0 6400; E 0x44 None 0 6397 0 6401;
   E 0x3b (Some [0xe2; 0x95; 0x90]) 3 0 0 0; E 0x64 None 0 0 0 6402;
   E 0x3b (Some [0xe2; 0x95; 0xa9]) 3 0 0 0; E 0x3b (Some [0xe2; 0x95; 0xa7]) 3 0 0 0;
   E 0x3b (Some [0xe2; 0x95; 0xa6]) 3 0 0 0; E 0x3b (Some [0xe2; 0x95; 0xa4]) 3 0 0 0;
   E 0x6c None 0 6405 6404 6407; E 0x72 None 0 0 0 6408; E 0x52 None 0 6406 0 6409;
   E 0x4c None 0 0 0 6410; E 0x3b (Some [0xe2; 0x95; 0x9c]) 3 0 0 0;
   E 0x3b (Some [0xe2; 0x95; 0x99]) 3 0 0 0; E 0x3b (Some [0xe2; 0x95; 0x9a]) 3 0 0 0;
   E 0x3b (Some [0xe2; 0x95; 0x9d]) 3 0 0 0; E 0x6c None 0 6413 6412 6415;
   E 0x72 None 0 0 0 6416; E 0x52 None 0 6414 0 6417; E 0x4c None 0 0 0 6418;
   E 0x3b (Some [0xe2; 0x95; 0x96]) 3 0 0 0; E 0x3b (Some [0xe2; 0x95; 0x93]) 3 0 0 0;
   E 0x3b (Some [0xe2; 0x95; 0x94]) 3 0 0 0; E 0x3b (Some [0xe2; 0x95; 0x97]) 3 0 0 0;
   E 0x6f None 0 0 0 6420; E 0x78 None 0 0 0 6421; E 0x3b (Some [0xe2; 0xa7; 0x89]) 3 0 0 0;
   E 0x52 None 0 6424 6423 6429; E 0x6c None 0 6428 6427 6430; E 0x48 None 0 6426 6425 6431;
   E 0x4c None 0 0 0 6432; E 0x3b (Some [0xe2; 0x94; 0x82]) 3 0 0 0; E 0x72 None 0 0 0 6433;
   E 0x68 None 0 0 0 6434; E 0x3b (Some [0xe2; 0x95; 0x9e]) 3 0 0 0;
   E 0x3b (Some [0xe2; 0x94; 0xa4]) 3 0 0 0; E 0x3b (Some [0xe2; 0x95; 0xaa]) 3 0 0 0;
   E 0x3b (Some [0xe2; 0x95; 0xa1]) 3 0 0 0; E 0x3b (Some [0xe2; 0x94; 0x9c]) 3 0 0 0;
   E 0x3b (Some [0xe2; 0x94; 0xbc]) 3 0 0 0; E 0x6c None 0 0 0 6436; E 0x75 None 0 0 0 6437;
   E 0x73 None 0 0 0 6438; E 0x3b (Some [0xe2; 0x8a; 0x9e]) 3 0 0 0; E 0x69 None 0 0 0 6440;
   E 0x6e None 0 0 0 6441; E 0x75 None 0 0 0 6442; E 0x73 None 0 0 0 6443;
   E 0x3b (Some [0xe2; 0x8a; 0x9f]) 3 0 0 0; E 0x6c None 0 6446 6445 6448;
   E 0x72 None 0 0 0 6449; E 0x52 None 0 6447 0 6450; E 0x4c None 0 0 0 6451;
   E 0x3b (Some [0xe2; 0x94; 0x98]) 3 0 0 0; E 0x3b (Some [0xe2; 0x94; 0x94]) 3 0 0 0;
   E 0x3b (Some [0xe2; 0x95; 0x98]) 3 0 0 0; E 0x3b (Some [0xe2; 0x95; 0x9b]) 3 0 0 0;
   E 0x74 None 0 6453 0 6454; E 0x3b (Some [0xe2; 0x8a; 0xa5]) 3 0 0 0; E 0x6f None 0 0 0 6455;
   E 0x6d None 0 0 0 6456; E 0x3b (Some [0xe2; 0x8a; 0xa5]) 3 0 0 0; E 0x66 None 0 0 0 6458;
   E 0x3b (Some [0xf0; 0x9d; 0x95; 0x93]) 4 0 0 0; E 0x6b None 0 6461 6460 6462;
   E 0x6f None 0 0 0 6470; E 0x61 None 0 0 0 6473; E 0x33 None 0 6463 0 6464;
   E 0x31 None 0 0 0 6466; E 0x34 None 0 0 0 6465; E 0x3b (Some [0xe2; 0x96; 0x93]) 3 0 0 0;
   E 0x34 None 0 6467 0 6468; E 0x32 None 0 0 0 6469; E 0x3b (Some [0xe2; 0x96; 0x91]) 3 0 0 0;
   E 0x3b (Some [0xe2; 0x96; 0x92]) 3 0 0 0; E 0x63 None 0 0 0 6471; E 0x6b None 0 0 0 6472;
   E 0x3b (Some [0xe2; 0x96; 0x88]) 3 0 0 0; E 0x6e None 0 6474 0 6475; E 0x63 None 0 0 0 6477;
   E 0x6b None 0 0 0 6476; E 0x3b (Some [0xe2; 0x90; 0xa3]) 3 0 0 0; E 0x6b None 0 0 0 6478;
   E 0x73 None 0 6480 6479 6481; E 0x74 None 0 0 0 6487; E 0x6c None 0 0 0 6511;
   E 0x71 None 0 0 0 6482; E 0x75 None 0 0 0 6483; E 0x61 None 0 0 0 6484;
   E 0x72 None 0 0 0 6485; E 0x65 None 0 0 0 6486; E 0x3b (Some [0xe2; 0x96; 0xaa]) 3 0 0 0;
   E 0x72 None 0 0 0 6488; E 0x69 None 0 0 0 6489; E 0x61 None 0 0 0 6490;
   E 0x6e None 0 0 0 6491; E 0x67 None 0 0 0 6492; E 0x6c None 0 0 0 6493;
   E 0x65 None 0 0 0 6494; E 0x6c None 0 6496 6495 6498; E 0x72 None 0 0 0 6502;
   E 0x64 None 0 6497 0 6507; E 0x3b (Some [0xe2; 0x96; 0xb4]) 3 0 0 0; E 0x65 None 0 0 0 6499;
   E 0x66 None 0 0 0 6500].

Definition entities_13 : list sbst_entry :=
  [E 0x74 None 0 0 0 6501; E 0x3b (Some [0xe2; 0x97; 0x82]) 3 0 0 0; E 0x69 None 0 0 0 6503;
   E 0x67 None 0 0 0 6504; E 0x68 None 0 0 0 6505; E 0x74 None 0 0 0 6506;
   E 0x3b (Some [0xe2; 0x96; 0xb8]) 3 0 0 0; E 0x6f None 0 0 0 6508; E 0x77 None 0 0 0 6509;
   E 0x6e None 0 0 0 6510; E 0x3b (Some [0xe2; 0x96; 0xbe]) 3 0 0 0; E 0x6f None 0 0 0 6512;
   E 0x7a None 0 0 0 6513; E 0x65 None 0 0 0 6514; E 0x6e None 0 0 0 6515;
   E 0x67 None 0 0 0 6516; E 0x65 None 0 0 0 6517; E 0x3b (Some [0xe2; 0xa7; 0xab]) 3 0 0 0;
   E 0x6d None 0 6519 0 6520; E 0x6c None 0 0 0 6528; E 0x70 None 0 0 0 6521;
   E 0x45 None 0 6523 6522 6524; E 0x65 None 0 0 0 6525;
   E 0x3b (Some [0xe2; 0x89; 0x8e]) 3 0 0 0; E 0x3b (Some [0xe2; 0xaa; 0xae]) 3 0 0 0;
   E 0x71 None 0 6526 0 6527; E 0x3b (Some [0xe2; 0x89; 0x8f]) 3 0 0 0;
   E 0x3b (Some [0xe2; 0x89; 0x8f]) 3 0 0 0; E 0x6c None 0 0 0 6529; E 0x65 None 0 6530 0 6531;
   E 0x3b (Some [0xe2; 0x80; 0xa2]) 3 0 0 0; E 0x74 None 0 0 0 6532;
   E 0x3b (Some [0xe2; 0x80; 0xa2]) 3 0 0 0; E 0x76 None 0 6534 0 6535; E 0x65 None 0 0 0 6539;
   E 0x62 None 0 0 0 6536; E 0x61 None 0 0 0 6537; E 0x72 (Some [0xc2; 0xa6]) 2 0 0 6538;
   E 0x3b (Some [0xc2; 0xa6]) 2 0 0 0; E 0x76 None 0 0 0 6540; E 0x65 None 0 0 0 6541;
   E 0x3b (Some [0xcb; 0x98]) 2 0 0 0; E 0x6c None 0 6544 6543 6554;
   E 0x70 None 0 6551 6550 6565; E 0x66 None 0 6546 6545 6572; E 0x6a None 0 6549 0 6587;
   E 0x63 None 0 6548 6547 6591; E 0x65 None 0 0 0 6593; E 0x61 None 0 0 0 6598;
   E 0x69 None 0 0 0 6610; E 0x73 None 0 6553 0 6614; E 0x6f None 0 6552 0 6617;
   E 0x6e None 0 0 0 6629; E 0x72 None 0 0 0 6632; E 0x6c None 0 6556 6555 6557;
   E 0x74 None 0 0 0 6560; E 0x61 None 0 0 0 6563; E 0x69 None 0 0 0 6558;
   E 0x67 None 0 0 0 6559; E 0x3b (Some [0xef; 0xac; 0x82]) 3 0 0 0; E 0x6e None 0 0 0 6561;
   E 0x73 None 0 0 0 6562; E 0x3b (Some [0xe2; 0x96; 0xb1]) 3 0 0 0; E 0x74 None 0 0 0 6564;
   E 0x3b (Some [0xe2; 0x99; 0xad]) 3 0 0 0; E 0x61 None 0 0 0 6566; E 0x72 None 0 0 0 6567;
   E 0x74 None 0 0 0 6568; E 0x69 None 0 0 0 6569; E 0x6e None 0 0 0 6570;
   E 0x74 None 0 0 0 6571; E 0x3b (Some [0xe2; 0xa8; 0x8d]) 3 0 0 0;
   E 0x6c None 0 6574 6573 6575; E 0x72 None 0 0 0 6582; E 0x69 None 0 0 0 6583;
   E 0x6c None 0 6576 0 6577; E 0x69 None 0 0 0 6580; E 0x69 None 0 0 0 6578;
   E 0x67 None 0 0 0 6579; E 0x3b (Some [0xef; 0xac; 0x84]) 3 0 0 0; E 0x67 None 0 0 0 6581;
   E 0x3b (Some [0xef; 0xac; 0x80]) 3 0 0 0; E 0x3b (Some [0xf0; 0x9d; 0x94; 0xa3]) 4 0 0 0;
   E 0x6c None 0 0 0 6584; E 0x69 None 0 0 0 6585; E 0x67 None 0 0 0 6586;
   E 0x3b (Some [0xef; 0xac; 0x83]) 3 0 0 0; E 0x6c None 0 0 0 6588; E 0x69 None 0 0 0 6589;
   E 0x67 None 0 0 0 6590; E 0x3b (Some [0x66; 0x6a]) 2 0 0 0; E 0x79 None 0 0 0 6592;
   E 0x3b (Some [0xd1; 0x84]) 2 0 0 0; E 0x6d None 0 0 0 6594; E 0x61 None 0 0 0 6595;
   E 0x6c None 0 0 0 6596; E 0x65 None 0 0 0 6597; E 0x3b (Some [0xe2; 0x99; 0x80]) 3 0 0 0;
   E 0x6c None 0 0 0 6599; E 0x6c None 0 0 0 6600; E 0x69 None 0 0 0 6601;
   E 0x6e None 0 0 0 6602; E 0x67 None 0 0 0 6603; E 0x64 None 0 0 0 6604;
   E 0x6f None 0 0 0 6605; E 0x74 None 0 0 0 6606; E 0x73 None 0 0 0 6607;
   E 0x65 None 0 0 0 6608; E 0x71 None 0 0 0 6609; E 0x3b (Some [0xe2; 0x89; 0x92]) 3 0 0 0;
   E 0x6c None 0 0 0 6611; E 0x69 None 0 0 0 6612; E 0x67 None 0 0 0 6613;
   E 0x3b (Some [0xef; 0xac; 0x81]) 3 0 0 0; E 0x63 None 0 0 0 6615; E 0x72 None 0 0 0 6616;
   E 0x3b (Some [0xf0; 0x9d; 0x92; 0xbb]) 4 0 0 0; E 0x72 None 0 6618 0 6619;
   E 0x70 None 0 0 0 6627; E 0x6b None 0 6620 0 6621; E 0x61 None 0 0 0 6624;
   E 0x76 None 0 6622 0 6623; E 0x3b (Some [0xe2; 0x8b; 0x94]) 3 0 0 0;
   E 0x3b (Some [0xe2; 0xab; 0x99]) 3 0 0 0; E 0x6c None 0 0 0 6625; E 0x6c None 0 0 0 6626;
   E 0x3b (Some [0xe2; 0x88; 0x80]) 3 0 0 0; E 0x66 None 0 0 0 6628;
   E 0x3b (Some [0xf0; 0x9d; 0x95; 0x97]) 4 0 0 0; E 0x6f None 0 0 0 6630;
   E 0x66 None 0 0 0 6631; E 0x3b (Some [0xc6; 0x92]) 2 0 0 0; E 0x6f None 0 6633 0 6634;
   E 0x61 None 0 0 0 6637; E 0x77 None 0 0 0 6635; E 0x6e None 0 0 0 6636;
   E 0x3b (Some [0xe2; 0x8c; 0xa2]) 3 0 0 0; E 0x73 None 0 6638 0 6639; E 0x63 None 0 0 0 6641;
   E 0x6c None 0 0 0 6640; E 0x3b (Some [0xe2; 0x81; 0x84]) 3 0 0 0;
   E 0x34 None 0 6643 6642 6647; E 0x37 None 0 6646 0 6649; E 0x32 None 0 6645 6644 6651;
   E 0x33 None 0 0 0 6655; E 0x31 None 0 0 0 6661; E 0x35 None 0 0 0 6673;
   E 0x35 None 0 0 0 6648; E 0x3b (Some [0xe2; 0x85; 0x98]) 3 0 0 0; E 0x38 None 0 0 0 6650;
   E 0x3b (Some [0xe2; 0x85; 0x9e]) 3 0 0 0; E 0x35 None 0 6652 0 6653; E 0x33 None 0 0 0 6654;
   E 0x3b (Some [0xe2; 0x85; 0x96]) 3 0 0 0; E 0x3b (Some [0xe2; 0x85; 0x94]) 3 0 0 0;
   E 0x35 None 0 6657 6656 6658; E 0x38 None 0 0 0 6659; E 0x34 (Some [0xc2; 0xbe]) 2 0 0 6660;
   E 0x3b (Some [0xe2; 0x85; 0x97]) 3 0 0 0; E 0x3b (Some [0xe2; 0x85; 0x9c]) 3 0 0 0;
   E 0x3b (Some [0xc2; 0xbe]) 2 0 0 0; E 0x35 None 0 6663 6662 6667; E 0x38 None 0 6666 0 6668;
   E 0x33 None 0 6665 6664 6669; E 0x34 (Some [0xc2; 0xbc]) 2 0 0 6670;
   E 0x32 (Some [0xc2; 0xbd]) 2 0 0 6671; E 0x36 None 0 0 0 6672;
   E 0x3b (Some [0xe2; 0x85; 0x95]) 3 0 0 0; E 0x3b (Some [0xe2; 0x85; 0x9b]) 3 0 0 0;
   E 0x3b (Some [0xe2; 0x85; 0x93]) 3 0 0 0; E 0x3b (Some [0xc2; 0xbc]) 2 0 0 0;
   E 0x3b (Some [0xc2; 0xbd]) 2 0 0 0; E 0x3b (Some [0xe2; 0x85; 0x99]) 3 0 0 0;
   E 0x38 None 0 6674 0 6675; E 0x36 None 0 0 0 6676; E 0x3b (Some [0xe2; 0x85; 0x9d]) 3 0 0 0;
   E 0x3b (Some [0xe2; 0x85; 0x9a]) 3 0 0 0; E 0x69 None 0 6679 6678 6691;
   E 0x70 None 0 6687 6686 6719; E 0x64 None 0 6681 6680 6720; E 0x66 None 0 6685 6684 6724;
   E 0x61 None 0 6683 6682 6726; E 0x63 None 0 0 0 6762; E 0x44 None 0 0 0 6769;
   E 0x68 None 0 0 0 6773; E 0x65 None 0 0 0 6775; E 0x75 None 0 6690 0 6787;
   E 0x6e None 0 6689 6688 6799; E 0x6f None 0 0 0 6804; E 0x6c None 0 0 0 6812;
   E 0x73 None 0 0 0 6818; E 0x64 None 0 6693 6692 6694; E 0x6e None 0 0 0 6707;
   E 0x63 None 0 0 0 6716; E 0x63 None 0 6696 6695 6698; E 0x64 None 0 0 0 6701;
   E 0x61 None 0 6697 0 6704; E 0x3b (Some [0xe2; 0x88; 0xa3]) 3 0 0 0; E 0x69 None 0 0 0 6699;
   E 0x72 None 0 0 0 6700; E 0x3b (Some [0xe2; 0xab; 0xb0]) 3 0 0 0; E 0x6f None 0 0 0 6702;
   E 0x74 (Some [0xc2; 0xb7]) 2 0 0 6703; E 0x3b (Some [0xc2; 0xb7]) 2 0 0 0;
   E 0x73 None 0 0 0 6705; E 0x74 None 0 0 0 6706; E 0x3b (Some [0x2a]) 1 0 0 0;
   E 0x75 None 0 0 0 6708; E 0x73 None 0 0 0 6709; E 0x62 None 0 6711 6710 6712;
   E 0x64 None 0 0 0 6713; E 0x3b (Some [0xe2; 0x88; 0x92]) 3 0 0 0;
   E 0x3b (Some [0xe2; 0x8a; 0x9f]) 3 0 0 0; E 0x75 None 0 6714 0 6715;
   E 0x3b (Some [0xe2; 0x88; 0xb8]) 3 0 0 0; E 0x3b (Some [0xe2; 0xa8; 0xaa]) 3 0 0 0;
   E 0x72 None 0 0 0 6717; E 0x6f (Some [0xc2; 0xb5]) 2 0 0 6718;
   E 0x3b (Some [0xc2; 0xb5]) 2 0 0 0; E 0x3b (Some [0xe2; 0x88; 0x93]) 3 0 0 0;
   E 0x61 None 0 0 0 6721; E 0x73 None 0 0 0 6722; E 0x68 None 0 0 0 6723;
   E 0x3b (Some [0xe2; 0x80; 0x94]) 3 0 0 0; E 0x72 None 0 0 0 6725;
   E 0x3b (Some [0xf0; 0x9d; 0x94; 0xaa]) 4 0 0 0; E 0x70 None 0 6728 6727 6730;
   E 0x72 None 0 0 0 6748; E 0x6c None 0 6729 0 6752; E 0x63 None 0 0 0 6760;
   E 0x73 None 0 6731 0 6732; E 0x3b (Some [0xe2; 0x86; 0xa6]) 3 0 0 0; E 0x74 None 0 0 0 6733;
   E 0x6f None 0 0 0 6734; E 0x6c None 0 6736 6735 6738; E 0x75 None 0 0 0 6742;
   E 0x64 None 0 6737 0 6744; E 0x3b (Some [0xe2; 0x86; 0xa6]) 3 0 0 0; E 0x65 None 0 0 0 6739;
   E 0x66 None 0 0 0 6740; E 0x74 None 0 0 0 6741; E 0x3b (Some [0xe2; 0x86; 0xa4]) 3 0 0 0;
   E 0x70 None 0 0 0 6743; E 0x3b (Some [0xe2; 0x86; 0xa5]) 3 0 0 0; E 0x6f None 0 0 0 6745;
   E 0x77 None 0 0 0 6746; E 0x6e None 0 0 0 6747; E 0x3b (Some [0xe2; 0x86; 0xa7]) 3 0 0 0;
   E 0x6b None 0 0 0 6749; E 0x65 None 0 0 0 6750; E 0x72 None 0 0 0 6751;
   E 0x3b (Some [0xe2; 0x96; 0xae]) 3 0 0 0; E 0x74 None 0 6753 0 6754; E 0x65 None 0 0 0 6759;
   E 0x65 None 0 6755 0 6756; E 0x3b (Some [0xe2; 0x9c; 0xa0]) 3 0 0 0; E 0x73 None 0 0 0 6757;
   E 0x65 None 0 0 0 6758; E 0x3b (Some [0xe2; 0x9c; 0xa0]) 3 0 0 0;
   E 0x3b (Some [0xe2; 0x99; 0x82]) 3 0 0 0; E 0x72 (Some [0xc2; 0xaf]) 2 0 0 6761;
   E 0x3b (Some [0xc2; 0xaf]) 2 0 0 0; E 0x79 None 0 6763 0 6764; E 0x6f None 0 0 0 6765;
   E 0x3b (Some [0xd0; 0xbc]) 2 0 0 0; E 0x6d None 0 0 0 6766; E 0x6d None 0 0 0 6767;
   E 0x61 None 0 0 0 6768; E 0x3b (Some [0xe2; 0xa8; 0xa9]) 3 0 0 0; E 0x44 None 0 0 0 6770;
   E 0x6f None 0 0 0 6771; E 0x74 None 0 0 0 6772; E 0x3b (Some [0xe2; 0x88; 0xba]) 3 0 0 0;
   E 0x6f None 0 0 0 6774; E 0x3b (Some [0xe2; 0x84; 0xa7]) 3 0 0 0; E 0x61 None 0 0 0 6776;
   E 0x73 None 0 0 0 6777; E 0x75 None 0 0 0 6778; E 0x72 None 0 0 0 6779;
   E 0x65 None 0 0 0 6780; E 0x64 None 0 0 0 6781; E 0x61 None 0 0 0 6782;
   E 0x6e None 0 0 0 6783; E 0x67 None 0 0 0 6784; E 0x6c None 0 0 0 6785;
   E 0x65 None 0 0 0 6786; E 0x3b (Some [0xe2; 0x88; 0xa1]) 3 0 0 0;
   E 0x6c None 0 6789 6788 6790; E 0x6d None 0 0 0 6796; E 0x3b (Some [0xce; 0xbc]) 2 0 0 0;
   E 0x74 None 0 0 0 6791; E 0x69 None 0 0 0 6792; E 0x6d None 0 0 0 6793;
   E 0x61 None 0 0 0 6794; E 0x70 None 0 0 0 6795; E 0x3b (Some [0xe2; 0x8a; 0xb8]) 3 0 0 0;
   E 0x61 None 0 0 0 6797; E 0x70 None 0 0 0 6798; E 0x3b (Some [0xe2; 0x8a; 0xb8]) 3 0 0 0;
   E 0x70 None 0 0 0 6800; E 0x6c None 0 0 0 6801; E 0x75 None 0 0 0 6802;
   E 0x73 None 0 0 0 6803; E 0x3b (Some [0xe2; 0x88; 0x93]) 3 0 0 0; E 0x70 None 0 6805 0 6806;
   E 0x64 None 0 0 0 6808; E 0x66 None 0 0 0 6807;
   E 0x3b (Some [0xf0; 0x9d; 0x95; 0x9e]) 4 0 0 0; E 0x65 None 0 0 0 6809;
   E 0x6c None 0 0 0 6810; E 0x73 None 0 0 0 6811; E 0x3b (Some [0xe2; 0x8a; 0xa7]) 3 0 0 0;
   E 0x64 None 0 6813 0 6814; E 0x63 None 0 0 0 6816; E 0x72 None 0 0 0 6815;
   E 0x3b (Some [0xe2; 0x80; 0xa6]) 3 0 0 0; E 0x70 None 0 0 0 6817;
   E 0x3b (Some [0xe2; 0xab; 0x9b]) 3 0 0 0; E 0x74 None 0 6819 0 6820; E 0x63 None 0 0 0 6824;
   E 0x70 None 0 0 0 6821; E 0x6f None 0 0 0 6822; E 0x73 None 0 0 0 6823;
   E 0x3b (Some [0xe2; 0x88; 0xbe]) 3 0 0 0; E 0x72 None 0 0 0 6825;
   E 0x3b (Some [0xf0; 0x9d; 0x93; 0x82]) 4 0 0 0; E 0x6f None 0 6828 6827 6832;
   E 0x75 None 0 6831 0 6835; E 0x66 None 0 6830 6829 6839; E 0x6d None 0 0 0 6841;
   E 0x63 None 0 0 0 6845; E 0x73 None 0 0 0 6851; E 0x70 None 0 0 0 6833;
   E 0x66 None 0 0 0 6834; E 0x3b (Some [0xf0; 0x9d; 0x95; 0x9b]) 4 0 0 0;
   E 0x6b None 0 0 0 6836; E 0x63 None 0 0 0 6837; E 0x79 None 0 0 0 6838;
   E 0x3b (Some [0xd1; 0x94]) 2 0 0 0; E 0x72 None 0 0 0 6840;
   E 0x3b (Some [0xf0; 0x9d; 0x94; 0xa7]) 4 0 0 0; E 0x61 None 0 0 0 6842;
   E 0x74 None 0 0 0 6843; E 0x68 None 0 0 0 6844; E 0x3b (Some [0xc8; 0xb7]) 2 0 0 0;
   E 0x79 None 0 6846 0 6847; E 0x69 None 0 0 0 6848; E 0x3b (Some [0xd0; 0xb9]) 2 0 0 0;
   E 0x72 None 0 0 0 6849; E 0x63 None 0 0 0 6850; E 0x3b (Some [0xc4; 0xb5]) 2 0 0 0;
   E 0x65 None 0 6852 0 6853; E 0x63 None 0 0 0 6857; E 0x72 None 0 0 0 6854;
   E 0x63 None 0 0 0 6855; E 0x79 None 0 0 0 6856; E 0x3b (Some [0xd1; 0x98]) 2 0 0 0;
   E 0x72 None 0 0 0 6858; E 0x3b (Some [0xf0; 0x9d; 0x92; 0xbf]) 4 0 0 0;
   E 0x6d None 0 6861 6860 6874; E 0x71 None 0 6869 6868 6901; E 0x66 None 0 6863 6862 6906;
   E 0x69 None 0 6867 6866 6910; E 0x63 None 0 6865 6864 6928; E 0x65 None 0 0 0 6935;
   E 0x61 None 0 0 0 6942; E 0x6a None 0 0 0 6947; E 0x67 None 0 0 0 6951;
   E 0x74 None 0 6873 6872 6956; E 0x6f None 0 6871 6870 6962; E 0x70 None 0 0 0 6975;
   E 0x6e None 0 0 0 6979; E 0x75 None 0 0 0 7026; E 0x73 None 0 0 0 7033;
   E 0x6f None 0 6876 6875 6877; E 0x70 None 0 0 0 6879; E 0x61 None 0 0 0 6882;
   E 0x66 None 0 0 0 6878; E 0x3b (Some [0xe2; 0x8a; 0xb7]) 3 0 0 0; E 0x65 None 0 0 0 6880;
   E 0x64 None 0 0 0 6881; E 0x3b (Some [0xc6; 0xb5]) 2 0 0 0; E 0x67 None 0 6884 6883 6885;
   E 0x74 None 0 0 0 6897; E 0x63 None 0 0 0 6899; E 0x6c None 0 6887 6886 6888;
   E 0x70 None 0 0 0 6892; E 0x65 None 0 0 0 6896; E 0x69 None 0 0 0 6889;
   E 0x6e None 0 0 0 6890; E 0x65 None 0 0 0 6891; E 0x3b (Some [0xe2; 0x84; 0x90]) 3 0 0 0;
   E 0x61 None 0 0 0 6893; E 0x72 None 0 0 0 6894; E 0x74 None 0 0 0 6895;
   E 0x3b (Some [0xe2; 0x84; 0x91]) 3 0 0 0; E 0x3b (Some [0xe2; 0x84; 0x91]) 3 0 0 0;
   E 0x68 None 0 0 0 6898; E 0x3b (Some [0xc4; 0xb1]) 2 0 0 0; E 0x72 None 0 0 0 6900;
   E 0x3b (Some [0xc4; 0xab]) 2 0 0 0; E 0x75 None 0 0 0 6902; E 0x65 None 0 0 0 6903;
   E 0x73 None 0 0 0 6904; E 0x74 (Some [0xc2; 0xbf]) 2 0 0 6905;
   E 0x3b (Some [0xc2; 0xbf]) 2 0 0 0; E 0x72 None 0 6907 0 6908; E 0x66 None 0 0 0 6909;
   E 0x3b (Some [0xf0; 0x9d; 0x94; 0xa6]) 4 0 0 0; E 0x3b (Some [0xe2; 0x87; 0x94]) 3 0 0 0;
   E 0x6e None 0 6912 6911 6914; E 0x6f None 0 0 0 6918; E 0x69 None 0 6913 0 6921;
   E 0x3b (Some [0xe2; 0x85; 0x88]) 3 0 0 0; E 0x66 None 0 0 0 6915; E 0x69 None 0 0 0 6916;
   E 0x6e None 0 0 0 6917; E 0x3b (Some [0xe2; 0xa7; 0x9c]) 3 0 0 0; E 0x74 None 0 0 0 6919;
   E 0x61 None 0 0 0 6920; E 0x3b (Some [0xe2; 0x84; 0xa9]) 3 0 0 0; E 0x6e None 0 6922 0 6923;
   E 0x69 None 0 0 0 6925; E 0x74 None 0 0 0 6924; E 0x3b (Some [0xe2; 0x88; 0xad]) 3 0 0 0;
   E 0x6e None 0 0 0 6926; E 0x74 None 0 0 0 6927; E 0x3b (Some [0xe2; 0xa8; 0x8c]) 3 0 0 0;
   E 0x69 None 0 6930 6929 6931; E 0x79 None 0 0 0 6934;
   E 0x3b (Some [0xe2; 0x81; 0xa3]) 3 0 0 0; E 0x72 None 0 0 0 6932;
   E 0x63 (Some [0xc3; 0xae]) 2 0 0 6933; E 0x3b (Some [0xc3; 0xae]) 2 0 0 0;
   E 0x3b (Some [0xd0; 0xb8]) 2 0 0 0; E 0x78 None 0 6936 0 6937; E 0x63 None 0 0 0 6940;
   E 0x63 None 0 0 0 6938; E 0x6c (Some [0xc2; 0xa1]) 2 0 0 6939;
   E 0x3b (Some [0xc2; 0xa1]) 2 0 0 0; E 0x79 None 0 0 0 6941;
   E 0x3b (Some [0xd0; 0xb5]) 2 0 0 0; E 0x63 None 0 0 0 6943; E 0x75 None 0 0 0 6944;
   E 0x74 None 0 0 0 6945; E 0x65 (Some [0xc3; 0xad]) 2 0 0 6946;
   E 0x3b (Some [0xc3; 0xad]) 2 0 0 0; E 0x6c None 0 0 0 6948; E 0x69 None 0 0 0 6949;
   E 0x67 None 0 0 0 6950; E 0x3b (Some [0xc4; 0xb3]) 2 0 0 0; E 0x72 None 0 0 0 6952;
   E 0x61 None 0 0 0 6953; E 0x76 None 0 0 0 6954; E 0x65 (Some [0xc3; 0xac]) 2 0 0 6955;
   E 0x3b (Some [0xc3; 0xac]) 2 0 0 0; E 0x69 None 0 6957 0 6958;
   E 0x3b (Some [0xe2; 0x81; 0xa2]) 3 0 0 0; E 0x6c None 0 0 0 6959; E 0x64 None 0 0 0 6960;
   E 0x65 None 0 0 0 6961; E 0x3b (Some [0xc4; 0xa9]) 2 0 0 0; E 0x70 None 0 6964 6963 6966;
   E 0x74 None 0 0 0 6968; E 0x67 None 0 6965 0 6970; E 0x63 None 0 0 0 6973;
   E 0x66 None 0 0 0 6967; E 0x3b (Some [0xf0; 0x9d; 0x95; 0x9a]) 4 0 0 0;
   E 0x61 None 0 0 0 6969; E 0x3b (Some [0xce; 0xb9]) 2 0 0 0; E 0x6f None 0 0 0 6971;
   E 0x6e None 0 0 0 6972; E 0x3b (Some [0xc4; 0xaf]) 2 0 0 0; E 0x79 None 0 0 0 6974;
   E 0x3b (Some [0xd1; 0x91]) 2 0 0 0; E 0x72 None 0 0 0 6976; E 0x6f None 0 0 0 6977;
   E 0x64 None 0 0 0 6978; E 0x3b (Some [0xe2; 0xa8; 0xbc]) 3 0 0 0;
   E 0x66 None 0 6981 6980 6984; E 0x74 None 0 6983 0 6991; E 0x63 None 0 6982 0 7018;
   E 0x3b (Some [0xe2; 0x88; 0x88]) 3 0 0 0; E 0x6f None 0 0 0 7022; E 0x69 None 0 0 0 6985;
   E 0x6e None 0 0 0 6986; E 0x74 None 0 6987 0 6988; E 0x3b (Some [0xe2; 0x88; 0x9e]) 3 0 0 0;
   E 0x69 None 0 0 0 6989; E 0x65 None 0 0 0 6990; E 0x3b (Some [0xe2; 0xa7; 0x9d]) 3 0 0 0;
   E 0x65 None 0 6993 6992 6996; E 0x70 None 0 6995 0 7006; E 0x63 None 0 6994 0 7010;
   E 0x3b (Some [0xe2; 0x88; 0xab]) 3 0 0 0; E 0x6c None 0 0 0 7013; E 0x72 None 0 6997 0 6998;
   E 0x67 None 0 0 0 7002; E 0x63 None 0 0 0 6999; E 0x61 None 0 0 0 7000].

Definition entities_14 : list sbst_entry :=
  [E 0x6c None 0 0 0 7001; E 0x3b (Some [0xe2; 0x8a; 0xba]) 3 0 0 0; E 0x65 None 0 0 0 7003;
   E 0x72 None 0 0 0 7004; E 0x73 None 0 0 0 7005; E 0x3b (Some [0xe2; 0x84; 0xa4]) 3 0 0 0;
   E 0x72 None 0 0 0 7007; E 0x6f None 0 0 0 7008; E 0x64 None 0 0 0 7009;
   E 0x3b (Some [0xe2; 0xa8; 0xbc]) 3 0 0 0; E 0x61 None 0 0 0 7011; E 0x6c None 0 0 0 7012;
   E 0x3b (Some [0xe2; 0x8a; 0xba]) 3 0 0 0; E 0x61 None 0 0 0 7014; E 0x72 None 0 0 0 7015;
   E 0x68 None 0 0 0 7016; E 0x6b None 0 0 0 7017; E 0x3b (Some [0xe2; 0xa8; 0x97]) 3 0 0 0;
   E 0x61 None 0 0 0 7019; E 0x72 None 0 0 0 7020; E 0x65 None 0 0 0 7021;
   E 0x3b (Some [0xe2; 0x84; 0x85]) 3 0 0 0; E 0x64 None 0 0 0 7023; E 0x6f None 0 0 0 7024;
   E 0x74 None 0 0 0 7025; E 0x3b (Some [0xc4; 0xb1]) 2 0 0 0; E 0x6d None 0 7027 0 7028;
   E 0x6b None 0 0 0 7030; E 0x6c (Some [0xc3; 0xaf]) 2 0 0 7029;
   E 0x3b (Some [0xc3; 0xaf]) 2 0 0 0; E 0x63 None 0 0 0 7031; E 0x79 None 0 0 0 7032;
   E 0x3b (Some [0xd1; 0x96]) 2 0 0 0; E 0x69 None 0 7034 0 7035; E 0x63 None 0 0 0 7049;
   E 0x6e None 0 0 0 7036; E 0x64 None 0 7038 7037 7041; E 0x76 None 0 7040 0 7044;
   E 0x45 None 0 7039 0 7045; E 0x3b (Some [0xe2; 0x88; 0x88]) 3 0 0 0; E 0x73 None 0 0 0 7046;
   E 0x6f None 0 0 0 7042; E 0x74 None 0 0 0 7043; E 0x3b (Some [0xe2; 0x8b; 0xb5]) 3 0 0 0;
   E 0x3b (Some [0xe2; 0x88; 0x88]) 3 0 0 0; E 0x3b (Some [0xe2; 0x8b; 0xb9]) 3 0 0 0;
   E 0x76 None 0 7047 0 7048; E 0x3b (Some [0xe2; 0x8b; 0xb4]) 3 0 0 0;
   E 0x3b (Some [0xe2; 0x8b; 0xb3]) 3 0 0 0; E 0x72 None 0 0 0 7050;
   E 0x3b (Some [0xf0; 0x9d; 0x92; 0xbe]) 4 0 0 0; E 0x68 None 0 7053 7052 7074;
   E 0x70 None 0 7065 7064 7086; E 0x62 None 0 7055 7054 7092; E 0x65 None 0 7061 7060 7116;
   E 0x45 None 0 7057 7056 7261; E 0x61 None 0 7059 0 7264; E 0x42 None 0 7058 0 7337;
   E 0x41 None 0 0 0 7341; E 0x48 None 0 0 0 7353; E 0x67 None 0 7063 0 7356;
   E 0x64 None 0 7062 0 7359; E 0x63 None 0 0 0 7383; E 0x66 None 0 0 0 7401;
   E 0x74 (Some [0x3c]) 1 7071 7070 7413; E 0x6d None 0 7067 7066 7456;
   E 0x6f None 0 7069 0 7471; E 0x6c None 0 7068 0 7575; E 0x6a None 0 0 0 7596;
   E 0x6e None 0 0 0 7599; E 0x76 None 0 7073 0 7619; E 0x73 None 0 7072 0 7630;
   E 0x72 None 0 0 0 7660; E 0x75 None 0 0 0 7683; E 0x62 None 0 7075 0 7076;
   E 0x61 None 0 0 0 7079; E 0x6c None 0 0 0 7077; E 0x6b None 0 0 0 7078;
   E 0x3b (Some [0xe2; 0x96; 0x84]) 3 0 0 0; E 0x72 None 0 0 0 7080; E 0x75 None 0 7081 0 7082;
   E 0x64 None 0 0 0 7085; E 0x6c None 0 7083 0 7084; E 0x3b (Some [0xe2; 0x86; 0xbc]) 3 0 0 0;
   E 0x3b (Some [0xe2; 0xa5; 0xaa]) 3 0 0 0; E 0x3b (Some [0xe2; 0x86; 0xbd]) 3 0 0 0;
   E 0x61 None 0 0 0 7087; E 0x72 None 0 0 0 7088; E 0x6c None 0 7089 0 7090;
   E 0x3b (Some [0x28]) 1 0 0 0; E 0x74 None 0 0 0 7091;
   E 0x3b (Some [0xe2; 0xa6; 0x93]) 3 0 0 0; E 0x62 None 0 7094 7093 7095;
   E 0x72 None 0 0 0 7098; E 0x61 None 0 0 0 7113; E 0x72 None 0 0 0 7096;
   E 0x6b None 0 0 0 7097; E 0x3b (Some [0xe2; 0x9d; 0xb2]) 3 0 0 0; E 0x6b None 0 7099 0 7100;
   E 0x61 None 0 0 0 7108; E 0x73 None 0 7101 0 7102; E 0x65 None 0 0 0 7107;
   E 0x6c None 0 0 0 7103; E 0x75 None 0 7104 0 7105; E 0x64 None 0 0 0 7106;
   E 0x3b (Some [0xe2; 0xa6; 0x8d]) 3 0 0 0; E 0x3b (Some [0xe2; 0xa6; 0x8f]) 3 0 0 0;
   E 0x3b (Some [0xe2; 0xa6; 0x8b]) 3 0 0 0; E 0x63 None 0 0 0 7109; E 0x6b None 0 7110 0 7111;
   E 0x65 None 0 0 0 7112; E 0x3b (Some [0x5b]) 1 0 0 0; E 0x3b (Some [0x7b]) 1 0 0 0;
   E 0x72 None 0 0 0 7114; E 0x72 None 0 0 0 7115; E 0x3b (Some [0xe2; 0xa4; 0x8c]) 3 0 0 0;
   E 0x67 None 0 7118 7117 7121; E 0x73 None 0 7120 0 7122; E 0x66 None 0 7119 0 7170;
   E 0x3b (Some [0xe2; 0x89; 0xa4]) 3 0 0 0; E 0x71 None 0 0 0 7252;
   E 0x3b (Some [0xe2; 0x8b; 0x9a]) 3 0 0 0; E 0x64 None 0 7124 7123 7127;
   E 0x73 None 0 7126 0 7134; E 0x63 None 0 7125 0 7164;
   E 0x3b (Some [0xe2; 0xa9; 0xbd]) 3 0 0 0; E 0x67 None 0 0 0 7166; E 0x6f None 0 0 0 7128;
   E 0x74 None 0 0 0 7129; E 0x6f None 0 7130 0 7131; E 0x3b (Some [0xe2; 0xa9; 0xbf]) 3 0 0 0;
   E 0x72 None 0 7132 0 7133; E 0x3b (Some [0xe2; 0xaa; 0x81]) 3 0 0 0;
   E 0x3b (Some [0xe2; 0xaa; 0x83]) 3 0 0 0; E 0x65 None 0 7136 7135 7139;
   E 0x73 None 0 7138 0 7149; E 0x64 None 0 7137 0 7152; E 0x61 None 0 0 0 7155;
   E 0x67 None 0 0 0 7161; E 0x71 None 0 0 0 7140; E 0x71 None 0 7141 0 7142;
   E 0x67 None 0 0 0 7146; E 0x67 None 0 0 0 7143; E 0x74 None 0 0 0 7144;
   E 0x72 None 0 0 0 7145; E 0x3b (Some [0xe2; 0xaa; 0x8b]) 3 0 0 0; E 0x74 None 0 0 0 7147;
   E 0x72 None 0 0 0 7148; E 0x3b (Some [0xe2; 0x8b; 0x9a]) 3 0 0 0; E 0x69 None 0 0 0 7150;
   E 0x6d None 0 0 0 7151; E 0x3b (Some [0xe2; 0x89; 0xb2]) 3 0 0 0; E 0x6f None 0 0 0 7153;
   E 0x74 None 0 0 0 7154; E 0x3b (Some [0xe2; 0x8b; 0x96]) 3 0 0 0; E 0x70 None 0 0 0 7156;
   E 0x70 None 0 0 0 7157; E 0x72 None 0 0 0 7158; E 0x6f None 0 0 0 7159;
   E 0x78 None 0 0 0 7160; E 0x3b (Some [0xe2; 0xaa; 0x85]) 3 0 0 0; E 0x74 None 0 0 0 7162;
   E 0x72 None 0 0 0 7163; E 0x3b (Some [0xe2; 0x89; 0xb6]) 3 0 0 0; E 0x63 None 0 0 0 7165;
   E 0x3b (Some [0xe2; 0xaa; 0xa8]) 3 0 0 0; E 0x65 None 0 7167 0 7168;
   E 0x3b (Some [0xe2; 0x8b; 0x9a; 0xef; 0xb8; 0x80]) 6 0 0 0; E 0x73 None 0 0 0 7169;
   E 0x3b (Some [0xe2; 0xaa; 0x93]) 3 0 0 0; E 0x74 None 0 0 0 7171;
   E 0x6c None 0 7173 7172 7176; E 0x74 None 0 7175 0 7186; E 0x68 None 0 7174 0 7196;
   E 0x61 None 0 0 0 7210; E 0x72 None 0 0 0 7220; E 0x65 None 0 0 0 7177;
   E 0x66 None 0 0 0 7178; E 0x74 None 0 0 0 7179; E 0x61 None 0 0 0 7180;
   E 0x72 None 0 0 0 7181; E 0x72 None 0 0 0 7182; E 0x6f None 0 0 0 7183;
   E 0x77 None 0 0 0 7184; E 0x73 None 0 0 0 7185; E 0x3b (Some [0xe2; 0x87; 0x87]) 3 0 0 0;
   E 0x68 None 0 0 0 7187; E 0x72 None 0 0 0 7188; E 0x65 None 0 0 0 7189;
   E 0x65 None 0 0 0 7190; E 0x74 None 0 0 0 7191; E 0x69 None 0 0 0 7192;
   E 0x6d None 0 0 0 7193; E 0x65 None 0 0 0 7194; E 0x73 None 0 0 0 7195;
   E 0x3b (Some [0xe2; 0x8b; 0x8b]) 3 0 0 0; E 0x61 None 0 0 0 7197; E 0x72 None 0 0 0 7198;
   E 0x70 None 0 0 0 7199; E 0x6f None 0 0 0 7200; E 0x6f None 0 0 0 7201;
   E 0x6e None 0 0 0 7202; E 0x75 None 0 7203 0 7204; E 0x64 None 0 0 0 7206;
   E 0x70 None 0 0 0 7205; E 0x3b (Some [0xe2; 0x86; 0xbc]) 3 0 0 0; E 0x6f None 0 0 0 7207;
   E 0x77 None 0 0 0 7208; E 0x6e None 0 0 0 7209; E 0x3b (Some [0xe2; 0x86; 0xbd]) 3 0 0 0;
   E 0x72 None 0 0 0 7211; E 0x72 None 0 0 0 7212; E 0x6f None 0 0 0 7213;
   E 0x77 None 0 0 0 7214; E 0x74 None 0 7215 0 7216; E 0x3b (Some [0xe2; 0x86; 0x90]) 3 0 0 0;
   E 0x61 None 0 0 0 7217; E 0x69 None 0 0 0 7218; E 0x6c None 0 0 0 7219;
   E 0x3b (Some [0xe2; 0x86; 0xa2]) 3 0 0 0; E 0x69 None 0 0 0 7221; E 0x67 None 0 0 0 7222;
   E 0x68 None 0 0 0 7223; E 0x74 None 0 0 0 7224; E 0x68 None 0 7226 7225 7227;
   E 0x73 None 0 0 0 7235; E 0x61 None 0 0 0 7245; E 0x61 None 0 0 0 7228;
   E 0x72 None 0 0 0 7229; E 0x70 None 0 0 0 7230; E 0x6f None 0 0 0 7231;
   E 0x6f None 0 0 0 7232; E 0x6e None 0 0 0 7233; E 0x73 None 0 0 0 7234;
   E 0x3b (Some [0xe2; 0x87; 0x8b]) 3 0 0 0; E 0x71 None 0 0 0 7236; E 0x75 None 0 0 0 7237;
   E 0x69 None 0 0 0 7238; E 0x67 None 0 0 0 7239; E 0x61 None 0 0 0 7240;
   E 0x72 None 0 0 0 7241; E 0x72 None 0 0 0 7242; E 0x6f None 0 0 0 7243;
   E 0x77 None 0 0 0 7244; E 0x3b (Some [0xe2; 0x86; 0xad]) 3 0 0 0; E 0x72 None 0 0 0 7246;
   E 0x72 None 0 0 0 7247; E 0x6f None 0 0 0 7248; E 0x77 None 0 0 0 7249;
   E 0x73 None 0 7250 0 7251; E 0x3b (Some [0xe2; 0x86; 0x94]) 3 0 0 0;
   E 0x3b (Some [0xe2; 0x87; 0x86]) 3 0 0 0; E 0x71 None 0 7254 7253 7255;
   E 0x73 None 0 0 0 7256; E 0x3b (Some [0xe2; 0x89; 0xa4]) 3 0 0 0;
   E 0x3b (Some [0xe2; 0x89; 0xa6]) 3 0 0 0; E 0x6c None 0 0 0 7257; E 0x61 None 0 0 0 7258;
   E 0x6e None 0 0 0 7259; E 0x74 None 0 0 0 7260; E 0x3b (Some [0xe2; 0xa9; 0xbd]) 3 0 0 0;
   E 0x67 None 0 7262 0 7263; E 0x3b (Some [0xe2; 0x89; 0xa6]) 3 0 0 0;
   E 0x3b (Some [0xe2; 0xaa; 0x8b]) 3 0 0 0; E 0x6e None 0 7266 7265 7273;
   E 0x72 None 0 7271 7270 7280; E 0x67 None 0 7268 7267 7306; E 0x6d None 0 0 0 7310;
   E 0x65 None 0 7269 0 7314; E 0x63 None 0 0 0 7320; E 0x74 None 0 0 0 7324;
   E 0x71 None 0 7272 0 7333; E 0x70 None 0 0 0 7336; E 0x67 None 0 0 0 7274;
   E 0x64 None 0 7276 7275 7277; E 0x6c None 0 0 0 7278;
   E 0x3b (Some [0xe2; 0x9f; 0xa8]) 3 0 0 0; E 0x3b (Some [0xe2; 0xa6; 0x91]) 3 0 0 0;
   E 0x65 None 0 0 0 7279; E 0x3b (Some [0xe2; 0x9f; 0xa8]) 3 0 0 0; E 0x72 None 0 0 0 7281;
   E 0x6c None 0 7283 7282 7289; E 0x73 None 0 7288 7287 7291; E 0x66 None 0 7285 7284 7294;
   E 0x68 None 0 0 0 7296; E 0x62 None 0 7286 0 7298; E 0x3b (Some [0xe2; 0x86; 0x90]) 3 0 0 0;
   E 0x74 None 0 0 0 7302; E 0x70 None 0 0 0 7304; E 0x70 None 0 0 0 7290;
   E 0x3b (Some [0xe2; 0x86; 0xab]) 3 0 0 0; E 0x69 None 0 0 0 7292; E 0x6d None 0 0 0 7293;
   E 0x3b (Some [0xe2; 0xa5; 0xb3]) 3 0 0 0; E 0x73 None 0 0 0 7295;
   E 0x3b (Some [0xe2; 0xa4; 0x9d]) 3 0 0 0; E 0x6b None 0 0 0 7297;
   E 0x3b (Some [0xe2; 0x86; 0xa9]) 3 0 0 0; E 0x66 None 0 7299 0 7300;
   E 0x3b (Some [0xe2; 0x87; 0xa4]) 3 0 0 0; E 0x73 None 0 0 0 7301;
   E 0x3b (Some [0xe2; 0xa4; 0x9f]) 3 0 0 0; E 0x6c None 0 0 0 7303;
   E 0x3b (Some [0xe2; 0x86; 0xa2]) 3 0 0 0; E 0x6c None 0 0 0 7305;
   E 0x3b (Some [0xe2; 0xa4; 0xb9]) 3 0 0 0; E 0x72 None 0 0 0 7307; E 0x61 None 0 0 0 7308;
   E 0x6e None 0 0 0 7309; E 0x3b (Some [0xe2; 0x84; 0x92]) 3 0 0 0; E 0x62 None 0 0 0 7311;
   E 0x64 None 0 0 0 7312; E 0x61 None 0 0 0 7313; E 0x3b (Some [0xce; 0xbb]) 2 0 0 0;
   E 0x6d None 0 0 0 7315; E 0x70 None 0 0 0 7316; E 0x74 None 0 0 0 7317;
   E 0x79 None 0 0 0 7318; E 0x76 None 0 0 0 7319; E 0x3b (Some [0xe2; 0xa6; 0xb4]) 3 0 0 0;
   E 0x75 None 0 0 0 7321; E 0x74 None 0 0 0 7322; E 0x65 None 0 0 0 7323;
   E 0x3b (Some [0xc4; 0xba]) 2 0 0 0; E 0x61 None 0 7326 7325 7327; E 0x65 None 0 0 0 7330;
   E 0x3b (Some [0xe2; 0xaa; 0xab]) 3 0 0 0; E 0x69 None 0 0 0 7328; E 0x6c None 0 0 0 7329;
   E 0x3b (Some [0xe2; 0xa4; 0x99]) 3 0 0 0; E 0x73 None 0 7331 0 7332;
   E 0x3b (Some [0xe2; 0xaa; 0xad]) 3 0 0 0;
   E 0x3b (Some [0xe2; 0xaa; 0xad; 0xef; 0xb8; 0x80]) 6 0 0 0; E 0x75 None 0 0 0 7334;
   E 0x6f (Some [0xc2; 0xab]) 2 0 0 7335; E 0x3b (Some [0xc2; 0xab]) 2 0 0 0;
   E 0x3b (Some [0xe2; 0xaa; 0x85]) 3 0 0 0; E 0x61 None 0 0 0 7338; E 0x72 None 0 0 0 7339;
   E 0x72 None 0 0 0 7340; E 0x3b (Some [0xe2; 0xa4; 0x8e]) 3 0 0 0;
   E 0x72 None 0 7343 7342 7344; E 0x74 None 0 0 0 7346; E 0x61 None 0 0 0 7350;
   E 0x72 None 0 0 0 7345; E 0x3b (Some [0xe2; 0x87; 0x90]) 3 0 0 0; E 0x61 None 0 0 0 7347;
   E 0x69 None 0 0 0 7348; E 0x6c None 0 0 0 7349; E 0x3b (Some [0xe2; 0xa4; 0x9b]) 3 0 0 0;
   E 0x72 None 0 0 0 7351; E 0x72 None 0 0 0 7352; E 0x3b (Some [0xe2; 0x87; 0x9a]) 3 0 0 0;
   E 0x61 None 0 0 0 7354; E 0x72 None 0 0 0 7355; E 0x3b (Some [0xe2; 0xa5; 0xa2]) 3 0 0 0;
   E 0x45 None 0 7357 0 7358; E 0x3b (Some [0xe2; 0x89; 0xb6]) 3 0 0 0;
   E 0x3b (Some [0xe2; 0xaa; 0x91]) 3 0 0 0; E 0x72 None 0 7361 7360 7363;
   E 0x73 None 0 0 0 7374; E 0x71 None 0 7362 0 7376; E 0x63 None 0 0 0 7381;
   E 0x75 None 0 7364 0 7365; E 0x64 None 0 0 0 7370; E 0x73 None 0 0 0 7366;
   E 0x68 None 0 0 0 7367; E 0x61 None 0 0 0 7368; E 0x72 None 0 0 0 7369;
   E 0x3b (Some [0xe2; 0xa5; 0x8b]) 3 0 0 0; E 0x68 None 0 0 0 7371; E 0x61 None 0 0 0 7372;
   E 0x72 None 0 0 0 7373; E 0x3b (Some [0xe2; 0xa5; 0xa7]) 3 0 0 0; E 0x68 None 0 0 0 7375;
   E 0x3b (Some [0xe2; 0x86; 0xb2]) 3 0 0 0; E 0x75 None 0 0 0 7377; E 0x6f None 0 0 0 7378;
   E 0x72 None 0 7379 0 7380; E 0x3b (Some [0xe2; 0x80; 0x9c]) 3 0 0 0;
   E 0x3b (Some [0xe2; 0x80; 0x9e]) 3 0 0 0; E 0x61 None 0 0 0 7382;
   E 0x3b (Some [0xe2; 0xa4; 0xb6]) 3 0 0 0; E 0x75 None 0 7385 7384 7387;
   E 0x79 None 0 0 0 7389; E 0x65 None 0 7386 0 7390; E 0x61 None 0 0 0 7397;
   E 0x62 None 0 0 0 7388; E 0x3b (Some [0x7b]) 1 0 0 0; E 0x3b (Some [0xd0; 0xbb]) 2 0 0 0;
   E 0x69 None 0 7391 0 7392; E 0x64 None 0 0 0 7394; E 0x6c None 0 0 0 7393;
   E 0x3b (Some [0xe2; 0x8c; 0x88]) 3 0 0 0; E 0x69 None 0 0 0 7395; E 0x6c None 0 0 0 7396;
   E 0x3b (Some [0xc4; 0xbc]) 2 0 0 0; E 0x72 None 0 0 0 7398; E 0x6f None 0 0 0 7399;
   E 0x6e None 0 0 0 7400; E 0x3b (Some [0xc4; 0xbe]) 2 0 0 0; E 0x6c None 0 7403 7402 7404;
   E 0x72 None 0 0 0 7408; E 0x69 None 0 0 0 7409; E 0x6f None 0 0 0 7405;
   E 0x6f None 0 0 0 7406; E 0x72 None 0 0 0 7407; E 0x3b (Some [0xe2; 0x8c; 0x8a]) 3 0 0 0;
   E 0x3b (Some [0xf0; 0x9d; 0x94; 0xa9]) 4 0 0 0; E 0x73 None 0 0 0 7410;
   E 0x68 None 0 0 0 7411; E 0x74 None 0 0 0 7412; E 0x3b (Some [0xe2; 0xa5; 0xbc]) 3 0 0 0;
   E 0x69 None 0 7415 7414 7421; E 0x71 None 0 7420 7419 7425; E 0x64 None 0 7417 7416 7430;
   E 0x68 None 0 0 0 7433; E 0x63 None 0 7418 0 7437; E 0x3b (Some [0x3c]) 1 0 0 0;
   E 0x72 None 0 0 0 7442; E 0x6c None 0 0 0 7452; E 0x6d None 0 0 0 7422;
   E 0x65 None 0 0 0 7423; E 0x73 None 0 0 0 7424; E 0x3b (Some [0xe2; 0x8b; 0x89]) 3 0 0 0;
   E 0x75 None 0 0 0 7426; E 0x65 None 0 0 0 7427; E 0x73 None 0 0 0 7428;
   E 0x74 None 0 0 0 7429; E 0x3b (Some [0xe2; 0xa9; 0xbb]) 3 0 0 0; E 0x6f None 0 0 0 7431;
   E 0x74 None 0 0 0 7432; E 0x3b (Some [0xe2; 0x8b; 0x96]) 3 0 0 0; E 0x72 None 0 0 0 7434;
   E 0x65 None 0 0 0 7435; E 0x65 None 0 0 0 7436; E 0x3b (Some [0xe2; 0x8b; 0x8b]) 3 0 0 0;
   E 0x69 None 0 7438 0 7439; E 0x63 None 0 0 0 7441; E 0x72 None 0 0 0 7440;
   E 0x3b (Some [0xe2; 0xa9; 0xb9]) 3 0 0 0; E 0x3b (Some [0xe2; 0xaa; 0xa6]) 3 0 0 0;
   E 0x69 None 0 7443 0 7444; E 0x50 None 0 0 0 7449; E 0x65 None 0 7446 7445 7447;
   E 0x66 None 0 0 0 7448; E 0x3b (Some [0xe2; 0x97; 0x83]) 3 0 0 0;
   E 0x3b (Some [0xe2; 0x8a; 0xb4]) 3 0 0 0; E 0x3b (Some [0xe2; 0x97; 0x82]) 3 0 0 0;
   E 0x61 None 0 0 0 7450; E 0x72 None 0 0 0 7451; E 0x3b (Some [0xe2; 0xa6; 0x96]) 3 0 0 0;
   E 0x61 None 0 0 0 7453; E 0x72 None 0 0 0 7454; E 0x72 None 0 0 0 7455;
   E 0x3b (Some [0xe2; 0xa5; 0xb6]) 3 0 0 0; E 0x6f None 0 7457 0 7458; E 0x69 None 0 0 0 7467;
   E 0x75 None 0 0 0 7459; E 0x73 None 0 0 0 7460; E 0x74 None 0 0 0 7461;
   E 0x61 None 0 7462 0 7463; E 0x3b (Some [0xe2; 0x8e; 0xb0]) 3 0 0 0; E 0x63 None 0 0 0 7464;
   E 0x68 None 0 0 0 7465; E 0x65 None 0 0 0 7466; E 0x3b (Some [0xe2; 0x8e; 0xb0]) 3 0 0 0;
   E 0x64 None 0 0 0 7468; E 0x6f None 0 0 0 7469; E 0x74 None 0 0 0 7470;
   E 0x3b (Some [0xc5; 0x80]) 2 0 0 0; E 0x70 None 0 7473 7472 7479;
   E 0x77 None 0 7478 7477 7488; E 0x6e None 0 7475 7474 7496; E 0x6f None 0 0 0 7536;
   E 0x62 None 0 7476 0 7553; E 0x61 None 0 0 0 7556; E 0x7a None 0 0 0 7562;
   E 0x74 None 0 0 0 7570; E 0x66 None 0 7481 7480 7482; E 0x6c None 0 0 0 7483;
   E 0x61 None 0 0 0 7486; E 0x3b (Some [0xf0; 0x9d; 0x95; 0x9d]) 4 0 0 0;
   E 0x75 None 0 0 0 7484; E 0x73 None 0 0 0 7485; E 0x3b (Some [0xe2; 0xa8; 0xad]) 3 0 0 0;
   E 0x72 None 0 0 0 7487; E 0x3b (Some [0xe2; 0xa6; 0x85]) 3 0 0 0; E 0x62 None 0 7489 0 7490;
   E 0x61 None 0 0 0 7493; E 0x61 None 0 0 0 7491; E 0x72 None 0 0 0 7492;
   E 0x3b (Some [0x5f]) 1 0 0 0; E 0x73 None 0 0 0 7494; E 0x74 None 0 0 0 7495;
   E 0x3b (Some [0xe2; 0x88; 0x97]) 3 0 0 0; E 0x67 None 0 0 0 7497;
   E 0x6d None 0 7499 7498 7500; E 0x72 None 0 0 0 7506; E 0x6c None 0 0 0 7516].

Definition entities_15 : list sbst_entry :=
  [E 0x61 None 0 0 0 7501; E 0x70 None 0 0 0 7502; E 0x73 None 0 0 0 7503;
   E 0x74 None 0 0 0 7504; E 0x6f None 0 0 0 7505; E 0x3b (Some [0xe2; 0x9f; 0xbc]) 3 0 0 0;
   E 0x69 None 0 0 0 7507; E 0x67 None 0 0 0 7508; E 0x68 None 0 0 0 7509;
   E 0x74 None 0 0 0 7510; E 0x61 None 0 0 0 7511; E 0x72 None 0 0 0 7512;
   E 0x72 None 0 0 0 7513; E 0x6f None 0 0 0 7514; E 0x77 None 0 0 0 7515;
   E 0x3b (Some [0xe2; 0x9f; 0xb6]) 3 0 0 0; E 0x65 None 0 0 0 7517; E 0x66 None 0 0 0 7518;
   E 0x74 None 0 0 0 7519; E 0x72 None 0 7520 0 7521; E 0x61 None 0 0 0 7531;
   E 0x69 None 0 0 0 7522; E 0x67 None 0 0 0 7523; E 0x68 None 0 0 0 7524;
   E 0x74 None 0 0 0 7525; E 0x61 None 0 0 0 7526; E 0x72 None 0 0 0 7527;
   E 0x72 None 0 0 0 7528; E 0x6f None 0 0 0 7529; E 0x77 None 0 0 0 7530;
   E 0x3b (Some [0xe2; 0x9f; 0xb7]) 3 0 0 0; E 0x72 None 0 0 0 7532; E 0x72 None 0 0 0 7533;
   E 0x6f None 0 0 0 7534; E 0x77 None 0 0 0 7535; E 0x3b (Some [0xe2; 0x9f; 0xb5]) 3 0 0 0;
   E 0x70 None 0 0 0 7537; E 0x61 None 0 0 0 7538; E 0x72 None 0 0 0 7539;
   E 0x72 None 0 0 0 7540; E 0x6f None 0 0 0 7541; E 0x77 None 0 0 0 7542;
   E 0x72 None 0 7543 0 7544; E 0x6c None 0 0 0 7549; E 0x69 None 0 0 0 7545;
   E 0x67 None 0 0 0 7546; E 0x68 None 0 0 0 7547; E 0x74 None 0 0 0 7548;
   E 0x3b (Some [0xe2; 0x86; 0xac]) 3 0 0 0; E 0x65 None 0 0 0 7550; E 0x66 None 0 0 0 7551;
   E 0x74 None 0 0 0 7552; E 0x3b (Some [0xe2; 0x86; 0xab]) 3 0 0 0; E 0x72 None 0 0 0 7554;
   E 0x6b None 0 0 0 7555; E 0x3b (Some [0xe2; 0x9f; 0xa6]) 3 0 0 0; E 0x72 None 0 7557 0 7558;
   E 0x6e None 0 0 0 7560; E 0x72 None 0 0 0 7559; E 0x3b (Some [0xe2; 0x87; 0xbd]) 3 0 0 0;
   E 0x67 None 0 0 0 7561; E 0x3b (Some [0xe2; 0x9f; 0xac]) 3 0 0 0;
   E 0x65 None 0 7564 7563 7565; E 0x66 None 0 0 0 7569;
   E 0x3b (Some [0xe2; 0x97; 0x8a]) 3 0 0 0; E 0x6e None 0 0 0 7566; E 0x67 None 0 0 0 7567;
   E 0x65 None 0 0 0 7568; E 0x3b (Some [0xe2; 0x97; 0x8a]) 3 0 0 0;
   E 0x3b (Some [0xe2; 0xa7; 0xab]) 3 0 0 0; E 0x69 None 0 0 0 7571; E 0x6d None 0 0 0 7572;
   E 0x65 None 0 0 0 7573; E 0x73 None 0 0 0 7574; E 0x3b (Some [0xe2; 0xa8; 0xb4]) 3 0 0 0;
   E 0x63 None 0 7577 7576 7580; E 0x74 None 0 7579 0 7586; E 0x61 None 0 7578 0 7589;
   E 0x3b (Some [0xe2; 0x89; 0xaa]) 3 0 0 0; E 0x68 None 0 0 0 7592; E 0x6f None 0 0 0 7581;
   E 0x72 None 0 0 0 7582; E 0x6e None 0 0 0 7583; E 0x65 None 0 0 0 7584;
   E 0x72 None 0 0 0 7585; E 0x3b (Some [0xe2; 0x8c; 0x9e]) 3 0 0 0; E 0x72 None 0 0 0 7587;
   E 0x69 None 0 0 0 7588; E 0x3b (Some [0xe2; 0x97; 0xba]) 3 0 0 0; E 0x72 None 0 0 0 7590;
   E 0x72 None 0 0 0 7591; E 0x3b (Some [0xe2; 0x87; 0x87]) 3 0 0 0; E 0x61 None 0 0 0 7593;
   E 0x72 None 0 0 0 7594; E 0x64 None 0 0 0 7595; E 0x3b (Some [0xe2; 0xa5; 0xab]) 3 0 0 0;
   E 0x63 None 0 0 0 7597; E 0x79 None 0 0 0 7598; E 0x3b (Some [0xd1; 0x99]) 2 0 0 0;
   E 0x65 None 0 7601 7600 7603; E 0x73 None 0 0 0 7608; E 0x61 None 0 7602 0 7611;
   E 0x45 None 0 0 0 7618; E 0x71 None 0 7604 0 7605; E 0x3b (Some [0xe2; 0xaa; 0x87]) 3 0 0 0;
   E 0x71 None 0 7606 0 7607; E 0x3b (Some [0xe2; 0xaa; 0x87]) 3 0 0 0;
   E 0x3b (Some [0xe2; 0x89; 0xa8]) 3 0 0 0; E 0x69 None 0 0 0 7609; E 0x6d None 0 0 0 7610;
   E 0x3b (Some [0xe2; 0x8b; 0xa6]) 3 0 0 0; E 0x70 None 0 0 0 7612; E 0x70 None 0 7613 0 7614;
   E 0x3b (Some [0xe2; 0xaa; 0x89]) 3 0 0 0; E 0x72 None 0 0 0 7615; E 0x6f None 0 0 0 7616;
   E 0x78 None 0 0 0 7617; E 0x3b (Some [0xe2; 0xaa; 0x89]) 3 0 0 0;
   E 0x3b (Some [0xe2; 0x89; 0xa8]) 3 0 0 0; E 0x6e None 0 7620 0 7621; E 0x65 None 0 0 0 7623;
   E 0x45 None 0 0 0 7622; E 0x3b (Some [0xe2; 0x89; 0xa8; 0xef; 0xb8; 0x80]) 6 0 0 0;
   E 0x72 None 0 0 0 7624; E 0x74 None 0 0 0 7625; E 0x6e None 0 0 0 7626;
   E 0x65 None 0 0 0 7627; E 0x71 None 0 0 0 7628; E 0x71 None 0 0 0 7629;
   E 0x3b (Some [0xe2; 0x89; 0xa8; 0xef; 0xb8; 0x80]) 6 0 0 0; E 0x69 None 0 7632 7631 7636;
   E 0x74 None 0 7635 0 7642; E 0x63 None 0 7634 7633 7646; E 0x68 None 0 0 0 7648;
   E 0x61 None 0 0 0 7649; E 0x71 None 0 0 0 7653; E 0x6d None 0 0 0 7637;
   E 0x65 None 0 7639 7638 7640; E 0x67 None 0 0 0 7641;
   E 0x3b (Some [0xe2; 0x89; 0xb2]) 3 0 0 0; E 0x3b (Some [0xe2; 0xaa; 0x8d]) 3 0 0 0;
   E 0x3b (Some [0xe2; 0xaa; 0x8f]) 3 0 0 0; E 0x72 None 0 0 0 7643; E 0x6f None 0 0 0 7644;
   E 0x6b None 0 0 0 7645; E 0x3b (Some [0xc5; 0x82]) 2 0 0 0; E 0x72 None 0 0 0 7647;
   E 0x3b (Some [0xf0; 0x9d; 0x93; 0x81]) 4 0 0 0; E 0x3b (Some [0xe2; 0x86; 0xb0]) 3 0 0 0;
   E 0x71 None 0 0 0 7650; E 0x75 None 0 0 0 7651; E 0x6f None 0 0 0 7652;
   E 0x3b (Some [0xe2; 0x80; 0xb9]) 3 0 0 0; E 0x75 None 0 7654 0 7655; E 0x62 None 0 0 0 7659;
   E 0x6f None 0 0 0 7656; E 0x72 None 0 7657 0 7658; E 0x3b (Some [0xe2; 0x80; 0x98]) 3 0 0 0;
   E 0x3b (Some [0xe2; 0x80; 0x9a]) 3 0 0 0; E 0x3b (Some [0x5b]) 1 0 0 0;
   E 0x68 None 0 7662 7661 7665; E 0x74 None 0 7664 0 7670; E 0x63 None 0 7663 0 7673;
   E 0x61 None 0 0 0 7679; E 0x6d None 0 0 0 7682; E 0x61 None 0 0 0 7666;
   E 0x72 None 0 0 0 7667; E 0x64 None 0 7668 0 7669; E 0x3b (Some [0xe2; 0x87; 0x8b]) 3 0 0 0;
   E 0x3b (Some [0xe2; 0xa5; 0xad]) 3 0 0 0; E 0x72 None 0 0 0 7671; E 0x69 None 0 0 0 7672;
   E 0x3b (Some [0xe2; 0x8a; 0xbf]) 3 0 0 0; E 0x6f None 0 0 0 7674; E 0x72 None 0 0 0 7675;
   E 0x6e None 0 0 0 7676; E 0x65 None 0 0 0 7677; E 0x72 None 0 0 0 7678;
   E 0x3b (Some [0xe2; 0x8c; 0x9f]) 3 0 0 0; E 0x72 None 0 0 0 7680; E 0x72 None 0 0 0 7681;
   E 0x3b (Some [0xe2; 0x87; 0x86]) 3 0 0 0; E 0x3b (Some [0xe2; 0x80; 0x8e]) 3 0 0 0;
   E 0x72 None 0 0 0 7684; E 0x75 None 0 7685 0 7686; E 0x64 None 0 0 0 7690;
   E 0x68 None 0 0 0 7687; E 0x61 None 0 0 0 7688; E 0x72 None 0 0 0 7689;
   E 0x3b (Some [0xe2; 0xa5; 0xa6]) 3 0 0 0; E 0x73 None 0 0 0 7691; E 0x68 None 0 0 0 7692;
   E 0x61 None 0 0 0 7693; E 0x72 None 0 0 0 7694; E 0x3b (Some [0xe2; 0xa5; 0x8a]) 3 0 0 0;
   E 0x6e None 0 7697 7696 7709; E 0x75 None 0 7705 7704 7712; E 0x68 None 0 7699 7698 7721;
   E 0x6c None 0 7703 7702 7729; E 0x64 None 0 7701 7700 7737; E 0x66 None 0 0 0 7741;
   E 0x63 None 0 0 0 7743; E 0x6d None 0 0 0 7753; E 0x69 None 0 0 0 7756;
   E 0x77 None 0 7708 0 7757; E 0x72 None 0 7707 7706 7762; E 0x73 None 0 0 0 7770;
   E 0x6f None 0 0 0 7778; E 0x76 None 0 0 0 7794; E 0x69 None 0 0 0 7710;
   E 0x73 None 0 0 0 7711; E 0x3b (Some [0xe2; 0x8b; 0xbb]) 3 0 0 0; E 0x74 None 0 7713 0 7714;
   E 0x70 None 0 0 0 7717; E 0x72 None 0 0 0 7715; E 0x69 None 0 0 0 7716;
   E 0x3b (Some [0xe2; 0x96; 0xb3]) 3 0 0 0; E 0x6c None 0 0 0 7718; E 0x75 None 0 0 0 7719;
   E 0x73 None 0 0 0 7720; E 0x3b (Some [0xe2; 0xa8; 0x84]) 3 0 0 0; E 0x61 None 0 7722 0 7723;
   E 0x41 None 0 0 0 7726; E 0x72 None 0 0 0 7724; E 0x72 None 0 0 0 7725;
   E 0x3b (Some [0xe2; 0x9f; 0xb7]) 3 0 0 0; E 0x72 None 0 0 0 7727; E 0x72 None 0 0 0 7728;
   E 0x3b (Some [0xe2; 0x9f; 0xba]) 3 0 0 0; E 0x61 None 0 7730 0 7731; E 0x41 None 0 0 0 7734;
   E 0x72 None 0 0 0 7732; E 0x72 None 0 0 0 7733; E 0x3b (Some [0xe2; 0x9f; 0xb5]) 3 0 0 0;
   E 0x72 None 0 0 0 7735; E 0x72 None 0 0 0 7736; E 0x3b (Some [0xe2; 0x9f; 0xb8]) 3 0 0 0;
   E 0x74 None 0 0 0 7738; E 0x72 None 0 0 0 7739; E 0x69 None 0 0 0 7740;
   E 0x3b (Some [0xe2; 0x96; 0xbd]) 3 0 0 0; E 0x72 None 0 0 0 7742;
   E 0x3b (Some [0xf0; 0x9d; 0x94; 0xb5]) 4 0 0 0; E 0x69 None 0 7745 7744 7746;
   E 0x75 None 0 0 0 7749; E 0x61 None 0 0 0 7751; E 0x72 None 0 0 0 7747;
   E 0x63 None 0 0 0 7748; E 0x3b (Some [0xe2; 0x97; 0xaf]) 3 0 0 0; E 0x70 None 0 0 0 7750;
   E 0x3b (Some [0xe2; 0x8b; 0x83]) 3 0 0 0; E 0x70 None 0 0 0 7752;
   E 0x3b (Some [0xe2; 0x8b; 0x82]) 3 0 0 0; E 0x61 None 0 0 0 7754; E 0x70 None 0 0 0 7755;
   E 0x3b (Some [0xe2; 0x9f; 0xbc]) 3 0 0 0; E 0x3b (Some [0xce; 0xbe]) 2 0 0 0;
   E 0x65 None 0 0 0 7758; E 0x64 None 0 0 0 7759; E 0x67 None 0 0 0 7760;
   E 0x65 None 0 0 0 7761; E 0x3b (Some [0xe2; 0x8b; 0x80]) 3 0 0 0; E 0x61 None 0 7763 0 7764;
   E 0x41 None 0 0 0 7767; E 0x72 None 0 0 0 7765; E 0x72 None 0 0 0 7766;
   E 0x3b (Some [0xe2; 0x9f; 0xb6]) 3 0 0 0; E 0x72 None 0 0 0 7768; E 0x72 None 0 0 0 7769;
   E 0x3b (Some [0xe2; 0x9f; 0xb9]) 3 0 0 0; E 0x71 None 0 7771 0 7772; E 0x63 None 0 0 0 7776;
   E 0x63 None 0 0 0 7773; E 0x75 None 0 0 0 7774; E 0x70 None 0 0 0 7775;
   E 0x3b (Some [0xe2; 0xa8; 0x86]) 3 0 0 0; E 0x72 None 0 0 0 7777;
   E 0x3b (Some [0xf0; 0x9d; 0x93; 0x8d]) 4 0 0 0; E 0x70 None 0 7780 7779 7781;
   E 0x74 None 0 0 0 7787; E 0x64 None 0 0 0 7791; E 0x6c None 0 7782 0 7783;
   E 0x66 None 0 0 0 7786; E 0x75 None 0 0 0 7784; E 0x73 None 0 0 0 7785;
   E 0x3b (Some [0xe2; 0xa8; 0x81]) 3 0 0 0; E 0x3b (Some [0xf0; 0x9d; 0x95; 0xa9]) 4 0 0 0;
   E 0x69 None 0 0 0 7788; E 0x6d None 0 0 0 7789; E 0x65 None 0 0 0 7790;
   E 0x3b (Some [0xe2; 0xa8; 0x82]) 3 0 0 0; E 0x6f None 0 0 0 7792; E 0x74 None 0 0 0 7793;
   E 0x3b (Some [0xe2; 0xa8; 0x80]) 3 0 0 0; E 0x65 None 0 0 0 7795; E 0x65 None 0 0 0 7796;
   E 0x3b (Some [0xe2; 0x8b; 0x81]) 3 0 0 0; E 0x69 None 0 7799 7798 7818;
   E 0x72 None 0 7810 7809 7915; E 0x63 None 0 7801 7800 7919; E 0x66 None 0 7807 7806 7937;
   E 0x48 None 0 7803 7802 7949; E 0x62 None 0 7805 0 7952; E 0x42 None 0 7804 0 7976;
   E 0x41 None 0 0 0 7980; E 0x61 None 0 0 0 7992; E 0x68 None 0 0 0 8071;
   E 0x65 None 0 7808 0 8083; E 0x64 None 0 0 0 8102; E 0x75 None 0 7816 7815 8120;
   E 0x6e None 0 7812 7811 8126; E 0x70 None 0 7814 0 8130; E 0x6d None 0 7813 0 8143;
   E 0x6c None 0 0 0 8153; E 0x6f None 0 0 0 8163; E 0x78 None 0 0 0 8190;
   E 0x74 None 0 7817 0 8191; E 0x73 None 0 0 0 8213; E 0x6e None 0 7820 7819 7821;
   E 0x73 None 0 0 0 7823; E 0x67 None 0 0 0 7833; E 0x67 None 0 0 0 7822;
   E 0x3b (Some [0xcb; 0x9a]) 2 0 0 0; E 0x69 None 0 0 0 7824; E 0x6e None 0 0 0 7825;
   E 0x67 None 0 0 0 7826; E 0x64 None 0 0 0 7827; E 0x6f None 0 0 0 7828;
   E 0x74 None 0 0 0 7829; E 0x73 None 0 0 0 7830; E 0x65 None 0 0 0 7831;
   E 0x71 None 0 0 0 7832; E 0x3b (Some [0xe2; 0x89; 0x93]) 3 0 0 0; E 0x68 None 0 0 0 7834;
   E 0x74 None 0 0 0 7835; E 0x72 None 0 7837 7836 7841; E 0x74 None 0 7840 0 7852;
   E 0x68 None 0 7839 7838 7862; E 0x6c None 0 0 0 7876; E 0x61 None 0 0 0 7895;
   E 0x73 None 0 0 0 7905; E 0x69 None 0 0 0 7842; E 0x67 None 0 0 0 7843;
   E 0x68 None 0 0 0 7844; E 0x74 None 0 0 0 7845; E 0x61 None 0 0 0 7846;
   E 0x72 None 0 0 0 7847; E 0x72 None 0 0 0 7848; E 0x6f None 0 0 0 7849;
   E 0x77 None 0 0 0 7850; E 0x73 None 0 0 0 7851; E 0x3b (Some [0xe2; 0x87; 0x89]) 3 0 0 0;
   E 0x68 None 0 0 0 7853; E 0x72 None 0 0 0 7854; E 0x65 None 0 0 0 7855;
   E 0x65 None 0 0 0 7856; E 0x74 None 0 0 0 7857; E 0x69 None 0 0 0 7858;
   E 0x6d None 0 0 0 7859; E 0x65 None 0 0 0 7860; E 0x73 None 0 0 0 7861;
   E 0x3b (Some [0xe2; 0x8b; 0x8c]) 3 0 0 0; E 0x61 None 0 0 0 7863; E 0x72 None 0 0 0 7864;
   E 0x70 None 0 0 0 7865; E 0x6f None 0 0 0 7866; E 0x6f None 0 0 0 7867;
   E 0x6e None 0 0 0 7868; E 0x75 None 0 7869 0 7870; E 0x64 None 0 0 0 7872;
   E 0x70 None 0 0 0 7871; E 0x3b (Some [0xe2; 0x87; 0x80]) 3 0 0 0; E 0x6f None 0 0 0 7873;
   E 0x77 None 0 0 0 7874; E 0x6e None 0 0 0 7875; E 0x3b (Some [0xe2; 0x87; 0x81]) 3 0 0 0;
   E 0x65 None 0 0 0 7877; E 0x66 None 0 0 0 7878; E 0x74 None 0 0 0 7879;
   E 0x68 None 0 7880 0 7881; E 0x61 None 0 0 0 7889; E 0x61 None 0 0 0 7882;
   E 0x72 None 0 0 0 7883; E 0x70 None 0 0 0 7884; E 0x6f None 0 0 0 7885;
   E 0x6f None 0 0 0 7886; E 0x6e None 0 0 0 7887; E 0x73 None 0 0 0 7888;
   E 0x3b (Some [0xe2; 0x87; 0x8c]) 3 0 0 0; E 0x72 None 0 0 0 7890; E 0x72 None 0 0 0 7891;
   E 0x6f None 0 0 0 7892; E 0x77 None 0 0 0 7893; E 0x73 None 0 0 0 7894;
   E 0x3b (Some [0xe2; 0x87; 0x84]) 3 0 0 0; E 0x72 None 0 0 0 7896; E 0x72 None 0 0 0 7897;
   E 0x6f None 0 0 0 7898; E 0x77 None 0 0 0 7899; E 0x74 None 0 7900 0 7901;
   E 0x3b (Some [0xe2; 0x86; 0x92]) 3 0 0 0; E 0x61 None 0 0 0 7902; E 0x69 None 0 0 0 7903;
   E 0x6c None 0 0 0 7904; E 0x3b (Some [0xe2; 0x86; 0xa3]) 3 0 0 0; E 0x71 None 0 0 0 7906;
   E 0x75 None 0 0 0 7907; E 0x69 None 0 0 0 7908; E 0x67 None 0 0 0 7909;
   E 0x61 None 0 0 0 7910; E 0x72 None 0 0 0 7911; E 0x72 None 0 0 0 7912;
   E 0x6f None 0 0 0 7913; E 0x77 None 0 0 0 7914; E 0x3b (Some [0xe2; 0x86; 0x9d]) 3 0 0 0;
   E 0x61 None 0 0 0 7916; E 0x72 None 0 0 0 7917; E 0x72 None 0 0 0 7918;
   E 0x3b (Some [0xe2; 0x87; 0x89]) 3 0 0 0; E 0x75 None 0 7921 7920 7923;
   E 0x79 None 0 0 0 7925; E 0x65 None 0 7922 0 7926; E 0x61 None 0 0 0 7933;
   E 0x62 None 0 0 0 7924; E 0x3b (Some [0x7d]) 1 0 0 0; E 0x3b (Some [0xd1; 0x80]) 2 0 0 0;
   E 0x69 None 0 7927 0 7928; E 0x64 None 0 0 0 7930; E 0x6c None 0 0 0 7929;
   E 0x3b (Some [0xe2; 0x8c; 0x89]) 3 0 0 0; E 0x69 None 0 0 0 7931; E 0x6c None 0 0 0 7932;
   E 0x3b (Some [0xc5; 0x97]) 2 0 0 0; E 0x72 None 0 0 0 7934; E 0x6f None 0 0 0 7935;
   E 0x6e None 0 0 0 7936; E 0x3b (Some [0xc5; 0x99]) 2 0 0 0; E 0x6c None 0 7939 7938 7940;
   E 0x72 None 0 0 0 7944; E 0x69 None 0 0 0 7945; E 0x6f None 0 0 0 7941;
   E 0x6f None 0 0 0 7942; E 0x72 None 0 0 0 7943; E 0x3b (Some [0xe2; 0x8c; 0x8b]) 3 0 0 0;
   E 0x3b (Some [0xf0; 0x9d; 0x94; 0xaf]) 4 0 0 0; E 0x73 None 0 0 0 7946;
   E 0x68 None 0 0 0 7947; E 0x74 None 0 0 0 7948; E 0x3b (Some [0xe2; 0xa5; 0xbd]) 3 0 0 0;
   E 0x61 None 0 0 0 7950; E 0x72 None 0 0 0 7951; E 0x3b (Some [0xe2; 0xa5; 0xa4]) 3 0 0 0;
   E 0x62 None 0 7954 7953 7955; E 0x72 None 0 0 0 7958; E 0x61 None 0 0 0 7973;
   E 0x72 None 0 0 0 7956; E 0x6b None 0 0 0 7957; E 0x3b (Some [0xe2; 0x9d; 0xb3]) 3 0 0 0;
   E 0x6b None 0 7959 0 7960; E 0x61 None 0 0 0 7968; E 0x73 None 0 7961 0 7962;
   E 0x65 None 0 0 0 7967; E 0x6c None 0 0 0 7963; E 0x75 None 0 7964 0 7965;
   E 0x64 None 0 0 0 7966; E 0x3b (Some [0xe2; 0xa6; 0x90]) 3 0 0 0;
   E 0x3b (Some [0xe2; 0xa6; 0x8e]) 3 0 0 0; E 0x3b (Some [0xe2; 0xa6; 0x8c]) 3 0 0 0;
   E 0x63 None 0 0 0 7969; E 0x6b None 0 7970 0 7971; E 0x65 None 0 0 0 7972;
   E 0x3b (Some [0x5d]) 1 0 0 0; E 0x3b (Some [0x7d]) 1 0 0 0; E 0x72 None 0 0 0 7974;
   E 0x72 None 0 0 0 7975; E 0x3b (Some [0xe2; 0xa4; 0x8d]) 3 0 0 0; E 0x61 None 0 0 0 7977;
   E 0x72 None 0 0 0 7978; E 0x72 None 0 0 0 7979; E 0x3b (Some [0xe2; 0xa4; 0x8f]) 3 0 0 0;
   E 0x72 None 0 7982 7981 7983; E 0x74 None 0 0 0 7985; E 0x61 None 0 0 0 7989;
   E 0x72 None 0 0 0 7984; E 0x3b (Some [0xe2; 0x87; 0x92]) 3 0 0 0; E 0x61 None 0 0 0 7986;
   E 0x69 None 0 0 0 7987; E 0x6c None 0 0 0 7988; E 0x3b (Some [0xe2; 0xa4; 0x9c]) 3 0 0 0;
   E 0x72 None 0 0 0 7990; E 0x72 None 0 0 0 7991; E 0x3b (Some [0xe2; 0x87; 0x9b]) 3 0 0 0;
   E 0x6e None 0 7994 7993 7999; E 0x72 None 0 7998 7997 8008; E 0x64 None 0 7996 7995 8041;
   E 0x65 None 0 0 0 8044; E 0x63 None 0 0 0 8050; E 0x74 None 0 0 0 8056;
   E 0x71 None 0 0 0 8068; E 0x67 None 0 0 0 8000].

Definition entities_16 : list sbst_entry :=
  [E 0x65 None 0 8002 8001 8004; E 0x6c None 0 0 0 8005; E 0x64 None 0 8003 0 8007;
   E 0x3b (Some [0xe2; 0x9f; 0xa9]) 3 0 0 0; E 0x3b (Some [0xe2; 0xa6; 0xa5]) 3 0 0 0;
   E 0x65 None 0 0 0 8006; E 0x3b (Some [0xe2; 0x9f; 0xa9]) 3 0 0 0;
   E 0x3b (Some [0xe2; 0xa6; 0x92]) 3 0 0 0; E 0x72 None 0 0 0 8009;
   E 0x68 None 0 8011 8010 8020; E 0x73 None 0 8017 8016 8022; E 0x62 None 0 8013 8012 8025;
   E 0x66 None 0 8015 0 8029; E 0x61 None 0 8014 0 8031;
   E 0x3b (Some [0xe2; 0x86; 0x92]) 3 0 0 0; E 0x63 None 0 0 0 8033; E 0x77 None 0 8019 0 8034;
   E 0x70 None 0 8018 0 8035; E 0x6c None 0 0 0 8037; E 0x74 None 0 0 0 8039;
   E 0x6b None 0 0 0 8021; E 0x3b (Some [0xe2; 0x86; 0xaa]) 3 0 0 0; E 0x69 None 0 0 0 8023;
   E 0x6d None 0 0 0 8024; E 0x3b (Some [0xe2; 0xa5; 0xb4]) 3 0 0 0; E 0x66 None 0 8026 0 8027;
   E 0x3b (Some [0xe2; 0x87; 0xa5]) 3 0 0 0; E 0x73 None 0 0 0 8028;
   E 0x3b (Some [0xe2; 0xa4; 0xa0]) 3 0 0 0; E 0x73 None 0 0 0 8030;
   E 0x3b (Some [0xe2; 0xa4; 0x9e]) 3 0 0 0; E 0x70 None 0 0 0 8032;
   E 0x3b (Some [0xe2; 0xa5; 0xb5]) 3 0 0 0; E 0x3b (Some [0xe2; 0xa4; 0xb3]) 3 0 0 0;
   E 0x3b (Some [0xe2; 0x86; 0x9d]) 3 0 0 0; E 0x6c None 0 0 0 8036;
   E 0x3b (Some [0xe2; 0xa5; 0x85]) 3 0 0 0; E 0x70 None 0 0 0 8038;
   E 0x3b (Some [0xe2; 0x86; 0xac]) 3 0 0 0; E 0x6c None 0 0 0 8040;
   E 0x3b (Some [0xe2; 0x86; 0xa3]) 3 0 0 0; E 0x69 None 0 0 0 8042; E 0x63 None 0 0 0 8043;
   E 0x3b (Some [0xe2; 0x88; 0x9a]) 3 0 0 0; E 0x6d None 0 0 0 8045; E 0x70 None 0 0 0 8046;
   E 0x74 None 0 0 0 8047; E 0x79 None 0 0 0 8048; E 0x76 None 0 0 0 8049;
   E 0x3b (Some [0xe2; 0xa6; 0xb3]) 3 0 0 0; E 0x75 None 0 8051 0 8052; E 0x65 None 0 0 0 8055;
   E 0x74 None 0 0 0 8053; E 0x65 None 0 0 0 8054; E 0x3b (Some [0xc5; 0x95]) 2 0 0 0;
   E 0x3b (Some [0xe2; 0x88; 0xbd; 0xcc; 0xb1]) 5 0 0 0; E 0x69 None 0 8057 0 8058;
   E 0x61 None 0 0 0 8065; E 0x6f None 0 0 0 8059; E 0x6e None 0 8060 0 8061;
   E 0x3b (Some [0xe2; 0x88; 0xb6]) 3 0 0 0; E 0x61 None 0 0 0 8062; E 0x6c None 0 0 0 8063;
   E 0x73 None 0 0 0 8064; E 0x3b (Some [0xe2; 0x84; 0x9a]) 3 0 0 0; E 0x69 None 0 0 0 8066;
   E 0x6c None 0 0 0 8067; E 0x3b (Some [0xe2; 0xa4; 0x9a]) 3 0 0 0; E 0x75 None 0 0 0 8069;
   E 0x6f (Some [0xc2; 0xbb]) 2 0 0 8070; E 0x3b (Some [0xc2; 0xbb]) 2 0 0 0;
   E 0x6f None 0 8072 0 8073; E 0x61 None 0 0 0 8076; E 0x76 None 0 8074 0 8075;
   E 0x3b (Some [0xcf; 0x81]) 2 0 0 0; E 0x3b (Some [0xcf; 0xb1]) 2 0 0 0;
   E 0x72 None 0 0 0 8077; E 0x75 None 0 8078 0 8079; E 0x64 None 0 0 0 8082;
   E 0x6c None 0 8080 0 8081; E 0x3b (Some [0xe2; 0x87; 0x80]) 3 0 0 0;
   E 0x3b (Some [0xe2; 0xa5; 0xac]) 3 0 0 0; E 0x3b (Some [0xe2; 0x87; 0x81]) 3 0 0 0;
   E 0x63 None 0 8085 8084 8086; E 0x67 (Some [0xc2; 0xae]) 2 0 0 8088; E 0x61 None 0 0 0 8089;
   E 0x74 None 0 0 0 8087; E 0x3b (Some [0xe2; 0x96; 0xad]) 3 0 0 0;
   E 0x3b (Some [0xc2; 0xae]) 2 0 0 0; E 0x6c None 0 0 0 8090; E 0x70 None 0 8092 8091 8094;
   E 0x73 None 0 0 0 8098; E 0x69 None 0 8093 0 8099; E 0x3b (Some [0xe2; 0x84; 0x9c]) 3 0 0 0;
   E 0x61 None 0 0 0 8095; E 0x72 None 0 0 0 8096; E 0x74 None 0 0 0 8097;
   E 0x3b (Some [0xe2; 0x84; 0x9c]) 3 0 0 0; E 0x3b (Some [0xe2; 0x84; 0x9d]) 3 0 0 0;
   E 0x6e None 0 0 0 8100; E 0x65 None 0 0 0 8101; E 0x3b (Some [0xe2; 0x84; 0x9b]) 3 0 0 0;
   E 0x71 None 0 8104 8103 8106; E 0x73 None 0 0 0 8111; E 0x6c None 0 8105 0 8113;
   E 0x63 None 0 0 0 8118; E 0x75 None 0 0 0 8107; E 0x6f None 0 0 0 8108;
   E 0x72 None 0 8109 0 8110; E 0x3b (Some [0xe2; 0x80; 0x9d]) 3 0 0 0;
   E 0x3b (Some [0xe2; 0x80; 0x9d]) 3 0 0 0; E 0x68 None 0 0 0 8112;
   E 0x3b (Some [0xe2; 0x86; 0xb3]) 3 0 0 0; E 0x64 None 0 0 0 8114; E 0x68 None 0 0 0 8115;
   E 0x61 None 0 0 0 8116; E 0x72 None 0 0 0 8117; E 0x3b (Some [0xe2; 0xa5; 0xa9]) 3 0 0 0;
   E 0x61 None 0 0 0 8119; E 0x3b (Some [0xe2; 0xa4; 0xb7]) 3 0 0 0; E 0x6c None 0 0 0 8121;
   E 0x75 None 0 0 0 8122; E 0x68 None 0 0 0 8123; E 0x61 None 0 0 0 8124;
   E 0x72 None 0 0 0 8125; E 0x3b (Some [0xe2; 0xa5; 0xa8]) 3 0 0 0; E 0x6d None 0 0 0 8127;
   E 0x69 None 0 0 0 8128; E 0x64 None 0 0 0 8129; E 0x3b (Some [0xe2; 0xab; 0xae]) 3 0 0 0;
   E 0x70 None 0 8131 0 8132; E 0x61 None 0 0 0 8138; E 0x6f None 0 0 0 8133;
   E 0x6c None 0 0 0 8134; E 0x69 None 0 0 0 8135; E 0x6e None 0 0 0 8136;
   E 0x74 None 0 0 0 8137; E 0x3b (Some [0xe2; 0xa8; 0x92]) 3 0 0 0; E 0x72 None 0 0 0 8139;
   E 0x67 None 0 8140 0 8141; E 0x3b (Some [0x29]) 1 0 0 0; E 0x74 None 0 0 0 8142;
   E 0x3b (Some [0xe2; 0xa6; 0x94]) 3 0 0 0; E 0x6f None 0 0 0 8144; E 0x75 None 0 0 0 8145;
   E 0x73 None 0 0 0 8146; E 0x74 None 0 0 0 8147; E 0x61 None 0 8148 0 8149;
   E 0x3b (Some [0xe2; 0x8e; 0xb1]) 3 0 0 0; E 0x63 None 0 0 0 8150; E 0x68 None 0 0 0 8151;
   E 0x65 None 0 0 0 8152; E 0x3b (Some [0xe2; 0x8e; 0xb1]) 3 0 0 0;
   E 0x68 None 0 8155 8154 8156; E 0x6d None 0 0 0 8159; E 0x61 None 0 0 0 8160;
   E 0x61 None 0 0 0 8157; E 0x72 None 0 0 0 8158; E 0x3b (Some [0xe2; 0x87; 0x8c]) 3 0 0 0;
   E 0x3b (Some [0xe2; 0x80; 0x8f]) 3 0 0 0; E 0x72 None 0 0 0 8161; E 0x72 None 0 0 0 8162;
   E 0x3b (Some [0xe2; 0x87; 0x84]) 3 0 0 0; E 0x70 None 0 8165 8164 8167;
   E 0x74 None 0 0 0 8176; E 0x62 None 0 8166 0 8181; E 0x61 None 0 0 0 8184;
   E 0x66 None 0 8169 8168 8170; E 0x6c None 0 0 0 8171; E 0x61 None 0 0 0 8174;
   E 0x3b (Some [0xf0; 0x9d; 0x95; 0xa3]) 4 0 0 0; E 0x75 None 0 0 0 8172;
   E 0x73 None 0 0 0 8173; E 0x3b (Some [0xe2; 0xa8; 0xae]) 3 0 0 0; E 0x72 None 0 0 0 8175;
   E 0x3b (Some [0xe2; 0xa6; 0x86]) 3 0 0 0; E 0x69 None 0 0 0 8177; E 0x6d None 0 0 0 8178;
   E 0x65 None 0 0 0 8179; E 0x73 None 0 0 0 8180; E 0x3b (Some [0xe2; 0xa8; 0xb5]) 3 0 0 0;
   E 0x72 None 0 0 0 8182; E 0x6b None 0 0 0 8183; E 0x3b (Some [0xe2; 0x9f; 0xa7]) 3 0 0 0;
   E 0x72 None 0 8185 0 8186; E 0x6e None 0 0 0 8188; E 0x72 None 0 0 0 8187;
   E 0x3b (Some [0xe2; 0x87; 0xbe]) 3 0 0 0; E 0x67 None 0 0 0 8189;
   E 0x3b (Some [0xe2; 0x9f; 0xad]) 3 0 0 0; E 0x3b (Some [0xe2; 0x84; 0x9e]) 3 0 0 0;
   E 0x69 None 0 8193 8192 8194; E 0x72 None 0 0 0 8198; E 0x68 None 0 0 0 8209;
   E 0x6d None 0 0 0 8195; E 0x65 None 0 0 0 8196; E 0x73 None 0 0 0 8197;
   E 0x3b (Some [0xe2; 0x8b; 0x8a]) 3 0 0 0; E 0x69 None 0 0 0 8199;
   E 0x66 None 0 8201 8200 8203; E 0x6c None 0 0 0 8204; E 0x65 None 0 8202 0 8208;
   E 0x3b (Some [0xe2; 0x96; 0xb9]) 3 0 0 0; E 0x3b (Some [0xe2; 0x96; 0xb8]) 3 0 0 0;
   E 0x74 None 0 0 0 8205; E 0x72 None 0 0 0 8206; E 0x69 None 0 0 0 8207;
   E 0x3b (Some [0xe2; 0xa7; 0x8e]) 3 0 0 0; E 0x3b (Some [0xe2; 0x8a; 0xb5]) 3 0 0 0;
   E 0x72 None 0 0 0 8210; E 0x65 None 0 0 0 8211; E 0x65 None 0 0 0 8212;
   E 0x3b (Some [0xe2; 0x8b; 0x8c]) 3 0 0 0; E 0x68 None 0 8215 8214 8217;
   E 0x71 None 0 0 0 8218; E 0x63 None 0 8216 0 8225; E 0x61 None 0 0 0 8227;
   E 0x3b (Some [0xe2; 0x86; 0xb1]) 3 0 0 0; E 0x75 None 0 8219 0 8220; E 0x62 None 0 0 0 8224;
   E 0x6f None 0 0 0 8221; E 0x72 None 0 8222 0 8223; E 0x3b (Some [0xe2; 0x80; 0x99]) 3 0 0 0;
   E 0x3b (Some [0xe2; 0x80; 0x99]) 3 0 0 0; E 0x3b (Some [0x5d]) 1 0 0 0;
   E 0x72 None 0 0 0 8226; E 0x3b (Some [0xf0; 0x9d; 0x93; 0x87]) 4 0 0 0;
   E 0x71 None 0 0 0 8228; E 0x75 None 0 0 0 8229; E 0x6f None 0 0 0 8230;
   E 0x3b (Some [0xe2; 0x80; 0xba]) 3 0 0 0; E 0x68 None 0 8233 8232 8244;
   E 0x72 None 0 8240 8239 8293; E 0x64 None 0 8235 8234 8360; E 0x66 None 0 8238 0 8363;
   E 0x62 None 0 8237 8236 8365; E 0x63 None 0 0 0 8368; E 0x61 None 0 0 0 8380;
   E 0x65 None 0 0 0 8387; E 0x77 None 0 8243 0 8392; E 0x6f None 0 8242 8241 8422;
   E 0x70 None 0 0 0 8444; E 0x69 None 0 0 0 8449; E 0x73 None 0 0 0 8467;
   E 0x6b None 0 8246 8245 8248; E 0x6f None 0 0 0 8255; E 0x69 None 0 8247 0 8258;
   E 0x65 None 0 0 0 8275; E 0x73 None 0 8249 0 8250; E 0x61 None 0 0 0 8253;
   E 0x69 None 0 0 0 8251; E 0x6d None 0 0 0 8252; E 0x3b (Some [0xe2; 0x88; 0xbc]) 3 0 0 0;
   E 0x70 None 0 0 0 8254; E 0x3b (Some [0xe2; 0x89; 0x88]) 3 0 0 0; E 0x72 None 0 0 0 8256;
   E 0x6e (Some [0xc3; 0xbe]) 2 0 0 8257; E 0x3b (Some [0xc3; 0xbe]) 2 0 0 0;
   E 0x6e None 0 8259 0 8260; E 0x63 None 0 0 0 8263; E 0x73 None 0 0 0 8261;
   E 0x70 None 0 0 0 8262; E 0x3b (Some [0xe2; 0x80; 0x89]) 3 0 0 0; E 0x6b None 0 0 0 8264;
   E 0x73 None 0 8265 0 8266; E 0x61 None 0 0 0 8269; E 0x69 None 0 0 0 8267;
   E 0x6d None 0 0 0 8268; E 0x3b (Some [0xe2; 0x88; 0xbc]) 3 0 0 0; E 0x70 None 0 0 0 8270;
   E 0x70 None 0 0 0 8271; E 0x72 None 0 0 0 8272; E 0x6f None 0 0 0 8273;
   E 0x78 None 0 0 0 8274; E 0x3b (Some [0xe2; 0x89; 0x88]) 3 0 0 0; E 0x74 None 0 8276 0 8277;
   E 0x72 None 0 0 0 8285; E 0x61 None 0 0 0 8278; E 0x73 None 0 8280 8279 8281;
   E 0x76 None 0 0 0 8284; E 0x3b (Some [0xce; 0xb8]) 2 0 0 0; E 0x79 None 0 0 0 8282;
   E 0x6d None 0 0 0 8283; E 0x3b (Some [0xcf; 0x91]) 2 0 0 0;
   E 0x3b (Some [0xcf; 0x91]) 2 0 0 0; E 0x65 None 0 0 0 8286; E 0x66 None 0 8287 0 8288;
   E 0x34 None 0 0 0 8292; E 0x6f None 0 0 0 8289; E 0x72 None 0 0 0 8290;
   E 0x65 None 0 0 0 8291; E 0x3b (Some [0xe2; 0x88; 0xb4]) 3 0 0 0;
   E 0x3b (Some [0xe2; 0x88; 0xb4]) 3 0 0 0; E 0x69 None 0 8295 8294 8296;
   E 0x70 None 0 0 0 8351; E 0x61 None 0 0 0 8357; E 0x6d None 0 8298 8297 8303;
   E 0x73 None 0 8302 8301 8308; E 0x64 None 0 8300 8299 8310; E 0x65 None 0 0 0 8313;
   E 0x61 None 0 0 0 8314; E 0x74 None 0 0 0 8343; E 0x70 None 0 0 0 8347;
   E 0x69 None 0 0 0 8304; E 0x6e None 0 0 0 8305; E 0x75 None 0 0 0 8306;
   E 0x73 None 0 0 0 8307; E 0x3b (Some [0xe2; 0xa8; 0xba]) 3 0 0 0; E 0x62 None 0 0 0 8309;
   E 0x3b (Some [0xe2; 0xa7; 0x8d]) 3 0 0 0; E 0x6f None 0 0 0 8311; E 0x74 None 0 0 0 8312;
   E 0x3b (Some [0xe2; 0x97; 0xac]) 3 0 0 0; E 0x3b (Some [0xe2; 0x89; 0x9c]) 3 0 0 0;
   E 0x6e None 0 0 0 8315; E 0x67 None 0 0 0 8316; E 0x6c None 0 0 0 8317;
   E 0x65 None 0 0 0 8318; E 0x6c None 0 8320 8319 8323; E 0x72 None 0 8322 0 8330;
   E 0x64 None 0 8321 0 8338; E 0x3b (Some [0xe2; 0x96; 0xb5]) 3 0 0 0; E 0x71 None 0 0 0 8342;
   E 0x65 None 0 0 0 8324; E 0x66 None 0 0 0 8325; E 0x74 None 0 0 0 8326;
   E 0x65 None 0 8327 0 8328; E 0x3b (Some [0xe2; 0x97; 0x83]) 3 0 0 0; E 0x71 None 0 0 0 8329;
   E 0x3b (Some [0xe2; 0x8a; 0xb4]) 3 0 0 0; E 0x69 None 0 0 0 8331; E 0x67 None 0 0 0 8332;
   E 0x68 None 0 0 0 8333; E 0x74 None 0 0 0 8334; E 0x65 None 0 8335 0 8336;
   E 0x3b (Some [0xe2; 0x96; 0xb9]) 3 0 0 0; E 0x71 None 0 0 0 8337;
   E 0x3b (Some [0xe2; 0x8a; 0xb5]) 3 0 0 0; E 0x6f None 0 0 0 8339; E 0x77 None 0 0 0 8340;
   E 0x6e None 0 0 0 8341; E 0x3b (Some [0xe2; 0x96; 0xbf]) 3 0 0 0;
   E 0x3b (Some [0xe2; 0x89; 0x9c]) 3 0 0 0; E 0x69 None 0 0 0 8344; E 0x6d None 0 0 0 8345;
   E 0x65 None 0 0 0 8346; E 0x3b (Some [0xe2; 0xa8; 0xbb]) 3 0 0 0; E 0x6c None 0 0 0 8348;
   E 0x75 None 0 0 0 8349; E 0x73 None 0 0 0 8350; E 0x3b (Some [0xe2; 0xa8; 0xb9]) 3 0 0 0;
   E 0x65 None 0 0 0 8352; E 0x7a None 0 0 0 8353; E 0x69 None 0 0 0 8354;
   E 0x75 None 0 0 0 8355; E 0x6d None 0 0 0 8356; E 0x3b (Some [0xe2; 0x8f; 0xa2]) 3 0 0 0;
   E 0x64 None 0 0 0 8358; E 0x65 None 0 0 0 8359; E 0x3b (Some [0xe2; 0x84; 0xa2]) 3 0 0 0;
   E 0x6f None 0 0 0 8361; E 0x74 None 0 0 0 8362; E 0x3b (Some [0xe2; 0x83; 0x9b]) 3 0 0 0;
   E 0x72 None 0 0 0 8364; E 0x3b (Some [0xf0; 0x9d; 0x94; 0xb1]) 4 0 0 0;
   E 0x72 None 0 0 0 8366; E 0x6b None 0 0 0 8367; E 0x3b (Some [0xe2; 0x8e; 0xb4]) 3 0 0 0;
   E 0x65 None 0 8370 8369 8371; E 0x79 None 0 0 0 8375; E 0x61 None 0 0 0 8376;
   E 0x64 None 0 0 0 8372; E 0x69 None 0 0 0 8373; E 0x6c None 0 0 0 8374;
   E 0x3b (Some [0xc5; 0xa3]) 2 0 0 0; E 0x3b (Some [0xd1; 0x82]) 2 0 0 0;
   E 0x72 None 0 0 0 8377; E 0x6f None 0 0 0 8378; E 0x6e None 0 0 0 8379;
   E 0x3b (Some [0xc5; 0xa5]) 2 0 0 0; E 0x75 None 0 8381 0 8382; E 0x72 None 0 0 0 8383;
   E 0x3b (Some [0xcf; 0x84]) 2 0 0 0; E 0x67 None 0 0 0 8384; E 0x65 None 0 0 0 8385;
   E 0x74 None 0 0 0 8386; E 0x3b (Some [0xe2; 0x8c; 0x96]) 3 0 0 0; E 0x6c None 0 0 0 8388;
   E 0x72 None 0 0 0 8389; E 0x65 None 0 0 0 8390; E 0x63 None 0 0 0 8391;
   E 0x3b (Some [0xe2; 0x8c; 0x95]) 3 0 0 0; E 0x6f None 0 8393 0 8394; E 0x69 None 0 0 0 8419;
   E 0x68 None 0 0 0 8395; E 0x65 None 0 0 0 8396; E 0x61 None 0 0 0 8397;
   E 0x64 None 0 0 0 8398; E 0x72 None 0 8399 0 8400; E 0x6c None 0 0 0 8410;
   E 0x69 None 0 0 0 8401; E 0x67 None 0 0 0 8402; E 0x68 None 0 0 0 8403;
   E 0x74 None 0 0 0 8404; E 0x61 None 0 0 0 8405; E 0x72 None 0 0 0 8406;
   E 0x72 None 0 0 0 8407; E 0x6f None 0 0 0 8408; E 0x77 None 0 0 0 8409;
   E 0x3b (Some [0xe2; 0x86; 0xa0]) 3 0 0 0; E 0x65 None 0 0 0 8411; E 0x66 None 0 0 0 8412;
   E 0x74 None 0 0 0 8413; E 0x61 None 0 0 0 8414; E 0x72 None 0 0 0 8415;
   E 0x72 None 0 0 0 8416; E 0x6f None 0 0 0 8417; E 0x77 None 0 0 0 8418;
   E 0x3b (Some [0xe2; 0x86; 0x9e]) 3 0 0 0; E 0x78 None 0 0 0 8420; E 0x74 None 0 0 0 8421;
   E 0x3b (Some [0xe2; 0x89; 0xac]) 3 0 0 0; E 0x70 None 0 8424 8423 8425;
   E 0x73 None 0 0 0 8440; E 0x65 None 0 0 0 8442; E 0x63 None 0 8427 8426 8429;
   E 0x66 None 0 0 0 8432; E 0x62 None 0 8428 0 8437; E 0x3b (Some [0xe2; 0x8a; 0xa4]) 3 0 0 0;
   E 0x69 None 0 0 0 8430; E 0x72 None 0 0 0 8431; E 0x3b (Some [0xe2; 0xab; 0xb1]) 3 0 0 0;
   E 0x6f None 0 8433 0 8434; E 0x3b (Some [0xf0; 0x9d; 0x95; 0xa5]) 4 0 0 0;
   E 0x72 None 0 0 0 8435; E 0x6b None 0 0 0 8436; E 0x3b (Some [0xe2; 0xab; 0x9a]) 3 0 0 0;
   E 0x6f None 0 0 0 8438; E 0x74 None 0 0 0 8439; E 0x3b (Some [0xe2; 0x8c; 0xb6]) 3 0 0 0;
   E 0x61 None 0 0 0 8441; E 0x3b (Some [0xe2; 0xa4; 0xa9]) 3 0 0 0; E 0x61 None 0 0 0 8443;
   E 0x3b (Some [0xe2; 0xa4; 0xa8]) 3 0 0 0; E 0x72 None 0 0 0 8445; E 0x69 None 0 0 0 8446;
   E 0x6d None 0 0 0 8447; E 0x65 None 0 0 0 8448; E 0x3b (Some [0xe2; 0x80; 0xb4]) 3 0 0 0;
   E 0x6d None 0 8451 8450 8452; E 0x6e None 0 0 0 8462; E 0x6c None 0 0 0 8464;
   E 0x65 None 0 0 0 8453; E 0x73 (Some [0xc3; 0x97]) 2 0 0 8454; E 0x62 None 0 8456 8455 8457;
   E 0x64 None 0 0 0 8461; E 0x3b (Some [0xc3; 0x97]) 2 0 0 0; E 0x61 None 0 8458 0 8459;
   E 0x3b (Some [0xe2; 0x8a; 0xa0]) 3 0 0 0; E 0x72 None 0 0 0 8460;
   E 0x3b (Some [0xe2; 0xa8; 0xb1]) 3 0 0 0; E 0x3b (Some [0xe2; 0xa8; 0xb0]) 3 0 0 0;
   E 0x74 None 0 0 0 8463; E 0x3b (Some [0xe2; 0x88; 0xad]) 3 0 0 0; E 0x64 None 0 0 0 8465;
   E 0x65 None 0 0 0 8466; E 0x3b (Some [0xcb; 0x9c]) 2 0 0 0; E 0x68 None 0 8469 8468 8470;
   E 0x74 None 0 0 0 8473; E 0x63 None 0 0 0 8477; E 0x63 None 0 0 0 8471;
   E 0x79 None 0 0 0 8472; E 0x3b (Some [0xd1; 0x9b]) 2 0 0 0; E 0x72 None 0 0 0 8474;
   E 0x6f None 0 0 0 8475; E 0x6b None 0 0 0 8476; E 0x3b (Some [0xc5; 0xa7]) 2 0 0 0;
   E 0x79 None 0 8478 0 8479; E 0x72 None 0 0 0 8480; E 0x3b (Some [0xd1; 0x86]) 2 0 0 0;
   E 0x3b (Some [0xf0; 0x9d; 0x93; 0x89]) 4 0 0 0; E 0x6c None 0 8483 8482 8493;
   E 0x72 None 0 8490 8489 8535; E 0x66 None 0 8485 8484 8636; E 0x69 None 0 8488 0 8638;
   E 0x63 None 0 8487 8486 8649; E 0x65 None 0 0 0 8651; E 0x61 None 0 0 0 8671;
   E 0x68 None 0 0 0 8688; E 0x75 None 0 8492 0 8701; E 0x6f None 0 8491 0 8706;
   E 0x6d None 0 0 0 8720; E 0x73 None 0 0 0 8721; E 0x75 None 0 8494 0 8495;
   E 0x61 None 0 0 0 8526; E 0x73 None 0 0 0 8496; E 0x64 None 0 8498 8497 8505;
   E 0x73 None 0 8503 8502 8509; E 0x62 None 0 8500 8499 8512; E 0x63 None 0 0 0 8513].

Definition entities_17 : list sbst_entry :=
  [E 0x61 None 0 8501 0 8516; E 0x3b (Some [0x2b]) 1 0 0 0; E 0x74 None 0 0 0 8520;
   E 0x6d None 0 8504 0 8523; E 0x65 None 0 0 0 8525; E 0x75 None 0 8506 0 8507;
   E 0x6f None 0 0 0 8508; E 0x3b (Some [0xe2; 0xa8; 0xa5]) 3 0 0 0;
   E 0x3b (Some [0xe2; 0x88; 0x94]) 3 0 0 0; E 0x69 None 0 0 0 8510; E 0x6d None 0 0 0 8511;
   E 0x3b (Some [0xe2; 0xa8; 0xa6]) 3 0 0 0; E 0x3b (Some [0xe2; 0x8a; 0x9e]) 3 0 0 0;
   E 0x69 None 0 0 0 8514; E 0x72 None 0 0 0 8515; E 0x3b (Some [0xe2; 0xa8; 0xa2]) 3 0 0 0;
   E 0x63 None 0 0 0 8517; E 0x69 None 0 0 0 8518; E 0x72 None 0 0 0 8519;
   E 0x3b (Some [0xe2; 0xa8; 0xa3]) 3 0 0 0; E 0x77 None 0 0 0 8521; E 0x6f None 0 0 0 8522;
   E 0x3b (Some [0xe2; 0xa8; 0xa7]) 3 0 0 0; E 0x6e (Some [0xc2; 0xb1]) 2 0 0 8524;
   E 0x3b (Some [0xc2; 0xb1]) 2 0 0 0; E 0x3b (Some [0xe2; 0xa9; 0xb2]) 3 0 0 0;
   E 0x6e None 0 0 0 8527; E 0x6b None 0 8528 0 8529; E 0x63 None 0 0 0 8531;
   E 0x76 None 0 0 0 8530; E 0x3b (Some [0xe2; 0x84; 0x8f]) 3 0 0 0; E 0x6b None 0 0 0 8532;
   E 0x68 None 0 8533 0 8534; E 0x3b (Some [0xe2; 0x84; 0x8f]) 3 0 0 0;
   E 0x3b (Some [0xe2; 0x84; 0x8e]) 3 0 0 0; E 0x69 None 0 8537 8536 8545;
   E 0x73 None 0 8543 8542 8550; E 0x61 None 0 8539 8538 8553; E 0x65 None 0 8541 0 8555;
   E 0x45 None 0 8540 0 8596; E 0x3b (Some [0xe2; 0x89; 0xba]) 3 0 0 0; E 0x63 None 0 0 0 8597;
   E 0x75 None 0 0 0 8600; E 0x6f None 0 8544 0 8604; E 0x6e None 0 0 0 8627;
   E 0x6d None 0 0 0 8546; E 0x65 None 0 0 0 8547; E 0x73 None 0 8548 0 8549;
   E 0x3b (Some [0xe2; 0x80; 0xb2]) 3 0 0 0; E 0x3b (Some [0xe2; 0x84; 0x99]) 3 0 0 0;
   E 0x69 None 0 0 0 8551; E 0x6d None 0 0 0 8552; E 0x3b (Some [0xe2; 0x89; 0xbe]) 3 0 0 0;
   E 0x70 None 0 0 0 8554; E 0x3b (Some [0xe2; 0xaa; 0xb7]) 3 0 0 0; E 0x63 None 0 8556 0 8557;
   E 0x3b (Some [0xe2; 0xaa; 0xaf]) 3 0 0 0; E 0x65 None 0 8559 8558 8563;
   E 0x73 None 0 8562 0 8565; E 0x61 None 0 8561 8560 8568; E 0x63 None 0 0 0 8574;
   E 0x3b (Some [0xe2; 0x89; 0xba]) 3 0 0 0; E 0x6e None 0 0 0 8581; E 0x71 None 0 0 0 8564;
   E 0x3b (Some [0xe2; 0xaa; 0xaf]) 3 0 0 0; E 0x69 None 0 0 0 8566; E 0x6d None 0 0 0 8567;
   E 0x3b (Some [0xe2; 0x89; 0xbe]) 3 0 0 0; E 0x70 None 0 0 0 8569; E 0x70 None 0 0 0 8570;
   E 0x72 None 0 0 0 8571; E 0x6f None 0 0 0 8572; E 0x78 None 0 0 0 8573;
   E 0x3b (Some [0xe2; 0xaa; 0xb7]) 3 0 0 0; E 0x75 None 0 0 0 8575; E 0x72 None 0 0 0 8576;
   E 0x6c None 0 0 0 8577; E 0x79 None 0 0 0 8578; E 0x65 None 0 0 0 8579;
   E 0x71 None 0 0 0 8580; E 0x3b (Some [0xe2; 0x89; 0xbc]) 3 0 0 0;
   E 0x65 None 0 8583 8582 8584; E 0x73 None 0 0 0 8587; E 0x61 None 0 0 0 8590;
   E 0x71 None 0 0 0 8585; E 0x71 None 0 0 0 8586; E 0x3b (Some [0xe2; 0xaa; 0xb5]) 3 0 0 0;
   E 0x69 None 0 0 0 8588; E 0x6d None 0 0 0 8589; E 0x3b (Some [0xe2; 0x8b; 0xa8]) 3 0 0 0;
   E 0x70 None 0 0 0 8591; E 0x70 None 0 0 0 8592; E 0x72 None 0 0 0 8593;
   E 0x6f None 0 0 0 8594; E 0x78 None 0 0 0 8595; E 0x3b (Some [0xe2; 0xaa; 0xb9]) 3 0 0 0;
   E 0x3b (Some [0xe2; 0xaa; 0xb3]) 3 0 0 0; E 0x75 None 0 0 0 8598; E 0x65 None 0 0 0 8599;
   E 0x3b (Some [0xe2; 0x89; 0xbc]) 3 0 0 0; E 0x72 None 0 0 0 8601; E 0x65 None 0 0 0 8602;
   E 0x6c None 0 0 0 8603; E 0x3b (Some [0xe2; 0x8a; 0xb0]) 3 0 0 0;
   E 0x66 None 0 8606 8605 8607; E 0x70 None 0 0 0 8622; E 0x64 None 0 0 0 8626;
   E 0x6c None 0 8609 8608 8610; E 0x73 None 0 0 0 8614; E 0x61 None 0 0 0 8618;
   E 0x69 None 0 0 0 8611; E 0x6e None 0 0 0 8612; E 0x65 None 0 0 0 8613;
   E 0x3b (Some [0xe2; 0x8c; 0x92]) 3 0 0 0; E 0x75 None 0 0 0 8615; E 0x72 None 0 0 0 8616;
   E 0x66 None 0 0 0 8617; E 0x3b (Some [0xe2; 0x8c; 0x93]) 3 0 0 0; E 0x6c None 0 0 0 8619;
   E 0x61 None 0 0 0 8620; E 0x72 None 0 0 0 8621; E 0x3b (Some [0xe2; 0x8c; 0xae]) 3 0 0 0;
   E 0x74 None 0 8623 0 8624; E 0x3b (Some [0xe2; 0x88; 0x9d]) 3 0 0 0; E 0x6f None 0 0 0 8625;
   E 0x3b (Some [0xe2; 0x88; 0x9d]) 3 0 0 0; E 0x3b (Some [0xe2; 0x88; 0x8f]) 3 0 0 0;
   E 0x61 None 0 8629 8628 8630; E 0x73 None 0 0 0 8632; E 0x45 None 0 0 0 8635;
   E 0x70 None 0 0 0 8631; E 0x3b (Some [0xe2; 0xaa; 0xb9]) 3 0 0 0; E 0x69 None 0 0 0 8633;
   E 0x6d None 0 0 0 8634; E 0x3b (Some [0xe2; 0x8b; 0xa8]) 3 0 0 0;
   E 0x3b (Some [0xe2; 0xaa; 0xb5]) 3 0 0 0; E 0x72 None 0 0 0 8637;
   E 0x3b (Some [0xf0; 0x9d; 0x94; 0xad]) 4 0 0 0; E 0x74 None 0 8640 8639 8641;
   E 0x76 None 0 0 0 8648; E 0x3b (Some [0xcf; 0x80]) 2 0 0 0; E 0x63 None 0 0 0 8642;
   E 0x68 None 0 0 0 8643; E 0x66 None 0 0 0 8644; E 0x6f None 0 0 0 8645;
   E 0x72 None 0 0 0 8646; E 0x6b None 0 0 0 8647; E 0x3b (Some [0xe2; 0x8b; 0x94]) 3 0 0 0;
   E 0x3b (Some [0xcf; 0x96]) 2 0 0 0; E 0x79 None 0 0 0 8650;
   E 0x3b (Some [0xd0; 0xbf]) 2 0 0 0; E 0x72 None 0 0 0 8652; E 0x6d None 0 8654 8653 8657;
   E 0x74 None 0 8656 0 8660; E 0x69 None 0 8655 0 8664; E 0x63 None 0 0 0 8667;
   E 0x70 None 0 0 0 8670; E 0x69 None 0 0 0 8658; E 0x6c None 0 0 0 8659;
   E 0x3b (Some [0xe2; 0x80; 0xb0]) 3 0 0 0; E 0x65 None 0 0 0 8661; E 0x6e None 0 0 0 8662;
   E 0x6b None 0 0 0 8663; E 0x3b (Some [0xe2; 0x80; 0xb1]) 3 0 0 0; E 0x6f None 0 0 0 8665;
   E 0x64 None 0 0 0 8666; E 0x3b (Some [0x2e]) 1 0 0 0; E 0x6e None 0 0 0 8668;
   E 0x74 None 0 0 0 8669; E 0x3b (Some [0x25]) 1 0 0 0;
   E 0x3b (Some [0xe2; 0x8a; 0xa5]) 3 0 0 0; E 0x72 None 0 0 0 8672;
   E 0x73 None 0 8674 8673 8676; E 0x74 None 0 0 0 8681;
   E 0x61 (Some [0xc2; 0xb6]) 2 8675 0 8682; E 0x3b (Some [0xe2; 0x88; 0xa5]) 3 0 0 0;
   E 0x6c None 0 8677 0 8678; E 0x69 None 0 0 0 8679; E 0x3b (Some [0xe2; 0xab; 0xbd]) 3 0 0 0;
   E 0x6d None 0 0 0 8680; E 0x3b (Some [0xe2; 0xab; 0xb3]) 3 0 0 0;
   E 0x3b (Some [0xe2; 0x88; 0x82]) 3 0 0 0; E 0x6c None 0 8683 0 8684;
   E 0x3b (Some [0xc2; 0xb6]) 2 0 0 0; E 0x6c None 0 0 0 8685; E 0x65 None 0 0 0 8686;
   E 0x6c None 0 0 0 8687; E 0x3b (Some [0xe2; 0x88; 0xa5]) 3 0 0 0;
   E 0x6d None 0 8690 8689 8691; E 0x6f None 0 0 0 8695; E 0x69 None 0 0 0 8698;
   E 0x6d None 0 0 0 8692; E 0x61 None 0 0 0 8693; E 0x74 None 0 0 0 8694;
   E 0x3b (Some [0xe2; 0x84; 0xb3]) 3 0 0 0; E 0x6e None 0 0 0 8696; E 0x65 None 0 0 0 8697;
   E 0x3b (Some [0xe2; 0x98; 0x8e]) 3 0 0 0; E 0x76 None 0 8699 0 8700;
   E 0x3b (Some [0xcf; 0x86]) 2 0 0 0; E 0x3b (Some [0xcf; 0x95]) 2 0 0 0;
   E 0x6e None 0 0 0 8702; E 0x63 None 0 0 0 8703; E 0x73 None 0 0 0 8704;
   E 0x70 None 0 0 0 8705; E 0x3b (Some [0xe2; 0x80; 0x88]) 3 0 0 0;
   E 0x70 None 0 8708 8707 8709; E 0x75 None 0 0 0 8711; E 0x69 None 0 0 0 8714;
   E 0x66 None 0 0 0 8710; E 0x3b (Some [0xf0; 0x9d; 0x95; 0xa1]) 4 0 0 0;
   E 0x6e None 0 0 0 8712; E 0x64 (Some [0xc2; 0xa3]) 2 0 0 8713;
   E 0x3b (Some [0xc2; 0xa3]) 2 0 0 0; E 0x6e None 0 0 0 8715; E 0x74 None 0 0 0 8716;
   E 0x69 None 0 0 0 8717; E 0x6e None 0 0 0 8718; E 0x74 None 0 0 0 8719;
   E 0x3b (Some [0xe2; 0xa8; 0x95]) 3 0 0 0; E 0x3b (Some [0xc2; 0xb1]) 2 0 0 0;
   E 0x69 None 0 8722 0 8723; E 0x63 None 0 0 0 8724; E 0x3b (Some [0xcf; 0x88]) 2 0 0 0;
   E 0x72 None 0 0 0 8725; E 0x3b (Some [0xf0; 0x9d; 0x93; 0x85]) 4 0 0 0;
   E 0x70 None 0 8728 8727 8732; E 0x75 None 0 8731 0 8737; E 0x69 None 0 8730 8729 8761;
   E 0x6f None 0 0 0 8764; E 0x66 None 0 0 0 8767; E 0x73 None 0 0 0 8769;
   E 0x72 None 0 0 0 8733; E 0x69 None 0 0 0 8734; E 0x6d None 0 0 0 8735;
   E 0x65 None 0 0 0 8736; E 0x3b (Some [0xe2; 0x81; 0x97]) 3 0 0 0;
   E 0x65 None 0 8739 8738 8740; E 0x6f None 0 0 0 8746; E 0x61 None 0 0 0 8748;
   E 0x73 None 0 0 0 8741; E 0x74 None 0 0 0 8742; E 0x65 None 0 8743 0 8744;
   E 0x3b (Some [0x3f]) 1 0 0 0; E 0x71 None 0 0 0 8745;
   E 0x3b (Some [0xe2; 0x89; 0x9f]) 3 0 0 0; E 0x74 (Some [0x22]) 1 0 0 8747;
   E 0x3b (Some [0x22]) 1 0 0 0; E 0x74 None 0 0 0 8749; E 0x69 None 0 8750 0 8751;
   E 0x65 None 0 0 0 8754; E 0x6e None 0 0 0 8752; E 0x74 None 0 0 0 8753;
   E 0x3b (Some [0xe2; 0xa8; 0x96]) 3 0 0 0; E 0x72 None 0 0 0 8755; E 0x6e None 0 0 0 8756;
   E 0x69 None 0 0 0 8757; E 0x6f None 0 0 0 8758; E 0x6e None 0 0 0 8759;
   E 0x73 None 0 0 0 8760; E 0x3b (Some [0xe2; 0x84; 0x8d]) 3 0 0 0; E 0x6e None 0 0 0 8762;
   E 0x74 None 0 0 0 8763; E 0x3b (Some [0xe2; 0xa8; 0x8c]) 3 0 0 0; E 0x70 None 0 0 0 8765;
   E 0x66 None 0 0 0 8766; E 0x3b (Some [0xf0; 0x9d; 0x95; 0xa2]) 4 0 0 0;
   E 0x72 None 0 0 0 8768; E 0x3b (Some [0xf0; 0x9d; 0x94; 0xae]) 4 0 0 0;
   E 0x63 None 0 0 0 8770; E 0x72 None 0 0 0 8771;
   E 0x3b (Some [0xf0; 0x9d; 0x93; 0x86]) 4 0 0 0; E 0x6c None 0 8774 8773 8790;
   E 0x73 None 0 8784 8783 8809; E 0x65 None 0 8776 8775 8820; E 0x68 None 0 8781 8780 8824;
   E 0x63 None 0 8778 8777 8830; E 0x64 None 0 0 0 8837; E 0x61 None 0 8779 0 8857;
   E 0x53 None 0 0 0 8865; E 0x69 None 0 0 0 8866; E 0x67 None 0 8782 0 8869;
   E 0x66 None 0 0 0 8879; E 0x75 None 0 8789 8788 8885; E 0x70 None 0 8786 8785 8888;
   E 0x72 None 0 0 0 8899; E 0x6f None 0 8787 0 8932; E 0x6d None 0 0 0 8935;
   E 0x76 None 0 0 0 8955; E 0x74 None 0 0 0 8959; E 0x69 None 0 8792 8791 8794;
   E 0x74 None 0 0 0 8797; E 0x63 None 0 8793 0 8798; E 0x61 None 0 0 0 8806;
   E 0x6e None 0 0 0 8795; E 0x65 None 0 0 0 8796; E 0x3b (Some [0xe2; 0x80; 0xbe]) 3 0 0 0;
   E 0x3b (Some [0xe2; 0xa7; 0x80]) 3 0 0 0; E 0x72 None 0 8799 0 8800; E 0x69 None 0 0 0 8804;
   E 0x6f None 0 0 0 8801; E 0x73 None 0 0 0 8802; E 0x73 None 0 0 0 8803;
   E 0x3b (Some [0xe2; 0xa6; 0xbb]) 3 0 0 0; E 0x72 None 0 0 0 8805;
   E 0x3b (Some [0xe2; 0xa6; 0xbe]) 3 0 0 0; E 0x72 None 0 0 0 8807; E 0x72 None 0 0 0 8808;
   E 0x3b (Some [0xe2; 0x86; 0xba]) 3 0 0 0; E 0x6c None 0 8811 8810 8812;
   E 0x6f None 0 0 0 8816; E 0x63 None 0 0 0 8818; E 0x61 None 0 0 0 8813;
   E 0x73 None 0 0 0 8814; E 0x68 (Some [0xc3; 0xb8]) 2 0 0 8815;
   E 0x3b (Some [0xc3; 0xb8]) 2 0 0 0; E 0x6c None 0 0 0 8817;
   E 0x3b (Some [0xe2; 0x8a; 0x98]) 3 0 0 0; E 0x72 None 0 0 0 8819;
   E 0x3b (Some [0xe2; 0x84; 0xb4]) 3 0 0 0; E 0x6c None 0 0 0 8821; E 0x69 None 0 0 0 8822;
   E 0x67 None 0 0 0 8823; E 0x3b (Some [0xc5; 0x93]) 2 0 0 0; E 0x6d None 0 8825 0 8826;
   E 0x62 None 0 0 0 8827; E 0x3b (Some [0xce; 0xa9]) 2 0 0 0; E 0x61 None 0 0 0 8828;
   E 0x72 None 0 0 0 8829; E 0x3b (Some [0xe2; 0xa6; 0xb5]) 3 0 0 0; E 0x79 None 0 8831 0 8832;
   E 0x69 None 0 0 0 8833; E 0x3b (Some [0xd0; 0xbe]) 2 0 0 0; E 0x72 None 0 0 0 8834;
   E 0x63 (Some [0xc3; 0xb4]) 2 8835 0 8836; E 0x3b (Some [0xe2; 0x8a; 0x9a]) 3 0 0 0;
   E 0x3b (Some [0xc3; 0xb4]) 2 0 0 0; E 0x69 None 0 8839 8838 8842; E 0x73 None 0 8841 0 8844;
   E 0x62 None 0 8840 0 8848; E 0x61 None 0 0 0 8852; E 0x6f None 0 0 0 8855;
   E 0x76 None 0 0 0 8843; E 0x3b (Some [0xe2; 0xa8; 0xb8]) 3 0 0 0; E 0x6f None 0 0 0 8845;
   E 0x6c None 0 0 0 8846; E 0x64 None 0 0 0 8847; E 0x3b (Some [0xe2; 0xa6; 0xbc]) 3 0 0 0;
   E 0x6c None 0 0 0 8849; E 0x61 None 0 0 0 8850; E 0x63 None 0 0 0 8851;
   E 0x3b (Some [0xc5; 0x91]) 2 0 0 0; E 0x73 None 0 0 0 8853; E 0x68 None 0 0 0 8854;
   E 0x3b (Some [0xe2; 0x8a; 0x9d]) 3 0 0 0; E 0x74 None 0 0 0 8856;
   E 0x3b (Some [0xe2; 0x8a; 0x99]) 3 0 0 0; E 0x73 None 0 8858 0 8859; E 0x63 None 0 0 0 8861;
   E 0x74 None 0 0 0 8860; E 0x3b (Some [0xe2; 0x8a; 0x9b]) 3 0 0 0; E 0x75 None 0 0 0 8862;
   E 0x74 None 0 0 0 8863; E 0x65 (Some [0xc3; 0xb3]) 2 0 0 8864;
   E 0x3b (Some [0xc3; 0xb3]) 2 0 0 0; E 0x3b (Some [0xe2; 0x93; 0x88]) 3 0 0 0;
   E 0x6e None 0 0 0 8867; E 0x74 None 0 0 0 8868; E 0x3b (Some [0xe2; 0x88; 0xae]) 3 0 0 0;
   E 0x72 None 0 8871 8870 8872; E 0x74 None 0 0 0 8876; E 0x6f None 0 0 0 8877;
   E 0x61 None 0 0 0 8873; E 0x76 None 0 0 0 8874; E 0x65 (Some [0xc3; 0xb2]) 2 0 0 8875;
   E 0x3b (Some [0xc3; 0xb2]) 2 0 0 0; E 0x3b (Some [0xe2; 0xa7; 0x81]) 3 0 0 0;
   E 0x6e None 0 0 0 8878; E 0x3b (Some [0xcb; 0x9b]) 2 0 0 0; E 0x72 None 0 8880 0 8881;
   E 0x63 None 0 0 0 8882; E 0x3b (Some [0xf0; 0x9d; 0x94; 0xac]) 4 0 0 0;
   E 0x69 None 0 0 0 8883; E 0x72 None 0 0 0 8884; E 0x3b (Some [0xe2; 0xa6; 0xbf]) 3 0 0 0;
   E 0x6d None 0 0 0 8886; E 0x6c (Some [0xc3; 0xb6]) 2 0 0 8887;
   E 0x3b (Some [0xc3; 0xb6]) 2 0 0 0; E 0x65 None 0 8890 8889 8891; E 0x6c None 0 0 0 8894;
   E 0x61 None 0 0 0 8897; E 0x72 None 0 0 0 8892; E 0x70 None 0 0 0 8893;
   E 0x3b (Some [0xe2; 0xa6; 0xb9]) 3 0 0 0; E 0x75 None 0 0 0 8895; E 0x73 None 0 0 0 8896;
   E 0x3b (Some [0xe2; 0x8a; 0x95]) 3 0 0 0; E 0x72 None 0 0 0 8898;
   E 0x3b (Some [0xe2; 0xa6; 0xb7]) 3 0 0 0; E 0x69 None 0 8901 8900 8906;
   E 0x73 None 0 8905 8904 8910; E 0x61 None 0 8903 8902 8915; E 0x64 None 0 0 0 8918;
   E 0x3b (Some [0xe2; 0x88; 0xa8]) 3 0 0 0; E 0x76 None 0 0 0 8929; E 0x6f None 0 0 0 8930;
   E 0x67 None 0 0 0 8907; E 0x6f None 0 0 0 8908; E 0x66 None 0 0 0 8909;
   E 0x3b (Some [0xe2; 0x8a; 0xb6]) 3 0 0 0; E 0x6c None 0 0 0 8911; E 0x6f None 0 0 0 8912;
   E 0x70 None 0 0 0 8913; E 0x65 None 0 0 0 8914; E 0x3b (Some [0xe2; 0xa9; 0x97]) 3 0 0 0;
   E 0x72 None 0 0 0 8916; E 0x72 None 0 0 0 8917; E 0x3b (Some [0xe2; 0x86; 0xbb]) 3 0 0 0;
   E 0x66 (Some [0xc2; 0xaa]) 2 8920 8919 8922; E 0x6d (Some [0xc2; 0xba]) 2 0 0 8923;
   E 0x65 None 0 8921 0 8924; E 0x3b (Some [0xe2; 0xa9; 0x9d]) 3 0 0 0;
   E 0x3b (Some [0xc2; 0xaa]) 2 0 0 0; E 0x3b (Some [0xc2; 0xba]) 2 0 0 0;
   E 0x72 None 0 0 0 8925; E 0x6f None 0 8926 0 8927; E 0x3b (Some [0xe2; 0x84; 0xb4]) 3 0 0 0;
   E 0x66 None 0 0 0 8928; E 0x3b (Some [0xe2; 0x84; 0xb4]) 3 0 0 0;
   E 0x3b (Some [0xe2; 0xa9; 0x9b]) 3 0 0 0; E 0x72 None 0 0 0 8931;
   E 0x3b (Some [0xe2; 0xa9; 0x96]) 3 0 0 0; E 0x70 None 0 0 0 8933; E 0x66 None 0 0 0 8934;
   E 0x3b (Some [0xf0; 0x9d; 0x95; 0xa0]) 4 0 0 0; E 0x65 None 0 8937 8936 8938;
   E 0x69 None 0 0 0 8941; E 0x61 None 0 0 0 8952; E 0x67 None 0 0 0 8939;
   E 0x61 None 0 0 0 8940; E 0x3b (Some [0xcf; 0x89]) 2 0 0 0; E 0x64 None 0 8943 8942 8944;
   E 0x6e None 0 0 0 8945; E 0x63 None 0 0 0 8948; E 0x3b (Some [0xe2; 0xa6; 0xb6]) 3 0 0 0;
   E 0x75 None 0 0 0 8946; E 0x73 None 0 0 0 8947; E 0x3b (Some [0xe2; 0x8a; 0x96]) 3 0 0 0;
   E 0x72 None 0 0 0 8949; E 0x6f None 0 0 0 8950; E 0x6e None 0 0 0 8951;
   E 0x3b (Some [0xce; 0xbf]) 2 0 0 0; E 0x63 None 0 0 0 8953; E 0x72 None 0 0 0 8954;
   E 0x3b (Some [0xc5; 0x8d]) 2 0 0 0; E 0x62 None 0 0 0 8956; E 0x61 None 0 0 0 8957;
   E 0x72 None 0 0 0 8958; E 0x3b (Some [0xe2; 0x8c; 0xbd]) 3 0 0 0; E 0x69 None 0 0 0 8960;
   E 0x6d None 0 8961 0 8962; E 0x6c None 0 0 0 8968; E 0x65 None 0 0 0 8963;
   E 0x73 None 0 0 0 8964; E 0x61 None 0 8965 0 8966; E 0x3b (Some [0xe2; 0x8a; 0x97]) 3 0 0 0;
   E 0x73 None 0 0 0 8967; E 0x3b (Some [0xe2; 0xa8; 0xb6]) 3 0 0 0; E 0x64 None 0 0 0 8969;
   E 0x65 (Some [0xc3; 0xb5]) 2 0 0 8970; E 0x3b (Some [0xc3; 0xb5]) 2 0 0 0;
   E 0x6d None 0 8973 8972 8990; E 0x73 None 0 8983 8982 9025; E 0x65 None 0 8975 8974 9043;
   E 0x69 None 0 8980 8979 9080; E 0x63 None 0 8977 8976 9119; E 0x64 None 0 0 0 9166;
   E 0x62 None 0 8978 0 9173; E 0x61 None 0 0 0 9177; E 0x6c None 0 0 0 9182;
   E 0x68 None 0 8981 0 9186; E 0x66 None 0 0 0 9215; E 0x77 None 0 8988 8987 9221;
   E 0x71 None 0 8985 8984 9240; E 0x72 None 0 0 0 9285; E 0x70 None 0 8986 0 9289;
   E 0x6f None 0 0 0 9300; E 0x7a None 0 0 0 9315; E 0x75 None 0 8989 0 9319;
   E 0x74 None 0 0 0 9497; E 0x69 None 0 8992 8991 8994; E 0x74 None 0 0 0 8999;
   E 0x65 None 0 8993 0 9004; E 0x61 None 0 0 0 9010; E 0x6c None 0 8995 0 8996;
   E 0x64 None 0 0 0 8998; E 0x65 None 0 0 0 8997; E 0x3b (Some [0xe2; 0x8c; 0xa3]) 3 0 0 0;
   E 0x3b (Some [0xe2; 0x88; 0xa3]) 3 0 0 0; E 0x65 None 0 9000 0 9001].

Definition entities_18 : list sbst_entry :=
  [E 0x3b (Some [0xe2; 0xaa; 0xaa]) 3 0 0 0; E 0x73 None 0 9002 0 9003;
   E 0x3b (Some [0xe2; 0xaa; 0xac]) 3 0 0 0;
   E 0x3b (Some [0xe2; 0xaa; 0xac; 0xef; 0xb8; 0x80]) 6 0 0 0; E 0x70 None 0 0 0 9005;
   E 0x61 None 0 0 0 9006; E 0x72 None 0 0 0 9007; E 0x73 None 0 0 0 9008;
   E 0x6c None 0 0 0 9009; E 0x3b (Some [0xe2; 0xa7; 0xa4]) 3 0 0 0; E 0x73 None 0 9011 0 9012;
   E 0x6c None 0 0 0 9015; E 0x68 None 0 0 0 9013; E 0x70 None 0 0 0 9014;
   E 0x3b (Some [0xe2; 0xa8; 0xb3]) 3 0 0 0; E 0x6c None 0 0 0 9016; E 0x73 None 0 0 0 9017;
   E 0x65 None 0 0 0 9018; E 0x74 None 0 0 0 9019; E 0x6d None 0 0 0 9020;
   E 0x69 None 0 0 0 9021; E 0x6e None 0 0 0 9022; E 0x75 None 0 0 0 9023;
   E 0x73 None 0 0 0 9024; E 0x3b (Some [0xe2; 0x88; 0x96]) 3 0 0 0;
   E 0x6d None 0 9027 9026 9029; E 0x74 None 0 0 0 9033; E 0x65 None 0 9028 0 9037;
   E 0x63 None 0 0 0 9041; E 0x69 None 0 0 0 9030; E 0x6c None 0 0 0 9031;
   E 0x65 None 0 0 0 9032; E 0x3b (Some [0xe2; 0x8c; 0xa3]) 3 0 0 0; E 0x61 None 0 0 0 9034;
   E 0x72 None 0 0 0 9035; E 0x66 None 0 0 0 9036; E 0x3b (Some [0xe2; 0x8b; 0x86]) 3 0 0 0;
   E 0x74 None 0 0 0 9038; E 0x6d None 0 0 0 9039; E 0x6e None 0 0 0 9040;
   E 0x3b (Some [0xe2; 0x88; 0x96]) 3 0 0 0; E 0x72 None 0 0 0 9042;
   E 0x3b (Some [0xf0; 0x9d; 0x93; 0x88]) 4 0 0 0; E 0x6d None 0 9045 9044 9050;
   E 0x74 None 0 9049 9048 9052; E 0x61 None 0 9047 9046 9060; E 0x63 None 0 0 0 9069;
   E 0x41 None 0 0 0 9071; E 0x78 None 0 0 0 9074; E 0x73 None 0 0 0 9076;
   E 0x69 None 0 0 0 9051; E 0x3b (Some [0x3b]) 1 0 0 0; E 0x6d None 0 0 0 9053;
   E 0x6e None 0 9054 0 9055; E 0x69 None 0 0 0 9056; E 0x3b (Some [0xe2; 0x88; 0x96]) 3 0 0 0;
   E 0x6e None 0 0 0 9057; E 0x75 None 0 0 0 9058; E 0x73 None 0 0 0 9059;
   E 0x3b (Some [0xe2; 0x88; 0x96]) 3 0 0 0; E 0x72 None 0 0 0 9061; E 0x72 None 0 9062 0 9063;
   E 0x68 None 0 0 0 9067; E 0x6f None 0 9064 0 9065; E 0x3b (Some [0xe2; 0x86; 0x98]) 3 0 0 0;
   E 0x77 None 0 0 0 9066; E 0x3b (Some [0xe2; 0x86; 0x98]) 3 0 0 0; E 0x6b None 0 0 0 9068;
   E 0x3b (Some [0xe2; 0xa4; 0xa5]) 3 0 0 0; E 0x74 (Some [0xc2; 0xa7]) 2 0 0 9070;
   E 0x3b (Some [0xc2; 0xa7]) 2 0 0 0; E 0x72 None 0 0 0 9072; E 0x72 None 0 0 0 9073;
   E 0x3b (Some [0xe2; 0x87; 0x98]) 3 0 0 0; E 0x74 None 0 0 0 9075;
   E 0x3b (Some [0xe2; 0x9c; 0xb6]) 3 0 0 0; E 0x77 None 0 0 0 9077; E 0x61 None 0 0 0 9078;
   E 0x72 None 0 0 0 9079; E 0x3b (Some [0xe2; 0xa4; 0xa9]) 3 0 0 0; E 0x6d None 0 9081 0 9082;
   E 0x67 None 0 0 0 9112; E 0x6c None 0 9084 9083 9090; E 0x70 None 0 9089 9088 9093;
   E 0x65 None 0 9086 9085 9097; E 0x67 None 0 0 0 9100; E 0x64 None 0 9087 0 9103;
   E 0x3b (Some [0xe2; 0x88; 0xbc]) 3 0 0 0; E 0x72 None 0 0 0 9106; E 0x6e None 0 0 0 9110;
   E 0x45 None 0 9091 0 9092; E 0x3b (Some [0xe2; 0xaa; 0x9d]) 3 0 0 0;
   E 0x3b (Some [0xe2; 0xaa; 0x9f]) 3 0 0 0; E 0x6c None 0 0 0 9094; E 0x75 None 0 0 0 9095;
   E 0x73 None 0 0 0 9096; E 0x3b (Some [0xe2; 0xa8; 0xa4]) 3 0 0 0; E 0x71 None 0 9098 0 9099;
   E 0x3b (Some [0xe2; 0x89; 0x83]) 3 0 0 0; E 0x3b (Some [0xe2; 0x89; 0x83]) 3 0 0 0;
   E 0x45 None 0 9101 0 9102; E 0x3b (Some [0xe2; 0xaa; 0x9e]) 3 0 0 0;
   E 0x3b (Some [0xe2; 0xaa; 0xa0]) 3 0 0 0; E 0x6f None 0 0 0 9104; E 0x74 None 0 0 0 9105;
   E 0x3b (Some [0xe2; 0xa9; 0xaa]) 3 0 0 0; E 0x61 None 0 0 0 9107; E 0x72 None 0 0 0 9108;
   E 0x72 None 0 0 0 9109; E 0x3b (Some [0xe2; 0xa5; 0xb2]) 3 0 0 0; E 0x65 None 0 0 0 9111;
   E 0x3b (Some [0xe2; 0x89; 0x86]) 3 0 0 0; E 0x6d None 0 0 0 9113; E 0x61 None 0 0 0 9114;
   E 0x66 None 0 9116 9115 9117; E 0x76 None 0 0 0 9118; E 0x3b (Some [0xcf; 0x83]) 2 0 0 0;
   E 0x3b (Some [0xcf; 0x82]) 2 0 0 0; E 0x3b (Some [0xcf; 0x82]) 2 0 0 0;
   E 0x69 None 0 9121 9120 9129; E 0x73 None 0 9127 9126 9132; E 0x61 None 0 9123 9122 9135;
   E 0x65 None 0 9125 0 9141; E 0x45 None 0 9124 0 9146;
   E 0x3b (Some [0xe2; 0x89; 0xbb]) 3 0 0 0; E 0x63 None 0 0 0 9147; E 0x79 None 0 0 0 9150;
   E 0x70 None 0 9128 0 9151; E 0x6e None 0 0 0 9157; E 0x72 None 0 0 0 9130;
   E 0x63 None 0 0 0 9131; E 0x3b (Some [0xc5; 0x9d]) 2 0 0 0; E 0x69 None 0 0 0 9133;
   E 0x6d None 0 0 0 9134; E 0x3b (Some [0xe2; 0x89; 0xbf]) 3 0 0 0; E 0x72 None 0 9136 0 9137;
   E 0x70 None 0 0 0 9140; E 0x6f None 0 0 0 9138; E 0x6e None 0 0 0 9139;
   E 0x3b (Some [0xc5; 0xa1]) 2 0 0 0; E 0x3b (Some [0xe2; 0xaa; 0xb8]) 3 0 0 0;
   E 0x64 None 0 9142 0 9143; E 0x3b (Some [0xe2; 0xaa; 0xb0]) 3 0 0 0; E 0x69 None 0 0 0 9144;
   E 0x6c None 0 0 0 9145; E 0x3b (Some [0xc5; 0x9f]) 2 0 0 0;
   E 0x3b (Some [0xe2; 0xaa; 0xb4]) 3 0 0 0; E 0x75 None 0 0 0 9148; E 0x65 None 0 0 0 9149;
   E 0x3b (Some [0xe2; 0x89; 0xbd]) 3 0 0 0; E 0x3b (Some [0xd1; 0x81]) 2 0 0 0;
   E 0x6f None 0 0 0 9152; E 0x6c None 0 0 0 9153; E 0x69 None 0 0 0 9154;
   E 0x6e None 0 0 0 9155; E 0x74 None 0 0 0 9156; E 0x3b (Some [0xe2; 0xa8; 0x93]) 3 0 0 0;
   E 0x61 None 0 9159 9158 9160; E 0x73 None 0 0 0 9162; E 0x45 None 0 0 0 9165;
   E 0x70 None 0 0 0 9161; E 0x3b (Some [0xe2; 0xaa; 0xba]) 3 0 0 0; E 0x69 None 0 0 0 9163;
   E 0x6d None 0 0 0 9164; E 0x3b (Some [0xe2; 0x8b; 0xa9]) 3 0 0 0;
   E 0x3b (Some [0xe2; 0xaa; 0xb6]) 3 0 0 0; E 0x6f None 0 0 0 9167; E 0x74 None 0 0 0 9168;
   E 0x62 None 0 9170 9169 9171; E 0x65 None 0 0 0 9172;
   E 0x3b (Some [0xe2; 0x8b; 0x85]) 3 0 0 0; E 0x3b (Some [0xe2; 0x8a; 0xa1]) 3 0 0 0;
   E 0x3b (Some [0xe2; 0xa9; 0xa6]) 3 0 0 0; E 0x71 None 0 0 0 9174; E 0x75 None 0 0 0 9175;
   E 0x6f None 0 0 0 9176; E 0x3b (Some [0xe2; 0x80; 0x9a]) 3 0 0 0; E 0x63 None 0 0 0 9178;
   E 0x75 None 0 0 0 9179; E 0x74 None 0 0 0 9180; E 0x65 None 0 0 0 9181;
   E 0x3b (Some [0xc5; 0x9b]) 2 0 0 0; E 0x61 None 0 0 0 9183; E 0x72 None 0 0 0 9184;
   E 0x72 None 0 0 0 9185; E 0x3b (Some [0xe2; 0x86; 0x90]) 3 0 0 0;
   E 0x6f None 0 9188 9187 9190; E 0x79 (Some [0xc2; 0xad]) 2 0 0 9205;
   E 0x63 None 0 9189 0 9206; E 0x61 None 0 0 0 9212; E 0x72 None 0 0 0 9191;
   E 0x74 None 0 0 0 9192; E 0x70 None 0 9193 0 9194; E 0x6d None 0 0 0 9202;
   E 0x61 None 0 0 0 9195; E 0x72 None 0 0 0 9196; E 0x61 None 0 0 0 9197;
   E 0x6c None 0 0 0 9198; E 0x6c None 0 0 0 9199; E 0x65 None 0 0 0 9200;
   E 0x6c None 0 0 0 9201; E 0x3b (Some [0xe2; 0x88; 0xa5]) 3 0 0 0; E 0x69 None 0 0 0 9203;
   E 0x64 None 0 0 0 9204; E 0x3b (Some [0xe2; 0x88; 0xa3]) 3 0 0 0;
   E 0x3b (Some [0xc2; 0xad]) 2 0 0 0; E 0x79 None 0 9207 0 9208; E 0x68 None 0 0 0 9209;
   E 0x3b (Some [0xd1; 0x88]) 2 0 0 0; E 0x63 None 0 0 0 9210; E 0x79 None 0 0 0 9211;
   E 0x3b (Some [0xd1; 0x89]) 2 0 0 0; E 0x72 None 0 0 0 9213; E 0x70 None 0 0 0 9214;
   E 0x3b (Some [0xe2; 0x99; 0xaf]) 3 0 0 0; E 0x72 None 0 0 0 9216; E 0x6f None 0 9217 0 9218;
   E 0x3b (Some [0xf0; 0x9d; 0x94; 0xb0]) 4 0 0 0; E 0x77 None 0 0 0 9219;
   E 0x6e None 0 0 0 9220; E 0x3b (Some [0xe2; 0x8c; 0xa2]) 3 0 0 0;
   E 0x61 None 0 9223 9222 9224; E 0x6e None 0 0 0 9233; E 0x41 None 0 0 0 9237;
   E 0x72 None 0 0 0 9225; E 0x72 None 0 9226 0 9227; E 0x68 None 0 0 0 9231;
   E 0x6f None 0 9228 0 9229; E 0x3b (Some [0xe2; 0x86; 0x99]) 3 0 0 0; E 0x77 None 0 0 0 9230;
   E 0x3b (Some [0xe2; 0x86; 0x99]) 3 0 0 0; E 0x6b None 0 0 0 9232;
   E 0x3b (Some [0xe2; 0xa4; 0xa6]) 3 0 0 0; E 0x77 None 0 0 0 9234; E 0x61 None 0 0 0 9235;
   E 0x72 None 0 0 0 9236; E 0x3b (Some [0xe2; 0xa4; 0xaa]) 3 0 0 0; E 0x72 None 0 0 0 9238;
   E 0x72 None 0 0 0 9239; E 0x3b (Some [0xe2; 0x87; 0x99]) 3 0 0 0;
   E 0x73 None 0 9242 9241 9243; E 0x75 None 0 0 0 9266; E 0x63 None 0 0 0 9275;
   E 0x75 None 0 0 0 9244; E 0x70 None 0 9245 0 9246; E 0x62 None 0 0 0 9256;
   E 0x65 None 0 9248 9247 9249; E 0x73 None 0 0 0 9250;
   E 0x3b (Some [0xe2; 0x8a; 0x90]) 3 0 0 0; E 0x3b (Some [0xe2; 0x8a; 0x92]) 3 0 0 0;
   E 0x65 None 0 0 0 9251; E 0x74 None 0 0 0 9252; E 0x65 None 0 9253 0 9254;
   E 0x3b (Some [0xe2; 0x8a; 0x90]) 3 0 0 0; E 0x71 None 0 0 0 9255;
   E 0x3b (Some [0xe2; 0x8a; 0x92]) 3 0 0 0; E 0x65 None 0 9258 9257 9259;
   E 0x73 None 0 0 0 9260; E 0x3b (Some [0xe2; 0x8a; 0x8f]) 3 0 0 0;
   E 0x3b (Some [0xe2; 0x8a; 0x91]) 3 0 0 0; E 0x65 None 0 0 0 9261; E 0x74 None 0 0 0 9262;
   E 0x65 None 0 9263 0 9264; E 0x3b (Some [0xe2; 0x8a; 0x8f]) 3 0 0 0; E 0x71 None 0 0 0 9265;
   E 0x3b (Some [0xe2; 0x8a; 0x91]) 3 0 0 0; E 0x61 None 0 9268 9267 9269;
   E 0x66 None 0 0 0 9274; E 0x3b (Some [0xe2; 0x96; 0xa1]) 3 0 0 0; E 0x72 None 0 0 0 9270;
   E 0x66 None 0 9271 0 9272; E 0x65 None 0 0 0 9273; E 0x3b (Some [0xe2; 0x96; 0xaa]) 3 0 0 0;
   E 0x3b (Some [0xe2; 0x96; 0xa1]) 3 0 0 0; E 0x3b (Some [0xe2; 0x96; 0xaa]) 3 0 0 0;
   E 0x75 None 0 9276 0 9277; E 0x61 None 0 0 0 9281; E 0x70 None 0 0 0 9278;
   E 0x73 None 0 9279 0 9280; E 0x3b (Some [0xe2; 0x8a; 0x94]) 3 0 0 0;
   E 0x3b (Some [0xe2; 0x8a; 0x94; 0xef; 0xb8; 0x80]) 6 0 0 0; E 0x70 None 0 0 0 9282;
   E 0x73 None 0 9283 0 9284; E 0x3b (Some [0xe2; 0x8a; 0x93]) 3 0 0 0;
   E 0x3b (Some [0xe2; 0x8a; 0x93; 0xef; 0xb8; 0x80]) 6 0 0 0; E 0x61 None 0 0 0 9286;
   E 0x72 None 0 0 0 9287; E 0x72 None 0 0 0 9288; E 0x3b (Some [0xe2; 0x86; 0x92]) 3 0 0 0;
   E 0x61 None 0 0 0 9290; E 0x72 None 0 9291 0 9292; E 0x64 None 0 0 0 9293;
   E 0x3b (Some [0xe2; 0x88; 0xa5]) 3 0 0 0; E 0x65 None 0 0 0 9294; E 0x73 None 0 0 0 9295;
   E 0x75 None 0 9296 0 9297; E 0x3b (Some [0xe2; 0x99; 0xa0]) 3 0 0 0; E 0x69 None 0 0 0 9298;
   E 0x74 None 0 0 0 9299; E 0x3b (Some [0xe2; 0x99; 0xa0]) 3 0 0 0;
   E 0x6c None 0 9302 9301 9303; E 0x70 None 0 0 0 9309; E 0x66 None 0 0 0 9311;
   E 0x62 None 0 9304 0 9305; E 0x3b (Some [0x2f]) 1 0 0 0; E 0x61 None 0 9306 0 9307;
   E 0x3b (Some [0xe2; 0xa7; 0x84]) 3 0 0 0; E 0x72 None 0 0 0 9308;
   E 0x3b (Some [0xe2; 0x8c; 0xbf]) 3 0 0 0; E 0x66 None 0 0 0 9310;
   E 0x3b (Some [0xf0; 0x9d; 0x95; 0xa4]) 4 0 0 0; E 0x74 None 0 0 0 9312;
   E 0x63 None 0 0 0 9313; E 0x79 None 0 0 0 9314; E 0x3b (Some [0xd1; 0x8c]) 2 0 0 0;
   E 0x6c None 0 0 0 9316; E 0x69 None 0 0 0 9317; E 0x67 (Some [0xc3; 0x9f]) 2 0 0 9318;
   E 0x3b (Some [0xc3; 0x9f]) 2 0 0 0; E 0x6d None 0 9321 9320 9324; E 0x70 None 0 9323 0 9325;
   E 0x63 None 0 9322 0 9399; E 0x62 None 0 0 0 9439; E 0x6e None 0 0 0 9495;
   E 0x3b (Some [0xe2; 0x88; 0x91]) 3 0 0 0; E 0x65 None 0 9327 9326 9338;
   E 0x6e None 0 9334 9333 9343; E 0x3b (Some [0xe2; 0x8a; 0x83]) 3 9329 9328 0;
   E 0x64 None 0 9332 0 9347; E 0x32 (Some [0xc2; 0xb2]) 2 9331 9330 9354;
   E 0x33 (Some [0xc2; 0xb3]) 2 0 0 9355; E 0x31 (Some [0xc2; 0xb9]) 2 0 0 9356;
   E 0x45 None 0 0 0 9357; E 0x73 None 0 9337 0 9358; E 0x6c None 0 9336 9335 9380;
   E 0x6d None 0 0 0 9384; E 0x68 None 0 0 0 9388; E 0x70 None 0 0 0 9395;
   E 0x64 None 0 9339 0 9340; E 0x3b (Some [0xe2; 0x8a; 0x87]) 3 0 0 0; E 0x6f None 0 0 0 9341;
   E 0x74 None 0 0 0 9342; E 0x3b (Some [0xe2; 0xab; 0x84]) 3 0 0 0; E 0x65 None 0 9344 0 9345;
   E 0x45 None 0 0 0 9346; E 0x3b (Some [0xe2; 0x8a; 0x8b]) 3 0 0 0;
   E 0x3b (Some [0xe2; 0xab; 0x8c]) 3 0 0 0; E 0x73 None 0 9348 0 9349; E 0x6f None 0 0 0 9352;
   E 0x75 None 0 0 0 9350; E 0x62 None 0 0 0 9351; E 0x3b (Some [0xe2; 0xab; 0x98]) 3 0 0 0;
   E 0x74 None 0 0 0 9353; E 0x3b (Some [0xe2; 0xaa; 0xbe]) 3 0 0 0;
   E 0x3b (Some [0xc2; 0xb2]) 2 0 0 0; E 0x3b (Some [0xc2; 0xb3]) 2 0 0 0;
   E 0x3b (Some [0xc2; 0xb9]) 2 0 0 0; E 0x3b (Some [0xe2; 0xab; 0x86]) 3 0 0 0;
   E 0x69 None 0 9360 9359 9361; E 0x75 None 0 0 0 9363; E 0x65 None 0 0 0 9367;
   E 0x6d None 0 0 0 9362; E 0x3b (Some [0xe2; 0xab; 0x88]) 3 0 0 0; E 0x70 None 0 9364 0 9365;
   E 0x62 None 0 0 0 9366; E 0x3b (Some [0xe2; 0xab; 0x96]) 3 0 0 0;
   E 0x3b (Some [0xe2; 0xab; 0x94]) 3 0 0 0; E 0x74 None 0 0 0 9368;
   E 0x65 None 0 9370 9369 9371; E 0x6e None 0 0 0 9375;
   E 0x3b (Some [0xe2; 0x8a; 0x83]) 3 0 0 0; E 0x71 None 0 0 0 9372; E 0x71 None 0 9373 0 9374;
   E 0x3b (Some [0xe2; 0x8a; 0x87]) 3 0 0 0; E 0x3b (Some [0xe2; 0xab; 0x86]) 3 0 0 0;
   E 0x65 None 0 0 0 9376; E 0x71 None 0 0 0 9377; E 0x71 None 0 9378 0 9379;
   E 0x3b (Some [0xe2; 0x8a; 0x8b]) 3 0 0 0; E 0x3b (Some [0xe2; 0xab; 0x8c]) 3 0 0 0;
   E 0x61 None 0 0 0 9381; E 0x72 None 0 0 0 9382; E 0x72 None 0 0 0 9383;
   E 0x3b (Some [0xe2; 0xa5; 0xbb]) 3 0 0 0; E 0x75 None 0 0 0 9385; E 0x6c None 0 0 0 9386;
   E 0x74 None 0 0 0 9387; E 0x3b (Some [0xe2; 0xab; 0x82]) 3 0 0 0; E 0x73 None 0 0 0 9389;
   E 0x75 None 0 9390 0 9391; E 0x6f None 0 0 0 9393; E 0x62 None 0 0 0 9392;
   E 0x3b (Some [0xe2; 0xab; 0x97]) 3 0 0 0; E 0x6c None 0 0 0 9394;
   E 0x3b (Some [0xe2; 0x9f; 0x89]) 3 0 0 0; E 0x6c None 0 0 0 9396; E 0x75 None 0 0 0 9397;
   E 0x73 None 0 0 0 9398; E 0x3b (Some [0xe2; 0xab; 0x80]) 3 0 0 0; E 0x63 None 0 0 0 9400;
   E 0x65 None 0 9402 9401 9406; E 0x73 None 0 9405 0 9408; E 0x61 None 0 9404 9403 9411;
   E 0x63 None 0 0 0 9417; E 0x3b (Some [0xe2; 0x89; 0xbb]) 3 0 0 0; E 0x6e None 0 0 0 9424;
   E 0x71 None 0 0 0 9407; E 0x3b (Some [0xe2; 0xaa; 0xb0]) 3 0 0 0; E 0x69 None 0 0 0 9409;
   E 0x6d None 0 0 0 9410; E 0x3b (Some [0xe2; 0x89; 0xbf]) 3 0 0 0; E 0x70 None 0 0 0 9412;
   E 0x70 None 0 0 0 9413; E 0x72 None 0 0 0 9414; E 0x6f None 0 0 0 9415;
   E 0x78 None 0 0 0 9416; E 0x3b (Some [0xe2; 0xaa; 0xb8]) 3 0 0 0; E 0x75 None 0 0 0 9418;
   E 0x72 None 0 0 0 9419; E 0x6c None 0 0 0 9420; E 0x79 None 0 0 0 9421;
   E 0x65 None 0 0 0 9422; E 0x71 None 0 0 0 9423; E 0x3b (Some [0xe2; 0x89; 0xbd]) 3 0 0 0;
   E 0x65 None 0 9426 9425 9427; E 0x73 None 0 0 0 9430; E 0x61 None 0 0 0 9433;
   E 0x71 None 0 0 0 9428; E 0x71 None 0 0 0 9429; E 0x3b (Some [0xe2; 0xaa; 0xb6]) 3 0 0 0;
   E 0x69 None 0 0 0 9431; E 0x6d None 0 0 0 9432; E 0x3b (Some [0xe2; 0x8b; 0xa9]) 3 0 0 0;
   E 0x70 None 0 0 0 9434; E 0x70 None 0 0 0 9435; E 0x72 None 0 0 0 9436;
   E 0x6f None 0 0 0 9437; E 0x78 None 0 0 0 9438; E 0x3b (Some [0xe2; 0xaa; 0xba]) 3 0 0 0;
   E 0x6d None 0 9441 9440 9448; E 0x72 None 0 9446 9445 9452; E 0x64 None 0 9443 9442 9456;
   E 0x65 None 0 0 0 9459; E 0x45 None 0 9444 0 9464; E 0x3b (Some [0xe2; 0x8a; 0x82]) 3 0 0 0;
   E 0x73 None 0 0 0 9465; E 0x70 None 0 9447 0 9487; E 0x6e None 0 0 0 9491;
   E 0x75 None 0 0 0 9449; E 0x6c None 0 0 0 9450; E 0x74 None 0 0 0 9451;
   E 0x3b (Some [0xe2; 0xab; 0x81]) 3 0 0 0; E 0x61 None 0 0 0 9453; E 0x72 None 0 0 0 9454;
   E 0x72 None 0 0 0 9455; E 0x3b (Some [0xe2; 0xa5; 0xb9]) 3 0 0 0; E 0x6f None 0 0 0 9457;
   E 0x74 None 0 0 0 9458; E 0x3b (Some [0xe2; 0xaa; 0xbd]) 3 0 0 0; E 0x64 None 0 9460 0 9461;
   E 0x3b (Some [0xe2; 0x8a; 0x86]) 3 0 0 0; E 0x6f None 0 0 0 9462; E 0x74 None 0 0 0 9463;
   E 0x3b (Some [0xe2; 0xab; 0x83]) 3 0 0 0; E 0x3b (Some [0xe2; 0xab; 0x85]) 3 0 0 0;
   E 0x69 None 0 9467 9466 9468; E 0x75 None 0 0 0 9470; E 0x65 None 0 0 0 9474;
   E 0x6d None 0 0 0 9469; E 0x3b (Some [0xe2; 0xab; 0x87]) 3 0 0 0; E 0x70 None 0 9471 0 9472;
   E 0x62 None 0 0 0 9473; E 0x3b (Some [0xe2; 0xab; 0x93]) 3 0 0 0;
   E 0x3b (Some [0xe2; 0xab; 0x95]) 3 0 0 0; E 0x74 None 0 0 0 9475;
   E 0x65 None 0 9477 9476 9478; E 0x6e None 0 0 0 9482;
   E 0x3b (Some [0xe2; 0x8a; 0x82]) 3 0 0 0; E 0x71 None 0 0 0 9479; E 0x71 None 0 9480 0 9481;
   E 0x3b (Some [0xe2; 0x8a; 0x86]) 3 0 0 0; E 0x3b (Some [0xe2; 0xab; 0x85]) 3 0 0 0;
   E 0x65 None 0 0 0 9483; E 0x71 None 0 0 0 9484; E 0x71 None 0 9485 0 9486;
   E 0x3b (Some [0xe2; 0x8a; 0x8a]) 3 0 0 0; E 0x3b (Some [0xe2; 0xab; 0x8b]) 3 0 0 0;
   E 0x6c None 0 0 0 9488; E 0x75 None 0 0 0 9489; E 0x73 None 0 0 0 9490;
   E 0x3b (Some [0xe2; 0xaa; 0xbf]) 3 0 0 0; E 0x65 None 0 9492 0 9493; E 0x45 None 0 0 0 9494;
   E 0x3b (Some [0xe2; 0x8a; 0x8a]) 3 0 0 0; E 0x3b (Some [0xe2; 0xab; 0x8b]) 3 0 0 0;
   E 0x67 None 0 0 0 9496; E 0x3b (Some [0xe2; 0x99; 0xaa]) 3 0 0 0; E 0x72 None 0 9498 0 9499;
   E 0x61 None 0 0 0 9519; E 0x6e None 0 9500 0 9501].

Definition entities_19 : list sbst_entry :=
  [E 0x61 None 0 0 0 9503; E 0x73 None 0 0 0 9502; E 0x3b (Some [0xc2; 0xaf]) 2 0 0 0;
   E 0x69 None 0 0 0 9504; E 0x67 None 0 0 0 9505; E 0x68 None 0 0 0 9506;
   E 0x74 None 0 0 0 9507; E 0x70 None 0 9508 0 9509; E 0x65 None 0 0 0 9512;
   E 0x68 None 0 0 0 9510; E 0x69 None 0 0 0 9511; E 0x3b (Some [0xcf; 0x95]) 2 0 0 0;
   E 0x70 None 0 0 0 9513; E 0x73 None 0 0 0 9514; E 0x69 None 0 0 0 9515;
   E 0x6c None 0 0 0 9516; E 0x6f None 0 0 0 9517; E 0x6e None 0 0 0 9518;
   E 0x3b (Some [0xcf; 0xb5]) 2 0 0 0; E 0x72 None 0 0 0 9520; E 0x66 None 0 9521 0 9522;
   E 0x3b (Some [0xe2; 0x98; 0x86]) 3 0 0 0; E 0x3b (Some [0xe2; 0x98; 0x85]) 3 0 0 0;
   E 0x68 None 0 9525 9524 9533; E 0x73 None 0 9531 9530 9536; E 0x64 None 0 9527 9526 9539;
   E 0x66 None 0 9529 0 9542; E 0x63 None 0 9528 0 9544; E 0x61 None 0 0 0 9551;
   E 0x65 None 0 0 0 9556; E 0x77 None 0 0 0 9564; E 0x6f None 0 9532 0 9569;
   E 0x69 None 0 0 0 9572; E 0x63 None 0 0 0 9534; E 0x79 None 0 0 0 9535;
   E 0x3b (Some [0xd0; 0xb6]) 2 0 0 0; E 0x63 None 0 0 0 9537; E 0x72 None 0 0 0 9538;
   E 0x3b (Some [0xf0; 0x9d; 0x93; 0x8f]) 4 0 0 0; E 0x6f None 0 0 0 9540;
   E 0x74 None 0 0 0 9541; E 0x3b (Some [0xc5; 0xbc]) 2 0 0 0; E 0x72 None 0 0 0 9543;
   E 0x3b (Some [0xf0; 0x9d; 0x94; 0xb7]) 4 0 0 0; E 0x79 None 0 9545 0 9546;
   E 0x61 None 0 0 0 9547; E 0x3b (Some [0xd0; 0xb7]) 2 0 0 0; E 0x72 None 0 0 0 9548;
   E 0x6f None 0 0 0 9549; E 0x6e None 0 0 0 9550; E 0x3b (Some [0xc5; 0xbe]) 2 0 0 0;
   E 0x63 None 0 0 0 9552; E 0x75 None 0 0 0 9553; E 0x74 None 0 0 0 9554;
   E 0x65 None 0 0 0 9555; E 0x3b (Some [0xc5; 0xba]) 2 0 0 0; E 0x74 None 0 9557 0 9558;
   E 0x65 None 0 0 0 9560; E 0x61 None 0 0 0 9559; E 0x3b (Some [0xce; 0xb6]) 2 0 0 0;
   E 0x74 None 0 0 0 9561; E 0x72 None 0 0 0 9562; E 0x66 None 0 0 0 9563;
   E 0x3b (Some [0xe2; 0x84; 0xa8]) 3 0 0 0; E 0x6e None 0 9565 0 9566; E 0x6a None 0 0 0 9568;
   E 0x6a None 0 0 0 9567; E 0x3b (Some [0xe2; 0x80; 0x8c]) 3 0 0 0;
   E 0x3b (Some [0xe2; 0x80; 0x8d]) 3 0 0 0; E 0x70 None 0 0 0 9570; E 0x66 None 0 0 0 9571;
   E 0x3b (Some [0xf0; 0x9d; 0x95; 0xab]) 4 0 0 0; E 0x67 None 0 0 0 9573;
   E 0x72 None 0 0 0 9574; E 0x61 None 0 0 0 9575; E 0x72 None 0 0 0 9576;
   E 0x72 None 0 0 0 9577; E 0x3b (Some [0xe2; 0x87; 0x9d]) 3 0 0 0;
   E 0x6f None 0 9580 9579 9585; E 0x72 None 0 9584 9583 9588; E 0x65 None 0 9582 9581 9594;
   E 0x66 None 0 0 0 9609; E 0x63 None 0 0 0 9611; E 0x73 None 0 0 0 9615;
   E 0x70 None 0 0 0 9618; E 0x70 None 0 0 0 9586; E 0x66 None 0 0 0 9587;
   E 0x3b (Some [0xf0; 0x9d; 0x95; 0xa8]) 4 0 0 0; E 0x65 None 0 9589 0 9590;
   E 0x3b (Some [0xe2; 0x89; 0x80]) 3 0 0 0; E 0x61 None 0 0 0 9591; E 0x74 None 0 0 0 9592;
   E 0x68 None 0 0 0 9593; E 0x3b (Some [0xe2; 0x89; 0x80]) 3 0 0 0; E 0x69 None 0 9595 0 9596;
   E 0x64 None 0 0 0 9600; E 0x65 None 0 0 0 9597; E 0x72 None 0 0 0 9598;
   E 0x70 None 0 0 0 9599; E 0x3b (Some [0xe2; 0x84; 0x98]) 3 0 0 0; E 0x67 None 0 9601 0 9602;
   E 0x62 None 0 0 0 9606; E 0x65 None 0 0 0 9603; E 0x71 None 0 9604 0 9605;
   E 0x3b (Some [0xe2; 0x88; 0xa7]) 3 0 0 0; E 0x3b (Some [0xe2; 0x89; 0x99]) 3 0 0 0;
   E 0x61 None 0 0 0 9607; E 0x72 None 0 0 0 9608; E 0x3b (Some [0xe2; 0xa9; 0x9f]) 3 0 0 0;
   E 0x72 None 0 0 0 9610; E 0x3b (Some [0xf0; 0x9d; 0x94; 0xb4]) 4 0 0 0;
   E 0x69 None 0 0 0 9612; E 0x72 None 0 0 0 9613; E 0x63 None 0 0 0 9614;
   E 0x3b (Some [0xc5; 0xb5]) 2 0 0 0; E 0x63 None 0 0 0 9616; E 0x72 None 0 0 0 9617;
   E 0x3b (Some [0xf0; 0x9d; 0x93; 0x8c]) 4 0 0 0; E 0x3b (Some [0xe2; 0x84; 0x98]) 3 0 0 0;
   E 0x66 None 0 9621 9620 9634; E 0x70 None 0 9629 9628 9636; E 0x61 None 0 9623 9622 9640;
   E 0x64 None 0 9627 9626 9736; E 0x42 None 0 9625 9624 9740; E 0x44 None 0 0 0 9745;
   E 0x41 None 0 0 0 9749; E 0x65 None 0 0 0 9752; E 0x63 None 0 0 0 9773;
   E 0x73 None 0 9633 9632 9775; E 0x6e None 0 9631 9630 9791; E 0x6f None 0 0 0 9797;
   E 0x6c None 0 0 0 9800; E 0x7a None 0 0 0 9804; E 0x72 None 0 0 0 9810;
   E 0x72 None 0 0 0 9635; E 0x3b (Some [0xf0; 0x9d; 0x94; 0xb3]) 4 0 0 0;
   E 0x72 None 0 0 0 9637; E 0x6f None 0 0 0 9638; E 0x70 None 0 0 0 9639;
   E 0x3b (Some [0xe2; 0x88; 0x9d]) 3 0 0 0; E 0x72 None 0 9641 0 9642; E 0x6e None 0 0 0 9732;
   E 0x70 None 0 9644 9643 9649; E 0x73 None 0 9648 9647 9660; E 0x6b None 0 9646 9645 9686;
   E 0x6e None 0 0 0 9691; E 0x65 None 0 0 0 9698; E 0x74 None 0 0 0 9705;
   E 0x72 None 0 0 0 9728; E 0x69 None 0 9651 9650 9652; E 0x72 None 0 0 0 9653;
   E 0x68 None 0 0 0 9658; E 0x3b (Some [0xcf; 0x96]) 2 0 0 0; E 0x6f None 0 0 0 9654;
   E 0x70 None 0 0 0 9655; E 0x74 None 0 0 0 9656; E 0x6f None 0 0 0 9657;
   E 0x3b (Some [0xe2; 0x88; 0x9d]) 3 0 0 0; E 0x69 None 0 0 0 9659;
   E 0x3b (Some [0xcf; 0x95]) 2 0 0 0; E 0x75 None 0 9661 0 9662; E 0x69 None 0 0 0 9682;
   E 0x70 None 0 9663 0 9664; E 0x62 None 0 0 0 9673; E 0x73 None 0 0 0 9665;
   E 0x65 None 0 0 0 9666; E 0x74 None 0 0 0 9667; E 0x6e None 0 0 0 9668;
   E 0x65 None 0 0 0 9669; E 0x71 None 0 0 0 9670; E 0x71 None 0 9671 0 9672;
   E 0x3b (Some [0xe2; 0x8a; 0x8b; 0xef; 0xb8; 0x80]) 6 0 0 0;
   E 0x3b (Some [0xe2; 0xab; 0x8c; 0xef; 0xb8; 0x80]) 6 0 0 0; E 0x73 None 0 0 0 9674;
   E 0x65 None 0 0 0 9675; E 0x74 None 0 0 0 9676; E 0x6e None 0 0 0 9677;
   E 0x65 None 0 0 0 9678; E 0x71 None 0 0 0 9679; E 0x71 None 0 9680 0 9681;
   E 0x3b (Some [0xe2; 0x8a; 0x8a; 0xef; 0xb8; 0x80]) 6 0 0 0;
   E 0x3b (Some [0xe2; 0xab; 0x8b; 0xef; 0xb8; 0x80]) 6 0 0 0; E 0x67 None 0 0 0 9683;
   E 0x6d None 0 0 0 9684; E 0x61 None 0 0 0 9685; E 0x3b (Some [0xcf; 0x82]) 2 0 0 0;
   E 0x61 None 0 0 0 9687; E 0x70 None 0 0 0 9688; E 0x70 None 0 0 0 9689;
   E 0x61 None 0 0 0 9690; E 0x3b (Some [0xcf; 0xb0]) 2 0 0 0; E 0x6f None 0 0 0 9692;
   E 0x74 None 0 0 0 9693; E 0x68 None 0 0 0 9694; E 0x69 None 0 0 0 9695;
   E 0x6e None 0 0 0 9696; E 0x67 None 0 0 0 9697; E 0x3b (Some [0xe2; 0x88; 0x85]) 3 0 0 0;
   E 0x70 None 0 0 0 9699; E 0x73 None 0 0 0 9700; E 0x69 None 0 0 0 9701;
   E 0x6c None 0 0 0 9702; E 0x6f None 0 0 0 9703; E 0x6e None 0 0 0 9704;
   E 0x3b (Some [0xcf; 0xb5]) 2 0 0 0; E 0x72 None 0 9706 0 9707; E 0x68 None 0 0 0 9724;
   E 0x69 None 0 0 0 9708; E 0x61 None 0 0 0 9709; E 0x6e None 0 0 0 9710;
   E 0x67 None 0 0 0 9711; E 0x6c None 0 0 0 9712; E 0x65 None 0 0 0 9713;
   E 0x72 None 0 9714 0 9715; E 0x6c None 0 0 0 9720; E 0x69 None 0 0 0 9716;
   E 0x67 None 0 0 0 9717; E 0x68 None 0 0 0 9718; E 0x74 None 0 0 0 9719;
   E 0x3b (Some [0xe2; 0x8a; 0xb3]) 3 0 0 0; E 0x65 None 0 0 0 9721; E 0x66 None 0 0 0 9722;
   E 0x74 None 0 0 0 9723; E 0x3b (Some [0xe2; 0x8a; 0xb2]) 3 0 0 0; E 0x65 None 0 0 0 9725;
   E 0x74 None 0 0 0 9726; E 0x61 None 0 0 0 9727; E 0x3b (Some [0xcf; 0x91]) 2 0 0 0;
   E 0x68 None 0 9729 0 9730; E 0x3b (Some [0xe2; 0x86; 0x95]) 3 0 0 0; E 0x6f None 0 0 0 9731;
   E 0x3b (Some [0xcf; 0xb1]) 2 0 0 0; E 0x67 None 0 0 0 9733; E 0x72 None 0 0 0 9734;
   E 0x74 None 0 0 0 9735; E 0x3b (Some [0xe2; 0xa6; 0x9c]) 3 0 0 0; E 0x61 None 0 0 0 9737;
   E 0x73 None 0 0 0 9738; E 0x68 None 0 0 0 9739; E 0x3b (Some [0xe2; 0x8a; 0xa2]) 3 0 0 0;
   E 0x61 None 0 0 0 9741; E 0x72 None 0 0 0 9742; E 0x76 None 0 9743 0 9744;
   E 0x3b (Some [0xe2; 0xab; 0xa8]) 3 0 0 0; E 0x3b (Some [0xe2; 0xab; 0xa9]) 3 0 0 0;
   E 0x61 None 0 0 0 9746; E 0x73 None 0 0 0 9747; E 0x68 None 0 0 0 9748;
   E 0x3b (Some [0xe2; 0x8a; 0xa8]) 3 0 0 0; E 0x72 None 0 0 0 9750; E 0x72 None 0 0 0 9751;
   E 0x3b (Some [0xe2; 0x87; 0x95]) 3 0 0 0; E 0x6c None 0 9754 9753 9755;
   E 0x72 None 0 0 0 9759; E 0x65 None 0 0 0 9765; E 0x6c None 0 0 0 9756;
   E 0x69 None 0 0 0 9757; E 0x70 None 0 0 0 9758; E 0x3b (Some [0xe2; 0x8b; 0xae]) 3 0 0 0;
   E 0x74 None 0 9760 0 9761; E 0x62 None 0 0 0 9762; E 0x3b (Some [0x7c]) 1 0 0 0;
   E 0x61 None 0 0 0 9763; E 0x72 None 0 0 0 9764; E 0x3b (Some [0x7c]) 1 0 0 0;
   E 0x62 None 0 9767 9766 9768; E 0x65 None 0 0 0 9771;
   E 0x3b (Some [0xe2; 0x88; 0xa8]) 3 0 0 0; E 0x61 None 0 0 0 9769; E 0x72 None 0 0 0 9770;
   E 0x3b (Some [0xe2; 0x8a; 0xbb]) 3 0 0 0; E 0x71 None 0 0 0 9772;
   E 0x3b (Some [0xe2; 0x89; 0x9a]) 3 0 0 0; E 0x79 None 0 0 0 9774;
   E 0x3b (Some [0xd0; 0xb2]) 2 0 0 0; E 0x75 None 0 9776 0 9777; E 0x63 None 0 0 0 9789;
   E 0x70 None 0 9778 0 9779; E 0x62 None 0 0 0 9784; E 0x6e None 0 0 0 9780;
   E 0x65 None 0 9781 0 9782; E 0x45 None 0 0 0 9783;
   E 0x3b (Some [0xe2; 0x8a; 0x8b; 0xef; 0xb8; 0x80]) 6 0 0 0;
   E 0x3b (Some [0xe2; 0xab; 0x8c; 0xef; 0xb8; 0x80]) 6 0 0 0; E 0x6e None 0 0 0 9785;
   E 0x65 None 0 9786 0 9787; E 0x45 None 0 0 0 9788;
   E 0x3b (Some [0xe2; 0x8a; 0x8a; 0xef; 0xb8; 0x80]) 6 0 0 0;
   E 0x3b (Some [0xe2; 0xab; 0x8b; 0xef; 0xb8; 0x80]) 6 0 0 0; E 0x72 None 0 0 0 9790;
   E 0x3b (Some [0xf0; 0x9d; 0x93; 0x8b]) 4 0 0 0; E 0x73 None 0 0 0 9792;
   E 0x75 None 0 0 0 9793; E 0x70 None 0 9794 0 9795; E 0x62 None 0 0 0 9796;
   E 0x3b (Some [0xe2; 0x8a; 0x83; 0xe2; 0x83; 0x92]) 6 0 0 0;
   E 0x3b (Some [0xe2; 0x8a; 0x82; 0xe2; 0x83; 0x92]) 6 0 0 0; E 0x70 None 0 0 0 9798;
   E 0x66 None 0 0 0 9799; E 0x3b (Some [0xf0; 0x9d; 0x95; 0xa7]) 4 0 0 0;
   E 0x74 None 0 0 0 9801; E 0x72 None 0 0 0 9802; E 0x69 None 0 0 0 9803;
   E 0x3b (Some [0xe2; 0x8a; 0xb2]) 3 0 0 0; E 0x69 None 0 0 0 9805; E 0x67 None 0 0 0 9806;
   E 0x7a None 0 0 0 9807; E 0x61 None 0 0 0 9808; E 0x67 None 0 0 0 9809;
   E 0x3b (Some [0xe2; 0xa6; 0x9a]) 3 0 0 0; E 0x74 None 0 0 0 9811; E 0x72 None 0 0 0 9812;
   E 0x69 None 0 0 0 9813; E 0x3b (Some [0xe2; 0x8a; 0xb3]) 3 0 0 0;
   E 0x69 None 0 9816 9815 9822; E 0x73 None 0 9821 9820 9825; E 0x65 None 0 9818 9817 9828;
   E 0x66 None 0 0 0 9830; E 0x63 None 0 9819 0 9832; E 0x61 None 0 0 0 9838;
   E 0x75 None 0 0 0 9845; E 0x6f None 0 0 0 9851; E 0x63 None 0 0 0 9823;
   E 0x79 None 0 0 0 9824; E 0x3b (Some [0xd1; 0x97]) 2 0 0 0; E 0x63 None 0 0 0 9826;
   E 0x72 None 0 0 0 9827; E 0x3b (Some [0xf0; 0x9d; 0x93; 0x8e]) 4 0 0 0;
   E 0x6e (Some [0xc2; 0xa5]) 2 0 0 9829; E 0x3b (Some [0xc2; 0xa5]) 2 0 0 0;
   E 0x72 None 0 0 0 9831; E 0x3b (Some [0xf0; 0x9d; 0x94; 0xb6]) 4 0 0 0;
   E 0x79 None 0 9833 0 9834; E 0x69 None 0 0 0 9835; E 0x3b (Some [0xd1; 0x8b]) 2 0 0 0;
   E 0x72 None 0 0 0 9836; E 0x63 None 0 0 0 9837; E 0x3b (Some [0xc5; 0xb7]) 2 0 0 0;
   E 0x63 None 0 0 0 9839; E 0x79 None 0 9840 0 9841; E 0x75 None 0 0 0 9842;
   E 0x3b (Some [0xd1; 0x8f]) 2 0 0 0; E 0x74 None 0 0 0 9843;
   E 0x65 (Some [0xc3; 0xbd]) 2 0 0 9844; E 0x3b (Some [0xc3; 0xbd]) 2 0 0 0;
   E 0x6d None 0 9846 0 9847; E 0x63 None 0 0 0 9849; E 0x6c (Some [0xc3; 0xbf]) 2 0 0 9848;
   E 0x3b (Some [0xc3; 0xbf]) 2 0 0 0; E 0x79 None 0 0 0 9850;
   E 0x3b (Some [0xd1; 0x8e]) 2 0 0 0; E 0x70 None 0 0 0 9852; E 0x66 None 0 0 0 9853;
   E 0x3b (Some [0xf0; 0x9d; 0x95; 0xaa]) 4 0 0 0].

Definition lxb_html_tokenizer_res_entities_sbst : list sbst_entry :=
  entities_0 ++ entities_1 ++ entities_2 ++ entities_3 ++ entities_4 ++ entities_5 ++
  entities_6 ++ entities_7 ++ entities_8 ++ entities_9 ++ entities_10 ++ entities_11 ++
  entities_12 ++ entities_13 ++ entities_14 ++ entities_15 ++ entities_16 ++ entities_17 ++
  entities_18 ++ entities_19.

(** The array by index. *)
Definition entities : gmap Z sbst_entry :=
  fst (fold_left (fun '(m, i) e => (<[i := e]> m, i + 1)) lxb_html_tokenizer_res_entities_sbst
         ((∅ : gmap Z sbst_entry), 0)).

Definition entities_sbst : sbst := mk_sbst entities 300.

(** The root of the first bytes is index 1. *)
Lemma entities_ok : tree_ok entities_sbst (sbst_height entities_sbst) 1 0 256 1 = true.
Proof. vm_compute. reflexivity. Qed.

(** C10: in every group of the table of character references (the bytes that may
    follow a prefix), the binary search finds a byte exactly when it is in the
    group, and its entry; every link ends, the bytes of a group are distinct, and
    an entry is as the decoder needs it. *)
Theorem entity_find_search d r c : entity_group entities_sbst d r ->
  let group := siblings entities_sbst (sbst_height entities_sbst) r in
  NoDup (map fst group) /\
  (forall j, lexbor_sbst_entry_static_find entities_sbst r c = Some j <-> In (c, j) group) /\
  (forall j, In (c, j) group ->
     exists e, sbst_entries entities_sbst !! j = Some e /\ sb_key e = c /\ entry_ok d e = true).
Proof. exact (group_search entities_sbst entities_ok d r c). Qed.

Lemma entity_find_search_witness : entity_group entities_sbst 1 1 /\
  lexbor_sbst_entry_static_find entities_sbst 1 0x61 = Some 1.
Proof.
  assert (Hg : entity_group entities_sbst 1 1) by constructor. split; [exact Hg|].
  apply (proj1 (proj2 (entity_find_search 1 1 0x61 Hg))).
  assert (E : existsb (fun p => (fst p =? 0x61) && (snd p =? 1)) (siblings entities_sbst (sbst_height entities_sbst) 1) = true)
    by (vm_compute; reflexivity).
  apply existsb_exists in E as ([k j] & Hin & E). apply andb_true_iff in E as [E1 E2].
  apply Z.eqb_eq in E1, E2. cbn [fst snd] in E1, E2. subst k j. exact Hin.
Defined.
