(* ===== verification/ParserChar.v ===== *)
(** * Decoding of character data: [html/parser_char.c], [html/parser_char_ref.c]

    The text of a token and the names and values of attributes are decoded into
    a string: newlines are normalised, NULs replaced, dropped or kept, and
    character references replaced.  [lxb_html_parser_char_process] feeds a span
    of the buffer chain, buffer by buffer, and then a fake end-of-file byte, to
    a state machine; a reference may be cut anywhere by a buffer boundary, its
    text being in the string until it is known what it stands for.

    A [lexbor_str_t] is the list of its bytes, its pool always giving memory;
    lengths and positions in it are [Z].  Pointers into the static table of
    names are indices. *)
From S2P Require Import Prelude.
From S2P Require Import Str.
From S2P Require Import In.
From S2P Require Import Tag.
From S2P Require Import TagHeap.
From S2P Require Import TkzBase.
From S2P Require Import TokenData.
From S2P Require Import Sbst.

(** The functions [pc->state] can point to. *)
Inductive pc_state :=
  | PC_data | PC_data_check_lf | PC_data_lcase | PC_data_check_lf_lcase
  | PC_ref_data | PC_ref_check_lf | PC_ref_state | PC_named | PC_ambiguous_ampersand
  | PC_numeric | PC_hexademical_start | PC_decimal_start | PC_hexademical | PC_decimal.

(** [struct lxb_html_parser_char]; [pc_tmp] is the union [tmp]. *)
Record parser_char := mk_pc {
  pc_st : pc_state;
  replace_null : bool;
  drop_null : bool;
  is_attribute : bool;
  pc_tmp : Z;
  pc_status : Z;
  pc_is_eof : bool;
  pc_errors : list (Z * error_id);
  entity : Z;
  entity_match : option Z;
  entity_begin : Z;
  entity_str_len : Z
}.

Definition pc_set_state v p := mk_pc v (replace_null p) (drop_null p) (is_attribute p) (pc_tmp p) (pc_status p) (pc_is_eof p) (pc_errors p) (entity p) (entity_match p) (entity_begin p) (entity_str_len p).
Definition pc_set_replace_null v p := mk_pc (pc_st p) v (drop_null p) (is_attribute p) (pc_tmp p) (pc_status p) (pc_is_eof p) (pc_errors p) (entity p) (entity_match p) (entity_begin p) (entity_str_len p).
Definition pc_set_is_attribute v p := mk_pc (pc_st p) (replace_null p) (drop_null p) v (pc_tmp p) (pc_status p) (pc_is_eof p) (pc_errors p) (entity p) (entity_match p) (entity_begin p) (entity_str_len p).
Definition pc_set_tmp v p := mk_pc (pc_st p) (replace_null p) (drop_null p) (is_attribute p) v (pc_status p) (pc_is_eof p) (pc_errors p) (entity p) (entity_match p) (entity_begin p) (entity_str_len p).
Definition pc_set_status v p := mk_pc (pc_st p) (replace_null p) (drop_null p) (is_attribute p) (pc_tmp p) v (pc_is_eof p) (pc_errors p) (entity p) (entity_match p) (entity_begin p) (entity_str_len p).
Definition pc_set_is_eof v p := mk_pc (pc_st p) (replace_null p) (drop_null p) (is_attribute p) (pc_tmp p) (pc_status p) v (pc_errors p) (entity p) (entity_match p) (entity_begin p) (entity_str_len p).
Definition pc_error pos id p := mk_pc (pc_st p) (replace_null p) (drop_null p) (is_attribute p) (pc_tmp p) (pc_status p) (pc_is_eof p) (pc_errors p ++ [(pos, id)]) (entity p) (entity_match p) (entity_begin p) (entity_str_len p).
Definition pc_set_entity v p := mk_pc (pc_st p) (replace_null p) (drop_null p) (is_attribute p) (pc_tmp p) (pc_status p) (pc_is_eof p) (pc_errors p) v (entity_match p) (entity_begin p) (entity_str_len p).
Definition pc_set_entity_match v p := mk_pc (pc_st p) (replace_null p) (drop_null p) (is_attribute p) (pc_tmp p) (pc_status p) (pc_is_eof p) (pc_errors p) (entity p) v (entity_begin p) (entity_str_len p).
Definition pc_set_entity_begin v p := mk_pc (pc_st p) (replace_null p) (drop_null p) (is_attribute p) (pc_tmp p) (pc_status p) (pc_is_eof p) (pc_errors p) (entity p) (entity_match p) v (entity_str_len p).
Definition pc_set_entity_str_len v p := mk_pc (pc_st p) (replace_null p) (drop_null p) (is_attribute p) (pc_tmp p) (pc_status p) (pc_is_eof p) (pc_errors p) (entity p) (entity_match p) (entity_begin p) v.

(** ** Strings *)

Definition str_len (s : list Z) : Z := Z.of_nat (length s).

(** [memcpy(&str->data[pos], l, ..)] *)
Definition write_at (pos : Z) (l s : list Z) : list Z :=
  take (Z.to_nat pos) s ++ l ++ drop (Z.to_nat pos + length l) s.

(** [str->length = n] *)
Definition set_length (n : Z) (s : list Z) : list Z := take (Z.to_nat n) s.

(** [str->data[str->length - 1] = c] *)
Definition set_last (c : Z) (s : list Z) : list Z := removelast s ++ [c].

(** [lxb_html_parser_char_ref_numeric_to_ascii_utf_8]: the bytes it writes. *)
Definition lxb_html_parser_char_ref_numeric_to_ascii_utf_8 (codepoint : Z) : list Z :=
  if codepoint <=? 0x7F then [codepoint]
  else if codepoint <=? 0x7FF then
    [Z.lor 0xC0 (Z.shiftr codepoint 6); Z.lor 0x80 (Z.land codepoint 0x3F)]
  else if codepoint <=? 0xFFFF then
    [Z.lor 0xE0 (Z.shiftr codepoint 12); Z.lor 0x80 (Z.land (Z.shiftr codepoint 6) 0x3F);
     Z.lor 0x80 (Z.land codepoint 0x3F)]
  else if codepoint <=? 0x1FFFFF then
    [Z.lor 0xF0 (Z.shiftr codepoint 18); Z.lor 0x80 (Z.land (Z.shiftr codepoint 12) 0x3F);
     Z.lor 0x80 (Z.land (Z.shiftr codepoint 6) 0x3F); Z.lor 0x80 (Z.land codepoint 0x3F)]
  else [].

Definition lxb_html_parser_char_eof : Z := lxb_html_tokenizer_eof.

Section ParserChar.
(** The table of names, the buffers and the memory. *)
Context (T : sbst) (m : gmap positive in_node) (rd : Z -> Z).

(** ** Plain data

    The loops of [lxb_html_parser_char_data], [.._data_lcase] and
    [.._ref_data] are one program: [app] is how bytes are appended (as they are,
    or lower-cased), [lf] the state after a CR at the end of a buffer, and [amp]
    whether [&] begins a reference. *)
Section Data.
Context (app : list Z -> list Z) (lf : pc_state) (amp : bool).

(** Between [begin] and [data] are bytes not yet appended; the fuel is the number
    of bytes left. *)
Fixpoint char_data_loop (fuel : nat) (p : parser_char) (str : list Z) (begin_ data end_ : Z)
    : parser_char * list Z * Z :=
  if data =? end_ then
    (p, (if begin_ =? data then str else str ++ app (read_range rd begin_ data)), data)
  else
    match fuel with
    | O => (p, str, data)
    | S fuel' =>
        let c := rd data in
        if amp && (c =? 0x26) then
          (pc_set_state PC_ref_state p, str ++ app (read_range rd begin_ (data + 1)), data + 1)
        else if c =? 0x0D then
          let data := data + 1 in
          let str := set_last 0x0A (str ++ app (read_range rd begin_ data)) in
          if data >=? end_ then (pc_set_state lf p, str, data)
          else
            let data := if rd data =? 0x0A then data + 1 else data in
            char_data_loop fuel' p str data data end_
        else if c =? 0x00 then
          if pc_is_eof p then (p, str, end_)
          else if negb (replace_null p) then
            if drop_null p then
              char_data_loop fuel' p (str ++ app (read_range rd begin_ data)) (data + 1) (data + 1) end_
            else char_data_loop fuel' p str begin_ (data + 1) end_
          else
            let str := if begin_ =? data then str else str ++ app (read_range rd begin_ data) in
            char_data_loop fuel' p (str ++ replacement_character) (data + 1) (data + 1) end_
        else char_data_loop fuel' p str begin_ (data + 1) end_
    end.

Definition char_data_state (p : parser_char) (str : list Z) (data end_ : Z) :=
  char_data_loop (Z.to_nat (end_ - data)) p str data data end_.
End Data.

Definition same_bytes (l : list Z) : list Z := l.

Definition lxb_html_parser_char_data := char_data_state same_bytes PC_data_check_lf false.
Definition lxb_html_parser_char_data_lcase := char_data_state (map lower) PC_data_check_lf_lcase false.
Definition lxb_html_parser_char_ref_data := char_data_state same_bytes PC_ref_check_lf true.

(** The three [.._check_lf] states. *)
Definition check_lf (back : pc_state) (p : parser_char) (str : list Z) (data end_ : Z) :=
  let data := if rd data =? 0x0A then data + 1 else data in
  (pc_set_state back p, str, data).

Definition lxb_html_parser_char_data_check_lf := check_lf PC_data.
Definition lxb_html_parser_char_data_check_lf_lcase := check_lf PC_data_lcase.
Definition lxb_html_parser_char_ref_check_lf := check_lf PC_ref_data.

(** ** Character references *)

Definition lxb_html_parser_char_ref_state (p : parser_char) (str : list Z) (data end_ : Z) :=
  let c := rd data in
  if is_alnum c then
    let p := pc_set_tmp (str_len str - 1) p in
    let p := pc_set_entity 1 p in
    let p := pc_set_entity_match None p in
    (pc_set_state PC_named p, str, data)
  else if c =? 0x23 then
    let str := str ++ [c] in
    let p := pc_set_entity_begin data p in
    let p := pc_set_entity_str_len (str_len str - 2) p in
    (pc_set_state PC_numeric p, str, data + 1)
  else (pc_set_state PC_ref_data p, str, data).

(** The replacement of the text of a name by its value, at [done:] of
    [.._state_named]: in place when what follows the name is to be kept. *)
Definition replace_entity (p : parser_char) (value : list Z) (value_len : Z) (str : list Z) : list Z :=
  if str_len str - pc_tmp p >? value_len then
    let dest_len := pc_tmp p + value_len in
    let length_ := str_len str - (entity_str_len p - dest_len) in
    let str := write_at (pc_tmp p) value str in
    let str := write_at dest_len (drop (Z.to_nat (entity_str_len p)) str) str in
    set_length (length_ - 1) str
  else set_length (pc_tmp p) str ++ value.

(** The label [done:]: the bytes up to [data] are in the string, the last one
    belongs to no name. *)
Definition named_done (p : parser_char) (str : list Z) (data : Z) : parser_char * list Z * Z :=
  match entity_match p with
  | None => (pc_set_state PC_ambiguous_ampersand p, set_length (str_len str - 1) str, data)
  | Some e =>
      let p := pc_set_state PC_ref_data p in
      let ch := nth (Z.to_nat (entity_str_len p)) str 0 in
      if is_attribute p && negb (entity_key T e =? 0x3B) && ((ch =? 0x3D) || is_alnum ch) then
        (p, str, data + 1)
      else
        let p := if entity_key T e =? 0x3B then pc_error (entity_begin p) MISEAFCHRE p else p in
        let value := default [] (entity_value T e) in
        let value_len := match sbst_entries T !! e with Some x => sb_value_len x | None => 0 end in
        (p, replace_entity p value value_len str, data)
  end.

(** The loop of [.._state_named]; [entry] is where the next byte is looked for. *)
Fixpoint named_loop (fuel : nat) (p : parser_char) (str : list Z) (entry data end_ : Z)
    : parser_char * list Z * Z :=
  if data =? end_ then
    (pc_set_entity entry p, str ++ read_range rd (entity_begin p) end_, data)
  else
    match fuel with
    | O => (p, str, data)
    | S fuel' =>
        match lexbor_sbst_entry_static_find T entry (rd data) with
        | None => named_done p (str ++ read_range rd (entity_begin p) (data + 1)) data
        | Some e =>
            let '(p, str) :=
              match entity_value T e with
              | Some _ =>
                  let str := if data =? entity_begin p then str
                             else str ++ read_range rd (entity_begin p) data in
                  (pc_set_entity_str_len (str_len str + 1)
                     (pc_set_entity_match (Some e) (pc_set_entity_begin data p)), str)
              | None => (p, str)
              end in
            named_loop fuel' p str (entity_next T e) (data + 1) end_
        end
    end.

Definition lxb_html_parser_char_ref_state_named (p : parser_char) (str : list Z) (data end_ : Z) :=
  named_loop (Z.to_nat (end_ - data)) (pc_set_entity_begin data p) str (entity p) data end_.

Definition lxb_html_parser_char_ref_state_ambiguous_ampersand (p : parser_char) (str : list Z)
    (data end_ : Z) :=
  let p := if rd data =? 0x3B then pc_error data UNNACHRE p else p in
  (pc_set_state PC_ref_data p, str, data).

Definition lxb_html_parser_char_ref_state_numeric (p : parser_char) (str : list Z) (data end_ : Z) :=
  let p := pc_set_tmp 0 p in
  let c := rd data in
  if (c =? 0x78) || (c =? 0x58) then
    (pc_set_state PC_hexademical_start p, str ++ [c], data + 1)
  else (pc_set_state PC_decimal_start p, str, data).

(** The two [.._start] states: is there a digit? *)
Definition numeric_start (table : list Z) (digits : pc_state) (p : parser_char) (str : list Z) (data : Z) :=
  if negb (tbl table (rd data) =? LEXBOR_STR_RES_SLIP) then (pc_set_state digits p, str, data)
  else (pc_set_state PC_ref_data (pc_error data ABOFDIINNUCHRE p), str, data).

Definition lxb_html_parser_char_ref_state_hexademical_start p str data (end_ : Z) :=
  numeric_start lexbor_str_res_map_hex PC_hexademical p str data.
Definition lxb_html_parser_char_ref_state_decimal_start p str data (end_ : Z) :=
  numeric_start lexbor_str_res_map_num PC_decimal p str data.

(** The code points the [switch] of [.._numeric_end] lists. *)
Definition noncharacters : list Z :=
  concat (map (fun plane => [plane * 0x10000 + 0xFFFE; plane * 0x10000 + 0xFFFF]) (map Z.of_nat (seq 0 17))).

Definition lxb_html_parser_char_ref_numeric_end (p : parser_char) (str : list Z) (data end_ : Z) :=
  let str := set_length (entity_str_len p) str in
  let num := pc_tmp p in
  let xFFFD p := (p, str ++ replacement_character, data) in
  if num =? 0x00 then xFFFD (pc_error (entity_begin p) NUCHRE p)
  else if num >? 0x10FFFF then xFFFD (pc_error (entity_begin p) CHREOUUNRA p)
  else if (num >=? 0xD800) && (num <=? 0xDFFF) then xFFFD (pc_error (entity_begin p) SUCHRE p)
  else
    let p := if (num >=? 0xFDD0) && (num <=? 0xFDEF) then pc_error (entity_begin p) NOCHRE p else p in
    let p := if one_of num noncharacters then pc_error (entity_begin p) NOCHRE p else p in
    let p := if (num <=? 0x1F) || ((num >=? 0x7F) && (num <=? 0x9F))
             then pc_error (entity_begin p) COCHRE p else p in
    let num := if num <=? 0x9F then nth (Z.to_nat num) lexbor_str_res_replacement_character 0 else num in
    let p := pc_set_tmp num p in
    (p, str ++ lxb_html_parser_char_ref_numeric_to_ascii_utf_8 num, data).

(** The loops over the digits; [begin] is where the buffer's digits begin. *)
Fixpoint digits_loop (fuel : nat) (table : list Z) (add : Z -> Z -> Z) (p : parser_char) (str : list Z)
    (begin_ data end_ : Z) : parser_char * list Z * Z :=
  if data =? end_ then (p, str ++ read_range rd begin_ data, data)
  else
    match fuel with
    | O => (p, str, data)
    | S fuel' =>
        let d := tbl table (rd data) in
        if d =? LEXBOR_STR_RES_SLIP then
          let p := pc_set_state PC_ref_data p in
          let data := if rd data =? 0x3B then data + 1 else data in
          lxb_html_parser_char_ref_numeric_end p str data end_
        else
          let p := if pc_tmp p <=? 0x10FFFF then pc_set_tmp (add (pc_tmp p) d) p else p in
          digits_loop fuel' table add p str begin_ (data + 1) end_
    end.

Definition lxb_html_parser_char_ref_state_hexademical p str data end_ :=
  digits_loop (Z.to_nat (end_ - data)) lexbor_str_res_map_hex (fun n d => Z.lor (Z.shiftl n 4) d)
    p str data data end_.
Definition lxb_html_parser_char_ref_state_decimal p str data end_ :=
  digits_loop (Z.to_nat (end_ - data)) lexbor_str_res_map_num (fun n d => d + n * 10)
    p str data data end_.

(** ** [lxb_html_parser_char_process] *)

(** [pc->state(pc, str, data, end)] *)
Definition call_pc (p : parser_char) (str : list Z) (data end_ : Z) : parser_char * list Z * Z :=
  match pc_st p with
  | PC_data => lxb_html_parser_char_data p str data end_
  | PC_data_check_lf => lxb_html_parser_char_data_check_lf p str data end_
  | PC_data_lcase => lxb_html_parser_char_data_lcase p str data end_
  | PC_data_check_lf_lcase => lxb_html_parser_char_data_check_lf_lcase p str data end_
  | PC_ref_data => lxb_html_parser_char_ref_data p str data end_
  | PC_ref_check_lf => lxb_html_parser_char_ref_check_lf p str data end_
  | PC_ref_state => lxb_html_parser_char_ref_state p str data end_
  | PC_named => lxb_html_parser_char_ref_state_named p str data end_
  | PC_ambiguous_ampersand => lxb_html_parser_char_ref_state_ambiguous_ampersand p str data end_
  | PC_numeric => lxb_html_parser_char_ref_state_numeric p str data end_
  | PC_hexademical_start => lxb_html_parser_char_ref_state_hexademical_start p str data end_
  | PC_decimal_start => lxb_html_parser_char_ref_state_decimal_start p str data end_
  | PC_hexademical => lxb_html_parser_char_ref_state_hexademical p str data end_
  | PC_decimal => lxb_html_parser_char_ref_state_decimal p str data end_
  end.

(** [while (data < end) data = pc->state(..)] *)
Fixpoint pc_run (fuel : nat) (p : parser_char) (str : list Z) (data end_ : Z)
    : option (parser_char * list Z) :=
  if data <? end_ then
    match fuel with
    | O => None
    | S fuel' => let '(p, str, data) := call_pc p str data end_ in pc_run fuel' p str data end_
    end
  else Some (p, str).

(** A call consumes a byte or takes one of four states that do not. *)
Definition pc_fuel (data end_ : Z) : nat := Z.to_nat (6 * (end_ - data) + 6).

Fixpoint pc_nodes (fuel : nat) (p : parser_char) (str : list Z) (in_node : positive) (data end_ : Z)
    : option (parser_char * Z * list Z) :=
  match fuel with
  | O => None
  | S fuel' =>
      n ← m !! in_node;
      if lexbor_in_segment n end_ then
        '(p, str) ← pc_run (pc_fuel data end_) p str data end_;
        if negb (pc_status p =? LXB_STATUS_OK) then Some (p, pc_status p, str)
        else
          let p := pc_set_is_eof true p in
          '(p, str) ← pc_run (pc_fuel lxb_html_parser_char_eof (lxb_html_parser_char_eof + 1)) p str
                        lxb_html_parser_char_eof (lxb_html_parser_char_eof + 1);
          Some (p, pc_status p, str)
      else
        '(p, str) ← pc_run (pc_fuel data (in_end n)) p str data (in_end n);
        if negb (pc_status p =? LXB_STATUS_OK) then Some (p, pc_status p, str)
        else
          match in_next n with
          | None => Some (p, LXB_STATUS_ERROR, str)
          | Some nx => nn ← m !! nx; pc_nodes fuel' p str nx (in_begin nn) end_
          end
  end.

(** The parser, the status and the string it leaves. *)
Definition lxb_html_parser_char_process (p : parser_char) (str : list Z) (in_node : option positive)
    (data end_ : Z) : option (parser_char * Z * list Z) :=
  i ← in_node;
  pc_nodes (walk_fuel m) (pc_set_is_eof false (pc_set_status LXB_STATUS_OK p)) str i data end_.
End ParserChar.
