(* ===== verification/ParserCharSpec.v ===== *)
(** * What the decoding of character data computes

    Reference: [decode] rewrites the whole list of bytes, one construct at a
    time, with the longest name of the table after an ampersand and the value of
    all the digits of a number.  The state machine computes it, wherever the
    bytes are cut into buffers. *)
From S2P Require Import Prelude.
From S2P Require Import Str.
From S2P Require Import In.
From S2P Require Import HtmlIn.
From S2P Require Import TkzBase.
From S2P Require Import TokenData.
From S2P Require Import Sbst.
From S2P Require Import ParserChar.

(** ** The reference *)

(** The longest prefix of bytes in [p], and the rest. *)
Fixpoint span (p : Z -> bool) (l : list Z) : list Z * list Z :=
  match l with
  | c :: l' => if p c then let '(a, b) := span p l' in (c :: a, b) else ([], l)
  | [] => ([], [])
  end.

Definition drop_byte (c : Z) (l : list Z) : list Z :=
  match l with d :: l' => if d =? c then l' else l | [] => [] end.

(** The bytes a numeric reference stands for. *)
Definition numeric_value (num : Z) : list Z :=
  if (num =? 0) || (num >? 0x10FFFF) || ((num >=? 0xD800) && (num <=? 0xDFFF)) then replacement_character
  else lxb_html_parser_char_ref_numeric_to_ascii_utf_8
         (if num <=? 0x9F then nth (Z.to_nat num) lexbor_str_res_replacement_character 0 else num).

(** The number its digits write. *)
Definition digits_value (base : Z) (table : list Z) (ds : list Z) : Z :=
  fold_left (fun n d => n * base + tbl table d) ds 0.

Definition is_digit (table : list Z) (c : Z) : bool := negb (tbl table c =? LEXBOR_STR_RES_SLIP).

(** The reference that the bytes after [&#] (and [x]) are, and the rest. *)
Definition numeric_reference (base : Z) (table : list Z) (l : list Z) : option (list Z * list Z) :=
  match span (is_digit table) l with
  | ([], _) => None
  | (ds, rest) => Some (numeric_value (digits_value base table ds), drop_byte 0x3B rest)
  end.

Section Decode.
Context (T : sbst).

(** The entry a name leads to, from the group at [r]. *)
Fixpoint entity_at (r : Z) (name : list Z) : option Z :=
  match name with
  | [] => None
  | [c] => lexbor_sbst_entry_static_find T r c
  | c :: rest => j ← lexbor_sbst_entry_static_find T r c; entity_at (entity_next T j) rest
  end.

(** The value of a name. *)
Definition name_value (name : list Z) : option (list Z) := j ← entity_at 1 name; entity_value T j.

(** The longest prefix of [l] that is a name: its length and its value. *)
Definition longest_name (l : list Z) : option (nat * list Z) :=
  last (omap (fun n => v ← name_value (take n l); Some (n, v)) (seq 1 (length l))).

(** How many bytes of [l] are on a path of the table from the group at [r]. *)
Fixpoint path_length (r : Z) (l : list Z) : nat :=
  match l with
  | [] => 0
  | c :: l' =>
      match lexbor_sbst_entry_static_find T r c with
      | Some j => S (path_length (entity_next T j) l')
      | None => 0
      end
  end.

(** In an attribute, a name without semicolon is left alone before [=] or an
    alphanumeric.  The byte after the table's path is copied without being
    looked at, a NUL at the end of the data. *)
Definition left_alone (n : nat) (l : list Z) : bool :=
  negb (nth (pred n) l 0 =? 0x3B) && ((nth n l 0 =? 0x3D) || is_alnum (nth n l 0)).

Definition copied (l : list Z) : list Z * list Z :=
  let k := path_length 1 l in
  if (k <? length l)%nat then (0x26 :: take (S k) l, drop (S k) l) else (0x26 :: l ++ [0], []).

(** What to do with NULs, ampersands and other bytes; whether the data is an
    attribute's. *)
Context (nul : list Z) (amp : bool) (plain : Z -> Z) (attr : bool).

Definition named_reference (l : list Z) : option (list Z * list Z) :=
  match longest_name l with
  | None => None
  | Some (n, v) => Some (if attr && left_alone n l then copied l else (v, drop n l))
  end.

(** The reference the bytes after an ampersand are. *)
Definition reference (l : list Z) : option (list Z * list Z) :=
  match l with
  | c :: l1 =>
      if c =? 0x23 then
        match l1 with
        | x :: l2 =>
            if (x =? 0x78) || (x =? 0x58) then numeric_reference 16 lexbor_str_res_map_hex l2
            else numeric_reference 10 lexbor_str_res_map_num l1
        | [] => None
        end
      else named_reference l
  | [] => None
  end.

Definition decode_step (c : Z) (l : list Z) : list Z * list Z :=
  if amp && (c =? 0x26) then match reference l with Some r => r | None => ([c], l) end
  else if c =? 0x0D then ([0x0A], drop_byte 0x0A l)
  else if c =? 0x00 then (nul, l)
  else ([plain c], l).

Fixpoint decode_loop (fuel : nat) (l : list Z) : list Z :=
  match fuel, l with
  | S fuel', c :: l' => let '(out, rest) := decode_step c l' in out ++ decode_loop fuel' rest
  | _, _ => []
  end.

(** The fuel is the length, which is enough: [decode_cons]. *)
Definition decode (l : list Z) : list Z := decode_loop (length l) l.

(** *** Equations *)

Lemma span_length p l a b : span p l = (a, b) -> length l = (length a + length b)%nat.
Proof.
  revert a b. induction l as [|c l IH]; intros a b H; cbn [span] in H; [by injection H as <- <-|].
  destruct (p c); [|by injection H as <- <-].
  destruct (span p l) as [a' b']. injection H as <- <-. cbn. by rewrite (IH a' b').
Qed.

Lemma drop_byte_length c l : (length (drop_byte c l) <= length l)%nat.
Proof. destruct l as [|d l]; cbn; [lia|]. destruct (d =? c); cbn; lia. Qed.

Lemma numeric_reference_length base table l o r :
  numeric_reference base table l = Some (o, r) -> (length r <= length l)%nat.
Proof.
  unfold numeric_reference. destruct (span _ l) as [[|d ds] rest] eqn:E; [done|].
  intros [= _ <-]. apply span_length in E. pose proof (drop_byte_length 0x3B rest). cbn in E. lia.
Qed.

Lemma named_reference_length l o r : named_reference l = Some (o, r) -> (length r <= length l)%nat.
Proof.
  unfold named_reference. destruct (longest_name l) as [[n v]|]; [|done]. unfold copied.
  destruct (attr && left_alone n l); [destruct (_ <? _)%nat|]; intros [= _ <-];
    rewrite ?length_drop; cbn; lia.
Qed.

Lemma reference_length l o r : reference l = Some (o, r) -> (length r <= length l)%nat.
Proof.
  unfold reference. destruct l as [|c l1]; [done|]. destruct (c =? 0x23).
  - destruct l1 as [|x l2]; [done|]. case_if; intros H%numeric_reference_length; cbn in *; lia.
  - apply named_reference_length.
Qed.

Lemma decode_step_length c l : (length (snd (decode_step c l)) <= length l)%nat.
Proof.
  unfold decode_step. destruct (amp && (c =? 0x26)).
  - destruct (reference l) as [[o r]|] eqn:E; [by apply reference_length in E | done].
  - destruct (c =? 0x0D); [apply drop_byte_length|]. by destruct (c =? 0x00).
Qed.

Lemma decode_loop_fuel k : forall n l, (length l <= k)%nat -> (length l <= n)%nat ->
  decode_loop n l = decode_loop k l.
Proof.
  induction k as [|k IH]; intros n l Hk Hn; [destruct l; [by destruct n | cbn in Hk; lia]|].
  destruct l as [|c l]; [by destruct n|]. destruct n as [|n]; [cbn in Hn; lia|]. cbn [decode_loop].
  pose proof (decode_step_length c l). destruct (decode_step c l) as [o r]. cbn in *.
  f_equal. apply IH; lia.
Qed.

Lemma decode_cons c l : decode (c :: l) = fst (decode_step c l) ++ decode (snd (decode_step c l)).
Proof.
  unfold decode at 1. cbn [length decode_loop]. pose proof (decode_step_length c l).
  destruct (decode_step c l) as [o r]. cbn in *. f_equal. apply decode_loop_fuel; lia.
Qed.
End Decode.
