(* ===== verification/ParserCharUtf8.v ===== *)
(** * Numeric references give well-formed UTF-8

    [utf8_decode] reads one character of UTF-8, refusing overlong forms,
    surrogates and everything above U+10FFFF; what the decoder writes for a
    number is read back as the character the number stands for. *)
From S2P Require Import Prelude.
From S2P Require Import Str.
From S2P Require Import TokenData.
From S2P Require Import Sbst.
From S2P Require Import ParserChar.
From S2P Require Import ParserCharSpec.

Definition continuation (b : Z) : bool := (0x80 <=? b) && (b <? 0xC0).

(** A code point that UTF-8 encodes. *)
Definition scalar (cp : Z) : bool :=
  (0 <=? cp) && (cp <=? 0x10FFFF) && negb ((0xD800 <=? cp) && (cp <=? 0xDFFF)).

Definition checked (low cp : Z) (tail : list Z) : option Z :=
  if (low <=? cp) && scalar cp && forallb continuation tail then Some cp else None.

(** The one character that is encoded by all of [l]. *)
Definition utf8_decode (l : list Z) : option Z :=
  match l with
  | [a] => if (0 <=? a) && (a <? 0x80) then Some a else None
  | [a; b] => if (0xC0 <=? a) && (a <? 0xE0) then checked 0x80 ((a - 0xC0) * 64 + (b - 0x80)) [b] else None
  | [a; b; c] =>
      if (0xE0 <=? a) && (a <? 0xF0)
      then checked 0x800 (((a - 0xE0) * 64 + (b - 0x80)) * 64 + (c - 0x80)) [b; c] else None
  | [a; b; c; d] =>
      if (0xF0 <=? a) && (a <? 0xF8)
      then checked 0x10000 ((((a - 0xF0) * 64 + (b - 0x80)) * 64 + (c - 0x80)) * 64 + (d - 0x80)) [b; c; d] else None
  | _ => None
  end.

Lemma tail_byte x : Z.lor 0x80 (Z.land x 0x3F) = 0x80 + x mod 64.
Proof.
  change 0x3F with (Z.ones 6). rewrite (Z.land_ones x 6 ltac:(lia)). apply (lor_add _ _ 6 2); [lia | done | apply Z.mod_pos_bound; lia].
Qed.

Lemma continuation_byte x : continuation (0x80 + x mod 64) = true.
Proof.
  pose proof (Z.mod_pos_bound x 64 ltac:(lia)). unfold continuation.
  rewrite andb_true_iff, Z.leb_le, Z.ltb_lt. lia.
Qed.

Lemma checked_ok low cp tail : low <= cp -> scalar cp = true -> forallb continuation tail = true ->
  checked low cp tail = Some cp.
Proof. intros H1 H2 H3. unfold checked. by rewrite (proj2 (Z.leb_le _ _) H1), H2, H3. Qed.

Lemma utf8_scalar cp : scalar cp = true ->
  utf8_decode (lxb_html_parser_char_ref_numeric_to_ascii_utf_8 cp) = Some cp.
Proof.
  intros Hs. pose proof Hs as Hr. unfold scalar in Hr. apply andb_true_iff in Hr as [[H0 H1]%andb_true_iff _].
  bool_to_prop. unfold lxb_html_parser_char_ref_numeric_to_ascii_utf_8. rewrite !tail_byte, !Z.shiftr_div_pow2 by lia.
  change (2 ^ 6) with 64. change (2 ^ 12) with 4096. change (2 ^ 18) with 262144.
  destruct (Z.leb_spec cp 0x7F).
  { cbn [utf8_decode]. by rewrite (proj2 (Z.leb_le _ _)), (proj2 (Z.ltb_lt _ _)) by lia. }
  destruct (Z.leb_spec cp 0x7FF).
  { rewrite (lor_add 0xC0 _ 6 3) by (done || Z.to_euclidean_division_equations; lia). cbn [utf8_decode].
    rewrite (proj2 (Z.leb_le _ _)), (proj2 (Z.ltb_lt _ _)) by (Z.to_euclidean_division_equations; lia).
    cbn [andb]. replace ((_ - _) * 64 + _) with cp by (Z.to_euclidean_division_equations; lia).
    apply checked_ok; [lia | done | cbn; by rewrite !continuation_byte]. }
  destruct (Z.leb_spec cp 0xFFFF).
  { rewrite (lor_add 0xE0 _ 4 14) by (done || Z.to_euclidean_division_equations; lia). cbn [utf8_decode].
    rewrite (proj2 (Z.leb_le _ _)), (proj2 (Z.ltb_lt _ _)) by (Z.to_euclidean_division_equations; lia).
    cbn [andb]. replace ((_ + _) * 64 + _) with cp by (Z.to_euclidean_division_equations; lia).
    apply checked_ok; [lia | done | cbn; by rewrite !continuation_byte]. }
  rewrite (proj2 (Z.leb_le cp 0x1FFFFF)) by lia.
  rewrite (lor_add 0xF0 _ 3 30) by (done || Z.to_euclidean_division_equations; lia). cbn [utf8_decode].
  rewrite (proj2 (Z.leb_le _ _)), (proj2 (Z.ltb_lt _ _)) by (Z.to_euclidean_division_equations; lia).
  cbn [andb]. replace ((_ + _) * 64 + _) with cp by (Z.to_euclidean_division_equations; lia).
  apply checked_ok; [lia | done | cbn; by rewrite !continuation_byte].
Qed.

(** The character a number stands for. *)
Definition numeric_character (num : Z) : Z :=
  if (num =? 0) || (0x10FFFF <? num) || ((0xD800 <=? num) && (num <=? 0xDFFF)) then 0xFFFD
  else if (0x80 <=? num) && (num <=? 0x9F) then nth (Z.to_nat num) lexbor_str_res_replacement_character 0
  else num.

Definition table_entry_ok (num : Z) : bool :=
  let v := nth (Z.to_nat num) lexbor_str_res_replacement_character 0 in
  scalar v && ((0x80 <=? num) || (num =? 0) || (v =? num)).

Lemma replacement_table_ok : forallb table_entry_ok (map Z.of_nat (seq 0 160)) = true.
Proof. vm_compute. reflexivity. Qed.

Lemma table_entry num : 0 <= num <= 0x9F -> table_entry_ok num = true.
Proof.
  intros H. apply (proj1 (forallb_forall _ _) replacement_table_ok). apply in_map_iff.
  exists (Z.to_nat num). split; [lia | apply in_seq; lia].
Qed.

(** C13: whatever number a numeric reference writes, what replaces it is the
    UTF-8 form of one character, and that character is: U+FFFD for zero, for
    numbers above U+10FFFF and for surrogates; the Windows-1252 character of
    [lexbor_str_res_replacement_character] from 0x80 to 0x9F; the number itself
    otherwise. *)
Theorem numeric_value_utf8 num : 0 <= num -> utf8_decode (numeric_value num) = Some (numeric_character num).
Proof.
  intros H0. unfold numeric_value, numeric_character. rewrite Z.gtb_ltb, Z.geb_leb.
  destruct ((num =? 0) || (0x10FFFF <? num) || ((0xD800 <=? num) && (num <=? 0xDFFF))) eqn:E; [done|].
  apply orb_false_iff in E as [[E0 E1]%orb_false_iff E2]. bool_to_prop. destruct (Z.leb_spec num 0x9F).
  - pose proof (table_entry num ltac:(lia)) as Ht. unfold table_entry_ok in Ht.
    apply andb_true_iff in Ht as [Hs Ht]. rewrite utf8_scalar by done. rewrite andb_true_r.
    apply Z.eqb_neq in E0. rewrite E0, orb_false_r in Ht. destruct (0x80 <=? num); [done|].
    cbn [orb] in Ht. by apply Z.eqb_eq in Ht as ->.
  - rewrite utf8_scalar; [by rewrite andb_false_r|]. unfold scalar.
    rewrite E2, !(proj2 (Z.leb_le _ _)) by lia. done.
Qed.

Lemma numeric_value_utf8_witness : utf8_decode (numeric_value 0x80) = Some 0x20AC /\
  utf8_decode (numeric_value 0x1F600) = Some 0x1F600 /\ utf8_decode (numeric_value 0x110000) = Some 0xFFFD.
Proof. split; [|split]; apply numeric_value_utf8; lia. Defined.
