(* ===== verification/ParserCharName.v ===== *)
(** * Names of character references, read one byte at a time

    The decoder follows a path of the table and remembers the last name it
    passed; [name_state] is what it knows after the bytes [w], and determines the
    longest name of [w] followed by anything. *)
From S2P Require Import Prelude.
From S2P Require Import Str.
From S2P Require Import Sbst.
From S2P Require Import ParserCharSpec.

Section Names.
Context (T : sbst) (table_ok : tree_ok T (sbst_height T) 1 0 256 1 = true).
Implicit Types (w l q : list Z).

Local Definition find := lexbor_sbst_entry_static_find T.

(** The longest name from the group at [r], one byte at a time. *)
Fixpoint longest_from (r : Z) (l : list Z) : option (nat * list Z) :=
  match l with
  | [] => None
  | c :: l' =>
      match lexbor_sbst_entry_static_find T r c with
      | None => None
      | Some j =>
          match longest_from (entity_next T j) l' with
          | Some (n, v) => Some (S n, v)
          | None => (fun v => (1%nat, v)) <$> entity_value T j
          end
      end
  end.

Definition name_from (r : Z) (name : list Z) : option (list Z) := j ← entity_at T r name; entity_value T j.

Lemma name_from_cons r c w : w <> [] ->
  name_from r (c :: w) = j ← lexbor_sbst_entry_static_find T r c; name_from (entity_next T j) w.
Proof.
  intros Hw. unfold name_from. destruct w as [|d w]; [done|]. cbn [entity_at].
  destruct (lexbor_sbst_entry_static_find T r c); done.
Qed.

Lemma omap_shift r c l : forall k,
  omap (fun n => v ← name_from r (take n (c :: l)); Some (n, v)) (seq (S (S k)) (length l - k)) =
  match lexbor_sbst_entry_static_find T r c with
  | None => []
  | Some j => map (fun '(n, v) => (S n, v))
                (omap (fun n => v ← name_from (entity_next T j) (take n l); Some (n, v)) (seq (S k) (length l - k)))
  end.
Proof.
  intros k. remember (length l - k)%nat as n eqn:Hn. revert k Hn.
  induction n as [|n IH]; intros k Hn; cbn [seq omap list_omap map]; [by destruct (lexbor_sbst_entry_static_find T r c)|].
  rewrite (IH (S k)) by lia. cbn [take]. rewrite name_from_cons; [|destruct l; cbn in *; [lia | done]].
  destruct (lexbor_sbst_entry_static_find T r c) as [j|]; cbn [mbind option_bind]; [|done].
  cbn [omap list_omap]. by destruct (name_from (entity_next T j) (take (S k) l)).
Qed.

Lemma longest_from_names l : forall r,
  last (omap (fun n => v ← name_from r (take n l); Some (n, v)) (seq 1 (length l))) = longest_from r l.
Proof.
  induction l as [|c l IH]; intros r; [done|]. cbn [length seq omap list_omap longest_from].
  pose proof (omap_shift r c l 0) as Hs. rewrite Nat.sub_0_r in Hs. rewrite Hs. clear Hs.
  cbn [take]. rewrite take_0. unfold name_from at 1. cbn [entity_at].
  destruct (lexbor_sbst_entry_static_find T r c) as [j|]; cbn [mbind option_bind]; [|done].
  rewrite <- IH.
  set (names := omap _ (seq 1 (length l))).
  assert (Hm : last (map (fun '(n, v) => (S n, v)) names) =
    match last names with Some (n, v) => Some (S n, v) | None => None end).
  { change (map (fun '(n, v) => (S n, v)) names) with ((fun '(n, v) => (S n, v : list Z)) <$> names).
    rewrite fmap_last. by destruct (last names) as [[? ?]|]. }
  destruct (entity_value T j) as [v|]; cbn [fmap option_fmap option_map mbind option_bind].
  - rewrite last_cons, Hm. by destruct (last names) as [[? ?]|].
  - rewrite Hm. by destruct (last names) as [[? ?]|].
Qed.

Lemma longest_name_from l : longest_name T l = longest_from 1 l.
Proof. apply longest_from_names. Qed.

(** ** What is known after some bytes *)

(** The group reached by following [w] from [r]. *)
Fixpoint walk (r : Z) (w : list Z) : option Z :=
  match w with
  | [] => Some r
  | c :: w' => j ← lexbor_sbst_entry_static_find T r c; walk (entity_next T j) w'
  end.

Lemma walk_app r w1 : forall w2, walk r (w1 ++ w2) = i ← walk r w1; walk i w2.
Proof.
  revert r. induction w1 as [|c w1 IH]; intros r w2; [done|]. cbn [app walk].
  destruct (lexbor_sbst_entry_static_find T r c) as [j|]; [apply IH | done].
Qed.

(** Bytes the decoding copies. *)
Definition name_byte (c : Z) : bool := is_alnum c || (c =? 0x3B).

(** The last name passed: its length, its entry and the entry's group. *)
Record name_match (w : list Z) (n : nat) (e : Z) (v : list Z) : Prop := {
  nm_value : entity_value T e = Some v;
  nm_len : (1 <= n <= length w)%nat;
  nm_key : nth (pred n) w 0 = entity_key T e;
  nm_size : exists x, sbst_entries T !! e = Some x /\ sb_value_len x = Z.of_nat (length v) /\
    (Z.of_nat (length v) <= 1 + Z.of_nat n \/
     entity_key T e = 0x3B /\ Z.of_nat n + 2 <= Z.of_nat (length v))
}.

(** After the bytes [w], with the last name passed [best]. *)
Record name_state (w : list Z) (i : Z) (best : option (nat * Z * list Z)) : Prop := {
  ns_walk : walk 1 w = Some i;
  ns_bytes : forallb name_byte w = true;
  ns_group : entity_group T (1 + Z.of_nat (length w)) i \/ i = 0;
  ns_best : match best with Some (n, e, v) => name_match w n e v | None => True end;
  ns_end : match best with
           | Some (n, e, _) => entity_key T e = 0x3B -> n = length w /\ i = 0
           | None => True
           end;
  ns_longest : forall q, longest_from 1 (w ++ q) =
    match longest_from i q with
    | Some (n, v) => Some ((length w + n)%nat, v)
    | None => match best with Some (n, _, v) => Some (n, v) | None => None end
    end
}.

Lemma name_state_nil : name_state [] 1 None.
Proof.
  split; [done | done | left; constructor | done | done |]. intros q. cbn. by destruct (longest_from 1 q) as [[? ?]|].
Qed.

Lemma find_zero c : lexbor_sbst_entry_static_find T 0 c = None.
Proof. unfold lexbor_sbst_entry_static_find. by destruct (sbst_height T). Qed.

(** Finding the next byte. *)
Lemma name_state_step w i best c j : name_state w i best ->
  lexbor_sbst_entry_static_find T i c = Some j ->
  name_state (w ++ [c]) (entity_next T j)
    (match entity_value T j with Some v => Some (S (length w), j, v) | None => best end) /\
  entity_key T j = c.
Proof.
  intros [Hw Hb Hg Hbest Hend Hl] Hf.
  assert (Hg' : entity_group T (1 + Z.of_nat (length w)) i)
    by (destruct Hg as [Hg|Hg]; [done | by rewrite Hg, find_zero in Hf]).
  destruct (group_find T table_ok _ _ _ _ Hg' Hf) as (x & Hx & Hkey & Hok).
  assert (Hk : entity_key T j = c) by (unfold entity_key; by rewrite Hx).
  unfold entry_ok in Hok. rewrite Hkey in Hok. apply andb_true_iff in Hok as [Hok Hv].
  apply andb_true_iff in Hok as [Hc Hsemi].
  assert (Hvj : entity_value T j = sb_value x) by (unfold entity_value; by rewrite Hx).
  assert (Hwc : length (w ++ [c]) = S (length w)) by (rewrite length_app; cbn; lia).
  split; [|done]. split.
  - rewrite walk_app, Hw. cbn [mbind option_bind walk]. by rewrite Hf.
  - rewrite forallb_app, Hb. cbn. by rewrite andb_true_r.
  - rewrite Hwc. left. replace (1 + Z.of_nat (S (length w))) with (1 + Z.of_nat (length w) + 1) by lia.
    by eapply group_next.
  - rewrite Hvj. destruct (sb_value x) as [v|] eqn:Ev.
    + split; [by rewrite Hvj | lia | |].
      * rewrite Hk. cbn [pred]. rewrite app_nth2 by lia. by rewrite Nat.sub_diag.
      * exists x. split; [done|]. apply andb_true_iff in Hv as [Hlen Hsz]. apply Z.eqb_eq in Hlen.
        split; [done|]. rewrite Hk. apply orb_true_iff in Hsz as [Hsz|Hsz]; [left | right].
        -- apply Z.leb_le in Hsz. lia.
        -- apply andb_true_iff in Hsz as [? Hsz]. apply Z.eqb_eq in H. apply Z.leb_le in Hsz. lia.
    + destruct best as [[[n e] v]|]; [|done]. destruct Hbest as [H1 H2 H3 H4].
      split; [done | lia | rewrite app_nth1 by lia; done | done].
  - rewrite Hvj. destruct (sb_value x) as [v|] eqn:Ev.
    + intros Hs. split; [lia|]. unfold entity_next. rewrite Hx. rewrite Hk in Hs. rewrite Hs in Hsemi.
      cbn [negb orb Z.eqb Pos.eqb] in Hsemi. apply andb_true_iff in Hsemi as [_ Hsemi]. by apply Z.eqb_eq.
    + destruct best as [[[n e] v]|]; [|done]. intros He. destruct (Hend He) as [_ Hi].
      by rewrite Hi, find_zero in Hf.
  - intros q. rewrite <- app_assoc. cbn [app]. rewrite Hl. cbn [longest_from]. rewrite Hf, Hwc.
    destruct (longest_from (entity_next T j) q) as [[n v]|]; [f_equal; f_equal; lia|].
    destruct (entity_value T j) as [v|]; cbn [fmap option_fmap option_map]; [|done].
    f_equal. f_equal. lia.
Qed.
End Names.
