(* ===== verification/ParserCharProof.v ===== *)
(** * The decoder computes its reference, wherever its input is cut

    A string that is being decoded is the decoding of what was read so far, up
    to a pending construct whose bytes it echoes: [shape].  Every call of a state
    function keeps this, the end of the file completes it. *)
From S2P Require Import Prelude.
From S2P Require Import Str.
From S2P Require Import In.
From S2P Require Import HtmlIn.
From S2P Require Import TkzBase.
From S2P Require Import TokenData.
From S2P Require Import Sbst.
From S2P Require Import ParserChar.
From S2P Require Import ParserCharSpec.
From S2P Require Import ParserCharName.

(** The three ways to decode: as it is, lower-cased, with references. *)
Inductive char_mode := CM_data | CM_lcase | CM_ref.

Definition mode_plain (M : char_mode) : Z -> Z := match M with CM_lcase => lower | _ => fun c => c end.
Definition mode_app (M : char_mode) : list Z -> list Z :=
  match M with CM_lcase => map lower | _ => same_bytes end.
Definition mode_amp (M : char_mode) : bool := match M with CM_ref => true | _ => false end.
Definition mode_state (M : char_mode) : pc_state :=
  match M with CM_data => PC_data | CM_lcase => PC_data_lcase | CM_ref => PC_ref_data end.
Definition mode_lf (M : char_mode) : pc_state :=
  match M with CM_data => PC_data_check_lf | CM_lcase => PC_data_check_lf_lcase | CM_ref => PC_ref_check_lf end.

(** The options of a decoding. *)
Record options := mk_options { o_mode : char_mode; o_replace : bool; o_drop : bool; o_attr : bool }.

(** What a NUL becomes. *)
Definition nul_bytes (O : options) : list Z :=
  if o_replace O then replacement_character else if o_drop O then [] else [0].

Section Proof.
Context (T : sbst) (table_ok : tree_ok T (sbst_height T) 1 0 256 1 = true).
Context (rd : Z -> Z) (O : options).

Definition dec : list Z -> list Z :=
  decode T (nul_bytes O) (mode_amp (o_mode O)) (mode_plain (o_mode O)) (o_attr O).

(** ** Equations of the reference *)

Lemma app_plain l : mode_app (o_mode O) l = map (mode_plain (o_mode O)) l.
Proof. destruct (o_mode O); cbn; unfold same_bytes; by rewrite ?map_id. Qed.

Lemma dec_plain c q : (mode_amp (o_mode O) = true -> c <> 0x26) -> c <> 0x0D -> c <> 0 ->
  dec (c :: q) = mode_plain (o_mode O) c :: dec q.
Proof.
  intros Ha Hcr H0. unfold dec. rewrite decode_cons. unfold decode_step.
  apply Z.eqb_neq in Hcr, H0. rewrite Hcr, H0.
  destruct (mode_amp (o_mode O)); cbn [andb]; [|done].
  by rewrite (proj2 (Z.eqb_neq c 0x26) (Ha eq_refl)).
Qed.

Lemma dec_cr q : dec (0x0D :: q) = 0x0A :: dec (drop_byte 0x0A q).
Proof. unfold dec. rewrite decode_cons. unfold decode_step. by rewrite andb_false_r. Qed.

Lemma dec_nul q : dec (0 :: q) = nul_bytes O ++ dec q.
Proof. unfold dec. rewrite decode_cons. unfold decode_step. by rewrite andb_false_r. Qed.

Lemma dec_nil : dec [] = [].
Proof. done. Qed.

Lemma plain_zero : mode_plain (o_mode O) 0 = 0.
Proof. by destruct (o_mode O). Qed.

Definition flags (eof : bool) (p : parser_char) : Prop :=
  replace_null p = o_replace O /\ drop_null p = o_drop O /\ is_attribute p = o_attr O /\
  pc_status p = LXB_STATUS_OK /\ pc_is_eof p = eof.

Lemma set_last_snoc c l d : set_last c (l ++ [d]) = l ++ [c].
Proof. unfold set_last. by rewrite removelast_last. Qed.

Lemma read_range_snoc b d : b <= d -> read_range rd b (d + 1) = read_range rd b d ++ [rd d].
Proof.
  intros H. rewrite (read_range_split rd b d (d + 1)) by lia. f_equal.
  unfold read_range. by replace (Z.to_nat (d + 1 - d)) with 1%nat by lia.
Qed.

Lemma read_range_nil b : read_range rd b b = [].
Proof. unfold read_range. by rewrite Z.sub_diag. Qed.

(** The number in [pc_tmp] is the number of the digits read, until it is out of
    range. *)
Definition saturated (n v : Z) : Prop := n = v \/ 0x10FFFF < n /\ 0x10FFFF < v.

(** The last name passed, as the decoder remembers it; [o] is what comes before
    the ampersand. *)
Definition match_is (p : parser_char) (o : list Z) (best : option (nat * Z * list Z)) : Prop :=
  match best with
  | None => entity_match p = None
  | Some (n, e, v) => entity_match p = Some e /\ entity_str_len p = str_len o + 1 + Z.of_nat n
  end.

Definition not_hash (l : list Z) : Prop := match l with c :: _ => c <> 0x23 | [] => False end.

(** [shape p str o r l]: [str] is [o] and an echo of the bytes [r], which with
    the bytes [l] to come are still to be decoded. *)
Inductive shape (p : parser_char) (str o : list Z) : list Z -> list Z -> Prop :=
  | sh_data l : pc_st p = mode_state (o_mode O) -> str = o -> shape p str o [] l
  | sh_lf l : pc_st p = mode_lf (o_mode O) -> str = o ++ [0x0A] -> shape p str o [0x0D] l
  | sh_ref l : o_mode O = CM_ref -> pc_st p = PC_ref_state -> str = o ++ [0x26] -> shape p str o [0x26] l
  | sh_named w i best l : o_mode O = CM_ref -> pc_st p = PC_named -> name_state T w i best ->
      entity p = i -> pc_tmp p = str_len o -> match_is p o best -> str = o ++ 0x26 :: w ->
      (w <> [] \/ not_hash l) -> shape p str o (0x26 :: w) l
  | sh_ambiguous l : o_mode O = CM_ref -> pc_st p = PC_ambiguous_ampersand -> str = o -> shape p str o [] l
  | sh_numeric l : o_mode O = CM_ref -> pc_st p = PC_numeric -> entity_str_len p = str_len o ->
      str = o ++ [0x26; 0x23] -> shape p str o [0x26; 0x23] l
  | sh_hexademical_start x l : o_mode O = CM_ref -> pc_st p = PC_hexademical_start ->
      entity_str_len p = str_len o -> pc_tmp p = 0 -> (x =? 0x78) || (x =? 0x58) = true ->
      str = o ++ [0x26; 0x23; x] -> shape p str o [0x26; 0x23; x] l
  | sh_decimal_start c l : o_mode O = CM_ref -> pc_st p = PC_decimal_start ->
      entity_str_len p = str_len o -> pc_tmp p = 0 -> (c =? 0x78) || (c =? 0x58) = false ->
      str = o ++ [0x26; 0x23] -> shape p str o [0x26; 0x23] (c :: l)
  | sh_hexademical x ds l : o_mode O = CM_ref -> pc_st p = PC_hexademical ->
      entity_str_len p = str_len o -> saturated (pc_tmp p) (digits_value 16 lexbor_str_res_map_hex ds) ->
      (x =? 0x78) || (x =? 0x58) = true -> forallb (is_digit lexbor_str_res_map_hex) ds = true ->
      (ds <> [] \/ match l with c :: _ => is_digit lexbor_str_res_map_hex c = true | [] => False end) ->
      str = o ++ [0x26; 0x23; x] ++ ds -> shape p str o ([0x26; 0x23; x] ++ ds) l
  | sh_decimal ds l : o_mode O = CM_ref -> pc_st p = PC_decimal ->
      entity_str_len p = str_len o -> saturated (pc_tmp p) (digits_value 10 lexbor_str_res_map_num ds) ->
      forallb (is_digit lexbor_str_res_map_num) ds = true ->
      (ds <> [] \/ match l with c :: _ => is_digit lexbor_str_res_map_num c = true | [] => False end) ->
      str = o ++ [0x26; 0x23] ++ ds -> shape p str o ([0x26; 0x23] ++ ds) l.

(** The states which may not consume a byte, in the order they follow each other. *)
Definition rank (st : pc_state) : nat :=
  match st with
  | PC_ref_state => 4
  | PC_numeric => 3
  | PC_named | PC_hexademical_start | PC_decimal_start => 2
  | PC_data_check_lf | PC_data_check_lf_lcase | PC_ref_check_lf | PC_ambiguous_ampersand
  | PC_hexademical | PC_decimal => 1
  | PC_data | PC_data_lcase | PC_ref_data => 0
  end.

(** What a call leaves of the bytes [l], of which [o0] and [r0] are the output
    and what is pending before: it consumes a byte or takes a state of rank less
    than [k]. *)
Definition call_post (k : nat) (o0 r0 l : list Z) (data : Z) (res : parser_char * list Z * Z) : Prop :=
  exists l1 l2 o r, let '(p, str, d) := res in
    d = data + Z.of_nat (length l1) /\ l = l1 ++ l2 /\ flags false p /\ shape p str o r l2 /\
    (forall q, o0 ++ dec (r0 ++ l ++ q) = o ++ dec (r ++ l2 ++ q)) /\
    (l = [] \/ l1 <> [] \/ (rank (pc_st p) < k)%nat).

(** ** Plain data *)

Lemma post_step k o0 r0 o1 r1 l1' l data res : l1' <> [] ->
  call_post k o1 r1 l (data + Z.of_nat (length l1')) res ->
  (forall q, o0 ++ dec (r0 ++ (l1' ++ l) ++ q) = o1 ++ dec (r1 ++ l ++ q)) ->
  call_post k o0 r0 (l1' ++ l) data res.
Proof.
  intros Hne (l1 & l2 & o & r & H) Hq. destruct res as [[p str] d]. destruct H as (-> & -> & Hf & Hs & He & _).
  exists (l1' ++ l1), l2, o, r. split; [rewrite length_app; lia|]. split; [by rewrite app_assoc|].
  split; [done|]. split; [done|]. split; [intros q; by rewrite Hq|]. right. left. by destruct l1'.
Qed.

Lemma data_loop_post fuel : forall l data p str begin_ end_,
  bytes_at rd data l -> end_ = data + Z.of_nat (length l) -> (length l <= fuel)%nat -> begin_ <= data ->
  flags false p -> pc_st p = mode_state (o_mode O) ->
  call_post 0 (str ++ map (mode_plain (o_mode O)) (read_range rd begin_ data)) [] l data
    (char_data_loop rd (mode_app (o_mode O)) (mode_lf (o_mode O)) (mode_amp (o_mode O)) fuel p str begin_ data end_).
Proof.
  induction fuel as [fuel IH] using lt_wf_ind.
  intros l data p str begin_ end_ Hl -> Hfuel Hb Hf Hst.
  set (pend := read_range rd begin_ data).
  destruct l as [|c l].
  { cbn [length]. rewrite Z.add_0_r.
    assert (char_data_loop rd (mode_app (o_mode O)) (mode_lf (o_mode O)) (mode_amp (o_mode O)) fuel p str
      begin_ data data = (p, str ++ map (mode_plain (o_mode O)) pend, data)) as ->.
    { destruct fuel; cbn [char_data_loop]; rewrite Z.eqb_refl, app_plain; unfold pend;
        (destruct (Z.eqb_spec begin_ data) as [->|]; [by rewrite read_range_nil, app_nil_r | done]). }
    exists [], [], (str ++ map (mode_plain (o_mode O)) pend), []. cbn. split; [lia|]. split; [done|].
    split; [done|]. split; [by constructor | split; [done | by left]]. }
  destruct fuel as [|fuel]; [cbn in Hfuel; lia|]. cbn [length bytes_at] in *. destruct Hl as [Hc Hl].
  cbn [char_data_loop]. rewrite (proj2 (Z.eqb_neq _ _)) by lia. rewrite Hc.
  assert (Hsnoc : read_range rd begin_ (data + 1) = pend ++ [c]) by (rewrite read_range_snoc by lia; by rewrite Hc).
  assert (Hone : Z.of_nat (length [c]) = 1) by done.
  pose proof Hf as (Hr & Hd & Ha & Hs & He).
  assert (Hnext : forall o1 str' begin', begin' <= data + 1 ->
    o1 = str' ++ map (mode_plain (o_mode O)) (read_range rd begin' (data + 1)) ->
    (forall q, (str ++ map (mode_plain (o_mode O)) pend) ++ dec (c :: l ++ q) = o1 ++ dec (l ++ q)) ->
    call_post 0 (str ++ map (mode_plain (o_mode O)) pend) [] (c :: l) data
      (char_data_loop rd (mode_app (o_mode O)) (mode_lf (o_mode O)) (mode_amp (o_mode O)) fuel p str' begin'
         (data + 1) (data + Z.of_nat (S (length l))))).
  { intros o1 str' begin' Hb' -> Hq. change (c :: l) with ([c] ++ l). eapply post_step; [done| |].
    - rewrite Hone. apply (IH fuel); [lia | exact Hl | lia | lia | exact Hb' | done | exact Hst].
    - intros q. cbn [app]. apply Hq. }
  destruct (mode_amp (o_mode O) && (c =? 0x26)) eqn:Eamp.
  { apply andb_true_iff in Eamp as [Eamp ->%Z.eqb_eq].
    exists [0x26], l, (str ++ map (mode_plain (o_mode O)) pend), [0x26]. cbn [length]. split; [lia|].
    split; [done|]. split; [done|]. split; [|split; [done | right; by left]].
    assert (HM : o_mode O = CM_ref) by (destruct (o_mode O); done).
    apply sh_ref; [done | done |]. rewrite app_plain, Hsnoc, map_app, HM. by rewrite app_assoc. }
  destruct (Z.eqb_spec c 0x0D) as [->|Hcr].
  { rewrite app_plain, Hsnoc, map_app, app_assoc. cbn [map]. rewrite set_last_snoc.
    destruct l as [|c2 l].
    - rewrite (proj2 (Z.geb_le _ _)) by (cbn; lia).
      exists [0x0D], [], (str ++ map (mode_plain (o_mode O)) pend), [0x0D]. cbn [length]. split; [lia|].
      split; [done|]. split; [done|]. split; [by apply sh_lf | split; [done | right; by left]].
    - cbn [length bytes_at] in *. destruct Hl as [Hc2 Hl]. rewrite Z.geb_leb, (proj2 (Z.leb_gt _ _)) by lia. rewrite Hc2.
      destruct (Z.eqb_spec c2 0x0A) as [->|Hc2'].
      + change (0x0D :: 0x0A :: l) with ([0x0D; 0x0A] ++ l). eapply post_step; [done| |].
        * cbn [length]. replace (data + 1 + 1) with (data + Z.of_nat 2) by lia.
          apply (IH fuel); [lia | | lia | lia | lia | done | exact Hst].
          replace (data + Z.of_nat 2) with (data + 1 + 1) by lia. exact Hl.
        * intros q. rewrite read_range_nil, app_nil_r. cbn [app]. rewrite dec_cr. cbn [drop_byte Z.eqb Pos.eqb].
          by rewrite <- !app_assoc.
      + change (0x0D :: c2 :: l) with ([0x0D] ++ c2 :: l). eapply post_step; [done| |].
        * cbn [length]. apply (IH fuel);
            [lia | split; [exact Hc2 | exact Hl] | cbn [length]; lia | cbn [length]; lia | lia | done | exact Hst].
        * intros q. rewrite read_range_nil, app_nil_r. cbn [app]. rewrite dec_cr. cbn [drop_byte].
          rewrite (proj2 (Z.eqb_neq _ _) Hc2'). by rewrite <- !app_assoc. }
  destruct (Z.eqb_spec c 0x00) as [->|H0].
  { rewrite He, Hr, Hd. destruct (o_replace O) eqn:ER; cbn [negb].
    - eapply Hnext; [lia | reflexivity |]. intros q. rewrite dec_nul, read_range_nil. cbn [map]. rewrite app_nil_r.
      unfold nul_bytes. rewrite ER, app_plain.
      destruct (Z.eqb_spec begin_ data) as [->|]; unfold pend; by rewrite ?read_range_nil, ?app_nil_r, <- ?app_assoc.
    - destruct (o_drop O) eqn:ED.
      + eapply Hnext; [lia | reflexivity |]. intros q. rewrite dec_nul, read_range_nil. cbn [map]. rewrite app_nil_r.
        unfold nul_bytes. by rewrite ER, ED, app_plain.
      + eapply Hnext; [lia | reflexivity |]. intros q. rewrite dec_nul, Hsnoc, map_app. cbn [map].
        unfold nul_bytes. rewrite ER, ED, plain_zero. by rewrite !app_assoc. }
  eapply Hnext; [lia | reflexivity |]. intros q. rewrite Hsnoc, map_app, dec_plain; [by rewrite <- !app_assoc| |done|done].
  intros Hamp. rewrite Hamp in Eamp. by apply Z.eqb_neq.
Qed.

(** ** Names *)

Section Ref.
Context (mode_ref : o_mode O = CM_ref).

Lemma name_byte_plain c : name_byte c = true -> c <> 0x26 /\ c <> 0x0D /\ c <> 0 /\ c <> 0x23.
Proof. intros H. repeat split; intros ->; by vm_compute in H. Qed.

Lemma dec_plain_ref c q : c <> 0x26 -> c <> 0x0D -> c <> 0 -> dec (c :: q) = c :: dec q.
Proof. intros H1 H2 H3. rewrite dec_plain by done. by rewrite mode_ref. Qed.

Lemma dec_name_bytes w q : forallb name_byte w = true -> dec (w ++ q) = w ++ dec q.
Proof.
  induction w as [|c w IH]; intros H; [done|]. cbn [forallb app] in *. apply andb_true_iff in H as [Hc Hw].
  destruct (name_byte_plain c Hc) as (? & ? & ? & _). by rewrite dec_plain_ref, IH.
Qed.

Lemma dec_amp q : dec (0x26 :: q) =
  match reference T (o_attr O) q with Some (o, r) => o ++ dec r | None => 0x26 :: dec q end.
Proof.
  unfold dec. rewrite decode_cons. unfold decode_step. rewrite mode_ref. cbn [mode_amp andb Z.eqb Pos.eqb].
  by destruct (reference T (o_attr O) q) as [[? ?]|].
Qed.

(** No name goes on from the group at [i] with the bytes [z]. *)
Definition stops (i : Z) (z : list Z) : Prop :=
  match z with c :: _ => lexbor_sbst_entry_static_find T i c = None | [] => True end.

Lemma longest_stops i z : stops i z -> longest_from T i z = None.
Proof. destruct z as [|c z]; [done|]. cbn. by intros ->. Qed.

Lemma path_length_walk w : forall r i z, walk T r w = Some i -> stops i z -> path_length T r (w ++ z) = length w.
Proof.
  induction w as [|c w IH]; intros r i z Hw Hz.
  - injection Hw as ->. destruct z as [|c z]; [done|]. cbn in *. by rewrite Hz.
  - cbn [walk app path_length length] in *. destruct (lexbor_sbst_entry_static_find T r c) as [j|]; [|done].
    f_equal. by eapply IH.
Qed.

Lemma not_hash_app w z : forallb name_byte w = true -> w <> [] \/ not_hash z -> not_hash (w ++ z).
Proof.
  destruct w as [|c w]; intros Hw [H|H]; try done; cbn in *; apply andb_true_iff in Hw as [Hc _];
    by apply name_byte_plain.
Qed.

Lemma reference_name l : not_hash l -> reference T (o_attr O) l = named_reference T (o_attr O) l.
Proof. destruct l as [|c l]; [done|]. intros H. cbn. by rewrite (proj2 (Z.eqb_neq _ _) H). Qed.

Lemma left_alone_app n w z : (1 <= n <= length w)%nat -> left_alone n (w ++ z) = left_alone n (w ++ [hd 0 z]).
Proof.
  intros H. unfold left_alone.
  assert (Hp : forall q, nth (pred n) (w ++ q) 0 = nth (pred n) w 0) by (intros q; apply app_nth1; lia).
  rewrite !Hp. assert (nth n (w ++ z) 0 = nth n (w ++ [hd 0 z]) 0) as ->; [|done].
  destruct (decide (n = length w)) as [->|]; [|by rewrite !app_nth1 by lia].
  rewrite (app_nth2 w z), (app_nth2 w [_]), Nat.sub_diag by lia. by destruct z.
Qed.

(** The reference, at a name that stops. *)
Lemma dec_named w i best z : name_state T w i best -> stops i z -> w <> [] \/ not_hash z ->
  dec (0x26 :: w ++ z) =
  match best with
  | None => 0x26 :: w ++ dec z
  | Some (n, _, v) =>
      if o_attr O && left_alone n (w ++ [hd 0 z]) then 0x26 :: w ++ [hd 0 z] ++ dec (tail z)
      else v ++ drop n w ++ dec z
  end.
Proof.
  intros Hn Hz Hw. pose proof (ns_bytes _ _ _ _ Hn) as Hb. rewrite dec_amp, reference_name by (by apply not_hash_app).
  unfold named_reference. rewrite (longest_name_from T), (ns_longest _ _ _ _ Hn), (longest_stops _ _ Hz).
  destruct best as [[[n e] v]|]; [|by rewrite dec_name_bytes].
  pose proof (nm_len _ _ _ _ _ (ns_best _ _ _ _ Hn)) as Hlen.
  rewrite (left_alone_app n w z Hlen).
  destruct (o_attr O && _).
  - unfold copied. rewrite (path_length_walk w 1 i z); [|by apply Hn|done].
    destruct z as [|c z]; rewrite length_app; cbn [length hd tail].
    + rewrite Nat.add_0_r, Nat.ltb_irrefl, !app_nil_r.
      done.
    + rewrite (proj2 (Nat.ltb_lt _ _)) by lia.
      change (w ++ c :: z) with (w ++ [c] ++ z). rewrite app_assoc, take_app_length', drop_app_length'
        by (rewrite length_app; cbn; lia). cbn [app]. by rewrite <- app_assoc.
  - rewrite drop_app_le by lia. rewrite dec_name_bytes; [done|].
    rewrite <- (take_drop n w), forallb_app in Hb. by apply andb_true_iff in Hb as [_ Hb].
Qed.

(** A name without a semicolon that an attribute leaves alone. *)
Lemma dec_left_alone w r n v : o_attr O = true -> is_alnum (hd 0 w) = true ->
  longest_name T (w ++ r) = Some (n, v) -> left_alone n (w ++ r) = true ->
  path_length T 1 (w ++ r) = length w ->
  dec (0x26 :: w ++ r) = 0x26 :: w ++ hd 0 r :: dec (tl r).
Proof.
  intros Ha Hw Hn Hl Hp. rewrite dec_amp, reference_name.
  2:{ destruct w as [|c w]; cbn [hd] in Hw; [by vm_compute in Hw|]. intros ->. by vm_compute in Hw. }
  unfold named_reference. rewrite Hn, Hl, Ha. cbn [andb]. unfold copied. rewrite Hp.
  destruct r as [|c r]; rewrite length_app; cbn [length hd tl].
  - rewrite Nat.add_0_r, Nat.ltb_irrefl, !app_nil_r. by rewrite dec_nil.
  - rewrite (proj2 (Nat.ltb_lt _ _)) by lia. change (w ++ c :: r) with (w ++ [c] ++ r).
    rewrite app_assoc, take_app_length', drop_app_length' by (rewrite length_app; cbn; lia).
    cbn [app]. by rewrite <- app_assoc.
Qed.

Lemma write_at_app o a v s : length v = length a -> write_at (str_len o) v (o ++ a ++ s) = o ++ v ++ s.
Proof.
  intros Hv. unfold write_at, str_len. rewrite Nat2Z.id, take_app_length, Hv. f_equal. f_equal.
  by rewrite app_assoc, drop_app_length' by (rewrite length_app; lia).
Qed.

(** The two moves in place: the value over the text, the rest over the gap. *)
Lemma close_gap b g t c :
  set_length (str_len (b ++ t)) (write_at (str_len b) (drop (Z.to_nat (str_len (b ++ g))) (b ++ g ++ t ++ [c]))
    (b ++ g ++ t ++ [c])) = b ++ t.
Proof.
  unfold set_length, write_at, str_len. rewrite !Nat2Z.id, take_app_length.
  rewrite (app_assoc b g), drop_app_length, <- !app_assoc, (app_assoc b t). apply take_app_length.
Qed.

(** The text of a name is replaced by its value; the byte after the last name
    passed and the bytes up to the stop are kept. *)
Lemma replace_entity_spec p o w i n e v c : name_state T w i (Some (n, e, v)) ->
  pc_tmp p = str_len o -> entity_str_len p = str_len o + 1 + Z.of_nat n ->
  replace_entity p v (Z.of_nat (length v)) (o ++ 0x26 :: w ++ [c]) = o ++ v ++ drop n w.
Proof.
  intros Hn Ht He. destruct (ns_best _ _ _ _ Hn) as [_ Hlen _ (x & _ & _ & Hsz)].
  pose proof (ns_end _ _ _ _ Hn) as Hend. cbn in Hend. unfold replace_entity. rewrite Ht, He.
  assert (Hl : str_len (o ++ 0x26 :: w ++ [c]) - str_len o = 2 + Z.of_nat (length w))
    by (unfold str_len; rewrite !length_app; cbn [length]; rewrite length_app; cbn; lia).
  rewrite Hl, Z.gtb_ltb. destruct (Z.ltb_spec (Z.of_nat (length v)) (2 + Z.of_nat (length w))) as [H|H].
  - assert (Hv : (length v <= 1 + n)%nat) by (destruct Hsz as [?|[Hk ?]]; [lia | destruct (Hend Hk); lia]).
    set (a := 0x26 :: take n w). set (g := drop (length v) a).
    assert (Ha : length a = S n) by (cbn; rewrite length_take; lia).
    assert (E : o ++ 0x26 :: w ++ [c] = o ++ take (length v) a ++ g ++ drop n w ++ [c])
      by (unfold g; rewrite (app_assoc (take _ a)), take_drop; unfold a; cbn [app]; by rewrite app_assoc, take_drop).
    rewrite E, write_at_app by (rewrite length_take; lia). rewrite (app_assoc o v (drop n w)), (app_assoc o v (g ++ _)).
    assert (Hov : str_len (o ++ v) = str_len o + Z.of_nat (length v)) by (unfold str_len; rewrite length_app; lia).
    assert (Hg : Z.of_nat (length g) = 1 + Z.of_nat n - Z.of_nat (length v)) by (unfold g; rewrite length_drop; lia).
    replace (str_len o + 1 + Z.of_nat n) with (str_len ((o ++ v) ++ g))
      by (unfold str_len in *; rewrite length_app; lia).
    rewrite <- Hov. rewrite <- (close_gap (o ++ v) g (drop n w) c). f_equal.
    unfold str_len in *. rewrite !length_app in *. cbn [length] in *. rewrite length_app in Hl. cbn [length] in Hl.
    rewrite length_take. lia.
  - unfold set_length, str_len. rewrite Nat2Z.id, take_app_length, drop_ge; [by rewrite app_nil_r | lia].
Qed.

(** The end of a name, at the byte [c]. *)
Lemma named_done_spec eof p o w i best c data : name_state T w i best -> match_is p o best ->
  pc_tmp p = str_len o -> flags eof p ->
  exists p', flags eof p' /\
    named_done T p (o ++ 0x26 :: w ++ [c]) data =
      match best with
      | None => (p', o ++ 0x26 :: w, data)
      | Some (n, _, v) =>
          if o_attr O && left_alone n (w ++ [c]) then (p', o ++ 0x26 :: w ++ [c], data + 1)
          else (p', o ++ v ++ drop n w, data)
      end /\
    pc_st p' = match best with None => PC_ambiguous_ampersand | Some _ => PC_ref_data end.
Proof.
  intros Hn Hm Ht Hf. unfold named_done. destruct best as [[[n e] v]|]; cbn in Hm.
  - destruct Hm as [He Hlen]. rewrite He. destruct (ns_best _ _ _ _ Hn) as [Hv Hnlen Hkey (x & Hx & Hsz & _)].
    assert (Hch : nth (Z.to_nat (entity_str_len p)) (o ++ 0x26 :: w ++ [c]) 0 = nth n (w ++ [c]) 0).
    { rewrite Hlen. unfold str_len. rewrite app_nth2 by lia.
      by replace (Z.to_nat (Z.of_nat (length o) + 1 + Z.of_nat n) - length o)%nat with (S n) by lia. }
    cbn [entity_str_len is_attribute pc_set_state]. rewrite Hch. pose proof Hf as (_ & _ & -> & _ & _).
    unfold left_alone. rewrite (@app_nth1 Z w [c] 0 (pred n)), Hkey, andb_assoc by lia.
    destruct (o_attr O && negb (entity_key T e =? 0x3B) && _).
    + exists (pc_set_state PC_ref_data p). split; [exact Hf | by split].
    + rewrite Hx, Hsz, Hv. cbn [default]. destruct (entity_key T e =? 0x3B); eexists.
      * split; [|split; [by erewrite (replace_entity_spec (pc_error _ _ _)) | done]]. exact Hf.
      * split; [|split; [by erewrite (replace_entity_spec (pc_set_state _ _)) | done]]. exact Hf.
  - rewrite Hm. exists (pc_set_state PC_ambiguous_ampersand p). split; [exact Hf|]. split; [|done].
    f_equal. f_equal. unfold set_length.
    change (o ++ 0x26 :: w ++ [c]) with (o ++ (0x26 :: w) ++ [c]). rewrite app_assoc. apply take_app_length'.
    unfold str_len. rewrite length_app. cbn [length]. lia.
Qed.

(** A name, from the group [i] after the bytes [w]. *)
Lemma named_loop_post fuel : forall l data p str i w best o,
  bytes_at rd data l -> (length l <= fuel)%nat -> name_state T w i best -> match_is p o best ->
  pc_tmp p = str_len o -> entity_begin p <= data ->
  str ++ read_range rd (entity_begin p) data = o ++ 0x26 :: w -> flags false p -> pc_st p = PC_named ->
  w <> [] \/ not_hash l ->
  call_post 2 o (0x26 :: w) l data (named_loop T rd fuel p str i data (data + Z.of_nat (length l))).
Proof.
  induction fuel as [|fuel IH]; intros l data p str i w best o Hl Hfuel Hn Hm Ht Hb Hstr Hf Hst Hw.
  1,2: destruct l as [|c l]; [|cbn in Hfuel; try lia].
  1,2: cbn [length named_loop]; rewrite Z.add_0_r, Z.eqb_refl, Hstr; exists [], [], o, (0x26 :: w);
    cbn [length app]; rewrite Z.add_0_r; repeat (split; [done || exact Hf|]); split; [|split; [done | by left]];
    by eapply (sh_named _ _ _ w i best).
  cbn [length bytes_at] in *. destruct Hl as [Hc Hl]. cbn [named_loop].
  rewrite (proj2 (Z.eqb_neq _ _)) by lia. rewrite Hc.
  assert (Happ : str ++ read_range rd (entity_begin p) (data + 1) = o ++ 0x26 :: w ++ [c]).
  { rewrite read_range_snoc, Hc, app_assoc, Hstr by lia. by rewrite <- app_assoc. }
  destruct (lexbor_sbst_entry_static_find T i c) as [j|] eqn:Ej.
  - destruct (name_state_step T table_ok w i best c j Hn Ej) as [Hn' _].
    change (c :: l) with ([c] ++ l).
    assert (Hstr2 : (if data =? entity_begin p then str else str ++ read_range rd (entity_begin p) data) = o ++ 0x26 :: w).
    { destruct (Z.eqb_spec data (entity_begin p)) as [E|]; [|done].
      by rewrite <- E, read_range_nil, app_nil_r in Hstr. }
    assert (Hlen : str_len (o ++ 0x26 :: w) = str_len o + 1 + Z.of_nat (length w))
      by (unfold str_len; rewrite length_app; cbn; lia).
    destruct (entity_value T j) as [v|] eqn:Ev.
    + apply (post_step 2 o (0x26 :: w) o (0x26 :: w ++ [c])); [done | | intros q; cbn [app]; by rewrite <- app_assoc].
      replace (data + Z.of_nat (S (length l))) with (data + 1 + Z.of_nat (length l)) by lia.
      eapply IH; [exact Hl | lia | exact Hn' | | exact Ht | cbn; lia | | exact Hf | exact Hst | by left; destruct w].
      * cbn. split; [done|]. rewrite Hstr2. lia.
      * cbn. rewrite Hstr2, read_range_snoc, read_range_nil, Hc by lia. cbn [app]. by rewrite <- app_assoc.
    + apply (post_step 2 o (0x26 :: w) o (0x26 :: w ++ [c])); [done | | intros q; cbn [app]; by rewrite <- app_assoc].
      replace (data + Z.of_nat (S (length l))) with (data + 1 + Z.of_nat (length l)) by lia.
      eapply IH; [exact Hl | lia | exact Hn' | exact Hm | exact Ht | lia | exact Happ | exact Hf | exact Hst
                 | by left; destruct w].
  - rewrite Happ. destruct (named_done_spec false p o w i best c data Hn Hm Ht Hf) as (p' & Hf' & -> & Hst').
    assert (Hdec : forall q, dec (0x26 :: w ++ (c :: l) ++ q) = _)
      by (intros q; by apply (dec_named w i best ((c :: l) ++ q))).
    cbn [hd tail app] in Hdec.
    destruct best as [[[n e] v]|].
    + destruct (o_attr O && left_alone n (w ++ [c])).
      * exists [c], l, (o ++ 0x26 :: w ++ [c]), []. repeat (split; [done || exact Hf'|]).
        split; [constructor; [by rewrite Hst', mode_ref | done]|]. split; [|by right; left].
        intros q. cbn [app]. rewrite Hdec, <- !app_assoc. cbn [app]. by rewrite <- app_assoc.
      * exists [], (c :: l), (o ++ v ++ drop n w), []. cbn [length]. split; [lia|].
        repeat (split; [done || exact Hf'|]).
        split; [constructor; [by rewrite Hst', mode_ref | done]|]. split; [|right; right; rewrite Hst'; cbn; lia].
        intros q. cbn [app]. by rewrite Hdec, <- !app_assoc.
    + exists [], (c :: l), (o ++ 0x26 :: w), []. cbn [length]. split; [lia|].
      repeat (split; [done || exact Hf'|]). split; [by apply sh_ambiguous|].
      split; [|right; right; rewrite Hst'; cbn; lia]. intros q. cbn [app]. by rewrite Hdec, <- !app_assoc.
Qed.
End Ref.
(** ** Numbers *)

Lemma numeric_end_spec eof p str o v data end_ : take (length o) str = o -> entity_str_len p = str_len o ->
  saturated (pc_tmp p) v -> flags eof p ->
  exists p', flags eof p' /\ pc_st p' = pc_st p /\
    lxb_html_parser_char_ref_numeric_end p str data end_ = (p', o ++ numeric_value v, data).
Proof.
  intros Ho He Hsat Hf. unfold lxb_html_parser_char_ref_numeric_end, numeric_value, set_length.
  rewrite He. unfold str_len. rewrite Nat2Z.id, Ho, !Z.gtb_ltb, !Z.geb_leb.
  destruct Hsat as [->|[H1 H2]].
  - destruct (v =? 0); cbn [orb]; [eexists; split; [|split; [|reflexivity]]; [exact Hf | done]|].
    destruct (0x10FFFF <? v); cbn [orb]; [eexists; split; [|split; [|reflexivity]]; [exact Hf | done]|].
    destruct ((0xD800 <=? v) && (v <=? 0xDFFF)); [eexists; split; [|split; [|reflexivity]]; [exact Hf | done]|].
    eexists; split; [|split; [|reflexivity]]; repeat case_match; first [exact Hf | reflexivity].
  - rewrite (proj2 (Z.eqb_neq (pc_tmp p) 0)), (proj2 (Z.eqb_neq v 0)), !(proj2 (Z.ltb_lt _ _)) by lia. cbn [orb].
    eexists; split; [|split; [|reflexivity]]; [exact Hf | done].
Qed.

Section Digits.
Context (base : Z) (table : list Z) (add : Z -> Z -> Z) (pre : list Z).
Context (add_ok : forall n c, 0 <= n -> is_digit table c = true ->
  0 <= tbl table c /\ add n (tbl table c) = n * base + tbl table c).
Context (base_pos : 1 <= base).

Lemma digits_value_snoc ds c :
  digits_value base table (ds ++ [c]) = digits_value base table ds * base + tbl table c.
Proof. unfold digits_value. by rewrite fold_left_app. Qed.

Lemma digits_value_pos ds : forallb (is_digit table) ds = true -> 0 <= digits_value base table ds.
Proof.
  induction ds as [|c ds IH] using rev_ind; intros H; [done|]. rewrite forallb_app in H.
  apply andb_true_iff in H as [Hds Hc]. cbn in Hc. rewrite andb_true_r in Hc. rewrite digits_value_snoc.
  destruct (add_ok 0 c ltac:(lia) Hc). specialize (IH Hds). nia.
Qed.

Lemma saturated_snoc n ds c : forallb (is_digit table) ds = true -> is_digit table c = true ->
  saturated n (digits_value base table ds) ->
  saturated (if n <=? 0x10FFFF then add n (tbl table c) else n) (digits_value base table (ds ++ [c])).
Proof.
  intros Hds Hc Hs. rewrite digits_value_snoc. pose proof (digits_value_pos ds Hds) as H0.
  destruct (add_ok (digits_value base table ds) c H0 Hc) as [H1 H2].
  unfold saturated in *. destruct (Z.leb_spec n 0x10FFFF); [|right; nia].
  destruct Hs as [->|]; [by left | lia].
Qed.

Lemma span_all ds z : forallb (is_digit table) ds = true ->
  match z with c :: _ => is_digit table c = false | [] => True end -> span (is_digit table) (ds ++ z) = (ds, z).
Proof.
  induction ds as [|c ds IH]; intros Hds Hz.
  - destruct z as [|c z]; [done|]. cbn. by rewrite Hz.
  - cbn [app forallb span] in *. apply andb_true_iff in Hds as [-> Hds]. by rewrite (IH Hds Hz).
Qed.

Lemma numeric_reference_all ds z : ds <> [] -> forallb (is_digit table) ds = true ->
  match z with c :: _ => is_digit table c = false | [] => True end ->
  numeric_reference base table (ds ++ z) = Some (numeric_value (digits_value base table ds), drop_byte 0x3B z).
Proof. intros Hne Hds Hz. unfold numeric_reference. rewrite span_all by done. by destruct ds. Qed.

(** The digits of a buffer, [ds] being those read from all of them. *)
Lemma digits_loop_spec fuel : forall l data p str begin_ ds o,
  bytes_at rd data l -> (length l <= fuel)%nat -> begin_ <= data ->
  str ++ read_range rd begin_ data = o ++ pre ++ ds -> (length (o ++ pre) <= length str)%nat ->
  entity_str_len p = str_len o -> saturated (pc_tmp p) (digits_value base table ds) ->
  forallb (is_digit table) ds = true -> flags false p ->
  exists l1 l2 p' str', l = l1 ++ l2 /\ flags false p' /\ forallb (is_digit table) (ds ++ l1) = true /\
    match l2 with
    | [] =>
        digits_loop rd fuel table add p str begin_ data (data + Z.of_nat (length l)) =
          (p', str', data + Z.of_nat (length l)) /\
        pc_st p' = pc_st p /\ str' = o ++ pre ++ ds ++ l1 /\ entity_str_len p' = str_len o /\
        saturated (pc_tmp p') (digits_value base table (ds ++ l1))
    | c :: l3 =>
        is_digit table c = false /\ pc_st p' = PC_ref_data /\
        str' = o ++ numeric_value (digits_value base table (ds ++ l1)) /\
        digits_loop rd fuel table add p str begin_ data (data + Z.of_nat (length l)) =
          (p', str', data + Z.of_nat (length l1) + (if c =? 0x3B then 1 else 0))
    end.
Proof.
  induction fuel as [|fuel IH]; intros l data p str begin_ ds o Hl Hfuel Hb Hstr Hlen He Hs Hds Hf.
  1,2: destruct l as [|c l]; [|cbn in Hfuel; try lia].
  1,2: exists [], [], p, (str ++ read_range rd begin_ data); cbn [length digits_loop];
    rewrite Z.add_0_r, Z.eqb_refl, !app_nil_r; by repeat (split; [done|]).
  cbn [length bytes_at] in *. destruct Hl as [Hc Hl]. cbn [digits_loop].
  rewrite (proj2 (Z.eqb_neq _ _)) by lia. rewrite Hc. fold (tbl table c).
  destruct (tbl table c =? LEXBOR_STR_RES_SLIP) eqn:Ed.
  - exists [], (c :: l).
    destruct (numeric_end_spec false (pc_set_state PC_ref_data p) str o (digits_value base table ds)
      (if c =? 0x3B then data + 1 else data) (data + Z.of_nat (S (length l)))) as (p' & Hf' & Hst & Hr);
      [|done|done|exact Hf|].
    { rewrite <- (take_app_le str (read_range rd begin_ data)) by (rewrite length_app in Hlen; lia).
      rewrite Hstr. apply take_app_length. }
    exists p', (o ++ numeric_value (digits_value base table ds)). rewrite app_nil_r. cbn [length].
    repeat (split; [done|]). split; [unfold is_digit; by rewrite Ed|]. split; [done|]. split; [done|].
    rewrite Hr. f_equal. destruct (c =? 0x3B); lia.
  - assert (Hdc : is_digit table c = true) by (unfold is_digit; by rewrite Ed).
    edestruct (IH l (data + 1) (if pc_tmp p <=? 0x10FFFF then pc_set_tmp (add (pc_tmp p) (tbl table c)) p else p)
      str begin_ (ds ++ [c]) o) as (l1 & l2 & p' & str' & -> & Hf' & Hds' & Hres);
      [exact Hl | lia | lia | | done | | | | |].
    + by rewrite read_range_snoc, Hc, app_assoc, Hstr, <- !app_assoc by lia.
    + by destruct (pc_tmp p <=? 0x10FFFF).
    + pose proof (saturated_snoc _ _ _ Hds Hdc Hs) as Hs'. by destruct (pc_tmp p <=? 0x10FFFF).
    + rewrite forallb_app, Hds. cbn. by rewrite Hdc.
    + destruct (pc_tmp p <=? 0x10FFFF); exact Hf.
    + exists (c :: l1), l2, p', str'. split; [done|]. split; [done|]. rewrite <- app_assoc in Hds', Hres.
      split; [exact Hds'|].
      replace (data + Z.of_nat (S (length (l1 ++ l2)))) with (data + 1 + Z.of_nat (length (l1 ++ l2))) by lia.
      destruct l2 as [|c2 l2].
      * destruct Hres as (-> & Hst & Hres). split; [done|]. split; [|exact Hres].
        rewrite Hst. by destruct (pc_tmp p <=? 0x10FFFF).
      * destruct Hres as (? & ? & ? & ->). repeat (split; [done|]). f_equal. cbn [length]. lia.
Qed.
End Digits.
End Proof.
