(* ===== verification/ParserCharRun.v ===== *)
(** * The decoder computes its reference: every state, every cut

    The remaining states of the decoder keep what [ParserCharProof] says, so the
    loop over a buffer does, and the loop over the buffers of a span; the end of
    the file completes what is pending. *)
From S2P Require Import Prelude.
From S2P Require Import Str.
From S2P Require Import In.
From S2P Require Import HtmlIn.
From S2P Require Import TkzBase.
From S2P Require Import TokenData.
From S2P Require Import Sbst.
From S2P Require Import ParserChar.
From S2P Require Import ParserCharSpec.
From S2P Require Import ParserCharName.
From S2P Require Import ParserCharProof.

(** ** Digits *)

Definition digits_in (base : Z) (table : list Z) : bool :=
  forallb (fun c => (tbl table c =? LEXBOR_STR_RES_SLIP) || ((0 <=? tbl table c) && (tbl table c <? base))) bytes256.

Lemma digits_in_range base table c : digits_in base table = true -> length table = 256%nat ->
  is_digit table c = true -> 0 <= tbl table c < base.
Proof.
  intros Ht Hl Hc. unfold is_digit in Hc. apply negb_true_iff in Hc.
  destruct (decide (0 <= c < 256)) as [Hb|Hb]; [|by rewrite tbl_out in Hc].
  unfold digits_in in Ht. rewrite forallb_forall in Ht. specialize (Ht c (byte_in_bytes256 c Hb)).
  rewrite Hc in Ht. cbn [orb] in Ht. apply andb_true_iff in Ht as [? ?]. bool_to_prop. lia.
Qed.

Lemma lor_shift n d : 0 <= d < 16 -> Z.lor (Z.shiftl n 4) d = n * 16 + d.
Proof.
  intros Hd. assert (Z.land (Z.shiftl n 4) d = 0) as H0.
  { apply Z.bits_inj'. intros k Hk. rewrite Z.land_spec, Z.bits_0. destruct (Z.ltb_spec k 4).
    - by rewrite Z.shiftl_spec_low.
    - rewrite (Z.bits_above_log2 d k), andb_false_r; [done | lia |].
      destruct (Z.eq_dec d 0) as [->|]; [cbn; lia|]. apply Z.log2_lt_pow2; [lia|].
      apply Z.lt_le_trans with (2 ^ 4); [lia | apply Z.pow_le_mono_r; lia]. }
  pose proof (Z.add_lor_land (Z.shiftl n 4) d) as E. rewrite H0, Z.add_0_r in E. rewrite E.
  by rewrite Z.shiftl_mul_pow2.
Qed.

Lemma hex_add n c : 0 <= n -> is_digit lexbor_str_res_map_hex c = true ->
  0 <= tbl lexbor_str_res_map_hex c /\
  Z.lor (Z.shiftl n 4) (tbl lexbor_str_res_map_hex c) = n * 16 + tbl lexbor_str_res_map_hex c.
Proof.
  intros _ Hc. assert (Hr : 0 <= tbl lexbor_str_res_map_hex c < 16)
    by (apply digits_in_range; [by vm_compute | done | done]).
  split; [lia | by apply lor_shift].
Qed.

Lemma num_add n c : 0 <= n -> is_digit lexbor_str_res_map_num c = true ->
  0 <= tbl lexbor_str_res_map_num c /\
  tbl lexbor_str_res_map_num c + n * 10 = n * 10 + tbl lexbor_str_res_map_num c.
Proof.
  intros _ Hc. assert (Hr : 0 <= tbl lexbor_str_res_map_num c < 10)
    by (apply digits_in_range; [by vm_compute | done | done]).
  lia.
Qed.

Section Run.
Context (T : sbst) (table_ok : tree_ok T (sbst_height T) 1 0 256 1 = true).
Context (no_semicolon : lexbor_sbst_entry_static_find T 1 0x3B = None).
Context (rd : Z -> Z) (O : options).

(** ** One call *)

(** A name begins with an alphanumeric. *)
Lemma find_alnum c : is_alnum c = false -> lexbor_sbst_entry_static_find T 1 c = None.
Proof.
  intros Hc. destruct (lexbor_sbst_entry_static_find T 1 c) as [j|] eqn:Ej; [|done].
  destruct (group_find T table_ok 1 1 c j (group_first T) Ej) as (x & _ & Hk & Hok).
  unfold entry_ok in Hok. rewrite Hk, Hc in Hok. cbn [orb] in Hok.
  destruct (Z.eqb_spec c 0x3B) as [->|]; [by rewrite no_semicolon in Ej | done].
Qed.

Section Ref.
Context (mode_ref : o_mode O = CM_ref).

(** An ampersand that begins no reference. *)
Lemma dec_bare_ampersand q : reference T (o_attr O) q = None -> dec T O (0x26 :: q) = 0x26 :: dec T O q.
Proof. intros H. by rewrite (dec_amp T O mode_ref), H. Qed.

Lemma reference_not_alnum c q : is_alnum c = false -> c <> 0x23 -> reference T (o_attr O) (c :: q) = None.
Proof.
  intros Ha Hc. rewrite reference_name by done. unfold named_reference.
  rewrite (longest_name_from T). cbn [longest_from]. by rewrite find_alnum.
Qed.

Lemma dec_not_hex x z : (x =? 0x78) || (x =? 0x58) = true ->
  match z with c :: _ => is_digit lexbor_str_res_map_hex c = false | [] => True end ->
  dec T O (0x26 :: 0x23 :: x :: z) = 0x26 :: 0x23 :: x :: dec T O z.
Proof.
  intros Hx Hz. rewrite dec_bare_ampersand.
  - rewrite !(dec_plain_ref T O mode_ref); [done|..]; try done; intros ->; discriminate Hx.
  - cbn [reference Z.eqb Pos.eqb]. rewrite Hx. unfold numeric_reference. destruct z as [|c z]; [done|].
    cbn [span]. by rewrite Hz.
Qed.

Lemma dec_not_decimal z :
  match z with
  | c :: _ => (c =? 0x78) || (c =? 0x58) = false /\ is_digit lexbor_str_res_map_num c = false
  | [] => True
  end -> dec T O (0x26 :: 0x23 :: z) = 0x26 :: 0x23 :: dec T O z.
Proof.
  intros Hz. rewrite dec_bare_ampersand.
  - by rewrite (dec_plain_ref T O mode_ref).
  - cbn [reference Z.eqb Pos.eqb]. destruct z as [|c z]; [done|]. destruct Hz as [-> Hz].
    unfold numeric_reference. cbn [span]. by rewrite Hz.
Qed.

Lemma dec_hex x ds z : (x =? 0x78) || (x =? 0x58) = true -> ds <> [] ->
  forallb (is_digit lexbor_str_res_map_hex) ds = true ->
  match z with c :: _ => is_digit lexbor_str_res_map_hex c = false | [] => True end ->
  dec T O ([0x26; 0x23; x] ++ ds ++ z) =
  numeric_value (digits_value 16 lexbor_str_res_map_hex ds) ++ dec T O (drop_byte 0x3B z).
Proof.
  intros Hx Hne Hds Hz. cbn [app]. rewrite (dec_amp T O mode_ref). cbn [reference Z.eqb Pos.eqb].
  by rewrite Hx, numeric_reference_all.
Qed.

Lemma dec_decimal ds z : ds <> [] ->
  forallb (is_digit lexbor_str_res_map_num) ds = true ->
  match z with c :: _ => is_digit lexbor_str_res_map_num c = false | [] => True end ->
  dec T O ([0x26; 0x23] ++ ds ++ z) =
  numeric_value (digits_value 10 lexbor_str_res_map_num ds) ++ dec T O (drop_byte 0x3B z).
Proof.
  intros Hne Hds Hz. cbn [app]. rewrite (dec_amp T O mode_ref). cbn [reference Z.eqb Pos.eqb].
  destruct ds as [|d ds]; [done|]. cbn [app].
  assert ((d =? 0x78) || (d =? 0x58) = false) as ->.
  { cbn [forallb] in Hds. apply andb_true_iff in Hds as [Hd _].
    destruct (Z.eqb_spec d 0x78) as [->|]; [by vm_compute in Hd|].
    by destruct (Z.eqb_spec d 0x58) as [->|]; [vm_compute in Hd|]. }
  change (d :: ds ++ z) with ((d :: ds) ++ z). by rewrite numeric_reference_all.
Qed.
End Ref.

Lemma post_here k p str o r o0 r0 l data : flags O false p -> shape T O p str o r l ->
  (forall q, o0 ++ dec T O (r0 ++ l ++ q) = o ++ dec T O (r ++ l ++ q)) -> (rank (pc_st p) < k)%nat ->
  call_post T O k o0 r0 l data (p, str, data).
Proof.
  intros Hf Hs Hq Hk. exists [], l, o, r. cbn [length]. split; [lia|]. repeat (split; [done|]). by right; right.
Qed.

Lemma post_byte k p str o r o0 r0 c l data : flags O false p -> shape T O p str o r l ->
  (forall q, o0 ++ dec T O (r0 ++ c :: l ++ q) = o ++ dec T O (r ++ l ++ q)) ->
  call_post T O k o0 r0 (c :: l) data (p, str, data + 1).
Proof. intros Hf Hs Hq. exists [c], l, o, r. repeat (split; [done|]). by right; left. Qed.

(** The two states that read digits. *)
Lemma number_call base table add pre st p str o ds l data :
  (forall n c, 0 <= n -> is_digit table c = true -> 0 <= tbl table c /\ add n (tbl table c) = n * base + tbl table c) ->
  1 <= base ->
  (forall ds z, ds <> [] -> forallb (is_digit table) ds = true ->
     match z with c :: _ => is_digit table c = false | [] => True end ->
     dec T O (pre ++ ds ++ z) = numeric_value (digits_value base table ds) ++ dec T O (drop_byte 0x3B z)) ->
  (forall p str ds, pc_st p = st -> entity_str_len p = str_len o ->
     saturated (pc_tmp p) (digits_value base table ds) -> forallb (is_digit table) ds = true -> ds <> [] ->
     str = o ++ pre ++ ds -> shape T O p str o (pre ++ ds) []) ->
  o_mode O = CM_ref -> l <> [] -> bytes_at rd data l -> pc_st p = st -> entity_str_len p = str_len o ->
  saturated (pc_tmp p) (digits_value base table ds) -> forallb (is_digit table) ds = true ->
  (ds <> [] \/ match l with c :: _ => is_digit table c = true | [] => False end) ->
  str = o ++ pre ++ ds -> flags O false p ->
  call_post T O 1 o (pre ++ ds) l data
    (digits_loop rd (Z.to_nat (data + Z.of_nat (length l) - data)) table add p str data data
       (data + Z.of_nat (length l))).
Proof.
  intros Hadd Hbase Hdec Hshape HM Hne Hl Hst He Hs Hds Hd -> Hf.
  destruct (digits_loop_spec rd O base table add pre Hadd Hbase (Z.to_nat (data + Z.of_nat (length l) - data))
    l data p (o ++ pre ++ ds) data ds o) as (l1 & l2 & p' & str' & -> & Hf' & Hds' & Hres);
    try done; [lia | by rewrite read_range_nil, app_nil_r | rewrite !length_app; lia |].
  destruct l2 as [|c l2].
  - destruct Hres as (-> & Hst' & -> & He' & Hs'). rewrite app_nil_r in Hne |- *.
    exists l1, [], o, (pre ++ ds ++ l1). rewrite app_nil_r. split; [done|]. split; [done|]. split; [done|].
    split; [apply Hshape; [congruence | done | done | done | by destruct ds, l1 | done]|].
    split; [|by right; left]. intros q. by rewrite <- !app_assoc.
  - destruct Hres as (Hc & Hst' & -> & ->).
    assert (Hne' : ds ++ l1 <> []) by (destruct ds, l1; try done; destruct Hd as [?|Hd]; [done | cbn in Hd; congruence]).
    assert (Hq : forall q, dec T O ((pre ++ ds) ++ (l1 ++ c :: l2) ++ q) =
      numeric_value (digits_value base table (ds ++ l1)) ++ dec T O (drop_byte 0x3B (c :: l2 ++ q))).
    { intros q. rewrite <- (Hdec (ds ++ l1) (c :: l2 ++ q)) by done. by rewrite <- !app_assoc. }
    assert (Hsh : forall l', shape T O p' (o ++ numeric_value (digits_value base table (ds ++ l1)))
      (o ++ numeric_value (digits_value base table (ds ++ l1))) [] l') by (intros l'; constructor; [by rewrite HM|done]).
    cbn [drop_byte] in Hq. destruct (c =? 0x3B).
    + exists (l1 ++ [c]), l2, (o ++ numeric_value (digits_value base table (ds ++ l1))), [].
      rewrite length_app. cbn [length]. split; [lia|]. split; [by rewrite <- app_assoc|].
      split; [done|]. split; [done|]. split; [intros q; by rewrite Hq, app_assoc | by right; left; destruct l1].
    + exists l1, (c :: l2), (o ++ numeric_value (digits_value base table (ds ++ l1))), [].
      split; [lia|]. split; [done|]. split; [done|]. split; [done|].
      split; [intros q; by rewrite Hq, app_assoc | right; right; rewrite Hst'; cbn; lia].
Qed.

Lemma ref_state_call p str o l data : o_mode O = CM_ref -> pc_st p = PC_ref_state -> str = o ++ [0x26] ->
  l <> [] -> bytes_at rd data l -> flags O false p ->
  call_post T O 4 o [0x26] l data (lxb_html_parser_char_ref_state rd p str data (data + Z.of_nat (length l))).
Proof.
  intros HM Hst -> Hne Hl Hf. destruct l as [|c l]; [done|]. destruct Hl as [Hc Hl].
  unfold lxb_html_parser_char_ref_state. rewrite Hc. destruct (is_alnum c) eqn:Ha.
  - apply (post_here _ _ _ o [0x26]); [exact Hf | | done | cbn; lia].
    apply (sh_named T O _ _ o [] 1 None); try done; [apply name_state_nil | cbn; unfold str_len; rewrite length_app; cbn; lia |].
    right. cbn. intros ->. by vm_compute in Ha.
  - destruct (Z.eqb_spec c 0x23) as [->|Hh].
    + apply (post_byte _ _ _ o [0x26; 0x23]); [exact Hf | | done].
      apply sh_numeric; try done; [cbn; unfold str_len; rewrite !length_app; cbn; lia | by rewrite <- app_assoc].
    + apply (post_here _ _ _ (o ++ [0x26]) []); [exact Hf | by constructor; [rewrite HM|] | | cbn; lia].
      intros q. cbn [app]. rewrite (dec_bare_ampersand HM), <- app_assoc; [done | by apply reference_not_alnum].
Qed.

Lemma numeric_call p str o l data : o_mode O = CM_ref -> pc_st p = PC_numeric -> entity_str_len p = str_len o ->
  str = o ++ [0x26; 0x23] -> l <> [] -> bytes_at rd data l -> flags O false p ->
  call_post T O 3 o [0x26; 0x23] l data (lxb_html_parser_char_ref_state_numeric rd p str data (data + Z.of_nat (length l))).
Proof.
  intros HM Hst He -> Hne Hl Hf. destruct l as [|c l]; [done|]. destruct Hl as [Hc Hl].
  unfold lxb_html_parser_char_ref_state_numeric. rewrite Hc. destruct ((c =? 0x78) || (c =? 0x58)) eqn:Hx.
  - apply (post_byte _ _ _ o [0x26; 0x23; c]); [exact Hf | | done].
    apply sh_hexademical_start; try done. by rewrite <- app_assoc.
  - apply (post_here _ _ _ o [0x26; 0x23]); [exact Hf | by apply sh_decimal_start | done | cbn; lia].
Qed.

(** Every state, on the bytes of a buffer. *)
Lemma call_ok p str o r l data : l <> [] -> bytes_at rd data l -> flags O false p -> shape T O p str o r l ->
  call_post T O (rank (pc_st p)) o r l data (call_pc T rd p str data (data + Z.of_nat (length l))).
Proof.
  intros Hne Hl Hf Hs. unfold call_pc.
  destruct Hs as [l Hst Hstr|l Hst Hstr|l HM Hst Hstr|w i best l HM Hst Hn He Ht Hm Hstr Hw|l HM Hst Hstr
    |l HM Hst He Hstr|x l HM Hst He Ht Hx Hstr|c l HM Hst He Ht Hx Hstr|x ds l HM Hst He Ht Hx Hds Hd Hstr
    |ds l HM Hst He Ht Hds Hd Hstr]; rewrite Hst; cbn [rank].
  - pose proof (data_loop_post T rd O (Z.to_nat (data + Z.of_nat (length l) - data)) l data p str data _
      Hl eq_refl ltac:(lia) ltac:(lia) Hf Hst) as Hp.
    rewrite read_range_nil, app_nil_r, Hstr in Hp. rewrite Hstr. clear Hst. destruct (o_mode O); exact Hp.
  - destruct l as [|c l]; [done|]. destruct Hl as [Hc Hl].
    assert (Hp : call_post T O 1 o [0x0D] (c :: l) data
      (check_lf rd (mode_state (o_mode O)) p str data (data + Z.of_nat (length (c :: l))))).
    { unfold check_lf. rewrite Hc. destruct (Z.eqb_spec c 0x0A) as [->|Hc'].
      - apply (post_byte _ _ _ str []); [exact Hf | by constructor |]. intros q. rewrite Hstr. cbn [app].
        rewrite dec_cr. cbn [drop_byte Z.eqb Pos.eqb]. by rewrite <- app_assoc.
      - apply (post_here _ _ _ str []); [exact Hf | by constructor | |]; [|cbn; destruct (o_mode O); cbn; lia].
        intros q. rewrite Hstr. cbn [app]. rewrite dec_cr. cbn [drop_byte].
        by rewrite (proj2 (Z.eqb_neq _ _) Hc'), <- app_assoc. }
    clear Hst. destruct (o_mode O); exact Hp.
  - by apply ref_state_call.
  - unfold lxb_html_parser_char_ref_state_named. rewrite He.
    eapply (named_loop_post T table_ok rd O HM) with (best := best); try done; [lia|].
    cbn. by rewrite read_range_nil, app_nil_r.
  - unfold lxb_html_parser_char_ref_state_ambiguous_ampersand.
    apply (post_here _ _ _ o []); [by destruct (rd data =? 0x3B) | by constructor; [rewrite HM|] | done | cbn; lia].
  - by apply numeric_call.
  - destruct l as [|c l]; [done|]. destruct Hl as [Hc Hl].
    unfold lxb_html_parser_char_ref_state_hexademical_start, numeric_start. rewrite Hc.
    fold (is_digit lexbor_str_res_map_hex c). destruct (is_digit lexbor_str_res_map_hex c) eqn:Hd.
    + apply (post_here _ _ _ o ([0x26; 0x23; x] ++ [])); [exact Hf | | done | cbn; lia].
      apply sh_hexademical; try done; [by left; cbn | by right].
    + apply (post_here _ _ _ str []); [exact Hf | by constructor; [rewrite HM|] | | cbn; lia].
      intros q. cbn [app]. rewrite (dec_not_hex HM), Hstr, <- app_assoc; done.
  - destruct Hl as [Hc Hl].
    unfold lxb_html_parser_char_ref_state_decimal_start, numeric_start. rewrite Hc.
    fold (is_digit lexbor_str_res_map_num c). destruct (is_digit lexbor_str_res_map_num c) eqn:Hd.
    + apply (post_here _ _ _ o ([0x26; 0x23] ++ [])); [exact Hf | | done | cbn; lia].
      apply sh_decimal; try done; [by left; cbn | by right].
    + apply (post_here _ _ _ str []); [exact Hf | by constructor; [rewrite HM|] | | cbn; lia].
      intros q. cbn [app]. rewrite (dec_not_decimal HM), Hstr, <- app_assoc; done.
  - apply (number_call 16 lexbor_str_res_map_hex (fun n d => Z.lor (Z.shiftl n 4) d) [0x26; 0x23; x] PC_hexademical);
      try done; [exact hex_add | |]; intros.
    + by apply (dec_hex HM).
    + apply sh_hexademical; try done; by left.
  - apply (number_call 10 lexbor_str_res_map_num (fun n d => d + n * 10) [0x26; 0x23] PC_decimal);
      try done; [exact num_add | |]; intros.
    + by apply (dec_decimal HM).
    + apply sh_decimal; try done; by left.
Qed.

(** ** A buffer *)

Lemma pc_run_step fuel p str data end_ : data < end_ ->
  pc_run T rd (S fuel) p str data end_ =
  let '(p, str, data) := call_pc T rd p str data end_ in pc_run T rd fuel p str data end_.
Proof. intros H. cbn [pc_run]. by rewrite (proj2 (Z.ltb_lt _ _) H). Qed.

Lemma pc_run_end fuel p str data end_ : end_ <= data -> pc_run T rd fuel p str data end_ = Some (p, str).
Proof. intros H. destruct fuel; cbn [pc_run]; by rewrite (proj2 (Z.ltb_ge _ _) H). Qed.

Lemma pc_run_ok fuel : forall l data p str o r,
  bytes_at rd data l -> flags O false p -> shape T O p str o r l -> (6 * length l + rank (pc_st p) < fuel)%nat ->
  exists p' str' o' r', pc_run T rd fuel p str data (data + Z.of_nat (length l)) = Some (p', str') /\
    flags O false p' /\ shape T O p' str' o' r' [] /\
    forall q, o ++ dec T O (r ++ l ++ q) = o' ++ dec T O (r' ++ q).
Proof.
  induction fuel as [|fuel IH]; intros l data p str o r Hl Hf Hs Hfuel; [lia|].
  destruct (decide (l = [])) as [->|Hne].
  { exists p, str, o, r. split; [apply pc_run_end; cbn; lia|]. by split. }
  rewrite pc_run_step by (destruct l; [done | cbn; lia]).
  destruct (call_ok p str o r l data Hne Hl Hf Hs) as (l1 & l2 & o1 & r1 & Hp).
  destruct (call_pc T rd p str data (data + Z.of_nat (length l))) as [[p1 str1] d1].
  destruct Hp as (-> & -> & Hf1 & Hs1 & Hq & Hk). apply bytes_at_app in Hl as [_ Hl].
  rewrite length_app in Hfuel. assert (Hr : (rank (pc_st p1) <= 4)%nat) by (destruct (pc_st p1); cbn; lia).
  destruct (IH l2 (data + Z.of_nat (length l1)) p1 str1 o1 r1 Hl Hf1 Hs1) as (p' & str' & o' & r' & Hrun & Hf' & Hs' & Hq').
  { destruct Hk as [?|[Hk|Hk]]; [done | destruct l1; [done|]; cbn [length] in *; lia | lia]. }
  exists p', str', o', r'.
  replace (data + Z.of_nat (length (l1 ++ l2))) with (data + Z.of_nat (length l1) + Z.of_nat (length l2))
    by (rewrite length_app; lia).
  split; [done|]. split; [done|]. split; [done|]. intros q. rewrite Hq. apply Hq'.
Qed.

(** What is pending at the end of a buffer is so before any bytes. *)
Lemma shape_end p str o r : shape T O p str o r [] -> forall l, shape T O p str o r l.
Proof.
  intros Hs l. inversion Hs; subst; try by constructor.
  - eapply sh_named; try done. left. match goal with H : _ <> [] \/ _ |- _ => by destruct H as [?|[]] end.
  - apply sh_hexademical; try done. left. match goal with H : _ <> [] \/ _ |- _ => by destruct H as [?|[]] end.
  - apply sh_decimal; try done. left. match goal with H : _ <> [] \/ _ |- _ => by destruct H as [?|[]] end.
Qed.

Lemma read_range_at b e : bytes_at rd b (read_range rd b e).
Proof. unfold read_range. generalize (Z.to_nat (e - b)). intros n. revert b. induction n; intros b; [done | by split]. Qed.

(** The bytes between two addresses. *)
Lemma run_range p str o r b e : flags O false p -> shape T O p str o r [] ->
  exists p' str' o' r', pc_run T rd (pc_fuel b e) p str b e = Some (p', str') /\
    flags O false p' /\ shape T O p' str' o' r' [] /\
    forall q, o ++ dec T O (r ++ read_range rd b e ++ q) = o' ++ dec T O (r' ++ q).
Proof.
  intros Hf Hs. destruct (Z.leb_spec b e) as [H|H].
  - assert (Hlen : length (read_range rd b e) = Z.to_nat (e - b)) by apply length_read_bytes.
    destruct (pc_run_ok (pc_fuel b e) (read_range rd b e) b p str o r) as (p' & str' & o' & r' & Hrun & ?);
      [apply read_range_at | done | by apply shape_end | |].
    { unfold pc_fuel. rewrite Hlen. assert (rank (pc_st p) <= 4)%nat by (destruct (pc_st p); cbn; lia). lia. }
    rewrite Hlen in Hrun. replace (b + Z.of_nat (Z.to_nat (e - b))) with e in Hrun by lia. by exists p', str', o', r'.
  - exists p, str, o, r. split; [apply pc_run_end; lia|]. split; [done|]. split; [done|]. intros q.
    unfold read_range. by replace (Z.to_nat (e - b)) with 0%nat by lia.
Qed.

(** ** The end of the file *)

Section Eof.
Context (e : Z) (eof_byte : rd e = 0).

Lemma eof_data k p str : flags O true p -> pc_st p = mode_state (o_mode O) ->
  exists p', pc_run T rd (S k) p str e (e + 1) = Some (p', str) /\ flags O true p'.
Proof.
  intros Hf Hst. exists p. split; [|done]. rewrite pc_run_step by lia. unfold call_pc. rewrite Hst.
  assert (E : forall app lf amp, char_data_state rd app lf amp p str e (e + 1) = (p, str, e + 1)).
  { intros app lf amp. unfold char_data_state. replace (Z.to_nat (e + 1 - e)) with 1%nat by lia.
    cbn [char_data_loop]. rewrite (proj2 (Z.eqb_neq e (e + 1))), eof_byte by lia.
    rewrite andb_false_r. cbn [Z.eqb]. by destruct Hf as (_ & _ & _ & _ & ->). }
  clear Hst. destruct (o_mode O); cbn [mode_state]; unfold lxb_html_parser_char_data,
    lxb_html_parser_char_data_lcase, lxb_html_parser_char_ref_data; rewrite E; apply pc_run_end; lia.
Qed.

(** A state that consumes nothing and goes to the data state. *)
Lemma eof_step k p str p' str' : flags O true p' -> pc_st p' = mode_state (o_mode O) ->
  call_pc T rd p str e (e + 1) = (p', str', e) ->
  exists p', pc_run T rd (S (S k)) p str e (e + 1) = Some (p', str') /\ flags O true p'.
Proof. intros Hf Hst Hc. rewrite pc_run_step by lia. rewrite Hc. by apply eof_data. Qed.

Lemma eof_numeric k p str o v z : o_mode O = CM_ref -> flags O true p -> take (length o) str = o ->
  entity_str_len p = str_len o -> saturated (pc_tmp p) v -> pc_st p = PC_ref_data -> z = o ++ numeric_value v ->
  exists p', (let '(p, str, data) := lxb_html_parser_char_ref_numeric_end p str e (e + 1) in
    pc_run T rd (S k) p str data (e + 1)) = Some (p', z) /\ flags O true p'.
Proof.
  intros HM Hf Ho He Hs Hst ->.
  destruct (numeric_end_spec O true p str o v e (e + 1) Ho He Hs Hf) as (p' & Hf' & Hst' & ->).
  apply eof_data; [done|]. by rewrite Hst', Hst, HM.
Qed.

Lemma eof_digits table add p str : tbl table 0 = LEXBOR_STR_RES_SLIP ->
  digits_loop rd (Z.to_nat (e + 1 - e)) table add p str e e (e + 1) =
  lxb_html_parser_char_ref_numeric_end (pc_set_state PC_ref_data p) str e (e + 1).
Proof.
  intros H. replace (Z.to_nat (e + 1 - e)) with 1%nat by lia. cbn [digits_loop].
  rewrite (proj2 (Z.eqb_neq e (e + 1))) by lia. by rewrite eof_byte, H.
Qed.

Lemma find_nul w i best : name_state T w i best -> lexbor_sbst_entry_static_find T i 0 = None.
Proof.
  intros Hn. destruct (ns_group _ _ _ _ Hn) as [Hg| ->]; [|by apply find_zero].
  destruct (lexbor_sbst_entry_static_find T i 0) as [j|] eqn:Ej; [|done].
  destruct (group_find T table_ok _ i 0 j Hg Ej) as (x & _ & Hk & Hok).
  unfold entry_ok in Hok. by rewrite Hk in Hok.
Qed.

Lemma eof_named k p str o w i best : o_mode O = CM_ref -> flags O true p -> pc_st p = PC_named ->
  name_state T w i best -> entity p = i -> pc_tmp p = str_len o -> match_is p o best -> str = o ++ 0x26 :: w ->
  w <> [] \/ not_hash [] ->
  exists p', pc_run T rd (S (S (S (S k)))) p str e (e + 1) = Some (p', o ++ dec T O (0x26 :: w)) /\ flags O true p'.
Proof.
  intros HM Hf Hst Hn He Ht Hm -> Hw. pose proof (dec_named T O HM w i best [] Hn I Hw) as Hdec.
  rewrite app_nil_r in Hdec. rewrite Hdec. clear Hdec.
  rewrite pc_run_step by lia. unfold call_pc. rewrite Hst. unfold lxb_html_parser_char_ref_state_named.
  replace (Z.to_nat (e + 1 - e)) with 1%nat by lia. cbn [named_loop].
  rewrite (proj2 (Z.eqb_neq e (e + 1))), eof_byte, He, (find_nul w i best Hn) by lia.
  cbn [entity_begin pc_set_entity_begin]. rewrite read_range_snoc, read_range_nil, eof_byte by lia. cbn [app].
  rewrite <- app_assoc. cbn [app].
  destruct (named_done_spec T O true (pc_set_entity_begin e p) o w i best 0 e Hn Hm Ht Hf) as (p' & Hf' & -> & Hst').
  cbn [hd tail]. rewrite dec_nil. destruct best as [[[n x] v]|].
  - destruct (o_attr O && left_alone n (w ++ [0])).
    + exists p'. split; [|done]. apply pc_run_end. lia.
    + rewrite app_nil_r. apply eof_data; [done | by rewrite HM].
  - rewrite app_nil_r. apply (eof_step _ p' _ (pc_set_state PC_ref_data p')); [done | by rewrite HM |].
    unfold call_pc. rewrite Hst'. unfold lxb_html_parser_char_ref_state_ambiguous_ampersand. by rewrite eof_byte.
Qed.

(** The pending construct is completed. *)
Lemma eof_ok k p str o r : flags O true p -> shape T O p str o r [] ->
  exists p', pc_run T rd (S (S (S (S k)))) p str e (e + 1) = Some (p', o ++ dec T O r) /\ flags O true p'.
Proof.
  intros Hf Hs.
  remember [] as l eqn:El in Hs.
  destruct Hs as [l Hst Hstr|l Hst Hstr|l HM Hst Hstr|w i best l HM Hst Hn He Ht Hm Hstr Hw|l HM Hst Hstr
    |l HM Hst He Hstr|x l HM Hst He Ht Hx Hstr|c l HM Hst He Ht Hx Hstr|x ds l HM Hst He Ht Hx Hds Hd Hstr
    |ds l HM Hst He Ht Hds Hd Hstr]; try discriminate El; subst l.
  - rewrite dec_nil, app_nil_r, <- Hstr. by apply eof_data.
  - rewrite dec_cr. cbn [drop_byte]. rewrite dec_nil, <- Hstr. apply (eof_step _ p str (pc_set_state (mode_state (o_mode O)) p)); [exact Hf | done |].
    unfold call_pc. rewrite Hst. destruct (o_mode O); cbn [mode_lf]; unfold lxb_html_parser_char_data_check_lf,
      lxb_html_parser_char_data_check_lf_lcase, lxb_html_parser_char_ref_check_lf, check_lf; by rewrite eof_byte.
  - rewrite (dec_bare_ampersand HM) by done. rewrite dec_nil, <- Hstr.
    apply (eof_step _ p str (pc_set_state PC_ref_data p)); [exact Hf | by rewrite HM |].
    unfold call_pc. rewrite Hst. unfold lxb_html_parser_char_ref_state. by rewrite eof_byte.
  - by apply (eof_named k p str o w i best).
  - rewrite dec_nil, app_nil_r, <- Hstr. apply (eof_step _ p str (pc_set_state PC_ref_data p)); [exact Hf | by rewrite HM |].
    unfold call_pc. rewrite Hst. unfold lxb_html_parser_char_ref_state_ambiguous_ampersand. by rewrite eof_byte.
  - rewrite (dec_not_decimal HM) by done. rewrite dec_nil, <- Hstr. rewrite pc_run_step by lia.
    unfold call_pc at 1. rewrite Hst. unfold lxb_html_parser_char_ref_state_numeric. rewrite eof_byte. cbn [Z.eqb orb].
    apply (eof_step _ _ _ (pc_set_state PC_ref_data (pc_error e ABOFDIINNUCHRE
      (pc_set_state PC_decimal_start (pc_set_tmp 0 p))))); [exact Hf | by rewrite HM|].
    unfold call_pc. cbn [pc_st pc_set_state]. unfold lxb_html_parser_char_ref_state_decimal_start, numeric_start.
    by rewrite eof_byte.
  - rewrite (dec_not_hex HM) by done. rewrite dec_nil, <- Hstr.
    apply (eof_step _ _ _ (pc_set_state PC_ref_data (pc_error e ABOFDIINNUCHRE p))); [exact Hf | by rewrite HM|].
    unfold call_pc. rewrite Hst. unfold lxb_html_parser_char_ref_state_hexademical_start, numeric_start.
    by rewrite eof_byte.
  - destruct Hd as [Hd|[]].
    pose proof (dec_hex HM x ds [] Hx Hd Hds I) as Hdec. cbn [drop_byte] in Hdec.
    rewrite dec_nil, !app_nil_r in Hdec. rewrite Hdec.
    rewrite pc_run_step by lia. unfold call_pc. rewrite Hst. unfold lxb_html_parser_char_ref_state_hexademical.
    rewrite eof_digits by done. by eapply (eof_numeric _ _ _ o); [|exact Hf|rewrite Hstr; apply take_app_length|..].
  - destruct Hd as [Hd|[]].
    pose proof (dec_decimal HM ds [] Hd Hds I) as Hdec. cbn [drop_byte] in Hdec.
    rewrite dec_nil, !app_nil_r in Hdec. rewrite Hdec.
    rewrite pc_run_step by lia. unfold call_pc. rewrite Hst. unfold lxb_html_parser_char_ref_state_decimal.
    rewrite eof_digits by done. by eapply (eof_numeric _ _ _ o); [|exact Hf|rewrite Hstr; apply take_app_length|..].
Qed.
End Eof.

(** ** A span of the chain *)

(** What is pending does not depend on the end-of-file flag. *)
Lemma shape_eof p str o r : shape T O p str o r [] -> shape T O (pc_set_is_eof true p) str o r [].
Proof.
  intros Hs. inversion Hs; subst; try by constructor.
  eapply sh_named; done.
Qed.

Lemma nodes_ok (eof_byte : rd lxb_html_parser_char_eof = 0) m fuel : forall i b e acc s p str o r,
  make_data_loop m rd fuel i b e acc = Some (LXB_STATUS_OK, s) ->
  flags O false p -> shape T O p str o r [] ->
  exists p' l, s = acc ++ l /\ pc_nodes T m rd fuel p str i b e = Some (p', LXB_STATUS_OK, o ++ dec T O (r ++ l)) /\
    flags O true p'.
Proof.
  induction fuel as [|fuel IH]; intros i b e acc s p str o r Hm Hf Hs; [done|].
  cbn [make_data_loop pc_nodes] in *. destruct (m !! i) as [n|]; cbn [mbind option_bind] in *; [|done].
  destruct (lexbor_in_segment n e).
  - injection Hm as <-. destruct (run_range p str o r b e Hf Hs) as (p1 & str1 & o1 & r1 & -> & Hf1 & Hs1 & Hq).
    cbn [mbind option_bind]. pose proof Hf1 as (H1 & H2 & H3 & -> & _). cbn [negb Z.eqb].
    change (pc_fuel lxb_html_parser_char_eof (lxb_html_parser_char_eof + 1)) with 12%nat.
    assert (Hf2 : flags O true (pc_set_is_eof true p1)) by (destruct Hf1 as (? & ? & ? & ? & _); by repeat split).
    assert (Hs2 : shape T O (pc_set_is_eof true p1) str1 o1 r1 []) by (by apply shape_eof).
    destruct (eof_ok _ eof_byte 8 _ _ _ _ Hf2 Hs2) as (p2 & -> & Hf3). cbn [mbind option_bind].
    exists p2, (read_range rd b e). split; [done|]. split; [|done]. destruct Hf3 as (_ & _ & _ & -> & _).
    specialize (Hq []). rewrite !app_nil_r in Hq. by rewrite Hq.
  - destruct (run_range p str o r b (in_end n) Hf Hs) as (p1 & str1 & o1 & r1 & -> & Hf1 & Hs1 & Hq).
    cbn [mbind option_bind]. pose proof Hf1 as (_ & _ & _ & -> & _). cbn [negb Z.eqb].
    destruct (in_next n) as [nx|]; [|done]. destruct (m !! nx) as [nn|]; cbn [mbind option_bind] in *; [|done].
    destruct (IH nx (in_begin nn) e _ s p1 str1 o1 r1 Hm Hf1 Hs1) as (p' & l & -> & -> & Hf').
    exists p', (read_range rd b (in_end n) ++ l). split; [by rewrite app_assoc|]. split; [by rewrite Hq | done].
Qed.

(** [lxb_html_parser_char_process] on a span of the input. *)
Lemma process_ok (eof_byte : rd lxb_html_parser_char_eof = 0) m ids i0 i j n0 n nj b e p str :
  chain_span m ids i j n nj b e -> ids !! 0%nat = Some i0 -> m !! i0 = Some n0 ->
  replace_null p = o_replace O -> drop_null p = o_drop O -> is_attribute p = o_attr O ->
  pc_st p = mode_state (o_mode O) ->
  exists p', lxb_html_parser_char_process T m rd p str (Some i) b e =
    Some (p', LXB_STATUS_OK, str ++ dec T O (input_slice m rd ids (in_offset n0) (in_abs n b) (in_abs nj e))) /\
    flags O true p'.
Proof.
  intros SP H0 Hn0 H1 H2 H3 Hst.
  pose proof (make_data_slice (rd := rd) (k := mk_token b e (Some i) [] 0 0 0) SP H0 Hn0 eq_refl []) as Hm.
  destruct (nodes_ok eof_byte m (walk_fuel m) i b e [] _ (pc_set_is_eof false (pc_set_status LXB_STATUS_OK p)) str str []
    Hm ltac:(by repeat split) ltac:(by constructor)) as (p' & l & Hl & Hp & Hf').
  exists p'. cbn [app] in Hl, Hp. subst l. split; [exact Hp | done].
Qed.
End Run.
