(* ===== verification/TokenParse.v ===== *)
(** * Tokens decoded: [html/token.c], [html/token_attr.c]

    The text of a token, the name and the value of an attribute, the parts of a
    doctype: each is the decoding ([ParserCharSpec]) of the bytes of a span of
    the whole input.

    A [lexbor_str_t] that is [lexbor_str_init]ed is empty. *)
From Stdlib Require Import String.
From Stdlib Require Import Ascii.
From S2P Require Import Prelude.
From S2P Require Import Str.
From S2P Require Import In.
From S2P Require Import HtmlIn.
From S2P Require Import TkzBase.
From S2P Require Import TokenData.
From S2P Require Import Sbst.
From S2P Require Import EntityRes.
From S2P Require Import ParserChar.
From S2P Require Import ParserCharSpec.
From S2P Require Import ParserCharProof.
From S2P Require Import ParserCharRun.

(** The bytes of a string. *)
Definition bytes_of (s : string) : list Z := map (fun c => Z.of_N (N_of_ascii c)) (list_ascii_of_string s).

(** [lxb_html_parser_char_t pc = {0}] *)
Definition pc_zero : parser_char :=
  mk_pc PC_data false false false 0 LXB_STATUS_OK false [] 0 None 0 0.

(** [pc->state], [pc->is_attribute] and [pc->replace_null] as they are set. *)
Definition pc_with (st : pc_state) (attr replace : bool) (p : parser_char) : parser_char :=
  pc_set_replace_null replace (pc_set_is_attribute attr (pc_set_state st p)).

Section Parse.
Context (m : gmap positive in_node) (rd : Z -> Z).

Definition process_span := lxb_html_parser_char_process entities_sbst m rd.

Definition has_type (k : html_token) (flag : Z) : bool := negb (Z.land (tok_type k) flag =? 0).

Definition lxb_html_token_parse_data (k : html_token) (p : parser_char) (str : list Z)
    : option (parser_char * Z * list Z) :=
  let run p := process_span p str (tok_in_begin k) (tok_begin k) (tok_end k) in
  if has_type k LXB_HTML_TOKEN_TYPE_TEXT then run (pc_with PC_ref_data false false p)
  else if has_type k LXB_HTML_TOKEN_TYPE_DATA then run (pc_with PC_data (is_attribute p) true p)
  else if has_type k LXB_HTML_TOKEN_TYPE_RCDATA then run (pc_with PC_ref_data false true p)
  else if has_type k LXB_HTML_TOKEN_TYPE_CDATA then run (pc_with PC_data (is_attribute p) false p)
  else Some (p, LXB_STATUS_ERROR, str).

Definition lxb_html_token_attr_make_name (a : token_attr) (str : list Z) : option (Z * list Z) :=
  lxb_html_in_make m rd (in_name a) (name_begin a) (name_end a) str.

Definition lxb_html_token_attr_make_value (a : token_attr) (str : list Z) : option (Z * list Z) :=
  lxb_html_in_make m rd (in_value a) (value_begin a) (value_end a) str.

(** The strings [name] and [value] are not initialised before: [None] is
    [data == NULL].  The result is the status and what they are after. *)
Definition lxb_html_token_attr_parse (a : token_attr) (p : parser_char)
    : option (parser_char * Z * option (list Z) * option (list Z)) :=
  let p := pc_with PC_data_lcase true true p in
  '(p, status, name) ←
    (if negb (name_begin a =? 0) then process_span p [] (in_name a) (name_begin a) (name_end a)
     else Some (p, LXB_STATUS_ERROR, []));
  if negb (name_begin a =? 0) && negb (status =? LXB_STATUS_OK) then Some (p, status, Some name, None)
  else if negb (value_begin a =? 0) then
    '(p, status, value) ← process_span (pc_set_state PC_ref_data p) [] (in_value a) (value_begin a) (value_end a);
    Some (p, status, Some name, Some value)
  else Some (p, status, Some name, None).

(** [lexbor_str_data_cmp] of two strings with their terminating NULs. *)
Fixpoint str_data_cmp (first sec : list Z) : bool :=
  let c := hd 0 first in
  if negb (c =? hd 0 sec) then false
  else if c =? 0 then true
  else match first, sec with _ :: first', _ :: sec' => str_data_cmp first' sec' | _, _ => true end.

(** [lxb_html_token_find_attr]: the status and what [*ret_attr] is set to, if it
    is. *)
Fixpoint find_attr_loop (attrs : list token_attr) (name : list Z) : option (Z * option token_attr) :=
  match attrs with
  | [] => Some (LXB_STATUS_OK, None)
  | a :: rest =>
      '(status, str) ← lxb_html_token_attr_make_name a [];
      if negb (status =? LXB_STATUS_OK) then Some (status, None)
      else if (Nat.eqb (length str) (length name)) && str_data_cmp name str then Some (LXB_STATUS_OK, Some a)
      else find_attr_loop rest name
  end.

Definition lxb_html_token_find_attr (k : html_token) (name : list Z) : option (Z * option token_attr) :=
  find_attr_loop (tok_attrs k) name.

(** The strings of [lxb_html_token_doctype_parse]; [None] is [data == NULL]. *)
Record doctype_strs := mk_doctype_strs {
  dt_name : option (list Z); dt_public : option (list Z); dt_system : option (list Z); dt_id : option (list Z)
}.

Definition dt_set_name v s := mk_doctype_strs v (dt_public s) (dt_system s) (dt_id s).
Definition dt_set_public v s := mk_doctype_strs (dt_name s) v (dt_system s) (dt_id s).
Definition dt_set_system v s := mk_doctype_strs (dt_name s) (dt_public s) v (dt_id s).
Definition dt_set_id v s := mk_doctype_strs (dt_name s) (dt_public s) (dt_system s) v.

(** The labels at the end. *)
Definition set_sys_empty (s : doctype_strs) : doctype_strs := dt_set_system (Some []) s.
Definition set_pub_sys_empty (s : doctype_strs) : doctype_strs := set_sys_empty (dt_set_public (Some []) s).
Definition set_name_pub_sys_empty (s : doctype_strs) : doctype_strs := set_pub_sys_empty (dt_set_name (Some []) s).

(** [strncmp(keyword, id_name->data, id_name->length) == 0], the length being 6. *)
Definition id_is (keyword : string) (id : list Z) : bool := bool_decide (id = bytes_of keyword).

Definition lxb_html_token_doctype_parse (k : html_token) (s : doctype_strs) : option (Z * doctype_strs) :=
  match tok_attrs k with
  | [] => Some (LXB_STATUS_OK, set_name_pub_sys_empty s)
  | a :: attrs =>
      '(p, status, name) ← process_span (pc_with PC_data_lcase false true pc_zero) (default [] (dt_name s))
                             (in_name a) (name_begin a) (name_end a);
      let s := dt_set_name (Some name) s in
      if negb (status =? LXB_STATUS_OK) then Some (status, s)
      else
        match attrs with
        | [] => Some (LXB_STATUS_OK, set_pub_sys_empty s)
        | a :: attrs =>
            let p := pc_set_state PC_data_lcase (pc_set_replace_null false p) in
            '(p, status, id) ← process_span p (default [] (dt_id s)) (in_name a) (name_begin a) (name_end a);
            let s := dt_set_id (Some id) s in
            if negb (status =? LXB_STATUS_OK) then Some (status, s)
            else if negb (Nat.eqb (length id) 6) then Some (LXB_STATUS_OK, set_pub_sys_empty s)
            else
              let p := pc_set_state PC_data (pc_set_replace_null true p) in
              if id_is "public" id then
                let s := dt_set_public (Some []) s in
                if value_begin a =? 0 then Some (LXB_STATUS_OK, s)
                else
                  '(p, status, public_ident) ← process_span p [] (in_value a) (value_begin a) (value_end a);
                  let s := dt_set_public (Some public_ident) s in
                  if negb (status =? LXB_STATUS_OK) then Some (status, s)
                  else
                    match attrs with
                    | [] => Some (LXB_STATUS_OK, set_sys_empty s)
                    | a :: _ =>
                        let p := pc_set_state PC_data p in
                        '(_, status, system_ident) ← process_span p (default [] (dt_system s))
                                                       (in_value a) (value_begin a) (value_end a);
                        Some (status, dt_set_system (Some system_ident) s)
                    end
              else if id_is "system" id then
                let s := dt_set_system (Some []) s in
                if value_begin a =? 0 then Some (LXB_STATUS_OK, s)
                else
                  '(_, status, system_ident) ← process_span p [] (in_value a) (value_begin a) (value_end a);
                  Some (status, dt_set_system (Some system_ident) s)
              else Some (LXB_STATUS_OK, set_pub_sys_empty s)
        end
  end.
End Parse.

(** ** What they compute *)

(** The options each decoding has; a [drop_null] that is not looked at stays. *)
Definition data_options (k : html_token) (p : parser_char) : option options :=
  if has_type k LXB_HTML_TOKEN_TYPE_TEXT then Some (mk_options CM_ref false (drop_null p) false)
  else if has_type k LXB_HTML_TOKEN_TYPE_DATA then Some (mk_options CM_data true (drop_null p) (is_attribute p))
  else if has_type k LXB_HTML_TOKEN_TYPE_RCDATA then Some (mk_options CM_ref true (drop_null p) false)
  else if has_type k LXB_HTML_TOKEN_TYPE_CDATA then Some (mk_options CM_data false (drop_null p) (is_attribute p))
  else None.

Definition attr_name_options (p : parser_char) : options := mk_options CM_lcase true (drop_null p) true.
Definition attr_value_options (p : parser_char) : options := mk_options CM_ref true (drop_null p) true.
Definition doctype_name_options : options := mk_options CM_lcase true false false.
Definition doctype_keyword_options : options := mk_options CM_lcase false false false.
Definition doctype_ident_options : options := mk_options CM_data true false false.

(** The reference, with the table of the code. *)
Definition decoded (O : options) (l : list Z) : list Z := dec entities_sbst O l.

Lemma no_semicolon_name : lexbor_sbst_entry_static_find entities_sbst 1 0x3B = None.
Proof. vm_compute. reflexivity. Qed.

Section Spec.
Context (m : gmap positive in_node) (rd : Z -> Z) (ids : list positive).
Context (eof_byte : rd lxb_html_parser_char_eof = 0).

(** The span from [b] in [node] to [e] is the bytes [l] of the whole input. *)
Definition span_text (node : option positive) (b e : Z) (l : list Z) : Prop :=
  exists i0 i j n0 n nj, ids !! 0%nat = Some i0 /\ m !! i0 = Some n0 /\ node = Some i /\
    chain_span m ids i j n nj b e /\ l = input_slice m rd ids (in_offset n0) (in_abs n b) (in_abs nj e).

Lemma process_text O node b e l p str : span_text node b e l ->
  replace_null p = o_replace O -> drop_null p = o_drop O -> is_attribute p = o_attr O ->
  pc_st p = mode_state (o_mode O) ->
  exists p', process_span m rd p str node b e = Some (p', LXB_STATUS_OK, str ++ decoded O l) /\ flags O true p'.
Proof.
  intros (i0 & i & j & n0 & n & nj & H0 & Hn0 & -> & SP & ->) H1 H2 H3 H4.
  exact (process_ok entities_sbst entities_ok no_semicolon_name rd O eof_byte m ids i0 i j n0 n nj b e p str
    SP H0 Hn0 H1 H2 H3 H4).
Qed.

(** C9: the text of a token is the decoding of its bytes in the whole input,
    wherever the buffers cut it, character references included.
    [lxb_html_token_parse_data] runs the state machine of [parser_char.c] buffer
    by buffer and appends to the string exactly what [decode] computes from the
    token's bytes: newlines normalised, NULs treated as the kind of token and
    [drop_null] say and, for text and RCDATA, each numeric reference replaced by
    the character it stands for and each name by the value of the longest name
    of the table.  It returns OK. *)
Theorem parse_data_spec k p str l O : span_text (tok_in_begin k) (tok_begin k) (tok_end k) l ->
  data_options k p = Some O ->
  exists p', lxb_html_token_parse_data m rd k p str = Some (p', LXB_STATUS_OK, str ++ decoded O l).
Proof.
  intros Hl HO. unfold data_options in HO. unfold lxb_html_token_parse_data.
  repeat case_match; try discriminate HO; injection HO as <-;
    (edestruct process_text as (p' & Hp & _); [exact Hl | | | | | by exists p']; done).
Qed.

(** The texts of an attribute. *)
Definition name_text (a : token_attr) (l : list Z) : Prop :=
  name_begin a <> 0 /\ span_text (in_name a) (name_begin a) (name_end a) l.
Definition value_text (a : token_attr) (v : option (list Z)) : Prop :=
  match v with
  | Some l => value_begin a <> 0 /\ span_text (in_value a) (value_begin a) (value_end a) l
  | None => value_begin a = 0
  end.

Lemma attr_parse_texts a p name v : name_text a name -> value_text a v ->
  exists p', lxb_html_token_attr_parse m rd a p =
    Some (p', LXB_STATUS_OK, Some (decoded (attr_name_options p) name),
      match v with Some l => Some (decoded (attr_value_options p) l) | None => None end) /\
    drop_null p' = drop_null p.
Proof.
  intros [Hb Hn] Hv. unfold lxb_html_token_attr_parse. rewrite (proj2 (Z.eqb_neq _ _) Hb). cbn [negb].
  destruct (process_text (attr_name_options p) _ _ _ _ (pc_with PC_data_lcase true true p) [] Hn eq_refl eq_refl
    eq_refl eq_refl) as (p1 & -> & Hf & Hd & Ha & _).
  cbn [mbind option_bind andb negb Z.eqb LXB_STATUS_OK]. destruct v as [l|]; cbn [value_text] in Hv.
  - destruct Hv as [Hvb Hv]. rewrite (proj2 (Z.eqb_neq _ _) Hvb). cbn [negb].
    destruct (process_text (attr_value_options p) _ _ _ _ (pc_set_state PC_ref_data p1) [] Hv Hf Hd Ha eq_refl)
      as (p2 & -> & _ & Hd2 & _). by exists p2.
  - rewrite Hv. by exists p1.
Qed.

(** C11: [lxb_html_token_attr_parse] gives the name of an attribute, lower-cased
    and with U+FFFD for NULs, and its value, if it has one, decoded with the
    rules for attributes, across any number of buffers; it returns OK. *)
Theorem attr_parse_spec a p name v : name_text a name -> value_text a v ->
  exists p', lxb_html_token_attr_parse m rd a p =
    Some (p', LXB_STATUS_OK, Some (decoded (attr_name_options p) name),
      match v with Some l => Some (decoded (attr_value_options p) l) | None => None end).
Proof.
  intros Hn Hv. destruct (attr_parse_texts a p name v Hn Hv) as (p' & E & _). by exists p'.
Qed.

(** C14: when an attribute's value has a name that is left alone because [=] or an
    alphanumeric follows it, [lxb_html_token_attr_parse] also copies the byte
    after the table's path, without looking at it: another ampersand there does
    not begin a reference, and at the end of the value a NUL that is not in the
    document is added to the value. *)
Theorem attr_value_left_alone a p name w r n v : name_text a name -> value_text a (Some (0x26 :: w ++ r)) ->
  is_alnum (hd 0 w) = true -> longest_name entities_sbst (w ++ r) = Some (n, v) ->
  left_alone n (w ++ r) = true -> path_length entities_sbst 1 (w ++ r) = length w ->
  exists p' name', lxb_html_token_attr_parse m rd a p =
    Some (p', LXB_STATUS_OK, Some name', Some (0x26 :: w ++ hd 0 r :: decoded (attr_value_options p) (tl r))).
Proof.
  intros Hname Hvalue Hw Hn Hl Hp. destruct (attr_parse_texts a p name _ Hname Hvalue) as (p' & E & _).
  exists p', (decoded (attr_name_options p) name).
  unfold decoded in E at 2.
  rewrite (dec_left_alone entities_sbst (attr_value_options p) eq_refl w r n v eq_refl Hw Hn Hl Hp) in E. exact E.
Qed.

(** What a doctype token holds: nothing, a name, or a name and a keyword with its
    first identifier and perhaps a second. *)
Inductive doctype_parts :=
  | DT_none
  | DT_name (name : list Z)
  | DT_id (name keyword : list Z) (first second : option (list Z)).

Inductive doctype_attrs : list token_attr -> doctype_parts -> Prop :=
  | da_none : doctype_attrs [] DT_none
  | da_name a name : name_text a name -> doctype_attrs [a] (DT_name name)
  | da_id a b name keyword first : name_text a name -> name_text b keyword -> value_text b first ->
      doctype_attrs [a; b] (DT_id name keyword first None)
  | da_ids a b c rest name keyword first second : name_text a name -> name_text b keyword ->
      value_text b first -> value_text c (Some second) ->
      doctype_attrs (a :: b :: c :: rest) (DT_id name keyword first (Some second)).

(** The strings of the doctype: a PUBLIC keyword without an identifier leaves the
    system identifier as it was, a SYSTEM keyword the public one. *)
Definition doctype_decoded (d : doctype_parts) (s : doctype_strs) : doctype_strs :=
  let named name := dt_set_name (Some (default [] (dt_name s) ++ decoded doctype_name_options name)) s in
  match d with
  | DT_none => set_name_pub_sys_empty s
  | DT_name name => set_pub_sys_empty (named name)
  | DT_id name keyword first second =>
      let id := default [] (dt_id s) ++ decoded doctype_keyword_options keyword in
      let s := dt_set_id (Some id) (named name) in
      let ident := decoded doctype_ident_options in
      if id_is "public" id then
        match first, second with
        | None, _ => dt_set_public (Some []) s
        | Some f, None => set_sys_empty (dt_set_public (Some (ident f)) s)
        | Some f, Some g =>
            dt_set_system (Some (default [] (dt_system s) ++ ident g)) (dt_set_public (Some (ident f)) s)
        end
      else if id_is "system" id then
        dt_set_system (Some match first with None => [] | Some f => ident f end) s
      else set_pub_sys_empty s
  end.

Lemma id_length id : negb (length id =? 6)%nat = true -> id_is "public" id = false /\ id_is "system" id = false.
Proof.
  intros H. unfold id_is. split; apply bool_decide_eq_false; intros ->; by vm_compute in H.
Qed.

(** C12: [lxb_html_token_doctype_parse] returns OK with the name lower-cased, the
    keyword compared without regard to case, and the identifiers after PUBLIC
    and SYSTEM with newlines normalised and NULs replaced, from the bytes of the
    whole input; a keyword that is neither leaves both identifiers empty. *)
Theorem doctype_parse_spec k d s : doctype_attrs (tok_attrs k) d ->
  lxb_html_token_doctype_parse m rd k s = Some (LXB_STATUS_OK, doctype_decoded d s).
Proof.
  intros Hd. unfold lxb_html_token_doctype_parse.
  destruct Hd as [|a name [_ Ha]|a b name keyword first [_ Ha] [_ Hb] Hv|a b c rest name keyword first second [_ Ha] [_ Hb] Hv [_ Hc]];
    [done|..].
  all: destruct (process_text doctype_name_options _ _ _ _ (pc_with PC_data_lcase false true pc_zero)
    (default [] (dt_name s)) Ha eq_refl eq_refl eq_refl eq_refl) as (p1 & -> & Hr1 & Hd1 & Ha1 & _);
    cbn [mbind option_bind negb Z.eqb LXB_STATUS_OK].
  1: done.
  all: destruct (process_text doctype_keyword_options _ _ _ _ (pc_set_state PC_data_lcase (pc_set_replace_null false p1))
    (default [] (dt_id s)) Hb eq_refl Hd1 Ha1 eq_refl) as (p2 & Hp2 & Hr2 & Hd2 & Ha2 & _);
    cbn [dt_set_name dt_id dt_set_id]; rewrite Hp2; cbn [mbind option_bind negb Z.eqb LXB_STATUS_OK].
  all: cbn [doctype_decoded]; set (id := default [] (dt_id s) ++ decoded doctype_keyword_options keyword).
  all: destruct (negb (length id =? 6)%nat) eqn:El; [by destruct (id_length id El) as [-> ->]|].
  all: pose (p3 := pc_set_state PC_data (pc_set_replace_null true p2)).
  all: assert (Hident : forall l c str, span_text (in_value c) (value_begin c) (value_end c) l ->
    exists p4, process_span m rd p3 str (in_value c) (value_begin c) (value_end c) =
      Some (p4, LXB_STATUS_OK, str ++ decoded doctype_ident_options l) /\ flags doctype_ident_options true p4)
    by (intros l c0 str Hl; by apply process_text).
  all: destruct first as [f|]; cbn [value_text] in Hv; [destruct Hv as [Hvb Hv]; rewrite (proj2 (Z.eqb_neq _ _) Hvb);
    destruct (Hident f b [] Hv) as (p4 & Hp4 & Hr4 & Hd4 & Ha4 & _); fold p3; rewrite Hp4 | rewrite Hv].
  all: cbn [mbind option_bind negb Z.eqb LXB_STATUS_OK]; try by repeat case_match.
  destruct (id_is "public" id); [|by case_match].
  destruct (process_text doctype_ident_options _ _ _ _ (pc_set_state PC_data p4) (default [] (dt_system s)) Hc Hr4 Hd4
    Ha4 eq_refl) as (p5 & Hp5 & _).
  cbn [dt_set_public dt_set_id dt_set_name dt_system]. rewrite Hp5. done.
Qed.
End Spec.

(** ** At concrete inputs: the two buffers of [two_buffers], 1000 to 1003 and 2000 to 2002 *)

Definition cut_memory (s : string) (a : Z) : Z :=
  if a =? lxb_html_parser_char_eof then 0
  else if a <? 2000 then nth (Z.to_nat (a - 1000)) (bytes_of s) 0 else nth (Z.to_nat (a - 1997)) (bytes_of s) 0.

Lemma cut_span b e : 1000 <= b <= 1003 -> 2000 <= e <= 2002 ->
  chain_span (in_nodes two_buffers) [1; 2]%positive 1 2 node_1 node_2 b e.
Proof.
  intros Hb He. split; [exact two_buffers_wf | | by split | by split | unfold in_abs; cbn; lia].
  exists 0%nat, 1%nat. split; [done|]. split; [done|]. split; [lia|].
  intros k' i' n' Hk. assert (k' = 0)%nat as -> by lia. intros [= <-] Hn.
  assert (n' = node_1) as -> by (vm_compute in Hn; by injection Hn as <-).
  unfold lexbor_in_segment, node_1. cbn [in_begin in_end]. rewrite Z.geb_leb, andb_false_iff, !Z.leb_gt. lia.
Qed.

Lemma first_span b e : 1000 <= b <= e -> e <= 1003 ->
  chain_span (in_nodes two_buffers) [1; 2]%positive 1 1 node_1 node_1 b e.
Proof.
  intros Hb He. split; [exact two_buffers_wf | | split; [done | cbn; lia] | split; [done | cbn; lia] | unfold in_abs; cbn; lia].
  exists 0%nat, 0%nat. split; [done|]. split; [done|]. split; [lia|]. intros k' i' n' Hk. lia.
Qed.

Lemma parse_data_spec_witness : exists p',
  lxb_html_token_parse_data (in_nodes two_buffers) (cut_memory "&amp;")
    (mk_token 1000 2002 (Some 1%positive) [] 0 0 LXB_HTML_TOKEN_TYPE_TEXT) pc_zero [] =
  Some (p', LXB_STATUS_OK, [0x26]).
Proof.
  edestruct (parse_data_spec (in_nodes two_buffers) (cut_memory "&amp;") [1; 2]%positive eq_refl
    (mk_token 1000 2002 (Some 1%positive) [] 0 0 LXB_HTML_TOKEN_TYPE_TEXT) pc_zero []) as [p' H].
  - exists 1%positive, 1%positive, 2%positive, node_1, node_1, node_2.
    repeat (split; [reflexivity|]). split; [apply cut_span; cbn; lia | reflexivity].
  - reflexivity.
  - exists p'. refine (eq_trans H _). vm_compute. reflexivity.
Defined.

(** The attribute [A] of value [&lt]. *)
Definition cut_attr : token_attr := mk_attr 1000 1001 1001 2001 (Some 1%positive) (Some 1%positive) 0.

Lemma attr_parse_spec_witness : exists p',
  lxb_html_token_attr_parse (in_nodes two_buffers) (cut_memory "A&lt>") cut_attr pc_zero =
  Some (p', LXB_STATUS_OK, Some [0x61], Some [0x3C]).
Proof.
  edestruct (attr_parse_spec (in_nodes two_buffers) (cut_memory "A&lt>") [1; 2]%positive eq_refl cut_attr pc_zero
    [0x41] (Some [0x26; 0x6C; 0x74])) as [p' H].
  - split; [done|]. exists 1%positive, 1%positive, 1%positive, node_1, node_1, node_1.
    repeat (split; [reflexivity|]). split; [apply first_span; cbn; lia | vm_compute; reflexivity].
  - split; [done|]. exists 1%positive, 1%positive, 2%positive, node_1, node_1, node_2.
    repeat (split; [reflexivity|]). split; [apply cut_span; cbn; lia | vm_compute; reflexivity].
  - exists p'. refine (eq_trans H _). vm_compute. reflexivity.
Defined.

(** An empty name and the value of all five bytes. *)
Definition cut_value : token_attr := mk_attr 1000 1000 1000 2002 (Some 1%positive) (Some 1%positive) 0.

(** The doctype named [Html] over both buffers. *)
Lemma doctype_parse_spec_witness :
  lxb_html_token_doctype_parse (in_nodes two_buffers) (cut_memory "Html>")
    (mk_token 1000 2002 (Some 1%positive) [mk_attr 1000 2001 0 0 (Some 1%positive) None 0] 0 0 0)
    (mk_doctype_strs None None None None) =
  Some (LXB_STATUS_OK, mk_doctype_strs (Some (bytes_of "html")) (Some []) (Some []) None).
Proof.
  edestruct (doctype_parse_spec (in_nodes two_buffers) (cut_memory "Html>") [1; 2]%positive eq_refl
    (mk_token 1000 2002 (Some 1%positive) [mk_attr 1000 2001 0 0 (Some 1%positive) None 0] 0 0 0)
    (DT_name (bytes_of "Html")) (mk_doctype_strs None None None None)).
  - constructor. split; [done|]. exists 1%positive, 1%positive, 2%positive, node_1, node_1, node_2.
    repeat (split; [reflexivity|]). split; [apply cut_span; cbn; lia | vm_compute; reflexivity].
  - vm_compute. reflexivity.
Defined.

(** [x=&noti]: the name [not] is left alone, [noti] is the path, a NUL is added. *)
Lemma attr_value_left_alone_witness : exists p' name',
  lxb_html_token_attr_parse (in_nodes two_buffers) (cut_memory "&noti") cut_value pc_zero =
  Some (p', LXB_STATUS_OK, Some name', Some (bytes_of "&noti" ++ [0])).
Proof.
  edestruct (attr_value_left_alone (in_nodes two_buffers) (cut_memory "&noti") [1; 2]%positive eq_refl cut_value pc_zero
    [] (bytes_of "noti") [] 3 [0xC2; 0xAC]) as (p' & name' & H).
  - split; [done|]. exists 1%positive, 1%positive, 1%positive, node_1, node_1, node_1.
    repeat (split; [reflexivity|]). split; [apply first_span; cbn; lia | vm_compute; reflexivity].
  - split; [done|]. exists 1%positive, 1%positive, 2%positive, node_1, node_1, node_2.
    repeat (split; [reflexivity|]). split; [apply cut_span; cbn; lia | vm_compute; reflexivity].
  - vm_compute. reflexivity.
  - vm_compute. reflexivity.
  - vm_compute. reflexivity.
  - vm_compute. reflexivity.
  - exists p', name'. exact H.
Defined.

(** The parse errors of a text. *)
Definition text_errors (s : string) (e : Z) : option (list (Z * error_id)) :=
  r ← lxb_html_token_parse_data (in_nodes two_buffers) (cut_memory s)
        (mk_token 1000 e (Some 1%positive) [] 0 0 LXB_HTML_TOKEN_TYPE_TEXT) pc_zero [];
  Some (pc_errors (fst (fst r))).

(** The error for a missing semicolon is reported for a reference that has
    one, and not for one that has none. *)
Theorem missing_semicolon_inverted :
  text_errors "&lt;x" 2002 = Some [(2000, MISEAFCHRE)] /\ text_errors "&lt x" 2002 = Some [].
Proof. split; vm_compute; reflexivity. Qed.
