(* ===== verification/DomNode.v ===== *)
(** * The node tree of the DOM: [dom/interfaces/node.c]

    Nodes are records on a heap, linked to parent, siblings and children by
    pointers that may be NULL; reading or writing through a NULL or dangling
    pointer is [None].  A node's record also has the fields that the interfaces
    derived from [lxb_dom_node_t] add: the data of a text or comment, the ends of
    an element's attribute list. *)
From S2P Require Import Prelude.
From S2P Require Import ParserChar.

(** [lxb_dom_node_type_t] *)
Definition LXB_DOM_NODE_TYPE_UNDEF : Z := 0x00.
Definition LXB_DOM_NODE_TYPE_ELEMENT : Z := 0x01.
Definition LXB_DOM_NODE_TYPE_ATTRIBUTE : Z := 0x02.
Definition LXB_DOM_NODE_TYPE_TEXT : Z := 0x03.
Definition LXB_DOM_NODE_TYPE_PROCESSING_INSTRUCTION : Z := 0x07.
Definition LXB_DOM_NODE_TYPE_COMMENT : Z := 0x08.
Definition LXB_DOM_NODE_TYPE_DOCUMENT : Z := 0x09.
Definition LXB_DOM_NODE_TYPE_DOCUMENT_FRAGMENT : Z := 0x0B.

(** [lxb_dom_qualified_name_t] *)
Record qualified_name := mk_qname { qn_str : list Z; qn_prefix_len : Z; qn_local_name_len : Z }.

(** [struct lxb_dom_node], [lxb_dom_character_data_t], [lxb_dom_element_t] *)
Record dom_node := mk_node {
  nd_next : option positive;
  nd_prev : option positive;
  nd_parent : option positive;
  nd_first : option positive;
  nd_last : option positive;
  nd_ns : Z;
  nd_tag : Z;
  nd_type : Z;
  nd_data : list Z;
  nd_qname : option qualified_name;
  nd_first_attr : option positive;
  nd_last_attr : option positive;
  nd_attr_id : option positive;
  nd_attr_class : option positive
}.

Definition set_nd_next v n := mk_node v (nd_prev n) (nd_parent n) (nd_first n) (nd_last n) (nd_ns n) (nd_tag n) (nd_type n) (nd_data n) (nd_qname n) (nd_first_attr n) (nd_last_attr n) (nd_attr_id n) (nd_attr_class n).
Definition set_nd_prev v n := mk_node (nd_next n) v (nd_parent n) (nd_first n) (nd_last n) (nd_ns n) (nd_tag n) (nd_type n) (nd_data n) (nd_qname n) (nd_first_attr n) (nd_last_attr n) (nd_attr_id n) (nd_attr_class n).
Definition set_nd_parent v n := mk_node (nd_next n) (nd_prev n) v (nd_first n) (nd_last n) (nd_ns n) (nd_tag n) (nd_type n) (nd_data n) (nd_qname n) (nd_first_attr n) (nd_last_attr n) (nd_attr_id n) (nd_attr_class n).
Definition set_nd_first v n := mk_node (nd_next n) (nd_prev n) (nd_parent n) v (nd_last n) (nd_ns n) (nd_tag n) (nd_type n) (nd_data n) (nd_qname n) (nd_first_attr n) (nd_last_attr n) (nd_attr_id n) (nd_attr_class n).
Definition set_nd_last v n := mk_node (nd_next n) (nd_prev n) (nd_parent n) (nd_first n) v (nd_ns n) (nd_tag n) (nd_type n) (nd_data n) (nd_qname n) (nd_first_attr n) (nd_last_attr n) (nd_attr_id n) (nd_attr_class n).

(** [i->field = ..] *)
Definition upd (f : dom_node -> dom_node) (i : positive) (h : gmap positive dom_node) : option (gmap positive dom_node) :=
  n ← h !! i; Some (<[i := f n]> h).

(** ** Insertion and removal *)

Definition lxb_dom_node_insert_child (h : gmap positive dom_node) (to node : positive) : option (gmap positive dom_node) :=
  t ← h !! to;
  h ← match nd_last t with
      | Some l => upd (set_nd_next (Some node)) l h
      | None => upd (set_nd_first (Some node)) to h
      end;
  h ← upd (set_nd_parent (Some to)) node h;
  h ← upd (set_nd_next None) node h;
  t ← h !! to;
  h ← upd (set_nd_prev (nd_last t)) node h;
  upd (set_nd_last (Some node)) to h.

Definition lxb_dom_node_insert_before (h : gmap positive dom_node) (to node : positive) : option (gmap positive dom_node) :=
  t ← h !! to;
  h ← match nd_prev t with
      | Some p => upd (set_nd_next (Some node)) p h
      | None => match nd_parent t with Some q => upd (set_nd_first (Some node)) q h | None => Some h end
      end;
  t ← h !! to;
  h ← upd (set_nd_parent (nd_parent t)) node h;
  h ← upd (set_nd_next (Some to)) node h;
  t ← h !! to;
  h ← upd (set_nd_prev (nd_prev t)) node h;
  upd (set_nd_prev (Some node)) to h.

Definition lxb_dom_node_insert_after (h : gmap positive dom_node) (to node : positive) : option (gmap positive dom_node) :=
  t ← h !! to;
  h ← match nd_next t with
      | Some x => upd (set_nd_prev (Some node)) x h
      | None => match nd_parent t with Some q => upd (set_nd_last (Some node)) q h | None => Some h end
      end;
  t ← h !! to;
  h ← upd (set_nd_parent (nd_parent t)) node h;
  t ← h !! to;
  h ← upd (set_nd_next (nd_next t)) node h;
  h ← upd (set_nd_prev (Some to)) node h;
  upd (set_nd_next (Some node)) to h.

(** The first part of [lxb_dom_node_remove]: what points to the node. *)
Definition unlink (h : gmap positive dom_node) (node : positive) : option (gmap positive dom_node) :=
  n ← h !! node;
  h ← match nd_parent n with
      | None => Some h
      | Some q =>
          p ← h !! q;
          h ← (if bool_decide (nd_first p = Some node) then upd (set_nd_first (nd_next n)) q h else Some h);
          p ← h !! q;
          if bool_decide (nd_last p = Some node) then upd (set_nd_last (nd_prev n)) q h else Some h
      end;
  n ← h !! node;
  h ← match nd_next n with Some x => upd (set_nd_prev (nd_prev n)) x h | None => Some h end;
  n ← h !! node;
  match nd_prev n with Some x => upd (set_nd_next (nd_next n)) x h | None => Some h end.

Definition lxb_dom_node_remove (h : gmap positive dom_node) (node : positive) : option (gmap positive dom_node) :=
  h ← unlink h node;
  h ← upd (set_nd_parent None) node h;
  h ← upd (set_nd_next None) node h;
  upd (set_nd_prev None) node h.

(** ** Walking *)

Inductive lexbor_action := LEXBOR_ACTION_NEXT | LEXBOR_ACTION_STOP.

Section Walk.
Context {S : Type} (h : gmap positive dom_node) (root : positive).
(** [walker_cb], which reads the nodes and has a state of its own. *)
Context (walker_cb : positive -> S -> option (S * lexbor_action)).

(** [while (node != root && node->next == NULL) node = node->parent] *)
Fixpoint climb (fuel : nat) (node : positive) : option positive :=
  if bool_decide (node = root) then Some node
  else
    n ← h !! node;
    match nd_next n with
    | Some _ => Some node
    | None => match fuel with O => None | Datatypes.S fuel' => p ← nd_parent n; climb fuel' p end
    end.

(** Both loops visit a node at most once: a fuel of [size h] is enough. *)
Fixpoint walk_loop (fuel : nat) (node : option positive) (ctx : S) : option S :=
  match node with
  | None => Some ctx
  | Some node =>
      match fuel with
      | O => None
      | Datatypes.S fuel' =>
          '(ctx, action) ← walker_cb node ctx;
          match action with
          | LEXBOR_ACTION_STOP => Some ctx
          | LEXBOR_ACTION_NEXT =>
              n ← h !! node;
              match nd_first n with
              | Some c => walk_loop fuel' (Some c) ctx
              | None =>
                  node ← climb (size h) node;
                  if bool_decide (node = root) then Some ctx
                  else n ← h !! node; walk_loop fuel' (nd_next n) ctx
              end
          end
      end
  end.

Definition lxb_dom_node_simple_walk (ctx : S) : option S :=
  r ← h !! root; walk_loop (size h) (nd_first r) ctx.
End Walk.

(** ** Text *)

Definition lxb_dom_node_text_content_size (h : gmap positive dom_node) (node : positive) (length_ : Z)
    : option (Z * lexbor_action) :=
  n ← h !! node;
  Some ((if nd_type n =? LXB_DOM_NODE_TYPE_TEXT then length_ + str_len (nd_data n) else length_), LEXBOR_ACTION_NEXT).

(** The state is the buffer and the position [*text] in it. *)
Definition lxb_dom_node_text_content_concatenate (h : gmap positive dom_node) (node : positive) (ctx : list Z * Z)
    : option (list Z * Z * lexbor_action) :=
  n ← h !! node;
  Some ((if negb (nd_type n =? LXB_DOM_NODE_TYPE_TEXT) then ctx
         else (write_at (snd ctx) (nd_data n) (fst ctx), snd ctx + str_len (nd_data n))), LEXBOR_ACTION_NEXT).

(** [lxb_dom_node_text_content]: the [*len] bytes of the text, [None] inside for
    NULL.  [garbage] is what fresh memory of a size holds; the value of an
    attribute is an argument. *)
Definition lxb_dom_node_text_content (garbage : Z -> list Z) (attr_value : positive -> option (list Z))
    (h : gmap positive dom_node) (node : positive) : option (option (list Z)) :=
  n ← h !! node;
  let ty := nd_type n in
  if (ty =? LXB_DOM_NODE_TYPE_DOCUMENT_FRAGMENT) || (ty =? LXB_DOM_NODE_TYPE_ELEMENT) then
    length_ ← lxb_dom_node_simple_walk h node (lxb_dom_node_text_content_size h) 0;
    '(buf, text) ← lxb_dom_node_simple_walk h node (lxb_dom_node_text_content_concatenate h)
                     (garbage (length_ + 1), 0);
    let text := text - length_ in
    Some (Some (take (Z.to_nat length_) (drop (Z.to_nat text) buf)))
  else if ty =? LXB_DOM_NODE_TYPE_ATTRIBUTE then Some (attr_value node)
  else if (ty =? LXB_DOM_NODE_TYPE_TEXT) || (ty =? LXB_DOM_NODE_TYPE_PROCESSING_INSTRUCTION) ||
          (ty =? LXB_DOM_NODE_TYPE_COMMENT) then Some (Some (nd_data n))
  else Some None.
