(* ===== verification/DomTree.v ===== *)
(** * Node heaps as trees

    [forest_at h p prev f next]: the trees [f] are laid out in the heap as
    consecutive siblings under the parent [p], after [prev] and before [next].
    A context is a tree with a hole for consecutive siblings; inserting and
    removing nodes replaces what is in the hole. *)
From S2P Require Import Prelude.
From S2P Require Import DomNode.

#[local] Set Warnings "-clear-no-such-hyp".

#[warnings="-register-all"]
Inductive tree := Node (id : positive) (children : list tree).

Definition tree_id (t : tree) : positive := match t with Node i _ => i end.
Definition tree_children (t : tree) : list tree := match t with Node _ c => c end.

(** The nodes in document order. *)
Fixpoint tree_ids (t : tree) : list positive :=
  match t with Node i cs => i :: flat_map tree_ids cs end.
Definition forest_ids (f : list tree) : list positive := flat_map tree_ids f.

(** The first or last root of [f], or what is beyond it. *)
Definition first_id (f : list tree) (d : option positive) : option positive :=
  match f with t :: _ => Some (tree_id t) | [] => d end.
Definition last_id (f : list tree) (d : option positive) : option positive :=
  match last f with Some t => Some (tree_id t) | None => d end.

Inductive forest_at (h : gmap positive dom_node) : option positive -> option positive -> list tree -> option positive -> Prop :=
  | fa_nil p prev next : forest_at h p prev [] next
  | fa_cons p prev i n cs f next : h !! i = Some n -> nd_parent n = p -> nd_prev n = prev ->
      nd_next n = first_id f next -> nd_first n = first_id cs None -> nd_last n = last_id cs None ->
      forest_at h (Some i) None cs None -> forest_at h p (Some i) f next ->
      forest_at h p prev (Node i cs :: f) next.

Definition tree_at (h : gmap positive dom_node) (p prev : option positive) (t : tree) (next : option positive) : Prop :=
  forest_at h p prev [t] next.

Lemma first_id_app f g d : first_id (f ++ g) d = first_id f (first_id g d).
Proof. by destruct f. Qed.

Lemma last_id_app f g d : last_id (f ++ g) d = last_id g (last_id f d).
Proof. unfold last_id. rewrite last_app. by destruct (last g). Qed.

Lemma last_id_cons t f d : last_id (t :: f) d = last_id f (Some (tree_id t)).
Proof. apply (last_id_app [t]). Qed.

Lemma forest_ids_app f g : forest_ids (f ++ g) = forest_ids f ++ forest_ids g.
Proof. apply flat_map_app. Qed.

Lemma forest_ids_cons i cs f : forest_ids (Node i cs :: f) = i :: forest_ids cs ++ forest_ids f.
Proof. done. Qed.

(** ** Frame and append *)

Lemma forest_frame h h' p prev f next : forest_at h p prev f next ->
  (forall i, i ∈ forest_ids f -> h' !! i = h !! i) -> forest_at h' p prev f next.
Proof.
  induction 1 as [|p prev i n cs f next Hn Hp Hpr Hne Hfi Hla Hcs IHcs Hf IHf]; intros Heq; [constructor|].
  rewrite forest_ids_cons in Heq. apply fa_cons with n; try done.
  - rewrite Heq by set_solver. done.
  - apply IHcs. intros j Hj. apply Heq. set_solver.
  - apply IHf. intros j Hj. apply Heq. set_solver.
Qed.

Lemma forest_alive h p prev f next : forest_at h p prev f next -> forall i, i ∈ forest_ids f -> is_Some (h !! i).
Proof.
  induction 1 as [|p prev i n cs f next Hn Hp Hpr Hne Hfi Hla Hcs IHcs Hf IHf]; intros j Hj; [by apply elem_of_nil in Hj|].
  rewrite forest_ids_cons in Hj. apply elem_of_cons in Hj as [->|Hj]; [by eexists|].
  apply elem_of_app in Hj as [Hj|Hj]; auto.
Qed.

Lemma forest_app h p f g : forall prev next,
  forest_at h p prev (f ++ g) next <->
  forest_at h p prev f (first_id g next) /\ forest_at h p (last_id f prev) g next.
Proof.
  induction f as [|[i cs] f IH]; intros prev next; cbn [app].
  - split; [intros H; split; [constructor | exact H] | by intros [_ H]].
  - split.
    + intros H. inversion H as [|p' prev' i' n cs' f' next' Hn Hp Hpr Hne Hfi Hla Hcs Hf]; subst.
      apply IH in Hf as [Hf Hg]. rewrite first_id_app in Hne.
      split; [by apply fa_cons with n | by rewrite last_id_cons].
    + intros [H Hg]. inversion H as [|p' prev' i' n cs' f' next' Hn Hp Hpr Hne Hfi Hla Hcs Hf]; subst.
      rewrite last_id_cons in Hg. apply fa_cons with n; try done; [by rewrite first_id_app | by apply IH].
Qed.

(** A child's record. *)
Lemma forest_cons_inv h p prev i cs f next : forest_at h p prev (Node i cs :: f) next ->
  exists n, h !! i = Some n /\ nd_parent n = p /\ nd_prev n = prev /\ nd_next n = first_id f next /\
    nd_first n = first_id cs None /\ nd_last n = last_id cs None /\
    forest_at h (Some i) None cs None /\ forest_at h p (Some i) f next.
Proof. intros H. inversion H; subst. eexists. repeat (split; [done|]). done. Qed.

(** ** Contexts *)

Inductive ctx := Hole | Under (c : ctx) (id : positive) (l r : list tree).

Fixpoint plug (c : ctx) (g : list tree) : list tree :=
  match c with
  | Hole => g
  | Under c id l r => plug c [Node id (l ++ g ++ r)]
  end.

(** What surrounds the hole. *)
Definition c_parent (c : ctx) : option positive := match c with Hole => None | Under _ id _ _ => Some id end.
Definition c_prev (c : ctx) : option positive := match c with Hole => None | Under _ _ l _ => last_id l None end.
Definition c_next (c : ctx) : option positive := match c with Hole => None | Under _ _ _ r => first_id r None end.

Fixpoint ctx_ids (c : ctx) : list positive :=
  match c with Hole => [] | Under c id l r => id :: forest_ids l ++ forest_ids r ++ ctx_ids c end.

(** The context in the heap; its left side sees [fi] where the hole is, its right
    side [la]. *)
Fixpoint ctx_at (h : gmap positive dom_node) (c : ctx) (fi la : option positive) : Prop :=
  match c with
  | Hole => True
  | Under c id l r =>
      (exists n, h !! id = Some n /\ nd_parent n = c_parent c /\ nd_prev n = c_prev c /\ nd_next n = c_next c /\
        nd_first n = first_id l fi /\ nd_last n = last_id r la) /\
      forest_at h (Some id) None l fi /\ forest_at h (Some id) la r None /\ ctx_at h c (Some id) (Some id)
  end.

Lemma plug_ids c : forall g, forest_ids (plug c g) ≡ₚ ctx_ids c ++ forest_ids g.
Proof.
  induction c as [|c IH id l r]; intros g; cbn [plug ctx_ids]; [done|].
  rewrite IH. cbn [forest_ids flat_map tree_ids]. rewrite app_nil_r. fold (forest_ids (l ++ g ++ r)).
  rewrite !forest_ids_app. solve_Permutation.
Qed.

Lemma plug_at h c : forall g,
  forest_at h None None (plug c g) None <->
  ctx_at h c (first_id g (c_next c)) (last_id g (c_prev c)) /\ forest_at h (c_parent c) (c_prev c) g (c_next c).
Proof.
  induction c as [|c IH id l r]; intros g; cbn [plug ctx_at c_parent c_prev c_next]; [naive_solver|].
  rewrite IH. cbn [first_id last_id last tree_id]. split.
  - intros [Hc Ht]. apply forest_cons_inv in Ht as (n & Hn & Hp & Hpr & Hne & Hfi & Hla & Hcs & _).
    apply forest_app in Hcs as [Hl Hgr]. apply forest_app in Hgr as [Hg Hr].
    rewrite first_id_app in Hl. rewrite !first_id_app in Hfi. rewrite !last_id_app in Hla.
    split; [|done]. split; [by exists n | done].
  - intros [((n & Hn & Hp & Hpr & Hne & Hfi & Hla) & Hl & Hr & Hc) Hg]. split; [done|].
    apply fa_cons with n; try done; [by rewrite !first_id_app | by rewrite !last_id_app | | constructor].
    apply forest_app. rewrite first_id_app. split; [done|]. by apply forest_app.
Qed.

Lemma ctx_frame h h' c : forall fi la, ctx_at h c fi la ->
  (forall i, i ∈ ctx_ids c -> h' !! i = h !! i) -> ctx_at h' c fi la.
Proof.
  induction c as [|c IH id l r]; intros fi la Hc Heq; [done|].
  cbn [ctx_at ctx_ids] in *. destruct Hc as ((n & Hn & Hrest) & Hl & Hr & Hc). split; [|split; [|split]].
  - exists n. split; [|done]. rewrite Heq by set_solver. done.
  - eapply forest_frame; [done|]. intros i Hi. apply Heq. set_solver.
  - eapply forest_frame; [done|]. intros i Hi. apply Heq. set_solver.
  - apply IH; [done|]. intros i Hi. apply Heq. set_solver.
Qed.

(** ** Links from the context into the hole *)

Definition link_left (c : ctx) (v : option positive) (h : gmap positive dom_node) : gmap positive dom_node :=
  match c_prev c with
  | Some p => alter (set_nd_next v) p h
  | None => match c_parent c with Some q => alter (set_nd_first v) q h | None => h end
  end.

Definition link_right (c : ctx) (v : option positive) (h : gmap positive dom_node) : gmap positive dom_node :=
  match c_next c with
  | Some x => alter (set_nd_prev v) x h
  | None => match c_parent c with Some q => alter (set_nd_last v) q h | None => h end
  end.

Lemma alter_other (f : dom_node -> dom_node) i j (h : gmap positive dom_node) : i <> j -> alter f i h !! j = h !! j.
Proof. apply lookup_alter_ne. Qed.

(** Changing the pointer of the last sibling to what is beyond, and of the first
    one to what is before. *)
Lemma set_last_next h p prev l i cs next v : forest_at h p prev (l ++ [Node i cs]) next ->
  NoDup (forest_ids (l ++ [Node i cs])) ->
  forest_at (alter (set_nd_next v) i h) p prev (l ++ [Node i cs]) v.
Proof.
  intros H Hnd. rewrite forest_ids_app, forest_ids_cons in Hnd. apply forest_app in H as [Hl Hi].
  apply NoDup_app in Hnd as (_ & Hdis & Hnd). apply NoDup_cons in Hnd as [Hni _].
  apply forest_app. split.
  - eapply forest_frame; [exact Hl|]. intros j Hj. apply alter_other. intros ->. apply (Hdis j Hj). set_solver.
  - apply forest_cons_inv in Hi as (n & Hn & Hp & Hpr & Hne & Hfi & Hla & Hcs & _).
    apply fa_cons with (set_nd_next v n); try done; [by rewrite lookup_alter_eq, Hn | | constructor].
    eapply forest_frame; [exact Hcs|]. intros j Hj. apply alter_other. set_solver.
Qed.

Lemma set_first_prev h p prev i cs r next v : forest_at h p prev (Node i cs :: r) next ->
  NoDup (forest_ids (Node i cs :: r)) ->
  forest_at (alter (set_nd_prev v) i h) p v (Node i cs :: r) next.
Proof.
  intros H Hnd. rewrite forest_ids_cons in Hnd. apply NoDup_cons in Hnd as [Hni _].
  apply forest_cons_inv in H as (n & Hn & Hp & Hpr & Hne & Hfi & Hla & Hcs & Hr).
  apply fa_cons with (set_nd_prev v n); try done; [by rewrite lookup_alter_eq, Hn | |];
    (eapply forest_frame; [done|]; intros j Hj; apply alter_other; set_solver).
Qed.

Lemma ctx_link_left h c fi la v : ctx_at h c fi la -> NoDup (ctx_ids c) -> ctx_at (link_left c v h) c v la.
Proof.
  intros Hc Hnd. destruct c as [|c id l r]; [done|]. cbn [ctx_at ctx_ids] in *.
  apply NoDup_cons in Hnd as [Hid Hnd]. apply NoDup_app in Hnd as (Hndl & Hdl & Hnd).
  destruct Hc as ((n & Hn & Hp & Hpr & Hne & Hfi & Hla) & Hl & Hr & Hc).
  destruct l as [|[p ps] l' _] using rev_ind.
  - unfold link_left. cbn [c_prev last_id last c_parent].
    split; [exists (set_nd_first v n); by rewrite lookup_alter_eq, Hn|]. split; [constructor|].
    split; [eapply forest_frame; [exact Hr|] | eapply ctx_frame; [exact Hc|]];
      intros j Hj; apply alter_other; set_solver.
  - unfold link_left. cbn [c_prev c_parent]. rewrite last_id_app. cbn [last_id last tree_id].
    assert (Hpin : p ∈ forest_ids (l' ++ [Node p ps])) by (rewrite forest_ids_app, forest_ids_cons; set_solver).
    assert (Hne' : p <> id) by (intros ->; apply Hid, elem_of_app; by left).
    split; [exists n; rewrite alter_other by done; repeat (split; [done|]); split; [by destruct l' | done]|].
    split; [by eapply set_last_next|].
    split; [eapply forest_frame; [exact Hr|] | eapply ctx_frame; [exact Hc|]];
      intros j Hj; apply alter_other; intros ->; apply (Hdl j Hpin); set_solver.
Qed.

Lemma ctx_link_right h c fi la v : ctx_at h c fi la -> NoDup (ctx_ids c) -> ctx_at (link_right c v h) c fi v.
Proof.
  intros Hc Hnd. destruct c as [|c id l r]; [done|]. cbn [ctx_at ctx_ids] in *.
  apply NoDup_cons in Hnd as [Hid Hnd]. apply NoDup_app in Hnd as (Hndl & Hdl & Hnd).
  apply NoDup_app in Hnd as (Hndr & Hdr & _).
  destruct Hc as ((n & Hn & Hp & Hpr & Hne & Hfi & Hla) & Hl & Hr & Hc).
  destruct r as [|[x xs] r].
  - unfold link_right. cbn [c_next first_id c_parent].
    split; [exists (set_nd_last v n); by rewrite lookup_alter_eq, Hn|].
    split; [eapply forest_frame; [exact Hl|]; intros j Hj; apply alter_other; set_solver|].
    split; [constructor|]. eapply ctx_frame; [exact Hc|]. intros j Hj. apply alter_other. set_solver.
  - unfold link_right. cbn [c_next first_id tree_id].
    assert (Hxin : x ∈ forest_ids (Node x xs :: r)) by (rewrite forest_ids_cons; set_solver).
    assert (Hne' : x <> id) by (intros ->; apply Hid, elem_of_app; right; apply elem_of_app; by left).
    split; [exists n; rewrite alter_other by done; repeat (split; [done|]); by rewrite last_id_cons in *|].
    split; [eapply forest_frame; [exact Hl|]; intros j Hj; apply alter_other; intros ->; apply (Hdl j Hj); set_solver|].
    split; [by eapply set_first_prev|]. eapply ctx_frame; [exact Hc|]. intros j Hj. apply alter_other.
    intros ->. by apply (Hdr j Hxin).
Qed.
