(* ===== verification/DomLink.v ===== *)
(** * Insertion and removal of nodes refine insertion and removal of trees

    Each pointer-changing operation of [dom/interfaces/node.c], on a heap that
    holds a tree, succeeds, gives the heap that holds the changed tree and
    changes nothing but links. *)
From S2P Require Import Prelude.
From S2P Require Import DomNode.
From S2P Require Import DomTree.

#[local] Set Warnings "-clear-no-such-hyp".

(** ** Writes *)

Lemma upd_alter f i n (h : gmap positive dom_node) : h !! i = Some n -> upd f i h = Some (alter f i h).
Proof.
  intros Hn. unfold upd. rewrite Hn. cbn. f_equal. apply map_eq. intros j. destruct (decide (i = j)) as [->|Hj].
  - by rewrite lookup_insert_eq, lookup_alter_eq, Hn.
  - by rewrite lookup_insert_ne, lookup_alter_ne.
Qed.

(** What the links of a node are not. *)
Definition content (n : dom_node) : dom_node :=
  set_nd_next None (set_nd_prev None (set_nd_parent None (set_nd_first None (set_nd_last None n)))).

Definition same_content (h h' : gmap positive dom_node) : Prop := forall k, content <$> h' !! k = content <$> h !! k.

Lemma same_content_refl h : same_content h h.
Proof. done. Qed.

Lemma same_content_alter f i h h' : (forall n, content (f n) = content n) ->
  same_content h h' -> same_content h (alter f i h').
Proof.
  intros Hf Hs k. rewrite <- (Hs k). destruct (decide (i = k)) as [->|]; [|by rewrite lookup_alter_ne].
  rewrite lookup_alter_eq. destruct (h' !! k) as [n|]; cbn; [by rewrite Hf | done].
Qed.

Lemma same_content_left c v h h' : same_content h h' -> same_content h (link_left c v h').
Proof. intros H. unfold link_left. repeat case_match; [apply same_content_alter.. | done]; done. Qed.

Lemma same_content_right c v h h' : same_content h h' -> same_content h (link_right c v h').
Proof. intros H. unfold link_right. repeat case_match; [apply same_content_alter.. | done]; done. Qed.

Create HintDb dom.
#[export] Hint Resolve same_content_refl same_content_alter same_content_left same_content_right : dom.

(** ** The neighbours of the hole *)

Lemma last_id_in f d p : last_id f d = Some p -> d = Some p \/ p ∈ forest_ids f.
Proof.
  destruct f as [|[j js] f _] using rev_ind; [by left|]. rewrite last_id_app.
  intros [= ->]. right.
  rewrite forest_ids_app, forest_ids_cons. set_solver.
Qed.

Lemma first_id_in f d p : first_id f d = Some p -> d = Some p \/ p ∈ forest_ids f.
Proof. destruct f as [|[j js] f]; [by left|]. intros [= ->]. right. rewrite forest_ids_cons. set_solver. Qed.

Lemma c_prev_in c p : c_prev c = Some p -> p ∈ ctx_ids c.
Proof. destruct c as [|c id l r]; [done|]. cbn. intros H. apply last_id_in in H as [?|?]; [done | set_solver]. Qed.

Lemma c_next_in c p : c_next c = Some p -> p ∈ ctx_ids c.
Proof. destruct c as [|c id l r]; [done|]. cbn. intros H. apply first_id_in in H as [?|?]; [done | set_solver]. Qed.

Lemma c_parent_in c p : c_parent c = Some p -> p ∈ ctx_ids c.
Proof. destruct c as [|c id l r]; [done|]. cbn. intros [= ->]. set_solver. Qed.

Lemma ctx_alive h c : forall fi la, ctx_at h c fi la -> forall i, i ∈ ctx_ids c -> is_Some (h !! i).
Proof.
  induction c as [|c IH id l r]; intros fi la Hc i Hi; [by apply elem_of_nil in Hi|].
  cbn [ctx_at ctx_ids] in *. destruct Hc as ((n & Hn & _) & Hl & Hr & Hc).
  apply elem_of_cons in Hi as [->|Hi]; [by eexists|].
  apply elem_of_app in Hi as [Hi|Hi]; [exact (forest_alive _ _ _ _ _ Hl i Hi)|].
  apply elem_of_app in Hi as [Hi|Hi]; [exact (forest_alive _ _ _ _ _ Hr i Hi) | exact (IH _ _ Hc i Hi)].
Qed.

(** The writes of [insert_before], [insert_after] and [remove] to what surrounds
    a node. *)
Lemma upd_left h c fi la v : ctx_at h c fi la ->
  match c_prev c with
  | Some p => upd (set_nd_next v) p h
  | None => match c_parent c with Some q => upd (set_nd_first v) q h | None => Some h end
  end = Some (link_left c v h).
Proof.
  intros Hc. unfold link_left. destruct (c_prev c) as [p|] eqn:Ep.
  - destruct (ctx_alive h c fi la Hc p (c_prev_in c p Ep)) as [n Hn]. by apply (upd_alter _ _ n).
  - destruct (c_parent c) as [q|] eqn:Eq; [|done].
    destruct (ctx_alive h c fi la Hc q (c_parent_in c q Eq)) as [n Hn]. by apply (upd_alter _ _ n).
Qed.

Lemma upd_right h c fi la v : ctx_at h c fi la ->
  match c_next c with
  | Some x => upd (set_nd_prev v) x h
  | None => match c_parent c with Some q => upd (set_nd_last v) q h | None => Some h end
  end = Some (link_right c v h).
Proof.
  intros Hc. unfold link_right. destruct (c_next c) as [p|] eqn:Ep.
  - destruct (ctx_alive h c fi la Hc p (c_next_in c p Ep)) as [n Hn]. by apply (upd_alter _ _ n).
  - destruct (c_parent c) as [q|] eqn:Eq; [|done].
    destruct (ctx_alive h c fi la Hc q (c_parent_in c q Eq)) as [n Hn]. by apply (upd_alter _ _ n).
Qed.

Lemma link_left_other c v h k : k ∉ ctx_ids c -> link_left c v h !! k = h !! k.
Proof.
  intros Hk. unfold link_left. destruct (c_prev c) as [p|] eqn:Ep.
  - apply alter_other. intros ->. by apply Hk, c_prev_in.
  - destruct (c_parent c) as [q|] eqn:Eq; [|done]. apply alter_other. intros ->. by apply Hk, c_parent_in.
Qed.

Lemma link_right_other c v h k : k ∉ ctx_ids c -> link_right c v h !! k = h !! k.
Proof.
  intros Hk. unfold link_right. destruct (c_next c) as [p|] eqn:Ep.
  - apply alter_other. intros ->. by apply Hk, c_next_in.
  - destruct (c_parent c) as [q|] eqn:Eq; [|done]. apply alter_other. intros ->. by apply Hk, c_parent_in.
Qed.

(** A tree whose root has any outer links. *)
Definition subtree_at (h : gmap positive dom_node) (t : tree) : Prop :=
  exists n, h !! tree_id t = Some n /\ nd_first n = first_id (tree_children t) None /\
    nd_last n = last_id (tree_children t) None /\ forest_at h (Some (tree_id t)) None (tree_children t) None.

Lemma forest_subtree h p prev t f next : forest_at h p prev (t :: f) next -> subtree_at h t.
Proof. destruct t as [i cs]. intros H. apply forest_cons_inv in H as (n & Hn & _ & _ & _ & ? & ? & ? & _). by exists n. Qed.

(** A root between its neighbours, after its links are written. *)
Lemma tree_relink h h' i cs n p prev next : subtree_at h (Node i cs) -> NoDup (forest_ids [Node i cs]) ->
  (forall k, k ∈ forest_ids cs -> h' !! k = h !! k) ->
  h' !! i = Some n -> nd_parent n = p -> nd_prev n = prev -> nd_next n = next ->
  (forall m, h !! i = Some m -> nd_first n = nd_first m /\ nd_last n = nd_last m) ->
  forest_at h' p prev [Node i cs] next.
Proof.
  intros (m & Hm & Hfi & Hla & Hcs) Hnd Heq Hn Hp Hpr Hne Hends. cbn [tree_id tree_children] in *.
  destruct (Hends m Hm) as [E1 E2].
  apply fa_cons with n; try done; [by rewrite E1 | by rewrite E2 | by eapply forest_frame | constructor].
Qed.

(** ** The operations *)

Ltac heap := repeat first [rewrite lookup_alter_eq | rewrite lookup_alter_ne by congruence].

(** What an operation does besides: only links change, only of the nodes [ids]. *)
Definition writes_only (h h' : gmap positive dom_node) (ids : list positive) : Prop :=
  same_content h h' /\ forall k, k ∉ ids -> h' !! k = h !! k.

(** The nodes of the context, of the tree [Node i cs] in its hole and of a tree
    [Node j ds] outside are different. *)
Record apart (c : ctx) (i : positive) (cs : list tree) (j : positive) (ds : list tree) : Prop := {
  ap_ctx : NoDup (ctx_ids c);
  ap_in : NoDup (i :: forest_ids cs);
  ap_out : NoDup (j :: forest_ids ds);
  ap_i : i ∉ ctx_ids c;
  ap_j : j ∉ ctx_ids c;
  ap_ij : i <> j;
  ap_cs : forall k, k ∈ forest_ids cs -> (k ∉ ctx_ids c) /\ k <> i /\ k <> j;
  ap_ds : forall k, k ∈ forest_ids ds -> (k ∉ ctx_ids c) /\ k <> i /\ k <> j;
  ap_disj : forall k, k ∈ forest_ids cs -> k ∉ forest_ids ds
}.

Arguments ap_ctx {c i cs j ds}. Arguments ap_in {c i cs j ds}. Arguments ap_out {c i cs j ds}.
Arguments ap_i {c i cs j ds}. Arguments ap_j {c i cs j ds}. Arguments ap_ij {c i cs j ds}.
Arguments ap_cs {c i cs j ds}. Arguments ap_ds {c i cs j ds}. Arguments ap_disj {c i cs j ds}.

Lemma apart_ids c i cs j ds : NoDup (ctx_ids c ++ forest_ids [Node i cs; Node j ds]) -> apart c i cs j ds.
Proof.
  rewrite !forest_ids_cons, app_nil_r. intros Hnd. apply NoDup_app in Hnd as (Hc & Hdis & Hnd).
  pose proof Hnd as Hnd'. rewrite app_comm_cons in Hnd'. apply NoDup_app in Hnd' as (Hi & Hij & Hj).
  assert (Hout : forall k, k ∈ i :: forest_ids cs ++ j :: forest_ids ds -> k ∉ ctx_ids c)
    by (intros k Hk Hkc; by apply (Hdis k Hkc)).
  apply NoDup_cons in Hnd as [Hni _].
  assert (Hne : i <> j) by (intros ->; apply Hni; set_solver).
  split; try done; try (apply Hout; set_solver).
  - intros k Hk. split; [apply Hout; set_solver|]. split; intros ->; [apply Hni; set_solver|].
    apply (Hij j); set_solver.
  - intros k Hk. apply NoDup_cons in Hj as [Hj _]. split; [apply Hout; set_solver|]. split; intros ->; [|done].
    apply Hni. set_solver.
  - intros k Hk Hk'. apply (Hij k); set_solver.
Qed.

Lemma insert_before_tree h c i cs j ds :
  forest_at h None None (plug c [Node i cs]) None -> subtree_at h (Node j ds) -> apart c i cs j ds ->
  exists h', lxb_dom_node_insert_before h i j = Some h' /\
    forest_at h' None None (plug c [Node j ds; Node i cs]) None /\ writes_only h h' (i :: j :: ctx_ids c).
Proof.
  intros H Hx A. apply plug_at in H as [Hc Ht]. pose proof (forest_subtree _ _ _ _ _ _ Ht) as Ht'.
  apply forest_cons_inv in Ht as (n & Hn & Hp & Hpr & Hne & _). cbn [first_id last_id last tree_id] in *.
  pose proof Hx as (m & Hm & _). cbn [tree_id] in Hm. pose proof (ap_ij A) as Hij.
  unfold lxb_dom_node_insert_before. rewrite Hn. cbn [mbind option_bind]. rewrite Hpr, Hp, (upd_left h c _ _ _ Hc).
  cbn [mbind option_bind]. set (h1 := link_left c (Some j) h).
  assert (H1 : forall k, k ∉ ctx_ids c -> h1 !! k = h !! k) by (intros k; apply link_left_other).
  assert (H1i : h1 !! i = Some n) by (rewrite H1; [done | apply (ap_i A)]).
  assert (H1j : h1 !! j = Some m) by (rewrite H1; [done | apply (ap_j A)]).
  rewrite H1i. cbn [mbind option_bind]. rewrite (upd_alter _ j m) by done.
  cbn [mbind option_bind]. erewrite (upd_alter _ j) by (heap; by rewrite H1j).
  cbn [mbind option_bind]. heap. rewrite H1i. cbn [mbind option_bind].
  erewrite (upd_alter _ j) by (heap; by rewrite H1j). cbn [mbind option_bind].
  erewrite (upd_alter _ i) by (heap; by rewrite H1i). rewrite Hpr, Hp.
  set (h' := alter _ i _). exists h'. split; [done|].
  assert (Hother : forall k, k <> i -> k <> j -> h' !! k = h1 !! k) by (intros k Hki Hkj; unfold h'; by heap).
  assert (Hkeep : forall k, (k ∉ ctx_ids c) /\ k <> i /\ k <> j -> h' !! k = h !! k)
    by (intros k (? & ? & ?); by rewrite Hother, H1).
  split.
  - apply plug_at. cbn [first_id last_id last tree_id]. split.
    + apply ctx_frame with h1; [by apply (ctx_link_left h c (Some i)), (ap_ctx A)|].
      intros k Hk. apply Hother; intros ->; [by apply (ap_i A) | by apply (ap_j A)].
    + apply (forest_app h' (c_parent c) [Node j ds] [Node i cs]). cbn [first_id last_id last tree_id]. split.
      * eapply (tree_relink h h' j ds); [exact Hx | | | unfold h'; heap; by rewrite H1j | done | done | done |].
        -- rewrite forest_ids_cons, app_nil_r. apply (ap_out A).
        -- intros k Hk. by apply Hkeep, (ap_ds A).
        -- intros m' Hm'. replace m' with m by congruence. done.
      * eapply (tree_relink h h' i cs); [exact Ht' | | | unfold h'; heap; by rewrite H1i | done | done | done |].
        -- rewrite forest_ids_cons, app_nil_r. apply (ap_in A).
        -- intros k Hk. by apply Hkeep, (ap_cs A).
        -- intros m' Hm'. replace m' with n by congruence. done.
  - split; [unfold h', h1; auto 20 with dom|]. intros k Hk. apply Hkeep. set_solver.
Qed.

Lemma insert_after_tree h c i cs j ds :
  forest_at h None None (plug c [Node i cs]) None -> subtree_at h (Node j ds) -> apart c i cs j ds ->
  exists h', lxb_dom_node_insert_after h i j = Some h' /\
    forest_at h' None None (plug c [Node i cs; Node j ds]) None /\ writes_only h h' (i :: j :: ctx_ids c).
Proof.
  intros H Hx A. apply plug_at in H as [Hc Ht]. pose proof (forest_subtree _ _ _ _ _ _ Ht) as Ht'.
  apply forest_cons_inv in Ht as (n & Hn & Hp & Hpr & Hne & _). cbn [first_id last_id last tree_id] in *.
  pose proof Hx as (m & Hm & _). cbn [tree_id] in Hm. pose proof (ap_ij A) as Hij.
  unfold lxb_dom_node_insert_after. rewrite Hn. cbn [mbind option_bind]. rewrite Hne, Hp, (upd_right h c _ _ _ Hc).
  cbn [mbind option_bind]. set (h1 := link_right c (Some j) h).
  assert (H1 : forall k, k ∉ ctx_ids c -> h1 !! k = h !! k) by (intros k; apply link_right_other).
  assert (H1i : h1 !! i = Some n) by (rewrite H1; [done | apply (ap_i A)]).
  assert (H1j : h1 !! j = Some m) by (rewrite H1; [done | apply (ap_j A)]).
  rewrite H1i. cbn [mbind option_bind]. rewrite (upd_alter _ j m) by done.
  cbn [mbind option_bind]. heap. rewrite H1i. cbn [mbind option_bind].
  erewrite (upd_alter _ j) by (heap; by rewrite H1j). cbn [mbind option_bind].
  erewrite (upd_alter _ j) by (heap; by rewrite H1j). cbn [mbind option_bind].
  erewrite (upd_alter _ i) by (heap; by rewrite H1i). rewrite Hne, Hp.
  set (h' := alter _ i _). exists h'. split; [done|].
  assert (Hother : forall k, k <> i -> k <> j -> h' !! k = h1 !! k) by (intros k Hki Hkj; unfold h'; by heap).
  assert (Hkeep : forall k, (k ∉ ctx_ids c) /\ k <> i /\ k <> j -> h' !! k = h !! k)
    by (intros k (? & ? & ?); by rewrite Hother, H1).
  split.
  - apply plug_at. cbn [first_id last_id last tree_id]. split.
    + apply ctx_frame with h1; [apply (ctx_link_right h c _ (Some i)); [done | apply (ap_ctx A)]|].
      intros k Hk. apply Hother; intros ->; [by apply (ap_i A) | by apply (ap_j A)].
    + apply (forest_app h' (c_parent c) [Node i cs] [Node j ds]). cbn [first_id last_id last tree_id]. split.
      * eapply (tree_relink h h' i cs); [exact Ht' | | | unfold h'; heap; by rewrite H1i | done | done | done |].
        -- rewrite forest_ids_cons, app_nil_r. apply (ap_in A).
        -- intros k Hk. by apply Hkeep, (ap_cs A).
        -- intros m' Hm'. replace m' with n by congruence. done.
      * eapply (tree_relink h h' j ds); [exact Hx | | | unfold h'; heap; by rewrite H1j | done | done | done |].
        -- rewrite forest_ids_cons, app_nil_r. apply (ap_out A).
        -- intros k Hk. by apply Hkeep, (ap_ds A).
        -- intros m' Hm'. replace m' with m by congruence. done.
  - split; [unfold h', h1; auto 20 with dom|]. intros k Hk. apply Hkeep. set_solver.
Qed.

Lemma insert_child_tree h c i cs j ds :
  forest_at h None None (plug c [Node i cs]) None -> subtree_at h (Node j ds) -> apart c i cs j ds ->
  exists h', lxb_dom_node_insert_child h i j = Some h' /\
    forest_at h' None None (plug c [Node i (cs ++ [Node j ds])]) None /\
    writes_only h h' (i :: j :: forest_ids cs).
Proof.
  intros H Hx A. pose (c1 := Under c i cs []).
  assert (Hp : forest_at h None None (plug c1 []) None) by (cbn; by rewrite app_nil_r).
  apply plug_at in H as [_ Ht]. apply forest_cons_inv in Ht as (n & Hn & _ & _ & _ & _ & Hla & _).
  apply plug_at in Hp as [Hc _]. cbn [first_id last_id last] in Hc.
  pose proof Hx as (m & Hm & _). cbn [tree_id] in Hm. pose proof (ap_ij A) as Hij.
  assert (Hndc : NoDup (ctx_ids c1)).
  { cbn [c1 ctx_ids forest_ids flat_map app]. rewrite app_comm_cons. apply NoDup_app. split; [apply (ap_in A)|].
    split; [|apply (ap_ctx A)]. intros k [->|Hk]%elem_of_cons; [apply (ap_i A) | by apply (ap_cs A)]. }
  assert (Hjc : j ∉ ctx_ids c1).
  { cbn [c1 ctx_ids forest_ids flat_map app]. intros [->|[Hk|Hk]%elem_of_app]%elem_of_cons; [done | | by apply (ap_j A)].
    by apply (ap_cs A) in Hk as (_ & _ & ?). }
  unfold lxb_dom_node_insert_child. rewrite Hn. cbn [mbind option_bind]. rewrite Hla.
  pose proof (upd_left h c1 _ _ (Some j) Hc) as Hl. cbn [c1 c_prev c_parent] in Hl. fold c1 in Hl. rewrite Hl. clear Hl.
  cbn [mbind option_bind]. set (h1 := link_left c1 (Some j) h).
  assert (H1 : forall k, k ∉ ctx_ids c1 -> h1 !! k = h !! k) by (intros k; apply link_left_other).
  assert (H1j : h1 !! j = Some m) by (by rewrite H1).
  pose proof (ctx_link_left h c1 _ _ (Some j) Hc Hndc) as Hc1. fold h1 in Hc1.
  destruct (proj1 Hc1) as (n1 & Hn1 & _ & _ & _ & _ & Hla1). cbn [last_id last] in Hla1.
  rewrite (upd_alter _ j m) by done. cbn [mbind option_bind].
  erewrite (upd_alter _ j) by (heap; by rewrite H1j). cbn [mbind option_bind]. heap. rewrite Hn1.
  cbn [mbind option_bind]. erewrite (upd_alter _ j) by (heap; by rewrite H1j). cbn [mbind option_bind].
  erewrite (upd_alter _ i) by (heap; done). rewrite Hla1. cbn [c1 c_prev]. set (h' := alter _ i _). exists h'. split; [done|].
  assert (Hother : forall k, k <> i -> k <> j -> h' !! k = h1 !! k) by (intros k Hki Hkj; unfold h'; by heap).
  assert (Hj : h' !! j = Some (set_nd_prev (last_id cs None) (set_nd_next None (set_nd_parent (Some i) m))))
    by (unfold h'; heap; by rewrite H1j).
  split; [|split].
  - change (plug c [Node i (cs ++ [Node j ds])]) with (plug c1 [Node j ds]).
    apply plug_at. cbn [first_id last_id last tree_id]. split.
    + apply ctx_frame with (link_right c1 (Some j) h1); [by eapply ctx_link_right|].
      unfold link_right. cbn [c1 c_next first_id c_parent]. intros k Hk.
      assert (Hkj : k <> j) by (intros ->; done). unfold h'.
      destruct (decide (k = i)) as [->|Hki]; [by rewrite !lookup_alter_eq; heap | by heap].
    + eapply (tree_relink h h' j ds); [exact Hx | | | exact Hj | done | done | done |].
      * rewrite forest_ids_cons, app_nil_r. apply (ap_out A).
      * intros k Hk. apply (ap_ds A) in Hk as Hk'. destruct Hk' as (Hkc & Hki & Hkj). rewrite Hother by done. apply H1.
        cbn [c1 ctx_ids forest_ids flat_map app]. intros [?|[Hkd|?]%elem_of_app]%elem_of_cons; [done | | done].
        by apply (ap_disj A k).
      * intros m' Hm'. replace m' with m by congruence. done.
  - unfold h', h1; auto 20 with dom.
  - intros k Hk. rewrite Hother by set_solver.
    unfold h1, link_left. cbn [c1 c_prev c_parent]. destruct (last_id cs None) as [p|] eqn:Ep.
    + apply alter_other. intros ->. apply last_id_in in Ep as [?|?]; [done | set_solver].
    + apply alter_other. set_solver.
Qed.

Lemma first_id_not i f : i ∉ forest_ids f -> f <> [] -> first_id f (Some i) <> Some i.
Proof. intros Hi Hf [= E]. destruct f as [|[j js] f]; [done|]. cbn in E. apply Hi. rewrite forest_ids_cons. set_solver. Qed.

Lemma last_id_none f : last_id f None = None -> f = [].
Proof. destruct f as [|t f _] using rev_ind; [done|]. by rewrite last_id_app. Qed.

Lemma last_id_not i f : i ∉ forest_ids f -> f <> [] -> last_id f (Some i) <> Some i.
Proof.
  intros Hi Hf E. destruct f as [|[j js] f _] using rev_ind; [done|]. rewrite last_id_app in E. injection E as ->.
  apply Hi. rewrite forest_ids_app, forest_ids_cons. set_solver.
Qed.

(** The right neighbour's or the parent's pointer to a node, in two steps. *)
Lemma unlink_right h c q l r i n fi : ctx_at h (Under c q l r) fi (Some i) -> i ∉ ctx_ids (Under c q l r) ->
  h !! i = Some n -> nd_next n = first_id r None ->
  (h ← (p ← h !! q; if bool_decide (nd_last p = Some i) then upd (set_nd_last (nd_prev n)) q h else Some h);
   n ← h !! i;
   h ← match nd_next n with Some x => upd (set_nd_prev (nd_prev n)) x h | None => Some h end;
   Some (n, h)) = Some (n, link_right (Under c q l r) (nd_prev n) h).
Proof.
  intros Hc Hi Hn Hne. pose proof (upd_right h _ _ _ (nd_prev n) Hc) as E. cbn [c_next c_parent] in E.
  destruct Hc as ((m & Hm & _ & _ & _ & _ & Hla) & _). rewrite Hm. cbn [mbind option_bind]. rewrite Hla.
  pose proof (link_right_other (Under c q l r) (nd_prev n) h i Hi) as Ho. rewrite Hn in Ho.
  cbn [ctx_ids] in Hi. destruct r as [|[x xs] r].
  - rewrite bool_decide_true by done. cbn [first_id] in E, Hne. rewrite E. cbn [mbind option_bind]. rewrite Ho.
    cbn [mbind option_bind]. by rewrite Hne.
  - rewrite bool_decide_false by (apply last_id_not; [set_solver | done]). cbn [mbind option_bind]. rewrite Hn.
    cbn [mbind option_bind]. rewrite Hne. cbn [first_id tree_id] in E |- *. by rewrite E.
Qed.

Lemma bind_tail i (X : option (gmap positive dom_node)) (M : dom_node -> gmap positive dom_node -> option (gmap positive dom_node))
    n1 h1 {A} (K : gmap positive dom_node -> option A) :
  (h ← X; n ← h !! i; h ← M n h; Some (n, h)) = Some (n1, h1) ->
  (h ← X; n ← h !! i; h ← M n h; K h) = K h1.
Proof.
  destruct X as [h|]; cbn [mbind option_bind]; [|done]. destruct (h !! i) as [n|]; cbn [mbind option_bind]; [|done].
  destruct (M n h) as [h'|]; cbn [mbind option_bind]; [|done]. by intros [= _ ->].
Qed.

(** What pointed to the node points beyond it. *)
Lemma unlink_spec h c i n : ctx_at h c (Some i) (Some i) -> NoDup (ctx_ids c) -> i ∉ ctx_ids c -> h !! i = Some n ->
  nd_parent n = c_parent c -> nd_prev n = c_prev c -> nd_next n = c_next c ->
  exists h1, unlink h i = Some h1 /\ ctx_at h1 c (c_next c) (c_prev c) /\ writes_only h h1 (ctx_ids c).
Proof.
  intros Hc Hnd Hi Hn Hp Hpr Hne. unfold unlink. rewrite Hn. cbn [mbind option_bind]. rewrite Hp.
  destruct c as [|c q l r].
  { cbn [c_parent c_prev c_next mbind option_bind] in *. rewrite Hn. cbn [mbind option_bind]. rewrite Hne.
    cbn [mbind option_bind]. rewrite Hn. cbn [mbind option_bind]. rewrite Hpr. exists h. by repeat split. }
  set (c1 := Under c q l r) in *. cbn [c_parent c1]. pose proof Hc as ((m & Hm & _ & _ & _ & Hfi & _) & _).
  rewrite Hm. cbn [mbind option_bind]. rewrite Hfi.
  assert (Hil : i ∉ forest_ids l) by (intros ?; apply Hi; cbn; set_solver).
  pose proof (fun h0 => link_left_other c1 (c_next c1) h0 i Hi) as Hol.
  pose proof (fun h0 => link_right_other c1 (c_prev c1) h0 i Hi) as Hor.
  destruct (decide (l = [])) as [->|Hl].
  - rewrite bool_decide_true by done. rewrite Hne. pose proof (upd_left h c1 _ _ (c_next c1) Hc) as E.
    cbn [c_prev c_parent c1 last_id last] in E. fold c1 in E. rewrite E. cbn [mbind option_bind].
    pose proof (ctx_link_left h c1 _ _ (c_next c1) Hc Hnd) as Hc2. set (h2 := link_left c1 (c_next c1) h) in *.
    assert (Hn2 : h2 !! i = Some n) by (unfold h2; by rewrite Hol).
    pose proof (unlink_right h2 c q [] r i n _ Hc2 Hi Hn2 Hne) as E2. fold c1 in E2.
    rewrite (bind_tail i _ (fun n h => match nd_next n with Some x => upd (set_nd_prev (nd_prev n)) x h | None => Some h end)
      _ _ _ E2), Hpr, Hor, Hn2. cbn [mbind option_bind]. rewrite Hpr. cbn [c1 c_prev last_id last]. fold c1.
    exists (link_right c1 None h2). split; [done|]. split; [by apply (ctx_link_right h2 c1 (c_next c1) (Some i))|].
    split; [unfold h2; auto with dom|]. intros k Hk. rewrite link_right_other by done. by apply link_left_other.
  - rewrite bool_decide_false by (by apply first_id_not). cbn [mbind option_bind].
    pose proof (unlink_right h c q l r i n _ Hc Hi Hn Hne) as E2. fold c1 in E2.
    rewrite (bind_tail i _ (fun n h => match nd_next n with Some x => upd (set_nd_prev (nd_prev n)) x h | None => Some h end)
      _ _ _ E2), Hpr, Hor, Hn. cbn [mbind option_bind]. rewrite Hpr, Hne.
    pose proof (ctx_link_right h c1 _ _ (c_prev c1) Hc Hnd) as Hc2. set (h2 := link_right c1 (c_prev c1) h) in *.
    pose proof (upd_left h2 c1 _ _ (c_next c1) Hc2) as E. cbn [c1 c_prev] in E |- *. fold c1 in E |- *.
    destruct (last_id l None) as [p|] eqn:Ep; [|by destruct (last_id_none l Ep)].
    exists (link_left c1 (c_next c1) h2). split; [exact E|]. split.
    { replace (Some p) with (c_prev c1) by done. by apply (ctx_link_left h2 c1 (Some i) (c_prev c1)). }
    split; [unfold h2; auto with dom|]. intros k Hk. rewrite link_left_other by done. by apply link_right_other.
Qed.

Lemma remove_tree h c i cs : forest_at h None None (plug c [Node i cs]) None ->
  NoDup (ctx_ids c ++ forest_ids [Node i cs]) ->
  exists h', lxb_dom_node_remove h i = Some h' /\ forest_at h' None None (plug c []) None /\
    forest_at h' None None [Node i cs] None /\ writes_only h h' (i :: ctx_ids c).
Proof.
  intros H Hnd. apply plug_at in H as [Hc Ht]. pose proof (forest_subtree _ _ _ _ _ _ Ht) as Ht'.
  apply forest_cons_inv in Ht as (n & Hn & Hp & Hpr & Hne & _). cbn [first_id last_id last tree_id] in *.
  apply NoDup_app in Hnd as (Hndc & Hdis & Hndi).
  assert (Hout : forall k, k ∈ forest_ids [Node i cs] -> k ∉ ctx_ids c) by (intros k Hk Hkc; by apply (Hdis k)).
  assert (Hi : i ∉ ctx_ids c) by (apply Hout; rewrite forest_ids_cons; set_solver).
  destruct (unlink_spec h c i n Hc Hndc Hi Hn Hp Hpr Hne) as (h1 & E & Hc1 & Hs & H1).
  assert (H1i : h1 !! i = Some n) by (by rewrite H1).
  unfold lxb_dom_node_remove. rewrite E. cbn [mbind option_bind]. rewrite (upd_alter _ i n) by done.
  cbn [mbind option_bind]. erewrite (upd_alter _ i) by (heap; by rewrite H1i). cbn [mbind option_bind].
  erewrite (upd_alter _ i) by (heap; by rewrite H1i). set (h' := alter _ i _). exists h'. split; [done|].
  assert (Hother : forall k, k <> i -> h' !! k = h1 !! k) by (intros k Hki; unfold h'; by heap).
  split; [|split; [|split]].
  - apply plug_at. split; [|constructor]. apply ctx_frame with h1; [done|]. intros k Hk. apply Hother. by intros ->.
  - eapply (tree_relink h h' i cs); [exact Ht' | done | | unfold h'; heap; by rewrite H1i | done | done | done |].
    + intros k Hk. rewrite forest_ids_cons, app_nil_r in Hndi. apply NoDup_cons in Hndi as [Hik _].
      rewrite Hother by (by intros ->). apply H1, Hout. rewrite forest_ids_cons. set_solver.
    + intros m' Hm'. replace m' with n by congruence. done.
  - unfold h'; auto 10 with dom.
  - intros k Hk. rewrite Hother by set_solver. apply H1. set_solver.
Qed.

(** C15: inserting a node refines inserting a tree.  On a heap that holds a tree
    with the node [i] anywhere in it, and a separate tree [j],
    [lxb_dom_node_insert_before], [insert_after] and [insert_child] succeed and
    leave the tree with [j] before [i], after [i] and as the last child of [i];
    they change links only, of the nodes around the place. *)
Theorem insert_refines h c i cs j ds :
  forest_at h None None (plug c [Node i cs]) None -> subtree_at h (Node j ds) ->
  NoDup (ctx_ids c ++ forest_ids [Node i cs; Node j ds]) ->
  (exists h', lxb_dom_node_insert_before h i j = Some h' /\
    forest_at h' None None (plug c [Node j ds; Node i cs]) None /\ writes_only h h' (i :: j :: ctx_ids c)) /\
  (exists h', lxb_dom_node_insert_after h i j = Some h' /\
    forest_at h' None None (plug c [Node i cs; Node j ds]) None /\ writes_only h h' (i :: j :: ctx_ids c)) /\
  (exists h', lxb_dom_node_insert_child h i j = Some h' /\
    forest_at h' None None (plug c [Node i (cs ++ [Node j ds])]) None /\ writes_only h h' (i :: j :: forest_ids cs)).
Proof.
  intros H Hx A%apart_ids.
  split; [by apply insert_before_tree|]. split; [by apply insert_after_tree | by apply insert_child_tree].
Qed.

(** C16: removing a node refines cutting a tree out of a tree.
    [lxb_dom_node_remove] on a heap that holds a tree with the node [i] anywhere
    in it succeeds and leaves the tree without [i], and [i] with all below it as
    a tree of its own; it changes links only, of [i] and the nodes around it. *)
Theorem remove_refines h c i cs : forest_at h None None (plug c [Node i cs]) None ->
  NoDup (ctx_ids c ++ forest_ids [Node i cs]) ->
  exists h', lxb_dom_node_remove h i = Some h' /\ forest_at h' None None (plug c []) None /\
    forest_at h' None None [Node i cs] None /\ writes_only h h' (i :: ctx_ids c).
Proof. apply remove_tree. Qed.

(** ** A document [1] with children [2] and [3], and a tree [4] with child [5] *)

Definition linked (parent prev next first last : option positive) (type : Z) (data : list Z) : dom_node :=
  mk_node next prev parent first last 0 0 type data None None None None None.

Definition example_nodes : gmap positive dom_node := list_to_map [
  (1%positive, linked None None None (Some 2) (Some 3) LXB_DOM_NODE_TYPE_ELEMENT []);
  (2%positive, linked (Some 1) None (Some 3) None None LXB_DOM_NODE_TYPE_TEXT [0x61; 0x62]%Z);
  (3%positive, linked (Some 1) (Some 2) None None None LXB_DOM_NODE_TYPE_COMMENT [0x63]%Z);
  (4%positive, linked None None None (Some 5) (Some 5) LXB_DOM_NODE_TYPE_ELEMENT []);
  (5%positive, linked (Some 4) None None None None LXB_DOM_NODE_TYPE_TEXT [0x64]%Z)]%positive.

(** Checks the layout of a concrete heap. *)
Ltac laid_out := repeat first [apply fa_nil | eapply fa_cons; [vm_compute; reflexivity | reflexivity..| |]].

Lemma insert_refines_witness :
  exists h', lxb_dom_node_insert_before example_nodes 3 4 = Some h' /\
    forest_at h' None None [Node 1 [Node 2 []; Node 4 [Node 5 []]; Node 3 []]] None.
Proof.
  destruct (insert_refines example_nodes (Under Hole 1 [Node 2 []] []) 3 [] 4 [Node 5 []]) as ((h' & E & Hf & _) & _).
  - laid_out.
  - eexists. split; [vm_compute; reflexivity|]. repeat (split; [reflexivity|]). laid_out.
  - apply (bool_decide_unpack _). vm_compute. exact I.
  - by exists h'.
Defined.

Lemma remove_refines_witness :
  exists h', lxb_dom_node_remove example_nodes 2 = Some h' /\ forest_at h' None None [Node 1 [Node 3 []]] None.
Proof.
  destruct (remove_refines example_nodes (Under Hole 1 [] [Node 3 []]) 2 []) as (h' & E & Hf & _).
  - laid_out.
  - apply (bool_decide_unpack _). vm_compute. exact I.
  - by exists h'.
Defined.
