(* ===== verification/DomPointers.v ===== *)
(** * The pointers between nodes

    Every node has five pointers.  [links] says that they agree: a node's [next] has
    it as [prev] and the same parent, [first_child] and [last_child] are the children
    without a [prev] and without a [next].  Insertion and removal keep this for any
    heap, a tree or not, which is what a tree builder can rely on: it moves nodes
    without looking at what is below them. *)
From S2P Require Import Prelude.
From S2P Require Import DomNode.

(** ** The pointers of the nodes of a heap *)

Definition nx (h : gmap positive dom_node) i := h !! i ≫= nd_next.
Definition pv (h : gmap positive dom_node) i := h !! i ≫= nd_prev.
Definition pa (h : gmap positive dom_node) i := h !! i ≫= nd_parent.
Definition fs (h : gmap positive dom_node) i := h !! i ≫= nd_first.
Definition la (h : gmap positive dom_node) i := h !! i ≫= nd_last.

Record links (h : gmap positive dom_node) : Prop := {
  lk_next i j : nx h i = Some j <-> pv h j = Some i;
  lk_sibling i j : nx h i = Some j -> pa h i = pa h j /\ pa h i <> None;
  lk_first p c : fs h p = Some c <-> pa h c = Some p /\ pv h c = None;
  lk_last p c : la h p = Some c <-> pa h c = Some p /\ nx h c = None;
  lk_ends p : fs h p = None <-> la h p = None;
  lk_parent c p : pa h c = Some p -> is_Some (h !! p)
}.

(** A heap with these pointers. *)
Record points (h : gmap positive dom_node) (n p a f l : positive -> option positive) : Prop := {
  po_next k : nx h k = n k; po_prev k : pv h k = p k; po_parent k : pa h k = a k;
  po_first k : fs h k = f k; po_last k : la h k = l k
}.

Definition set_at {A} (g : positive -> A) (i : positive) (v : A) (k : positive) : A := if decide (k = i) then v else g k.

Lemma points_self h : points h (nx h) (pv h) (pa h) (fs h) (la h).
Proof. done. Qed.

Section Upd.
Context (h h' : gmap positive dom_node) (n p a f l : positive -> option positive) (i : positive) (v : option positive).
Context (Hp : points h n p a f l).

Ltac field := 
  intros H; unfold upd in H; destruct (h !! i) as [m|] eqn:Em; [|done]; injection H as <-;
  destruct Hp as [H1 H2 H3 H4 H5]; unfold nx, pv, pa, fs, la in *;
  split; intros k; unfold set_at, nx, pv, pa, fs, la; [rewrite <- H1 | rewrite <- H2 | rewrite <- H3 | rewrite <- H4 | rewrite <- H5];
    destruct (decide (k = i)) as [->|Hk]; rewrite ?lookup_insert_eq, ?lookup_insert_ne, ?Em by congruence; try reflexivity.

Lemma upd_next : upd (set_nd_next v) i h = Some h' -> points h' (set_at n i v) p a f l.
Proof. field. Qed.
Lemma upd_prev : upd (set_nd_prev v) i h = Some h' -> points h' n (set_at p i v) a f l.
Proof. field. Qed.
Lemma upd_parent : upd (set_nd_parent v) i h = Some h' -> points h' n p (set_at a i v) f l.
Proof. field. Qed.
Lemma upd_first : upd (set_nd_first v) i h = Some h' -> points h' n p a (set_at f i v) l.
Proof. field. Qed.
Lemma upd_last : upd (set_nd_last v) i h = Some h' -> points h' n p a f (set_at l i v).
Proof. field. Qed.
End Upd.

Lemma upd_alive g i h h' : upd g i h = Some h' -> is_Some (h !! i) /\ forall k, is_Some (h' !! k) <-> is_Some (h !! k).
Proof.
  unfold upd. destruct (h !! i) as [m|] eqn:E; [|done]. intros [= <-]. split; [done|]. intros k.
  destruct (decide (k = i)) as [->|Hk]; [by rewrite lookup_insert_eq, E | by rewrite lookup_insert_ne].
Qed.

Lemma points_read h n p a f l i m : points h n p a f l -> h !! i = Some m ->
  nd_next m = n i /\ nd_prev m = p i /\ nd_parent m = a i /\ nd_first m = f i /\ nd_last m = l i.
Proof. intros [H1 H2 H3 H4 H5] Hm. rewrite <- H1, <- H2, <- H3, <- H4, <- H5. unfold nx, pv, pa, fs, la. by rewrite Hm. Qed.

Definition same_alive (h h' : gmap positive dom_node) : Prop := forall k, is_Some (h' !! k) <-> is_Some (h !! k).

(** One step of an operation: what is read and what is written. *)
Ltac write E Hp :=
  let Ha := fresh "Ha" in
  pose proof (proj2 (upd_alive _ _ _ _ E)) as Ha;
  first [eapply (upd_next _ _ _ _ _ _ _ _ _ Hp) in E | eapply (upd_prev _ _ _ _ _ _ _ _ _ Hp) in E
        | eapply (upd_parent _ _ _ _ _ _ _ _ _ Hp) in E | eapply (upd_first _ _ _ _ _ _ _ _ _ Hp) in E
        | eapply (upd_last _ _ _ _ _ _ _ _ _ Hp) in E];
  clear Hp; rename E into Hp.

Ltac step H Hp :=
  lazymatch type of H with
  | upd ?g ?i ?h = Some _ => write H Hp
  | (upd ?g ?i ?h ≫= _) = Some _ =>
      let h1 := fresh "h" in let E := fresh "E" in
      destruct (upd g i h) as [h1|] eqn:E; [|discriminate H]; cbn [mbind option_bind] in H; write E Hp
  | (?h !! ?i ≫= _) = Some _ =>
      let m := fresh "m" in let E := fresh "E" in
      destruct (h !! i) as [m|] eqn:E; [|discriminate H]; cbn [mbind option_bind] in H;
      let H1 := fresh in let H2 := fresh in let H3 := fresh in let H4 := fresh in let H5 := fresh in
      destruct (points_read _ _ _ _ _ _ _ _ Hp E) as (H1 & H2 & H3 & H4 & H5);
      rewrite ?H1, ?H2, ?H3, ?H4, ?H5 in H; clear H1 H2 H3 H4 H5
  | (Some _ ≫= _) = Some _ => cbn [mbind option_bind] in H
  end.

Ltac alive := unfold same_alive; intros ?; repeat match goal with H : forall _, is_Some _ <-> is_Some _ |- _ => rewrite H; clear H end; reflexivity.

Lemma insert_child_points h to node h' : lxb_dom_node_insert_child h to node = Some h' ->
  same_alive h h' /\ is_Some (h !! to) /\
  points h' (set_at (match la h to with Some l => set_at (nx h) l (Some node) | None => nx h end) node None)
    (set_at (pv h) node (la h to)) (set_at (pa h) node (Some to))
    (match la h to with Some _ => fs h | None => set_at (fs h) to (Some node) end) (set_at (la h) to (Some node)).
Proof.
  intros H. pose proof (points_self h) as Hp. unfold lxb_dom_node_insert_child in H.
  step H Hp. destruct (la h to) as [l|] eqn:El; repeat step H Hp; rewrite El in Hp;
  (split; [alive|]; split; [done|]; exact Hp).
Qed.

Lemma insert_before_points h to node h' : lxb_dom_node_insert_before h to node = Some h' ->
  same_alive h h' /\ is_Some (h !! to) /\
  points h' (set_at (match pv h to with Some l => set_at (nx h) l (Some node) | None => nx h end) node (Some to))
    (set_at (set_at (pv h) node (pv h to)) to (Some node)) (set_at (pa h) node (pa h to))
    (match pv h to, pa h to with None, Some q => set_at (fs h) q (Some node) | _, _ => fs h end) (la h).
Proof.
  intros H. pose proof (points_self h) as Hp. unfold lxb_dom_node_insert_before in H.
  step H Hp. destruct (pv h to) as [l|] eqn:El; [|destruct (pa h to) as [q|] eqn:Eq]; repeat step H Hp; rewrite ?El, ?Eq in Hp.
  all: (split; [alive|]; split; [done|]; exact Hp).
Qed.

Lemma links_set_same {A} (g : positive -> A) i j : set_at g i (g j) j = g j.
Proof. unfold set_at. by destruct (decide _). Qed.

Lemma remove_points h node h' : lxb_dom_node_remove h node = Some h' ->
  same_alive h h' /\ is_Some (h !! node) /\
  points h' (set_at (match pv h node with Some y => set_at (nx h) y (nx h node) | None => nx h end) node None)
    (set_at (match nx h node with Some x => set_at (pv h) x (pv h node) | None => pv h end) node None)
    (set_at (pa h) node None)
    (match pa h node with Some q => if bool_decide (fs h q = Some node) then set_at (fs h) q (nx h node) else fs h | None => fs h end)
    (match pa h node with Some q => if bool_decide (la h q = Some node) then set_at (la h) q (pv h node) else la h | None => la h end).
Proof.
  intros H. pose proof (points_self h) as Hp. unfold lxb_dom_node_remove in H.
  destruct (unlink h node) as [hu|] eqn:Eu; [|done]. cbn [mbind option_bind] in H.
  unfold unlink in Eu. step Eu Hp. apply bind_Some in Eu as (h1 & E1 & Eu).
  assert (same_alive h h1 /\ points h1 (nx h) (pv h) (pa h)
    (match pa h node with Some q => if bool_decide (fs h q = Some node) then set_at (fs h) q (nx h node) else fs h | None => fs h end)
    (match pa h node with Some q => if bool_decide (la h q = Some node) then set_at (la h) q (pv h node) else la h | None => la h end))
    as [Ha0 Hp1].
  { destruct (pa h node) as [q|]; [|by injection E1 as <-].
    step E1 Hp. apply bind_Some in E1 as (h2 & E2 & E1).
    destruct (bool_decide (fs h q = Some node)); [step E2 Hp | injection E2 as <-]; step E1 Hp;
      (destruct (bool_decide (la h q = Some node)); [step E1 Hp | injection E1 as <-]); (split; [alive | exact Hp]). }
  clear E1 Hp. rename Hp1 into Hp. step Eu Hp. apply bind_Some in Eu as (h2 & E2 & Eu).
  match type of Hp with points _ _ _ _ ?F ?L => set (F0 := F) in *; set (L0 := L) in * end.
  assert (same_alive h1 h2 /\ points h2 (nx h) (match nx h node with Some x => set_at (pv h) x (pv h node) | None => pv h end) (pa h) F0 L0)
    as [Ha1 Hp2].
  { destruct (nx h node) as [x|]; [step E2 Hp | injection E2 as <-]; (split; [alive | exact Hp]). }
  clear E2 Hp. rename Hp2 into Hp. step Eu Hp.
  replace ((match nx h node with Some x => set_at (pv h) x (pv h node) | None => pv h end) node) with (pv h node) in Eu
    by (destruct (nx h node); [by rewrite links_set_same | done]).
  assert (same_alive h2 hu /\ points hu (match pv h node with Some y => set_at (nx h) y (nx h node) | None => nx h end)
    (match nx h node with Some x => set_at (pv h) x (pv h node) | None => pv h end) (pa h) F0 L0) as [Ha2 Hp2].
  { destruct (pv h node) as [y|]; [step Eu Hp | injection Eu as <-]; (split; [alive | exact Hp]). }
  clear Eu Hp. rename Hp2 into Hp. repeat step H Hp. split; [|split; [done | exact Hp]].
  unfold same_alive in *. intros k. rewrite Ha4, Ha3, Ha, Ha2, Ha1, Ha0. reflexivity.
Qed.

(** ** The pointers stay consistent *)

Definition detached (h : gmap positive dom_node) (i : positive) : Prop := is_Some (h !! i) /\ pa h i = None.

Section Links.
Context (h : gmap positive dom_node) (L : links h).

Lemma detached_next i : pa h i = None -> nx h i = None.
Proof. intros Hi. destruct (nx h i) as [j|] eqn:E; [|done]. by apply (lk_sibling h L) in E as []. Qed.

Lemma detached_prev i : pa h i = None -> pv h i = None.
Proof.
  intros Hi. destruct (pv h i) as [j|] eqn:E; [|done]. apply (lk_next h L) in E.
  apply (lk_sibling h L) in E as [E1 E2]. congruence.
Qed.

Lemma not_next i j : pa h i = None -> nx h j <> Some i.
Proof. intros Hi E. apply (lk_sibling h L) in E as [E1 E2]. congruence. Qed.

Lemma not_prev i j : pa h i = None -> pv h j <> Some i.
Proof. intros Hi E. apply (lk_next h L), (lk_sibling h L) in E as [E1 E2]. congruence. Qed.

Lemma not_first i j : pa h i = None -> fs h j <> Some i.
Proof. intros Hi E. apply (lk_first h L) in E as [E1 E2]. congruence. Qed.

Lemma not_last i j : pa h i = None -> la h j <> Some i.
Proof. intros Hi E. apply (lk_last h L) in E as [E1 E2]. congruence. Qed.
End Links.

(** By cases, from instances of the laws. *)
Ltac cases :=
  repeat match goal with H : forall _ : positive, _ |- _ => clear H end;
  unfold set_at in *; repeat (case_decide; subst); intuition congruence.

Lemma insert_child_links h to node h' : links h -> detached h node -> lxb_dom_node_insert_child h to node = Some h' -> links h'.
Proof.
  intros L [_ Hd] H. apply insert_child_points in H as (Ha & Hto & [P1 P2 P3 P4 P5]).
  pose proof (detached_next h L node Hd) as Dn. pose proof (detached_prev h L node Hd) as Dp.
  pose proof (fun j => not_next h L node j Hd) as Nn. pose proof (fun j => not_prev h L node j Hd) as Np.
  pose proof (fun j => not_first h L node j Hd) as Nf. pose proof (fun j => not_last h L node j Hd) as Nl.
  destruct L as [L1 L2 L3 L4 L5 L6]. pose proof (L5 to) as Hf.
  assert (Hl : forall l, la h to = Some l -> pa h l = Some to /\ nx h l = None) by (intros l; apply L4).
  split; [intros i j; rewrite P1, P2; pose proof (L1 i j); pose proof (Nn i); pose proof (Np j)
         |intros i j; rewrite P1, !P3; pose proof (L2 i j); pose proof (Nn i)
         |intros p c; rewrite P2, P3, P4; pose proof (L3 p c); pose proof (L3 to c); pose proof (Nf p)
         |intros p c; rewrite P1, P3, P5; pose proof (L4 p c); pose proof (L4 to c); pose proof (Nl p)
         |intros p; rewrite P4, P5; pose proof (L5 p)
         |intros c p; rewrite P3, (Ha p); pose proof (L6 c p)].
  all: destruct (la h to) as [l|]; [destruct (Hl l eq_refl)|]; cases.
Qed.

Lemma insert_before_links h to node h' : links h -> detached h node -> pa h to <> None ->
  lxb_dom_node_insert_before h to node = Some h' -> links h'.
Proof.
  intros L [_ Hd] Hto H. apply insert_before_points in H as (Ha & _ & [P1 P2 P3 P4 P5]).
  pose proof (detached_next h L node Hd) as Dn. pose proof (detached_prev h L node Hd) as Dp.
  pose proof (fun j => not_next h L node j Hd) as Nn. pose proof (fun j => not_prev h L node j Hd) as Np.
  pose proof (fun j => not_first h L node j Hd) as Nf. pose proof (fun j => not_last h L node j Hd) as Nl.
  destruct L as [L1 L2 L3 L4 L5 L6]. destruct (pa h to) as [q|] eqn:Eq; [|done]. clear Hto.
  assert (Hl : forall l, pv h to = Some l -> nx h l = Some to /\ pa h l = Some q).
  { intros l E. apply L1 in E. split; [done|]. apply L2 in E as []. congruence. }
  pose proof (L3 q to) as Hf. pose proof (L6 to q Eq) as Hq.
  split; [intros i j; rewrite P1, P2; pose proof (L1 i j); pose proof (L1 i to); pose proof (Nn i); pose proof (Np j)
         |intros i j; rewrite P1, !P3; pose proof (L2 i j); pose proof (Nn i)
         |intros p c; rewrite P2, P3, P4; pose proof (L3 p c); pose proof (L3 q c); pose proof (Nf p)
         |intros p c; rewrite P1, P3, P5; pose proof (L4 p c); pose proof (Nl p)
         |intros p; rewrite P4, P5; pose proof (L5 p)
         |intros c p; rewrite P3, (Ha p); pose proof (L6 c p)].
  all: destruct (pv h to) as [l|]; [destruct (Hl l eq_refl)|]; cases.
Qed.

Lemma remove_links h node h' : links h -> lxb_dom_node_remove h node = Some h' -> links h'.
Proof.
  intros L H. apply remove_points in H as (Ha & _ & [P1 P2 P3 P4 P5]). destruct L as [L1 L2 L3 L4 L5 L6].
  assert (Hq : match pa h node with
               | Some q => (fs h q = Some node <-> pv h node = None) /\ (la h q = Some node <-> nx h node = None)
               | None => True
               end).
  { destruct (pa h node) as [q|] eqn:E; [|done]. rewrite (L3 q node), (L4 q node), E. tauto. }
  pose proof (L1 node node) as Hself.
  split; [intros i j; rewrite P1, P2; pose proof (L1 i j); pose proof (L1 i node); pose proof (L1 node j)
         |intros i j; rewrite P1, !P3; pose proof (L2 i j); pose proof (L2 i node); pose proof (L2 node j); pose proof (L1 i node)
         |intros p c; rewrite P2, P3, P4; pose proof (L3 p c); pose proof (L3 p node); pose proof (L1 node c); pose proof (L2 node c)
         |intros p c; rewrite P1, P3, P5; pose proof (L4 p c); pose proof (L4 p node); pose proof (L1 c node); pose proof (L2 c node)
         |intros p; rewrite P4, P5; pose proof (L5 p); pose proof (L4 p node); pose proof (L3 p node)
         |intros c p; rewrite P3, (Ha p); pose proof (L6 c p)].
  all: destruct (pv h node) as [y|], (nx h node) as [x|], (pa h node) as [q|]; repeat case_bool_decide; cases.
Qed.

Lemma remove_detached h node h' : lxb_dom_node_remove h node = Some h' -> detached h' node.
Proof.
  intros H. apply remove_points in H as (Ha & Hn & P). split; [by apply Ha|]. rewrite (po_parent _ _ _ _ _ _ P). unfold set_at. by case_decide.
Qed.

(** ** Heaps with the same pointers

    Nodes that are new point nowhere. *)

Definition pointers (n : dom_node) := (nd_next n, nd_prev n, nd_parent n, nd_first n, nd_last n).

Record grown (h h' : gmap positive dom_node) : Prop := {
  gr_old k n : h !! k = Some n -> exists n', h' !! k = Some n' /\ pointers n' = pointers n;
  gr_new k n' : h' !! k = Some n' -> is_Some (h !! k) \/ pointers n' = (None, None, None, None, None)
}.

Lemma grown_refl h : grown h h.
Proof. split; intros k n Hn; [by exists n | left; by exists n]. Qed.

Lemma grown_trans h1 h2 h3 : grown h1 h2 -> grown h2 h3 -> grown h1 h3.
Proof.
  intros [O1 N1] [O2 N2]. split; intros k n Hn.
  - apply O1 in Hn as (n2 & Hn & E). apply O2 in Hn as (n3 & Hn & E'). exists n3. split; [done | congruence].
  - destruct (N2 k n Hn) as [[n2 H2]|E]; [|by right]. destruct (O2 k n2 H2) as (n3 & H3 & E). assert (n3 = n) as -> by congruence.
    destruct (N1 k n2 H2) as [|E']; [by left | right; congruence].
Qed.

Lemma grown_alive h h' k : grown h h' -> is_Some (h !! k) -> is_Some (h' !! k).
Proof. intros [O _] [n Hn]. apply O in Hn as (n' & Hn & _). by exists n'. Qed.

Lemma grown_upd f i h h' : (forall n, pointers (f n) = pointers n) -> upd f i h = Some h' -> grown h h'.
Proof.
  intros Hf H. unfold upd in H. destruct (h !! i) as [m|] eqn:E; [|done]. injection H as <-. split; intros k n Hn.
  - destruct (decide (k = i)) as [->|Hk]; [exists (f m); rewrite lookup_insert_eq; split; [done|]; rewrite Hf; congruence|].
    exists n. by rewrite lookup_insert_ne.
  - destruct (decide (k = i)) as [->|Hk]; [left; by exists m|]. rewrite lookup_insert_ne in Hn by done. left. by exists n.
Qed.

Lemma grown_new h i n : h !! i = None -> pointers n = (None, None, None, None, None) -> grown h (<[i := n]> h).
Proof.
  intros Hi Hn. split; intros k m Hm.
  - exists m. rewrite lookup_insert_ne by congruence. done.
  - destruct (decide (k = i)) as [->|Hk]; [right; rewrite lookup_insert_eq in Hm; congruence|].
    rewrite lookup_insert_ne in Hm by done. left. by exists m.
Qed.

Lemma grown_points h h' : grown h h' -> points h' (nx h) (pv h) (pa h) (fs h) (la h).
Proof.
  intros [O N]. split; intros k; unfold nx, pv, pa, fs, la;
    (destruct (h !! k) as [n|] eqn:E;
     [destruct (O k n E) as (n' & -> & Hp); injection Hp; cbn; congruence
     |destruct (h' !! k) as [n'|] eqn:E'; [|done]; destruct (N k n' E') as [[n Hn]|Hp]; [congruence | by injection Hp]]).
Qed.

Lemma grown_links h h' : grown h h' -> links h -> links h'.
Proof.
  intros G [L1 L2 L3 L4 L5 L6]. destruct (grown_points h h' G) as [P1 P2 P3 P4 P5].
  split; intros *; rewrite ?P1, ?P2, ?P3, ?P4, ?P5; auto.
  intros Hp. apply (grown_alive h h' _ G). by apply (L6 c).
Qed.

Lemma grown_detached h h' i : grown h h' -> detached h i -> detached h' i.
Proof.
  intros G [Ha Hp]. split; [by apply (grown_alive h)|]. by rewrite (po_parent _ _ _ _ _ _ (grown_points h h' G)).
Qed.
