(* ===== verification/DomWalk.v ===== *)
(** * The walk over a tree is a fold over its nodes in document order

    [lxb_dom_node_simple_walk] on a heap that holds a tree calls the callback for
    every node below the root once, in document order, until it answers STOP; the
    text of a node is the concatenation of the texts below it. *)
From S2P Require Import Prelude.
From S2P Require Import ParserChar.
From S2P Require Import DomNode.
From S2P Require Import DomTree.
From S2P Require Import DomLink.

#[local] Set Warnings "-clear-no-such-hyp".

(** The nodes above and beside, when the walk goes below [i] and behind it. *)
Lemma NoDup_below anc (i : positive) ci fi : NoDup (anc ++ i :: ci ++ fi) -> NoDup ((i :: anc) ++ ci) /\ NoDup (anc ++ fi).
Proof.
  intros (H1 & H2 & H3)%NoDup_app. apply NoDup_cons in H3 as [H3 H4]. apply NoDup_app in H4 as (H4 & H5 & H6).
  cbn [app]. split; [apply NoDup_cons; split; [intros [Hk|Hk]%elem_of_app; [apply (H2 i Hk); set_solver | set_solver]|]|];
    apply NoDup_app; (split; [done|]); (split; [|done]); intros k Hk Hk'; apply (H2 k Hk); set_solver.
Qed.

Section Walk.
Context {S : Type} (h : gmap positive dom_node) (root : positive).
Context (cb : positive -> S -> option (S * lexbor_action)).

(** The callback over a list of nodes, and whether it said STOP. *)
Fixpoint visit (ids : list positive) (s : S) : option (S * lexbor_action) :=
  match ids with
  | [] => Some (s, LEXBOR_ACTION_NEXT)
  | i :: ids =>
      '(s, a) ← cb i s;
      match a with LEXBOR_ACTION_STOP => Some (s, LEXBOR_ACTION_STOP) | LEXBOR_ACTION_NEXT => visit ids s end
  end.

Lemma visit_app a b s : visit (a ++ b) s =
  '(s, act) ← visit a s;
  match act with LEXBOR_ACTION_STOP => Some (s, LEXBOR_ACTION_STOP) | LEXBOR_ACTION_NEXT => visit b s end.
Proof.
  revert s. induction a as [|i a IH]; intros s; [done|]. cbn [app visit].
  destruct (cb i s) as [[s' []]|]; cbn [mbind option_bind]; [apply IH | done | done].
Qed.

(** ** Climbing *)

Lemma climb_more k : forall i x m, climb h root k i = Some x -> (k <= m)%nat -> climb h root m i = Some x.
Proof.
  induction k as [|k IH]; intros i x m Hc Hm.
  - destruct m; cbn [climb] in *; case_bool_decide; try done; destruct (h !! i) as [n|]; try done;
      cbn [mbind option_bind] in *; by destruct (nd_next n).
  - destruct m as [|m]; [lia|]. cbn [climb] in *. case_bool_decide; [done|].
    destruct (h !! i) as [n|]; cbn [mbind option_bind] in *; [|done]. destruct (nd_next n); [done|].
    destruct (nd_parent n) as [p|]; cbn [mbind option_bind] in *; [|done]. apply IH; [done | lia].
Qed.

Lemma climb_up k i n p x : i <> root -> h !! i = Some n -> nd_next n = None -> nd_parent n = Some p ->
  climb h root k p = Some x -> climb h root (Datatypes.S k) i = Some x.
Proof.
  intros Hi Hn Hne Hp Hc. cbn [climb]. rewrite bool_decide_false by done. rewrite Hn. cbn [mbind option_bind].
  rewrite Hne, Hp. exact Hc.
Qed.

Lemma climb_stay k i n y : i <> root -> h !! i = Some n -> nd_next n = Some y -> climb h root k i = Some i.
Proof.
  intros Hi Hn Hne. destruct k; cbn [climb]; rewrite bool_decide_false by done; rewrite Hn;
    cbn [mbind option_bind]; by rewrite Hne.
Qed.

(** ** The loop *)

(** What the loop does after a subtree, having climbed to [x]. *)
Definition continue (x : positive) (fuel : nat) (s : S) : option S :=
  if bool_decide (x = root) then Some s else n ← h !! x; walk_loop h root cb fuel (nd_next n) s.

Definition after (r : option (S * lexbor_action)) (k : S -> option S) : option S :=
  '(s, a) ← r; match a with LEXBOR_ACTION_STOP => Some s | LEXBOR_ACTION_NEXT => k s end.

Lemma walk_forest pp prev f next : forest_at h pp prev f next ->
  forall p anc x fuel s, pp = Some p -> next = None -> f <> [] -> root ∉ forest_ids f ->
  NoDup (anc ++ forest_ids f) -> (forall k, k ∈ anc -> is_Some (h !! k)) ->
  climb h root (length anc) p = Some x -> (length (forest_ids f) <= fuel)%nat ->
  walk_loop h root cb fuel (first_id f None) s =
    after (visit (forest_ids f) s) (continue x (fuel - length (forest_ids f))).
Proof.
  induction 1 as [|pp prev i n cs f next Hn Hp Hpr Hne Hfi Hla Hcs IHcs Hf IHf];
    intros q anc x fuel s -> -> Hnil Hroot Hnd Hanc Hclimb Hfuel; [done|].
  clear Hnil. rewrite forest_ids_cons in *. cbn [length] in *. destruct fuel as [|fuel]; [lia|].
  cbn [first_id tree_id walk_loop visit]. destruct (cb i s) as [[s1 []]|]; cbn [mbind option_bind after]; [|done|done].
  rewrite Hn. cbn [mbind option_bind]. rewrite Hfi, visit_app.
  assert (Hi : i <> root) by set_solver.
  destruct (NoDup_below _ _ _ _ Hnd) as [Hndi Hndf].
  assert (Hanci : forall k, k ∈ i :: anc -> is_Some (h !! k)) by (intros k [->|Hk]%elem_of_cons; [by eexists | by apply Hanc]).
  assert (Hsize : (Datatypes.S (length anc) <= size h)%nat).
  { change (length (i :: anc) <= size h)%nat. apply keys_size; [|done]. by apply NoDup_app in Hndi as [? _]. }
  (* after the subtree of [i]: its next sibling, or what follows the parent *)
  assert (Hup : climb h root (Datatypes.S (length anc)) i = Some (match f with [] => x | _ => i end)).
  { destruct f as [|t f]; [by eapply climb_up | by eapply climb_stay]. }
  assert (Hcont : forall fuel' s', (length (forest_ids f) <= fuel')%nat ->
    continue (match f with [] => x | _ => i end) fuel' s' =
    after (visit (forest_ids f) s') (continue x (fuel' - length (forest_ids f)))).
  { intros fuel' s' Hf'. destruct f as [|t f].
    - cbn [forest_ids flat_map visit after mbind option_bind length]. by rewrite Nat.sub_0_r.
    - unfold continue at 1. rewrite bool_decide_false by done. rewrite Hn. cbn [mbind option_bind]. rewrite Hne.
      apply (IHf q anc); try done. set_solver. }
  rewrite length_app in Hfuel. destruct cs as [|c cs].
  - cbn [first_id forest_ids flat_map visit mbind option_bind]. rewrite (climb_more _ _ _ _ Hup Hsize).
    cbn [mbind option_bind]. fold (continue (match f with [] => x | _ => i end) fuel s1). by rewrite Hcont by lia.
  - pose proof (IHcs i (i :: anc) _ fuel s1 eq_refl eq_refl ltac:(done) ltac:(set_solver) Hndi Hanci Hup ltac:(lia)) as E.
    cbn [first_id] in E |- *. rewrite E. clear E.
    destruct (visit (forest_ids (c :: cs)) s1) as [[s2 []]|]; cbn [after mbind option_bind]; [|done|done].
    rewrite Hcont by lia. rewrite length_app. cbn [Nat.sub].
    replace (fuel - length (forest_ids (c :: cs)) - length (forest_ids f))%nat
      with (fuel - (length (forest_ids (c :: cs)) + length (forest_ids f)))%nat by lia. done.
Qed.
End Walk.

(** The walk below a node, which may be anywhere in a tree: it ends, reads no bad
    pointer and calls the callback for the nodes below in document order. *)
Lemma simple_walk_visits {S} h (cb : positive -> S -> option (S * lexbor_action)) p prev r cs next s :
  forest_at h p prev [Node r cs] next -> NoDup (tree_ids (Node r cs)) ->
  lxb_dom_node_simple_walk h r cb s = fst <$> visit cb (forest_ids cs) s.
Proof.
  intros Ht Hnd. apply forest_cons_inv in Ht as (n & Hn & _ & _ & _ & Hfi & _ & Hcs & _).
  unfold lxb_dom_node_simple_walk. rewrite Hn. cbn [mbind option_bind]. rewrite Hfi.
  change (tree_ids (Node r cs)) with (r :: forest_ids cs) in Hnd.
  destruct (decide (cs = [])) as [->|Hne]; [by destruct (size h)|].
  rewrite (walk_forest h r cb (Some r) None cs None Hcs r [r] r (size h) s); try done.
  - destruct (visit cb (forest_ids cs) s) as [[s' []]|]; cbn [after mbind option_bind fmap option_fmap option_map fst];
      [|done|done]. unfold continue. by rewrite bool_decide_true.
  - by apply NoDup_cons in Hnd as [? _].
  - intros k ->%list_elem_of_singleton. by eexists.
  - cbn [climb length]. by rewrite bool_decide_true.
  - apply keys_size; [by apply NoDup_cons in Hnd as [_ ?]|]. by apply (forest_alive _ _ _ _ _ Hcs).
Qed.

(** ** Text *)

Definition node_text (h : gmap positive dom_node) (i : positive) : list Z :=
  match h !! i with Some n => if nd_type n =? LXB_DOM_NODE_TYPE_TEXT then nd_data n else [] | None => [] end.

(** The text of a tree: that of its text nodes in document order. *)
Definition tree_text (h : gmap positive dom_node) (t : tree) : list Z :=
  flat_map (node_text h) (forest_ids (tree_children t)).

Lemma visit_size h ids : forall len, (forall k, k ∈ ids -> is_Some (h !! k)) ->
  visit (lxb_dom_node_text_content_size h) ids len =
    Some (len + str_len (flat_map (node_text h) ids), LEXBOR_ACTION_NEXT).
Proof.
  induction ids as [|i ids IH]; intros len Hal; cbn [visit flat_map]; [by rewrite Z.add_0_r|].
  destruct (Hal i) as [n Hn]; [set_solver|].
  assert (E : lxb_dom_node_text_content_size h i len = Some (len + str_len (node_text h i), LEXBOR_ACTION_NEXT)).
  { unfold lxb_dom_node_text_content_size, node_text. rewrite Hn. cbn [mbind option_bind].
    destruct (nd_type n =? LXB_DOM_NODE_TYPE_TEXT); [done|]. cbn. by rewrite Z.add_0_r. }
  rewrite E. cbn [mbind option_bind]. rewrite IH by set_solver. f_equal. f_equal. unfold str_len.
  rewrite length_app. lia.
Qed.

Lemma visit_concatenate h ids : forall out rest, (forall k, k ∈ ids -> is_Some (h !! k)) ->
  (length (flat_map (node_text h) ids) <= length rest)%nat ->
  visit (lxb_dom_node_text_content_concatenate h) ids (out ++ rest, str_len out) =
    Some (out ++ flat_map (node_text h) ids ++ drop (length (flat_map (node_text h) ids)) rest,
          str_len (out ++ flat_map (node_text h) ids), LEXBOR_ACTION_NEXT).
Proof.
  induction ids as [|i ids IH]; intros out rest Hal Hlen; cbn [visit flat_map]; [by rewrite app_nil_r|].
  destruct (Hal i) as [n Hn]; [set_solver|]. cbn [flat_map] in Hlen.
  assert (E : lxb_dom_node_text_content_concatenate h i (out ++ rest, str_len out) =
    Some ((out ++ node_text h i) ++ drop (length (node_text h i)) rest, str_len (out ++ node_text h i), LEXBOR_ACTION_NEXT)).
  { unfold lxb_dom_node_text_content_concatenate, node_text. rewrite Hn. cbn [mbind option_bind].
    destruct (nd_type n =? LXB_DOM_NODE_TYPE_TEXT); cbn [negb fst snd length]; [|by rewrite app_nil_r, drop_0].
    f_equal. f_equal. unfold write_at, str_len. rewrite !Nat2Z.id, take_app_length, length_app, <- app_assoc. f_equal.
    - f_equal. f_equal. rewrite drop_app_ge by lia. f_equal. lia.
    - lia. }
  rewrite E. cbn [mbind option_bind]. rewrite length_app in Hlen |- *.
  rewrite IH by (set_solver || (rewrite length_drop; lia)). rewrite <- !app_assoc, drop_drop. done.
Qed.

Lemma text_content_ok garbage attr_value h p prev r cs next n :
  forest_at h p prev [Node r cs] next -> NoDup (tree_ids (Node r cs)) -> h !! r = Some n ->
  nd_type n = LXB_DOM_NODE_TYPE_ELEMENT \/ nd_type n = LXB_DOM_NODE_TYPE_DOCUMENT_FRAGMENT ->
  (forall size, 0 <= size -> str_len (garbage size) = size) ->
  lxb_dom_node_text_content garbage attr_value h r = Some (Some (tree_text h (Node r cs))).
Proof.
  intros Ht Hnd Hn Hty Hg. unfold lxb_dom_node_text_content. rewrite Hn. cbn [mbind option_bind].
  assert ((nd_type n =? LXB_DOM_NODE_TYPE_DOCUMENT_FRAGMENT) || (nd_type n =? LXB_DOM_NODE_TYPE_ELEMENT) = true) as ->
    by (destruct Hty as [-> | ->]; done).
  assert (Hal : forall k, k ∈ forest_ids cs -> is_Some (h !! k)).
  { intros k Hk. apply (forest_alive _ _ _ _ _ Ht). rewrite forest_ids_cons. set_solver. }
  rewrite (simple_walk_visits h _ p prev r cs next) by done. rewrite visit_size by done.
  cbn [fmap option_fmap option_map fst mbind option_bind]. unfold tree_text. cbn [tree_children].
  set (text := flat_map (node_text h) (forest_ids cs)). rewrite Z.add_0_l.
  assert (Hlen : length (garbage (str_len text + 1)) = S (length text))
    by (pose proof (Hg (str_len text + 1)) as E; unfold str_len in *; lia).
  rewrite (simple_walk_visits h _ p prev r cs next) by done.
  pose proof (visit_concatenate h (forest_ids cs) [] (garbage (str_len text + 1)) Hal ltac:(fold text; lia)) as E.
  cbn [app] in E. change (str_len []) with 0 in E. rewrite E.
  cbn [fmap option_fmap option_map fst mbind option_bind app]. fold text. rewrite Z.sub_diag. cbn [Z.to_nat drop].
  unfold str_len. by rewrite Nat2Z.id, drop_0, take_app_length.
Qed.

(** C19: the text content of an element or fragment anywhere in a tree is the
    concatenation of the texts of the text nodes below it in document order.  The
    two walks of [lxb_dom_node_text_content], one for the length and one into the
    buffer, agree: nothing is written past the buffer and no byte of it is left
    over. *)
Theorem text_content_spec garbage attr_value h p prev r cs next n :
  forest_at h p prev [Node r cs] next -> NoDup (tree_ids (Node r cs)) -> h !! r = Some n ->
  nd_type n = LXB_DOM_NODE_TYPE_ELEMENT \/ nd_type n = LXB_DOM_NODE_TYPE_DOCUMENT_FRAGMENT ->
  (forall size, 0 <= size -> str_len (garbage size) = size) ->
  lxb_dom_node_text_content garbage attr_value h r = Some (Some (tree_text h (Node r cs))).
Proof. apply text_content_ok. Qed.

Lemma text_content_spec_witness :
  lxb_dom_node_text_content (fun size => replicate (Z.to_nat size) 0xFF) (fun _ => None) example_nodes 1 =
    Some (Some [0x61; 0x62]).
Proof.
  rewrite (text_content_spec _ _ example_nodes None None 1 [Node 2 []; Node 3 []] None
    (linked None None None (Some 2) (Some 3) LXB_DOM_NODE_TYPE_ELEMENT [])%positive).
  - vm_compute. reflexivity.
  - laid_out.
  - apply (bool_decide_unpack _). vm_compute. exact I.
  - vm_compute. reflexivity.
  - by left.
  - intros size Hs. unfold str_len. rewrite length_replicate. lia.
Defined.
