(* ===== verification/DomAttr.v ===== *)
(** * Attributes: [dom/interfaces/attr.c], [dom/interfaces/element.c]

    An element keeps its attributes in a doubly linked list and caches the ones
    named [id] and [class].  A document is the heap of nodes, the heap of
    attributes and what elements read of [owner_document].  A string whose [data]
    is NULL is [None]; its length is 0.  Memory for attributes and strings is
    always given; the address of a new attribute is the allocator's choice. *)
From Stdlib Require Import String.
From S2P Require Import Prelude.
From S2P Require Import Str.
From S2P Require Import Tag.
From S2P Require Import TagHeap.
From S2P Require Import TkzBase.
From S2P Require Import ParserChar.
From S2P Require Import DomNode.

(** [lxb_ns_id_t] *)
Definition LXB_NS_MATH : Z := 0x03.
Definition LXB_NS_SVG : Z := 0x04.
Definition LXB_NS_XLINK : Z := 0x05.
Definition LXB_NS_XML : Z := 0x06.
Definition LXB_NS_XMLNS : Z := 0x07.

Definition LXB_STATUS_ERROR_INCOMPLETE_OBJECT : Z := 0x0005.

(** [struct lxb_dom_attr] *)
Record dom_attr := mk_dom_attr {
  at_ns : Z;
  at_name : option (list Z);
  at_local_name : option (list Z);
  at_value : option (list Z);
  at_next : option positive;
  at_prev : option positive;
  at_prefix_len : Z
}.

Definition set_at_ns v a := mk_dom_attr v (at_name a) (at_local_name a) (at_value a) (at_next a) (at_prev a) (at_prefix_len a).
Definition set_at_name v a := mk_dom_attr (at_ns a) v (at_local_name a) (at_value a) (at_next a) (at_prev a) (at_prefix_len a).
Definition set_at_local_name v a := mk_dom_attr (at_ns a) (at_name a) v (at_value a) (at_next a) (at_prev a) (at_prefix_len a).
Definition set_at_value v a := mk_dom_attr (at_ns a) (at_name a) (at_local_name a) v (at_next a) (at_prev a) (at_prefix_len a).
Definition set_at_next v a := mk_dom_attr (at_ns a) (at_name a) (at_local_name a) (at_value a) v (at_prev a) (at_prefix_len a).
Definition set_at_prev v a := mk_dom_attr (at_ns a) (at_name a) (at_local_name a) (at_value a) (at_next a) v (at_prefix_len a).
Definition set_at_prefix_len v a := mk_dom_attr (at_ns a) (at_name a) (at_local_name a) (at_value a) (at_next a) (at_prev a) v.

(** [name.data], [name.length] and the like. *)
Definition name_of (a : dom_attr) : list Z := default [] (at_name a).
Definition local_of (a : dom_attr) : list Z := default [] (at_local_name a).

(** The members of [lxb_dom_element_t]. *)
Definition set_nd_first_attr v n := mk_node (nd_next n) (nd_prev n) (nd_parent n) (nd_first n) (nd_last n) (nd_ns n) (nd_tag n) (nd_type n) (nd_data n) (nd_qname n) v (nd_last_attr n) (nd_attr_id n) (nd_attr_class n).
Definition set_nd_last_attr v n := mk_node (nd_next n) (nd_prev n) (nd_parent n) (nd_first n) (nd_last n) (nd_ns n) (nd_tag n) (nd_type n) (nd_data n) (nd_qname n) (nd_first_attr n) v (nd_attr_id n) (nd_attr_class n).
Definition set_nd_attr_id v n := mk_node (nd_next n) (nd_prev n) (nd_parent n) (nd_first n) (nd_last n) (nd_ns n) (nd_tag n) (nd_type n) (nd_data n) (nd_qname n) (nd_first_attr n) (nd_last_attr n) v (nd_attr_class n).
Definition set_nd_attr_class v n := mk_node (nd_next n) (nd_prev n) (nd_parent n) (nd_first n) (nd_last n) (nd_ns n) (nd_tag n) (nd_type n) (nd_data n) (nd_qname n) (nd_first_attr n) (nd_last_attr n) (nd_attr_id n) v.

(** What elements read of [owner_document]: whether its type is
    [LXB_DOM_DOCUMENT_DTYPE_HTML], whether its mode is quirks, its tags. *)
Record owner_document := mk_owner { doc_html : bool; doc_quirks : bool; doc_tags : lxb_tag_heap }.

Record dom := mk_dom {
  d_nodes : gmap positive dom_node;
  d_attrs : gmap positive dom_attr;
  d_owner : owner_document
}.

Definition with_nodes (h : gmap positive dom_node) (d : dom) : dom := mk_dom h (d_attrs d) (d_owner d).
Definition with_dom_attrs (m : gmap positive dom_attr) (d : dom) : dom := mk_dom (d_nodes d) m (d_owner d).

(** [attr->field = ..], [element->field = ..] *)
Definition upd_attr (f : dom_attr -> dom_attr) (i : positive) (d : dom) : option dom :=
  a ← d_attrs d !! i; Some (with_dom_attrs (<[i := f a]> (d_attrs d)) d).
Definition upd_element (f : dom_node -> dom_node) (i : positive) (d : dom) : option dom :=
  h ← upd f i (d_nodes d); Some (with_nodes h d).

(** ** [attr.c] *)

Section Alloc.
Context (alloc : gmap positive dom_attr -> positive).

Definition lxb_dom_attr_interface_create (d : dom) : positive * dom :=
  let i := alloc (d_attrs d) in
  (i, with_dom_attrs (<[i := mk_dom_attr 0 None None None None None 0]> (d_attrs d)) d).

Definition lxb_dom_attr_interface_destroy (i : positive) (d : dom) : option dom :=
  _ ← d_attrs d !! i; Some (with_dom_attrs (delete i (d_attrs d)) d).

Definition lxb_dom_attr_set_name_wo_copy (local_name prefix : list Z) (a : dom_attr) : Z * dom_attr :=
  let a := set_at_local_name (Some local_name) a in
  let a := set_at_name (Some match prefix with
                             | [] => local_name
                             | _ => prefix ++ [0x3A] ++ local_name
                             end) a in
  (LXB_STATUS_OK, set_at_prefix_len (str_len prefix) a).

Definition lxb_dom_attr_set_name (local_name prefix : list Z) (lowercase : bool) (a : dom_attr) : Z * dom_attr :=
  let local_name := if lowercase then map lower local_name else local_name in
  lxb_dom_attr_set_name_wo_copy local_name prefix (set_at_local_name (Some local_name) a).

Definition lxb_dom_attr_set_value (value : list Z) (a : dom_attr) : Z * dom_attr :=
  (LXB_STATUS_OK, set_at_value (Some value) a).

Definition lxb_dom_attr_set_value_wo_copy (value : list Z) (a : dom_attr) : Z * dom_attr :=
  (LXB_STATUS_OK, set_at_value (Some value) a).

Definition lxb_dom_attr_clone_name_value (from to : dom_attr) : Z * dom_attr :=
  let to := set_at_name (Some (name_of from)) to in
  let to := set_at_local_name (Some (local_of from)) to in
  match at_value from with
  | Some value => lxb_dom_attr_set_value value to
  | None => (LXB_STATUS_OK, to)
  end.

(** The pointer comparison [first->value == second->value] agrees with the
    comparison of the values it precedes. *)
Definition lxb_dom_attr_compare (first second : dom_attr) : bool :=
  if (length (name_of first) =? length (name_of second))%nat && (at_ns first =? at_ns second) &&
     eq_nocase (name_of first) (name_of second)
  then match at_value first, at_value second with
       | None, None => true
       | None, Some _ | Some _, None => false
       | Some v, Some w => (length v =? length w)%nat && eq_nocase v w
       end
  else false.

(** Writing through [lxb_dom_attr_set_name] and the like: the status first. *)
Definition on_attr (f : dom_attr -> Z * dom_attr) (i : positive) (d : dom) : option (Z * dom) :=
  a ← d_attrs d !! i; let '(st, a) := f a in Some (st, with_dom_attrs (<[i := a]> (d_attrs d)) d).

(** ** [element.c] *)

Definition lxb_dom_element_has_attributes (d : dom) (element : positive) : option bool :=
  el ← d_nodes d !! element; Some (bool_decide (is_Some (nd_first_attr el))).

(** [while (attr != NULL) { if (cond) return attr; attr = attr->next; }]; the list
    has no more attributes than the heap. *)
Fixpoint attr_loop (fuel : nat) (cond : dom_attr -> bool) (m : gmap positive dom_attr) (attr : option positive)
    : option (option positive) :=
  match attr with
  | None => Some None
  | Some i =>
      match fuel with
      | O => None
      | S fuel => a ← m !! i; if cond a then Some (Some i) else attr_loop fuel cond m (at_next a)
      end
  end.

Definition find_first (cond : dom_attr -> bool) (d : dom) (element : positive) : option (option positive) :=
  el ← d_nodes d !! element; attr_loop (size (d_attrs d)) cond (d_attrs d) (nd_first_attr el).

Definition html_element (d : dom) (el : dom_node) : bool := (nd_ns el =? LXB_NS_HTML) && doc_html (d_owner d).

Definition lxb_dom_element_attr_by_name (d : dom) (element : positive) (qualified_name : list Z)
    : option (option positive) :=
  el ← d_nodes d !! element;
  if html_element d el then
    find_first (fun a => (length qualified_name =? length (name_of a))%nat && eq_nocase qualified_name (name_of a))
      d element
  else
    find_first (fun a => (length qualified_name =? length (name_of a))%nat && bool_decide (qualified_name = name_of a))
      d element.

Definition lxb_dom_element_attr_is_exist (d : dom) (element : positive) (qualified_name : list Z)
    : option (option positive) :=
  find_first (fun a => (length (local_of a) =? length qualified_name)%nat && eq_nocase (local_of a) qualified_name)
    d element.

Definition lxb_dom_element_attr_append (d : dom) (element attr : positive) : option (Z * dom) :=
  a ← d_attrs d !! attr;
  el ← d_nodes d !! element;
  match at_name a with
  | None => Some (LXB_STATUS_ERROR_INCOMPLETE_OBJECT, d)
  | Some name =>
      d ← (if bool_decide (nd_attr_id el = None) && (length name =? 2)%nat then
             if bool_decide (name = bytes "id") then upd_element (set_nd_attr_id (Some attr)) element d else Some d
           else if bool_decide (nd_attr_class el = None) && (length name =? 5)%nat then
             if bool_decide (name = bytes "class") then upd_element (set_nd_attr_class (Some attr)) element d else Some d
           else Some d);
      match nd_first_attr el with
      | None =>
          d ← upd_element (set_nd_first_attr (Some attr)) element d;
          d ← upd_element (set_nd_last_attr (Some attr)) element d;
          Some (LXB_STATUS_OK, d)
      | Some _ =>
          d ← upd_attr (set_at_prev (nd_last_attr el)) attr d;
          last ← nd_last_attr el;
          d ← upd_attr (set_at_next (Some attr)) last d;
          d ← upd_element (set_nd_last_attr (Some attr)) element d;
          Some (LXB_STATUS_OK, d)
      end
  end.

Definition lxb_dom_element_attr_remove (d : dom) (element attr : positive) : option (Z * dom) :=
  a ← d_attrs d !! attr;
  el ← d_nodes d !! element;
  d ← (if bool_decide (nd_attr_id el = Some attr) then upd_element (set_nd_attr_id None) element d
       else if bool_decide (nd_attr_class el = Some attr) then upd_element (set_nd_attr_class None) element d
       else Some d);
  d ← match at_prev a with
      | Some p => upd_attr (set_at_next (at_next a)) p d
      | None => upd_element (set_nd_first_attr (at_next a)) element d
      end;
  a ← d_attrs d !! attr;
  d ← match at_next a with
      | Some x => upd_attr (set_at_prev (at_prev a)) x d
      | None => upd_element (set_nd_last_attr (at_prev a)) element d
      end;
  d ← upd_attr (set_at_next None) attr d;
  d ← upd_attr (set_at_prev None) attr d;
  Some (LXB_STATUS_OK, d).

(** [lxb_dom_attr_value] and its length. *)
Definition lxb_dom_attr_value (d : dom) (attr : positive) : option (option (list Z)) :=
  a ← d_attrs d !! attr; Some (at_value a).

(** [lxb_dom_element_id], [lxb_dom_element_class]: the values in the caches. *)
Definition lxb_dom_element_id (d : dom) (element : positive) : option (option (list Z)) :=
  el ← d_nodes d !! element;
  match nd_attr_id el with None => Some None | Some attr => lxb_dom_attr_value d attr end.

Definition lxb_dom_element_class (d : dom) (element : positive) : option (option (list Z)) :=
  el ← d_nodes d !! element;
  match nd_attr_class el with None => Some None | Some attr => lxb_dom_attr_value d attr end.

Definition lxb_dom_element_get_attribute (d : dom) (element : positive) (qualified_name : list Z)
    : option (option (list Z)) :=
  attr ← lxb_dom_element_attr_by_name d element qualified_name;
  match attr with None => Some None | Some attr => lxb_dom_attr_value d attr end.

Definition lxb_dom_element_has_attribute (d : dom) (element : positive) (qualified_name : list Z) : option bool :=
  attr ← lxb_dom_element_attr_by_name d element qualified_name; Some (bool_decide (is_Some attr)).

(** The attribute returned ([None] for NULL) and the document. *)
Definition lxb_dom_element_set_attribute (d : dom) (element : positive) (qualified_name value : list Z)
    : option (option positive * dom) :=
  attr ← lxb_dom_element_attr_is_exist d element qualified_name;
  match attr with
  | None =>
      let '(attr, d) := lxb_dom_attr_interface_create d in
      el ← d_nodes d !! element;
      '(status, d) ← on_attr (lxb_dom_attr_set_name qualified_name [] (html_element d el)) attr d;
      if negb (status =? LXB_STATUS_OK) then
        d ← lxb_dom_attr_interface_destroy attr d; Some (None, d)
      else
        '(status, d) ← on_attr (lxb_dom_attr_set_value value) attr d;
        if negb (status =? LXB_STATUS_OK) then
          d ← lxb_dom_attr_interface_destroy attr d; Some (None, d)
        else
          '(_, d) ← lxb_dom_element_attr_append d element attr; Some (Some attr, d)
  | Some attr =>
      '(status, d) ← on_attr (lxb_dom_attr_set_value value) attr d;
      if negb (status =? LXB_STATUS_OK) then Some (None, d) else Some (Some attr, d)
  end.

Definition lxb_dom_element_remove_attribute (d : dom) (element : positive) (qualified_name : list Z)
    : option (Z * dom) :=
  attr ← lxb_dom_element_attr_by_name d element qualified_name;
  match attr with
  | None => Some (LXB_STATUS_OK, d)
  | Some attr =>
      '(status, d) ← lxb_dom_element_attr_remove d element attr;
      if negb (status =? LXB_STATUS_OK) then Some (status, d)
      else d ← lxb_dom_attr_interface_destroy attr d; Some (LXB_STATUS_OK, d)
  end.

(** The two loops of [lxb_dom_element_compare]. *)
Fixpoint count_loop (fuel : nat) (m : gmap positive dom_attr) (f s : option positive) : option bool :=
  match f, s with
  | Some i, Some j =>
      match fuel with
      | O => None
      | S fuel => a ← m !! i; b ← m !! j; count_loop fuel m (at_next a) (at_next b)
      end
  | None, None => Some true
  | _, _ => Some false
  end.

Fixpoint compare_loop (fuel : nat) (d : dom) (f : option positive) (second : positive) : option bool :=
  match f with
  | None => Some true
  | Some i =>
      match fuel with
      | O => None
      | S fuel =>
          a ← d_attrs d !! i;
          s ← lxb_dom_element_attr_is_exist d second (name_of a);
          match s with
          | None => Some false
          | Some j => b ← d_attrs d !! j; if lxb_dom_attr_compare a b then compare_loop fuel d (at_next a) second else Some false
          end
      end
  end.

Definition lxb_dom_element_compare (d : dom) (first second : positive) : option bool :=
  f ← d_nodes d !! first;
  s ← d_nodes d !! second;
  same ← count_loop (size (d_attrs d)) (d_attrs d) (nd_first_attr f) (nd_first_attr s);
  if (same : bool) then compare_loop (size (d_attrs d)) d (nd_first_attr f) second else Some false.
End Alloc.
