(* ===== verification/DomAttrSpec.v ===== *)
(** * Attribute lists refine association lists

    [attributes d e l]: the element [e] has the attributes [l], in order, each
    without a prefix and no two of one name up to case; its caches of [id] and
    [class] are right.  The operations of [element.c] on attributes are lookup,
    update, insertion at the end and deletion in that list. *)
From Stdlib Require Import String.
From S2P Require Import Prelude.
From S2P Require Import Str.
From S2P Require Import Tag.
From S2P Require Import TagHeap.
From S2P Require Import TkzBase.
From S2P Require Import DomNode.
From S2P Require Import DomAttr.

#[local] Set Warnings "-clear-no-such-hyp".

(** An attribute: its address, name and value. *)
Record entry := mk_entry { e_at : positive; e_name : list Z; e_value : option (list Z) }.

Definition first_at (l : list entry) (d : option positive) : option positive :=
  match l with x :: _ => Some (e_at x) | [] => d end.
Definition last_at (l : list entry) (d : option positive) : option positive :=
  match last l with Some x => Some (e_at x) | None => d end.

(** The attribute [a] is the entry [x], between [prev] and [next]. *)
Definition is_entry (a : dom_attr) (x : entry) : Prop :=
  at_name a = Some (e_name x) /\ at_local_name a = Some (e_name x) /\ at_value a = e_value x.

Fixpoint aseg (m : gmap positive dom_attr) (prev : option positive) (l : list entry) (next : option positive) : Prop :=
  match l with
  | [] => True
  | x :: r => (exists a, m !! e_at x = Some a /\ is_entry a x /\ at_prev a = prev /\ at_next a = first_at r next) /\
      aseg m (Some (e_at x)) r next
  end.

Definition addresses (l : list entry) : list positive := map e_at l.
Definition lower_names (l : list entry) : list (list Z) := map (fun x => map lower (e_name x)) l.

(** The first attribute whose name satisfies [f]. *)
Definition lookup_name (f : list Z -> bool) (l : list entry) : option entry := find (fun x => f (e_name x)) l.

Definition cache (name : string) (l : list entry) : option positive :=
  e_at <$> lookup_name (fun n => bool_decide (n = bytes name)) l.

Record el_ok (el : dom_node) (l : list entry) : Prop := {
  eo_first : nd_first_attr el = first_at l None;
  eo_last : nd_last_attr el = last_at l None;
  eo_id : nd_attr_id el = cache "id" l;
  eo_class : nd_attr_class el = cache "class" l
}.

Definition attributes (d : dom) (e : positive) (l : list entry) : Prop :=
  (exists el, d_nodes d !! e = Some el /\ el_ok el l) /\ aseg (d_attrs d) None l None /\
  NoDup (addresses l) /\ NoDup (lower_names l).

(** What an operation leaves alone: every node but [e], of [e] all but the
    attribute fields, every attribute but [ids]. *)
Definition not_attrs (n : dom_node) : dom_node :=
  set_nd_first_attr None (set_nd_last_attr None (set_nd_attr_id None (set_nd_attr_class None n))).

Record attrs_only (d d' : dom) (e : positive) (ids : list positive) : Prop := {
  ao_owner : d_owner d' = d_owner d;
  ao_nodes : forall k, k <> e -> d_nodes d' !! k = d_nodes d !! k;
  ao_element : not_attrs <$> d_nodes d' !! e = not_attrs <$> d_nodes d !! e;
  ao_attrs : forall k, k ∉ ids -> d_attrs d' !! k = d_attrs d !! k
}.

(** ** Segments *)

Lemma last_at_app l r d : last_at (l ++ r) d = last_at r (last_at l d).
Proof. unfold last_at. rewrite last_app. by destruct (last r). Qed.

Lemma last_at_cons x r d : last_at (x :: r) d = last_at r (Some (e_at x)).
Proof. apply (last_at_app [x]). Qed.

Lemma first_at_app l r d : first_at (l ++ r) d = first_at l (first_at r d).
Proof. by destruct l. Qed.

Lemma addresses_app l r : addresses (l ++ r) = addresses l ++ addresses r.
Proof. apply map_app. Qed.

Lemma aseg_app m l r : forall prev next,
  aseg m prev (l ++ r) next <-> aseg m prev l (first_at r next) /\ aseg m (last_at l prev) r next.
Proof.
  induction l as [|x l IH]; intros prev next; cbn [app aseg]; [naive_solver|].
  rewrite IH, last_at_cons, first_at_app. naive_solver.
Qed.

Lemma aseg_frame m m' l : forall prev next, aseg m prev l next ->
  (forall i, i ∈ addresses l -> m' !! i = m !! i) -> aseg m' prev l next.
Proof.
  induction l as [|x l IH]; intros prev next H Heq; [done|]. cbn [aseg addresses map] in *.
  destruct H as [(a & Ha & Hrest) H]. split; [exists a; rewrite Heq by set_solver; done|].
  apply IH; [done|]. intros i Hi. apply Heq. set_solver.
Qed.

Lemma aseg_alive m l : forall prev next, aseg m prev l next -> forall i, i ∈ addresses l -> is_Some (m !! i).
Proof.
  induction l as [|x l IH]; intros prev next H i Hi; [by apply elem_of_nil in Hi|]. cbn [aseg addresses map] in *.
  destruct H as [(a & Ha & _) H]. apply elem_of_cons in Hi as [->|Hi]; [by eexists | by eapply IH].
Qed.

(** Changing what is before or after a segment. *)
Lemma aseg_next m prev l z next v : aseg m prev (l ++ [z]) next -> e_at z ∉ addresses l ->
  aseg (alter (set_at_next v) (e_at z) m) prev (l ++ [z]) v.
Proof.
  intros [Hl [(a & Ha & (? & ? & ?) & Hp & _) _]]%aseg_app Hz. apply aseg_app. split.
  - eapply aseg_frame; [exact Hl|]. intros i Hi. apply lookup_alter_ne. intros E. apply Hz. by rewrite E.
  - cbn [aseg]. split; [|done]. exists (set_at_next v a). by rewrite lookup_alter_eq, Ha.
Qed.

Lemma aseg_prev m prev z l next v : aseg m prev (z :: l) next -> e_at z ∉ addresses l ->
  aseg (alter (set_at_prev v) (e_at z) m) v (z :: l) next.
Proof.
  intros [(a & Ha & (? & ? & ?) & _ & Hn) Hl] Hz. cbn [aseg]. split.
  - exists (set_at_prev v a). by rewrite lookup_alter_eq, Ha.
  - eapply aseg_frame; [exact Hl|]. intros i Hi. apply lookup_alter_ne. intros E. apply Hz. by rewrite E.
Qed.

(** ** Lookup *)

Lemma attr_loop_find m cond f : (forall a x, is_entry a x -> cond a = f (e_name x)) ->
  forall l prev fuel, aseg m prev l None -> (length l <= fuel)%nat ->
  attr_loop fuel cond m (first_at l None) = Some (e_at <$> lookup_name f l).
Proof.
  intros Hcond l. induction l as [|x l IH]; intros prev fuel H Hf; [by destruct fuel|].
  destruct fuel as [|fuel]; [cbn in Hf; lia|]. destruct H as [(a & Ha & Hx & _ & Hn) H].
  cbn [first_at attr_loop]. rewrite Ha. cbn [mbind option_bind]. rewrite (Hcond a x Hx).
  unfold lookup_name. cbn [find]. destruct (f (e_name x)); [done|]. rewrite Hn.
  apply (IH (Some (e_at x))); [done|]. cbn in Hf. lia.
Qed.

Lemma attributes_size d e l : attributes d e l -> (length l <= size (d_attrs d))%nat.
Proof.
  intros (_ & H & Hnd & _). replace (length l) with (length (addresses l)) by apply length_map.
  apply keys_size; [done|]. by apply (aseg_alive _ _ _ _ H).
Qed.

Lemma find_first_spec d e l cond f : attributes d e l -> (forall a x, is_entry a x -> cond a = f (e_name x)) ->
  find_first cond d e = Some (e_at <$> lookup_name f l).
Proof.
  intros Hd Hcond. pose proof (attributes_size d e l Hd) as Hs. destruct Hd as ((el & Hel & Hok) & Hseg & _).
  unfold find_first. rewrite Hel. cbn [mbind option_bind]. rewrite (eo_first el l Hok).
  by apply (attr_loop_find _ _ _ Hcond l None).
Qed.

(** The comparison of names a document uses for an element. *)
Definition same_name (d : dom) (e : positive) (name n : list Z) : bool :=
  match d_nodes d !! e with
  | Some el => if html_element d el then eq_nocase name n else bool_decide (name = n)
  | None => false
  end.

Lemma eq_nocase_length a b : (length a =? length b)%nat && eq_nocase a b = eq_nocase a b.
Proof.
  unfold eq_nocase. case_bool_decide as E; [|by destruct (_ =? _)%nat].
  replace (length a) with (length b); [by rewrite Nat.eqb_refl|].
  by rewrite <- (length_map lower a), E, length_map.
Qed.

Lemma eq_length (a b : list Z) : (length a =? length b)%nat && bool_decide (a = b) = bool_decide (a = b).
Proof. case_bool_decide as E; [subst; by rewrite Nat.eqb_refl | by destruct (_ =? _)%nat]. Qed.

Lemma by_name_spec d e l name : attributes d e l ->
  lxb_dom_element_attr_by_name d e name = Some (e_at <$> lookup_name (same_name d e name) l).
Proof.
  intros Hd. pose proof Hd as ((el & Hel & _) & _). unfold lxb_dom_element_attr_by_name. rewrite Hel.
  cbn [mbind option_bind]. pose proof (find_first_spec d e l) as F. unfold same_name. rewrite Hel.
  destruct (html_element d el); apply F; try done; intros a x (Hn & _ & _); unfold name_of; rewrite Hn; cbn [default];
    [apply eq_nocase_length | apply eq_length].
Qed.

Lemma is_exist_spec d e l name : attributes d e l ->
  lxb_dom_element_attr_is_exist d e name = Some (e_at <$> lookup_name (fun n => eq_nocase n name) l).
Proof.
  intros Hd. apply find_first_spec; [done|]. intros a x (_ & Hn & _). unfold local_of. rewrite Hn. cbn [default].
  apply eq_nocase_length.
Qed.

Lemma lookup_name_in f l x : lookup_name f l = Some x -> x ∈ l /\ f (e_name x) = true.
Proof. unfold lookup_name. intros [H1 H2]%find_some. split; [by apply list_elem_of_In | done]. Qed.

Lemma aseg_entry m l : forall prev next x, aseg m prev l next -> x ∈ l ->
  exists a, m !! e_at x = Some a /\ is_entry a x.
Proof.
  induction l as [|y l IH]; intros prev next x H Hx; [by apply elem_of_nil in Hx|].
  destruct H as [(a & Ha & Hy & _) H]. apply elem_of_cons in Hx as [->|Hx]; [by exists a | by eapply IH].
Qed.

Lemma get_attribute_spec d e l name : attributes d e l ->
  lxb_dom_element_get_attribute d e name = Some (x ← lookup_name (same_name d e name) l; e_value x).
Proof.
  intros Hd. unfold lxb_dom_element_get_attribute. rewrite (by_name_spec d e l) by done. cbn [mbind option_bind].
  destruct (lookup_name _ l) as [x|] eqn:Ex; [|done]. cbn [fmap option_fmap option_map].
  apply lookup_name_in in Ex as [Hx _]. destruct Hd as (_ & Hseg & _).
  destruct (aseg_entry _ _ _ _ x Hseg Hx) as (a & Ha & _ & _ & Hv). unfold lxb_dom_attr_value. rewrite Ha.
  cbn [mbind option_bind]. by rewrite Hv.
Qed.

(** ** Writes *)

Lemma attrs_only_refl d e ids : attrs_only d d e ids.
Proof. by split. Qed.

Lemma attrs_only_trans d1 d2 d3 e ids ids' ids'' : attrs_only d1 d2 e ids -> attrs_only d2 d3 e ids' ->
  ids ⊆ ids'' -> ids' ⊆ ids'' -> attrs_only d1 d3 e ids''.
Proof.
  intros [O1 N1 E1 A1] [O2 N2 E2 A2] H1 H2. split.
  - by rewrite O2.
  - intros k Hk. by rewrite N2, N1.
  - by rewrite E2.
  - intros k Hk. by rewrite A2, A1 by set_solver.
Qed.

Lemma attrs_only_attr f i d e : attrs_only d (with_dom_attrs (alter f i (d_attrs d)) d) e [i].
Proof. split; try done. intros k Hk. cbn. apply lookup_alter_ne. set_solver. Qed.

Lemma attrs_only_insert a i d e : attrs_only d (with_dom_attrs (<[i := a]> (d_attrs d)) d) e [i].
Proof. split; try done. intros k Hk. cbn. apply lookup_insert_ne. set_solver. Qed.

Lemma attrs_only_element el el' d e : d_nodes d !! e = Some el -> not_attrs el' = not_attrs el ->
  attrs_only d (with_nodes (<[e := el']> (d_nodes d)) d) e [].
Proof.
  intros Hel Heq. split; try done; cbn.
  - intros k Hk. by apply lookup_insert_ne.
  - rewrite lookup_insert_eq, Hel. cbn. by rewrite Heq.
Qed.

Lemma upd_attr_some f i a d : d_attrs d !! i = Some a ->
  upd_attr f i d = Some (with_dom_attrs (alter f i (d_attrs d)) d).
Proof.
  intros Ha. unfold upd_attr. rewrite Ha. cbn [mbind option_bind]. f_equal. f_equal. apply map_eq. intros k.
  destruct (decide (i = k)) as [<-|].
  - by rewrite lookup_insert_eq, lookup_alter_eq, Ha.
  - by rewrite lookup_insert_ne, lookup_alter_ne.
Qed.

Lemma upd_element_some f e el d : d_nodes d !! e = Some el ->
  upd_element f e d = Some (with_nodes (<[e := f el]> (d_nodes d)) d).
Proof. intros Hel. unfold upd_element, upd. by rewrite Hel. Qed.

Lemma with_nodes_same d e el : d_nodes d !! e = Some el -> with_nodes (<[e := el]> (d_nodes d)) d = d.
Proof. intros Hel. destruct d as [h m o]. unfold with_nodes. cbn in *. by rewrite insert_id. Qed.

(** The pointer to what follows the attributes [l]: the last one's or the
    element's. *)
Lemma set_following d e el l v w : d_nodes d !! e = Some el -> aseg (d_attrs d) None l v -> NoDup (addresses l) ->
  nd_first_attr el = first_at l v ->
  exists d' el', match last_at l None with
                 | Some p => upd_attr (set_at_next w) p d
                 | None => upd_element (set_nd_first_attr w) e d
                 end = Some d' /\ d_nodes d' !! e = Some el' /\ aseg (d_attrs d') None l w /\
    nd_first_attr el' = first_at l w /\ nd_last_attr el' = nd_last_attr el /\
    nd_attr_id el' = nd_attr_id el /\ nd_attr_class el' = nd_attr_class el /\ attrs_only d d' e (addresses l).
Proof.
  intros Hel Hseg Hnd Hfi. destruct l as [|z l _] using rev_ind.
  - cbn [last_at last]. rewrite (upd_element_some _ e el) by done. eexists _, _. split; [done|]. cbn.
    rewrite lookup_insert_eq. repeat (split; [done|]). by apply attrs_only_element with el.
  - rewrite last_at_app. cbn [last_at last]. rewrite addresses_app in *. cbn [addresses map] in *.
    destruct (aseg_alive _ _ _ _ Hseg (e_at z)) as [a Ha]; [rewrite addresses_app; set_solver|].
    rewrite (upd_attr_some _ _ a) by done. eexists _, el. split; [done|]. split; [done|]. split.
    { eapply aseg_next; [exact Hseg|]. apply NoDup_app in Hnd as (_ & Hd & _). intros Hz. apply (Hd _ Hz). set_solver. }
    split; [rewrite Hfi; by destruct l|]. repeat (split; [done|]).
    eapply attrs_only_trans; [apply attrs_only_attr | apply (attrs_only_refl _ _ []) | set_solver | set_solver].
Qed.

(** The pointer to what precedes the attributes [l]: the first one's or the
    element's. *)
Lemma set_preceding d e el l v w : d_nodes d !! e = Some el -> aseg (d_attrs d) v l None -> NoDup (addresses l) ->
  nd_last_attr el = last_at l v ->
  exists d' el', match first_at l None with
                 | Some p => upd_attr (set_at_prev w) p d
                 | None => upd_element (set_nd_last_attr w) e d
                 end = Some d' /\ d_nodes d' !! e = Some el' /\ aseg (d_attrs d') w l None /\
    nd_first_attr el' = nd_first_attr el /\ nd_last_attr el' = last_at l w /\
    nd_attr_id el' = nd_attr_id el /\ nd_attr_class el' = nd_attr_class el /\ attrs_only d d' e (addresses l).
Proof.
  intros Hel Hseg Hnd Hla. destruct l as [|z l].
  - cbn [first_at]. rewrite (upd_element_some _ e el) by done. eexists _, _. split; [done|]. cbn.
    rewrite lookup_insert_eq. repeat (split; [done|]). by apply attrs_only_element with el.
  - cbn [first_at addresses map] in *.
    destruct (aseg_alive _ _ _ _ Hseg (e_at z)) as [a Ha]; [cbn; set_solver|].
    rewrite (upd_attr_some _ _ a) by done. eexists _, el. split; [done|]. split; [done|]. split.
    { eapply aseg_prev; [exact Hseg|]. by apply NoDup_cons in Hnd as [? _]. }
    split; [done|]. split; [rewrite Hla; by rewrite !last_at_cons|]. repeat (split; [done|]).
    eapply attrs_only_trans; [apply attrs_only_attr | apply (attrs_only_refl _ _ []) | set_solver | set_solver].
Qed.

Lemma last_at_some l : l <> [] -> exists p, last_at l None = Some p.
Proof. destruct l as [|z l _] using rev_ind; [done|]. intros _. rewrite last_at_app. by eexists. Qed.

(** ** Insertion at the end *)

Lemma cache_app name l x : cache name (l ++ [x]) =
  match cache name l with
  | Some i => Some i
  | None => if bool_decide (e_name x = bytes name) then Some (e_at x) else None
  end.
Proof.
  unfold cache, lookup_name. induction l as [|y l IH]; cbn [app find]; [by case_bool_decide|].
  destruct (bool_decide (e_name y = bytes name)); [done | exact IH].
Qed.

Lemma cache_step d e el l x : d_nodes d !! e = Some el -> el_ok el l ->
  exists el', (if bool_decide (nd_attr_id el = None) && (length (e_name x) =? 2)%nat then
      if bool_decide (e_name x = bytes "id") then upd_element (set_nd_attr_id (Some (e_at x))) e d else Some d
    else if bool_decide (nd_attr_class el = None) && (length (e_name x) =? 5)%nat then
      if bool_decide (e_name x = bytes "class") then upd_element (set_nd_attr_class (Some (e_at x))) e d else Some d
    else Some d) = Some (with_nodes (<[e := el']> (d_nodes d)) d) /\
    nd_first_attr el' = nd_first_attr el /\ nd_last_attr el' = nd_last_attr el /\
    nd_attr_id el' = cache "id" (l ++ [x]) /\ nd_attr_class el' = cache "class" (l ++ [x]) /\
    not_attrs el' = not_attrs el.
Proof.
  intros Hel [_ _ Hid Hcl]. rewrite Hid, Hcl, !cache_app.
  assert (Hkeep : Some d = Some (with_nodes (<[e := el]> (d_nodes d)) d)) by (by rewrite with_nodes_same).
  destruct (decide (e_name x = bytes "id")) as [Ei|Ei].
  { rewrite (bool_decide_true (e_name x = bytes "id")), (bool_decide_false (e_name x = bytes "class")) by (by rewrite Ei).
    rewrite Ei. cbn [length Nat.eqb bytes]. rewrite andb_true_r, andb_false_r.
    destruct (cache "id" l) as [i|].
    - rewrite bool_decide_false by done. exists el. by destruct (cache "class" l).
    - rewrite bool_decide_true by done. exists (set_nd_attr_id (Some (e_at x)) el).
      rewrite (upd_element_some _ e el) by done. repeat (split; [done|]). by destruct (cache "class" l). }
  rewrite (bool_decide_false _ Ei). destruct (decide (e_name x = bytes "class")) as [Ec|Ec].
  { rewrite (bool_decide_true _ Ec). rewrite Ec. cbn [length Nat.eqb bytes]. rewrite andb_false_r, andb_true_r.
    destruct (cache "class" l) as [i|].
    - rewrite bool_decide_false by done. exists el. by destruct (cache "id" l).
    - rewrite bool_decide_true by done. exists (set_nd_attr_class (Some (e_at x)) el).
      rewrite (upd_element_some _ e el) by done. repeat (split; [done|]). by destruct (cache "id" l). }
  rewrite (bool_decide_false _ Ec). exists el. split; [|by destruct (cache "id" l), (cache "class" l)].
  by destruct (_ && _); [|destruct (_ && _)].
Qed.

Lemma attr_append_spec d e l x a : attributes d e l -> d_attrs d !! e_at x = Some a -> is_entry a x ->
  at_next a = None -> at_prev a = None -> e_at x ∉ addresses l -> map lower (e_name x) ∉ lower_names l ->
  exists d', lxb_dom_element_attr_append d e (e_at x) = Some (LXB_STATUS_OK, d') /\
    attributes d' e (l ++ [x]) /\ attrs_only d d' e (e_at x :: addresses l).
Proof.
  intros ((el & Hel & Hok) & Hseg & Hnd & Hnames) Ha Hx Hne Hpr Hout Hname.
  assert (Hnd' : NoDup (addresses (l ++ [x])) /\ NoDup (lower_names (l ++ [x]))).
  { rewrite addresses_app. unfold lower_names. rewrite map_app. fold (lower_names l).
    split; (apply NoDup_app; split; [done|]; split; [set_solver | apply NoDup_singleton]). }
  unfold lxb_dom_element_attr_append. rewrite Ha, Hel. cbn [mbind option_bind]. rewrite (proj1 Hx).
  destruct (cache_step d e el l x Hel Hok) as (el1 & -> & Hf1 & Hl1 & Hid & Hcl & Hn1).
  cbn [mbind option_bind]. set (d1 := with_nodes (<[e := el1]> (d_nodes d)) d).
  assert (Hel1 : d_nodes d1 !! e = Some el1) by apply lookup_insert_eq.
  assert (O1 : attrs_only d d1 e []) by (by apply attrs_only_element with el).
  rewrite (eo_first el l Hok), (eo_last el l Hok). destruct l as [|y l].
  - cbn [first_at last_at last]. rewrite (upd_element_some _ e el1) by done. cbn [mbind option_bind].
    erewrite upd_element_some by apply lookup_insert_eq. cbn [mbind option_bind]. eexists. split; [done|].
    set (el2 := set_nd_last_attr _ _). split.
    + split; [exists el2; split; [apply lookup_insert_eq | by split]|]. split; [|done].
      split; [by exists a | done].
    + eapply attrs_only_trans; [exact O1 | | set_solver | set_solver].
      eapply attrs_only_trans; [apply (attrs_only_element el1); [done|] | apply (attrs_only_element (set_nd_first_attr (Some (e_at x)) el1)); [apply lookup_insert_eq|] | set_solver | set_solver]; done.
  - set (m := y :: l) in *. destruct (last_at_some m) as [p Hp]; [done|].
    assert (first_at m None = Some (e_at y)) as -> by done. rewrite (upd_attr_some _ _ a) by done.
    cbn [mbind option_bind]. set (d2 := with_dom_attrs _ d1).
    assert (O2 : attrs_only d1 d2 e [e_at x]) by apply attrs_only_attr.
    assert (Hseg2 : aseg (d_attrs d2) None m None).
    { eapply aseg_frame; [exact Hseg|]. intros k Hk. apply (ao_attrs _ _ _ _ O2). set_solver. }
    destruct (set_following d2 e el1 m None (Some (e_at x))) as (d3 & el3 & E3 & Hel3 & Hseg3 & Hf3 & Hl3 & Hid3 & Hcl3 & O3);
      [done | done | done | by rewrite Hf1, (eo_first el m Hok) |].
    rewrite Hp in E3 |- *. cbn [mbind option_bind]. rewrite E3. cbn [mbind option_bind].
    rewrite (upd_element_some _ e el3) by done. cbn [mbind option_bind]. eexists. split; [done|]. split.
    + split; [exists (set_nd_last_attr (Some (e_at x)) el3); split; [apply lookup_insert_eq|]; split; cbn|].
      * by rewrite Hf3.
      * change (Some (e_at x) = last_at (m ++ [x]) None). by rewrite last_at_app.
      * by rewrite Hid3.
      * by rewrite Hcl3.
      * split; [|done]. apply aseg_app. split; [exact Hseg3|]. split; [|done].
        exists (set_at_prev (Some p) a). cbn [d_attrs with_nodes]. rewrite (ao_attrs _ _ _ _ O3) by done.
        cbn. rewrite lookup_alter_eq, Ha, Hp. destruct Hx as (? & ? & ?). by repeat (split; [done|]).
    + eapply attrs_only_trans; [exact O1 | | set_solver | set_solver].
      eapply attrs_only_trans; [exact O2 | | set_solver | set_solver].
      eapply attrs_only_trans; [exact O3 | by apply (attrs_only_element el3) | set_solver | set_solver].
Qed.

(** ** Removal *)

Lemma lookup_split f l x : lookup_name f l = Some x ->
  exists l1 l2, l = l1 ++ x :: l2 /\ lookup_name f l1 = None /\ f (e_name x) = true.
Proof.
  unfold lookup_name. induction l as [|y l IH]; [done|]. cbn [find]. destruct (f (e_name y)) eqn:Ef.
  - intros [= <-]. by exists [], l.
  - intros (l1 & l2 & -> & Hl1 & Hx)%IH. exists (y :: l1), l2. cbn [find]. by rewrite Ef.
Qed.

Lemma lookup_name_app f l r : lookup_name f (l ++ r) =
  match lookup_name f l with Some x => Some x | None => lookup_name f r end.
Proof. unfold lookup_name. induction l as [|y l IH]; [done|]. cbn [app find]. by destruct (f (e_name y)). Qed.

Lemma lookup_name_cons f x l : lookup_name f (x :: l) = if f (e_name x) then Some x else lookup_name f l.
Proof. done. Qed.

Lemma cache_address name l i : cache name l = Some i -> i ∈ addresses l.
Proof.
  unfold cache. destruct (lookup_name _ l) as [x|] eqn:Ex; [|done]. intros [= <-].
  apply lookup_name_in in Ex as [Hx _]. apply list_elem_of_In, in_map, list_elem_of_In, Hx.
Qed.

Lemma cache_absent name l : map lower (bytes name) ∉ lower_names l ->
  lookup_name (fun n => bool_decide (n = bytes name)) l = None.
Proof.
  intros H. destruct (lookup_name _ l) as [x|] eqn:Ex; [|done]. apply lookup_name_in in Ex as [Hx E].
  apply bool_decide_eq_true in E. destruct H. rewrite <- E. apply list_elem_of_In.
  apply (in_map (fun y => map lower (e_name y))), list_elem_of_In, Hx.
Qed.

Lemma cache_remove name l1 x l2 : NoDup (addresses (l1 ++ x :: l2)) -> NoDup (lower_names (l1 ++ x :: l2)) ->
  cache name (l1 ++ l2) =
    if bool_decide (cache name (l1 ++ x :: l2) = Some (e_at x)) then None else cache name (l1 ++ x :: l2).
Proof.
  unfold lower_names. rewrite map_app, addresses_app. cbn [addresses map]. fold (lower_names l1) (lower_names l2) (addresses l2).
  intros (_ & Hd1 & [Ha2 _]%NoDup_cons)%NoDup_app (_ & Hd & [Hx _]%NoDup_cons)%NoDup_app.
  destruct (decide (e_name x = bytes name)) as [E|E].
  - assert (H1 : map lower (bytes name) ∉ lower_names l1) by (rewrite <- E; intros Hl; apply (Hd _ Hl); set_solver).
    assert (H2 : map lower (bytes name) ∉ lower_names l2) by (by rewrite <- E).
    unfold cache. rewrite !lookup_name_app, (cache_absent _ _ H1), (cache_absent _ _ H2).
    rewrite lookup_name_cons, (bool_decide_true _ E). cbn [fmap option_fmap option_map]. by rewrite bool_decide_true.
  - assert (Heq : cache name (l1 ++ x :: l2) = cache name (l1 ++ l2)).
    { unfold cache. by rewrite !lookup_name_app, lookup_name_cons, (bool_decide_false _ E). }
    rewrite Heq. rewrite bool_decide_false; [done|]. intros Hc%cache_address. rewrite addresses_app in Hc.
    apply elem_of_app in Hc as [Hc|Hc]; [|done]. apply (Hd1 _ Hc). set_solver.
Qed.

Lemma uncache_step d e el l1 x l2 : d_nodes d !! e = Some el -> el_ok el (l1 ++ x :: l2) ->
  NoDup (addresses (l1 ++ x :: l2)) -> NoDup (lower_names (l1 ++ x :: l2)) ->
  exists el', (if bool_decide (nd_attr_id el = Some (e_at x)) then upd_element (set_nd_attr_id None) e d
    else if bool_decide (nd_attr_class el = Some (e_at x)) then upd_element (set_nd_attr_class None) e d
    else Some d) = Some (with_nodes (<[e := el']> (d_nodes d)) d) /\
    nd_first_attr el' = nd_first_attr el /\ nd_last_attr el' = nd_last_attr el /\
    nd_attr_id el' = cache "id" (l1 ++ l2) /\ nd_attr_class el' = cache "class" (l1 ++ l2) /\
    not_attrs el' = not_attrs el.
Proof.
  intros Hel [_ _ Hid Hcl] Hnd Hnames. rewrite (cache_remove "id" l1 x l2 Hnd Hnames), (cache_remove "class" l1 x l2 Hnd Hnames), <- Hid, <- Hcl.
  destruct (bool_decide (nd_attr_id el = Some (e_at x))) eqn:Ei.
  - rewrite bool_decide_false.
    { rewrite (upd_element_some _ e el) by done. eexists. split; [reflexivity|]. done. }
    apply bool_decide_eq_true in Ei. rewrite Hcl. rewrite Hid in Ei. intros Ec.
    unfold cache in Ei, Ec.
    destruct (lookup_name _ _) as [y|] eqn:Ey in Ei; [|done]. destruct (lookup_name _ _) as [z|] eqn:Ez in Ec; [|done].
    injection Ei as Ei. injection Ec as Ec. apply lookup_name_in in Ey as [Hy E1], Ez as [Hz E2].
    apply bool_decide_eq_true in E1, E2. assert (y = z) as ->; [|by rewrite E1 in E2].
    apply list_elem_of_lookup in Hy as [i Hy], Hz as [j Hz].
    assert (i = j) as ->; [|congruence]. eapply NoDup_lookup; [exact Hnd | |]; unfold addresses; rewrite list_lookup_fmap.
    + rewrite Hy. done.
    + rewrite Hz. cbn. by rewrite Ec, Ei.
  - destruct (bool_decide (nd_attr_class el = Some (e_at x))).
    + rewrite (upd_element_some _ e el) by done. eexists. split; [reflexivity|]. done.
    + exists el. by rewrite with_nodes_same.
Qed.

Lemma attributes_frame d d' e l ids : attributes d e l -> attrs_only d d' e ids ->
  d_nodes d' !! e = d_nodes d !! e -> (forall i, i ∈ addresses l -> i ∉ ids) -> attributes d' e l.
Proof.
  intros (Hel & Hseg & Hnd) O He Hids. split; [by rewrite He|]. split; [|done].
  eapply aseg_frame; [exact Hseg|]. intros i Hi. by apply (ao_attrs _ _ _ _ O), Hids.
Qed.

Lemma attr_remove_spec d e l1 x l2 : attributes d e (l1 ++ x :: l2) ->
  exists d', lxb_dom_element_attr_remove d e (e_at x) = Some (LXB_STATUS_OK, d') /\
    attributes d' e (l1 ++ l2) /\ is_Some (d_attrs d' !! e_at x) /\ attrs_only d d' e (addresses (l1 ++ x :: l2)).
Proof.
  intros ((el & Hel & Hok) & Hseg & Hnd & Hnames).
  destruct (uncache_step d e el l1 x l2 Hel Hok Hnd Hnames) as (el1 & E1 & Hf1 & Hl1 & Hid & Hcl & Hn1).
  pose proof Hseg as [Hs1 [(a & Ha & Hx & Hp & Hn) Hs2]]%aseg_app. cbn [first_at] in Hs1.
  rewrite (eo_first _ _ Hok), first_at_app in Hf1. rewrite (eo_last _ _ Hok), last_at_app, last_at_cons in Hl1.
  cbn [first_at] in Hf1.
  assert (Hnd' : NoDup (addresses (l1 ++ l2)) /\ NoDup (lower_names (l1 ++ l2))).
  { rewrite addresses_app in *. unfold lower_names in *. rewrite map_app in *.
    split; [clear Hnames | clear Hnd; rename Hnames into Hnd];
      apply NoDup_app in Hnd as (H1 & H2 & [_ H3]%NoDup_cons); (apply NoDup_app; split; [done|]; split; [|done]);
      intros k Hk Hk'; apply (H2 k Hk); apply elem_of_cons; by right. }
  rewrite addresses_app in Hnd |- *. cbn [addresses map] in Hnd. fold (addresses l2) in Hnd.
  apply NoDup_app in Hnd as (Hnd1 & Hd & [Hx2 Hnd2]%NoDup_cons).
  assert (Hx1 : e_at x ∉ addresses l1) by (intros H; apply (Hd _ H); set_solver).
  unfold lxb_dom_element_attr_remove. rewrite Ha, Hel. cbn [mbind option_bind]. rewrite E1. cbn [mbind option_bind].
  set (d1 := with_nodes (<[e := el1]> (d_nodes d)) d). rewrite Hp, Hn.
  assert (O1 : attrs_only d d1 e []) by (by apply (attrs_only_element el)).
  destruct (set_following d1 e el1 l1 (Some (e_at x)) (first_at l2 None))
    as (d2 & el2 & E2 & Hel2 & Hs1' & Hf2 & Hl2 & Hid2 & Hcl2 & O2); [apply lookup_insert_eq | done | done | done |].
  rewrite E2. cbn [mbind option_bind].
  assert (Ha2 : d_attrs d2 !! e_at x = Some a) by (by rewrite (ao_attrs _ _ _ _ O2)).
  rewrite Ha2. cbn [mbind option_bind]. rewrite Hp, Hn.
  destruct (set_preceding d2 e el2 l2 (Some (e_at x)) (last_at l1 None))
    as (d3 & el3 & E3 & Hel3 & Hs2' & Hf3 & Hl3 & Hid3 & Hcl3 & O3); [done | | done | by rewrite Hl2 |].
  { eapply aseg_frame; [exact Hs2|]. intros k Hk. rewrite (ao_attrs _ _ _ _ O2); [done|].
    intros Hk'. apply (Hd _ Hk'). set_solver. }
  rewrite E3. cbn [mbind option_bind]. rewrite (upd_attr_some _ _ a) by (by rewrite (ao_attrs _ _ _ _ O3)).
  cbn [mbind option_bind].
  erewrite upd_attr_some by (cbn [d_attrs with_dom_attrs]; rewrite lookup_alter_eq, (ao_attrs _ _ _ _ O3), Ha2 by done; done).
  cbn [mbind option_bind]. set (d4 := with_dom_attrs (alter (set_at_next None) (e_at x) (d_attrs d3)) d3).
  eexists. split; [done|]. set (d5 := with_dom_attrs _ d4).
  assert (O4 : attrs_only d3 d4 e [e_at x]) by apply attrs_only_attr.
  assert (O5 : attrs_only d4 d5 e [e_at x]) by apply attrs_only_attr.
  assert (O35 : attrs_only d3 d5 e [e_at x]) by (eapply attrs_only_trans; [exact O4 | exact O5 | set_solver | set_solver]).
  split; [|split].
  - apply (attributes_frame d3 d5 e (l1 ++ l2) [e_at x]); [|done|done|].
    + split.
      * exists el3. split; [done|]. split.
        -- by rewrite Hf3, Hf2, first_at_app.
        -- by rewrite Hl3, last_at_app.
        -- by rewrite Hid3, Hid2.
        -- by rewrite Hcl3, Hcl2.
      * split; [|done]. apply aseg_app. split; [|done]. eapply aseg_frame; [exact Hs1'|].
        intros k Hk. apply (ao_attrs _ _ _ _ O3). intros Hk'. apply (Hd _ Hk). set_solver.
    + intros k Hk. rewrite addresses_app in Hk. intros ->%list_elem_of_singleton. set_solver.
  - cbn. rewrite !lookup_alter_eq, (ao_attrs _ _ _ _ O3), Ha2 by done. by eexists.
  - cbn [addresses map]. fold (addresses l2).
    eapply attrs_only_trans; [exact O1 | | set_solver | reflexivity].
    eapply attrs_only_trans; [exact O2 | | set_solver | reflexivity].
    eapply attrs_only_trans; [exact O3 | exact O35 | set_solver | set_solver].
Qed.

(** ** The abstract operations *)

(** The value of the first attribute whose name satisfies [f]. *)
Fixpoint set_named (f : list Z -> bool) (value : list Z) (l : list entry) : list entry :=
  match l with
  | [] => []
  | x :: r => if f (e_name x) then mk_entry (e_at x) (e_name x) (Some value) :: r else x :: set_named f value r
  end.

Fixpoint delete_named (f : list Z -> bool) (l : list entry) : list entry :=
  match l with [] => [] | x :: r => if f (e_name x) then r else x :: delete_named f r end.

Lemma named_split f l1 x l2 value : lookup_name f l1 = None -> f (e_name x) = true ->
  set_named f value (l1 ++ x :: l2) = l1 ++ mk_entry (e_at x) (e_name x) (Some value) :: l2 /\
  delete_named f (l1 ++ x :: l2) = l1 ++ l2.
Proof.
  intros Hl1 Hx. induction l1 as [|y l1 IH]; cbn [app set_named delete_named]; [by rewrite Hx|].
  rewrite lookup_name_cons in Hl1. destruct (f (e_name y)); [done|]. by destruct (IH Hl1) as [-> ->].
Qed.

Lemma delete_none f l : lookup_name f l = None -> delete_named f l = l.
Proof.
  induction l as [|y l IH]; [done|]. rewrite lookup_name_cons. cbn [delete_named].
  destruct (f (e_name y)); [done|]. by intros ->%IH.
Qed.

Lemma cache_value name l1 x l2 v :
  cache name (l1 ++ mk_entry (e_at x) (e_name x) v :: l2) = cache name (l1 ++ x :: l2).
Proof.
  unfold cache. rewrite !lookup_name_app, !lookup_name_cons. destruct (lookup_name _ l1); [done|].
  by destruct (bool_decide _).
Qed.

Lemma set_value_spec d e l1 x l2 value : attributes d e (l1 ++ x :: l2) ->
  exists d', on_attr (lxb_dom_attr_set_value value) (e_at x) d = Some (LXB_STATUS_OK, d') /\
    attributes d' e (l1 ++ mk_entry (e_at x) (e_name x) (Some value) :: l2) /\ attrs_only d d' e [e_at x].
Proof.
  intros ((el & Hel & [Hf Hl Hid Hcl]) & Hseg & Hnd & Hnames). unfold on_attr.
  pose proof Hseg as [Hs1 [(a & Ha & (Hn1 & Hn2 & _) & Hp & Hn) Hs2]]%aseg_app.
  rewrite Ha. cbn [mbind option_bind lxb_dom_attr_set_value]. eexists. split; [done|].
  split; [|apply attrs_only_insert].
  split; [|split; [|by unfold addresses, lower_names in *; rewrite !map_app in *]].
  - exists el. split; [done|]. split; [by rewrite Hf, !first_at_app | by rewrite Hl, !last_at_app, !last_at_cons | |];
      by rewrite cache_value.
  - rewrite addresses_app in Hnd. apply NoDup_app in Hnd as (_ & Hd & [Hx _]%NoDup_cons). apply aseg_app. cbn [first_at e_at with_dom_attrs d_attrs]. split.
    + eapply aseg_frame; [exact Hs1|]. intros k Hk. apply lookup_insert_ne. intros <-. apply (Hd _ Hk). set_solver.
    + cbn [aseg e_at]. split; [eexists; split; [apply lookup_insert_eq | done]|].
      eapply aseg_frame; [exact Hs2|]. intros k Hk. apply lookup_insert_ne. by intros <-.
Qed.

(** ** The operations of the interface *)

Lemma nocase_absent l name name' : lookup_name (fun n => eq_nocase n name) l = None ->
  map lower name' = map lower name -> map lower name' ∉ lower_names l.
Proof.
  intros Hl -> Hin. unfold lower_names in Hin. apply list_elem_of_In, in_map_iff in Hin as (y & Hy & Hin).
  unfold lookup_name in Hl. apply (find_none _ _ Hl) in Hin. cbn in Hin. apply bool_decide_eq_false in Hin. done.
Qed.

Lemma attr_remove_named d e l f x : attributes d e l -> lookup_name f l = Some x ->
  exists d', ('(status, d) ← lxb_dom_element_attr_remove d e (e_at x);
      if negb (status =? LXB_STATUS_OK) then Some (status, d)
      else d ← lxb_dom_attr_interface_destroy (e_at x) d; Some (LXB_STATUS_OK, d)) = Some (LXB_STATUS_OK, d') /\
    attributes d' e (delete_named f l) /\ attrs_only d d' e (addresses l) /\ d_attrs d' !! e_at x = None.
Proof.
  intros Hd (l1 & l2 & -> & Hl1 & Hx)%lookup_split. rewrite (proj2 (named_split f l1 x l2 [] Hl1 Hx)).
  pose proof Hd as (_ & _ & Hnd & _).
  destruct (attr_remove_spec d e l1 x l2 Hd) as (d1 & -> & Hd1 & [a Ha] & O1). cbn [mbind option_bind negb Z.eqb LXB_STATUS_OK].
  unfold lxb_dom_attr_interface_destroy. rewrite Ha. cbn [mbind option_bind]. eexists. split; [done|].
  set (d2 := with_dom_attrs _ d1).
  assert (O2 : attrs_only d1 d2 e [e_at x]) by (split; try done; intros k Hk; cbn; apply lookup_delete_ne; set_solver).
  split.
  - apply (attributes_frame d1 d2 e _ [e_at x]); [done|done|done|]. intros k Hk ->%list_elem_of_singleton.
    rewrite addresses_app in Hnd, Hk. cbn [addresses map] in Hnd. apply NoDup_app in Hnd as (_ & Hdis & [Hx2 _]%NoDup_cons).
    apply elem_of_app in Hk as [Hk|Hk]; [|done]. apply (Hdis _ Hk). set_solver.
  - split; [|apply lookup_delete_eq].
    eapply attrs_only_trans; [exact O1 | exact O2 | reflexivity|]. rewrite addresses_app. cbn [addresses map]. set_solver.
Qed.

Lemma remove_attribute_spec d e l name : attributes d e l ->
  exists d', lxb_dom_element_remove_attribute d e name = Some (LXB_STATUS_OK, d') /\
    attributes d' e (delete_named (same_name d e name) l) /\ attrs_only d d' e (addresses l).
Proof.
  intros Hd. unfold lxb_dom_element_remove_attribute. rewrite (by_name_spec d e l) by done. cbn [mbind option_bind].
  destruct (lookup_name _ l) as [x|] eqn:Ex; cbn [fmap option_fmap option_map].
  - destruct (attr_remove_named d e l _ x Hd Ex) as (d' & E & Hd' & O & _). by exists d'.
  - exists d. by rewrite delete_none.
Qed.

Section Alloc.
Context (alloc : gmap positive dom_attr -> positive).
Context (alloc_fresh : forall m, m !! alloc m = None).

Lemma on_attr_insert f i a m d :
  on_attr f i (with_dom_attrs (<[i := a]> m) d) = Some (fst (f a), with_dom_attrs (<[i := snd (f a)]> m) d).
Proof.
  unfold on_attr. cbn [d_attrs with_dom_attrs]. rewrite lookup_insert_eq. cbn [mbind option_bind].
  destruct (f a). by rewrite insert_insert_eq.
Qed.

(** A new attribute, before it is appended. *)
Lemma fresh_attr_spec d e l a : attributes d e l ->
  let d' := with_dom_attrs (<[alloc (d_attrs d) := a]> (d_attrs d)) d in
  alloc (d_attrs d) ∉ addresses l /\ attributes d' e l /\ attrs_only d d' e [alloc (d_attrs d)].
Proof.
  intros Hd d'. assert (Hi : alloc (d_attrs d) ∉ addresses l).
  { intros Hi. destruct Hd as (_ & Hseg & _). destruct (aseg_alive _ _ _ _ Hseg _ Hi) as [b Hb].
    pose proof (alloc_fresh (d_attrs d)). congruence. }
  assert (O : attrs_only d d' e [alloc (d_attrs d)]) by apply attrs_only_insert. split; [done|]. split; [|done].
  apply (attributes_frame d d' e l _ Hd O); [done|]. intros k Hk ->%list_elem_of_singleton. done.
Qed.

(** The name and the value are set. *)
Lemma create_spec d e l name value lowercase : attributes d e l ->
  let x := mk_entry (alloc (d_attrs d)) (if lowercase : bool then map lower name else name) (Some value) in
  exists d1 d2 d3 a, lxb_dom_attr_interface_create alloc d = (e_at x, d1) /\
    on_attr (lxb_dom_attr_set_name name [] lowercase) (e_at x) d1 = Some (LXB_STATUS_OK, d2) /\
    on_attr (lxb_dom_attr_set_value value) (e_at x) d2 = Some (LXB_STATUS_OK, d3) /\
    d_nodes d1 = d_nodes d /\ d_owner d1 = d_owner d /\
    d_attrs d3 !! e_at x = Some a /\ is_entry a x /\ at_next a = None /\ at_prev a = None /\
    e_at x ∉ addresses l /\ attributes d3 e l /\ attrs_only d d3 e [e_at x].
Proof.
  intros Hd x. unfold lxb_dom_attr_interface_create. cbn [e_at x]. set (i := alloc (d_attrs d)).
  do 4 eexists. split; [done|]. split; [apply on_attr_insert|]. split; [apply on_attr_insert|].
  destruct (fresh_attr_spec d e l (snd (lxb_dom_attr_set_value value
    (snd (lxb_dom_attr_set_name name [] lowercase (mk_dom_attr 0 None None None None None 0))))) Hd) as (Hi & Hd' & O).
  do 2 (split; [done|]). split; [apply lookup_insert_eq|]. by repeat (split; [done|]).
Qed.

(** What [set_attribute] makes of the list. *)
Definition set_entry (d : dom) (e : positive) (name value : list Z) (l : list entry) : positive * list entry :=
  match lookup_name (fun n => eq_nocase n name) l with
  | Some x => (e_at x, set_named (fun n => eq_nocase n name) value l)
  | None =>
      let lowercase := match d_nodes d !! e with Some el => html_element d el | None => false end in
      let i := alloc (d_attrs d) in
      (i, l ++ [mk_entry i (if lowercase then map lower name else name) (Some value)])
  end.

Lemma set_attribute_spec d e l name value : attributes d e l ->
  exists d', lxb_dom_element_set_attribute alloc d e name value = Some (Some (fst (set_entry d e name value l)), d') /\
    attributes d' e (snd (set_entry d e name value l)) /\
    attrs_only d d' e (fst (set_entry d e name value l) :: addresses l).
Proof.
  intros Hd. unfold lxb_dom_element_set_attribute, set_entry. rewrite (is_exist_spec d e l) by done.
  cbn [mbind option_bind]. destruct (lookup_name _ l) as [x|] eqn:Ex; cbn [fmap option_fmap option_map fst snd].
  - apply lookup_split in Ex as (l1 & l2 & -> & Hl1 & Hx). destruct (set_value_spec d e l1 x l2 value Hd) as (d' & -> & Hd' & O).
    cbn [mbind option_bind negb Z.eqb LXB_STATUS_OK]. exists d'. split; [done|].
    rewrite (proj1 (named_split _ l1 x l2 value Hl1 Hx)). split; [done|].
    eapply attrs_only_trans; [exact O | apply (attrs_only_refl _ _ []) | set_solver | set_solver].
  - pose proof Hd as ((el & Hel & _) & _). rewrite Hel.
    destruct (create_spec d e l name value (html_element d el) Hd)
      as (d1 & d2 & d3 & a & -> & E2 & E3 & Hn & Ho & Ha & Hx & Hne & Hpr & Hout & Hd3 & O3). cbn [e_at] in *.
    rewrite Hn, Hel. cbn [mbind option_bind].
    assert (html_element d1 el = html_element d el) as -> by (unfold html_element; by rewrite Ho).
    rewrite E2. cbn [mbind option_bind negb Z.eqb LXB_STATUS_OK]. rewrite E3. cbn [mbind option_bind negb Z.eqb LXB_STATUS_OK].
    set (x := mk_entry _ _ (Some value)) in *.
    destruct (attr_append_spec d3 e l x a Hd3 Ha Hx Hne Hpr Hout) as (d' & E & Hd' & O).
    { apply (nocase_absent l name); [done|]. cbn [x e_name]. destruct (html_element d el); [apply map_lower_twice | done]. }
    cbn [x e_at] in E. rewrite E. cbn [mbind option_bind]. exists d'. split; [done|]. split; [done|].
    eapply attrs_only_trans; [exact O3 | exact O | set_solver | reflexivity].
Qed.

(** C17: the attributes of an element are an association list.  On an element with
    the attributes [l], no two of one name up to case: [get_attribute] answers the
    value of the first entry of that name (up to case for an HTML element of an
    HTML document, exactly otherwise) and [has_attribute] whether there is one;
    [set_attribute] gives the entry of that name up to case the value, or appends
    a new one, its name lower-cased in HTML; [remove_attribute] deletes the entry.
    Links, the caches of [id] and [class] and the distinctness of names are kept,
    and nothing else of the document changes. *)
Theorem attributes_refine d e l name value : attributes d e l ->
  lxb_dom_element_get_attribute d e name = Some (x ← lookup_name (same_name d e name) l; e_value x) /\
  lxb_dom_element_has_attribute d e name = Some (bool_decide (is_Some (lookup_name (same_name d e name) l))) /\
  (exists d', lxb_dom_element_set_attribute alloc d e name value = Some (Some (fst (set_entry d e name value l)), d') /\
    attributes d' e (snd (set_entry d e name value l)) /\
    attrs_only d d' e (fst (set_entry d e name value l) :: addresses l)) /\
  (exists d', lxb_dom_element_remove_attribute d e name = Some (LXB_STATUS_OK, d') /\
    attributes d' e (delete_named (same_name d e name) l) /\ attrs_only d d' e (addresses l)).
Proof.
  intros Hd. split; [by apply get_attribute_spec|]. split; [|split; [by apply set_attribute_spec | by apply remove_attribute_spec]].
  unfold lxb_dom_element_has_attribute. rewrite (by_name_spec d e l) by done. cbn [mbind option_bind].
  f_equal. apply bool_decide_ext. by rewrite fmap_is_Some.
Qed.
End Alloc.

(** ** An element [<p class=a ID=b>] of an HTML document *)

(** An allocator: the address after the last one in use. *)
Definition next_key (m : gmap positive dom_attr) : positive :=
  Pos.succ (foldr (fun p acc => Pos.max (fst p) acc) 1%positive (map_to_list m)).

Lemma next_key_fresh m : m !! next_key m = None.
Proof.
  destruct (m !! next_key m) as [a|] eqn:Ha; [|done]. exfalso. apply elem_of_map_to_list in Ha. unfold next_key in Ha.
  assert (Hle : forall k b (l : list (positive * dom_attr)), (k, b) ∈ l ->
    (k <= foldr (fun p acc => Pos.max (fst p) acc) 1 l)%positive).
  { intros k b l. induction l as [|p l IH]; [by intros ?%elem_of_nil|].
    intros [<-|Hl]%elem_of_cons; cbn [foldr fst]; [lia|]. apply IH in Hl. lia. }
  apply Hle in Ha. lia.
Qed.

Definition example_attr (name value : string) (next prev : option positive) : dom_attr :=
  mk_dom_attr LXB_NS_HTML (Some (bytes name)) (Some (bytes name)) (Some (bytes value)) next prev 0.

Definition example_element : dom_node :=
  mk_node None None None None None LXB_NS_HTML LXB_TAG_P LXB_DOM_NODE_TYPE_ELEMENT [] None (Some 7%positive) (Some 8%positive) (Some 8%positive) (Some 7%positive).

Definition example_dom : dom :=
  mk_dom {[ 1%positive := example_element ]}
    (list_to_map [(7%positive, example_attr "class" "a" (Some 8%positive) None);
                  (8%positive, example_attr "id" "b" None (Some 7%positive))])
    (mk_owner true false (mk_tag_heap [] (lexbor_shbst_init 1))).

Definition example_entries : list entry :=
  [mk_entry 7 (bytes "class") (Some (bytes "a")); mk_entry 8 (bytes "id") (Some (bytes "b"))].

Lemma example_attributes : attributes example_dom 1 example_entries.
Proof.
  split; [eexists; split; [reflexivity | by split]|]. split.
  - do 2 (split; [eexists; split; [reflexivity | by repeat split]|]). done.
  - split; apply (bool_decide_unpack _); vm_compute; exact I.
Qed.

Lemma attributes_refine_witness :
  lxb_dom_element_get_attribute example_dom 1 (bytes "ID") = Some (Some (bytes "b")) /\
  exists d', lxb_dom_element_set_attribute next_key example_dom 1 (bytes "Href") (bytes "c") = Some (Some 9%positive, d') /\
    attributes d' 1 (example_entries ++ [mk_entry 9 (bytes "href") (Some (bytes "c"))]).
Proof.
  destruct (attributes_refine next_key next_key_fresh example_dom 1 example_entries (bytes "ID") (bytes "") example_attributes)
    as (E & _).
  destruct (attributes_refine next_key next_key_fresh example_dom 1 example_entries (bytes "Href") (bytes "c") example_attributes)
    as (_ & _ & (d' & Es & Hd' & _) & _).
  split; [rewrite E; vm_compute; reflexivity|]. exists d'. split; [rewrite Es; vm_compute; reflexivity | exact Hd'].
Defined.
