(* ===== verification/DomRead.v ===== *)
(** * Reading a document back

    [read_tree m h t] is what the nodes of the tree [t] hold: of each its type, tag,
    namespace, text and attributes, and its children.  A document that is being built is a
    [spine] of open nodes, innermost first, each with its finished children; [whole]
    is its tree.  New nodes go behind the last child of the innermost. *)
From S2P Require Import Prelude.
From S2P Require Import DomNode.
From S2P Require Import DomTree.
From S2P Require Import DomLink.
From S2P Require Import DomAttr.
From S2P Require Import DomAttrSpec.

#[local] Set Warnings "-clear-no-such-hyp".

(** ** Labels *)

(** What an attribute is, apart from its pointers. *)
Record attr_label := mk_attr_label {
  al_ns : Z; al_name : option (list Z); al_local_name : option (list Z); al_value : option (list Z)
}.
Definition attr_label_of (a : dom_attr) : attr_label := mk_attr_label (at_ns a) (at_name a) (at_local_name a) (at_value a).

(** The attributes of a list; none if a pointer is bad or the list does not end. *)
Fixpoint read_attrs (m : gmap positive dom_attr) (fuel : nat) (i : option positive) : option (list attr_label) :=
  match i with
  | None => Some []
  | Some i =>
      match fuel with
      | O => None
      | S fuel => a ← m !! i; l ← read_attrs m fuel (at_next a); Some (attr_label_of a :: l)
      end
  end.
Definition attrs_of (m : gmap positive dom_attr) (n : dom_node) : option (list attr_label) := read_attrs m (size m) (nd_first_attr n).

(** What a node is, apart from its pointers. *)
Record label := mk_label {
  l_type : Z; l_tag : Z; l_ns : Z; l_data : list Z; l_qname : option qualified_name; l_attrs : option (list attr_label)
}.

#[warnings="-register-all"]
Inductive dom_item := Item (l : label) (children : list dom_item).

Definition label_of (m : gmap positive dom_attr) (n : dom_node) : label :=
  mk_label (nd_type n) (nd_tag n) (nd_ns n) (nd_data n) (nd_qname n) (attrs_of m n).
Definition label_at (m : gmap positive dom_attr) (h : gmap positive dom_node) (i : positive) : option label := label_of m <$> h !! i.

Fixpoint read_tree (m : gmap positive dom_attr) (h : gmap positive dom_node) (t : tree) : dom_item :=
  match t with
  | Node i cs => Item (default (mk_label 0 0 0 [] None None) (label_at m h i)) (map (read_tree m h) cs)
  end.

(** More attributes, and more fuel. *)
Lemma read_attrs_more m m' f : forall f' i l, read_attrs m f i = Some l -> m ⊆ m' -> (f <= f')%nat -> read_attrs m' f' i = Some l.
Proof.
  induction f as [|f IH]; intros f' [i|] l E Hm Hf; [done | by destruct f' | | by destruct f'].
  destruct f' as [|f']; [lia|]. cbn [read_attrs] in *. destruct (m !! i) as [a|] eqn:Ha; [|done]. rewrite (lookup_weaken _ _ _ _ Ha Hm).
  cbn [mbind option_bind] in *. destruct (read_attrs m f (at_next a)) as [l'|] eqn:El; [|done]. rewrite (IH f' _ l' El Hm) by lia. done.
Qed.

Lemma attrs_grow m m' n : m ⊆ m' -> is_Some (attrs_of m n) -> attrs_of m' n = attrs_of m n.
Proof. intros Hm [l El]. unfold attrs_of in *. rewrite El. eapply read_attrs_more; [exact El | exact Hm | by apply map_subseteq_size]. Qed.

(** All nodes have attributes that can be read. *)
Definition attrs_wf (m : gmap positive dom_attr) (h : gmap positive dom_node) : Prop := forall i n, h !! i = Some n -> is_Some (attrs_of m n).

Lemma label_grow m m' h i : attrs_wf m h -> m ⊆ m' -> label_at m' h i = label_at m h i.
Proof.
  intros Hwf Hm. unfold label_at. destruct (h !! i) as [n|] eqn:Hn; [|done]. cbn. unfold label_of. f_equal. f_equal. apply attrs_grow; [done | by eapply Hwf].
Qed.

Lemma wf_grow m m' h : attrs_wf m h -> m ⊆ m' -> attrs_wf m' h.
Proof. intros Hwf Hm i n Hn. rewrite (attrs_grow m m' n Hm) by (by eapply Hwf). by eapply Hwf. Qed.

(** The attributes that [attributes] of [DomAttrSpec] says an element has. *)
Definition entry_label (ns : Z) (x : entry) : attr_label := mk_attr_label ns (Some (e_name x)) (Some (e_name x)) (e_value x).

Lemma read_segment m ns l : forall prev fuel, aseg m prev l None -> (forall i, i ∈ addresses l -> at_ns <$> m !! i = Some ns) ->
  (length l <= fuel)%nat -> read_attrs m fuel (first_at l None) = Some (map (entry_label ns) l).
Proof.
  induction l as [|x l IH]; intros prev fuel H Hns Hf; [by destruct fuel|]. destruct H as [(a & Ha & (H1 & H2 & H3) & _ & Hne) H].
  destruct fuel as [|fuel]; [cbn in Hf; lia|]. cbn [first_at read_attrs]. rewrite Ha. cbn [mbind option_bind]. rewrite Hne.
  rewrite (IH _ fuel H) by first [cbn in Hf; lia | intros i Hi; apply Hns; by right]. cbn. unfold entry_label, attr_label_of.
  specialize (Hns (e_at x) (list_elem_of_here _ _)). rewrite Ha in Hns. injection Hns as ->. by rewrite H1, H2, H3.
Qed.

Lemma attributes_read d e l ns n : attributes d e l -> d_nodes d !! e = Some n -> (forall i, i ∈ addresses l -> at_ns <$> d_attrs d !! i = Some ns) ->
  attrs_of (d_attrs d) n = Some (map (entry_label ns) l).
Proof.
  intros ((el & Hel & Hok) & Hseg & Hnd & _) Hn Hns. assert (n = el) as -> by congruence. unfold attrs_of. rewrite (eo_first el l Hok).
  eapply read_segment; [exact Hseg | exact Hns|]. rewrite <- (length_map e_at l : length (addresses l) = _).
  apply keys_size; [done|]. intros i. by eapply aseg_alive.
Qed.

Lemma tree_induction (P : tree -> Prop) : (forall i cs, Forall P cs -> P (Node i cs)) -> forall t, P t.
Proof.
  intros H. fix go 1. intros [i cs]. apply H. induction cs as [|c cs IH]; constructor; [apply go | exact IH].
Qed.

(** ** Reading another heap *)

Section Same.
Context (m m' : gmap positive dom_attr).

Lemma read_same h h' t : (forall i, i ∈ tree_ids t -> label_at m' h' i = label_at m h i) -> read_tree m' h' t = read_tree m h t.
Proof.
  induction t as [i cs IH] using tree_induction. cbn [tree_ids read_tree]. intros Heq. rewrite Heq by set_solver. f_equal.
  assert (H : forall k, k ∈ flat_map tree_ids cs -> label_at m' h' k = label_at m h k) by set_solver. clear Heq.
  induction IH as [|c cs Hc _ IHcs]; [done|]. cbn [map flat_map] in *. f_equal; [apply Hc; set_solver | apply IHcs; set_solver].
Qed.

Lemma reads_same h h' f : (forall i, i ∈ forest_ids f -> label_at m' h' i = label_at m h i) -> map (read_tree m' h') f = map (read_tree m h) f.
Proof.
  intros H. induction f as [|t f IH]; [done|]. cbn [map]. f_equal; [|apply IH; intros i Hi]; [apply read_same; intros i Hi|];
    apply H; unfold forest_ids; cbn [flat_map]; set_solver.
Qed.

End Same.

Lemma same_label m h h' i : same_content h h' -> label_at m h' i = label_at m h i.
Proof.
  intros S. specialize (S i). unfold label_at. destruct (h !! i) as [n|], (h' !! i) as [n'|]; try done. cbn in *.
  injection S. intros. unfold label_of, attrs_of. f_equal. f_equal; congruence.
Qed.

(** ** The spine *)

Definition spine : Type := list (positive * list tree).

Fixpoint ctx_of (sp : spine) : ctx := match sp with [] => Hole | (i, l) :: sp => Under (ctx_of sp) i l [] end.
Definition whole (sp : spine) : list tree := plug (ctx_of sp) [].

Lemma whole_cons i l sp : whole ((i, l) :: sp) = plug (ctx_of sp) [Node i l].
Proof. unfold whole. cbn. by rewrite app_nil_r. Qed.

(** Closing the innermost node. *)
Lemma whole_close e le i l sp : whole ((e, le) :: (i, l) :: sp) = whole ((i, l ++ [Node e le]) :: sp).
Proof. by rewrite !whole_cons. Qed.

Definition laid_out (h : gmap positive dom_node) (sp : spine) : Prop :=
  forest_at h None None (whole sp) None /\ NoDup (forest_ids (whole sp)).

Lemma whole_ids i l sp : forest_ids (whole ((i, l) :: sp)) ≡ₚ ctx_ids (ctx_of sp) ++ i :: forest_ids l.
Proof. rewrite whole_cons, plug_ids. cbn. by rewrite app_nil_r. Qed.

(** What the innermost node points at. *)
Lemma innermost h i l sp : laid_out h ((i, l) :: sp) -> exists n, h !! i = Some n /\ nd_first n = first_id l None /\ nd_last n = last_id l None.
Proof.
  intros [F _]. rewrite whole_cons in F. apply plug_at in F as [_ F]. apply forest_cons_inv in F as (n & Hn & _ & _ & _ & Hf & Hl & _).
  by exists n.
Qed.

(** All nodes of the spine are in the heap. *)
Lemma laid_alive h sp k : laid_out h sp -> k ∈ forest_ids (whole sp) -> is_Some (h !! k).
Proof. intros [F _]. by eapply forest_alive. Qed.

Lemma spine_ids i l sp : (i, l) ∈ sp -> i ∈ forest_ids (whole sp).
Proof.
  intros H. unfold whole. rewrite plug_ids, app_nil_r. induction sp as [|[j m] sp IH]; [by apply elem_of_nil in H|]. cbn.
  apply elem_of_cons in H as [[= <- <-]|H]; set_solver.
Qed.

(** ** Changing the heap *)

Lemma laid_frame h h' sp : laid_out h sp -> (forall k, k ∈ forest_ids (whole sp) -> h' !! k = h !! k) -> laid_out h' sp.
Proof. intros [F N] H. split; [by eapply forest_frame | done]. Qed.

(** Writing what is not a pointer. *)
Lemma forest_data h p prev f next i g : (forall n, nd_parent (g n) = nd_parent n /\ nd_prev (g n) = nd_prev n /\
    nd_next (g n) = nd_next n /\ nd_first (g n) = nd_first n /\ nd_last (g n) = nd_last n) ->
  forest_at h p prev f next -> forest_at (alter g i h) p prev f next.
Proof.
  intros Hg. induction 1 as [|p prev j n cs f next Hn Hp Hpr Hne Hfi Hla Hcs IHcs Hf IHf]; [constructor|].
  destruct (Hg n) as (G1 & G2 & G3 & G4 & G5).
  destruct (decide (i = j)) as [->|Hij].
  - apply fa_cons with (g n); rewrite ?G1, ?G2, ?G3, ?G4, ?G5; try done. by rewrite lookup_alter_eq, Hn.
  - apply fa_cons with n; try done. by rewrite lookup_alter_ne.
Qed.

(** A new node behind the last child. *)
Lemma new_child h i l sp e n : laid_out h ((i, l) :: sp) -> h !! e = None ->
  nd_first n = None -> nd_last n = None ->
  exists h', lxb_dom_node_insert_child (<[e := n]> h) i e = Some h' /\
    laid_out h' ((e, []) :: (i, l) :: sp) /\ (forall m, label_at m h' e = Some (label_of m n)) /\
    (forall m k, k <> e -> label_at m h' k = label_at m h k) /\ (forall k, k <> e -> is_Some (h' !! k) <-> is_Some (h !! k)) /\ same_content (<[e := n]> h) h'.
Proof.
  intros L He Hf Hl. pose proof L as [F N].
  assert (Hout : e ∉ forest_ids (whole ((i, l) :: sp))) by (intros Hin; destruct (laid_alive h _ e L Hin); congruence).
  destruct (insert_child_tree (<[e := n]> h) (ctx_of sp) i l e []) as (h' & E & F' & S & W).
  - rewrite <- whole_cons. eapply forest_frame; [exact F|]. intros k Hk. rewrite lookup_insert_ne; [done | by intros ->].
  - exists n. cbn. rewrite lookup_insert_eq. split; [done|]. split; [done|]. split; [done|constructor].
  - apply apart_ids. rewrite whole_ids in N, Hout. rewrite !forest_ids_cons. cbn [forest_ids flat_map].
    apply NoDup_app in N as (N1 & N2 & N3). apply NoDup_app. split; [done|]. split; [set_solver|].
    rewrite app_comm_cons. apply NoDup_app. split; [done|]. split; [set_solver|]. apply NoDup_cons. split; [set_solver | constructor].
  - exists h'. split; [exact E|].
    assert (Hl' : forall m, label_at m h' e = Some (label_of m n)) by (intros m; rewrite (same_label _ _ _ e S); unfold label_at; by rewrite lookup_insert_eq).
    assert (Hk : forall m k, k <> e -> label_at m h' k = label_at m h k)
      by (intros m k Hk; rewrite (same_label _ _ _ k S); unfold label_at; by rewrite lookup_insert_ne).
    split; [split|].
    + rewrite whole_close, whole_cons. exact F'.
    + rewrite whole_close, whole_ids, forest_ids_app, forest_ids_cons. rewrite whole_ids in N, Hout. cbn [forest_ids flat_map app].
      replace (ctx_ids (ctx_of sp) ++ i :: forest_ids l ++ [e]) with ((ctx_ids (ctx_of sp) ++ i :: forest_ids l) ++ [e]) by (by rewrite <- app_assoc).
      apply NoDup_app. split; [done|]. split; [set_solver|]. apply NoDup_singleton.
    + split; [done|]. split; [done|]. split; [|done]. intros k Hne. specialize (Hk ∅ k Hne). unfold label_at in Hk.
      destruct (h' !! k), (h !! k); try done; split; intros [? ?]; done.
Qed.

(** ** What a spine holds

    Of an open node, its label and what its finished children hold. *)

Definition opened : Type := label * list dom_item.

Definition opened_ok (m : gmap positive dom_attr) (h : gmap positive dom_node) (x : positive * list tree) (f : opened) : Prop :=
  label_at m h (fst x) = Some (fst f) /\ map (read_tree m h) (snd x) = snd f.

Definition spine_holds (m : gmap positive dom_attr) (h : gmap positive dom_node) (sp : spine) (fs : list opened) : Prop :=
  laid_out h sp /\ Forall2 (opened_ok m h) sp fs /\ attrs_wf m h.

Lemma spine_below x sp : forall k, k ∈ x.1 :: forest_ids x.2 -> x ∈ sp -> k ∈ forest_ids (whole sp).
Proof.
  intros k Hk Hx. unfold whole. rewrite plug_ids, app_nil_r. induction sp as [|[j m] sp IH]; [by apply elem_of_nil in Hx|]. cbn.
  apply elem_of_cons in Hx as [->|Hx]; cbn in Hk; set_solver.
Qed.

Lemma opened_same m m' h h' sp fs : (forall k, k ∈ forest_ids (whole sp) -> label_at m' h' k = label_at m h k) ->
  Forall2 (opened_ok m h) sp fs -> Forall2 (opened_ok m' h') sp fs.
Proof.
  intros H. assert (H' : forall x k, x ∈ sp -> k ∈ x.1 :: forest_ids x.2 -> label_at m' h' k = label_at m h k)
    by (intros x k Hx Hk; by eapply H, spine_below).
  clear H. induction 1 as [|x f sp fs [F1 F2] _ IH]; constructor.
  - split; [rewrite (H' x); [done | left | left]|]. rewrite <- F2. apply reads_same. intros k Hk. apply (H' x); [left | by right].
  - apply IH. intros y k Hy. apply H'. by right.
Qed.

(** More attributes. *)
Lemma holds_grow m m' h sp fs : spine_holds m h sp fs -> m ⊆ m' -> spine_holds m' h sp fs.
Proof.
  intros (L & F & Hwf) Hm. split; [done|]. split; [|by eapply wf_grow]. eapply opened_same; [|exact F]. intros k _. by apply label_grow.
Qed.

(** The same attributes. *)
Lemma wf_same m h h' : attrs_wf m h -> same_content h h' -> attrs_wf m h'.
Proof.
  intros Hwf S i n Hn. specialize (S i). rewrite Hn in S. destruct (h !! i) as [n'|] eqn:Hn'; [|done]. injection S. intros.
  unfold attrs_of. replace (nd_first_attr n) with (nd_first_attr n') by congruence. by eapply (Hwf i).
Qed.

Lemma wf_insert m h e n : attrs_wf m h -> is_Some (attrs_of m n) -> attrs_wf m (<[e := n]> h).
Proof. intros Hwf Hn i n' [[<- <-]|[_ H]]%lookup_insert_Some; [done | by eapply Hwf]. Qed.

(** A new node behind the last child of the innermost one, and in it. *)
Lemma holds_new m h i l sp fs e n : spine_holds m h ((i, l) :: sp) fs -> h !! e = None -> nd_first n = None -> nd_last n = None ->
  is_Some (attrs_of m n) ->
  exists h', lxb_dom_node_insert_child (<[e := n]> h) i e = Some h' /\ spine_holds m h' ((e, []) :: (i, l) :: sp) ((label_of m n, []) :: fs).
Proof.
  intros (L & F & Hwf) He Hf Hl Ha. destruct (new_child h i l sp e n L He Hf Hl) as (h' & E & L' & Hle & Hk & _ & S). exists h'. split; [done|].
  split; [done|]. split; [|by eapply wf_same; [apply wf_insert|]]. constructor; [by split|]. eapply opened_same; [|exact F]. intros k Hin. apply Hk. intros ->.
  destruct (laid_alive h _ e L Hin). congruence.
Qed.

(** The innermost node is finished. *)
Lemma holds_close m h e le i l sp lab cs lab' cs' fs :
  spine_holds m h ((e, le) :: (i, l) :: sp) ((lab, cs) :: (lab', cs') :: fs) ->
  spine_holds m h ((i, l ++ [Node e le]) :: sp) ((lab', cs' ++ [Item lab cs]) :: fs).
Proof.
  unfold spine_holds, laid_out. rewrite whole_close. intros (L & F & Hwf). split; [done|].
  split; [|done]. apply Forall2_cons in F as [[F1 F2] F]. apply Forall2_cons in F as [[F3 F4] F]. constructor; [|done].
  split; [done|]. cbn in *. rewrite map_app, F4. cbn [map read_tree]. by rewrite F1, F2.
Qed.

(** What the last child holds. *)
Lemma holds_last m h i l sp lab cs lt ks fs e g : spine_holds m h ((i, l) :: sp) ((lab, cs ++ [Item lt ks]) :: fs) ->
  last_id l None = Some e -> (forall n, nd_parent (g n) = nd_parent n /\ nd_prev (g n) = nd_prev n /\
    nd_next (g n) = nd_next n /\ nd_first (g n) = nd_first n /\ nd_last (g n) = nd_last n) ->
  (forall n, nd_first_attr (g n) = nd_first_attr n) ->
  exists n, h !! e = Some n /\ label_of m n = lt /\
    spine_holds m (alter g e h) ((i, l) :: sp) ((lab, cs ++ [Item (label_of m (g n)) ks]) :: fs).
Proof.
  intros (L & F & Hwf) Hl Hg Hga. apply Forall2_cons in F as [[F1 F2] F]. cbn in F1, F2.
  destruct l as [|[j js] l _] using rev_ind; [done|]. rewrite last_id_app in Hl. injection Hl as ->.
  rewrite map_app in F2. apply app_inj_tail in F2 as [F2 [= F3 F4]].
  pose proof L as [La N]. pose proof (whole_ids i (l ++ [Node e js]) sp) as Hids. rewrite Hids, forest_ids_app, forest_ids_cons in N. cbn in N.
  assert (Hin : e ∈ forest_ids (whole ((i, l ++ [Node e js]) :: sp))) by (rewrite Hids, forest_ids_app, forest_ids_cons; set_solver).
  destruct (laid_alive h _ e L Hin) as [n Hn]. exists n. split; [done|].
  assert (Hlt : label_of m n = lt) by (unfold label_at in F3; rewrite Hn in F3; exact F3). split; [done|].
  assert (Hne : forall k, k <> e -> label_at m (alter g e h) k = label_at m h k) by (intros k Hk; unfold label_at; by rewrite lookup_alter_ne).
  rewrite app_comm_cons, app_assoc in N. apply NoDup_app in N as (N1 & N2 & N3). apply NoDup_cons in N3 as [N3 _].
  assert (Hout : forall k, k ∈ ctx_ids (ctx_of sp) ++ i :: forest_ids l -> k <> e) by (intros k Hk ->; apply (N2 e Hk); left).
  split; [split; [by apply forest_data | apply L]|]. split.
  2: { intros k x. rewrite lookup_alter_Some. intros [(<- & y & Hy & ->)|[_ Hk]]; [|by eapply Hwf]. unfold attrs_of. rewrite Hga. by eapply (Hwf e). }
  constructor; [split|]; cbn.
  - rewrite Hne; [done|]. apply Hout. set_solver.
  - rewrite map_app. cbn [map read_tree]. f_equal; [|f_equal; f_equal].
    + rewrite <- F2. apply reads_same. intros k Hk. apply Hne, Hout. set_solver.
    + unfold label_at. by rewrite lookup_alter_eq, Hn.
    + rewrite <- F4. apply reads_same. intros k Hk. apply Hne. intros ->. apply N3. set_solver.
  - eapply opened_same; [|exact F]. intros k Hk. apply Hne, Hout. unfold whole in Hk. rewrite plug_ids, app_nil_r in Hk. set_solver.
Qed.
