(* ===== verification/DomQuery.v ===== *)
(** * Queries: [lxb_dom_elements_by_*] of [dom/interfaces/element.c]

    A query walks the tree below its root and collects elements.  A collection is
    the list of what was appended; its memory is always given, so every append
    answers OK.  The strings compared are lists of bytes. *)
From Stdlib Require Import String.
From S2P Require Import Prelude.
From S2P Require Import Str.
From S2P Require Import Tag.
From S2P Require Import TagHeap.
From S2P Require Import TkzBase.
From S2P Require Import ParserChar.
From S2P Require Import DomNode.
From S2P Require Import DomTree.
From S2P Require Import DomLink.
From S2P Require Import DomWalk.
From S2P Require Import DomAttr.
From S2P Require Import DomAttrSpec.

#[local] Set Warnings "-clear-no-such-hyp".

(** ** [core/str.c], [dom/qualified_name.h] *)

Definition lexbor_str_res_map_uppercase : list Z :=
  [0x00; 0x01; 0x02; 0x03; 0x04; 0x05; 0x06; 0x07; 0x08; 0x09; 0x0a; 0x0b; 0x0c; 0x0d; 0x0e; 0x0f;
   0x10; 0x11; 0x12; 0x13; 0x14; 0x15; 0x16; 0x17; 0x18; 0x19; 0x1a; 0x1b; 0x1c; 0x1d; 0x1e; 0x1f;
   0x20; 0x21; 0x22; 0x23; 0x24; 0x25; 0x26; 0x27; 0x28; 0x29; 0x2a; 0x2b; 0x2c; 0x2d; 0x2e; 0x2f;
   0x30; 0x31; 0x32; 0x33; 0x34; 0x35; 0x36; 0x37; 0x38; 0x39; 0x3a; 0x3b; 0x3c; 0x3d; 0x3e; 0x3f;
   0x40; 0x41; 0x42; 0x43; 0x44; 0x45; 0x46; 0x47; 0x48; 0x49; 0x4a; 0x4b; 0x4c; 0x4d; 0x4e; 0x4f;
   0x50; 0x51; 0x52; 0x53; 0x54; 0x55; 0x56; 0x57; 0x58; 0x59; 0x5a; 0x5b; 0x5c; 0x5d; 0x5e; 0x5f;
   0x60; 0x41; 0x42; 0x43; 0x44; 0x45; 0x46; 0x47; 0x48; 0x49; 0x4a; 0x4b; 0x4c; 0x4d; 0x4e; 0x4f;
   0x50; 0x51; 0x52; 0x53; 0x54; 0x55; 0x56; 0x57; 0x58; 0x59; 0x5a; 0x7b; 0x7c; 0x7d; 0x7e; 0x7f;
   0x80; 0x81; 0x82; 0x83; 0x84; 0x85; 0x86; 0x87; 0x88; 0x89; 0x8a; 0x8b; 0x8c; 0x8d; 0x8e; 0x8f;
   0x90; 0x91; 0x92; 0x93; 0x94; 0x95; 0x96; 0x97; 0x98; 0x99; 0x9a; 0x9b; 0x9c; 0x9d; 0x9e; 0x9f;
   0xa0; 0xa1; 0xa2; 0xa3; 0xa4; 0xa5; 0xa6; 0xa7; 0xa8; 0xa9; 0xaa; 0xab; 0xac; 0xad; 0xae; 0xaf;
   0xb0; 0xb1; 0xb2; 0xb3; 0xb4; 0xb5; 0xb6; 0xb7; 0xb8; 0xb9; 0xba; 0xbb; 0xbc; 0xbd; 0xbe; 0xbf;
   0xc0; 0xc1; 0xc2; 0xc3; 0xc4; 0xc5; 0xc6; 0xc7; 0xc8; 0xc9; 0xca; 0xcb; 0xcc; 0xcd; 0xce; 0xcf;
   0xd0; 0xd1; 0xd2; 0xd3; 0xd4; 0xd5; 0xd6; 0xd7; 0xd8; 0xd9; 0xda; 0xdb; 0xdc; 0xdd; 0xde; 0xdf;
   0xe0; 0xe1; 0xe2; 0xe3; 0xe4; 0xe5; 0xe6; 0xe7; 0xe8; 0xe9; 0xea; 0xeb; 0xec; 0xed; 0xee; 0xef;
   0xf0; 0xf1; 0xf2; 0xf3; 0xf4; 0xf5; 0xf6; 0xf7; 0xf8; 0xf9; 0xfa; 0xfb; 0xfc; 0xfd; 0xfe; 0xff].

(** The loop over the first [n] bytes, from the last one. *)
Fixpoint find_uppercase_loop (n : nat) (data : list Z) : option Z :=
  match n with
  | O => None
  | S n =>
      let c := nth n data 0 in
      if c =? tbl lexbor_str_res_map_uppercase c then Some (Z.of_nat n) else find_uppercase_loop n data
  end.

Definition lexbor_str_data_find_uppercase (data : list Z) : option Z := find_uppercase_loop (length data) data.

(** [lexbor_str_data_ncasecmp] on arrays that may be shorter than [n]: reading
    past one is [None]. *)
Fixpoint data_ncasecmp (n : nat) (first sec : list Z) : option bool :=
  match n with
  | O => Some true
  | S n =>
      match first, sec with
      | f :: first, s :: sec => if negb (lower f =? lower s) then Some false else data_ncasecmp n first sec
      | _, _ => None
      end
  end.

Definition data_eq (a b : list Z) : bool := bool_decide (a = b).

(** Both are called with [size] the length of both strings. *)
Definition lexbor_str_data_ncmp_end (first sec : list Z) : bool := data_eq first sec.
Definition lexbor_str_data_ncasecmp_end (first sec : list Z) : bool := eq_nocase first sec.

(** [for (i = 0; what_size <= (where_size - i); i++)]: [where_] is what is left. *)
Fixpoint contain_loop (eq : list Z -> list Z -> bool) (where_ what : list Z) : bool :=
  if (length what <=? length where_)%nat then
    if eq (take (length what) where_) what then true
    else match where_ with [] => false | _ :: where_ => contain_loop eq where_ what end
  else false.

Definition lexbor_str_data_ncmp_contain := contain_loop data_eq.
Definition lexbor_str_data_ncasecmp_contain := contain_loop eq_nocase.

Definition lxb_dom_qualified_name_local_name (q : qualified_name) : list Z :=
  if qn_local_name_len q =? 0 then []
  else if negb (qn_prefix_len q =? 0) then drop (Z.to_nat (qn_prefix_len q + 1)) (qn_str q)
  else qn_str q.

(** ** Elements by name *)

Definition lxb_dom_element_qualified_name_cmp (el : dom_node) (tag_id : Z) (prefix : list Z) (prefix_len : Z)
    (lname : list Z) : option bool :=
  if negb (nd_tag el =? tag_id) then Some false
  else if negb (prefix_len =? 0) then
    match nd_qname el with
    | None => Some false
    | Some q =>
        if qn_prefix_len q =? 0 then Some false
        else
          differ ← (if negb (qn_prefix_len q =? prefix_len)
                    then same ← data_ncasecmp (Z.to_nat prefix_len) (qn_str q ++ [0]) prefix; Some (negb same)
                    else Some false);
          if (differ : bool) then Some false
          else if nd_ns el =? LXB_NS_HTML then Some true
          else Some ((qn_local_name_len q =? str_len lname) &&
                     data_eq (take (length lname) (lxb_dom_qualified_name_local_name q)) lname)
    end
  else if match nd_qname el with Some q => negb (qn_prefix_len q =? 0) | None => false end then Some false
  else if nd_ns el =? LXB_NS_HTML then Some true
  else match nd_qname el with
       | None => Some (match lexbor_str_data_find_uppercase lname with None => true | Some _ => false end)
       | Some q => Some ((qn_local_name_len q =? str_len lname) && data_eq (take (length lname) (qn_str q)) lname)
       end.

Section Query.
Context (d : dom).

Definition lxb_dom_elements_by_tag_name_cb_all (node : positive) (col : list positive)
    : option (list positive * lexbor_action) :=
  n ← d_nodes d !! node;
  if negb (nd_type n =? LXB_DOM_NODE_TYPE_ELEMENT) then Some (col, LEXBOR_ACTION_NEXT)
  else Some (col ++ [node], LEXBOR_ACTION_NEXT).

Definition lxb_dom_elements_by_tag_name_cb (tag_id : Z) (qualified_name : list Z) (prefix_len : Z) (local_name : list Z)
    (node : positive) (col : list positive) : option (list positive * lexbor_action) :=
  n ← d_nodes d !! node;
  if negb (nd_type n =? LXB_DOM_NODE_TYPE_ELEMENT) then Some (col, LEXBOR_ACTION_NEXT)
  else
    is_it ← lxb_dom_element_qualified_name_cmp n tag_id qualified_name prefix_len local_name;
    Some (if (is_it : bool) then col ++ [node] else col, LEXBOR_ACTION_NEXT).

(** [memchr(name, c, len)] *)
Fixpoint memchr (c : Z) (name : list Z) : option nat :=
  match name with [] => None | x :: name => if x =? c then Some O else S <$> memchr c name end.

Definition lxb_dom_elements_by_tag_name (root : positive) (col : list positive) (qualified_name : list Z)
    : option (Z * list positive) :=
  if (length qualified_name =? 1)%nat && (nth 0 qualified_name 0 =? 0x2A) then
    col ← lxb_dom_node_simple_walk (d_nodes d) root lxb_dom_elements_by_tag_name_cb_all col;
    Some (LXB_STATUS_OK, col)
  else
    let len := length qualified_name in
    let walk prefix_len local_name :=
      let tag_id := lxb_tag_id_by_name (doc_tags (d_owner d)) local_name in
      if tag_id =? LXB_TAG__UNDEF then Some (LXB_STATUS_OK, col)
      else
        col ← lxb_dom_node_simple_walk (d_nodes d) root
                (lxb_dom_elements_by_tag_name_cb tag_id qualified_name prefix_len local_name) col;
        Some (LXB_STATUS_OK, col) in
    match memchr 0x3A qualified_name with
    | Some prefix_len =>
        if (prefix_len =? len)%nat then Some (LXB_STATUS_ERROR, col)
        else walk (Z.of_nat prefix_len) (drop (prefix_len + 1) qualified_name)
    | None => walk 0 qualified_name
    end.

(** ** Elements by class *)

(** The loop of the callback, over what is left from [data]; [pos] is what is left
    from [pos].  [inl] is that the class was found, [inr] the last [pos]. *)
Fixpoint class_loop (eq : list Z -> list Z -> bool) (value pos data : list Z) : unit + list Z :=
  if (length value <=? length data)%nat then
    match data with
    | [] => inr pos
    | c :: rest =>
        if is_ws c then
          let n := (length pos - length data)%nat in
          if negb (n =? 0)%nat && (n =? length value)%nat && eq (take n pos) value then inl tt
          else class_loop eq value rest rest
        else class_loop eq value pos rest
    end
  else inr pos.

Definition lxb_dom_elements_by_class_name_cb (value : list Z) (node : positive) (col : list positive)
    : option (list positive * lexbor_action) :=
  n ← d_nodes d !! node;
  if negb (nd_type n =? LXB_DOM_NODE_TYPE_ELEMENT) then Some (col, LEXBOR_ACTION_NEXT)
  else
    match nd_attr_class n with
    | None => Some (col, LEXBOR_ACTION_NEXT)
    | Some attr =>
        a ← d_attrs d !! attr;
        data ← at_value a;
        if (length data <? length value)%nat then Some (col, LEXBOR_ACTION_NEXT)
        else
          let eq := if doc_quirks (d_owner d) then eq_nocase else data_eq in
          match class_loop eq value data data with
          | inl _ => Some (col ++ [node], LEXBOR_ACTION_NEXT)
          | inr pos =>
              if (length pos =? length value)%nat && eq pos value then Some (col ++ [node], LEXBOR_ACTION_NEXT)
              else Some (col, LEXBOR_ACTION_NEXT)
          end
    end.

Definition lxb_dom_elements_by_class_name (root : positive) (col : list positive) (class_name : list Z)
    : option (Z * list positive) :=
  if (length class_name =? 0)%nat then Some (LXB_STATUS_OK, col)
  else
    col ← lxb_dom_node_simple_walk (d_nodes d) root (lxb_dom_elements_by_class_name_cb class_name) col;
    Some (LXB_STATUS_OK, col).

(** ** Elements by attribute *)

(** [lxb_dom_elements_by_attr_cmp_*]: the value of the attribute, then the one of
    the query. *)
Definition lxb_dom_elements_by_attr_cmp_full (v value : list Z) : bool :=
  (length value =? length v)%nat && data_eq v value.
Definition lxb_dom_elements_by_attr_cmp_full_case (v value : list Z) : bool :=
  (length value =? length v)%nat && eq_nocase v value.
Definition lxb_dom_elements_by_attr_cmp_begin (v value : list Z) : bool :=
  (length value <=? length v)%nat && data_eq (take (length value) v) value.
Definition lxb_dom_elements_by_attr_cmp_begin_case (v value : list Z) : bool :=
  (length value <=? length v)%nat && eq_nocase (take (length value) v) value.
Definition lxb_dom_elements_by_attr_cmp_end (v value : list Z) : bool :=
  (length value <=? length v)%nat && lexbor_str_data_ncmp_end (drop (length v - length value) v) value.
Definition lxb_dom_elements_by_attr_cmp_end_case (v value : list Z) : bool :=
  (length value <=? length v)%nat && lexbor_str_data_ncasecmp_end (drop (length v - length value) v) value.
Definition lxb_dom_elements_by_attr_cmp_contain (v value : list Z) : bool :=
  (length value <=? length v)%nat && lexbor_str_data_ncmp_contain v value.
Definition lxb_dom_elements_by_attr_cmp_contain_case (v value : list Z) : bool :=
  (length value <=? length v)%nat && lexbor_str_data_ncasecmp_contain v value.

(** [attr->value->length] of an attribute without a value is [None]. *)
Definition lxb_dom_elements_by_attr_cb (cmp_func : list Z -> list Z -> bool) (qualified_name value : list Z)
    (node : positive) (col : list positive) : option (list positive * lexbor_action) :=
  n ← d_nodes d !! node;
  if negb (nd_type n =? LXB_DOM_NODE_TYPE_ELEMENT) then Some (col, LEXBOR_ACTION_NEXT)
  else
    attr ← lxb_dom_element_attr_by_name d node qualified_name;
    match attr with
    | None => Some (col, LEXBOR_ACTION_NEXT)
    | Some attr =>
        a ← d_attrs d !! attr;
        v ← at_value a;
        if ((length value =? 0)%nat && (length v =? 0)%nat) || cmp_func v value
        then Some (col ++ [node], LEXBOR_ACTION_NEXT)
        else Some (col, LEXBOR_ACTION_NEXT)
    end.

Definition query_attr (cmp_func : list Z -> list Z -> bool) (root : positive) (col : list positive)
    (qualified_name value : list Z) : option (Z * list positive) :=
  col ← lxb_dom_node_simple_walk (d_nodes d) root (lxb_dom_elements_by_attr_cb cmp_func qualified_name value) col;
  Some (LXB_STATUS_OK, col).

Definition lxb_dom_elements_by_attr (root : positive) (col : list positive) (qualified_name value : list Z)
    (case_insensitive : bool) : option (Z * list positive) :=
  query_attr (if case_insensitive then lxb_dom_elements_by_attr_cmp_full_case else lxb_dom_elements_by_attr_cmp_full)
    root col qualified_name value.

Definition lxb_dom_elements_by_attr_begin (root : positive) (col : list positive) (qualified_name value : list Z)
    (case_insensitive : bool) : option (Z * list positive) :=
  query_attr (if case_insensitive then lxb_dom_elements_by_attr_cmp_begin_case else lxb_dom_elements_by_attr_cmp_begin)
    root col qualified_name value.

Definition lxb_dom_elements_by_attr_end (root : positive) (col : list positive) (qualified_name value : list Z)
    (case_insensitive : bool) : option (Z * list positive) :=
  query_attr (if case_insensitive then lxb_dom_elements_by_attr_cmp_end_case else lxb_dom_elements_by_attr_cmp_end)
    root col qualified_name value.

Definition lxb_dom_elements_by_attr_contain (root : positive) (col : list positive) (qualified_name value : list Z)
    (case_insensitive : bool) : option (Z * list positive) :=
  query_attr (if case_insensitive then lxb_dom_elements_by_attr_cmp_contain_case else lxb_dom_elements_by_attr_cmp_contain)
    root col qualified_name value.
End Query.

(** ** Comparisons *)

(** A comparison of strings of one length. *)
Section Compare.
Context (eq : list Z -> list Z -> bool) (eq_len : forall v w, eq v w = true -> length v = length w).

Lemma begin_compare v value : (length value <=? length v)%nat && eq (take (length value) v) value = true <->
  exists w s, v = w ++ s /\ eq w value = true.
Proof.
  rewrite andb_true_iff, Nat.leb_le. split.
  - intros [_ H]. exists (take (length value) v), (drop (length value) v). by rewrite take_drop.
  - intros (w & s & -> & H). rewrite <- (eq_len _ _ H), take_app_length, length_app. split; [lia | done].
Qed.

Lemma end_compare v value : (length value <=? length v)%nat && eq (drop (length v - length value) v) value = true <->
  exists s w, v = s ++ w /\ eq w value = true.
Proof.
  rewrite andb_true_iff, Nat.leb_le. split.
  - intros [_ H]. exists (take (length v - length value) v), (drop (length v - length value) v). by rewrite take_drop.
  - intros (s & w & -> & H). rewrite <- (eq_len _ _ H), length_app. split; [lia|].
    replace (length s + length w - length w)%nat with (length s) by lia. by rewrite drop_app_length.
Qed.

Lemma contain_compare v value : contain_loop eq v value = true <-> exists s w t, v = s ++ w ++ t /\ eq w value = true.
Proof.
  induction v as [|c v IH]; cbn [contain_loop]; destruct (_ <=? _)%nat eqn:El.
  - apply Nat.leb_le in El. destruct value; [|cbn in El; lia]. cbn [length take]. destruct (eq [] []) eqn:E.
    + split; [|done]. intros _. by exists [], [], [].
    + split; [done|]. intros (s & w & t & Hv & H). destruct s, w; try done. congruence.
  - split; [done|]. intros (s & w & t & Hv & H). destruct s, w; try done. apply eq_len in H. cbn in H.
    apply Nat.leb_gt in El. cbn in El. lia.
  - destruct (eq (take (length value) (c :: v)) value) eqn:E.
    + split; [|done]. intros _. exists [], (take (length value) (c :: v)), (drop (length value) (c :: v)).
      by rewrite take_drop.
    + rewrite IH. split; intros (s & w & t & Hv & H); [by exists (c :: s), w, t; rewrite Hv|].
      destruct s as [|c' s]; [|injection Hv as -> ->; by exists s, w, t].
      cbn [app] in Hv. rewrite Hv, <- (eq_len _ _ H), take_app_length in E. congruence.
  - split; [done|]. intros (s & w & t & Hv & H). apply Nat.leb_gt in El. apply eq_len in H.
    apply (f_equal length) in Hv. rewrite !length_app in Hv. lia.
Qed.
End Compare.

Definition cmp_eq (ci : bool) : list Z -> list Z -> bool := if ci then eq_nocase else data_eq.

Lemma cmp_eq_len ci v w : cmp_eq ci v w = true -> length v = length w.
Proof.
  destruct ci; unfold cmp_eq, data_eq, eq_nocase; intros H%bool_decide_eq_true; [|by rewrite H].
  by rewrite <- (length_map lower v), H, length_map.
Qed.

Lemma contain_length ci v value :
  (length value <=? length v)%nat && contain_loop (cmp_eq ci) v value = contain_loop (cmp_eq ci) v value.
Proof. destruct v; cbn [contain_loop]; by destruct (_ <=? _)%nat. Qed.

(** ** Upper case *)

Lemma uppercase_fixed c : 0 <= c < 256 -> (c =? tbl lexbor_str_res_map_uppercase c) = negb ((0x61 <=? c) && (c <=? 0x7A)).
Proof.
  intros H. apply Bool.eqb_prop. exact (forall_bytes (fun c => Bool.eqb (c =? tbl lexbor_str_res_map_uppercase c)
    (negb ((0x61 <=? c) && (c <=? 0x7A)))) ltac:(vm_compute; reflexivity) c H).
Qed.

Lemma uppercase_loop_none name k : (forall i, (i < k)%nat -> 0 <= nth i name 0 < 256) ->
  find_uppercase_loop k name = None <-> forall i, (i < k)%nat -> 0x61 <= nth i name 0 <= 0x7A.
Proof.
  induction k as [|k IH]; intros Hb; cbn [find_uppercase_loop]; [split; [intros _ i Hi; lia | done]|].
  rewrite uppercase_fixed by (apply Hb; lia). destruct (_ && _) eqn:E; cbn [negb].
  - rewrite IH by (intros; apply Hb; lia). split; [|intros H i Hi; apply H; lia].
    intros H i Hi. destruct (decide (i = k)) as [->|]; [lia | apply H; lia].
  - split; [done|]. intros H. specialize (H k ltac:(lia)). lia.
Qed.

(** [lexbor_str_data_find_uppercase] finds nothing in names of lower-case letters
    only. *)
Lemma find_uppercase_none name : Forall (fun c => 0 <= c < 256) name ->
  lexbor_str_data_find_uppercase name = None <-> Forall (fun c => 0x61 <= c <= 0x7A) name.
Proof.
  intros Hb. pose proof (proj1 (List.Forall_nth _ name) Hb) as Hn.
  unfold lexbor_str_data_find_uppercase. rewrite uppercase_loop_none by (intros; by apply Hn).
  rewrite List.Forall_nth. split; intros H i; [intros dflt Hi; rewrite (nth_indep _ dflt 0) by done|]; auto.
Qed.

(** ** What the queries collect *)

Section Spec.
Context (d : dom).

Definition is_element (n : dom_node) : bool := nd_type n =? LXB_DOM_NODE_TYPE_ELEMENT.

(** What the callback of a query by tag name decides, by the tag's id. *)
Definition tag_matches (name : list Z) (i : positive) : bool :=
  let id := lxb_tag_id_by_name (doc_tags (d_owner d)) name in
  match d_nodes d !! i with
  | Some n => is_element n && negb (id =? LXB_TAG__UNDEF) && (nd_tag n =? id) &&
      match nd_qname n with Some q => qn_prefix_len q =? 0 | None => true end &&
      ((nd_ns n =? LXB_NS_HTML) ||
       match nd_qname n with
       | None => bool_decide (lexbor_str_data_find_uppercase name = None)
       | Some q => (qn_local_name_len q =? str_len name) && data_eq (take (length name) (qn_str q)) name
       end)
  | None => false
  end.

(** *** By tag name: the specification, by the names of elements *)

(** The local name of an element without a prefix: the one it keeps, or the name
    of its tag. *)
Definition local_name (n : dom_node) : list Z :=
  match nd_qname n with
  | Some q => take (Z.to_nat (qn_local_name_len q)) (qn_str q)
  | None => default [] (tag_name <$> lxb_tag_data_by_id_default_cb (doc_tags (d_owner d)) (nd_tag n))
  end.

(** An element without a prefix whose local name is [name], up to case in HTML. *)
Definition tag_named (name : list Z) (i : positive) : bool :=
  match d_nodes d !! i with
  | Some n => is_element n && match nd_qname n with Some q => qn_prefix_len q =? 0 | None => true end &&
      (if nd_ns n =? LXB_NS_HTML then eq_nocase (local_name n) name else data_eq (local_name n) name)
  | None => false
  end.

(** The elements [lexbor_str_data_find_uppercase] makes the query miss: foreign
    ones named by their tag alone, when the name holds another byte than a letter. *)
Definition overlooked (name : list Z) (i : positive) : bool :=
  match d_nodes d !! i with
  | Some n => negb (nd_ns n =? LXB_NS_HTML) && bool_decide (nd_qname n = None) && negb (forallb is_letter name)
  | None => false
  end.

(** The tag of an element is one of the document's, and the name it keeps, if it
    keeps one, is that of the tag up to case. *)
Definition element_named (n : dom_node) : Prop :=
  exists dt, lxb_tag_data_by_name_default_cb (doc_tags (d_owner d)) (tag_name dt) = Some dt /\ tag_id dt = nd_tag n /\
    nd_tag n <> LXB_TAG__UNDEF /\
    forall q, nd_qname n = Some q -> qn_prefix_len q = 0 ->
      map lower (local_name n) = tag_name dt /\ Z.of_nat (length (local_name n)) = qn_local_name_len q.

(** *** By attribute *)

(** An element that has an attribute of that name, the first of which has a value
    that compares. *)
Definition attr_matches (cmp : list Z -> list Z -> bool) (name value : list Z) (i : positive) : bool :=
  match d_nodes d !! i, lxb_dom_element_attr_by_name d i name with
  | Some n, Some (Some a) =>
      is_element n &&
      match d_attrs d !! a ≫= at_value with
      | Some v => ((length value =? 0)%nat && (length v =? 0)%nat) || cmp v value
      | None => false
      end
  | _, _ => false
  end.

(** Every element has an attribute list and no attribute of that name is without
    a value. *)
Definition attrs_readable (name : list Z) (i : positive) : Prop :=
  exists a, lxb_dom_element_attr_by_name d i name = Some a /\
    forall j, a = Some j -> is_Some (d_attrs d !! j ≫= at_value).

Lemma visit_filter (cb : positive -> list positive -> option (list positive * lexbor_action)) (f : positive -> bool) ids : (forall i col, i ∈ ids -> cb i col = Some (if f i then col ++ [i] else col, LEXBOR_ACTION_NEXT)) ->
  forall col, visit cb ids col = Some (col ++ List.filter f ids, LEXBOR_ACTION_NEXT).
Proof.
  induction ids as [|i ids IH]; intros Hcb col; cbn [visit List.filter]; [by rewrite app_nil_r|].
  rewrite Hcb by set_solver. cbn [mbind option_bind]. rewrite IH by (intros; apply Hcb; set_solver).
  destruct (f i); [by rewrite <- app_assoc | done].
Qed.

Context (p prev : option positive) (r : positive) (cs : list tree) (next : option positive).
Context (laid : forest_at (d_nodes d) p prev [Node r cs] next) (distinct : NoDup (tree_ids (Node r cs))).

Lemma walk_filter (cb : positive -> list positive -> option (list positive * lexbor_action)) (f : positive -> bool) col :
  (forall i n col, i ∈ forest_ids cs -> d_nodes d !! i = Some n ->
    cb i col = Some (if f i then col ++ [i] else col, LEXBOR_ACTION_NEXT)) ->
  lxb_dom_node_simple_walk (d_nodes d) r cb col = Some (col ++ List.filter f (forest_ids cs)).
Proof.
  intros Hcb. rewrite (simple_walk_visits _ cb p prev r cs next) by done. rewrite (visit_filter cb f); [done|].
  intros i c Hi. destruct (forest_alive _ _ _ _ _ laid i) as [n Hn]; [rewrite forest_ids_cons; set_solver|]. by eapply Hcb.
Qed.

Lemma by_tag_name_ok col name : name <> [0x2A] -> memchr 0x3A name = None ->
  lxb_dom_elements_by_tag_name d r col name = Some (LXB_STATUS_OK, col ++ List.filter (tag_matches name) (forest_ids cs)).
Proof.
  intros Hstar Hcolon. unfold lxb_dom_elements_by_tag_name.
  assert ((length name =? 1)%nat && (nth 0 name 0 =? 42) = false) as ->.
  { destruct name as [|c [|c' name]]; [done| |done]. cbn. apply Z.eqb_neq. congruence. }
  rewrite Hcolon. set (id := lxb_tag_id_by_name _ name). destruct (id =? LXB_TAG__UNDEF) eqn:Eid.
  - f_equal. f_equal. replace (List.filter (tag_matches name) (forest_ids cs)) with (@nil positive); [by rewrite app_nil_r|].
    induction (forest_ids cs) as [|i ids IH]; [done|]. cbn [List.filter].
    assert (tag_matches name i = false) as ->; [|done].
    unfold tag_matches. fold id. rewrite Eid. destruct (d_nodes d !! i); [|done]. by rewrite andb_false_r.
  - rewrite (walk_filter _ (tag_matches name)); [done|]. intros i n c _ Hn.
    unfold lxb_dom_elements_by_tag_name_cb, tag_matches. fold id. rewrite Hn, Eid. cbn [mbind option_bind negb].
    unfold is_element. destruct (nd_type n =? LXB_DOM_NODE_TYPE_ELEMENT); cbn [negb andb]; [|done].
    unfold lxb_dom_element_qualified_name_cmp. destruct (nd_tag n =? id); cbn [negb andb]; [|done].
    cbn [Z.eqb negb]. destruct (nd_qname n) as [q|].
    + destruct (qn_prefix_len q =? 0); cbn [negb andb]; [|done]. by destruct (nd_ns n =? LXB_NS_HTML).
    + cbn [andb]. destruct (nd_ns n =? LXB_NS_HTML); [done|]. cbn [orb mbind option_bind].
      destruct (lexbor_str_data_find_uppercase name); [by rewrite bool_decide_false | by rewrite bool_decide_true].
Qed.

Lemma query_attr_ok cmp col name value : (forall i n, i ∈ forest_ids cs -> d_nodes d !! i = Some n ->
    is_element n = true -> attrs_readable name i) ->
  query_attr d cmp r col name value =
    Some (LXB_STATUS_OK, col ++ List.filter (attr_matches cmp name value) (forest_ids cs)).
Proof.
  intros Hread. unfold query_attr. rewrite (walk_filter _ (attr_matches cmp name value)); [done|]. intros i n c Hi Hn.
  specialize (Hread i n Hi Hn). unfold lxb_dom_elements_by_attr_cb, attr_matches. rewrite Hn. cbn [mbind option_bind].
  unfold is_element in *. destruct (nd_type n =? LXB_DOM_NODE_TYPE_ELEMENT); cbn [negb andb].
  - destruct (Hread eq_refl) as (a & -> & Ha). cbn [mbind option_bind]. destruct a as [j|]; [|done].
    destruct (Ha j eq_refl) as [v Hv]. destruct (d_attrs d !! j) as [at'|]; cbn [mbind option_bind] in *; [|done].
    rewrite Hv. cbn [mbind option_bind]. by destruct (_ || _).
  - by destruct (lxb_dom_element_attr_by_name d i name) as [[j|]|].
Qed.

(** *** What the callback decides is the specification *)

Section Named.
Context (name : list Z) (n : dom_node) (WF : tag_heap_wf (doc_tags (d_owner d))) (named : element_named n).
Context (plain : match nd_qname n with Some q => qn_prefix_len q =? 0 | None => true end = true).

Lemma local_name_lower : nd_qname n = None -> map lower (local_name n) = local_name n.
Proof.
  destruct named as (dt & Hdt & Hid & _). destruct (by_name_some _ _ _ WF Hdt) as [Hlow Hby].
  intros Hq. unfold local_name. rewrite Hq, <- Hid, Hby. by cbn.
Qed.

Lemma tag_id_named : let id := lxb_tag_id_by_name (doc_tags (d_owner d)) name in
  negb (id =? LXB_TAG__UNDEF) && (nd_tag n =? id) = eq_nocase (local_name n) name.
Proof.
  pose proof local_name_lower as Hlocal. destruct named as (dt & Hdt & Hid & Hundef & Hq).
  destruct (by_name_some _ _ _ WF Hdt) as [Hlow Hby]. intros id.
  assert (Hl : map lower (local_name n) = tag_name dt).
  { destruct (nd_qname n) as [q|] eqn:E; [apply (Hq q); [done | lia]|]. rewrite Hlocal by done.
    unfold local_name. by rewrite E, <- Hid, Hby. }
  unfold eq_nocase. rewrite Hl. case_bool_decide as E.
  - rewrite Hlow in E. rewrite (by_name_nocase _ _ name E) in Hdt. unfold id, lxb_tag_id_by_name. rewrite Hdt, Hid. lia.
  - apply not_true_is_false. intros [Hu%negb_true_iff Ht]%andb_true_iff. apply E.
    unfold id, lxb_tag_id_by_name in *. destruct (lxb_tag_data_by_name_default_cb _ name) as [dn|] eqn:En; [|lia].
    destruct (by_name_some _ _ _ WF En) as [Hn Hbn]. rewrite <- Hn. f_equal.
    apply Z.eqb_eq in Ht. rewrite <- Ht, <- Hid, Hby in Hbn. congruence.
Qed.

(** A foreign element named by its tag alone. *)
Lemma by_tag_alone : Forall (fun c => 0 <= c < 256) name -> nd_qname n = None ->
  eq_nocase (local_name n) name && bool_decide (lexbor_str_data_find_uppercase name = None) =
  data_eq (local_name n) name && forallb is_letter name.
Proof.
  intros Hb Hq. pose proof (local_name_lower Hq) as Hl. unfold eq_nocase, data_eq. rewrite Hl.
  apply eq_true_iff_eq. rewrite !andb_true_iff, !bool_decide_eq_true, find_uppercase_none, forallb_forall by done.
  split; intros [E H].
  - assert (map lower name = name) as Hn.
    { clear E. induction H as [|c name Hc _ IH]; [done|]. inversion Hb; subst. cbn. rewrite IH by done.
      f_equal. rewrite lower_spec by done. by replace ((0x41 <=? _) && _) with false by lia. }
    split; [congruence|]. intros c Hc%list_elem_of_In. rewrite Forall_forall in H. specialize (H c Hc). unfold is_letter. lia.
  - subst name. split; [done|]. rewrite Forall_forall in *. intros c Hc. specialize (Hb c Hc).
    specialize (H c ltac:(by apply list_elem_of_In)).
    assert (lower c = c) as Hlc.
    { apply list_elem_of_lookup in Hc as [i Hi]. apply (f_equal (fun l => l !! i)) in Hl.
      rewrite list_lookup_fmap, Hi in Hl. cbn in Hl. congruence. }
    unfold is_letter in H. rewrite lower_spec in Hlc by done. destruct ((65 <=? c) && (c <=? 90)) eqn:E; lia.
Qed.

(** A foreign element that keeps its name. *)
Lemma by_kept_name q : nd_qname n = Some q -> 
  eq_nocase (local_name n) name && ((qn_local_name_len q =? str_len name) && data_eq (take (length name) (qn_str q)) name) =
  data_eq (local_name n) name.
Proof.
  intros E. destruct named as (dt & _ & _ & _ & Hq). rewrite E in plain. destruct (Hq q E) as [_ Hlen]; [lia|].
  unfold eq_nocase, data_eq, local_name in *. rewrite E in *. apply eq_true_iff_eq.
  rewrite !andb_true_iff, !bool_decide_eq_true, Z.eqb_eq. unfold str_len in *. split.
  - intros (_ & Hl & H). by rewrite Hl, Nat2Z.id.
  - intros H. rewrite H in Hlen. rewrite <- Hlen in *. rewrite Nat2Z.id in *. by rewrite H.
Qed.
End Named.

Lemma tag_matches_named name i n : d_nodes d !! i = Some n ->
  (is_element n = true -> tag_heap_wf (doc_tags (d_owner d)) /\ element_named n) -> Forall (fun c => 0 <= c < 256) name ->
  tag_matches name i = tag_named name i && negb (overlooked name i).
Proof.
  intros Hn Hnamed Hb. unfold tag_matches, tag_named, overlooked. rewrite Hn.
  destruct (is_element n); cbn [andb]; [|done]. destruct Hnamed as [WF Hnamed]; [done|].
  destruct (match nd_qname n with Some q => _ | None => _ end) eqn:Hplain; rewrite ?andb_false_r; cbn [andb]; [|done].
  rewrite andb_true_r, (tag_id_named name n WF Hnamed Hplain). destruct (nd_ns n =? LXB_NS_HTML); cbn [orb negb andb].
  - by rewrite !andb_true_r.
  - pose proof (by_kept_name name n Hnamed Hplain) as Hkept. pose proof (by_tag_alone name n WF Hnamed Hb) as Halone.
    destruct (nd_qname n) as [q|].
    + rewrite bool_decide_false by done. cbn [negb andb]. rewrite andb_true_r. by apply Hkept.
    + rewrite (bool_decide_true (None = None)) by done. cbn [negb andb]. rewrite negb_involutive. by apply Halone.
Qed.

(** C20: the queries answer OK and collect exactly the elements below the root that
    match, each once, in document order, wherever in a tree the root is; the root
    itself is not collected.  [lxb_dom_elements_by_tag_name], for a name that is not
    [*] and has no colon, in a document whose elements have tags of the document's
    heap, collects the elements without a prefix that have that local name, up to
    case in HTML and exactly elsewhere, but for the foreign elements
    [lexbor_str_data_find_uppercase] makes it miss, those named by their tag alone
    by a name with a hyphen or digit.  The queries by attribute collect the elements
    whose attribute of that name has the value, begins or ends with it or contains
    it, up to case if asked, when no attribute of the name is without a value
    ([attrs_readable]: the code reads its length through NULL). *)
Theorem queries_spec col name value ci :
  let found f := Some (LXB_STATUS_OK, col ++ List.filter f (forest_ids cs)) in
  let same v := cmp_eq ci v value = true in
  let below P := forall i n, i ∈ forest_ids cs -> d_nodes d !! i = Some n -> is_element n = true -> P i n in
  (name <> [0x2A] -> memchr 0x3A name = None -> Forall (fun c => 0 <= c < 256) name ->
    tag_heap_wf (doc_tags (d_owner d)) -> below (fun _ n => element_named n) ->
    lxb_dom_elements_by_tag_name d r col name = found (fun i => tag_named name i && negb (overlooked name i))) /\
  (below (fun i _ => attrs_readable name i) ->
    (exists cmp, lxb_dom_elements_by_attr d r col name value ci = found (attr_matches cmp name value) /\
      forall v, cmp v value = true <-> same v) /\
    (exists cmp, lxb_dom_elements_by_attr_begin d r col name value ci = found (attr_matches cmp name value) /\
      forall v, cmp v value = true <-> exists w s, v = w ++ s /\ same w) /\
    (exists cmp, lxb_dom_elements_by_attr_end d r col name value ci = found (attr_matches cmp name value) /\
      forall v, cmp v value = true <-> exists s w, v = s ++ w /\ same w) /\
    (exists cmp, lxb_dom_elements_by_attr_contain d r col name value ci = found (attr_matches cmp name value) /\
      forall v, cmp v value = true <-> exists s w t, v = s ++ w ++ t /\ same w)).
Proof.
  intros found same below. pose proof (cmp_eq_len ci) as Hlen. split.
  { intros Hstar Hcolon Hb WF Hnamed. rewrite by_tag_name_ok by done. unfold found. f_equal. f_equal. f_equal.
    apply List.filter_ext_in. intros i Hi%list_elem_of_In. 
    destruct (forest_alive _ _ _ _ _ laid i) as [n Hn]; [rewrite forest_ids_cons; set_solver|].
    apply (tag_matches_named name i n); [done| |done]. intros He. split; [done|]. by apply (Hnamed i). }
  intros Hread. repeat split; eexists; (split; [by apply query_attr_ok|]); intros v; unfold same.
  - destruct ci; cbn [cmp_eq]; unfold lxb_dom_elements_by_attr_cmp_full_case, lxb_dom_elements_by_attr_cmp_full, data_eq;
      rewrite Nat.eqb_sym; by rewrite ?eq_nocase_length, ?eq_length.
  - destruct ci; exact (begin_compare _ Hlen v value).
  - destruct ci; exact (end_compare _ Hlen v value).
  - rewrite <- (contain_compare _ Hlen), <- (contain_length ci). by destruct ci.
Qed.
End Spec.

(** ** A document [1] with a [div 2] around [p 3] (with a text [4]) and [p 5] *)

Definition example_el (parent prev next first last : option positive) (tag : Z) (attr : option positive) : dom_node :=
  mk_node next prev parent first last LXB_NS_HTML tag LXB_DOM_NODE_TYPE_ELEMENT [] None attr attr None attr.

Definition example_page : dom := mk_dom
  (list_to_map [
    (1%positive, linked None None None (Some 2%positive) (Some 2%positive) LXB_DOM_NODE_TYPE_DOCUMENT []);
    (2%positive, example_el (Some 1%positive) None None (Some 3%positive) (Some 5%positive) 0x3d None);
    (3%positive, example_el (Some 2%positive) None (Some 5%positive) (Some 4%positive) (Some 4%positive) LXB_TAG_P (Some 7%positive));
    (4%positive, linked (Some 3%positive) None None None None LXB_DOM_NODE_TYPE_TEXT [0x61; 0x62]);
    (5%positive, example_el (Some 2%positive) (Some 3%positive) None None None LXB_TAG_P None)])
  {[ 7%positive := example_attr "class" "abc d" None None ]}
  (mk_owner true false (mk_tag_heap [] (lexbor_shbst_init 1))).

Definition example_tree : list tree := [Node 2 [Node 3 [Node 4 []]; Node 5 []]].

Lemma queries_spec_witness :
  lxb_dom_elements_by_tag_name example_page 1 [] (bytes "P") = Some (LXB_STATUS_OK, [3; 5]%positive) /\
  exists cmp, lxb_dom_elements_by_attr_begin example_page 1 [] (bytes "class") (bytes "AB") true =
    Some (LXB_STATUS_OK, List.filter (attr_matches example_page cmp (bytes "class") (bytes "AB")) [2; 3; 4; 5]%positive).
Proof.
  assert (Hbelow : forall i, i ∈ forest_ids example_tree -> i = 2%positive \/ i = 3%positive \/ i = 4%positive \/ i = 5%positive)
    by (intros i Hi; cbn in Hi; set_solver).
  assert (Q : forall name value, _) by (intros name value; refine (queries_spec example_page None None 1 example_tree None
    _ _ [] name value true); [laid_out | apply (bool_decide_unpack _); vm_compute; exact I]).
  split.
  - destruct (Q (bytes "P") []) as [E _]. rewrite E; [vm_compute; reflexivity | done | reflexivity | | | ].
    + repeat constructor; lia.
    + apply (tag_heap_init_wf 1); [lia | reflexivity].
    + intros i n Hi Hn Hel. exists (tag_at (nd_tag n)).
      destruct (Hbelow i Hi) as [-> | [-> | [-> | ->]]]; vm_compute in Hn; injection Hn as <-; try discriminate Hel;
        (split; [vm_compute; reflexivity|]); (split; [vm_compute; reflexivity|]); split; discriminate.
  - destruct (Q (bytes "class") (bytes "AB")) as [_ E]. destruct E as (_ & (cmp & E & _) & _).
    + intros i n Hi _ _. destruct (Hbelow i Hi) as [-> | [-> | [-> | ->]]]; [exists None | exists (Some 7%positive) | exists None | exists None];
        (split; [vm_compute; reflexivity|]); try discriminate. intros j [= <-]. exists (bytes "abc d"). vm_compute. reflexivity.
    + exists cmp. exact E.
Defined.

(** The class [abc] of [class="abc d"] is not found: the loop of
    [lxb_dom_elements_by_class_name_cb] ends before the space when less than a
    class name is left. *)
Theorem class_before_short_rest_missed :
  lxb_dom_elements_by_class_name example_page 1 [] (bytes "abc") = Some (LXB_STATUS_OK, []).
Proof. vm_compute. reflexivity. Qed.

(** A hyphen or a digit counts as an upper-case letter in
    [lexbor_str_data_find_uppercase]: an SVG element [font-face] is not found by
    its name. *)
Theorem hyphen_is_uppercase el id : nd_tag el = id -> nd_qname el = None -> nd_ns el = LXB_NS_SVG ->
  lxb_dom_element_qualified_name_cmp el id (bytes "font-face") 0 (bytes "font-face") = Some false.
Proof.
  intros <- Hq Hns. unfold lxb_dom_element_qualified_name_cmp. rewrite Z.eqb_refl, Hq, Hns. reflexivity.
Qed.
