(* ===== verification/TreeAttr.v ===== *)
(** * Attributes of new elements: [html/tree.c], [html/tree_res.h]

    The part of the tree builder that gives a new element the attributes of its
    token, or of the element the token was made from: names and values are decoded
    from the buffers ([TokenParse]), the first attribute of each name is kept, and
    MathML and SVG names get their capitals back. *)
From Stdlib Require Import String.
From Stdlib Require Import Ascii.
From S2P Require Import Prelude.
From S2P Require Import Str.
From S2P Require Import In.
From S2P Require Import HtmlIn.
From S2P Require Import Tag.
From S2P Require Import TagHeap.
From S2P Require Import TkzBase.
From S2P Require Import TokenData.
From S2P Require Import Sbst.
From S2P Require Import EntityRes.
From S2P Require Import ParserChar.
From S2P Require Import ParserCharSpec.
From S2P Require Import TokenParse.
From S2P Require Import DomNode.
From S2P Require Import DomTree.
From S2P Require Import DomLink.
From S2P Require Import DomAttr.
From S2P Require Import DomAttrSpec.

(** ** [lxb_html_tree_adjust_*_attributes] *)

(** [lxb_html_tree_res_attr_adjust_t]: [from], [to], [len]. *)
Definition lxb_html_tree_res_attr_adjust_svg_map : list (string * string * Z) := ([
  ("attributename", "attributeName", 13);
  ("attributetype", "attributeType", 13);
  ("basefrequency", "baseFrequency", 13);
  ("baseprofile", "baseProfile", 11);
  ("calcmode", "calcMode", 8);
  ("clippathunits", "clipPathUnits", 13);
  ("diffuseconstant", "diffuseConstant", 15);
  ("edgemode", "edgeMode", 8);
  ("filterunits", "filterUnits", 11);
  ("glyphref", "glyphRef", 8);
  ("gradienttransform", "gradientTransform", 17);
  ("gradientunits", "gradientUnits", 13);
  ("kernelmatrix", "kernelMatrix", 12);
  ("kernelunitlength", "kernelUnitLength", 16);
  ("keypoints", "keyPoints", 9);
  ("keysplines", "keySplines", 10);
  ("keytimes", "keyTimes", 8);
  ("lengthadjust", "lengthAdjust", 12);
  ("limitingconeangle", "limitingConeAngle", 17);
  ("markerheight", "markerHeight", 12);
  ("markerunits", "markerUnits", 11);
  ("markerwidth", "markerWidth", 11);
  ("maskcontentunits", "maskContentUnits", 16);
  ("maskunits", "maskUnits", 9);
  ("numoctaves", "numOctaves", 10);
  ("pathlength", "pathLength", 10);
  ("patterncontentunits", "patternContentUnits", 19);
  ("patterntransform", "patternTransform", 16);
  ("patternunits", "patternUnits", 12);
  ("pointsatx", "pointsAtX", 9);
  ("pointsaty", "pointsAtY", 9);
  ("pointsatz", "pointsAtZ", 9);
  ("preservealpha", "preserveAlpha", 13);
  ("preserveaspectratio", "preserveAspectRatio", 19);
  ("primitiveunits", "primitiveUnits", 14);
  ("refx", "refX", 4);
  ("refy", "refY", 4);
  ("repeatcount", "repeatCount", 11);
  ("repeatdur", "repeatDur", 9);
  ("requiredextensions", "requiredExtensions", 18);
  ("requiredfeatures", "requiredFeatures", 16);
  ("specularconstant", "specularConstant", 16);
  ("specularexponent", "specularExponent", 16);
  ("spreadmethod", "spreadMethod", 12);
  ("startoffset", "startOffset", 11);
  ("stddeviation", "stdDeviation", 12);
  ("stitchtiles", "stitchTiles", 11);
  ("surfacescale", "surfaceScale", 12);
  ("systemlanguage", "systemLanguage", 14);
  ("tablevalues", "tableValues", 11);
  ("targetx", "targetX", 7);
  ("targety", "targetY", 7);
  ("textlength", "textLength", 10);
  ("viewbox", "viewBox", 7);
  ("viewtarget", "viewTarget", 10);
  ("xchannelselector", "xChannelSelector", 16);
  ("ychannelselector", "yChannelSelector", 16);
  ("zoomandpan", "zoomAndPan", 10)
])%string%Z.

(** [lxb_html_tree_res_attr_adjust_foreign_t] *)
Record adjust_foreign := mk_adjust { ad_name : string; ad_prefix : string; ad_local_name : string;
  ad_name_len : Z; ad_prefix_len : Z; ad_ns : Z }.

Definition lxb_html_tree_res_attr_adjust_foreign_map : list adjust_foreign := [
  mk_adjust "xlink:actuate" "xlink" "actuate" 13 5 LXB_NS_XLINK;
  mk_adjust "xlink:arcrole" "xlink" "arcrole" 13 5 LXB_NS_XLINK;
  mk_adjust "xlink:href" "xlink" "href" 10 5 LXB_NS_XLINK;
  mk_adjust "xlink:role" "xlink" "role" 10 5 LXB_NS_XLINK;
  mk_adjust "xlink:show" "xlink" "show" 10 5 LXB_NS_XLINK;
  mk_adjust "xlink:title" "xlink" "title" 11 5 LXB_NS_XLINK;
  mk_adjust "xlink:type" "xlink" "type" 10 5 LXB_NS_XLINK;
  mk_adjust "xml:lang" "xml" "lang" 8 3 LXB_NS_XML;
  mk_adjust "xml:space" "xml" "space" 9 3 LXB_NS_XML;
  mk_adjust "xmlns" "" "xmlns" 5 0 LXB_NS_XMLNS;
  mk_adjust "xmlns:xlink" "xmlns" "xlink" 11 5 LXB_NS_XMLNS
]%string.

(** [memcpy(data, to, len)] into a string at least that long. *)
Definition overwrite (to data : list Z) : option (list Z) :=
  if (length to <=? length data)%nat then Some (to ++ drop (length to) data) else None.

(** [attr->name.length == len && lexbor_str_data_cmp(attr->name.data, from)]; the
    names of the tables have no NUL. *)
Definition named (a : dom_attr) (len : Z) (from : string) : bool :=
  (str_len (name_of a) =? len) && str_data_cmp (name_of a) (bytes from).

Definition rename (to : string) (a : dom_attr) : option dom_attr :=
  name ← overwrite (bytes to) (name_of a);
  local_name ← overwrite (bytes to) (local_of a);
  Some (set_at_local_name (Some local_name) (set_at_name (Some name) a)).

Definition lxb_html_tree_adjust_mathml_attributes (a : dom_attr) : option (Z * dom_attr) :=
  a ← (if named a 13 "definitionurl" then rename "definitionURL" a else Some a);
  Some (LXB_STATUS_OK, a).

Fixpoint adjust_svg_loop (map_ : list (string * string * Z)) (a : dom_attr) : option (Z * dom_attr) :=
  match map_ with
  | [] => Some (LXB_STATUS_OK, a)
  | (from, to, len) :: map_ =>
      a ← (if named a len from then rename to a else Some a);
      adjust_svg_loop map_ a
  end.

Definition lxb_html_tree_adjust_svg_attributes := adjust_svg_loop lxb_html_tree_res_attr_adjust_svg_map.

Fixpoint adjust_foreign_loop (map_ : list adjust_foreign) (a : dom_attr) : option (Z * dom_attr) :=
  match map_ with
  | [] => Some (LXB_STATUS_OK, a)
  | f :: map_ =>
      if named a (ad_name_len f) (ad_name f) then
        let a :=
          if negb (ad_prefix_len f =? 0) then
            let local_name_len := ad_name_len f - ad_prefix_len f - 1 in
            snd (lxb_dom_attr_set_name (take (Z.to_nat local_name_len) (bytes (ad_local_name f)))
                   (take (Z.to_nat (ad_prefix_len f)) (bytes (ad_prefix f))) false a)
          else a in
        Some (LXB_STATUS_OK, set_at_ns (ad_ns f) a)
      else adjust_foreign_loop map_ a
  end.

Definition lxb_html_tree_adjust_foreign_attributes := adjust_foreign_loop lxb_html_tree_res_attr_adjust_foreign_map.

Definition lxb_html_tree_adjust_attributes_mathml (a : dom_attr) : option (Z * dom_attr) :=
  '(status, a) ← lxb_html_tree_adjust_mathml_attributes a;
  if negb (status =? LXB_STATUS_OK) then Some (status, a) else lxb_html_tree_adjust_foreign_attributes a.

Definition lxb_html_tree_adjust_attributes_svg (a : dom_attr) : option (Z * dom_attr) :=
  '(status, a) ← lxb_html_tree_adjust_svg_attributes a;
  if negb (status =? LXB_STATUS_OK) then Some (status, a) else lxb_html_tree_adjust_foreign_attributes a.

(** ** The attributes of a token *)

Section Append.
Context (m : gmap positive in_node) (rd : Z -> Z).
Context (alloc : gmap positive dom_attr -> positive).
(** [tree->before_append_attr], or NULL. *)
Context (before_append_attr : option (dom_attr -> option (Z * dom_attr))).

Definition before_append (attr : positive) (d : dom) : option (Z * dom) :=
  match before_append_attr with
  | None => Some (LXB_STATUS_OK, d)
  | Some f =>
      a ← d_attrs d !! attr;
      '(status, a) ← f a;
      Some (status, with_dom_attrs (<[attr := a]> (d_attrs d)) d)
  end.

(** The loop over the attributes of the token; the length of a name that was not
    parsed is not set ([None]). *)
Fixpoint append_attributes_loop (token_attrs : list token_attr) (p : parser_char) (element : positive) (ns : Z)
    (d : dom) : option (Z * dom) :=
  match token_attrs with
  | [] => Some (LXB_STATUS_OK, d)
  | token_attr :: token_attrs =>
      '(p, status, local_name, value) ← lxb_html_token_attr_parse m rd token_attr p;
      if negb (status =? LXB_STATUS_OK) then Some (status, d)
      else
        local_name ← local_name;
        attr ← lxb_dom_element_attr_is_exist d element local_name;
        match attr with
        | Some _ => append_attributes_loop token_attrs p element ns d
        | None =>
            let '(attr, d) := lxb_dom_attr_interface_create alloc d in
            '(status, d) ← on_attr (lxb_dom_attr_set_name_wo_copy local_name []) attr d;
            if negb (status =? LXB_STATUS_OK) then Some (status, d)
            else
              '(status, d) ← match value with
                             | Some value => on_attr (lxb_dom_attr_set_value_wo_copy value) attr d
                             | None => Some (LXB_STATUS_OK, d)
                             end;
              if negb (status =? LXB_STATUS_OK) then Some (status, d)
              else
                d ← upd_attr (set_at_ns ns) attr d;
                '(status, d) ← before_append attr d;
                if negb (status =? LXB_STATUS_OK) then Some (status, d)
                else
                  '(_, d) ← lxb_dom_element_attr_append d element attr;
                  append_attributes_loop token_attrs p element ns d
        end
  end.

Definition lxb_html_tree_append_attributes (d : dom) (element : positive) (token : html_token) (ns : Z)
    : option (Z * dom) :=
  append_attributes_loop (tok_attrs token) pc_zero element ns d.

(** The loop over the attributes of another element, which are no more than all
    attributes before it. *)
Fixpoint append_from_element_loop (fuel : nat) (attr : option positive) (element : positive) (d : dom) : option (Z * dom) :=
  match attr with
  | None => Some (LXB_STATUS_OK, d)
  | Some attr =>
      match fuel with
      | O => None
      | S fuel =>
          let '(new_attr, d) := lxb_dom_attr_interface_create alloc d in
          a ← d_attrs d !! attr;
          '(status, d) ← on_attr (lxb_dom_attr_clone_name_value a) new_attr d;
          if negb (status =? LXB_STATUS_OK) then Some (status, d)
          else
            a ← d_attrs d !! attr;
            d ← upd_attr (set_at_ns (at_ns a)) new_attr d;
            '(status, d) ← before_append new_attr d;
            if negb (status =? LXB_STATUS_OK) then Some (status, d)
            else
              '(_, d) ← lxb_dom_element_attr_append d element attr;
              a ← d_attrs d !! attr;
              append_from_element_loop fuel (at_next a) element d
      end
  end.

Definition lxb_html_tree_append_attributes_from_element (d : dom) (element from : positive) : option (Z * dom) :=
  el ← d_nodes d !! from;
  append_from_element_loop (size (d_attrs d)) (nd_first_attr el) element d.
End Append.

(** ** What they do *)

(** The names and values of a list of attributes, each name kept once. *)
Definition pairs (l : list entry) : list (list Z * option (list Z)) := map (fun x => (e_name x, e_value x)) l.

Definition add_pair (l : list (list Z * option (list Z))) (x : list Z * option (list Z)) :=
  if existsb (fun y => eq_nocase (fst y) (fst x)) l then l else l ++ [x].

(** A token's attributes as they are written, and decoded. *)
Definition decoded_pair (x : list Z * option (list Z)) : list Z * option (list Z) :=
  (decoded (attr_name_options pc_zero) (fst x), decoded (attr_value_options pc_zero) <$> snd x).

Lemma lookup_exists name l : is_Some (lookup_name (fun n => eq_nocase n name) l) <->
  existsb (fun y => eq_nocase (fst y) name) (pairs l) = true.
Proof.
  induction l as [|x l IH]; [split; [by intros [? ?] | done]|]. rewrite lookup_name_cons. cbn [pairs map existsb fst].
  fold (pairs l). destruct (eq_nocase (e_name x) name); [by split|]. exact IH.
Qed.

Section Spec.
Context (m : gmap positive in_node) (rd : Z -> Z) (ids : list positive) (eof_byte : rd lxb_html_parser_char_eof = 0).
Context (alloc : gmap positive dom_attr -> positive) (alloc_fresh : forall m, m !! alloc m = None).

Definition attr_texts (a : token_attr) (x : list Z * option (list Z)) : Prop :=
  name_text m rd ids a (fst x) /\ value_text m rd ids a (snd x).

(** Appending an attribute changes no namespace. *)
Lemma upd_attr_ns f i d d' : (forall a, at_ns (f a) = at_ns a) -> upd_attr f i d = Some d' ->
  forall k, at_ns <$> d_attrs d' !! k = at_ns <$> d_attrs d !! k.
Proof.
  intros Hf E k. unfold upd_attr in E. destruct (d_attrs d !! i) as [a|] eqn:Ha; [|done]. injection E as <-. cbn [d_attrs with_dom_attrs].
  destruct (decide (i = k)) as [<-|Hk]; [by rewrite lookup_insert_eq, Ha; cbn; rewrite Hf | by rewrite lookup_insert_ne].
Qed.

Lemma upd_element_attrs f i d d' : upd_element f i d = Some d' -> d_attrs d' = d_attrs d.
Proof. unfold upd_element. destruct (upd f i (d_nodes d)); [|done]. by intros [= <-]. Qed.

Lemma attr_append_ns d e i s d' : lxb_dom_element_attr_append d e i = Some (s, d') ->
  forall k, at_ns <$> d_attrs d' !! k = at_ns <$> d_attrs d !! k.
Proof.
  unfold lxb_dom_element_attr_append. destruct (d_attrs d !! i) as [a|]; [|done]. destruct (d_nodes d !! e) as [el|]; [|done].
  cbn [mbind option_bind]. destruct (at_name a); [|by intros [= _ <-]].
  match goal with |- context [if ?c then _ else _] => set (cached := if c then _ else _) end.
  destruct cached as [d1|] eqn:E1; [|done]. assert (d_attrs d1 = d_attrs d) as <-.
  { subst cached. repeat case_match; try (by injection E1 as <-); by eapply upd_element_attrs. }
  clear E1. cbn [mbind option_bind]. destruct (nd_first_attr el).
  - destruct (upd_attr _ i d1) as [d2|] eqn:E2; [|done]. cbn [mbind option_bind]. destruct (nd_last_attr el) as [j|]; [|done].
    cbn [mbind option_bind]. destruct (upd_attr _ j d2) as [d3|] eqn:E3; [|done]. cbn [mbind option_bind].
    destruct (upd_element _ e d3) as [d4|] eqn:E4; [|done]. intros [= _ <-] k. rewrite (upd_element_attrs _ _ _ _ E4).
    by rewrite (fun H => upd_attr_ns _ _ _ _ H E3), (fun H => upd_attr_ns _ _ _ _ H E2).
  - destruct (upd_element _ e d1) as [d2|] eqn:E2; [|done]. cbn [mbind option_bind]. destruct (upd_element _ e d2) as [d3|] eqn:E3; [|done].
    intros [= _ <-] k. by rewrite (upd_element_attrs _ _ _ _ E3), (upd_element_attrs _ _ _ _ E2).
Qed.

Lemma append_one d e l name value ns : attributes d e l -> lookup_name (fun n => eq_nocase n name) l = None ->
  exists d1 d2 d3 d4 d', let i := alloc (d_attrs d) in
    lxb_dom_attr_interface_create alloc d = (i, d1) /\
    on_attr (lxb_dom_attr_set_name_wo_copy name []) i d1 = Some (LXB_STATUS_OK, d2) /\
    match value with
    | Some value => on_attr (lxb_dom_attr_set_value_wo_copy value) i d2
    | None => Some (LXB_STATUS_OK, d2)
    end = Some (LXB_STATUS_OK, d3) /\
    upd_attr (set_at_ns ns) i d3 = Some d4 /\
    lxb_dom_element_attr_append d4 e i = Some (LXB_STATUS_OK, d') /\
    attributes d' e (l ++ [mk_entry i name value]) /\ attrs_only d d' e (i :: addresses l) /\
    (forall k, at_ns <$> d_attrs d' !! k = if decide (k = i) then Some ns else at_ns <$> d_attrs d !! k).
Proof.
  intros Hd Hl. set (i := alloc (d_attrs d)). set (x := mk_entry i name value).
  set (a := mk_dom_attr ns (Some name) (Some name) value None None 0).
  destruct (fresh_attr_spec alloc alloc_fresh d e l a Hd) as (Hi & Hd4 & O). fold i in Hi, Hd4, O.
  set (d4 := with_dom_attrs (<[i := a]> (d_attrs d)) d) in *.
  destruct (attr_append_spec d4 e l x a Hd4) as (d' & E & Hd' & O'); try done.
  { cbn [d4 with_dom_attrs d_attrs x e_at]. apply lookup_insert_eq. }
  { by apply (nocase_absent l name). }
  assert (Hrest : attributes d' e (l ++ [x]) /\ attrs_only d d' e (i :: addresses l) /\
    (forall k, at_ns <$> d_attrs d' !! k = if decide (k = i) then Some ns else at_ns <$> d_attrs d !! k)).
  { split; [done|]. split; [eapply attrs_only_trans; [exact O | exact O' | set_solver | reflexivity]|].
    intros k. rewrite (attr_append_ns _ _ _ _ _ E). unfold d4. cbn [d_attrs with_dom_attrs].
    case_decide; [subst; by rewrite lookup_insert_eq | by rewrite lookup_insert_ne]. }
  destruct value as [v|]; do 3 eexists; exists d4, d'; cbn zeta; (split; [done|]); (split; [apply on_attr_insert|]).
  1: split; [apply on_attr_insert|].
  2: split; [reflexivity|].
  all: split; [|by split].
  all: unfold upd_attr; cbn [d_attrs with_dom_attrs]; rewrite lookup_insert_eq; cbn [mbind option_bind];
    by rewrite insert_insert_eq.
Qed.

(** The loop, for an element that has the attributes [l]: it gets new ones, [l'],
    whose namespace is [ns]. *)
Lemma append_loop_ok e ns token_attrs texts : Forall2 attr_texts token_attrs texts -> forall p d l, drop_null p = false -> attributes d e l ->
  exists d' l', append_attributes_loop m rd alloc None token_attrs p e ns d = Some (LXB_STATUS_OK, d') /\
    attributes d' e (l ++ l') /\ pairs (l ++ l') = fold_left add_pair (map decoded_pair texts) (pairs l) /\
    attrs_only d d' e (addresses (l ++ l')) /\ (forall k, k ∈ addresses l' -> d_attrs d !! k = None) /\
    (forall k, at_ns <$> d_attrs d' !! k = if decide (k ∈ addresses l') then Some ns else at_ns <$> d_attrs d !! k).
Proof.
  induction 1 as [|ta [n v] token_attrs texts [Hn Hv] Hall IH]; intros p d l Hp Hd.
  { exists d, []. rewrite app_nil_r. split; [done|]. split; [done|]. split; [done|]. split; [by split|]. split; [set_solver|].
    intros k. by rewrite decide_False by apply not_elem_of_nil. }
  cbn [append_attributes_loop map fold_left fst snd] in *.
  destruct (attr_parse_texts m rd ids eof_byte ta p n v Hn Hv) as (p' & -> & Hp'). rewrite Hp in Hp'.
  assert (attr_name_options p = attr_name_options pc_zero /\ attr_value_options p = attr_value_options pc_zero) as [-> ->]
    by (unfold attr_name_options, attr_value_options; by rewrite Hp).
  cbn [mbind option_bind negb Z.eqb LXB_STATUS_OK]. set (name := decoded _ n).
  rewrite (is_exist_spec d e l) by done. cbn [mbind option_bind].
  pose proof (lookup_exists name l) as Hex. unfold add_pair at 2. cbn [decoded_pair fst snd]. fold name.
  destruct (lookup_name _ l) as [x|] eqn:El; cbn [fmap option_fmap option_map].
  { rewrite (proj1 Hex) by done. exact (IH p' d l Hp' Hd). }
  destruct (existsb _ (pairs l)) eqn:Eb; [by destruct (proj2 Hex eq_refl)|]. clear Hex.
  set (value := decoded (attr_value_options pc_zero) <$> v).
  destruct (append_one d e l name value ns Hd El) as (d1 & d2 & d3 & d4 & d5 & E1 & E2 & E3 & E4 & E5 & Hd5 & O & Hns). cbn zeta in *.
  rewrite E1, E2. cbn [mbind option_bind negb Z.eqb LXB_STATUS_OK].
  replace (match v with Some l => Some (decoded (attr_value_options pc_zero) l) | None => None end) with value by (by destruct v).
  rewrite E3. cbn [mbind option_bind negb Z.eqb LXB_STATUS_OK]. rewrite E4.
  cbn [mbind option_bind negb Z.eqb LXB_STATUS_OK before_append]. rewrite E5. cbn [mbind option_bind].
  destruct (IH p' d5 _ Hp' Hd5) as (d' & l' & E & Hd' & Hl & O' & Hnew & Hns'). exists d', (mk_entry (alloc (d_attrs d)) name value :: l').
  rewrite <- app_assoc in Hd', Hl, O'. cbn [app] in Hd', Hl, O'. split; [exact E|]. split; [done|]. split; [|split; [|split]].
  - rewrite Hl. unfold pairs. by rewrite map_app.
  - eapply attrs_only_trans; [exact O | exact O' | | reflexivity]. rewrite addresses_app. cbn. set_solver.
  - intros k. cbn [addresses map e_at]. intros [->|Hk]%elem_of_cons; [apply alloc_fresh|]. specialize (Hnew k Hk). specialize (Hns k).
    rewrite Hnew in Hns. case_decide; [done|]. by destruct (d_attrs d !! k).
  - intros k. rewrite Hns', Hns. cbn [addresses map e_at]. destruct (decide (k = alloc (d_attrs d))) as [->|Hk].
    + rewrite (decide_True _ _ (list_elem_of_here _ _)). by case_decide.
    + destruct (decide (k ∈ addresses l')); [by rewrite decide_True by by right|]. rewrite decide_False; [done|].
      intros [|]%elem_of_cons; done.
Qed.

(** C18: a new element gets the attributes of its token.  For an HTML element (no
    [before_append_attr]), [lxb_html_tree_append_attributes] answers OK and leaves
    the element with the decoded names and values of the token's attributes, which
    may lie in any number of buffers, in order, of those with one name up to case
    only the first, after the attributes it had, which are kept; the list is
    linked, its caches are right, the new attributes are in the namespace that is
    given, and nothing else of the document changes. *)
Theorem append_attributes_spec d e token ns l texts : attributes d e l ->
  Forall2 attr_texts (tok_attrs token) texts ->
  exists d' l', lxb_html_tree_append_attributes m rd alloc None d e token ns = Some (LXB_STATUS_OK, d') /\
    attributes d' e (l ++ l') /\
    pairs (l ++ l') = fold_left add_pair (map decoded_pair texts) (pairs l) /\
    attrs_only d d' e (addresses (l ++ l')) /\
    (forall k, at_ns <$> d_attrs d' !! k = if decide (k ∈ addresses l') then Some ns else at_ns <$> d_attrs d !! k).
Proof.
  intros Hd Hall. destruct (append_loop_ok e ns _ _ Hall pc_zero d l eq_refl Hd) as (d' & l' & E & Hd' & Hl & O & _ & Hns). by exists d', l'.
Qed.
End Spec.

(** ** Attributes taken from another element *)

Section Shared.
Context (alloc : gmap positive dom_attr -> positive) (alloc_fresh : forall m, m !! alloc m = None).

Lemma upd_attr_same f i a d : d_attrs d !! i = Some a -> f a = a -> upd_attr f i d = Some d.
Proof.
  intros Ha Hf. unfold upd_attr. rewrite Ha. cbn [mbind option_bind]. rewrite Hf, insert_id by done. by destruct d.
Qed.

(** Appending the next attribute of a list to an element that has those before it:
    only the element changes. *)
Lemma append_shared d e el l1 x l2 : aseg (d_attrs d) None (l1 ++ x :: l2) None ->
  d_nodes d !! e = Some el -> el_ok el l1 ->
  exists el', lxb_dom_element_attr_append d e (e_at x) =
    Some (LXB_STATUS_OK, with_nodes (<[e := el']> (d_nodes d)) d) /\ el_ok el' (l1 ++ [x]).
Proof.
  intros Hseg Hel Hok. apply aseg_app in Hseg as [Hs1 [(a & Ha & Hx & Hp & _) _]]. cbn [first_at] in Hs1.
  unfold lxb_dom_element_attr_append. rewrite Ha, Hel. cbn [mbind option_bind]. rewrite (proj1 Hx).
  destruct (cache_step d e el l1 x Hel Hok) as (el1 & -> & Hf & Hl & Hid & Hcl & _). cbn [mbind option_bind].
  rewrite (eo_first el l1 Hok) in *. rewrite (eo_last el l1 Hok) in *. destruct l1 as [|z l1 _] using rev_ind.
  - cbn [first_at last_at last]. rewrite (upd_element_some _ e el1) by apply lookup_insert_eq. cbn [mbind option_bind].
    erewrite upd_element_some by apply lookup_insert_eq. cbn [mbind option_bind].
    exists (set_nd_last_attr (Some (e_at x)) (set_nd_first_attr (Some (e_at x)) el1)).
    cbn [with_nodes d_nodes d_attrs d_owner]. by rewrite !insert_insert_eq.
  - apply aseg_app in Hs1 as [_ [(b & Hb & _ & _ & Hn) _]]. cbn [first_at] in Hn.
    rewrite last_at_app in *. cbn [last_at last] in *.
    assert (exists y, first_at (l1 ++ [z]) None = Some y) as [y Hy] by (destruct l1; by eexists).
    rewrite Hy. rewrite Hy in Hf.
    rewrite (upd_attr_same _ _ a) by (done || (rewrite <- Hp; by destruct a)). cbn [mbind option_bind].
    rewrite (upd_attr_same _ _ b) by (done || (rewrite <- Hn; by destruct b)). cbn [mbind option_bind].
    rewrite (upd_element_some _ e el1) by apply lookup_insert_eq. cbn [mbind option_bind].
    exists (set_nd_last_attr (Some (e_at x)) el1). cbn [with_nodes d_nodes d_attrs d_owner]. rewrite insert_insert_eq.
    split; [done|]. split; cbn; [|by rewrite last_at_app | done | done]. rewrite Hf, <- Hy. by destruct l1.
Qed.

Lemma from_loop_spec e from l2 : e <> from -> forall l1 d el fuel, attributes d from (l1 ++ l2) ->
  d_nodes d !! e = Some el -> el_ok el l1 -> (length l2 <= fuel)%nat ->
  exists d', append_from_element_loop alloc None fuel (first_at l2 None) e d = Some (LXB_STATUS_OK, d') /\
    attributes d' from (l1 ++ l2) /\ attributes d' e (l1 ++ l2).
Proof.
  intros Hne. induction l2 as [|x l2 IH]; intros l1 d el fuel Hd Hel Hok Hf.
  { exists d. split; [by destruct fuel|]. split; [done|]. destruct Hd as (_ & Hd). rewrite app_nil_r in *. split; [by exists el | done]. }
  destruct fuel as [|fuel]; [cbn in Hf; lia|]. cbn [first_at append_from_element_loop].
  pose proof Hd as (_ & Hseg & _). pose proof Hseg as [_ [(a & Ha & _ & _ & Hn) _]]%aseg_app.
  unfold lxb_dom_attr_interface_create. set (i := alloc (d_attrs d)).
  assert (Hi : i ∉ addresses (l1 ++ x :: l2)) by (by apply (fresh_attr_spec alloc alloc_fresh d from _ a)).
  assert (Hxi : i <> e_at x) by (intros ->; apply Hi; rewrite addresses_app; cbn; set_solver).
  cbn [d_attrs with_dom_attrs]. rewrite lookup_insert_ne, Ha by done. cbn [mbind option_bind]. rewrite on_attr_insert.
  set (new := lxb_dom_attr_clone_name_value _ _). assert (fst new = LXB_STATUS_OK) as -> by (unfold new, lxb_dom_attr_clone_name_value; by destruct (at_value a)).
  cbn [mbind option_bind negb Z.eqb LXB_STATUS_OK d_attrs with_dom_attrs]. rewrite lookup_insert_ne, Ha by done.
  cbn [mbind option_bind]. unfold upd_attr. cbn [d_attrs with_dom_attrs]. rewrite lookup_insert_eq.
  cbn [mbind option_bind before_append negb Z.eqb LXB_STATUS_OK]. rewrite insert_insert_eq.
  destruct (fresh_attr_spec alloc alloc_fresh d from _ (set_at_ns (at_ns a) (snd new)) Hd) as (_ & Hd2 & _). fold i in Hd2.
  set (d2 := with_dom_attrs _ d) in Hd2. change (with_dom_attrs _ (with_dom_attrs _ _)) with d2.
  destruct (append_shared d2 e el l1 x l2) as (el' & -> & Hok'); [by destruct Hd2 as (_ & ? & _) | done | done |].
  cbn [mbind option_bind d_attrs with_nodes d2 with_dom_attrs]. rewrite lookup_insert_ne, Ha by done. cbn [mbind option_bind].
  rewrite Hn. set (d3 := with_nodes _ d2). rewrite (cons_middle x), app_assoc in Hd2 |- *.
  apply (IH (l1 ++ [x]) d3 el' fuel); [|apply lookup_insert_eq | done | cbn in Hf; lia].
  destruct Hd2 as ((elf & Helf & Hokf) & Hseg2 & Hnd). split; [|done].
  exists elf. split; [cbn; by rewrite lookup_insert_ne | done].
Qed.

(** C40: [lxb_html_tree_append_attributes_from_element] appends the old element's
    attributes instead of the copies it makes: the new element ends with the very
    attributes of the old one, in one list.  Removing the first of them from the
    new element then frees memory the old element still refers to: reading any
    attribute of the old element follows a dangling pointer. *)
Theorem attributes_from_element_shared d e from x l name :
  attributes d from (x :: l) -> attributes d e [] -> e <> from ->
  exists d', lxb_html_tree_append_attributes_from_element alloc None d e from = Some (LXB_STATUS_OK, d') /\
    attributes d' from (x :: l) /\ attributes d' e (x :: l) /\
    (exists d'', lxb_dom_element_remove_attribute d' e (e_name x) = Some (LXB_STATUS_OK, d'') /\
      lxb_dom_element_get_attribute d'' from name = None).
Proof.
  intros Hd He Hne. pose proof (attributes_size d from _ Hd) as Hsize.
  destruct He as ((el0 & Hel0 & Hok) & _).
  destruct (from_loop_spec e from (x :: l) Hne [] d el0 (size (d_attrs d)) Hd Hel0 Hok Hsize) as (d' & E & Hfrom & Hnew).
  exists d'. split; [|split; [done|split; [done|]]].
  - unfold lxb_html_tree_append_attributes_from_element. destruct Hd as ((elf & Helf & Hokf) & _). rewrite Helf.
    cbn [mbind option_bind]. by rewrite (eo_first _ _ Hokf).
  - assert (Hx : lookup_name (same_name d' e (e_name x)) (x :: l) = Some x).
    { rewrite lookup_name_cons. unfold same_name. destruct Hnew as ((el & -> & _) & _). unfold eq_nocase.
      destruct (html_element d' el); by rewrite bool_decide_true. }
    destruct (attr_remove_named d' e _ _ x Hnew Hx) as (d'' & E'' & _ & O & Hfree). exists d''. split.
    + unfold lxb_dom_element_remove_attribute. rewrite (by_name_spec d' e (x :: l)), Hx by done. exact E''.
    + destruct Hfrom as ((elf & Helf & Hokf) & _). rewrite <- (ao_nodes _ _ _ _ O) in Helf by done.
      unfold lxb_dom_element_get_attribute, lxb_dom_element_attr_by_name, find_first. rewrite Helf. cbn [mbind option_bind].
      rewrite (eo_first _ _ Hokf). cbn [app first_at]. destruct (size (d_attrs d'')), (html_element d'' elf); cbn [attr_loop]; by rewrite ?Hfree.
Qed.
End Shared.

(** ** The names of SVG attributes *)

(** A row of the table restores capitals: the new name is the old one up to case,
    and no row applies to a new name. *)
Definition svg_row_ok (row : string * string * Z) : bool :=
  let '(from, to, len) := row in
  bool_decide (map lower (bytes to) = bytes from) && (str_len (bytes from) =? len) &&
  forallb (fun row' => negb (bool_decide (bytes to = bytes (fst (fst row'))))) lxb_html_tree_res_attr_adjust_svg_map &&
  forallb (fun c => negb (c =? 0)) (bytes from).

Lemma svg_table_ok : forallb svg_row_ok lxb_html_tree_res_attr_adjust_svg_map = true.
Proof. vm_compute. reflexivity. Qed.

Lemma str_data_cmp_eq a b : length a = length b -> forallb (fun c => negb (c =? 0)) b = true ->
  str_data_cmp a b = bool_decide (a = b).
Proof.
  revert b. induction a as [|x a IH]; intros [|y b] Hl Hb; try done. cbn [forallb] in Hb. apply andb_true_iff in Hb as [Hy Hb].
  cbn [str_data_cmp hd]. destruct (x =? y) eqn:E; cbn [negb].
  - apply Z.eqb_eq in E as ->. apply negb_true_iff in Hy. rewrite Hy. rewrite IH by (done || (cbn in Hl; lia)).
    apply bool_decide_ext. split; [by intros -> | by intros [= ->]].
  - rewrite bool_decide_false; [done|]. intros [= -> _]. by rewrite Z.eqb_refl in E.
Qed.

(** The spelling of the first row for a name. *)
Definition spelling (rows : list (string * string * Z)) (name : list Z) : list Z :=
  match find (fun row => bool_decide (bytes (fst (fst row)) = name)) rows with
  | Some (_, to, _) => bytes to
  | None => name
  end.

Definition svg_name : list Z -> list Z := spelling lxb_html_tree_res_attr_adjust_svg_map.

Lemma named_row row a : svg_row_ok row = true -> named a (snd row) (fst (fst row)) = bool_decide (bytes (fst (fst row)) = name_of a).
Proof.
  destruct row as [[from to] len]. unfold svg_row_ok, named. cbn [fst snd]. rewrite !andb_true_iff. intros (((_ & Hl) & _) & Hz).
  apply Z.eqb_eq in Hl. subst len. unfold str_len. destruct (decide (length (name_of a) = length (bytes from))) as [E|E].
  - rewrite E, Z.eqb_refl. cbn [andb]. rewrite str_data_cmp_eq by done. apply bool_decide_ext. by split.
  - rewrite (proj2 (Z.eqb_neq _ _)) by lia. rewrite bool_decide_false; [done|]. intros H. by rewrite H in E.
Qed.

Lemma adjust_svg_rest rows a : forallb svg_row_ok rows = true ->
  (forall row, In row rows -> bytes (fst (fst row)) <> name_of a) -> adjust_svg_loop rows a = Some (LXB_STATUS_OK, a).
Proof.
  induction rows as [|[[from to] len] rows IH]; intros Hok Hne; [done|]. cbn [forallb] in Hok. apply andb_true_iff in Hok as [Hrow Hok].
  cbn [adjust_svg_loop]. rewrite (named_row (from, to, len)) by done.
  rewrite bool_decide_false by (apply (Hne (from, to, len)); by left). cbn [mbind option_bind].
  apply IH; [done|]. intros row Hin. apply Hne. by right.
Qed.

Lemma overwrite_all to name : length to = length name -> overwrite to name = Some to.
Proof. intros E. unfold overwrite. by rewrite E, Nat.leb_refl, drop_all, app_nil_r. Qed.

Lemma adjust_svg_rows rows a name : at_name a = Some name -> at_local_name a = Some name ->
  incl rows lxb_html_tree_res_attr_adjust_svg_map ->
  adjust_svg_loop rows a =
    Some (LXB_STATUS_OK, set_at_local_name (Some (spelling rows name)) (set_at_name (Some (spelling rows name)) a)) /\
  map lower (spelling rows name) = map lower name.
Proof.
  intros Hn Hl. assert (Hname : name_of a = name) by (unfold name_of; by rewrite Hn).
  pose proof (proj1 (forallb_forall _ _) svg_table_ok) as Hall.
  induction rows as [|row rows IH]; intros Hsub.
  { cbn. split; [|done]. f_equal. f_equal. destruct a; cbn in *. by rewrite Hn, Hl. }
  pose proof (Hall row (Hsub row (or_introl eq_refl))) as Hrow. pose proof (named_row row a Hrow) as Hnamed.
  destruct row as [[from to] len]. unfold spelling. cbn [adjust_svg_loop find fst snd] in *. rewrite Hnamed, Hname.
  clear Hnamed. destruct (decide (bytes from = name)) as [E|E];
    [rewrite (bool_decide_true _ E) | rewrite (bool_decide_false _ E); apply IH; intros x Hx; apply Hsub; by right].
  unfold svg_row_ok in Hrow. rewrite !andb_true_iff in Hrow. destruct Hrow as (((Hcase & _) & Hnone) & _).
  apply bool_decide_eq_true in Hcase. rewrite E in Hcase. split; [|by rewrite <- Hcase, map_lower_twice].
  assert (Hlen : length (bytes to) = length name) by (by rewrite <- Hcase, length_map).
  unfold rename. unfold local_of. rewrite Hname, Hl. cbn [default]. rewrite !overwrite_all by done. cbn [mbind option_bind].
  apply adjust_svg_rest; [|intros row Hin].
  - apply forallb_forall. intros row Hin. apply Hall, Hsub. by right.
  - rewrite forallb_forall in Hnone. specialize (Hnone row (Hsub row (or_intror Hin))).
    apply negb_true_iff, bool_decide_eq_false in Hnone. unfold name_of. cbn. congruence.
Qed.

(** The capitals of SVG attributes.  For an attribute without prefix,
    [lxb_html_tree_adjust_svg_attributes] answers OK and gives both names the
    spelling of the table's row for the name, if there is one: the loop, which
    goes on after a match, renames at most once, and the name stays the same up
    to case. *)
Theorem adjust_svg_spec a name : at_name a = Some name -> at_local_name a = Some name ->
  lxb_html_tree_adjust_svg_attributes a =
    Some (LXB_STATUS_OK, set_at_local_name (Some (svg_name name)) (set_at_name (Some (svg_name name)) a)) /\
  map lower (svg_name name) = map lower name.
Proof. intros Hn Hl. apply adjust_svg_rows; [done|done|]. by intros row. Qed.

(** ** At concrete inputs *)

Lemma adjust_svg_spec_witness :
  lxb_html_tree_adjust_svg_attributes (mk_dom_attr 0 (Some (bytes "viewbox")) (Some (bytes "viewbox")) None None None 0) =
    Some (LXB_STATUS_OK, mk_dom_attr 0 (Some (bytes "viewBox")) (Some (bytes "viewBox")) None None None 0).
Proof.
  rewrite (proj1 (adjust_svg_spec (mk_dom_attr 0 (Some (bytes "viewbox")) (Some (bytes "viewbox")) None None None 0)
    (bytes "viewbox") eq_refl eq_refl)). vm_compute. reflexivity.
Defined.

(** The attribute [A=&lt] of [cut_attr] on the element of [example_dom]. *)
Lemma append_attributes_spec_witness : exists d' l',
  lxb_html_tree_append_attributes (in_nodes two_buffers) (cut_memory "A&lt>") next_key None example_dom 1
    (mk_token 0 0 None [cut_attr] 0 0 0) LXB_NS_HTML = Some (LXB_STATUS_OK, d') /\
  attributes d' 1 l' /\ pairs l' = pairs example_entries ++ [([0x61], Some [0x3C])].
Proof.
  destruct (append_attributes_spec (in_nodes two_buffers) (cut_memory "A&lt>") [1; 2]%positive eq_refl next_key next_key_fresh
    example_dom 1 (mk_token 0 0 None [cut_attr] 0 0 0) LXB_NS_HTML example_entries [([0x41], Some [0x26; 0x6C; 0x74])])
    as (d' & l' & E & Hd' & Hl & _).
  - apply example_attributes.
  - constructor; [|constructor]. split.
    + split; [done|]. exists 1%positive, 1%positive, 1%positive, node_1, node_1, node_1.
      repeat (split; [reflexivity|]). split; [apply first_span; cbn; lia | vm_compute; reflexivity].
    + split; [done|]. exists 1%positive, 1%positive, 2%positive, node_1, node_1, node_2.
      repeat (split; [reflexivity|]). split; [apply cut_span; cbn; lia | vm_compute; reflexivity].
  - exists d', (example_entries ++ l'). split; [exact E|]. split; [exact Hd'|]. rewrite Hl. vm_compute. reflexivity.
Defined.

(** [example_dom] with a new element [2]. *)
Lemma attributes_from_element_shared_witness : exists d' d'',
  lxb_html_tree_append_attributes_from_element next_key None
    (with_nodes (<[2%positive := linked None None None None None LXB_DOM_NODE_TYPE_ELEMENT []]> (d_nodes example_dom)) example_dom) 2 1 =
      Some (LXB_STATUS_OK, d') /\
  lxb_dom_element_remove_attribute d' 2 (bytes "class") = Some (LXB_STATUS_OK, d'') /\
  lxb_dom_element_get_attribute d'' 1 (bytes "id") = None.
Proof.
  edestruct (attributes_from_element_shared next_key next_key_fresh) with (x := mk_entry 7 (bytes "class") (Some (bytes "a")))
    (l := [mk_entry 8 (bytes "id") (Some (bytes "b"))]) (name := bytes "id") as (d' & E & _ & _ & d'' & E' & Hdangling);
    [| | | exists d', d''; split; [exact E | split; [exact E' | exact Hdangling]]].
  - destruct example_attributes as ((el & Hel & Hok) & Hrest). split; [|exact Hrest]. exists el.
    split; [|done]. cbn. by rewrite lookup_insert_ne.
  - split; [eexists; split; [reflexivity | by split]|]. split; [done|]. split; constructor.
  - done.
Defined.
