(* ===== verification/TagCat.v ===== *)
(** * Categories of tags: [html/tag.h], [html/tag_res.h]

    The generated table of the categories of every tag in every namespace, its
    lookup, and that the scope categories are the lists of section 13.2.4.2 of the
    HTML standard. *)
From S2P Require Import Prelude.
From S2P Require Import Tag.
From S2P Require Import TkzBase.
From S2P Require Import DomAttr.

(** [lxb_html_tag_category] *)
Definition LXB_HTML_TAG_CATEGORY__UNDEF : Z := 0x0000.
Definition LXB_HTML_TAG_CATEGORY_ORDINARY : Z := 0x0001.
Definition LXB_HTML_TAG_CATEGORY_SPECIAL : Z := 0x0002.
Definition LXB_HTML_TAG_CATEGORY_FORMATTING : Z := 0x0004.
Definition LXB_HTML_TAG_CATEGORY_SCOPE : Z := 0x0008.
Definition LXB_HTML_TAG_CATEGORY_SCOPE_LIST_ITEM : Z := 0x0010.
Definition LXB_HTML_TAG_CATEGORY_SCOPE_BUTTON : Z := 0x0020.
Definition LXB_HTML_TAG_CATEGORY_SCOPE_TABLE : Z := 0x0040.
Definition LXB_HTML_TAG_CATEGORY_SCOPE_SELECT : Z := 0x0080.

(** ** The table: a row per tag id, a column per namespace id *)

Definition tag_cats_0 : list (list Z) := [
  [0x00; 0x00; 0x81; 0x00; 0x00; 0x00; 0x00; 0x00] (* _UNDEF *);
  [0x00; 0x00; 0x81; 0x00; 0x00; 0x00; 0x00; 0x00] (* _END_OF_FILE *);
  [0x00; 0x00; 0x81; 0x81; 0x81; 0x00; 0x00; 0x00] (* _TEXT *);
  [0x00; 0x00; 0x81; 0x00; 0x00; 0x00; 0x00; 0x00] (* _DOCUMENT *);
  [0x00; 0x00; 0x81; 0x81; 0x81; 0x00; 0x00; 0x00] (* _EM_COMMENT *);
  [0x00; 0x00; 0x81; 0x00; 0x00; 0x00; 0x00; 0x00] (* _EM_DOCTYPE *);
  [0x00; 0x00; 0x84; 0x00; 0x00; 0x00; 0x00; 0x00] (* A *);
  [0x00; 0x00; 0x81; 0x00; 0x00; 0x00; 0x00; 0x00] (* ABBR *);
  [0x00; 0x00; 0x81; 0x00; 0x00; 0x00; 0x00; 0x00] (* ACRONYM *);
  [0x00; 0x00; 0x82; 0x00; 0x00; 0x00; 0x00; 0x00] (* ADDRESS *);
  [0x00; 0x00; 0x00; 0x00; 0x81; 0x00; 0x00; 0x00] (* ALTGLYPH *);
  [0x00; 0x00; 0x00; 0x00; 0x81; 0x00; 0x00; 0x00] (* ALTGLYPHDEF *);
  [0x00; 0x00; 0x00; 0x00; 0x81; 0x00; 0x00; 0x00] (* ALTGLYPHITEM *);
  [0x00; 0x00; 0x00; 0x00; 0x81; 0x00; 0x00; 0x00] (* ANIMATECOLOR *)].

Definition tag_cats_1 : list (list Z) := [
  [0x00; 0x00; 0x00; 0x00; 0x81; 0x00; 0x00; 0x00] (* ANIMATEMOTION *);
  [0x00; 0x00; 0x00; 0x00; 0x81; 0x00; 0x00; 0x00] (* ANIMATETRANSFORM *);
  [0x00; 0x00; 0x00; 0xba; 0x00; 0x00; 0x00; 0x00] (* ANNOTATION_XML *);
  [0x00; 0x00; 0xba; 0x00; 0x00; 0x00; 0x00; 0x00] (* APPLET *);
  [0x00; 0x00; 0x82; 0x00; 0x00; 0x00; 0x00; 0x00] (* AREA *);
  [0x00; 0x00; 0x82; 0x00; 0x00; 0x00; 0x00; 0x00] (* ARTICLE *);
  [0x00; 0x00; 0x82; 0x00; 0x00; 0x00; 0x00; 0x00] (* ASIDE *);
  [0x00; 0x00; 0x81; 0x00; 0x00; 0x00; 0x00; 0x00] (* AUDIO *);
  [0x00; 0x00; 0x84; 0x00; 0x00; 0x00; 0x00; 0x00] (* B *);
  [0x00; 0x00; 0x82; 0x00; 0x00; 0x00; 0x00; 0x00] (* BASE *);
  [0x00; 0x00; 0x82; 0x00; 0x00; 0x00; 0x00; 0x00] (* BASEFONT *);
  [0x00; 0x00; 0x81; 0x00; 0x00; 0x00; 0x00; 0x00] (* BDI *);
  [0x00; 0x00; 0x81; 0x00; 0x00; 0x00; 0x00; 0x00] (* BDO *);
  [0x00; 0x00; 0x82; 0x00; 0x00; 0x00; 0x00; 0x00] (* BGSOUND *)].

Definition tag_cats_2 : list (list Z) := [
  [0x00; 0x00; 0x84; 0x00; 0x00; 0x00; 0x00; 0x00] (* BIG *);
  [0x00; 0x00; 0x81; 0x00; 0x00; 0x00; 0x00; 0x00] (* BLINK *);
  [0x00; 0x00; 0x82; 0x00; 0x00; 0x00; 0x00; 0x00] (* BLOCKQUOTE *);
  [0x00; 0x00; 0x82; 0x00; 0x00; 0x00; 0x00; 0x00] (* BODY *);
  [0x00; 0x00; 0x82; 0x00; 0x00; 0x00; 0x00; 0x00] (* BR *);
  [0x00; 0x00; 0xa2; 0x00; 0x00; 0x00; 0x00; 0x00] (* BUTTON *);
  [0x00; 0x00; 0x81; 0x00; 0x00; 0x00; 0x00; 0x00] (* CANVAS *);
  [0x00; 0x00; 0xba; 0x00; 0x00; 0x00; 0x00; 0x00] (* CAPTION *);
  [0x00; 0x00; 0x82; 0x00; 0x00; 0x00; 0x00; 0x00] (* CENTER *);
  [0x00; 0x00; 0x81; 0x00; 0x00; 0x00; 0x00; 0x00] (* CITE *);
  [0x00; 0x00; 0x00; 0x00; 0x81; 0x00; 0x00; 0x00] (* CLIPPATH *);
  [0x00; 0x00; 0x84; 0x00; 0x00; 0x00; 0x00; 0x00] (* CODE *);
  [0x00; 0x00; 0x82; 0x00; 0x00; 0x00; 0x00; 0x00] (* COL *);
  [0x00; 0x00; 0x82; 0x00; 0x00; 0x00; 0x00; 0x00] (* COLGROUP *)].

Definition tag_cats_3 : list (list Z) := [
  [0x00; 0x00; 0x81; 0x00; 0x00; 0x00; 0x00; 0x00] (* DATA *);
  [0x00; 0x00; 0x81; 0x00; 0x00; 0x00; 0x00; 0x00] (* DATALIST *);
  [0x00; 0x00; 0x82; 0x00; 0x00; 0x00; 0x00; 0x00] (* DD *);
  [0x00; 0x00; 0x81; 0x00; 0x00; 0x00; 0x00; 0x00] (* DEL *);
  [0x00; 0x00; 0x00; 0x00; 0xba; 0x00; 0x00; 0x00] (* DESC *);
  [0x00; 0x00; 0x82; 0x00; 0x00; 0x00; 0x00; 0x00] (* DETAILS *);
  [0x00; 0x00; 0x81; 0x00; 0x00; 0x00; 0x00; 0x00] (* DFN *);
  [0x00; 0x00; 0x81; 0x00; 0x00; 0x00; 0x00; 0x00] (* DIALOG *);
  [0x00; 0x00; 0x82; 0x00; 0x00; 0x00; 0x00; 0x00] (* DIR *);
  [0x00; 0x00; 0x82; 0x00; 0x00; 0x00; 0x00; 0x00] (* DIV *);
  [0x00; 0x00; 0x82; 0x00; 0x00; 0x00; 0x00; 0x00] (* DL *);
  [0x00; 0x00; 0x82; 0x00; 0x00; 0x00; 0x00; 0x00] (* DT *);
  [0x00; 0x00; 0x84; 0x00; 0x00; 0x00; 0x00; 0x00] (* EM *);
  [0x00; 0x00; 0x82; 0x00; 0x00; 0x00; 0x00; 0x00] (* EMBED *)].

Definition tag_cats_4 : list (list Z) := [
  [0x00; 0x00; 0x00; 0x00; 0x81; 0x00; 0x00; 0x00] (* FEBLEND *);
  [0x00; 0x00; 0x00; 0x00; 0x81; 0x00; 0x00; 0x00] (* FECOLORMATRIX *);
  [0x00; 0x00; 0x00; 0x00; 0x81; 0x00; 0x00; 0x00] (* FECOMPONENTTRANSFER *);
  [0x00; 0x00; 0x00; 0x00; 0x81; 0x00; 0x00; 0x00] (* FECOMPOSITE *);
  [0x00; 0x00; 0x00; 0x00; 0x81; 0x00; 0x00; 0x00] (* FECONVOLVEMATRIX *);
  [0x00; 0x00; 0x00; 0x00; 0x81; 0x00; 0x00; 0x00] (* FEDIFFUSELIGHTING *);
  [0x00; 0x00; 0x00; 0x00; 0x81; 0x00; 0x00; 0x00] (* FEDISPLACEMENTMAP *);
  [0x00; 0x00; 0x00; 0x00; 0x81; 0x00; 0x00; 0x00] (* FEDISTANTLIGHT *);
  [0x00; 0x00; 0x00; 0x00; 0x81; 0x00; 0x00; 0x00] (* FEDROPSHADOW *);
  [0x00; 0x00; 0x00; 0x00; 0x81; 0x00; 0x00; 0x00] (* FEFLOOD *);
  [0x00; 0x00; 0x00; 0x00; 0x81; 0x00; 0x00; 0x00] (* FEFUNCA *);
  [0x00; 0x00; 0x00; 0x00; 0x81; 0x00; 0x00; 0x00] (* FEFUNCB *);
  [0x00; 0x00; 0x00; 0x00; 0x81; 0x00; 0x00; 0x00] (* FEFUNCG *);
  [0x00; 0x00; 0x00; 0x00; 0x81; 0x00; 0x00; 0x00] (* FEFUNCR *)].

Definition tag_cats_5 : list (list Z) := [
  [0x00; 0x00; 0x00; 0x00; 0x81; 0x00; 0x00; 0x00] (* FEGAUSSIANBLUR *);
  [0x00; 0x00; 0x00; 0x00; 0x81; 0x00; 0x00; 0x00] (* FEIMAGE *);
  [0x00; 0x00; 0x00; 0x00; 0x81; 0x00; 0x00; 0x00] (* FEMERGE *);
  [0x00; 0x00; 0x00; 0x00; 0x81; 0x00; 0x00; 0x00] (* FEMERGENODE *);
  [0x00; 0x00; 0x00; 0x00; 0x81; 0x00; 0x00; 0x00] (* FEMORPHOLOGY *);
  [0x00; 0x00; 0x00; 0x00; 0x81; 0x00; 0x00; 0x00] (* FEOFFSET *);
  [0x00; 0x00; 0x00; 0x00; 0x81; 0x00; 0x00; 0x00] (* FEPOINTLIGHT *);
  [0x00; 0x00; 0x00; 0x00; 0x81; 0x00; 0x00; 0x00] (* FESPECULARLIGHTING *);
  [0x00; 0x00; 0x00; 0x00; 0x81; 0x00; 0x00; 0x00] (* FESPOTLIGHT *);
  [0x00; 0x00; 0x00; 0x00; 0x81; 0x00; 0x00; 0x00] (* FETILE *);
  [0x00; 0x00; 0x00; 0x00; 0x81; 0x00; 0x00; 0x00] (* FETURBULENCE *);
  [0x00; 0x00; 0x82; 0x00; 0x00; 0x00; 0x00; 0x00] (* FIELDSET *);
  [0x00; 0x00; 0x82; 0x00; 0x00; 0x00; 0x00; 0x00] (* FIGCAPTION *);
  [0x00; 0x00; 0x82; 0x00; 0x00; 0x00; 0x00; 0x00] (* FIGURE *)].

Definition tag_cats_6 : list (list Z) := [
  [0x00; 0x00; 0x84; 0x00; 0x00; 0x00; 0x00; 0x00] (* FONT *);
  [0x00; 0x00; 0x82; 0x00; 0x00; 0x00; 0x00; 0x00] (* FOOTER *);
  [0x00; 0x00; 0x00; 0x00; 0xba; 0x00; 0x00; 0x00] (* FOREIGNOBJECT *);
  [0x00; 0x00; 0x82; 0x00; 0x00; 0x00; 0x00; 0x00] (* FORM *);
  [0x00; 0x00; 0x82; 0x00; 0x00; 0x00; 0x00; 0x00] (* FRAME *);
  [0x00; 0x00; 0x82; 0x00; 0x00; 0x00; 0x00; 0x00] (* FRAMESET *);
  [0x00; 0x00; 0x00; 0x00; 0x81; 0x00; 0x00; 0x00] (* GLYPHREF *);
  [0x00; 0x00; 0x82; 0x00; 0x00; 0x00; 0x00; 0x00] (* H1 *);
  [0x00; 0x00; 0x82; 0x00; 0x00; 0x00; 0x00; 0x00] (* H2 *);
  [0x00; 0x00; 0x82; 0x00; 0x00; 0x00; 0x00; 0x00] (* H3 *);
  [0x00; 0x00; 0x82; 0x00; 0x00; 0x00; 0x00; 0x00] (* H4 *);
  [0x00; 0x00; 0x82; 0x00; 0x00; 0x00; 0x00; 0x00] (* H5 *);
  [0x00; 0x00; 0x82; 0x00; 0x00; 0x00; 0x00; 0x00] (* H6 *);
  [0x00; 0x00; 0x82; 0x00; 0x00; 0x00; 0x00; 0x00] (* HEAD *)].

Definition tag_cats_7 : list (list Z) := [
  [0x00; 0x00; 0x82; 0x00; 0x00; 0x00; 0x00; 0x00] (* HEADER *);
  [0x00; 0x00; 0x82; 0x00; 0x00; 0x00; 0x00; 0x00] (* HGROUP *);
  [0x00; 0x00; 0x82; 0x00; 0x00; 0x00; 0x00; 0x00] (* HR *);
  [0x00; 0x00; 0xfa; 0x00; 0x00; 0x00; 0x00; 0x00] (* HTML *);
  [0x00; 0x00; 0x84; 0x00; 0x00; 0x00; 0x00; 0x00] (* I *);
  [0x00; 0x00; 0x82; 0x00; 0x00; 0x00; 0x00; 0x00] (* IFRAME *);
  [0x00; 0x00; 0x82; 0x00; 0x00; 0x00; 0x00; 0x00] (* IMAGE *);
  [0x00; 0x00; 0x82; 0x00; 0x00; 0x00; 0x00; 0x00] (* IMG *);
  [0x00; 0x00; 0x82; 0x00; 0x00; 0x00; 0x00; 0x00] (* INPUT *);
  [0x00; 0x00; 0x81; 0x00; 0x00; 0x00; 0x00; 0x00] (* INS *);
  [0x00; 0x00; 0x81; 0x00; 0x00; 0x00; 0x00; 0x00] (* ISINDEX *);
  [0x00; 0x00; 0x81; 0x00; 0x00; 0x00; 0x00; 0x00] (* KBD *);
  [0x00; 0x00; 0x82; 0x00; 0x00; 0x00; 0x00; 0x00] (* KEYGEN *);
  [0x00; 0x00; 0x81; 0x00; 0x00; 0x00; 0x00; 0x00] (* LABEL *)].

Definition tag_cats_8 : list (list Z) := [
  [0x00; 0x00; 0x81; 0x00; 0x00; 0x00; 0x00; 0x00] (* LEGEND *);
  [0x00; 0x00; 0x82; 0x00; 0x00; 0x00; 0x00; 0x00] (* LI *);
  [0x00; 0x00; 0x00; 0x00; 0x81; 0x00; 0x00; 0x00] (* LINEARGRADIENT *);
  [0x00; 0x00; 0x82; 0x00; 0x00; 0x00; 0x00; 0x00] (* LINK *);
  [0x00; 0x00; 0x82; 0x00; 0x00; 0x00; 0x00; 0x00] (* LISTING *);
  [0x00; 0x00; 0x82; 0x00; 0x00; 0x00; 0x00; 0x00] (* MAIN *);
  [0x00; 0x00; 0x00; 0x01; 0x00; 0x00; 0x00; 0x00] (* MALIGNMARK *);
  [0x00; 0x00; 0x81; 0x00; 0x00; 0x00; 0x00; 0x00] (* MAP *);
  [0x00; 0x00; 0x81; 0x00; 0x00; 0x00; 0x00; 0x00] (* MARK *);
  [0x00; 0x00; 0xba; 0x00; 0x00; 0x00; 0x00; 0x00] (* MARQUEE *);
  [0x00; 0x00; 0x00; 0x81; 0x00; 0x00; 0x00; 0x00] (* MATH *);
  [0x00; 0x00; 0x82; 0x00; 0x00; 0x00; 0x00; 0x00] (* MENU *);
  [0x00; 0x00; 0x82; 0x00; 0x00; 0x00; 0x00; 0x00] (* META *);
  [0x00; 0x00; 0x81; 0x00; 0x00; 0x00; 0x00; 0x00] (* METER *)].

Definition tag_cats_9 : list (list Z) := [
  [0x00; 0x00; 0x00; 0x81; 0x00; 0x00; 0x00; 0x00] (* MFENCED *);
  [0x00; 0x00; 0x00; 0x01; 0x00; 0x00; 0x00; 0x00] (* MGLYPH *);
  [0x00; 0x00; 0x00; 0xba; 0x00; 0x00; 0x00; 0x00] (* MI *);
  [0x00; 0x00; 0x00; 0xba; 0x00; 0x00; 0x00; 0x00] (* MN *);
  [0x00; 0x00; 0x00; 0xba; 0x00; 0x00; 0x00; 0x00] (* MO *);
  [0x00; 0x00; 0x00; 0xba; 0x00; 0x00; 0x00; 0x00] (* MS *);
  [0x00; 0x00; 0x00; 0xba; 0x00; 0x00; 0x00; 0x00] (* MTEXT *);
  [0x00; 0x00; 0x81; 0x00; 0x00; 0x00; 0x00; 0x00] (* MULTICOL *);
  [0x00; 0x00; 0x82; 0x00; 0x00; 0x00; 0x00; 0x00] (* NAV *);
  [0x00; 0x00; 0x81; 0x00; 0x00; 0x00; 0x00; 0x00] (* NEXTID *);
  [0x00; 0x00; 0x84; 0x00; 0x00; 0x00; 0x00; 0x00] (* NOBR *);
  [0x00; 0x00; 0x82; 0x00; 0x00; 0x00; 0x00; 0x00] (* NOEMBED *);
  [0x00; 0x00; 0x82; 0x00; 0x00; 0x00; 0x00; 0x00] (* NOFRAMES *);
  [0x00; 0x00; 0x82; 0x00; 0x00; 0x00; 0x00; 0x00] (* NOSCRIPT *)].

Definition tag_cats_10 : list (list Z) := [
  [0x00; 0x00; 0xba; 0x00; 0x00; 0x00; 0x00; 0x00] (* OBJECT *);
  [0x00; 0x00; 0x92; 0x00; 0x00; 0x00; 0x00; 0x00] (* OL *);
  [0x00; 0x00; 0x01; 0x00; 0x00; 0x00; 0x00; 0x00] (* OPTGROUP *);
  [0x00; 0x00; 0x01; 0x00; 0x00; 0x00; 0x00; 0x00] (* OPTION *);
  [0x00; 0x00; 0x81; 0x00; 0x00; 0x00; 0x00; 0x00] (* OUTPUT *);
  [0x00; 0x00; 0x82; 0x00; 0x00; 0x00; 0x00; 0x00] (* P *);
  [0x00; 0x00; 0x82; 0x00; 0x00; 0x00; 0x00; 0x00] (* PARAM *);
  [0x00; 0x00; 0x00; 0x00; 0x81; 0x00; 0x00; 0x00] (* PATH *);
  [0x00; 0x00; 0x81; 0x00; 0x00; 0x00; 0x00; 0x00] (* PICTURE *);
  [0x00; 0x00; 0x82; 0x00; 0x00; 0x00; 0x00; 0x00] (* PLAINTEXT *);
  [0x00; 0x00; 0x82; 0x00; 0x00; 0x00; 0x00; 0x00] (* PRE *);
  [0x00; 0x00; 0x81; 0x00; 0x00; 0x00; 0x00; 0x00] (* PROGRESS *);
  [0x00; 0x00; 0x81; 0x00; 0x00; 0x00; 0x00; 0x00] (* Q *);
  [0x00; 0x00; 0x00; 0x00; 0x81; 0x00; 0x00; 0x00] (* RADIALGRADIENT *)].

Definition tag_cats_11 : list (list Z) := [
  [0x00; 0x00; 0x81; 0x00; 0x00; 0x00; 0x00; 0x00] (* RB *);
  [0x00; 0x00; 0x81; 0x00; 0x00; 0x00; 0x00; 0x00] (* RP *);
  [0x00; 0x00; 0x81; 0x00; 0x00; 0x00; 0x00; 0x00] (* RT *);
  [0x00; 0x00; 0x81; 0x00; 0x00; 0x00; 0x00; 0x00] (* RTC *);
  [0x00; 0x00; 0x81; 0x00; 0x00; 0x00; 0x00; 0x00] (* RUBY *);
  [0x00; 0x00; 0x84; 0x00; 0x00; 0x00; 0x00; 0x00] (* S *);
  [0x00; 0x00; 0x81; 0x00; 0x00; 0x00; 0x00; 0x00] (* SAMP *);
  [0x00; 0x00; 0x82; 0x00; 0x00; 0x00; 0x00; 0x00] (* SCRIPT *);
  [0x00; 0x00; 0x82; 0x00; 0x00; 0x00; 0x00; 0x00] (* SECTION *);
  [0x00; 0x00; 0x82; 0x00; 0x00; 0x00; 0x00; 0x00] (* SELECT *);
  [0x00; 0x00; 0x81; 0x00; 0x00; 0x00; 0x00; 0x00] (* SLOT *);
  [0x00; 0x00; 0x84; 0x00; 0x00; 0x00; 0x00; 0x00] (* SMALL *);
  [0x00; 0x00; 0x82; 0x00; 0x00; 0x00; 0x00; 0x00] (* SOURCE *);
  [0x00; 0x00; 0x81; 0x00; 0x00; 0x00; 0x00; 0x00] (* SPACER *)].

Definition tag_cats_12 : list (list Z) := [
  [0x00; 0x00; 0x81; 0x00; 0x00; 0x00; 0x00; 0x00] (* SPAN *);
  [0x00; 0x00; 0x84; 0x00; 0x00; 0x00; 0x00; 0x00] (* STRIKE *);
  [0x00; 0x00; 0x84; 0x00; 0x00; 0x00; 0x00; 0x00] (* STRONG *);
  [0x00; 0x00; 0x82; 0x00; 0x00; 0x00; 0x00; 0x00] (* STYLE *);
  [0x00; 0x00; 0x81; 0x00; 0x00; 0x00; 0x00; 0x00] (* SUB *);
  [0x00; 0x00; 0x82; 0x00; 0x00; 0x00; 0x00; 0x00] (* SUMMARY *);
  [0x00; 0x00; 0x81; 0x00; 0x00; 0x00; 0x00; 0x00] (* SUP *);
  [0x00; 0x00; 0x00; 0x00; 0x81; 0x00; 0x00; 0x00] (* SVG *);
  [0x00; 0x00; 0xfa; 0x00; 0x00; 0x00; 0x00; 0x00] (* TABLE *);
  [0x00; 0x00; 0x82; 0x00; 0x00; 0x00; 0x00; 0x00] (* TBODY *);
  [0x00; 0x00; 0xba; 0x00; 0x00; 0x00; 0x00; 0x00] (* TD *);
  [0x00; 0x00; 0xfa; 0x00; 0x00; 0x00; 0x00; 0x00] (* TEMPLATE *);
  [0x00; 0x00; 0x82; 0x00; 0x00; 0x00; 0x00; 0x00] (* TEXTAREA *);
  [0x00; 0x00; 0x00; 0x00; 0x81; 0x00; 0x00; 0x00] (* TEXTPATH *)].

Definition tag_cats_13 : list (list Z) := [
  [0x00; 0x00; 0x82; 0x00; 0x00; 0x00; 0x00; 0x00] (* TFOOT *);
  [0x00; 0x00; 0xba; 0x00; 0x00; 0x00; 0x00; 0x00] (* TH *);
  [0x00; 0x00; 0x82; 0x00; 0x00; 0x00; 0x00; 0x00] (* THEAD *);
  [0x00; 0x00; 0x81; 0x00; 0x00; 0x00; 0x00; 0x00] (* TIME *);
  [0x00; 0x00; 0x82; 0x00; 0xba; 0x00; 0x00; 0x00] (* TITLE *);
  [0x00; 0x00; 0x82; 0x00; 0x00; 0x00; 0x00; 0x00] (* TR *);
  [0x00; 0x00; 0x82; 0x00; 0x00; 0x00; 0x00; 0x00] (* TRACK *);
  [0x00; 0x00; 0x84; 0x00; 0x00; 0x00; 0x00; 0x00] (* TT *);
  [0x00; 0x00; 0x84; 0x00; 0x00; 0x00; 0x00; 0x00] (* U *);
  [0x00; 0x00; 0x92; 0x00; 0x00; 0x00; 0x00; 0x00] (* UL *);
  [0x00; 0x00; 0x81; 0x00; 0x00; 0x00; 0x00; 0x00] (* VAR *);
  [0x00; 0x00; 0x81; 0x00; 0x00; 0x00; 0x00; 0x00] (* VIDEO *);
  [0x00; 0x00; 0x82; 0x00; 0x00; 0x00; 0x00; 0x00] (* WBR *);
  [0x00; 0x00; 0x82; 0x00; 0x00; 0x00; 0x00; 0x00] (* XMP *)].

Definition lxb_html_tag_res_cats : list (list Z) :=
  tag_cats_0 ++ tag_cats_1 ++ tag_cats_2 ++ tag_cats_3 ++ tag_cats_4 ++ tag_cats_5 ++ tag_cats_6 ++
  tag_cats_7 ++ tag_cats_8 ++ tag_cats_9 ++ tag_cats_10 ++ tag_cats_11 ++ tag_cats_12 ++ tag_cats_13.

(** [tag/const.h]: the tags the tree builder asks for. *)
Definition LXB_TAG_ANNOTATION_XML : Z := 0x0010.
Definition LXB_TAG_APPLET : Z := 0x0011.
Definition LXB_TAG_BODY : Z := 0x001f.
Definition LXB_TAG_BUTTON : Z := 0x0021.
Definition LXB_TAG_CAPTION : Z := 0x0023.
Definition LXB_TAG_COLGROUP : Z := 0x0029.
Definition LXB_TAG_DD : Z := 0x002c.
Definition LXB_TAG_DESC : Z := 0x002e.
Definition LXB_TAG_DT : Z := 0x0035.
Definition LXB_TAG_FOREIGNOBJECT : Z := 0x0056.
Definition LXB_TAG_FRAMESET : Z := 0x0059.
Definition LXB_TAG_H1 : Z := 0x005b.
Definition LXB_TAG_H2 : Z := 0x005c.
Definition LXB_TAG_H3 : Z := 0x005d.
Definition LXB_TAG_H4 : Z := 0x005e.
Definition LXB_TAG_H5 : Z := 0x005f.
Definition LXB_TAG_H6 : Z := 0x0060.
Definition LXB_TAG_HEAD : Z := 0x0061.
Definition LXB_TAG_HTML : Z := 0x0065.
Definition LXB_TAG_LI : Z := 0x0071.
Definition LXB_TAG_MALIGNMARK : Z := 0x0076.
Definition LXB_TAG_MARQUEE : Z := 0x0079.
Definition LXB_TAG_MGLYPH : Z := 0x007f.
Definition LXB_TAG_MI : Z := 0x0080.
Definition LXB_TAG_MN : Z := 0x0081.
Definition LXB_TAG_MO : Z := 0x0082.
Definition LXB_TAG_MS : Z := 0x0083.
Definition LXB_TAG_MTEXT : Z := 0x0084.
Definition LXB_TAG_OBJECT : Z := 0x008c.
Definition LXB_TAG_OL : Z := 0x008d.
Definition LXB_TAG_OPTGROUP : Z := 0x008e.
Definition LXB_TAG_OPTION : Z := 0x008f.
Definition LXB_TAG_RB : Z := 0x009a.
Definition LXB_TAG_RP : Z := 0x009b.
Definition LXB_TAG_RT : Z := 0x009c.
Definition LXB_TAG_RTC : Z := 0x009d.
Definition LXB_TAG_SELECT : Z := 0x00a3.
Definition LXB_TAG_SVG : Z := 0x00af.
Definition LXB_TAG_TABLE : Z := 0x00b0.
Definition LXB_TAG_TBODY : Z := 0x00b1.
Definition LXB_TAG_TD : Z := 0x00b2.
Definition LXB_TAG_TEMPLATE : Z := 0x00b3.
Definition LXB_TAG_TFOOT : Z := 0x00b6.
Definition LXB_TAG_TH : Z := 0x00b7.
Definition LXB_TAG_THEAD : Z := 0x00b8.
Definition LXB_TAG_TR : Z := 0x00bb.
Definition LXB_TAG_UL : Z := 0x00bf.

Definition LXB_NS__LAST_ENTRY : Z := 0x08.

Definition lxb_html_tag_is_category (tag_id ns cat : Z) : bool :=
  if (tag_id <? LXB_TAG__LAST_ENTRY) && (ns <? LXB_NS__LAST_ENTRY) then
    negb (Z.land (nth (Z.to_nat ns) (nth (Z.to_nat tag_id) lxb_html_tag_res_cats []) 0) cat =? 0)
  else negb (Z.land (Z.lor LXB_HTML_TAG_CATEGORY_ORDINARY LXB_HTML_TAG_CATEGORY_SCOPE_SELECT) cat =? 0).

(** ** The scopes of the standard *)

Definition html_one_of (tags : list Z) (tag_id ns : Z) : bool := (ns =? LXB_NS_HTML) && one_of tag_id tags.

(** "The element types" of "has a particular element in scope". *)
Definition standard_scope (tag_id ns : Z) : bool :=
  html_one_of [LXB_TAG_APPLET; LXB_TAG_CAPTION; LXB_TAG_HTML; LXB_TAG_TABLE; LXB_TAG_TD; LXB_TAG_TH;
               LXB_TAG_MARQUEE; LXB_TAG_OBJECT; LXB_TAG_TEMPLATE] tag_id ns ||
  (ns =? LXB_NS_MATH) && one_of tag_id [LXB_TAG_MI; LXB_TAG_MO; LXB_TAG_MN; LXB_TAG_MS; LXB_TAG_MTEXT; LXB_TAG_ANNOTATION_XML] ||
  (ns =? LXB_NS_SVG) && one_of tag_id [LXB_TAG_FOREIGNOBJECT; LXB_TAG_DESC; LXB_TAG_TITLE].

Definition standard_list_item_scope (tag_id ns : Z) : bool :=
  standard_scope tag_id ns || html_one_of [LXB_TAG_OL; LXB_TAG_UL] tag_id ns.
Definition standard_button_scope (tag_id ns : Z) : bool :=
  standard_scope tag_id ns || html_one_of [LXB_TAG_BUTTON] tag_id ns.
Definition standard_table_scope (tag_id ns : Z) : bool :=
  html_one_of [LXB_TAG_HTML; LXB_TAG_TABLE; LXB_TAG_TEMPLATE] tag_id ns.

Definition id_range (n : Z) : list Z := map Z.of_nat (seq 0 (Z.to_nat n)).

Lemma in_id_range x n : 0 <= x < n -> In x (id_range n).
Proof. intros H. apply in_map_iff. exists (Z.to_nat x). rewrite in_seq. lia. Qed.

(** Two tests agree on the table, and outside it neither holds. *)
Lemma category_eq cat (std : Z -> Z -> bool) :
  forallb (fun tag => forallb (fun ns => eqb (lxb_html_tag_is_category tag ns cat) (std tag ns)) (id_range LXB_NS__LAST_ENTRY))
    (id_range LXB_TAG__LAST_ENTRY) = true ->
  Z.land (Z.lor LXB_HTML_TAG_CATEGORY_ORDINARY LXB_HTML_TAG_CATEGORY_SCOPE_SELECT) cat = 0 ->
  (forall tag ns, LXB_TAG__LAST_ENTRY <= tag \/ LXB_NS__LAST_ENTRY <= ns -> std tag ns = false) ->
  forall tag ns, 0 <= tag -> 0 <= ns -> lxb_html_tag_is_category tag ns cat = std tag ns.
Proof.
  intros Htable Hcat Hout tag ns Ht Hn.
  destruct (decide (LXB_TAG__LAST_ENTRY <= tag \/ LXB_NS__LAST_ENTRY <= ns)) as [Hge|Hlt].
  - rewrite Hout by done. unfold lxb_html_tag_is_category.
    assert ((tag <? LXB_TAG__LAST_ENTRY) && (ns <? LXB_NS__LAST_ENTRY) = false) as -> by (by rewrite andb_false_iff, !Z.ltb_ge). by rewrite Hcat.
  - rewrite forallb_forall in Htable. specialize (Htable tag (in_id_range tag LXB_TAG__LAST_ENTRY ltac:(lia))).
    rewrite forallb_forall in Htable. apply eqb_prop, (Htable ns), in_id_range. lia.
Qed.

(** A list of ids of the table. *)
Lemma one_of_above tag tags : LXB_TAG__LAST_ENTRY <= tag -> forallb (fun x => x <? LXB_TAG__LAST_ENTRY) tags = true ->
  one_of tag tags = false.
Proof.
  intros Ht H. apply not_true_is_false. intros Hin%one_of_true. rewrite forallb_forall in H.
  apply H, Z.ltb_lt in Hin. lia.
Qed.

Ltac outside := intros tag ns [Ht|Hn];
  [unfold standard_list_item_scope, standard_button_scope, standard_table_scope, standard_scope, html_one_of;
     rewrite !one_of_above by done; by rewrite !andb_false_r
  |unfold standard_list_item_scope, standard_button_scope, standard_table_scope, standard_scope, html_one_of, LXB_NS__LAST_ENTRY in *;
     repeat match goal with |- context [ns =? ?c] => rewrite (proj2 (Z.eqb_neq ns c)) by (unfold c; lia) end; done].

Lemma category_scope tag ns : 0 <= tag -> 0 <= ns -> lxb_html_tag_is_category tag ns LXB_HTML_TAG_CATEGORY_SCOPE = standard_scope tag ns.
Proof. revert tag ns. apply category_eq; [vm_compute; reflexivity | reflexivity | outside]. Qed.

Lemma category_list_item tag ns : 0 <= tag -> 0 <= ns ->
  lxb_html_tag_is_category tag ns LXB_HTML_TAG_CATEGORY_SCOPE_LIST_ITEM = standard_list_item_scope tag ns.
Proof. revert tag ns. apply category_eq; [vm_compute; reflexivity | reflexivity | outside]. Qed.

Lemma category_button tag ns : 0 <= tag -> 0 <= ns ->
  lxb_html_tag_is_category tag ns LXB_HTML_TAG_CATEGORY_SCOPE_BUTTON = standard_button_scope tag ns.
Proof. revert tag ns. apply category_eq; [vm_compute; reflexivity | reflexivity | outside]. Qed.

Lemma category_table tag ns : 0 <= tag -> 0 <= ns ->
  lxb_html_tag_is_category tag ns LXB_HTML_TAG_CATEGORY_SCOPE_TABLE = standard_table_scope tag ns.
Proof. revert tag ns. apply category_eq; [vm_compute; reflexivity | reflexivity | outside]. Qed.

#[export] Hint Resolve category_scope category_list_item category_button category_table : tgnews.

(** The generated table of tag categories agrees with the standard: for every
    tag and namespace, the tags not built in included, the categories of the
    scopes are those of "has an element in scope", "in list item scope", "in
    button scope" and "in table scope". *)
Theorem scope_categories tag ns : 0 <= tag -> 0 <= ns ->
  lxb_html_tag_is_category tag ns LXB_HTML_TAG_CATEGORY_SCOPE = standard_scope tag ns /\
  lxb_html_tag_is_category tag ns LXB_HTML_TAG_CATEGORY_SCOPE_LIST_ITEM = standard_list_item_scope tag ns /\
  lxb_html_tag_is_category tag ns LXB_HTML_TAG_CATEGORY_SCOPE_BUTTON = standard_button_scope tag ns /\
  lxb_html_tag_is_category tag ns LXB_HTML_TAG_CATEGORY_SCOPE_TABLE = standard_table_scope tag ns.
Proof. auto with tgnews. Qed.

Lemma scope_categories_witness :
  lxb_html_tag_is_category LXB_TAG_TITLE LXB_NS_SVG LXB_HTML_TAG_CATEGORY_SCOPE = true /\
  lxb_html_tag_is_category LXB_TAG_TITLE LXB_NS_HTML LXB_HTML_TAG_CATEGORY_SCOPE = false.
Proof.
  split.
  - rewrite (proj1 (scope_categories LXB_TAG_TITLE LXB_NS_SVG ltac:(done) ltac:(done))). reflexivity.
  - rewrite (proj1 (scope_categories LXB_TAG_TITLE LXB_NS_HTML ltac:(done) ltac:(done))). reflexivity.
Defined.
