(* ===== verification/TagConst.v ===== *)
(** * The tags of [tag/const.h] the other files do not name, the spellings of SVG
    tags of [html/tag_res.h] and the void elements of [html/tag.h] *)
From Stdlib Require Import String.
From S2P Require Import Prelude.
From S2P Require Import Str.
From S2P Require Import Tag.
From S2P Require Import TkzBase.
From S2P Require Import TagCat.

Definition LXB_TAG_ABBR : Z := 0x0007.
Definition LXB_TAG_ACRONYM : Z := 0x0008.
Definition LXB_TAG_ADDRESS : Z := 0x0009.
Definition LXB_TAG_ALTGLYPH : Z := 0x000a.
Definition LXB_TAG_ALTGLYPHDEF : Z := 0x000b.
Definition LXB_TAG_ALTGLYPHITEM : Z := 0x000c.
Definition LXB_TAG_ANIMATECOLOR : Z := 0x000d.
Definition LXB_TAG_ANIMATEMOTION : Z := 0x000e.
Definition LXB_TAG_ANIMATETRANSFORM : Z := 0x000f.
Definition LXB_TAG_AREA : Z := 0x0012.
Definition LXB_TAG_ARTICLE : Z := 0x0013.
Definition LXB_TAG_ASIDE : Z := 0x0014.
Definition LXB_TAG_AUDIO : Z := 0x0015.
Definition LXB_TAG_B : Z := 0x0016.
Definition LXB_TAG_BASE : Z := 0x0017.
Definition LXB_TAG_BASEFONT : Z := 0x0018.
Definition LXB_TAG_BDI : Z := 0x0019.
Definition LXB_TAG_BDO : Z := 0x001a.
Definition LXB_TAG_BGSOUND : Z := 0x001b.
Definition LXB_TAG_BIG : Z := 0x001c.
Definition LXB_TAG_BLINK : Z := 0x001d.
Definition LXB_TAG_BLOCKQUOTE : Z := 0x001e.
Definition LXB_TAG_BR : Z := 0x0020.
Definition LXB_TAG_CANVAS : Z := 0x0022.
Definition LXB_TAG_CENTER : Z := 0x0024.
Definition LXB_TAG_CITE : Z := 0x0025.
Definition LXB_TAG_CLIPPATH : Z := 0x0026.
Definition LXB_TAG_CODE : Z := 0x0027.
Definition LXB_TAG_COL : Z := 0x0028.
Definition LXB_TAG_DATA : Z := 0x002a.
Definition LXB_TAG_DATALIST : Z := 0x002b.
Definition LXB_TAG_DEL : Z := 0x002d.
Definition LXB_TAG_DETAILS : Z := 0x002f.
Definition LXB_TAG_DFN : Z := 0x0030.
Definition LXB_TAG_DIALOG : Z := 0x0031.
Definition LXB_TAG_DIR : Z := 0x0032.
Definition LXB_TAG_DIV : Z := 0x0033.
Definition LXB_TAG_DL : Z := 0x0034.
Definition LXB_TAG_EM : Z := 0x0036.
Definition LXB_TAG_EMBED : Z := 0x0037.
Definition LXB_TAG_FEBLEND : Z := 0x0038.
Definition LXB_TAG_FECOLORMATRIX : Z := 0x0039.
Definition LXB_TAG_FECOMPONENTTRANSFER : Z := 0x003a.
Definition LXB_TAG_FECOMPOSITE : Z := 0x003b.
Definition LXB_TAG_FECONVOLVEMATRIX : Z := 0x003c.
Definition LXB_TAG_FEDIFFUSELIGHTING : Z := 0x003d.
Definition LXB_TAG_FEDISPLACEMENTMAP : Z := 0x003e.
Definition LXB_TAG_FEDISTANTLIGHT : Z := 0x003f.
Definition LXB_TAG_FEDROPSHADOW : Z := 0x0040.
Definition LXB_TAG_FEFLOOD : Z := 0x0041.
Definition LXB_TAG_FEFUNCA : Z := 0x0042.
Definition LXB_TAG_FEFUNCB : Z := 0x0043.
Definition LXB_TAG_FEFUNCG : Z := 0x0044.
Definition LXB_TAG_FEFUNCR : Z := 0x0045.
Definition LXB_TAG_FEGAUSSIANBLUR : Z := 0x0046.
Definition LXB_TAG_FEIMAGE : Z := 0x0047.
Definition LXB_TAG_FEMERGE : Z := 0x0048.
Definition LXB_TAG_FEMERGENODE : Z := 0x0049.
Definition LXB_TAG_FEMORPHOLOGY : Z := 0x004a.
Definition LXB_TAG_FEOFFSET : Z := 0x004b.
Definition LXB_TAG_FEPOINTLIGHT : Z := 0x004c.
Definition LXB_TAG_FESPECULARLIGHTING : Z := 0x004d.
Definition LXB_TAG_FESPOTLIGHT : Z := 0x004e.
Definition LXB_TAG_FETILE : Z := 0x004f.
Definition LXB_TAG_FETURBULENCE : Z := 0x0050.
Definition LXB_TAG_FIELDSET : Z := 0x0051.
Definition LXB_TAG_FIGCAPTION : Z := 0x0052.
Definition LXB_TAG_FIGURE : Z := 0x0053.
Definition LXB_TAG_FONT : Z := 0x0054.
Definition LXB_TAG_FOOTER : Z := 0x0055.
Definition LXB_TAG_FORM : Z := 0x0057.
Definition LXB_TAG_FRAME : Z := 0x0058.
Definition LXB_TAG_GLYPHREF : Z := 0x005a.
Definition LXB_TAG_HEADER : Z := 0x0062.
Definition LXB_TAG_HGROUP : Z := 0x0063.
Definition LXB_TAG_HR : Z := 0x0064.
Definition LXB_TAG_I : Z := 0x0066.
Definition LXB_TAG_IMAGE : Z := 0x0068.
Definition LXB_TAG_IMG : Z := 0x0069.
Definition LXB_TAG_INPUT : Z := 0x006a.
Definition LXB_TAG_INS : Z := 0x006b.
Definition LXB_TAG_ISINDEX : Z := 0x006c.
Definition LXB_TAG_KBD : Z := 0x006d.
Definition LXB_TAG_KEYGEN : Z := 0x006e.
Definition LXB_TAG_LABEL : Z := 0x006f.
Definition LXB_TAG_LEGEND : Z := 0x0070.
Definition LXB_TAG_LINEARGRADIENT : Z := 0x0072.
Definition LXB_TAG_LINK : Z := 0x0073.
Definition LXB_TAG_LISTING : Z := 0x0074.
Definition LXB_TAG_MAIN : Z := 0x0075.
Definition LXB_TAG_MAP : Z := 0x0077.
Definition LXB_TAG_MARK : Z := 0x0078.
Definition LXB_TAG_MATH : Z := 0x007a.
Definition LXB_TAG_MENU : Z := 0x007b.
Definition LXB_TAG_METER : Z := 0x007d.
Definition LXB_TAG_MFENCED : Z := 0x007e.
Definition LXB_TAG_MULTICOL : Z := 0x0085.
Definition LXB_TAG_NAV : Z := 0x0086.
Definition LXB_TAG_NEXTID : Z := 0x0087.
Definition LXB_TAG_NOBR : Z := 0x0088.
Definition LXB_TAG_OUTPUT : Z := 0x0090.
Definition LXB_TAG_PARAM : Z := 0x0092.
Definition LXB_TAG_PATH : Z := 0x0093.
Definition LXB_TAG_PICTURE : Z := 0x0094.
Definition LXB_TAG_PRE : Z := 0x0096.
Definition LXB_TAG_PROGRESS : Z := 0x0097.
Definition LXB_TAG_Q : Z := 0x0098.
Definition LXB_TAG_RADIALGRADIENT : Z := 0x0099.
Definition LXB_TAG_RUBY : Z := 0x009e.
Definition LXB_TAG_S : Z := 0x009f.
Definition LXB_TAG_SAMP : Z := 0x00a0.
Definition LXB_TAG_SECTION : Z := 0x00a2.
Definition LXB_TAG_SLOT : Z := 0x00a4.
Definition LXB_TAG_SMALL : Z := 0x00a5.
Definition LXB_TAG_SOURCE : Z := 0x00a6.
Definition LXB_TAG_SPACER : Z := 0x00a7.
Definition LXB_TAG_SPAN : Z := 0x00a8.
Definition LXB_TAG_STRIKE : Z := 0x00a9.
Definition LXB_TAG_STRONG : Z := 0x00aa.
Definition LXB_TAG_SUB : Z := 0x00ac.
Definition LXB_TAG_SUMMARY : Z := 0x00ad.
Definition LXB_TAG_SUP : Z := 0x00ae.
Definition LXB_TAG_TEXTPATH : Z := 0x00b5.
Definition LXB_TAG_TIME : Z := 0x00b9.
Definition LXB_TAG_TRACK : Z := 0x00bc.
Definition LXB_TAG_TT : Z := 0x00bd.
Definition LXB_TAG_U : Z := 0x00be.
Definition LXB_TAG_VAR : Z := 0x00c0.
Definition LXB_TAG_VIDEO : Z := 0x00c1.
Definition LXB_TAG_WBR : Z := 0x00c2.

(** [lxb_html_tag_res_fixname_svg]: the entries that are not NULL, by tag. *)
Definition lxb_html_tag_res_fixname_svg : list (Z * string) := ([
  (LXB_TAG_ALTGLYPH, "altGlyph");
  (LXB_TAG_ALTGLYPHDEF, "altGlyphDef");
  (LXB_TAG_ALTGLYPHITEM, "altGlyphItem");
  (LXB_TAG_ANIMATECOLOR, "animateColor");
  (LXB_TAG_ANIMATEMOTION, "animateMotion");
  (LXB_TAG_ANIMATETRANSFORM, "animateTransform");
  (LXB_TAG_CLIPPATH, "clipPath");
  (LXB_TAG_FEBLEND, "feBlend");
  (LXB_TAG_FECOLORMATRIX, "feColorMatrix");
  (LXB_TAG_FECOMPONENTTRANSFER, "feComponentTransfer");
  (LXB_TAG_FECOMPOSITE, "feComposite");
  (LXB_TAG_FECONVOLVEMATRIX, "feConvolveMatrix");
  (LXB_TAG_FEDIFFUSELIGHTING, "feDiffuseLighting");
  (LXB_TAG_FEDISPLACEMENTMAP, "feDisplacementMap");
  (LXB_TAG_FEDISTANTLIGHT, "feDistantLight");
  (LXB_TAG_FEDROPSHADOW, "feDropShadow");
  (LXB_TAG_FEFLOOD, "feFlood");
  (LXB_TAG_FEFUNCA, "feFuncA");
  (LXB_TAG_FEFUNCB, "feFuncB");
  (LXB_TAG_FEFUNCG, "feFuncG");
  (LXB_TAG_FEFUNCR, "feFuncR");
  (LXB_TAG_FEGAUSSIANBLUR, "feGaussianBlur");
  (LXB_TAG_FEIMAGE, "feImage");
  (LXB_TAG_FEMERGE, "feMerge");
  (LXB_TAG_FEMERGENODE, "feMergeNode");
  (LXB_TAG_FEMORPHOLOGY, "feMorphology");
  (LXB_TAG_FEOFFSET, "feOffset");
  (LXB_TAG_FEPOINTLIGHT, "fePointLight");
  (LXB_TAG_FESPECULARLIGHTING, "feSpecularLighting");
  (LXB_TAG_FESPOTLIGHT, "feSpotLight");
  (LXB_TAG_FETILE, "feTile");
  (LXB_TAG_FETURBULENCE, "feTurbulence");
  (LXB_TAG_FOREIGNOBJECT, "foreignObject");
  (LXB_TAG_GLYPHREF, "glyphRef");
  (LXB_TAG_LINEARGRADIENT, "linearGradient");
  (LXB_TAG_RADIALGRADIENT, "radialGradient");
  (LXB_TAG_TEXTPATH, "textPath")]%string).

(** [lxb_html_tag_fixname_svg], with the test of the name by its caller. *)
Definition lxb_html_tag_fixname_svg (tag_id : Z) : option (list Z) :=
  if LXB_TAG__LAST_ENTRY <=? tag_id then None
  else (fun row => bytes (snd row)) <$> find (fun row => fst row =? tag_id) lxb_html_tag_res_fixname_svg.

Definition lxb_html_tag_is_void (tag_id : Z) : bool :=
  one_of tag_id [LXB_TAG_AREA; LXB_TAG_BASE; LXB_TAG_BR; LXB_TAG_COL; LXB_TAG_EMBED; LXB_TAG_HR; LXB_TAG_IMG; LXB_TAG_INPUT;
    LXB_TAG_LINK; LXB_TAG_META; LXB_TAG_PARAM; LXB_TAG_SOURCE; LXB_TAG_TRACK; LXB_TAG_WBR].
