(* ===== verification/Array.v ===== *)
(** * Arrays of pointers: [core/array.c], [core/array.h]

    An array is the [length] pointers it holds and the size of its memory; what the
    memory beyond [length] holds is never relied on.  Whether [malloc] or [realloc]
    gives so many bytes is a parameter. *)
From S2P Require Import Prelude.
From S2P Require Import TkzBase.

Definition LXB_STATUS_ERROR_TOO_SMALL_SIZE : Z := 0x0007.

(** [size_t] *)
Definition size_wrap (n : Z) : Z := n mod 2 ^ 64.
Definition SIZE_MAX : Z := 2 ^ 64 - 1.

(** [lexbor_array_t] *)
Record lexbor_array := mk_array { ar_items : list (option positive); ar_size : Z }.

Definition ar_length (a : lexbor_array) : Z := Z.of_nat (length (ar_items a)).
Definition set_items (l : list (option positive)) (a : lexbor_array) : lexbor_array := mk_array l (ar_size a).

Section Memory.
Context (given : Z -> bool).

Definition lexbor_array_init (size : Z) : Z * lexbor_array :=
  if size =? 0 then (LXB_STATUS_ERROR_TOO_SMALL_SIZE, mk_array [] 0)
  else if given (size_wrap (8 * size)) then (LXB_STATUS_OK, mk_array [] size)
  else (LXB_STATUS_ERROR_MEMORY_ALLOCATION, mk_array [] size).

Definition lexbor_array_clean (a : lexbor_array) : lexbor_array := set_items [] a.

(** [None] is NULL. *)
Definition lexbor_array_expand (a : lexbor_array) (up_to : Z) : option lexbor_array :=
  if ar_length a >? SIZE_MAX - up_to then None
  else
    let new_size := ar_length a + up_to in
    if given (size_wrap (8 * new_size)) then Some (mk_array (ar_items a) new_size) else None.

Definition lexbor_array_push (a : lexbor_array) (value : option positive) : Z * lexbor_array :=
  match (if ar_length a >=? ar_size a then lexbor_array_expand a 128 else Some a) with
  | None => (LXB_STATUS_ERROR_MEMORY_ALLOCATION, a)
  | Some a => (LXB_STATUS_OK, set_items (ar_items a ++ [value]) a)
  end.

Definition lexbor_array_pop (a : lexbor_array) : option positive * lexbor_array :=
  if ar_length a =? 0 then (None, a)
  else (default None (last (ar_items a)), set_items (take (length (ar_items a) - 1) (ar_items a)) a).

(** The [memset] of the pointers from [length] on and the store at [idx]. *)
Definition pad_to (idx : Z) (l : list (option positive)) : list (option positive) :=
  l ++ replicate (Z.to_nat idx - length l) None.

Definition lexbor_array_insert (a : lexbor_array) (idx : Z) (value : option positive) : Z * lexbor_array :=
  if idx >=? ar_length a then
    let up_to := idx - ar_length a + 1 in
    match (if idx >=? ar_size a then lexbor_array_expand a up_to else Some a) with
    | None => (LXB_STATUS_ERROR_MEMORY_ALLOCATION, a)
    | Some a => (LXB_STATUS_OK, set_items (pad_to idx (ar_items a) ++ [value]) a)
    end
  else
    match (if ar_length a >=? ar_size a then lexbor_array_expand a 32 else Some a) with
    | None => (LXB_STATUS_ERROR_MEMORY_ALLOCATION, a)
    | Some a =>
        let i := Z.to_nat idx in
        (LXB_STATUS_OK, set_items (take i (ar_items a) ++ value :: drop i (ar_items a)) a)
    end.

Definition lexbor_array_set (a : lexbor_array) (idx : Z) (value : option positive) : Z * lexbor_array :=
  if idx >=? ar_length a then
    let up_to := idx - ar_length a + 1 in
    match (if idx >=? ar_size a then lexbor_array_expand a up_to else Some a) with
    | None => (LXB_STATUS_ERROR_MEMORY_ALLOCATION, a)
    | Some a => (LXB_STATUS_OK, set_items (pad_to idx (ar_items a) ++ [value]) a)
    end
  else (LXB_STATUS_OK, set_items (<[Z.to_nat idx := value]> (ar_items a)) a).

Definition lexbor_array_delete (a : lexbor_array) (begin length_ : Z) : lexbor_array :=
  if (begin >=? ar_length a) || (length_ =? 0) then a
  else
    let end_len := size_wrap (begin + length_) in
    if end_len >=? ar_length a then set_items (take (Z.to_nat begin) (ar_items a)) a
    else set_items (take (Z.to_nat begin) (ar_items a) ++ drop (Z.to_nat end_len) (ar_items a)) a.

Definition lexbor_array_get (a : lexbor_array) (idx : Z) : option positive :=
  if idx >=? ar_length a then None else default None (ar_items a !! Z.to_nat idx).

(** ** What they do *)

(** The items fit in the memory, which fits in the address space. *)
Definition array_ok (a : lexbor_array) : Prop := ar_length a <= ar_size a /\ ar_size a <= SIZE_MAX.

Lemma expand_ok a n : array_ok a -> 0 < n -> match lexbor_array_expand a n with
  | Some a' => array_ok a' /\ ar_items a' = ar_items a /\ ar_length a + n <= ar_size a'
  | None => True
  end.
Proof.
  intros [H1 H2] Hn. unfold lexbor_array_expand. destruct (ar_length a >? SIZE_MAX - n) eqn:E; [done|].
  rewrite Z.gtb_ltb, Z.ltb_ge in E. destruct (given _); [|done]. unfold array_ok, ar_length in *. cbn. split; [lia | split; [done | lia]].
Qed.

Lemma length_pad idx l : Z.of_nat (length l) <= idx -> Z.of_nat (length (pad_to idx l)) = idx.
Proof. intros H. unfold pad_to. rewrite length_app, length_replicate. lia. Qed.

(** The array with room for [n] more, if it gets it. *)
Lemma room_ok (full : bool) a n : array_ok a -> 0 < n -> (full = false -> ar_length a + 1 <= ar_size a) ->
  match (if full then lexbor_array_expand a n else Some a) with
  | Some a' => array_ok a' /\ ar_items a' = ar_items a /\ ar_length a + (if full then n else 1) <= ar_size a'
  | None => True
  end.
Proof. intros Ha Hn Hf. destruct full; [by apply expand_ok | by auto]. Qed.

Definition changed_to (a : lexbor_array) (l : list (option positive)) (r : Z * lexbor_array) : Prop :=
  r = (LXB_STATUS_ERROR_MEMORY_ALLOCATION, a) \/
  (fst r = LXB_STATUS_OK /\ array_ok (snd r) /\ ar_items (snd r) = l).

(** The shape of [push], [insert] and [set]: room, then a store. *)
Lemma changed_ok (full : bool) a n (f : list (option positive) -> list (option positive)) l : array_ok a -> 0 < n ->
  (full = false -> ar_length a + 1 <= ar_size a) -> f (ar_items a) = l ->
  (forall s, ar_length a + (if full then n else 1) <= s -> (full = false -> ar_size a <= s) -> Z.of_nat (length l) <= s) ->
  changed_to a l (match (if full then lexbor_array_expand a n else Some a) with
                  | None => (LXB_STATUS_ERROR_MEMORY_ALLOCATION, a)
                  | Some a => (LXB_STATUS_OK, set_items (f (ar_items a)) a)
                  end).
Proof.
  intros Ha Hn Hf Hl Hlen. unfold changed_to. destruct full.
  - pose proof (expand_ok a n Ha Hn) as H. destruct (lexbor_array_expand a n) as [a'|]; [right | by left].
    destruct H as ([_ H2] & Ei & Hs). cbn. rewrite Ei, Hl. split; [done|]. split; [|done].
    split; [|done]. apply Hlen; [done | discriminate].
  - right. cbn. rewrite Hl. split; [done|]. split; [|done]. destruct Ha as [_ H2]. split; [|done].
    apply Hlen; [by apply Hf | done].
Qed.

Lemma push_ok a value : array_ok a -> ar_length a + 128 <= SIZE_MAX -> (forall n, given n = true) ->
  exists a', lexbor_array_push a value = (LXB_STATUS_OK, a') /\ ar_items a' = ar_items a ++ [value] /\ array_ok a'.
Proof.
  intros [H1 H2] Hl Hg. unfold lexbor_array_push. destruct (ar_length a >=? ar_size a) eqn:E.
  - unfold lexbor_array_expand. rewrite Z.gtb_ltb, (proj2 (Z.ltb_ge _ _)), Hg by lia. eexists. split; [done|]. split; [done|].
    unfold array_ok, ar_length in *. cbn. rewrite length_app. cbn. lia.
  - eexists. split; [done|]. split; [done|]. unfold array_ok, ar_length in *. cbn. rewrite length_app. cbn. lia.
Qed.

Lemma array_pushes a value : array_ok a -> changed_to a (ar_items a ++ [value]) (lexbor_array_push a value).
Proof.
  intros Ha. pose proof Ha as [Ha1 Ha2]. apply (changed_ok _ a 128 (fun l => l ++ [value])); [done | lia | lia | done|].
  intros s Hs _. rewrite length_app. cbn. unfold ar_length in *. destruct (Z.of_nat (length _) >=? ar_size a); lia.
Qed.

Lemma delete_one a (i : nat) : array_ok a -> (i < length (ar_items a))%nat ->
  lexbor_array_delete a (Z.of_nat i) 1 = set_items (take i (ar_items a) ++ drop (S i) (ar_items a)) a.
Proof.
  intros [H1 H2] Hi. unfold lexbor_array_delete, ar_length in *. destruct (Z.of_nat i >=? Z.of_nat (length (ar_items a))) eqn:E; [lia|].
  cbn [orb Z.eqb]. unfold size_wrap. rewrite Z.mod_small by (unfold SIZE_MAX in *; lia). rewrite Nat2Z.id.
  destruct (Z.of_nat i + 1 >=? _) eqn:E'.
  - by rewrite (drop_ge _ (S i)), app_nil_r by lia.
  - by replace (Z.to_nat (Z.of_nat i + 1)) with (S i) by lia.
Qed.

(** An array is a list.  While the items fit in memory, [push], [insert] and
    [set] either answer MEMORY_ALLOCATION and change nothing, or answer OK and
    leave the list with the pointer at the end, before the one at [idx], or at
    [idx], padded with NULLs if [idx] is beyond the end; [pop] takes the last off,
    [delete] cuts out a range.  No store is outside the memory: the items fit
    after as before. *)
Theorem array_is_list a idx n value : array_ok a -> 0 <= idx < SIZE_MAX -> 0 <= n -> idx + n <= SIZE_MAX ->
  let l := ar_items a in let i := Z.to_nat idx in
  changed_to a (l ++ [value]) (lexbor_array_push a value) /\
  changed_to a (take i (pad_to idx l) ++ value :: drop i l) (lexbor_array_insert a idx value) /\
  changed_to a (take i (pad_to idx l) ++ value :: drop (S i) l) (lexbor_array_set a idx value) /\
  (forall l' x, l = l' ++ [x] -> lexbor_array_pop a = (x, set_items l' a)) /\
  lexbor_array_delete a idx n = set_items (take i l ++ drop (Z.to_nat (idx + n)) l) a.
Proof.
  intros Ha Hidx Hn Hin l i. pose proof Ha as [Ha1 Ha2]. unfold ar_length in Ha1. fold l in Ha1.
  assert (Hi : Z.of_nat i = idx) by (unfold i; lia).
  assert (Hpad : Z.of_nat (length l) <= idx -> take i (pad_to idx l) = pad_to idx l /\ drop i l = [] /\ drop (S i) l = []).
  { intros H. pose proof (length_pad idx l H). split; [apply take_ge; lia|]. split; apply drop_ge; lia. }
  assert (Hin' : idx < Z.of_nat (length l) -> take i (pad_to idx l) = take i l).
  { intros H. unfold pad_to. rewrite take_app_le by lia. done. }
  split; [|split; [|split; [|split]]].
  - by apply array_pushes.
  - unfold lexbor_array_insert. destruct (idx >=? ar_length a) eqn:E; unfold ar_length in E; fold l in E.
    + destruct Hpad as (-> & -> & _); [lia|].
      apply (changed_ok _ a (idx - ar_length a + 1) (fun l => pad_to idx l ++ [value])); unfold ar_length; fold l; [done|lia|lia|done|].
      intros s Hs Hs'. rewrite length_app, Nat2Z.inj_add, length_pad by lia. cbn. fold l in Hs |- *. destruct (idx >=? ar_size a) eqn:E'; [lia|].
      specialize (Hs' eq_refl). lia.
    + rewrite Hin' by lia. apply (changed_ok _ a 32 (fun l => take i l ++ value :: drop i l)); [done|lia|unfold ar_length; fold l; lia|done|].
      intros s Hs _. rewrite length_app. cbn. rewrite length_take, length_drop. unfold ar_length in *. fold l in Hs |- *. destruct (Z.of_nat (length l) >=? ar_size a); lia.
  - unfold lexbor_array_set. destruct (idx >=? ar_length a) eqn:E; unfold ar_length in E; fold l in E.
    + destruct Hpad as (-> & _ & ->); [lia|].
      apply (changed_ok _ a (idx - ar_length a + 1) (fun l => pad_to idx l ++ [value])); unfold ar_length; fold l; [done|lia|lia|done|].
      intros s Hs Hs'. rewrite length_app, Nat2Z.inj_add, length_pad by lia. cbn. fold l in Hs |- *. destruct (idx >=? ar_size a) eqn:E'; [lia|].
      specialize (Hs' eq_refl). lia.
    + rewrite Hin' by lia. right. cbn. fold l i. rewrite insert_take_drop by lia. split; [done|]. split; [|done].
      split; [|done]. unfold ar_length. cbn. rewrite length_app. cbn. rewrite length_take, length_drop. lia.
  - intros l' x Hl. unfold lexbor_array_pop, ar_length. fold l. rewrite Hl, length_app. cbn [length].
    rewrite (proj2 (Z.eqb_neq _ _)) by lia. rewrite last_snoc. cbn. by rewrite Nat.add_sub, take_app_length.
  - unfold lexbor_array_delete, ar_length. fold l i. destruct (idx >=? Z.of_nat (length l)) eqn:E; cbn [orb].
    { rewrite take_ge, drop_ge by lia. rewrite app_nil_r. by destruct a. }
    destruct (n =? 0) eqn:En.
    { assert (n = 0) as -> by lia. rewrite Z.add_0_r. fold i. rewrite take_drop. by destruct a. }
    unfold size_wrap. rewrite Z.mod_small by (unfold SIZE_MAX in *; lia).
    destruct (idx + n >=? Z.of_nat (length l)) eqn:E'; [|done]. by rewrite (drop_ge _ (Z.to_nat (idx + n))), app_nil_r by lia.
Qed.
End Memory.

Lemma array_is_list_witness :
  changed_to (mk_array [Some 5%positive] 1) [Some 5%positive; None; Some 6%positive]
    (lexbor_array_insert (fun _ => true) (mk_array [Some 5%positive] 1) 2 (Some 6%positive)).
Proof.
  assert (Ha : array_ok (mk_array [Some 5%positive] 1)) by (unfold array_ok, ar_length, SIZE_MAX; cbn; lia).
  destruct (array_is_list (fun _ => true) (mk_array [Some 5%positive] 1) 2 0 (Some 6%positive) Ha) as (_ & H & _);
    [unfold SIZE_MAX; lia | lia | unfold SIZE_MAX; lia | exact H].
Defined.
