(* ===== verification/Mem.v ===== *)
(** * Memory in chunks: [core/mem.c]

    A memory is a list of chunks that [malloc] gave; what is allocated is cut off the
    newest one from the left.  [malloc] is a parameter: it gives memory that no chunk
    has, or NULL. *)
From S2P Require Import Prelude.
From S2P Require Import TkzBase.
From S2P Require Import Array.

#[local] Set Warnings "-clear-no-such-hyp".

Definition LXB_STATUS_ERROR_OBJECT_IS_NULL : Z := 0x0003.
Definition LXB_STATUS_ERROR_WRONG_ARGS : Z := 0x0009.

(** [sizeof(void * )] *)
Definition LEXBOR_MEM_ALIGN_STEP : Z := 8.

Definition lexbor_mem_align (size : Z) : Z :=
  if negb (size mod LEXBOR_MEM_ALIGN_STEP =? 0) then size_wrap (size + (LEXBOR_MEM_ALIGN_STEP - size mod LEXBOR_MEM_ALIGN_STEP)) else size.
Definition lexbor_mem_align_floor (size : Z) : Z :=
  if negb (size mod LEXBOR_MEM_ALIGN_STEP =? 0) then size - size mod LEXBOR_MEM_ALIGN_STEP else size.

(** [lexbor_mem_chunk_t], without the links between chunks *)
Record mem_chunk := mk_chunk { ck_data : Z; ck_length : Z; ck_size : Z }.

(** [lexbor_mem_t]: the chunk [chunk], and those one gets to by [prev], to
    [chunk_first]. *)
Record lexbor_mem := mk_mem { mem_chunk_of : mem_chunk; mem_prev : list mem_chunk; chunk_min_size : Z; chunk_length : Z }.

Definition mem_chunks (m : lexbor_mem) : list mem_chunk := mem_chunk_of m :: mem_prev m.
Definition set_chunk (c : mem_chunk) (m : lexbor_mem) : lexbor_mem := mk_mem c (mem_prev m) (chunk_min_size m) (chunk_length m).
Definition set_ck_length (n : Z) (c : mem_chunk) : mem_chunk := mk_chunk (ck_data c) n (ck_size c).

(** The heap of C: an address for so many bytes beside the chunks that are in use, or
    NULL; whether there is memory for a chunk's record. *)
Class CHeap := {
  malloc : list mem_chunk -> Z -> option Z;
  chunk_given : list mem_chunk -> bool
}.

Section Mem.
Context `{CHeap}.

(** The chunk; its memory is NULL if there is none.  The bytes in use are the
    argument [used]. *)
Definition lexbor_mem_chunk_init (min : Z) (used : list mem_chunk) (length : Z) : mem_chunk :=
  let length := lexbor_mem_align length in
  let size :=
    if length >? min then (if min >? SIZE_MAX - length then length else length + min) else min in
  mk_chunk (default 0 (malloc used size)) 0 size.

Definition lexbor_mem_chunk_make (min : Z) (used : list mem_chunk) (length : Z) : option mem_chunk :=
  if chunk_given used then
    let c := lexbor_mem_chunk_init min used length in if ck_data c =? 0 then None else Some c
  else None.

(** The memory; none if there is not the memory for its first chunk. *)
Definition lexbor_mem_init (min_chunk_size : Z) : Z * option lexbor_mem :=
  if min_chunk_size =? 0 then (LXB_STATUS_ERROR_WRONG_ARGS, None)
  else
    let min := lexbor_mem_align min_chunk_size in
    match lexbor_mem_chunk_make min [] min with
    | None => (LXB_STATUS_ERROR_MEMORY_ALLOCATION, None)
    | Some c => (LXB_STATUS_OK, Some (mk_mem c [] min 1))
    end.

(** All chunks but the first are freed. *)
Definition lexbor_mem_clean (m : lexbor_mem) : lexbor_mem :=
  mk_mem (set_ck_length 0 (List.last (mem_prev m) (mem_chunk_of m))) [] (chunk_min_size m) 1.

(** A chunk in front. *)
Definition push_chunk (c : mem_chunk) (m : lexbor_mem) : lexbor_mem :=
  mk_mem c (mem_chunks m) (chunk_min_size m) (chunk_length m + 1).

(** The next [n] bytes of the chunk. *)
Definition bump (n : Z) (m : lexbor_mem) : option Z * lexbor_mem :=
  let c := mem_chunk_of m in
  let c := set_ck_length (size_wrap (ck_length c + n)) c in
  (Some (ck_data c + size_wrap (ck_length c - n)), set_chunk c m).

Definition lexbor_mem_alloc (m : lexbor_mem) (length : Z) : option Z * lexbor_mem :=
  if length =? 0 then (None, m)
  else
    let length := lexbor_mem_align length in
    if size_wrap (ck_length (mem_chunk_of m) + length) >? ck_size (mem_chunk_of m) then
      if SIZE_MAX - chunk_length m =? 0 then (None, m)
      else
        match lexbor_mem_chunk_make (chunk_min_size m) (mem_chunks m) length with
        | None => (None, m)
        | Some c => bump length (push_chunk c m)
        end
    else bump length m.

Definition lexbor_mem_current_length (m : lexbor_mem) : Z := ck_length (mem_chunk_of m).
Definition lexbor_mem_current_size (m : lexbor_mem) : Z := ck_size (mem_chunk_of m).
Definition lexbor_mem_chunk_length (m : lexbor_mem) : Z := chunk_length m.
End Mem.

(** [memset] *)
Definition memset (a n b : Z) (bytes : Z -> Z) : Z -> Z := fun k => if (a <=? k) && (k <? a + n) then b else bytes k.

Definition lexbor_mem_calloc `{CHeap} (m : lexbor_mem) (bytes : Z -> Z) (length : Z) : option Z * lexbor_mem * (Z -> Z) :=
  match lexbor_mem_alloc m length with
  | (None, m) => (None, m, bytes)
  | (Some data, m) => (Some data, m, memset data length 0 bytes)
  end.

(** ** What they do *)

(** Two chunks have no byte in common. *)
Definition chunks_apart (c c' : mem_chunk) : Prop := ck_data c + ck_size c <= ck_data c' \/ ck_data c' + ck_size c' <= ck_data c.

Fixpoint all_apart (cs : list mem_chunk) : Prop :=
  match cs with [] => True | c :: cs => Forall (chunks_apart c) cs /\ all_apart cs end.

(** What C promises of [malloc]: the memory is not NULL, in the address space, aligned,
    of less than [2^63] bytes, and new. *)
Class CHeapLaws `{CHeap} : Prop := malloc_new used n a : malloc used n = Some a ->
  0 < a /\ a + n <= 2 ^ 64 /\ n < 2 ^ 63 /\ a mod 8 = 0 /\ Forall (chunks_apart (mk_chunk a 0 n)) used.

(** Memory from an address on, behind all chunks that are in use. *)
Definition bump_heap (start : Z) : CHeap := {|
  malloc used n :=
    let a := foldr (fun c a => Z.max (ck_data c + ck_size c) a) start used in
    let a := a + (16 - a mod 16) in
    if (a + n <=? 2 ^ 64) && (0 <=? n) && (n <? 2 ^ 63) then Some a else None;
  chunk_given _ := true
|}.

Lemma bump_heap_laws start : 0 < start -> @CHeapLaws (bump_heap start).
Proof.
  intros Hs used n a. cbn. set (top := foldr _ _ used).
  assert (Htop : start <= top /\ Forall (fun c => ck_data c + ck_size c <= top) used).
  { subst top. induction used as [|c used [IH1 IH2]]; [split; [cbn; lia | constructor]|]. cbn [foldr]. split; [lia|].
    constructor; [lia|]. eapply Forall_impl; [exact IH2|]. cbn. intros; lia. }
  destruct Htop as [Ht Hall]. pose proof (Z.mod_pos_bound top 16 ltac:(lia)).
  destruct ((_ <=? _) && _ && _) eqn:E; [|done]. apply andb_prop in E as [[E1 E2]%andb_prop E3]. intros [= <-].
  split; [lia|]. split; [lia|]. split; [lia|]. split.
  - pose proof (Z.div_mod top 16 ltac:(lia)). replace (top + (16 - top mod 16)) with ((2 * (top / 16) + 2) * 8) by lia. by rewrite Z.mod_mul.
  - eapply Forall_impl; [exact Hall|]. intros c Hc. right. cbn in *. lia.
Qed.

(** *** Alignment *)

Lemma align_up n : 0 <= n < 2 ^ 64 - 8 -> n <= lexbor_mem_align n < n + 8 /\ lexbor_mem_align n mod 8 = 0.
Proof.
  intros Hn. unfold lexbor_mem_align, LEXBOR_MEM_ALIGN_STEP, size_wrap. pose proof (Z.mod_pos_bound n 8 ltac:(lia)) as Hm.
  destruct (Z.eqb_spec (n mod 8) 0) as [E|E]; cbn [negb]; [lia|]. rewrite Z.mod_small by lia. split; [lia|].
  pose proof (Z.div_mod n 8 ltac:(lia)). replace (n + (8 - n mod 8)) with ((n / 8 + 1) * 8) by lia. by rewrite Z.mod_mul.
Qed.

Lemma align_same n : n mod 8 = 0 -> lexbor_mem_align n = n /\ lexbor_mem_align_floor n = n.
Proof. intros E. unfold lexbor_mem_align, lexbor_mem_align_floor, LEXBOR_MEM_ALIGN_STEP. by rewrite E. Qed.

Lemma sum_aligned a b : a mod 8 = 0 -> b mod 8 = 0 -> (a + b) mod 8 = 0 /\ (a - b) mod 8 = 0.
Proof. intros Ha Hb. split; [rewrite Z.add_mod, Ha, Hb by lia | rewrite Zminus_mod, Ha, Hb]; reflexivity. Qed.

(** *** The chunks *)

Record mem_chunk_ok (c : mem_chunk) : Prop := {
  co_data : 0 < ck_data c /\ ck_data c mod 8 = 0;
  co_size : 0 <= ck_size c < 2 ^ 63 /\ ck_size c mod 8 = 0 /\ ck_data c + ck_size c <= 2 ^ 64;
  co_length : 0 <= ck_length c <= ck_size c /\ ck_length c mod 8 = 0
}.

Record mem_ok (m : lexbor_mem) : Prop := {
  mo_chunks : Forall mem_chunk_ok (mem_chunks m);
  mo_apart : all_apart (mem_chunks m);
  mo_min : 0 < chunk_min_size m < 2 ^ 63 /\ chunk_min_size m mod 8 = 0
}.

(** The bytes that are cut off, and those that a chunk has. *)
Definition inside (c : mem_chunk) (k : Z) : Prop := ck_data c <= k < ck_data c + ck_length c.
Definition taken (cs : list mem_chunk) (k : Z) : Prop := Exists (fun c => inside c k) cs.

Lemma inside_apart c c' k : chunks_apart c c' -> ck_length c <= ck_size c -> ck_length c' <= ck_size c' -> inside c k -> ~ inside c' k.
Proof. unfold chunks_apart, inside. lia. Qed.

Section Spec.
Context `{CHeapLaws}.

Lemma chunk_init_ok min used n : 0 < min < 2 ^ 63 /\ min mod 8 = 0 -> 0 <= n < 2 ^ 63 ->
  let c := lexbor_mem_chunk_init min used n in
  ck_length c = 0 /\ (ck_data c = 0 \/ mem_chunk_ok c /\ Forall (chunks_apart c) used /\ lexbor_mem_align n <= ck_size c).
Proof.
  intros [Hmin Hmin8] Hn. unfold lexbor_mem_chunk_init. destruct (align_up n) as [Ha Ha8]; [lia|]. set (l := lexbor_mem_align n) in *. cbn zeta.
  match goal with |- context [mk_chunk _ 0 ?x] => set (size := x) end.
  assert (l <= size /\ size mod 8 = 0) as [Hs Hs8].
  { subst size. unfold SIZE_MAX. destruct (l >? min) eqn:E; [|lia]. destruct (min >? _); [lia|]. destruct (sum_aligned l min Ha8 Hmin8). split; [lia | done]. }
  cbn. split; [done|]. destruct (malloc used size) as [a|] eqn:Em; [|by left]. right. destruct (malloc_new _ _ _ Em) as (H1 & H2 & H3 & H4 & H5).
  cbn. split; [|split; [|done]].
  - split; cbn; [done | split; [lia | done] | split; [lia | done]].
  - eapply Forall_impl; [exact H5|]. intros x Hx. exact Hx.
Qed.

Lemma chunk_make_ok min used n c : 0 < min < 2 ^ 63 /\ min mod 8 = 0 -> 0 <= n < 2 ^ 63 -> lexbor_mem_chunk_make min used n = Some c ->
  mem_chunk_ok c /\ Forall (chunks_apart c) used /\ lexbor_mem_align n <= ck_size c /\ ck_length c = 0.
Proof.
  intros Hmin Hn. unfold lexbor_mem_chunk_make. destruct (chunk_given used); [|done]. destruct (chunk_init_ok min used n Hmin Hn) as [Hl Hok].
  destruct (Z.eqb_spec (ck_data (lexbor_mem_chunk_init min used n)) 0) as [E|E]; [done|]. intros [= <-]. by destruct Hok as [|(Hok & Hap & Hsize)].
Qed.

Lemma push_ok_chunk c m : mem_ok m -> mem_chunk_ok c -> Forall (chunks_apart c) (mem_chunks m) -> mem_ok (push_chunk c m).
Proof. intros [H1 H2 H3] Hc Ha. split; [by constructor | by split | exact H3]. Qed.

(** The chunk with another length. *)
Lemma set_length_ok n m : mem_ok m -> 0 <= n <= ck_size (mem_chunk_of m) -> n mod 8 = 0 -> mem_ok (set_chunk (set_ck_length n (mem_chunk_of m)) m).
Proof.
  intros [H1 [H2 H2'] H3] Hn Hn8. apply Forall_cons in H1 as [Hc H1]. split; [|split; [exact H2 | exact H2'] | exact H3]. constructor; [|exact H1].
  destruct Hc as [C1 C2 C3]. split; [exact C1 | exact C2 | by split].
Qed.

(** [n] bytes that were not taken before. *)
Record cut_off (m : lexbor_mem) (n p : Z) (m' : lexbor_mem) : Prop := {
  cu_ok : mem_ok m';
  cu_place : 0 < p /\ p mod 8 = 0 /\ p + n <= 2 ^ 64;
  cu_taken : forall k, taken (mem_chunks m') k <-> taken (mem_chunks m) k \/ p <= k < p + n;
  cu_new : forall k, p <= k < p + n -> ~ taken (mem_chunks m) k;
  cu_min : chunk_min_size m' = chunk_min_size m
}.

Lemma bump_ok m n : mem_ok m -> 0 <= n -> n mod 8 = 0 -> ck_length (mem_chunk_of m) + n <= ck_size (mem_chunk_of m) ->
  exists p m', bump n m = (Some p, m') /\ p = ck_data (mem_chunk_of m) + ck_length (mem_chunk_of m) /\
    m' = set_chunk (set_ck_length (ck_length (mem_chunk_of m) + n) (mem_chunk_of m)) m /\ cut_off m n p m'.
Proof.
  intros Hm Hn Hn8 Hfit. pose proof Hm as [H1 [H2 _] _]. apply Forall_cons in H1 as [[[Hd Hd8] [[Hs1 Hs2] [Hs8 Hs3]] [[Hl1 Hl2] Hl8]] Hrest].
  unfold bump, size_wrap. cbn. rewrite (Z.mod_small (_ + n)) by lia. rewrite Z.mod_small by lia.
  replace (ck_length (mem_chunk_of m) + n - n) with (ck_length (mem_chunk_of m)) by lia. eexists _, _. split; [reflexivity|]. split; [done|]. split; [done|].
  destruct (sum_aligned _ _ Hl8 Hn8) as [Hln _]. destruct (sum_aligned _ _ Hd8 Hl8) as [Hp8 _]. split.
  - apply set_length_ok; [done | lia | done].
  - lia.
  - intros k. unfold taken, mem_chunks. cbn. rewrite !Exists_cons. unfold inside at 1 3. cbn.
    set (others := Exists _ _). assert (forall A B C D : Prop, (A <-> C \/ D) -> (A \/ B <-> (C \/ B) \/ D)) as Hor by tauto. apply Hor. lia.
  - intros k Hk. unfold taken, mem_chunks. rewrite Exists_cons. intros [Hin|Hin]; [unfold inside in Hin; lia|].
    apply Exists_exists in Hin as (c & Hc & Hin). rewrite Forall_forall in H2, Hrest. specialize (H2 c Hc). specialize (Hrest c Hc).
    destruct Hrest as [_ _ [Hcl _]]. unfold chunks_apart, inside in *. lia.
  - done.
Qed.

(** [lexbor_mem_alloc] gives bytes that no one has; when it answers NULL the memory is
    as before. *)
Lemma mem_alloc_ok m n : mem_ok m -> 0 < n < 2 ^ 62 ->
  match lexbor_mem_alloc m n with
  | (Some p, m') => cut_off m (lexbor_mem_align n) p m'
  | (None, m') => m' = m
  end.
Proof.
  intros Hm Hn. unfold lexbor_mem_alloc. rewrite (proj2 (Z.eqb_neq n 0)) by lia. destruct (align_up n) as [Ha Ha8]; [lia|]. cbn zeta. set (l := lexbor_mem_align n) in *.
  pose proof (mo_chunks m Hm) as Hcs. apply Forall_cons in Hcs as [[_ [[Hs1 Hs2] _] [[Hl1 Hl2] _]] _].
  unfold size_wrap at 1. rewrite Z.mod_small by lia. destruct (_ >? _) eqn:E.
  - destruct (_ =? 0); [done|]. destruct (lexbor_mem_chunk_make _ _ l) as [c|] eqn:Ec; [|done].
    destruct (chunk_make_ok _ _ l _ (mo_min m Hm) ltac:(lia) Ec) as (Hc & Hap & Hsize & Hlen). destruct (align_same l Ha8) as [El _]. rewrite El in Hsize.
    destruct (bump_ok (push_chunk c m) l) as (p & m' & -> & Hp & _ & Hcut); [by apply push_ok_chunk | lia | done | cbn; lia |].
    destruct Hcut as [K1 K2 K3 K4 K5]. assert (Heq : forall k, taken (mem_chunks (push_chunk c m)) k <-> taken (mem_chunks m) k).
    { intros k. unfold taken. change (mem_chunks (push_chunk c m)) with (c :: mem_chunks m). rewrite Exists_cons. unfold inside at 1. rewrite Hlen. split; [intros [?|?]; [lia | done] | by right]. }
    split; [done | done | | | exact K5]; intros k; [rewrite K3, Heq; done | intros Hk; rewrite <- Heq; by apply K4].
  - destruct (bump_ok m l Hm) as (p & m' & -> & _ & _ & Hcut); [lia | done | lia | done].
Qed.

Lemma mem_init_ok n : 0 < n < 2 ^ 62 ->
  match lexbor_mem_init n with
  | (s, Some m) => s = LXB_STATUS_OK /\ mem_ok m /\ mem_prev m = [] /\ forall k, ~ taken (mem_chunks m) k
  | (s, None) => s = LXB_STATUS_ERROR_MEMORY_ALLOCATION
  end.
Proof.
  intros Hn. unfold lexbor_mem_init. rewrite (proj2 (Z.eqb_neq n 0)) by lia. destruct (align_up n) as [Ha Ha8]; [lia|]. cbn zeta.
  destruct (lexbor_mem_chunk_make _ _ _) as [c|] eqn:Ec; [|done].
  destruct (chunk_make_ok (lexbor_mem_align n) [] (lexbor_mem_align n) c ltac:(lia) ltac:(lia) Ec) as (Hc & _ & _ & Hlen). split; [done|]. split; [|split; [done|]].
  - split; [by constructor | done | cbn; lia].
  - intros k. unfold taken, mem_chunks. cbn. rewrite Exists_cons, Exists_nil. unfold inside. rewrite Hlen. lia.
Qed.

(** [lexbor_mem_clean] takes nothing, in the first chunk. *)
Lemma mem_clean_ok m : mem_ok m -> mem_ok (lexbor_mem_clean m) /\ (forall k, ~ taken (mem_chunks (lexbor_mem_clean m)) k).
Proof.
  intros [H1 H2 H3]. set (c := List.last (mem_prev m) (mem_chunk_of m)).
  assert (mem_chunk_ok c) as [C1 C2 C3].
  { rewrite Forall_forall in H1. apply H1. unfold mem_chunks, c. destruct (mem_prev m) as [|x l]; [left|].
    right. apply list_elem_of_In.
    destruct (exists_last (l := x :: l)) as (l' & y & ->); [done|]. rewrite last_last. apply in_or_app. right. by left. }
  split; [split|].
  - constructor; [|constructor]. split; [exact C1 | exact C2 | cbn; destruct C2 as [[? _] _]; by split].
  - by split.
  - exact H3.
  - intros k. unfold taken, mem_chunks, lexbor_mem_clean. cbn. rewrite Exists_cons, Exists_nil. unfold inside. cbn. lia.
Qed.
End Spec.

(** ** Objects of one size: [core/dobject.c]

    Objects that were freed are given again, the last one first. *)

(** [lexbor_dobject_t] *)
Record lexbor_dobject := mk_dobject { do_mem : lexbor_mem; do_cache : lexbor_array; do_allocated : Z; do_struct_size : Z }.

Section Objects.
Context `{CHeap} (given : Z -> bool).

Definition lexbor_dobject_init (chunk_size struct_size : Z) : Z * option lexbor_dobject :=
  if (chunk_size =? 0) || (struct_size =? 0) then (LXB_STATUS_ERROR_WRONG_ARGS, None)
  else
    match lexbor_mem_init (lexbor_mem_align (size_wrap (chunk_size * struct_size))) with
    | (status, None) => (status, None)
    | (_, Some m) =>
        let '(status, cache) := lexbor_array_init given chunk_size in
        if negb (status =? LXB_STATUS_OK) then (status, None) else (LXB_STATUS_OK, Some (mk_dobject m cache 0 struct_size))
    end.

Definition lexbor_dobject_clean (d : lexbor_dobject) : lexbor_dobject :=
  mk_dobject (lexbor_mem_clean (do_mem d)) (lexbor_array_clean (do_cache d)) 0 (do_struct_size d).

Definition lexbor_dobject_alloc (d : lexbor_dobject) : option positive * lexbor_dobject :=
  if negb (ar_length (do_cache d) =? 0) then
    let '(data, cache) := lexbor_array_pop (do_cache d) in
    (data, mk_dobject (do_mem d) cache (size_wrap (do_allocated d + 1)) (do_struct_size d))
  else
    match lexbor_mem_alloc (do_mem d) (do_struct_size d) with
    | (None, m) => (None, mk_dobject m (do_cache d) (do_allocated d) (do_struct_size d))
    | (Some data, m) => (Some (Z.to_pos data), mk_dobject m (do_cache d) (size_wrap (do_allocated d + 1)) (do_struct_size d))
    end.

Definition lexbor_dobject_calloc (d : lexbor_dobject) (bytes : Z -> Z) : option positive * lexbor_dobject * (Z -> Z) :=
  match lexbor_dobject_alloc d with
  | (None, d) => (None, d, bytes)
  | (Some data, d) => (Some data, d, memset (Z.pos data) (do_struct_size d) 0 bytes)
  end.

(** The answer is NULL, or the object if it could not be kept. *)
Definition lexbor_dobject_free (d : lexbor_dobject) (data : option positive) : option positive * lexbor_dobject :=
  match data with
  | None => (None, d)
  | Some i =>
      let '(status, cache) := lexbor_array_push given (do_cache d) (Some i) in
      if status =? LXB_STATUS_OK then (None, mk_dobject (do_mem d) cache (size_wrap (do_allocated d - 1)) (do_struct_size d))
      else (Some i, mk_dobject (do_mem d) cache (do_allocated d) (do_struct_size d))
  end.

(** The object by its place; [None] outside is a NULL that is followed. *)
Definition lexbor_dobject_by_absolute_position (d : lexbor_dobject) (pos : Z) : option (option Z) :=
  if pos >=? do_allocated d then Some None
  else
    let chunk_pos := size_wrap (pos * do_struct_size d) in
    let chunk_idx := chunk_pos / chunk_min_size (do_mem d) in
    c ← rev (mem_chunks (do_mem d)) !! Z.to_nat chunk_idx;
    Some (Some (ck_data c + chunk_pos mod ck_size c)).
End Objects.

(** *** A pool of objects

    What the trees rely on: an object that is given is not in use. *)
Class ObjectPool (S : Type) := {
  pool_alloc : S -> option positive * S;
  pool_free : S -> positive -> S;
  pool_clean : S -> S;
  pool_holds : S -> gset positive -> Prop
}.

Class ObjectPoolLaws (S : Type) `{ObjectPool S} : Prop := {
  pool_alloc_new s live : pool_holds s live ->
    match pool_alloc s with
    | (Some i, s') => (i ∉ live) /\ pool_holds s' ({[i]} ∪ live)
    | (None, s') => pool_holds s' live
    end;
  pool_free_live s live i : pool_holds s live -> i ∈ live -> pool_holds (pool_free s i) (live ∖ {[i]});
  pool_clean_all s live : pool_holds s live -> pool_holds (pool_clean s) ∅
}.

(** The objects in use have bytes that were cut off, and none in common. *)
Definition objects_apart (n : Z) (P : positive -> Prop) : Prop :=
  forall i j, P i -> P j -> i <> j -> Z.pos i + n <= Z.pos j \/ Z.pos j + n <= Z.pos i.

Record dobject_holds (d : lexbor_dobject) (live : gset positive) : Prop := {
  dh_mem : mem_ok (do_mem d);
  dh_cache : array_ok (do_cache d);
  dh_size : 0 < do_struct_size d < 2 ^ 62;
  dh_objects : exists cached : list positive, ar_items (do_cache d) = map Some cached /\ NoDup cached /\
    (forall i, i ∈ cached -> i ∉ live) /\
    (forall i, i ∈ cached \/ i ∈ live -> Z.pos i mod 8 = 0 /\
       forall k, Z.pos i <= k < Z.pos i + lexbor_mem_align (do_struct_size d) -> taken (mem_chunks (do_mem d)) k) /\
    objects_apart (do_struct_size d) (fun i => i ∈ cached \/ i ∈ live)
}.

Section Pool.
Context `{CHeapLaws} (given : Z -> bool).

#[export] Instance dobject_pool : ObjectPool lexbor_dobject := {|
  pool_alloc := lexbor_dobject_alloc;
  pool_free d i := snd (lexbor_dobject_free given d (Some i));
  pool_clean := lexbor_dobject_clean;
  pool_holds := dobject_holds
|}.

Lemma dobject_alloc_ok d live : dobject_holds d live ->
  match lexbor_dobject_alloc d with
  | (Some i, d') => (i ∉ live) /\ dobject_holds d' ({[i]} ∪ live)
  | (None, d') => dobject_holds d' live
  end.
Proof.
  intros [Hm Hc Hs (cached & Ei & Hnd & Hout & Htaken & Hap)]. unfold lexbor_dobject_alloc, ar_length. rewrite Ei, length_map.
  destruct (Z.eqb_spec (Z.of_nat (length cached)) 0) as [E|E]; cbn [negb].
  - destruct cached; [|cbn in E; lia]. pose proof (mem_alloc_ok (do_mem d) (do_struct_size d) Hm Hs) as Ha.
    destruct (lexbor_mem_alloc _ _) as [[p|] m']; [|subst m'; split; try done; by exists []].
    destruct Ha as [K1 (K2 & K2' & K2'') K3 K4 _]. destruct (align_up (do_struct_size d)) as [Hal _]; [lia|].
    assert (Z.pos (Z.to_pos p) = p) as Ep by lia.
    assert (Hfar : forall j, j ∈ live -> Z.to_pos p <> j /\ (p + do_struct_size d <= Z.pos j \/ Z.pos j + do_struct_size d <= p)).
    { intros j Hj. destruct (Htaken j (or_intror Hj)) as [_ Hj']. assert (~ (Z.pos j <= p < Z.pos j + do_struct_size d)).
      { intros Hk. apply (K4 p); [lia|]. apply Hj'. lia. }
      assert (~ (p <= Z.pos j < p + do_struct_size d)). { intros Hk. apply (K4 (Z.pos j)); [lia|]. apply Hj'. lia. }
      split; [intros <-; lia | lia]. }
    split; [intros Hin; by destruct (Hfar _ Hin)|]. split; cbn; try done. exists []. split; [done|]. split; [done|]. split; [by intros i ?%elem_of_nil|].
    split.
    + intros i [Hi%elem_of_nil|[->%elem_of_singleton|Hi]%elem_of_union]; [done | |].
      * rewrite Ep. split; [done|]. intros k Hk. apply K3. by right.
      * destruct (Htaken i (or_intror Hi)) as [Hi8 Hi']. split; [done|]. intros k Hk. apply K3. left. by apply Hi'.
    + intros i j [Hi%elem_of_nil|[->%elem_of_singleton|Hi]%elem_of_union] [Hj%elem_of_nil|[->%elem_of_singleton|Hj]%elem_of_union] Hij; try done.
      * rewrite Ep. by apply Hfar.
      * rewrite Ep. destruct (Hfar i Hi) as [_ ?]. lia.
      * apply Hap; [by right | by right | done].
  - destruct cached as [|x cached _] using rev_ind; [done|]. unfold lexbor_array_pop, ar_length. rewrite Ei, length_map. rewrite (proj2 (Z.eqb_neq _ _)) by done.
    rewrite map_app. cbn [map]. rewrite last_snoc. cbn [default]. apply NoDup_app in Hnd as (Hnd & Hx & _).
    split; [apply Hout; set_solver|]. split; cbn; try done.
    { unfold array_ok, ar_length in *. cbn. rewrite Ei, map_app, length_app in Hc. rewrite length_take, !length_app, !length_map in *. cbn in *. lia. }
    exists cached. rewrite length_app. cbn [length]. rewrite Nat.add_sub, take_app_length' by (by rewrite length_map).
    split; [done|]. split; [done|]. split; [intros i Hi; specialize (Hx i Hi); specialize (Hout i); set_solver|]. split.
    + intros i Hi. apply Htaken. set_solver.
    + intros i j Hi Hj. apply Hap; set_solver.
Qed.

Lemma dobject_free_ok d live i : dobject_holds d live -> i ∈ live -> dobject_holds (snd (lexbor_dobject_free given d (Some i))) (live ∖ {[i]}).
Proof.
  intros [Hm Hc Hs (cached & Ei & Hnd & Hout & Htaken & Hap)] Hi.
  assert (Hleft : dobject_holds d (live ∖ {[i]})).
  { split; try done. exists cached. split; [done|]. split; [done|]. split; [intros j Hj; specialize (Hout j Hj); set_solver|].
    split; [intros j Hj; apply Htaken; set_solver | intros j j' Hj Hj'; apply Hap; set_solver]. }
  unfold lexbor_dobject_free. destruct (lexbor_array_push given (do_cache d) (Some i)) as [status cache] eqn:E.
  destruct (array_pushes given (do_cache d) (Some i) Hc) as [Ep|(Es & Hok & El)]; rewrite E in *; cbn [fst snd] in *.
  - injection Ep as -> ->. change (LXB_STATUS_ERROR_MEMORY_ALLOCATION =? LXB_STATUS_OK) with false. cbn. by destruct d.
  - subst status. change (LXB_STATUS_OK =? LXB_STATUS_OK) with true. cbn. split; cbn; try done. exists (cached ++ [i]). rewrite El, Ei, map_app. split; [done|].
    split; [apply NoDup_app; split; [done|]; split; [|apply NoDup_singleton]; intros j Hj; specialize (Hout j Hj); set_solver|].
    split; [intros j Hj; specialize (Hout j); set_solver|]. split; [intros j Hj; apply Htaken; set_solver | intros j j' Hj Hj'; apply Hap; set_solver].
Qed.

Lemma dobject_clean_ok d live : dobject_holds d live -> dobject_holds (lexbor_dobject_clean d) ∅.
Proof.
  intros [Hm Hc Hs _]. split; cbn; [by apply mem_clean_ok | | done |].
  - unfold array_ok, ar_length, lexbor_array_clean in *. cbn in *. lia.
  - exists []. split; [done|]. split; [constructor|]. split; [by intros i ?%elem_of_nil|]. split; [by intros i [?%elem_of_nil|?] | by intros i j [?%elem_of_nil|?]].
Qed.

#[export] Instance dobject_pool_laws : ObjectPoolLaws lexbor_dobject.
Proof. split; [exact dobject_alloc_ok | exact dobject_free_ok | exact dobject_clean_ok]. Qed.

Lemma dobject_init_ok chunk_size struct_size d : 0 < chunk_size < 2 ^ 32 -> 0 < struct_size < 2 ^ 29 ->
  lexbor_dobject_init given chunk_size struct_size = (LXB_STATUS_OK, Some d) -> dobject_holds d ∅.
Proof.
  intros Hc Hs. unfold lexbor_dobject_init. rewrite !(proj2 (Z.eqb_neq _ _)) by lia. cbn [orb].
  unfold size_wrap. rewrite Z.mod_small by nia. destruct (align_up (chunk_size * struct_size)) as [Ha _]; [nia|].
  pose proof (mem_init_ok (lexbor_mem_align (chunk_size * struct_size)) ltac:(nia)) as Hm.
  destruct (lexbor_mem_init _) as [s [m|]]; [|by intros [= -> ?]]. destruct Hm as (-> & Hm & _). unfold lexbor_array_init. rewrite (proj2 (Z.eqb_neq _ _)) by lia.
  destruct (given _); [|done]. change (negb (LXB_STATUS_OK =? LXB_STATUS_OK)) with false. intros [= <-]. split; cbn; try done.
  - unfold array_ok, ar_length, SIZE_MAX. cbn. lia.
  - lia.
  - exists []. split; [done|]. split; [constructor|]. split; [by intros i ?%elem_of_nil|]. split; [by intros i [?%elem_of_nil|?] | by intros i j [?%elem_of_nil|?]].
Qed.
End Pool.
