(* ===== verification/Bst.v ===== *)
(** * Search trees: [core/bst.c]

    The entries are nodes of a heap, from a pool of objects; entries of one size hang
    on the first of them by [next]. *)
From S2P Require Import Prelude.
From S2P Require Import TkzBase.
From S2P Require Import Array.
From S2P Require Import Mem.

#[local] Set Warnings "-clear-no-such-hyp".

(** [lexbor_bst_entry_t] *)
Record bst_entry := mk_entry {
  be_value : Z; be_right : option positive; be_left : option positive; be_next : option positive; be_parent : option positive; be_size : Z
}.
Definition entry_zero : bst_entry := mk_entry 0 None None None None 0.

Definition set_be_value x n := mk_entry x (be_right n) (be_left n) (be_next n) (be_parent n) (be_size n).
Definition set_be_right x n := mk_entry (be_value n) x (be_left n) (be_next n) (be_parent n) (be_size n).
Definition set_be_left x n := mk_entry (be_value n) (be_right n) x (be_next n) (be_parent n) (be_size n).
Definition set_be_next x n := mk_entry (be_value n) (be_right n) (be_left n) x (be_parent n) (be_size n).
Definition set_be_parent x n := mk_entry (be_value n) (be_right n) (be_left n) (be_next n) x (be_size n).
Definition set_be_size x n := mk_entry (be_value n) (be_right n) (be_left n) (be_next n) (be_parent n) x.

Abbreviation bst_heap := (gmap positive bst_entry).
Definition bst_upd (f : bst_entry -> bst_entry) (i : positive) (h : bst_heap) : option bst_heap := n ← h !! i; Some (<[i := f n]> h).

(** [lexbor_bst_t]: its pool, the heap of its entries; the root is an argument of the
    operations, [scope], and part of what they answer. *)
Record lexbor_bst (S : Type) := mk_bst { bst_dobject : S; bst_entries : bst_heap; bst_root : option positive; tree_length : Z }.
Arguments mk_bst {S}.
Arguments bst_dobject {S}.
Arguments bst_entries {S}.
Arguments bst_root {S}.
Arguments tree_length {S}.

Definition set_root {S} (r : option positive) (b : lexbor_bst S) : lexbor_bst S := mk_bst (bst_dobject b) (bst_entries b) r (tree_length b).
Definition set_entries {S} (h : bst_heap) (b : lexbor_bst S) : lexbor_bst S := mk_bst (bst_dobject b) h (bst_root b) (tree_length b).
Definition set_tree_length {S} (n : Z) (b : lexbor_bst S) : lexbor_bst S := mk_bst (bst_dobject b) (bst_entries b) (bst_root b) n.

Section Bst.
Context {S : Type} `{ObjectPool S}.

Definition lexbor_bst_init (pool : S) : lexbor_bst S := mk_bst pool ∅ None 0.
Definition lexbor_bst_clean (b : lexbor_bst S) : lexbor_bst S := mk_bst (pool_clean (bst_dobject b)) ∅ None 0.

(** [lexbor_dobject_calloc] of an entry, and [lexbor_dobject_free]. *)
Definition calloc_entry (b : lexbor_bst S) : option positive * lexbor_bst S :=
  match pool_alloc (bst_dobject b) with
  | (None, s) => (None, mk_bst s (bst_entries b) (bst_root b) (tree_length b))
  | (Some i, s) => (Some i, mk_bst s (<[i := entry_zero]> (bst_entries b)) (bst_root b) (tree_length b))
  end.
Definition free_entry (i : positive) (b : lexbor_bst S) : lexbor_bst S :=
  mk_bst (pool_free (bst_dobject b) i) (delete i (bst_entries b)) (bst_root b) (tree_length b).

Definition lexbor_bst_entry_make (b : lexbor_bst S) (size : Z) : option (option positive * lexbor_bst S) :=
  match calloc_entry b with
  | (None, b) => Some (None, b)
  | (Some i, b) =>
      h ← bst_upd (set_be_size size) i (bst_entries b);
      Some (Some i, set_tree_length (size_wrap (tree_length b + 1)) (set_entries h b))
  end.

(** The loop of [lexbor_bst_insert]; each step goes down one entry. *)
Fixpoint insert_loop (fuel : nat) (new : positive) (size : Z) (entry : positive) (h : bst_heap) : option bst_heap :=
  match fuel with
  | O => None
  | Datatypes.S fuel =>
      n ← h !! entry;
      if size =? be_size n then
        h ← match be_next n with Some next => bst_upd (set_be_next (Some next)) new h | None => Some h end;
        h ← bst_upd (set_be_next (Some new)) entry h;
        bst_upd (set_be_parent (be_parent n)) new h
      else if size >? be_size n then
        match be_right n with
        | None => h ← bst_upd (set_be_right (Some new)) entry h; bst_upd (set_be_parent (Some entry)) new h
        | Some r => insert_loop fuel new size r h
        end
      else
        match be_left n with
        | None => h ← bst_upd (set_be_left (Some new)) entry h; bst_upd (set_be_parent (Some entry)) new h
        | Some l => insert_loop fuel new size l h
        end
  end.

(** The new entry, and [*scope]; NULL if there is no memory. *)
Definition lexbor_bst_insert (b : lexbor_bst S) (scope : option positive) (size value : Z) :
    option (option positive * option positive * lexbor_bst S) :=
  match calloc_entry b with
  | (None, b) => Some (None, scope, b)
  | (Some new, b) =>
      h ← bst_upd (fun n => set_be_value value (set_be_size size n)) new (bst_entries b);
      let b := set_tree_length (size_wrap (tree_length b + 1)) (set_entries h b) in
      match scope with
      | None => Some (Some new, Some new, b)
      | Some entry => h ← insert_loop (base.size h) new size entry h; Some (Some new, scope, set_entries h b)
      end
  end.

(** The loop of [lexbor_bst_insert_not_exists]: the entry of the size, or where to
    make it. *)
Inductive insert_place := Found (i : positive) | Right_of (i : positive) | Left_of (i : positive).
Fixpoint place_loop (fuel : nat) (size : Z) (entry : positive) (h : bst_heap) : option insert_place :=
  match fuel with
  | O => None
  | Datatypes.S fuel =>
      n ← h !! entry;
      if size =? be_size n then Some (Found entry)
      else if size >? be_size n then
        match be_right n with None => Some (Right_of entry) | Some r => place_loop fuel size r h end
      else match be_left n with None => Some (Left_of entry) | Some l => place_loop fuel size l h end
  end.

(** The entry that was made is written to without a test for NULL. *)
Definition lexbor_bst_insert_not_exists (b : lexbor_bst S) (scope : option positive) (size : Z) :
    option (option positive * option positive * lexbor_bst S) :=
  match scope with
  | None => '(i, b) ← lexbor_bst_entry_make b size; Some (i, i, b)
  | Some entry =>
      p ← place_loop (base.size (bst_entries b)) size entry (bst_entries b);
      match p with
      | Found i => Some (Some i, scope, b)
      | Right_of e =>
          '(i, b) ← lexbor_bst_entry_make b size;
          h ← bst_upd (set_be_right i) e (bst_entries b);
          i ← i; h ← bst_upd (set_be_parent (Some e)) i h; Some (Some i, scope, set_entries h b)
      | Left_of e =>
          '(i, b) ← lexbor_bst_entry_make b size;
          h ← bst_upd (set_be_left i) e (bst_entries b);
          i ← i; h ← bst_upd (set_be_parent (Some e)) i h; Some (Some i, scope, set_entries h b)
      end
  end.

Fixpoint search_loop (fuel : nat) (size : Z) (scope : option positive) (h : bst_heap) : option (option positive) :=
  match scope with
  | None => Some None
  | Some i =>
      match fuel with
      | O => None
      | Datatypes.S fuel =>
          n ← h !! i;
          if be_size n =? size then Some (Some i)
          else if size >? be_size n then search_loop fuel size (be_right n) h else search_loop fuel size (be_left n) h
      end
  end.
Definition lexbor_bst_search (b : lexbor_bst S) (scope : option positive) (size : Z) : option (option positive) :=
  search_loop (base.size (bst_entries b)) size scope (bst_entries b).

(** The smallest entry that is not smaller; [max] is the last one that was greater. *)
Fixpoint search_close_loop (fuel : nat) (size : Z) (max scope : option positive) (h : bst_heap) : option (option positive) :=
  match scope with
  | None => Some max
  | Some i =>
      match fuel with
      | O => None
      | Datatypes.S fuel =>
          n ← h !! i;
          if be_size n =? size then Some (Some i)
          else if size >? be_size n then search_close_loop fuel size max (be_right n) h else search_close_loop fuel size (Some i) (be_left n) h
      end
  end.
Definition lexbor_bst_search_close (b : lexbor_bst S) (scope : option positive) (size : Z) : option (option positive) :=
  search_close_loop (base.size (bst_entries b)) size None scope (bst_entries b).

(** The children of an entry get it as their parent. *)
Definition adopt_children (entry : positive) (h : bst_heap) : option bst_heap :=
  e ← h !! entry;
  h ← match be_right e with Some r => bst_upd (set_be_parent (Some entry)) r h | None => Some h end;
  match be_left e with Some l => bst_upd (set_be_parent (Some entry)) l h | None => Some h end.

(** An entry with one child: the branches for a missing left and a missing right child
    are the same but for the child.  Below a parent the child is copied over the
    entry. *)
Definition remove_one_child (b : lexbor_bst S) (entry : positive) (n : bst_entry) (child : positive) (root : option positive) :
    option (option positive * lexbor_bst S) :=
  match be_parent n with
  | None =>
      h ← bst_upd (set_be_parent None) child (bst_entries b);
      let b := free_entry entry (set_entries h b) in
      h ← adopt_children child (bst_entries b); Some (Some child, set_entries h b)
  | Some _ =>
      h ← bst_upd (set_be_parent (be_parent n)) child (bst_entries b);
      c ← h !! child;
      let b := free_entry child (set_entries (<[entry := c]> h) b) in
      h ← adopt_children entry (bst_entries b); Some (root, set_entries h b)
  end.

(** An entry without children. *)
Definition remove_leaf (b : lexbor_bst S) (entry : positive) (n : bst_entry) (root : option positive) : option (option positive * lexbor_bst S) :=
  match be_parent n with
  | Some p =>
      m ← bst_entries b !! p;
      h ← (if decide (be_left m = Some entry) then bst_upd (set_be_left None) p (bst_entries b) else Some (bst_entries b));
      m ← h !! p;
      h ← (if decide (be_right m = Some entry) then bst_upd (set_be_right None) p h else Some h);
      Some (root, free_entry entry (set_entries h b))
  | None => Some (None, free_entry entry b)
  end.

Fixpoint leftmost (fuel : nat) (i : positive) (h : bst_heap) : option positive :=
  match fuel with
  | O => None
  | Datatypes.S fuel => n ← h !! i; match be_left n with None => Some i | Some l => leftmost fuel l h end
  end.

(** An entry with two children gets what the leftmost entry on its right has. *)
Definition remove_two_children (b : lexbor_bst S) (entry : positive) (n : bst_entry) (r : positive) : option (lexbor_bst S) :=
  left ← leftmost (base.size (bst_entries b)) r (bst_entries b);
  l ← bst_entries b !! left;
  h ← bst_upd (fun e => set_be_value (be_value l) (set_be_next (be_next l) (set_be_size (be_size l) e))) entry (bst_entries b);
  h ← (if decide (be_right n = Some left) then
         h ← bst_upd (set_be_right (be_right l)) entry h;
         match be_right l with Some x => bst_upd (set_be_parent (Some entry)) x h | None => Some h end
       else
         p ← be_parent l;
         h ← bst_upd (set_be_left (be_right l)) p h;
         match be_right l with Some x => bst_upd (set_be_parent (Some p)) x h | None => Some h end);
  Some (free_entry left (set_entries h b)).

(** The value, and [*root]. *)
Definition lexbor_bst_remove_by_pointer (b : lexbor_bst S) (entry : positive) (root : option positive) : option (Z * option positive * lexbor_bst S) :=
  let b := set_tree_length (size_wrap (tree_length b - 1)) b in
  n ← bst_entries b !! entry;
  match be_next n with
  | Some next =>
      m ← bst_entries b !! next;
      h ← bst_upd (set_be_next (be_next m)) entry (bst_entries b);
      Some (be_value m, root, free_entry next (set_entries h b))
  | None =>
      match be_left n, be_right n with
      | None, None => '(root, b) ← remove_leaf b entry n root; Some (be_value n, root, b)
      | None, Some child | Some child, None => '(root, b) ← remove_one_child b entry n child root; Some (be_value n, root, b)
      | Some _, Some r => b ← remove_two_children b entry n r; Some (be_value n, root, b)
      end
  end.

(** The value of an entry of the size, or NULL. *)
Definition lexbor_bst_remove (b : lexbor_bst S) (scope : option positive) (size : Z) : option (option Z * option positive * lexbor_bst S) :=
  e ← search_loop (base.size (bst_entries b)) size scope (bst_entries b);
  match e with
  | None => Some (None, scope, b)
  | Some i => '(v, root, b) ← lexbor_bst_remove_by_pointer b i scope; Some (Some v, root, b)
  end.

(** Of an entry that is not smaller; the size that was found is part of the answer. *)
Definition lexbor_bst_remove_close (b : lexbor_bst S) (scope : option positive) (size : Z) :
    option (option Z * Z * option positive * lexbor_bst S) :=
  e ← search_close_loop (base.size (bst_entries b)) size None scope (bst_entries b);
  match e with
  | None => Some (None, 0, scope, b)
  | Some i =>
      n ← bst_entries b !! i;
      '(v, root, b) ← lexbor_bst_remove_by_pointer b i scope; Some (Some v, be_size n, root, b)
  end.
End Bst.

(** ** Trees *)

(** An entry with the entries that hang on it, and its subtrees. *)
#[warnings="-register-all"]
Inductive btree := BLeaf | BNode (i : positive) (s v : Z) (hs : list (positive * Z)) (l r : btree).

Definition bt_root (t : btree) : option positive := match t with BLeaf => None | BNode i _ _ _ _ _ => Some i end.
Fixpoint bt_ids (t : btree) : list positive :=
  match t with BLeaf => [] | BNode i _ _ hs l r => i :: map fst hs ++ bt_ids l ++ bt_ids r end.
Fixpoint bt_sizes (t : btree) : list Z := match t with BLeaf => [] | BNode _ s _ _ l r => s :: bt_sizes l ++ bt_sizes r end.
(** The sizes and values of all entries. *)
Definition own (s v : Z) (hs : list (positive * Z)) : list (Z * Z) := (s, v) :: map (fun x => (s, snd x)) hs.
Fixpoint bt_contents (t : btree) : list (Z * Z) :=
  match t with BLeaf => [] | BNode _ s v hs l r => own s v hs ++ bt_contents l ++ bt_contents r end.

Fixpoint bt_ordered (t : btree) : Prop :=
  match t with
  | BLeaf => True
  | BNode _ s _ _ l r => Forall (fun x => x < s) (bt_sizes l) /\ Forall (fun x => s < x) (bt_sizes r) /\ bt_ordered l /\ bt_ordered r
  end.

Fixpoint bt_height (t : btree) : nat := match t with BLeaf => 0 | BNode _ _ _ _ l r => S (Nat.max (bt_height l) (bt_height r)) end.

Lemma height_ids t : (bt_height t <= length (bt_ids t))%nat.
Proof. induction t as [|i s v hs l IHl r IHr]; cbn; [lia|]. rewrite !length_app. lia. Qed.

(** In the heap. *)
Fixpoint hung (h : bst_heap) (o : option positive) (hs : list (positive * Z)) : Prop :=
  match hs with [] => o = None | (j, v) :: hs => o = Some j /\ exists n, h !! j = Some n /\ be_value n = v /\ hung h (be_next n) hs end.

Definition entry_at (h : bst_heap) (p : option positive) (i : positive) (s v : Z) (hs : list (positive * Z)) (lo ro : option positive) : Prop :=
  exists n, h !! i = Some n /\ be_size n = s /\ be_value n = v /\ be_parent n = p /\ be_left n = lo /\ be_right n = ro /\ hung h (be_next n) hs.

Fixpoint bt_at (h : bst_heap) (p : option positive) (t : btree) : Prop :=
  match t with
  | BLeaf => True
  | BNode i s v hs l r => entry_at h p i s v hs (bt_root l) (bt_root r) /\ bt_at h (Some i) l /\ bt_at h (Some i) r
  end.

Lemma hung_frame h h' hs : forall o, (forall k, k ∈ map fst hs -> h' !! k = h !! k) -> hung h o hs -> hung h' o hs.
Proof.
  induction hs as [|[j v] hs IH]; intros o Hk; [done|]. cbn in *. intros (-> & n & Hn & Hv & Hs). split; [done|]. exists n.
  split; [rewrite Hk; [done | left]|]. split; [done|]. apply IH; [|done]. intros k Hin. apply Hk. by right.
Qed.

Lemma node_frame h h' p i s v hs lo ro : (forall k, k ∈ i :: map fst hs -> h' !! k = h !! k) -> entry_at h p i s v hs lo ro -> entry_at h' p i s v hs lo ro.
Proof.
  intros Hk (n & Hn & H1 & H2 & H3 & H4 & H5 & Hs). exists n. split; [rewrite Hk; [done | left]|]. repeat (split; [done|]).
  eapply hung_frame; [|exact Hs]. intros k Hin. apply Hk. by right.
Qed.

Lemma bt_frame h h' t : forall p, (forall k, k ∈ bt_ids t -> h' !! k = h !! k) -> bt_at h p t -> bt_at h' p t.
Proof.
  induction t as [|i s v hs l IHl r IHr]; intros p Hk; [done|]. cbn [bt_at bt_ids] in *. intros (Hn & Hl & Hr).
  split; [|split].
  - eapply node_frame; [|exact Hn]. intros k Hin. apply Hk. set_solver.
  - apply IHl; [|done]. intros k Hin. apply Hk. set_solver.
  - apply IHr; [|done]. intros k Hin. apply Hk. set_solver.
Qed.

(** The entry's other fields are changed. *)
Lemma node_change h p i s v hs lo ro n : h !! i = Some n -> i ∉ map fst hs -> hung h (be_next n) hs ->
  forall n', be_size n' = s -> be_value n' = v -> be_parent n' = p -> be_left n' = lo -> be_right n' = ro -> be_next n' = be_next n ->
  entry_at (<[i := n']> h) p i s v hs lo ro.
Proof.
  intros Hn Hi Hs n' H1 H2 H3 H4 H5 H6. exists n'. rewrite lookup_insert_eq. repeat (split; [done|]). rewrite H6.
  eapply hung_frame; [|exact Hs]. intros k Hk. rewrite lookup_insert_ne; [done|]. by intros ->.
Qed.

Lemma upd_ok f i n (h : bst_heap) : h !! i = Some n -> bst_upd f i h = Some (<[i := f n]> h).
Proof. intros E. unfold bst_upd. by rewrite E. Qed.

(** *** Insertion *)

Fixpoint bt_insert (new : positive) (size value : Z) (t : btree) : btree :=
  match t with
  | BLeaf => BNode new size value [] BLeaf BLeaf
  | BNode i s v hs l r =>
      if size =? s then BNode i s v ((new, value) :: hs) l r
      else if size >? s then BNode i s v hs l (bt_insert new size value r) else BNode i s v hs (bt_insert new size value l) r
  end.

Lemma insert_ids new size value t : bt_ids (bt_insert new size value t) ≡ₚ new :: bt_ids t.
Proof.
  induction t as [|i s v hs l IHl r IHr]; [done|]. cbn [bt_insert]. destruct (size =? s); [|destruct (size >? s)]; cbn [bt_ids map fst app]; rewrite ?IHl, ?IHr; solve_Permutation.
Qed.

Lemma insert_contents new size value t : bt_contents (bt_insert new size value t) ≡ₚ (size, value) :: bt_contents t.
Proof.
  induction t as [|i s v hs l IHl r IHr]; [done|]. cbn [bt_insert]. destruct (Z.eqb_spec size s) as [<-|]; [|destruct (size >? s)]; unfold own; cbn [bt_contents map snd app];
    unfold own; cbn [app map snd]; rewrite ?IHl, ?IHr; solve_Permutation.
Qed.

Lemma insert_sizes new size value t : forall x, x ∈ bt_sizes (bt_insert new size value t) -> x = size \/ x ∈ bt_sizes t.
Proof.
  induction t as [|i s v hs l IHl r IHr]; intros x; [cbn; set_solver|]. cbn [bt_insert]. destruct (size =? s); [|destruct (size >? s)]; cbn [bt_sizes]; set_solver.
Qed.

Lemma insert_ordered new size value t : bt_ordered t -> bt_ordered (bt_insert new size value t).
Proof.
  induction t as [|i s v hs l IHl r IHr]; [done|]. cbn [bt_ordered bt_insert]. intros (H1 & H2 & H3 & H4). rewrite Forall_forall in H1, H2.
  destruct (Z.eqb_spec size s) as [|Hne]; [cbn; by rewrite !Forall_forall|]. destruct (size >? s) eqn:E; cbn; rewrite !Forall_forall.
  - split; [done|]. split; [|by auto]. intros x [->|Hx]%insert_sizes; [lia | by apply H2].
  - split; [|by auto]. intros x [->|Hx]%insert_sizes; [lia | by apply H1].
Qed.

Definition fresh_entry (size value : Z) : bst_entry := mk_entry value None None None None size.

(** The addresses that two heaps use. *)
Definition same_dom (h h' : bst_heap) : Prop := forall k, is_Some (h' !! k) <-> is_Some (h !! k).

Lemma same_dom_insert (h : bst_heap) i n : is_Some (h !! i) -> same_dom h (<[i := n]> h).
Proof. intros Hi k. destruct (decide (i = k)) as [<-|Hk]; [rewrite lookup_insert_eq; by split; [|eauto] | by rewrite lookup_insert_ne]. Qed.

Lemma same_dom_trans h1 h2 h3 : same_dom h1 h2 -> same_dom h2 h3 -> same_dom h1 h3.
Proof. intros H1 H2 k. by rewrite (H2 k), (H1 k). Qed.

(** Where the loop ends: an entry of the size, and one without the child. *)
Lemma insert_hang h p i s v hs lo ro new value n : entry_at h p i s v hs lo ro -> h !! i = Some n -> new ∉ i :: map fst hs -> i ∉ map fst hs ->
  h !! new = Some (fresh_entry s value) ->
  exists h1 h2, match be_next n with Some next => bst_upd (set_be_next (Some next)) new h | None => Some h end = Some h1 /\
    bst_upd (set_be_next (Some new)) i h1 = Some h2 /\
    exists h', bst_upd (set_be_parent (be_parent n)) new h2 = Some h' /\ entry_at h' p i s v ((new, value) :: hs) lo ro /\ same_dom h h' /\
      forall k, k <> new -> k <> i -> h' !! k = h !! k.
Proof.
  intros (n0 & Hn0 & H1 & H2 & H3 & H4 & H5 & Hh) Hn Hnew Hi Hf. assert (n0 = n) as -> by congruence. assert (new <> i) as Hne by set_solver.
  set (h1 := <[new := set_be_next (be_next n) (fresh_entry s value)]> h). exists h1, (<[i := set_be_next (Some new) n]> h1).
  split; [|split].
  - destruct (be_next n) as [next|] eqn:E; [by apply upd_ok|]. subst h1. by rewrite insert_id.
  - apply upd_ok. subst h1. by rewrite lookup_insert_ne.
  - eexists. split; [apply upd_ok; rewrite lookup_insert_ne by done; apply lookup_insert_eq|]. split; [|split].
    + eexists. split; [rewrite lookup_insert_ne, lookup_insert_eq by done; reflexivity|]. repeat (split; [done|]).
      eexists. rewrite lookup_insert_eq. split; [reflexivity|]. split; [done|]. subst h1.
      eapply hung_frame; [|exact Hh]. intros k Hk. rewrite !lookup_insert_ne; [done | intros ->; set_solver..].
    + eapply same_dom_trans; [apply same_dom_insert; by eexists|].
      eapply same_dom_trans; [apply same_dom_insert; subst h1; rewrite lookup_insert_ne by done; by eexists|].
      apply same_dom_insert. rewrite lookup_insert_ne by done. subst h1. rewrite lookup_insert_eq. by eexists.
    + intros k Hk Hki. subst h1. by rewrite !lookup_insert_ne.
Qed.

Lemma hang_child h (f : bst_entry -> bst_entry) i n new size value : h !! i = Some n -> h !! new = Some (fresh_entry size value) -> new <> i ->
  exists h', (h ← bst_upd f i h; bst_upd (set_be_parent (Some i)) new h) = Some h' /\ h' !! i = Some (f n) /\
    (forall s v, s = size -> v = value -> bt_at h' (Some i) (BNode new s v [] BLeaf BLeaf)) /\ same_dom h h' /\ forall k, k <> new -> k <> i -> h' !! k = h !! k.
Proof.
  intros Hn Hf Hne. rewrite (upd_ok _ _ _ _ Hn). cbn [mbind option_bind]. eexists. split; [apply upd_ok; by rewrite lookup_insert_ne|].
  split; [by rewrite lookup_insert_ne, lookup_insert_eq|]. split; [|split].
  - intros s v -> ->. split; [|done]. eexists. by rewrite lookup_insert_eq.
  - eapply same_dom_trans; apply same_dom_insert; [by eexists|]. rewrite lookup_insert_ne by done. by eexists.
  - intros k Hk Hki. by rewrite !lookup_insert_ne.
Qed.

Lemma node_set h h' p i s v hs lo ro n n' lo' ro' : entry_at h p i s v hs lo ro -> h !! i = Some n -> h' !! i = Some n' -> (forall k, k ∈ map fst hs -> h' !! k = h !! k) ->
  be_size n' = be_size n -> be_value n' = be_value n -> be_parent n' = be_parent n -> be_next n' = be_next n ->
  be_left n' = lo' -> be_right n' = ro' -> entry_at h' p i s v hs lo' ro'.
Proof.
  intros (n0 & Hn0 & H1 & H2 & H3 & H4 & H5 & Hh) Hn Hn' Hk E1 E2 E3 E4 E5 E6. assert (n0 = n) as -> by congruence. exists n'.
  rewrite E1, E2, E3, E4. repeat (split; [done|]). by eapply hung_frame.
Qed.

Lemma insert_loop_ok new size value t : forall p i s v hs l r fuel h, t = BNode i s v hs l r -> bt_at h p t -> NoDup (bt_ids t) -> new ∉ bt_ids t ->
  h !! new = Some (fresh_entry size value) -> (bt_height t <= fuel)%nat ->
  exists h', insert_loop fuel new size i h = Some h' /\ bt_at h' p (bt_insert new size value t) /\ same_dom h h' /\
    forall k, k <> new -> k ∉ bt_ids t -> h' !! k = h !! k.
Proof.
  induction t as [|i s v hs l IHl r IHr]; intros p i' s' v' hs' l' r' fuel h; [done|]. intros [= <- <- <- <- <- <-] (Hnode & Hl & Hr) Hnd Hnew Hf Hfuel.
  cbn [bt_ids bt_height] in *. destruct fuel as [|fuel]; [lia|]. apply NoDup_cons in Hnd as [Hi Hnd]. apply NoDup_app in Hnd as (Hnd1 & Hd1 & Hnd2).
  apply NoDup_app in Hnd2 as (Hnd2 & Hd2 & Hnd3).
  pose proof Hnode as (n & Hn & Hs & Hv & Hp & Hlo & Hro & Hh). cbn [insert_loop bt_insert]. rewrite Hn. cbn [mbind option_bind]. rewrite Hs.
  destruct (Z.eqb_spec size s) as [->|Hne]; [|destruct (size >? s) eqn:Hgt].
  - destruct (insert_hang h p i s v hs _ _ new value n Hnode Hn) as (h1 & h2 & -> & E2 & h' & E' & Hnode' & Hdom & Hk); [clear -Hnew; set_solver | clear -Hi; set_solver | done |].
    cbn [mbind option_bind]. rewrite E2. cbn [mbind option_bind]. exists h'. split; [exact E'|]. split; [|split; [done | intros k Hk1 Hk2; apply Hk; clear -Hk1 Hk2; set_solver]].
    split; [exact Hnode'|]. split; eapply bt_frame; try eassumption; intros k Hin; apply Hk; intros ->; clear -Hin Hnew Hi; set_solver.
  - destruct r as [|j s2 v2 hs2 l2 r2]; rewrite Hro; cbn [bt_root].
    + destruct (hang_child h (set_be_right (Some new)) i n new size value Hn Hf) as (h' & E & Hi' & Hleaf & Hdom & Hk); [intros ->; clear -Hnew; set_solver|].
      exists h'. split; [exact E|]. split; [|split; [done | intros k Hk1 Hk2; apply Hk; clear -Hk1 Hk2; set_solver]]. split; [|split; [|by apply Hleaf]].
      * eapply (node_set h h'); [exact Hnode | exact Hn | exact Hi' | | done..]. intros k Hin. apply Hk; intros ->; clear -Hin Hnew Hi; set_solver.
      * eapply bt_frame; [|exact Hl]. intros k Hin. apply Hk; intros ->; clear -Hin Hnew Hi; set_solver.
    + destruct (IHr (Some i) j s2 v2 hs2 l2 r2 fuel h eq_refl Hr) as (h' & E & Hr' & Hdom & Hk); [done | clear -Hnew; set_solver | done | lia |].
      exists h'. split; [exact E|]. split; [|split; [done | intros k Hk1 Hk2; apply Hk; clear -Hk1 Hk2; set_solver]]. split; [|split; [|done]].
      * eapply node_frame; [|]. 2: { replace (bt_root (bt_insert _ _ _ _)) with (bt_root (BNode j s2 v2 hs2 l2 r2)); [exact Hnode|]. cbn [bt_insert]. by repeat case_match. }
        intros k Hin. apply Hk; [intros ->; clear -Hin Hnew; set_solver | clear -Hin Hi Hd1 Hd2; set_solver].
      * eapply bt_frame; [|exact Hl]. intros k Hin. apply Hk; [intros ->; clear -Hin Hnew; set_solver | clear -Hin Hi Hd1 Hd2; set_solver].
  - destruct l as [|j s2 v2 hs2 l2 r2]; rewrite Hlo; cbn [bt_root].
    + destruct (hang_child h (set_be_left (Some new)) i n new size value Hn Hf) as (h' & E & Hi' & Hleaf & Hdom & Hk); [intros ->; clear -Hnew; set_solver|].
      exists h'. split; [exact E|]. split; [|split; [done | intros k Hk1 Hk2; apply Hk; clear -Hk1 Hk2; set_solver]]. split; [|split; [by apply Hleaf|]].
      * eapply (node_set h h'); [exact Hnode | exact Hn | exact Hi' | | done..]. intros k Hin. apply Hk; intros ->; clear -Hin Hnew Hi; set_solver.
      * eapply bt_frame; [|exact Hr]. intros k Hin. apply Hk; intros ->; clear -Hin Hnew Hi; set_solver.
    + destruct (IHl (Some i) j s2 v2 hs2 l2 r2 fuel h eq_refl Hl) as (h' & E & Hl' & Hdom & Hk); [done | clear -Hnew; set_solver | done | lia |].
      exists h'. split; [exact E|]. split; [|split; [done | intros k Hk1 Hk2; apply Hk; clear -Hk1 Hk2; set_solver]]. split; [|split; [done|]].
      * eapply node_frame; [|]. 2: { replace (bt_root (bt_insert _ _ _ _)) with (bt_root (BNode j s2 v2 hs2 l2 r2)); [exact Hnode|]. cbn [bt_insert]. by repeat case_match. }
        intros k Hin. apply Hk; [intros ->; clear -Hin Hnew; set_solver | clear -Hin Hi Hd1 Hd2; set_solver].
      * eapply bt_frame; [|exact Hr]. intros k Hin. apply Hk; [intros ->; clear -Hin Hnew; set_solver | clear -Hin Hi Hd1 Hd2; set_solver].
Qed.

(** *** Trees with a hole *)

Inductive bctx := BTop | BLeft (c : bctx) (i : positive) (s v : Z) (hs : list (positive * Z)) (r : btree)
                       | BRight (c : bctx) (i : positive) (s v : Z) (hs : list (positive * Z)) (l : btree).

Fixpoint fill_hole (c : bctx) (t : btree) : btree :=
  match c with
  | BTop => t
  | BLeft c i s v hs r => fill_hole c (BNode i s v hs t r)
  | BRight c i s v hs l => fill_hole c (BNode i s v hs l t)
  end.

(** The parent of what is in the hole; [q] is that of the whole tree. *)
Definition hole_parent (q : option positive) (c : bctx) : option positive := match c with BTop => q | BLeft _ i _ _ _ _ | BRight _ i _ _ _ _ => Some i end.

Fixpoint hole_ids (c : bctx) : list positive :=
  match c with BTop => [] | BLeft c i _ _ hs t | BRight c i _ _ hs t => i :: map fst hs ++ bt_ids t ++ hole_ids c end.
Fixpoint hole_contents (c : bctx) : list (Z * Z) :=
  match c with BTop => [] | BLeft c _ s v hs t | BRight c _ s v hs t => own s v hs ++ bt_contents t ++ hole_contents c end.

Fixpoint hole_at (h : bst_heap) (q : option positive) (c : bctx) (o : option positive) : Prop :=
  match c with
  | BTop => True
  | BLeft c i s v hs r => entry_at h (hole_parent q c) i s v hs o (bt_root r) /\ bt_at h (Some i) r /\ hole_at h q c (Some i)
  | BRight c i s v hs l => entry_at h (hole_parent q c) i s v hs (bt_root l) o /\ bt_at h (Some i) l /\ hole_at h q c (Some i)
  end.

Lemma filled_at h q c : forall t, bt_at h q (fill_hole c t) <-> hole_at h q c (bt_root t) /\ bt_at h (hole_parent q c) t.
Proof.
  induction c as [|c IH i s v hs r|c IH i s v hs l]; intros t; cbn [fill_hole hole_at hole_parent]; [tauto|..]; rewrite IH; cbn [bt_at bt_root]; tauto.
Qed.

Lemma filled_ids c : forall t, bt_ids (fill_hole c t) ≡ₚ bt_ids t ++ hole_ids c.
Proof. induction c as [|c IH i s v hs r|c IH i s v hs l]; intros t; cbn [fill_hole hole_ids]; [by rewrite app_nil_r|..]; rewrite IH; cbn [bt_ids]; solve_Permutation. Qed.

Lemma filled_contents c : forall t, bt_contents (fill_hole c t) ≡ₚ bt_contents t ++ hole_contents c.
Proof. induction c as [|c IH i s v hs r|c IH i s v hs l]; intros t; cbn [fill_hole hole_contents]; [by rewrite app_nil_r|..]; rewrite IH; cbn [bt_contents]; solve_Permutation. Qed.

Lemma filled_root c : forall i s v hs l r s' v' hs' l' r',
  bt_root (fill_hole c (BNode i s v hs l r)) = bt_root (fill_hole c (BNode i s' v' hs' l' r')).
Proof. induction c as [|c IH j s2 v2 hs2 x|c IH j s2 v2 hs2 x]; intros; cbn; [done | apply IH..]. Qed.

Lemma filled_height c : forall t, (bt_height t <= bt_height (fill_hole c t))%nat.
Proof. induction c as [|c IH i s v hs r|c IH i s v hs l]; intros t; cbn [fill_hole]; [done|..]; (etrans; [|apply IH]); cbn [bt_height]; lia. Qed.

(** Sizes: a smaller tree in the hole keeps the order. *)
Lemma filled_sizes c : forall t t', (forall x, x ∈ bt_sizes t' -> x ∈ bt_sizes t) -> forall x, x ∈ bt_sizes (fill_hole c t') -> x ∈ bt_sizes (fill_hole c t).
Proof.
  induction c as [|c IH i s v hs r|c IH i s v hs l]; intros t t' Ht; cbn [fill_hole]; [done|..]; apply IH; cbn [bt_sizes]; intros x;
    rewrite !elem_of_cons, !elem_of_app; intros [->|[Hx|Hx]]; auto.
Qed.

Lemma filled_ordered c : forall t t', (forall x, x ∈ bt_sizes t' -> x ∈ bt_sizes t) -> (bt_ordered t -> bt_ordered t') -> bt_ordered (fill_hole c t) -> bt_ordered (fill_hole c t').
Proof.
  induction c as [|c IH i s v hs r|c IH i s v hs l]; intros t t' Hs Ho; cbn [fill_hole]; [done|..]; apply IH;
    try (cbn [bt_sizes]; intros x; rewrite !elem_of_cons, !elem_of_app; intros [->|[Hx|Hx]]; by auto);
    cbn [bt_ordered]; rewrite !Forall_forall; intros (H1 & H2 & H3 & H4); split_and!; auto.
Qed.

(** The heap may change outside the context. *)
Lemma hole_frame h h' q c : forall o, (forall k, k ∈ hole_ids c -> h' !! k = h !! k) -> hole_at h q c o -> hole_at h' q c o.
Proof.
  induction c as [|c IH i s v hs r|c IH i s v hs l]; intros o Hk; [done|..]; cbn [hole_at hole_ids] in *; intros (Hn & Ht & Hc);
    (split; [|split]; [eapply node_frame; [|exact Hn] | eapply bt_frame; [|exact Ht] | apply IH; [|exact Hc]]);
    intros k Hin; apply Hk; rewrite ?elem_of_cons, ?elem_of_app in *; tauto.
Qed.

(** Another root in the hole: the parent's pointer changes. *)
Definition point_hole (c : bctx) (o : option positive) (h : bst_heap) : bst_heap :=
  match c with BTop => h | BLeft _ i _ _ _ _ => alter (set_be_left o) i h | BRight _ i _ _ _ _ => alter (set_be_right o) i h end.

Lemma hole_set h q c o o' : hole_at h q c o -> NoDup (hole_ids c) -> hole_at (point_hole c o' h) q c o'.
Proof.
  intros Hc Hnd. destruct c as [|c i s v hs r|c i s v hs l]; [done|..]; cbn [hole_at hole_ids point_hole] in *; destruct Hc as (Hn & Ht & Hc);
    apply NoDup_cons in Hnd as [Hi _]; rewrite !elem_of_app in Hi; pose proof Hn as (n & Ei & _);
    (assert (Hne : forall (f : bst_entry -> bst_entry) k, k ≠ i -> alter f i h !! k = h !! k) by (intros f k Hk; by rewrite lookup_alter_ne)).
  - split; [|split].
    + eapply node_set; [exact Hn | exact Ei | by rewrite lookup_alter_eq, Ei | | done.. | ]; [intros k Hk; apply Hne; intros ->; tauto|].
      destruct Hn as (n0 & En & _ & _ & _ & _ & Hr & _). assert (n0 = n) as -> by congruence. exact Hr.
    + eapply bt_frame; [|exact Ht]. intros k Hk. apply Hne. intros ->. tauto.
    + eapply hole_frame; [|exact Hc]. intros k Hk. apply Hne. intros ->. tauto.
  - split; [|split].
    + eapply node_set; [exact Hn | exact Ei | by rewrite lookup_alter_eq, Ei | | done..| | done]; [intros k Hk; apply Hne; intros ->; tauto|].
      destruct Hn as (n0 & En & _ & _ & _ & Hl & _ & _). assert (n0 = n) as -> by congruence. exact Hl.
    + eapply bt_frame; [|exact Ht]. intros k Hk. apply Hne. intros ->. tauto.
    + eapply hole_frame; [|exact Hc]. intros k Hk. apply Hne. intros ->. tauto.
Qed.

(** Another parent for a tree. *)
Definition set_parent_of (o : option positive) (q : option positive) (h : bst_heap) : bst_heap :=
  match o with Some i => alter (set_be_parent q) i h | None => h end.

Lemma reparent h p q t : bt_at h p t -> NoDup (bt_ids t) -> bt_at (set_parent_of (bt_root t) q h) q t.
Proof.
  destruct t as [|i s v hs l r]; [done|]. cbn [bt_at bt_ids bt_root set_parent_of]. intros ((n & Hn & H1 & H2 & H3 & H4 & H5 & Hh) & Hl & Hr) [Hi _]%NoDup_cons.
  rewrite !elem_of_app in Hi. assert (Hne : forall k, k ≠ i -> alter (set_be_parent q) i h !! k = h !! k) by (intros k Hk; by rewrite lookup_alter_ne).
  split; [|split; eapply bt_frame; try eassumption; intros k Hk; apply Hne; intros ->; tauto].
  exists (set_be_parent q n). rewrite lookup_alter_eq, Hn. repeat (split; [done|]). eapply hung_frame; [|exact Hh]. intros k Hk. apply Hne. intros ->. tauto.
Qed.

(** *** Removal of an entry *)

Lemma bst_upd_alter f i (h : bst_heap) : is_Some (h !! i) -> bst_upd f i h = Some (alter f i h).
Proof.
  intros [n Hn]. rewrite (upd_ok _ _ _ _ Hn). f_equal. apply map_eq. intros k. destruct (decide (i = k)) as [<-|Hk].
  - by rewrite lookup_insert_eq, lookup_alter_eq, Hn.
  - by rewrite lookup_insert_ne, lookup_alter_ne.
Qed.

Lemma same_dom_alter f i (h : bst_heap) : same_dom h (alter f i h).
Proof. intros k. destruct (decide (i = k)) as [<-|Hk]; [rewrite lookup_alter_eq; by destruct (h !! i) | by rewrite lookup_alter_ne]. Qed.

Lemma root_id t i : bt_root t = Some i -> i ∈ bt_ids t.
Proof. destruct t; [done|]. intros [= ->]. left. Qed.

Lemma root_alive h p t i : bt_at h p t -> bt_root t = Some i -> is_Some (h !! i).
Proof. destruct t; [done|]. intros ((n & Hn & _) & _) [= <-]. by exists n. Qed.

(** Other nodes than the root stay. *)
Lemma set_parent_other t q h k : k ∉ bt_ids t -> set_parent_of (bt_root t) q h !! k = h !! k.
Proof. intros Hk. destruct (bt_root t) as [i|] eqn:E; [|done]. cbn. rewrite lookup_alter_ne; [done|]. intros ->. by apply Hk, root_id. Qed.

Lemma same_dom_parent o q h : same_dom h (set_parent_of o q h).
Proof. destruct o; [apply same_dom_alter | done]. Qed.

(** The optional write of a parent. *)
Lemma parent_written h p q t : bt_at h p t ->
  match bt_root t with Some x => bst_upd (set_be_parent q) x h | None => Some h end = Some (set_parent_of (bt_root t) q h).
Proof. intros Ht. destruct (bt_root t) as [x|] eqn:E; [|done]. apply bst_upd_alter. by eapply root_alive. Qed.

(** The children of [i] get it as their parent. *)
Lemma adopt_children_ok h i e p q q' hs l r : h !! i = Some e -> be_parent e = p -> hung h (be_next e) hs -> be_left e = bt_root l -> be_right e = bt_root r ->
  bt_at h q l -> bt_at h q' r -> NoDup (bt_ids (BNode i 0 0 hs l r)) ->
  exists h', adopt_children i h = Some h' /\ bt_at h' p (BNode i (be_size e) (be_value e) hs l r) /\ same_dom h h' /\
    forall k, k ∉ bt_ids l ++ bt_ids r -> h' !! k = h !! k.
Proof.
  intros He Hp Hh Hlo Hro Hl Hr Hnd. cbn [bt_ids] in Hnd. apply NoDup_cons in Hnd as [Hi Hnd]. apply NoDup_app in Hnd as (_ & Hd1 & Hnd).
  apply NoDup_app in Hnd as (Hnl & Hd2 & Hnr). rewrite !elem_of_app in Hi.
  set (h1 := set_parent_of (bt_root r) (Some i) h). set (h2 := set_parent_of (bt_root l) (Some i) h1).
  assert (Hk1 : forall k, k ∉ bt_ids r -> h1 !! k = h !! k) by (intros k; apply set_parent_other).
  assert (Hk2 : forall k, k ∉ bt_ids l -> h2 !! k = h1 !! k) by (intros k; apply set_parent_other).
  assert (Hl1 : bt_at h1 q l) by (eapply bt_frame; [|exact Hl]; intros k Hk; by apply Hk1, Hd2).
  exists h2. split; [|split; [|split]].
  - unfold adopt_children. rewrite He. cbn [mbind option_bind]. rewrite Hro, (parent_written h q' (Some i) r Hr). cbn [mbind option_bind]. rewrite Hlo. by apply (parent_written h1 q).
  - split; [|split].
    + exists e. rewrite Hk2, Hk1 by tauto. repeat (split; [done|]). eapply hung_frame; [|exact Hh]. intros k Hk. specialize (Hd1 k Hk). rewrite elem_of_app in Hd1.
      by rewrite Hk2, Hk1 by tauto.
    + by eapply reparent.
    + eapply bt_frame; [|eapply (reparent _ _ (Some i)); [exact Hr | done]]. intros k Hk. apply Hk2. intros Hk'. by apply (Hd2 k Hk').
  - eapply same_dom_trans; apply same_dom_parent.
  - intros k Hk. rewrite elem_of_app in Hk. by rewrite Hk2, Hk1 by tauto.
Qed.

(** [t'] is in the hole in insert_place of [t], without the entry [x]. *)
Record removed (h h' : bst_heap) (c : bctx) (t t' : btree) (x : positive) : Prop := {
  re_at : bt_at h' None (fill_hole c t');
  re_ids : bt_ids t ≡ₚ x :: bt_ids t';
  re_dom : forall k, is_Some (h' !! k) <-> k <> x /\ is_Some (h !! k);
  re_sizes : forall y, y ∈ bt_sizes t' -> y ∈ bt_sizes t;
  re_ordered : bt_ordered t -> bt_ordered t'
}.

Lemma deleted_dom (h h1 : bst_heap) x : same_dom h h1 -> forall k, is_Some (delete x h1 !! k) <-> k <> x /\ is_Some (h !! k).
Proof.
  intros Hd k. destruct (decide (k = x)) as [->|Hk]; [rewrite lookup_delete_eq; split; [intros [? ?]; done | tauto]|].
  rewrite lookup_delete_ne by done. rewrite (Hd k). tauto.
Qed.

(** The way down to the leftmost entry. *)
Fixpoint left_only (c : bctx) : Prop := match c with BTop => True | BLeft c _ _ _ _ _ => left_only c | BRight _ _ _ _ _ _ => False end.

Lemma leftmost_ok h t : forall p c i s v hs l r fuel, t = BNode i s v hs l r -> bt_at h p t -> left_only c -> (bt_height t <= fuel)%nat ->
  exists d j s1 v1 hs1 r1, leftmost fuel i h = Some j /\ left_only d /\ fill_hole c t = fill_hole d (BNode j s1 v1 hs1 BLeaf r1).
Proof.
  induction t as [|i s v hs l IHl r IHr]; intros p c i' s' v' hs' l' r' fuel; [done|]. intros [= <- <- <- <- <- <-] ((n & Hn & _ & _ & _ & Hlo & _) & Hl & _) Hc Hf.
  cbn [bt_height] in Hf. destruct fuel as [|fuel]; [lia|]. cbn [leftmost]. rewrite Hn. cbn [mbind option_bind]. rewrite Hlo. destruct l as [|j s2 v2 hs2 l2 r2]; cbn [bt_root].
  - by exists c, i, s, v, hs, r.
  - apply (IHl (Some i) (BLeft c i s v hs r) j s2 v2 hs2 l2 r2 fuel); [done | done | done | lia].
Qed.

(** A context in a context. *)
Fixpoint inside_hole (d c : bctx) : bctx :=
  match d with
  | BTop => c
  | BLeft d i s v hs r => BLeft (inside_hole d c) i s v hs r
  | BRight d i s v hs l => BRight (inside_hole d c) i s v hs l
  end.

Lemma inside_filled d c : forall t, fill_hole (inside_hole d c) t = fill_hole c (fill_hole d t).
Proof. induction d as [|d IH i s v hs r|d IH i s v hs l]; intros t; cbn; [done | apply IH..]. Qed.

(** [t'] is [t] without its smallest size. *)
Definition without_min (m : Z) (t t' : btree) : Prop :=
  m ∈ bt_sizes t /\ (forall x, x ∈ bt_sizes t' -> x ∈ bt_sizes t) /\ (bt_ordered t -> bt_ordered t' /\ Forall (fun x => m < x) (bt_sizes t')).

Lemma without_min_up m t t' i s v hs r : without_min m t t' -> without_min m (BNode i s v hs t r) (BNode i s v hs t' r).
Proof.
  intros (H1 & H2 & H3). split; [|split].
  - cbn [bt_sizes]. rewrite elem_of_cons, elem_of_app. tauto.
  - cbn [bt_sizes]. intros x. rewrite !elem_of_cons, !elem_of_app. intros [?|[?|?]]; auto.
  - cbn [bt_ordered bt_sizes]. rewrite !Forall_forall. intros (Hl & Hr & Ht & Hor). destruct (H3 Ht) as [Ht' Hm]. rewrite Forall_forall in Hm. split; [auto 10|].
    specialize (Hl m H1). intros x. rewrite elem_of_cons, elem_of_app. intros [->|[Hx|Hx]]; [lia | by apply Hm | specialize (Hr x Hx); lia].
Qed.

Lemma without_min_leftmost d j s v hs r : left_only d -> without_min s (fill_hole d (BNode j s v hs BLeaf r)) (fill_hole d r).
Proof.
  assert (Hup : forall t t', without_min s t t' -> left_only d -> without_min s (fill_hole d t) (fill_hole d t')).
  { induction d as [|d IH i s2 v2 hs2 r2|]; intros t t' Ht Hd; [done| |done]. cbn. apply IH; [|done]. by apply without_min_up. }
  intros Hd. apply Hup; [|done]. split; [cbn; left|]. split; [cbn; intros x Hx; by right|]. cbn. tauto.
Qed.

(** The root of a tree with a hole that is not at the top. *)
Lemma inside_root d t : (exists k, k ∈ hole_ids d /\ bt_root (fill_hole d t) = Some k) \/ d = BTop.
Proof.
  revert t. induction d as [|d IH i s v hs r|d IH i s v hs l]; intros t; [by right|left..]; cbn [fill_hole hole_ids];
    (destruct (IH (BNode i s v hs t r)) as [(k & Hk & E)|E] || destruct (IH (BNode i s v hs l t)) as [(k & Hk & E)|E]).
  - exists k. split; [|done]. rewrite elem_of_cons, !elem_of_app. tauto.
  - subst d. exists i. split; [left | done].
  - exists k. split; [|done]. rewrite elem_of_cons, !elem_of_app. tauto.
  - subst d. exists i. split; [left | done].
Qed.

Section Remove.
Context {S : Type} `{ObjectPool S}.

Lemma remove_leaf_ok (b : lexbor_bst S) c i s v n root : let t := BNode i s v [] BLeaf BLeaf in let h := bst_entries b in
  bt_at h None (fill_hole c t) -> NoDup (bt_ids (fill_hole c t)) -> h !! i = Some n -> root = bt_root (fill_hole c t) ->
  exists h1, remove_leaf b i n root = Some (bt_root (fill_hole c BLeaf), free_entry i (set_entries h1 b)) /\ removed h (delete i h1) c t BLeaf i.
Proof.
  intros t h Hat Hnd Hn ->. apply filled_at in Hat as [Hc ((n0 & Hn0 & _ & _ & Hp & _) & _)]. assert (n0 = n) as -> by (cbn in *; congruence). clear Hn0.
  rewrite filled_ids in Hnd. cbn [bt_ids t map app] in Hnd. apply NoDup_cons in Hnd as [Hi Hnd].
  exists (point_hole c None h). split.
  - unfold remove_leaf. rewrite Hp. destruct c as [|c p s1 v1 hs1 r1|c p s1 v1 hs1 l1]; cbn [hole_parent hole_at hole_ids point_hole fill_hole] in *.
    + cbn. unfold free_entry, set_entries. by destruct b.
    + destruct Hc as ((m & Hm & _ & _ & _ & Hlo & Hro & _) & _ & _). cbn [t bt_root] in Hlo. fold h. rewrite Hm. cbn [mbind option_bind].
      rewrite decide_True by done. rewrite bst_upd_alter by (by exists m). cbn [mbind option_bind]. rewrite lookup_alter_eq, Hm. cbn [fmap option_fmap option_map mbind option_bind].
      rewrite decide_False; [|cbn; rewrite Hro; intros E%root_id; apply Hi; rewrite elem_of_cons, !elem_of_app; tauto]. cbn [mbind option_bind].
      do 2 f_equal. apply filled_root.
    + destruct Hc as ((m & Hm & _ & _ & _ & Hlo & Hro & _) & _ & _). cbn [t bt_root] in Hro. fold h. rewrite Hm. cbn [mbind option_bind].
      rewrite decide_False; [|rewrite Hlo; intros E%root_id; apply Hi; rewrite elem_of_cons, !elem_of_app; tauto]. cbn [mbind option_bind]. rewrite Hm.
      cbn [mbind option_bind]. rewrite decide_True by done. rewrite bst_upd_alter by (by exists m). cbn [mbind option_bind]. do 2 f_equal. apply filled_root.
  - split; [| done | | by intros y ?%elem_of_nil | done].
    + apply filled_at. split; [|done]. eapply hole_frame; [|by apply (hole_set _ _ _ _ None) in Hc]. intros k Hk. rewrite lookup_delete_ne; [done|]. by intros ->.
    + apply deleted_dom. unfold point_hole. destruct c; [done | apply same_dom_alter..].
Qed.

(** The children of [e], which were those of [j]. *)
Lemma adopt_child h h2 e m j p hs l r : h2 !! e = Some m -> be_parent m = p -> hung h (be_next m) hs -> be_left m = bt_root l -> be_right m = bt_root r ->
  bt_at h (Some j) l -> bt_at h (Some j) r -> let below := map fst hs ++ bt_ids l ++ bt_ids r in
  NoDup below -> e ∉ below -> (forall k, k ∈ below -> h2 !! k = h !! k) ->
  exists h', adopt_children e h2 = Some h' /\ bt_at h' p (BNode e (be_size m) (be_value m) hs l r) /\ same_dom h2 h' /\ forall k, k ∉ below -> h' !! k = h2 !! k.
Proof.
  intros He Hp Hh Hlo Hro Hl Hr below Hnd Hout Hk2. destruct (adopt_children_ok h2 e m p (Some j) (Some j) hs l r) as (h' & E & Hat & Hdom & Hk); try done.
  - eapply hung_frame; [|exact Hh]. intros k Hk. apply Hk2. unfold below. rewrite elem_of_app. by left.
  - eapply bt_frame; [|exact Hl]. intros k Hk. apply Hk2. unfold below. rewrite !elem_of_app. tauto.
  - eapply bt_frame; [|exact Hr]. intros k Hk. apply Hk2. unfold below. rewrite !elem_of_app. tauto.
  - by apply NoDup_cons.
  - exists h'. split; [exact E|]. split; [exact Hat|]. split; [done|]. intros k Hout'. apply Hk. unfold below in Hout'. rewrite elem_of_app in Hout'. tauto.
Qed.

(** The entry has one child, [ch]. *)
Lemma one_child h c i s v j s1 v1 hs1 l1 r1 t n : let ch := BNode j s1 v1 hs1 l1 r1 in t = BNode i s v [] ch BLeaf \/ t = BNode i s v [] BLeaf ch ->
  bt_at h (hole_parent None c) t -> h !! i = Some n ->
  be_parent n = hole_parent None c /\ bt_at h (Some i) ch /\ bt_ids t ≡ₚ i :: bt_ids ch /\ bt_root t = Some i /\ bt_sizes t ≡ₚ s :: bt_sizes ch /\
    (bt_ordered t -> bt_ordered ch) /\ (forall s' v' hs' l' r', bt_root (fill_hole c t) = bt_root (fill_hole c (BNode i s' v' hs' l' r'))).
Proof.
  intros ch Ht Ht0 Hn. destruct Ht as [-> | ->]; destruct Ht0 as ((n0 & Hn0 & _ & _ & Hp & _) & Hl & Hr); (assert (n0 = n) as -> by congruence); (split; [done|]);
    (split; [done|]); cbn [bt_ids bt_sizes map app bt_ordered]; rewrite ?app_nil_r; (split; [done|]); (split; [done|]); (split; [done|]);
    (split; [tauto | intros; apply filled_root]).
Qed.

Lemma remove_one_child_ok (b : lexbor_bst S) c i s v j s1 v1 hs1 l1 r1 t n root : let ch := BNode j s1 v1 hs1 l1 r1 in let h := bst_entries b in
  t = BNode i s v [] ch BLeaf \/ t = BNode i s v [] BLeaf ch ->
  bt_at h None (fill_hole c t) -> NoDup (bt_ids (fill_hole c t)) -> h !! i = Some n -> root = bt_root (fill_hole c t) ->
  exists t' x h1 b1, remove_one_child b i n j root = Some (bt_root (fill_hole c t'), set_entries h1 b1) /\
    removed h h1 c t t' x /\ (exists h2, b1 = free_entry x (set_entries h2 b)) /\ bt_contents ch = bt_contents t'.
Proof.
  intros ch h Ht Hat Hnd Hn ->. rewrite filled_ids in Hnd. apply filled_at in Hat as [Hc Ht0].
  destruct (one_child h c i s v j s1 v1 hs1 l1 r1 t n Ht Ht0 Hn) as (Hp & Hch & Hids & Hroot & Hsizes & Hord & Hfill).
  clear Ht Ht0. rewrite Hids in Hnd. rewrite Hroot in Hc. pose proof Hch as ((m & Hm & Hs1 & Hv1 & Hp1 & Hlo & Hro & Hh1) & Hl1 & Hr1). subst ch. cbn [bt_ids app] in Hnd.
  apply NoDup_cons in Hnd as [Hi Hnd]. apply NoDup_cons in Hnd as [Hj Hnd].
  set (below := map fst hs1 ++ bt_ids l1 ++ bt_ids r1) in *.
  apply NoDup_app in Hnd as (Hnd1 & Hdisj & _). rewrite elem_of_app in Hj.
  assert (Hi' : i <> j /\ i ∉ below /\ i ∉ hole_ids c) by (rewrite elem_of_cons, elem_of_app in Hi; tauto). destruct Hi' as (Hij & Hi1 & Hi2).
  set (m' := set_be_parent (be_parent n) m). set (h1 := alter (set_be_parent (be_parent n)) j h).
  assert (Hm1 : h1 !! j = Some m') by (unfold h1, m'; by rewrite lookup_alter_eq, Hm).
  assert (Hk1 : forall k, k <> j -> h1 !! k = h !! k) by (intros k Hk; unfold h1; by rewrite lookup_alter_ne).
  assert (Hd1 : same_dom h h1) by apply same_dom_alter.
  assert (Hupd : bst_upd (set_be_parent (be_parent n)) j h = Some h1) by (apply bst_upd_alter; by exists m).
  pose proof (fun h2 e He => adopt_child h h2 e m' j (be_parent n) hs1 l1 r1 He eq_refl Hh1 Hlo Hro Hl1 Hr1 Hnd1) as Hadopt. fold below in Hadopt. cbn [m' set_be_parent be_size be_value] in Hadopt. rewrite Hs1, Hv1 in Hadopt.
  unfold remove_one_child. destruct (be_parent n) as [q|] eqn:Eq; fold h; rewrite Hupd; cbn [mbind option_bind free_entry set_entries bst_entries].
  - rewrite Hm1. cbn [mbind option_bind free_entry set_entries bst_entries].
    destruct (Hadopt (delete j (<[i:=m']> h1)) i) as (h' & E & Hat & Hdom & Hk).
    { by rewrite lookup_delete_ne, lookup_insert_eq. }
    { done. }
    { intros k Hk. rewrite lookup_delete_ne, lookup_insert_ne by (intros ->; tauto). apply Hk1. intros ->. tauto. }
    rewrite E. cbn [mbind option_bind]. exists (BNode i s1 v1 hs1 l1 r1), j, h', (free_entry j (set_entries (<[i:=m']> h1) b)).
    split; [by rewrite <- Hfill|]. split; [|split; [by eexists | done]]. split.
    + apply filled_at. rewrite <- Hp. split; [|exact Hat]. eapply hole_frame; [|exact Hc]. intros k Hk'. rewrite Hk by (intros Hb; by apply (Hdisj k)).
      rewrite lookup_delete_ne, lookup_insert_ne by (intros ->; tauto). apply Hk1. intros ->. tauto.
    + rewrite Hids. cbn [bt_ids]. fold below. solve_Permutation.
    + intros k. rewrite (Hdom k). apply deleted_dom. eapply same_dom_trans; [exact Hd1|]. apply same_dom_insert. apply Hd1. by eexists.
    + intros y Hy. rewrite Hsizes. by right.
    + done.
  - assert (c = BTop) as -> by (by destruct c). destruct (Hadopt (delete i h1) j) as (h' & E & Hat & Hdom & Hk).
    { by rewrite lookup_delete_ne. }
    { tauto. }
    { intros k Hk. rewrite lookup_delete_ne by (intros ->; tauto). apply Hk1. intros ->. tauto. }
    rewrite E. cbn [mbind option_bind]. exists (BNode j s1 v1 hs1 l1 r1), i, h', (free_entry i (set_entries h1 b)).
    split; [done|]. split; [|split; [by eexists | done]]. split; [exact Hat | done | | | done].
    + intros k. rewrite (Hdom k). by apply deleted_dom.
    + intros y Hy. rewrite Hsizes. by right.
Qed.

(** The entry gets what the leftmost one on the right has. *)
Lemma overwrite_ok h c i s v l r n sj vj hsj next : bt_at h None (fill_hole c (BNode i s v [] l r)) -> NoDup (bt_ids (fill_hole c (BNode i s v [] l r))) -> h !! i = Some n ->
  hung h next hsj -> (forall k, k ∈ map fst hsj -> k ∈ bt_ids r) ->
  bt_at (<[i := set_be_value vj (set_be_next next (set_be_size sj n))]> h) None (fill_hole c (BNode i sj vj hsj l r)).
Proof.
  intros Hat Hnd Hn Hh Hsub. apply filled_at in Hat as [Hc (Hnode & Hl & Hr)]. rewrite filled_ids in Hnd. cbn [bt_ids map app] in Hnd. apply NoDup_cons in Hnd as [Hout _].
  rewrite !elem_of_app in Hout. set (h1 := <[i := _]> h). assert (Hk1 : forall k, k <> i -> h1 !! k = h !! k) by (intros k Hk; unfold h1; by rewrite lookup_insert_ne).
  apply filled_at. split; [eapply hole_frame; [|exact Hc]; intros k Hk; apply Hk1; intros ->; tauto|]. split; [|split].
  - eexists. unfold h1. rewrite lookup_insert_eq. split; [reflexivity|]. destruct Hnode as (n0 & Hn0 & _ & _ & Hp0 & Hl0 & Hr0 & _). assert (n0 = n) as -> by congruence.
    repeat (split; [done|]). eapply hung_frame; [|exact Hh]. intros k Hk. rewrite lookup_insert_ne; [done|]. intros ->. specialize (Hsub k Hk). tauto.
  - eapply bt_frame; [|exact Hl]. intros k Hk. apply Hk1. intros ->. tauto.
  - eapply bt_frame; [|exact Hr]. intros k Hk. apply Hk1. intros ->. tauto.
Qed.

(** The leftmost entry is replaced by what is on its right. *)
Definition unlink_leftmost (D : bctx) (o : option positive) (h : bst_heap) : bst_heap := set_parent_of o (hole_parent None D) (point_hole D o h).

Lemma unlink_leftmost_ok h D j sj vj hsj rj : bt_at h None (fill_hole D (BNode j sj vj hsj BLeaf rj)) ->
  j ∉ hole_ids D -> j ∉ bt_ids rj -> NoDup (bt_ids rj ++ hole_ids D) ->
  bt_at (delete j (unlink_leftmost D (bt_root rj) h)) None (fill_hole D rj) /\ same_dom h (unlink_leftmost D (bt_root rj) h) /\ bt_at (point_hole D (bt_root rj) h) (Some j) rj.
Proof.
  intros Hat Hj1 Hj2 Hnd. apply filled_at in Hat as [HcD (_ & _ & Hrj)]. apply NoDup_app in Hnd as (Hndr & Hdisj & HndD). set (h2 := point_hole D (bt_root rj) h).
  assert (Hrj2 : bt_at h2 (Some j) rj).
  { eapply bt_frame; [|exact Hrj]. intros k Hk. unfold h2, point_hole. destruct D as [|? k' ? ? ? ?|? k' ? ? ? ?]; [done|..];
      (rewrite lookup_alter_ne; [done|]); intros ->; apply (Hdisj k Hk); cbn; left. }
  split; [|split; [|exact Hrj2]].
  - apply filled_at. split.
    + eapply hole_frame; [|apply (hole_set _ _ _ _ (bt_root rj) HcD HndD)]. intros k Hk. rewrite lookup_delete_ne by (intros ->; tauto).
      apply set_parent_other. intros Hk'. by apply (Hdisj k).
    + eapply bt_frame; [|eapply (reparent h2 _ (hole_parent None D)); [exact Hrj2 | done]]. intros k Hk. rewrite lookup_delete_ne; [done|]. intros ->. tauto.
  - eapply same_dom_trans; [|apply same_dom_parent]. unfold point_hole. destruct D; [done | apply same_dom_alter..].
Qed.

(** The code's two cases: the entry is the child, or further below. *)
Lemma unlink_code h d c i n s v hs l j sj vj hsj rj nl : let D := inside_hole d (BRight c i s v hs l) in
  left_only d -> be_right n = bt_root (fill_hole d (BNode j sj vj hsj BLeaf rj)) -> be_parent nl = hole_parent (Some i) d -> be_right nl = bt_root rj ->
  j ∉ hole_ids d -> hole_at h None D (Some j) -> bt_at (point_hole D (bt_root rj) h) (Some j) rj ->
  (if decide (be_right n = Some j) then
     h ← bst_upd (set_be_right (be_right nl)) i h;
     match be_right nl with Some x => bst_upd (set_be_parent (Some i)) x h | None => Some h end
   else
     p ← be_parent nl;
     h ← bst_upd (set_be_left (be_right nl)) p h;
     match be_right nl with Some x => bst_upd (set_be_parent (Some p)) x h | None => Some h end) = Some (unlink_leftmost D (bt_root rj) h).
Proof.
  intros D Hd Hr Hp Hro Hj HcD Hrj. pose proof (parent_written _ (Some j) (hole_parent None D) rj Hrj) as Hw. rewrite Hro. destruct d as [|d k sk vk hsk rk|d k sk vk hsk rk]; [..|done].
  - rewrite decide_True by (by rewrite Hr). destruct HcD as ((m & Hm & _) & _). rewrite bst_upd_alter by (by exists m). cbn [mbind option_bind]. exact Hw.
  - rewrite decide_False.
    2: { rewrite Hr. destruct (inside_root (BLeft d k sk vk hsk rk) (BNode j sj vj hsj BLeaf rj)) as [(k' & Hk' & ->)|]; [|done]. by intros [= ->]. }
    rewrite Hp. cbn [hole_parent mbind option_bind]. destruct HcD as ((m & Hm & _) & _). rewrite bst_upd_alter by (by exists m). cbn [mbind option_bind]. exact Hw.
Qed.

Lemma inside_ids d c i s v hs l : hole_ids (inside_hole d (BRight c i s v hs l)) ≡ₚ hole_ids d ++ i :: map fst hs ++ bt_ids l ++ hole_ids c.
Proof. induction d as [|d IH k s2 v2 hs2 t|d IH k s2 v2 hs2 t]; [done|..]; cbn [inside_hole hole_ids]; rewrite IH; solve_Permutation. Qed.

Lemma remove_two_children_ok (b : lexbor_bst S) c i s v i1 s1 v1 hs1 l1 r1 i2 s2 v2 hs2 l2 r2 n :
  let l := BNode i1 s1 v1 hs1 l1 r1 in let r := BNode i2 s2 v2 hs2 l2 r2 in let t := BNode i s v [] l r in let h := bst_entries b in
  bt_at h None (fill_hole c t) -> NoDup (bt_ids (fill_hole c t)) -> h !! i = Some n -> (bt_height r <= base.size h)%nat ->
  exists t' x h1, remove_two_children b i n i2 = Some (free_entry x (set_entries h1 b)) /\
    removed h (delete x h1) c t t' x /\ bt_contents t ≡ₚ (s, v) :: bt_contents t' /\ bt_root (fill_hole c t') = bt_root (fill_hole c t).
Proof.
  intros l r t h Hat Hnd Hn Hf. pose proof Hat as Hat0. apply filled_at in Hat0 as [_ ((n0 & Hn0 & _ & _ & _ & _ & Hrn & _) & _ & Hr)]. assert (n0 = n) as -> by congruence. clear Hn0.
  destruct (leftmost_ok h r (Some i) BTop i2 s2 v2 hs2 l2 r2 _ eq_refl Hr I Hf) as (d & j & sj & vj & hsj & rj & Elm & Hd & Er). cbn [fill_hole] in Er.
  set (D := inside_hole d (BRight c i sj vj hsj l)). set (t' := BNode i sj vj hsj l (fill_hole d rj)).
  assert (Hmin : without_min sj r (fill_hole d rj)) by (rewrite Er; by apply without_min_leftmost).
  assert (Hfill : forall u, fill_hole D u = fill_hole c (BNode i sj vj hsj l (fill_hole d u))) by (intros u; unfold D; by rewrite inside_filled).
  assert (Hids0 : bt_ids r ≡ₚ j :: map fst hsj ++ bt_ids rj ++ hole_ids d) by (rewrite Er, filled_ids; cbn [bt_ids app]; by rewrite <- app_assoc).
  assert (Hids : bt_ids t ≡ₚ j :: bt_ids t') by (unfold t, t'; cbn [bt_ids map app]; rewrite Hids0, filled_ids; solve_Permutation).
  assert (HndD : NoDup (j :: bt_ids (fill_hole D rj))) by (rewrite Hfill; fold t'; rewrite filled_ids in Hnd |- *; by rewrite Hids in Hnd).
  apply NoDup_cons in HndD as [Hj HndD]. rewrite filled_ids in Hj, HndD. rewrite elem_of_app in Hj.
  rewrite Er in Hr. apply filled_at in Hr as [_ ((nl & Hnl & Hs & Hv & Hp & _ & Hro & Hh) & _ & _)].
  assert (Hat1 := overwrite_ok h c i s v l r n sj vj hsj _ Hat Hnd Hn Hh). set (h1 := <[i := _]> h) in Hat1. rewrite Er, <- Hfill in Hat1.
  destruct (unlink_leftmost_ok h1 D j sj vj hsj rj) as (HD & Hdom & Hrj2); [apply Hat1; intros k Hk; rewrite <- Er, Hids0; set_solver | tauto | tauto | done |].
  assert (HcD : hole_at h1 None D (Some j)).
  { apply filled_at in Hat1 as [HcD _]; [exact HcD|]. intros k Hk. rewrite <- Er, Hids0. set_solver. }
  exists t', j, (unlink_leftmost D (bt_root rj) h1). split; [|split; [split|split]].
  - unfold remove_two_children. fold h. rewrite Elm. cbn [mbind option_bind]. rewrite Hnl. cbn [mbind option_bind]. rewrite Hs, Hv, (upd_ok _ _ _ _ Hn). cbn [mbind option_bind]. fold h1.
    rewrite (unlink_code h1 d c i n sj vj hsj l j sj vj hsj rj nl Hd); [done | by rewrite Hrn, Er | done | done | | done | done]. intros Hjd. apply Hj. right. unfold D. rewrite inside_ids. set_solver.
  - unfold t'. by rewrite <- Hfill.
  - exact Hids.
  - apply deleted_dom. eapply same_dom_trans; [|exact Hdom]. apply same_dom_insert. by exists n.
  - destruct Hmin as (Hm & Hsub & _). unfold t, t'. cbn [bt_sizes]. intros y. rewrite !elem_of_cons, !elem_of_app. intros [->|[Hy|Hy]]; auto.
  - destruct Hmin as (Hm & Hsub & Ho). unfold t, t'. cbn [bt_ordered]. rewrite !Forall_forall. intros (Hlt & Hgt & Hol & Hor). destruct (Ho Hor) as [Ho' Hlow].
    rewrite Forall_forall in Hlow. specialize (Hgt sj Hm) as Hgt'. split; [intros x Hx; specialize (Hlt x Hx); lia | by auto].
  - unfold t, t'. cbn [bt_contents]. rewrite Er at 1. rewrite !filled_contents. unfold own. cbn [bt_contents map app]. unfold own. solve_Permutation.
  - apply filled_root.
Qed.

(** The first of the entries that hang on another is taken out. *)
Lemma remove_hung_ok (b : lexbor_bst S) c i s v j w hs l r root : let t := BNode i s v ((j, w) :: hs) l r in let h := bst_entries b in
  bt_at h None (fill_hole c t) -> NoDup (bt_ids (fill_hole c t)) ->
  exists b', lexbor_bst_remove_by_pointer b i root = Some (w, root, b') /\ removed h (bst_entries b') c t (BNode i s v hs l r) j /\
    bst_dobject b' = pool_free (bst_dobject b) j /\ tree_length b' = size_wrap (tree_length b - 1).
Proof.
  intros t h Hat Hnd. rewrite filled_ids in Hnd. apply filled_at in Hat as [Hc ((n & Hn & Hs & Hv & Hp & Hlo & Hro & Hnext & m & Hm & Hw & Hh) & Hl & Hr)].
  unfold t in Hnd. cbn [bt_ids map fst app] in Hnd. apply NoDup_cons in Hnd as [Hi Hnd]. apply NoDup_cons in Hnd as [Hj Hnd].
  rewrite elem_of_cons, !elem_of_app in Hi. rewrite !elem_of_app in Hj.
  set (h1 := <[i := set_be_next (be_next m) n]> h). assert (Hk : forall k, k <> i -> k <> j -> delete j h1 !! k = h !! k).
  { intros k H1 H2. unfold h1. by rewrite lookup_delete_ne, lookup_insert_ne. }
  exists (free_entry j (set_entries h1 (set_tree_length (size_wrap (tree_length b - 1)) b))). split; [|split; [split|done]].
  - unfold lexbor_bst_remove_by_pointer. cbn [set_tree_length bst_entries]. fold h. rewrite Hn. cbn [mbind option_bind]. rewrite Hnext, Hm. cbn [mbind option_bind].
    rewrite (upd_ok _ _ _ _ Hn). cbn [mbind option_bind]. by rewrite Hw.
  - cbn [bst_entries free_entry set_entries]. apply filled_at. split; [|split; [|split]].
    + eapply hole_frame; [|exact Hc]. intros k Hin. apply Hk; intros ->; tauto.
    + exists (set_be_next (be_next m) n). unfold h1. rewrite lookup_delete_ne, lookup_insert_eq by (intros ->; tauto). repeat (split; [done|]).
      eapply hung_frame; [|exact Hh]. intros k Hin. apply Hk; intros ->; tauto.
    + eapply bt_frame; [|exact Hl]. intros k Hin. apply Hk; intros ->; tauto.
    + eapply bt_frame; [|exact Hr]. intros k Hin. apply Hk; intros ->; tauto.
  - unfold t. cbn [bt_ids map fst app]. constructor.
  - cbn [bst_entries free_entry set_entries]. apply deleted_dom. apply same_dom_insert. by exists n.
  - by intros y.
  - by intros Ho.
Qed.

Lemma remove_by_pointer_ok (b : lexbor_bst S) c i s v hs l r : let t := BNode i s v hs l r in let h := bst_entries b in
  bt_at h None (fill_hole c t) -> NoDup (bt_ids (fill_hole c t)) -> (bt_height t <= base.size h)%nat ->
  exists w t' x b', lexbor_bst_remove_by_pointer b i (bt_root (fill_hole c t)) = Some (w, bt_root (fill_hole c t'), b') /\
    removed h (bst_entries b') c t t' x /\ bt_contents t ≡ₚ (s, w) :: bt_contents t' /\
    bst_dobject b' = pool_free (bst_dobject b) x /\ tree_length b' = size_wrap (tree_length b - 1).
Proof.
  intros t h Hat Hnd Hf. destruct hs as [|[j w] hs].
  2: { destruct (remove_hung_ok b c i s v j w hs l r (bt_root (fill_hole c t)) Hat Hnd) as (b' & E & Hrem & Hb). exists w, (BNode i s v hs l r), j, b'.
       split; [by rewrite (filled_root c i s v hs l r s v ((j, w) :: hs) l r)|]. split; [done|]. split; [|done]. unfold t. cbn [bt_contents]. unfold own. cbn [map snd app]. solve_Permutation. }
  pose proof Hat as Hat0. apply filled_at in Hat0 as [_ ((n & Hn & Hs & Hv & Hp & Hlo & Hro & Hnext) & _ & _)]. cbn [hung] in Hnext.
  unfold lexbor_bst_remove_by_pointer. cbn [set_tree_length bst_entries]. fold h. rewrite Hn. cbn [mbind option_bind]. rewrite Hnext, Hlo, Hro.
  set (b0 := set_tree_length _ b).
  destruct l as [|i1 s1 v1 hs1 l1 r1], r as [|i2 s2 v2 hs2 l2 r2]; cbn [bt_root].
  - destruct (remove_leaf_ok b0 c i s v n _ Hat Hnd Hn eq_refl) as (h1 & E & Hrem). unfold t. rewrite E. cbn [mbind option_bind].
    eexists _, BLeaf, i, _. split; [reflexivity|]. split; [exact Hrem|]. by rewrite Hv.
  - destruct (remove_one_child_ok b0 c i s v i2 s2 v2 hs2 l2 r2 t n _ (or_intror eq_refl) Hat Hnd Hn eq_refl) as (t' & x & h1 & b1 & E & Hrem & (h2 & ->) & Hcon).
    rewrite E. cbn [mbind option_bind]. eexists _, t', x, _. split; [reflexivity|]. split; [exact Hrem|]. split; [|done]. rewrite <- Hcon, Hv. unfold t. cbn. by rewrite ?app_nil_r.
  - destruct (remove_one_child_ok b0 c i s v i1 s1 v1 hs1 l1 r1 t n _ (or_introl eq_refl) Hat Hnd Hn eq_refl) as (t' & x & h1 & b1 & E & Hrem & (h2 & ->) & Hcon).
    rewrite E. cbn [mbind option_bind]. eexists _, t', x, _. split; [reflexivity|]. split; [exact Hrem|]. split; [|done]. rewrite <- Hcon, Hv. unfold t. cbn. by rewrite ?app_nil_r.
  - destruct (remove_two_children_ok b0 c i s v i1 s1 v1 hs1 l1 r1 i2 s2 v2 hs2 l2 r2 n Hat Hnd Hn) as (t' & x & h1 & E & Hrem & Hcon & Hroot).
    { unfold t in Hf. cbn [bt_height] in Hf |- *. change (bst_entries b0) with h. lia. }
    rewrite E. cbn [mbind option_bind]. exists (be_value n), t', x, (free_entry x (set_entries h1 b0)). rewrite Hroot, Hv. by split.
Qed.
End Remove.

(** *** Searches *)

Lemma filled_size c i s v hs l r : s ∈ bt_sizes (fill_hole c (BNode i s v hs l r)).
Proof.
  assert (Hup : forall t, s ∈ bt_sizes t -> s ∈ bt_sizes (fill_hole c t)).
  { induction c as [|c IH j s2 v2 hs2 t2|c IH j s2 v2 hs2 t2]; intros t Ht; [done|..]; cbn [fill_hole]; apply IH; cbn [bt_sizes]; rewrite elem_of_cons, elem_of_app; tauto. }
  apply Hup. left.
Qed.

(** The entry [i] of [t] has the least size that is not smaller. *)
Definition closest (size : Z) (t : btree) (i : positive) : Prop :=
  exists c s v hs l r, t = fill_hole c (BNode i s v hs l r) /\ size <= s /\ Forall (fun x => size <= x -> s <= x) (bt_sizes t).

Lemma search_close_ok h size t : forall p fuel max, bt_at h p t -> bt_ordered t -> (bt_height t <= fuel)%nat ->
  exists o, search_close_loop fuel size max (bt_root t) h = Some o /\
    ((o = max /\ Forall (fun x => x < size) (bt_sizes t)) \/ exists i, o = Some i /\ closest size t i).
Proof.
  induction t as [|i s v hs l IHl r IHr]; intros p fuel max Hat Ho Hf.
  { exists max. split; [by destruct fuel | by left]. }
  destruct Hat as ((n & Hn & Hs & _ & _ & Hlo & Hro & _) & Hl & Hr). destruct Ho as (H1 & H2 & H3 & H4). cbn [bt_height] in Hf. destruct fuel as [|fuel]; [lia|].
  cbn [bt_root search_close_loop]. rewrite Hn. cbn [mbind option_bind]. rewrite Hs, Hlo, Hro. rewrite Forall_forall in H1, H2.
  destruct (Z.eqb_spec s size) as [->|Hne]; [|destruct (size >? s) eqn:Hgt].
  - exists (Some i). split; [done|]. right. exists i. split; [done|]. exists BTop, size, v, hs, l, r. split; [done|]. split; [lia|]. rewrite Forall_forall. tauto.
  - destruct (IHr (Some i) fuel max Hr H4 ltac:(lia)) as (o & E & [[-> Hall]|(j & -> & c & s' & v' & hs' & l' & r' & -> & Hle & Hall)]); eexists; (split; [exact E|]).
    + left. split; [done|]. cbn [bt_sizes]. rewrite Forall_forall in *. intros x. rewrite elem_of_cons, elem_of_app. intros [->|[Hx|Hx]]; [lia | specialize (H1 x Hx); lia | by apply Hall].
    + right. exists j. split; [done|]. exists (inside_hole c (BRight BTop i s v hs l)), s', v', hs', l', r'. rewrite inside_filled. split; [done|]. split; [done|].
      cbn [bt_sizes]. rewrite Forall_forall in *. intros x. rewrite elem_of_cons, elem_of_app. intros [->|[Hx|Hx]] Hsx; [lia | specialize (H1 x Hx); lia | by apply Hall].
  - destruct (IHl (Some i) fuel (Some i) Hl H3 ltac:(lia)) as (o & E & [[-> Hall]|(j & -> & c & s' & v' & hs' & l' & r' & -> & Hle & Hall)]); eexists; (split; [exact E|]); right.
    + exists i. split; [done|]. exists BTop, s, v, hs, l, r. split; [done|]. split; [lia|]. cbn [bt_sizes]. rewrite Forall_forall in *. intros x.
      rewrite elem_of_cons, elem_of_app. intros [->|[Hx|Hx]] Hsx; [lia | specialize (Hall x Hx); lia | specialize (H2 x Hx); lia].
    + exists j. split; [done|]. exists (inside_hole c (BLeft BTop i s v hs r)), s', v', hs', l', r'. rewrite inside_filled. split; [done|]. split; [done|].
      pose proof (H1 s' (filled_size c j s' v' hs' l' r')) as Hlow. cbn [bt_sizes]. rewrite Forall_forall in *. intros x.
      rewrite elem_of_cons, elem_of_app. intros [->|[Hx|Hx]] Hsx; [lia | by apply Hall | specialize (H2 x Hx); lia].
Qed.

Lemma search_ok h size t : forall p fuel, bt_at h p t -> bt_ordered t -> (bt_height t <= fuel)%nat ->
  exists o, search_loop fuel size (bt_root t) h = Some o /\
    match o with
    | Some i => exists c v hs l r, t = fill_hole c (BNode i size v hs l r)
    | None => size ∉ bt_sizes t
    end.
Proof.
  induction t as [|i s v hs l IHl r IHr]; intros p fuel Hat Ho Hf.
  { exists None. split; [by destruct fuel | by intros ?%elem_of_nil]. }
  destruct Hat as ((n & Hn & Hs & _ & _ & Hlo & Hro & _) & Hl & Hr). destruct Ho as (H1 & H2 & H3 & H4). cbn [bt_height] in Hf. destruct fuel as [|fuel]; [lia|].
  cbn [bt_root search_loop]. rewrite Hn. cbn [mbind option_bind]. rewrite Hs, Hlo, Hro. rewrite Forall_forall in H1, H2.
  destruct (Z.eqb_spec s size) as [->|Hne]; [|destruct (size >? s) eqn:Hgt].
  - exists (Some i). split; [done|]. by exists BTop, v, hs, l, r.
  - destruct (IHr (Some i) fuel Hr H4 ltac:(lia)) as (o & E & Ho). exists o. split; [exact E|]. destruct o as [j|].
    + destruct Ho as (c & v' & hs' & l' & r' & ->). exists (inside_hole c (BRight BTop i s v hs l)), v', hs', l', r'. by rewrite inside_filled.
    + cbn [bt_sizes]. rewrite elem_of_cons, elem_of_app. intros [->|[Hx|Hx]]; [lia | specialize (H1 _ Hx); lia | done].
  - destruct (IHl (Some i) fuel Hl H3 ltac:(lia)) as (o & E & Ho). exists o. split; [exact E|]. destruct o as [j|].
    + destruct Ho as (c & v' & hs' & l' & r' & ->). exists (inside_hole c (BLeft BTop i s v hs r)), v', hs', l', r'. by rewrite inside_filled.
    + cbn [bt_sizes]. rewrite elem_of_cons, elem_of_app. intros [->|[Hx|Hx]]; [lia | done | specialize (H2 _ Hx); lia].
Qed.

(** *** The tree as a multiset of sizes and values *)

Section Contents.
Context {S : Type} `{ObjectPoolLaws S}.

(** The entries of the heap are those of the tree, and all in use in the pool. *)
Record bst_good (b : lexbor_bst S) (t : btree) : Prop := {
  bg_at : bt_at (bst_entries b) None t;
  bg_ids : NoDup (bt_ids t);
  bg_dom : dom (bst_entries b) = list_to_set (bt_ids t);
  bg_root : bst_root b = bt_root t;
  bg_ordered : bt_ordered t;
  bg_pool : pool_holds (bst_dobject b) (dom (bst_entries b));
  bg_length : tree_length b = size_wrap (Z.of_nat (length (bt_contents t)))
}.

Definition bst_holds (b : lexbor_bst S) (M : list (Z * Z)) : Prop := exists t, bst_good b t /\ bt_contents t ≡ₚ M.

Lemma bst_init_ok pool : pool_holds pool ∅ -> bst_holds (lexbor_bst_init pool) [].
Proof. intros Hp. exists BLeaf. split; [|done]. split; cbn [lexbor_bst_init bst_entries bst_dobject]; rewrite ?dom_empty_L; try done. apply NoDup_nil_2. Qed.

Lemma bst_clean_ok b M : bst_holds b M -> bst_holds (lexbor_bst_clean b) [].
Proof. intros (t & Hg & _). apply (bst_init_ok (pool_clean (bst_dobject b))). by eapply pool_clean_all, (bg_pool b t). Qed.

Lemma good_height b t : bst_good b t -> (bt_height t <= base.size (bst_entries b))%nat.
Proof. intros Hg. rewrite <- (size_dom (D := gset positive)), (bg_dom b t Hg), size_list_to_set by apply (bg_ids b t Hg). apply height_ids. Qed.

Lemma wrap_add a n : size_wrap (size_wrap a + n) = size_wrap (a + n).
Proof. unfold size_wrap. by rewrite Zplus_mod_idemp_l. Qed.

Lemma contents_sizes t s : (exists v, (s, v) ∈ bt_contents t) <-> s ∈ bt_sizes t.
Proof.
  induction t as [|i s' v hs l IHl r IHr]; cbn [bt_contents bt_sizes].
  - split; [by intros [v ?%elem_of_nil] | by intros ?%elem_of_nil].
  - rewrite elem_of_cons, elem_of_app, <- IHl, <- IHr. unfold own. split.
    + intros [w Hw]. rewrite !elem_of_app, elem_of_cons, list_elem_of_fmap in Hw. destruct Hw as [[[= -> ->]|(y & [= -> ->] & _)]|[Hw|Hw]]; eauto.
    + intros [->|[[w Hw]|[w Hw]]]; [exists v | exists w..]; rewrite !elem_of_app, elem_of_cons; tauto.
Qed.

(** An entry that was allocated joins the pool's. *)
Lemma insert_good b M size value : bst_holds b M ->
  exists o root b', lexbor_bst_insert b (bst_root b) size value = Some (o, root, b') /\
    bst_holds (set_root root b') (match o with Some _ => (size, value) :: M | None => M end).
Proof.
  intros (t & Hg & HM). pose proof (good_height b t Hg) as Hf. destruct Hg as [G1 G2 G3 G4 G5 G6 G7]. unfold lexbor_bst_insert, calloc_entry.
  pose proof (pool_alloc_new _ _ G6) as Hp. destruct (pool_alloc (bst_dobject b)) as [[new|] s'].
  2: { exists None. eexists _, _. split; [reflexivity|]. exists t. split; [|done]. by split. }
  destruct Hp as [Hnew Hp]. cbn [bst_entries]. rewrite (upd_ok _ _ _ _ (lookup_insert_eq _ _ _)), insert_insert_eq. cbn [mbind option_bind].
  change (set_be_value value (set_be_size size entry_zero)) with (fresh_entry size value). set (h := <[new := fresh_entry size value]> (bst_entries b)).
  rewrite G3, elem_of_list_to_set in Hnew.
  assert (Hins : bst_root b = None \/ exists h', (forall i, bst_root b = Some i -> insert_loop (base.size h) new size i h = Some h') /\
    bt_at h' None (bt_insert new size value t) /\ same_dom h h' /\ bt_root (bt_insert new size value t) = bst_root b).
  { destruct t as [|i s v hs l r]; [by left|]. right. rewrite G4. cbn [bt_root].
    destruct (insert_loop_ok new size value _ None i s v hs l r (base.size h) h eq_refl) as (h' & E & Hat & Hdom & _); [| done | done | apply lookup_insert_eq | |].
    - eapply bt_frame; [|exact G1]. intros k Hk. unfold h. rewrite lookup_insert_ne; [done | by intros ->].
    - unfold h. rewrite map_size_insert_None; [lia|]. apply not_elem_of_dom. by rewrite G3, elem_of_list_to_set.
    - exists h'. split; [by intros j [= <-]|]. split; [done|]. split; [done|]. cbn [bt_insert]. by repeat case_match. }
  assert (Hids : dom h = list_to_set (bt_ids (bt_insert new size value t))) by (unfold h; rewrite dom_insert_L, G3; apply set_eq; intros k; rewrite elem_of_union, !elem_of_list_to_set, insert_ids, elem_of_cons, elem_of_singleton; tauto).
  assert (Hgood : forall h' root, bt_at h' None (bt_insert new size value t) -> same_dom h h' -> root = bt_root (bt_insert new size value t) ->
    bst_holds (mk_bst s' h' root (size_wrap (tree_length b + 1))) ((size, value) :: M)).
  { intros h' root Hat Hdom ->. exists (bt_insert new size value t). split; [|by rewrite insert_contents, HM].
    assert (Hd : dom h' = dom h) by (apply set_eq; intros k; rewrite !elem_of_dom; apply Hdom).
    split; cbn [bst_entries bst_root bst_dobject tree_length]; [done | | by rewrite Hd | done | by apply insert_ordered | |].
    - rewrite insert_ids. by apply NoDup_cons.
    - rewrite Hd. unfold h. by rewrite dom_insert_L.
    - rewrite G7, insert_contents, wrap_add. cbn [length]. f_equal. lia. }
  rewrite G4 in *. destruct t as [|i s v hs l r]; cbn [bt_root].
  - eexists (Some new), _, _. split; [reflexivity|]. apply (Hgood h); [|done..]. split; [|done]. exists (fresh_entry size value). unfold h. by rewrite lookup_insert_eq.
  - destruct Hins as [|(h' & E & Hat & Hdom & Hroot)]; [done|]. cbn [set_entries set_tree_length bst_entries]. rewrite (E i eq_refl). cbn [mbind option_bind].
    eexists (Some new), _, _. split; [reflexivity|]. by apply (Hgood h').
Qed.

(** The entry in the hole is removed. *)
Lemma remove_good b c i s v hs l r : bst_good b (fill_hole c (BNode i s v hs l r)) ->
  exists w root b' M, lexbor_bst_remove_by_pointer b i (bst_root b) = Some (w, root, b') /\
    bt_contents (fill_hole c (BNode i s v hs l r)) ≡ₚ (s, w) :: M /\ bst_holds (set_root root b') M.
Proof.
  intros Hg. pose proof (good_height b _ Hg) as Hf. destruct Hg as [G1 G2 G3 G4 G5 G6 G7]. set (t := BNode i s v hs l r) in *.
  destruct (remove_by_pointer_ok b c i s v hs l r) as (w & t' & x & b' & E & [R1 R2 R3 R4 R5] & Hcon & Hpool & Hlen); [done | done | |].
  { etrans; [|exact Hf]. apply filled_height. }
  fold t in E, R2, R4, R5, Hcon. rewrite G4, E. exists w. eexists _, b', (bt_contents (fill_hole c t')). split; [reflexivity|].
  assert (HM : bt_contents (fill_hole c t) ≡ₚ (s, w) :: bt_contents (fill_hole c t')) by (rewrite !filled_contents, Hcon; done).
  split; [exact HM|]. exists (fill_hole c t'). split; [|done]. rewrite filled_ids, R2 in G2. cbn [app] in G2. apply NoDup_cons in G2 as [Hx Hnd].
  assert (Hx' : x ∈ dom (bst_entries b)) by (rewrite G3, elem_of_list_to_set, filled_ids, R2; left).
  assert (Hdom : dom (bst_entries b') = dom (bst_entries b) ∖ {[x]}) by (apply set_eq; intros k; rewrite elem_of_difference, elem_of_singleton, !elem_of_dom, R3; tauto).
  split; cbn [set_root bst_entries bst_root bst_dobject tree_length]; [done | by rewrite filled_ids | | done | | |].
  - rewrite Hdom, G3. apply set_eq. intros k. rewrite elem_of_difference, elem_of_singleton, !elem_of_list_to_set, !filled_ids, R2. cbn [app]. rewrite elem_of_cons.
    split; [tauto|]. intros Hk. split; [tauto|]. by intros ->.
  - eapply filled_ordered; [exact R4 | exact R5 | exact G5].
  - rewrite Hpool, Hdom. by apply pool_free_live.
  - rewrite Hlen, G7, HM. cbn [length]. rewrite <- Z.add_opp_r, wrap_add. f_equal. lia.
Qed.

(** What is taken has the least size that is not smaller; nothing is taken if all are
    smaller. *)
Definition best_fit (M : list (Z * Z)) (size : Z) (o : option Z) (found : Z) (M' : list (Z * Z)) : Prop :=
  match o with
  | Some v => M ≡ₚ (found, v) :: M' /\ size <= found /\ Forall (fun x => size <= fst x -> found <= fst x) M
  | None => M' = M /\ Forall (fun x => fst x < size) M
  end.

Lemma sizes_forall t (P : Z -> Prop) : Forall P (bt_sizes t) -> Forall (fun x => P (fst x)) (bt_contents t).
Proof. rewrite !Forall_forall. intros HP [s v] Hx. apply HP, contents_sizes. by exists v. Qed.

Lemma remove_close_good b M size : bst_holds b M ->
  exists o found root b' M', lexbor_bst_remove_close b (bst_root b) size = Some (o, found, root, b') /\
    best_fit M size o found M' /\ bst_holds (set_root root b') M'.
Proof.
  intros (t & Hg & HM). unfold lexbor_bst_remove_close.
  destruct (search_close_ok (bst_entries b) size t None _ None (bg_at _ _ Hg) (bg_ordered _ _ Hg) (good_height b t Hg))
    as (o & E & [[-> Hall]|(i & -> & c & s & v & hs & l & r & -> & Hle & Hall)]); rewrite (bg_root _ _ Hg), E; cbn [mbind option_bind].
  - eexists None, 0, _, b, M. split; [reflexivity|]. split.
    + split; [done|]. rewrite <- HM. by apply (sizes_forall t (fun x => x < size)).
    + rewrite <- (bg_root _ _ Hg). exists t. split; [by destruct b, Hg | done].
  - pose proof (bg_at _ _ Hg) as Hat. apply filled_at in Hat as [_ ((n & Hn & Hs & _) & _)]. rewrite Hn. cbn [mbind option_bind].
    destruct (remove_good b c i s v hs l r Hg) as (w & root & b' & M' & Er & Hcon & Hholds). rewrite <- (bg_root _ _ Hg), Er. cbn [mbind option_bind].
    eexists (Some w), _, _, b', M'. split; [reflexivity|]. rewrite Hs. split; [|done]. split; [by rewrite <- HM|]. split; [done|]. rewrite <- HM.
    by apply (sizes_forall _ (fun x => size <= x -> s <= x)).
Qed.

Lemma remove_size_good b M size : bst_holds b M ->
  exists o root b' M', lexbor_bst_remove b (bst_root b) size = Some (o, root, b') /\ bst_holds (set_root root b') M' /\
    match o with Some v => M ≡ₚ (size, v) :: M' | None => M' = M /\ Forall (fun x => fst x <> size) M end.
Proof.
  intros (t & Hg & HM). unfold lexbor_bst_remove.
  destruct (search_ok (bst_entries b) size t None _ (bg_at _ _ Hg) (bg_ordered _ _ Hg) (good_height b t Hg)) as ([i|] & E & Ho); rewrite (bg_root _ _ Hg), E; cbn [mbind option_bind].
  - destruct Ho as (c & v & hs & l & r & ->). destruct (remove_good b c i size v hs l r Hg) as (w & root & b' & M' & Er & Hcon & Hholds).
    rewrite <- (bg_root _ _ Hg), Er. cbn [mbind option_bind]. exists (Some w), root, b', M'. split; [done|]. split; [done|]. by rewrite <- HM.
  - eexists None, _, b, M. split; [reflexivity|]. split; [|split; [done|]].
    + rewrite <- (bg_root _ _ Hg). exists t. split; [by destruct b, Hg | done].
    + rewrite <- HM. apply (sizes_forall t (fun x => x <> size)). rewrite Forall_forall. by intros x Hx ->.
Qed.

(** C23: the tree of [core/bst.c] is a multiset of sizes with values.
    An insertion adds the pair, or nothing if the pool has no entry left; a removal of a size takes
    one of that size, and is NULL just if there is none; a removal of a closest size takes one of the least
    size that is not smaller, and is NULL just if all are smaller.  None of them follows a
    NULL, none of the loops runs out of fuel, and every entry that is given back to
    the pool was in use. *)
Theorem bst_is_multiset b M size value : bst_holds b M ->
  (exists o root b', lexbor_bst_insert b (bst_root b) size value = Some (o, root, b') /\
    bst_holds (set_root root b') (match o with Some _ => (size, value) :: M | None => M end)) /\
  (exists o root b' M', lexbor_bst_remove b (bst_root b) size = Some (o, root, b') /\ bst_holds (set_root root b') M' /\
    match o with Some v => M ≡ₚ (size, v) :: M' | None => M' = M /\ Forall (fun x => fst x <> size) M end) /\
  (exists o found root b' M', lexbor_bst_remove_close b (bst_root b) size = Some (o, found, root, b') /\
    best_fit M size o found M' /\ bst_holds (set_root root b') M').
Proof. intros Hb. split; [by apply insert_good|]. split; [by apply remove_size_good | by apply remove_close_good]. Qed.
End Contents.

Lemma bst_is_multiset_witness :
  let heap := bump_heap 4096 in let pool := dobject_pool (fun _ => true) in
  exists d, lexbor_dobject_init (fun _ => true) 512 48 = (LXB_STATUS_OK, Some d) /\
    exists o found root b' M', lexbor_bst_remove_close (lexbor_bst_init d) None 16 = Some (o, found, root, b') /\ best_fit [] 16 o found M' /\ bst_holds (set_root root b') M'.
Proof.
  intros heap pool. pose (laws := bump_heap_laws 4096 eq_refl : @CHeapLaws heap). destruct (lexbor_dobject_init (fun _ => true) 512 48) as [st o] eqn:E. assert (Hs : st = LXB_STATUS_OK /\ exists d, o = Some d) by (vm_compute in E; injection E as <- <-; by split; [|eexists]).
  destruct Hs as [-> [d ->]]. exists d. split; [done|].
  assert (Hd : bst_holds (lexbor_bst_init d) []) by (apply bst_init_ok; apply (dobject_init_ok (fun _ => true) 512 48); [done | done | exact E]).
  exact (proj2 (proj2 (@bst_is_multiset _ pool (dobject_pool_laws (fun _ => true)) (lexbor_bst_init d) [] 16 0 Hd))).
Defined.
