(* ===== verification/MRaw.v ===== *)
(** * Blocks of memory: [core/mraw.c]

    A block has its size in the eight bytes before it.  Blocks that are freed stay in a
    tree of sizes, and a new one is the smallest of them that is large enough, or is cut
    off the memory. *)
From S2P Require Import Prelude.
From S2P Require Import TkzBase.
From S2P Require Import Array.
From S2P Require Import Mem.
From S2P Require Import Bst.

#[local] Set Warnings "-clear-no-such-hyp".

(** [lexbor_mraw_meta_size] *)
Definition meta_size : Z := 8.

(** A [size_t] in memory, the low byte first. *)
Fixpoint get_bytes (n : nat) (a : Z) (bytes : Z -> Z) : Z := match n with O => 0 | Datatypes.S n => bytes a + 256 * get_bytes n (a + 1) bytes end.
Definition get_size (a : Z) (bytes : Z -> Z) : Z := get_bytes 8 a bytes.
(** [lexbor_mraw_meta_set] *)
Definition put_size (a n : Z) (bytes : Z -> Z) : Z -> Z := fun k => if (a <=? k) && (k <? a + 8) then (n / 256 ^ (k - a)) mod 256 else bytes k.
(** [memcpy] *)
Definition memcpy (dst src n : Z) (bytes : Z -> Z) : Z -> Z := fun k => if (dst <=? k) && (k <? dst + n) then bytes (src + (k - dst)) else bytes k.

(** [lexbor_mraw_t], and the bytes of the memory by their addresses. *)
Record lexbor_mraw (S : Type) := mk_mraw { mr_mem : lexbor_mem; mr_cache : lexbor_bst S; mr_bytes : Z -> Z }.
Arguments mk_mraw {S}.
Arguments mr_mem {S}.
Arguments mr_cache {S}.
Arguments mr_bytes {S}.

Definition set_mr_mem {S} (x : lexbor_mem) (m : lexbor_mraw S) : lexbor_mraw S := mk_mraw x (mr_cache m) (mr_bytes m).
Definition set_mr_cache {S} (x : lexbor_bst S) (m : lexbor_mraw S) : lexbor_mraw S := mk_mraw (mr_mem m) x (mr_bytes m).
Definition set_mr_bytes {S} (x : Z -> Z) (m : lexbor_mraw S) : lexbor_mraw S := mk_mraw (mr_mem m) (mr_cache m) x.

(** An address that is not NULL. *)
Definition address (a : Z) : option Z := if a =? 0 then None else Some a.

(** [chunk->length] *)
Definition set_chunk_length (n : Z) (mem : lexbor_mem) : lexbor_mem := set_chunk (set_ck_length n (mem_chunk_of mem)) mem.

Section MRaw.
Context {S : Type} `{CHeap} `{ObjectPool S}.

Definition lexbor_mraw_init (pool_init : Z -> Z -> Z * option S) (chunk_size : Z) : Z * option (lexbor_mraw S) :=
  if chunk_size =? 0 then (LXB_STATUS_ERROR_WRONG_ARGS, None)
  else
    match lexbor_mem_init (size_wrap (chunk_size + meta_size)) with
    | (status, None) => (status, None)
    | (_, Some mem) =>
        match pool_init 512 48 with
        | (status, None) => (status, None)
        | (_, Some pool) => (LXB_STATUS_OK, Some (mk_mraw mem (lexbor_bst_init pool) (fun _ => 0)))
        end
    end.

Definition lexbor_mraw_clean (m : lexbor_mraw S) : lexbor_mraw S := mk_mraw (lexbor_mem_clean (mr_mem m)) (lexbor_bst_clean (mr_cache m)) (mr_bytes m).

(** [lexbor_bst_insert] at the root of the tree; its answer is not looked at. *)
Definition cache_insert (size data : Z) (m : lexbor_mraw S) : option (lexbor_mraw S) :=
  '(_, root, cache) ← lexbor_bst_insert (mr_cache m) (bst_root (mr_cache m)) size data;
  Some (set_mr_cache (set_root root cache) m).

Definition lexbor_mraw_data_size (data : Z) (m : lexbor_mraw S) : Z := get_size (data - meta_size) (mr_bytes m).
Definition lexbor_mraw_data_size_set (data size : Z) (m : lexbor_mraw S) : lexbor_mraw S := set_mr_bytes (put_size (data - meta_size) size (mr_bytes m)) m.

(** The rest of the chunk becomes a block that is free. *)
Definition save_tail (m : lexbor_mraw S) : option (lexbor_mraw S) :=
  let chunk := mem_chunk_of (mr_mem m) in
  let diff := lexbor_mem_align_floor (ck_size chunk - ck_length chunk) in
  if diff >? meta_size then
    let diff := diff - meta_size in
    let at_ := ck_data chunk + ck_length chunk in
    m ← cache_insert diff (at_ + meta_size) (set_mr_bytes (put_size at_ diff (mr_bytes m)) m);
    Some (set_mr_mem (set_chunk_length (ck_size chunk) (mr_mem m)) m)
  else Some m.

(** The next [length] bytes of the chunk. *)
Definition take_bytes (length : Z) (m : lexbor_mraw S) : option Z * lexbor_mraw S :=
  let chunk := mem_chunk_of (mr_mem m) in
  (Some (ck_data chunk + ck_length chunk), set_mr_mem (set_chunk_length (size_wrap (ck_length chunk + length)) (mr_mem m)) m).

(** The answers are NULL or an address; [None] is a NULL that is followed.  A chunk that
    has nothing in it is freed and made again, without a test for NULL but in the answer. *)
Definition lexbor_mraw_mem_alloc (m : lexbor_mraw S) (length : Z) : option (option Z * lexbor_mraw S) :=
  if length =? 0 then Some (None, m)
  else
    let mem := mr_mem m in
    let chunk := mem_chunk_of mem in
    if size_wrap (ck_length chunk + length) >? ck_size chunk then
      if SIZE_MAX - chunk_length mem =? 0 then Some (None, m)
      else if ck_length chunk =? 0 then
        let c := lexbor_mem_chunk_init (chunk_min_size mem) (mem_prev mem) length in
        Some (address (ck_data c), set_mr_mem (set_chunk (set_ck_length length c) mem) m)
      else
        m ← save_tail m;
        match lexbor_mem_chunk_make (chunk_min_size (mr_mem m)) (mem_chunks (mr_mem m)) length with
        | None => Some (None, m)
        | Some c => Some (take_bytes length (set_mr_mem (push_chunk c (mr_mem m)) m))
        end
    else Some (take_bytes length m).

(** [lexbor_bst_remove_close], if there are blocks in the cache. *)
Definition cache_take (size : Z) (m : lexbor_mraw S) : option (option Z * lexbor_mraw S) :=
  if negb (tree_length (mr_cache m) =? 0) then
    '(data, _, root, cache) ← lexbor_bst_remove_close (mr_cache m) (bst_root (mr_cache m)) size;
    Some (data ≫= address, set_mr_cache (set_root root cache) m)
  else Some (None, m).

Definition lexbor_mraw_alloc (m : lexbor_mraw S) (size : Z) : option (option Z * lexbor_mraw S) :=
  let size := lexbor_mem_align size in
  '(data, m) ← cache_take size m;
  match data with
  | Some data => Some (Some data, m)
  | None =>
      '(data, m) ← lexbor_mraw_mem_alloc m (size_wrap (size + meta_size));
      match data with
      | None => Some (None, m)
      | Some data => Some (Some (data + meta_size), set_mr_bytes (put_size data size (mr_bytes m)) m)
      end
  end.

Definition lexbor_mraw_calloc (m : lexbor_mraw S) (size : Z) : option (option Z * lexbor_mraw S) :=
  '(data, m) ← lexbor_mraw_alloc m size;
  match data with
  | None => Some (None, m)
  | Some data => Some (Some data, set_mr_bytes (memset data (lexbor_mraw_data_size data m) 0 (mr_bytes m)) m)
  end.

Definition lexbor_mraw_dup (m : lexbor_mraw S) (src size : Z) : option (option Z * lexbor_mraw S) :=
  '(data, m) ← lexbor_mraw_alloc m size;
  match data with
  | None => Some (None, m)
  | Some data => Some (Some data, set_mr_bytes (memcpy data src size (mr_bytes m)) m)
  end.

(** The answer is NULL. *)
Definition lexbor_mraw_free (m : lexbor_mraw S) (data : Z) : option (lexbor_mraw S) := cache_insert (lexbor_mraw_data_size data m) data m.

(** The last block of the chunk, at [begin_len].  The answer of [lexbor_mraw_realloc] if
    [*is_valid], or none. *)
Definition lexbor_mraw_realloc_tail (m : lexbor_mraw S) (data size begin_len new_size : Z) : option (option Z) * lexbor_mraw S :=
  let mem := mr_mem m in
  let chunk := mem_chunk_of mem in
  let begin := data - meta_size in
  if ck_size chunk >? size_wrap (begin_len + new_size) then
    if new_size =? 0 then (Some None, set_mr_mem (set_chunk_length (size_wrap (begin_len - meta_size)) mem) m)
    else (Some (Some data), mk_mraw (set_chunk_length (size_wrap (begin_len + new_size)) mem) (mr_cache m) (put_size begin new_size (mr_bytes m)))
  else if begin_len =? meta_size then
    let c := lexbor_mem_chunk_init (chunk_min_size mem) (mem_chunks mem) (size_wrap (new_size + meta_size)) in
    if ck_data c =? 0 then (Some None, m)
    else
      let bytes := put_size (ck_data c) new_size (mr_bytes m) in
      let new_data := ck_data c + meta_size in
      let bytes := if negb (size =? 0) then memcpy new_data data size bytes else bytes in
      (Some (Some new_data), mk_mraw (set_chunk (set_ck_length (size_wrap (new_size + meta_size)) c) mem) (mr_cache m) bytes)
  else
    let size := lexbor_mem_align_floor (size_wrap (size + (ck_size chunk - ck_length chunk))) in
    (None, mk_mraw (set_chunk_length (ck_size chunk) mem) (mr_cache m) (put_size begin size (mr_bytes m))).

Definition lexbor_mraw_realloc (m : lexbor_mraw S) (data new_size : Z) : option (option Z * lexbor_mraw S) :=
  let chunk := mem_chunk_of (mr_mem m) in
  let begin := data - meta_size in
  let size := get_size begin (mr_bytes m) in
  let new_size := lexbor_mem_align new_size in
  let '(answer, m) :=
    if (ck_length chunk >=? size) && (ck_data chunk + (ck_length chunk - size) =? data) then
      lexbor_mraw_realloc_tail m data size (ck_length chunk - size) new_size
    else (None, m) in
  match answer with
  | Some ptr => Some (ptr, m)
  | None =>
      if new_size <? size then
        if new_size =? 0 then m ← cache_insert size data m; Some (None, m)
        else
          let diff := lexbor_mem_align_floor (size - new_size) in
          if diff >? meta_size then
            let bytes := put_size begin new_size (mr_bytes m) in
            let new_size := diff - meta_size in
            let begin := data + diff in
            m ← cache_insert new_size (begin + meta_size) (set_mr_bytes (put_size begin new_size bytes) m);
            Some (Some data, m)
          else Some (Some data, m)
      else
        '(begin, m) ← lexbor_mraw_alloc m new_size;
        match begin with
        | None => Some (None, m)
        | Some begin =>
            let m := if negb (size =? 0) then set_mr_bytes (memcpy begin data size (mr_bytes m)) m else m in
            m ← lexbor_mraw_free m data;
            Some (Some begin, m)
        end
  end.
End MRaw.

(** ** Blocks *)

Lemma get_put_bytes n a k x bytes : 0 <= k -> 0 <= x -> (Z.of_nat n + k <= 8) ->
  get_bytes n (a + k) (put_size a x bytes) = (x / 256 ^ k) mod 256 ^ Z.of_nat n.
Proof.
  revert k. induction n as [|n IH]; intros k Hk Hx Hn; [cbn; by rewrite Z.mod_1_r|]. cbn [get_bytes]. rewrite <- Z.add_assoc, IH by lia.
  unfold put_size at 1. rewrite (proj2 (Z.leb_le _ _)), (proj2 (Z.ltb_lt _ _)) by lia. cbn [andb]. replace (a + k - a) with k by lia.
  rewrite Z.pow_add_r, <- Z.div_div by lia. change (256 ^ 1) with 256. rewrite Nat2Z.inj_succ, <- Z.add_1_l, Z.pow_add_r by lia. change (256 ^ 1) with 256.
  rewrite Z.rem_mul_r by lia. done.
Qed.

Lemma get_put a x bytes : 0 <= x < 2 ^ 64 -> get_size a (put_size a x bytes) = x.
Proof.
  intros Hx. unfold get_size. rewrite <- (Z.add_0_r a) at 1. rewrite get_put_bytes by lia. rewrite Z.pow_0_r, Z.div_1_r. by apply Z.mod_small.
Qed.

Lemma put_outside a x bytes k : ~ (a <= k < a + 8) -> put_size a x bytes k = bytes k.
Proof. intros Hk. unfold put_size. by rewrite (proj2 (andb_false_iff _ _)) by lia. Qed.

Lemma copy_outside dst src n bytes k : ~ (dst <= k < dst + n) -> memcpy dst src n bytes k = bytes k.
Proof. intros Hk. unfold memcpy. by rewrite (proj2 (andb_false_iff _ _)) by lia. Qed.

Lemma copy_inside dst src n bytes k : 0 <= k < n -> memcpy dst src n bytes (dst + k) = bytes (src + k).
Proof. intros Hk. unfold memcpy. rewrite (proj2 (andb_true_iff _ _)) by lia. f_equal. lia. Qed.

Lemma fill_outside a n x bytes k : ~ (a <= k < a + n) -> memset a n x bytes k = bytes k.
Proof. intros Hk. unfold memset. by rewrite (proj2 (andb_false_iff _ _)) by lia. Qed.

Lemma fill_inside a n x bytes k : a <= k < a + n -> memset a n x bytes k = x.
Proof. intros Hk. unfold memset. by rewrite (proj2 (andb_true_iff _ _)) by lia. Qed.

Lemma get_bytes_same n a b1 b2 : (forall k, a <= k < a + Z.of_nat n -> b2 k = b1 k) -> get_bytes n a b2 = get_bytes n a b1.
Proof. revert a. induction n as [|n IH]; intros a Hk; [done|]. cbn [get_bytes]. rewrite Hk, IH; [done | intros k Hin; apply Hk; lia | lia]. Qed.

(** A block is its size and its address; its header belongs to it. *)
Definition of_block (b : Z * Z) (k : Z) : Prop := snd b - meta_size <= k < snd b + fst b.
Definition disjoint_blocks (b b' : Z * Z) : Prop := snd b + fst b <= snd b' - meta_size \/ snd b' + fst b' <= snd b - meta_size.

(** It is in one chunk, and its size is in its header. *)
Definition in_chunk (cs : list mem_chunk) (b : Z * Z) : Prop :=
  Exists (fun c => ck_data c + meta_size <= snd b /\ snd b + fst b <= ck_data c + ck_length c) cs.

Record mraw_block_ok (mem : lexbor_mem) (bytes : Z -> Z) (b : Z * Z) : Prop := {
  bk_size : 0 <= fst b /\ fst b mod 8 = 0 /\ snd b mod 8 = 0;
  bk_placed : in_chunk (mem_chunks mem) b;
  bk_header : get_size (snd b - meta_size) bytes = fst b
}.

Record blocks_ok (mem : lexbor_mem) (bytes : Z -> Z) (bs : list (Z * Z)) : Prop := {
  bs_mem : mem_ok mem;
  bs_each : Forall (mraw_block_ok mem bytes) bs;
  bs_apart : ForallOrdPairs disjoint_blocks bs
}.

(** The bytes of the blocks are as before. *)
Definition bytes_kept (bytes bytes' : Z -> Z) (bs : list (Z * Z)) : Prop := forall b k, b ∈ bs -> of_block b k -> bytes' k = bytes k.

#[local] Instance separate_sym : Symmetric disjoint_blocks.
Proof. intros b b'. unfold disjoint_blocks. tauto. Qed.

Lemma pairs_perm l l' : l ≡ₚ l' -> ForallOrdPairs disjoint_blocks l -> ForallOrdPairs disjoint_blocks l'.
Proof.
  intros Hp. induction Hp as [|x l l' Hp IH|x y l|l1 l2 l3 _ IH1 _ IH2]; intros Hl.
  - done.
  - inversion Hl as [|? ? Hx Hl']; subst. constructor; [by rewrite <- Hp | by apply IH].
  - inversion Hl as [|? ? Hx Hl']; subst. inversion Hl' as [|? ? Hy Hl'']; subst. inversion Hx as [|? ? Hxy Hx']; subst. constructor; [constructor; [by symmetry | done] | by constructor].
  - auto.
Qed.

#[local] Instance blocks_perm mem bytes : Proper (Permutation ==> iff) (blocks_ok mem bytes).
Proof. intros l l' Hp. split; intros [H1 H2 H3]; (split; [done | by rewrite ?Hp, <- ?Hp in * | by eapply pairs_perm]). Qed.

Lemma separate_within b b' k : disjoint_blocks b b' -> of_block b k -> ~ of_block b' k.
Proof. unfold disjoint_blocks, of_block. lia. Qed.

Lemma blocks_tail mem bytes b bs : blocks_ok mem bytes (b :: bs) -> blocks_ok mem bytes bs /\ mraw_block_ok mem bytes b /\ Forall (disjoint_blocks b) bs.
Proof. intros [H1 H2 H3]. apply Forall_cons in H2 as [Hb H2]. inversion H3; subst. by split. Qed.

(** All bytes of a block are taken. *)
Lemma placed_taken cs b k : in_chunk cs b -> of_block b k -> taken cs k.
Proof. intros Hp Hk. eapply Exists_impl; [exact Hp|]. intros c Hc. unfold inside, of_block, meta_size in *. lia. Qed.

Lemma header_kept mem mem' bytes bytes' b : mraw_block_ok mem bytes b -> in_chunk (mem_chunks mem') b -> (forall k, of_block b k -> bytes' k = bytes k) -> mraw_block_ok mem' bytes' b.
Proof.
  intros [H1 H2 H3] Hp Hk. split; [done | done |]. rewrite <- H3. apply get_bytes_same. intros k Hin. apply Hk. unfold of_block, meta_size in *. lia.
Qed.

(** [n] bytes at [p] are cut off, and written to: a block with its header. *)
Lemma blocks_cut mem mem' bytes bytes' bs n p : blocks_ok mem bytes bs -> cut_off mem n p mem' -> 8 <= n -> n mod 8 = 0 ->
  (forall b, in_chunk (mem_chunks mem) b -> in_chunk (mem_chunks mem') b) -> in_chunk (mem_chunks mem') (n - 8, p + 8) ->
  (forall k, ~ (p <= k < p + n) -> bytes' k = bytes k) -> get_size p bytes' = n - 8 ->
  blocks_ok mem' bytes' ((n - 8, p + 8) :: bs) /\ bytes_kept bytes bytes' bs.
Proof.
  intros [H1 H2 H3] [K1 (K2 & K3 & _) K4 K5 _] Hn Hn8 Hpl Hnew Hb Hsz. rewrite Forall_forall in H2.
  assert (Hout : forall b, b ∈ bs -> forall k, of_block b k -> ~ (p <= k < p + n)).
  { intros b Hin k Hk Hp. apply (K5 k Hp). by apply (placed_taken _ b), Hk; apply H2. }
  assert (Hkeep : bytes_kept bytes bytes' bs) by (intros b k Hin Hk; by apply Hb, (Hout b)).
  split; [|exact Hkeep]. split; [done | |].
  - constructor; [|rewrite Forall_forall; intros b Hin; eapply header_kept; [by apply H2 | by apply Hpl, H2 | intros k; by apply Hkeep]].
    split; [|done|]; cbn [fst snd]; [|unfold meta_size; by rewrite Z.add_simpl_r]. split; [lia|].
    destruct (sum_aligned n 8 Hn8 eq_refl) as [_ ?]. by destruct (sum_aligned p 8 K3 eq_refl) as [? _].
  - constructor; [|done]. rewrite Forall_forall. intros b Hin. specialize (Hout b Hin). destruct (H2 b Hin) as [[Hs _] _ _]. unfold disjoint_blocks, of_block, meta_size in *. cbn [fst snd].
    assert (~ (p <= snd b - 8 < p + n)) by (intros Hp; apply (Hout (snd b - 8)); lia). assert (~ (snd b - 8 <= p < snd b + fst b)) by (intros Hp; apply (Hout p); lia). lia.
Qed.

(** *** The last chunk *)

Lemma placed_chunk cs cs' b : (forall c, c ∈ cs -> exists c', c' ∈ cs' /\ ck_data c' = ck_data c /\ ck_length c <= ck_length c') -> in_chunk cs b -> in_chunk cs' b.
Proof.
  intros Hcs (c & Hc & Hb)%Exists_exists. destruct (Hcs c Hc) as (c' & Hc' & Ed & El). apply Exists_exists. exists c'. split; [done|]. rewrite Ed. lia.
Qed.

Lemma set_chunk_placed mem c b : ck_data c = ck_data (mem_chunk_of mem) -> ck_length (mem_chunk_of mem) <= ck_length c ->
  in_chunk (mem_chunks mem) b -> in_chunk (mem_chunks (set_chunk c mem)) b.
Proof.
  intros Ed El. apply placed_chunk. unfold mem_chunks. cbn. intros x [->|Hx]%elem_of_cons; [exists c; split; [left | done]|]. exists x. split; [by right | done].
Qed.

Lemma chunk_length_pos mem : mem_ok mem -> 0 <= ck_length (mem_chunk_of mem).
Proof. intros [H1 _ _]. apply Forall_cons in H1 as [[_ _ [Hl _]] _]. lia. Qed.

Lemma grow_blocks mem bytes bytes' bs n : blocks_ok mem bytes bs -> 8 <= n -> n mod 8 = 0 ->
  let L := ck_length (mem_chunk_of mem) in let p := ck_data (mem_chunk_of mem) + L in
  L + n <= ck_size (mem_chunk_of mem) -> (forall k, ~ (p <= k < p + n) -> bytes' k = bytes k) -> get_size p bytes' = n - 8 ->
  blocks_ok (set_chunk_length (L + n) mem) bytes' ((n - 8, p + 8) :: bs) /\ bytes_kept bytes bytes' bs.
Proof.
  intros Hbs Hn Hn8 L p Hfit Hb Hsz. destruct (bump_ok mem n (bs_mem _ _ _ Hbs)) as (p' & mem' & _ & Ep & -> & Hcut); [lia | done | done|]. fold L p in Ep, Hcut. subst p'.
  eapply blocks_cut; [exact Hbs | exact Hcut | done | done | | | done | done].
  - intros b. apply set_chunk_placed; [done|]. cbn. fold L. lia.
  - unfold in_chunk, mem_chunks. cbn. left. cbn. unfold meta_size. pose proof (chunk_length_pos mem (bs_mem _ _ _ Hbs)). subst p L. lia.
Qed.

(** A chunk that has nothing in it is replaced. *)
Lemma replace_blocks mem bytes bs c : blocks_ok mem bytes bs -> ck_length (mem_chunk_of mem) = 0 ->
  mem_chunk_ok c -> Forall (chunks_apart c) (mem_prev mem) -> blocks_ok (set_chunk c mem) bytes bs.
Proof.
  intros [[H1 [H2 H2'] H3] Hb Hap] Hl Hc Hca. apply Forall_cons in H1 as [_ H1]. split; [split; [by constructor | by split | done] | | done].
  eapply Forall_impl; [exact Hb|]. intros b [K1 K2 K3]. split; [done | | done]. unfold in_chunk, mem_chunks in *. cbn in *. rewrite Exists_cons in K2. right.
  destruct K2 as [K2|K2]; [unfold meta_size in K2; lia | done].
Qed.

Lemma push_blocks mem bytes bs c : blocks_ok mem bytes bs -> mem_chunk_ok c -> Forall (chunks_apart c) (mem_chunks mem) -> blocks_ok (push_chunk c mem) bytes bs.
Proof.
  intros [H1 Hb Hap] Hc Hca. split; [by apply push_ok_chunk | | done]. eapply Forall_impl; [exact Hb|]. intros b [K1 K2 K3]. split; [done | | done]. by right.
Qed.

(** The last block of the chunk is cut off. *)
Lemma cut_tail mem bytes s d bs : blocks_ok mem bytes ((s, d) :: bs) -> 0 < s -> let L := ck_length (mem_chunk_of mem) in
  s <= L -> ck_data (mem_chunk_of mem) + (L - s) = d -> blocks_ok (set_chunk_length (L - s - 8) mem) bytes bs /\ 8 <= L - s.
Proof.
  intros Hbs Hs L HsL Hd. apply blocks_tail in Hbs as (Hbs & [[_ [Hs8 Hd8]] Hp _] & Hsep). pose proof Hbs as [Hm Hb Hap]. pose proof Hm as [H1 [H2 _] _]. cbn [fst snd] in *.
  apply Forall_cons in H1 as [[[C0 C1] [C2 C3] [C4 C5]] H1]. fold L in C4, C5. rewrite Forall_forall in H1, H2.
  assert (HL : 8 <= L - s).
  { unfold in_chunk, mem_chunks in Hp. rewrite Exists_cons in Hp. unfold meta_size in Hp. cbn [fst snd] in Hp. destruct Hp as [Hp|Hp]; [lia|].
    apply Exists_exists in Hp as (c & Hc & Hin). specialize (H2 c Hc). destruct (H1 c Hc) as [_ _ [Hlen _]]. unfold chunks_apart in H2. lia. }
  split; [|done]. split; [|  | done].
  - apply set_length_ok; [done | lia|]. destruct (sum_aligned L s C5 Hs8) as [_ K]. by destruct (sum_aligned (L - s) 8 K eq_refl).
  - rewrite Forall_forall in Hb, Hsep |- *. intros b Hin. specialize (Hsep b Hin). destruct (Hb b Hin) as [K1 K2 K3]. split; [done | | done].
    unfold in_chunk, mem_chunks in K2 |- *. rewrite Exists_cons in K2. cbn. rewrite Exists_cons. destruct K2 as [K2|K2]; [left | by right].
    unfold disjoint_blocks, meta_size in *. cbn in *. lia.
Qed.

(** A block for the bytes from [d - 8] on, after the last one was cut off. *)
Lemma regrow_blocks mem bytes bytes' s d n bs : blocks_ok mem bytes ((s, d) :: bs) -> 0 < s -> let L := ck_length (mem_chunk_of mem) in
  s <= L -> ck_data (mem_chunk_of mem) + (L - s) = d -> 0 <= n -> n mod 8 = 0 -> L - s + n <= ck_size (mem_chunk_of mem) ->
  (forall k, ~ (d - 8 <= k < d + n) -> bytes' k = bytes k) -> get_size (d - 8) bytes' = n ->
  blocks_ok (set_chunk_length (L - s + n) mem) bytes' ((n, d) :: bs) /\ bytes_kept bytes bytes' bs.
Proof.
  intros Hbs Hs L HsL Hd Hn Hn8 Hfit Hb Hsz. destruct (cut_tail _ _ _ _ _ Hbs Hs HsL Hd) as [Hcut HL]. fold L in Hcut.
  destruct (grow_blocks (set_chunk_length (L - s - 8) mem) bytes bytes' bs (n + 8) Hcut) as [K1 K2]; cbn in *; [lia | by destruct (sum_aligned n 8 Hn8 eq_refl) | lia | | |].
  - intros k Hk. apply Hb. lia.
  - replace (ck_data (mem_chunk_of mem) + (L - s - 8)) with (d - 8) by lia. lia.
  - replace (n + 8 - 8) with n in K1 by lia. replace (ck_data (mem_chunk_of mem) + (L - s - 8) + 8) with d in K1 by lia. replace (L - s - 8 + (n + 8)) with (L - s + n) in K1 by lia. done.
Qed.

Section Spec.
Context {S : Type} `{CHeapLaws} `{ObjectPoolLaws S}.

(** The blocks in use and those in the cache. *)
Definition mraw_ok (m : lexbor_mraw S) (live : list (Z * Z)) : Prop :=
  exists M, bst_holds (mr_cache m) M /\ blocks_ok (mr_mem m) (mr_bytes m) (M ++ live).

(** The chunk is NULL: what [lexbor_mraw_mem_alloc] leaves when it frees an empty chunk and
    does not get another. *)
Definition chunk_lost (m : lexbor_mraw S) : Prop := ck_data (mem_chunk_of (mr_mem m)) = 0.

Lemma keeps_app bytes bytes' bs bs' : bytes_kept bytes bytes' (bs ++ bs') -> bytes_kept bytes bytes' bs'.
Proof. intros Hk b k Hb. apply Hk. rewrite elem_of_app. by right. Qed.

Lemma keeps_trans b1 b2 b3 bs : bytes_kept b1 b2 bs -> bytes_kept b2 b3 bs -> bytes_kept b1 b3 bs.
Proof. intros H12 H23 b k Hb Hk. by rewrite (H23 b k), (H12 b k). Qed.

Lemma keeps_tail b1 b2 x bs : bytes_kept b1 b2 (x :: bs) -> bytes_kept b1 b2 bs.
Proof. intros Hk b k Hb. apply Hk. by right. Qed.

(** A block goes to the cache, or is lost if the pool has no entry for it. *)
Lemma cache_insert_ok m M live s d mem bytes : bst_holds (mr_cache m) M -> blocks_ok mem bytes ((s, d) :: M ++ live) ->
  exists m', cache_insert s d m = Some m' /\ mr_mem m' = mr_mem m /\ mr_bytes m' = mr_bytes m /\
    exists M', bst_holds (mr_cache m') M' /\ blocks_ok mem bytes (M' ++ live).
Proof.
  intros HM Hbs. unfold cache_insert. destruct (insert_good _ _ s d HM) as (o & root & b' & -> & Hb'). cbn [mbind option_bind].
  eexists. split; [reflexivity|]. split; [done|]. split; [done|]. eexists. split; [exact Hb'|]. destruct o; [exact Hbs | by apply blocks_tail in Hbs as [Hbs _]].
Qed.

Lemma save_tail_ok m live : mraw_ok m live -> exists m', save_tail m = Some m' /\ mraw_ok m' live /\ bytes_kept (mr_bytes m) (mr_bytes m') live.
Proof.
  intros (M & HM & Hbs). unfold save_tail. pose proof (mo_chunks _ (bs_mem _ _ _ Hbs)) as Hc. apply Forall_cons in Hc as [[_ [[C2 C3] [C4 _]] [C5 C6]] _].
  set (c := mem_chunk_of (mr_mem m)) in *. destruct (sum_aligned _ _ C4 C6) as [_ Hd8]. destruct (align_same _ Hd8) as [_ ->].
  destruct (_ >? _) eqn:E; [|exists m; split; [done|]; split; [by exists M | by intros b k]].
  destruct (grow_blocks (mr_mem m) (mr_bytes m) (put_size (ck_data c + ck_length c) (ck_size c - ck_length c - meta_size) (mr_bytes m)) _ (ck_size c - ck_length c) Hbs) as [K1 K2];
    fold c; unfold meta_size in *; [lia | done | lia | intros k Hk; apply put_outside; lia | apply get_put; lia |]. fold c in K1, K2.
  replace (ck_length c + (ck_size c - ck_length c)) with (ck_size c) in K1 by lia.
  destruct (cache_insert_ok (set_mr_bytes (put_size (ck_data c + ck_length c) (ck_size c - ck_length c - 8) (mr_bytes m)) m) M live _ _ _ _ HM K1)
    as (m' & -> & Em & Eb & M' & HM' & Hbs').
  cbn [mbind option_bind]. eexists. split; [reflexivity|]. cbn [set_mr_mem mr_bytes]. rewrite Em, Eb. split; [|exact (keeps_app _ _ _ _ K2)]. exists M'. split; [exact HM'|].
  cbn [mr_mem set_mr_mem mr_bytes]. rewrite Eb. exact Hbs'.
Qed.

(** [n] bytes with a header for a block of all of them. *)
Definition new_block (m m' : lexbor_mraw S) (n p : Z) (live : list (Z * Z)) : Prop :=
  let bytes := put_size p (n - 8) (mr_bytes m') in
  mraw_ok (set_mr_bytes bytes m') ((n - 8, p + 8) :: live) /\ bytes_kept (mr_bytes m) bytes live.

Lemma take_bytes_ok m M live n : bst_holds (mr_cache m) M -> blocks_ok (mr_mem m) (mr_bytes m) (M ++ live) -> 8 <= n < 2 ^ 62 -> n mod 8 = 0 ->
  ck_length (mem_chunk_of (mr_mem m)) + n <= ck_size (mem_chunk_of (mr_mem m)) ->
  exists p m', take_bytes n m = (Some p, m') /\ new_block m m' n p live.
Proof.
  intros HM Hbs Hn Hn8 Hfit. unfold take_bytes, size_wrap. pose proof (mo_chunks _ (bs_mem _ _ _ Hbs)) as Hc. apply Forall_cons in Hc as [[_ [[C2 C3] _] [C5 _]] _].
  rewrite Z.mod_small by lia. eexists _, _. split; [reflexivity|]. unfold new_block. cbn [set_mr_mem mr_bytes]. set (p := _ + _).
  destruct (grow_blocks (mr_mem m) (mr_bytes m) (put_size p (n - 8) (mr_bytes m)) _ n Hbs) as [K1 K2]; [lia | done | done | intros k Hk; apply put_outside; fold p in Hk; lia | apply get_put; lia |].
  split; [|exact (keeps_app _ _ _ _ K2)]. exists M. split; [exact HM|]. cbn [set_mr_bytes mr_mem mr_bytes]. by rewrite <- Permutation_middle.
Qed.

Lemma mraw_mem_alloc_ok m live n : mraw_ok m live -> 8 <= n < 2 ^ 62 -> n mod 8 = 0 ->
  exists o m', lexbor_mraw_mem_alloc m n = Some (o, m') /\
    match o with
    | Some p => new_block m m' n p live
    | None => (mraw_ok m' live \/ chunk_lost m') /\ bytes_kept (mr_bytes m) (mr_bytes m') live
    end.
Proof.
  intros (M & HM & Hbs) Hn Hn8. unfold lexbor_mraw_mem_alloc. rewrite (proj2 (Z.eqb_neq n 0)) by lia. set (c := mem_chunk_of (mr_mem m)).
  pose proof (bs_mem _ _ _ Hbs) as Hm. pose proof (mo_chunks _ Hm) as Hc. apply Forall_cons in Hc as [[_ [[C2 C3] _] [C5 _]] _]. fold c in C2, C3, C5.
  destruct (align_same n Hn8) as [En _]. unfold size_wrap at 1. rewrite Z.mod_small by lia. destruct (_ >? _) eqn:Efit.
  2: { destruct (take_bytes_ok m M live n HM Hbs Hn Hn8) as (p & m' & -> & Hnew); [fold c; lia|]. by eexists _, _. }
  assert (Hsame : (mraw_ok m live \/ chunk_lost m) /\ bytes_kept (mr_bytes m) (mr_bytes m) live) by (split; [left; by exists M | by intros b k]).
  destruct (_ =? 0); [by eexists None, m|]. destruct (Z.eqb_spec (ck_length c) 0) as [El|El].
  - destruct (chunk_init_ok (chunk_min_size (mr_mem m)) (mem_prev (mr_mem m)) n (mo_min _ Hm)) as [Hl Hok]; [lia|]. set (c' := lexbor_mem_chunk_init _ _ n) in *.
    unfold address. destruct Hok as [Ed|(Hck & Hap & Hsz)].
    { rewrite Ed. eexists None, _. split; [reflexivity|]. split; [by right | by intros b k]. }
    pose proof (co_data _ Hck) as [Hd _]. rewrite (proj2 (Z.eqb_neq _ 0)) by lia. rewrite En in Hsz.
    destruct (take_bytes_ok (set_mr_mem (set_chunk c' (mr_mem m)) m) M live n HM) as (p & m' & E & Hnew); [by apply replace_blocks | done | done | cbn [mr_mem set_mr_mem mem_chunk_of set_chunk]; lia |].
    unfold take_bytes, size_wrap in E. cbn [mr_mem set_mr_mem mem_chunk_of set_chunk] in E. rewrite Hl in E. rewrite Z.add_0_l, Z.mod_small, Z.add_0_r in E by lia. injection E as <- <-.
    eexists (Some _), _. split; [reflexivity|]. exact Hnew.
  - destruct (save_tail_ok m live (ex_intro _ M (conj HM Hbs))) as (m1 & -> & (M1 & HM1 & Hbs1) & Hk1). cbn [mbind option_bind].
    pose proof (bs_mem _ _ _ Hbs1) as Hm1. destruct (lexbor_mem_chunk_make _ _ n) as [c'|] eqn:Ec.
    2: { eexists None, m1. split; [reflexivity|]. split; [left; by exists M1 | done]. }
    destruct (chunk_make_ok _ _ n c' (mo_min _ Hm1) ltac:(lia) Ec) as (Hck & Hap & Hsz & Hl). rewrite En in Hsz.
    destruct (take_bytes_ok (set_mr_mem (push_chunk c' (mr_mem m1)) m1) M1 live n HM1) as (p & m' & -> & Hnew & Hk2); [by apply push_blocks | done | done | cbn; lia |].
    eexists _, _. split; [reflexivity|]. split; [done|]. by eapply keeps_trans.
Qed.

(** A block of the cache, of the least size that is large enough. *)
Lemma cache_take_ok m live n : mraw_ok m live -> exists o m', cache_take n m = Some (o, m') /\ mr_bytes m' = mr_bytes m /\ mr_mem m' = mr_mem m /\
  match o with Some d => exists s, n <= s /\ mraw_ok m' ((s, d) :: live) | None => mraw_ok m' live end.
Proof.
  intros (M & HM & Hbs). unfold cache_take. destruct (_ =? 0); cbn [negb]; [eexists None, m; split; [reflexivity|]; split; [done|]; split; [done|]; by exists M|].
  destruct (remove_close_good _ M n HM) as (o & found & root & b' & M' & -> & Hfit & HM'). cbn [mbind option_bind]. destruct o as [d|].
  - destruct Hfit as (Hp & Hle & _). rewrite Hp in Hbs. cbn [app] in Hbs. pose proof Hbs as Hbs0. apply blocks_tail in Hbs0 as (_ & [_ Hpl _] & _).
    assert (d <> 0).
    { apply Exists_exists in Hpl as (c & Hc & Hin). pose proof (mo_chunks _ (bs_mem _ _ _ Hbs)) as Hcs. rewrite Forall_forall in Hcs. destruct (Hcs c Hc) as [[Hd _] _ _].
      unfold meta_size in Hin. cbn in Hin. lia. }
    assert (Ea : (Some d ≫= address) = Some d) by (cbn; unfold address; by rewrite (proj2 (Z.eqb_neq d 0))). rewrite Ea. eexists (Some d), _. split; [reflexivity|]. split; [done|]. split; [done|]. exists found. split; [done|].
    exists M'. split; [done|]. by rewrite <- Permutation_middle.
  - destruct Hfit as [-> _]. eexists None, _. split; [reflexivity|]. split; [done|]. split; [done|]. by exists M.
Qed.

(** What an allocation answers. *)
Definition allocated (m : lexbor_mraw S) (live : list (Z * Z)) (n : Z) (o : option Z) (m' : lexbor_mraw S) : Prop :=
  bytes_kept (mr_bytes m) (mr_bytes m') live /\
  match o with
  | Some d => exists s, lexbor_mem_align n <= s /\ mraw_ok m' ((s, d) :: live)
  | None => mraw_ok m' live \/ chunk_lost m'
  end.

Lemma mraw_alloc_ok m live n : mraw_ok m live -> 0 <= n < 2 ^ 61 -> exists o m', lexbor_mraw_alloc m n = Some (o, m') /\ allocated m live n o m'.
Proof.
  intros Hm Hn. unfold lexbor_mraw_alloc, allocated. destruct (align_up n) as [Ha Ha8]; [lia|]. set (l := lexbor_mem_align n) in *. cbn zeta.
  destruct (cache_take_ok m live l Hm) as (o & m1 & -> & Eb & Em & Ho). cbn [mbind option_bind]. destruct o as [d|].
  { eexists (Some d), m1. split; [reflexivity|]. rewrite Eb. split; [by intros b k | done]. }
  unfold size_wrap, meta_size. rewrite Z.mod_small by lia. destruct (mraw_mem_alloc_ok m1 live (l + 8) Ho) as (o & m2 & -> & Hnew); [lia | by destruct (sum_aligned l 8 Ha8 eq_refl) |].
  cbn [mbind option_bind]. rewrite <- Eb. destruct o as [p|].
  - unfold new_block in Hnew. replace (l + 8 - 8) with l in Hnew by lia. destruct Hnew as [K1 K2]. eexists (Some _), _. split; [reflexivity|]. split; [exact K2|]. by exists l.
  - destruct Hnew as [K1 K2]. eexists None, m2. split; [reflexivity|]. by split.
Qed.

(** Bytes of a block are written, its header chunks_apart. *)
Lemma write_block m s d live bytes : mraw_ok m ((s, d) :: live) -> (forall k, ~ (d <= k < d + s) -> bytes k = mr_bytes m k) ->
  mraw_ok (set_mr_bytes bytes m) ((s, d) :: live) /\ bytes_kept (mr_bytes m) bytes live.
Proof.
  intros (M & HM & Hbs) Hb. pose proof Hbs as Hbs0. rewrite <- Permutation_middle in Hbs0. pose proof (blocks_tail _ _ _ _ Hbs0) as (_ & [K1 K2 K3] & Hsep). rewrite Forall_forall in Hsep.
  assert (Hk : bytes_kept (mr_bytes m) bytes (M ++ live)).
  { intros b k Hin Hk. apply Hb. intros Hd. apply (separate_within _ _ k (Hsep b Hin)); [|done]. unfold of_block, meta_size. cbn. lia. }
  split; [|exact (keeps_app _ _ _ _ Hk)]. exists M. split; [exact HM|]. rewrite <- Permutation_middle. destruct Hbs0 as [Hm Hall Hap]. split; [exact Hm | | exact Hap].
  apply Forall_cons in Hall as [_ Hall]. constructor.
  - split; [done | done|]. rewrite <- K3. apply get_bytes_same. intros k Hin. apply Hb. cbn in *. unfold meta_size in Hin. lia.
  - rewrite Forall_forall in *. intros b Hin. specialize (Hall b Hin). eapply header_kept; [exact Hall | by destruct Hall | intros k; by apply Hk].
Qed.

Lemma block_header m s d live : mraw_ok m ((s, d) :: live) -> lexbor_mraw_data_size d m = s /\ 0 <= s /\ s mod 8 = 0.
Proof. intros (M & _ & Hbs). rewrite <- Permutation_middle in Hbs. by apply blocks_tail in Hbs as (_ & [(K1 & K1' & _) _ K3] & _). Qed.

Lemma mraw_free_ok m s d live : mraw_ok m ((s, d) :: live) -> exists m', lexbor_mraw_free m d = Some m' /\ mraw_ok m' live /\ mr_bytes m' = mr_bytes m.
Proof.
  intros Hm. unfold lexbor_mraw_free. destruct (block_header _ _ _ _ Hm) as [-> _]. destruct Hm as (M & HM & Hbs). rewrite <- Permutation_middle in Hbs.
  destruct (cache_insert_ok m M live s d _ _ HM Hbs) as (m' & E & Em & Eb & M' & HM' & Hbs'). exists m'. split; [exact E|]. split; [|exact Eb]. exists M'. by rewrite Em, Eb.
Qed.

(** *** Another size *)

(** The block is the last one of the chunk. *)
Definition last_block (m : lexbor_mraw S) (s d : Z) : Prop :=
  s <= ck_length (mem_chunk_of (mr_mem m)) /\ ck_data (mem_chunk_of (mr_mem m)) + (ck_length (mem_chunk_of (mr_mem m)) - s) = d.

(** The first [n] bytes of a block are those it had. *)
Definition moved (m m' : lexbor_mraw S) (d d' n : Z) : Prop := forall k, 0 <= k < n -> mr_bytes m' (d' + k) = mr_bytes m (d + k).

Definition tail_answer (m : lexbor_mraw S) (s d : Z) (live : list (Z * Z)) (n : Z) (o : option (option Z)) (m' : lexbor_mraw S) : Prop :=
  bytes_kept (mr_bytes m) (mr_bytes m') live /\
  match o with
  | Some (Some d') => mraw_ok m' ((n, d') :: live) /\ moved m m' d d' (Z.min s n)
  | Some None => n = 0 /\ mraw_ok m' live \/ n <> 0 /\ m' = m
  | None => s <= n /\ exists s', s <= s' /\ mraw_ok m' ((s', d) :: live) /\ moved m m' d d s
  end.

Lemma tail_shrinks m M s d live : bst_holds (mr_cache m) M -> blocks_ok (mr_mem m) (mr_bytes m) ((s, d) :: M ++ live) -> 0 < s -> last_block m s d ->
  let mem := set_chunk_length (ck_length (mem_chunk_of (mr_mem m)) - s - meta_size) (mr_mem m) in
  blocks_ok mem (mr_bytes m) (M ++ live) /\ mraw_ok (set_mr_mem mem m) live /\ 8 <= ck_length (mem_chunk_of (mr_mem m)) - s.
Proof. intros HM Hbs Hs [HsL Hd]. destruct (cut_tail _ _ _ _ _ Hbs Hs HsL Hd) as [Hcut HL]. split; [exact Hcut|]. split; [by exists M | exact HL]. Qed.

Lemma put_header m s d live n mem : mraw_ok m ((s, d) :: live) -> 0 < s -> last_block m s d -> 0 <= n -> n mod 8 = 0 ->
  ck_length (mem_chunk_of (mr_mem m)) - s + n <= ck_size (mem_chunk_of (mr_mem m)) -> mem = set_chunk_length (ck_length (mem_chunk_of (mr_mem m)) - s + n) (mr_mem m) ->
  let m' := mk_mraw mem (mr_cache m) (put_size (d - 8) n (mr_bytes m)) in
  mraw_ok m' ((n, d) :: live) /\ bytes_kept (mr_bytes m) (mr_bytes m') live /\ moved m m' d d (Z.min s n).
Proof.
  intros (M & HM & Hbs) Hs [HsL Hd] Hn Hn8 Hfit ->. cbn zeta. pose proof (mo_chunks _ (bs_mem _ _ _ Hbs)) as Hc. apply Forall_cons in Hc as [[_ [[C2 C3] _] _] _].
  rewrite <- Permutation_middle in Hbs. destruct (regrow_blocks _ _ (put_size (d - 8) n (mr_bytes m)) s d n _ Hbs Hs HsL Hd Hn Hn8 Hfit) as [K1 K2].
  - intros k Hk. apply put_outside. lia.
  - apply get_put. lia.
  - split; [|split; [exact (keeps_app _ _ _ _ K2)|]].
    + exists M. split; [exact HM|]. by rewrite <- Permutation_middle.
    + intros k Hk. cbn. apply put_outside. lia.
Qed.

(** The only block of a chunk goes to a chunk that takes its place. *)
Lemma move_chunk m s d live n c : mraw_ok m ((s, d) :: live) -> 0 < s -> last_block m s d -> ck_length (mem_chunk_of (mr_mem m)) - s = 8 ->
  s <= n < 2 ^ 62 -> n mod 8 = 0 -> mem_chunk_ok c -> Forall (chunks_apart c) (mem_chunks (mr_mem m)) -> n + 8 <= ck_size c -> ck_length c = 0 ->
  let m' := mk_mraw (set_chunk (set_ck_length (n + 8) c) (mr_mem m)) (mr_cache m) (memcpy (ck_data c + 8) d s (put_size (ck_data c) n (mr_bytes m))) in
  mraw_ok m' ((n, ck_data c + 8) :: live) /\ bytes_kept (mr_bytes m) (mr_bytes m') live /\ moved m m' d (ck_data c + 8) s.
Proof.
  intros (M & HM & Hbs) Hs Hlast HL Hn Hn8 Hc Hap Hsz Hl. pose proof Hlast as [HsL Hd]. cbn zeta. set (bytes := memcpy _ _ _ _).
  pose proof (mo_chunks _ (bs_mem _ _ _ Hbs)) as Hcs. apply Forall_cons in Hcs as [[_ [[C2 C3] _] [C5 _]] _]. apply Forall_cons in Hap as [Hap0 Hap].
  rewrite <- Permutation_middle in Hbs. destruct (tail_shrinks m M s d live HM Hbs Hs Hlast) as (Hbs1 & _ & _). rewrite HL in Hbs1.
  assert (Hbs2 : blocks_ok (set_chunk c (mr_mem m)) (mr_bytes m) (M ++ live)) by (apply (replace_blocks _ _ _ c Hbs1); [cbn; unfold meta_size; lia | done | done]).
  assert (Hout : forall k, ~ (ck_data c <= k < ck_data c + (n + 8)) -> bytes k = mr_bytes m k).
  { intros k Hk. unfold bytes. rewrite copy_outside, put_outside by lia. done. }
  destruct (grow_blocks (set_chunk c (mr_mem m)) (mr_bytes m) bytes _ (n + 8) Hbs2) as [K1 K2]; cbn [mem_chunk_of set_chunk] in *.
  - lia.
  - by destruct (sum_aligned n 8 Hn8 eq_refl).
  - lia.
  - rewrite Hl. intros k Hk. apply Hout. lia.
  - rewrite Hl, Z.add_0_r, Z.add_simpl_r. rewrite <- (get_put (ck_data c) n (mr_bytes m)) by lia. apply get_bytes_same. intros k Hk. unfold bytes. apply copy_outside. lia.
  - rewrite Hl, Z.add_0_r, Z.add_simpl_r in K1. unfold set_chunk_length in K1. cbn [mem_chunk_of set_chunk] in K1. rewrite Z.add_0_l in K1. split; [|split; [exact (keeps_app _ _ _ _ K2)|]].
    + exists M. split; [exact HM|]. by rewrite <- Permutation_middle.
    + intros k Hk. cbn [mr_bytes]. unfold bytes. rewrite copy_inside by lia. apply put_outside. unfold chunks_apart in Hap0. lia.
Qed.

Lemma realloc_tail_ok m s d live n : mraw_ok m ((s, d) :: live) -> 0 < s -> last_block m s d -> 0 <= n < 2 ^ 61 -> n mod 8 = 0 ->
  exists o m', lexbor_mraw_realloc_tail m d s (ck_length (mem_chunk_of (mr_mem m)) - s) n = (o, m') /\ tail_answer m s d live n o m'.
Proof.
  intros Hm Hs Hlast Hn Hn8. pose proof Hm as (M & HM & Hbs). pose proof Hlast as [HsL Hd]. unfold lexbor_mraw_realloc_tail, size_wrap.
  pose proof (bs_mem _ _ _ Hbs) as Hmem. pose proof (mo_chunks _ Hmem) as Hc. apply Forall_cons in Hc as [[_ [[C2 C3] [C4 _]] [C5 C6]] _].
  destruct (block_header _ _ _ _ Hm) as (_ & _ & Hs8). rewrite <- Permutation_middle in Hbs. destruct (tail_shrinks m M s d live HM Hbs Hs Hlast) as (_ & Hcut & HL).
  set (c := mem_chunk_of (mr_mem m)) in *. unfold meta_size in *. rewrite (Z.mod_small (ck_length c - s + n)) by lia. destruct (ck_size c >? _) eqn:Efit.
  { destruct (Z.eqb_spec n 0) as [->|Hn0].
    - rewrite Z.mod_small by lia. eexists _, _. split; [reflexivity|]. split; [by intros b k | by left].
    - eexists _, _. split; [reflexivity|]. edestruct (put_header m s d live n) as (K1 & K2 & K3); [done.. | lia | done | fold c; lia | reflexivity |]. by split. }
  destruct (Z.eqb_spec (ck_length c - s) 8) as [E8|E8].
  - rewrite (Z.mod_small (n + 8)) by lia. destruct (chunk_init_ok (chunk_min_size (mr_mem m)) (mem_chunks (mr_mem m)) (n + 8) (mo_min _ Hmem)) as [Hl Hok]; [lia|].
    set (c' := lexbor_mem_chunk_init _ _ (n + 8)) in *. destruct Hok as [Ed|(Hck & Hap & Hsz)].
    { rewrite Ed. eexists _, _. split; [reflexivity|]. split; [by intros b k|]. right. split; [lia | done]. }
    pose proof (co_data _ Hck) as [Hd' _]. rewrite (proj2 (Z.eqb_neq _ 0)) by lia. rewrite (proj2 (Z.eqb_neq s 0)) by lia. cbn [negb]. eexists _, _. split; [reflexivity|].
    destruct (align_same (n + 8)) as [En _]; [by destruct (sum_aligned n 8 Hn8 eq_refl)|]. rewrite En in Hsz.
    destruct (move_chunk m s d live n c') as (K1 & K2 & K3); [done.. | lia | done | done | done | done | done |]. split; [done|]. split; [done|]. by rewrite Z.min_l by lia.
  - destruct (sum_aligned _ _ C4 C6) as [_ Hr8]. destruct (sum_aligned _ _ Hs8 Hr8) as [Hall8 _]. rewrite (Z.mod_small (s + _)) by lia. destruct (align_same _ Hall8) as [_ ->].
    eexists _, _. split; [reflexivity|].
    destruct (put_header m s d live (s + (ck_size c - ck_length c)) (set_chunk_length (ck_size c) (mr_mem m))) as (K1 & K2 & K3); [done.. | lia | done | fold c; lia | fold c; f_equal; lia |].
    split; [exact K2|]. split; [lia|]. exists (s + (ck_size c - ck_length c)). split; [lia|]. split; [exact K1|]. by rewrite Z.min_l in K3 by lia.
Qed.

(** The answer, and the block that takes the place of the old one. *)
Definition reallocated (m : lexbor_mraw S) (s d : Z) (live : list (Z * Z)) (n : Z) (o : option Z) (m' : lexbor_mraw S) : Prop :=
  bytes_kept (mr_bytes m) (mr_bytes m') live /\
  match o with
  | Some d' => exists s', n <= s' /\ mraw_ok m' ((s', d') :: live) /\ moved m m' d d' (Z.min s n)
  | None => n = 0 /\ mraw_ok m' live \/ n <> 0 /\ (chunk_lost m' \/ exists s', s <= s' /\ mraw_ok m' ((s', d) :: live) /\ moved m m' d d s)
  end.

(** The block is copied to a new one, and freed. *)
Lemma realloc_copy m m1 s s1 d live n : mraw_ok m1 ((s1, d) :: live) -> 0 < s -> s <= s1 -> s <= n < 2 ^ 61 -> n mod 8 = 0 ->
  bytes_kept (mr_bytes m) (mr_bytes m1) live -> moved m m1 d d s ->
  exists o m', ('(begin, m) ← lexbor_mraw_alloc m1 n;
    match begin with
    | None => Some (None, m)
    | Some begin =>
        let m := if negb (s =? 0) then set_mr_bytes (memcpy begin d s (mr_bytes m)) m else m in
        m ← lexbor_mraw_free m d; Some (Some begin, m)
    end) = Some (o, m') /\ reallocated m s d live n o m'.
Proof.
  intros Hm Hs Hs1 Hn Hn8 Hk Hmv. destruct (mraw_alloc_ok m1 _ n Hm) as (o & m2 & -> & Hk2 & Ho); [lia|]. cbn [mbind option_bind]. destruct (align_same n Hn8) as [En _]. rewrite En in Ho.
  assert (Hd2 : forall k, 0 <= k < s -> mr_bytes m2 (d + k) = mr_bytes m (d + k)).
  { intros k Hin. rewrite <- Hmv by done. apply (Hk2 (s1, d)); [left|]. unfold of_block, meta_size. cbn. lia. }
  pose proof (keeps_trans _ _ _ _ Hk (keeps_tail _ _ _ _ Hk2)) as Hk12. destruct o as [b|].
  2: { eexists None, m2. split; [reflexivity|]. split; [done|]. right. split; [lia|]. destruct Ho as [Ho|Ho]; [right | by left]. by exists s1. }
  destruct Ho as (s' & Hs' & Hok). rewrite (proj2 (Z.eqb_neq s 0)) by lia. cbn [negb].
  destruct (write_block m2 s' b _ (memcpy b d s (mr_bytes m2)) Hok) as [Hw Hkw]; [intros k Hin; apply copy_outside; lia|].
  set (m3 := set_mr_bytes _ m2) in *. assert (Hw' : mraw_ok m3 ((s1, d) :: (s', b) :: live)) by (by destruct Hw as (M & HM & Hbs); exists M; split; [|rewrite perm_swap]).
  destruct (mraw_free_ok m3 s1 d _ Hw') as (m4 & -> & Hok4 & Eb). cbn [mbind option_bind]. eexists (Some b), m4. split; [reflexivity|]. unfold reallocated. rewrite Eb. split.
  - eapply keeps_trans; [exact Hk12|]. exact (keeps_tail _ _ _ _ Hkw).
  - exists s'. split; [done|]. split; [done|]. intros k Hin. rewrite Eb. cbn [m3 set_mr_bytes mr_bytes]. rewrite copy_inside by lia. apply Hd2. lia.
Qed.

Lemma mraw_realloc_ok m s d live n : mraw_ok m ((s, d) :: live) -> 0 < s -> 0 <= n < 2 ^ 60 ->
  lexbor_mem_align n = 0 \/ s <= lexbor_mem_align n + meta_size \/ last_block m s d ->
  exists o m', lexbor_mraw_realloc m d n = Some (o, m') /\ reallocated m s d live (lexbor_mem_align n) o m'.
Proof.
  intros Hm Hs Hn Hsafe. destruct (align_up n) as [Ha Ha8]; [lia|]. unfold lexbor_mraw_realloc. destruct (block_header _ _ _ _ Hm) as (Hh & _ & Hs8). unfold lexbor_mraw_data_size in Hh. rewrite Hh.
  set (l := lexbor_mem_align n) in *. cbn zeta.
  assert (Hsame : mraw_ok m ((s, d) :: live) /\ bytes_kept (mr_bytes m) (mr_bytes m) live) by (split; [done | by intros b k]).
  destruct ((_ >=? s) && _) eqn:Elast.
  - assert (Hlast : last_block m s d) by (apply andb_prop in Elast as [E1 E2]; split; lia).
    destruct (realloc_tail_ok m s d live l Hm Hs Hlast) as (o & m1 & -> & Hk & Ho); [lia | done|]. destruct o as [[d'|]|].
    + eexists (Some d'), m1. split; [reflexivity|]. split; [done|]. exists l. by split.
    + eexists None, m1. split; [reflexivity|]. split; [done|]. destruct Ho as [Ho|[Hl ->]]; [by left|]. right. split; [done|]. right. exists s. by split.
    + destruct Ho as (Hsl & s' & Hs' & Hok & Hmv). rewrite (proj2 (Z.ltb_ge l s)) by done. apply (realloc_copy m m1 s s'); try done. lia.
  - destruct (Z.ltb_spec l s) as [Hlt|Hge].
    2: { apply (realloc_copy m m s s); [done | done | lia | lia | done | apply Hsame | by intros k]. }
    destruct (Z.eqb_spec l 0) as [E0|E0].
    + destruct Hm as (M & HM & Hbs). rewrite <- Permutation_middle in Hbs. destruct (cache_insert_ok m M live s d _ _ HM Hbs) as (m' & -> & Em & Eb & M' & HM' & Hbs').
      cbn [mbind option_bind]. eexists None, m'. split; [reflexivity|]. unfold reallocated. rewrite Eb. split; [apply Hsame|]. left. split; [done|]. exists M'. by rewrite Em, Eb.
    + destruct Hsafe as [|[Hsafe|[Hl1 Hl2]]]; [done | | apply andb_false_iff in Elast; lia].
      destruct (sum_aligned _ _ Hs8 Ha8) as [_ Hd8]. destruct (align_same _ Hd8) as [_ ->]. destruct (_ >? meta_size) eqn:E; [lia|].
      eexists (Some d), m. split; [reflexivity|]. split; [apply Hsame|]. exists s. split; [lia|]. split; [done|]. by intros k.
Qed.

(** *** A memory from its beginning *)

Lemma mraw_init_ok pool_init n m : (forall p, pool_init 512 48 = (LXB_STATUS_OK, Some p) -> pool_holds p ∅) -> (forall st p, pool_init 512 48 = (st, Some p) -> st = LXB_STATUS_OK) ->
  0 < n < 2 ^ 61 -> lexbor_mraw_init pool_init n = (LXB_STATUS_OK, Some m) -> mraw_ok m [].
Proof.
  intros Hp Hst Hn. unfold lexbor_mraw_init. rewrite (proj2 (Z.eqb_neq n 0)) by lia. unfold size_wrap, meta_size. rewrite Z.mod_small by lia.
  pose proof (mem_init_ok (n + 8) ltac:(lia)) as Hm. destruct (lexbor_mem_init _) as [st [mem|]]; [|by intros [= -> ?]]. destruct Hm as (-> & Hm & _).
  destruct (pool_init 512 48) as [st [p|]]; [|by intros [= -> ?]]. rewrite (Hst st p eq_refl) in Hp. intros [= <-]. exists []. split; [by apply bst_init_ok, Hp|]. split; [exact Hm | constructor | constructor].
Qed.

Lemma mraw_clean_ok m live : mraw_ok m live -> mraw_ok (lexbor_mraw_clean m) [].
Proof.
  intros (M & HM & [Hm _ _]). exists []. split; [by eapply bst_clean_ok|]. split; [by apply mem_clean_ok | constructor | constructor].
Qed.

(** What a client does: it uses the answers that are not NULL, and writes to its own
    blocks.  The sizes are those of the headers. *)
Inductive mraw_step : lexbor_mraw S * list (Z * Z) -> lexbor_mraw S * list (Z * Z) -> Prop :=
| step_alloc m live n d m' : 0 <= n < 2 ^ 61 -> lexbor_mraw_alloc m n = Some (Some d, m') -> mraw_step (m, live) (m', (lexbor_mraw_data_size d m', d) :: live)
| step_free m s d live m' : lexbor_mraw_free m d = Some m' -> mraw_step (m, (s, d) :: live) (m', live)
| step_realloc m s d live n d' m' : 0 < s -> 0 <= n < 2 ^ 60 -> lexbor_mem_align n = 0 \/ s <= lexbor_mem_align n + meta_size \/ last_block m s d ->
    lexbor_mraw_realloc m d n = Some (Some d', m') -> mraw_step (m, (s, d) :: live) (m', (lexbor_mraw_data_size d' m', d') :: live)
| step_realloc_free m s d live m' : 0 < s -> lexbor_mraw_realloc m d 0 = Some (None, m') -> mraw_step (m, (s, d) :: live) (m', live)
| step_write m s d live bytes : (forall k, ~ (d <= k < d + s) -> bytes k = mr_bytes m k) -> mraw_step (m, (s, d) :: live) (set_mr_bytes bytes m, (s, d) :: live)
| step_pick m live live' : live ≡ₚ live' -> mraw_step (m, live) (m, live')
| step_clean m live : mraw_step (m, live) (lexbor_mraw_clean m, []).

Lemma mraw_step_ok x y : mraw_step x y -> mraw_ok (fst x) (snd x) -> mraw_ok (fst y) (snd y).
Proof.
  intros [m live n d m' Hn E|m s d live m' E|m s d live n d' m' Hs Hn Hsafe E|m s d live m' Hs E|m s d live bytes Hb|m live live' Hp|m live]; cbn [fst snd]; intros Hm.
  - destruct (mraw_alloc_ok m live n Hm Hn) as (o & m2 & E2 & _ & Ho). rewrite E in E2. injection E2 as <- <-. destruct Ho as (s & _ & Hok). by destruct (block_header _ _ _ _ Hok) as [-> _].
  - destruct (mraw_free_ok m s d live Hm) as (m2 & E2 & Hok & _). rewrite E in E2. by injection E2 as <-.
  - destruct (mraw_realloc_ok m s d live n Hm Hs Hn Hsafe) as (o & m2 & E2 & _ & Ho). rewrite E in E2. injection E2 as <- <-. destruct Ho as (s' & _ & Hok & _).
    by destruct (block_header _ _ _ _ Hok) as [-> _].
  - destruct (mraw_realloc_ok m s d live 0 Hm Hs ltac:(lia) ltac:(by left)) as (o & m2 & E2 & _ & Ho). rewrite E in E2. injection E2 as <- <-. by destruct Ho as [[_ Ho]|[? _]].
  - by apply write_block.
  - destruct Hm as (M & HM & Hbs). exists M. by rewrite <- Hp.
  - by eapply mraw_clean_ok.
Qed.

(** C22: the memory of [core/mraw.c] gives blocks that do not meet.  In a memory whose
    blocks, those in use and those in the cache, have no byte in common, headers
    included ([mraw_ok]), the functions follow no NULL, and keep it so.
    [lexbor_mraw_alloc], [lexbor_mraw_calloc] and [lexbor_mraw_dup] give a block of at
    least the size, aligned, or NULL, after which the memory is as good as before, unless
    its chunk was lost (see [alloc_after_null]); the bytes of the blocks in use stay; a cleared
    block is zero, a copy has the bytes of its source.  A block that is freed goes to
    the cache (or is lost if that has no memory).  [lexbor_mraw_realloc] answers a
    block that is large enough and begins with the bytes of the old one, as many as
    both have; a size of zero frees the block; NULL is answered for another size just
    if there is no memory, and the block is then as before, or longer by the rest of
    its chunk, unless the chunk was lost.  A block that is made smaller has to be the
    last one of its chunk, or become free, or lose no more than eight bytes: see
    [shrink_overlaps]. *)
Theorem mraw_blocks m live n : mraw_ok m live -> 0 <= n < 2 ^ 60 ->
  (exists o m', lexbor_mraw_alloc m n = Some (o, m') /\ allocated m live n o m') /\
  (exists o m', lexbor_mraw_calloc m n = Some (o, m') /\ allocated m live n o m' /\
     forall d k, o = Some d -> d <= k < d + n -> mr_bytes m' k = 0) /\
  (forall src, exists o m', lexbor_mraw_dup m src n = Some (o, m') /\ allocated m live n o m' /\
     forall d s b k, o = Some d -> (s, b) ∈ live -> b <= src /\ src + n <= b + s -> 0 <= k < n -> mr_bytes m' (d + k) = mr_bytes m (src + k)) /\
  (forall s d live', live ≡ₚ (s, d) :: live' ->
     (exists m', lexbor_mraw_free m d = Some m' /\ mraw_ok m' live' /\ mr_bytes m' = mr_bytes m) /\
     (0 < s -> lexbor_mem_align n = 0 \/ s <= lexbor_mem_align n + meta_size \/ last_block m s d ->
      exists o m', lexbor_mraw_realloc m d n = Some (o, m') /\ reallocated m s d live' (lexbor_mem_align n) o m')).
Proof.
  intros Hm Hn60. assert (Hn : 0 <= n < 2 ^ 61) by lia. destruct (mraw_alloc_ok m live n Hm Hn) as (o & m1 & E & Ha). pose proof Ha as [Hk Ho]. destruct (align_up n) as [Hal _]; [lia|]. split; [by exists o, m1|].
  split; [|split].
  - unfold lexbor_mraw_calloc. rewrite E. cbn [mbind option_bind]. destruct o as [d|]; [|by exists None, m1]. destruct Ho as (s & Hs & Hok). destruct (block_header _ _ _ _ Hok) as [-> _].
    destruct (write_block m1 s d live (memset d s 0 (mr_bytes m1)) Hok) as [Hw Hkw]; [intros k Hin; by apply fill_outside|]. eexists (Some d), _. split; [reflexivity|]. split.
    + split; [by eapply keeps_trans|]. by exists s.
    + intros d' k [= <-] Hin. cbn. apply fill_inside. lia.
  - intros src. unfold lexbor_mraw_dup. rewrite E. cbn [mbind option_bind]. destruct o as [d|]; [|by exists None, m1]. destruct Ho as (s & Hs & Hok).
    destruct (write_block m1 s d live (memcpy d src n (mr_bytes m1)) Hok) as [Hw Hkw]; [intros k Hin; apply copy_outside; lia|]. eexists (Some d), _. split; [reflexivity|]. split.
    + split; [by eapply keeps_trans|]. by exists s.
    + intros d' s' b k [= <-] Hb Hsrc Hin. cbn. rewrite copy_inside by done. apply (Hk _ _ Hb). unfold of_block, meta_size. cbn. lia.
  - intros s d live' Hp. assert (Hm' : mraw_ok m ((s, d) :: live')) by (destruct Hm as (M & HM & Hbs); exists M; by rewrite <- Hp).
    split; [by apply (mraw_free_ok m s d live') | intros Hs Hsafe; by apply mraw_realloc_ok].
Qed.

(** Whatever a client does with the memory since [lexbor_mraw_init], as long as the answers it
    uses are not NULL and no block in the middle of a chunk is made smaller: the
    blocks in use have no byte in common, headers included, each is in a chunk that was
    allocated, and its header has its size. *)
Theorem mraw_run_safe pool_init n m m' live : (forall p, pool_init 512 48 = (LXB_STATUS_OK, Some p) -> pool_holds p ∅) ->
  (forall st p, pool_init 512 48 = (st, Some p) -> st = LXB_STATUS_OK) -> 0 < n < 2 ^ 61 ->
  lexbor_mraw_init pool_init n = (LXB_STATUS_OK, Some m) -> rtc mraw_step (m, []) (m', live) ->
  ForallOrdPairs disjoint_blocks live /\ Forall (mraw_block_ok (mr_mem m') (mr_bytes m')) live /\ mem_ok (mr_mem m').
Proof.
  intros Hp Hst Hn Hi Hrun. pose proof (mraw_init_ok _ _ _ Hp Hst Hn Hi) as Hm. assert (Hok : mraw_ok m' live).
  { change (mraw_ok (fst (m', live)) (snd (m', live))). change (mraw_ok (fst (m, @nil (Z * Z))) (snd (m, @nil (Z * Z)))) in Hm. revert Hm.
    induction Hrun as [x|x y z Hstep _ IH]; intros Hm; [done|]. apply IH. by eapply mraw_step_ok. }
  destruct Hok as (M & _ & [K1 K2 K3]). split; [|split; [by apply Forall_app in K2 as [_ K2] | done]]. clear -K3. induction M as [|x M IH]; [done|]. inversion K3; subst. auto.
Qed.
End Spec.

(** ** Examples *)

Section Examples.
#[local] Instance example_heap : CHeap := bump_heap 4096.
#[local] Instance example_heap_laws : CHeapLaws := bump_heap_laws 4096 eq_refl.
#[local] Instance example_pool : ObjectPool lexbor_dobject := dobject_pool (fun _ => true).

Definition example_init : Z * option (lexbor_mraw lexbor_dobject) := lexbor_mraw_init (lexbor_dobject_init (fun _ => true)) 256.
Definition example_mraw : lexbor_mraw lexbor_dobject :=
  default (mk_mraw (mk_mem (mk_chunk 0 0 0) [] 0 0) (lexbor_bst_init (mk_dobject (mk_mem (mk_chunk 0 0 0) [] 0 0) (mk_array [] 0) 0 0)) (fun _ => 0)) (snd example_init).

Lemma example_init_eq : example_init = (LXB_STATUS_OK, Some example_mraw).
Proof. vm_compute. reflexivity. Qed.

Lemma example_pool_init p : lexbor_dobject_init (fun _ => true) 512 48 = (LXB_STATUS_OK, Some p) -> pool_holds p ∅.
Proof. intros E. by apply (dobject_init_ok (fun _ => true) 512 48). Qed.

Lemma example_pool_status st p : lexbor_dobject_init (fun _ => true) 512 48 = (st, Some p) -> st = LXB_STATUS_OK.
Proof. vm_compute. by intros [= <- _]. Qed.

#[local] Instance example_pool_laws : ObjectPoolLaws lexbor_dobject := dobject_pool_laws (fun _ => true).

Lemma example_ok : mraw_ok example_mraw [].
Proof. apply (mraw_init_ok (lexbor_dobject_init (fun _ => true)) 256); [exact example_pool_init | exact example_pool_status | lia | exact example_init_eq]. Qed.

(** A block of 64 bytes, and one of 8 behind it. *)
Definition one_mraw : lexbor_mraw lexbor_dobject := default example_mraw (snd <$> lexbor_mraw_alloc example_mraw 64).
Definition two_mraw : lexbor_mraw lexbor_dobject := default example_mraw (snd <$> lexbor_mraw_alloc one_mraw 8).

Lemma answered {A B} (x : option (A * B)) y o : option_map fst x = Some o -> x = Some (o, default y (snd <$> x)).
Proof. destruct x as [[o' b]|]; [|done]. by intros [= ->]. Qed.

Lemma one_eq : lexbor_mraw_alloc example_mraw 64 = Some (Some 4120, one_mraw).
Proof. apply answered. vm_compute. reflexivity. Qed.

Lemma two_eq : lexbor_mraw_alloc one_mraw 8 = Some (Some 4192, two_mraw).
Proof. apply answered. vm_compute. reflexivity. Qed.

Lemma two_ok : mraw_ok two_mraw [(8, 4192); (64, 4120)].
Proof.
  assert (H1 : mraw_ok one_mraw [(64, 4120)]) by (apply (mraw_step_ok _ _ (step_alloc example_mraw [] 64 4120 one_mraw ltac:(lia) one_eq)), example_ok).
  apply (mraw_step_ok _ _ (step_alloc one_mraw _ 8 4192 two_mraw ltac:(lia) two_eq)), H1.
Qed.

Lemma mraw_blocks_witness : last_block two_mraw 8 4192 /\
  (exists o m', lexbor_mraw_alloc two_mraw 30 = Some (o, m') /\ allocated two_mraw [(8, 4192); (64, 4120)] 30 o m') /\
  exists o m', lexbor_mraw_realloc two_mraw 4192 30 = Some (o, m') /\ reallocated two_mraw 8 4192 [(64, 4120)] (lexbor_mem_align 30) o m'.
Proof.
  assert (Hlast : last_block two_mraw 8 4192) by (vm_compute; done). assert (Hn : 0 <= 30 < 2 ^ 60) by done. assert (Hs : 0 < 8) by done.
  destruct (mraw_blocks two_mraw [(8, 4192); (64, 4120)] 30 two_ok Hn) as (Halloc & _ & _ & Hblock).
  split; [exact Hlast|]. split; [exact Halloc|]. apply (proj2 (Hblock 8 4192 [(64, 4120)] (Permutation_refl _)) Hs). right. right. exact Hlast.
Defined.

Lemma mraw_run_safe_witness : rtc mraw_step (example_mraw, []) (two_mraw, [(8, 4192); (64, 4120)]) /\ Forall (mraw_block_ok (mr_mem two_mraw) (mr_bytes two_mraw)) [(8, 4192); (64, 4120)].
Proof.
  assert (Hrun : rtc mraw_step (example_mraw, []) (two_mraw, [(8, 4192); (64, 4120)])).
  { change [(8, 4192); (64, 4120)] with [(lexbor_mraw_data_size 4192 two_mraw, 4192); (64, 4120)].
    eapply rtc_l; [apply (step_alloc example_mraw [] 64 4120 one_mraw); [lia | exact one_eq]|]. apply rtc_once. apply (step_alloc one_mraw _ 8 4192 two_mraw); [lia | exact two_eq]. }
  assert (Hn : 0 < 256 < 2 ^ 61) by done.
  exact (conj Hrun (proj1 (proj2 (mraw_run_safe (lexbor_dobject_init (fun _ => true)) 256 example_mraw two_mraw _ example_pool_init example_pool_status Hn example_init_eq Hrun)))).
Defined.

(** A block of 64 bytes is made 48 bytes long: the rest that goes to the cache begins 16 bytes
    after its address, where the code writes the header, and the next block is given in the middle of
    it. *)
Example shrink_overlaps :
  ('(o, m) ← lexbor_mraw_realloc two_mraw 4120 48; '(o', m) ← lexbor_mraw_alloc m 8;
   Some (o, lexbor_mraw_data_size 4120 m, o')) = Some (Some 4120, 48, Some 4144).
Proof. vm_compute. reflexivity. Qed.
End Examples.

(** There is no memory for a chunk of a megabyte: the one that is asked for next is not
    NULL, but at an address that no chunk has. *)
Definition small_heap : CHeap := {| malloc used n := if n <? 2 ^ 20 then @malloc (bump_heap 4096) used n else None; chunk_given _ := true |}.

Example alloc_after_null :
  ('(o, m) ← @lexbor_mraw_alloc _ small_heap (@dobject_pool small_heap (fun _ => true)) example_mraw (2 ^ 20);
   '(o', m) ← @lexbor_mraw_alloc _ small_heap (@dobject_pool small_heap (fun _ => true)) m 8;
   Some (o, o')) = Some (None, Some (2 ^ 20 + 16)).
Proof. vm_compute. reflexivity. Qed.
