(* ===== verification/TreeStack.v ===== *)
(** * The stack of open elements and the list of active formatting elements

    [html/tree/open_elements.c], [html/tree/active_formatting.c] and the scopes,
    implied end tags and the insertion mode of [html/tree.c].  The two lists are
    arrays of pointers to nodes; a marker is the address of a static object.
    Reading a node through NULL or a dangling pointer is [None]. *)
From S2P Require Import Prelude.
From S2P Require Import Tag.
From S2P Require Import TkzBase.
From S2P Require Import TokenParse.
From S2P Require Import DomNode.
From S2P Require Import DomAttr.
From S2P Require Import TagCat.
From S2P Require Import Array.

(** [tree->mode], a function of [html/tree/insertion_mode/]. *)
Inductive insertion_mode :=
  | IM_initial | IM_before_html | IM_before_head | IM_in_head | IM_in_head_noscript | IM_after_head | IM_in_body
  | IM_text | IM_in_table | IM_in_table_text | IM_in_caption | IM_in_column_group | IM_in_table_body | IM_in_row
  | IM_in_cell | IM_in_select | IM_in_select_in_table | IM_in_template | IM_after_body | IM_in_frameset
  | IM_after_frameset | IM_after_after_body | IM_after_after_frameset | IM_in_body_skip_new_line
  | IM_in_body_skip_new_line_textarea.

(** [lxb_html_tree_t], with what the tree builder keeps in the document.
    [t_content] is [content] of the template elements and [t_doctypes] the strings
    of the document types, by the address of the node; [t_document] is the document
    node, [t_element] to [t_iframe_srcdoc] and [t_complete] are fields of the
    document; [pending_text] and [pending_non_ws] are [pending_table]; [t_mode] and
    [original_mode] are NULL as [None]; [t_token] is the token in hand, which the
    modes change; [t_tkz_state] and [t_tkz_tag] are what the tokenizer is told
    during the token; [overread] is set when memory beyond an array was read. *)
Record html_tree := mk_tree {
  t_dom : dom;
  t_content : gmap positive positive;
  t_doctypes : gmap positive doctype_strs;
  t_document : positive;
  t_element : option positive;
  t_head : option positive;
  t_body : option positive;
  t_doctype : option positive;
  t_limited_quirks : bool;
  t_scripting : bool;
  t_iframe_srcdoc : bool;
  t_complete : bool;
  open_elements : lexbor_array;
  active_formatting : lexbor_array;
  template_insertion_modes : list insertion_mode;
  t_fragment : option positive;
  t_form : option positive;
  pending_text : list (list Z);
  pending_non_ws : bool;
  foster_parenting : bool;
  frameset_ok : bool;
  t_mode : option insertion_mode;
  original_mode : option insertion_mode;
  before_append_attr : option (dom_attr -> option (Z * dom_attr));
  t_status : Z;
  parse_errors : Z;
  t_token : html_token;
  t_tkz_state : option tkz_state;
  t_tkz_tag : option Z;
  overread : bool
}.

Definition set_dom v t := mk_tree v (t_content t) (t_doctypes t) (t_document t) (t_element t) (t_head t) (t_body t) (t_doctype t) (t_limited_quirks t) (t_scripting t) (t_iframe_srcdoc t) (t_complete t) (open_elements t) (active_formatting t) (template_insertion_modes t) (t_fragment t) (t_form t) (pending_text t) (pending_non_ws t) (foster_parenting t) (frameset_ok t) (t_mode t) (original_mode t) (before_append_attr t) (t_status t) (parse_errors t) (t_token t) (t_tkz_state t) (t_tkz_tag t) (overread t).
Definition set_content v t := mk_tree (t_dom t) v (t_doctypes t) (t_document t) (t_element t) (t_head t) (t_body t) (t_doctype t) (t_limited_quirks t) (t_scripting t) (t_iframe_srcdoc t) (t_complete t) (open_elements t) (active_formatting t) (template_insertion_modes t) (t_fragment t) (t_form t) (pending_text t) (pending_non_ws t) (foster_parenting t) (frameset_ok t) (t_mode t) (original_mode t) (before_append_attr t) (t_status t) (parse_errors t) (t_token t) (t_tkz_state t) (t_tkz_tag t) (overread t).
Definition set_doctypes v t := mk_tree (t_dom t) (t_content t) v (t_document t) (t_element t) (t_head t) (t_body t) (t_doctype t) (t_limited_quirks t) (t_scripting t) (t_iframe_srcdoc t) (t_complete t) (open_elements t) (active_formatting t) (template_insertion_modes t) (t_fragment t) (t_form t) (pending_text t) (pending_non_ws t) (foster_parenting t) (frameset_ok t) (t_mode t) (original_mode t) (before_append_attr t) (t_status t) (parse_errors t) (t_token t) (t_tkz_state t) (t_tkz_tag t) (overread t).
Definition set_element v t := mk_tree (t_dom t) (t_content t) (t_doctypes t) (t_document t) v (t_head t) (t_body t) (t_doctype t) (t_limited_quirks t) (t_scripting t) (t_iframe_srcdoc t) (t_complete t) (open_elements t) (active_formatting t) (template_insertion_modes t) (t_fragment t) (t_form t) (pending_text t) (pending_non_ws t) (foster_parenting t) (frameset_ok t) (t_mode t) (original_mode t) (before_append_attr t) (t_status t) (parse_errors t) (t_token t) (t_tkz_state t) (t_tkz_tag t) (overread t).
Definition set_head v t := mk_tree (t_dom t) (t_content t) (t_doctypes t) (t_document t) (t_element t) v (t_body t) (t_doctype t) (t_limited_quirks t) (t_scripting t) (t_iframe_srcdoc t) (t_complete t) (open_elements t) (active_formatting t) (template_insertion_modes t) (t_fragment t) (t_form t) (pending_text t) (pending_non_ws t) (foster_parenting t) (frameset_ok t) (t_mode t) (original_mode t) (before_append_attr t) (t_status t) (parse_errors t) (t_token t) (t_tkz_state t) (t_tkz_tag t) (overread t).
Definition set_body v t := mk_tree (t_dom t) (t_content t) (t_doctypes t) (t_document t) (t_element t) (t_head t) v (t_doctype t) (t_limited_quirks t) (t_scripting t) (t_iframe_srcdoc t) (t_complete t) (open_elements t) (active_formatting t) (template_insertion_modes t) (t_fragment t) (t_form t) (pending_text t) (pending_non_ws t) (foster_parenting t) (frameset_ok t) (t_mode t) (original_mode t) (before_append_attr t) (t_status t) (parse_errors t) (t_token t) (t_tkz_state t) (t_tkz_tag t) (overread t).
Definition set_doctype v t := mk_tree (t_dom t) (t_content t) (t_doctypes t) (t_document t) (t_element t) (t_head t) (t_body t) v (t_limited_quirks t) (t_scripting t) (t_iframe_srcdoc t) (t_complete t) (open_elements t) (active_formatting t) (template_insertion_modes t) (t_fragment t) (t_form t) (pending_text t) (pending_non_ws t) (foster_parenting t) (frameset_ok t) (t_mode t) (original_mode t) (before_append_attr t) (t_status t) (parse_errors t) (t_token t) (t_tkz_state t) (t_tkz_tag t) (overread t).
Definition set_limited_quirks v t := mk_tree (t_dom t) (t_content t) (t_doctypes t) (t_document t) (t_element t) (t_head t) (t_body t) (t_doctype t) v (t_scripting t) (t_iframe_srcdoc t) (t_complete t) (open_elements t) (active_formatting t) (template_insertion_modes t) (t_fragment t) (t_form t) (pending_text t) (pending_non_ws t) (foster_parenting t) (frameset_ok t) (t_mode t) (original_mode t) (before_append_attr t) (t_status t) (parse_errors t) (t_token t) (t_tkz_state t) (t_tkz_tag t) (overread t).
Definition set_complete v t := mk_tree (t_dom t) (t_content t) (t_doctypes t) (t_document t) (t_element t) (t_head t) (t_body t) (t_doctype t) (t_limited_quirks t) (t_scripting t) (t_iframe_srcdoc t) v (open_elements t) (active_formatting t) (template_insertion_modes t) (t_fragment t) (t_form t) (pending_text t) (pending_non_ws t) (foster_parenting t) (frameset_ok t) (t_mode t) (original_mode t) (before_append_attr t) (t_status t) (parse_errors t) (t_token t) (t_tkz_state t) (t_tkz_tag t) (overread t).
Definition set_open v t := mk_tree (t_dom t) (t_content t) (t_doctypes t) (t_document t) (t_element t) (t_head t) (t_body t) (t_doctype t) (t_limited_quirks t) (t_scripting t) (t_iframe_srcdoc t) (t_complete t) v (active_formatting t) (template_insertion_modes t) (t_fragment t) (t_form t) (pending_text t) (pending_non_ws t) (foster_parenting t) (frameset_ok t) (t_mode t) (original_mode t) (before_append_attr t) (t_status t) (parse_errors t) (t_token t) (t_tkz_state t) (t_tkz_tag t) (overread t).
Definition set_formatting v t := mk_tree (t_dom t) (t_content t) (t_doctypes t) (t_document t) (t_element t) (t_head t) (t_body t) (t_doctype t) (t_limited_quirks t) (t_scripting t) (t_iframe_srcdoc t) (t_complete t) (open_elements t) v (template_insertion_modes t) (t_fragment t) (t_form t) (pending_text t) (pending_non_ws t) (foster_parenting t) (frameset_ok t) (t_mode t) (original_mode t) (before_append_attr t) (t_status t) (parse_errors t) (t_token t) (t_tkz_state t) (t_tkz_tag t) (overread t).
Definition set_templates v t := mk_tree (t_dom t) (t_content t) (t_doctypes t) (t_document t) (t_element t) (t_head t) (t_body t) (t_doctype t) (t_limited_quirks t) (t_scripting t) (t_iframe_srcdoc t) (t_complete t) (open_elements t) (active_formatting t) v (t_fragment t) (t_form t) (pending_text t) (pending_non_ws t) (foster_parenting t) (frameset_ok t) (t_mode t) (original_mode t) (before_append_attr t) (t_status t) (parse_errors t) (t_token t) (t_tkz_state t) (t_tkz_tag t) (overread t).
Definition set_form v t := mk_tree (t_dom t) (t_content t) (t_doctypes t) (t_document t) (t_element t) (t_head t) (t_body t) (t_doctype t) (t_limited_quirks t) (t_scripting t) (t_iframe_srcdoc t) (t_complete t) (open_elements t) (active_formatting t) (template_insertion_modes t) (t_fragment t) v (pending_text t) (pending_non_ws t) (foster_parenting t) (frameset_ok t) (t_mode t) (original_mode t) (before_append_attr t) (t_status t) (parse_errors t) (t_token t) (t_tkz_state t) (t_tkz_tag t) (overread t).
Definition set_pending v t := mk_tree (t_dom t) (t_content t) (t_doctypes t) (t_document t) (t_element t) (t_head t) (t_body t) (t_doctype t) (t_limited_quirks t) (t_scripting t) (t_iframe_srcdoc t) (t_complete t) (open_elements t) (active_formatting t) (template_insertion_modes t) (t_fragment t) (t_form t) v (pending_non_ws t) (foster_parenting t) (frameset_ok t) (t_mode t) (original_mode t) (before_append_attr t) (t_status t) (parse_errors t) (t_token t) (t_tkz_state t) (t_tkz_tag t) (overread t).
Definition set_pending_non_ws v t := mk_tree (t_dom t) (t_content t) (t_doctypes t) (t_document t) (t_element t) (t_head t) (t_body t) (t_doctype t) (t_limited_quirks t) (t_scripting t) (t_iframe_srcdoc t) (t_complete t) (open_elements t) (active_formatting t) (template_insertion_modes t) (t_fragment t) (t_form t) (pending_text t) v (foster_parenting t) (frameset_ok t) (t_mode t) (original_mode t) (before_append_attr t) (t_status t) (parse_errors t) (t_token t) (t_tkz_state t) (t_tkz_tag t) (overread t).
Definition set_foster v t := mk_tree (t_dom t) (t_content t) (t_doctypes t) (t_document t) (t_element t) (t_head t) (t_body t) (t_doctype t) (t_limited_quirks t) (t_scripting t) (t_iframe_srcdoc t) (t_complete t) (open_elements t) (active_formatting t) (template_insertion_modes t) (t_fragment t) (t_form t) (pending_text t) (pending_non_ws t) v (frameset_ok t) (t_mode t) (original_mode t) (before_append_attr t) (t_status t) (parse_errors t) (t_token t) (t_tkz_state t) (t_tkz_tag t) (overread t).
Definition set_frameset_ok v t := mk_tree (t_dom t) (t_content t) (t_doctypes t) (t_document t) (t_element t) (t_head t) (t_body t) (t_doctype t) (t_limited_quirks t) (t_scripting t) (t_iframe_srcdoc t) (t_complete t) (open_elements t) (active_formatting t) (template_insertion_modes t) (t_fragment t) (t_form t) (pending_text t) (pending_non_ws t) (foster_parenting t) v (t_mode t) (original_mode t) (before_append_attr t) (t_status t) (parse_errors t) (t_token t) (t_tkz_state t) (t_tkz_tag t) (overread t).
Definition set_mode v t := mk_tree (t_dom t) (t_content t) (t_doctypes t) (t_document t) (t_element t) (t_head t) (t_body t) (t_doctype t) (t_limited_quirks t) (t_scripting t) (t_iframe_srcdoc t) (t_complete t) (open_elements t) (active_formatting t) (template_insertion_modes t) (t_fragment t) (t_form t) (pending_text t) (pending_non_ws t) (foster_parenting t) (frameset_ok t) v (original_mode t) (before_append_attr t) (t_status t) (parse_errors t) (t_token t) (t_tkz_state t) (t_tkz_tag t) (overread t).
Definition set_original_mode v t := mk_tree (t_dom t) (t_content t) (t_doctypes t) (t_document t) (t_element t) (t_head t) (t_body t) (t_doctype t) (t_limited_quirks t) (t_scripting t) (t_iframe_srcdoc t) (t_complete t) (open_elements t) (active_formatting t) (template_insertion_modes t) (t_fragment t) (t_form t) (pending_text t) (pending_non_ws t) (foster_parenting t) (frameset_ok t) (t_mode t) v (before_append_attr t) (t_status t) (parse_errors t) (t_token t) (t_tkz_state t) (t_tkz_tag t) (overread t).
Definition set_before_append v t := mk_tree (t_dom t) (t_content t) (t_doctypes t) (t_document t) (t_element t) (t_head t) (t_body t) (t_doctype t) (t_limited_quirks t) (t_scripting t) (t_iframe_srcdoc t) (t_complete t) (open_elements t) (active_formatting t) (template_insertion_modes t) (t_fragment t) (t_form t) (pending_text t) (pending_non_ws t) (foster_parenting t) (frameset_ok t) (t_mode t) (original_mode t) v (t_status t) (parse_errors t) (t_token t) (t_tkz_state t) (t_tkz_tag t) (overread t).
Definition set_t_status v t := mk_tree (t_dom t) (t_content t) (t_doctypes t) (t_document t) (t_element t) (t_head t) (t_body t) (t_doctype t) (t_limited_quirks t) (t_scripting t) (t_iframe_srcdoc t) (t_complete t) (open_elements t) (active_formatting t) (template_insertion_modes t) (t_fragment t) (t_form t) (pending_text t) (pending_non_ws t) (foster_parenting t) (frameset_ok t) (t_mode t) (original_mode t) (before_append_attr t) v (parse_errors t) (t_token t) (t_tkz_state t) (t_tkz_tag t) (overread t).
Definition set_t_token v t := mk_tree (t_dom t) (t_content t) (t_doctypes t) (t_document t) (t_element t) (t_head t) (t_body t) (t_doctype t) (t_limited_quirks t) (t_scripting t) (t_iframe_srcdoc t) (t_complete t) (open_elements t) (active_formatting t) (template_insertion_modes t) (t_fragment t) (t_form t) (pending_text t) (pending_non_ws t) (foster_parenting t) (frameset_ok t) (t_mode t) (original_mode t) (before_append_attr t) (t_status t) (parse_errors t) v (t_tkz_state t) (t_tkz_tag t) (overread t).
Definition set_tkz_state v t := mk_tree (t_dom t) (t_content t) (t_doctypes t) (t_document t) (t_element t) (t_head t) (t_body t) (t_doctype t) (t_limited_quirks t) (t_scripting t) (t_iframe_srcdoc t) (t_complete t) (open_elements t) (active_formatting t) (template_insertion_modes t) (t_fragment t) (t_form t) (pending_text t) (pending_non_ws t) (foster_parenting t) (frameset_ok t) (t_mode t) (original_mode t) (before_append_attr t) (t_status t) (parse_errors t) (t_token t) v (t_tkz_tag t) (overread t).
Definition set_tkz_tag v t := mk_tree (t_dom t) (t_content t) (t_doctypes t) (t_document t) (t_element t) (t_head t) (t_body t) (t_doctype t) (t_limited_quirks t) (t_scripting t) (t_iframe_srcdoc t) (t_complete t) (open_elements t) (active_formatting t) (template_insertion_modes t) (t_fragment t) (t_form t) (pending_text t) (pending_non_ws t) (foster_parenting t) (frameset_ok t) (t_mode t) (original_mode t) (before_append_attr t) (t_status t) (parse_errors t) (t_token t) (t_tkz_state t) v (overread t).
Definition set_overread v t := mk_tree (t_dom t) (t_content t) (t_doctypes t) (t_document t) (t_element t) (t_head t) (t_body t) (t_doctype t) (t_limited_quirks t) (t_scripting t) (t_iframe_srcdoc t) (t_complete t) (open_elements t) (active_formatting t) (template_insertion_modes t) (t_fragment t) (t_form t) (pending_text t) (pending_non_ws t) (foster_parenting t) (frameset_ok t) (t_mode t) (original_mode t) (before_append_attr t) (t_status t) (parse_errors t) (t_token t) (t_tkz_state t) (t_tkz_tag t) v.
(** [lxb_html_tree_parse_error]: the number of errors. *)
Definition lxb_html_tree_parse_error t := mk_tree (t_dom t) (t_content t) (t_doctypes t) (t_document t) (t_element t) (t_head t) (t_body t) (t_doctype t) (t_limited_quirks t) (t_scripting t) (t_iframe_srcdoc t) (t_complete t) (open_elements t) (active_formatting t) (template_insertion_modes t) (t_fragment t) (t_form t) (pending_text t) (pending_non_ws t) (foster_parenting t) (frameset_ok t) (t_mode t) (original_mode t) (before_append_attr t) (t_status t) (parse_errors t + 1) (t_token t) (t_tkz_state t) (t_tkz_tag t) (overread t).

(** [lxb_html_tree_init] for a document, with [lxb_html_tree_begin]: the arrays
    have room for 128 pointers. *)
Definition lxb_html_tree_init (d : dom) (document : positive) : html_tree :=
  mk_tree d ∅ ∅ document None None None None false false false false (mk_array [] 128) (mk_array [] 128) []
    None None [] false false true (Some IM_initial) None None LXB_STATUS_OK 0 token_zero None None false.

(** [node->..] through a pointer of an array. *)
Definition node_at (t : html_tree) (p : option positive) : option dom_node := i ← p; d_nodes (t_dom t) !! i.

Definition node_is (tag ns : Z) (n : dom_node) : bool := (nd_tag n =? tag) && (nd_ns n =? ns).
Definition lxb_html_tree_node_is (n : dom_node) (tag : Z) : bool := node_is tag LXB_NS_HTML n.

(** ** Loops over an array *)

Section Loops.
Context (test : option positive -> option bool) (l : list (option positive)).

(** [while (len != 0) { len--; if (test(list[len])) .. }]: the index found. *)
Fixpoint search_down (len : nat) : option (option nat) :=
  match len with
  | O => Some None
  | S len => p ← l !! len; found ← test p; if (found : bool) then Some (Some len) else search_down len
  end.

(** [for (i = 0; i < length; i++) if (test(list[i])) ..]; [n] indices are left. *)
Fixpoint search_up (n i : nat) : option (option nat) :=
  match n with
  | O => Some None
  | S n => p ← l !! i; found ← test p; if (found : bool) then Some (Some i) else search_up n (S i)
  end.

(** [while (length != 0) { length--; if (test(list[length])) { if (!exclude)
    length++; break; } }]: the new length. *)
Fixpoint pop_until (exclude : bool) (len : nat) : option nat :=
  match len with
  | O => Some O
  | S len' =>
      p ← l !! len'; found ← test p;
      if (found : bool) then Some (if exclude then len' else S len') else pop_until exclude len'
  end.

(** The two tests of a loop downward: [stop] is looked at when [test] fails. *)
Fixpoint scope_down (stop : option positive -> option bool) (len : nat) : option (option (option positive)) :=
  match len with
  | O => Some None
  | S len =>
      p ← l !! len; found ← test p;
      if (found : bool) then Some (Some p)
      else s ← stop p; if (s : bool) then Some None else scope_down stop len
  end.
End Loops.

Definition length_of (a : lexbor_array) : nat := length (ar_items a).
Definition truncate (n : nat) (a : lexbor_array) : lexbor_array := set_items (take n (ar_items a)) a.

Definition is_ptr (node : positive) (p : option positive) : option bool := Some (bool_decide (p = Some node)).

(** [memmove(&list[idx], &list[idx + 1], sizeof(void * ) * (length - idx))] and
    [length--]: what is behind [idx] moves down by one.  The call reads the
    [length - idx] pointers from [idx + 1] on, the last of which is beyond the items;
    [note_overread] notes when this range leaves the [size] pointers allocated. *)
Definition remove_at (idx : nat) (a : lexbor_array) : lexbor_array := set_items (delete idx (ar_items a)) a.
Definition note_overread (idx : nat) (a : lexbor_array) (t : html_tree) : html_tree :=
  let first := Z.of_nat idx + 1 in
  let count := ar_length a - Z.of_nat idx in
  set_overread (overread t || (first + count >? ar_size a)) t.

Section Tree.
Context (t : html_tree).

Definition tag_test (tag ns : Z) (p : option positive) : option bool := n ← node_at t p; Some (node_is tag ns n).
Definition tags_test (tags : list Z) (p : option positive) : option bool :=
  n ← node_at t p; Some (one_of (nd_tag n) tags && (nd_ns n =? LXB_NS_HTML)).
Definition open_list : list (option positive) := ar_items (open_elements t).
Definition open_length : nat := length_of (open_elements t).

(** ** [open_elements.c] *)

Definition lxb_html_tree_open_elements_remove_by_node (node : positive) : option html_tree :=
  idx ← search_down (is_ptr node) open_list open_length;
  match idx with
  | None => Some t
  | Some idx => Some (note_overread idx (open_elements t) (set_open (remove_at idx (open_elements t)) t))
  end.

Definition pop_open (test : option positive -> option bool) (exclude : bool) : option html_tree :=
  n ← pop_until test open_list exclude open_length; Some (set_open (truncate n (open_elements t)) t).

Definition lxb_html_tree_open_elements_pop_until_tag_id (tag ns : Z) (exclude : bool) : option html_tree :=
  pop_open (tag_test tag ns) exclude.

Definition h123456 : list Z := [LXB_TAG_H1; LXB_TAG_H2; LXB_TAG_H3; LXB_TAG_H4; LXB_TAG_H5; LXB_TAG_H6].

Definition lxb_html_tree_open_elements_pop_until_h123456 : option html_tree := pop_open (tags_test h123456) true.

Definition lxb_html_tree_open_elements_pop_until_td_th : option html_tree :=
  pop_open (tags_test [LXB_TAG_TD; LXB_TAG_TH]) true.

Definition lxb_html_tree_open_elements_pop_until_node (node : positive) (exclude : bool) : option html_tree :=
  pop_open (is_ptr node) exclude.

(** A length beyond the items would bring back what the memory held. *)
Definition lxb_html_tree_open_elements_pop_until (idx : nat) (exclude : bool) : option html_tree :=
  let n := if exclude then idx else S idx in
  if (n <=? open_length)%nat then Some (set_open (truncate n (open_elements t)) t) else None.

(** Whether the node is there, and [*return_pos]. *)
Definition found_pos (r : option (option nat)) : option (bool * nat) :=
  r ← r; Some match r with Some i => (true, i) | None => (false, O) end.

Definition lxb_html_tree_open_elements_find_by_node (node : positive) : option (bool * nat) :=
  found_pos (search_up (is_ptr node) open_list open_length 0).

Definition lxb_html_tree_open_elements_find_by_node_reverse (node : positive) : option (bool * nat) :=
  found_pos (search_down (is_ptr node) open_list open_length).

(** The node ([None] for NULL) and [*return_index]. *)
Definition found_node (r : option (option nat)) : option (option positive * nat) :=
  r ← r;
  match r with
  | Some i => p ← open_list !! i; Some (p, i)
  | None => Some (None, O)
  end.

Definition lxb_html_tree_open_elements_find (tag ns : Z) : option (option positive * nat) :=
  found_node (search_up (tag_test tag ns) open_list open_length 0).

Definition lxb_html_tree_open_elements_find_reverse (tag ns : Z) : option (option positive * nat) :=
  found_node (search_down (tag_test tag ns) open_list open_length).

Definition lxb_html_tree_open_elements_pop : html_tree := set_open (snd (lexbor_array_pop (open_elements t))) t.

Definition lxb_html_tree_open_elements_first : option positive := lexbor_array_get (open_elements t) 0.

(** ** [tree.h] *)

Definition lxb_html_tree_current_node : option positive :=
  if (open_length =? 0)%nat then None else default None (open_list !! (open_length - 1)%nat).

Definition lxb_html_tree_adjusted_current_node : option positive :=
  match t_fragment t with
  | Some f => if (open_length =? 1)%nat then Some f else lxb_html_tree_current_node
  | None => lxb_html_tree_current_node
  end.

(** ** Scopes *)

Definition category_stop (ct : Z) (p : option positive) : option bool :=
  n ← node_at t p; Some (lxb_html_tag_is_category (nd_tag n) (nd_ns n) ct).

(** The loops for headings and table parts look the category up in the HTML
    namespace whatever the node's is. *)
Definition html_category_stop (ct : Z) (p : option positive) : option bool :=
  n ← node_at t p; Some (lxb_html_tag_is_category (nd_tag n) LXB_NS_HTML ct).

Definition in_scope (test stop : option positive -> option bool) : option (option positive) :=
  r ← scope_down test open_list stop open_length; Some (default None r).

Definition lxb_html_tree_element_in_scope (tag ns ct : Z) : option (option positive) :=
  in_scope (tag_test tag ns) (category_stop ct).

Definition lxb_html_tree_element_in_scope_by_node (by_node : positive) (ct : Z) : option (option positive) :=
  in_scope (is_ptr by_node) (category_stop ct).

Definition lxb_html_tree_element_in_scope_h123456 : option (option positive) :=
  in_scope (tags_test h123456) (html_category_stop LXB_HTML_TAG_CATEGORY_SCOPE).

Definition lxb_html_tree_element_in_scope_tbody_thead_tfoot : option (option positive) :=
  in_scope (tags_test [LXB_TAG_TBODY; LXB_TAG_THEAD; LXB_TAG_TFOOT]) (html_category_stop LXB_HTML_TAG_CATEGORY_SCOPE_TABLE).

Definition lxb_html_tree_element_in_scope_td_th : option (option positive) :=
  in_scope (tags_test [LXB_TAG_TD; LXB_TAG_TH]) (html_category_stop LXB_HTML_TAG_CATEGORY_SCOPE_TABLE).

Definition implied_tags : list Z :=
  [LXB_TAG_DD; LXB_TAG_DT; LXB_TAG_LI; LXB_TAG_OPTGROUP; LXB_TAG_OPTION; LXB_TAG_P; LXB_TAG_RB; LXB_TAG_RP; LXB_TAG_RT; LXB_TAG_RTC].

Definition lxb_html_tree_check_scope_element : option bool :=
  r ← search_up (fun p => n ← node_at t p;
        Some (one_of (nd_tag n) (implied_tags ++ [LXB_TAG_TBODY; LXB_TAG_TD; LXB_TAG_TFOOT; LXB_TAG_TH; LXB_TAG_THEAD; LXB_TAG_TR; LXB_TAG_BODY; LXB_TAG_HTML])))
        open_list open_length 0;
  Some (match r with Some _ => true | None => false end).
End Tree.

(** ** Implied end tags *)

(** The loop of both functions; each turn takes an element off the stack. *)
Fixpoint implied_loop (tags : list Z) (ex_tag ex_ns : Z) (fuel : nat) (t : html_tree) : option html_tree :=
  if (open_length t =? 0)%nat then Some t
  else
    n ← node_at t (lxb_html_tree_current_node t);
    if one_of (nd_tag n) tags then
      if node_is ex_tag ex_ns n then Some t
      else match fuel with
           | O => None
           | S fuel => implied_loop tags ex_tag ex_ns fuel (lxb_html_tree_open_elements_pop t)
           end
    else Some t.

Definition lxb_html_tree_generate_implied_end_tags (t : html_tree) (ex_tag ex_ns : Z) : option html_tree :=
  implied_loop implied_tags ex_tag ex_ns (open_length t) t.

Definition thorough_tags : list Z :=
  [LXB_TAG_CAPTION; LXB_TAG_COLGROUP] ++ implied_tags ++
  [LXB_TAG_TBODY; LXB_TAG_TD; LXB_TAG_TFOOT; LXB_TAG_TH; LXB_TAG_THEAD; LXB_TAG_TR].

Definition lxb_html_tree_generate_all_implied_end_tags_thoroughly (t : html_tree) (ex_tag ex_ns : Z) : option html_tree :=
  implied_loop thorough_tags ex_tag ex_ns (open_length t) t.

Definition lxb_html_tree_close_p_element (t : html_tree) : option html_tree :=
  t ← lxb_html_tree_generate_implied_end_tags t LXB_TAG_P LXB_NS_HTML;
  n ← node_at t (lxb_html_tree_current_node t);
  let t := if negb (lxb_html_tree_node_is n LXB_TAG_P) then lxb_html_tree_parse_error t else t in
  lxb_html_tree_open_elements_pop_until_tag_id t LXB_TAG_P LXB_NS_HTML true.

(** ** [lxb_html_tree_reset_insertion_mode_appropriately] *)

(** Step 4.2 to 4.6: the loop over the ancestors of a [select]. *)
Fixpoint select_loop (t : html_tree) (ancestor : nat) : option insertion_mode :=
  match ancestor with
  | O => Some IM_in_select
  | S ancestor =>
      p ← open_list t !! ancestor; n ← node_at t p;
      if lxb_html_tree_node_is n LXB_TAG_TEMPLATE then Some IM_in_select
      else if lxb_html_tree_node_is n LXB_TAG_TABLE then Some IM_in_select_in_table
      else select_loop t ancestor
  end.

(** Step 5 to 15: what the mode is set to for an HTML element, if it decides;
    NULL ([None] inside) for a template when there is no template mode.  The
    assertion that follows there is a [lexbor_assert], which [core/base.h] defines as
    nothing. *)
Definition mode_for (t : html_tree) (tag : Z) (last_ : bool) : option (option insertion_mode) :=
  if one_of tag [LXB_TAG_TD; LXB_TAG_TH] then (if last_ then None else Some (Some IM_in_cell))
  else if tag =? LXB_TAG_TR then Some (Some IM_in_row)
  else if one_of tag [LXB_TAG_TBODY; LXB_TAG_TFOOT; LXB_TAG_THEAD] then Some (Some IM_in_table_body)
  else if tag =? LXB_TAG_CAPTION then Some (Some IM_in_caption)
  else if tag =? LXB_TAG_COLGROUP then Some (Some IM_in_column_group)
  else if tag =? LXB_TAG_TABLE then Some (Some IM_in_table)
  else if tag =? LXB_TAG_TEMPLATE then Some (last (template_insertion_modes t))
  else if tag =? LXB_TAG_HEAD then (if last_ then None else Some (Some IM_in_head))
  else if tag =? LXB_TAG_BODY then Some (Some IM_in_body)
  else if tag =? LXB_TAG_FRAMESET then Some (Some IM_in_frameset)
  else if tag =? LXB_TAG_HTML then
    Some (Some (match t_head t with None => IM_before_head | Some _ => IM_after_head end))
  else None.

(** The outer loop: what the mode is set to, if it is. *)
Fixpoint reset_loop (t : html_tree) (idx : nat) : option (option (option insertion_mode)) :=
  match idx with
  | O => Some None
  | S idx =>
      p ← open_list t !! idx;
      let last_ := (idx =? 0)%nat in
      let p := if last_ then match t_fragment t with Some f => Some f | None => p end else p in
      n ← node_at t p;
      if negb (nd_ns n =? LXB_NS_HTML) then
        if last_ then Some (Some (Some IM_in_body)) else reset_loop t idx
      else if nd_tag n =? LXB_TAG_SELECT then
        if last_ then Some (Some (Some IM_in_select)) else m ← select_loop t idx; Some (Some (Some m))
      else
        match mode_for t (nd_tag n) last_ with
        | Some m => Some (Some m)
        | None => if last_ then Some (Some (Some IM_in_body)) else reset_loop t idx
        end
  end.

Definition lxb_html_tree_reset_insertion_mode_appropriately (t : html_tree) : option html_tree :=
  m ← reset_loop t (open_length t); Some (match m with Some m => set_mode m t | None => t end).

(** ** [active_formatting.c] *)

Section Formatting.
Context (marker : positive) (given : Z -> bool).

Definition fmt_list (t : html_tree) : list (option positive) := ar_items (active_formatting t).
Definition fmt_length (t : html_tree) : nat := length_of (active_formatting t).

Definition lxb_html_tree_active_formatting_up_to_last_marker (t : html_tree) : option html_tree :=
  n ← pop_until (is_ptr marker) (fmt_list t) true (fmt_length t);
  Some (set_formatting (truncate n (active_formatting t)) t).

Definition lxb_html_tree_active_formatting_remove_by_node (t : html_tree) (node : positive) : option html_tree :=
  idx ← search_down (is_ptr node) (fmt_list t) (fmt_length t);
  match idx with
  | None => Some t
  | Some idx => Some (note_overread idx (active_formatting t) (set_formatting (remove_at idx (active_formatting t)) t))
  end.

Definition lxb_html_tree_active_formatting_find_by_node (t : html_tree) (node : positive) : option (bool * nat) :=
  found_pos (search_up (is_ptr node) (fmt_list t) (fmt_length t) 0).

Definition lxb_html_tree_active_formatting_find_by_node_reverse (t : html_tree) (node : positive) : option (bool * nat) :=
  found_pos (search_down (is_ptr node) (fmt_list t) (fmt_length t)).

(** The element of the tag after the last marker, with its index. *)
Fixpoint between_loop (t : html_tree) (tag : Z) (idx : nat) : option (option (positive * nat)) :=
  match idx with
  | O => Some None
  | S idx =>
      p ← fmt_list t !! idx;
      if bool_decide (p = Some marker) then Some None
      else
        n ← node_at t p; i ← p;
        if (nd_tag n =? tag) && (nd_ns n =? LXB_NS_HTML) then Some (Some (i, idx)) else between_loop t tag idx
  end.

Definition lxb_html_tree_active_formatting_between_last_marker (t : html_tree) (tag : Z) : option (option (positive * nat)) :=
  between_loop t tag (fmt_length t).

Definition lxb_html_tree_active_formatting_push (t : html_tree) (node : positive) : html_tree :=
  set_formatting (snd (lexbor_array_push given (active_formatting t) (Some node))) t.

Definition lxb_html_tree_active_formatting_push_marker (t : html_tree) : html_tree :=
  set_formatting (snd (lexbor_array_push given (active_formatting t) (Some marker))) t.

Definition lxb_html_tree_active_formatting_remove (t : html_tree) (idx : nat) : html_tree :=
  set_formatting (lexbor_array_delete (active_formatting t) (Z.of_nat idx) 1) t.

(** The loop over the elements after the last marker: how many equal the node, and
    the index of the earliest. *)
Fixpoint dupl_loop (t : html_tree) (node : positive) (idx : nat) (acc : nat * nat) : option (nat * nat) :=
  match idx with
  | O => Some acc
  | S idx =>
      p ← fmt_list t !! idx;
      if bool_decide (p = Some marker) then Some acc
      else
        n ← node_at t p; i ← p; m ← d_nodes (t_dom t) !! node;
        same ← (if (nd_tag n =? nd_tag m) && (nd_ns n =? nd_ns m)
                then lxb_dom_element_compare (t_dom t) i node else Some false);
        dupl_loop t node idx (if (same : bool) then (S (fst acc), idx) else acc)
  end.

Definition lxb_html_tree_active_formatting_push_with_check_dupl (t : html_tree) (node : positive) : option html_tree :=
  let idx := fmt_length t in
  let earliest_idx := (if negb (idx =? 0) then idx - 1 else 0)%nat in
  '(count, earliest_idx) ← dupl_loop t node idx (O, earliest_idx);
  let t := if (3 <=? count)%nat then lxb_html_tree_active_formatting_remove t earliest_idx else t in
  Some (lxb_html_tree_active_formatting_push t node).
End Formatting.
