(* ===== verification/TreeStackSpec.v ===== *)
(** * The stacks of the tree builder are lists

    On arrays of live nodes the loops of [TreeStack] are searches from the top of a
    list.  The scopes are those of the HTML standard, the elements closed by an end
    tag are those above the last of that tag, and a fourth equal formatting element
    drives out the first. *)
From S2P Require Import Prelude.
From S2P Require Import Tag.
From S2P Require Import TagHeap.
From S2P Require Import TkzBase.
From S2P Require Import DomNode.
From S2P Require Import DomAttr.
From S2P Require Import TagCat.
From S2P Require Import Array.
From S2P Require Import TreeStack.

#[local] Set Warnings "-clear-no-such-hyp".

(** ** Searching a list from its end *)

(** The last element that satisfies [f], with what is below and above it. *)
Fixpoint last_match (f : positive -> bool) (l : list positive) : option (list positive * positive * list positive) :=
  match l with
  | [] => None
  | x :: r =>
      match last_match f r with
      | Some (a, y, b) => Some (x :: a, y, b)
      | None => if f x then Some ([], x, r) else None
      end
  end.

Lemma last_match_snoc f l x : last_match f (l ++ [x]) =
  if f x then Some (l, x, [])
  else match last_match f l with Some (a, y, b) => Some (a, y, b ++ [x]) | None => None end.
Proof.
  induction l as [|z l IH]; [done|]. cbn [app last_match]. rewrite IH. destruct (f x); [done|].
  destruct (last_match f l) as [[[a y] b]|]; [done|]. by destruct (f z).
Qed.

Lemma last_match_some f l a x b : last_match f l = Some (a, x, b) ->
  l = a ++ x :: b /\ f x = true /\ forall y, y ∈ b -> f y = false.
Proof.
  revert a x b. induction l as [|z l IH] using rev_ind; intros a x b H; [done|]. rewrite last_match_snoc in H.
  destruct (f z) eqn:Ez; [injection H as <- <- <-; split; [done|]; split; [done|]; set_solver|].
  destruct (last_match f l) as [[[a' y] b']|]; [|done]. injection H as <- <- <-.
  destruct (IH a' y b' eq_refl) as (-> & Hy & Hb). split; [by rewrite <- app_assoc|]. split; [done|].
  intros w [Hw| ->%list_elem_of_singleton]%elem_of_app; auto.
Qed.

Lemma last_match_none f l : last_match f l = None -> forall y, y ∈ l -> f y = false.
Proof.
  induction l as [|z l IH] using rev_ind; intros H y Hy; [by apply elem_of_nil in Hy|]. rewrite last_match_snoc in H.
  destruct (f z) eqn:Ez; [done|]. destruct (last_match f l) as [[[a' x] b']|]; [done|].
  apply elem_of_app in Hy as [Hy| ->%list_elem_of_singleton]; auto.
Qed.

Section Loops.
Context (test : option positive -> option bool) (f : positive -> bool).

(** A loop looks at the items below its index only. *)
Lemma search_down_app l r n : (n <= length l)%nat -> search_down test (l ++ r) n = search_down test l n.
Proof.
  induction n as [|n IH]; intros Hn; [done|]. cbn [search_down]. rewrite lookup_app_l by lia.
  by rewrite IH by lia.
Qed.

Lemma pop_until_app l r ex n : (n <= length l)%nat -> pop_until test (l ++ r) ex n = pop_until test l ex n.
Proof.
  induction n as [|n IH]; intros Hn; [done|]. cbn [pop_until]. rewrite lookup_app_l by lia. by rewrite IH by lia.
Qed.

Context (l : list positive) (Htest : forall i, i ∈ l -> test (Some i) = Some (f i)).

Lemma map_lookup_end (x : positive) (k : list positive) : map Some (k ++ [x]) !! length k = Some (Some x).
Proof. rewrite map_app, lookup_app_r by (by rewrite length_map). by rewrite length_map, Nat.sub_diag. Qed.

Lemma search_down_spec : search_down test (map Some l) (length l) =
  Some (match last_match f l with Some (a, _, _) => Some (length a) | None => None end).
Proof.
  revert Htest. induction l as [|x k IH] using rev_ind; intros Ht; [done|]. rewrite length_app, Nat.add_1_r, last_match_snoc.
  cbn [search_down]. rewrite map_lookup_end. cbn [mbind option_bind]. rewrite Ht by set_solver. cbn [mbind option_bind].
  destruct (f x); [done|]. rewrite map_app, search_down_app by (by rewrite length_map).
  rewrite IH by (intros; apply Ht; set_solver). by destruct (last_match f k) as [[[a y] b]|].
Qed.

Lemma pop_until_spec ex : pop_until test (map Some l) ex (length l) =
  Some (match last_match f l with Some (a, _, _) => if ex then length a else S (length a) | None => O end).
Proof.
  revert Htest. induction l as [|x k IH] using rev_ind; intros Ht; [done|]. rewrite length_app, Nat.add_1_r, last_match_snoc.
  cbn [pop_until]. rewrite map_lookup_end. cbn [mbind option_bind]. rewrite Ht by set_solver. cbn [mbind option_bind].
  destruct (f x); [done|]. rewrite map_app, pop_until_app by (by rewrite length_map).
  rewrite IH by (intros; apply Ht; set_solver). by destruct (last_match f k) as [[[a y] b]|].
Qed.

Context (stop : option positive -> option bool) (g : positive -> bool) (Hstop : forall i, i ∈ l -> stop (Some i) = Some (g i)).

Lemma scope_down_app k r n : (n <= length k)%nat -> scope_down test (k ++ r) stop n = scope_down test k stop n.
Proof.
  induction n as [|n IH]; intros Hn; [done|]. cbn [scope_down]. rewrite lookup_app_l by lia. by rewrite IH by lia.
Qed.

(** "Has an element in scope": from the top, the target before any boundary. *)
Fixpoint has_in_scope (k : list positive) : option positive :=
  match k with
  | [] => None
  | x :: k => if f x then Some x else if g x then None else has_in_scope k
  end.

Lemma scope_down_spec : scope_down test (map Some l) stop (length l) =
  Some (match has_in_scope (rev l) with Some x => Some (Some x) | None => None end).
Proof.
  revert Htest Hstop. induction l as [|x k IH] using rev_ind; intros Ht Hs; [done|].
  rewrite length_app, Nat.add_1_r, rev_app_distr.
  cbn [scope_down rev app has_in_scope]. rewrite map_lookup_end. cbn [mbind option_bind].
  rewrite Ht by set_solver. cbn [mbind option_bind]. destruct (f x); [done|].
  rewrite Hs by set_solver. cbn [mbind option_bind]. destruct (g x); [done|].
  rewrite map_app, scope_down_app by (by rewrite length_map).
  apply IH; intros; [apply Ht | apply Hs]; set_solver.
Qed.
End Loops.

(** ** A stack of live elements *)

Definition live (t : html_tree) (l : list positive) : Prop := forall i, i ∈ l -> is_Some (d_nodes (t_dom t) !! i).
Definition stack_is (t : html_tree) (l : list positive) : Prop := open_list t = map Some l /\ live t l.
Definition with_stack (t : html_tree) (l : list positive) : html_tree :=
  set_open (set_items (map Some l) (open_elements t)) t.

(** What a node's tag and namespace satisfy. *)
Definition holds (t : html_tree) (f : Z -> Z -> bool) (i : positive) : bool :=
  match d_nodes (t_dom t) !! i with Some n => f (nd_tag n) (nd_ns n) | None => false end.

Definition tag_ns (tag ns : Z) (tag' ns' : Z) : bool := (tag' =? tag) && (ns' =? ns).
Definition is_html (tags : list Z) (tag ns : Z) : bool := one_of tag tags && (ns =? LXB_NS_HTML).
Definition same_ptr (node i : positive) : bool := bool_decide (i = node).

Section Stack.
Context (t : html_tree) (l : list positive) (Ht : stack_is t l).

Lemma node_at_live i : i ∈ l -> exists n, node_at t (Some i) = Some n /\ d_nodes (t_dom t) !! i = Some n.
Proof. intros Hi. destruct (proj2 Ht i Hi) as [n Hn]. by exists n. Qed.

Lemma tag_test_holds tag ns i : i ∈ l -> tag_test t tag ns (Some i) = Some (holds t (tag_ns tag ns) i).
Proof. intros Hi. destruct (node_at_live i Hi) as (n & Hn & E). unfold tag_test, holds. by rewrite Hn, E. Qed.

Lemma tags_test_holds tags i : i ∈ l -> tags_test t tags (Some i) = Some (holds t (is_html tags) i).
Proof. intros Hi. destruct (node_at_live i Hi) as (n & Hn & E). unfold tags_test, holds. by rewrite Hn, E. Qed.

Lemma is_ptr_holds node i : is_ptr node (Some i) = Some (same_ptr node i).
Proof.
  unfold is_ptr, same_ptr. f_equal. apply bool_decide_ext. split; [intros [= ->]; done | by intros ->].
Qed.

Lemma category_stop_holds ct i : i ∈ l -> category_stop t ct (Some i) = Some (holds t (fun tag ns => lxb_html_tag_is_category tag ns ct) i).
Proof. intros Hi. destruct (node_at_live i Hi) as (n & Hn & E). unfold category_stop, holds. by rewrite Hn, E. Qed.

Lemma html_category_stop_holds ct i : i ∈ l ->
  html_category_stop t ct (Some i) = Some (holds t (fun tag ns => lxb_html_tag_is_category tag LXB_NS_HTML ct) i).
Proof. intros Hi. destruct (node_at_live i Hi) as (n & Hn & E). unfold html_category_stop, holds. by rewrite Hn, E. Qed.

Lemma open_length_is : open_length t = length l.
Proof. unfold open_length, length_of. fold (open_list t). by rewrite (proj1 Ht), length_map. Qed.

Lemma in_scope_spec test stop f g : (forall i, i ∈ l -> test (Some i) = Some (f i)) -> (forall i, i ∈ l -> stop (Some i) = Some (g i)) ->
  in_scope t test stop = Some (has_in_scope f g (rev l)).
Proof.
  intros Hf Hg. unfold in_scope. rewrite (proj1 Ht), open_length_is, (scope_down_spec _ f l Hf _ g Hg).
  cbn. by destruct (has_in_scope f g (rev l)).
Qed.

Lemma truncate_below a b : l = a ++ b -> truncate (length a) (open_elements t) = set_items (map Some a) (open_elements t).
Proof.
  intros E. unfold truncate. f_equal. fold (open_list t). rewrite (proj1 Ht), E, map_app.
  by rewrite take_app_length' by (by rewrite length_map).
Qed.

(** What popping until [f] leaves. *)
Definition cut (f : positive -> bool) (exclude : bool) : list positive :=
  match last_match f l with
  | Some (a, x, _) => if exclude then a else a ++ [x]
  | None => []
  end.

Lemma pop_open_spec test f ex : (forall i, i ∈ l -> test (Some i) = Some (f i)) ->
  pop_open t test ex = Some (with_stack t (cut f ex)).
Proof.
  intros Hf. unfold pop_open. rewrite (proj1 Ht), open_length_is, (pop_until_spec _ f l Hf). cbn [mbind option_bind].
  unfold with_stack, cut. f_equal. f_equal. destruct (last_match f l) as [[[a x] b]|] eqn:E; [|by apply (truncate_below [] l)].
  apply last_match_some in E as (E & _). destruct ex; [by apply (truncate_below a (x :: b))|].
  rewrite <- (truncate_below (a ++ [x]) b), length_app, Nat.add_1_r by (by rewrite <- app_assoc). done.
Qed.

Lemma find_down_spec test f : (forall i, i ∈ l -> test (Some i) = Some (f i)) ->
  search_down test (open_list t) (open_length t) =
    Some (match last_match f l with Some (a, _, _) => Some (length a) | None => None end).
Proof. intros Hf. by rewrite (proj1 Ht), open_length_is, (search_down_spec _ f l Hf). Qed.
End Stack.

(** ** Scopes *)

Lemma holds_ext t f g i : (forall tag ns, 0 <= tag -> 0 <= ns -> f tag ns = g tag ns) ->
  (forall n, d_nodes (t_dom t) !! i = Some n -> 0 <= nd_tag n /\ 0 <= nd_ns n) -> holds t f i = holds t g i.
Proof. intros H Hn. unfold holds. destruct (_ !! i) as [n|] eqn:E; [|done]. by apply H; apply (Hn n). Qed.

(** The ids of tags and namespaces are unsigned. *)
Definition ids_ok (t : html_tree) : Prop :=
  forall i n, d_nodes (t_dom t) !! i = Some n -> 0 <= nd_tag n /\ 0 <= nd_ns n.

Definition scopes : list (Z * (Z -> Z -> bool)) :=
  [(LXB_HTML_TAG_CATEGORY_SCOPE, standard_scope); (LXB_HTML_TAG_CATEGORY_SCOPE_LIST_ITEM, standard_list_item_scope);
   (LXB_HTML_TAG_CATEGORY_SCOPE_BUTTON, standard_button_scope); (LXB_HTML_TAG_CATEGORY_SCOPE_TABLE, standard_table_scope)].

Lemma category_scopes ct std tag ns : In (ct, std) scopes -> 0 <= tag -> 0 <= ns -> lxb_html_tag_is_category tag ns ct = std tag ns.
Proof. intros [[= <- <-]|[[= <- <-]|[[= <- <-]|[[= <- <-]|[]]]]]; auto with tgnews. Qed.

Lemma category_stop_standard t l ct std i : stack_is t l -> ids_ok t -> In (ct, std) scopes -> i ∈ l ->
  category_stop t ct (Some i) = Some (holds t std i).
Proof.
  intros Ht Hids Hin Hi. rewrite (category_stop_holds t l Ht) by done. f_equal.
  apply holds_ext; [intros; by apply category_scopes | apply Hids].
Qed.

Lemma html_category_stop_standard t l ct std i : stack_is t l -> ids_ok t -> In (ct, std) scopes -> i ∈ l ->
  html_category_stop t ct (Some i) = Some (holds t (fun tag _ => std tag LXB_NS_HTML) i).
Proof.
  intros Ht Hids Hin Hi. rewrite (html_category_stop_holds t l Ht) by done. f_equal.
  apply holds_ext; [intros; by apply category_scopes | apply Hids].
Qed.

Lemma has_in_scope_ext f g g' k : (forall i, i ∈ k -> g i = g' i) -> has_in_scope f g k = has_in_scope f g' k.
Proof.
  induction k as [|x k IH]; intros H; [done|]. cbn [has_in_scope]. rewrite H by set_solver.
  by rewrite IH by (intros; apply H; set_solver).
Qed.


(** ** Taking elements off *)

Lemma delete_middle {A} (a b : list A) x : delete (length a) (a ++ x :: b) = a ++ b.
Proof. induction a as [|y a IH]; [done|]. cbn. f_equal. exact IH. Qed.

(** [remove_at] of the element found. *)
Lemma remove_found a (l : list positive) l1 x l2 : ar_items a = map Some l -> l = l1 ++ x :: l2 ->
  remove_at (length l1) a = set_items (map Some (l1 ++ l2)) a.
Proof.
  intros Ha ->. unfold remove_at. rewrite Ha, !map_app. cbn [map].
  pose proof (delete_middle (map Some l1) (map Some l2) (Some x)) as E. rewrite length_map in E. by rewrite E.
Qed.

(** C27: the stack of open elements is a list searched from its end.  Popping until
    a tag, a heading, a cell or a node cuts the list at the last element that
    matches, inclusive or not, and empties it when none does; the searches from the
    end give that element and its index. *)
Theorem open_elements_spec t l tag ns node ex : stack_is t l ->
  lxb_html_tree_open_elements_pop_until_tag_id t tag ns ex = Some (with_stack t (cut l (holds t (tag_ns tag ns)) ex)) /\
  lxb_html_tree_open_elements_pop_until_h123456 t = Some (with_stack t (cut l (holds t (is_html h123456)) true)) /\
  lxb_html_tree_open_elements_pop_until_td_th t = Some (with_stack t (cut l (holds t (is_html [LXB_TAG_TD; LXB_TAG_TH])) true)) /\
  lxb_html_tree_open_elements_pop_until_node t node ex = Some (with_stack t (cut l (same_ptr node) ex)) /\
  lxb_html_tree_open_elements_find_reverse t tag ns =
    Some (match last_match (holds t (tag_ns tag ns)) l with Some (a, x, _) => (Some x, length a) | None => (None, O) end) /\
  lxb_html_tree_open_elements_find_by_node_reverse t node =
    Some (match last_match (same_ptr node) l with Some (a, _, _) => (true, length a) | None => (false, O) end).
Proof.
  intros Ht. pose proof (tag_test_holds t l Ht tag ns) as Htag.
  pose proof (fun tags => tags_test_holds t l Ht tags) as Htags.
  assert (Hptr : forall i, i ∈ l -> is_ptr node (Some i) = Some (same_ptr node i)) by (intros; apply is_ptr_holds).
  repeat split; try (apply (pop_open_spec t l Ht); by auto).
  - unfold lxb_html_tree_open_elements_find_reverse. rewrite (find_down_spec t l Ht _ _ Htag).
    unfold found_node. cbn [mbind option_bind].
    destruct (last_match _ l) as [[[a x] b]|] eqn:E; [|done]. apply last_match_some in E as (E & _).
    rewrite (proj1 Ht), E, map_app, lookup_app_r by (by rewrite length_map). by rewrite length_map, Nat.sub_diag.
  - unfold lxb_html_tree_open_elements_find_by_node_reverse. rewrite (find_down_spec t l Ht _ _ Hptr).
    unfold found_pos. cbn [mbind option_bind]. by destruct (last_match _ l) as [[[a x] b]|].
Qed.

Definition with_formatting (t : html_tree) (l : list positive) : html_tree :=
  set_formatting (set_items (map Some l) (active_formatting t)) t.

Lemma note_overread_full idx a t : note_overread idx a t = set_overread (overread t || (ar_length a >=? ar_size a)) t.
Proof. unfold note_overread. cbv zeta. do 2 f_equal. rewrite Z.gtb_ltb, Z.geb_leb. apply eq_true_iff_eq. lia. Qed.

(** C29: removing a node from the stack of open elements or from the list of active
    formatting elements cuts out its last occurrence, and changes nothing if it is
    not there; but when the array is full the [memmove] reads the pointer beyond its
    memory. *)
Theorem remove_by_node_spec t l k node : open_list t = map Some l -> fmt_list t = map Some k ->
  lxb_html_tree_open_elements_remove_by_node t node =
    Some (match last_match (same_ptr node) l with
          | None => t
          | Some (a, _, b) =>
              set_overread (overread t || (ar_length (open_elements t) >=? ar_size (open_elements t))) (with_stack t (a ++ b))
          end) /\
  lxb_html_tree_active_formatting_remove_by_node t node =
    Some (match last_match (same_ptr node) k with
          | None => t
          | Some (a, _, b) =>
              set_overread (overread t || (ar_length (active_formatting t) >=? ar_size (active_formatting t))) (with_formatting t (a ++ b))
          end).
Proof.
  intros Hl Hk. pose proof (is_ptr_holds node) as Hp. split.
  - unfold lxb_html_tree_open_elements_remove_by_node, open_length, length_of. fold (open_list t).
    rewrite Hl, length_map, (search_down_spec _ (same_ptr node) l) by auto. cbn [mbind option_bind].
    destruct (last_match _ l) as [[[a x] b]|] eqn:E; [|done]. apply last_match_some in E as (E & _).
    by rewrite note_overread_full, (remove_found _ l a x b Hl E).
  - unfold lxb_html_tree_active_formatting_remove_by_node, fmt_length, length_of. fold (fmt_list t).
    rewrite Hk, length_map, (search_down_spec _ (same_ptr node) k) by auto. cbn [mbind option_bind].
    destruct (last_match _ k) as [[[a x] b]|] eqn:E; [|done]. apply last_match_some in E as (E & _).
    by rewrite note_overread_full, (remove_found _ k a x b Hk E).
Qed.

(** ** Implied end tags *)

(** The elements at the end that satisfy [f], taken off. *)
Definition strip (f : positive -> bool) (l : list positive) : list positive :=
  match last_match (fun i => negb (f i)) l with Some (a, x, _) => a ++ [x] | None => [] end.

Lemma strip_snoc f l x : strip f (l ++ [x]) = if f x then strip f l else l ++ [x].
Proof.
  unfold strip. rewrite last_match_snoc. destruct (f x); cbn [negb]; [|done].
  by destruct (last_match _ l) as [[[a y] b]|].
Qed.

(** The parts: all that is taken off satisfies [f], what is left does not end so. *)
Lemma strip_parts f l : exists off, l = strip f l ++ off /\ (forall i, i ∈ off -> f i = true) /\
  forall i, last (strip f l) = Some i -> f i = false.
Proof.
  unfold strip. destruct (last_match _ l) as [[[a x] b]|] eqn:E.
  - apply last_match_some in E as (-> & Hx & Hb). exists b. split; [by rewrite <- app_assoc|]. split.
    + intros i Hi. by apply negb_false_iff, Hb.
    + intros i. rewrite last_snoc. intros [= <-]. by apply negb_true_iff.
  - exists l. split; [done|]. split; [|done]. intros i Hi. by apply negb_false_iff, (last_match_none _ _ E).
Qed.

Lemma set_open_stack t l a : set_open a (with_stack t l) = set_open a t.
Proof. done. Qed.

Lemma with_stack_is t l l' : stack_is t l -> (forall i, i ∈ l' -> i ∈ l) -> stack_is (with_stack t l') l'.
Proof. intros [_ Hl] Hin. split; [done|]. intros i Hi. apply Hl, Hin, Hi. Qed.

Lemma with_stack_same t l : stack_is t l -> with_stack t l = t.
Proof.
  intros [Hl _]. unfold with_stack, set_items. rewrite <- Hl. unfold open_list. by destruct t as [? ? ? ? ? ? ? ? ? ? ? ? [? ?]].
Qed.

Lemma pop_with_stack t l x : stack_is t (l ++ [x]) -> lxb_html_tree_open_elements_pop t = with_stack t l.
Proof.
  intros [Hl _]. unfold lxb_html_tree_open_elements_pop, lexbor_array_pop, ar_length, with_stack. fold (open_list t).
  rewrite Hl, map_app, length_app. cbn [map length]. rewrite (proj2 (Z.eqb_neq _ _)) by lia. cbn [snd].
  by rewrite Nat.add_sub, take_app_length.
Qed.

Lemma current_node_last t l : open_list t = map Some l -> lxb_html_tree_current_node t = last l.
Proof.
  intros Hl. unfold lxb_html_tree_current_node, open_length, length_of. fold (open_list t). rewrite Hl, length_map.
  destruct l as [|x l _] using rev_ind; [done|]. rewrite length_app, last_snoc. cbn [length].
  rewrite (proj2 (Nat.eqb_neq _ _)) by lia. by rewrite Nat.add_sub, map_lookup_end.
Qed.

(** What the loop takes off. *)
Definition implied (tags : list Z) (ex_tag ex_ns : Z) (tag ns : Z) : bool := one_of tag tags && negb (tag_ns ex_tag ex_ns tag ns).

Lemma implied_loop_spec tags ex_tag ex_ns l : forall t fuel, stack_is t l -> (length l <= fuel)%nat ->
  implied_loop tags ex_tag ex_ns fuel t = Some (with_stack t (strip (holds t (implied tags ex_tag ex_ns)) l)).
Proof.
  induction l as [|x l IH] using rev_ind; intros t fuel Ht Hf.
  { change (strip _ []) with (@nil positive). rewrite (with_stack_same t []) by done. destruct fuel; cbn [implied_loop]; by rewrite (open_length_is t [] Ht). }
  rewrite length_app in Hf. cbn in Hf. destruct fuel as [|fuel]; [lia|].
  destruct (node_at_live t _ Ht x ltac:(set_solver)) as (n & Hn & En).
  cbn [implied_loop]. rewrite (open_length_is t _ Ht), length_app. cbn [length]. rewrite (proj2 (Nat.eqb_neq _ _)) by lia.
  rewrite (current_node_last t _ (proj1 Ht)), last_snoc, Hn. cbn [mbind option_bind].
  rewrite strip_snoc. unfold holds at 1. rewrite En. unfold implied at 1, node_is. change ((nd_tag n =? ex_tag) && (nd_ns n =? ex_ns)) with (tag_ns ex_tag ex_ns (nd_tag n) (nd_ns n)).
  destruct (one_of (nd_tag n) tags); cbn [andb]; [|by rewrite (with_stack_same t _ Ht)].
  destruct (tag_ns _ _ _ _); cbn [negb]; [by rewrite (with_stack_same t _ Ht)|].
  rewrite (pop_with_stack t l x Ht). rewrite IH; [done | apply (with_stack_is t _ _ Ht); set_solver | lia].
Qed.

(** C26: generating implied end tags, thoroughly or not, terminates within as many
    turns as there are open elements, and takes off exactly the longest run of
    elements at the top whose tags have implied end tags and are not the excepted
    one. *)
Theorem implied_end_tags_spec t l ex_tag ex_ns : stack_is t l ->
  lxb_html_tree_generate_implied_end_tags t ex_tag ex_ns =
    Some (with_stack t (strip (holds t (implied implied_tags ex_tag ex_ns)) l)) /\
  lxb_html_tree_generate_all_implied_end_tags_thoroughly t ex_tag ex_ns =
    Some (with_stack t (strip (holds t (implied thorough_tags ex_tag ex_ns)) l)).
Proof.
  intros Ht. split; apply implied_loop_spec; rewrite ?(open_length_is t l Ht); done.
Qed.

Lemma last_match_intro f a x b : f x = true -> (forall i, i ∈ b -> f i = false) -> last_match f (a ++ x :: b) = Some (a, x, b).
Proof.
  intros Hx. induction b as [|y b IH] using rev_ind; intros Hb; [by rewrite last_match_snoc, Hx|].
  change (x :: b ++ [y]) with ((x :: b) ++ [y]). rewrite app_assoc, last_match_snoc, Hb by set_solver.
  by rewrite IH by set_solver.
Qed.

Lemma strip_stop f a x b : f x = false -> strip f (a ++ x :: b) = a ++ x :: strip f b.
Proof.
  intros Hx. induction b as [|y b IH] using rev_ind; [by rewrite strip_snoc, Hx|].
  change (x :: b ++ [y]) with ((x :: b) ++ [y]). rewrite app_assoc, !strip_snoc, IH. destruct (f y); [done|]. by rewrite <- app_assoc.
Qed.

Lemma strip_all f l : strip f l = [] <-> forallb f l = true.
Proof.
  induction l as [|x l IH] using rev_ind; [done|]. rewrite strip_snoc, forallb_app. cbn. destruct (f x); cbn.
  - by rewrite IH, andb_true_r.
  - rewrite andb_false_r. split; [by destruct l | done].
Qed.

Lemma strip_in f l i : i ∈ strip f l -> i ∈ l.
Proof. destruct (strip_parts f l) as (off & E & _). rewrite E at 2. set_solver. Qed.

Lemma forallb_ext_in' {A} (f g : A -> bool) l : (forall i, i ∈ l -> f i = g i) -> forallb f l = forallb g l.
Proof. induction l as [|x l IH]; intros H; [done|]. cbn. rewrite H, IH by set_solver. done. Qed.

(** Closing a p element, when one is open: every element above the topmost p
    and the p itself leave the stack, and there is one parse error exactly if one of
    those above has no implied end tag. *)
Theorem close_p_spec t a x b : let l := a ++ x :: b in stack_is t l ->
  let p := holds t (tag_ns LXB_TAG_P LXB_NS_HTML) in p x = true -> (forall i, i ∈ b -> p i = false) ->
  exists t', lxb_html_tree_close_p_element t = Some t' /\ open_elements t' = set_items (map Some a) (open_elements t) /\
    t_dom t' = t_dom t /\ active_formatting t' = active_formatting t /\ t_mode t' = t_mode t /\
    parse_errors t' = parse_errors t + (if forallb (holds t (fun tag _ => one_of tag implied_tags)) b then 0 else 1).
Proof.
  intros l Ht p Hx Hb. set (f := holds t (implied implied_tags LXB_TAG_P LXB_NS_HTML)).
  assert (Hp : forall i, i ∈ l -> holds t (fun tag _ => one_of tag implied_tags) i && negb (p i) = f i).
  { intros i Hi. destruct (node_at_live t l Ht i Hi) as (n & _ & En). unfold f, p, holds. by rewrite En. }
  assert (Es : strip f l = a ++ x :: strip f b) by (apply strip_stop; rewrite <- Hp, Hx by set_solver; apply andb_false_r).
  assert (Hin : forall i, i ∈ a ++ x :: strip f b -> i ∈ l).
  { intros i Hi. apply elem_of_app in Hi as [Hi|[->|Hi%strip_in]%elem_of_cons]; set_solver. }
  pose proof (with_stack_is t l _ Ht Hin) as Ht1. set (t1 := with_stack t (a ++ x :: strip f b)) in *.
  assert (Hcut : cut (a ++ x :: strip f b) p true = a).
  { unfold cut. rewrite last_match_intro; [done | done |]. intros i Hi%strip_in. by apply Hb. }
  unfold lxb_html_tree_close_p_element, lxb_html_tree_generate_implied_end_tags.
  rewrite (implied_loop_spec _ _ _ l t _ Ht) by (by rewrite (open_length_is t l Ht)).
  fold f. rewrite Es. cbn [mbind option_bind]. fold t1. rewrite (current_node_last t1 _ (proj1 Ht1)).
  destruct (last (a ++ x :: strip f b)) as [y|] eqn:Ey; [|apply last_None in Ey; by destruct a].
  assert (Hy : y ∈ a ++ x :: strip f b) by (by apply last_Some_elem_of).
  destruct (node_at_live t1 _ Ht1 y Hy) as (n & -> & En). change (d_nodes (t_dom t) !! y = Some n) in En. cbn [mbind option_bind].
  assert (Hn : lxb_html_tree_node_is n LXB_TAG_P = forallb (holds t (fun tag _ => one_of tag implied_tags)) b).
  { transitivity (p y); [unfold p, holds; by rewrite En|].
    rewrite (forallb_ext_in' _ f) by (intros i Hi; rewrite <- Hp, Hb, andb_true_r by set_solver; done).
    destruct (forallb f b) eqn:Eb.
    - apply strip_all in Eb. rewrite Eb, last_snoc in Ey. by injection Ey as <-.
    - apply Hb, (strip_in f). destruct (strip f b) as [|z r _] eqn:Er using rev_ind; [apply strip_all in Er; congruence|].
      rewrite app_comm_cons, app_assoc, last_snoc in Ey. injection Ey as <-. set_solver. }
  rewrite Hn. destruct (forallb _ b); cbn [negb]; (eexists; split;
    [apply (pop_open_spec _ (a ++ x :: strip f b)); [exact Ht1 | intros; by apply (tag_test_holds _ _ Ht1)]|]);
    change (cut _ _ true) with (cut (a ++ x :: strip f b) p true); rewrite Hcut; cbn; auto with lia.
Qed.

(** ** The insertion mode *)

Section Mode.
Context (t : html_tree) (l : list positive) (Ht : stack_is t l)
  (Hfragment : forall f, t_fragment t = Some f -> is_Some (d_nodes (t_dom t) !! f)).

Lemma stack_lookup idx : (idx < length l)%nat -> exists i n, open_list t !! idx = Some (Some i) /\ node_at t (Some i) = Some n.
Proof.
  intros Hi. destruct (lookup_lt_is_Some_2 l idx Hi) as [i Ei].
  destruct (node_at_live t l Ht i (list_elem_of_lookup_2 _ _ _ Ei)) as (n & Hn & _).
  exists i, n. split; [|done]. by rewrite (proj1 Ht), list_lookup_fmap, Ei.
Qed.

(** Only a select on the stack gives these modes, and the loop does decide. *)
Lemma select_loop_total idx : (idx <= length l)%nat ->
  select_loop t idx = Some IM_in_select \/ select_loop t idx = Some IM_in_select_in_table.
Proof.
  induction idx as [|idx IH]; intros Hi; [by left|]. destruct (stack_lookup idx ltac:(lia)) as (i & n & E & Hn).
  cbn [select_loop]. rewrite E. cbn [mbind option_bind]. rewrite Hn. cbn [mbind option_bind].
  destruct (lxb_html_tree_node_is n LXB_TAG_TEMPLATE); [by left|].
  destruct (lxb_html_tree_node_is n LXB_TAG_TABLE); [by right|]. apply IH. lia.
Qed.

Definition mode_ok (m : option insertion_mode) : Prop :=
  m = None -> template_insertion_modes t = [] /\
    exists i n, (i ∈ l \/ t_fragment t = Some i) /\ d_nodes (t_dom t) !! i = Some n /\ lxb_html_tree_node_is n LXB_TAG_TEMPLATE = true.

Lemma mode_for_null tag last_ m : mode_for t tag last_ = Some m -> m = None -> tag = LXB_TAG_TEMPLATE /\ template_insertion_modes t = [].
Proof.
  unfold mode_for. intros H ->.
  repeat match type of H with (if ?c then _ else _) = _ => destruct c eqn:?; try done end.
  injection H as Hl. apply last_None in Hl. split; [lia | done].
Qed.

Lemma reset_loop_total idx : (idx <= length l)%nat ->
  exists r, reset_loop t idx = Some r /\ ((0 < idx)%nat -> exists m, r = Some m /\ mode_ok m).
Proof.
  induction idx as [|idx IH]; intros Hi; [exists None; split; [done | lia]|].
  destruct (stack_lookup idx ltac:(lia)) as (i & n & E & Hn). cbn [reset_loop]. rewrite E. cbn [mbind option_bind].
  set (p := if (idx =? 0)%nat then match t_fragment t with Some f => Some f | None => Some i end else Some i).
  assert (exists j m, p = Some j /\ d_nodes (t_dom t) !! j = Some m /\ (j ∈ l \/ t_fragment t = Some j)) as (j & m & -> & Hm & Hj).
  { assert (Hil : i ∈ l).
    { rewrite (proj1 Ht) in E. apply list_lookup_fmap_Some in E as (k & [= <-] & Hk). by apply list_elem_of_lookup_2 in Hk. }
    unfold p. destruct (idx =? 0)%nat; [|by exists i, n; auto]. destruct (t_fragment t) as [f|] eqn:Ef; [|by exists i, n; auto].
    destruct (Hfragment f eq_refl) as [m Hm]. exists f, m. auto. }
  cbn [node_at mbind option_bind]. rewrite Hm. cbn [mbind option_bind].
  assert (Hbody : mode_ok (Some IM_in_body)) by done.
  assert (Hnext : exists r, (if (idx =? 0)%nat then Some (Some (Some IM_in_body)) else reset_loop t idx) = Some r /\
    ((0 < S idx)%nat -> exists m, r = Some m /\ mode_ok m)).
  { destruct (idx =? 0)%nat eqn:E0; [by eexists; split; [|eauto]|]. destruct (IH ltac:(lia)) as (r & Hr & Hm'). exists r. split; [done|].
    intros _. apply Hm'. apply Nat.eqb_neq in E0. lia. }
  destruct (negb (nd_ns m =? LXB_NS_HTML)) eqn:Ens; [exact Hnext|].
  destruct (nd_tag m =? LXB_TAG_SELECT).
  { destruct (idx =? 0)%nat; [by eexists; split; [|intros _; eexists]|].
    destruct (select_loop_total idx ltac:(lia)) as [-> | ->]; (by eexists; split; [|intros _; eexists]). }
  destruct (mode_for t (nd_tag m) (idx =? 0)%nat) as [v|] eqn:Ev; [|exact Hnext].
  exists (Some v). split; [done|]. intros _. exists v. split; [done|]. intros Hv.
  destruct (mode_for_null _ _ _ Ev Hv) as [Etag Hmodes]. split; [done|]. exists j, m.
  split; [done|]. split; [done|]. unfold lxb_html_tree_node_is, node_is. rewrite Etag. by apply negb_false_iff in Ens; rewrite Ens.
Qed.
End Mode.

(** What the code relies on, and asserts of the result ([tree.c], line 1064, where
    [lexbor_assert] expands to nothing): a template that is open, or is the context
    element, has a template insertion mode. *)
Definition templates_have_mode (t : html_tree) (l : list positive) : Prop :=
  forall i n, i ∈ l \/ t_fragment t = Some i -> d_nodes (t_dom t) !! i = Some n -> lxb_html_tree_node_is n LXB_TAG_TEMPLATE = true ->
    template_insertion_modes t <> [].

(** C28: resetting the insertion mode always decides it: on a stack of live elements
    that is not empty (and a live context element, if any) the loop over the stack
    ends, nothing else of the builder changes, and the mode is set to one that is not
    NULL, as the code asserts, provided that open templates have their mode.
    Without that the mode is NULL only if there is no template mode at all, while a
    template is open or the context element. *)
Theorem reset_mode_spec t l : stack_is t l -> l <> [] ->
  (forall f, t_fragment t = Some f -> is_Some (d_nodes (t_dom t) !! f)) ->
  exists m, lxb_html_tree_reset_insertion_mode_appropriately t = Some (set_mode m t) /\
    (templates_have_mode t l -> is_Some m) /\ mode_ok t l m.
Proof.
  intros Ht Hl Hf. unfold lxb_html_tree_reset_insertion_mode_appropriately. rewrite (open_length_is t l Ht).
  destruct (reset_loop_total t l Ht Hf (length l) ltac:(lia)) as (r & -> & Hr).
  destruct Hr as (m & -> & Hm); [by destruct l; [|cbn; lia]|]. exists m. split; [done|]. split; [|exact Hm].
  intros Hmodes. destruct m as [m|]; [by exists m|]. exfalso. destruct (Hm eq_refl) as (Hnone & i & n & Hi & Hn & Hp). by eapply Hmodes.
Qed.

(** ** A stack: html, body, an SVG title, p, li *)

Definition example_node (tag ns : Z) : dom_node :=
  mk_node None None None None None ns tag LXB_DOM_NODE_TYPE_ELEMENT [] None None None None None.

Definition example_nodes : gmap positive dom_node :=
  list_to_map [(1%positive, example_node LXB_TAG_HTML LXB_NS_HTML); (2%positive, example_node LXB_TAG_BODY LXB_NS_HTML);
    (3%positive, example_node LXB_TAG_TITLE LXB_NS_SVG); (4%positive, example_node LXB_TAG_P LXB_NS_HTML);
    (5%positive, example_node LXB_TAG_LI LXB_NS_HTML); (6%positive, example_node LXB_TAG_A LXB_NS_HTML);
    (7%positive, example_node LXB_TAG_A LXB_NS_HTML); (8%positive, example_node LXB_TAG_A LXB_NS_HTML);
    (9%positive, example_node LXB_TAG_A LXB_NS_HTML)].

Definition example_tree (size : Z) (l k : list positive) : html_tree :=
  set_open (mk_array (map Some l) size) (set_formatting (mk_array (map Some k) size)
    (lxb_html_tree_init (mk_dom example_nodes ∅ (mk_owner true false (mk_tag_heap [] (lexbor_shbst_init 1)))) 1)).

Lemma example_stack size l k : bool_decide (Forall (fun i => is_Some (example_nodes !! i)) l) = true -> stack_is (example_tree size l k) l.
Proof. intros H%bool_decide_eq_true. split; [done|]. intros i Hi. rewrite Forall_forall in H. exact (H i Hi). Qed.

Lemma example_ids size l k : ids_ok (example_tree size l k).
Proof.
  change (map_Forall (fun _ n => 0 <= nd_tag n /\ 0 <= nd_ns n) example_nodes). apply (bool_decide_unpack _). vm_compute. exact I.
Qed.


Lemma open_elements_spec_witness : let t := example_tree 8 [1; 2; 4; 5]%positive [] in
  lxb_html_tree_open_elements_pop_until_tag_id t LXB_TAG_P LXB_NS_HTML true = Some (with_stack t [1; 2]%positive).
Proof.
  intros t. assert (Ht : stack_is t [1; 2; 4; 5]%positive) by (apply example_stack; reflexivity).
  rewrite (proj1 (open_elements_spec t _ LXB_TAG_P LXB_NS_HTML 4 true Ht)). reflexivity.
Defined.

(** A full array of two elements. *)
Lemma remove_by_node_spec_witness :
  lxb_html_tree_open_elements_remove_by_node (example_tree 2 [1; 2]%positive []) 1 =
    Some (set_overread true (example_tree 2 [2]%positive [])) /\
  lxb_html_tree_open_elements_remove_by_node (example_tree 3 [1; 2]%positive []) 1 = Some (example_tree 3 [2]%positive []).
Proof.
  split.
  - rewrite (proj1 (remove_by_node_spec (example_tree 2 [1; 2]%positive []) [1; 2]%positive [] 1 eq_refl eq_refl)). reflexivity.
  - rewrite (proj1 (remove_by_node_spec (example_tree 3 [1; 2]%positive []) [1; 2]%positive [] 1 eq_refl eq_refl)). reflexivity.
Defined.

Lemma implied_end_tags_spec_witness : let t := example_tree 8 [1; 2; 4; 5]%positive [] in
  lxb_html_tree_generate_implied_end_tags t LXB_TAG_P LXB_NS_HTML = Some (with_stack t [1; 2; 4]%positive).
Proof.
  intros t. assert (Ht : stack_is t [1; 2; 4; 5]%positive) by (apply example_stack; reflexivity).
  rewrite (proj1 (implied_end_tags_spec t _ LXB_TAG_P LXB_NS_HTML Ht)). reflexivity.
Defined.

Lemma close_p_spec_witness : exists t', lxb_html_tree_close_p_element (example_tree 8 [1; 2; 4; 6; 5]%positive []) = Some t' /\
  open_list t' = [Some 1; Some 2]%positive /\ parse_errors t' = 1.
Proof.
  assert (Ht : stack_is (example_tree 8 [1; 2; 4; 6; 5]%positive []) [1; 2; 4; 6; 5]%positive) by (apply example_stack; reflexivity).
  destruct (close_p_spec _ [1; 2]%positive 4%positive [6; 5]%positive Ht) as (t' & E & Ho & _ & _ & _ & Hp).
  { reflexivity. }
  { intros i [->|[->|Hi%elem_of_nil]%elem_of_cons]%elem_of_cons; [reflexivity | reflexivity | done]. }
  exists t'. split; [exact E|]. split; [unfold open_list; by rewrite Ho | by rewrite Hp].
Defined.

Lemma reset_mode_spec_witness : exists m,
  lxb_html_tree_reset_insertion_mode_appropriately (example_tree 8 [1; 2]%positive []) = Some (set_mode (Some m) (example_tree 8 [1; 2]%positive [])) /\
  m = IM_in_body.
Proof.
  assert (Ht : stack_is (example_tree 8 [1; 2]%positive []) [1; 2]%positive) by (apply example_stack; reflexivity).
  destruct (reset_mode_spec _ [1; 2]%positive Ht ltac:(done) ltac:(done)) as (m & E & Hsome & _).
  destruct Hsome as [m' ->].
  { intros i n [Hi|[=]] Hn. assert (i = 1%positive \/ i = 2%positive) as [-> | ->] by set_solver; vm_compute in Hn; injection Hn as <-; discriminate. }
  exists m'. split; [exact E|].
  assert (E' : lxb_html_tree_reset_insertion_mode_appropriately (example_tree 8 [1; 2]%positive []) =
    Some (set_mode (Some IM_in_body) (example_tree 8 [1; 2]%positive []))) by (vm_compute; reflexivity).
  rewrite E in E'. by injection E' as ->.
Defined.

(** With a template open and no template mode the mode is NULL, against the assertion. *)
Example reset_mode_null : let t := lxb_html_tree_init (mk_dom {[1%positive := example_node LXB_TAG_TEMPLATE LXB_NS_HTML]} ∅ (mk_owner true false (mk_tag_heap [] (lexbor_shbst_init 1)))) 1 in
  option_map t_mode (lxb_html_tree_reset_insertion_mode_appropriately (set_open (mk_array [Some 1%positive] 8) t)) = Some None.
Proof. vm_compute. reflexivity. Qed.
