(* ===== verification/TreeFormatSpec.v ===== *)
(** * The list of active formatting elements

    Markers delimit the list; a push that would leave a fourth equal element after
    the last marker drops the earliest; clearing up to the last marker undoes what
    was pushed since. *)
From S2P Require Import Prelude.
From S2P Require Import Str.
From S2P Require Import Tag.
From S2P Require Import TagHeap.
From S2P Require Import TkzBase.
From S2P Require Import DomNode.
From S2P Require Import DomAttr.
From S2P Require Import DomAttrSpec.
From S2P Require Import TagCat.
From S2P Require Import Array.
From S2P Require Import TreeStack.
From S2P Require Import TreeStackSpec.

#[local] Set Warnings "-clear-no-such-hyp".

(** ** Comparing elements *)

Lemma count_loop_total m l : forall k p q fuel, aseg m p l None -> aseg m q k None -> (length l <= fuel)%nat ->
  count_loop fuel m (first_at l None) (first_at k None) = Some (length l =? length k)%nat.
Proof.
  induction l as [|x l IH]; intros k p q fuel Hl Hk Hf; [by destruct k, fuel|].
  destruct k as [|y k]; [by destruct fuel|]. destruct fuel as [|fuel]; [cbn in Hf; lia|].
  destruct Hl as [(a & Ha & _ & _ & Hna) Hl], Hk as [(b & Hb & _ & _ & Hnb) Hk]. cbn [first_at count_loop].
  rewrite Ha. cbn [mbind option_bind]. rewrite Hb. cbn [mbind option_bind length]. rewrite Hna, Hnb.
  apply (IH k _ _ fuel Hl Hk). cbn in Hf. lia.
Qed.

Lemma compare_loop_total d second k : attributes d second k ->
  forall l p fuel, aseg (d_attrs d) p l None -> (length l <= fuel)%nat -> is_Some (compare_loop fuel d (first_at l None) second).
Proof.
  intros Hk. induction l as [|x l IH]; intros p fuel Hl Hf; [by destruct fuel; eexists|]. destruct fuel as [|fuel]; [cbn in Hf; lia|].
  destruct Hl as [(a & Ha & Hx & _ & Hn) Hl]. cbn [first_at compare_loop]. rewrite Ha. cbn [mbind option_bind].
  rewrite (is_exist_spec d second k _ Hk). cbn [mbind option_bind].
  destruct (lookup_name _ k) as [y|] eqn:Ey; [|by eexists]. cbn [fmap option_fmap option_map].
  apply find_some in Ey as [Hy _]. destruct Hk as (_ & Hseg & _).
  destruct (aseg_alive _ _ _ _ Hseg (e_at y)) as [b Hb]; [by apply list_elem_of_In, in_map|]. rewrite Hb. cbn [mbind option_bind].
  destruct (lxb_dom_attr_compare a b); [|by eexists]. rewrite Hn. apply (IH _ fuel Hl). cbn in Hf. lia.
Qed.

Lemma compare_total d i j l k : attributes d i l -> attributes d j k -> is_Some (lxb_dom_element_compare d i j).
Proof.
  intros Hl Hk. pose proof (attributes_size d i l Hl) as Hs. unfold lxb_dom_element_compare.
  destruct Hl as ((el & Hel & Hok) & Hseg & _). pose proof Hk as ((ek & Hek & Hok') & Hseg' & _).
  rewrite Hel. cbn [mbind option_bind]. rewrite Hek. cbn [mbind option_bind]. rewrite (eo_first _ _ Hok), (eo_first _ _ Hok').
  rewrite (count_loop_total _ l k _ _ _ Hseg Hseg' Hs). cbn [mbind option_bind].
  destruct (length l =? length k)%nat; [|by eexists]. by apply (compare_loop_total d j k Hk l None).
Qed.

Lemma eq_nocase_refl a : eq_nocase a a = true.
Proof. unfold eq_nocase. by rewrite bool_decide_true. Qed.

Lemma attr_compare_refl a : lxb_dom_attr_compare a a = true.
Proof.
  unfold lxb_dom_attr_compare. rewrite Nat.eqb_refl, Z.eqb_refl, eq_nocase_refl. cbn [andb].
  destruct (at_value a); [|done]. by rewrite Nat.eqb_refl, eq_nocase_refl.
Qed.

(** The entry of a name is the only one. *)
Lemma lookup_self l x : NoDup (lower_names l) -> x ∈ l ->
  lookup_name (fun n => eq_nocase n (e_name x)) l = Some x.
Proof.
  unfold lookup_name. induction l as [|y l IH]; intros Hnd Hx; [by apply elem_of_nil in Hx|]. cbn [find lower_names map] in *.
  apply NoDup_cons in Hnd as [Hy Hnd]. apply elem_of_cons in Hx as [->|Hx]; [by rewrite eq_nocase_refl|].
  unfold eq_nocase at 1. rewrite bool_decide_false; [by apply IH|]. intros E. apply Hy. rewrite E.
  apply list_elem_of_In, (in_map (fun x => map lower (e_name x))). by apply list_elem_of_In.
Qed.

Lemma compare_loop_self d i l : attributes d i l -> forall k p fuel, (forall x, x ∈ k -> x ∈ l) -> aseg (d_attrs d) p k None ->
  (length k <= fuel)%nat -> compare_loop fuel d (first_at k None) i = Some true.
Proof.
  intros Hl k. pose proof Hl as (_ & _ & _ & Hnd). induction k as [|x k IH]; intros p fuel Hin Hseg Hf; [by destruct fuel|].
  destruct fuel as [|fuel]; [cbn in Hf; lia|].
  destruct Hseg as [(a & Ha & Hx & _ & Hn) Hseg]. cbn [first_at compare_loop]. rewrite Ha. cbn [mbind option_bind].
  unfold name_of. rewrite (proj1 Hx). change (default [] (Some (e_name x))) with (e_name x). rewrite (is_exist_spec d i l _ Hl), (lookup_self l x Hnd (Hin x (list_elem_of_here _ _))).
  cbn [mbind option_bind fmap option_fmap option_map]. rewrite Ha. cbn [mbind option_bind]. rewrite attr_compare_refl, Hn.
  apply (IH (Some (e_at x)) fuel); [intros y Hy; apply Hin; by right | exact Hseg | cbn in Hf; lia].
Qed.

Lemma compare_self d i l : attributes d i l -> lxb_dom_element_compare d i i = Some true.
Proof.
  intros Hl. pose proof (attributes_size d i l Hl) as Hs. unfold lxb_dom_element_compare.
  pose proof Hl as ((el & Hel & Hok) & Hseg & _). rewrite Hel. cbn [mbind option_bind]. rewrite (eo_first _ _ Hok).
  rewrite (count_loop_total _ l l _ _ _ Hseg Hseg Hs), Nat.eqb_refl. cbn [mbind option_bind].
  by apply (compare_loop_self d i l Hl l None).
Qed.

Section Formatting.
Context (marker : positive) (given : Z -> bool).

(** The elements after the last marker, and what is before them. *)
Definition after_marker (l : list positive) : list positive * list positive :=
  match last_match (same_ptr marker) l with
  | Some (a, x, b) => (a ++ [x], b)
  | None => ([], l)
  end.

(** [l = pre ++ zone], and [pre] is empty or ends with a marker. *)
Definition split_at_marker (l pre zone : list positive) : Prop :=
  l = pre ++ zone /\ (marker ∉ zone) /\ (pre = [] \/ exists a, pre = a ++ [marker]).

Lemma same_ptr_true node i : same_ptr node i = true <-> i = node.
Proof. apply bool_decide_eq_true. Qed.
Lemma same_ptr_false node i : same_ptr node i = false <-> i <> node.
Proof. apply bool_decide_eq_false. Qed.

Lemma after_marker_split l : split_at_marker l (fst (after_marker l)) (snd (after_marker l)).
Proof.
  unfold after_marker, split_at_marker. destruct (last_match _ l) as [[[a x] b]|] eqn:E; cbn [fst snd].
  - apply last_match_some in E as (-> & ->%same_ptr_true & Hb). split; [by rewrite <- app_assoc|]. split; [|by right; exists a].
    intros Hm%Hb. by apply same_ptr_false in Hm.
  - split; [done|]. split; [|by left]. intros Hm. by apply (last_match_none _ _ E), same_ptr_false in Hm.
Qed.

(** The comparison of the loop. *)
Definition same_element (t : html_tree) (node i : positive) : option bool :=
  n ← d_nodes (t_dom t) !! i; m ← d_nodes (t_dom t) !! node;
  if (nd_tag n =? nd_tag m) && (nd_ns n =? nd_ns m) then lxb_dom_element_compare (t_dom t) i node else Some false.

Definition equals (t : html_tree) (node i : positive) : bool := default false (same_element t node i).

(** Two elements can be compared: both are alive, and so are their attributes. *)
Definition comparable (t : html_tree) (l : list positive) (node : positive) : Prop :=
  forall i, i ∈ l -> is_Some (same_element t node i).

Definition count (f : positive -> bool) (l : list positive) : nat := length (List.filter f l).

Lemma count_app f l r : count f (l ++ r) = (count f l + count f r)%nat.
Proof. unfold count. by rewrite List.filter_app, length_app. Qed.

Lemma count_one f x : count f [x] = if f x then 1%nat else 0%nat.
Proof. unfold count. cbn. by destruct (f x). Qed.

Lemma fmt_lookup t pre x rest : fmt_list t = map Some (pre ++ x :: rest) -> fmt_list t !! length pre = Some (Some x).
Proof. intros ->. rewrite map_app, lookup_app_r by (by rewrite length_map). by rewrite length_map, Nat.sub_diag. Qed.

(** The loop from inside the elements after the marker. *)
Lemma dupl_loop_spec t node pre : (pre = [] \/ exists a, pre = a ++ [marker]) ->
  forall zone rest acc, fmt_list t = map Some (pre ++ zone ++ rest) -> marker ∉ zone -> comparable t zone node ->
  exists e, dupl_loop marker t node (length (pre ++ zone)) acc = Some (fst acc + count (equals t node) zone, e)%nat /\
    (count (equals t node) zone = O -> e = snd acc) /\
    forall z1 x z2, zone = z1 ++ x :: z2 -> equals t node x = true -> count (equals t node) z1 = O -> e = length (pre ++ z1).
Proof.
  intros Hpre zone. induction zone as [|x zone IH] using rev_ind; intros rest acc Hl Hm Hc.
  - exists (snd acc). split; [|split; [done | by intros [|? ?] ? ? ?]]. rewrite app_nil_r. unfold count. cbn. rewrite Nat.add_0_r.
    destruct Hpre as [->|[a ->]]; [by destruct acc|]. rewrite length_app, Nat.add_1_r. cbn [dupl_loop].
    rewrite <- app_assoc in Hl. rewrite (fmt_lookup t a marker _ Hl). cbn [mbind option_bind]. rewrite bool_decide_true by done. by destruct acc.
  - rewrite app_assoc, length_app, Nat.add_1_r. cbn [dupl_loop].
    assert (El : fmt_list t !! length (pre ++ zone) = Some (Some x)).
    { apply (fmt_lookup t _ x rest). rewrite Hl. by rewrite <- !app_assoc. }
    rewrite El. cbn [mbind option_bind]. rewrite bool_decide_false by (intros [= ->]; set_solver).
    destruct (Hc x ltac:(set_solver)) as [b Hb]. cbn [node_at mbind option_bind]. unfold same_element in Hb.
    destruct (d_nodes (t_dom t) !! x) as [n|] eqn:En; [|done]. destruct (d_nodes (t_dom t) !! node) as [m|] eqn:Em; [|done].
    cbn [mbind option_bind] in Hb |- *. rewrite Hb. cbn [mbind option_bind].
    assert (Hx : equals t node x = b).
    { unfold equals, same_element. rewrite En, Em. cbn [mbind option_bind]. by rewrite Hb. }
    destruct (IH (x :: rest) (if b then (S (fst acc), length (pre ++ zone)) else acc)) as (e & He & He0 & He1);
      [by rewrite Hl, <- (app_assoc zone) | set_solver | intros i Hi; apply Hc; set_solver|].
    exists e. rewrite He, count_app, count_one, Hx.
    split; [destruct b; cbn [fst]; do 2 f_equal; lia|]. split; [destruct b; [lia|]; rewrite Nat.add_0_r; exact He0|].
    intros z1 y z2 Hz Hy Hz1. destruct z2 as [|w z2 _] using rev_ind.
    + apply app_inj_tail in Hz as [-> ->]. rewrite Hx in Hy. rewrite Hy in He0. by apply He0.
    + rewrite app_comm_cons, app_assoc in Hz. apply app_inj_tail in Hz as [-> ->]. by apply (He1 z1 y z2).
Qed.

(** ** Pushing *)

(** The first of three equal elements is left out. *)
Fixpoint drop_first (f : positive -> bool) (l : list positive) : list positive :=
  match l with
  | [] => []
  | x :: r => if f x then r else x :: drop_first f r
  end.

Definition pushed (f : positive -> bool) (node : positive) (zone : list positive) : list positive :=
  (if (3 <=? count f zone)%nat then drop_first f zone else zone) ++ [node].

Lemma drop_first_split f l : count f l <> O -> exists a x b, l = a ++ x :: b /\ f x = true /\ count f a = O /\ drop_first f l = a ++ b.
Proof.
  induction l as [|x l IH]; intros H; [done|]. cbn [drop_first]. change (x :: l) with ([x] ++ l) in H. rewrite count_app, count_one in H.
  destruct (f x) eqn:Ex; [by exists [], x, l|]. destruct (IH H) as (a & y & b & -> & Hy & Ha & ->). exists (x :: a), y, b.
  split; [done|]. split; [done|]. split; [|done]. change (x :: a) with ([x] ++ a). by rewrite count_app, count_one, Ex.
Qed.

Lemma pushed_in f node zone i : i ∈ pushed f node zone -> i ∈ zone \/ i = node.
Proof.
  unfold pushed. intros [Hi| ->%list_elem_of_singleton]%elem_of_app; [|by right]. left.
  destruct (3 <=? count f zone)%nat eqn:E; [|done]. destruct (drop_first_split f zone) as (a & x & b & -> & _ & _ & Ed).
  { intros E0. by rewrite E0 in E. }
  rewrite Ed in Hi. set_solver.
Qed.

Lemma pushed_count f node zone : f node = true -> (count f zone <= 3)%nat -> (count f (pushed f node zone) <= 3)%nat.
Proof.
  intros Hn Hc. unfold pushed. rewrite count_app, count_one, Hn. destruct (3 <=? count f zone)%nat eqn:E.
  - destruct (drop_first_split f zone) as (a & x & b & -> & Hx & Ha & ->); [intros E0; by rewrite E0 in E|].
    change (x :: b) with ([x] ++ b) in Hc. rewrite !count_app, count_one, Hx in Hc. rewrite count_app. lia.
  - apply Nat.leb_gt in E. lia.
Qed.

(** Room for one more in the list. *)
Definition room (t : html_tree) (n : Z) : Prop :=
  array_ok (active_formatting t) /\ ar_length (active_formatting t) + 127 + n <= SIZE_MAX.

Lemma set_formatting_twice t a b : set_formatting b (set_formatting a t) = set_formatting b t.
Proof. done. Qed.

Lemma push_formatting t node l : fmt_list t = map Some l -> room t 1 -> (forall n, given n = true) ->
  exists a, lxb_html_tree_active_formatting_push given t node = set_formatting a t /\
    ar_items a = map Some (l ++ [node]) /\ array_ok a.
Proof.
  intros Hl [Ha Hr] Hg. destruct (push_ok given _ (Some node) Ha ltac:(lia) Hg) as (a & E & Hi & Hok). exists a.
  unfold lxb_html_tree_active_formatting_push. rewrite E. split; [done|]. split; [|done].
  rewrite Hi. fold (fmt_list t). by rewrite Hl, map_app.
Qed.

Lemma remove_formatting t idx l : fmt_list t = map Some l -> array_ok (active_formatting t) -> (idx < length l)%nat ->
  exists a, lxb_html_tree_active_formatting_remove t idx = set_formatting a t /\
    ar_items a = map Some (take idx l ++ drop (S idx) l) /\ ar_size a = ar_size (active_formatting t).
Proof.
  intros Hl Ha Hi. unfold lxb_html_tree_active_formatting_remove. rewrite delete_one; [|done|].
  - eexists. split; [done|]. split; [|done]. cbn. fold (fmt_list t). by rewrite Hl, map_app, firstn_map, skipn_map.
  - fold (fmt_list t). by rewrite Hl, length_map.
Qed.

Lemma push_check_dupl t node pre zone : split_at_marker (pre ++ zone) pre zone -> fmt_list t = map Some (pre ++ zone) ->
  room t 1 -> (forall n, given n = true) -> comparable t zone node ->
  exists a, lxb_html_tree_active_formatting_push_with_check_dupl marker given t node = Some (set_formatting a t) /\
    ar_items a = map Some (pre ++ pushed (equals t node) node zone) /\ array_ok a.
Proof.
  intros (_ & Hm & Hpre) Hl Hr Hg Hc. unfold lxb_html_tree_active_formatting_push_with_check_dupl.
  assert (fmt_length t = length (pre ++ zone)) as -> by (unfold fmt_length, length_of; fold (fmt_list t); by rewrite Hl, length_map).
  destruct (dupl_loop_spec t node pre Hpre zone [] (O, if negb (length (pre ++ zone) =? 0) then length (pre ++ zone) - 1 else 0)%nat)
    as (e & He & _ & He1); [by rewrite app_nil_r | done | done|].
  rewrite He. cbn [mbind option_bind fst]. rewrite Nat.add_0_l. unfold pushed.
  destruct (3 <=? count (equals t node) zone)%nat eqn:E.
  - destruct (drop_first_split (equals t node) zone) as (z1 & x & z2 & -> & Hx & H1 & ->); [intros E0; by rewrite E0 in E|].
    rewrite (He1 z1 x z2 eq_refl Hx H1). destruct Hr as [Ha Hr].
    destruct (remove_formatting t (length (pre ++ z1)) _ Hl Ha) as (a & -> & Ei & Es); [rewrite !length_app; cbn; lia|].
    rewrite (app_assoc pre z1) in Ei. rewrite take_app_length in Ei. change (x :: z2) with ([x] ++ z2) in Ei. rewrite (app_assoc _ [x]) in Ei.
    rewrite drop_app_length' in Ei by (rewrite !length_app; cbn; lia).
    destruct (push_formatting (set_formatting a t) node ((pre ++ z1) ++ z2)) as (a' & -> & Ei' & Hok); [done| |done|].
    { assert (ar_length a <= ar_length (active_formatting t)) as Hlen.
      { unfold ar_length. fold (fmt_list t). rewrite Ei, Hl, !length_map, !length_app. cbn. lia. }
      destruct Ha as [Ha1 Ha2]. unfold room, array_ok. cbn. rewrite Es. lia. }
    exists a'. rewrite set_formatting_twice. split; [done|]. split; [|done]. by rewrite Ei', <- !app_assoc.
  - destruct (push_formatting t node (pre ++ zone) Hl Hr Hg) as (a & -> & Ei & Hok). exists a. split; [done|]. split; [|done].
    by rewrite Ei, <- app_assoc.
Qed.

(** ** Elements of a document *)

(** A live element whose attributes are in order. *)
Definition element_ok (t : html_tree) (i : positive) : Prop := exists l, attributes (t_dom t) i l.

Lemma comparable_ok t l node : element_ok t node -> (forall i, i ∈ l -> element_ok t i) -> comparable t l node.
Proof.
  intros [k Hk] Hl i Hi. destruct (Hl i Hi) as [r Hr]. unfold same_element.
  pose proof Hk as ((n & -> & _) & _). pose proof Hr as ((m & -> & _) & _). cbn [mbind option_bind].
  destruct (_ && _); [by eapply compare_total | by eexists].
Qed.

Lemma equals_self t node : element_ok t node -> equals t node node = true.
Proof.
  intros [k Hk]. unfold equals, same_element. pose proof Hk as ((n & -> & _) & _). cbn [mbind option_bind].
  rewrite !Z.eqb_refl. cbn [andb]. by rewrite (compare_self _ _ _ Hk).
Qed.

(** C25: "push onto the list of active formatting elements" with the Noah's Ark
    clause.  The element is added at the end; if three after the last marker equal
    it, the earliest of them is dropped first, what is before the marker is never
    touched, and at most three after the marker equal it again. *)
Theorem noahs_ark t l node : let pre := fst (after_marker l) in let zone := snd (after_marker l) in
  fmt_list t = map Some l -> room t 1 -> (forall n, given n = true) -> element_ok t node ->
  (forall i, i ∈ zone -> element_ok t i) -> (count (equals t node) zone <= 3)%nat ->
  exists a, lxb_html_tree_active_formatting_push_with_check_dupl marker given t node = Some (set_formatting a t) /\
    ar_items a = map Some (pre ++ pushed (equals t node) node zone) /\
    (count (equals t node) (pushed (equals t node) node zone) <= 3)%nat.
Proof.
  intros pre zone Hl Hr Hg Hn Hz Hc. pose proof (after_marker_split l) as Hs. fold pre zone in Hs. pose proof Hs as (E & _).
  rewrite E in Hl, Hs. destruct (push_check_dupl t node pre zone Hs Hl Hr Hg (comparable_ok t zone node Hn Hz)) as (a & Ha & Hi & _).
  exists a. split; [done|]. split; [done|]. apply pushed_count; [by apply equals_self | done].
Qed.

(** ** Markers *)

Fixpoint push_all (ns : list positive) (t : html_tree) : option html_tree :=
  match ns with
  | [] => Some t
  | n :: ns => t ← lxb_html_tree_active_formatting_push_with_check_dupl marker given t n; push_all ns t
  end.

Lemma pushed_length f node zone : (length (pushed f node zone) <= S (length zone))%nat.
Proof.
  unfold pushed. rewrite length_app. destruct (3 <=? count f zone)%nat eqn:E; [|cbn; lia].
  destruct (drop_first_split f zone) as (a & x & b & -> & _ & _ & ->); [intros E0; by rewrite E0 in E|]. rewrite !length_app. cbn. lia.
Qed.

Lemma set_formatting_same t : set_formatting (active_formatting t) t = t.
Proof. by destruct t. Qed.

Lemma push_all_spec a0 (Hg : forall n, given n = true) ns : forall t zone, fmt_list t = map Some ((a0 ++ [marker]) ++ zone) ->
  room t (Z.of_nat (length ns)) -> (forall i, i ∈ zone ++ ns -> element_ok t i /\ i <> marker) ->
  exists a zone', push_all ns t = Some (set_formatting a t) /\ ar_items a = map Some ((a0 ++ [marker]) ++ zone') /\ marker ∉ zone'.
Proof.
  assert (Hmark : forall (zone : list positive) (t : html_tree), (forall i, i ∈ zone -> element_ok t i /\ i <> marker) -> marker ∉ zone).
  { intros zone t H Hm. by destruct (H marker Hm). }
  induction ns as [|n ns IH]; intros t zone Hl Hr Hok.
  { exists (active_formatting t), zone. rewrite set_formatting_same. split; [done|]. split; [exact Hl|].
    apply (Hmark zone t). intros i Hi. apply Hok. set_solver. }
  assert (Hzone : forall i, i ∈ zone -> element_ok t i /\ i <> marker) by (intros i Hi; apply Hok; set_solver).
  destruct (Hok n ltac:(set_solver)) as [Hn _]. destruct Hr as [Ha Hr]. cbn [length] in Hr.
  destruct (push_check_dupl t n (a0 ++ [marker]) zone) as (a & Hpush & Hi & Haok).
  { split; [done|]. split; [by apply (Hmark zone t) | right; by exists a0]. }
  { done. } { split; [done | lia]. } { done. } { apply comparable_ok; [done | intros i Hin; by apply Hzone]. }
  cbn [push_all]. rewrite Hpush. cbn [mbind option_bind].
  destruct (IH (set_formatting a t) (pushed (equals t n) n zone)) as (a' & z' & -> & Hi' & Hm'); [done| | |].
  - split; [done|]. pose proof (pushed_length (equals t n) n zone) as Hp.
    unfold ar_length in *. cbn. fold (fmt_list t) in Hr. rewrite Hl, length_map, length_app in Hr. rewrite Hi, length_map, length_app. lia.
  - intros i [Hi0|Hi0]%elem_of_app; [apply pushed_in in Hi0 as [Hi0| ->]; apply Hok; set_solver | apply Hok; set_solver].
  - exists a', z'. rewrite set_formatting_twice. done.
Qed.

(** A marker delimits.  After a marker is pushed, whatever elements are pushed
    with the Noah's Ark clause, clearing the list up to the last marker gives the
    list back as it was before the marker, and nothing else of the builder
    changes. *)
Theorem marker_roundtrip t l ns : fmt_list t = map Some l -> room t (Z.of_nat (length ns) + 1) -> (forall n, given n = true) ->
  (forall i, i ∈ ns -> element_ok t i /\ i <> marker) ->
  exists t1 t2, push_all ns (lxb_html_tree_active_formatting_push_marker marker given t) = Some t1 /\
    lxb_html_tree_active_formatting_up_to_last_marker marker t1 = Some t2 /\
    fmt_list t2 = map Some l /\ t2 = set_formatting (active_formatting t2) t.
Proof.
  intros Hl Hr Hg Hns. destruct Hr as [Ha Hr].
  destruct (push_formatting t marker l Hl ltac:(split; [done | lia]) Hg) as (a & Hpush & Hi & Hok).
  unfold lxb_html_tree_active_formatting_push_marker. fold (lxb_html_tree_active_formatting_push given t marker). rewrite Hpush.
  destruct (push_all_spec l Hg ns (set_formatting a t) []) as (a' & zone & Ht1 & Hi' & Hm).
  { cbn. rewrite app_nil_r. exact Hi. }
  { split; [done|]. unfold ar_length in *. cbn. fold (fmt_list t) in Hr. rewrite Hl, length_map in Hr. rewrite Hi, length_map, length_app. cbn. lia. }
  { intros i Hin. by apply Hns. }
  rewrite Ht1. eexists; eexists. split; [done|]. unfold lxb_html_tree_active_formatting_up_to_last_marker, fmt_length, length_of, fmt_list.
  cbn [set_formatting active_formatting]. rewrite Hi', length_map, <- app_assoc.
  rewrite (pop_until_spec _ (same_ptr marker)) by (intros; apply is_ptr_holds). cbn [mbind option_bind].
  cbn [app]. rewrite (last_match_intro (same_ptr marker) l marker zone);
    [|by apply same_ptr_true | intros i Hin; apply same_ptr_false; intros ->; done].
  split; [done|]. cbn. rewrite Hi'. split; [|done]. rewrite <- app_assoc, map_app. by rewrite take_app_length' by (by rewrite length_map).
Qed.
End Formatting.

Lemma example_element_ok size l k i tag ns : example_nodes !! i = Some (example_node tag ns) -> element_ok (example_tree size l k) i.
Proof.
  intros Hi. exists []. split; [eexists; split; [exact Hi | by split]|]. split; [done|]. split; constructor.
Qed.

Lemma noahs_ark_witness : exists a,
  lxb_html_tree_active_formatting_push_with_check_dupl 100 (fun _ => true) (example_tree 8 [] [6; 100; 6; 7; 8]%positive) 9 =
    Some (set_formatting a (example_tree 8 [] [6; 100; 6; 7; 8]%positive)) /\
  ar_items a = map Some [6; 100; 7; 8; 9]%positive.
Proof.
  destruct (noahs_ark 100 (fun _ => true) (example_tree 8 [] [6; 100; 6; 7; 8]%positive) [6; 100; 6; 7; 8]%positive 9) as (a & E & Hi & _).
  - reflexivity.
  - repeat split; vm_compute; discriminate.
  - done.
  - by eapply example_element_ok.
  - intros i Hi. change (i ∈ [6; 7; 8]%positive) in Hi.
    repeat (apply elem_of_cons in Hi as [->|Hi]; [by eapply example_element_ok|]). by apply elem_of_nil in Hi.
  - apply Nat.leb_le. vm_compute. reflexivity.
  - exists a. split; [exact E|]. rewrite Hi. vm_compute. reflexivity.
Defined.

Lemma marker_roundtrip_witness : exists t1 t2,
  push_all 100 (fun _ => true) [6; 7; 8; 9]%positive
    (lxb_html_tree_active_formatting_push_marker 100 (fun _ => true) (example_tree 8 [] [6]%positive)) = Some t1 /\
  lxb_html_tree_active_formatting_up_to_last_marker 100 t1 = Some t2 /\ fmt_list t2 = [Some 6%positive].
Proof.
  destruct (marker_roundtrip 100 (fun _ => true) (example_tree 8 [] [6]%positive) [6]%positive [6; 7; 8; 9]%positive) as (t1 & t2 & E1 & E2 & E3 & _).
  - reflexivity.
  - repeat split; vm_compute; discriminate.
  - done.
  - intros i Hi. repeat (apply elem_of_cons in Hi as [->|Hi]; [split; [by eapply example_element_ok | done]|]). by apply elem_of_nil in Hi.
  - exists t1, t2. auto.
Defined.
