(* ===== verification/TreeM.v ===== *)
(** * Computations of the tree builder

    A function of [html/tree.c] and of the insertion modes runs on the state of the
    builder and ends with a result and a new state, or with none when it reads
    through NULL or a dangling pointer.  What the builder gets from outside, memory
    for nodes, attributes and arrays and the address of the marker, are the
    operations of the class [TreeAlloc]; the buffers its token lies in are those of
    [TokenBuffers]. *)
From S2P Require Import Prelude.
From S2P Require Import In.
From S2P Require Import Tag.
From S2P Require Import TkzBase.
From S2P Require Import TokenParse.
From S2P Require Import TokenWs.
From S2P Require Import DomNode.
From S2P Require Import DomAttr.
From S2P Require Import TagCat.
From S2P Require Import Array.
From S2P Require Import TreeStack.

Class TreeAlloc := {
  (** The address of [lxb_html_tree_active_formatting_marker_static]. *)
  marker : positive;
  (** Whether memory of a size is given for an array. *)
  given : Z -> bool;
  (** The address of a new attribute, beside those in use. *)
  new_attr : gmap positive dom_attr -> positive;
  (** The address of a new node, or NULL. *)
  new_node : gmap positive dom_node -> option positive
}.

(** One that always has memory and gives the first address not in use. *)
Definition first_free : TreeAlloc :=
  {| marker := 1%positive; given _ := true; new_attr m := fresh (base.dom m : gset positive);
     new_node m := Some (fresh ({[1%positive]} ∪ base.dom m : gset positive)) |}.

Lemma first_free_fresh h i : @new_node first_free h = Some i -> h !! i = None.
Proof.
  intros [= <-]. apply not_elem_of_dom. intros Hi.
  apply (is_fresh ({[1%positive]} ∪ base.dom h : gset positive)), elem_of_union. by right.
Qed.

(** The buffers: the chain of [core/in.h] and the bytes at an address. *)
Class TokenBuffers := { tb_nodes : gmap positive in_node; tb_byte : Z -> Z }.

Definition M (A : Type) : Type := html_tree -> option (A * html_tree).

#[export] Instance M_ret : MRet M := fun A x t => Some (x, t).
#[export] Instance M_bind : MBind M := fun A B f x t => match x t with Some (a, t') => f a t' | None => None end.

(** Reading and changing the state. *)
Definition get {A} (f : html_tree -> A) : M A := fun t => Some (f t, t).
Definition getO {A} (f : html_tree -> option A) : M A := fun t => a ← f t; Some (a, t).
Definition put (f : html_tree -> html_tree) : M unit := fun t => Some (tt, f t).
Definition putO (f : html_tree -> option html_tree) : M unit := fun t => t ← f t; Some (tt, t).
(** A function on the document that answers with a value. *)
Definition on_dom {A} (f : dom -> option (A * dom)) : M A :=
  fun t => '(a, d) ← f (t_dom t); Some (a, set_dom d t).
Definition nothing : M unit := mret tt.
Definition when (b : bool) (x : M unit) : M unit := if b then x else nothing.
Definition fault {A} : M A := fun _ => None.

Definition parse_error : M unit := put lxb_html_tree_parse_error.
Definition token : M html_token := get t_token.
Definition mode_is (m : insertion_mode) : M unit := put (set_mode (Some m)).
Definition node (p : option positive) : M dom_node := getO (fun t => node_at t p).
Definition current_node : M (option positive) := get lxb_html_tree_current_node.
Definition oe_pop : M unit := put lxb_html_tree_open_elements_pop.

(** [lxb_html_tree_node_is(node, tag)] *)
Definition is_node (p : option positive) (tag : Z) : M bool := n ← node p; mret (lxb_html_tree_node_is n tag).

(** [lxb_html_tree_stop_parsing] *)
Definition lxb_html_tree_stop_parsing : M Z := put (set_complete true);; mret LXB_STATUS_OK.

Definition LXB_STATUS_ABORTED : Z := 0x000F.

(** [lxb_html_tree_process_abort] *)
Definition lxb_html_tree_process_abort : M bool :=
  s ← get t_status;
  when (s =? LXB_STATUS_OK) (put (set_t_status LXB_STATUS_ABORTED));;
  put (fun t => set_open (set_items [] (open_elements t)) t);;
  put (set_complete true);;
  mret true.

(** [tree->status = s; if (tree->status != LXB_STATUS_OK) return
    lxb_html_tree_process_abort(tree);] *)
Definition check_status (s : Z) (k : M bool) : M bool :=
  put (set_t_status s);; if s =? LXB_STATUS_OK then k else lxb_html_tree_process_abort.

(** [if (tree->status != LXB_STATUS_OK) ..] *)
Definition status_ok (k : M bool) : M bool :=
  s ← get t_status; if s =? LXB_STATUS_OK then k else lxb_html_tree_process_abort.

(** [if (element == NULL) { tree->status = LXB_STATUS_ERROR_MEMORY_ALLOCATION;
    return lxb_html_tree_process_abort(tree); }] *)
Definition not_null (element : option positive) (k : positive -> M bool) : M bool :=
  match element with
  | Some e => k e
  | None => put (set_t_status LXB_STATUS_ERROR_MEMORY_ALLOCATION);; lxb_html_tree_process_abort
  end.

(** [if (comment == NULL) return lxb_html_tree_process_abort(tree);] *)
Definition or_abort (p : option positive) (k : M bool) : M bool :=
  match p with Some _ => k | None => lxb_html_tree_process_abort end.

(** ** Stacks *)

Section Stacks.
Context `{TreeAlloc}.

Definition lxb_html_tree_open_elements_push (p : option positive) : M Z :=
  fun t => let '(s, a) := lexbor_array_push given (open_elements t) p in Some (s, set_open a t).

Definition lxb_html_tree_open_elements_insert_after (p : option positive) (idx : Z) : M Z :=
  fun t => let '(s, a) := lexbor_array_insert given (open_elements t) (size_wrap (idx + 1)) p in Some (s, set_open a t).

Definition lxb_html_tree_open_elements_get (t : html_tree) (idx : Z) : option positive := lexbor_array_get (open_elements t) idx.

Definition lxb_html_tree_active_formatting_insert (p : option positive) (idx : Z) : M Z :=
  fun t => let '(s, a) := lexbor_array_insert given (active_formatting t) idx p in Some (s, set_formatting a t).

(** [lxb_html_tree_active_formatting_push_marker] with its status. *)
Definition push_marker : M Z :=
  fun t => Some (fst (lexbor_array_push given (active_formatting t) (Some marker)),
                 lxb_html_tree_active_formatting_push_marker marker given t).

Definition up_to_last_marker : M unit := putO (lxb_html_tree_active_formatting_up_to_last_marker marker).
Definition push_with_check_dupl (p : positive) : M unit :=
  putO (fun t => lxb_html_tree_active_formatting_push_with_check_dupl marker given t p).
End Stacks.

Definition pop_until_tag (tag : Z) : M unit := putO (fun t => lxb_html_tree_open_elements_pop_until_tag_id t tag LXB_NS_HTML true).
Definition pop_until_node (p : positive) (exclude : bool) : M unit :=
  putO (fun t => lxb_html_tree_open_elements_pop_until_node t p exclude).
Definition oe_remove_by_node (p : positive) : M unit := putO (fun t => lxb_html_tree_open_elements_remove_by_node t p).
Definition af_remove_by_node (p : positive) : M unit := putO (fun t => lxb_html_tree_active_formatting_remove_by_node t p).
Definition implied_end_tags (tag ns : Z) : M unit := putO (fun t => lxb_html_tree_generate_implied_end_tags t tag ns).
Definition reset_mode : M unit := putO lxb_html_tree_reset_insertion_mode_appropriately.
Definition close_p : M unit := putO lxb_html_tree_close_p_element.

(** The node found by a search, or NULL. *)
Definition in_scope_of (tag ct : Z) : M (option positive) := getO (fun t => lxb_html_tree_element_in_scope t tag LXB_NS_HTML ct).
Definition find_reverse (tag : Z) : M (option positive) :=
  r ← getO (fun t => lxb_html_tree_open_elements_find_reverse t tag LXB_NS_HTML); mret (fst r).
Definition find_first_open (tag : Z) : M (option positive) :=
  r ← getO (fun t => lxb_html_tree_open_elements_find t tag LXB_NS_HTML); mret (fst r).

(** [lxb_html_tree_template_insertion_push] and [pop]. *)
Definition lxb_html_tree_template_insertion_push (m : insertion_mode) : M Z :=
  put (fun t => set_templates (template_insertion_modes t ++ [m]) t);; mret LXB_STATUS_OK.
Definition lxb_html_tree_template_insertion_pop : M (option insertion_mode) :=
  m ← get (fun t => last (template_insertion_modes t));
  put (fun t => set_templates (removelast (template_insertion_modes t)) t);; mret m.

(** [lxb_html_tokenizer_tmp_tag_id_set] and [lxb_html_tokenizer_state_set] on
    [tree->tkz_ref]. *)
Definition tokenizer_tmp_tag_id_set (tag : Z) : M unit := put (set_tkz_tag (Some tag)).
Definition tokenizer_state_set (s : tkz_state) : M unit := put (set_tkz_state (Some s)).

(** A token with a tag alone: [lxb_html_token_t fake_token = {0}]. *)
Definition fake_token (tag : Z) : html_token := with_tag_id tag token_zero.
Definition fake_of (tag : Z) (base : positive) : html_token := mk_token 0 0 None [] (Zpos base) tag 0.

(** The flags of the token in hand. *)
Definition token_has (flag : Z) : M bool := k ← token; mret (negb (Z.land (tok_type k) flag =? 0)).
