(* ===== verification/TreeInsert.v ===== *)
(** * Inserting into the tree: [html/interface.c], [html/tree.c]

    Nodes are created through the tables of constructors, placed at the
    appropriate place, filled with the attributes or the text of the token and
    pushed on the stack of open elements. *)
From Stdlib Require Import String.
From S2P Require Import Prelude.
From S2P Require Import Str.
From S2P Require Import In.
From S2P Require Import Tag.
From S2P Require Import TkzBase.
From S2P Require Import ParserChar.
From S2P Require Import TokenParse.
From S2P Require Import DomNode.
From S2P Require Import DomAttr.
From S2P Require Import TreeAttr.
From S2P Require Import TagCat.
From S2P Require Import TagConst.
From S2P Require Import Array.
From S2P Require Import TreeStack.
From S2P Require Import TreeM.

Definition LXB_DOM_NODE_TYPE_DOCUMENT_TYPE : Z := 0x0A.

(** Writing into a node on the heap. *)
Definition set_nd_kind (ns tag type : Z) n := mk_node (nd_next n) (nd_prev n) (nd_parent n) (nd_first n) (nd_last n) ns tag type (nd_data n) (nd_qname n) (nd_first_attr n) (nd_last_attr n) (nd_attr_id n) (nd_attr_class n).
Definition set_nd_data v n := mk_node (nd_next n) (nd_prev n) (nd_parent n) (nd_first n) (nd_last n) (nd_ns n) (nd_tag n) (nd_type n) v (nd_qname n) (nd_first_attr n) (nd_last_attr n) (nd_attr_id n) (nd_attr_class n).
Definition set_nd_qname v n := mk_node (nd_next n) (nd_prev n) (nd_parent n) (nd_first n) (nd_last n) (nd_ns n) (nd_tag n) (nd_type n) (nd_data n) v (nd_first_attr n) (nd_last_attr n) (nd_attr_id n) (nd_attr_class n).

Definition on_node (f : dom_node -> dom_node) (i : positive) : M unit :=
  on_dom (fun d => d ← upd_element f i d; Some (tt, d)).
Definition on_nodes (f : gmap positive dom_node -> option (gmap positive dom_node)) : M unit :=
  on_dom (fun d => h ← f (d_nodes d); Some (tt, with_nodes h d)).

(** What [calloc] leaves in a node. *)
Definition node_zero : dom_node := mk_node None None None None None 0 0 0 [] None None None None None.

(** The rows of [lxb_html_interface_res_constructors]: the type of the node. *)
Definition lxb_html_interface_res_constructors (tag ns : Z) : Z :=
  let text_ns := (LXB_NS_HTML <=? ns) && (ns <=? LXB_NS_SVG) in
  if (tag =? LXB_TAG__TEXT) && text_ns then LXB_DOM_NODE_TYPE_TEXT
  else if (tag =? LXB_TAG__EM_COMMENT) && text_ns then LXB_DOM_NODE_TYPE_COMMENT
  else if (tag =? LXB_TAG__EM_DOCTYPE) && (ns =? LXB_NS_HTML) then LXB_DOM_NODE_TYPE_DOCUMENT_TYPE
  else if (tag =? LXB_TAG__DOCUMENT) && (ns =? LXB_NS_HTML) then LXB_DOM_NODE_TYPE_DOCUMENT
  else LXB_DOM_NODE_TYPE_ELEMENT.

(** The rows of [lxb_html_interface_res_destructor]: whether the destructor is
    [lxb_dom_element_interface_destroy]; whether it is that of a template. *)
Definition destroys_attributes (tag ns : Z) : bool :=
  (LXB_NS_MATH <=? ns) && negb (one_of tag [LXB_TAG__TEXT; LXB_TAG__EM_COMMENT] && (ns <=? LXB_NS_SVG)).
Definition is_template (tag ns : Z) : bool := (tag =? LXB_TAG_TEMPLATE) && (ns =? LXB_NS_HTML).

(** [lxb_html_tree_insertion_position_t] *)
Inductive insertion_position :=
  | LXB_HTML_TREE_INSERTION_POSITION_CHILD
  | LXB_HTML_TREE_INSERTION_POSITION_BEFORE.

(** The loop over the attributes of an element that is destroyed. *)
Fixpoint destroy_attrs (fuel : nat) (attr : option positive) (d : dom) : option dom :=
  match attr with
  | None => Some d
  | Some attr =>
      match fuel with
      | O => None
      | S fuel =>
          a ← d_attrs d !! attr;
          d ← lxb_dom_attr_interface_destroy attr d;
          destroy_attrs fuel (at_next a) d
      end
  end.

Section Insert.
Context `{TreeAlloc}.

Definition calloc_node : M (option positive) :=
  on_dom (fun d => Some match new_node (d_nodes d) with
                        | Some i => (Some i, with_nodes (<[i := node_zero]> (d_nodes d)) d)
                        | None => (None, d)
                        end).
Definition free_node (i : positive) : M unit :=
  on_nodes (fun h => _ ← h !! i; Some (delete i h)).

(** A node of a type; a template with its contents.  When there is no memory for
    the contents, the destructor reads through their NULL. *)
Definition lxb_html_interface_create (tag_id ns : Z) : M (option positive) :=
  let known := tag_id <? LXB_TAG__LAST_ENTRY in
  if known && (LXB_NS__LAST_ENTRY <=? ns) then fault
  else
    let type := if known then lxb_html_interface_res_constructors tag_id ns else LXB_DOM_NODE_TYPE_ELEMENT in
    i ← calloc_node;
    match i with
    | None => mret None
    | Some i =>
        on_node (set_nd_kind 0 0 type) i;;
        when (is_template tag_id ns)
          (c ← calloc_node;
           match c with
           | None => fault
           | Some c =>
               on_node (set_nd_kind LXB_NS_HTML 0 LXB_DOM_NODE_TYPE_DOCUMENT_FRAGMENT) c;;
               put (fun t => set_content (<[i := c]> (t_content t)) t)
           end);;
        on_node (set_nd_kind ns tag_id type) i;;
        mret (Some i)
    end.

Definition lxb_html_tree_create_node := lxb_html_interface_create.

Definition destroy_element (i : positive) (n : dom_node) : M unit :=
  on_dom (fun d => d ← destroy_attrs (size (d_attrs d)) (nd_first_attr n) d; Some (tt, d));;
  free_node i.

(** All destructors return NULL.  No attribute, CDATA section or processing
    instruction is among these nodes. *)
Definition lxb_html_interface_destroy (i : positive) : M (option positive) :=
  n ← node (Some i);
  (if one_of (nd_type n) [LXB_DOM_NODE_TYPE_TEXT; LXB_DOM_NODE_TYPE_COMMENT; LXB_DOM_NODE_TYPE_ELEMENT;
                          LXB_DOM_NODE_TYPE_DOCUMENT; LXB_DOM_NODE_TYPE_DOCUMENT_TYPE] then
     if nd_tag n >=? LXB_TAG__LAST_ENTRY then
       if nd_ns n =? LXB_NS_HTML then free_node i else destroy_element i n
     else if LXB_NS__LAST_ENTRY <=? nd_ns n then fault
     else if destroys_attributes (nd_tag n) (nd_ns n) then destroy_element i n
     else
       when (is_template (nd_tag n) (nd_ns n)) (c ← getO (fun t => t_content t !! i); free_node c);;
       free_node i
   else when (nd_type n =? LXB_DOM_NODE_TYPE_DOCUMENT_FRAGMENT) (free_node i));;
  mret None.

(** ** Where a node goes *)

(** [lxb_html_interface_template(node)->content] *)
Definition content_of (p : option positive) : M (option positive) :=
  getO (fun t => i ← p; c ← t_content t !! i; Some (Some c)).

Definition lxb_html_tree_appropriate_place_inserting_node (override_target : option positive)
    : M (option positive * insertion_position) :=
  target ← (match override_target with Some p => mret (Some p) | None => current_node end);
  foster ← get foster_parenting;
  foster ← (if (foster : bool) then
              n ← node target;
              mret ((nd_ns n =? LXB_NS_HTML) &&
                    one_of (nd_tag n) [LXB_TAG_TABLE; LXB_TAG_TBODY; LXB_TAG_TFOOT; LXB_TAG_THEAD; LXB_TAG_TR])
            else mret false);
  let finish (adjusted_location : option positive) (ipos : insertion_position) :=
    match adjusted_location with
    | None => mret (None, ipos)
    | Some _ =>
        template ← is_node adjusted_location LXB_TAG_TEMPLATE;
        if (template : bool) then c ← content_of adjusted_location; mret (c, ipos)
        else mret (adjusted_location, ipos)
    end in
  if (foster : bool) then
    '(last_temp, last_temp_idx) ← getO (fun t => lxb_html_tree_open_elements_find_reverse t LXB_TAG_TEMPLATE LXB_NS_HTML);
    '(last_table, last_table_idx) ← getO (fun t => lxb_html_tree_open_elements_find_reverse t LXB_TAG_TABLE LXB_NS_HTML);
    match last_temp, last_table with
    | Some _, None => c ← content_of last_temp; mret (c, LXB_HTML_TREE_INSERTION_POSITION_CHILD)
    | None, None =>
        first ← get lxb_html_tree_open_elements_first; finish first LXB_HTML_TREE_INSERTION_POSITION_CHILD
    | _, Some _ =>
        if (match last_temp with Some _ => true | None => false end) && (last_table_idx <? last_temp_idx)%nat
        then c ← content_of last_temp; mret (c, LXB_HTML_TREE_INSERTION_POSITION_CHILD)
        else
          n ← node last_table;
          match nd_parent n with
          | Some _ => finish last_table LXB_HTML_TREE_INSERTION_POSITION_BEFORE
          | None =>
              p ← get (fun t => lxb_html_tree_open_elements_get t (size_wrap (Z.of_nat last_table_idx - 1)));
              finish p LXB_HTML_TREE_INSERTION_POSITION_CHILD
          end
    end
  else finish target LXB_HTML_TREE_INSERTION_POSITION_CHILD.

Definition lxb_html_tree_insert_node (to node : positive) (ipos : insertion_position) : M unit :=
  on_nodes (fun h => match ipos with
                     | LXB_HTML_TREE_INSERTION_POSITION_BEFORE => lxb_dom_node_insert_before h to node
                     | LXB_HTML_TREE_INSERTION_POSITION_CHILD => lxb_dom_node_insert_child h to node
                     end).

Definition insert_child (to node : positive) : M unit :=
  lxb_html_tree_insert_node to node LXB_HTML_TREE_INSERTION_POSITION_CHILD.

(** [lxb_html_tree_node_delete_deep] takes the node out of the tree only. *)
Definition lxb_html_tree_node_delete_deep (node : positive) : M unit :=
  on_nodes (fun h => lxb_dom_node_remove h node).

Context `{TokenBuffers}.

(** ** Elements *)

Definition append_attributes (element : positive) (token : html_token) (ns : Z) : M Z :=
  before ← get before_append_attr;
  on_dom (fun d => lxb_html_tree_append_attributes tb_nodes tb_byte new_attr before d element token ns).

Definition append_attributes_from_element (element from : positive) : M Z :=
  before ← get before_append_attr;
  on_dom (fun d => lxb_html_tree_append_attributes_from_element new_attr before d element from).

(** [token->base_element] is NULL or the address of an element.  The argument
    [parent] of the function is not used. *)
Definition lxb_html_tree_create_element_for_token (token : html_token) (ns : Z) : M (option positive) :=
  i ← lxb_html_tree_create_node (tok_tag_id token) ns;
  match i with
  | None => mret None
  | Some i =>
      status ← match tok_base_element token with
               | Zpos from => append_attributes_from_element i from
               | _ => append_attributes i token ns
               end;
      if negb (status =? LXB_STATUS_OK) then lxb_html_interface_destroy i
      else on_node (fun n => set_nd_kind ns (tok_tag_id token) (nd_type n) n) i;; mret (Some i)
  end.

(** [pos->parent], which is read for a place before [pos]. *)
Definition read_parent (pos : option positive) (ipos : insertion_position) : M unit :=
  match ipos with
  | LXB_HTML_TREE_INSERTION_POSITION_CHILD => nothing
  | LXB_HTML_TREE_INSERTION_POSITION_BEFORE => _ ← node pos; nothing
  end.

(** When the push fails the element is destroyed where it is in the tree. *)
Definition lxb_html_tree_insert_foreign_element (token : html_token) (ns : Z) : M (option positive) :=
  '(pos, ipos) ← lxb_html_tree_appropriate_place_inserting_node None;
  read_parent pos ipos;;
  element ← lxb_html_tree_create_element_for_token token ns;
  match element with
  | None => mret None
  | Some e =>
      match pos with Some pos => lxb_html_tree_insert_node pos e ipos | None => nothing end;;
      status ← lxb_html_tree_open_elements_push (Some e);
      if negb (status =? LXB_STATUS_OK) then lxb_html_interface_destroy e else mret (Some e)
  end.

Definition lxb_html_tree_insert_html_element (token : html_token) : M (option positive) :=
  lxb_html_tree_insert_foreign_element token LXB_NS_HTML.

(** ** Characters, comments, document types *)

(** [lxb_html_token_parse_data(token, &pc, &str, ..)] of an empty string. *)
Definition parse_data (token : html_token) : M (Z * list Z) :=
  getO (fun _ => '(_, status, str) ← lxb_html_token_parse_data tb_nodes tb_byte token pc_zero []; Some (status, str)).

(** The status and [*ret_node]. *)
Definition lxb_html_tree_insert_character_for_data (str : list Z) : M (Z * option positive) :=
  '(pos, ipos) ← lxb_html_tree_appropriate_place_inserting_node None;
  match pos with
  | None => mret (LXB_STATUS_ERROR, None)
  | Some p =>
      n ← node pos;
      if lxb_html_tree_node_is n LXB_TAG__DOCUMENT then mret (LXB_STATUS_OK, None)
      else
        let beside := match ipos with
                      | LXB_HTML_TREE_INSERTION_POSITION_BEFORE => nd_prev n
                      | LXB_HTML_TREE_INSERTION_POSITION_CHILD => nd_last n
                      end in
        is_text ← match beside with
                  | Some _ => b ← node beside; mret (nd_tag b =? LXB_TAG__TEXT)
                  | None => mret false
                  end;
        match beside, (is_text : bool) with
        | Some chrs, true =>
            on_node (fun c => set_nd_data (nd_data c ++ str) c) chrs;; mret (LXB_STATUS_OK, Some chrs)
        | _, _ =>
            text ← lxb_html_tree_create_node LXB_TAG__TEXT LXB_NS_HTML;
            match text with
            | None => mret (LXB_STATUS_ERROR_MEMORY_ALLOCATION, None)
            | Some text =>
                on_node (set_nd_data str) text;;
                lxb_html_tree_insert_node p text ipos;;
                mret (LXB_STATUS_OK, Some text)
            end
        end
  end.

Definition lxb_html_tree_insert_character (token : html_token) : M (Z * option positive) :=
  '(status, str) ← parse_data token;
  if negb (status =? LXB_STATUS_OK) then mret (status, None)
  else lxb_html_tree_insert_character_for_data str.

Definition lxb_html_tree_insert_comment (token : html_token) (pos : option positive) : M (option positive) :=
  '(pos, ipos) ← match pos with
                 | None => lxb_html_tree_appropriate_place_inserting_node None
                 | Some _ => mret (pos, LXB_HTML_TREE_INSERTION_POSITION_CHILD)
                 end;
  n ← node pos;
  comment ← lxb_html_tree_create_node (tok_tag_id token) (nd_ns n);
  match comment, pos with
  | Some c, Some p =>
      '(status, str) ← parse_data token;
      if negb (status =? LXB_STATUS_OK) then free_node c;; mret None
      else on_node (set_nd_data str) c;; lxb_html_tree_insert_node p c ipos;; mret (Some c)
  | _, _ => mret None
  end.

Definition lxb_html_tree_create_document_type_from_token (token : html_token) : M (option positive) :=
  doctype_node ← lxb_html_tree_create_node (tok_tag_id token) LXB_NS_HTML;
  match doctype_node with
  | None => mret None
  | Some i =>
      '(status, strs) ← getO (fun _ => lxb_html_token_doctype_parse tb_nodes tb_byte token (mk_doctype_strs None None None None));
      if negb (status =? LXB_STATUS_OK) then free_node i;; mret None
      else put (fun t => set_doctypes (<[i := strs]> (t_doctypes t)) t);; mret (Some i)
  end.

(** ** Raw text *)

(** Both functions, but for the state of the tokenizer. *)
Definition generic_parsing (state : tkz_state) (token : html_token) : M (option positive) :=
  element ← lxb_html_tree_insert_html_element token;
  match element with
  | None => mret None
  | Some e =>
      tokenizer_tmp_tag_id_set (tok_tag_id token);;
      tokenizer_state_set state;;
      put (fun t => set_original_mode (t_mode t) t);;
      mode_is IM_text;;
      mret (Some e)
  end.

Definition lxb_html_tree_generic_rawtext_parsing := generic_parsing S_rawtext_before.
Definition lxb_html_tree_generic_rcdata_parsing := generic_parsing S_rcdata_before.

Definition lxb_html_tree_acknowledge_token_self_closing (token : html_token) : M unit :=
  if Z.land (tok_type token) LXB_HTML_TOKEN_TYPE_CLOSE_SELF =? 0 then nothing
  else when (lxb_html_tag_is_void (tok_tag_id token)) parse_error.
End Insert.

(** ** Integration points *)

Definition lxb_html_tree_mathml_text_integration_point (n : dom_node) : bool :=
  (nd_ns n =? LXB_NS_MATH) &&
  one_of (nd_tag n) [LXB_TAG_MI; LXB_TAG_MO; LXB_TAG_MN; LXB_TAG_MS; LXB_TAG_MTEXT].

(** Of two strings with their terminating NULs. *)
Fixpoint lexbor_str_data_casecmp (first sec : list Z) : bool :=
  let c := hd 0 first in
  if negb (lower c =? lower (hd 0 sec)) then false
  else if c =? 0 then true
  else match first, sec with _ :: first', _ :: sec' => lexbor_str_data_casecmp first' sec' | _, _ => true end.

Definition lxb_html_tree_html_integration_point (d : dom) (i : positive) : option bool :=
  n ← d_nodes d !! i;
  if (nd_ns n =? LXB_NS_MATH) && (nd_tag n =? LXB_TAG_ANNOTATION_XML) then
    attr ← lxb_dom_element_attr_is_exist d i (bytes_of "encoding");
    match attr with
    | None => Some false
    | Some attr =>
        a ← d_attrs d !! attr;
        match at_value a with
        | None => Some false
        | Some value =>
            if (str_len value =? 9) && lexbor_str_data_casecmp value (bytes_of "text/html") then Some true
            else Some ((str_len value =? 21) && lexbor_str_data_casecmp value (bytes_of "application/xhtml+xml"))
        end
    end
  else
    Some ((nd_ns n =? LXB_NS_SVG) && one_of (nd_tag n) [LXB_TAG_FOREIGNOBJECT; LXB_TAG_DESC; LXB_TAG_TITLE]).
