(* ===== verification/Serialize.v ===== *)
(** * Writing a document as text: [html/serialize.c]

    A function sends pieces of text to a callback, which has a state and may refuse
    a piece with a status, and ends with a status; reading through NULL or a dangling
    pointer is [None].  The document is the state of the builder that made it; the
    [is] values of elements, the targets of processing instructions and the names of
    namespaces beyond the static ones are parameters, since nothing modelled sets
    them. *)
From Stdlib Require Import String.
From S2P Require Import Prelude.
From S2P Require Import Str.
From S2P Require Import Tag.
From S2P Require Import TagHeap.
From S2P Require Import TkzBase.
From S2P Require Import ParserChar.
From S2P Require Import TokenParse.
From S2P Require Import DomNode.
From S2P Require Import DomAttr.
From S2P Require Import DomQuery.
From S2P Require Import TagCat.
From S2P Require Import TagConst.
From S2P Require Import Array.
From S2P Require Import TreeStack.
From S2P Require Import TreeM.
From S2P Require Import TreeInsert.

(** ** Computations that send *)

(** The result is what comes of it or the status with which it ended early. *)
Definition W (S A : Type) : Type := S -> option (S * (Z + A)).

#[export] Instance W_ret S : MRet (W S) := fun A x s => Some (s, inr x).
#[export] Instance W_bind S : MBind (W S) := fun A B f x s =>
  match x s with
  | Some (s, inr a) => f a s
  | Some (s, inl status) => Some (s, inl status)
  | None => None
  end.

Definition wread {S A} (o : option A) : W S A := fun s => a ← o; Some (s, inr a).
Definition wreturn {S A} (status : Z) : W S A := fun s => Some (s, inl status).
Definition wfault {S A} : W S A := fun _ => None.
Definition wdone {S} : W S unit := mret tt.
Definition wwhen {S} (b : bool) (x : W S unit) : W S unit := if b then x else wdone.

(** The status of a function. *)
Definition status_of {S} (x : W S unit) (s : S) : option (S * Z) :=
  match x s with
  | Some (s, inr tt) => Some (s, LXB_STATUS_OK)
  | Some (s, inl status) => Some (s, status)
  | None => None
  end.

(** ** [ns/res.h], [ns/ns.c] *)

(** [name_lower] of [lxb_ns_res_data] *)
Definition lxb_ns_res_data : list (list Z) :=
  map bytes_of ["#undef"; "#any"; "html"; "math"; "svg"; "xlink"; "xml"; "xmlns"]%string.

Definition lxb_ns_lower_name_by_id (appended : list (list Z)) (ns_id : Z) : option (list Z) :=
  if ns_id >=? LXB_NS__LAST_ENTRY then appended !! Z.to_nat (ns_id - LXB_NS__LAST_ENTRY) else lxb_ns_res_data !! Z.to_nat ns_id.

(** [enum lxb_html_serialize_opt] *)
Definition LXB_HTML_SERIALIZE_OPT_SKIP_WS_NODES : Z := 0x01.
Definition LXB_HTML_SERIALIZE_OPT_SKIP_COMMENT : Z := 0x02.
Definition LXB_HTML_SERIALIZE_OPT_RAW : Z := 0x04.
Definition LXB_HTML_SERIALIZE_OPT_WITHOUT_CLOSING : Z := 0x08.
Definition LXB_HTML_SERIALIZE_OPT_TAG_WITH_NS : Z := 0x10.
Definition LXB_HTML_SERIALIZE_OPT_WITHOUT_TEXT_INDENT : Z := 0x20.
Definition LXB_HTML_SERIALIZE_OPT_FULL_DOCTYPE : Z := 0x40.
Definition opt_has (opt o : Z) : bool := negb (Z.land opt o =? 0).

(** ** Names of elements: [dom/interfaces/element.h], [tag/tag.h] *)

Definition lxb_tag_name_by_id (h : lxb_tag_heap) (id : Z) : option (list Z) := tag_name <$> lxb_tag_data_by_id_default_cb h id.

Definition lxb_dom_element_qualified_name (h : lxb_tag_heap) (n : dom_node) : option (list Z) :=
  match nd_qname n with Some q => Some (qn_str q) | None => lxb_tag_name_by_id h (nd_tag n) end.

Definition lxb_dom_element_local_name (h : lxb_tag_heap) (n : dom_node) : option (list Z) :=
  match nd_qname n with
  | Some q =>
      if qn_local_name_len q =? 0 then None
      else Some (take (Z.to_nat (qn_local_name_len q)) (lxb_dom_qualified_name_local_name q))
  | None => lxb_tag_name_by_id h (nd_tag n)
  end.

Definition lxb_html_serialize_node_is_void (n : dom_node) : bool :=
  if negb (nd_ns n =? LXB_NS_HTML) then false
  else one_of (nd_tag n)
         [LXB_TAG_AREA; LXB_TAG_BASE; LXB_TAG_BASEFONT; LXB_TAG_BGSOUND; LXB_TAG_BR; LXB_TAG_COL; LXB_TAG_EMBED;
          LXB_TAG_FRAME; LXB_TAG_HR; LXB_TAG_IMG; LXB_TAG_INPUT; LXB_TAG_KEYGEN; LXB_TAG_LINK; LXB_TAG_META;
          LXB_TAG_PARAM; LXB_TAG_SOURCE; LXB_TAG_TRACK; LXB_TAG_WBR].

(** The elements whose text is sent as it is. *)
Definition raw_parent (tag : Z) : bool :=
  one_of tag [LXB_TAG_STYLE; LXB_TAG_SCRIPT; LXB_TAG_XMP; LXB_TAG_IFRAME; LXB_TAG_NOEMBED; LXB_TAG_NOFRAMES; LXB_TAG_PLAINTEXT].

Section Serialize.
Context {S : Type} (cb : S -> list Z -> S * Z).
Context (t : html_tree) (is_value : positive -> option (list Z)) (target : positive -> list Z).

(** [lxb_html_serialize_send], [lxb_html_serialize_send_indent] *)
Definition send (data : list Z) : W S unit := fun s =>
  let '(s, status) := cb s data in Some (s, if negb (status =? LXB_STATUS_OK) then inl status else inr tt).

Fixpoint send_times (n : nat) : W S unit :=
  match n with O => wdone | Datatypes.S n => send (bytes_of "  "%string);; send_times n end.
Definition send_indent (count : Z) : W S unit := send_times (Z.to_nat count).

Definition send_str (s : string) : W S unit := send (bytes_of s).
(** [if (pos != data) send(pos, data - pos)], with the bytes between them. *)
Definition flush (pos : list Z) : W S unit := match pos with [] => wdone | _ => send pos end.

Definition read_node (i : positive) : W S dom_node := wread (d_nodes (t_dom t) !! i).

(** ** Escaped text *)

Fixpoint escaping_attribute_loop (pos data : list Z) : W S unit :=
  match data with
  | [] => flush pos
  | c :: data' =>
      if c =? 0x26 then flush pos;; send_str "&amp;";; escaping_attribute_loop [] data'
      else if c =? 0xC2 then
        match data' with
        | [] => flush (pos ++ [c])
        | d :: data'' =>
            if negb (d =? 0xA0) then escaping_attribute_loop (pos ++ [c]) data'
            else flush pos;; send_str "&nbsp;";; escaping_attribute_loop [] data''
        end
      else if c =? 0x22 then flush pos;; send_str "&quot;";; escaping_attribute_loop [] data'
      else escaping_attribute_loop (pos ++ [c]) data'
  end.
Definition lxb_html_serialize_send_escaping_attribute_string (data : list Z) : W S unit := escaping_attribute_loop [] data.

Fixpoint escaping_loop (pos data : list Z) : W S unit :=
  match data with
  | [] => flush pos
  | c :: data' =>
      if c =? 0x26 then flush pos;; send_str "&amp;";; escaping_loop [] data'
      else if c =? 0xC2 then
        match data' with
        | [] => flush (pos ++ [c])
        | d :: data'' =>
            if negb (d =? 0xA0) then escaping_loop (pos ++ [c]) data'
            else flush pos;; send_str "&nbsp;";; escaping_loop [] data''
        end
      else if c =? 0x3C then flush pos;; send_str "&lt;";; escaping_loop [] data'
      else if c =? 0x3E then flush pos;; send_str "&gt;";; escaping_loop [] data'
      else escaping_loop (pos ++ [c]) data'
  end.
Definition lxb_html_serialize_send_escaping_string (data : list Z) : W S unit := escaping_loop [] data.

(** ** The kinds of nodes *)

Definition lxb_html_serialize_attribute_cb (a : dom_attr) (has_raw : bool) : W S unit :=
  (if at_ns a =? LXB_NS__UNDEF then send (local_of a)
   else if at_ns a =? LXB_NS_XML then send_str "xml:";; send (local_of a)
   else if at_ns a =? LXB_NS_XMLNS then
     if (length (local_of a) =? 5)%nat && str_data_cmp (local_of a) (bytes_of "xmlns"%string) then send_str "xmlns"
     else send (take 5 (bytes_of "xmlns:"%string));; send (local_of a)
   else if at_ns a =? LXB_NS_XLINK then send_str "xlink:";; send (local_of a)
   else send (name_of a));;
  match at_value a with
  | None => wdone
  | Some value =>
      send (bytes_of "="%string ++ [0x22]);;
      (if has_raw then send value else lxb_html_serialize_send_escaping_attribute_string value);;
      send [0x22]
  end.

Definition element_name (n : dom_node) : W S (list Z) :=
  let tags := doc_tags (d_owner (t_dom t)) in
  match (if one_of (nd_ns n) [LXB_NS_HTML; LXB_NS_MATH; LXB_NS_SVG] then lxb_dom_element_local_name tags n
         else lxb_dom_element_qualified_name tags n) with
  | None => wreturn LXB_STATUS_ERROR
  | Some name => mret name
  end.

(** [element->is_value] *)
Definition send_is_value (i : positive) (raw : bool) : W S unit :=
  match is_value i with
  | None => wdone
  | Some value =>
      attr ← wread (lxb_dom_element_attr_is_exist (t_dom t) i (bytes_of "is"%string));
      match attr with
      | Some _ => wdone
      | None =>
          send (bytes_of " is="%string ++ [0x22]);;
          (if raw then send value else lxb_html_serialize_send_escaping_attribute_string value);;
          send [0x22]
      end
  end.

(** The attributes of an element are at most those of the document. *)
Fixpoint attributes_loop (fuel : nat) (raw : bool) (attr : option positive) : W S unit :=
  match attr with
  | None => wdone
  | Some i =>
      match fuel with
      | O => wfault
      | Datatypes.S fuel =>
          a ← wread (d_attrs (t_dom t) !! i);
          send_str " ";; lxb_html_serialize_attribute_cb a raw;; attributes_loop fuel raw (at_next a)
      end
  end.
Definition send_attributes (raw : bool) (n : dom_node) : W S unit := attributes_loop (size (d_attrs (t_dom t))) raw (nd_first_attr n).

Definition lxb_html_serialize_element_cb (i : positive) : W S unit :=
  n ← read_node i;
  name ← element_name n;
  send_str "<";; send name;;
  send_is_value i false;;
  send_attributes false n;;
  send_str ">".

Definition lxb_html_serialize_element_closed_cb (i : positive) : W S unit :=
  n ← read_node i;
  name ← element_name n;
  send_str "</";; send name;; send_str ">".

(** Whether the text is sent as it is: [node->parent->tag_id]. *)
Definition is_raw_text (n : dom_node) : W S bool :=
  p ← wread (nd_parent n);
  parent ← read_node p;
  mret (raw_parent (nd_tag parent) || (nd_tag parent =? LXB_TAG_NOSCRIPT) && t_scripting t).

Definition lxb_html_serialize_text_cb (i : positive) : W S unit :=
  n ← read_node i;
  raw ← is_raw_text n;
  if (raw : bool) then send (nd_data n) else lxb_html_serialize_send_escaping_string (nd_data n).

Definition lxb_html_serialize_comment_cb (i : positive) : W S unit :=
  n ← read_node i;
  send_str "<!--";; send (nd_data n);; send_str "-->".

Definition lxb_html_serialize_processing_instruction_cb (i : positive) : W S unit :=
  n ← read_node i;
  send_str "<?";; send (target i);; send_str " ";; send (nd_data n);; send_str ">".

(** A string of the document type that is there and not empty. *)
Definition nonempty (s : option (list Z)) : bool := match s with Some (_ :: _) => true | _ => false end.
Definition doctype_of (i : positive) : doctype_strs := default (mk_doctype_strs None None None None) (t_doctypes t !! i).

Definition lxb_html_serialize_document_type_cb (i : positive) : W S unit :=
  let d := doctype_of i in
  send_str "<!DOCTYPE";; send_str " ";;
  wwhen (nonempty (dt_name d)) (send (default [] (dt_name d)));;
  send_str ">".

Definition lxb_html_serialize_document_type_full_cb (i : positive) : W S unit :=
  let d := doctype_of i in
  send_str "<!DOCTYPE";; send_str " ";;
  wwhen (nonempty (dt_name d)) (send (default [] (dt_name d)));;
  wwhen (nonempty (dt_public d)) (send_str " PUBLIC ";; send [0x22];; send (default [] (dt_public d));; send [0x22]);;
  wwhen (nonempty (dt_system d))
    (wwhen (negb (nonempty (dt_public d))) (send_str " SYSTEM");;
     send (bytes_of " "%string ++ [0x22]);; send (default [] (dt_system d));; send [0x22]);;
  send_str ">".

Definition lxb_html_serialize_document_cb : W S unit := send_str "<#document>".

Definition lxb_html_serialize_cb (i : positive) : W S unit :=
  n ← read_node i;
  if nd_type n =? LXB_DOM_NODE_TYPE_ELEMENT then lxb_html_serialize_element_cb i
  else if nd_type n =? LXB_DOM_NODE_TYPE_TEXT then lxb_html_serialize_text_cb i
  else if nd_type n =? LXB_DOM_NODE_TYPE_COMMENT then lxb_html_serialize_comment_cb i
  else if nd_type n =? LXB_DOM_NODE_TYPE_PROCESSING_INSTRUCTION then lxb_html_serialize_processing_instruction_cb i
  else if nd_type n =? LXB_DOM_NODE_TYPE_DOCUMENT_TYPE then lxb_html_serialize_document_type_cb i
  else if nd_type n =? LXB_DOM_NODE_TYPE_DOCUMENT then lxb_html_serialize_document_cb
  else wreturn LXB_STATUS_ERROR.

(** ** The tree *)

(** The end tag of an element that can have one. *)
Definition close_element (i : positive) : W S unit :=
  n ← read_node i;
  wwhen ((nd_type n =? LXB_DOM_NODE_TYPE_ELEMENT) && negb (lxb_html_serialize_node_is_void n)) (lxb_html_serialize_element_closed_cb i).

(** The inner loop: the node at which it stops. *)
Fixpoint close_loop (fuel : nat) (root node : positive) : W S positive :=
  n ← read_node node;
  if bool_decide (node = root) || bool_decide (is_Some (nd_next n)) then mret node
  else
    match fuel with
    | O => wfault
    | Datatypes.S fuel => close_element node;; p ← wread (nd_parent n); close_loop fuel root p
    end.

(** The contents of a node with the tag [template]: [lxb_html_interface_template]
    of a node that is not a [template] of HTML reads behind the node. *)
Definition template_content (i : positive) (n : dom_node) : W S (option positive) :=
  if is_template (nd_tag n) (nd_ns n) then mret (t_content t !! i) else wfault.

(** [lxb_html_serialize_tree_cb] and [lxb_html_serialize_node_cb], which call each
    other for the contents of templates. *)
Fixpoint serialize_loop (fuel : nat) (root node : positive) : W S unit :=
  match fuel with
  | O => wfault
  | Datatypes.S fuel =>
      n ← read_node node;
      lxb_html_serialize_cb node;;
      (if nd_tag n =? LXB_TAG_TEMPLATE then
         content ← template_content node n;
         match content with
         | Some c => cn ← read_node c; match nd_first cn with Some first => siblings_loop fuel first | None => wdone end
         | None => wdone
         end
       else wdone);;
      match (if negb (lxb_html_serialize_node_is_void n) then nd_first n else None) with
      | Some first => serialize_loop fuel root first
      | None =>
          node ← close_loop (size (d_nodes (t_dom t))) root node;
          n ← read_node node;
          close_element node;;
          if bool_decide (node = root) then wdone
          else next ← wread (nd_next n); serialize_loop fuel root next
      end
  end
with siblings_loop (fuel : nat) (node : positive) : W S unit :=
  match fuel with
  | O => wfault
  | Datatypes.S fuel =>
      n ← read_node node;
      serialize_loop fuel node node;;
      match nd_next n with Some next => siblings_loop fuel next | None => wdone end
  end.

(** Each step goes on to another node, and each node is also a root at most once. *)
Definition walk_fuel : nat := 2 * size (d_nodes (t_dom t)) + 1.

Definition lxb_html_serialize_node_cb (node : positive) : W S unit := serialize_loop walk_fuel node node.

Definition lxb_html_serialize_tree_cb (node : positive) : W S unit :=
  n ← read_node node;
  match nd_first n with Some first => siblings_loop walk_fuel first | None => wdone end.
End Serialize.

(** ** Into a string *)

(** [lxb_html_serialize_str_callback]: [given str data] is whether
    [lexbor_str_append] gets the memory it asks for. *)
Definition lxb_html_serialize_str_callback (given : list Z -> list Z -> bool) (str data : list Z) : list Z * Z :=
  if given str data then (str ++ data, LXB_STATUS_OK) else (str, LXB_STATUS_ERROR_MEMORY_ALLOCATION).

(** [str->data == NULL] is [None]; [init_ok] is whether [lexbor_str_init] gets its
    1024 bytes. *)
Definition into_str (init_ok : bool) (str : option (list Z)) (x : W (list Z) unit) : option (option (list Z) * Z) :=
  match str with
  | None => if init_ok then '(s, status) ← status_of x []; Some (Some s, status) else Some (None, LXB_STATUS_ERROR_MEMORY_ALLOCATION)
  | Some str => '(s, status) ← status_of x str; Some (Some s, status)
  end.

Section Str.
Context (given : list Z -> list Z -> bool) (init_ok : bool).
Context (t : html_tree) (is_value : positive -> option (list Z)) (target : positive -> list Z).

Definition lxb_html_serialize_str (node : positive) (str : option (list Z)) : option (option (list Z) * Z) :=
  into_str init_ok str (lxb_html_serialize_cb (lxb_html_serialize_str_callback given) t is_value target node).

Definition lxb_html_serialize_tree_str (node : positive) (str : option (list Z)) : option (option (list Z) * Z) :=
  into_str init_ok str (lxb_html_serialize_tree_cb (lxb_html_serialize_str_callback given) t is_value target node).
End Str.

(** ** Writing a document with indents: [html/serialize.c]

    The second half of the file: a node on a line of its own, with two spaces for
    each level, texts in quotation marks. *)
Section Pretty.
Context {S : Type} (cb : S -> list Z -> S * Z).
Context (t : html_tree) (is_value : positive -> option (list Z)) (target : positive -> list Z) (ns_appended : list (list Z)).
Context (opt : Z).

#[local] Abbreviation send := (send cb).
#[local] Abbreviation send_str := (send_str cb).
#[local] Abbreviation send_indent := (send_indent cb).
#[local] Abbreviation flush := (flush cb).
#[local] Abbreviation read_node := (read_node t).
#[local] Abbreviation newline := (send [0x0A]).
#[local] Abbreviation quote := (send [0x22]).

Definition is_newline (c : Z) : bool := (c =? 0x0A) || (c =? 0x0D).

(** *** Texts *)

Fixpoint pretty_escaping_loop (indent : Z) (with_indent : bool) (pos data : list Z) : W S unit :=
  match data with
  | [] => flush pos
  | c :: data' =>
      if c =? 0x26 then flush pos;; send_str "&amp;";; pretty_escaping_loop indent with_indent [] data'
      else if c =? 0xC2 then
        match data' with
        | [] => flush (pos ++ [c])
        | d :: data'' =>
            if negb (d =? 0xA0) then pretty_escaping_loop indent with_indent (pos ++ [c]) data'
            else flush pos;; send_str "&nbsp;";; pretty_escaping_loop indent with_indent [] data''
        end
      else if c =? 0x3C then flush pos;; send_str "&lt;";; pretty_escaping_loop indent with_indent [] data'
      else if c =? 0x3E then flush pos;; send_str "&gt;";; pretty_escaping_loop indent with_indent [] data'
      else if is_newline c && with_indent then flush pos;; newline;; send_indent indent;; pretty_escaping_loop indent with_indent [] data'
      else pretty_escaping_loop indent with_indent (pos ++ [c]) data'
  end.

Definition lxb_html_serialize_pretty_send_escaping_string (data : list Z) (indent : Z) (with_indent : bool) : W S unit :=
  send_indent indent;; quote;; pretty_escaping_loop indent with_indent [] data;; quote.

(** The loop over lines that [pretty_send_string] and [pretty_comment_cb] have. *)
Fixpoint lines_loop (indent : Z) (pos data : list Z) : W S unit :=
  match data with
  | [] => flush pos
  | c :: data' =>
      if is_newline c then flush pos;; send [c];; send_indent indent;; lines_loop indent [] data'
      else lines_loop indent (pos ++ [c]) data'
  end.

Definition lxb_html_serialize_pretty_send_string (data : list Z) (indent : Z) (with_indent : bool) : W S unit :=
  send_indent indent;; quote;;
  (if with_indent then lines_loop indent [] data else send data);;
  quote.

Definition with_indent : bool := negb (opt_has opt LXB_HTML_SERIALIZE_OPT_WITHOUT_TEXT_INDENT).

(** With [SKIP_WS_NODES] the function returns in every case, whatever its loop over
    the white space found. *)
Definition lxb_html_serialize_pretty_text_cb (i : positive) (indent : Z) : W S unit :=
  n ← read_node i;
  if opt_has opt LXB_HTML_SERIALIZE_OPT_SKIP_WS_NODES then wdone
  else
    raw ← is_raw_text t n;
    (if raw || opt_has opt LXB_HTML_SERIALIZE_OPT_RAW then lxb_html_serialize_pretty_send_string (nd_data n) indent with_indent
     else lxb_html_serialize_pretty_send_escaping_string (nd_data n) indent with_indent);;
    newline.

Definition lxb_html_serialize_pretty_comment_cb (i : positive) (indent : Z) (with_indent : bool) : W S unit :=
  n ← read_node i;
  send_indent indent;; send_str "<!-- ";;
  (if with_indent then lines_loop indent [] (nd_data n) else send (nd_data n));;
  send_str " -->".

(** *** The kinds of nodes *)

Definition lxb_html_serialize_pretty_element_cb (i : positive) : W S unit :=
  n ← read_node i;
  name ← element_name t n;
  send_str "<";;
  wwhen (negb (nd_ns n =? LXB_NS_HTML) && opt_has opt LXB_HTML_SERIALIZE_OPT_TAG_WITH_NS)
    match lxb_ns_lower_name_by_id ns_appended (nd_ns n) with
    | None => wreturn LXB_STATUS_ERROR
    | Some ns_name => send ns_name;; send_str ":"
    end;;
  send name;;
  send_is_value cb t is_value i (opt_has opt LXB_HTML_SERIALIZE_OPT_RAW);;
  send_attributes cb t (opt_has opt LXB_HTML_SERIALIZE_OPT_RAW) n;;
  send_str ">".

Definition lxb_html_serialize_pretty_document_cb : W S unit := send_str "#document".

Definition lxb_html_serialize_pretty_cb (i : positive) (indent : Z) : W S unit :=
  n ← read_node i;
  if nd_type n =? LXB_DOM_NODE_TYPE_ELEMENT then send_indent indent;; lxb_html_serialize_pretty_element_cb i;; newline
  else if nd_type n =? LXB_DOM_NODE_TYPE_TEXT then lxb_html_serialize_pretty_text_cb i indent
  else if nd_type n =? LXB_DOM_NODE_TYPE_COMMENT then
    if opt_has opt LXB_HTML_SERIALIZE_OPT_SKIP_COMMENT then wdone
    else lxb_html_serialize_pretty_comment_cb i indent with_indent;; newline
  else if nd_type n =? LXB_DOM_NODE_TYPE_PROCESSING_INSTRUCTION then
    send_indent indent;; lxb_html_serialize_processing_instruction_cb cb t target i;; newline
  else if nd_type n =? LXB_DOM_NODE_TYPE_DOCUMENT_TYPE then
    send_indent indent;;
    (if opt_has opt LXB_HTML_SERIALIZE_OPT_FULL_DOCTYPE then lxb_html_serialize_document_type_full_cb cb t i
     else lxb_html_serialize_document_type_cb cb t i);;
    newline
  else if nd_type n =? LXB_DOM_NODE_TYPE_DOCUMENT then send_indent indent;; lxb_html_serialize_pretty_document_cb;; newline
  else wreturn LXB_STATUS_ERROR.

(** *** The tree *)

Definition pretty_close_element (deep : Z) (i : positive) : W S unit :=
  n ← read_node i;
  wwhen ((nd_type n =? LXB_DOM_NODE_TYPE_ELEMENT) && negb (lxb_html_serialize_node_is_void n) &&
         negb (opt_has opt LXB_HTML_SERIALIZE_OPT_WITHOUT_CLOSING))
    (send_indent deep;; lxb_html_serialize_element_closed_cb cb t i;; newline).

(** The node and the depth at which the inner loop stops. *)
Fixpoint pretty_close_loop (fuel : nat) (root : positive) (deep : Z) (node : positive) : W S (Z * positive) :=
  n ← read_node node;
  if bool_decide (node = root) || bool_decide (is_Some (nd_next n)) then mret (deep, node)
  else
    match fuel with
    | O => wfault
    | Datatypes.S fuel => pretty_close_element deep node;; p ← wread (nd_parent n); pretty_close_loop fuel root (size_wrap (deep - 1)) p
    end.

(** [lxb_html_serialize_pretty_node_cb] and [lxb_html_serialize_pretty_tree_cb] *)
Fixpoint pretty_loop (fuel : nat) (root : positive) (deep : Z) (node : positive) : W S unit :=
  match fuel with
  | O => wfault
  | Datatypes.S fuel =>
      n ← read_node node;
      lxb_html_serialize_pretty_cb node deep;;
      (if lxb_html_tree_node_is n LXB_TAG_TEMPLATE then
         match t_content t !! node with
         | Some c =>
             cn ← read_node c;
             match nd_first cn with
             | Some first =>
                 send_indent (size_wrap (deep + 1));; send_str "#document-fragment";; newline;;
                 pretty_siblings_loop fuel (size_wrap (deep + 2)) first
             | None => wdone
             end
         | None => wdone
         end
       else wdone);;
      match (if negb (lxb_html_serialize_node_is_void n) then nd_first n else None) with
      | Some first => pretty_loop fuel root (size_wrap (deep + 1)) first
      | None =>
          '(deep, node) ← pretty_close_loop (size (d_nodes (t_dom t))) root deep node;
          n ← read_node node;
          pretty_close_element deep node;;
          if bool_decide (node = root) then wdone
          else next ← wread (nd_next n); pretty_loop fuel root deep next
      end
  end
with pretty_siblings_loop (fuel : nat) (indent : Z) (node : positive) : W S unit :=
  match fuel with
  | O => wfault
  | Datatypes.S fuel =>
      n ← read_node node;
      pretty_loop fuel node indent node;;
      match nd_next n with Some next => pretty_siblings_loop fuel indent next | None => wdone end
  end.

Definition lxb_html_serialize_pretty_node_cb (node : positive) (deep : Z) : W S unit := pretty_loop (walk_fuel t) node deep node.

Definition lxb_html_serialize_pretty_tree_cb (node : positive) (indent : Z) : W S unit :=
  n ← read_node node;
  match nd_first n with Some first => pretty_siblings_loop (walk_fuel t) indent first | None => wdone end.
End Pretty.

(** *** Into a string *)

Section Str.
Context (given : list Z -> list Z -> bool) (init_ok : bool).
Context (t : html_tree) (is_value : positive -> option (list Z)) (target : positive -> list Z) (ns_appended : list (list Z)) (opt : Z).

Definition lxb_html_serialize_pretty_str (node : positive) (indent : Z) (str : option (list Z)) : option (option (list Z) * Z) :=
  into_str init_ok str (lxb_html_serialize_pretty_cb (lxb_html_serialize_str_callback given) t is_value target ns_appended opt node indent).

Definition lxb_html_serialize_pretty_tree_str (node : positive) (indent : Z) (str : option (list Z)) : option (option (list Z) * Z) :=
  into_str init_ok str (lxb_html_serialize_pretty_tree_cb (lxb_html_serialize_str_callback given) t is_value target ns_appended opt node indent).
End Str.
