(* ===== verification/SerializeSpec.v ===== *)
(** * Serialising a tree is a recursion over it

    The loop of [lxb_html_serialize_node_cb], which goes down to the first child and
    up again over the pointers between nodes, sends for a tree that a heap holds what
    a recursion over the tree sends, whatever the callback answers. *)
From Stdlib Require Import String.
From S2P Require Import Prelude.
From S2P Require Import Str.
From S2P Require Import Tag.
From S2P Require Import TagHeap.
From S2P Require Import TkzBase.
From S2P Require Import TokenParse.
From S2P Require Import DomNode.
From S2P Require Import DomTree.
From S2P Require Import DomLink.
From S2P Require Import DomWalk.
From S2P Require Import DomAttr.
From S2P Require Import TagCat.
From S2P Require Import TagConst.
From S2P Require Import Array.
From S2P Require Import TreeStack.
From S2P Require Import TreeM.
From S2P Require Import TreeInsert.
From S2P Require Import Serialize.

(** ** The same computation *)

Record same {S A} (x y : W S A) : Prop := same_intro { same_at : forall s, x s = y s }.
Arguments same_at {S A x y}.
Declare Scope writer_scope.
Open Scope writer_scope.
Infix "≈" := same (at level 70) : writer_scope.

#[export] Instance same_equivalence S A : Equivalence (@same S A).
Proof. split; [by intros x | intros x y [E]; by split | intros x y z [E1] [E2]; split; intros s; by rewrite E1]. Qed.

#[export] Instance bind_same S A B : Proper (pointwise_relation A same ==> same ==> same) (@mbind (W S) _ A B).
Proof. intros f g Ef x y [Ex]. split. intros s. unfold mbind, W_bind. rewrite Ex. destruct (y s) as [[s' [st|a]]|]; [done | apply Ef | done]. Qed.

Lemma seq_same {S A B} (x : W S A) (y y' : W S B) : y ≈ y' -> (x;; y) ≈ (x;; y').
Proof. intros [E]. split. intros s. unfold mbind, W_bind. destruct (x s) as [[s' [st|a]]|]; [done | apply E | done]. Qed.

Lemma bind_assoc {S A B C} (x : W S A) (f : A -> W S B) (g : B -> W S C) : (y ← (a ← x; f a); g y) ≈ (a ← x; b ← f a; g b).
Proof. split. intros s. unfold mbind, W_bind. by destruct (x s) as [[s' [st|a]]|]. Qed.

Lemma bind_ret {S A B} (a : A) (f : A -> W S B) : (b ← mret a; f b) ≈ f a.
Proof. done. Qed.

Lemma done_r {S} (x : W S unit) : (x;; wdone) ≈ x.
Proof. split. intros s. unfold mbind, W_bind. by destruct (x s) as [[s' [st|[]]]|]. Qed.

Lemma bind_read {S A B} (o : option A) a (f : A -> W S B) : o = Some a -> (b ← wread o; f b) ≈ f a.
Proof. by intros ->. Qed.

Section Tree.
Context {S : Type} (cb : S -> list Z -> S * Z).
Context (t : html_tree) (is_value : positive -> option (list Z)) (target : positive -> list Z).

#[local] Abbreviation h := (d_nodes (t_dom t)).
#[local] Abbreviation send_node := (lxb_html_serialize_cb cb t is_value target).
#[local] Abbreviation close := (close_element cb t).
#[local] Abbreviation loop := (serialize_loop cb t is_value target).
#[local] Abbreviation siblings := (siblings_loop cb t is_value target).

(** ** The recursion *)

Definition in_order {A} (f : A -> W S unit) : list A -> W S unit := fold_right (fun a x => f a;; x) wdone.

(** A node, its children unless it is an element that has none, and its end. *)
Fixpoint send_tree (tr : tree) : W S unit :=
  match tr with
  | Node i cs =>
      n ← read_node t i; send_node i;; wwhen (negb (lxb_html_serialize_node_is_void n)) (in_order send_tree cs);; close i
  end.
Definition send_forest : list tree -> W S unit := in_order send_tree.

(** ** Climbing *)

Section Root.
Context (root : positive).
#[local] Abbreviation climb_out := (close_loop cb t).

Lemma close_more k : forall i x m, climb h root k i = Some x -> (k <= m)%nat -> climb_out m root i ≈ climb_out k root i.
Proof.
  induction k as [|k IH]; intros i x m Hc Hm; split; intros s.
  - destruct m as [|m]; [done|]. cbn [climb close_loop] in *. unfold read_node. case_bool_decide; cbn [orb].
    + destruct (h !! i); done.
    + destruct (h !! i) as [n|]; [|done]. cbn [mbind option_bind] in *. destruct (nd_next n) as [y|] eqn:En; [|done].
      unfold mbind, W_bind, wread. cbn [mbind option_bind]. rewrite En. by rewrite (bool_decide_true (is_Some (Some y))) by done.
  - destruct m as [|m]; [lia|]. cbn [climb close_loop] in *. unfold mbind, W_bind, read_node, wread. destruct (h !! i) as [n|]; cbn [mbind option_bind] in *; [|done].
    destruct (bool_decide (i = root)); cbn [orb]; [done|]. destruct (nd_next n) as [y|]; [done|].
    rewrite bool_decide_false by (by intros []). destruct (nd_parent n) as [p|]; cbn [mbind option_bind] in *; [|done].
    destruct (close i s) as [[s' [st|[]]]|]; [done | | done]. assert (k <= m)%nat as Hkm by lia. apply (same_at (IH _ _ _ Hc Hkm)).
Qed.

(** What the loop does after a subtree. *)
Definition finish (k fuel : nat) (i : positive) : W S unit :=
  i ← climb_out k root i; n ← read_node t i; close i;; if bool_decide (i = root) then wdone else next ← wread (nd_next n); loop fuel root next.

Lemma finish_more k fuel i x m : climb h root k i = Some x -> (k <= m)%nat -> finish m fuel i ≈ finish k fuel i.
Proof. intros Hc Hm. unfold finish. by rewrite (close_more _ _ _ _ Hc Hm). Qed.

Lemma finish_last k fuel i n p : i <> root -> h !! i = Some n -> nd_next n = None -> nd_parent n = Some p ->
  finish (Datatypes.S k) fuel i ≈ (close i;; finish k fuel p).
Proof.
  intros Hi Hn Hne Hp. split. intros s. unfold finish. cbn [close_loop]. unfold mbind, W_bind, read_node, wread. rewrite Hn. cbn [mbind option_bind].
  rewrite bool_decide_false, Hne, Hp by done. cbn [orb]. rewrite bool_decide_false by (by intros []). cbn [mbind option_bind].
  by destruct (close i s) as [[s' [st|[]]]|].
Qed.

Lemma finish_next k fuel i n y : i <> root -> h !! i = Some n -> nd_next n = Some y -> finish k fuel i ≈ (close i;; loop fuel root y).
Proof.
  intros Hi Hn Hne. split. intros s. unfold finish. assert (climb_out k root i s = Some (s, inr i)) as E.
  { destruct k; cbn [close_loop]; unfold mbind, W_bind, read_node, wread; rewrite Hn; cbn [mbind option_bind]; rewrite bool_decide_false, Hne by done;
      by rewrite (bool_decide_true (is_Some (Some y))) by done. }
  unfold mbind, W_bind, read_node, wread. rewrite E, Hn. cbn [mbind option_bind]. rewrite bool_decide_false by done. by rewrite Hne.
Qed.

(** ** The loop *)

Lemma loop_step fuel i n : h !! i = Some n -> nd_tag n <> LXB_TAG_TEMPLATE ->
  loop (Datatypes.S fuel) root i ≈
  (send_node i;; match (if negb (lxb_html_serialize_node_is_void n) then nd_first n else None) with
                 | Some first => loop fuel root first
                 | None => finish (size h) fuel i
                 end).
Proof.
  intros Hn Ht. split. intros s. cbn [serialize_loop]. unfold mbind at 1, W_bind at 1, read_node at 1, wread at 1. rewrite Hn. cbn [mbind option_bind].
  rewrite (proj2 (Z.eqb_neq _ _) Ht). unfold mbind, W_bind. destruct (send_node i s) as [[s' [st|[]]]|]; [done | | done]. reflexivity.
Qed.

(** The node with its children and its end, and then the rest. *)
Definition node_and (i : positive) (n : dom_node) (cs : list tree) (rest : W S unit) : W S unit :=
  send_node i;; wwhen (negb (lxb_html_serialize_node_is_void n)) (send_forest cs);; close i;; rest.

Lemma send_forest_cons i n cs f (rest : W S unit) : h !! i = Some n ->
  (send_forest (Node i cs :: f);; rest) ≈ node_and i n cs (send_forest f;; rest).
Proof.
  intros Hn. unfold send_forest, in_order. cbn [fold_right]. rewrite bind_assoc. cbn [send_tree]. unfold node_and, send_forest, in_order.
  split. intros s. unfold mbind at 1 2, W_bind at 1 2, read_node at 1, wread at 1. rewrite Hn. cbn [mbind option_bind].
  unfold mbind, W_bind. destruct (send_node i s) as [[s1 [st|[]]]|]; [done| |done].
  destruct (wwhen _ _ s1) as [[s2 [st|[]]]|]; [done| |done]. by destruct (close i s2) as [[s3 [st|[]]]|].
Qed.

Definition no_templates (f : list tree) : Prop := forall i n, i ∈ forest_ids f -> h !! i = Some n -> nd_tag n <> LXB_TAG_TEMPLATE.

Lemma loop_forest pp prev f next : forest_at h pp prev f next ->
  forall p anc x fuel, pp = Some p -> next = None -> f <> [] -> no_templates f -> root ∉ forest_ids f ->
  NoDup (anc ++ forest_ids f) -> (forall k, k ∈ anc -> is_Some (h !! k)) ->
  climb h root (length anc) p = Some x -> (length (forest_ids f) <= fuel)%nat ->
  exists fuel', (fuel - length (forest_ids f) <= fuel')%nat /\
    loop fuel root (default p (first_id f None)) ≈ (send_forest f;; finish (length anc) fuel' p).
Proof.
  induction 1 as [|pp prev i n cs f next Hn Hp Hpr Hne Hfi Hla Hcs IHcs Hf IHf];
    intros q anc x fuel -> -> Hnil Htp Hroot Hnd Hanc Hclimb Hfuel; [done|].
  clear Hnil. rewrite forest_ids_cons in *. cbn [length] in *. destruct fuel as [|fuel]; [lia|]. cbn [first_id tree_id default id].
  assert (Hi : i <> root) by set_solver. assert (Hti : nd_tag n <> LXB_TAG_TEMPLATE) by (eapply Htp; [by left | done]).
  assert (Hcf : no_templates cs /\ no_templates f) by (split; intros k m Hk; apply Htp; rewrite forest_ids_cons; set_solver). destruct Hcf as [Htc Htf].
  destruct (NoDup_below _ _ _ _ Hnd) as [Hndi Hndf].
  assert (Hanci : forall k, k ∈ i :: anc -> is_Some (h !! k)) by (intros k [->|Hk]%elem_of_cons; [by eexists | by apply Hanc]).
  assert (Hsize : (Datatypes.S (length anc) <= size h)%nat).
  { change (length (i :: anc) <= size h)%nat. apply keys_size; [|done]. by apply NoDup_app in Hndi as [? _]. }
  assert (Hup : climb h root (Datatypes.S (length anc)) i = Some (match f with [] => x | _ => i end)).
  { destruct f as [|t' f]; [by eapply climb_up | by eapply climb_stay]. }
  rewrite length_app in Hfuel |- *.
  (* the end of [i], and what follows *)
  assert (Hend : forall fuel1, (fuel - length (forest_ids cs) <= fuel1)%nat -> exists fuel', (fuel - length (forest_ids cs) - length (forest_ids f) <= fuel')%nat /\
    finish (Datatypes.S (length anc)) fuel1 i ≈ (close i;; send_forest f;; finish (length anc) fuel' q)).
  { intros fuel1 Hf1. destruct f as [|t' f].
    - exists fuel1. split; [lia|]. rewrite (finish_last _ _ _ _ _ Hi Hn Hne Hp). done.
    - destruct (IHf q anc x fuel1) as (fuel' & Hle & E); try done; [set_solver | lia |]. exists fuel'. split; [lia|].
      rewrite (finish_next _ _ _ _ _ Hi Hn Hne). apply seq_same. exact E. }
  destruct (negb (lxb_html_serialize_node_is_void n)) eqn:Hv; [destruct cs as [|c cs]|].
  1, 3: destruct (Hend fuel) as (fuel' & Hle & E); [lia|]; exists fuel'; (split; [lia|]);
    rewrite (send_forest_cons _ _ _ _ _ Hn), (loop_step _ _ _ Hn Hti); unfold node_and; rewrite Hv; apply seq_same;
    rewrite ?Hfi; cbn [first_id]; rewrite (finish_more _ _ _ _ _ Hup Hsize), E; done.
  destruct (IHcs i (i :: anc) _ fuel eq_refl eq_refl ltac:(done) Htc ltac:(set_solver) Hndi Hanci Hup ltac:(lia)) as (fuel1 & Hf1 & E1).
  destruct (Hend fuel1 Hf1) as (fuel' & Hle & E). exists fuel'. split; [lia|].
  rewrite (send_forest_cons _ _ _ _ _ Hn), (loop_step _ _ _ Hn Hti). unfold node_and. rewrite Hv, Hfi. cbn [first_id default id] in E1 |- *.
  apply seq_same. rewrite E1. apply seq_same. cbn [length]. exact E.
Qed.

(** At the root it is over. *)
Lemma finish_root k fuel n : h !! root = Some n -> finish k fuel root ≈ close root.
Proof.
  intros Hn. split. intros s. unfold finish. assert (climb_out k root root s = Some (s, inr root)) as E.
  { destruct k; cbn [close_loop]; unfold mbind, W_bind, read_node, wread; rewrite Hn; cbn [mbind option_bind]; by rewrite bool_decide_true by done. }
  unfold mbind, W_bind, read_node, wread. rewrite E, Hn. cbn [mbind option_bind]. rewrite bool_decide_true by done.
  by destruct (close root s) as [[s' [st|[]]]|].
Qed.
End Root.

Lemma loop_root p prev r cs next fuel : forest_at h p prev [Node r cs] next -> NoDup (tree_ids (Node r cs)) -> no_templates [Node r cs] ->
  (length (tree_ids (Node r cs)) <= fuel)%nat -> loop fuel r r ≈ send_tree (Node r cs).
Proof.
  intros Ht Hnd Htp Hfuel. apply forest_cons_inv in Ht as (n & Hn & _ & _ & _ & Hfi & _ & Hcs & _).
  change (tree_ids (Node r cs)) with (r :: forest_ids cs) in Hnd, Hfuel. cbn [length] in Hfuel. destruct fuel as [|fuel]; [lia|].
  assert (nd_tag n <> LXB_TAG_TEMPLATE) as Htn by (eapply Htp; [by left | done]).
  assert (no_templates cs) as Htc by (intros k m Hk; apply Htp; rewrite forest_ids_cons; set_solver).
  rewrite (loop_step _ _ _ _ Hn Htn). pose proof (send_forest_cons r n cs [] wdone Hn) as E. unfold send_forest at 1, in_order in E. cbn [fold_right] in E.
  rewrite !done_r in E. rewrite E. unfold node_and. apply seq_same. rewrite Hfi.
  assert (Hlast : (close r;; send_forest [];; wdone) ≈ close r) by (etransitivity; [apply seq_same, (done_r (send_forest [])) | exact (done_r (close r))]).
  assert (Hleaf : finish r (size h) fuel r ≈ (close r;; send_forest [];; wdone)) by (by rewrite (finish_root _ _ _ _ Hn), Hlast).
  destruct (negb _); cbn [wwhen]; [|exact Hleaf]. destruct cs as [|c cs]; [exact Hleaf|]. cbn [first_id].
  destruct (loop_forest r (Some r) None (c :: cs) None Hcs r [r] r fuel) as (fuel' & _ & E'); try done.
  - by apply NoDup_cons in Hnd as [? _].
  - intros k ->%list_elem_of_singleton. by eexists.
  - cbn [climb length]. by rewrite bool_decide_true.
  - lia.
  - cbn [first_id default id] in E'. rewrite E'. apply seq_same. by rewrite (finish_root _ _ _ _ Hn), Hlast.
Qed.

Lemma siblings_forest pp prev f : forest_at h pp prev f None -> f <> [] -> no_templates f -> NoDup (forest_ids f) ->
  forall fuel, (length (forest_ids f) < fuel)%nat -> siblings fuel (default 1%positive (first_id f None)) ≈ send_forest f.
Proof.
  revert pp prev. induction f as [|[i cs] f IH]; intros pp prev Hf Hne Htp Hnd fuel Hfuel; [done|]. destruct fuel as [|fuel]; [lia|].
  pose proof (forest_cons_inv _ _ _ _ _ _ _ Hf) as (n & Hn & Hp & Hpr & Hnx & Hfi & Hla & Hcs & Hrest).
  rewrite forest_ids_cons in Hnd, Hfuel. cbn [length] in Hfuel. rewrite length_app in Hfuel. cbn [first_id tree_id default id].
  change (i :: forest_ids cs ++ forest_ids f) with ((i :: forest_ids cs) ++ forest_ids f) in Hnd. apply NoDup_app in Hnd as (Hnd1 & _ & Hnd2).
  assert (Hone : loop fuel i i ≈ send_tree (Node i cs)).
  { apply (loop_root pp prev i cs (first_id f None)); [by econstructor; try done; constructor | exact Hnd1 | | cbn; unfold forest_ids in *; lia].
    intros k m Hk. apply Htp. rewrite forest_ids_cons in *. cbn [forest_ids flat_map] in Hk. rewrite app_nil_r in Hk. set_solver. }
  cbn [siblings_loop]. split. intros s. unfold mbind at 1, W_bind at 1, read_node, wread. rewrite Hn. cbn [mbind option_bind].
  unfold send_forest, in_order. cbn [fold_right]. unfold mbind, W_bind. rewrite (same_at Hone).
  destruct (send_tree (Node i cs) s) as [[s1 [st|[]]]|]; [done| |done]. rewrite Hnx. destruct f as [|t' f]; [done|].
  cbn [first_id]. apply (same_at (IH _ _ Hrest ltac:(done) (fun k m Hk => Htp k m ltac:(rewrite forest_ids_cons; set_solver)) Hnd2 fuel ltac:(lia))).
Qed.
End Tree.

(** The two functions on a tree of the heap. *)
Lemma serialize_same {S} (cb : S -> list Z -> S * Z) t is_value target p prev r cs next :
  forest_at (d_nodes (t_dom t)) p prev [Node r cs] next -> NoDup (tree_ids (Node r cs)) -> no_templates t [Node r cs] ->
  lxb_html_serialize_node_cb cb t is_value target r ≈ send_tree cb t is_value target (Node r cs) /\
  lxb_html_serialize_tree_cb cb t is_value target r ≈ send_forest cb t is_value target cs.
Proof.
  intros Hf Hnd Htp. pose proof (forest_cons_inv _ _ _ _ _ _ _ Hf) as (n & Hn & _ & _ & _ & Hfi & _ & Hcs & _).
  assert (Hsize : (length (tree_ids (Node r cs)) <= size (d_nodes (t_dom t)))%nat).
  { apply keys_size; [done|]. intros k Hk. apply (forest_alive _ _ _ _ _ Hf). unfold forest_ids. cbn [flat_map]. by rewrite app_nil_r. }
  split.
  - apply (loop_root cb t is_value target p prev r cs next (walk_fuel t) Hf Hnd Htp). unfold walk_fuel. lia.
  - unfold lxb_html_serialize_tree_cb. unfold read_node. rewrite (bind_read _ n) by done. rewrite Hfi. destruct cs as [|c cs]; [done|]. cbn [first_id].
    change (tree_ids (Node r (c :: cs))) with (r :: forest_ids (c :: cs)) in Hnd, Hsize. cbn [length] in Hsize. apply NoDup_cons in Hnd as [_ Hnd].
    apply (siblings_forest cb t is_value target _ _ _ Hcs); [done | | done | unfold walk_fuel; lia].
    intros k m Hk. apply Htp. rewrite forest_ids_cons. set_solver.
Qed.

(** ** The property *)

(** C6: serialising is a recursion over the tree, it ends, and it reads no bad
    pointer.  For a tree that the heap holds at any place, without [template]
    elements, and for every callback, also one that refuses a piece:
    [lxb_html_serialize_node_cb] sends the node, then its children in order unless
    it is an element that cannot have any, then its end tag, and stops with the
    status of the first piece that is refused; [lxb_html_serialize_tree_cb] does so
    for the children of the node. *)
Theorem serialize_recursive {S} (cb : S -> list Z -> S * Z) t is_value target p prev r cs next s :
  forest_at (d_nodes (t_dom t)) p prev [Node r cs] next -> NoDup (tree_ids (Node r cs)) -> no_templates t [Node r cs] ->
  status_of (lxb_html_serialize_node_cb cb t is_value target r) s = status_of (send_tree cb t is_value target (Node r cs)) s /\
  status_of (lxb_html_serialize_tree_cb cb t is_value target r) s = status_of (send_forest cb t is_value target cs) s.
Proof.
  intros Hf Hnd Htp. destruct (serialize_same cb t is_value target p prev r cs next Hf Hnd Htp) as [E1 E2]. unfold status_of.
  by rewrite (same_at E1), (same_at E2).
Qed.

(** A [div] of a text [a<b], a [br] with a child that is not sent, and a comment [k]. *)
Definition shaped (parent prev next first last : option positive) (type tag : Z) (data : list Z) : dom_node :=
  mk_node next prev parent first last LXB_NS_HTML tag type data None None None None None.
Definition example_nodes : gmap positive dom_node := list_to_map [
  (1%positive, shaped None None None (Some 2) (Some 5) LXB_DOM_NODE_TYPE_ELEMENT LXB_TAG_DIV []);
  (2%positive, shaped (Some 1) None (Some 3) None None LXB_DOM_NODE_TYPE_TEXT LXB_TAG__TEXT [0x61; 0x3C; 0x62]%Z);
  (3%positive, shaped (Some 1) (Some 2) (Some 5) (Some 4) (Some 4) LXB_DOM_NODE_TYPE_ELEMENT LXB_TAG_BR []);
  (4%positive, shaped (Some 3) None None None None LXB_DOM_NODE_TYPE_TEXT LXB_TAG__TEXT [0x63]%Z);
  (5%positive, shaped (Some 1) (Some 3) None None None LXB_DOM_NODE_TYPE_COMMENT LXB_TAG__EM_COMMENT [0x6B]%Z)]%positive.
Definition example_tree : html_tree :=
  lxb_html_tree_init (mk_dom example_nodes ∅ (mk_owner true false (mk_tag_heap [] (lexbor_shbst_init 1)))) 1.

(** A callback that collects what it is given, up to [room] bytes. *)
Definition collect (room : Z) (s data : list Z) : list Z * Z :=
  if Z.of_nat (length (s ++ data)) <=? room then (s ++ data, LXB_STATUS_OK) else (s, LXB_STATUS_ERROR).

Lemma serialize_recursive_witness :
  status_of (lxb_html_serialize_node_cb (collect 100) example_tree (fun _ => None) (fun _ => []) 1) [] =
    Some (bytes_of "<div>a&lt;b<br><!--k--></div>"%string, LXB_STATUS_OK) /\
  status_of (lxb_html_serialize_tree_cb (collect 9) example_tree (fun _ => None) (fun _ => []) 1) [] =
    Some (bytes_of "a&lt;b<br"%string, LXB_STATUS_ERROR).
Proof.
  assert (Hf : forest_at example_nodes None None [Node 1 [Node 2 []; Node 3 [Node 4 []]; Node 5 []]] None) by laid_out.
  assert (Ht : no_templates example_tree [Node 1 [Node 2 []; Node 3 [Node 4 []]; Node 5 []]]).
  { intros i n Hi Hn. assert (map_Forall (fun _ n => nd_tag n <> LXB_TAG_TEMPLATE) example_nodes) as Ha
      by (apply (bool_decide_unpack _); vm_compute; exact I). exact (Ha i n Hn). }
  assert (Hnd : NoDup (tree_ids (Node 1 [Node 2 []; Node 3 [Node 4 []]; Node 5 []]))) by (apply (bool_decide_unpack _); vm_compute; exact I).
  destruct (serialize_recursive (collect 100) example_tree (fun _ => None) (fun _ => []) _ _ _ _ _ [] Hf Hnd Ht) as [-> _].
  destruct (serialize_recursive (collect 9) example_tree (fun _ => None) (fun _ => []) _ _ _ _ _ [] Hf Hnd Ht) as [_ ->].
  split; vm_compute; reflexivity.
Defined.
