(* ===== verification/SerializeText.v ===== *)
(** * Escaped texts, and what the parser makes of them

    The escaping loops of [html/serialize.c] compute a function on bytes, and the
    decoding of character references takes it back, in a text and in the value of an
    attribute. *)
From Stdlib Require Import String.
From S2P Require Import Prelude.
From S2P Require Import Str.
From S2P Require Import TkzBase.
From S2P Require Import Sbst.
From S2P Require Import EntityRes.
From S2P Require Import ParserChar.
From S2P Require Import ParserCharSpec.
From S2P Require Import ParserCharName.
From S2P Require Import ParserCharProof.
From S2P Require Import TokenParse.
From S2P Require Import Serialize.

(** ** Into a string that gets its memory *)

Definition str_cb : list Z -> list Z -> list Z * Z := lxb_html_serialize_str_callback (fun _ _ => true).

(** The computation appends [l]. *)
Definition emits (x : W (list Z) unit) (l : list Z) : Prop := forall s, x s = Some (s ++ l, inr tt).

Lemma emits_send l : emits (send str_cb l) l.
Proof. done. Qed.
Lemma emits_seq x y l l' : emits x l -> emits y l' -> emits (x;; y) (l ++ l').
Proof. intros Hx Hy s. unfold mbind, W_bind. by rewrite Hx, Hy, <- app_assoc. Qed.
Lemma emits_done : emits wdone [].
Proof. intros s. by rewrite app_nil_r. Qed.
Lemma emits_flush l : emits (flush str_cb l) l.
Proof. destruct l; [apply emits_done | apply emits_send]. Qed.
Lemma emits_str s : emits (send_str str_cb s) (bytes_of s).
Proof. done. Qed.
Lemma emits_eq x l l' : emits x l -> l = l' -> emits x l'.
Proof. by intros Hx <-. Qed.

(** ** What the loops write *)

(** One step of the text: what is written for its first bytes, and the rest; [more]
    are further bytes with references. *)
Definition escape_step (more : Z -> option (list Z)) (c : Z) (data : list Z) : list Z * list Z :=
  if c =? 0x26 then (bytes_of "&amp;"%string, data)
  else if c =? 0xC2 then
    match data with
    | d :: data' => if d =? 0xA0 then (bytes_of "&nbsp;"%string, data') else ([c], data)
    | [] => ([c], [])
    end
  else match more c with Some out => (out, data) | None => ([c], data) end.

Fixpoint escape_loop (more : Z -> option (list Z)) (fuel : nat) (data : list Z) : list Z :=
  match fuel, data with
  | S fuel, c :: data => let '(out, rest) := escape_step more c data in out ++ escape_loop more fuel rest
  | _, _ => []
  end.
Definition escape (more : Z -> option (list Z)) (data : list Z) : list Z := escape_loop more (length data) data.

Definition text_more (c : Z) : option (list Z) :=
  if c =? 0x3C then Some (bytes_of "&lt;"%string) else if c =? 0x3E then Some (bytes_of "&gt;"%string) else None.
Definition value_more (c : Z) : option (list Z) := if c =? 0x22 then Some (bytes_of "&quot;"%string) else None.

Definition escape_text : list Z -> list Z := escape text_more.
Definition escape_value : list Z -> list Z := escape value_more.

Lemma escape_step_length more c data : (length (snd (escape_step more c data)) <= length data)%nat.
Proof. unfold escape_step. repeat case_match; cbn; lia. Qed.

Lemma escape_fuel more k : forall n l, (length l <= k)%nat -> (length l <= n)%nat -> escape_loop more n l = escape_loop more k l.
Proof.
  induction k as [|k IH]; intros n l Hk Hn; [destruct l; [by destruct n | cbn in Hk; lia]|].
  destruct l as [|c l]; [by destruct n|]. destruct n as [|n]; [cbn in Hn; lia|]. cbn [escape_loop].
  pose proof (escape_step_length more c l). destruct (escape_step more c l) as [o r]. cbn in *. f_equal. apply IH; lia.
Qed.

Lemma escape_cons more c l : escape more (c :: l) = fst (escape_step more c l) ++ escape more (snd (escape_step more c l)).
Proof.
  unfold escape at 1. cbn [length escape_loop]. pose proof (escape_step_length more c l).
  destruct (escape_step more c l) as [o r]. cbn in *. f_equal. apply escape_fuel; lia.
Qed.

(** The bytes one by one, or two at a no-break space. *)
Lemma bytes_induction (P : list Z -> Prop) : P [] -> (forall c l, (forall l', (length l' <= length l)%nat -> P l') -> P (c :: l)) -> forall l, P l.
Proof.
  intros H0 Hc l. remember (length l) as n eqn:Hn. assert (length l <= n)%nat as Hle by lia. clear Hn. revert l Hle.
  induction n as [|n IH]; intros [|c l] Hle; try done; [cbn in Hle; lia|]. apply Hc. intros l' Hl'. apply IH. cbn in Hle. lia.
Qed.

(** What holds of the bytes that are written. *)
Lemma escape_forall more (p q : Z -> bool) :
  (forall c data, q c = true -> forallb q data = true -> forallb p (fst (escape_step more c data)) = true) ->
  forall s, forallb q s = true -> forallb p (escape more s) = true.
Proof.
  intros Hp. induction s as [|c s IH] using bytes_induction; [done|]. cbn [forallb]. intros [Hc Hs]%andb_prop.
  rewrite escape_cons, forallb_app, Hp by done. apply IH; [apply escape_step_length|]. unfold escape_step. repeat case_match; subst; try done.
  cbn [forallb snd] in *. by apply andb_prop in Hs as [_ Hs].
Qed.

(** A loop that steps as [escape_step] says appends the escaped text. *)
Lemma loop_emits more (loop : list Z -> list Z -> W (list Z) unit) :
  (forall pos, loop pos [] = flush str_cb pos) ->
  (forall pos c data, exists x, loop pos (c :: data) = x /\
     (x = loop (pos ++ [c]) data /\ escape_step more c data = ([c], data) \/
      x = flush str_cb (pos ++ [c]) /\ escape_step more c data = ([c], []) \/
      exists out rest, x = (flush str_cb pos;; send str_cb out;; loop [] rest) /\ escape_step more c data = (out, rest))) ->
  forall data pos, emits (loop pos data) (pos ++ escape more data).
Proof.
  intros H0 Hc. induction data as [|c data IH] using bytes_induction; intros pos.
  - rewrite H0. eapply emits_eq; [apply emits_flush|]. by rewrite app_nil_r.
  - destruct (Hc pos c data) as (x & -> & [[-> E]|[[-> E]|(out & rest & -> & E)]]); rewrite escape_cons, E; cbn [fst snd].
    + eapply emits_eq; [apply IH; lia|]. by rewrite <- app_assoc.
    + eapply emits_eq; [apply emits_flush|]. by rewrite app_nil_r.
    + apply emits_seq; [apply emits_flush|]. apply emits_seq; [apply emits_send|]. eapply emits_eq; [apply (IH rest)|done].
      pose proof (escape_step_length more c data) as Hl. rewrite E in Hl. exact Hl.
Qed.

Lemma escaping_string_emits data : emits (lxb_html_serialize_send_escaping_string str_cb data) (escape_text data).
Proof.
  apply (loop_emits text_more (escaping_loop str_cb) ltac:(done)). intros pos c l. eexists. split; [reflexivity|]. cbn [escaping_loop].
  unfold escape_step, text_more. destruct (c =? 0x26); [right; right; by eexists _, _|]. destruct (c =? 0xC2).
  - destruct l as [|d l]; [by right; left|]. destruct (d =? 0xA0); cbn [negb]; [right; right; by eexists _, _ | by left].
  - destruct (c =? 0x3C); [right; right; by eexists _, _|]. destruct (c =? 0x3E); [right; right; by eexists _, _ | by left].
Qed.

Lemma escaping_attribute_emits data : emits (lxb_html_serialize_send_escaping_attribute_string str_cb data) (escape_value data).
Proof.
  apply (loop_emits value_more (escaping_attribute_loop str_cb) ltac:(done)). intros pos c l. eexists. split; [reflexivity|]. cbn [escaping_attribute_loop].
  unfold escape_step, value_more. destruct (c =? 0x26); [right; right; by eexists _, _|]. destruct (c =? 0xC2).
  - destruct l as [|d l]; [by right; left|]. destruct (d =? 0xA0); cbn [negb]; [right; right; by eexists _, _ | by left].
  - destruct (c =? 0x22); [right; right; by eexists _, _ | by left].
Qed.

(** ** Decoding *)

Section Ends.
Context (T : sbst) (table_ok : tree_ok T (sbst_height T) 1 0 256 1 = true).

Lemma longest_from_zero q : longest_from T 0 q = None.
Proof. destruct q as [|c q]; [done|]. cbn [longest_from]. by rewrite (find_zero T table_ok). Qed.

(** A name that the table ends with does not depend on what comes behind it. *)
Lemma longest_ends w q : forall r, w <> [] -> walk T r w = Some 0 -> longest_from T r (w ++ q) = longest_from T r w.
Proof.
  induction w as [|c w IH]; intros r Hw; [done|]. cbn [walk app longest_from]. destruct (lexbor_sbst_entry_static_find T r c) as [j|]; [|done].
  destruct w as [|c' w].
  - intros [= ->]. cbn [app]. by rewrite longest_from_zero.
  - intros Hj. by rewrite (IH _ ltac:(done) Hj).
Qed.

Lemma named_ends attr w v q : walk T 1 (w ++ [0x3B]) = Some 0 -> longest_from T 1 (w ++ [0x3B]) = Some (length (w ++ [0x3B]), v) ->
  named_reference T attr ((w ++ [0x3B]) ++ q) = Some (v, q).
Proof.
  intros Hw Hl. unfold named_reference. rewrite longest_name_from, longest_ends, Hl, drop_app_length by (done || by destruct w).
  assert (left_alone (length (w ++ [0x3B])) ((w ++ [0x3B]) ++ q) = false) as ->; [|by rewrite andb_false_r].
  unfold left_alone. rewrite <- app_assoc, app_nth2, length_app by (rewrite length_app; cbn; lia). cbn [length].
  replace (pred (length w + 1) - length w)%nat with 0%nat by lia. done.
Qed.

(** A reference whose name has its semicolon. *)
Lemma dec_ends O w v q : o_mode O = CM_ref -> not_hash (w ++ [0x3B]) -> walk T 1 (w ++ [0x3B]) = Some 0 ->
  longest_from T 1 (w ++ [0x3B]) = Some (length (w ++ [0x3B]), v) ->
  dec T O (0x26 :: (w ++ [0x3B]) ++ q) = v ++ dec T O q.
Proof.
  intros HO Hh Hw Hl. rewrite dec_amp by done. rewrite reference_name; [by rewrite (named_ends _ w v)|]. by destruct w.
Qed.
End Ends.

Definition ends (w v : list Z) : bool :=
  bool_decide (walk entities_sbst 1 (w ++ [0x3B]) = Some 0) &&
  bool_decide (longest_from entities_sbst 1 (w ++ [0x3B]) = Some (length (w ++ [0x3B]), v)).

(** The names that are written, with what they stand for. *)
Lemma names_end : forallb (fun x => ends (bytes_of (fst x)) (snd x))
  [("amp", [0x26]); ("lt", [0x3C]); ("gt", [0x3E]); ("quot", [0x22]); ("nbsp", [0xC2; 0xA0])]%string = true.
Proof. vm_compute. reflexivity. Qed.

Lemma dec_reference O name v q :
  In (name, v) [("amp", [0x26]); ("lt", [0x3C]); ("gt", [0x3E]); ("quot", [0x22]); ("nbsp", [0xC2; 0xA0])]%string ->
  o_mode O = CM_ref -> not_hash (bytes_of name ++ [0x3B]) -> decoded O (0x26 :: (bytes_of name ++ [0x3B]) ++ q) = v ++ decoded O q.
Proof.
  intros Hin HO Hh. pose proof (proj1 (forallb_forall _ _) names_end _ Hin) as [H1 H2]%andb_prop. apply bool_decide_eq_true in H1, H2.
  by apply (dec_ends _ entities_ok).
Qed.

(** No NUL, which the parser drops or replaces, and no carriage return, which it
    takes for a newline. *)
Definition text_byte (c : Z) : bool := negb (one_of c [0x00; 0x0D]).

Lemma text_byte_facts c : text_byte c = true -> c <> 0 /\ c <> 0x0D.
Proof. intros H%negb_true_iff. split; apply Z.eqb_neq; by apply (not_one_of _ _ _ H). Qed.

(** The references a step writes are decoded to the bytes they stand for. *)
Definition more_ok (O : options) (more : Z -> option (list Z)) : Prop :=
  forall c out q, more c = Some out -> decoded O (out ++ q) = c :: decoded O q.

Lemma decode_escape O more : o_mode O = CM_ref -> more_ok O more -> forall s, forallb text_byte s = true -> decoded O (escape more s) = s.
Proof.
  intros HO Hmore. induction s as [|c s IH] using bytes_induction; [done|]. cbn [forallb]. intros [Hc Hs]%andb_prop.
  destruct (text_byte_facts c Hc) as [H0 Hcr]. rewrite escape_cons. unfold escape_step.
  assert (Hplain : c <> 0x26 -> decoded O ([c] ++ escape more s) = c :: s).
  { intros Ha. unfold decoded. cbn [app]. rewrite dec_plain_ref by done. f_equal. by apply IH. }
  destruct (Z.eqb_spec c 0x26) as [->|Hamp].
  - cbn [fst snd]. rewrite <- (IH s) at 2 by done. apply (dec_reference O "amp"%string [0x26]); [by left | done | done].
  - destruct (Z.eqb_spec c 0xC2) as [->|_].
    + destruct s as [|d s]; [by apply Hplain|]. destruct (Z.eqb_spec d 0xA0) as [->|_]; [|by apply Hplain].
      cbn [fst snd]. cbn [forallb] in Hs. apply andb_prop in Hs as [_ Hs]. rewrite <- (IH s) at 2 by (done || cbn; lia).
      apply (dec_reference O "nbsp"%string [0xC2; 0xA0]); [by do 4 right; left | done | done].
    + destruct (more c) as [out|] eqn:Em; [|by apply Hplain]. cbn [fst snd]. by rewrite (Hmore _ _ _ Em), IH.
Qed.

Lemma text_more_ok O : o_mode O = CM_ref -> more_ok O text_more.
Proof.
  intros HO c out q. unfold text_more. destruct (Z.eqb_spec c 0x3C) as [->|_].
  - intros [= <-]. apply (dec_reference O "lt"%string [0x3C]); [by right; left | done | done].
  - destruct (Z.eqb_spec c 0x3E) as [->|_]; [|done]. intros [= <-]. apply (dec_reference O "gt"%string [0x3E]); [by do 2 right; left | done | done].
Qed.

Lemma value_more_ok O : o_mode O = CM_ref -> more_ok O value_more.
Proof.
  intros HO c out q. unfold value_more. destruct (Z.eqb_spec c 0x22) as [->|_]; [|done].
  intros [= <-]. apply (dec_reference O "quot"%string [0x22]); [by do 3 right; left | done | done].
Qed.

(** Where references are not decoded, bytes are as they are. *)
Lemma decode_plain O s : o_mode O = CM_data -> forallb text_byte s = true -> decoded O s = s.
Proof.
  intros HO. unfold decoded. induction s as [|c s IH]; [done|]. cbn [forallb]. intros [Hc Hs]%andb_prop.
  destruct (text_byte_facts c Hc) as [H0 Hcr]. rewrite dec_plain by (done || by rewrite HO). rewrite HO. by rewrite IH.
Qed.

(** The name of an attribute gets lower case. *)
Lemma decode_lower O s : o_mode O = CM_lcase -> forallb text_byte s = true -> decoded O s = map lower s.
Proof.
  intros HO. unfold decoded. induction s as [|c s IH]; [done|]. cbn [forallb map]. intros [Hc Hs]%andb_prop.
  destruct (text_byte_facts c Hc) as [H0 Hcr]. rewrite dec_plain by (done || by rewrite HO). rewrite HO. by rewrite IH.
Qed.
