(* ===== verification/TreeAdopt.v ===== *)
(** * Active formatting elements: reconstruction and the adoption agency

    [lxb_html_tree_active_formatting_reconstruct_elements] of
    [html/tree/active_formatting.c] and
    [lxb_html_tree_adoption_agency_algorithm] of [html/tree.c].  Both keep a
    pointer to the memory of an array in a variable; the memory must not have been
    reallocated when it is read through that. *)
From S2P Require Import Prelude.
From S2P Require Import Tag.
From S2P Require Import TkzBase.
From S2P Require Import TokenParse.
From S2P Require Import DomNode.
From S2P Require Import DomAttr.
From S2P Require Import TagCat.
From S2P Require Import Array.
From S2P Require Import TreeStack.
From S2P Require Import TreeM.
From S2P Require Import TreeInsert.

(** [lxb_html_token_t fake_token = {0}; fake_token.tag_id = node->tag_id;
    fake_token.base_element = node;] *)
Definition fake_token_of (p : positive) : M html_token := n ← node (Some p); mret (fake_of (nd_tag n) p).

(** [list[idx] = node] *)
Definition store_open (idx : nat) (p : positive) : M unit :=
  put (fun t => set_open (set_items (<[idx := Some p]> (open_list t)) (open_elements t)) t).
Definition store_fmt (idx : nat) (p : positive) : M unit :=
  put (fun t => set_formatting (set_items (<[idx := Some p]> (fmt_list t)) (active_formatting t)) t).

Section Adopt.
Context `{TreeAlloc} `{TokenBuffers}.

(** ** [lxb_html_tree_active_formatting_reconstruct_elements] *)

(** [list[af_idx]] is the marker or an open element. *)
Definition marker_or_open (t : html_tree) (p : option positive) : option bool :=
  if bool_decide (p = Some marker) then Some true
  else
    r ← search_down (fun q => Some (bool_decide (q = p))) (open_list t) (open_length t);
    Some (match r with Some _ => true | None => false end).

(** Step 4 to 7. *)
Fixpoint rewind (t : html_tree) (af_idx : nat) : option nat :=
  match af_idx with
  | O => Some O
  | S af_idx' =>
      p ← fmt_list t !! af_idx'; stop ← marker_or_open t p;
      if (stop : bool) then Some af_idx else rewind t af_idx'
  end.

(** Step 8 to 10, [n] of them. *)
Fixpoint reopen (n : nat) (af_idx : nat) : M Z :=
  match n with
  | O => mret LXB_STATUS_OK
  | S n =>
      p ← getO (fun t => fmt_list t !! af_idx);
      p ← getO (fun _ => p);
      k ← fake_token_of p;
      element ← lxb_html_tree_insert_html_element k;
      match element with
      | None => mret LXB_STATUS_ERROR_MEMORY_ALLOCATION
      | Some e => store_fmt af_idx e;; reopen n (S af_idx)
      end
  end.

Definition lxb_html_tree_active_formatting_reconstruct_elements : M Z :=
  len ← get fmt_length;
  match len with
  | O => mret LXB_STATUS_OK
  | S af_idx =>
      stop ← getO (fun t => p ← fmt_list t !! af_idx; marker_or_open t p);
      if (stop : bool) then mret LXB_STATUS_OK
      else af_idx ← getO (fun t => rewind t af_idx); reopen (len - af_idx) af_idx
  end.

(** ** [lxb_html_tree_adoption_agency_algorithm] *)

(** Step 6: the formatting element and its index. *)
Fixpoint subject_loop (t : html_tree) (subject : Z) (idx : nat) : option (option (positive * nat)) :=
  match idx with
  | O => Some None
  | S idx =>
      p ← fmt_list t !! idx;
      if bool_decide (p = Some marker) then Some None
      else
        n ← node_at t p; i ← p;
        if nd_tag n =? subject then Some (Some (i, idx)) else subject_loop t subject idx
  end.

(** Step 10: the first special element from an index on. *)
Definition special (t : html_tree) (p : option positive) : option bool :=
  n ← node_at t p; Some (lxb_html_tag_is_category (nd_tag n) (nd_ns n) LXB_HTML_TAG_CATEGORY_SPECIAL).
Definition furthest (t : html_tree) (oel_formatting_idx : nat) : option (option nat) :=
  search_up (special t) (open_list t) (open_length t - oel_formatting_idx) oel_formatting_idx.

Definition detach (p : positive) : M unit :=
  n ← node (Some p); match nd_parent n with Some _ => on_nodes (fun h => lxb_dom_node_remove h p) | None => nothing end.

(** How the inner loop ends: at the formatting element with [last] and [bookmark],
    or with [return false] and a status. *)
Definition inner_end : Type := positive * nat + Z.

(** Step 14. *)
Fixpoint inner_loop (formatting_element furthest_block : positive) (counter : nat) (node_idx : nat) (last : positive)
    (bookmark : nat) : M inner_end :=
  match node_idx with
  | O => mret (inr LXB_STATUS_OK)
  | S node_idx =>
      let continue := inner_loop formatting_element furthest_block (S counter) node_idx last bookmark in
      p ← getO (fun t => open_list t !! node_idx); p ← getO (fun _ => p);
      if bool_decide (p = formatting_element) then mret (inl (last, bookmark))
      else
        '(listed, afe_node_idx) ← getO (fun t => lxb_html_tree_active_formatting_find_by_node_reverse t p);
        if (3 <? S counter)%nat && (listed : bool) then af_remove_by_node p;; continue
        else if negb listed then oe_remove_by_node p;; continue
        else
          k ← fake_token_of p;
          element ← lxb_html_tree_create_element_for_token k LXB_NS_HTML;
          match element with
          | None => mret (inr LXB_STATUS_ERROR_MEMORY_ALLOCATION)
          | Some e =>
              store_fmt afe_node_idx e;;
              store_open node_idx e;;
              detach last;;
              insert_child e last;;
              inner_loop formatting_element furthest_block (S counter) node_idx e
                (if bool_decide (last = furthest_block) then S afe_node_idx else bookmark)
          end
  end.

(** Step 17: the children are moved one by one; [n] is at least their number. *)
Fixpoint move_children (n : nat) (p : option positive) (element : positive) : M unit :=
  match p with
  | None => nothing
  | Some p =>
      match n with
      | O => fault
      | S n =>
          c ← node (Some p);
          on_nodes (fun h => lxb_dom_node_remove h p);;
          insert_child element p;;
          move_children n (nd_next c) element
      end
  end.

(** Steps 15 to 20: whether the outer loop goes on, and the status. *)
Definition adopt (formatting_element : positive) (formatting_index : nat) (furthest_block : positive)
    (common_ancestor : option positive) (last : positive) (bookmark : nat) : M (bool * Z) :=
  detach last;;
  '(pos, ipos) ← lxb_html_tree_appropriate_place_inserting_node common_ancestor;
  match pos with
  | None => mret (false, LXB_STATUS_OK)
  | Some pos =>
      lxb_html_tree_insert_node pos last ipos;;
      k ← fake_token_of formatting_element;
      element ← lxb_html_tree_create_element_for_token k LXB_NS_HTML;
      match element with
      | None => mret (false, LXB_STATUS_ERROR_MEMORY_ALLOCATION)
      | Some e =>
          b ← node (Some furthest_block);
          h ← get (fun t => d_nodes (t_dom t));
          move_children (size h) (nd_first b) e;;
          insert_child furthest_block e;;
          put (fun t => lxb_html_tree_active_formatting_remove t formatting_index);;
          len ← get fmt_length;
          status ← lxb_html_tree_active_formatting_insert (Some e) (Z.of_nat (Nat.min bookmark len));
          if negb (status =? LXB_STATUS_OK) then mret (false, status)
          else
            oe_remove_by_node formatting_element;;
            '(_, furthest_block_idx) ← getO (fun t => lxb_html_tree_open_elements_find_by_node t furthest_block);
            status ← lxb_html_tree_open_elements_insert_after (Some e) (Z.of_nat furthest_block_idx);
            mret (status =? LXB_STATUS_OK, status)
      end
  end.

(** The outer loop, [n] turns of it at most: the result of the function and
    [*status].  [sizes] are those of the memory that [oel_list] and [afe_list]
    point to. *)
Fixpoint outer_loop (n : nat) (subject : Z) (sizes : Z * Z) : M (bool * Z) :=
  match n with
  | O => mret (false, LXB_STATUS_OK)
  | S n =>
      now ← get (fun t => (ar_size (open_elements t), ar_size (active_formatting t)));
      if bool_decide (now ≠ sizes) then fault
      else
        found ← getO (fun t => subject_loop t subject (fmt_length t));
        match found with
        | None => mret (true, LXB_STATUS_OK)
        | Some (formatting_element, formatting_index) =>
            '(opened, oel_formatting_idx) ← getO (fun t => lxb_html_tree_open_elements_find_by_node_reverse t formatting_element);
            if negb (opened : bool) then
              parse_error;; af_remove_by_node formatting_element;; mret (false, LXB_STATUS_OK)
            else
              scope ← getO (fun t => lxb_html_tree_element_in_scope_by_node t formatting_element LXB_HTML_TAG_CATEGORY_SCOPE);
              match scope with
              | None => parse_error;; mret (false, LXB_STATUS_OK)
              | Some _ =>
                  current ← current_node;
                  when (bool_decide (current ≠ Some formatting_element)) parse_error;;
                  block ← getO (fun t => furthest t oel_formatting_idx);
                  match block with
                  | None =>
                      pop_until_node formatting_element true;;
                      af_remove_by_node formatting_element;;
                      mret (false, LXB_STATUS_OK)
                  | Some furthest_block_idx =>
                      furthest_block ← getO (fun t => p ← open_list t !! furthest_block_idx; p);
                      common_ancestor ← getO (fun t => match oel_formatting_idx with
                                                       | O => None
                                                       | S i => open_list t !! i
                                                       end);
                      r ← inner_loop formatting_element furthest_block 0 furthest_block_idx furthest_block formatting_index;
                      match r with
                      | inr status => mret (false, status)
                      | inl (last, bookmark) =>
                          '(again, status) ← adopt formatting_element formatting_index furthest_block common_ancestor last bookmark;
                          if (again : bool) then outer_loop n subject sizes else mret (false, status)
                      end
                  end
              end
        end
  end.

Definition lxb_html_tree_adoption_agency_algorithm (token : html_token) : M (bool * Z) :=
  let subject := tok_tag_id token in
  sizes ← get (fun t => (ar_size (open_elements t), ar_size (active_formatting t)));
  p ← current_node;
  current ← is_node p subject;
  unlisted ← (if (current : bool) then
                r ← getO (fun t => i ← p; lxb_html_tree_active_formatting_find_by_node_reverse t i); mret (negb (fst r))
              else mret false);
  if (unlisted : bool) then oe_pop;; mret (false, LXB_STATUS_OK)
  else outer_loop 8 subject sizes.
End Adopt.
