(* ===== verification/TreeMode.v ===== *)
(** * What the insertion modes share

    An insertion mode is a computation with the token in hand, [t_token]; its
    result is whether the token is done with.  A mode may hand the token to
    another mode, which is a call of the class [TreeModes]. *)
From S2P Require Import Prelude.
From S2P Require Import In.
From S2P Require Import Tag.
From S2P Require Import TkzBase.
From S2P Require Import ParserChar.
From S2P Require Import TokenParse.
From S2P Require Import TokenWs.
From S2P Require Import DomNode.
From S2P Require Import DomAttr.
From S2P Require Import TagCat.
From S2P Require Import TreeStack.
From S2P Require Import TreeM.
From S2P Require Import TreeInsert.
From S2P Require Import TreeAdopt.

(** The functions [lxb_html_tree_insertion_mode_..] of other files. *)
Class TreeModes := call_mode : insertion_mode -> M bool.

(** [return true;] and [return false;] *)
Definition done : M bool := mret true.
Definition again : M bool := mret false.

(** A [switch] on the tag, or a table of functions by tag. *)
Fixpoint pick {A} (tag : Z) (rows : list (list Z * A)) (default_ : A) : A :=
  match rows with
  | [] => default_
  | (tags, x) :: rows => if one_of tag tags then x else pick tag rows default_
  end.

Definition on_tag (rows : list (list Z * M bool)) (default_ : M bool) : M bool :=
  k ← token; pick (tok_tag_id k) rows default_.

(** [token->type & LXB_HTML_TOKEN_TYPE_CLOSE] *)
Definition on_close (closed open : M bool) : M bool :=
  close ← token_has LXB_HTML_TOKEN_TYPE_CLOSE; if (close : bool) then closed else open.

(** The dispatch on the tables of a mode, the same in each of them. *)
Definition on_tables (res closed_res anything_else anything_else_closed : M bool) : M bool :=
  k ← token;
  if tok_tag_id k >=? LXB_TAG__LAST_ENTRY then on_close anything_else_closed anything_else
  else on_close closed_res res.

(** [lxb_html_parser_char_t pc = {0}; pc.drop_null = true;] *)
Definition pc_drop_null : parser_char := mk_pc PC_data false true false 0 LXB_STATUS_OK false [] 0 None 0 0.

(** The white space of [lexbor_utils_whitespace], which [lexbor_tokenizer_chars_map]
    has as [LEXBOR_STR_RES_MAP_CHAR_WHITESPACE]. *)
Definition is_space (c : Z) : bool := one_of c [0x20; 0x09; 0x0A; 0x0C; 0x0D].

Fixpoint lexbor_str_whitespace_from_begin (target : list Z) : nat :=
  match target with
  | [] => O
  | c :: target => if negb (is_space c) then O else S (lexbor_str_whitespace_from_begin target)
  end.

Definition lexbor_str_stay_only_whitespace (target : list Z) : list Z := List.filter is_space target.

Section Mode.
Context `{TreeAlloc} `{TokenBuffers}.

(** [element = lxb_html_tree_insert_html_element(tree, token)] and the test of it. *)
Definition insert_element (k : html_token) (next : positive -> M bool) : M bool :=
  element ← lxb_html_tree_insert_html_element k; not_null element next.
Definition insert_token (next : M bool) : M bool := k ← token; insert_element k (fun _ => next).
Definition insert_tag (tag : Z) (next : M bool) : M bool := insert_element (fake_token tag) (fun _ => next).

Definition reconstruct (next : M bool) : M bool :=
  s ← lxb_html_tree_active_formatting_reconstruct_elements; check_status s next.
Definition push_marker_then (next : M bool) : M bool := s ← push_marker; check_status s next.
Definition adoption_agency (next : M bool) : M bool :=
  k ← token; '(_, s) ← lxb_html_tree_adoption_agency_algorithm k; check_status s next.

Definition acknowledge_self_closing : M unit := k ← token; lxb_html_tree_acknowledge_token_self_closing k.
(** The element is popped at once. *)
Definition insert_void (next : M bool) : M bool :=
  insert_token (oe_pop;; acknowledge_self_closing;; next).

Definition error_done : M bool := parse_error;; done.

(** [node = lxb_html_tree_current_node(tree); if (lxb_html_tree_node_is(node, tag)
    == false) parse error]. *)
Definition expect_current (tag : Z) : M unit :=
  p ← current_node; ok ← is_node p tag; when (negb ok) parse_error.

(** A [p] in button scope is closed. *)
Definition close_p_in_button_scope : M unit :=
  p ← in_scope_of LXB_TAG_P LXB_HTML_TAG_CATEGORY_SCOPE_BUTTON;
  match p with Some _ => close_p | None => nothing end.

(** A comment at a place; the status is set to a failure of memory or kept. *)
Definition insert_comment_at (pos : option positive) : M (option positive) := k ← token; lxb_html_tree_insert_comment k pos.
Definition comment_done : M bool := c ← insert_comment_at None; not_null c (fun _ => done).
Definition comment_or_abort (pos : option positive) : M bool := c ← insert_comment_at pos; or_abort c done.

Definition insert_characters (k : html_token) (next : M bool) : M bool :=
  '(s, _) ← lxb_html_tree_insert_character k; check_status s next.
Definition insert_data (str : list Z) (next : M bool) : M bool :=
  '(s, _) ← lxb_html_tree_insert_character_for_data str; check_status s next.

(** The text of the token in hand, decoded; nothing is done for no text. *)
Definition token_text (pc : parser_char) (next : list Z -> M bool) : M bool :=
  k ← token;
  '(_, s, str) ← getO (fun _ => lxb_html_token_parse_data tb_nodes tb_byte k pc []);
  check_status s (next str).

(** [lxb_html_token_data_skip_ws_begin(token)]: text that is not white space falls
    through. *)
Definition skip_ws (next : M bool) : M bool :=
  k ← token;
  '(k, s) ← getO (fun _ => lxb_html_token_data_skip_ws_begin tb_nodes tb_byte k);
  put (set_t_token k);;
  check_status s (if tok_begin k =? tok_end k then done else next).

(** [lxb_html_token_data_split_ws_begin(token, &ws_token)]: the white space is
    inserted and the rest falls through. *)
Definition split_ws (next : M bool) : M bool :=
  k ← token;
  '(k, ws_token, s) ← getO (fun _ => lxb_html_token_data_split_ws_begin tb_nodes tb_byte k);
  put (set_t_token k);;
  check_status s
    (let rest := if tok_begin k =? tok_end k then done else next in
     if negb (tok_begin ws_token =? tok_end ws_token) then insert_characters ws_token rest else rest).

(** The token is all white space: looked at in a copy. *)
Definition if_all_ws (yes no : M bool) : M bool :=
  k ← token;
  '(ws_token, s) ← getO (fun _ => lxb_html_token_data_skip_ws_begin tb_nodes tb_byte k);
  check_status s (if tok_begin ws_token =? tok_end ws_token then yes else no).

Definition stop_parsing_done : M bool := s ← lxb_html_tree_stop_parsing; check_status s done.

(** The end of an element in scope: the implied end tags, the test of the current
    node, the pops. *)
Definition end_element (tag : Z) (ex_tag ex_ns : Z) : M unit :=
  implied_end_tags ex_tag ex_ns;; expect_current tag;; pop_until_tag tag.
End Mode.

(** [tree->mode(tree, token)] *)
Definition call_current `{TreeModes} : M bool := m ← getO t_mode; call_mode m.
