(* ===== verification/TreeInitial.v ===== *)
(** * The first insertion modes: [initial.c], [before_html.c], [before_head.c] *)
From Stdlib Require Import String.
From S2P Require Import Prelude.
From S2P Require Import Str.
From S2P Require Import In.
From S2P Require Import Tag.
From S2P Require Import TagHeap.
From S2P Require Import TkzBase.
From S2P Require Import ParserChar.
From S2P Require Import TokenParse.
From S2P Require Import DomNode.
From S2P Require Import DomAttr.
From S2P Require Import TagCat.
From S2P Require Import TagConst.
From S2P Require Import TreeStack.
From S2P Require Import TreeM.
From S2P Require Import TreeInsert.
From S2P Require Import TreeMode.

Definition lxb_html_tree_insertion_mode_initial_doctype_public_is : list (string * Z) := ([
  ("-//W3O//DTD W3 HTML Strict 3.0//EN//", 36);
  ("-/W3C/DTD HTML 4.0 Transitional/EN", 34);
  ("HTML", 4)]%string).

Definition lxb_html_tree_insertion_mode_initial_doctype_system_is : list (string * Z) := ([
  ("http://www.ibm.com/data/dtd/v11/ibmxhtml1-transitional.dtd", 58)]%string).

Definition lxb_html_tree_insertion_mode_initial_doctype_public_start : list (string * Z) := ([
  ("+//Silmaril//dtd html Pro v0r11 19970101//", 42);
  ("-//AS//DTD HTML 3.0 asWedit + extensions//", 42);
  ("-//AdvaSoft Ltd//DTD HTML 3.0 asWedit + extensions//", 52);
  ("-//IETF//DTD HTML 2.0 Level 1//", 31);
  ("-//IETF//DTD HTML 2.0 Level 2//", 31);
  ("-//IETF//DTD HTML 2.0 Strict Level 1//", 38);
  ("-//IETF//DTD HTML 2.0 Strict Level 2//", 38);
  ("-//IETF//DTD HTML 2.0 Strict//", 30);
  ("-//IETF//DTD HTML 2.0//", 23);
  ("-//IETF//DTD HTML 2.1E//", 24);
  ("-//IETF//DTD HTML 3.0//", 23);
  ("-//IETF//DTD HTML 3.2 Final//", 29);
  ("-//IETF//DTD HTML 3.2//", 23);
  ("-//IETF//DTD HTML 3//", 21);
  ("-//IETF//DTD HTML Level 0//", 27);
  ("-//IETF//DTD HTML Level 1//", 27);
  ("-//IETF//DTD HTML Level 2//", 27);
  ("-//IETF//DTD HTML Level 3//", 27);
  ("-//IETF//DTD HTML Strict Level 0//", 34);
  ("-//IETF//DTD HTML Strict Level 1//", 34);
  ("-//IETF//DTD HTML Strict Level 2//", 34);
  ("-//IETF//DTD HTML Strict Level 3//", 34);
  ("-//IETF//DTD HTML Strict//", 26);
  ("-//IETF//DTD HTML//", 19);
  ("-//Metrius//DTD Metrius Presentational//", 40);
  ("-//Microsoft//DTD Internet Explorer 2.0 HTML Strict//", 53);
  ("-//Microsoft//DTD Internet Explorer 2.0 HTML//", 46);
  ("-//Microsoft//DTD Internet Explorer 2.0 Tables//", 48);
  ("-//Microsoft//DTD Internet Explorer 3.0 HTML Strict//", 53);
  ("-//Microsoft//DTD Internet Explorer 3.0 HTML//", 46);
  ("-//Microsoft//DTD Internet Explorer 3.0 Tables//", 48);
  ("-//Netscape Comm. Corp.//DTD HTML//", 35);
  ("-//Netscape Comm. Corp.//DTD Strict HTML//", 42);
  ("-//O'Reilly and Associates//DTD HTML 2.0//", 42);
  ("-//O'Reilly and Associates//DTD HTML Extended 1.0//", 51);
  ("-//O'Reilly and Associates//DTD HTML Extended Relaxed 1.0//", 59);
  ("-//SQ//DTD HTML 2.0 HoTMetaL + extensions//", 43);
  ("-//SoftQuad Software//DTD HoTMetaL PRO 6.0::19990601::extensions to HTML 4.0//", 78);
  ("-//SoftQuad//DTD HoTMetaL PRO 4.0::19971010::extensions to HTML 4.0//", 69);
  ("-//Spyglass//DTD HTML 2.0 Extended//", 36);
  ("-//Sun Microsystems Corp.//DTD HotJava HTML//", 45);
  ("-//Sun Microsystems Corp.//DTD HotJava Strict HTML//", 52);
  ("-//W3C//DTD HTML 3 1995-03-24//", 31);
  ("-//W3C//DTD HTML 3.2 Draft//", 28);
  ("-//W3C//DTD HTML 3.2 Final//", 28);
  ("-//W3C//DTD HTML 3.2//", 22);
  ("-//W3C//DTD HTML 3.2S Draft//", 29);
  ("-//W3C//DTD HTML 4.0 Frameset//", 31);
  ("-//W3C//DTD HTML 4.0 Transitional//", 35);
  ("-//W3C//DTD HTML Experimental 19960712//", 40);
  ("-//W3C//DTD HTML Experimental 970421//", 38);
  ("-//W3C//DTD W3 HTML//", 21);
  ("-//W3O//DTD W3 HTML 3.0//", 25);
  ("-//WebTechs//DTD Mozilla HTML 2.0//", 35);
  ("-//WebTechs//DTD Mozilla HTML//", 31)]%string).

Definition lxb_html_tree_insertion_mode_initial_doctype_sys_pub_start : list (string * Z) := ([
  ("-//W3C//DTD HTML 4.01 Frameset//", 32);
  ("-//W3C//DTD HTML 4.01 Transitional//", 36)]%string).

Definition lxb_html_tree_insertion_mode_initial_doctype_lim_pub_start : list (string * Z) := ([
  ("-//W3C//DTD XHTML 1.0 Frameset//", 32);
  ("-//W3C//DTD XHTML 1.0 Transitional//", 36)]%string).

(** [document->compat_mode = ..]: quirks, limited quirks. *)
Definition set_compat_mode (quirks limited : bool) : M unit :=
  put (fun t =>
    let d := t_dom t in
    let o := d_owner d in
    set_limited_quirks limited (set_dom (mk_dom (d_nodes d) (d_attrs d) (mk_owner (doc_html o) quirks (doc_tags o))) t)).

(** [lexbor_str_data_casecmp] of an entry as long as the string, and
    [lexbor_str_data_ncasecmp] of one no longer. *)
Definition same_as_entry (s : list Z) (row : string * Z) : bool :=
  (snd row =? str_len s) && lexbor_str_data_casecmp (bytes (fst row)) s.
Definition starts_with_entry (s : list Z) (row : string * Z) : bool :=
  (snd row <=? str_len s) && eq_nocase (take (Z.to_nat (snd row)) (bytes (fst row))) (take (Z.to_nat (snd row)) s).

Definition lxb_html_tree_insertion_mode_initial_doctype_ckeck_public (public_id : list Z) : bool :=
  existsb (same_as_entry public_id) lxb_html_tree_insertion_mode_initial_doctype_public_is ||
  existsb (starts_with_entry public_id) lxb_html_tree_insertion_mode_initial_doctype_public_start.

Definition lxb_html_tree_insertion_mode_initial_doctype_ckeck_system (system_id : list Z) : bool :=
  existsb (same_as_entry system_id) lxb_html_tree_insertion_mode_initial_doctype_system_is.

Definition lxb_html_tree_insertion_mode_initial_doctype_ckeck_pubsys (public_id : list Z) : bool :=
  existsb (starts_with_entry public_id) lxb_html_tree_insertion_mode_initial_doctype_sys_pub_start.

Definition lxb_html_tree_insertion_mode_initial_doctype_check_limq (public_id system_id : list Z) : bool :=
  negb (str_len system_id =? 0) && lxb_html_tree_insertion_mode_initial_doctype_ckeck_pubsys public_id ||
  existsb (starts_with_entry public_id) lxb_html_tree_insertion_mode_initial_doctype_lim_pub_start.

(** What the function sets [compat_mode] to, if it does: quirks, limited quirks. *)
Definition lxb_html_tree_insertion_mode_initial_doctype_ckeck (iframe_srcdoc force_quirks is_html : bool) (public_id system_id : list Z)
    : option (bool * bool) :=
  let public_ := negb (str_len public_id =? 0) in
  let system := negb (str_len system_id =? 0) in
  if iframe_srcdoc then None
  else if force_quirks then Some (true, false)
  else if negb is_html then Some (true, false)
  else if public_ && lxb_html_tree_insertion_mode_initial_doctype_ckeck_public public_id then Some (true, false)
  else if system && lxb_html_tree_insertion_mode_initial_doctype_ckeck_system system_id then Some (true, false)
  else if public_ && negb system && lxb_html_tree_insertion_mode_initial_doctype_ckeck_pubsys public_id then Some (true, false)
  else if public_ && lxb_html_tree_insertion_mode_initial_doctype_check_limq public_id system_id then Some (false, true)
  else None.

Section Initial.
Context `{TreeAlloc} `{TokenBuffers} `{TreeModes}.

(** ** [initial.c] *)

Definition lxb_html_tree_insertion_mode_initial_doctype : M bool :=
  k ← token;
  doc_type ← lxb_html_tree_create_document_type_from_token k;
  not_null doc_type (fun i =>
    s ← getO (fun t => t_doctypes t !! i);
    let name := default [] (dt_name s) in
    let public_id := default [] (dt_public s) in
    let system_id := default [] (dt_system s) in
    let is_html := (str_len name =? 4) && bool_decide (name = bytes "html") in
    when (negb is_html || negb (str_len public_id =? 0) ||
          negb (str_len system_id =? 0) && negb (bool_decide (take 19 system_id = bytes "about:legacy-compat")))
      parse_error;;
    iframe_srcdoc ← get t_iframe_srcdoc;
    force_quirks ← token_has LXB_HTML_TOKEN_TYPE_FORCE_QUIRKS;
    match lxb_html_tree_insertion_mode_initial_doctype_ckeck iframe_srcdoc force_quirks is_html public_id system_id with
    | Some (quirks, limited) => set_compat_mode quirks limited
    | None => nothing
    end;;
    document ← get t_document;
    insert_child document i;;
    put (set_doctype (Some i));;
    done).

Definition initial_default : M bool :=
  iframe_srcdoc ← get t_iframe_srcdoc;
  when (negb iframe_srcdoc) (parse_error;; set_compat_mode true false);;
  mode_is IM_before_html;;
  again.

Definition lxb_html_tree_insertion_mode_initial : M bool :=
  on_tag [
    ([LXB_TAG__EM_COMMENT], document ← get t_document; comment_or_abort (Some document));
    ([LXB_TAG__EM_DOCTYPE], mode_is IM_before_html;; lxb_html_tree_insertion_mode_initial_doctype);
    ([LXB_TAG__TEXT], skip_ws initial_default)
  ] initial_default.

(** ** [before_html.c] *)

(** The status; the element is pushed before it is inserted. *)
Definition lxb_html_tree_insertion_mode_before_html_html (node_html : positive) : M Z :=
  status ← lxb_html_tree_open_elements_push (Some node_html);
  if negb (status =? LXB_STATUS_OK) then mret status
  else
    document ← get t_document;
    insert_child document node_html;;
    put (set_element (Some node_html));;
    mret LXB_STATUS_OK.

Definition lxb_html_tree_insertion_mode_before_html_anything_else : M bool :=
  node_html ← lxb_html_tree_create_node LXB_TAG_HTML LXB_NS_HTML;
  not_null node_html (fun node_html =>
    s ← lxb_html_tree_insertion_mode_before_html_html node_html;
    check_status s (mode_is IM_before_head;; again)).

Definition html_start : M bool :=
  k ← token;
  element ← lxb_html_tree_create_element_for_token k LXB_NS_HTML;
  not_null element (fun node_html =>
    s ← lxb_html_tree_insertion_mode_before_html_html node_html;
    check_status s (mode_is IM_before_head;; done)).

Definition lxb_html_tree_insertion_mode_before_html_open : M bool :=
  on_tag [
    ([LXB_TAG__EM_DOCTYPE], error_done);
    ([LXB_TAG__EM_COMMENT], document ← get t_document; comment_or_abort (Some document));
    ([LXB_TAG_HTML], html_start);
    ([LXB_TAG__TEXT], skip_ws lxb_html_tree_insertion_mode_before_html_anything_else)
  ] lxb_html_tree_insertion_mode_before_html_anything_else.

Definition lxb_html_tree_insertion_mode_before_html_closed : M bool :=
  on_tag [([LXB_TAG_HEAD; LXB_TAG_BODY; LXB_TAG_HTML; LXB_TAG_BR], lxb_html_tree_insertion_mode_before_html_anything_else)] error_done.

Definition lxb_html_tree_insertion_mode_before_html : M bool := on_close lxb_html_tree_insertion_mode_before_html_closed lxb_html_tree_insertion_mode_before_html_open.

(** ** [before_head.c] *)

Definition lxb_html_tree_insertion_mode_before_head_head (k : html_token) : M Z :=
  element ← lxb_html_tree_insert_html_element k;
  match element with
  | None => mret LXB_STATUS_ERROR_MEMORY_ALLOCATION
  | Some _ => put (set_head element);; mret LXB_STATUS_OK
  end.

Definition lxb_html_tree_insertion_mode_before_head_anything_else : M bool :=
  s ← lxb_html_tree_insertion_mode_before_head_head (fake_token LXB_TAG_HEAD);
  check_status s (mode_is IM_in_head;; again).

Definition lxb_html_tree_insertion_mode_before_head_open : M bool :=
  on_tag [
    ([LXB_TAG__EM_COMMENT], comment_done);
    ([LXB_TAG__EM_DOCTYPE], error_done);
    ([LXB_TAG_HTML], call_mode IM_in_body);
    ([LXB_TAG_HEAD], k ← token; s ← lxb_html_tree_insertion_mode_before_head_head k; check_status s (mode_is IM_in_head;; done));
    ([LXB_TAG__TEXT], skip_ws lxb_html_tree_insertion_mode_before_head_anything_else)
  ] lxb_html_tree_insertion_mode_before_head_anything_else.

Definition lxb_html_tree_insertion_mode_before_head_closed : M bool :=
  on_tag [([LXB_TAG_HEAD; LXB_TAG_BODY; LXB_TAG_HTML; LXB_TAG_BR], lxb_html_tree_insertion_mode_before_head_anything_else)] error_done.

Definition lxb_html_tree_insertion_mode_before_head : M bool := on_close lxb_html_tree_insertion_mode_before_head_closed lxb_html_tree_insertion_mode_before_head_open.
End Initial.
