(* ===== verification/TreeHead.v ===== *)
(** * Head, text and the modes after the body: [in_head.c], [in_head_noscript.c],
    [after_head.c], [text.c], [after_body.c], [in_frameset.c],
    [after_frameset.c], [after_after_body.c], [after_after_frameset.c] *)
From S2P Require Import Prelude.
From S2P Require Import Tag.
From S2P Require Import TkzBase.
From S2P Require Import ParserChar.
From S2P Require Import TokenParse.
From S2P Require Import DomNode.
From S2P Require Import DomAttr.
From S2P Require Import TagCat.
From S2P Require Import TagConst.
From S2P Require Import TreeStack.
From S2P Require Import TreeM.
From S2P Require Import TreeInsert.
From S2P Require Import TreeMode.

Section Head.
Context `{TreeAlloc} `{TokenBuffers} `{TreeModes}.

(** ** [in_head.c] *)

Definition lxb_html_tree_insertion_mode_in_head_script : M bool :=
  '(ap_node, ipos) ← lxb_html_tree_appropriate_place_inserting_node None;
  match ap_node with
  | None => put (set_t_status LXB_STATUS_ERROR);; lxb_html_tree_process_abort
  | Some ap_node =>
      read_parent (Some ap_node) ipos;;
      k ← token;
      element ← lxb_html_tree_create_element_for_token k LXB_NS_HTML;
      not_null element (fun e =>
        s ← lxb_html_tree_open_elements_push (Some e);
        put (set_t_status s);;
        if negb (s =? LXB_STATUS_OK) then free_node e;; lxb_html_tree_process_abort
        else
          lxb_html_tree_insert_node ap_node e ipos;;
          tokenizer_tmp_tag_id_set (tok_tag_id k);;
          tokenizer_state_set S_script_data_before;;
          put (fun t => set_original_mode (t_mode t) t);;
          mode_is IM_text;;
          done)
  end.

(** [lxb_html_template_element_interface_destroy] *)
Definition lxb_html_template_element_interface_destroy (i : positive) : M unit :=
  c ← getO (fun t => t_content t !! i); free_node c;; free_node i.

Definition lxb_html_tree_insertion_mode_in_head_template : M bool :=
  k ← token;
  insert_element k (fun e =>
    let or_destroy s next :=
      put (set_t_status s);;
      if s =? LXB_STATUS_OK then next else lxb_html_template_element_interface_destroy e;; lxb_html_tree_process_abort in
    s ← push_marker;
    or_destroy s (
      put (set_frameset_ok false);;
      mode_is IM_in_template;;
      s ← lxb_html_tree_template_insertion_push IM_in_template;
      or_destroy s done)).

Definition lxb_html_tree_insertion_mode_in_head_template_closed : M bool :=
  temp_node ← find_reverse LXB_TAG_TEMPLATE;
  match temp_node with
  | None => error_done
  | Some _ =>
      putO (fun t => lxb_html_tree_generate_all_implied_end_tags_thoroughly t LXB_TAG__UNDEF LXB_NS__UNDEF);;
      expect_current LXB_TAG_TEMPLATE;;
      pop_until_tag LXB_TAG_TEMPLATE;;
      up_to_last_marker;;
      _ ← lxb_html_tree_template_insertion_pop;
      reset_mode;;
      done
  end.

Definition lxb_html_tree_insertion_mode_in_head_anything_else : M bool := oe_pop;; mode_is IM_after_head;; again.

(** The test of the element is made after [tree->mode] is set. *)
Definition head_noscript : M bool :=
  k ← token;
  scripting ← get t_scripting;
  element ← (if (scripting : bool) then lxb_html_tree_generic_rawtext_parsing k
             else e ← lxb_html_tree_insert_html_element k; mode_is IM_in_head_noscript;; mret e);
  not_null element (fun _ => done).

Definition lxb_html_tree_insertion_mode_in_head_open : M bool :=
  on_tag [
    ([LXB_TAG__EM_COMMENT], comment_done);
    ([LXB_TAG__EM_DOCTYPE], error_done);
    ([LXB_TAG_HTML], call_mode IM_in_body);
    ([LXB_TAG_BASE; LXB_TAG_BASEFONT; LXB_TAG_BGSOUND; LXB_TAG_LINK], insert_void done);
    ([LXB_TAG_META], insert_void done);
    ([LXB_TAG_TITLE], k ← token; element ← lxb_html_tree_generic_rcdata_parsing k; not_null element (fun _ => done));
    ([LXB_TAG_NOSCRIPT], head_noscript);
    ([LXB_TAG_NOFRAMES; LXB_TAG_STYLE], k ← token; element ← lxb_html_tree_generic_rawtext_parsing k; not_null element (fun _ => done));
    ([LXB_TAG_SCRIPT], lxb_html_tree_insertion_mode_in_head_script);
    ([LXB_TAG_TEMPLATE], lxb_html_tree_insertion_mode_in_head_template);
    ([LXB_TAG_HEAD], error_done);
    ([LXB_TAG__TEXT], split_ws lxb_html_tree_insertion_mode_in_head_anything_else)
  ] lxb_html_tree_insertion_mode_in_head_anything_else.

Definition lxb_html_tree_insertion_mode_in_head_closed : M bool :=
  on_tag [
    ([LXB_TAG_HEAD], oe_pop;; mode_is IM_after_head;; done);
    ([LXB_TAG_BODY; LXB_TAG_HTML; LXB_TAG_BR], lxb_html_tree_insertion_mode_in_head_anything_else);
    ([LXB_TAG_TEMPLATE], lxb_html_tree_insertion_mode_in_head_template_closed)
  ] error_done.

Definition lxb_html_tree_insertion_mode_in_head : M bool := on_close lxb_html_tree_insertion_mode_in_head_closed lxb_html_tree_insertion_mode_in_head_open.

(** ** [in_head_noscript.c] *)

Definition lxb_html_tree_insertion_mode_in_head_noscript_anything_else : M bool :=
  parse_error;; oe_pop;; mode_is IM_in_head;; again.

Definition lxb_html_tree_insertion_mode_in_head_noscript_open : M bool :=
  on_tag [
    ([LXB_TAG__EM_DOCTYPE], error_done);
    ([LXB_TAG_HTML], call_mode IM_in_body);
    ([LXB_TAG__EM_COMMENT; LXB_TAG_BASEFONT; LXB_TAG_BGSOUND; LXB_TAG_LINK; LXB_TAG_META; LXB_TAG_NOFRAMES; LXB_TAG_STYLE], call_mode IM_in_head);
    ([LXB_TAG_HEAD; LXB_TAG_NOSCRIPT], error_done);
    ([LXB_TAG__TEXT], split_ws lxb_html_tree_insertion_mode_in_head_noscript_anything_else)
  ] lxb_html_tree_insertion_mode_in_head_noscript_anything_else.

Definition lxb_html_tree_insertion_mode_in_head_noscript_closed : M bool :=
  on_tag [([LXB_TAG_BR], lxb_html_tree_insertion_mode_in_head_noscript_anything_else)] error_done.

Definition lxb_html_tree_insertion_mode_in_head_noscript : M bool := on_close lxb_html_tree_insertion_mode_in_head_noscript_closed lxb_html_tree_insertion_mode_in_head_noscript_open.

(** ** [after_head.c] *)

Definition lxb_html_tree_insertion_mode_after_head_create_body (k : html_token) : M (option positive) :=
  element ← lxb_html_tree_insert_html_element k;
  match element with
  | None => mret None
  | Some _ => put (set_body element);; mret element
  end.

Definition lxb_html_tree_insertion_mode_after_head_anything_else : M bool :=
  element ← lxb_html_tree_insertion_mode_after_head_create_body (fake_token LXB_TAG_BODY);
  not_null element (fun _ => mode_is IM_in_body;; again).

(** What belongs in the head goes there: the head is on the stack meanwhile. *)
Definition back_in_head : M bool :=
  head_node ← get t_head;
  match head_node with
  | None => put (set_t_status LXB_STATUS_ERROR);; lxb_html_tree_process_abort
  | Some head_node =>
      parse_error;;
      s ← lxb_html_tree_open_elements_push (Some head_node);
      check_status s (
        _ ← call_mode IM_in_head;
        status_ok (oe_remove_by_node head_node;; done))
  end.

Definition lxb_html_tree_insertion_mode_after_head_open : M bool :=
  on_tag [
    ([LXB_TAG__EM_COMMENT], comment_done);
    ([LXB_TAG__EM_DOCTYPE], error_done);
    ([LXB_TAG_HTML], call_mode IM_in_body);
    ([LXB_TAG_BODY],
      k ← token;
      element ← lxb_html_tree_insertion_mode_after_head_create_body k;
      not_null element (fun _ => put (set_frameset_ok false);; mode_is IM_in_body;; done));
    ([LXB_TAG_FRAMESET], insert_token (mode_is IM_in_frameset;; done));
    ([LXB_TAG_BASE; LXB_TAG_BASEFONT; LXB_TAG_BGSOUND; LXB_TAG_LINK; LXB_TAG_META; LXB_TAG_NOFRAMES; LXB_TAG_SCRIPT; LXB_TAG_STYLE; LXB_TAG_TEMPLATE; LXB_TAG_TITLE], back_in_head);
    ([LXB_TAG_HEAD], error_done);
    ([LXB_TAG__TEXT], split_ws lxb_html_tree_insertion_mode_after_head_anything_else)
  ] lxb_html_tree_insertion_mode_after_head_anything_else.

Definition lxb_html_tree_insertion_mode_after_head_closed : M bool :=
  on_tag [
    ([LXB_TAG_TEMPLATE], call_mode IM_in_head);
    ([LXB_TAG_BODY; LXB_TAG_HTML; LXB_TAG_BR], lxb_html_tree_insertion_mode_after_head_anything_else)
  ] error_done.

Definition lxb_html_tree_insertion_mode_after_head : M bool := on_close lxb_html_tree_insertion_mode_after_head_closed lxb_html_tree_insertion_mode_after_head_open.

(** ** [text.c] *)

Definition back_to_original_mode : M unit := put (fun t => set_mode (original_mode t) t).

Definition lxb_html_tree_insertion_mode_text : M bool :=
  on_tag [
    ([LXB_TAG__TEXT], k ← token; insert_characters k done);
    ([LXB_TAG__END_OF_FILE],
      parse_error;;
      p ← current_node; _ ← is_node p LXB_TAG_SCRIPT;
      oe_pop;; back_to_original_mode;; again);
    ([LXB_TAG_SCRIPT], oe_pop;; back_to_original_mode;; done)
  ] (oe_pop;; back_to_original_mode;; done).

(** ** [after_body.c] *)

Definition after_body_default : M bool := parse_error;; mode_is IM_in_body;; again.

Definition lxb_html_tree_insertion_mode_after_body : M bool :=
  on_tag [
    ([LXB_TAG__EM_COMMENT], html_node ← get lxb_html_tree_open_elements_first; comment_or_abort html_node);
    ([LXB_TAG__EM_DOCTYPE], error_done);
    ([LXB_TAG_HTML],
      on_close
        (fragment ← get t_fragment;
         match fragment with
         | Some _ => error_done
         | None => mode_is IM_after_after_body;; done
         end)
        (call_mode IM_in_body));
    ([LXB_TAG__END_OF_FILE], stop_parsing_done);
    ([LXB_TAG__TEXT], if_all_ws (call_mode IM_in_body) after_body_default)
  ] after_body_default.

(** ** [in_frameset.c], [after_frameset.c] *)

(** The white space of the text is inserted; other text falls through. *)
Definition frameset_text : M bool :=
  token_text pc_zero (fun str =>
    let ws := lexbor_str_stay_only_whitespace str in
    let rest := if (length ws =? length str)%nat then done else error_done in
    if negb (length ws =? 0)%nat then insert_data ws rest else rest).

Definition frameset_closed : M bool :=
  on_tag [
    ([LXB_TAG_FRAMESET],
      p ← current_node;
      first ← get lxb_html_tree_open_elements_first;
      if bool_decide (p = first) then error_done
      else
        oe_pop;;
        p ← current_node;
        fragment ← get t_fragment;
        match fragment with
        | None => frameset ← is_node p LXB_TAG_FRAMESET; when (negb frameset) (mode_is IM_after_frameset)
        | Some _ => nothing
        end;;
        done)
  ] error_done.

Definition frameset_open : M bool :=
  on_tag [
    ([LXB_TAG__EM_COMMENT], comment_or_abort None);
    ([LXB_TAG__EM_DOCTYPE], error_done);
    ([LXB_TAG_HTML], call_mode IM_in_body);
    ([LXB_TAG_FRAMESET], insert_token done);
    ([LXB_TAG_FRAME], insert_void done);
    ([LXB_TAG_NOFRAMES], call_mode IM_in_head);
    ([LXB_TAG__END_OF_FILE],
      p ← current_node;
      first ← get lxb_html_tree_open_elements_first;
      when (negb (bool_decide (p = first))) parse_error;;
      stop_parsing_done);
    ([LXB_TAG__TEXT], frameset_text)
  ] error_done.

Definition lxb_html_tree_insertion_mode_in_frameset : M bool := on_close frameset_closed frameset_open.

Definition lxb_html_tree_insertion_mode_after_frameset : M bool :=
  on_tag [
    ([LXB_TAG__EM_COMMENT], comment_or_abort None);
    ([LXB_TAG__EM_DOCTYPE], error_done);
    ([LXB_TAG_HTML], on_close (mode_is IM_after_after_frameset;; done) (call_mode IM_in_body));
    ([LXB_TAG_NOFRAMES], call_mode IM_in_head);
    ([LXB_TAG__END_OF_FILE], stop_parsing_done);
    ([LXB_TAG__TEXT], frameset_text)
  ] error_done.

(** ** [after_after_body.c], [after_after_frameset.c] *)

Definition lxb_html_tree_insertion_mode_after_after_body : M bool :=
  on_tag [
    ([LXB_TAG__EM_COMMENT], document ← get t_document; comment_or_abort (Some document));
    ([LXB_TAG__EM_DOCTYPE; LXB_TAG_HTML], call_mode IM_in_body);
    ([LXB_TAG__END_OF_FILE], stop_parsing_done);
    ([LXB_TAG__TEXT], if_all_ws (call_mode IM_in_body) after_body_default)
  ] after_body_default.

Definition lxb_html_tree_insertion_mode_after_after_frameset : M bool :=
  on_tag [
    ([LXB_TAG__EM_COMMENT], document ← get t_document; comment_or_abort (Some document));
    ([LXB_TAG__EM_DOCTYPE; LXB_TAG_HTML], call_mode IM_in_body);
    ([LXB_TAG__END_OF_FILE], stop_parsing_done);
    ([LXB_TAG_NOFRAMES], call_mode IM_in_head);
    ([LXB_TAG__TEXT], if_all_ws (call_mode IM_in_body) error_done)
  ] error_done.
End Head.
