(* ===== verification/TreeBody.v ===== *)
(** * The "in body" insertion mode: [in_body.c], [in_body_res.h] *)
From Stdlib Require Import String.
From S2P Require Import Prelude.
From S2P Require Import In.
From S2P Require Import Tag.
From S2P Require Import TkzBase.
From S2P Require Import ParserChar.
From S2P Require Import TokenParse.
From S2P Require Import TokenWs.
From S2P Require Import DomNode.
From S2P Require Import DomAttr.
From S2P Require Import TreeAttr.
From S2P Require Import TagCat.
From S2P Require Import TagConst.
From S2P Require Import Array.
From S2P Require Import TreeStack.
From S2P Require Import TreeM.
From S2P Require Import TreeInsert.
From S2P Require Import TreeAdopt.
From S2P Require Import TreeMode.

Definition not_frameset_ok : M unit := put (set_frameset_ok false).

(** The element of a tag in scope, in the usual scope. *)
Definition in_scope_default (tag : Z) : M (option positive) := in_scope_of tag LXB_HTML_TAG_CATEGORY_SCOPE.
Definition token_tag : M Z := k ← token; mret (tok_tag_id k).

(** [if (element in scope == NULL) { parse error; return true; }] *)
Definition if_in_scope (scope : M (option positive)) (next : M bool) : M bool :=
  p ← scope; match p with None => error_done | Some _ => next end.

Section Body.
Context `{TreeAlloc} `{TokenBuffers} `{TreeModes}.

Definition lxb_html_tree_insertion_mode_in_body_anything_else : M bool := reconstruct (insert_token done).

(** The search down the stack for an element of the tag, [len] elements of it
    left. *)
Fixpoint closed_loop (tag : Z) (len : nat) : M bool :=
  match len with
  | O => done
  | S len =>
      p ← getO (fun t => open_list t !! len);
      n ← node p;
      if lxb_html_tree_node_is n tag then
        implied_end_tags tag LXB_NS_HTML;;
        current ← current_node;
        when (negb (bool_decide (p = current))) parse_error;;
        p ← getO (fun _ => p);
        pop_until_node p true;;
        done
      else if lxb_html_tag_is_category (nd_tag n) (nd_ns n) LXB_HTML_TAG_CATEGORY_SPECIAL then error_done
      else closed_loop tag len
  end.

Definition lxb_html_tree_insertion_mode_in_body_anything_else_closed : M bool :=
  tag ← token_tag; len ← get open_length; closed_loop tag len.

(** The next token of text loses a newline at its begin. *)
Definition skip_new_line (mode : insertion_mode) : M bool :=
  mode_is mode;;
  k ← token;
  if negb (tok_tag_id k =? LXB_TAG__TEXT) then again
  else
    '(k, s) ← getO (fun _ => lxb_html_token_data_skip_one_newline_begin tb_nodes tb_byte k);
    put (set_t_token k);;
    check_status s (if tok_begin k =? tok_end k then done else again).

Definition lxb_html_tree_insertion_mode_in_body_skip_new_line : M bool := skip_new_line IM_in_body.
Definition lxb_html_tree_insertion_mode_in_body_skip_new_line_textarea : M bool := skip_new_line IM_text.

(** ** Text, comments, the end of the file *)

Definition lxb_html_tree_insertion_mode_in_body_text_append (str : list Z) : M Z :=
  s ← lxb_html_tree_active_formatting_reconstruct_elements;
  put (set_t_status s);;
  if negb (s =? LXB_STATUS_OK) then mret s
  else
    '(s, _) ← lxb_html_tree_insert_character_for_data str;
    put (set_t_status s);;
    if negb (s =? LXB_STATUS_OK) then mret s
    else
      ok ← get frameset_ok;
      when (ok && existsb (fun c => negb (is_space c)) str) not_frameset_ok;;
      mret LXB_STATUS_OK.

(** A NUL in the text is a parse error. *)
Definition null_error : M unit := has_null ← token_has LXB_HTML_TOKEN_TYPE_NULL; when has_null parse_error.

Definition lxb_html_tree_insertion_mode_in_body_text : M bool :=
  null_error;;
  token_text pc_drop_null (fun str =>
    if (length str =? 0)%nat then done
    else _ ← lxb_html_tree_insertion_mode_in_body_text_append str; status_ok done).

Definition lxb_html_tree_insertion_mode_in_body_comment : M bool := comment_done.
Definition lxb_html_tree_insertion_mode_in_body_doctype : M bool := error_done.

Definition lxb_html_tree_insertion_mode_in_body_eof : M bool :=
  modes ← get template_insertion_modes;
  if negb (length modes =? 0)%nat then call_mode IM_in_template
  else
    it_is ← getO lxb_html_tree_check_scope_element;
    when (negb it_is) parse_error;;
    stop_parsing_done.

(** ** [html], [body], [frameset] *)

Definition lxb_html_tree_insertion_mode_in_body_html : M bool :=
  parse_error;;
  temp_node ← find_first_open LXB_TAG_TEMPLATE;
  match temp_node with
  | Some _ => done
  | None =>
      html ← get lxb_html_tree_open_elements_first;
      n ← node html;
      html ← getO (fun _ => html);
      k ← token;
      s ← append_attributes html k (nd_ns n);
      check_status s done
  end.

Definition lxb_html_tree_insertion_mode_in_body_blmnst : M bool := call_mode IM_in_head.

Definition lxb_html_tree_insertion_mode_in_body_body : M bool :=
  parse_error;;
  p ← get (fun t => lxb_html_tree_open_elements_get t 1);
  match p with
  | None => done
  | Some body =>
      n ← node p;
      if negb (nd_tag n =? LXB_TAG_BODY) then done
      else
        temp ← find_reverse LXB_TAG_TEMPLATE;
        match temp with
        | Some _ => done
        | None =>
            not_frameset_ok;;
            k ← token;
            s ← append_attributes body k (nd_ns n);
            check_status s done
        end
  end.

Definition lxb_html_tree_insertion_mode_in_body_frameset : M bool :=
  parse_error;;
  p ← get (fun t => lxb_html_tree_open_elements_get t 1);
  match p with
  | None => done
  | Some body =>
      n ← node p;
      if negb (nd_tag n =? LXB_TAG_BODY) then done
      else
        ok ← get frameset_ok;
        if negb (ok : bool) then done
        else
          lxb_html_tree_node_delete_deep body;;
          first ← getO (fun t => lxb_html_tree_open_elements_get t 0);
          pop_until_node first false;;
          insert_token (mode_is IM_in_frameset;; done)
  end.

(** Both end tags, but for the result. *)
Definition body_closed (result : M bool) : M bool :=
  if_in_scope (in_scope_default LXB_TAG_BODY) (
    it_is ← getO lxb_html_tree_check_scope_element;
    when (negb it_is) parse_error;;
    mode_is IM_after_body;;
    result).

Definition lxb_html_tree_insertion_mode_in_body_body_closed : M bool := body_closed done.
Definition lxb_html_tree_insertion_mode_in_body_html_closed : M bool := body_closed again.

(** ** Blocks *)

Definition lxb_html_tree_insertion_mode_in_body_abcdfhmnopsu : M bool := close_p_in_button_scope;; insert_token done.

Definition lxb_html_tree_insertion_mode_in_body_h123456 : M bool :=
  close_p_in_button_scope;;
  p ← current_node;
  n ← node p;
  when (one_of (nd_tag n) h123456) (parse_error;; oe_pop);;
  insert_token done.

Definition lxb_html_tree_insertion_mode_in_body_pre_listing : M bool :=
  close_p_in_button_scope;;
  insert_token (mode_is IM_in_body_skip_new_line;; not_frameset_ok;; done).

Definition lxb_html_tree_insertion_mode_in_body_form : M bool :=
  temp ← find_reverse LXB_TAG_TEMPLATE;
  form ← get t_form;
  match form, temp with
  | Some _, None => error_done
  | _, _ =>
      close_p_in_button_scope;;
      k ← token;
      insert_element k (fun e =>
        match temp with None => put (set_form (Some e)) | Some _ => nothing end;;
        done)
  end.

(** The loop over the stack for an open item, which is closed. *)
Fixpoint item_loop (tags : list Z) (idx : nat) : M unit :=
  match idx with
  | O => nothing
  | S idx =>
      p ← getO (fun t => open_list t !! idx);
      n ← node p;
      match find (lxb_html_tree_node_is n) tags with
      | Some tag => end_element tag tag LXB_NS_HTML
      | None =>
          if lxb_html_tag_is_category (nd_tag n) (nd_ns n) LXB_HTML_TAG_CATEGORY_SPECIAL &&
             negb (lxb_html_tree_node_is n LXB_TAG_ADDRESS) && negb (lxb_html_tree_node_is n LXB_TAG_DIV) && negb (lxb_html_tree_node_is n LXB_TAG_P)
          then nothing
          else item_loop tags idx
      end
  end.

Definition list_item (tags : list Z) : M bool :=
  not_frameset_ok;;
  len ← get open_length;
  item_loop tags len;;
  close_p_in_button_scope;;
  insert_token done.

Definition lxb_html_tree_insertion_mode_in_body_li : M bool := list_item [LXB_TAG_LI].
Definition lxb_html_tree_insertion_mode_in_body_dd_dt : M bool := list_item [LXB_TAG_DD; LXB_TAG_DT].

Definition lxb_html_tree_insertion_mode_in_body_plaintext : M bool :=
  close_p_in_button_scope;;
  insert_token (tokenizer_state_set S_plaintext_before;; done).

Definition lxb_html_tree_insertion_mode_in_body_button : M bool :=
  p ← in_scope_default LXB_TAG_BUTTON;
  match p with
  | Some _ => parse_error;; implied_end_tags LXB_TAG__UNDEF LXB_NS__UNDEF;; pop_until_tag LXB_TAG_BUTTON
  | None => nothing
  end;;
  reconstruct (insert_token (not_frameset_ok;; done)).

Definition lxb_html_tree_insertion_mode_in_body_abcdfhlmnopsu_closed : M bool :=
  tag ← token_tag;
  if_in_scope (in_scope_default tag) (end_element tag LXB_TAG__UNDEF LXB_NS__UNDEF;; done).

Definition lxb_html_tree_insertion_mode_in_body_form_closed : M bool :=
  temp ← find_reverse LXB_TAG_TEMPLATE;
  match temp with
  | None =>
      form ← get t_form;
      put (set_form None);;
      match form with
      | None => error_done
      | Some form =>
          if_in_scope (getO (fun t => lxb_html_tree_element_in_scope_by_node t form LXB_HTML_TAG_CATEGORY_SCOPE)) (
            implied_end_tags LXB_TAG__UNDEF LXB_NS__UNDEF;;
            current ← current_node;
            when (negb (bool_decide (current = Some form))) parse_error;;
            oe_remove_by_node form;;
            done)
      end
  | Some _ =>
      if_in_scope (in_scope_default LXB_TAG_FORM) (end_element LXB_TAG_FORM LXB_TAG__UNDEF LXB_NS__UNDEF;; done)
  end.

Definition lxb_html_tree_insertion_mode_in_body_p_closed : M bool :=
  p ← in_scope_of LXB_TAG_P LXB_HTML_TAG_CATEGORY_SCOPE_BUTTON;
  match p with
  | None => parse_error;; insert_tag LXB_TAG_P (close_p;; done)
  | Some _ => close_p;; done
  end.

Definition lxb_html_tree_insertion_mode_in_body_li_closed : M bool :=
  if_in_scope (in_scope_of LXB_TAG_LI LXB_HTML_TAG_CATEGORY_SCOPE_LIST_ITEM) (end_element LXB_TAG_LI LXB_TAG_LI LXB_NS_HTML;; done).

Definition lxb_html_tree_insertion_mode_in_body_dd_dt_closed : M bool :=
  tag ← token_tag;
  if_in_scope (in_scope_default tag) (end_element tag tag LXB_NS_HTML;; done).

Definition lxb_html_tree_insertion_mode_in_body_h123456_closed : M bool :=
  if_in_scope (getO lxb_html_tree_element_in_scope_h123456) (
    implied_end_tags LXB_TAG__UNDEF LXB_NS__UNDEF;;
    tag ← token_tag;
    expect_current tag;;
    putO lxb_html_tree_open_elements_pop_until_h123456;;
    done).

(** ** Formatting *)

(** The element is pushed on the list too. *)
Definition insert_formatting : M bool := k ← token; insert_element k (fun e => push_with_check_dupl e;; done).

Definition lxb_html_tree_insertion_mode_in_body_a : M bool :=
  tag ← token_tag;
  p ← getO (fun t => lxb_html_tree_active_formatting_between_last_marker marker t tag);
  let rest := reconstruct insert_formatting in
  match p with
  | Some (a, _) => parse_error;; adoption_agency (af_remove_by_node a;; oe_remove_by_node a;; rest)
  | None => rest
  end.

Definition lxb_html_tree_insertion_mode_in_body_bcefistu : M bool := reconstruct insert_formatting.

Definition lxb_html_tree_insertion_mode_in_body_nobr : M bool :=
  reconstruct (
    p ← in_scope_default LXB_TAG_NOBR;
    match p with
    | Some _ => parse_error;; adoption_agency (reconstruct insert_formatting)
    | None => insert_formatting
    end).

(** What the algorithm returns is not looked at. *)
Definition lxb_html_tree_insertion_mode_in_body_abcefinstu_closed : M bool := adoption_agency done.

Definition lxb_html_tree_insertion_mode_in_body_amo : M bool :=
  reconstruct (insert_token (push_marker_then (not_frameset_ok;; done))).

Definition lxb_html_tree_insertion_mode_in_body_amo_closed : M bool :=
  tag ← token_tag;
  if_in_scope (in_scope_default tag) (end_element tag LXB_TAG__UNDEF LXB_NS__UNDEF;; up_to_last_marker;; done).

(** ** Tables, empty elements, forms *)

Definition lxb_html_tree_insertion_mode_in_body_table : M bool :=
  quirks ← get (fun t => doc_quirks (d_owner (t_dom t)));
  when (negb quirks) close_p_in_button_scope;;
  insert_token (not_frameset_ok;; mode_is IM_in_table;; done).

Definition lxb_html_tree_insertion_mode_in_body_abeikw : M bool := reconstruct (insert_void (not_frameset_ok;; done)).

Definition lxb_html_tree_insertion_mode_in_body_br_closed : M bool :=
  put (fun t =>
    let k := t_token t in
    let type := tok_type k in
    set_t_token (with_attrs [] (with_type (Z.lxor type (Z.land type LXB_HTML_TOKEN_TYPE_CLOSE)) k)) t);;
  lxb_html_tree_insertion_mode_in_body_abeikw.

(** Whether the type of the input is [hidden]. *)
Definition is_hidden (d : dom) (element : positive) : option bool :=
  attr ← lxb_dom_element_attr_is_exist d element (bytes_of "type");
  match attr with
  | None => Some false
  | Some attr =>
      a ← d_attrs d !! attr;
      Some match at_value a with
           | None => false
           | Some value => (str_len value =? 6) && str_data_cmp value (bytes_of "hidden")
           end
  end.

Definition lxb_html_tree_insertion_mode_in_body_input : M bool :=
  reconstruct (
    k ← token;
    insert_element k (fun e =>
      oe_pop;;
      acknowledge_self_closing;;
      hidden ← getO (fun t => is_hidden (t_dom t) e);
      when (negb hidden) not_frameset_ok;;
      done)).

Definition lxb_html_tree_insertion_mode_in_body_pst : M bool := insert_void done.

Definition lxb_html_tree_insertion_mode_in_body_hr : M bool := close_p_in_button_scope;; insert_void (not_frameset_ok;; done).

Definition lxb_html_tree_insertion_mode_in_body_image : M bool :=
  parse_error;; put (fun t => set_t_token (with_tag_id LXB_TAG_IMG (t_token t)) t);; again.

Definition lxb_html_tree_insertion_mode_in_body_textarea : M bool :=
  insert_token (
    tokenizer_tmp_tag_id_set LXB_TAG_TEXTAREA;;
    tokenizer_state_set S_rcdata_before;;
    put (fun t => set_original_mode (t_mode t) t);;
    not_frameset_ok;;
    mode_is IM_in_body_skip_new_line_textarea;;
    done).

Definition rawtext_done : M bool := k ← token; element ← lxb_html_tree_generic_rawtext_parsing k; not_null element (fun _ => done).

Definition lxb_html_tree_insertion_mode_in_body_xmp : M bool :=
  close_p_in_button_scope;; reconstruct (not_frameset_ok;; rawtext_done).

Definition lxb_html_tree_insertion_mode_in_body_iframe : M bool := not_frameset_ok;; rawtext_done.

Definition lxb_html_tree_insertion_mode_in_body_noembed : M bool := rawtext_done.

Definition lxb_html_tree_insertion_mode_in_body_noscript : M bool :=
  scripting ← get t_scripting;
  if negb (scripting : bool) then lxb_html_tree_insertion_mode_in_body_anything_else else rawtext_done.

Definition lxb_html_tree_insertion_mode_in_body_select : M bool :=
  reconstruct (
    insert_token (
      not_frameset_ok;;
      put (fun t =>
        set_mode (Some match t_mode t with
                       | Some (IM_in_table | IM_in_caption | IM_in_table_body | IM_in_row | IM_in_cell) => IM_in_select_in_table
                       | _ => IM_in_select
                       end) t);;
      done)).

(** The current node is popped if it is of the tag. *)
Definition pop_if_current (tag : Z) : M unit :=
  p ← current_node; is_tag ← is_node p tag; when is_tag oe_pop.

Definition lxb_html_tree_insertion_mode_in_body_optopt : M bool := pop_if_current LXB_TAG_OPTION;; reconstruct (insert_token done).

(** The implied end tags in a [ruby] in scope. *)
Definition ruby (ex_tag ex_ns : Z) : M unit :=
  p ← in_scope_default LXB_TAG_RUBY;
  match p with Some _ => implied_end_tags ex_tag ex_ns | None => nothing end.

Definition lxb_html_tree_insertion_mode_in_body_rbrtc : M bool :=
  ruby LXB_TAG__UNDEF LXB_NS__UNDEF;; expect_current LXB_TAG_RUBY;; insert_token done.

Definition lxb_html_tree_insertion_mode_in_body_rprt : M bool :=
  ruby LXB_TAG_RTC LXB_NS_HTML;;
  p ← current_node;
  rtc ← is_node p LXB_TAG_RTC;
  is_ruby ← is_node p LXB_TAG_RUBY;
  when (negb rtc || negb is_ruby) parse_error;;
  insert_token done.

(** ** Foreign elements *)

(** [before_append_attr] is set while the element is inserted. *)
Definition insert_foreign (adjust : option (dom_attr -> option (Z * dom_attr))) (ns : Z) (next : positive -> M bool) : M bool :=
  k ← token;
  put (set_before_append adjust);;
  element ← lxb_html_tree_insert_foreign_element k ns;
  put (set_before_append None);;
  not_null element next.

Definition foreign_start (adjust : dom_attr -> option (Z * dom_attr)) (ns : Z) : M bool :=
  reconstruct (
    insert_foreign (Some adjust) ns (fun _ =>
      self ← token_has LXB_HTML_TOKEN_TYPE_CLOSE_SELF;
      when self (oe_pop;; acknowledge_self_closing);;
      done)).

Definition lxb_html_tree_insertion_mode_in_body_math : M bool := foreign_start lxb_html_tree_adjust_attributes_mathml LXB_NS_MATH.
Definition lxb_html_tree_insertion_mode_in_body_svg : M bool := foreign_start lxb_html_tree_adjust_attributes_svg LXB_NS_SVG.

Definition lxb_html_tree_insertion_mode_in_body_cfht : M bool := error_done.

(** ** The tables *)

Definition lxb_html_tree_insertion_mode_in_body_res : M bool :=
  on_tag [
    ([LXB_TAG__END_OF_FILE], lxb_html_tree_insertion_mode_in_body_eof);
    ([LXB_TAG__TEXT], lxb_html_tree_insertion_mode_in_body_text);
    ([LXB_TAG__EM_COMMENT], lxb_html_tree_insertion_mode_in_body_comment);
    ([LXB_TAG__EM_DOCTYPE], lxb_html_tree_insertion_mode_in_body_doctype);
    ([LXB_TAG_A], lxb_html_tree_insertion_mode_in_body_a);
    ([LXB_TAG_ADDRESS; LXB_TAG_ARTICLE; LXB_TAG_ASIDE; LXB_TAG_BLOCKQUOTE; LXB_TAG_CENTER; LXB_TAG_DETAILS; LXB_TAG_DIALOG; LXB_TAG_DIR; LXB_TAG_DIV; LXB_TAG_DL; LXB_TAG_FIELDSET;
      LXB_TAG_FIGCAPTION; LXB_TAG_FIGURE; LXB_TAG_FOOTER; LXB_TAG_HEADER; LXB_TAG_HGROUP; LXB_TAG_MAIN; LXB_TAG_MENU; LXB_TAG_NAV; LXB_TAG_OL; LXB_TAG_P; LXB_TAG_SECTION; LXB_TAG_SUMMARY;
      LXB_TAG_UL], lxb_html_tree_insertion_mode_in_body_abcdfhmnopsu);
    ([LXB_TAG_APPLET; LXB_TAG_MARQUEE; LXB_TAG_OBJECT], lxb_html_tree_insertion_mode_in_body_amo);
    ([LXB_TAG_AREA; LXB_TAG_BR; LXB_TAG_EMBED; LXB_TAG_IMG; LXB_TAG_KEYGEN; LXB_TAG_WBR], lxb_html_tree_insertion_mode_in_body_abeikw);
    ([LXB_TAG_B; LXB_TAG_BIG; LXB_TAG_CODE; LXB_TAG_EM; LXB_TAG_FONT; LXB_TAG_I; LXB_TAG_S; LXB_TAG_SMALL; LXB_TAG_STRIKE; LXB_TAG_STRONG; LXB_TAG_TT; LXB_TAG_U], lxb_html_tree_insertion_mode_in_body_bcefistu);
    ([LXB_TAG_BASE; LXB_TAG_BASEFONT; LXB_TAG_BGSOUND; LXB_TAG_LINK; LXB_TAG_META; LXB_TAG_NOFRAMES; LXB_TAG_SCRIPT; LXB_TAG_STYLE; LXB_TAG_TEMPLATE; LXB_TAG_TITLE], lxb_html_tree_insertion_mode_in_body_blmnst);
    ([LXB_TAG_BODY], lxb_html_tree_insertion_mode_in_body_body);
    ([LXB_TAG_BUTTON], lxb_html_tree_insertion_mode_in_body_button);
    ([LXB_TAG_CAPTION; LXB_TAG_COL; LXB_TAG_COLGROUP; LXB_TAG_FRAME; LXB_TAG_HEAD; LXB_TAG_TBODY; LXB_TAG_TD; LXB_TAG_TFOOT; LXB_TAG_TH; LXB_TAG_THEAD; LXB_TAG_TR], lxb_html_tree_insertion_mode_in_body_cfht);
    ([LXB_TAG_DD; LXB_TAG_DT], lxb_html_tree_insertion_mode_in_body_dd_dt);
    ([LXB_TAG_FORM], lxb_html_tree_insertion_mode_in_body_form);
    ([LXB_TAG_FRAMESET], lxb_html_tree_insertion_mode_in_body_frameset);
    ([LXB_TAG_H1; LXB_TAG_H2; LXB_TAG_H3; LXB_TAG_H4; LXB_TAG_H5; LXB_TAG_H6], lxb_html_tree_insertion_mode_in_body_h123456);
    ([LXB_TAG_HR], lxb_html_tree_insertion_mode_in_body_hr);
    ([LXB_TAG_HTML], lxb_html_tree_insertion_mode_in_body_html);
    ([LXB_TAG_IFRAME], lxb_html_tree_insertion_mode_in_body_iframe);
    ([LXB_TAG_IMAGE], lxb_html_tree_insertion_mode_in_body_image);
    ([LXB_TAG_INPUT], lxb_html_tree_insertion_mode_in_body_input);
    ([LXB_TAG_LI], lxb_html_tree_insertion_mode_in_body_li);
    ([LXB_TAG_LISTING; LXB_TAG_PRE], lxb_html_tree_insertion_mode_in_body_pre_listing);
    ([LXB_TAG_MATH], lxb_html_tree_insertion_mode_in_body_math);
    ([LXB_TAG_NOBR], lxb_html_tree_insertion_mode_in_body_nobr);
    ([LXB_TAG_NOEMBED], lxb_html_tree_insertion_mode_in_body_noembed);
    ([LXB_TAG_NOSCRIPT], lxb_html_tree_insertion_mode_in_body_noscript);
    ([LXB_TAG_OPTGROUP; LXB_TAG_OPTION], lxb_html_tree_insertion_mode_in_body_optopt);
    ([LXB_TAG_PARAM; LXB_TAG_SOURCE; LXB_TAG_TRACK], lxb_html_tree_insertion_mode_in_body_pst);
    ([LXB_TAG_PLAINTEXT], lxb_html_tree_insertion_mode_in_body_plaintext);
    ([LXB_TAG_RB; LXB_TAG_RTC], lxb_html_tree_insertion_mode_in_body_rbrtc);
    ([LXB_TAG_RP; LXB_TAG_RT], lxb_html_tree_insertion_mode_in_body_rprt);
    ([LXB_TAG_SELECT], lxb_html_tree_insertion_mode_in_body_select);
    ([LXB_TAG_SVG], lxb_html_tree_insertion_mode_in_body_svg);
    ([LXB_TAG_TABLE], lxb_html_tree_insertion_mode_in_body_table);
    ([LXB_TAG_TEXTAREA], lxb_html_tree_insertion_mode_in_body_textarea);
    ([LXB_TAG_XMP], lxb_html_tree_insertion_mode_in_body_xmp)
  ] lxb_html_tree_insertion_mode_in_body_anything_else.

Definition lxb_html_tree_insertion_mode_in_body_closed_res : M bool :=
  on_tag [
    ([LXB_TAG__END_OF_FILE], lxb_html_tree_insertion_mode_in_body_eof);
    ([LXB_TAG_A; LXB_TAG_B; LXB_TAG_BIG; LXB_TAG_CODE; LXB_TAG_EM; LXB_TAG_FONT; LXB_TAG_I; LXB_TAG_NOBR; LXB_TAG_S; LXB_TAG_SMALL; LXB_TAG_STRIKE; LXB_TAG_STRONG; LXB_TAG_TT; LXB_TAG_U], lxb_html_tree_insertion_mode_in_body_abcefinstu_closed);
    ([LXB_TAG_ADDRESS; LXB_TAG_ARTICLE; LXB_TAG_ASIDE; LXB_TAG_BLOCKQUOTE; LXB_TAG_BUTTON; LXB_TAG_CENTER; LXB_TAG_DETAILS; LXB_TAG_DIALOG; LXB_TAG_DIR; LXB_TAG_DIV; LXB_TAG_DL;
      LXB_TAG_FIELDSET; LXB_TAG_FIGCAPTION; LXB_TAG_FIGURE; LXB_TAG_FOOTER; LXB_TAG_HEADER; LXB_TAG_HGROUP; LXB_TAG_LISTING; LXB_TAG_MAIN; LXB_TAG_MENU; LXB_TAG_NAV; LXB_TAG_OL;
      LXB_TAG_PRE; LXB_TAG_SECTION; LXB_TAG_SUMMARY; LXB_TAG_UL], lxb_html_tree_insertion_mode_in_body_abcdfhlmnopsu_closed);
    ([LXB_TAG_APPLET; LXB_TAG_MARQUEE; LXB_TAG_OBJECT], lxb_html_tree_insertion_mode_in_body_amo_closed);
    ([LXB_TAG_BODY], lxb_html_tree_insertion_mode_in_body_body_closed);
    ([LXB_TAG_BR], lxb_html_tree_insertion_mode_in_body_br_closed);
    ([LXB_TAG_DD; LXB_TAG_DT], lxb_html_tree_insertion_mode_in_body_dd_dt_closed);
    ([LXB_TAG_FORM], lxb_html_tree_insertion_mode_in_body_form_closed);
    ([LXB_TAG_H1; LXB_TAG_H2; LXB_TAG_H3; LXB_TAG_H4; LXB_TAG_H5; LXB_TAG_H6], lxb_html_tree_insertion_mode_in_body_h123456_closed);
    ([LXB_TAG_HTML], lxb_html_tree_insertion_mode_in_body_html_closed);
    ([LXB_TAG_LI], lxb_html_tree_insertion_mode_in_body_li_closed);
    ([LXB_TAG_P], lxb_html_tree_insertion_mode_in_body_p_closed);
    ([LXB_TAG_TEMPLATE], lxb_html_tree_insertion_mode_in_body_blmnst)
  ] lxb_html_tree_insertion_mode_in_body_anything_else_closed.

Definition lxb_html_tree_insertion_mode_in_body : M bool :=
  on_tables lxb_html_tree_insertion_mode_in_body_res lxb_html_tree_insertion_mode_in_body_closed_res lxb_html_tree_insertion_mode_in_body_anything_else lxb_html_tree_insertion_mode_in_body_anything_else_closed.
End Body.
