(* ===== verification/TreeTable.v ===== *)
(** * The insertion modes of tables: [in_table.c], [in_table_text.c],
    [in_caption.c], [in_column_group.c], [in_table_body.c], [in_row.c],
    [in_cell.c], with their tables *)
From Stdlib Require Import String.
From S2P Require Import Prelude.
From S2P Require Import In.
From S2P Require Import Tag.
From S2P Require Import TkzBase.
From S2P Require Import ParserChar.
From S2P Require Import TokenParse.
From S2P Require Import DomNode.
From S2P Require Import DomAttr.
From S2P Require Import TagCat.
From S2P Require Import TagConst.
From S2P Require Import TreeStack.
From S2P Require Import TreeM.
From S2P Require Import TreeInsert.
From S2P Require Import TreeAdopt.
From S2P Require Import TreeMode.
From S2P Require Import TreeBody.

(** [clear_stack_back_to_..]: pops until the current node is an HTML element of one
    of the tags; an empty stack would be read through NULL. *)
Fixpoint clear_loop (tags : list Z) (fuel : nat) : M unit :=
  p ← current_node;
  n ← node p;
  if one_of (nd_tag n) tags && (nd_ns n =? LXB_NS_HTML) then nothing
  else match fuel with
       | O => fault
       | S fuel => oe_pop;; clear_loop tags fuel
       end.
Definition clear_stack_back_to (tags : list Z) : M unit := len ← get open_length; clear_loop tags len.

Definition lxb_html_tree_clear_stack_back_to_table_context : M unit :=
  clear_stack_back_to [LXB_TAG_TABLE; LXB_TAG_TEMPLATE; LXB_TAG_HTML].
Definition lxb_html_tree_clear_stack_back_to_table_body : M unit :=
  clear_stack_back_to [LXB_TAG_TBODY; LXB_TAG_TFOOT; LXB_TAG_THEAD; LXB_TAG_TEMPLATE; LXB_TAG_HTML].
Definition lxb_html_tree_clear_stack_back_to_table_row : M unit :=
  clear_stack_back_to [LXB_TAG_TR; LXB_TAG_TEMPLATE; LXB_TAG_HTML].

Definition in_table_scope (tag : Z) : M (option positive) := in_scope_of tag LXB_HTML_TAG_CATEGORY_SCOPE_TABLE.

Section Table.
Context `{TreeAlloc} `{TokenBuffers} `{TreeModes}.

(** ** [in_table.c] *)

(** What "in body" answers is not looked at. *)
Definition lxb_html_tree_insertion_mode_in_table_anything_else : M bool :=
  put (set_foster true);;
  _ ← call_mode IM_in_body;
  status_ok (put (set_foster false);; done).

Definition lxb_html_tree_insertion_mode_in_table_anything_else_closed : M bool := lxb_html_tree_insertion_mode_in_table_anything_else.

Definition lxb_html_tree_insertion_mode_in_table_text_open : M bool :=
  p ← current_node;
  n ← node p;
  if (nd_ns n =? LXB_NS_HTML) && one_of (nd_tag n) [LXB_TAG_TABLE; LXB_TAG_TBODY; LXB_TAG_TFOOT; LXB_TAG_THEAD; LXB_TAG_TR] then
    put (fun t => set_original_mode (t_mode t) (set_pending_non_ws false (set_pending [] t)));;
    mode_is IM_in_table_text;;
    again
  else lxb_html_tree_insertion_mode_in_table_anything_else.

Definition lxb_html_tree_insertion_mode_in_table_comment : M bool := comment_done.
Definition lxb_html_tree_insertion_mode_in_table_doctype : M bool := error_done.

Definition lxb_html_tree_insertion_mode_in_table_caption : M bool :=
  lxb_html_tree_clear_stack_back_to_table_context;;
  push_marker_then (insert_token (mode_is IM_in_caption;; done)).

Definition lxb_html_tree_insertion_mode_in_table_colgroup : M bool :=
  lxb_html_tree_clear_stack_back_to_table_context;; insert_token (mode_is IM_in_column_group;; done).

Definition lxb_html_tree_insertion_mode_in_table_col : M bool :=
  lxb_html_tree_clear_stack_back_to_table_context;; insert_tag LXB_TAG_COLGROUP (mode_is IM_in_column_group;; again).

Definition lxb_html_tree_insertion_mode_in_table_tbtfth : M bool :=
  lxb_html_tree_clear_stack_back_to_table_context;; insert_token (mode_is IM_in_table_body;; done).

Definition lxb_html_tree_insertion_mode_in_table_tdthtr : M bool :=
  lxb_html_tree_clear_stack_back_to_table_context;; insert_tag LXB_TAG_TBODY (mode_is IM_in_table_body;; again).

Definition lxb_html_tree_insertion_mode_in_table_table : M bool :=
  parse_error;;
  p ← in_table_scope LXB_TAG_TABLE;
  match p with
  | None => done
  | Some table => pop_until_node table true;; reset_mode;; again
  end.

Definition lxb_html_tree_insertion_mode_in_table_table_closed : M bool :=
  p ← in_table_scope LXB_TAG_TABLE;
  match p with
  | None => error_done
  | Some table => pop_until_node table true;; reset_mode;; done
  end.

Definition lxb_html_tree_insertion_mode_in_table_bcht_closed : M bool := error_done.

Definition lxb_html_tree_insertion_mode_in_table_st_open_closed : M bool := call_mode IM_in_head.

(** The loop over the attributes: the status, and whether the type is [hidden]. *)
Fixpoint hidden_loop (attrs : list token_attr) : option (Z * bool) :=
  match attrs with
  | [] => Some (LXB_STATUS_OK, false)
  | attr :: attrs =>
      '(s, str) ← lxb_html_token_attr_make_name tb_nodes tb_byte attr [];
      if negb (s =? LXB_STATUS_OK) then Some (s, false)
      else if (str_len str =? 4) && str_data_cmp str (bytes_of "type") then
        '(s, str) ← lxb_html_token_attr_make_value tb_nodes tb_byte attr [];
        if negb (s =? LXB_STATUS_OK) then Some (s, false)
        else if (str_len str =? 6) && lexbor_str_data_casecmp str (bytes_of "hidden") then Some (LXB_STATUS_OK, true)
        else hidden_loop attrs
      else hidden_loop attrs
  end.

Definition lxb_html_tree_insertion_mode_in_table_input : M bool :=
  k ← token;
  '(s, hidden) ← getO (fun _ => hidden_loop (tok_attrs k));
  check_status s (
    if negb hidden then lxb_html_tree_insertion_mode_in_table_anything_else
    else
      parse_error;;
      insert_element k (fun e => pop_until_node e true;; acknowledge_self_closing;; done)).

Definition lxb_html_tree_insertion_mode_in_table_form : M bool :=
  parse_error;;
  form ← get t_form;
  match form with
  | Some _ => done
  | None =>
      temp ← find_reverse LXB_TAG_TEMPLATE;
      match temp with
      | Some _ => done
      | None =>
          k ← token;
          insert_element k (fun e => put (set_form (Some e));; pop_until_node e true;; done)
      end
  end.

Definition lxb_html_tree_insertion_mode_in_table_end_of_file : M bool := call_mode IM_in_body.

Definition lxb_html_tree_insertion_mode_in_table_res : M bool :=
  on_tag [
    ([LXB_TAG__END_OF_FILE], lxb_html_tree_insertion_mode_in_table_end_of_file);
    ([LXB_TAG__TEXT], lxb_html_tree_insertion_mode_in_table_text_open);
    ([LXB_TAG__EM_COMMENT], lxb_html_tree_insertion_mode_in_table_comment);
    ([LXB_TAG__EM_DOCTYPE], lxb_html_tree_insertion_mode_in_table_doctype);
    ([LXB_TAG_CAPTION], lxb_html_tree_insertion_mode_in_table_caption);
    ([LXB_TAG_COL], lxb_html_tree_insertion_mode_in_table_col);
    ([LXB_TAG_COLGROUP], lxb_html_tree_insertion_mode_in_table_colgroup);
    ([LXB_TAG_FORM], lxb_html_tree_insertion_mode_in_table_form);
    ([LXB_TAG_INPUT], lxb_html_tree_insertion_mode_in_table_input);
    ([LXB_TAG_SCRIPT; LXB_TAG_STYLE; LXB_TAG_TEMPLATE], lxb_html_tree_insertion_mode_in_table_st_open_closed);
    ([LXB_TAG_TABLE], lxb_html_tree_insertion_mode_in_table_table);
    ([LXB_TAG_TBODY; LXB_TAG_TFOOT; LXB_TAG_THEAD], lxb_html_tree_insertion_mode_in_table_tbtfth);
    ([LXB_TAG_TD; LXB_TAG_TH; LXB_TAG_TR], lxb_html_tree_insertion_mode_in_table_tdthtr)
  ] lxb_html_tree_insertion_mode_in_table_anything_else.

Definition lxb_html_tree_insertion_mode_in_table_closed_res : M bool :=
  on_tag [
    ([LXB_TAG__END_OF_FILE], lxb_html_tree_insertion_mode_in_table_end_of_file);
    ([LXB_TAG__TEXT], lxb_html_tree_insertion_mode_in_table_text_open);
    ([LXB_TAG__EM_COMMENT], lxb_html_tree_insertion_mode_in_table_comment);
    ([LXB_TAG__EM_DOCTYPE], lxb_html_tree_insertion_mode_in_table_doctype);
    ([LXB_TAG_BODY; LXB_TAG_CAPTION; LXB_TAG_COL; LXB_TAG_COLGROUP; LXB_TAG_HTML; LXB_TAG_TBODY; LXB_TAG_TD; LXB_TAG_TFOOT; LXB_TAG_TH; LXB_TAG_THEAD; LXB_TAG_TR], lxb_html_tree_insertion_mode_in_table_bcht_closed);
    ([LXB_TAG_TABLE], lxb_html_tree_insertion_mode_in_table_table_closed);
    ([LXB_TAG_TEMPLATE], lxb_html_tree_insertion_mode_in_table_st_open_closed)
  ] lxb_html_tree_insertion_mode_in_table_anything_else_closed.

Definition lxb_html_tree_insertion_mode_in_table : M bool :=
  on_tables lxb_html_tree_insertion_mode_in_table_res lxb_html_tree_insertion_mode_in_table_closed_res lxb_html_tree_insertion_mode_in_table_anything_else lxb_html_tree_insertion_mode_in_table_anything_else_closed.

(** ** [in_table_text.c] *)

(** The strings are freed. *)
Definition lxb_html_tree_insertion_mode_in_table_text_erase : M unit :=
  put (fun t => set_pending (map (fun _ => []) (pending_text t)) t).

Definition erase_abort : M bool := lxb_html_tree_insertion_mode_in_table_text_erase;; lxb_html_tree_process_abort.

Definition table_text : M bool :=
  null_error;;
  k ← token;
  put (fun t => set_pending (pending_text t ++ [[]]) t);;
  '(_, s, text) ← getO (fun _ => lxb_html_token_parse_data tb_nodes tb_byte k pc_drop_null []);
  put (set_t_status s);;
  if negb (s =? LXB_STATUS_OK) then erase_abort
  else if (length text =? 0)%nat then put (fun t => set_pending (removelast (pending_text t)) t);; done
  else
    put (fun t => set_pending (removelast (pending_text t) ++ [text]) t);;
    when (negb (lexbor_str_whitespace_from_begin text =? length text)%nat) (put (set_pending_non_ws true));;
    done.

(** The two loops over the pending text. *)
Fixpoint each_text (append : list Z -> M Z) (texts : list (list Z)) (next : M bool) : M bool :=
  match texts with
  | [] => next
  | text :: texts =>
      s ← append text;
      if negb (s =? LXB_STATUS_OK) then erase_abort else each_text append texts next
  end.

Definition append_text (text : list Z) : M Z :=
  '(s, _) ← lxb_html_tree_insert_character_for_data text; put (set_t_status s);; mret s.

Definition flush_text : M bool :=
  texts ← get pending_text;
  non_ws ← get pending_non_ws;
  let back := put (fun t => set_mode (original_mode t) t);; again in
  if (non_ws : bool) then
    parse_error;;
    put (set_foster true);;
    each_text lxb_html_tree_insertion_mode_in_body_text_append texts (put (set_foster false);; back)
  else each_text append_text texts back.

Definition lxb_html_tree_insertion_mode_in_table_text : M bool := on_tag [([LXB_TAG__TEXT], table_text)] flush_text.

(** ** [in_caption.c] *)

(** Both functions, but for the result. *)
Definition end_caption (result : M bool) : M bool :=
  if_in_scope (in_table_scope LXB_TAG_CAPTION) (
    end_element LXB_TAG_CAPTION LXB_TAG__UNDEF LXB_NS__UNDEF;;
    up_to_last_marker;;
    mode_is IM_in_table;;
    result).

Definition lxb_html_tree_insertion_mode_in_caption_caption_closed : M bool := end_caption done.
Definition lxb_html_tree_insertion_mode_in_caption_ct_open_closed : M bool := end_caption again.
Definition lxb_html_tree_insertion_mode_in_caption_bcht_closed : M bool := error_done.
Definition lxb_html_tree_insertion_mode_in_caption_anything_else : M bool := call_mode IM_in_body.
Definition lxb_html_tree_insertion_mode_in_caption_anything_else_closed : M bool := lxb_html_tree_insertion_mode_in_caption_anything_else.

Definition lxb_html_tree_insertion_mode_in_caption_res : M bool :=
  on_tag [
    ([LXB_TAG_CAPTION; LXB_TAG_COL; LXB_TAG_COLGROUP; LXB_TAG_TBODY; LXB_TAG_TD; LXB_TAG_TFOOT; LXB_TAG_TH; LXB_TAG_THEAD; LXB_TAG_TR], lxb_html_tree_insertion_mode_in_caption_ct_open_closed)
  ] lxb_html_tree_insertion_mode_in_caption_anything_else.

Definition lxb_html_tree_insertion_mode_in_caption_closed_res : M bool :=
  on_tag [
    ([LXB_TAG_BODY; LXB_TAG_COL; LXB_TAG_COLGROUP; LXB_TAG_HTML; LXB_TAG_TBODY; LXB_TAG_TD; LXB_TAG_TFOOT; LXB_TAG_TH; LXB_TAG_THEAD; LXB_TAG_TR], lxb_html_tree_insertion_mode_in_caption_bcht_closed);
    ([LXB_TAG_CAPTION], lxb_html_tree_insertion_mode_in_caption_caption_closed);
    ([LXB_TAG_TABLE], lxb_html_tree_insertion_mode_in_caption_ct_open_closed)
  ] lxb_html_tree_insertion_mode_in_caption_anything_else_closed.

Definition lxb_html_tree_insertion_mode_in_caption : M bool :=
  on_tables lxb_html_tree_insertion_mode_in_caption_res lxb_html_tree_insertion_mode_in_caption_closed_res lxb_html_tree_insertion_mode_in_caption_anything_else lxb_html_tree_insertion_mode_in_caption_anything_else_closed.

(** ** [in_column_group.c] *)

(** Both functions, but for the result. *)
Definition end_colgroup (result : M bool) : M bool :=
  p ← current_node;
  colgroup ← is_node p LXB_TAG_COLGROUP;
  if negb colgroup then error_done else oe_pop;; mode_is IM_in_table;; result.

Definition lxb_html_tree_insertion_mode_in_column_group_anything_else : M bool := end_colgroup again.
Definition lxb_html_tree_insertion_mode_in_column_group_anything_else_closed : M bool := lxb_html_tree_insertion_mode_in_column_group_anything_else.
Definition lxb_html_tree_insertion_mode_in_column_group_text : M bool := split_ws lxb_html_tree_insertion_mode_in_column_group_anything_else.
Definition lxb_html_tree_insertion_mode_in_column_group_comment : M bool := comment_done.
Definition lxb_html_tree_insertion_mode_in_column_group_html : M bool := call_mode IM_in_body.
Definition lxb_html_tree_insertion_mode_in_column_group_col : M bool := insert_void done.
Definition lxb_html_tree_insertion_mode_in_column_group_colgroup_closed : M bool := end_colgroup done.
Definition lxb_html_tree_insertion_mode_in_column_group_col_closed : M bool := error_done.
Definition lxb_html_tree_insertion_mode_in_column_group_template_open_closed : M bool := call_mode IM_in_head.
Definition lxb_html_tree_insertion_mode_in_column_group_end_of_file : M bool := call_mode IM_in_body.

Definition lxb_html_tree_insertion_mode_in_column_group_res : M bool :=
  on_tag [
    ([LXB_TAG__END_OF_FILE], lxb_html_tree_insertion_mode_in_column_group_end_of_file);
    ([LXB_TAG__TEXT], lxb_html_tree_insertion_mode_in_column_group_text);
    ([LXB_TAG__EM_COMMENT], lxb_html_tree_insertion_mode_in_column_group_comment);
    ([LXB_TAG_COL], lxb_html_tree_insertion_mode_in_column_group_col);
    ([LXB_TAG_HTML], lxb_html_tree_insertion_mode_in_column_group_html);
    ([LXB_TAG_TEMPLATE], lxb_html_tree_insertion_mode_in_column_group_template_open_closed)
  ] lxb_html_tree_insertion_mode_in_column_group_anything_else.

Definition lxb_html_tree_insertion_mode_in_column_group_closed_res : M bool :=
  on_tag [
    ([LXB_TAG__END_OF_FILE], lxb_html_tree_insertion_mode_in_column_group_end_of_file);
    ([LXB_TAG__TEXT], lxb_html_tree_insertion_mode_in_column_group_text);
    ([LXB_TAG__EM_COMMENT], lxb_html_tree_insertion_mode_in_column_group_comment);
    ([LXB_TAG_COL], lxb_html_tree_insertion_mode_in_column_group_col_closed);
    ([LXB_TAG_COLGROUP], lxb_html_tree_insertion_mode_in_column_group_colgroup_closed);
    ([LXB_TAG_TEMPLATE], lxb_html_tree_insertion_mode_in_column_group_template_open_closed)
  ] lxb_html_tree_insertion_mode_in_column_group_anything_else_closed.

Definition lxb_html_tree_insertion_mode_in_column_group : M bool :=
  on_tables lxb_html_tree_insertion_mode_in_column_group_res lxb_html_tree_insertion_mode_in_column_group_closed_res
    lxb_html_tree_insertion_mode_in_column_group_anything_else lxb_html_tree_insertion_mode_in_column_group_anything_else_closed.

(** ** [in_table_body.c] *)

Definition lxb_html_tree_insertion_mode_in_table_body_tr : M bool :=
  lxb_html_tree_clear_stack_back_to_table_body;; insert_token (mode_is IM_in_row;; done).

Definition lxb_html_tree_insertion_mode_in_table_body_thtd : M bool :=
  parse_error;;
  lxb_html_tree_clear_stack_back_to_table_body;;
  k ← token;
  insert_element (with_attrs [] (with_tag_id LXB_TAG_TR k)) (fun _ => mode_is IM_in_row;; again).

Definition leave_table_body (result : M bool) : M bool :=
  lxb_html_tree_clear_stack_back_to_table_body;; oe_pop;; mode_is IM_in_table;; result.

Definition lxb_html_tree_insertion_mode_in_table_body_tbtfth_closed : M bool :=
  tag ← token_tag;
  if_in_scope (in_table_scope tag) (leave_table_body done).

Definition lxb_html_tree_insertion_mode_in_table_body_ct_open_closed : M bool :=
  if_in_scope (getO lxb_html_tree_element_in_scope_tbody_thead_tfoot) (leave_table_body again).

Definition lxb_html_tree_insertion_mode_in_table_body_bcht_closed : M bool := error_done.
Definition lxb_html_tree_insertion_mode_in_table_body_anything_else : M bool := call_mode IM_in_table.
Definition lxb_html_tree_insertion_mode_in_table_body_anything_else_closed : M bool := lxb_html_tree_insertion_mode_in_table_body_anything_else.

Definition lxb_html_tree_insertion_mode_in_table_body_res : M bool :=
  on_tag [
    ([LXB_TAG_CAPTION; LXB_TAG_COL; LXB_TAG_COLGROUP; LXB_TAG_TBODY; LXB_TAG_TFOOT; LXB_TAG_THEAD], lxb_html_tree_insertion_mode_in_table_body_ct_open_closed);
    ([LXB_TAG_TD; LXB_TAG_TH], lxb_html_tree_insertion_mode_in_table_body_thtd);
    ([LXB_TAG_TR], lxb_html_tree_insertion_mode_in_table_body_tr)
  ] lxb_html_tree_insertion_mode_in_table_body_anything_else.

Definition lxb_html_tree_insertion_mode_in_table_body_closed_res : M bool :=
  on_tag [
    ([LXB_TAG_BODY; LXB_TAG_CAPTION; LXB_TAG_COL; LXB_TAG_COLGROUP; LXB_TAG_HTML; LXB_TAG_TD; LXB_TAG_TH; LXB_TAG_TR], lxb_html_tree_insertion_mode_in_table_body_bcht_closed);
    ([LXB_TAG_TABLE], lxb_html_tree_insertion_mode_in_table_body_ct_open_closed);
    ([LXB_TAG_TBODY; LXB_TAG_TFOOT; LXB_TAG_THEAD], lxb_html_tree_insertion_mode_in_table_body_tbtfth_closed)
  ] lxb_html_tree_insertion_mode_in_table_body_anything_else_closed.

Definition lxb_html_tree_insertion_mode_in_table_body : M bool :=
  on_tables lxb_html_tree_insertion_mode_in_table_body_res lxb_html_tree_insertion_mode_in_table_body_closed_res
    lxb_html_tree_insertion_mode_in_table_body_anything_else lxb_html_tree_insertion_mode_in_table_body_anything_else_closed.

(** ** [in_row.c] *)

Definition lxb_html_tree_insertion_mode_in_row_thtd : M bool :=
  lxb_html_tree_clear_stack_back_to_table_row;; insert_token (mode_is IM_in_cell;; push_marker_then done).

Definition leave_row (result : M bool) : M bool :=
  lxb_html_tree_clear_stack_back_to_table_row;; oe_pop;; mode_is IM_in_table_body;; result.

Definition lxb_html_tree_insertion_mode_in_row_tr_closed : M bool := if_in_scope (in_table_scope LXB_TAG_TR) (leave_row done).
Definition lxb_html_tree_insertion_mode_in_row_ct_open_closed : M bool := if_in_scope (in_table_scope LXB_TAG_TR) (leave_row again).

Definition lxb_html_tree_insertion_mode_in_row_tbtfth_closed : M bool :=
  tag ← token_tag;
  if_in_scope (in_table_scope tag) (
    p ← in_table_scope LXB_TAG_TR;
    match p with None => done | Some _ => leave_row again end).

Definition lxb_html_tree_insertion_mode_in_row_bcht_closed : M bool := error_done.
Definition lxb_html_tree_insertion_mode_in_row_anything_else : M bool := call_mode IM_in_table.
Definition lxb_html_tree_insertion_mode_in_row_anything_else_closed : M bool := lxb_html_tree_insertion_mode_in_row_anything_else.

Definition lxb_html_tree_insertion_mode_in_row_res : M bool :=
  on_tag [
    ([LXB_TAG_CAPTION; LXB_TAG_COL; LXB_TAG_COLGROUP; LXB_TAG_TBODY; LXB_TAG_TFOOT; LXB_TAG_THEAD; LXB_TAG_TR], lxb_html_tree_insertion_mode_in_row_ct_open_closed);
    ([LXB_TAG_TD; LXB_TAG_TH], lxb_html_tree_insertion_mode_in_row_thtd)
  ] lxb_html_tree_insertion_mode_in_row_anything_else.

Definition lxb_html_tree_insertion_mode_in_row_closed_res : M bool :=
  on_tag [
    ([LXB_TAG_BODY; LXB_TAG_CAPTION; LXB_TAG_COL; LXB_TAG_COLGROUP; LXB_TAG_HTML; LXB_TAG_TD; LXB_TAG_TH], lxb_html_tree_insertion_mode_in_row_bcht_closed);
    ([LXB_TAG_TABLE], lxb_html_tree_insertion_mode_in_row_ct_open_closed);
    ([LXB_TAG_TBODY; LXB_TAG_TFOOT; LXB_TAG_THEAD], lxb_html_tree_insertion_mode_in_row_tbtfth_closed);
    ([LXB_TAG_TR], lxb_html_tree_insertion_mode_in_row_tr_closed)
  ] lxb_html_tree_insertion_mode_in_row_anything_else_closed.

Definition lxb_html_tree_insertion_mode_in_row : M bool :=
  on_tables lxb_html_tree_insertion_mode_in_row_res lxb_html_tree_insertion_mode_in_row_closed_res lxb_html_tree_insertion_mode_in_row_anything_else lxb_html_tree_insertion_mode_in_row_anything_else_closed.

(** ** [in_cell.c] *)

Definition lxb_html_tree_close_cell : M unit :=
  implied_end_tags LXB_TAG__UNDEF LXB_NS__UNDEF;;
  p ← current_node;
  td ← is_node p LXB_TAG_TD;
  th ← is_node p LXB_TAG_TH;
  when (negb td && negb th) parse_error;;
  putO lxb_html_tree_open_elements_pop_until_td_th;;
  up_to_last_marker;;
  mode_is IM_in_row.

Definition lxb_html_tree_insertion_mode_in_cell_tdth_closed : M bool :=
  tag ← token_tag;
  if_in_scope (in_table_scope tag) (
    end_element tag LXB_TAG__UNDEF LXB_NS__UNDEF;;
    up_to_last_marker;;
    mode_is IM_in_row;;
    done).

Definition lxb_html_tree_insertion_mode_in_cell_ct : M bool :=
  if_in_scope (getO lxb_html_tree_element_in_scope_td_th) (lxb_html_tree_close_cell;; again).

Definition lxb_html_tree_insertion_mode_in_cell_bch_closed : M bool := error_done.

Definition lxb_html_tree_insertion_mode_in_cell_t_closed : M bool :=
  tag ← token_tag;
  if_in_scope (in_table_scope tag) (lxb_html_tree_close_cell;; again).

Definition lxb_html_tree_insertion_mode_in_cell_anything_else : M bool := call_mode IM_in_body.
Definition lxb_html_tree_insertion_mode_in_cell_anything_else_closed : M bool := lxb_html_tree_insertion_mode_in_cell_anything_else.

Definition lxb_html_tree_insertion_mode_in_cell_res : M bool :=
  on_tag [
    ([LXB_TAG_CAPTION; LXB_TAG_COL; LXB_TAG_COLGROUP; LXB_TAG_TBODY; LXB_TAG_TD; LXB_TAG_TFOOT; LXB_TAG_TH; LXB_TAG_THEAD; LXB_TAG_TR], lxb_html_tree_insertion_mode_in_cell_ct)
  ] lxb_html_tree_insertion_mode_in_cell_anything_else.

Definition lxb_html_tree_insertion_mode_in_cell_closed_res : M bool :=
  on_tag [
    ([LXB_TAG_BODY; LXB_TAG_CAPTION; LXB_TAG_COL; LXB_TAG_COLGROUP; LXB_TAG_HTML], lxb_html_tree_insertion_mode_in_cell_bch_closed);
    ([LXB_TAG_TABLE; LXB_TAG_TBODY; LXB_TAG_TFOOT; LXB_TAG_THEAD; LXB_TAG_TR], lxb_html_tree_insertion_mode_in_cell_t_closed);
    ([LXB_TAG_TD; LXB_TAG_TH], lxb_html_tree_insertion_mode_in_cell_tdth_closed)
  ] lxb_html_tree_insertion_mode_in_cell_anything_else_closed.

Definition lxb_html_tree_insertion_mode_in_cell : M bool :=
  on_tables lxb_html_tree_insertion_mode_in_cell_res lxb_html_tree_insertion_mode_in_cell_closed_res lxb_html_tree_insertion_mode_in_cell_anything_else lxb_html_tree_insertion_mode_in_cell_anything_else_closed.
End Table.
