(* ===== verification/TreeSelect.v ===== *)
(** * Select, template and foreign content: [in_select.c], [in_select_in_table.c],
    [in_template.c], [foreign_content.c], with their tables *)
From Stdlib Require Import String.
From S2P Require Import Prelude.
From S2P Require Import In.
From S2P Require Import Tag.
From S2P Require Import TkzBase.
From S2P Require Import ParserChar.
From S2P Require Import TokenParse.
From S2P Require Import DomNode.
From S2P Require Import DomAttr.
From S2P Require Import TreeAttr.
From S2P Require Import TagCat.
From S2P Require Import TagConst.
From S2P Require Import Array.
From S2P Require Import TreeStack.
From S2P Require Import TreeM.
From S2P Require Import TreeInsert.
From S2P Require Import TreeAdopt.
From S2P Require Import TreeMode.
From S2P Require Import TreeBody.
From S2P Require Import TreeTable.

Section Select.
Context `{TreeAlloc} `{TokenBuffers} `{TreeModes}.

(** ** [in_select.c] *)

Definition lxb_html_tree_insertion_mode_in_select_anything_else : M bool := error_done.
Definition lxb_html_tree_insertion_mode_in_select_anything_else_closed : M bool := error_done.

Definition lxb_html_tree_insertion_mode_in_select_text : M bool :=
  null_error;;
  token_text pc_drop_null (fun str =>
    if (length str =? 0)%nat then done else insert_data str done).

Definition lxb_html_tree_insertion_mode_in_select_comment : M bool := comment_done.
Definition lxb_html_tree_insertion_mode_in_select_doctype : M bool := error_done.
Definition lxb_html_tree_insertion_mode_in_select_html : M bool := call_mode IM_in_body.

Definition lxb_html_tree_insertion_mode_in_select_option : M bool := pop_if_current LXB_TAG_OPTION;; insert_token done.
Definition lxb_html_tree_insertion_mode_in_select_optgroup : M bool :=
  pop_if_current LXB_TAG_OPTION;; pop_if_current LXB_TAG_OPTGROUP;; insert_token done.

Definition lxb_html_tree_insertion_mode_in_select_optgroup_closed : M bool :=
  p ← current_node;
  option_ ← is_node p LXB_TAG_OPTION;
  len ← get open_length;
  (if option_ && (1 <? len)%nat then
     p ← get (fun t => lxb_html_tree_open_elements_get t (Z.of_nat len - 2));
     match p with
     | Some _ => optgroup ← is_node p LXB_TAG_OPTGROUP; when optgroup oe_pop
     | None => nothing
     end
   else nothing);;
  p ← current_node;
  optgroup ← is_node p LXB_TAG_OPTGROUP;
  if negb optgroup then error_done else oe_pop;; done.

Definition lxb_html_tree_insertion_mode_in_select_option_closed : M bool :=
  p ← current_node;
  option_ ← is_node p LXB_TAG_OPTION;
  if negb option_ then error_done else oe_pop;; done.

Definition select_in_scope : M (option positive) := in_scope_of LXB_TAG_SELECT LXB_HTML_TAG_CATEGORY_SCOPE_SELECT.
Definition leave_select : M unit := pop_until_tag LXB_TAG_SELECT;; reset_mode.

Definition lxb_html_tree_insertion_mode_in_select_select_closed : M bool := if_in_scope select_in_scope (leave_select;; done).

(** Both functions, but for the result. *)
Definition end_select (scope : M (option positive)) (result : M bool) : M bool :=
  parse_error;;
  p ← scope;
  match p with None => done | Some _ => leave_select;; result end.

Definition lxb_html_tree_insertion_mode_in_select_select : M bool := end_select select_in_scope done.
Definition lxb_html_tree_insertion_mode_in_select_ikt : M bool := end_select select_in_scope again.
Definition lxb_html_tree_insertion_mode_in_select_st_open_closed : M bool := call_mode IM_in_head.
Definition lxb_html_tree_insertion_mode_in_select_end_of_file : M bool := call_mode IM_in_body.

Definition lxb_html_tree_insertion_mode_in_select_res : M bool :=
  on_tag [
    ([LXB_TAG__END_OF_FILE], lxb_html_tree_insertion_mode_in_select_end_of_file);
    ([LXB_TAG__TEXT], lxb_html_tree_insertion_mode_in_select_text);
    ([LXB_TAG__EM_COMMENT], lxb_html_tree_insertion_mode_in_select_comment);
    ([LXB_TAG__EM_DOCTYPE], lxb_html_tree_insertion_mode_in_select_doctype);
    ([LXB_TAG_HTML], lxb_html_tree_insertion_mode_in_select_html);
    ([LXB_TAG_INPUT; LXB_TAG_KEYGEN; LXB_TAG_TEXTAREA], lxb_html_tree_insertion_mode_in_select_ikt);
    ([LXB_TAG_OPTGROUP], lxb_html_tree_insertion_mode_in_select_optgroup);
    ([LXB_TAG_OPTION], lxb_html_tree_insertion_mode_in_select_option);
    ([LXB_TAG_SCRIPT; LXB_TAG_TEMPLATE], lxb_html_tree_insertion_mode_in_select_st_open_closed);
    ([LXB_TAG_SELECT], lxb_html_tree_insertion_mode_in_select_select)
  ] lxb_html_tree_insertion_mode_in_select_anything_else.

Definition lxb_html_tree_insertion_mode_in_select_closed_res : M bool :=
  on_tag [
    ([LXB_TAG__END_OF_FILE], lxb_html_tree_insertion_mode_in_select_end_of_file);
    ([LXB_TAG__TEXT], lxb_html_tree_insertion_mode_in_select_text);
    ([LXB_TAG__EM_COMMENT], lxb_html_tree_insertion_mode_in_select_comment);
    ([LXB_TAG__EM_DOCTYPE], lxb_html_tree_insertion_mode_in_select_doctype);
    ([LXB_TAG_OPTGROUP], lxb_html_tree_insertion_mode_in_select_optgroup_closed);
    ([LXB_TAG_OPTION], lxb_html_tree_insertion_mode_in_select_option_closed);
    ([LXB_TAG_SELECT], lxb_html_tree_insertion_mode_in_select_select_closed);
    ([LXB_TAG_TEMPLATE], lxb_html_tree_insertion_mode_in_select_st_open_closed)
  ] lxb_html_tree_insertion_mode_in_select_anything_else_closed.

Definition lxb_html_tree_insertion_mode_in_select : M bool :=
  on_tables lxb_html_tree_insertion_mode_in_select_res lxb_html_tree_insertion_mode_in_select_closed_res lxb_html_tree_insertion_mode_in_select_anything_else lxb_html_tree_insertion_mode_in_select_anything_else_closed.

(** ** [in_select_in_table.c] *)

Definition lxb_html_tree_insertion_mode_in_select_in_table_ct : M bool := parse_error;; leave_select;; again.
Definition lxb_html_tree_insertion_mode_in_select_in_table_ct_closed : M bool :=
  tag ← token_tag; end_select (in_table_scope tag) again.
Definition lxb_html_tree_insertion_mode_in_select_in_table_anything_else : M bool := call_mode IM_in_select.
Definition lxb_html_tree_insertion_mode_in_select_in_table_anything_else_closed : M bool := lxb_html_tree_insertion_mode_in_select_in_table_anything_else.

Definition lxb_html_tree_insertion_mode_in_select_in_table_res : M bool :=
  on_tag [
    ([LXB_TAG_CAPTION; LXB_TAG_TABLE; LXB_TAG_TBODY; LXB_TAG_TD; LXB_TAG_TFOOT; LXB_TAG_TH; LXB_TAG_THEAD; LXB_TAG_TR], lxb_html_tree_insertion_mode_in_select_in_table_ct)
  ] lxb_html_tree_insertion_mode_in_select_in_table_anything_else.

Definition lxb_html_tree_insertion_mode_in_select_in_table_closed_res : M bool :=
  on_tag [
    ([LXB_TAG_CAPTION; LXB_TAG_TABLE; LXB_TAG_TBODY; LXB_TAG_TD; LXB_TAG_TFOOT; LXB_TAG_TH; LXB_TAG_THEAD; LXB_TAG_TR], lxb_html_tree_insertion_mode_in_select_in_table_ct_closed)
  ] lxb_html_tree_insertion_mode_in_select_in_table_anything_else_closed.

Definition lxb_html_tree_insertion_mode_in_select_in_table : M bool :=
  on_tables lxb_html_tree_insertion_mode_in_select_in_table_res lxb_html_tree_insertion_mode_in_select_in_table_closed_res
    lxb_html_tree_insertion_mode_in_select_in_table_anything_else lxb_html_tree_insertion_mode_in_select_in_table_anything_else_closed.

(** ** [in_template.c] *)

(** The template's mode is replaced. *)
Definition template_mode (mode : insertion_mode) : M bool :=
  _ ← lxb_html_tree_template_insertion_pop;
  s ← lxb_html_tree_template_insertion_push mode;
  check_status s (mode_is mode;; again).

Definition lxb_html_tree_insertion_mode_in_template_text_comment_doctype : M bool := call_mode IM_in_body.
Definition lxb_html_tree_insertion_mode_in_template_blmnst_open_closed : M bool := call_mode IM_in_head.
Definition lxb_html_tree_insertion_mode_in_template_ct : M bool := template_mode IM_in_table.
Definition lxb_html_tree_insertion_mode_in_template_col : M bool := template_mode IM_in_column_group.
Definition lxb_html_tree_insertion_mode_in_template_tr : M bool := template_mode IM_in_table_body.
Definition lxb_html_tree_insertion_mode_in_template_tdth : M bool := template_mode IM_in_row.

Definition lxb_html_tree_insertion_mode_in_template_end_of_file : M bool :=
  temp ← find_first_open LXB_TAG_TEMPLATE;
  match temp with
  | None => stop_parsing_done
  | Some _ =>
      parse_error;;
      pop_until_tag LXB_TAG_TEMPLATE;;
      up_to_last_marker;;
      _ ← lxb_html_tree_template_insertion_pop;
      reset_mode;;
      again
  end.

Definition lxb_html_tree_insertion_mode_in_template_anything_else : M bool := template_mode IM_in_body.
Definition lxb_html_tree_insertion_mode_in_template_anything_else_closed : M bool := error_done.

Definition lxb_html_tree_insertion_mode_in_template_res : M bool :=
  on_tag [
    ([LXB_TAG__END_OF_FILE], lxb_html_tree_insertion_mode_in_template_end_of_file);
    ([LXB_TAG__TEXT; LXB_TAG__EM_COMMENT; LXB_TAG__EM_DOCTYPE], lxb_html_tree_insertion_mode_in_template_text_comment_doctype);
    ([LXB_TAG_BASE; LXB_TAG_BASEFONT; LXB_TAG_BGSOUND; LXB_TAG_LINK; LXB_TAG_META; LXB_TAG_NOFRAMES; LXB_TAG_SCRIPT; LXB_TAG_STYLE; LXB_TAG_TEMPLATE; LXB_TAG_TITLE], lxb_html_tree_insertion_mode_in_template_blmnst_open_closed);
    ([LXB_TAG_CAPTION; LXB_TAG_COLGROUP; LXB_TAG_TBODY; LXB_TAG_TFOOT; LXB_TAG_THEAD], lxb_html_tree_insertion_mode_in_template_ct);
    ([LXB_TAG_COL], lxb_html_tree_insertion_mode_in_template_col);
    ([LXB_TAG_TD; LXB_TAG_TH], lxb_html_tree_insertion_mode_in_template_tdth);
    ([LXB_TAG_TR], lxb_html_tree_insertion_mode_in_template_tr)
  ] lxb_html_tree_insertion_mode_in_template_anything_else.

Definition lxb_html_tree_insertion_mode_in_template_closed_res : M bool :=
  on_tag [
    ([LXB_TAG__END_OF_FILE], lxb_html_tree_insertion_mode_in_template_end_of_file);
    ([LXB_TAG__TEXT; LXB_TAG__EM_COMMENT; LXB_TAG__EM_DOCTYPE], lxb_html_tree_insertion_mode_in_template_text_comment_doctype);
    ([LXB_TAG_TEMPLATE], lxb_html_tree_insertion_mode_in_template_blmnst_open_closed)
  ] lxb_html_tree_insertion_mode_in_template_anything_else_closed.

Definition lxb_html_tree_insertion_mode_in_template : M bool :=
  on_tables lxb_html_tree_insertion_mode_in_template_res lxb_html_tree_insertion_mode_in_template_closed_res lxb_html_tree_insertion_mode_in_template_anything_else lxb_html_tree_insertion_mode_in_template_anything_else_closed.

(** ** [foreign_content.c] *)

(** Whether there is more than white space and U+FFFD. *)
Fixpoint foreign_non_ws (l : list Z) : bool :=
  match l with
  | [] => false
  | c :: r =>
      if c =? 0xEF then
        match r with
        | c1 :: c2 :: r => if (c1 =? 0xBF) && (c2 =? 0xBD) then foreign_non_ws r else true
        | _ => true
        end
      else if negb (is_space c) then true
      else foreign_non_ws r
  end.

Definition lxb_html_tree_insertion_mode_foreign_content_text : M bool :=
  null_error;;
  k ← token;
  '(_, s, str) ← getO (fun _ =>
    process_span tb_nodes tb_byte (pc_with PC_data false true pc_zero) [] (tok_in_begin k) (tok_begin k) (tok_end k));
  check_status s (
    if (length str =? 0)%nat then done
    else
      insert_data str (
        ok ← get frameset_ok;
        when (ok && foreign_non_ws str) not_frameset_ok;;
        done)).

Definition lxb_html_tree_insertion_mode_foreign_content_comment : M bool := comment_done.
Definition lxb_html_tree_insertion_mode_foreign_content_doctype : M bool := error_done.

(** The search down the stack, from the element at an index; the first element is
    not looked at. *)
Fixpoint foreign_closed_loop (tag : Z) (idx : nat) : M bool :=
  match idx with
  | O => call_current
  | S idx' =>
      p ← getO (fun t => open_list t !! idx);
      n ← node p;
      if nd_tag n =? tag then p ← getO (fun _ => p); pop_until_node p true;; done
      else
        q ← getO (fun t => open_list t !! idx');
        m ← node q;
        if nd_ns m =? LXB_NS_HTML then call_current else foreign_closed_loop tag idx'
  end.

Definition lxb_html_tree_insertion_mode_foreign_content_anything_else_closed : M bool :=
  len ← get open_length;
  match len with
  | O => call_current
  | S idx =>
      tag ← token_tag;
      (if (0 <? idx)%nat then
         p ← getO (fun t => open_list t !! idx);
         n ← node p;
         when (negb (nd_tag n =? tag)) parse_error
       else nothing);;
      foreign_closed_loop tag idx
  end.

Definition lxb_html_tree_insertion_mode_foreign_content_script_closed : M bool :=
  p ← current_node;
  n ← node p;
  if negb (nd_tag n =? LXB_TAG_SCRIPT) || negb (nd_ns n =? LXB_NS_SVG) then lxb_html_tree_insertion_mode_foreign_content_anything_else_closed
  else oe_pop;; done.

(** [lxb_dom_element_qualified_name_set(element, NULL, 0, name, len)] *)
Definition qualified_name_set (element : positive) (name : list Z) : M unit :=
  on_node (set_nd_qname (Some (mk_qname name 0 (str_len name)))) element.

Definition lxb_html_tree_insertion_mode_foreign_content_anything_else : M bool :=
  p ← get lxb_html_tree_adjusted_current_node;
  n ← node p;
  (if nd_ns n =? LXB_NS_MATH then put (set_before_append (Some lxb_html_tree_adjust_attributes_mathml))
   else when (nd_ns n =? LXB_NS_SVG) (put (set_before_append (Some lxb_html_tree_adjust_attributes_svg))));;
  k ← token;
  element ← lxb_html_tree_insert_foreign_element k (nd_ns n);
  match element with
  | None => put (set_before_append None);; put (set_t_status LXB_STATUS_ERROR_MEMORY_ALLOCATION);; lxb_html_tree_process_abort
  | Some e =>
      n ← node p;
      (if nd_ns n =? LXB_NS_SVG then
         el ← node (Some e);
         match lxb_html_tag_fixname_svg (nd_tag el) with
         | Some name => qualified_name_set e name
         | None => nothing
         end
       else nothing);;
      put (set_before_append None);;
      self ← token_has LXB_HTML_TOKEN_TYPE_CLOSE_SELF;
      if negb (self : bool) then done
      else
        p ← current_node;
        n ← node p;
        if (tok_tag_id k =? LXB_TAG_SCRIPT) && (nd_ns n =? LXB_NS_SVG) then
          acknowledge_self_closing;; lxb_html_tree_insertion_mode_foreign_content_script_closed
        else oe_pop;; acknowledge_self_closing;; done
  end.

(** The loop over the attributes of a [font]: the status, and whether one of
    [color], [face] and [size] is there. *)
Fixpoint font_loop (attrs : list token_attr) : option (Z * bool) :=
  match attrs with
  | [] => Some (LXB_STATUS_OK, false)
  | attr :: attrs =>
      '(s, str) ← lxb_html_token_attr_make_name tb_nodes tb_byte attr [];
      if negb (s =? LXB_STATUS_OK) then Some (s, false)
      else if (str_len str =? 5) && str_data_cmp (bytes_of "color") str then Some (s, true)
      else if (str_len str =? 4) && (str_data_cmp (bytes_of "face") str || str_data_cmp (bytes_of "size") str)
      then Some (s, true)
      else font_loop attrs
  end.

Definition integration_point_or_html (t : html_tree) (p : option positive) : option bool :=
  i ← p;
  n ← node_at t p;
  html ← lxb_html_tree_html_integration_point (t_dom t) i;
  Some (lxb_html_tree_mathml_text_integration_point n || html || (nd_ns n =? LXB_NS_HTML)).

(** [do { pop } while (..)]; each turn takes an element off the stack. *)
Fixpoint leave_foreign (fuel : nat) : M unit :=
  oe_pop;;
  p ← current_node;
  match p with
  | None => nothing
  | Some _ =>
      stop ← getO (fun t => integration_point_or_html t p);
      if (stop : bool) then nothing
      else match fuel with O => fault | S fuel => leave_foreign fuel end
  end.

Definition foreign_breakout : M bool :=
  parse_error;;
  fragment ← get t_fragment;
  match fragment with
  | Some _ => lxb_html_tree_insertion_mode_foreign_content_anything_else
  | None => len ← get open_length; leave_foreign len;; again
  end.

Definition lxb_html_tree_insertion_mode_foreign_content_all : M bool :=
  k ← token;
  if tok_tag_id k =? LXB_TAG_FONT then
    '(s, breakout) ← getO (fun _ => font_loop (tok_attrs k));
    check_status s (if (breakout : bool) then foreign_breakout else lxb_html_tree_insertion_mode_foreign_content_anything_else)
  else foreign_breakout.

Definition lxb_html_tree_insertion_mode_foreign_content_res : M bool :=
  on_tag [
    ([LXB_TAG__TEXT], lxb_html_tree_insertion_mode_foreign_content_text);
    ([LXB_TAG__EM_COMMENT], lxb_html_tree_insertion_mode_foreign_content_comment);
    ([LXB_TAG__EM_DOCTYPE], lxb_html_tree_insertion_mode_foreign_content_doctype);
    ([LXB_TAG_B; LXB_TAG_BIG; LXB_TAG_BLOCKQUOTE; LXB_TAG_BODY; LXB_TAG_BR; LXB_TAG_CENTER; LXB_TAG_CODE; LXB_TAG_DD; LXB_TAG_DIV; LXB_TAG_DL; LXB_TAG_DT; LXB_TAG_EM; LXB_TAG_EMBED; LXB_TAG_FONT; LXB_TAG_H1;
      LXB_TAG_H2; LXB_TAG_H3; LXB_TAG_H4; LXB_TAG_H5; LXB_TAG_H6; LXB_TAG_HEAD; LXB_TAG_HR; LXB_TAG_I; LXB_TAG_IMG; LXB_TAG_LI; LXB_TAG_LISTING; LXB_TAG_MENU; LXB_TAG_META; LXB_TAG_NOBR; LXB_TAG_OL; LXB_TAG_P; LXB_TAG_PRE;
      LXB_TAG_RUBY; LXB_TAG_S; LXB_TAG_SMALL; LXB_TAG_SPAN; LXB_TAG_STRIKE; LXB_TAG_STRONG; LXB_TAG_SUB; LXB_TAG_SUP; LXB_TAG_TABLE; LXB_TAG_TT; LXB_TAG_U; LXB_TAG_UL; LXB_TAG_VAR], lxb_html_tree_insertion_mode_foreign_content_all)
  ] lxb_html_tree_insertion_mode_foreign_content_anything_else.

Definition lxb_html_tree_insertion_mode_foreign_content_closed_res : M bool :=
  on_tag [
    ([LXB_TAG__TEXT], lxb_html_tree_insertion_mode_foreign_content_text);
    ([LXB_TAG__EM_COMMENT], lxb_html_tree_insertion_mode_foreign_content_comment);
    ([LXB_TAG__EM_DOCTYPE], lxb_html_tree_insertion_mode_foreign_content_doctype);
    ([LXB_TAG_SCRIPT], lxb_html_tree_insertion_mode_foreign_content_script_closed)
  ] lxb_html_tree_insertion_mode_foreign_content_anything_else_closed.

Definition lxb_html_tree_insertion_mode_foreign_content : M bool :=
  on_tables lxb_html_tree_insertion_mode_foreign_content_res lxb_html_tree_insertion_mode_foreign_content_closed_res
    lxb_html_tree_insertion_mode_foreign_content_anything_else lxb_html_tree_insertion_mode_foreign_content_anything_else_closed.
End Select.
