(* ===== verification/TreeLogic.v ===== *)
(** * Reasoning about the computations of the tree builder

    [post P x Q]: when [x], started where [P] holds, ends with a result, [Q] holds
    of the result and the state it ends in.  The operations on the two stacks only
    take entries away ([fewer]); the fields the modes write are written one by one
    ([minor]). *)
From S2P Require Import Prelude.
From S2P Require Import Tag.
From S2P Require Import TagHeap.
From S2P Require Import TkzBase.
From S2P Require Import DomNode.
From S2P Require Import DomAttr.
From S2P Require Import TagCat.
From S2P Require Import Array.
From S2P Require Import TreeStack.
From S2P Require Import TreeM.
From S2P Require Import TreeInitial.
From S2P Require Import TreeMode.

(** ** Computations and what holds after them *)

Definition post {A} (P : html_tree -> Prop) (x : M A) (Q : A -> html_tree -> Prop) : Prop :=
  forall t a t', P t -> x t = Some (a, t') -> Q a t'.

Lemma post_weaken {A} (P P' : html_tree -> Prop) (x : M A) (Q Q' : A -> html_tree -> Prop) : post P' x Q' ->
  (forall t, P t -> P' t) -> (forall a t, Q' a t -> Q a t) -> post P x Q.
Proof. intros H HP HQ t a t' Ht E. exact (HQ _ _ (H t a t' (HP t Ht) E)). Qed.

Lemma post_bind {A B} P (x : M A) (f : A -> M B) (R : A -> html_tree -> Prop) Q :
  post P x R -> (forall a, post (R a) (f a) Q) -> post P (x ≫= f) Q.
Proof.
  intros Hx Hf t b t' Ht E. unfold mbind, M_bind in E. destruct (x t) as [[a t1]|] eqn:Ex; [|done].
  exact (Hf a t1 b t' (Hx t a t1 Ht Ex) E).
Qed.

Lemma post_ret {A} (P : html_tree -> Prop) (a : A) (Q : A -> html_tree -> Prop) : (forall t, P t -> Q a t) -> post P (mret a) Q.
Proof. intros H t b t' Ht [= <- <-]. by apply H. Qed.

(** Reading tells what was read. *)
Lemma post_get {A B} (P : html_tree -> Prop) (g : html_tree -> A) (f : A -> M B) Q :
  (forall a, post (fun t => P t /\ g t = a) (f a) Q) -> post P (get g ≫= f) Q.
Proof. intros H t b t' Ht E. by apply (H (g t) t b t'). Qed.

Lemma post_getO {A B} (P : html_tree -> Prop) (g : html_tree -> option A) (f : A -> M B) Q :
  (forall a, post (fun t => P t /\ g t = Some a) (f a) Q) -> post P (getO g ≫= f) Q.
Proof.
  intros H t b t' Ht E. unfold mbind, M_bind, getO in E. destruct (g t) as [a|] eqn:Eg; [|done]. by apply (H a t b t').
Qed.

Lemma post_put (P : html_tree -> Prop) f (Q : unit -> html_tree -> Prop) : (forall t, P t -> Q tt (f t)) -> post P (put f) Q.
Proof. intros H t [] t' Ht [= <-]. by apply H. Qed.

Lemma post_putO (P : html_tree -> Prop) f (Q : unit -> html_tree -> Prop) :
  (forall t t', P t -> f t = Some t' -> Q tt t') -> post P (putO f) Q.
Proof.
  intros H t [] t' Ht E. unfold putO in E. destruct (f t) as [t1|] eqn:Ef; [|done]. injection E as <-. by eapply H.
Qed.

Lemma post_on_dom {A} (P : html_tree -> Prop) (f : dom -> option (A * dom)) (Q : A -> html_tree -> Prop) :
  (forall t a d, P t -> f (t_dom t) = Some (a, d) -> Q a (set_dom d t)) -> post P (on_dom f) Q.
Proof.
  intros H t a t' Ht E. unfold on_dom in E. destruct (f (t_dom t)) as [[b d]|] eqn:Ef; [|done].
  injection E as -> <-. by apply H.
Qed.

Lemma post_fault {A} P (Q : A -> html_tree -> Prop) : post P fault Q.
Proof. intros t a t' _ E. discriminate E. Qed.

Lemma post_if {A} P (b : bool) (x y : M A) Q : post P x Q -> post P y Q -> post P (if b then x else y) Q.
Proof. by destruct b. Qed.

(** A computation that keeps a property of the state. *)
Definition keeps {A} (P : html_tree -> Prop) (x : M A) : Prop := post P x (fun _ => P).

Lemma keeps_when P b x : keeps P x -> keeps P (when b x).
Proof. destruct b; [done|]. intros _. by apply post_ret. Qed.

(** ** Fields that the modes write *)

Inductive minor : html_tree -> html_tree -> Prop :=
  | minor_status s t : minor t (set_t_status s t)
  | minor_complete b t : minor t (set_complete b t)
  | minor_error t : minor t (lxb_html_tree_parse_error t)
  | minor_mode m t : minor t (set_mode m t)
  | minor_original m t : minor t (set_original_mode m t)
  | minor_pending l t : minor t (set_pending l t)
  | minor_pending_non_ws b t : minor t (set_pending_non_ws b t)
  | minor_foster b t : minor t (set_foster b t)
  | minor_frameset b t : minor t (set_frameset_ok b t)
  | minor_templates l t : minor t (set_templates l t)
  | minor_before f t : minor t (set_before_append f t)
  | minor_token k t : minor t (set_t_token k t)
  | minor_tkz_state s t : text_state s = true -> minor t (set_tkz_state (Some s) t)
  | minor_tkz_state_none t : minor t (set_tkz_state None t)
  | minor_tags h t : minor t (set_dom (mk_dom (d_nodes (t_dom t)) (d_attrs (t_dom t))
      (mk_owner (doc_html (d_owner (t_dom t))) (doc_quirks (d_owner (t_dom t))) h)) t)
  | minor_tkz_tag v t : minor t (set_tkz_tag v t)
  | minor_form t : minor t (set_form None t)
  | minor_quirks o t : minor t (set_dom (mk_dom (d_nodes (t_dom t)) (d_attrs (t_dom t)) o) t)
  | minor_limited b t : minor t (set_limited_quirks b t).

Ltac minors := repeat (eapply rtc_r; [|constructor; done]); apply rtc_refl.

(** ** Taking entries off the stacks *)

(** The state with other stacks, mode, errors and over-reads. *)
Definition restack (a b : lexbor_array) (m : option insertion_mode) (e : Z) (v : bool) t :=
  mk_tree (t_dom t) (t_content t) (t_doctypes t) (t_document t) (t_element t) (t_head t) (t_body t) (t_doctype t)
    (t_limited_quirks t) (t_scripting t) (t_iframe_srcdoc t) (t_complete t) a b (template_insertion_modes t) (t_fragment t)
    (t_form t) (pending_text t) (pending_non_ws t) (foster_parenting t) (frameset_ok t) m (original_mode t)
    (before_append_attr t) (t_status t) e (t_token t) (t_tkz_state t) (t_tkz_tag t) v.

Definition part_of (a a0 : lexbor_array) : Prop := sublist (ar_items a) (ar_items a0) /\ ar_size a = ar_size a0.
Definition among (a a0 : lexbor_array) : Prop := ar_items a ⊆ ar_items a0.

Definition fewer t t' : Prop := exists a b m e v,
  t' = restack a b m e v t /\ part_of a (open_elements t) /\ among b (active_formatting t).

Lemma part_refl a : part_of a a.
Proof. by split. Qed.

Lemma among_refl a : among a a.
Proof. by intros x. Qed.

Lemma part_trans a b c : part_of a b -> part_of b c -> part_of a c.
Proof. intros [H1 E1] [H2 E2]. split; [by etrans | by rewrite E1]. Qed.

Lemma part_items l a : sublist l (ar_items a) -> part_of (set_items l a) a.
Proof. by split. Qed.

Lemma part_truncate n a : part_of (truncate n a) a.
Proof. apply part_items, sublist_take. Qed.

Lemma part_remove n a : part_of (remove_at n a) a.
Proof. apply part_items, sublist_delete. Qed.

Lemma part_among a b : part_of a b -> among a b.
Proof. intros [H _] x. by apply sublist_subseteq. Qed.

Lemma restack_self t : t = restack (open_elements t) (active_formatting t) (t_mode t) (parse_errors t) (overread t) t.
Proof. by destruct t. Qed.

Lemma fewer_refl t : fewer t t.
Proof. do 5 eexists. split; [apply restack_self|]. split; [apply part_refl | apply among_refl]. Qed.

Lemma fewer_trans t1 t2 t3 : fewer t1 t2 -> fewer t2 t3 -> fewer t1 t3.
Proof.
  intros (a & b & m & e & v & -> & Ha & Hb) (a' & b' & m' & e' & v' & -> & Ha' & Hb').
  exists a', b', m', e', v'. split; [done|]. split; [exact (part_trans _ _ _ Ha' Ha) | intros x Hx; apply Hb, Hb', Hx].
Qed.

Lemma fewer_open a t : part_of a (open_elements t) -> fewer t (set_open a t).
Proof. intros Ha. exists a, (active_formatting t), (t_mode t), (parse_errors t), (overread t). split; [done|]. split; [done | apply among_refl]. Qed.

Lemma fewer_fmt b t : among b (active_formatting t) -> fewer t (set_formatting b t).
Proof. intros Hb. exists (open_elements t), b, (t_mode t), (parse_errors t), (overread t). split; [done|]. split; [apply part_refl | exact Hb]. Qed.

Lemma fewer_mode m t : fewer t (set_mode m t).
Proof. exists (open_elements t), (active_formatting t), m, (parse_errors t), (overread t). split; [done|]. split; [apply part_refl | apply among_refl]. Qed.

Lemma fewer_error t : fewer t (lxb_html_tree_parse_error t).
Proof. exists (open_elements t), (active_formatting t), (t_mode t), (parse_errors t + 1), (overread t). split; [done|]. split; [apply part_refl | apply among_refl]. Qed.

Lemma fewer_overread k a t t' : fewer t t' -> fewer t (note_overread k a t').
Proof.
  intros H. eapply fewer_trans; [exact H|]. eexists (open_elements t'), (active_formatting t'), (t_mode t'), (parse_errors t'), _. split; [reflexivity|]. split; [apply part_refl | apply among_refl].
Qed.

Create HintDb fewer discriminated.
#[export] Hint Resolve fewer_refl fewer_open fewer_fmt fewer_mode fewer_error fewer_overread part_among part_truncate part_remove part_items : fewer.

(** An operation with a possible fault. *)
Definition fewerO (f : html_tree -> option html_tree) : Prop := forall t t', f t = Some t' -> fewer t t'.

Lemma fewerO_pop_open test ex t t' : pop_open t test ex = Some t' -> fewer t t'.
Proof. unfold pop_open. intros H. destruct (pop_until _ _ _ _); [|done]. injection H as <-. eauto with fewer. Qed.

Lemma fewer_pop_tag tag ns ex : fewerO (fun t => lxb_html_tree_open_elements_pop_until_tag_id t tag ns ex).
Proof. intros t t' H. exact (fewerO_pop_open _ _ _ _ H). Qed.

Lemma fewer_pop_node p ex : fewerO (fun t => lxb_html_tree_open_elements_pop_until_node t p ex).
Proof. intros t t' H. exact (fewerO_pop_open _ _ _ _ H). Qed.

Lemma fewer_pop_h123456 : fewerO lxb_html_tree_open_elements_pop_until_h123456.
Proof. intros t t' H. exact (fewerO_pop_open _ _ _ _ H). Qed.

Lemma fewer_pop_td_th : fewerO lxb_html_tree_open_elements_pop_until_td_th.
Proof. intros t t' H. exact (fewerO_pop_open _ _ _ _ H). Qed.

Lemma fewer_pop t : fewer t (lxb_html_tree_open_elements_pop t).
Proof.
  apply fewer_open. unfold lexbor_array_pop. destruct (_ =? 0); [apply part_refl|]. apply part_items, sublist_take.
Qed.

Lemma fewer_remove_open node : fewerO (fun t => lxb_html_tree_open_elements_remove_by_node t node).
Proof.
  intros t t' H. cbn in H. unfold lxb_html_tree_open_elements_remove_by_node in H.
  destruct (search_down _ _ _) as [[idx|]|]; [| |done]; injection H as <-; eauto with fewer.
Qed.

Lemma fewer_remove_fmt node : fewerO (fun t => lxb_html_tree_active_formatting_remove_by_node t node).
Proof.
  intros t t' H. cbn in H. unfold lxb_html_tree_active_formatting_remove_by_node in H.
  destruct (search_down _ _ _) as [[idx|]|]; [| |done]; injection H as <-; eauto with fewer.
Qed.

Lemma fewer_implied tags tag ns fuel : fewerO (implied_loop tags tag ns fuel).
Proof.
  assert (Hsame : forall t t' : html_tree, Some t = Some t' -> fewer t t') by (intros t t' [= <-]; apply fewer_refl).
  induction fuel as [|fuel IH]; intros t t'; cbn [implied_loop]; (destruct (open_length t =? 0)%nat; [apply Hsame|]);
    (destruct (node_at _ _) as [n|]; [|done]); cbn [mbind option_bind];
    (destruct (one_of _ _); [|apply Hsame]); (destruct (node_is _ _ _); [apply Hsame|]); [done|].
  intros H. eapply fewer_trans; [apply fewer_pop | by apply IH].
Qed.

Lemma fewer_implied_tags tag ns : fewerO (fun t => lxb_html_tree_generate_implied_end_tags t tag ns).
Proof. intros t t' H. exact (fewer_implied _ _ _ _ _ _ H). Qed.

Lemma fewer_all_implied tag ns : fewerO (fun t => lxb_html_tree_generate_all_implied_end_tags_thoroughly t tag ns).
Proof. intros t t' H. exact (fewer_implied _ _ _ _ _ _ H). Qed.

Lemma fewer_close_p : fewerO lxb_html_tree_close_p_element.
Proof.
  intros t t' H. unfold lxb_html_tree_close_p_element in H.
  destruct (lxb_html_tree_generate_implied_end_tags _ _ _) as [t1|] eqn:E1; [|done]. apply fewer_implied in E1.
  cbn in H. destruct (node_at _ _); [|done]. cbn in H. apply fewerO_pop_open in H.
  eapply fewer_trans; [exact E1|]. destruct (negb _); [|done]. eapply fewer_trans; [apply fewer_error | exact H].
Qed.

Lemma fewer_reset : fewerO lxb_html_tree_reset_insertion_mode_appropriately.
Proof.
  intros t t' H. unfold lxb_html_tree_reset_insertion_mode_appropriately in H.
  destruct (reset_loop _ _) as [[m|]|]; [| |done]; injection H as <-; eauto with fewer.
Qed.

Lemma fewer_marker marker : fewerO (lxb_html_tree_active_formatting_up_to_last_marker marker).
Proof.
  intros t t' H. unfold lxb_html_tree_active_formatting_up_to_last_marker in H.
  destruct (pop_until _ _ _ _); [|done]. injection H as <-. eauto with fewer.
Qed.

Lemma fewer_remove_at idx t : fewer t (lxb_html_tree_active_formatting_remove t idx).
Proof.
  apply fewer_fmt. unfold lexbor_array_delete, among. repeat case_match; cbn; try done; intros x.
  - intros Hx. eapply sublist_subseteq; [apply sublist_take | exact Hx].
  - rewrite elem_of_app. intros [Hx|Hx]; [eapply sublist_subseteq; [apply sublist_take|] | eapply sublist_subseteq; [apply sublist_drop|]]; exact Hx.
Qed.

Lemma fewer_clear t : fewer t (set_open (set_items [] (open_elements t)) t).
Proof. apply fewer_open, part_items, sublist_nil_l. Qed.

#[export] Hint Resolve fewer_pop_tag fewer_pop_node fewer_pop_h123456 fewer_pop_td_th fewer_pop fewer_remove_open fewer_remove_fmt fewer_implied_tags fewer_all_implied fewer_close_p fewer_reset
  fewer_marker fewer_clear : fewer.

(** ** Computations that end

    [wp x Q t]: the computation [x], started in [t], ends, and [Q] holds of its
    result and of the state it ends in.  Where [post] of [TreeLogic] says what holds
    if a computation ends, [wp] says that it does, so that no pointer it follows is
    NULL or dangling. *)
Definition wp {A} (x : M A) (Q : A -> html_tree -> Prop) (t : html_tree) : Prop :=
  exists a t', x t = Some (a, t') /\ Q a t'.

Lemma wp_weaken {A} (x : M A) (Q Q' : A -> html_tree -> Prop) t : wp x Q' t -> (forall a t', Q' a t' -> Q a t') -> wp x Q t.
Proof. intros (a & t' & E & H) HQ. exists a, t'. auto. Qed.

Lemma wp_bind {A B} (x : M A) (f : A -> M B) Q t : wp x (fun a => wp (f a) Q) t -> wp (x ≫= f) Q t.
Proof.
  intros (a & t1 & E & b & t2 & E' & H). exists b, t2. split; [|exact H]. unfold mbind, M_bind. by rewrite E.
Qed.

(** Through an intermediate assertion. *)
Lemma wp_seq {A B} (R : A -> html_tree -> Prop) (x : M A) (f : A -> M B) Q t : wp x R t ->
  (forall a t', R a t' -> wp (f a) Q t') -> wp (x ≫= f) Q t.
Proof. intros Hx Hf. apply wp_bind. by eapply wp_weaken. Qed.

Lemma wp_ret {A} (a : A) (Q : A -> html_tree -> Prop) t : Q a t -> wp (mret a) Q t.
Proof. intros H. by exists a, t. Qed.

Lemma wp_get {A} (f : html_tree -> A) (Q : A -> html_tree -> Prop) t : Q (f t) t -> wp (get f) Q t.
Proof. intros H. by exists (f t), t. Qed.

Lemma wp_getO {A} (f : html_tree -> option A) a (Q : A -> html_tree -> Prop) t : f t = Some a -> Q a t -> wp (getO f) Q t.
Proof. intros E H. exists a, t. unfold getO. by rewrite E. Qed.

Lemma wp_put f (Q : unit -> html_tree -> Prop) t : Q tt (f t) -> wp (put f) Q t.
Proof. intros H. by exists tt, (f t). Qed.

Lemma wp_putO f t' (Q : unit -> html_tree -> Prop) t : f t = Some t' -> Q tt t' -> wp (putO f) Q t.
Proof. intros E H. exists tt, t'. unfold putO. by rewrite E. Qed.

Lemma wp_on_dom {A} (f : dom -> option (A * dom)) a d (Q : A -> html_tree -> Prop) t : f (t_dom t) = Some (a, d) ->
  Q a (set_dom d t) -> wp (on_dom f) Q t.
Proof. intros E H. exists a, (set_dom d t). unfold on_dom. by rewrite E. Qed.

(** What [wp] says, as a rule for a step in front. *)
Lemma wp_step {A B} (x : M A) (f : A -> M B) a t' Q t : x t = Some (a, t') -> wp (f a) Q t' -> wp (x ≫= f) Q t.
Proof. intros E H. apply wp_bind. by exists a, t'. Qed.

Lemma wp_of {A} (x : M A) a t' (Q : A -> html_tree -> Prop) t : x t = Some (a, t') -> Q a t' -> wp x Q t.
Proof. intros E H. by exists a, t'. Qed.

Lemma wp_mode_is m (Q : unit -> html_tree -> Prop) t : Q tt (set_mode (Some m) t) -> wp (mode_is m) Q t.
Proof. apply wp_put. Qed.

Lemma wp_nothing (Q : unit -> html_tree -> Prop) t : Q tt t -> wp nothing Q t.
Proof. apply wp_ret. Qed.

(** One rule at a time; what is left are the operations with a lemma of their own. *)
Ltac wp1 :=
  lazymatch goal with
  | |- wp (mbind _ _) _ _ => apply wp_bind
  | |- wp (mret _) _ _ => apply wp_ret
  | |- wp done _ _ => apply wp_ret
  | |- wp again _ _ => apply wp_ret
  | |- wp nothing _ _ => apply wp_ret
  | |- wp token _ _ => apply wp_get
  | |- wp (get _) _ _ => apply wp_get
  | |- wp (put _) _ _ => apply wp_put
  | |- wp (mode_is _) _ _ => apply wp_put
  | |- wp parse_error _ _ => apply wp_put
  | |- wp (when true _) _ _ => unfold when
  | |- wp (when false _) _ _ => apply wp_ret
  end.
Ltac wps := repeat wp1.

(** A [switch] runs the row of the tag. *)
Fixpoint row_of (tag : Z) (rows : list (list Z)) : nat :=
  match rows with [] => O | tags :: rows => if one_of tag tags then O else S (row_of tag rows) end.

Lemma pick_nth {A} tag (rows : list (list Z * A)) d : pick tag rows d = nth (row_of tag (map fst rows)) (map snd rows) d.
Proof. induction rows as [|[tags x] rows IH]; [done|]. cbn [pick row_of map fst snd]. destruct (one_of tag tags); [done | exact IH]. Qed.

(** All the tags of a list go to the same row. *)
Lemma row_all tags n rows tag : forallb (fun tag => Nat.eqb (row_of tag rows) n) tags = true -> one_of tag tags = true -> row_of tag rows = n.
Proof.
  intros H Ht. rewrite forallb_forall in H. unfold one_of in Ht. apply existsb_exists in Ht as (x & Hx & E). apply Z.eqb_eq in E as <-.
  by apply Nat.eqb_eq, H.
Qed.

Lemma wp_on_tag rows d Q t : wp (nth (row_of (tok_tag_id (t_token t)) (map fst rows)) (map snd rows) d) Q t -> wp (on_tag rows d) Q t.
Proof. intros H. unfold on_tag. apply wp_bind, wp_get. by rewrite pick_nth. Qed.

Lemma wp_on_close x y Q t : wp (if Z.land (tok_type (t_token t)) LXB_HTML_TOKEN_TYPE_CLOSE =? 0 then y else x) Q t -> wp (on_close x y) Q t.
Proof. intros H. unfold on_close, token_has. wps. by destruct (_ =? 0). Qed.

Lemma wp_on_tables res closed other other_closed Q t : tok_tag_id (t_token t) < LXB_TAG__LAST_ENTRY ->
  wp (if Z.land (tok_type (t_token t)) LXB_HTML_TOKEN_TYPE_CLOSE =? 0 then res else closed) Q t ->
  wp (on_tables res closed other other_closed) Q t.
Proof.
  intros Ht H. unfold on_tables. apply wp_bind, wp_get. destruct (_ >=? _) eqn:E; [|by apply wp_on_close]. exfalso.
  rewrite Z.geb_leb in E. apply Z.leb_le in E. lia.
Qed.
