(* ===== verification/TreeKeep.v ===== *)
(** * What the insertion modes keep

    A property of the state that the operations of [html/tree.c] keep is kept by
    every insertion mode, whatever the token.  An operation may fail for want of
    memory: then a weaker property holds, the mode answers that the token is done
    with and [tree->status] is set. *)
From S2P Require Import Prelude.
From S2P Require Import Tag.
From S2P Require Import TkzBase.
From S2P Require Import TokenParse.
From S2P Require Import DomNode.
From S2P Require Import DomAttr.
From S2P Require Import TagCat.
From S2P Require Import TagConst.
From S2P Require Import Array.
From S2P Require Import TreeStack.
From S2P Require Import TreeM.
From S2P Require Import TreeInsert.
From S2P Require Import TreeAdopt.
From S2P Require Import TreeMode.
From S2P Require Import TreeInitial.
From S2P Require Import TreeHead.
From S2P Require Import TreeBody.
From S2P Require Import TreeTable.
From S2P Require Import TreeSelect.
From S2P Require Import TreeLogic.

(** A status, or a node, and what holds: [P], or after a failure [Pf]. *)
Definition ok_or (P Pf : html_tree -> Prop) (s : Z) (t : html_tree) : Prop := if s =? LXB_STATUS_OK then P t else Pf t.
Definition some_or (P Pf : html_tree -> Prop) (live : positive -> html_tree -> Prop) (o : option positive) (t : html_tree) : Prop :=
  match o with Some e => P t /\ live e t | None => Pf t end.

(** The result of a mode. *)
Definition kept_or_failed (P Pf : html_tree -> Prop) (b : bool) (t : html_tree) : Prop :=
  P t \/ b = true /\ t_status t <> LXB_STATUS_OK /\ Pf t.

Definition good (P Pf : html_tree -> Prop) (x : M bool) : Prop := post P x (kept_or_failed P Pf).

(** A place for a comment: the appropriate one, the document, the first element. *)
Definition comment_place (pos : option positive) (t : html_tree) : Prop :=
  pos = None \/ pos = Some (t_document t) \/ pos = lxb_html_tree_open_elements_first t.

Class Kept `{TreeAlloc} `{TokenBuffers} (P Pf : html_tree -> Prop) (live : positive -> html_tree -> Prop) : Prop := {
  kept_weaken t : P t -> Pf t;
  kept_minor t t' : minor t t' -> P t -> P t';
  kept_fewer t t' : fewer t t' -> P t -> P t';
  failed_minor t t' : minor t t' -> Pf t -> Pf t';
  failed_fewer t t' : fewer t t' -> Pf t -> Pf t';
  kept_head e t : P t -> live e t -> P (set_head (Some e) t);
  kept_body e t : P t -> live e t -> P (set_body (Some e) t);
  kept_form e t : P t -> live e t -> P (set_form (Some e) t);
  kept_element k ns : post P (lxb_html_tree_insert_foreign_element k ns) (some_or P Pf live);
  kept_formatting e : post (fun t => P t /\ live e t) (push_with_check_dupl e) (fun _ => P);
  kept_marker : keeps P push_marker;
  kept_reconstruct : post P lxb_html_tree_active_formatting_reconstruct_elements (ok_or P Pf);
  kept_adoption k : post P (lxb_html_tree_adoption_agency_algorithm k) (fun r => ok_or P Pf (snd r));
  kept_comment k pos : post (fun t => P t /\ comment_place pos t) (lxb_html_tree_insert_comment k pos) (some_or P Pf live);
  kept_characters str : post P (lxb_html_tree_insert_character_for_data str) (fun r => ok_or P Pf (fst r));
  kept_attributes e k ns : keeps P (append_attributes e k ns);
  kept_delete e : keeps P (lxb_html_tree_node_delete_deep e);
  kept_push_head e : post (fun t => P t /\ t_head t = Some e) (lxb_html_tree_open_elements_push (Some e)) (fun _ => P);
  kept_qualified_name e name : keeps P (qualified_name_set e name);
  kept_destroy_template e : keeps Pf (lxb_html_template_element_interface_destroy e);
  kept_doctype : good P Pf lxb_html_tree_insertion_mode_initial_doctype;
  kept_html_start : good P Pf html_start;
  kept_before_html : good P Pf lxb_html_tree_insertion_mode_before_html_anything_else;
  kept_script : good P Pf lxb_html_tree_insertion_mode_in_head_script
}.

Section Keep.
Context `{TreeAlloc} `{TokenBuffers} {P Pf : html_tree -> Prop} {live : positive -> html_tree -> Prop} {K : Kept P Pf live}.

#[local] Abbreviation good := (good P Pf).

Lemma kept_minors t t' : rtc minor t t' -> P t -> P t'.
Proof. induction 1 as [|t1 t2 t3 H12 _ IH]; [done|]. intros Ht. by apply IH, (kept_minor t1). Qed.

(** ** The ways a mode ends *)

Lemma good_ret b : good (mret b).
Proof. apply post_ret. by left. Qed.

Lemma abort_is t : lxb_html_tree_process_abort t =
  let t1 := if t_status t =? LXB_STATUS_OK then set_t_status LXB_STATUS_ABORTED t else t in
  Some (true, set_complete true (set_open (set_items [] (open_elements t1)) t1)).
Proof. unfold lxb_html_tree_process_abort, mbind, M_bind, get, when. by destruct (t_status t =? LXB_STATUS_OK). Qed.

Lemma fail_abort : post Pf lxb_html_tree_process_abort (kept_or_failed P Pf).
Proof.
  intros t b t' Ht. rewrite abort_is. intros [= <- <-]. right. split; [done|].
  split; [by destruct (t_status t =? LXB_STATUS_OK) eqn:E; bool_to_prop|].
  eapply failed_minor; [constructor|]. eapply failed_fewer; [apply fewer_clear|].
  destruct (t_status t =? LXB_STATUS_OK); [|done]. eapply failed_minor; [constructor | done].
Qed.

Lemma fail_status s : post Pf (put (set_t_status s);; lxb_html_tree_process_abort) (kept_or_failed P Pf).
Proof.
  apply (post_bind _ _ _ (fun _ => Pf)); [|intros _; apply fail_abort]. apply post_put. intros t Ht. eapply failed_minor, Ht. constructor.
Qed.

Lemma good_abort : good lxb_html_tree_process_abort.
Proof. eapply post_weaken; [apply fail_abort | apply kept_weaken | done]. Qed.

Lemma check_ok s k : good k -> post (ok_or P Pf s) (check_status s k) (kept_or_failed P Pf).
Proof.
  intros Hk. unfold check_status, ok_or. destruct (s =? LXB_STATUS_OK); [|apply fail_status].
  apply (post_bind _ _ _ (fun _ => P)); [|intros _; exact Hk]. apply post_put. intros t Ht. eapply kept_minor, Ht. constructor.
Qed.

Lemma good_check s k : good k -> good (check_status s k).
Proof.
  intros Hk. eapply post_weaken; [apply (check_ok s k Hk) | | done].
  intros t Ht. unfold ok_or. destruct (_ =? _); [done | by apply kept_weaken].
Qed.

Lemma not_null_ok (R : positive -> html_tree -> Prop) o k :
  (forall e, post (fun t => P t /\ R e t) (k e) (kept_or_failed P Pf)) ->
  post (some_or P Pf R o) (not_null o k) (kept_or_failed P Pf).
Proof. intros Hk. destruct o as [e|]; [apply Hk | apply fail_status]. Qed.

Lemma or_abort_ok o k : good k -> post (some_or P Pf live o) (or_abort o k) (kept_or_failed P Pf).
Proof. intros Hk. destruct o as [e|]; [|apply fail_abort]. eapply post_weaken; [exact Hk | by intros t [Ht _] | done]. Qed.

(** A mode whose answer is not looked at, but for [tree->status]. *)
Lemma good_ignore x k : good x -> good k -> good (x ≫= fun _ => status_ok k).
Proof.
  intros Hx Hk. eapply post_bind; [exact Hx|]. intros b t b' t' [Ht|(-> & Hs & Ht)] E; unfold status_ok, mbind, M_bind, get in E.
  - destruct (t_status t =? LXB_STATUS_OK); [by eapply Hk | by eapply good_abort].
  - destruct (t_status t =? LXB_STATUS_OK) eqn:Es; bool_to_prop; [done|]. by eapply fail_abort.
Qed.

(** ** Steps that fail in no way *)

Lemma keeps_get {A} (f : html_tree -> A) : keeps P (get f).
Proof. by intros t a t' Ht [= <- <-]. Qed.

Lemma keeps_getO {A} (f : html_tree -> option A) : keeps P (getO f).
Proof. intros t a t' Ht E. unfold getO in E. destruct (f t); [|done]. by injection E as <- <-. Qed.

Lemma keeps_ret {A} (a : A) : keeps P (mret a).
Proof. by apply post_ret. Qed.

Lemma keeps_bind {A B} (x : M A) (f : A -> M B) : keeps P x -> (forall a, keeps P (f a)) -> keeps P (x ≫= f).
Proof. intros Hx Hf. exact (post_bind _ _ _ _ _ Hx Hf). Qed.

Lemma keeps_put f : (forall t, rtc minor t (f t)) -> keeps P (put f).
Proof. intros Hf. apply post_put. intros t Ht. by apply (kept_minors t). Qed.

Lemma keeps_fewer f : fewerO f -> keeps P (putO f).
Proof. intros Hf. apply post_putO. intros t t' Ht E. by eapply kept_fewer, Ht; apply Hf. Qed.

Lemma keeps_pop : keeps P oe_pop.
Proof. apply post_put. intros t Ht. by eapply kept_fewer, Ht; apply fewer_pop. Qed.

Lemma good_bind {A} (x : M A) (f : A -> M bool) : keeps P x -> (forall a, good (f a)) -> good (x ≫= f).
Proof. intros Hx Hf. exact (post_bind _ _ _ _ _ Hx Hf). Qed.

(** What is known besides is not used. *)
Lemma good_with (Q : html_tree -> Prop) x : good x -> post (fun t => P t /\ Q t) x (kept_or_failed P Pf).
Proof. intros Hx. eapply post_weaken; [exact Hx | by intros t [Ht _] | done]. Qed.

Lemma good_push e x : good x -> post (fun t => P t /\ live e t) (push_with_check_dupl e;; x) (kept_or_failed P Pf).
Proof. intros Hx. exact (post_bind _ _ _ _ _ (kept_formatting e) (fun _ => Hx)). Qed.

Lemma good_set (f : html_tree -> html_tree) e x : (forall t, P t -> live e t -> P (f t)) -> good x ->
  post (fun t => P t /\ live e t) (put f;; x) (kept_or_failed P Pf).
Proof.
  intros Hf Hx. apply (post_bind _ _ _ (fun _ => P)); [|intros _; exact Hx]. apply post_put. intros t [Ht He]. by apply Hf.
Qed.

Lemma good_comment_at pos : post (fun t => P t /\ comment_place pos t) (insert_comment_at pos) (some_or P Pf live).
Proof.
  apply post_get. intros k. eapply post_weaken; [apply (kept_comment k pos) | by intros t [Ht _] | done].
Qed.

Lemma good_comment_done : good comment_done.
Proof.
  unfold comment_done. eapply post_bind.
  - eapply post_weaken; [apply (good_comment_at None) | by intros t Ht; split; [|left] | by intros o t Ho; exact Ho].
  - intros o. apply not_null_ok. intros e. apply good_with, good_ret.
Qed.

Lemma good_comment_or_abort pos : post (fun t => P t /\ comment_place pos t) (comment_or_abort pos) (kept_or_failed P Pf).
Proof. eapply post_bind; [apply good_comment_at|]. intros o. apply or_abort_ok, good_ret. Qed.

Lemma good_comment_none : good (comment_or_abort None).
Proof. eapply post_weaken; [apply (good_comment_or_abort None) | by intros t Ht; split; [|left] | done]. Qed.

Lemma good_comment_document : good (document ← get t_document; comment_or_abort (Some document)).
Proof.
  apply post_get. intros p. eapply post_weaken; [apply (good_comment_or_abort (Some p)) | | done].
  intros t [Ht <-]. split; [done | by right; left].
Qed.

Lemma good_comment_first : good (html_node ← get lxb_html_tree_open_elements_first; comment_or_abort html_node).
Proof.
  apply post_get. intros p. eapply post_weaken; [apply (good_comment_or_abort p) | | done].
  intros t [Ht <-]. split; [done | by right; right].
Qed.

Lemma good_pick rows d tag : Forall (fun r => good (snd r)) rows -> good d -> good (pick tag rows d).
Proof. intros Hr Hd. induction Hr as [|[tags x] rows Hx _ IH]; [done|]. cbn. by destruct (one_of _ _). Qed.

Lemma good_on_tag rows d : Forall (fun r => good (snd r)) rows -> good d -> good (on_tag rows d).
Proof. intros Hr Hd. apply good_bind; [apply keeps_get|]. intros k. by apply good_pick. Qed.

(** ** What the modes share *)

Lemma good_on_close closed open : good closed -> good open -> good (on_close closed open).
Proof. intros Hc Ho. apply good_bind; [by apply keeps_bind; [apply keeps_get | intros k; apply keeps_ret]|]. by intros []. Qed.

Lemma good_on_tables res closed_res d dc : good res -> good closed_res -> good d -> good dc -> good (on_tables res closed_res d dc).
Proof.
  intros Hr Hc Hd Hdc. apply good_bind; [apply keeps_get|]. intros k. destruct (_ >=? _); by apply good_on_close.
Qed.

Lemma good_error_done : good error_done.
Proof. apply good_bind; [apply keeps_put; intros t; minors | intros _; apply good_ret]. Qed.

Lemma good_stop : good stop_parsing_done.
Proof.
  apply good_bind; [|intros s; apply good_check, good_ret].
  apply keeps_bind; [apply keeps_put; intros t; minors | intros _; apply keeps_ret].
Qed.

Lemma good_insert_element k next : (forall e, post (fun t => P t /\ live e t) (next e) (kept_or_failed P Pf)) -> good (insert_element k next).
Proof. intros Hk. eapply post_bind; [apply kept_element|]. intros o. by apply not_null_ok. Qed.

Lemma good_insert_tag tag next : good next -> good (insert_tag tag next).
Proof. intros Hk. apply good_insert_element. intros e. by apply good_with. Qed.

Lemma good_insert_token next : good next -> good (insert_token next).
Proof. intros Hk. apply good_bind; [apply keeps_get|]. intros k. apply good_insert_element. intros e. by apply good_with. Qed.

Lemma keeps_error : keeps P parse_error.
Proof. apply keeps_put. intros t. minors. Qed.

Lemma keeps_acknowledge : keeps P acknowledge_self_closing.
Proof.
  apply keeps_bind; [apply keeps_get|]. intros k. unfold lxb_html_tree_acknowledge_token_self_closing.
  destruct (_ =? 0); [apply keeps_ret | apply keeps_when, keeps_error].
Qed.

Lemma good_insert_void next : good next -> good (insert_void next).
Proof.
  intros Hk. apply good_insert_token, good_bind; [apply keeps_pop | intros _].
  apply good_bind; [apply keeps_acknowledge | by intros _].
Qed.

Lemma good_reconstruct next : good next -> good (reconstruct next).
Proof. intros Hk. eapply post_bind; [apply kept_reconstruct | intros s; by apply check_ok]. Qed.

Lemma good_marker next : good next -> good (push_marker_then next).
Proof. intros Hk. apply good_bind; [apply kept_marker | intros s; by apply good_check]. Qed.

Lemma good_adoption next : good next -> good (adoption_agency next).
Proof.
  intros Hk. apply good_bind; [apply keeps_get|]. intros k.
  eapply post_bind; [apply kept_adoption | intros [r s]; by apply check_ok].
Qed.

Lemma good_insert_data str next : good next -> good (insert_data str next).
Proof. intros Hk. eapply post_bind; [apply kept_characters | intros [s n]; by apply check_ok]. Qed.

Lemma ok_or_kept s t : P t -> ok_or P Pf s t.
Proof. intros Ht. unfold ok_or. destruct (_ =? _); [done | by apply kept_weaken]. Qed.

Lemma good_insert_characters k next : good next -> good (insert_characters k next).
Proof.
  intros Hk. apply (post_bind _ _ _ (fun r => ok_or P Pf (fst r))); [|intros [s n]; by apply check_ok].
  apply post_getO. intros [s str].
  apply (post_weaken _ P _ _ (fun r => ok_or P Pf (fst r))); [| by intros t [Ht _] | done].
  destruct (negb _); [apply post_ret; intros t Ht; by apply ok_or_kept | apply kept_characters].
Qed.

Lemma good_token_text pc next : (forall str, good (next str)) -> good (token_text pc next).
Proof.
  intros Hk. apply good_bind; [apply keeps_get|]. intros k. apply good_bind; [apply keeps_getO|].
  intros [[pc' s] str]. by apply good_check.
Qed.

Lemma good_skip_ws next : good next -> good (skip_ws next).
Proof.
  intros Hk. apply good_bind; [apply keeps_get|]. intros k. apply good_bind; [apply keeps_getO|]. intros [k' s].
  apply good_bind; [apply keeps_put; intros t; minors|]. intros _. apply good_check. destruct (_ =? _); [apply good_ret | done].
Qed.

Lemma good_split_ws next : good next -> good (split_ws next).
Proof.
  intros Hk. apply good_bind; [apply keeps_get|]. intros k. apply good_bind; [apply keeps_getO|]. intros [[k' ws] s].
  apply good_bind; [apply keeps_put; intros t; minors|]. intros _. apply good_check.
  assert (Hrest : good (if tok_begin k' =? tok_end k' then done else next)) by (destruct (_ =? _); [apply good_ret | done]).
  cbn zeta. destruct (negb _); [by apply good_insert_characters | done].
Qed.

Lemma good_if_all_ws yes no : good yes -> good no -> good (if_all_ws yes no).
Proof.
  intros Hy Hn. apply good_bind; [apply keeps_get|]. intros k. apply good_bind; [apply keeps_getO|]. intros [ws s].
  apply good_check. by destruct (_ =? _).
Qed.

Lemma good_if_in_scope scope next : keeps P scope -> good next -> good (if_in_scope scope next).
Proof. intros Hs Hk. apply good_bind; [exact Hs|]. intros [p|]; [done | apply good_error_done]. Qed.

(** ** Raw text *)

Lemma generic_ok s k : text_state s = true -> post P (generic_parsing s k) (some_or P Pf (fun _ _ => True)).
Proof.
  intros Hs. eapply post_bind; [apply kept_element|]. intros [e|]; [|by apply post_ret].
  assert (Hput : forall f, (forall t, rtc minor t (f t)) -> keeps P (put f)) by apply keeps_put.
  eapply post_weaken; [| by intros t [Ht _]; exact Ht | intros a t Ha; exact Ha].
  do 4 (apply (post_bind _ _ _ (fun _ => P)); [apply Hput; intros t; minors | intros _]). by apply post_ret.
Qed.

Lemma good_generic s k : text_state s = true -> good (element ← generic_parsing s k; not_null element (fun _ => done)).
Proof.
  intros Hs. eapply post_bind; [by apply generic_ok|]. intros o. apply not_null_ok. intros e. apply good_with, good_ret.
Qed.
End Keep.

Create HintDb keep discriminated.
#[export] Hint Resolve kept_marker kept_attributes kept_delete kept_qualified_name keeps_pop keeps_get keeps_getO keeps_ret keeps_error
  keeps_acknowledge : keep.

Ltac head_of x := lazymatch x with ?f _ => head_of f | _ => x end.

(** [keeps P x], step by step. *)
Ltac keep1 :=
  lazymatch goal with
  | |- post ?P ?x (fun _ => ?P) => change (keeps P x)
  | |- keeps _ (mbind _ _) => apply keeps_bind; [|intros ?]
  | |- keeps _ (when _ _) => apply keeps_when
  | |- keeps _ (if ?b then _ else _) => destruct b
  | |- keeps _ (match ?o with _ => _ end) => destruct o
  | |- keeps _ (get _) => apply keeps_get
  | |- keeps _ (getO _) => apply keeps_getO
  | |- keeps _ (mret _) => apply keeps_ret
  | |- keeps _ oe_pop => apply keeps_pop
  | |- keeps _ (put _) => apply keeps_put; intros ?; minors
  | |- keeps _ (putO _) => apply keeps_fewer; solve [auto with fewer]
  | |- keeps _ ?x => first [solve [eauto with keep] | let h := head_of x in unfold h]
  end.
Ltac keep := repeat keep1.

Create HintDb good discriminated.
#[export] Hint Resolve good_ret good_abort good_comment_done good_comment_none good_comment_document good_comment_first
  good_error_done good_stop kept_doctype kept_html_start kept_before_html kept_script : good.

(** [good P Pf x], step by step. *)
Ltac good1 :=
  lazymatch goal with
  | |- forall _, _ => intros ?
  | |- text_state _ = true => reflexivity
  | |- keeps _ _ => solve [keep]
  | |- Forall _ _ => repeat apply Forall_cons_2; [..|apply Forall_nil_2]; cbn [snd]
  | |- post (fun t => _ /\ _) (mbind _ (push_with_check_dupl _)) _ => apply good_push
  | |- post (fun t => _ /\ _) (mbind _ (put (set_form (Some _)))) _ => apply good_set; [apply kept_form|]
  | |- post (fun t => _ /\ _) (mbind _ (match ?o with Some _ => nothing | None => _ end)) _ => destruct o
  | |- post (fun t => _ /\ _) _ _ => apply good_with
  | |- post ?P ?x (kept_or_failed ?P ?Pf) => change (good P Pf x)
  | |- good _ _ (mbind (fun _ => status_ok _) (call_mode _)) => apply good_ignore
  | |- good _ _ (on_tag _ _) => apply good_on_tag
  | |- good _ _ (on_close _ _) => apply good_on_close
  | |- good _ _ (on_tables _ _ _ _) => apply good_on_tables
  | |- good _ _ (insert_token _) => apply good_insert_token
  | |- good _ _ (insert_tag _ _) => apply good_insert_tag
  | |- good _ _ (insert_void _) => apply good_insert_void
  | |- good _ _ (insert_element _ _) => apply good_insert_element
  | |- good _ _ (reconstruct _) => apply good_reconstruct
  | |- good _ _ (push_marker_then _) => apply good_marker
  | |- good _ _ (adoption_agency _) => apply good_adoption
  | |- good _ _ (insert_data _ _) => apply good_insert_data
  | |- good _ _ (insert_characters _ _) => apply good_insert_characters
  | |- good _ _ (token_text _ _) => apply good_token_text
  | |- good _ _ (skip_ws _) => apply good_skip_ws
  | |- good _ _ (split_ws _) => apply good_split_ws
  | |- good _ _ (if_all_ws _ _) => apply good_if_all_ws
  | |- good _ _ (if_in_scope _ _) => apply good_if_in_scope
  | |- good _ _ (check_status _ _) => apply good_check
  | |- good _ _ (mbind _ (lxb_html_tree_generic_rawtext_parsing _)) => apply good_generic
  | |- good _ _ (mbind _ (lxb_html_tree_generic_rcdata_parsing _)) => apply good_generic
  | |- good _ _ (if ?b then _ else _) => destruct b
  | |- good _ _ (match ?o with _ => _ end) => destruct o
  | |- good _ _ (mbind _ _) => first [ solve [eauto with good] | apply good_bind; [solve [keep]|intros ?] ]
  | |- good _ _ ?x => first [solve [eauto with good] | let h := head_of x in unfold h]
  end.
Ltac good := repeat good1.
