(* ===== verification/TkzState.v ===== *)
(** * The main tokenizer states: [html/tokenizer/state.c]

    One definition per state function; the body of a function's
    [while (data != end)] loop is a definition of its own, [.._body], run by
    [scan].  The early [return]s of the C code are [ret t pos]. *)
From S2P Require Import Prelude.
From S2P Require Import Str.
From S2P Require Import In.
From S2P Require Import Tag.
From S2P Require Import TagHeap.
From S2P Require Import TkzBase.

(** [lxb_html_tokenizer_current_namespace] ([html/tokenizer.c]). *)
Definition lxb_html_tokenizer_current_namespace {E} `{TkzEnv E} (t : tokenizer E) : Z :=
  if negb (tree t) then LXB_NS__UNDEF
  else default LXB_NS__UNDEF (lxb_html_tree_adjusted_current_node (env t)).

Section State.
Context {E : Type} `{EV : TkzEnv E}.
Implicit Types (t : tokenizer E) (data : Z).

(** ** Text *)

Definition lxb_html_tokenizer_state_data_before t data (end_ : Z) : tokenizer E * Z :=
  let t := if negb (is_eof t) then set_begin t data else t in
  let t := set_state t S_data in
  ret t data.

Definition data_body (end_ : Z) t data : tokenizer E * option Z :=
  let c := rd t data in
  if c =? 0x3C then
    let t := set_end t data in
    let t := set_state t S_tag_open in
    ret t (data + 1)
  else if c =? 0x00 then
    if is_eof t then
      let t := deref_token t in
      let t := if negb (tok_begin (tok t) =? NULL) then set_end_oef t else t in
      if negb (tok_begin (tok t) =? tok_end (tok t)) then
        let t := set_tag_id t LXB_TAG__TEXT in
        let t := set_type t LXB_HTML_TOKEN_TYPE_TEXT in
        token_done_wo_check_m t end_ (fun t => ret t end_)
      else ret t end_
    else
      let t := type_or t LXB_HTML_TOKEN_TYPE_NULL in
      let t := error_add t data UNNUCH in
      next t
  else next t.

Definition lxb_html_tokenizer_state_data t data (end_ : Z) : tokenizer E * Z :=
  scan (data_body end_) t data end_.

Definition lxb_html_tokenizer_state_plaintext_before t data (end_ : Z) : tokenizer E * Z :=
  let t := if negb (is_eof t) then set_begin t data else t in
  let t := set_tag_id t LXB_TAG__TEXT in
  let t := set_type t LXB_HTML_TOKEN_TYPE_DATA in
  let t := set_state t S_plaintext in
  ret t data.

Definition plaintext_body (end_ : Z) t data : tokenizer E * option Z :=
  if rd t data =? 0x00 then
    if is_eof t then
      let t := deref_token t in
      let t := if negb (tok_begin (tok t) =? NULL) then set_end_oef t else t in
      token_done_m t end_ (fun t => ret t end_)
    else
      let t := type_or t LXB_HTML_TOKEN_TYPE_NULL in
      let t := error_add t data UNNUCH in
      next t
  else next t.

Definition lxb_html_tokenizer_state_plaintext t data (end_ : Z) : tokenizer E * Z :=
  scan (plaintext_body end_) t data end_.

(** ** Tags *)

Definition lxb_html_tokenizer_state_tag_open t data (end_ : Z) : tokenizer E * Z :=
  let c := rd t data in
  let fallthrough t :=
    let t := error_add t data INFICHOFTANA in
    let t := set_state t S_data in
    ret t data in
  if is_alpha c then
    let t := set_state t S_tag_name in
    emit_text_not_empty_m t end_ (fun t =>
    let t := set_begin t data in
    ret t data)
  else if c =? 0x21 then
    let t := set_state t S_markup_declaration_open in
    emit_text_not_empty_m t end_ (fun t => ret t (data + 1))
  else if c =? 0x2F then
    let t := set_state t S_end_tag_open in
    ret t (data + 1)
  else if c =? 0x3F then
    let t := set_state t S_bogus_comment_before in
    emit_text_not_empty_m t end_ (fun t =>
    let t := set_begin t data in
    let t := error_add t data UNQUMAINOFTANA in
    ret t (data + 1))
  else if c =? 0x00 then
    if is_eof t then
      let t := set_tag_id t LXB_TAG__TEXT in
      let t := set_type t LXB_HTML_TOKEN_TYPE_TEXT in
      let t := set_end_oef t in
      let t := error_add_token_end t EOBETANA in
      emit_text_not_empty_m t end_ (fun t => ret t end_)
    else fallthrough t
  else fallthrough t.

Definition lxb_html_tokenizer_state_end_tag_open t data (end_ : Z) : tokenizer E * Z :=
  let c := rd t data in
  let fallthrough t :=
    let t := set_state t S_bogus_comment_before in
    let t := error_add t data INFICHOFTANA in
    emit_text_not_empty_m t end_ (fun t =>
    let t := set_begin t data in
    ret t data) in
  if is_alpha c then
    let t := set_state t S_tag_name in
    emit_text_not_empty_m t end_ (fun t =>
    let t := set_begin t data in
    let t := type_or t LXB_HTML_TOKEN_TYPE_CLOSE in
    ret t data)
  else if c =? 0x3E then
    let t := set_state t S_data in
    let t := error_add t data MIENTANA in
    ret t (data + 1)
  else if c =? 0x00 then
    if is_eof t then
      let t := set_tag_id t LXB_TAG__TEXT in
      let t := set_type t LXB_HTML_TOKEN_TYPE_TEXT in
      let t := set_end_oef t in
      let t := error_add_token_end t EOBETANA in
      emit_text_not_empty_m t end_ (fun t => ret t end_)
    else fallthrough t
  else fallthrough t.

Definition tag_name_body (end_ : Z) t data : tokenizer E * option Z :=
  let c := rd t data in
  if is_ws c then
    let t := set_end t data in
    let t := set_state t S_before_attribute_name in
    ret t (data + 1)
  else if c =? 0x2F then
    let t := set_end t data in
    let t := set_state t S_self_closing_start_tag in
    ret t (data + 1)
  else if c =? 0x3E then
    let t := set_state t S_data_before in
    let t := set_end t data in
    token_done_m t end_ (fun t => ret t (data + 1))
  else if c =? 0x00 then
    if is_eof t then
      let t := set_end_oef t in
      let t := error_add_token_end t EOINTA in
      ret t end_
    else
      let t := type_or t LXB_HTML_TOKEN_TYPE_NULL in
      let t := error_add t data UNNUCH in
      next t
  else next t.

Definition lxb_html_tokenizer_state_tag_name t data (end_ : Z) : tokenizer E * Z :=
  scan (tag_name_body end_) t data end_.

(** ** Attributes *)

Definition before_attribute_name_body (end_ : Z) t data : tokenizer E * option Z :=
  let c := rd t data in
  let anything_else t :=
    attr_add_m t end_ (fun t =>
    let t := attr_set_name_begin t data in
    let t := set_state t S_attribute_name in
    ret t data) in
  if is_ws c then next t
  else if c =? 0x3D then
    attr_add_m t end_ (fun t =>
    let t := attr_set_name_begin t data in
    let t := error_add t data UNEQSIBEATNA in
    let t := set_state t S_attribute_name in
    ret t (data + 1))
  else if one_of c [0x2F; 0x3E] then
    let t := set_state t S_after_attribute_name in
    ret t data
  else if c =? 0x00 then
    if is_eof t then
      let t := set_state t S_after_attribute_name in
      ret t data
    else anything_else t
  else anything_else t.

Definition lxb_html_tokenizer_state_before_attribute_name t data (end_ : Z) : tokenizer E * Z :=
  scan (before_attribute_name_body end_) t data end_.

Definition attribute_name_body t data : tokenizer E * option Z :=
  let c := rd t data in
  if one_of c [0x09; 0x0A; 0x0C; 0x0D; 0x20; 0x2F; 0x3E] then
    let t := attr_set_name_end t data in
    let t := set_state t S_after_attribute_name in
    ret t data
  else if c =? 0x00 then
    if is_eof t then
      let t := attr_set_name_end_oef t in
      let t := set_state t S_after_attribute_name in
      ret t data
    else
      let t := error_add t data UNNUCH in
      let t := attr_type_or t LXB_HTML_TOKEN_ATTR_TYPE_NAME_NULL in
      next t
  else if c =? 0x3D then
    let t := attr_set_name_end t data in
    let t := set_state t S_before_attribute_value in
    ret t (data + 1)
  else if one_of c [0x22; 0x27; 0x3C] then
    let t := error_add t data UNCHINATNA in
    next t
  else next t.

Definition lxb_html_tokenizer_state_attribute_name t data (end_ : Z) : tokenizer E * Z :=
  scan attribute_name_body t data end_.

Definition after_attribute_name_body (end_ : Z) t data : tokenizer E * option Z :=
  let c := rd t data in
  let anything_else t :=
    attr_add_m t end_ (fun t =>
    let t := attr_set_name_begin t data in
    let t := set_state t S_attribute_name in
    ret t data) in
  if is_ws c then next t
  else if c =? 0x2F then
    let t := set_state t S_self_closing_start_tag in
    ret t (data + 1)
  else if c =? 0x3D then
    let t := set_state t S_before_attribute_value in
    ret t (data + 1)
  else if c =? 0x3E then
    let t := set_state t S_data_before in
    token_done_m t end_ (fun t => ret t (data + 1))
  else if c =? 0x00 then
    if is_eof t then
      let t := error_add_eof t EOINTA in
      ret t end_
    else anything_else t
  else anything_else t.

Definition lxb_html_tokenizer_state_after_attribute_name t data (end_ : Z) : tokenizer E * Z :=
  scan (after_attribute_name_body end_) t data end_.

Definition before_attribute_value_body (end_ : Z) t data : tokenizer E * option Z :=
  let c := rd t data in
  if is_ws c then next t
  else if c =? 0x22 then
    let t := set_state t S_attribute_value_double_quoted in
    ret t (data + 1)
  else if c =? 0x27 then
    let t := set_state t S_attribute_value_single_quoted in
    ret t (data + 1)
  else if c =? 0x3E then
    let t := set_state t S_data_before in
    let t := error_add t data MIATVA in
    token_done_m t end_ (fun t => ret t (data + 1))
  else
    let t := set_state t S_attribute_value_unquoted in
    ret t data.

Definition lxb_html_tokenizer_state_before_attribute_value t data (end_ : Z) : tokenizer E * Z :=
  scan (before_attribute_value_body end_) t data end_.

(** The first statement of every attribute and identifier value state. *)
Definition value_begin_once t data : tokenizer E :=
  let t := deref_attr_last t in
  if (value_begin (attr_last_ t) =? NULL) && negb (is_eof t)
  then attr_set_value_begin t data else t.

(** [case 0x00] of the three attribute value states. *)
Definition attribute_value_null (end_ : Z) t data : tokenizer E * option Z :=
  if is_eof t then
    let t := deref_attr_last t in
    let t := if negb (value_begin (attr_last_ t) =? NULL) then attr_set_value_end_oef t else t in
    let t := error_add_eof t EOINTA in
    ret t end_
  else
    let t := attr_type_or t LXB_HTML_TOKEN_ATTR_TYPE_VALUE_NULL in
    let t := error_add t data UNNUCH in
    next t.

Definition attribute_value_double_quoted_body (end_ : Z) t data : tokenizer E * option Z :=
  let c := rd t data in
  if c =? 0x22 then
    let t := attr_set_value_end t data in
    let t := set_state t S_after_attribute_value_quoted in
    ret t (data + 1)
  else if c =? 0x00 then attribute_value_null end_ t data
  else next t.

Definition lxb_html_tokenizer_state_attribute_value_double_quoted t data (end_ : Z)
    : tokenizer E * Z :=
  let t := value_begin_once t data in
  scan (attribute_value_double_quoted_body end_) t data end_.

Definition attribute_value_single_quoted_body (end_ : Z) t data : tokenizer E * option Z :=
  let c := rd t data in
  if c =? 0x27 then
    let t := attr_set_value_end t data in
    let t := set_state t S_after_attribute_value_quoted in
    ret t (data + 1)
  else if c =? 0x00 then attribute_value_null end_ t data
  else next t.

Definition lxb_html_tokenizer_state_attribute_value_single_quoted t data (end_ : Z)
    : tokenizer E * Z :=
  let t := value_begin_once t data in
  scan (attribute_value_single_quoted_body end_) t data end_.

Definition attribute_value_unquoted_body (end_ : Z) t data : tokenizer E * option Z :=
  let c := rd t data in
  if is_ws c then
    let t := attr_set_value_end t data in
    let t := set_state t S_before_attribute_name in
    ret t (data + 1)
  else if c =? 0x3E then
    let t := set_state t S_data_before in
    let t := attr_set_value_end t data in
    token_done_m t end_ (fun t => ret t (data + 1))
  else if c =? 0x00 then attribute_value_null end_ t data
  else if one_of c [0x22; 0x27; 0x3C; 0x3D; 0x60] then
    let t := error_add_token_end t UNCHINUNATVA in
    next t
  else next t.

Definition lxb_html_tokenizer_state_attribute_value_unquoted t data (end_ : Z) : tokenizer E * Z :=
  let t := value_begin_once t data in
  scan (attribute_value_unquoted_body end_) t data end_.

Definition lxb_html_tokenizer_state_after_attribute_value_quoted t data (end_ : Z)
    : tokenizer E * Z :=
  let c := rd t data in
  let anything_else t :=
    let t := error_add t data MIWHBEAT in
    let t := set_state t S_before_attribute_name in
    ret t data in
  if is_ws c then
    let t := set_state t S_before_attribute_name in
    ret t (data + 1)
  else if c =? 0x2F then
    let t := set_state t S_self_closing_start_tag in
    ret t (data + 1)
  else if c =? 0x3E then
    let t := set_state t S_data_before in
    token_done_m t end_ (fun t => ret t (data + 1))
  else if c =? 0x00 then
    if is_eof t then
      let t := error_add_eof t EOINTA in
      ret t end_
    else anything_else t
  else anything_else t.

Definition lxb_html_tokenizer_state_self_closing_start_tag t data (end_ : Z) : tokenizer E * Z :=
  let c := rd t data in
  let anything_else t :=
    let t := error_add t data UNSOINTA in
    let t := set_state t S_before_attribute_name in
    ret t data in
  if c =? 0x3E then
    let t := set_state t S_data_before in
    let t := type_or t LXB_HTML_TOKEN_TYPE_CLOSE_SELF in
    token_done_m t end_ (fun t => ret t (data + 1))
  else if c =? 0x00 then
    if is_eof t then
      let t := error_add_token_end t EOINTA in
      ret t end_
    else anything_else t
  else anything_else t.

(** ** Bogus comments and markup declarations *)

Definition lxb_html_tokenizer_state_bogus_comment_before t data (end_ : Z) : tokenizer E * Z :=
  let t := set_type t LXB_HTML_TOKEN_TYPE_DATA in
  let t := set_tag_id t LXB_TAG__EM_COMMENT in
  let t := set_state t S_bogus_comment in
  ret t data.

Definition bogus_comment_body (end_ : Z) t data : tokenizer E * option Z :=
  let c := rd t data in
  if c =? 0x3E then
    let t := set_state t S_data_before in
    let t := set_end t data in
    token_done_wo_check_m t end_ (fun t => ret t (data + 1))
  else if c =? 0x00 then
    if is_eof t then
      let t := deref_token t in
      let t := if negb (tok_begin (tok t) =? NULL) then set_end_oef t else t in
      token_done_wo_check_m t end_ (fun t => ret t end_)
    else
      let t := error_add t data UNNUCH in
      let t := type_or t LXB_HTML_TOKEN_TYPE_NULL in
      next t
  else next t.

Definition lxb_html_tokenizer_state_bogus_comment t data (end_ : Z) : tokenizer E * Z :=
  scan (bogus_comment_body end_) t data end_.

(** The statements after the [if] cascade of [markup_declaration_open]. *)
Definition markup_declaration_open_else t data : tokenizer E * Z :=
  let t :=
    if is_eof t then
      let t := set_end_oef t in
      let t := upd_token t (fun k => with_begin (tok_end k) k) in
      upd_token t (with_in_begin (incoming_node t))
    else t in
  let t := error_add t data INOPCO in
  let t := set_state t S_bogus_comment_before in
  ret t data.

Definition lxb_html_tokenizer_state_markup_declaration_open t data (end_ : Z) : tokenizer E * Z :=
  let t := if negb (is_eof t) then set_begin t data else t in
  let c := rd t data in
  if c =? 0x2D then
    if end_ - data <? 2 then
      let t := set_state t S_markup_declaration_comment in
      ret t (data + 1)
    else if rd t (data + 1) =? 0x2D then
      let t := set_state t S_comment_before_start in
      ret t (data + 2)
    else markup_declaration_open_else t data
  else if (c =? 0x44) || (c =? 0x64) then
    if end_ - data <? 7 then
      let t := set_markup t str_doctype in
      let t := set_state t S_markup_declaration_doctype in
      ret t data
    else if lexbor_str_data_ncasecmp (rd t) str_doctype data 7 then
      let t := set_state t S_doctype_before in
      ret t (data + 7)
    else markup_declaration_open_else t data
  else if c =? 0x5B then
    if end_ - data <? 7 then
      let t := set_markup t str_cdata in
      let t := set_state t S_markup_declaration_cdata in
      ret t data
    else if lexbor_str_data_ncmp (rd t) str_cdata data 7 then
      let ns := lxb_html_tokenizer_current_namespace t in
      if negb (ns =? LXB_NS_HTML) && negb (ns =? LXB_NS__UNDEF) then
        let data := data + 7 in
        let t := set_begin t data in
        let t := set_state t S_cdata_section_before in
        ret t data
      else
        let t := set_state t S_bogus_comment_before in
        ret t data
    else markup_declaration_open_else t data
  else markup_declaration_open_else t data.

Definition lxb_html_tokenizer_state_markup_declaration_comment t data (end_ : Z)
    : tokenizer E * Z :=
  if rd t data =? 0x2D then
    let t := set_state t S_comment_before_start in
    ret t (data + 1)
  else
    let t := error_add t data INOPCO in
    let t := set_state t S_bogus_comment_before in
    ret t data.

Definition lxb_html_tokenizer_state_markup_declaration_doctype t data (end_ : Z)
    : tokenizer E * Z :=
  match lexbor_str_data_ncasecmp_first (rd t) (markup t) data (end_ - data) with
  | None =>
      let t := error_add t data INOPCO in
      let t := set_state t S_bogus_comment_before in
      ret t data
  | Some pos =>
      if rd t pos =? 0x00 then
        let data := data + (pos - markup t) in
        let t := set_state t S_doctype_before in
        ret t data
      else
        let t := set_markup t pos in
        ret t end_
  end.

Definition lxb_html_tokenizer_state_markup_declaration_cdata t data (end_ : Z) : tokenizer E * Z :=
  match lexbor_str_data_ncasecmp_first (rd t) (markup t) data (end_ - data) with
  | None =>
      let t := error_add t data INOPCO in
      let t := set_state t S_bogus_comment_before in
      ret t data
  | Some pos =>
      if rd t pos =? 0x00 then
        let ns := lxb_html_tokenizer_current_namespace t in
        if negb (ns =? LXB_NS_HTML) && negb (ns =? LXB_NS__UNDEF) then
          let data := data + (pos - markup t) in
          let t := set_state t S_cdata_section_before in
          ret t data
        else
          let t := set_state t S_bogus_comment_before in
          ret t data
      else
        let t := set_markup t pos in
        ret t end_
  end.

(** ** CDATA sections *)

Definition lxb_html_tokenizer_state_cdata_section_before t data (end_ : Z) : tokenizer E * Z :=
  let t :=
    if negb (is_eof t) then set_begin t data
    else let t := deref_node t (incoming_node t) in set_begin t (incoming_end t) in
  let t := set_tag_id t LXB_TAG__TEXT in
  let t := set_type t LXB_HTML_TOKEN_TYPE_CDATA in
  let t := set_state t S_cdata_section in
  ret t data.

Definition cdata_section_body (end_ : Z) t data : tokenizer E * option Z :=
  let c := rd t data in
  if c =? 0x5D then
    let t := set_state t S_cdata_section_bracket in
    ret t (data + 1)
  else if c =? 0x00 then
    if is_eof t then
      let t := error_add_eof t EOINCD in
      let t := deref_token t in
      let t := if negb (tok_begin (tok t) =? NULL) then set_end_oef t else t in
      token_done_m t end_ (fun t => ret t end_)
    else
      let t := type_or t LXB_HTML_TOKEN_TYPE_NULL in
      next t
  else next t.

Definition lxb_html_tokenizer_state_cdata_section t data (end_ : Z) : tokenizer E * Z :=
  scan (cdata_section_body end_) t data end_.

Definition lxb_html_tokenizer_state_cdata_section_bracket t data (end_ : Z) : tokenizer E * Z :=
  if rd t data =? 0x5D then
    let t := set_state t S_cdata_section_end in
    ret t (data + 1)
  else
    let t := set_state t S_cdata_section in
    ret t data.

Definition lxb_html_tokenizer_state_cdata_section_end t data (end_ : Z) : tokenizer E * Z :=
  let c := rd t data in
  if c =? 0x5D then ret t (data + 1)
  else if c =? 0x3E then
    let t := set_state t S_data_before in
    let t := set_end_down t data 2 in
    token_done_m t end_ (fun t => ret t (data + 1))
  else
    let t := set_state t S_cdata_section in
    ret t data.
End State.
