(* ===== verification/TkzComment.v ===== *)
(** * Comment states: [html/tokenizer/state_comment.c] *)
From S2P Require Import Prelude.
From S2P Require Import Str.
From S2P Require Import In.
From S2P Require Import Tag.
From S2P Require Import TagHeap.
From S2P Require Import TkzBase.

Section Comment.
Context {E : Type} `{EV : TkzEnv E}.
Implicit Types (t : tokenizer E) (data : Z).

Definition lxb_html_tokenizer_state_comment_start t data (end_ : Z) : tokenizer E * Z :=
  let c := rd t data in
  if c =? 0x2D then
    let t := set_state t S_comment_start_dash in
    ret t (data + 1)
  else if c =? 0x3E then
    let t := set_state t S_data_before in
    let t := error_add t data ABCLOFEMCO in
    token_done_wo_check_m t end_ (fun t => ret t (data + 1))
  else
    let t := set_state t S_comment in
    ret t data.

Definition lxb_html_tokenizer_state_comment_before_start t data (end_ : Z) : tokenizer E * Z :=
  let t :=
    if negb (is_eof t) then
      let t := set_begin t data in
      set_end t data
    else t in
  let t := set_tag_id t LXB_TAG__EM_COMMENT in
  let t := set_type t LXB_HTML_TOKEN_TYPE_DATA in
  lxb_html_tokenizer_state_comment_start t data end_.

Definition lxb_html_tokenizer_state_comment_start_dash t data (end_ : Z) : tokenizer E * Z :=
  let c := rd t data in
  let fallthrough t :=
    let t := set_state t S_comment in
    ret t data in
  if c =? 0x2D then
    let t := set_state t S_comment_end in
    ret t (data + 1)
  else if c =? 0x3E then
    let t := set_state t S_data_before in
    let t := error_add t data ABCLOFEMCO in
    token_done_wo_check_m t end_ (fun t => ret t (data + 1))
  else if c =? 0x00 then
    if is_eof t then
      let t := error_add_eof t EOINCO in
      token_done_wo_check_m t end_ (fun t => ret t end_)
    else fallthrough t
  else fallthrough t.

Definition comment_body (end_ : Z) t data : tokenizer E * option Z :=
  let c := rd t data in
  if c =? 0x3C then
    let t := set_state t S_comment_less_than_sign in
    ret t (data + 1)
  else if c =? 0x2D then
    let t := set_state t S_comment_end_dash in
    ret t (data + 1)
  else if c =? 0x00 then
    if is_eof t then
      let t := deref_token t in
      let t := if negb (tok_begin (tok t) =? NULL) then set_end_oef t else t in
      let t := error_add_token_end t EOINCO in
      token_done_m t end_ (fun t => ret t end_)
    else
      let t := type_or t LXB_HTML_TOKEN_TYPE_NULL in
      let t := error_add t data UNNUCH in
      next t
  else next t.

Definition lxb_html_tokenizer_state_comment t data (end_ : Z) : tokenizer E * Z :=
  scan (comment_body end_) t data end_.

Definition lxb_html_tokenizer_state_comment_less_than_sign t data (end_ : Z)
    : tokenizer E * Z :=
  let c := rd t data in
  if c =? 0x21 then
    let t := set_state t S_comment_less_than_sign_bang in
    ret t (data + 1)
  else if c =? 0x3C then ret t (data + 1)
  else
    let t := set_state t S_comment in
    ret t data.

Definition lxb_html_tokenizer_state_comment_less_than_sign_bang t data (end_ : Z)
    : tokenizer E * Z :=
  if rd t data =? 0x2D then
    let t := set_state t S_comment_less_than_sign_bang_dash in
    ret t (data + 1)
  else
    let t := set_state t S_comment in
    ret t data.

Definition lxb_html_tokenizer_state_comment_less_than_sign_bang_dash t data (end_ : Z)
    : tokenizer E * Z :=
  if rd t data =? 0x2D then
    let t := set_state t S_comment_less_than_sign_bang_dash_dash in
    ret t (data + 1)
  else
    let t := set_state t S_comment_end_dash in
    ret t data.

Definition lxb_html_tokenizer_state_comment_less_than_sign_bang_dash_dash t data (end_ : Z)
    : tokenizer E * Z :=
  let c := rd t data in
  let fallthrough t :=
    let t := error_add t data NECO in
    let t := set_state t S_comment_end in
    ret t data in
  if c =? 0x3E then
    let t := set_state t S_comment_end in
    ret t data
  else if c =? 0x00 then
    if is_eof t then
      let t := set_state t S_comment_end in
      ret t data
    else fallthrough t
  else fallthrough t.

(** At the end of the file: close the comment [offset] bytes before the end
    of the last buffer. *)
Definition comment_eof t (end_ offset : Z) : tokenizer E * Z :=
  let t := error_add_eof t EOINCO in
  let t := deref_node t (incoming_node t) in
  let t := set_end_down t (incoming_end t) offset in
  token_done_wo_check_m t end_ (fun t => ret t end_).

Definition lxb_html_tokenizer_state_comment_end_dash t data (end_ : Z) : tokenizer E * Z :=
  let c := rd t data in
  let fallthrough t :=
    let t := set_state t S_comment in
    ret t data in
  if c =? 0x2D then
    let t := set_state t S_comment_end in
    ret t (data + 1)
  else if c =? 0x00 then
    if is_eof t then comment_eof t end_ 1
    else fallthrough t
  else fallthrough t.

Definition lxb_html_tokenizer_state_comment_end t data (end_ : Z) : tokenizer E * Z :=
  let c := rd t data in
  let fallthrough t :=
    let t := set_state t S_comment in
    ret t data in
  if c =? 0x3E then
    let t := set_state t S_data_before in
    let t := set_end_down t data 2 in
    token_done_wo_check_m t end_ (fun t => ret t (data + 1))
  else if c =? 0x21 then
    let t := set_state t S_comment_end_bang in
    ret t (data + 1)
  else if c =? 0x2D then ret t (data + 1)
  else if c =? 0x00 then
    if is_eof t then comment_eof t end_ 2
    else fallthrough t
  else fallthrough t.

Definition lxb_html_tokenizer_state_comment_end_bang t data (end_ : Z) : tokenizer E * Z :=
  let c := rd t data in
  let fallthrough t :=
    let t := set_state t S_comment in
    ret t data in
  if c =? 0x2D then
    let t := set_state t S_comment_end_dash in
    ret t (data + 1)
  else if c =? 0x3E then
    let t := set_state t S_data_before in
    let t := error_add t data INCLCO in
    let t := set_end_down t data 3 in
    token_done_wo_check_m t end_ (fun t => ret t (data + 1))
  else if c =? 0x00 then
    if is_eof t then comment_eof t end_ 3
    else fallthrough t
  else fallthrough t.
End Comment.
