(* ===== verification/TkzDoctype.v ===== *)
(** * DOCTYPE states: [html/tokenizer/state_doctype.c]

    The doctype's name, its PUBLIC/SYSTEM keyword and its identifiers are kept
    as attributes of the token. *)
From S2P Require Import Prelude.
From S2P Require Import Str.
From S2P Require Import In.
From S2P Require Import Tag.
From S2P Require Import TagHeap.
From S2P Require Import TkzBase.
From S2P Require Import TkzState.

Section Doctype.
Context {E : Type} `{EV : TkzEnv E}.
Context {R : Type} `{RT : Ret E R}.
Implicit Types (t : tokenizer E) (data : Z).

(** What most states do at the end of the file: report it, force quirks mode
    and emit the token. *)
Definition doctype_eof t (end_ : Z) : R :=
  let t := error_add_eof t EOINDO in
  let t := type_or t LXB_HTML_TOKEN_TYPE_FORCE_QUIRKS in
  token_done_m t end_ (fun t => ret t end_).
End Doctype.

Section DoctypeStates.
Context {E : Type} `{EV : TkzEnv E}.
Implicit Types (t : tokenizer E) (data : Z).

Definition lxb_html_tokenizer_state_doctype t data (end_ : Z) : tokenizer E * Z :=
  let c := rd t data in
  let anything_else t :=
    let t := error_add t data MIWHBEDONA in
    let t := set_state t S_doctype_before_name in
    ret t data in
  if is_ws c then
    let t := set_state t S_doctype_before_name in
    ret t (data + 1)
  else if c =? 0x3E then
    let t := set_state t S_doctype_before_name in
    ret t data
  else if c =? 0x00 then
    if is_eof t then doctype_eof t end_
    else anything_else t
  else anything_else t.

Definition lxb_html_tokenizer_state_doctype_before t data (end_ : Z) : tokenizer E * Z :=
  let t := if negb (is_eof t) then set_end t data else set_end_oef t in
  let t := set_tag_id t LXB_TAG__EM_DOCTYPE in
  lxb_html_tokenizer_state_doctype t data end_.

Definition doctype_before_name_body (end_ : Z) t data : tokenizer E * option Z :=
  let c := rd t data in
  if is_ws c then next t
  else if c =? 0x00 then
    if is_eof t then doctype_eof t end_
    else
      attr_add_m t end_ (fun t =>
      let t := attr_set_name_begin t data in
      let t := error_add t data UNNUCH in
      let t := attr_type_or t LXB_HTML_TOKEN_ATTR_TYPE_NAME_NULL in
      let t := set_state t S_doctype_name in
      ret t (data + 1))
  else if c =? 0x3E then
    let t := type_or t LXB_HTML_TOKEN_TYPE_FORCE_QUIRKS in
    let t := set_state t S_data_before in
    let t := error_add t data MIDONA in
    token_done_m t end_ (fun t => ret t (data + 1))
  else
    attr_add_m t end_ (fun t =>
    let t := attr_set_name_begin t data in
    let t := set_state t S_doctype_name in
    ret t (data + 1)).

Definition lxb_html_tokenizer_state_doctype_before_name t data (end_ : Z) : tokenizer E * Z :=
  scan (doctype_before_name_body end_) t data end_.

Definition doctype_name_body (end_ : Z) t data : tokenizer E * option Z :=
  let c := rd t data in
  if is_ws c then
    let t := attr_set_name_end t data in
    let t := set_state t S_doctype_after_name in
    ret t (data + 1)
  else if c =? 0x3E then
    let t := set_state t S_data_before in
    let t := attr_set_name_end t data in
    token_done_m t end_ (fun t => ret t (data + 1))
  else if c =? 0x00 then
    if is_eof t then
      let t := attr_set_name_end_oef t in
      let t := error_add t (name_end (attr_last_ t)) EOINDO in
      let t := type_or t LXB_HTML_TOKEN_TYPE_FORCE_QUIRKS in
      token_done_m t end_ (fun t => ret t end_)
    else
      let t := error_add t data UNNUCH in
      let t := attr_type_or t LXB_HTML_TOKEN_ATTR_TYPE_NAME_NULL in
      next t
  else next t.

Definition lxb_html_tokenizer_state_doctype_name t data (end_ : Z) : tokenizer E * Z :=
  scan (doctype_name_body end_) t data end_.

(** The [default] case of [doctype_after_name]. *)
Definition doctype_after_name_else (end_ : Z) t data : tokenizer E * option Z :=
  let no_keyword t :=
    let t := attr_delete_last t in
    let t := error_add t data INCHSEAFDONA in
    let t := type_or t LXB_HTML_TOKEN_TYPE_FORCE_QUIRKS in
    let t := set_state t S_doctype_bogus in
    ret t data in
  attr_add_m t end_ (fun t =>
  let t := attr_set_name_begin t data in
  let c := rd t data in
  if data + 6 >? end_ then
    if (c =? 0x50) || (c =? 0x70) then
      let t := set_markup t str_public in
      let t := set_state t S_doctype_after_name_public in
      ret t data
    else if (c =? 0x53) || (c =? 0x73) then
      let t := set_markup t str_system in
      let t := set_state t S_doctype_after_name_system in
      ret t data
    else no_keyword t
  else if lexbor_str_data_ncasecmp (rd t) str_public data 6 then
    let t := attr_set_name_end t (data + 6) in
    let t := set_state t S_doctype_after_public_keyword in
    ret t (data + 6)
  else if lexbor_str_data_ncasecmp (rd t) str_system data 6 then
    let t := attr_set_name_end t (data + 6) in
    let t := set_state t S_doctype_after_system_keyword in
    ret t (data + 6)
  else no_keyword t).

Definition doctype_after_name_body (end_ : Z) t data : tokenizer E * option Z :=
  let c := rd t data in
  if is_ws c then next t
  else if c =? 0x3E then
    let t := set_state t S_data_before in
    token_done_m t end_ (fun t => ret t (data + 1))
  else if c =? 0x00 then
    if is_eof t then doctype_eof t end_
    else doctype_after_name_else end_ t data
  else doctype_after_name_else end_ t data.

Definition lxb_html_tokenizer_state_doctype_after_name t data (end_ : Z) : tokenizer E * Z :=
  scan (doctype_after_name_body end_) t data end_.

(** The body shared by [doctype_after_name_public] and [.._system]: the rest
    of a keyword that began in an earlier buffer. *)
Definition doctype_keyword_rest (after : tkz_state) t data (end_ : Z) : tokenizer E * Z :=
  match lexbor_str_data_ncasecmp_first (rd t) (markup t) data (end_ - data) with
  | None =>
      let t := attr_delete_last t in
      let t := error_add t data INCHSEAFDONA in
      let t := set_state t S_doctype_bogus in
      ret t data
  | Some pos =>
      if rd t pos =? 0x00 then
        let pos := data + (pos - markup t) in
        let t := attr_set_name_end t pos in
        let t := set_state t after in
        ret t (pos + 1)
      else
        let t := set_markup t pos in
        ret t end_
  end.

Definition lxb_html_tokenizer_state_doctype_after_name_public t data (end_ : Z)
    : tokenizer E * Z :=
  doctype_keyword_rest S_doctype_after_public_keyword t data end_.

Definition lxb_html_tokenizer_state_doctype_after_name_system t data (end_ : Z)
    : tokenizer E * Z :=
  doctype_keyword_rest S_doctype_after_system_keyword t data end_.

(** The [default] case of the states between keyword and identifiers; the
    error is reported before or after the other statements, which does not
    matter. *)
Definition doctype_bogus_quirks t data (id : error_id) : tokenizer E * Z :=
  let t := error_add t data id in
  let t := type_or t LXB_HTML_TOKEN_TYPE_FORCE_QUIRKS in
  let t := set_state t S_doctype_bogus in
  ret t data.

(** [case '>'] of the same states: no identifier. *)
Definition doctype_missing_id t data (end_ : Z) (id : error_id) : tokenizer E * Z :=
  let t := type_or t LXB_HTML_TOKEN_TYPE_FORCE_QUIRKS in
  let t := set_state t S_data_before in
  let t := error_add t data id in
  token_done_m t end_ (fun t => ret t (data + 1)).

Definition lxb_html_tokenizer_state_doctype_after_public_keyword t data (end_ : Z)
    : tokenizer E * Z :=
  let c := rd t data in
  if is_ws c then
    let t := set_state t S_doctype_before_public_identifier in
    ret t (data + 1)
  else if c =? 0x22 then
    let t := error_add t data MIWHAFDOPUKE in
    let t := set_state t S_doctype_public_identifier_double_quoted in
    ret t (data + 1)
  else if c =? 0x27 then
    let t := error_add t data MIWHAFDOPUKE in
    let t := set_state t S_doctype_public_identifier_single_quoted in
    ret t (data + 1)
  else if c =? 0x3E then doctype_missing_id t data end_ MIDOPUID
  else if c =? 0x00 then
    if is_eof t then doctype_eof t end_
    else doctype_bogus_quirks t data MIQUBEDOPUID
  else doctype_bogus_quirks t data MIQUBEDOPUID.

Definition lxb_html_tokenizer_state_doctype_before_public_identifier t data (end_ : Z)
    : tokenizer E * Z :=
  let c := rd t data in
  if is_ws c then ret t (data + 1)
  else if c =? 0x22 then
    let t := set_state t S_doctype_public_identifier_double_quoted in
    ret t (data + 1)
  else if c =? 0x27 then
    let t := set_state t S_doctype_public_identifier_single_quoted in
    ret t (data + 1)
  else if c =? 0x3E then doctype_missing_id t data end_ MIDOPUID
  else if c =? 0x00 then
    if is_eof t then doctype_eof t end_
    else doctype_bogus_quirks t data MIQUBEDOPUID
  else doctype_bogus_quirks t data MIQUBEDOPUID.

(** The loop body of the four quoted identifier states: the quote that ends
    the identifier, the state after it, and the error for [>]. *)
Definition identifier_body (quote : Z) (after : tkz_state) (abrupt : error_id) (end_ : Z) t data
    : tokenizer E * option Z :=
  let c := rd t data in
  if c =? quote then
    let t := attr_set_value_end t data in
    let t := set_state t after in
    ret t (data + 1)
  else if c =? 0x3E then
    let t := set_state t S_data_before in
    let t := error_add t data abrupt in
    let t := attr_set_value_end t data in
    token_done_m t end_ (fun t => ret t (data + 1))
  else if c =? 0x00 then
    if is_eof t then
      let t := attr_set_value_end_oef t in
      let t := if value_begin (attr_last_ t) =? NULL
               then attr_set_value_begin t (value_end (attr_last_ t)) else t in
      let t := error_add t (value_end (attr_last_ t)) EOINDO in
      let t := type_or t LXB_HTML_TOKEN_TYPE_FORCE_QUIRKS in
      token_done_m t end_ (fun t => ret t end_)
    else
      let t := error_add t data UNNUCH in
      let t := attr_type_or t LXB_HTML_TOKEN_ATTR_TYPE_VALUE_NULL in
      next t
  else next t.

Definition lxb_html_tokenizer_state_doctype_public_identifier_double_quoted t data (end_ : Z)
    : tokenizer E * Z :=
  let t := value_begin_once t data in
  scan (identifier_body 0x22 S_doctype_after_public_identifier ABDOPUID end_) t data end_.

Definition lxb_html_tokenizer_state_doctype_public_identifier_single_quoted t data (end_ : Z)
    : tokenizer E * Z :=
  let t := value_begin_once t data in
  scan (identifier_body 0x27 S_doctype_after_public_identifier ABDOPUID end_) t data end_.

Definition lxb_html_tokenizer_state_doctype_after_public_identifier t data (end_ : Z)
    : tokenizer E * Z :=
  let c := rd t data in
  if is_ws c then
    let t := set_state t S_doctype_between_public_and_system_identifiers in
    ret t (data + 1)
  else if c =? 0x3E then
    let t := set_state t S_data_before in
    token_done_m t end_ (fun t => ret t (data + 1))
  else if c =? 0x22 then
    let t := error_add t data MIWHBEDOPUANSYID in
    attr_add_m t end_ (fun t =>
    let t := set_state t S_doctype_system_identifier_double_quoted in
    ret t (data + 1))
  else if c =? 0x27 then
    let t := error_add t data MIWHBEDOPUANSYID in
    attr_add_m t end_ (fun t =>
    let t := set_state t S_doctype_system_identifier_single_quoted in
    ret t (data + 1))
  else if c =? 0x00 then
    if is_eof t then doctype_eof t end_
    else doctype_bogus_quirks t data MIQUBEDOSYID
  else doctype_bogus_quirks t data MIQUBEDOSYID.

Definition lxb_html_tokenizer_state_doctype_between_public_and_system_identifiers
    t data (end_ : Z) : tokenizer E * Z :=
  let c := rd t data in
  if is_ws c then ret t (data + 1)
  else if c =? 0x3E then
    let t := set_state t S_data_before in
    token_done_m t end_ (fun t => ret t (data + 1))
  else if c =? 0x22 then
    attr_add_m t end_ (fun t =>
    let t := set_state t S_doctype_system_identifier_double_quoted in
    ret t (data + 1))
  else if c =? 0x27 then
    attr_add_m t end_ (fun t =>
    let t := set_state t S_doctype_system_identifier_single_quoted in
    ret t (data + 1))
  else if c =? 0x00 then
    if is_eof t then doctype_eof t end_
    else doctype_bogus_quirks t data MIQUBEDOSYID
  else doctype_bogus_quirks t data MIQUBEDOSYID.

Definition lxb_html_tokenizer_state_doctype_after_system_keyword t data (end_ : Z)
    : tokenizer E * Z :=
  let c := rd t data in
  if is_ws c then
    let t := set_state t S_doctype_before_system_identifier in
    ret t (data + 1)
  else if c =? 0x22 then
    let t := error_add t data MIWHAFDOSYKE in
    let t := set_state t S_doctype_system_identifier_double_quoted in
    ret t (data + 1)
  else if c =? 0x27 then
    let t := error_add t data MIWHAFDOSYKE in
    let t := set_state t S_doctype_system_identifier_single_quoted in
    ret t (data + 1)
  else if c =? 0x3E then doctype_missing_id t data end_ MIDOSYID
  else if c =? 0x00 then
    if is_eof t then doctype_eof t end_
    else doctype_bogus_quirks t data MIQUBEDOSYID
  else doctype_bogus_quirks t data MIQUBEDOSYID.

Definition lxb_html_tokenizer_state_doctype_before_system_identifier t data (end_ : Z)
    : tokenizer E * Z :=
  let c := rd t data in
  if is_ws c then ret t (data + 1)
  else if c =? 0x22 then
    let t := set_state t S_doctype_system_identifier_double_quoted in
    ret t (data + 1)
  else if c =? 0x27 then
    let t := set_state t S_doctype_system_identifier_single_quoted in
    ret t (data + 1)
  else if c =? 0x3E then doctype_missing_id t data end_ MIDOSYID
  else if c =? 0x00 then
    if is_eof t then doctype_eof t end_
    else doctype_bogus_quirks t data MIQUBEDOSYID
  else doctype_bogus_quirks t data MIQUBEDOSYID.

Definition lxb_html_tokenizer_state_doctype_system_identifier_double_quoted t data (end_ : Z)
    : tokenizer E * Z :=
  let t := value_begin_once t data in
  scan (identifier_body 0x22 S_doctype_after_system_identifier ABDOSYID end_) t data end_.

Definition lxb_html_tokenizer_state_doctype_system_identifier_single_quoted t data (end_ : Z)
    : tokenizer E * Z :=
  let t := value_begin_once t data in
  scan (identifier_body 0x27 S_doctype_after_system_identifier ABDOSYID end_) t data end_.

Definition lxb_html_tokenizer_state_doctype_after_system_identifier t data (end_ : Z)
    : tokenizer E * Z :=
  let c := rd t data in
  let anything_else t :=
    let t := error_add t data UNCHAFDOSYID in
    let t := set_state t S_doctype_bogus in
    ret t data in
  if is_ws c then ret t (data + 1)
  else if c =? 0x3E then
    let t := set_state t S_data_before in
    token_done_m t end_ (fun t => ret t (data + 1))
  else if c =? 0x00 then
    if is_eof t then doctype_eof t end_
    else anything_else t
  else anything_else t.

Definition doctype_bogus_body (end_ : Z) t data : tokenizer E * option Z :=
  let c := rd t data in
  if c =? 0x3E then
    let t := set_state t S_data_before in
    token_done_m t end_ (fun t => ret t (data + 1))
  else if c =? 0x00 then
    if is_eof t then token_done_m t end_ (fun t => ret t end_)
    else
      let t := error_add t data UNNUCH in
      next t
  else next t.

Definition lxb_html_tokenizer_state_doctype_bogus t data (end_ : Z) : tokenizer E * Z :=
  scan (doctype_bogus_body end_) t data end_.
End DoctypeStates.
