(* ===== verification/TkzText.v ===== *)
(** * RCDATA and RAWTEXT states: [html/tokenizer/state_rcdata.c],
      [html/tokenizer/state_rawtext.c]

    The two files are the same program over different states.  What they (and
    the script states) have in common is defined once, with the state to fall
    back to as an argument. *)
From S2P Require Import Prelude.
From S2P Require Import Str.
From S2P Require Import In.
From S2P Require Import Tag.
From S2P Require Import TagHeap.
From S2P Require Import TkzBase.
From S2P Require Import HtmlIn.

Section Text.
Context {E : Type} `{EV : TkzEnv E}.
Implicit Types (t : tokenizer E) (data : Z).

(** ** Shared bodies *)

Definition text_before (ty : Z) (text : tkz_state) t data : tokenizer E * Z :=
  let t := if negb (is_eof t) then set_begin t data else t in
  let t := set_tag_id t LXB_TAG__TEXT in
  let t := set_type t ty in
  let t := set_state t text in
  ret t data.

Definition text_body (less_than : tkz_state) (end_ : Z) t data : tokenizer E * option Z :=
  let c := rd t data in
  if c =? 0x3C then
    let t := set_end t data in
    let t := set_state t less_than in
    ret t (data + 1)
  else if c =? 0x00 then
    if is_eof t then
      let t := deref_token t in
      let t := if negb (tok_begin (tok t) =? NULL) then set_end_oef t else t in
      token_done_m t end_ (fun t => ret t end_)
    else
      let t := type_or t LXB_HTML_TOKEN_TYPE_NULL in
      let t := error_add t data UNNUCH in
      next t
  else next t.

(** [tkz->markup = data; tkz->tmp_incoming_node = tkz->incoming_node;] *)
Definition save_markup t data : tokenizer E :=
  let t := set_markup t data in
  set_tmp_incoming_node t (incoming_node t).

Definition end_tag_open (end_tag_name text : tkz_state) t data : tokenizer E * Z :=
  if is_alpha (rd t data) then
    let t := save_markup t data in
    let t := set_state t end_tag_name in
    ret t (data + 1)
  else
    let t := set_state t text in
    ret t data.

(** [tag_id = lxb_html_in_tag_id(tkz->tmp_incoming_node, tkz->tag_heap,
    tkz->markup, data, tkz->mraw)] *)
Definition end_tag_id t data : tokenizer E * Z :=
  match lxb_html_in_tag_id (in_nodes (incoming t)) (rd t) (tmp_incoming_node t)
          (tag_heap (env t)) (markup t) data with
  | Some id => (t, id)
  | None => (set_fault t true, LXB_TAG__UNDEF)
  end.

(** Emit the text token and make the close token of the end tag at hand. *)
Definition init_close_token {R} `{Ret E R} t data (end_ : Z) (k : tokenizer E -> R) : R :=
  let begin_ := markup t in
  token_done_m t end_ (fun t =>
  let t := upd_token t (with_begin begin_) in
  let t := set_end t data in
  let t := upd_token t (with_in_begin (tmp_incoming_node t)) in
  let t := type_or t LXB_HTML_TOKEN_TYPE_CLOSE in
  k t).

(** The [..._end_tag_name] states: [text] is the state [anything_else] goes
    back to. *)
Definition end_tag_name_body (text : tkz_state) (end_ : Z) t data : tokenizer E * option Z :=
  let c := rd t data in
  let anything_else t :=
    let t := set_state t text in
    ret t data in
  let done t := init_close_token t data end_ (fun t => ret t (data + 1)) in
  if is_ws c then
    let '(t, tag_id) := end_tag_id t data in
    if negb (tmp_tag_id t =? tag_id) then anything_else t
    else
      let t := set_state t S_before_attribute_name in
      done t
  else if c =? 0x2F then
    let '(t, tag_id) := end_tag_id t data in
    if negb (tmp_tag_id t =? tag_id) then anything_else t
    else
      let t := set_state t S_self_closing_start_tag in
      done t
  else if c =? 0x3E then
    let '(t, tag_id) := end_tag_id t data in
    if negb (tmp_tag_id t =? tag_id) then anything_else t
    else
      let t := set_state t S_data_before in
      init_close_token t data end_ (fun t =>
      token_done_m t end_ (fun t => ret t (data + 1)))
  else if negb (is_alpha c) then anything_else t
  else next t.

(** ** RCDATA *)

Definition lxb_html_tokenizer_state_rcdata_before t data (end_ : Z) : tokenizer E * Z :=
  text_before LXB_HTML_TOKEN_TYPE_RCDATA S_rcdata t data.

Definition lxb_html_tokenizer_state_rcdata t data (end_ : Z) : tokenizer E * Z :=
  scan (text_body S_rcdata_less_than_sign end_) t data end_.

Definition lxb_html_tokenizer_state_rcdata_less_than_sign t data (end_ : Z)
    : tokenizer E * Z :=
  if rd t data =? 0x2F then
    let t := set_state t S_rcdata_end_tag_open in
    ret t (data + 1)
  else
    let t := set_state t S_rcdata in
    ret t data.

Definition lxb_html_tokenizer_state_rcdata_end_tag_open t data (end_ : Z) : tokenizer E * Z :=
  end_tag_open S_rcdata_end_tag_name S_rcdata t data.

Definition lxb_html_tokenizer_state_rcdata_end_tag_name t data (end_ : Z) : tokenizer E * Z :=
  scan (end_tag_name_body S_rcdata end_) t data end_.

(** ** RAWTEXT *)

Definition lxb_html_tokenizer_state_rawtext_before t data (end_ : Z) : tokenizer E * Z :=
  text_before LXB_HTML_TOKEN_TYPE_DATA S_rawtext t data.

Definition lxb_html_tokenizer_state_rawtext t data (end_ : Z) : tokenizer E * Z :=
  scan (text_body S_rawtext_less_than_sign end_) t data end_.

Definition lxb_html_tokenizer_state_rawtext_less_than_sign t data (end_ : Z)
    : tokenizer E * Z :=
  if rd t data =? 0x2F then
    let t := set_state t S_rawtext_end_tag_open in
    ret t (data + 1)
  else
    let t := set_state t S_rawtext in
    ret t data.

Definition lxb_html_tokenizer_state_rawtext_end_tag_open t data (end_ : Z)
    : tokenizer E * Z :=
  end_tag_open S_rawtext_end_tag_name S_rawtext t data.

Definition lxb_html_tokenizer_state_rawtext_end_tag_name t data (end_ : Z)
    : tokenizer E * Z :=
  scan (end_tag_name_body S_rawtext end_) t data end_.
End Text.
