(* ===== verification/TkzScript.v ===== *)
(** * Script data states: [html/tokenizer/state_script.c] *)
From S2P Require Import Prelude.
From S2P Require Import Str.
From S2P Require Import In.
From S2P Require Import Tag.
From S2P Require Import TagHeap.
From S2P Require Import TkzBase.
From S2P Require Import HtmlIn.
From S2P Require Import TkzText.

Section Script.
Context {E : Type} `{EV : TkzEnv E}.
Implicit Types (t : tokenizer E) (data : Z).

Definition lxb_html_tokenizer_state_script_data_before t data (end_ : Z) : tokenizer E * Z :=
  text_before LXB_HTML_TOKEN_TYPE_DATA S_script_data t data.

Definition lxb_html_tokenizer_state_script_data t data (end_ : Z) : tokenizer E * Z :=
  scan (text_body S_script_data_less_than_sign end_) t data end_.

Definition lxb_html_tokenizer_state_script_data_less_than_sign t data (end_ : Z)
    : tokenizer E * Z :=
  let c := rd t data in
  if c =? 0x2F then
    let t := set_state t S_script_data_end_tag_open in
    ret t (data + 1)
  else if c =? 0x21 then
    let t := set_state t S_script_data_escape_start in
    ret t (data + 1)
  else
    let t := set_state t S_script_data in
    ret t data.

Definition lxb_html_tokenizer_state_script_data_end_tag_open t data (end_ : Z)
    : tokenizer E * Z :=
  end_tag_open S_script_data_end_tag_name S_script_data t data.

Definition lxb_html_tokenizer_state_script_data_end_tag_name t data (end_ : Z)
    : tokenizer E * Z :=
  scan (end_tag_name_body S_script_data end_) t data end_.

Definition lxb_html_tokenizer_state_script_data_escape_start t data (end_ : Z)
    : tokenizer E * Z :=
  if rd t data =? 0x2D then
    let t := set_state t S_script_data_escape_start_dash in
    ret t (data + 1)
  else
    let t := set_state t S_script_data in
    ret t data.

Definition lxb_html_tokenizer_state_script_data_escape_start_dash t data (end_ : Z)
    : tokenizer E * Z :=
  if rd t data =? 0x2D then
    let t := set_state t S_script_data_escaped_dash_dash in
    ret t (data + 1)
  else
    let t := set_state t S_script_data in
    ret t data.

(** The end of the file inside [<!--] of a script. *)
Definition script_eof {R} `{Ret E R} t (end_ : Z) : R :=
  let t := error_add_eof t EOINSCHTCOLITE in
  let t := set_end_oef t in
  token_done_m t end_ (fun t => ret t end_).

Definition script_data_escaped_body (end_ : Z) t data : tokenizer E * option Z :=
  let c := rd t data in
  if c =? 0x2D then
    let t := set_state t S_script_data_escaped_dash in
    ret t (data + 1)
  else if c =? 0x3C then
    let t := set_end t data in
    let t := set_state t S_script_data_escaped_less_than_sign in
    ret t (data + 1)
  else if c =? 0x00 then
    if is_eof t then script_eof t end_
    else
      let t := type_or t LXB_HTML_TOKEN_TYPE_NULL in
      let t := error_add t data UNNUCH in
      next t
  else next t.

Definition lxb_html_tokenizer_state_script_data_escaped t data (end_ : Z) : tokenizer E * Z :=
  scan (script_data_escaped_body end_) t data end_.

(** [case 0x00] and [default] of the dash states: back to [text]. *)
Definition script_dash_else (text : tkz_state) t data (end_ : Z) : tokenizer E * Z :=
  if rd t data =? 0x00 then
    if is_eof t then script_eof t end_
    else
      let t := error_add t data UNNUCH in
      let t := type_or t LXB_HTML_TOKEN_TYPE_NULL in
      let t := set_state t text in
      ret t (data + 1)
  else
    let t := set_state t text in
    ret t (data + 1).

Definition lxb_html_tokenizer_state_script_data_escaped_dash t data (end_ : Z)
    : tokenizer E * Z :=
  let c := rd t data in
  if c =? 0x2D then
    let t := set_state t S_script_data_escaped_dash_dash in
    ret t (data + 1)
  else if c =? 0x3C then
    let t := set_end t data in
    let t := set_state t S_script_data_escaped_less_than_sign in
    ret t (data + 1)
  else script_dash_else S_script_data_escaped t data end_.

Definition lxb_html_tokenizer_state_script_data_escaped_dash_dash t data (end_ : Z)
    : tokenizer E * Z :=
  let c := rd t data in
  if c =? 0x2D then ret t (data + 1)
  else if c =? 0x3C then
    let t := set_end t data in
    let t := set_state t S_script_data_escaped_less_than_sign in
    ret t (data + 1)
  else if c =? 0x3E then
    let t := set_state t S_script_data in
    ret t (data + 1)
  else script_dash_else S_script_data_escaped t data end_.

(** Remember where a tag name begins and read it in state [name]. *)
Definition name_start (name : tkz_state) t data : tokenizer E * Z :=
  let t := save_markup t data in
  let t := set_state t name in
  ret t data.

Definition lxb_html_tokenizer_state_script_data_escaped_less_than_sign t data (end_ : Z)
    : tokenizer E * Z :=
  let c := rd t data in
  if c =? 0x2F then
    let t := set_state t S_script_data_escaped_end_tag_open in
    ret t (data + 1)
  else if is_alpha c then name_start S_script_data_double_escape_start t data
  else
    let t := set_state t S_script_data_escaped in
    ret t data.

Definition lxb_html_tokenizer_state_script_data_escaped_end_tag_open t data (end_ : Z)
    : tokenizer E * Z :=
  if is_alpha (rd t data) then name_start S_script_data_escaped_end_tag_name t data
  else
    let t := set_state t S_script_data_escaped in
    ret t data.

Definition lxb_html_tokenizer_state_script_data_escaped_end_tag_name t data (end_ : Z)
    : tokenizer E * Z :=
  scan (end_tag_name_body S_script_data_escaped end_) t data end_.

(** The loop of [double_escape_start] and [double_escape_end]: the name read
    is compared with "script"; [yes] and [no] are the states it leads to. *)
Definition script_name_body (yes no : tkz_state) t data : tokenizer E * option Z :=
  let c := rd t data in
  if one_of c [0x09; 0x0A; 0x0C; 0x0D; 0x20; 0x2F; 0x3E] then
    match lxb_html_in_ncasecmp (in_nodes (incoming t)) (rd t) (tmp_incoming_node t)
            (markup t) data str_script 6 with
    | Some true =>
        let t := set_state t yes in
        ret t (data + 1)
    | Some false =>
        let t := set_state t no in
        ret t (data + 1)
    | None =>
        let t := set_state (set_fault t true) no in
        ret t (data + 1)
    end
  else if negb (is_alpha c) then
    let t := set_state t no in
    ret t data
  else next t.

Definition lxb_html_tokenizer_state_script_data_double_escape_start t data (end_ : Z)
    : tokenizer E * Z :=
  scan (script_name_body S_script_data_double_escaped S_script_data_escaped) t data end_.

Definition script_data_double_escaped_body (end_ : Z) t data : tokenizer E * option Z :=
  let c := rd t data in
  if c =? 0x2D then
    let t := set_state t S_script_data_double_escaped_dash in
    ret t (data + 1)
  else if c =? 0x3C then
    let t := set_state t S_script_data_double_escaped_less_than_sign in
    ret t (data + 1)
  else if c =? 0x00 then
    if is_eof t then script_eof t end_
    else
      let t := type_or t LXB_HTML_TOKEN_TYPE_NULL in
      let t := error_add t data UNNUCH in
      next t
  else next t.

Definition lxb_html_tokenizer_state_script_data_double_escaped t data (end_ : Z)
    : tokenizer E * Z :=
  scan (script_data_double_escaped_body end_) t data end_.

Definition lxb_html_tokenizer_state_script_data_double_escaped_dash t data (end_ : Z)
    : tokenizer E * Z :=
  let c := rd t data in
  if c =? 0x2D then
    let t := set_state t S_script_data_double_escaped_dash_dash in
    ret t (data + 1)
  else if c =? 0x3C then
    let t := set_state t S_script_data_double_escaped_less_than_sign in
    ret t (data + 1)
  else script_dash_else S_script_data_double_escaped t data end_.

Definition lxb_html_tokenizer_state_script_data_double_escaped_dash_dash t data (end_ : Z)
    : tokenizer E * Z :=
  let c := rd t data in
  if c =? 0x2D then ret t (data + 1)
  else if c =? 0x3C then
    let t := set_state t S_script_data_double_escaped_less_than_sign in
    ret t (data + 1)
  else if c =? 0x3E then
    let t := set_state t S_script_data in
    ret t (data + 1)
  else script_dash_else S_script_data_double_escaped t data end_.

Definition lxb_html_tokenizer_state_script_data_double_escaped_less_than_sign t data (end_ : Z)
    : tokenizer E * Z :=
  if rd t data =? 0x2F then
    let t := set_state t S_script_data_double_escaped_end_tag_open in
    ret t (data + 1)
  else
    let t := set_state t S_script_data_double_escaped in
    ret t data.

Definition lxb_html_tokenizer_state_script_data_double_escaped_end_tag_open t data (end_ : Z)
    : tokenizer E * Z :=
  if is_alpha (rd t data) then name_start S_script_data_double_escape_end t data
  else
    let t := set_state t S_script_data_double_escaped in
    ret t data.

Definition lxb_html_tokenizer_state_script_data_double_escape_end t data (end_ : Z)
    : tokenizer E * Z :=
  scan (script_name_body S_script_data_escaped S_script_data_double_escaped) t data end_.
End Script.
