(* ===== verification/TkzRun.v ===== *)
(** * Driving the tokenizer: [html/tokenizer.c]

    The dispatch through [tkz->state], the loops that feed a buffer and the
    end of file to it, and the operations of the tokenizer.

    The loops are not structural; they get a fuel and [None] means it ran out.
    [run_fuel] and [eof_fuel] are enough, for every input: this is proved in
    [TkzSafe].  The loops over the incoming chain take one step per node. *)
From S2P Require Import Prelude.
From S2P Require Import Str.
From S2P Require Import In.
From S2P Require Import Tag.
From S2P Require Import TagHeap.
From S2P Require Import TkzBase.
From S2P Require Import HtmlIn.
From S2P Require Import TkzState.
From S2P Require Import TkzComment.
From S2P Require Import TkzDoctype.
From S2P Require Import TkzText.
From S2P Require Import TkzScript.

Section Run.
Context {E : Type} `{EV : TkzEnv E}.
Implicit Types (t : tokenizer E) (data : Z).

(** [tkz->state(tkz, data, end)] *)
Definition call_state t data (end_ : Z) : tokenizer E * Z :=
  match state t with
  | S_data_before => lxb_html_tokenizer_state_data_before t data end_
  | S_data => lxb_html_tokenizer_state_data t data end_
  | S_plaintext_before => lxb_html_tokenizer_state_plaintext_before t data end_
  | S_plaintext => lxb_html_tokenizer_state_plaintext t data end_
  | S_tag_open => lxb_html_tokenizer_state_tag_open t data end_
  | S_end_tag_open => lxb_html_tokenizer_state_end_tag_open t data end_
  | S_tag_name => lxb_html_tokenizer_state_tag_name t data end_
  | S_before_attribute_name => lxb_html_tokenizer_state_before_attribute_name t data end_
  | S_attribute_name => lxb_html_tokenizer_state_attribute_name t data end_
  | S_after_attribute_name => lxb_html_tokenizer_state_after_attribute_name t data end_
  | S_before_attribute_value => lxb_html_tokenizer_state_before_attribute_value t data end_
  | S_attribute_value_double_quoted =>
      lxb_html_tokenizer_state_attribute_value_double_quoted t data end_
  | S_attribute_value_single_quoted =>
      lxb_html_tokenizer_state_attribute_value_single_quoted t data end_
  | S_attribute_value_unquoted => lxb_html_tokenizer_state_attribute_value_unquoted t data end_
  | S_after_attribute_value_quoted =>
      lxb_html_tokenizer_state_after_attribute_value_quoted t data end_
  | S_self_closing_start_tag => lxb_html_tokenizer_state_self_closing_start_tag t data end_
  | S_bogus_comment_before => lxb_html_tokenizer_state_bogus_comment_before t data end_
  | S_bogus_comment => lxb_html_tokenizer_state_bogus_comment t data end_
  | S_markup_declaration_open => lxb_html_tokenizer_state_markup_declaration_open t data end_
  | S_markup_declaration_comment =>
      lxb_html_tokenizer_state_markup_declaration_comment t data end_
  | S_markup_declaration_doctype =>
      lxb_html_tokenizer_state_markup_declaration_doctype t data end_
  | S_markup_declaration_cdata => lxb_html_tokenizer_state_markup_declaration_cdata t data end_
  | S_cdata_section_before => lxb_html_tokenizer_state_cdata_section_before t data end_
  | S_cdata_section => lxb_html_tokenizer_state_cdata_section t data end_
  | S_cdata_section_bracket => lxb_html_tokenizer_state_cdata_section_bracket t data end_
  | S_cdata_section_end => lxb_html_tokenizer_state_cdata_section_end t data end_
  | S_comment_before_start => lxb_html_tokenizer_state_comment_before_start t data end_
  | S_comment_start_dash => lxb_html_tokenizer_state_comment_start_dash t data end_
  | S_comment => lxb_html_tokenizer_state_comment t data end_
  | S_comment_less_than_sign => lxb_html_tokenizer_state_comment_less_than_sign t data end_
  | S_comment_less_than_sign_bang =>
      lxb_html_tokenizer_state_comment_less_than_sign_bang t data end_
  | S_comment_less_than_sign_bang_dash =>
      lxb_html_tokenizer_state_comment_less_than_sign_bang_dash t data end_
  | S_comment_less_than_sign_bang_dash_dash =>
      lxb_html_tokenizer_state_comment_less_than_sign_bang_dash_dash t data end_
  | S_comment_end_dash => lxb_html_tokenizer_state_comment_end_dash t data end_
  | S_comment_end => lxb_html_tokenizer_state_comment_end t data end_
  | S_comment_end_bang => lxb_html_tokenizer_state_comment_end_bang t data end_
  | S_doctype_before => lxb_html_tokenizer_state_doctype_before t data end_
  | S_doctype_before_name => lxb_html_tokenizer_state_doctype_before_name t data end_
  | S_doctype_name => lxb_html_tokenizer_state_doctype_name t data end_
  | S_doctype_after_name => lxb_html_tokenizer_state_doctype_after_name t data end_
  | S_doctype_after_name_public =>
      lxb_html_tokenizer_state_doctype_after_name_public t data end_
  | S_doctype_after_name_system =>
      lxb_html_tokenizer_state_doctype_after_name_system t data end_
  | S_doctype_after_public_keyword =>
      lxb_html_tokenizer_state_doctype_after_public_keyword t data end_
  | S_doctype_before_public_identifier =>
      lxb_html_tokenizer_state_doctype_before_public_identifier t data end_
  | S_doctype_public_identifier_double_quoted =>
      lxb_html_tokenizer_state_doctype_public_identifier_double_quoted t data end_
  | S_doctype_public_identifier_single_quoted =>
      lxb_html_tokenizer_state_doctype_public_identifier_single_quoted t data end_
  | S_doctype_after_public_identifier =>
      lxb_html_tokenizer_state_doctype_after_public_identifier t data end_
  | S_doctype_between_public_and_system_identifiers =>
      lxb_html_tokenizer_state_doctype_between_public_and_system_identifiers t data end_
  | S_doctype_after_system_keyword =>
      lxb_html_tokenizer_state_doctype_after_system_keyword t data end_
  | S_doctype_before_system_identifier =>
      lxb_html_tokenizer_state_doctype_before_system_identifier t data end_
  | S_doctype_system_identifier_double_quoted =>
      lxb_html_tokenizer_state_doctype_system_identifier_double_quoted t data end_
  | S_doctype_system_identifier_single_quoted =>
      lxb_html_tokenizer_state_doctype_system_identifier_single_quoted t data end_
  | S_doctype_after_system_identifier =>
      lxb_html_tokenizer_state_doctype_after_system_identifier t data end_
  | S_doctype_bogus => lxb_html_tokenizer_state_doctype_bogus t data end_
  | S_rcdata_before => lxb_html_tokenizer_state_rcdata_before t data end_
  | S_rcdata => lxb_html_tokenizer_state_rcdata t data end_
  | S_rcdata_less_than_sign => lxb_html_tokenizer_state_rcdata_less_than_sign t data end_
  | S_rcdata_end_tag_open => lxb_html_tokenizer_state_rcdata_end_tag_open t data end_
  | S_rcdata_end_tag_name => lxb_html_tokenizer_state_rcdata_end_tag_name t data end_
  | S_rawtext_before => lxb_html_tokenizer_state_rawtext_before t data end_
  | S_rawtext => lxb_html_tokenizer_state_rawtext t data end_
  | S_rawtext_less_than_sign => lxb_html_tokenizer_state_rawtext_less_than_sign t data end_
  | S_rawtext_end_tag_open => lxb_html_tokenizer_state_rawtext_end_tag_open t data end_
  | S_rawtext_end_tag_name => lxb_html_tokenizer_state_rawtext_end_tag_name t data end_
  | S_script_data_before => lxb_html_tokenizer_state_script_data_before t data end_
  | S_script_data => lxb_html_tokenizer_state_script_data t data end_
  | S_script_data_less_than_sign =>
      lxb_html_tokenizer_state_script_data_less_than_sign t data end_
  | S_script_data_end_tag_open => lxb_html_tokenizer_state_script_data_end_tag_open t data end_
  | S_script_data_end_tag_name => lxb_html_tokenizer_state_script_data_end_tag_name t data end_
  | S_script_data_escape_start => lxb_html_tokenizer_state_script_data_escape_start t data end_
  | S_script_data_escape_start_dash =>
      lxb_html_tokenizer_state_script_data_escape_start_dash t data end_
  | S_script_data_escaped => lxb_html_tokenizer_state_script_data_escaped t data end_
  | S_script_data_escaped_dash => lxb_html_tokenizer_state_script_data_escaped_dash t data end_
  | S_script_data_escaped_dash_dash =>
      lxb_html_tokenizer_state_script_data_escaped_dash_dash t data end_
  | S_script_data_escaped_less_than_sign =>
      lxb_html_tokenizer_state_script_data_escaped_less_than_sign t data end_
  | S_script_data_escaped_end_tag_open =>
      lxb_html_tokenizer_state_script_data_escaped_end_tag_open t data end_
  | S_script_data_escaped_end_tag_name =>
      lxb_html_tokenizer_state_script_data_escaped_end_tag_name t data end_
  | S_script_data_double_escape_start =>
      lxb_html_tokenizer_state_script_data_double_escape_start t data end_
  | S_script_data_double_escaped =>
      lxb_html_tokenizer_state_script_data_double_escaped t data end_
  | S_script_data_double_escaped_dash =>
      lxb_html_tokenizer_state_script_data_double_escaped_dash t data end_
  | S_script_data_double_escaped_dash_dash =>
      lxb_html_tokenizer_state_script_data_double_escaped_dash_dash t data end_
  | S_script_data_double_escaped_less_than_sign =>
      lxb_html_tokenizer_state_script_data_double_escaped_less_than_sign t data end_
  | S_script_data_double_escaped_end_tag_open =>
      lxb_html_tokenizer_state_script_data_double_escaped_end_tag_open t data end_
  | S_script_data_double_escape_end =>
      lxb_html_tokenizer_state_script_data_double_escape_end t data end_
  end.

(** [while (data < end) data = tkz->state(tkz, data, end)] *)
Fixpoint run (fuel : nat) t data (end_ : Z) : option (tokenizer E * Z) :=
  if data <? end_ then
    match fuel with
    | O => None
    | S fuel' => let '(t, data) := call_state t data end_ in run fuel' t data end_
    end
  else Some (t, data).

Definition run_fuel data (end_ : Z) : nat := Z.to_nat (8 * (end_ - data)).

(** [while (tkz->state(tkz, data, end) < end)] of [lxb_html_tokenizer_end],
    with [data] the fake end-of-file byte. *)
Fixpoint eof_loop (fuel : nat) t : option (tokenizer E) :=
  match fuel with
  | O => None
  | S fuel' =>
      let '(t, p) := call_state t lxb_html_tokenizer_eof (lxb_html_tokenizer_eof + 1) in
      if p <? lxb_html_tokenizer_eof + 1 then eof_loop fuel' t else Some t
  end.

Definition eof_fuel : nat := 8.

(** [node->use = v] *)
Definition set_use t (i : option positive) (v : Z) : tokenizer E :=
  match in_lookup t i, i with
  | Some n, Some i =>
      set_incoming t (mk_in (<[i := set_in_use v n]> (in_nodes (incoming t)))
                        (in_fresh (incoming t)))
  | _, _ => set_fault t true
  end.

(** The [reuse:] block of [chunk_process] and [end]: parse [in_node] from
    [data], then every following node; start again from the current node
    when a state changed it. *)
Fixpoint reuse_loop (fuel : nat) t (in_node : option positive) data : option (tokenizer E) :=
  match fuel with
  | O => None
  | S fuel' =>
      match in_lookup t in_node with
      | None => Some (set_fault t true)
      | Some n =>
          '(t, _) ← run (run_fuel data (in_end n)) t data (in_end n);
          if negb (bool_decide (in_node = incoming_node t)) then
            match in_lookup t (incoming_node t) with
            | None => Some (set_fault t true)
            | Some cur => reuse_loop fuel' t (incoming_node t) (in_use cur)
            end
          else
            let t := set_use t in_node (in_end n) in
            match in_next n with
            | None => Some t
            | Some nx =>
                let t := set_incoming_node t (Some nx) in
                match in_lookup t (Some nx) with
                | None => Some (set_fault t true)
                | Some nn => reuse_loop fuel' t (Some nx) (in_begin nn)
                end
            end
      end
  end.

Definition reuse_fuel t : nat := walk_fuel (in_nodes (incoming t)).

Definition lxb_html_tokenizer_chunk_process t data (size : Z) : option (tokenizer E) :=
  let end_ := data + size in
  let t := set_is_eof t false in
  let t := set_status t LXB_STATUS_OK in
  '(t, _) ← run (run_fuel data end_) t data end_;
  match in_lookup t (incoming_node t) with
  | None => Some (set_fault t true)
  | Some n =>
      t ← match in_next n with
          | None => Some t
          | Some _ => reuse_loop (reuse_fuel t) t (incoming_node t) (in_use n)
          end;
      Some (set_use t (incoming_node t) end_)
  end.

(** ** Incoming buffers *)

(** Destroying nodes from [incoming_first] on while [stop] is false of them
    ([LEXBOR_IN_OPT_ALLOC] buffers are freed with their node). *)
Fixpoint drop_incoming (fuel : nat) (stop : in_node -> bool) t : tokenizer E :=
  match fuel with
  | O => t
  | S fuel' =>
      match incoming_first t with
      | None => t
      | Some i =>
          match in_nodes (incoming t) !! i with
          | None => set_fault t true
          | Some n =>
              if stop n then t
              else
                let t := set_incoming t (lexbor_in_node_destroy (incoming t) (Some i)) in
                let t := set_incoming_first t (in_next n) in
                drop_incoming fuel' stop t
          end
      end
  end.

Definition lxb_html_tokenizer_erase_incoming t : tokenizer E :=
  drop_incoming (walk_fuel (in_nodes (incoming t))) (fun _ => false) t.

(** The release of the buffers before the current token, at the end of
    [lxb_html_tokenizer_chunk]. *)
Definition release_incoming t : tokenizer E :=
  let t := deref_token t in
  if negb (tok_begin (tok t) =? NULL) then
    let b := tok_begin (tok t) in
    let t := drop_incoming (walk_fuel (in_nodes (incoming t)))
               (fun n => lexbor_in_segment n b) t in
    match incoming_first t with
    | Some i =>
        set_incoming t (mk_in (alter (set_in_prev None) i (in_nodes (incoming t)))
                          (in_fresh (incoming t)))
    | None => set_incoming_node t None
    end
  else t.

(** ** Operations *)

(** [lxb_html_tokenizer_create] and [lxb_html_tokenizer_init]. *)
Definition lxb_html_tokenizer_init (e : E) (m : Z -> Z) : tokenizer E :=
  {| state := S_data_before; token := None; env := e; tree := false;
     incoming := lexbor_in_init; incoming_first := None; incoming_node := None;
     parse_errors := []; markup := NULL; tmp_incoming_node := None; tmp_tag_id := 0;
     opt := 0; status := LXB_STATUS_OK; is_eof := false; reuse := false;
     attrs_allocated := 0; mem := m; fault := false |}.

(** [lxb_html_tokenizer_clean] (the token and attribute pools are emptied;
    [begin] allocates the next token). *)
Definition lxb_html_tokenizer_clean t : tokenizer E :=
  let t := set_tree t false in
  let t := set_state t S_data_before in
  let t := set_is_eof t false in
  let t := set_status t LXB_STATUS_OK in
  let t := lxb_html_tokenizer_erase_incoming t in
  let t := set_incoming t (lexbor_in_clean (incoming t)) in
  let t := set_parse_errors t [] in
  let t := set_incoming_first t None in
  set_incoming_node t None.

(** [lxb_html_tokenizer_begin]: [alloc_ok] is the answer of the token pool. *)
Definition lxb_html_tokenizer_begin t (alloc_ok : bool) : tokenizer E * Z :=
  if alloc_ok then (set_token t (Some token_zero), LXB_STATUS_OK)
  else (set_token t None, LXB_STATUS_ERROR_MEMORY_ALLOCATION).

Definition has_opt t (o : Z) : bool := negb (Z.land (opt t) o =? 0).

(** [memcpy(copied, data, size)] *)
Definition memcpy t (copied data size : Z) : tokenizer E :=
  set_mem t (fun a =>
    if (copied <=? a) && (a <? copied + size) then rd t (data + (a - copied)) else mem t a).

(** [lxb_html_tokenizer_chunk]: [node_ok] is the answer of the node pool,
    [copied] that of [lexbor_malloc]. *)
Definition lxb_html_tokenizer_chunk t (node_ok : bool) (copied : option Z) data (size : Z)
    : option (tokenizer E * Z) :=
  let failed_in t :=
    let t := if negb (has_opt t LXB_HTML_TOKENIZER_OPT_WO_IN_DESTROY)
             then lxb_html_tokenizer_erase_incoming t else t in
    Some (t, LXB_STATUS_ERROR_MEMORY_ALLOCATION) in
  let wo_copy := has_opt t LXB_HTML_TOKENIZER_OPT_WO_COPY in
  match (if wo_copy then Some (t, data)
         else c ← copied; Some (memcpy t c data size, c)) with
  | None => failed_in t
  | Some (t, buf) =>
      let '(inc, node) := lexbor_in_node_make (incoming t) node_ok (incoming_node t) buf size in
      let t := set_incoming t inc in
      let t := set_incoming_node t node in
      match node with
      | None => failed_in t
      | Some i =>
          let t := match incoming_first t with
                   | None => set_incoming_first t (Some i)
                   | Some _ => t
                   end in
          let t := if wo_copy then t
                   else set_incoming t (mk_in (alter (set_in_opt LEXBOR_IN_OPT_ALLOC) i
                                         (in_nodes (incoming t))) (in_fresh (incoming t))) in
          t ← lxb_html_tokenizer_chunk_process t buf size;
          if has_opt t LXB_HTML_TOKENIZER_OPT_WO_IN_DESTROY then Some (t, status t)
          else if negb (status t =? LXB_STATUS_OK) then
            let t := lxb_html_tokenizer_erase_incoming t in
            Some (t, status t)
          else
            let t := release_incoming t in
            Some (t, status t)
      end
  end.

(** The [do .. while (1)] of [lxb_html_tokenizer_end]. *)
Fixpoint end_loop (fuel : nat) t : option (tokenizer E) :=
  match fuel with
  | O => None
  | S fuel' =>
      let t := set_is_eof t true in
      t ← eof_loop eof_fuel t;
      if reuse t then
        let t := set_is_eof t false in
        match in_lookup t (incoming_node t) with
        | None => Some (set_fault t true)
        | Some n =>
            t ← reuse_loop (reuse_fuel t) t (incoming_node t) (in_use n);
            end_loop fuel' (set_reuse t false)
        end
      else Some t
  end.

Definition lxb_html_tokenizer_end t : option (tokenizer E * Z) :=
  let t := set_reuse t false in
  let t := set_status t LXB_STATUS_OK in
  t ← end_loop (reuse_fuel t) t;
  let t := set_is_eof t false in
  if negb (status t =? LXB_STATUS_OK) then Some (t, status t)
  else
    let t := lxb_html_token_clean t in
    let t := set_tag_id t LXB_TAG__END_OF_FILE in
    let t := call_token_done t in
    let t := match token t with
             | None => if status t =? LXB_STATUS_OK then set_status t LXB_STATUS_ERROR else t
             | Some _ => t
             end in
    Some (t, status t).

(** ** Moving back in the input *)

Definition change_incoming_node t (pos : Z) (fail : tokenizer E -> tokenizer E) : tokenizer E :=
  match incoming_node t with
  | None => set_fault t true
  | Some i =>
      match lexbor_in_node_find (in_nodes (incoming t)) i pos with
      | None => set_fault t true
      | Some None => set_status (fail t) LXB_STATUS_ERROR
      | Some (Some j) => set_use (set_incoming_node t (Some j)) (Some j) pos
      end
  end.

Definition lxb_html_tokenizer_change_incoming_eof t (pos : Z) : tokenizer E * Z :=
  if pos =? lxb_html_tokenizer_eof then (t, pos)
  else
    let t := set_reuse t true in
    match in_lookup t (incoming_node t) with
    | None => (set_fault t true, lxb_html_tokenizer_eof + 1)
    | Some n =>
        if lexbor_in_segment n pos
        then (set_use t (incoming_node t) pos, lxb_html_tokenizer_eof + 1)
        else (change_incoming_node t pos (fun t => set_reuse t false),
              lxb_html_tokenizer_eof + 1)
    end.

Definition lxb_html_tokenizer_change_incoming t (pos : Z) : tokenizer E * Z :=
  if is_eof t then lxb_html_tokenizer_change_incoming_eof t pos
  else
    match in_lookup t (incoming_node t) with
    | None => (set_fault t true, pos)
    | Some n =>
        if lexbor_in_segment n pos then (set_use t (incoming_node t) pos, pos)
        else (change_incoming_node t pos (fun t => t), in_end n)
    end.

(** ** The state for the content of a tag *)

Definition lxb_html_tokenizer_set_state_by_tag t (scripting : bool) (tag_id ns : Z)
    : tokenizer E :=
  if negb (ns =? LXB_NS_HTML) then set_state t S_data_before
  else if one_of tag_id [LXB_TAG_TITLE; LXB_TAG_TEXTAREA] then
    set_state (set_tmp_tag_id t tag_id) S_rcdata_before
  else if one_of tag_id [LXB_TAG_STYLE; LXB_TAG_XMP; LXB_TAG_IFRAME; LXB_TAG_NOEMBED;
                         LXB_TAG_NOFRAMES] then
    set_state (set_tmp_tag_id t tag_id) S_rawtext_before
  else if tag_id =? LXB_TAG_SCRIPT then
    set_state (set_tmp_tag_id t tag_id) S_script_data_before
  else if tag_id =? LXB_TAG_NOSCRIPT then
    if scripting then set_state (set_tmp_tag_id t tag_id) S_rawtext_before
    else set_state t S_data_before
  else if tag_id =? LXB_TAG_PLAINTEXT then set_state t S_plaintext_before
  else t.
End Run.

(** The default callback, [lxb_html_tokenizer_token_done]: it returns the token. *)
Definition lxb_html_tokenizer_token_done (k : html_token) : reply :=
  mk_reply (Some k) None None None.
