(* ===== verification/TkzInst.v ===== *)
(** * Environments for the tokenizer

    Two instances of the interface to the token callback: the tokenizer's own
    default callback, which keeps nothing, and a client that collects the
    tokens it is given and switches the tokenizer to the text mode of an
    element's content, as the tree builder does. *)
From S2P Require Import Prelude.
From S2P Require Import Str.
From S2P Require Import In.
From S2P Require Import Tag.
From S2P Require Import TagHeap.
From S2P Require Import TkzBase.
From S2P Require Import HtmlIn.
From S2P Require Import TkzState.
From S2P Require Import TkzComment.
From S2P Require Import TkzDoctype.
From S2P Require Import TkzText.
From S2P Require Import TkzScript.
From S2P Require Import TkzRun.

(** An empty tag heap of 128 slots, the size [lxb_html_document_create] uses. *)
Definition empty_heap : lxb_tag_heap := mk_tag_heap [] (lexbor_shbst_init 128).

#[export] Instance default_env : TkzEnv unit := {|
  callback_token_done t k := (env t, lxb_html_tokenizer_token_done k);
  lxb_html_tree_adjusted_current_node _ := None;
  tag_heap _ := empty_heap;
  attr_alloc_ok _ _ := true
|}.

#[export] Instance default_env_laws : TkzEnvLaws unit.
Proof. apply plain_env. intros t k e r s [= <- <-]. done. Defined.

(** A token as its reader sees it: type, name or text, and attributes. *)
Record token_view := mk_view {
  view_tag_id : Z; view_type : Z; view_data : list Z; view_attrs : list (list Z * list Z)
}.

Section View.
Context {E : Type} (t : tokenizer E).

(** The bytes of a span that begins in [node] ([lxb_html_in_make]). *)
Definition span_bytes (node : option positive) (b e : Z) : list Z :=
  match lxb_html_in_make (in_nodes (incoming t)) (rd t) node b e [] with
  | Some (_, s) => s
  | None => []
  end.

Definition attr_view (a : token_attr) : list Z * list Z :=
  (span_bytes (in_name a) (name_begin a) (name_end a),
   span_bytes (in_value a) (value_begin a) (value_end a)).

Definition view_token (k : html_token) : token_view :=
  mk_view (tok_tag_id k) (tok_type k) (span_bytes (tok_in_begin k) (tok_begin k) (tok_end k))
    (map attr_view (tok_attrs k)).
End View.

Record collector := mk_collector { collected : list token_view; col_ns : option Z }.

(** The state an opening tag puts the tokenizer in. *)
Definition content_state (k : html_token) (name : list Z) : option tkz_state * option Z :=
  if negb ((tok_tag_id k =? LXB_TAG__UNDEF) && (tok_type k =? LXB_HTML_TOKEN_TYPE_OPEN))
  then (None, None)
  else
    match lxb_tag_static_by_name name with
    | None => (None, None)
    | Some d =>
        let t := lxb_html_tokenizer_set_state_by_tag
                   (set_state (lxb_html_tokenizer_init tt (fun _ => 0)) S_data_before) true
                   (tag_id d) LXB_NS_HTML in
        match state t with
        | S_data_before => (None, None)
        | s => (Some s, Some (tag_id d))
        end
    end.

#[export] Instance collector_env : TkzEnv collector := {|
  callback_token_done t k :=
    let v := view_token t k in
    let '(s, id) := content_state k (view_data v) in
    (mk_collector (collected (env t) ++ [v]) (col_ns (env t)), mk_reply (Some k) s id None);
  lxb_html_tree_adjusted_current_node e := col_ns e;
  tag_heap _ := empty_heap;
  attr_alloc_ok _ _ := true
|}.

Lemma set_state_by_tag_text t sc id ns (H : state (E := unit) t = S_data_before) :
  text_state (state (lxb_html_tokenizer_set_state_by_tag t sc id ns)) = true.
Proof.
  unfold lxb_html_tokenizer_set_state_by_tag.
  case_ifs; cbn; try done. by rewrite H.
Qed.

#[export] Instance collector_env_laws : TkzEnvLaws collector.
Proof.
  apply plain_env. intros t k e r s. cbn.
  destruct (content_state k _) as [st id] eqn:Hc. intros [= <- <-] Hs. cbn in Hs. subst st.
  unfold content_state in Hc. destruct (negb _) in Hc; [done|].
  destruct (lxb_tag_static_by_name _) as [d|]; [|done].
  set (t' := lxb_html_tokenizer_set_state_by_tag _ _ _ _) in Hc.
  assert (text_state (state t') = true) as Ht by (by apply set_state_by_tag_text).
  destruct (state t'); try done; injection Hc; intros; by subst.
Defined.

(** ** Running the tokenizer on a list of buffers *)

(** The buffers laid out one after the other from address [a] on. *)
Fixpoint place (a : Z) (l : list Z) (m : Z -> Z) : Z -> Z :=
  match l with
  | [] => m
  | b :: l' => place (a + 1) l' (fun x => if x =? a then b else m x)
  end.

Definition BUF : Z := 1024.

(** Parse the chunks, without copying them and without releasing them. *)
Fixpoint feed {E} `{TkzEnv E} (t : tokenizer E) (a : Z) (chunks : list (list Z))
    : option (tokenizer E) :=
  match chunks with
  | [] => Some t
  | c :: rest =>
      '(t, _) ← lxb_html_tokenizer_chunk t true None a (Z.of_nat (length c));
      feed t (a + Z.of_nat (length c)) rest
  end.

Definition tokenize {E} `{TkzEnv E} (e : E) (chunks : list (list Z)) : option (tokenizer E) :=
  let t := lxb_html_tokenizer_init e (place BUF (concat chunks) (fun _ => 0)) in
  let t := set_opt t (Z.lor LXB_HTML_TOKENIZER_OPT_WO_COPY LXB_HTML_TOKENIZER_OPT_WO_IN_DESTROY) in
  let '(t, _) := lxb_html_tokenizer_begin t true in
  t ← feed t BUF chunks;
  '(t, _) ← lxb_html_tokenizer_end t;
  Some t.

(** The tokens of a document given as a list of chunks. *)
Definition tokens (chunks : list (list Z)) : option (list token_view) :=
  t ← tokenize (mk_collector [] None) chunks;
  Some (collected (env t)).
