(* ===== verification/TkzNotes.v ===== *)
(** * Inputs on which the tokenizer depends on buffer boundaries

    Cutting the input into buffers is meant to be invisible.  These are inputs
    for which it is not, evaluated on the definitions, and two inputs on which
    the states differ from the sections of the HTML standard they name. *)
From S2P Require Import Prelude.
From S2P Require Import Str.
From S2P Require Import In.
From S2P Require Import Tag.
From S2P Require Import TagHeap.
From S2P Require Import TkzBase.
From S2P Require Import TokenParse.
From S2P Require Import HtmlIn.
From S2P Require Import TkzState.
From S2P Require Import TkzComment.
From S2P Require Import TkzDoctype.
From S2P Require Import TkzText.
From S2P Require Import TkzScript.
From S2P Require Import TkzRun.
From S2P Require Import TkzInst.
From Stdlib Require Import String.
From Stdlib Require Import Ascii.

Definition text_view (s : string) : token_view :=
  mk_view LXB_TAG__TEXT LXB_HTML_TOKEN_TYPE_TEXT (bytes_of s) [].

Definition end_view : token_view := mk_view LXB_TAG__END_OF_FILE 0 [] [].

(** The tokens of a document fed as the given buffers, the adjusted current node
    being in namespace [ns] ([None]: there is no tree). *)
Definition tokens_in (ns : option Z) (chunks : list string) : option (list token_view) :=
  let cs := map bytes_of chunks in
  let t := lxb_html_tokenizer_init (mk_collector [] ns) (place BUF (List.concat cs) (fun _ => 0)) in
  let t := set_opt t (Z.lor LXB_HTML_TOKENIZER_OPT_WO_COPY LXB_HTML_TOKENIZER_OPT_WO_IN_DESTROY) in
  let t := set_tree t (match ns with Some _ => true | None => false end) in
  let '(t, _) := lxb_html_tokenizer_begin t true in
  t ← feed t BUF cs;
  '(t, _) ← lxb_html_tokenizer_end t;
  Some (collected (env t)).

Open Scope string_scope.

(** A PUBLIC or SYSTEM keyword cut by a buffer boundary loses the byte after
    it: [<!DOCTYPE html PUBLIC>abc] in one buffer is a doctype and the text [abc];
    cut after [PUB] the [>] is skipped and the text is swallowed by the
    doctype. *)
Theorem doctype_keyword_split :
  (exists d, tokens_in None ["<!DOCTYPE html PUBLIC>abc"] = Some [d; text_view "abc"; end_view]) /\
  (exists d, tokens_in None ["<!DOCTYPE html PUB"; "LIC>abc"] = Some [d; end_view]) /\
  (exists d, tokens_in None ["<!DOCTYPE html SYSTEM>abc"] = Some [d; text_view "abc"; end_view]) /\
  (exists d, tokens_in None ["<!DOCTYPE html SYS"; "TEM>abc"] = Some [d; end_view]).
Proof. repeat split; eexists; vm_compute; reflexivity. Qed.

(** [CDATA] is matched case-sensitively only when it lies in one buffer: in
    foreign content [<![cdata[x]]>] is a comment (a comment of the state says the
    match is case-sensitive), but cut into two buffers it is a CDATA section. *)
Theorem cdata_case_split :
  tokens_in (Some 3) ["<![cdata[x]]>"] =
    Some [mk_view LXB_TAG__EM_COMMENT LXB_HTML_TOKEN_TYPE_DATA (bytes_of "[cdata[x]]") []; end_view] /\
  tokens_in (Some 3) ["<![cd"; "ata[x]]>"] =
    Some [mk_view LXB_TAG__TEXT LXB_HTML_TOKEN_TYPE_CDATA (bytes_of "x") []; end_view].
Proof. split; vm_compute; reflexivity. Qed.

(** [</>] is kept as text.  Section 12.2.5.7 of the standard, which the state
    names, drops it; [lxb_html_tokenizer_state_end_tag_open] goes back to the data
    state without ending the text before it. *)
Theorem missing_end_tag_name_kept :
  tokens_in None ["a</>b"] = Some [text_view "a</>b"; end_view].
Proof. vm_compute. reflexivity. Qed.

(** Comparing a name that spans buffers ignores where it ends.
    [lxb_html_in_ncasecmp] of [scriptx] with the six bytes [script] is false in one
    buffer, and true when the seven bytes are cut into two. *)
Theorem in_ncasecmp_ignores_end :
  let nodes cut := <[1%positive := mk_in_node 0 0 1024 (1024 + cut) 1024 (Some 2%positive) None]>
    {[2%positive := mk_in_node cut 0 2048 (2048 + (7 - cut)) 2048 None (Some 1%positive)]} in
  let memory cut := rdm (fun a => (if a <? 2048 then nth (Z.to_nat (a - 1024)) (bytes_of "scriptx") 0
                             else nth (Z.to_nat (a - 2048 + cut)) (bytes_of "scriptx") 0)%Z) in
  lxb_html_in_ncasecmp (nodes 7) (memory 7) (Some 1%positive) 1024 1031 str_script 6 = Some false /\
  lxb_html_in_ncasecmp (nodes 4) (memory 4) (Some 1%positive) 1024 2051 str_script 6 = Some true.
Proof. split; vm_compute; reflexivity. Qed.
