(* ===== verification/TkzStep.v ===== *)
(** * One call of a state function

    For every state, on every input byte: the call returns a position of the
    buffer, it makes progress (the position moves or the state gets closer to
    one that consumes), it follows no null or dangling pointer, and it leaves
    the tokenizer in a condition in which the same holds of the next call. *)
From S2P Require Import Prelude.
From S2P Require Import Str.
From S2P Require Import In.
From S2P Require Import Tag.
From S2P Require Import TagHeap.
From S2P Require Import TkzBase.
From S2P Require Import HtmlIn.
From S2P Require Import TkzState.
From S2P Require Import TkzComment.
From S2P Require Import TkzDoctype.
From S2P Require Import TkzText.
From S2P Require Import TkzScript.
From S2P Require Import TkzRun.

(** ** Progress *)

(** How many more calls a state may return its position unchanged, given the
    byte [c] there. *)
Definition rank (eof : bool) (s : tkz_state) (c : Z) : Z :=
  match s with
  | S_attribute_name =>
      if one_of c [0x09; 0x0A; 0x0C; 0x0D; 0x20; 0x2F; 0x3E] || (c =? 0) && eof then 2 else 0
  | S_after_attribute_value_quoted | S_self_closing_start_tag | S_markup_declaration_open => 3
  | S_tag_open | S_end_tag_open | S_before_attribute_name | S_markup_declaration_comment
  | S_markup_declaration_doctype | S_markup_declaration_cdata
  | S_comment_less_than_sign_bang_dash | S_comment_less_than_sign_bang_dash_dash
  | S_doctype_after_name | S_script_data_escaped_less_than_sign
  | S_script_data_escaped_end_tag_open | S_script_data_double_escaped_end_tag_open => 2
  | S_data_before | S_plaintext_before | S_rcdata_before | S_rawtext_before
  | S_script_data_before | S_after_attribute_name | S_before_attribute_value
  | S_bogus_comment_before | S_cdata_section_before | S_cdata_section_bracket
  | S_cdata_section_end | S_comment_before_start | S_comment_start_dash
  | S_comment_less_than_sign | S_comment_less_than_sign_bang | S_comment_end_dash
  | S_comment_end | S_comment_end_bang | S_doctype_before | S_doctype_after_name_public
  | S_doctype_after_name_system | S_doctype_after_public_keyword
  | S_doctype_before_public_identifier | S_doctype_after_public_identifier
  | S_doctype_between_public_and_system_identifiers | S_doctype_after_system_keyword
  | S_doctype_before_system_identifier | S_doctype_after_system_identifier
  | S_rcdata_less_than_sign | S_rcdata_end_tag_open | S_rcdata_end_tag_name
  | S_rawtext_less_than_sign | S_rawtext_end_tag_open | S_rawtext_end_tag_name
  | S_script_data_less_than_sign | S_script_data_end_tag_open | S_script_data_end_tag_name
  | S_script_data_escape_start | S_script_data_escape_start_dash
  | S_script_data_escaped_end_tag_name | S_script_data_double_escape_start
  | S_script_data_double_escaped_less_than_sign | S_script_data_double_escape_end => 1
  | _ => 0
  end.

(** The only calls that may return a position past the end of the buffer: the
    rest of a PUBLIC or SYSTEM keyword. *)
Definition keyword_state (s : tkz_state) : bool :=
  match s with S_doctype_after_name_public | S_doctype_after_name_system => true | _ => false end.

(** ** What a state needs of the token *)

(** The states that use [token->attr_last]. *)
Definition needs_attr (s : tkz_state) : bool :=
  match s with
  | S_attribute_name | S_before_attribute_value | S_attribute_value_double_quoted
  | S_attribute_value_single_quoted | S_attribute_value_unquoted | S_doctype_name
  | S_doctype_after_name_public | S_doctype_after_name_system
  | S_doctype_after_public_keyword | S_doctype_before_public_identifier
  | S_doctype_public_identifier_double_quoted | S_doctype_public_identifier_single_quoted
  | S_doctype_after_system_keyword | S_doctype_before_system_identifier
  | S_doctype_system_identifier_double_quoted | S_doctype_system_identifier_single_quoted => true
  | _ => false
  end.

(** [after_attribute_name] is entered without an attribute too, but only in
    front of a byte it does not need one for. *)
Definition attrs_ok (eof : bool) (s : tkz_state) (attrs : bool) (here : bool) (c : Z) : bool :=
  match s with
  | S_after_attribute_name => attrs || here && (one_of c [0x2F; 0x3E] || (c =? 0) && eof)
  | _ => implb (needs_attr s) attrs
  end.

Definition has_attrs (k : html_token) : bool := negb (bool_decide (tok_attrs k = [])).

(** The states that use [tmp_incoming_node]. *)
Definition needs_tmp (s : tkz_state) : bool :=
  match s with
  | S_rcdata_end_tag_name | S_rawtext_end_tag_name | S_script_data_end_tag_name
  | S_script_data_escaped_end_tag_name | S_script_data_double_escape_start
  | S_script_data_double_escape_end => true
  | _ => false
  end.

(** ** Reading through the chain is defined *)

Lemma in_make_defined m rd ids : chain_wf m ids -> forall r k fuel i b e str,
  (length ids = k + S r)%nat -> (r < fuel)%nat -> ids !! k = Some i ->
  is_Some (in_make_loop m rd fuel i b e str).
Proof.
  intros WF r. induction r as [|r IH]; intros k fuel i b e str Hl Hf Hi;
    (destruct fuel as [|fuel]; [lia|]); cbn [in_make_loop];
    destruct (chain_lookup WF _ _ Hi) as (n & Hn & _ & Hnx & _); rewrite Hn; cbn;
    (destruct (lexbor_in_segment n e); [by eauto|]); rewrite Hnx.
  - rewrite lookup_ge_None_2 by lia. eauto.
  - destruct (ids !! S k) as [j|] eqn:Hj; [|by eauto].
    destruct (chain_lookup WF _ _ Hj) as (nn & Hnn & _). rewrite Hnn. cbn.
    eapply IH; eauto; lia.
Qed.

Lemma in_ncasecmp_defined m rd ids : chain_wf m ids -> forall r k fuel i b d len,
  (length ids = k + S r)%nat -> (r < fuel)%nat -> ids !! k = Some i ->
  is_Some (in_ncasecmp_loop m rd fuel i b d len).
Proof.
  intros WF r. induction r as [|r IH]; intros k fuel i b d len Hl Hf Hi;
    (destruct fuel as [|fuel]; [lia|]); cbn [in_ncasecmp_loop];
    destruct (chain_lookup WF _ _ Hi) as (n & Hn & _ & Hnx & _); rewrite Hn; cbn;
    (destruct (negb _); [by eauto|]); (destruct (_ =? 0); [by eauto|]); rewrite Hnx.
  - rewrite lookup_ge_None_2 by lia. eauto.
  - destruct (ids !! S k) as [j|] eqn:Hj; [|by eauto].
    destruct (chain_lookup WF _ _ Hj) as (nn & Hnn & _). rewrite Hnn. cbn.
    eapply IH; eauto; lia.
Qed.

Lemma chain_position {m ids} (WF : chain_wf m ids) {i} : i ∈ ids ->
  exists k r n, ids !! k = Some i /\ (length ids = k + S r)%nat /\ (r < walk_fuel m)%nat /\
    m !! i = Some n /\ in_begin n <= in_end n.
Proof.
  intros [k Hk]%list_elem_of_lookup. pose proof (lookup_lt_Some _ _ _ Hk).
  pose proof (chain_length_size WF). destruct (chain_lookup WF _ _ Hk) as (n & Hn & _ & _ & Hu).
  exists k, (length ids - S k)%nat, n. unfold walk_fuel. repeat split; try done; lia.
Qed.

Lemma in_tag_id_defined {m ids} rd heap i b e : chain_wf m ids -> i ∈ ids ->
  is_Some (lxb_html_in_tag_id m rd (Some i) heap b e).
Proof.
  intros WF Hi. destruct (chain_position WF Hi) as (k & r & n & Hk & Hl & Hf & Hn & _).
  unfold lxb_html_in_tag_id. cbn [mbind option_bind]. rewrite Hn. cbn [mbind option_bind].
  destruct (lexbor_in_segment n e); [by eauto|].
  unfold lxb_html_in_make. destruct (b =? 0); [by eexists|].
  cbn [mbind option_bind].
  destruct (in_make_defined m rd ids WF r k (walk_fuel m) i b e [] Hl Hf Hk) as [[st s] ->].
  cbn. destruct (st =? LXB_STATUS_OK); eauto.
Qed.

Lemma ncasecmp_defined {m ids} rd i b e d len : chain_wf m ids -> i ∈ ids ->
  is_Some (lxb_html_in_ncasecmp m rd (Some i) b e d len).
Proof.
  intros WF Hi. destruct (chain_position WF Hi) as (k & r & n & Hk & Hl & Hf & Hn & _).
  unfold lxb_html_in_ncasecmp. cbn [mbind option_bind]. rewrite Hn. cbn [mbind option_bind].
  destruct (lexbor_in_segment n e); [destruct (negb _); by eauto|].
  eapply in_ncasecmp_defined; eauto.
Qed.

(** [lexbor_in_node_pos_down] from a node of the chain is defined, whatever
    the position. *)
Lemma pos_down_defined m ids : chain_wf m ids -> forall k fuel i pos off,
  (k < fuel)%nat -> ids !! k = Some i -> is_Some (pos_down_loop m fuel i pos off).
Proof.
  intros WF k. induction k as [|k IH]; intros fuel i pos off Hf Hi;
    (destruct fuel as [|fuel]; [lia|]); cbn [pos_down_loop];
    destruct (chain_lookup WF _ _ Hi) as (n & Hn & Hpv & _); rewrite Hn; cbn;
    (destruct (in_begin n <=? pos - off); [by eauto|]); rewrite Hpv; [by eauto|].
  destruct (chain_before _ _ Hi) as [j Hj]. rewrite Hj.
  destruct (chain_lookup WF _ _ Hj) as (pn & Hpn & _). rewrite Hpn. cbn.
  apply IH; [lia | done].
Qed.

Lemma node_pos_down_defined m ids i pos off : chain_wf m ids -> i ∈ ids ->
  is_Some (lexbor_in_node_pos_down m i pos off).
Proof.
  intros WF Hi. destruct (chain_position WF Hi) as (k & r & n & Hk & Hl & Hf & Hn & _).
  eapply (pos_down_defined m ids WF k); [by eapply chain_index_fuel | done].
Qed.

(** ** The contract of a call *)

(** What no state function changes. *)
Definition frame {E} (t t' : tokenizer E) : Prop :=
  incoming t' = incoming t /\ incoming_first t' = incoming_first t /\
  incoming_node t' = incoming_node t /\ is_eof t' = is_eof t /\ reuse t' = reuse t /\
  opt t' = opt t /\ tree t' = tree t /\ mem t' = mem t.

#[export] Instance frame_preorder {E} : PreOrder (@frame E).
Proof.
  split; [done|]. intros t1 t2 t3. unfold frame. intuition congruence.
Qed.

Lemma frame_rd {E} (t t' : tokenizer E) : frame t t' -> forall a, rd t' a = rd t a.
Proof. intros (_ & _ & _ & _ & _ & _ & _ & Hm) a. unfold rd. by rewrite Hm. Qed.

(** *** Where the pointers point *)

(** An address of the buffer of node [i] (its end included). *)
Definition node_span {E} (t : tokenizer E) (i : option positive) (v : Z) : Prop :=
  exists n, in_lookup t i = Some n /\ in_begin n <= v <= in_end n.

(** Node [i] comes before [j] in the chain, or is [j]. *)
Definition ordered (ids : list positive) (i j : positive) : Prop :=
  exists a b, ids !! a = Some i /\ ids !! b = Some j /\ (a <= b)%nat.

(** The token's begin lies in the buffer of a node of the chain. *)
Definition token_span {E} (ids : list positive) (t : tokenizer E) (k : html_token) : Prop :=
  tok_begin k = NULL \/
  exists i, tok_in_begin k = Some i /\ i ∈ ids /\ node_span t (Some i) (tok_begin k).

(** [markup] lies in the buffer of [tmp_incoming_node], not before the token. *)
Definition tmp_span {E} (ids : list positive) (t : tokenizer E) (k : html_token) : Prop :=
  exists j, tmp_incoming_node t = Some j /\ node_span t (Some j) (markup t) /\
    (tok_begin k = NULL \/ exists i, tok_in_begin k = Some i /\ ordered ids i j).

(** The condition before a call at [data]: no fault so far, a current token
    with the attributes the state needs, and pointers into the chain [ids].
    The spans matter while buffers are fed, not at the end of the file. *)
Record step_pre {E} `{EV : TkzEnv E} {EL : TkzEnvLaws E} (ids : list positive) (t : tokenizer E) (data end_ : Z) : Prop := {
  pre_fault : fault t = false;
  pre_chain : chain_wf (in_nodes (incoming t)) ids;
  pre_node : exists i, incoming_node t = Some i /\ last ids = Some i;
  pre_token : exists k, token t = Some k /\
    attrs_ok (is_eof t) (state t) (has_attrs k) (data <? end_) (rd t data) = true;
  pre_tmp : needs_tmp (state t) = true -> exists j, tmp_incoming_node t = Some j /\ j ∈ ids;
  pre_buffer : is_eof t = false -> exists n,
    in_lookup t (incoming_node t) = Some n /\ in_begin n <= data /\ end_ = in_end n;
  pre_spans : is_eof t = false -> exists k, token t = Some k /\ token_span ids t k /\
    (needs_tmp (state t) = true -> tmp_span ids t k);
  pre_env : env_ok (env t)
}.

(** The callback returned NULL: an error status, and the buffer is given up. *)
Definition step_failed {E} (t' : tokenizer E) (p end_ : Z) : Prop :=
  fault t' = false /\ token t' = None /\ status t' <> LXB_STATUS_OK /\ p = end_.

(** The fake end-of-file byte was consumed: no call follows. *)
Definition step_eof {E} `{EV : TkzEnv E} {EL : TkzEnvLaws E} (t' : tokenizer E) (p end_ : Z) : Prop :=
  is_eof t' = true /\ fault t' = false /\ is_Some (token t') /\ env_ok (env t') /\ p = end_.

Record step_post {E} `{EV : TkzEnv E} {EL : TkzEnvLaws E} (ids : list positive) (t : tokenizer E) (data end_ : Z)
    (t' : tokenizer E) (p : Z) : Prop := {
  post_frame : frame t t';
  post_low : data <= p;
  post_high : p <= end_ + (if keyword_state (state t) then 1 else 0);
  post_progress : data < p \/
    p = data /\ rank (is_eof t) (state t') (rd t data) < rank (is_eof t) (state t) (rd t data);
  post_next : step_pre ids t' p end_ \/ step_failed t' p end_ \/ step_eof t' p end_
}.

(** A call preceded by statements that keep the state and the frame. *)
Lemma step_post_weaken {E} `{EV : TkzEnv E} {EL : TkzEnvLaws E} ids (t s : tokenizer E) data d end_ t' p :
  frame t s -> state s = state t -> data <= d ->
  step_post ids s d end_ t' p -> step_post ids t data end_ t' p.
Proof.
  intros Hf Hs Hd [F L H P N]. pose proof (frame_rd _ _ Hf d) as Hr.
  pose proof Hf as (_ & _ & _ & He & _). rewrite Hs in *. split; try done; try lia.
  - by transitivity s.
  - rewrite He in P. destruct (decide (d = data)) as [->|]; [rewrite Hr in P|]; [done|].
    destruct P as [|[-> _]]; lia.
Qed.

(** The rule for a state's loop. *)
Definition body_post {E} `{EV : TkzEnv E} {EL : TkzEnvLaws E} (ids : list positive) (s : tokenizer E) (d end_ : Z)
    (r : tokenizer E * option Z) : Prop :=
  match r with
  | (s', Some p) => step_post ids s d end_ s' p
  | (s', None) => frame s s' /\ state s' = state s /\ step_pre ids s' (d + 1) end_
  end.

Lemma scan_step_ok {E} `{EV : TkzEnv E} {EL : TkzEnvLaws E} ids (body : tokenizer E -> Z -> tokenizer E * option Z) t data end_ :
  (forall s d, state s = state t -> step_pre ids s d end_ -> d < end_ ->
     body_post ids s d end_ (body s d)) ->
  step_pre ids t data end_ -> data < end_ ->
  let '(t', p) := scan body t data end_ in step_post ids t data end_ t' p.
Proof.
  intros Hb Hpre Hlt.
  apply (scan_rule body
    (fun s d => data <= d <= end_ /\ frame t s /\ state s = state t /\ step_pre ids s d end_ /\
                (d = end_ -> data < d))
    (fun t' p => step_post ids t data end_ t' p)).
  - intros s d Hd (Hle & Hf & Hs & Hp & _). specialize (Hb s d Hs Hp Hd).
    destruct (body s d) as [s' [p|]]; cbn in Hb.
    + eapply (step_post_weaken ids t s data d); eauto. lia.
    + destruct Hb as (Hf' & Hs' & Hp'). repeat split; try lia; try done; try congruence.
      all: first [by destruct Hf as (?&?&?&?&?&?&?&?), Hf' as (?&?&?&?&?&?&?&?); congruence | apply Hp'].
  - intros s d Hd (Hle & Hf & Hs & Hp & Hprog). assert (d = end_) as -> by lia.
    split; [done | lia | destruct (keyword_state _); lia | left; by apply Hprog | by left].
  - repeat split; try done; try lia; apply Hpre.
Qed.

(** A state function as a whole. *)
Definition state_post {E} `{EV : TkzEnv E} {EL : TkzEnvLaws E} (ids : list positive) (t : tokenizer E) (d end_ : Z)
    (r : tokenizer E * Z) : Prop :=
  let '(t', p) := r in step_post ids t d end_ t' p.

(** ** Symbolic execution

    [good t st ha tm] is what the proofs know of the tokenizer in the middle of
    a call that began in [t0]: its state [st], whether the token has an
    attribute for certain ([ha]), and whether [tmp_incoming_node] is valid
    ([tm]). *)
Section Good.
Context {E : Type} `{EV : TkzEnv E} {EL : TkzEnvLaws E}.
Context {ids : list positive} {t0 : tokenizer E}.
Context (WF : chain_wf (in_nodes (incoming t0)) ids).
Context (ND : exists i, incoming_node t0 = Some i /\ last ids = Some i).

Record good (t : tokenizer E) (st : tkz_state) (ha tm : bool) : Prop := {
  g_frame : frame t0 t;
  g_fault : fault t = false;
  g_state : state t = st;
  g_token : exists k, token t = Some k /\ (ha = true -> has_attrs k = true) /\
    (is_eof t0 = false -> token_span ids t k /\ (tm = true -> tmp_span ids t k));
  g_tmp : tm = true -> exists j, tmp_incoming_node t = Some j /\ j ∈ ids;
  g_env : env_ok (env t)
}.

Implicit Types (t : tokenizer E) (st : tkz_state) (ha tm : bool).

Lemma last_in i : last ids = Some i -> i ∈ ids.
Proof. rewrite last_lookup. apply list_elem_of_lookup_2. Qed.

Lemma good_node t st ha tm : good t st ha tm -> exists i n,
  incoming_node t = Some i /\ last ids = Some i /\ in_lookup t (incoming_node t) = Some n.
Proof.
  intros [(HI & _ & HN & _) _ _ _ _ _]. destruct ND as (i & Hi & Hl).
  destruct (chain_position WF (last_in _ Hl)) as (? & ? & n & _ & _ & _ & Hn & _).
  exists i, n. unfold in_lookup. rewrite HN, Hi, HI. cbn. done.
Qed.

Lemma good_set_state t st ha tm s : good t st ha tm -> good (set_state t s) s ha tm.
Proof. intros []. by split. Qed.

Lemma good_set_markup t st ha tm v : good t st ha tm -> good (set_markup t v) st ha false.
Proof.
  intros [F Hf Hs (k & Hk & Ha & Hsp) Ht Hev]. split; try done.
  exists k. split; [done|]. split; [done|]. intros He. by destruct (Hsp He).
Qed.

Lemma good_error_add t st ha tm p id : good t st ha tm -> good (error_add t p id) st ha tm.
Proof. intros []. by split. Qed.

Lemma good_set_status t st ha tm v : good t st ha tm -> good (set_status t v) st ha tm.
Proof. intros []. by split. Qed.

(** An update of the token that keeps where it begins. *)
Lemma good_upd_token t st ha tm ha' f : good t st ha tm ->
  (forall k, (ha = true -> has_attrs k = true) -> ha' = true -> has_attrs (f k) = true) ->
  (forall k, is_eof t0 = false ->
     tok_begin (f k) = tok_begin k /\ tok_in_begin (f k) = tok_in_begin k) ->
  good (upd_token t f) st ha' tm.
Proof.
  intros [F Hf Hs (k & Hk & Ha & Hsp) Ht Hev] Hat Hb. unfold upd_token. rewrite Hk.
  split; try done. exists (f k). split; [done|]. split; [by apply Hat|].
  intros He. destruct (Hb k He) as [H1 H2]. destruct (Hsp He) as [Htk Htmp].
  unfold token_span, tmp_span. rewrite H1, H2. done.
Qed.

Lemma good_token t st ha tm f : good t st ha tm ->
  (forall k, has_attrs (f k) = has_attrs k) ->
  (forall k, is_eof t0 = false ->
     tok_begin (f k) = tok_begin k /\ tok_in_begin (f k) = tok_in_begin k) ->
  good (upd_token t f) st ha tm.
Proof. intros G Hf Hb. eapply good_upd_token; [done| |done]. intros k Hk. rewrite Hf. apply Hk. Qed.

Lemma good_set_begin t st ha tm v : good t st ha tm ->
  (is_eof t0 = false -> node_span t0 (incoming_node t0) v) ->
  good (set_begin t v) st ha false.
Proof.
  intros G Hv. destruct (good_node _ _ _ _ G) as (i & n & Hi & Hl & _).
  pose proof (g_frame _ _ _ _ G) as (HI & _ & HN & _).
  destruct G as [F Hf Hs (k & Hk & Ha & Hsp) Ht Hev]. unfold set_begin, upd_token. rewrite Hk.
  split; try done. eexists. split; [reflexivity|]. split; [done|]. intros He. split; [|done].
  right. exists i. cbn. split; [done|]. split; [by apply last_in|].
  destruct (Hv He) as (n' & Hn' & Hb). exists n'. unfold in_lookup in *. cbn in *.
  rewrite HI. rewrite <- HN, Hi in Hn'. done.
Qed.

Lemma good_save_markup t st ha tm v : good t st ha tm ->
  (is_eof t0 = false -> node_span t0 (incoming_node t0) v) ->
  good (save_markup t v) st ha true.
Proof.
  intros G Hv. destruct (good_node _ _ _ _ G) as (i & n & Hi & Hl & _).
  pose proof (g_frame _ _ _ _ G) as (HI & _ & HN & _).
  destruct G as [F Hf Hs (k & Hk & Ha & Hsp) Ht Hev].
  split; try done; [|cbn; eauto using last_in].
  exists k. split; [done|]. split; [done|]. intros He. destruct (Hsp He) as [Htk _].
  split; [done|]. intros _. exists i. cbn. split; [done|]. split.
  - destruct (Hv He) as (n' & Hn' & Hb). exists n'. unfold in_lookup in *. cbn in *.
    rewrite HI. rewrite <- HN, Hi in Hn'. done.
  - destruct Htk as [|(i' & Hi' & Hin & _)]; [by left | right]. exists i'. split; [done|].
    apply list_elem_of_lookup in Hin as [a Ha']. rewrite last_lookup in Hl.
    exists a, (pred (length ids)). pose proof (lookup_lt_Some _ _ _ Ha').
    repeat split; [done | done | lia].
Qed.

Lemma good_deref_token t st ha tm : good t st ha tm -> good (deref_token t) st ha tm.
Proof. intros G. unfold deref_token. by destruct (g_token _ _ _ _ G) as (k & -> & _). Qed.

Lemma good_deref_node t st ha tm :
  good t st ha tm -> good (deref_node t (incoming_node t)) st ha tm.
Proof.
  intros G. destruct (good_node _ _ _ _ G) as (i & n & _ & _ & Hn).
  unfold deref_node. by rewrite Hn.
Qed.

Lemma good_attr_last t st tm : good t st true tm -> exists a, attr_last t = Some a.
Proof.
  intros [_ _ _ (k & Hk & Ha & _) _ _]. specialize (Ha eq_refl). unfold attr_last, tok. rewrite Hk.
  apply negb_true_iff, bool_decide_eq_false in Ha. cbn.
  destruct (exists_last Ha) as (l & a & ->). rewrite last_snoc. eauto.
Qed.

Lemma good_deref_attr_last t st tm : good t st true tm -> good (deref_attr_last t) st true tm.
Proof. intros G. unfold deref_attr_last. by destruct (good_attr_last _ _ _ G) as [a ->]. Qed.

Lemma has_attrs_map_last f k :
  has_attrs k = true -> has_attrs (with_attrs (map_last f (tok_attrs k)) k) = true.
Proof.
  unfold has_attrs. cbn. intros H%negb_true_iff%bool_decide_eq_false.
  apply negb_true_iff, bool_decide_eq_false. unfold map_last.
  destruct (exists_last H) as (l & a & ->). rewrite last_snoc, removelast_last. by destruct l.
Qed.

Lemma good_upd_attr_last t st tm f : good t st true tm -> good (upd_attr_last t f) st true tm.
Proof.
  intros G. unfold upd_attr_last. destruct (good_attr_last _ _ _ G) as [a ->].
  eapply good_upd_token; [done| |done]. intros k Hk _. by apply has_attrs_map_last, Hk.
Qed.

Lemma good_set_end_down t st ha tm v o : good t st ha tm -> good (set_end_down t v o) st ha tm.
Proof.
  intros G. destruct (good_node _ _ _ _ G) as (i & n & Hi & Hl & _).
  unfold set_end_down. rewrite Hi. pose proof (g_frame _ _ _ _ G) as (HI & _). rewrite HI.
  destruct (node_pos_down_defined _ ids i v o WF (last_in _ Hl)) as [[j q] ->].
  by apply good_token.
Qed.

Lemma good_weaken t st ha tm : good t st ha tm -> good t st false tm.
Proof. intros [F Hf Hs (k & Hk & _ & Hsp) Ht Hev]. split; try done. by exists k. Qed.

Lemma good_attr_delete_last t st tm :
  good t st true tm -> good (attr_delete_last t) st false tm.
Proof.
  intros G%good_deref_attr_last. unfold attr_delete_last.
  eapply good_upd_token; [done| |]; done.
Qed.

(** *** The macros that may return *)

Context {R : Type} `{RT : Ret E R}.

Definition failed t : Prop :=
  frame t0 t /\ fault t = false /\ token t = None /\ status t <> LXB_STATUS_OK.

Lemma attr_add_m_rule (Q : R -> Prop) t st ha tm v k : good t st ha tm ->
  (forall t', good t' st true tm -> Q (k t')) ->
  (forall t', good t' st ha tm -> Q (ret t' v)) ->
  Q (attr_add_m t v k).
Proof.
  intros G Hk Hr. unfold attr_add_m. apply good_deref_token in G.
  destruct (attr_alloc_ok _ _); [apply Hk | apply Hr, good_set_status, G].
  eapply good_upd_token; [destruct G; by split| |done]. intros x _ _.
  unfold has_attrs. cbn. apply negb_true_iff, bool_decide_eq_false. by destruct (tok_attrs x).
Qed.

(** The token is emitted and cleaned; the callback may have set a text state. *)
Lemma token_done_wo_check_m_rule (Q : R -> Prop) t st ha tm v k : good t st ha tm ->
  (forall t' st', st' = st \/ text_state st' = true ->
     good t' st' false tm -> markup t' = markup t ->
     tmp_incoming_node t' = tmp_incoming_node t -> tok_begin (tok t') = NULL -> Q (k t')) ->
  (forall t', failed t' -> Q (ret t' v)) ->
  Q (token_done_wo_check_m t v k).
Proof.
  intros [F Hf Hs (kk & Hk & _ & Hsp) Ht Hev] HQ Hr.
  unfold token_done_wo_check_m, _token_done_m, call_token_done. rewrite Hk.
  destruct (callback_token_done t kk) as [e r] eqn:Hcb. cbn.
  destruct (reply_token r) as [k'|] eqn:Hrt.
  - apply (HQ _ (default (state t) (reply_state r))); try done.
    + destruct (reply_state r) as [s|] eqn:Hrs; [right | by left].
      eapply callback_state; eauto.
    + split; cbn; try done; [|by eapply (callback_env t); [| |eexists]].
      exists token_zero. split; [done|]. split; [done|].
      intros He. split; [by left|]. intros Htm. destruct (Hsp He) as [_ Htmp].
      destruct (Htmp Htm) as (j & Hj & Hjn & _). exists j. split; [done|]. split; [done|]. by left.
  - apply Hr. destruct F as (?&?&?&?&?&?&?&?). case_if; bool_to_prop; repeat split; cbn; try done.
Qed.

Lemma good_clean t st ha tm : good t st ha tm -> good (lxb_html_token_clean t) st false tm.
Proof.
  intros [F Hf Hs (k & Hk & _ & Hsp) Ht Hev]. unfold lxb_html_token_clean, upd_token. rewrite Hk.
  split; try done. eexists. split; [reflexivity|]. split; [done|]. intros He.
  destruct (Hsp He) as [_ Htmp]. split; [by left|]. intros Htm.
  destruct (Htmp Htm) as (j & Hj & Hjn & _). exists j. split; [done|]. split; [done|]. by left.
Qed.

Lemma good_tok t st ha tm : good t st ha tm -> token t = Some (tok t).
Proof. intros [_ _ _ (k & Hk & _) _ _]. unfold tok. by rewrite Hk. Qed.

Lemma token_done_m_rule' (Q : R -> Prop) t st ha tm v k : good t st ha tm ->
  (forall t' st', st' = st \/ text_state st' = true ->
     good t' st' false tm -> markup t' = markup t ->
     tmp_incoming_node t' = tmp_incoming_node t -> tok_begin (tok t') = NULL -> Q (k t')) ->
  (forall t', failed t' -> Q (ret t' v)) ->
  Q (token_done_m t v k).
Proof.
  intros G HQ Hr. unfold token_done_m, deref_token. rewrite (good_tok _ _ _ _ G). case_if.
  - exact (token_done_wo_check_m_rule Q _ _ _ _ v k G HQ Hr).
  - assert (Hc : lxb_html_token_clean t = set_token t (Some token_zero))
      by (unfold lxb_html_token_clean, upd_token; by rewrite (good_tok _ _ _ _ G)).
    apply (HQ _ st); [by left | by eapply good_clean | by rewrite Hc..].
Qed.

Lemma token_done_m_rule (Q : R -> Prop) t st ha tm v k : good t st ha tm ->
  (forall t' st', st' = st \/ text_state st' = true -> good t' st' false tm -> Q (k t')) ->
  (forall t', failed t' -> Q (ret t' v)) ->
  Q (token_done_m t v k).
Proof. intros G HQ. eapply token_done_m_rule'; eauto. Qed.

Lemma emit_text_not_empty_m_rule (Q : R -> Prop) t st ha tm v k : good t st ha tm ->
  (forall t' st', st' = st \/ text_state st' = true -> good t' st' false tm -> Q (k t')) ->
  (forall t', failed t' -> Q (ret t' v)) ->
  Q (emit_text_not_empty_m t v k).
Proof.
  intros G%good_deref_token HQ Hr. unfold emit_text_not_empty_m. case_if.
  - eapply (token_done_wo_check_m_rule Q _ st ha tm v k); eauto.
    do 2 (apply good_token; [|done|done]). done.
  - eapply HQ; [by left|]. by eapply good_weaken.
Qed.

(** The end tag's token begins at [markup]. *)
Lemma init_close_token_rule (Q : R -> Prop) t st ha v d k : good t st ha true ->
  (forall t' st', st' = st \/ text_state st' = true -> good t' st' false false -> Q (k t')) ->
  (forall t', failed t' -> Q (ret t' v)) ->
  Q (init_close_token t d v k).
Proof.
  intros G HQ Hr. unfold init_close_token.
  eapply token_done_m_rule'; [exact G| |exact Hr].
  intros t' st' Hst G' Hm _ _. apply (HQ _ st' Hst). rewrite <- Hm.
  pose proof (good_tok _ _ _ _ G') as Hk. destruct G' as [F Hf Hs (k' & Hk' & _ & Hsp) Ht Hev].
  rewrite Hk in Hk'. injection Hk' as <-.
  unfold type_or, set_end, upd_token. cbn. rewrite Hk. cbn.
  split; try done. eexists. split; [reflexivity|]. split; [done|]. intros He. split; [|done].
  right. destruct (Hsp He) as [_ Htmp]. destruct (Htmp eq_refl) as (j & Hj & Hjn & _).
  exists j. cbn. split; [done|]. split; [|done]. destruct (Ht eq_refl) as (j' & Hj' & Hin).
  congruence.
Qed.
End Good.

Section Leaves.
Context {E : Type} `{EV : TkzEnv E} {EL : TkzEnvLaws E}.
Context {ids : list positive} {t0 : tokenizer E}.
Implicit Types (t : tokenizer E) (st : tkz_state).

Lemma good_rd t st ha tm : good (ids := ids) (t0 := t0) t st ha tm -> forall a, rd t a = rd t0 a.
Proof. intros G. apply frame_rd, G. Qed.

Lemma good_eof t st ha tm : good (ids := ids) (t0 := t0) t st ha tm -> is_eof t = is_eof t0.
Proof. intros [(_ & _ & _ & -> & _) _ _ _ _ _]. done. Qed.

Lemma attrs_ok_mono eof s (a a' h : bool) c : (a = true -> a' = true) ->
  attrs_ok eof s a h c = true -> attrs_ok eof s a' h c = true.
Proof. destruct a, a'; try done; intros H; [by specialize (H eq_refl)|]. by destruct s. Qed.

(** The facts of the call's precondition that hold throughout it. *)
Context {d end_ : Z} (PRE : step_pre ids t0 d end_).

Lemma good_pre t st ha tm p :
  good (ids := ids) (t0 := t0) t st ha tm -> d <= p ->
  attrs_ok (is_eof t0) st ha (p <? end_) (rd t0 p) = true ->
  implb (needs_tmp st) tm = true ->
  step_pre ids t p end_.
Proof.
  intros [F Hf Hs (k & Hk & Ha & Hsp) Ht Hev] Hp Hok Htm.
  pose proof F as (HI & _ & HN & He & _). destruct PRE as [_ WF ND _ _ BF _ _].
  assert (Htm' : needs_tmp (state t) = true -> tm = true)
    by (rewrite Hs; destruct (needs_tmp st); [by destruct tm | done]).
  split; [done | by rewrite HI | by rewrite HN | | | | | done].
  - exists k. split; [done|]. rewrite He, Hs, (frame_rd _ _ F). by eapply attrs_ok_mono.
  - intros Hn. by apply Ht, Htm'.
  - rewrite He. intros He0. destruct (BF He0) as (n & Hn & Hb & Hend).
    exists n. unfold in_lookup in *. rewrite HN, HI. repeat split; [done | lia | done].
  - rewrite He. intros He0. destruct (Hsp He0) as [H1 H2]. exists k. repeat split; eauto.
Qed.

Lemma good_leaf t st ha tm p :
  good (ids := ids) (t0 := t0) t st ha tm ->
  d <= p <= end_ + (if keyword_state (state t0) then 1 else 0) ->
  (d < p \/ p = d /\ rank (is_eof t0) st (rd t0 d) < rank (is_eof t0) (state t0) (rd t0 d)) ->
  attrs_ok (is_eof t0) st ha (p <? end_) (rd t0 p) = true ->
  implb (needs_tmp st) tm = true ->
  step_post ids t0 d end_ t p.
Proof.
  intros G Hb Hp Ha Ht.
  split; [apply G | lia | lia | by rewrite (g_state _ _ _ _ G) | left; eapply good_pre; eauto; lia].
Qed.

Lemma failed_leaf t : failed (t0 := t0) t -> d < end_ -> step_post ids t0 d end_ t end_.
Proof.
  intros (F & Hf & Hk & Hs) Hlt.
  split; [done | lia | destruct (keyword_state _); lia | left; lia | by right; left].
Qed.

Lemma eof_leaf t st ha tm : good (ids := ids) (t0 := t0) t st ha tm ->
  is_eof t0 = true -> d < end_ -> step_post ids t0 d end_ t end_.
Proof.
  intros G He Hlt. pose proof (good_eof _ _ _ _ G) as He'.
  split; [apply G | lia | destruct (keyword_state _); lia | left; lia | right; right].
  destruct (g_token _ _ _ _ G) as (k & Hk & _).
  repeat split; [congruence | apply G | eauto | apply G].
Qed.

(** An address between the current position and the end of the buffer. *)
Lemma buffer_span v : d <= v <= end_ -> is_eof t0 = false -> node_span t0 (incoming_node t0) v.
Proof.
  intros Hv He. destruct (pre_buffer _ _ _ _ PRE He) as (n & Hn & Hb & ->).
  exists n. split; [done | lia].
Qed.

Lemma pre_good st : state t0 = st ->
  good (ids := ids) (t0 := t0) t0 st (needs_attr st) (needs_tmp st).
Proof.
  destruct PRE as [Hf _ _ (k & Hk & Ha) Ht _ Hsp Hev]. intros <-. split; try done.
  exists k. split; [done|]. split; [by destruct (state t0)|].
  intros He. destruct (Hsp He) as (k' & Hk' & Htk & Htmp). rewrite Hk in Hk'.
  injection Hk' as <-. done.
Qed.

Lemma pre_good_after : state t0 = S_after_attribute_name ->
  good (ids := ids) (t0 := t0) t0 S_after_attribute_name true false \/
  good (ids := ids) (t0 := t0) t0 S_after_attribute_name false false /\
  (one_of (rd t0 d) [0x2F; 0x3E] || (rd t0 d =? 0) && is_eof t0) = true.
Proof.
  intros Hs. pose proof (pre_good _ Hs) as [F Hf _ (k & Hk & _ & Hsp) Ht Hev].
  destruct (pre_token _ _ _ _ PRE) as (k' & Hk' & Ha). rewrite Hk in Hk'. injection Hk' as <-.
  rewrite Hs in Ha. cbn [attrs_ok] in Ha.
  destruct (has_attrs k) eqn:Hh; [left | right; split].
  - split; try done. by exists k.
  - split; try done. exists k. done.
  - by apply andb_true_iff in Ha as [_ Ha].
Qed.
End Leaves.

(** *** Tactics *)

(** The token begins where it did, or the end of the file is read. *)
Ltac good_begin := intros; first [split; reflexivity | bool_to_prop; congruence].

(** Build the [good] fact of an expression of setters. *)
Ltac good_solve PRE :=
  lazymatch goal with
  | |- good (set_state _ _) _ _ _ => eapply good_set_state; good_solve PRE
  | |- good (set_markup _ _) _ _ _ => eapply good_set_markup; good_solve PRE
  | |- good (save_markup _ _) _ _ _ =>
      eapply (good_save_markup (pre_chain _ _ _ _ PRE) (pre_node _ _ _ _ PRE));
      [good_solve PRE | apply (buffer_span PRE); lia]
  | |- good (error_add _ _ _) _ _ _ => eapply good_error_add; good_solve PRE
  | |- good (error_add_eof _ _) _ _ _ =>
      eapply good_error_add, (good_deref_node (pre_chain _ _ _ _ PRE) (pre_node _ _ _ _ PRE)); good_solve PRE
  | |- good (error_add_token_end _ _) _ _ _ =>
      eapply good_error_add, good_deref_token; good_solve PRE
  | |- good (type_or _ _) _ _ _ => eapply good_token; [good_solve PRE | reflexivity | good_begin]
  | |- good (set_type _ _) _ _ _ => eapply good_token; [good_solve PRE | reflexivity | good_begin]
  | |- good (set_tag_id _ _) _ _ _ => eapply good_token; [good_solve PRE | reflexivity | good_begin]
  | |- good (set_end _ _) _ _ _ => eapply good_token; [good_solve PRE | reflexivity | good_begin]
  | |- good (set_begin _ _) _ _ _ =>
      eapply (good_set_begin (pre_chain _ _ _ _ PRE) (pre_node _ _ _ _ PRE));
      [good_solve PRE | first [apply (buffer_span PRE); lia | intros; bool_to_prop; congruence]]
  | |- good (set_end_oef _) _ _ _ =>
      eapply good_token; [eapply (good_deref_node (pre_chain _ _ _ _ PRE) (pre_node _ _ _ _ PRE)); good_solve PRE | reflexivity | good_begin]
  | |- good (set_end_down _ _ _) _ _ _ => eapply (good_set_end_down (pre_chain _ _ _ _ PRE) (pre_node _ _ _ _ PRE)); good_solve PRE
  | |- good (upd_token _ _) _ _ _ => eapply good_token; [good_solve PRE | reflexivity | good_begin]
  | |- good (deref_token _) _ _ _ => eapply good_deref_token; good_solve PRE
  | |- good (deref_node _ _) _ _ _ => eapply (good_deref_node (pre_chain _ _ _ _ PRE) (pre_node _ _ _ _ PRE)); good_solve PRE
  | |- good (deref_attr_last _) _ _ _ => eapply good_deref_attr_last; good_solve PRE
  | |- good (attr_type_or _ _) _ _ _ => eapply good_upd_attr_last; good_solve PRE
  | |- good (attr_set_name_begin _ _) _ _ _ => eapply good_upd_attr_last; good_solve PRE
  | |- good (attr_set_name_end _ _) _ _ _ => eapply good_upd_attr_last; good_solve PRE
  | |- good (attr_set_value_begin _ _) _ _ _ => eapply good_upd_attr_last; good_solve PRE
  | |- good (attr_set_value_end _ _) _ _ _ => eapply good_upd_attr_last; good_solve PRE
  | |- good (attr_set_name_end_oef _) _ _ _ =>
      eapply good_upd_attr_last, (good_deref_node (pre_chain _ _ _ _ PRE) (pre_node _ _ _ _ PRE)); good_solve PRE
  | |- good (attr_set_value_end_oef _) _ _ _ =>
      eapply good_upd_attr_last, (good_deref_node (pre_chain _ _ _ _ PRE) (pre_node _ _ _ _ PRE)); good_solve PRE
  | |- good (attr_delete_last _) _ _ _ => eapply good_attr_delete_last; good_solve PRE
  | |- good _ _ _ _ => eassumption
  end.

(** Replace what a tokenizer reads by what the first one read. *)
Ltac good_norm G := rewrite ?(good_eof _ _ _ _ G), ?(good_rd _ _ _ _ G).

Ltac sx_cont :=
  let t := fresh "t" in let st := fresh "st" in let Hst := fresh "Hst" in let G := fresh "G" in
  intros t st Hst G; intros; cbv beta; good_norm G.
Ltac sx_fail := let t := fresh "t" in let F := fresh "F" in intros t F.

(** Keep of an intermediate tokenizer only its [good] fact. *)
Ltac sx_forget Q b G :=
  match type of G with
  | @good ?E ?EV ?EL ?ids ?tt _ ?st ?ha ?tm =>
      let t := fresh "t" in let H := fresh in
      enough (H : forall t, @good E EV EL ids tt t st ha tm -> Q (b t)) by (apply H; exact G);
      clear G; intros t G; cbv beta; good_norm G
  end.

(** One step of symbolic execution. *)
Ltac sx PRE :=
  lazymatch goal with
  | |- ?Q (let x := ?v in @?b x) =>
      let T := type of v in
      lazymatch T with
      | tokenizer _ =>
          lazymatch v with
          | (if ?c then _ else _) =>
              let Hc := fresh "E" in destruct c eqn:Hc
          | _ =>
              let v' := eval cbv zeta in v in
              let G := fresh "G" in let t := fresh "t" in
              eassert (G : good v' _ _ _) by good_solve PRE;
              change (Q (b v')); sx_forget Q b G
          end
      | _ => change (Q (b v)); cbv beta
      end
  | |- _ (if ?c then _ else _) => let Hc := fresh "E" in destruct c eqn:Hc
  | |- _ (attr_add_m _ _ _) =>
      let t := fresh "t" in let G := fresh "G" in
      eapply attr_add_m_rule; [good_solve PRE | intros t G; cbv beta; good_norm G | intros t G]
  | |- _ (token_done_m _ _ _) => eapply token_done_m_rule; [good_solve PRE | sx_cont | sx_fail]
  | |- _ (token_done_wo_check_m _ _ _) => eapply token_done_wo_check_m_rule; [good_solve PRE | sx_cont | sx_fail]
  | |- _ (init_close_token _ _ _ _) =>
      eapply init_close_token_rule; [good_solve PRE | sx_cont | sx_fail]
  | |- _ (emit_text_not_empty_m _ _ _) => eapply emit_text_not_empty_m_rule; [good_solve PRE | sx_cont | sx_fail]
  end.

(** Facts about the current byte. *)
Ltac byte_facts :=
  unfold is_ws, one_of in *; cbn [existsb] in *;
  repeat match goal with H : context [_ || false] |- _ => rewrite orb_false_r in H end;
  bool_to_prop.

(** Refute a path the current byte excludes. *)
Ltac byte_absurd :=
  exfalso; byte_facts;
  repeat match goal with
  | H : _ || _ = true |- _ => apply orb_true_iff in H as [H|H]
  | H : _ && _ = false |- _ => apply andb_false_iff in H as [H|H]
  end; bool_to_prop; congruence || lia.

Ltac sx_rank Hs :=
  rewrite Hs; cbn [rank];
  first [ lia
        | match goal with |- context [if ?b then _ else _] => destruct b eqn:? end;
          first [lia | byte_absurd] ].

Lemma text_state_rank eof s c : text_state s = true -> rank eof s c = 1.
Proof. by destruct s. Qed.
Lemma text_state_attrs eof s l h c : text_state s = true -> attrs_ok eof s l h c = true.
Proof. by destruct s. Qed.
Lemma text_state_tmp s tm : text_state s = true -> implb (needs_tmp s) tm = true.
Proof. by destruct s. Qed.

(** [attrs_ok] at the end of a path. *)
Ltac sx_attrs :=
  first [ reflexivity
        | by apply text_state_attrs
        | cbn [attrs_ok orb]; apply andb_true_iff; split; [by apply Z.ltb_lt|];
          repeat match goal with H : _ = true |- _ => rewrite H end;
          first [reflexivity | apply orb_true_r] ].

(** The end of an execution path. *)
Ltac sx_leaf Hs PRE :=
  repeat match goal with H : ?s = _ \/ text_state ?s = true |- _ => destruct H as [->|H] end;
  lazymatch goal with
  | F : failed ?t |- _ (ret ?t _) => apply (failed_leaf _ F); assumption
  | G : good ?t _ _ _ |- _ (ret ?t ?p) =>
      first
      [ eapply (eof_leaf _ _ _ _ G); assumption
      | eapply (good_leaf PRE _ _ _ _ _ G);
        [ rewrite Hs; cbn [keyword_state]; lia
        | lazymatch goal with |- ?d < _ \/ _ =>
            first [ left; lia
                  | destruct (Z.eq_dec p d) as [?|?];
                    [right; split; [assumption || reflexivity|] | left; lia];
                    rewrite ?text_state_rank by assumption; sx_rank Hs ] end
        | sx_attrs
        | first [reflexivity | by apply text_state_tmp] ]
      | byte_absurd ]
  | G : good ?t _ _ _ |- _ (next ?t) =>
      first
      [ hnf; split; [apply G | split; [exact (eq_trans (g_state _ _ _ _ G) (eq_sym Hs)) |
          eapply (good_pre PRE _ _ _ _ _ G); [lia | reflexivity | reflexivity]]]
      | byte_absurd ]
  end.

(** Start: [PRE] is the precondition at a tokenizer in the state of [Hs]. *)
Ltac sx_start Hs PRE :=
  let G := fresh "G" in
  lazymatch type of Hs with
  | state _ = S_after_attribute_name =>
      let Hc := fresh "Hc" in destruct (pre_good_after PRE Hs) as [G|[G Hc]]
  | _ => pose proof (pre_good PRE _ Hs) as G; cbn [needs_attr needs_tmp] in G
  end.
