(* ===== verification/TkzSafe.v ===== *)
(** * Every state call is safe and makes progress

    The contract [step_post] of [TkzStep] for the dispatch through
    [tkz->state], and what follows for the loops: a buffer, and the end of the
    file, are always consumed within the given fuel, without a fault. *)
From S2P Require Import Prelude.
From S2P Require Import Str.
From S2P Require Import In.
From S2P Require Import Tag.
From S2P Require Import TagHeap.
From S2P Require Import TkzBase.
From S2P Require Import HtmlIn.
From S2P Require Import TkzState.
From S2P Require Import TkzComment.
From S2P Require Import TkzDoctype.
From S2P Require Import TkzText.
From S2P Require Import TkzScript.
From S2P Require Import TkzRun.
From S2P Require Import TkzStep.

Section Helpers.
Context {E : Type} `{EV : TkzEnv E} {EL : TkzEnvLaws E}.
Context {ids : list positive} {t0 : tokenizer E}.
Implicit Types (t : tokenizer E) (st : tkz_state).

Lemma good_value_begin_once t st tm d :
  good (ids := ids) (t0 := t0) t st true tm ->
  good (ids := ids) (t0 := t0) (value_begin_once t d) st true tm.
Proof.
  intros G%good_deref_attr_last. unfold value_begin_once. case_if; [|done].
  by apply good_upd_attr_last.
Qed.

Lemma good_end_tag_id t st ha d : chain_wf (in_nodes (incoming t0)) ids ->
  good (ids := ids) (t0 := t0) t st ha true -> exists id, end_tag_id t d = (t, id).
Proof.
  intros WF [(HI & _) _ _ _ Ht]. destruct (Ht eq_refl) as (j & Hj & Hin).
  unfold end_tag_id. rewrite HI, Hj.
  destruct (in_tag_id_defined (rd t) (tag_heap (env t)) j (markup t) d WF Hin) as [id ->].
  eauto.
Qed.

Lemma good_ncasecmp t st ha d p len : chain_wf (in_nodes (incoming t0)) ids ->
  good (ids := ids) (t0 := t0) t st ha true -> exists b,
  lxb_html_in_ncasecmp (in_nodes (incoming t)) (rd t) (tmp_incoming_node t) (markup t) d p len
    = Some b.
Proof.
  intros WF [(HI & _) _ _ _ Ht]. destruct (Ht eq_refl) as (j & Hj & Hin).
  rewrite HI, Hj. exact (ncasecmp_defined (rd t) j (markup t) d p len WF Hin).
Qed.

Lemma ncasecmp_first_pos (m : Z -> Z) f d end_ p : d <= end_ ->
  lexbor_str_data_ncasecmp_first m f d (end_ - d) = Some p -> 0 <= p - f <= end_ - d.
Proof. intros Hd H%ncasecmp_first_range. lia. Qed.

(** A scan that begins after some statements of the state function. *)
Lemma good_scan t st ha tm body d end_ : step_pre ids t0 d end_ ->
  good (ids := ids) (t0 := t0) t st ha tm ->
  st = state t0 -> attrs_ok (is_eof t0) st ha (d <? end_) (rd t0 d) = true ->
  implb (needs_tmp st) tm = true -> d < end_ ->
  (forall s p, state s = st -> step_pre ids s p end_ -> p < end_ ->
     body_post ids s p end_ (body s p)) ->
  state_post ids t0 d end_ (scan body t d end_).
Proof.
  intros PRE G Hst Ha Ht Hlt Hb. pose proof (g_state _ _ _ _ G) as Hs.
  pose proof (scan_step_ok ids body t d end_) as Hscan. rewrite Hs in Hscan.
  specialize (Hscan Hb (good_pre PRE _ _ _ _ _ G (Z.le_refl d) Ha Ht) Hlt).
  unfold state_post. destruct (scan body t d end_) as [t' p].
  eapply (step_post_weaken ids t0 t d d); [apply G | congruence | lia | done].
Qed.

(** A state function that is a loop. *)
Lemma scan_state_post t st body d end_ : step_pre ids t d end_ -> d < end_ -> state t = st ->
  (forall s p, state s = st -> step_pre ids s p end_ -> p < end_ ->
     body_post ids s p end_ (body s p)) ->
  state_post ids t d end_ (scan body t d end_).
Proof. intros Hp Hlt <- Hb. by apply scan_step_ok. Qed.
End Helpers.

(** Unfold the states, without reducing their [let]s. *)
Ltac state_unfold :=
  cbv beta delta [
    lxb_html_tokenizer_state_data_before lxb_html_tokenizer_state_data
    lxb_html_tokenizer_state_plaintext_before lxb_html_tokenizer_state_plaintext
    lxb_html_tokenizer_state_tag_open lxb_html_tokenizer_state_end_tag_open
    lxb_html_tokenizer_state_tag_name lxb_html_tokenizer_state_before_attribute_name
    lxb_html_tokenizer_state_attribute_name lxb_html_tokenizer_state_after_attribute_name
    lxb_html_tokenizer_state_before_attribute_value
    lxb_html_tokenizer_state_attribute_value_double_quoted
    lxb_html_tokenizer_state_attribute_value_single_quoted
    lxb_html_tokenizer_state_attribute_value_unquoted
    lxb_html_tokenizer_state_after_attribute_value_quoted
    lxb_html_tokenizer_state_self_closing_start_tag lxb_html_tokenizer_state_bogus_comment_before
    lxb_html_tokenizer_state_bogus_comment lxb_html_tokenizer_state_markup_declaration_open
    lxb_html_tokenizer_state_markup_declaration_comment
    lxb_html_tokenizer_state_markup_declaration_doctype
    lxb_html_tokenizer_state_markup_declaration_cdata
    lxb_html_tokenizer_state_cdata_section_before lxb_html_tokenizer_state_cdata_section
    lxb_html_tokenizer_state_cdata_section_bracket lxb_html_tokenizer_state_cdata_section_end
    lxb_html_tokenizer_state_comment_before_start lxb_html_tokenizer_state_comment_start
    lxb_html_tokenizer_state_comment_start_dash lxb_html_tokenizer_state_comment
    lxb_html_tokenizer_state_comment_less_than_sign
    lxb_html_tokenizer_state_comment_less_than_sign_bang
    lxb_html_tokenizer_state_comment_less_than_sign_bang_dash
    lxb_html_tokenizer_state_comment_less_than_sign_bang_dash_dash
    lxb_html_tokenizer_state_comment_end_dash lxb_html_tokenizer_state_comment_end
    lxb_html_tokenizer_state_comment_end_bang
    lxb_html_tokenizer_state_doctype_before lxb_html_tokenizer_state_doctype
    lxb_html_tokenizer_state_doctype_before_name lxb_html_tokenizer_state_doctype_name
    lxb_html_tokenizer_state_doctype_after_name
    lxb_html_tokenizer_state_doctype_after_name_public
    lxb_html_tokenizer_state_doctype_after_name_system
    lxb_html_tokenizer_state_doctype_after_public_keyword
    lxb_html_tokenizer_state_doctype_before_public_identifier
    lxb_html_tokenizer_state_doctype_public_identifier_double_quoted
    lxb_html_tokenizer_state_doctype_public_identifier_single_quoted
    lxb_html_tokenizer_state_doctype_after_public_identifier
    lxb_html_tokenizer_state_doctype_between_public_and_system_identifiers
    lxb_html_tokenizer_state_doctype_after_system_keyword
    lxb_html_tokenizer_state_doctype_before_system_identifier
    lxb_html_tokenizer_state_doctype_system_identifier_double_quoted
    lxb_html_tokenizer_state_doctype_system_identifier_single_quoted
    lxb_html_tokenizer_state_doctype_after_system_identifier
    lxb_html_tokenizer_state_doctype_bogus
    lxb_html_tokenizer_state_rcdata_before lxb_html_tokenizer_state_rcdata
    lxb_html_tokenizer_state_rcdata_less_than_sign lxb_html_tokenizer_state_rcdata_end_tag_open
    lxb_html_tokenizer_state_rcdata_end_tag_name
    lxb_html_tokenizer_state_rawtext_before lxb_html_tokenizer_state_rawtext
    lxb_html_tokenizer_state_rawtext_less_than_sign lxb_html_tokenizer_state_rawtext_end_tag_open
    lxb_html_tokenizer_state_rawtext_end_tag_name
    lxb_html_tokenizer_state_script_data_before lxb_html_tokenizer_state_script_data
    lxb_html_tokenizer_state_script_data_less_than_sign
    lxb_html_tokenizer_state_script_data_end_tag_open
    lxb_html_tokenizer_state_script_data_end_tag_name
    lxb_html_tokenizer_state_script_data_escape_start
    lxb_html_tokenizer_state_script_data_escape_start_dash
    lxb_html_tokenizer_state_script_data_escaped
    lxb_html_tokenizer_state_script_data_escaped_dash
    lxb_html_tokenizer_state_script_data_escaped_dash_dash
    lxb_html_tokenizer_state_script_data_escaped_less_than_sign
    lxb_html_tokenizer_state_script_data_escaped_end_tag_open
    lxb_html_tokenizer_state_script_data_escaped_end_tag_name
    lxb_html_tokenizer_state_script_data_double_escape_start
    lxb_html_tokenizer_state_script_data_double_escaped
    lxb_html_tokenizer_state_script_data_double_escaped_dash
    lxb_html_tokenizer_state_script_data_double_escaped_dash_dash
    lxb_html_tokenizer_state_script_data_double_escaped_less_than_sign
    lxb_html_tokenizer_state_script_data_double_escaped_end_tag_open
    lxb_html_tokenizer_state_script_data_double_escape_end
    markup_declaration_open_else comment_eof doctype_eof doctype_keyword_rest
    doctype_bogus_quirks doctype_missing_id text_before end_tag_open script_eof
    script_dash_else name_start].

(** The same for the bodies of their loops. *)
Ltac body_unfold :=
  cbv beta delta [
    data_body plaintext_body tag_name_body before_attribute_name_body attribute_name_body
    after_attribute_name_body before_attribute_value_body attribute_value_null
    attribute_value_double_quoted_body attribute_value_single_quoted_body
    attribute_value_unquoted_body bogus_comment_body cdata_section_body comment_body
    doctype_eof doctype_before_name_body doctype_name_body doctype_after_name_else
    doctype_after_name_body identifier_body doctype_bogus_body text_body
    end_tag_name_body script_eof script_data_escaped_body script_name_body
    script_data_double_escaped_body].

(** Symbolic execution with the calls the states make. *)
Ltac sx' PRE :=
  lazymatch goal with
  | G : good ?t _ _ _ |- _ (match end_tag_id ?t ?d with _ => _ end) =>
      let id := fresh "id" in let H := fresh in
      destruct (good_end_tag_id t _ _ d (pre_chain _ _ _ _ PRE) G) as [id H]; rewrite H; clear H
  | G : good ?t _ _ _ |- _ (match lxb_html_in_ncasecmp _ _ (tmp_incoming_node ?t) _ ?d ?p ?len with
                            _ => _ end) =>
      let b := fresh "b" in let H := fresh in
      destruct (good_ncasecmp t _ _ d p len (pre_chain _ _ _ _ PRE) G) as [b H];
      rewrite ?(good_eof _ _ _ _ G) in *; rewrite H; clear H; destruct b
  | |- _ (match lexbor_str_data_ncasecmp_first ?m ?f ?d (?e - ?d) with _ => _ end) =>
      let H := fresh "Hcmp" in
      destruct (lexbor_str_data_ncasecmp_first m f d (e - d)) eqn:H;
      [apply ncasecmp_first_pos in H; [|lia] | clear H]
  | |- _ (let x := value_begin_once _ _ in _) =>
      match goal with
      | |- ?Q (let x := ?v in @?b x) =>
          let G := fresh "G" in let t := fresh "t" in
          eassert (G : good v _ _ _) by (eapply good_value_begin_once; eassumption);
          change (Q (b v)); sx_forget Q b G
      end
  | |- _ => sx PRE
  end.

Ltac sx_body :=
  let s := fresh "s" in let d := fresh "d" in let Hs := fresh "Hs" in let PRE := fresh "PRE" in
  let Hlt := fresh "Hlt" in
  intros s d Hs PRE Hlt; sx_start Hs PRE; body_unfold; repeat sx' PRE; try sx_leaf Hs PRE.

Ltac sx_state Hs PRE Hlt :=
  state_unfold;
  lazymatch goal with
  | |- _ (scan _ _ _ _) => apply (scan_state_post _ _ _ _ _ PRE Hlt Hs); sx_body
  | |- _ =>
      sx_start Hs PRE; repeat sx' PRE;
      lazymatch goal with
      | G : good ?t _ _ _ |- _ (scan _ ?t _ _) =>
          eapply (good_scan _ _ _ _ _ _ _ PRE G);
          [symmetry; exact Hs | reflexivity | reflexivity | assumption | sx_body]
      | |- _ => try sx_leaf Hs PRE
      end
  end.

Section Safe.
Context {E : Type} `{EV : TkzEnv E} {EL : TkzEnvLaws E}.
Implicit Types (t : tokenizer E) (d : Z).

Lemma call_state_ok ids t d end_ :
  step_pre ids t d end_ -> d < end_ -> state_post ids t d end_ (call_state t d end_).
Proof.
  intros Hpre Hlt. unfold call_state.
  destruct (state t) eqn:Hs; cbv iota; sx_state Hs Hpre Hlt.
Qed.
End Safe.

(** ** Consequences for the loops *)

Section Loops.
Context {E : Type} `{EV : TkzEnv E} {EL : TkzEnvLaws E}.
Implicit Types (t : tokenizer E) (d : Z).

Lemma rank_range eof s c : 0 <= rank eof s c <= 3.
Proof. destruct s; cbn [rank]; try lia. case_if; lia. Qed.

(** The loop over a buffer ends within [4] calls per byte and [3] more. *)
Lemma run_ok ids fuel : forall t d end_,
  is_eof t = false -> step_pre ids t d end_ ->
  (d < end_ -> 4 * (end_ - d) + rank false (state t) (rd t d) < Z.of_nat fuel) ->
  exists t' p, run fuel t d end_ = Some (t', p) /\ frame t t' /\ end_ <= p /\ d <= p /\
    (step_pre ids t' p end_ \/ step_failed t' p end_).
Proof.
  induction fuel as [|fuel IH]; intros t d end_ He PRE Hm; cbn [run];
    pose proof (rank_range false (state t) (rd t d)) as Hr;
    (destruct (d <? end_) eqn:Hlt; bool_to_prop;
     [|exists t, d; repeat split; (lia || by left)]).
  - lia.
  - pose proof (call_state_ok ids t d end_ PRE Hlt) as Hok. unfold state_post in Hok.
    destruct (call_state t d end_) as [t1 p1]. destruct Hok as [F Hlo Hhi Hpr Hnx].
    assert (He1 : is_eof t1 = false) by (destruct F as (_ & _ & _ & -> & _); done).
    destruct Hnx as [PRE1|[Hfail|(He2 & _)]]; [| |congruence].
    + destruct (IH t1 p1 end_ He1 PRE1) as (t2 & p2 & Hrun & F2 & Hp2 & Hp3 & Hn2).
      { intros Hlt1. pose proof (rank_range false (state t1) (rd t1 p1)).
        rewrite (frame_rd _ _ F) in *. destruct Hpr as [|[-> Hrank]]; [lia|].
        rewrite He in Hrank. lia. }
      exists t2, p2. split; [done|]. split; [by transitivity t1|]. repeat split; (lia || done).
    + destruct Hfail as (Hf & Hk & Hst & ->). exists t1, end_.
      destruct fuel; cbn [run]; rewrite Z.ltb_irrefl;
        (split; [done|]; repeat split; try done; [apply F.. | by right]).
Qed.

Lemma run_fuel_enough d end_ s c : d < end_ ->
  4 * (end_ - d) + rank false s c < Z.of_nat (run_fuel d end_).
Proof. intros H. pose proof (rank_range false s c). unfold run_fuel. lia. Qed.

Lemma attrs_ok_here eof eof' s a h c c' :
  attrs_ok eof s a false c = true -> attrs_ok eof' s a h c' = true.
Proof. destruct s; try done. cbn [attrs_ok]. by rewrite orb_false_r; intros ->. Qed.

(** The fake end-of-file byte is consumed within [rank] more calls. *)
Lemma eof_loop_ok ids fuel : forall t,
  is_eof t = true -> step_pre ids t lxb_html_tokenizer_eof (lxb_html_tokenizer_eof + 1) ->
  rank true (state t) (rd t lxb_html_tokenizer_eof) < Z.of_nat fuel ->
  exists t', eof_loop fuel t = Some t' /\ frame t t' /\ fault t' = false /\
    (is_Some (token t') /\ env_ok (env t') \/ status t' <> LXB_STATUS_OK).
Proof.
  induction fuel as [|fuel IH]; intros t He PRE Hm; cbn [eof_loop];
    pose proof (rank_range true (state t) (rd t lxb_html_tokenizer_eof)); [lia|].
  pose proof (call_state_ok ids t _ _ PRE ltac:(lia)) as Hok. unfold state_post in Hok.
  destruct (call_state t _ _) as [t1 p1]. destruct Hok as [F Hlo Hhi Hpr Hnx].
  assert (He1 : is_eof t1 = true) by (destruct F as (_ & _ & _ & -> & _); done).
  destruct (p1 <? lxb_html_tokenizer_eof + 1) eqn:Hp; bool_to_prop.
  - assert (p1 = lxb_html_tokenizer_eof) as -> by lia.
    destruct Hpr as [|[_ Hrank]]; [lia|]. rewrite He in Hrank.
    destruct Hnx as [PRE1|[(_ & _ & _ & Hx)|(_ & _ & _ & _ & Hx)]]; [|lia|lia].
    destruct (IH t1 He1 PRE1) as (t2 & Hl & F2 & Hrest); [rewrite (frame_rd _ _ F); lia|].
    exists t2. split; [done|]. split; [by transitivity t1 | done].
  - exists t1. split; [done|]. split; [done|].
    destruct Hnx as [[Hf _ _ (k & Hk & _) _ _ _ Hev]|[(Hf & _ & Hst & _)|(_ & Hf & Hk & Hev & _)]];
      (split; [done|]); [left; eauto | by right | by left].
Qed.
End Loops.
