(* ===== verification/TkzChunk.v ===== *)
(** * Feeding buffers and the end of the file

    The tokenizer between two calls of its API: the invariant [tkz_inv], that
    [lxb_html_tokenizer_chunk] keeps it whatever the buffers hold and whatever
    the options are, releasing exactly buffers nothing refers to any more, and
    that [lxb_html_tokenizer_end] returns. *)
From S2P Require Import Prelude.
From S2P Require Import Str.
From S2P Require Import In.
From S2P Require Import Tag.
From S2P Require Import TagHeap.
From S2P Require Import TkzBase.
From S2P Require Import HtmlIn.
From S2P Require Import TkzState.
From S2P Require Import TkzComment.
From S2P Require Import TkzDoctype.
From S2P Require Import TkzText.
From S2P Require Import TkzScript.
From S2P Require Import TkzRun.
From S2P Require Import TkzStep.
From S2P Require Import TkzSafe.

(** ** Chains *)

(** The nodes of [m] are in [m'], with the same buffers. *)
Definition keeps_spans (m m' : gmap positive in_node) (ids : list positive) : Prop :=
  forall i n, i ∈ ids -> m !! i = Some n ->
    exists n', m' !! i = Some n' /\ in_begin n' = in_begin n /\ in_end n' = in_end n.

Section Chains.
Implicit Types (m : gmap positive in_node) (ids : list positive).

Lemma in_make_keeps inc ids i inc' buf size :
  in_fresh_ok inc -> chain_wf (in_nodes inc) ids ->
  lexbor_in_node_make inc true (last ids) buf size = (inc', Some i) ->
  keeps_spans (in_nodes inc) (in_nodes inc') ids.
Proof.
  intros Hf WF [= <- <-] j n Hj Hn. cbn.
  pose proof (chain_fresh_notin _ _ Hf WF).
  rewrite lookup_insert_ne by (intros <-; contradiction).
  destruct (last ids) as [l|]; [|by eauto].
  rewrite lookup_alter. case_decide; [|by eauto]. subst. rewrite Hn. eexists. split; [done|]. done.
Qed.

(** Changing a field of a node other than its links and its buffer. *)
Lemma chain_alter m ids i f : chain_wf m ids ->
  (forall n, in_offset (f n) = in_offset n /\ in_begin (f n) = in_begin n /\
             in_end (f n) = in_end n /\ in_next (f n) = in_next n /\ in_prev (f n) = in_prev n) ->
  (forall n, m !! i = Some n -> in_begin n <= in_use n <= in_end n ->
     in_begin n <= in_use (f n) <= in_end n) ->
  chain_wf (alter f i m) ids /\ keeps_spans m (alter f i m) ids.
Proof.
  intros WF Hf Hu.
  assert (Hl : forall j n, m !! j = Some n -> exists n', alter f i m !! j = Some n' /\
    in_offset n' = in_offset n /\ in_begin n' = in_begin n /\ in_end n' = in_end n /\
    in_next n' = in_next n /\ in_prev n' = in_prev n /\
    (in_begin n <= in_use n <= in_end n -> in_begin n <= in_use n' <= in_end n)).
  { intros j n Hj. rewrite lookup_alter. case_decide as Hij.
    - subst. rewrite Hj. destruct (Hf n) as (?&?&?&?&?). eexists. split; [done|].
      repeat split; try done; by apply Hu.
    - exists n. rewrite Hj. repeat split; try done; lia. }
  split.
  - split; [apply WF | |].
    + intros k j Hk. destruct (chain_lookup WF _ _ Hk) as (n & Hn & Hp & Hx & Hus).
      destruct (Hl j n Hn) as (n' & Hn' & _ & Hb' & He' & Hx' & Hp' & Hus').
      exists n'. rewrite Hp', Hx', Hb', He'. repeat split; try done; lia.
    + intros k j j' n' pn' Hj Hj' Hpn Hn.
      destruct (chain_lookup WF _ _ Hj) as (pn & Hpn0 & _).
      destruct (chain_lookup WF _ _ Hj') as (n & Hn0 & _).
      destruct (Hl _ _ Hpn0) as (? & Hpn1 & Hpo & Hpb & Hpe & _).
      destruct (Hl _ _ Hn0) as (? & Hn1 & Hno & _). simplify_eq.
      rewrite Hno, Hpo, Hpb, Hpe. by eapply (chain_offset _ _ WF k).
  - intros j n _ Hn. destruct (Hl j n Hn) as (n' & Hn' & _ & ? & ? & _). eauto.
Qed.

(** The chain without its first [c] nodes, once the first of the rest is
    unlinked from them. *)
Lemma chain_drop m m' ids c : chain_wf m ids ->
  (forall j, j ∈ drop c ids -> m' !! j = m !! j) ->
  forall i, head (drop c ids) = Some i ->
  chain_wf (alter (set_in_prev None) i m') (drop c ids) /\
  keeps_spans m (alter (set_in_prev None) i m') (drop c ids).
Proof.
  intros WF Hm i Hi.
  assert (Hl : forall k j, drop c ids !! k = Some j -> exists n n', m !! j = Some n /\
    alter (set_in_prev None) i m' !! j = Some n' /\
    in_offset n' = in_offset n /\ in_begin n' = in_begin n /\ in_end n' = in_end n /\
    in_use n' = in_use n /\ in_next n' = in_next n /\
    in_prev n' = match k with O => None | S k' => drop c ids !! k' end).
  { intros k j Hk. pose proof Hk as Hk0. rewrite lookup_drop in Hk0.
    destruct (chain_lookup WF _ _ Hk0) as (n & Hn & Hp & _).
    pose proof (Hm j (list_elem_of_lookup_2 _ _ _ Hk)) as Hj. rewrite Hn in Hj.
    rewrite lookup_alter. case_decide as Hij.
    - subst. exists n, (set_in_prev None n). rewrite Hj. repeat split; try done.
      assert (k = 0)%nat as ->; [|done].
      eapply NoDup_lookup; [|exact Hk | by rewrite <- head_lookup].
      rewrite <- (take_drop c ids) in WF. apply (chain_nodup _ _), NoDup_app in WF. tauto.
    - exists n, n. repeat split; try done. rewrite Hp. destruct k as [|k].
      + rewrite head_lookup in Hi. congruence.
      + rewrite lookup_drop. by replace (c + S k)%nat with (S (c + k)) by lia. }
  split.
  - split.
    + rewrite <- (take_drop c ids) in WF. apply (chain_nodup _ _), NoDup_app in WF. tauto.
    + intros k j Hk. destruct (Hl _ _ Hk) as (n & n' & Hn & Hn' & _ & Hb' & He' & Hu' & Hx & Hp).
      rewrite lookup_drop in Hk. destruct (chain_lookup WF _ _ Hk) as (n0 & Hn0 & _ & Hx0 & Hu).
      simplify_eq. exists n'. rewrite Hx, Hx0, Hb', He', Hu', lookup_drop.
      replace (c + S k)%nat with (S (c + k)) by lia. done.
    + intros k j j' n' pn' Hj Hj' Hpn Hn.
      destruct (Hl _ _ Hj) as (pn & ? & Hpn0 & Hpn1 & Hpo & Hpb & Hpe & _).
      destruct (Hl _ _ Hj') as (n & ? & Hn0 & Hn1 & Hno & _). simplify_eq.
      rewrite lookup_drop in Hj, Hj'. replace (c + S k)%nat with (S (c + k)) in Hj' by lia.
      rewrite Hno, Hpo, Hpb, Hpe. by eapply (chain_offset _ _ WF (c + k)).
  - intros j n [k Hk]%list_elem_of_lookup Hn.
    destruct (Hl _ _ Hk) as (n0 & n' & Hn0 & Hn' & _ & ? & ? & _). simplify_eq. eauto.
Qed.
End Chains.

(** ** Between two calls *)

(** The chain: its nodes [ids], first and last as the tokenizer has them. *)
Record chain_inv {E} (ids : list positive) (t : tokenizer E) : Prop := {
  inv_chain : chain_wf (in_nodes (incoming t)) ids;
  inv_fresh : in_fresh_ok (incoming t);
  inv_first : incoming_first t = head ids;
  inv_node : incoming_node t = last ids
}.

Record tkz_inv {E} `{EV : TkzEnv E} {EL : TkzEnvLaws E} (ids : list positive) (t : tokenizer E) : Prop := {
  inv_links : chain_inv ids t;
  inv_fault : fault t = false;
  inv_token : exists k, token t = Some k /\
    attrs_ok false (state t) (has_attrs k) false 0 = true /\ token_span ids t k /\
    (needs_tmp (state t) = true ->
       tmp_span ids t k /\ exists j, tmp_incoming_node t = Some j /\ j ∈ ids);
  inv_env : env_ok (env t)
}.

(** A call gave up with an error: the token may be gone, the chain is intact. *)
Definition tkz_error {E} (ids : list positive) (t : tokenizer E) : Prop :=
  chain_inv ids t /\ fault t = false /\ token t = None /\ status t <> LXB_STATUS_OK.

Section Spans.
Context {E : Type}.
Implicit Types t : tokenizer E.

Lemma node_span_keeps ids t t' i v :
  keeps_spans (in_nodes (incoming t)) (in_nodes (incoming t')) ids -> i ∈ ids ->
  node_span t (Some i) v -> node_span t' (Some i) v.
Proof.
  intros Hk Hi (n & Hn & Hv). destruct (Hk i n Hi Hn) as (n' & Hn' & Hb & He).
  exists n'. unfold in_lookup. cbn. rewrite Hb, He. done.
Qed.

Lemma token_span_keeps ids ids' t t' k :
  keeps_spans (in_nodes (incoming t)) (in_nodes (incoming t')) ids' ->
  (forall i, tok_begin k <> NULL -> tok_in_begin k = Some i -> i ∈ ids -> i ∈ ids') ->
  token_span ids t k -> token_span ids' t' k.
Proof.
  intros Hk Hin [|(i & Hi & Hini & Hs)]; [by left|].
  destruct (decide (tok_begin k = NULL)); [by left | right].
  exists i. split; [done|]. split; [by apply Hin|].
  eapply node_span_keeps; [exact Hk | by apply Hin | done].
Qed.

Lemma ordered_app ids l i j : ordered ids i j -> ordered (ids ++ l) i j.
Proof.
  intros (a & b & Ha & Hb & Hab). exists a, b.
  repeat split; try done; by apply lookup_app_l_Some.
Qed.

Lemma ordered_in ids i j : ordered ids i j -> i ∈ ids /\ j ∈ ids.
Proof. intros (a & b & Ha & Hb & _). split; eauto using list_elem_of_lookup_2. Qed.
End Spans.

(** ** Releasing buffers *)

Section Drop.
Context {E : Type}.
Implicit Types t : tokenizer E.

Lemma drop_incoming_ok m ids (WF : chain_wf m ids) stop : forall r c fuel t,
  (length ids = c + r)%nat -> (r < fuel)%nat -> incoming_first t = ids !! c ->
  (forall j, j ∈ drop c ids -> in_nodes (incoming t) !! j = m !! j) ->
  exists c' inc',
    (c <= c' <= length ids)%nat /\
    drop_incoming fuel stop t = set_incoming_first (set_incoming t inc') (ids !! c') /\
    in_fresh inc' = in_fresh (incoming t) /\
    (forall j, j ∈ drop c' ids -> in_nodes inc' !! j = m !! j) /\
    (forall j, is_Some (in_nodes inc' !! j) -> is_Some (in_nodes (incoming t) !! j)) /\
    (forall k i n, (c <= k < c')%nat -> ids !! k = Some i -> m !! i = Some n -> stop n = false) /\
    (forall i n, ids !! c' = Some i -> m !! i = Some n -> stop n = true).
Proof.
  intros r. induction r as [|r IH]; intros c fuel t Hl Hf Hfst Hm;
    (destruct fuel as [|fuel]; [lia|]); cbn [drop_incoming]; rewrite Hfst.
  - rewrite (lookup_ge_None_2 ids c) by lia.
    exists c, (incoming t). split; [lia|]. split.
    { rewrite (lookup_ge_None_2 ids c) in * by lia. destruct t; cbn in *. by subst. }
    repeat (split; [done || (intros; lia)|]). rewrite lookup_ge_None_2 by lia. done.
  - destruct (ids !! c) as [i|] eqn:Hi; [|apply lookup_ge_None in Hi; lia].
    destruct (chain_lookup WF _ _ Hi) as (n & Hn & _ & Hnx & _).
    assert (i ∈ drop c ids) as Hid
      by (eapply (list_elem_of_lookup_2 _ 0); rewrite lookup_drop, Nat.add_0_r; done).
    rewrite (Hm i Hid), Hn. destruct (stop n) eqn:Hst.
    + exists c, (incoming t). split; [lia|]. split.
      { rewrite Hi. destruct t; cbn in *. by subst. }
      repeat (split; [done || (intros; lia)|]). intros i' n' Hi' Hn'. congruence.
    + set (t1 := set_incoming_first (set_incoming t _) _).
      destruct (IH (S c) fuel t1) as (c' & inc' & Hc & Hd & Hfr & Hm' & Hsub & Hno & Hyes);
        [lia | lia | done | |].
      { intros j Hj. cbn. rewrite lookup_delete_ne.
        - apply Hm. rewrite (drop_S _ _ _ Hi). by apply list_elem_of_further.
        - intros <-. rewrite <- (take_drop (S c) ids) in WF.
          pose proof (chain_nodup _ _ WF) as Hnd. apply NoDup_app in Hnd as (_ & Hnd & _).
          apply (Hnd i); [|done]. rewrite (take_S_r _ _ _ Hi).
          apply elem_of_app. right. by apply list_elem_of_singleton. }
      exists c', inc'. split; [lia|]. split; [done|]. split; [done|]. split; [done|].
      split; [|split; [|done]].
      * intros j Hj. apply Hsub in Hj. cbn in Hj.
        destruct (decide (i = j)) as [->|]; [by rewrite lookup_delete_eq in Hj; destruct Hj|].
        by rewrite lookup_delete_ne in Hj.
      * intros k i' n' Hk Hi' Hn'. destruct (decide (k = c)) as [->|]; [congruence|].
        apply (Hno k i'); [lia | done..].
Qed.

Lemma erase_incoming_ok ids t :
  chain_wf (in_nodes (incoming t)) ids -> incoming_first t = head ids ->
  exists inc', lxb_html_tokenizer_erase_incoming t =
    set_incoming_first (set_incoming t inc') None.
Proof.
  intros WF Hfst. pose proof (chain_length_size WF).
  destruct (drop_incoming_ok _ ids WF (fun _ => false) (length ids) 0
    (walk_fuel (in_nodes (incoming t))) t) as (c' & inc' & _ & Hd & _ & _ & _ & _ & Hyes);
    [lia | unfold walk_fuel; lia | by rewrite Hfst, head_lookup | done |].
  exists inc'. unfold lxb_html_tokenizer_erase_incoming. rewrite Hd. f_equal.
  destruct (ids !! c') as [i|] eqn:Hi; [|done].
  destruct (chain_lookup WF _ _ Hi) as (n & Hn & _). by discriminate (Hyes i n eq_refl Hn).
Qed.
End Drop.

Section Release.
Context {E : Type} `{EV : TkzEnv E} {EL : TkzEnvLaws E}.
Implicit Types t : tokenizer E.

(** Releasing the buffers before the token keeps the invariant: neither the
    token nor the saved tag name refers to a released node. *)
Lemma release_incoming_ok ids t : tkz_inv ids t ->
  exists c, tkz_inv (drop c ids) (release_incoming t) /\
    status (release_incoming t) = status t /\ (ids <> [] -> drop c ids <> []).
Proof.
  intros [[WF Hfr Hfst Hnd] Hf (k & Hk & Ha & Hsp & Htmp) Hev].
  unfold release_incoming, deref_token, tok. rewrite Hk. cbv beta iota zeta. rewrite Hk.
  cbn [from_option id].
  destruct (tok_begin k =? 0) eqn:Hb; cbn [negb]; bool_to_prop.
  { exists O. rewrite drop_0. split; [|done]. split; [done | done | by exists k | done]. }
  set (stop := fun n => lexbor_in_segment n (tok_begin k)).
  pose proof (chain_length_size WF).
  destruct (drop_incoming_ok _ ids WF stop (length ids) 0
    (walk_fuel (in_nodes (incoming t))) t)
    as (c & inc' & Hc & -> & Hfr' & Hm & Hsub & Hno & Hyes);
    [lia | unfold walk_fuel; lia | by rewrite Hfst, head_lookup | done |]. cbn.
  destruct Hsp as [|(i & Hi & Hin & n & Hn & Hv)]; [contradiction|]. cbn in Hn.
  apply list_elem_of_lookup in Hin as [a Hai].
  assert (Hca : (c <= a)%nat).
  { destruct (decide (c <= a)%nat); [done|].
    specialize (Hno a i n ltac:(lia) Hai Hn). unfold stop, lexbor_in_segment in Hno.
    rewrite Z.geb_leb in Hno. apply andb_false_iff in Hno as [?|?]; bool_to_prop; lia. }
  pose proof (lookup_lt_Some _ _ _ Hai).
  destruct (ids !! c) as [i0|] eqn:Hi0; [|apply lookup_ge_None in Hi0; lia].
  assert (Hhd : head (drop c ids) = Some i0)
    by (rewrite head_lookup, lookup_drop, Nat.add_0_r; done).
  destruct (chain_drop _ _ _ _ WF Hm i0 Hhd) as [WF' Hks]. exists c.
  assert (Hin' : forall b j, ids !! b = Some j -> (a <= b)%nat -> j ∈ drop c ids).
  { intros b j Hj Hab. apply (list_elem_of_lookup_2 _ (b - c)). rewrite lookup_drop.
    rewrite <- Hj. f_equal. lia. }
  assert (Hdrop : forall b, (c <= b)%nat -> drop c ids !! (b - c)%nat = ids !! b)
    by (intros b Hb'; rewrite lookup_drop; f_equal; lia).
  split; [|split; [done | intros _ Hnil; by rewrite Hnil in Hhd]].
  split; [split; cbn; [done | | by rewrite Hhd |] | done | | done].
  - intros j Hj. cbn in Hj. rewrite lookup_alter in Hj. cbn.
    assert (Hj' : is_Some (in_nodes inc' !! j)).
    { case_decide; [|done]. subst. by apply fmap_is_Some in Hj. }
    rewrite Hfr'. by apply Hfr, Hsub.
  - rewrite Hnd, !last_lookup, length_drop.
    replace (pred (length ids - c)) with (pred (length ids) - c)%nat by lia.
    by rewrite Hdrop by lia.
  - exists k. cbn. split; [done|]. split; [done|]. split.
    + right. exists i. split; [done|]. split; [by eapply Hin'|].
      destruct (Hks i n (Hin' _ _ Hai ltac:(lia)) Hn) as (n' & Hn' & Hb' & He').
      exists n'. split; [done | lia].
    + intros Hneed. destruct (Htmp Hneed) as [(j & Hj & Hjs & Hord) _].
      destruct Hord as [|(i' & Hi' & a' & b & Ha' & Hb' & Hab)]; [contradiction|].
      assert (i' = i) as -> by congruence.
      assert (a' = a) as -> by (eapply NoDup_lookup; eauto; apply WF).
      pose proof (Hin' _ _ Hb' Hab) as Hjin. split; [|by eauto].
      exists j. split; [done|]. split.
      * destruct Hjs as (nj & Hnj & Hvj). destruct (Hks j nj Hjin Hnj) as (n' & Hn' & Hb2 & He2).
        exists n'. split; [done | cbn; lia].
      * right. exists i. split; [done|]. exists (a - c)%nat, (b - c)%nat.
        rewrite !Hdrop by lia. repeat split; (done || lia).
Qed.
End Release.

Section Chunk.
Context {E : Type} `{EV : TkzEnv E} {EL : TkzEnvLaws E}.
Implicit Types t : tokenizer E.

(** After a buffer: the position is its end, and its node is the last. *)
Lemma set_use_inv ids i n t end_ : chain_inv ids t -> last ids = Some i ->
  in_nodes (incoming t) !! i = Some n -> in_begin n <= end_ <= in_end n ->
  exists inc', set_use t (Some i) end_ = set_incoming t inc' /\
    chain_inv ids (set_incoming t inc') /\
    keeps_spans (in_nodes (incoming t)) (in_nodes inc') ids.
Proof.
  intros [WF Hfr Hfst Hnd] Hl Hn Hv. unfold set_use, in_lookup. cbn. rewrite Hn. cbn.
  assert (<[i := set_in_use end_ n]> (in_nodes (incoming t)) =
          alter (set_in_use end_) i (in_nodes (incoming t))) as ->.
  { apply map_eq. intros j. rewrite lookup_alter. case_decide; subst.
    - by rewrite lookup_insert_eq, Hn.
    - by rewrite lookup_insert_ne. }
  destruct (chain_alter _ ids i (set_in_use end_) WF) as [WF' Hk]; [done | |].
  { intros n' Hn' _. cbn. congruence. }
  eexists. split; [reflexivity|]. split; [|done]. split; cbn; [done | | done | done].
  intros j Hj. cbn in Hj. apply Hfr. rewrite lookup_alter in Hj. case_decide; [|done].
  subst. by apply fmap_is_Some in Hj.
Qed.

Lemma chunk_process_ok ids i n t buf size :
  tkz_inv ids t -> last ids = Some i -> in_nodes (incoming t) !! i = Some n ->
  in_begin n = buf -> in_end n = buf + size -> 0 <= size ->
  exists t', lxb_html_tokenizer_chunk_process t buf size = Some t' /\ opt t' = opt t /\
    (tkz_inv ids t' \/ tkz_error ids t').
Proof.
  intros [[WF Hfr Hfst Hnd] Hf (k & Hk & Ha & Hsp & Htmp) Hev] Hl Hn Hb He Hsz.
  unfold lxb_html_tokenizer_chunk_process. cbv zeta.
  set (t1 := set_status (set_is_eof t false) LXB_STATUS_OK).
  assert (PRE : step_pre ids t1 buf (buf + size)).
  { split; cbn; try done.
    - rewrite Hnd. eauto.
    - exists k. split; [done|]. by eapply attrs_ok_here.
    - intros Hn'. apply Htmp, Hn'.
    - intros _. exists n. unfold in_lookup. cbn. rewrite Hnd, Hl. cbn. repeat split; (done || lia).
    - intros _. exists k. split; [done|]. split; [done|]. intros Hn'. apply Htmp, Hn'. }
  destruct (run_ok ids (run_fuel buf (buf + size)) t1 buf (buf + size)) as
    (t2 & p & Hrun & F & Hp & _ & Hnx); [done | done | intros; by apply run_fuel_enough |].
  rewrite Hrun. cbn. pose proof F as (HI & HF & HN & HE & _ & HO & _).
  assert (CI : chain_inv ids t2) by (split; [by rewrite HI..| by rewrite HF | by rewrite HN]).
  assert (Hn2 : in_nodes (incoming t2) !! i = Some n) by (by rewrite HI).
  assert (Hnd2 : incoming_node t2 = Some i) by (by rewrite HN; cbn; rewrite Hnd).
  unfold in_lookup. rewrite Hnd2. cbn. rewrite Hn2.
  assert (in_next n = None) as ->.
  { rewrite last_lookup in Hl. destruct (chain_lookup WF _ _ Hl) as (n' & Hn' & _ & Hx & _).
    pose proof (lookup_lt_Some _ _ _ Hl). simplify_eq. rewrite Hx. apply lookup_ge_None_2. lia. }
  cbn. rewrite Hnd2.
  destruct (set_use_inv ids i n t2 (buf + size)) as (inc' & -> & CI' & Hks); try done; [lia|].
  eexists. split; [reflexivity|]. split; [done|].
  destruct Hnx as [PRE2|(Hf2 & Hk2 & Hs2 & _)]; [left | by right].
  destruct PRE2 as [Hf2 _ _ (k2 & Hk2 & Ha2) Ht2 _ Hsp2 Hev2].
  assert (He2 : is_eof t2 = false) by (by rewrite HE).
  destruct (Hsp2 He2) as (k3 & Hk3 & Hts & Htm). rewrite Hk2 in Hk3. injection Hk3 as <-.
  assert (Hlt : (p <? buf + size) = false) by (apply Z.ltb_ge; lia). rewrite Hlt in Ha2.
  split; [done | done | | done]. exists k2. cbn [token state set_incoming].
  split; [done|]. split; [by eapply attrs_ok_here|].
  split; [by eapply token_span_keeps|].
  intros Hneed. specialize (Htm Hneed). split; [|by apply Ht2].
  destruct Htm as (j & Hj & Hjs & Hord). destruct (Ht2 Hneed) as (j' & Hj' & Hjin).
  exists j. split; [done|]. split; [|done].
  apply (node_span_keeps ids t2); [exact Hks | congruence | done].
Qed.

(** What the token and the saved name refer to survives a change of the map
    that keeps the buffers. *)
Lemma tkz_inv_keeps ids ids' t inc' nd fst_ : tkz_inv ids t ->
  (forall i j, ordered ids i j -> ordered ids' i j) -> (forall i, i ∈ ids -> i ∈ ids') ->
  chain_inv ids' (set_incoming_first (set_incoming_node (set_incoming t inc') nd) fst_) ->
  keeps_spans (in_nodes (incoming t)) (in_nodes inc') ids ->
  tkz_inv ids' (set_incoming_first (set_incoming_node (set_incoming t inc') nd) fst_).
Proof.
  intros [CI Hf (k & Hk & Ha & Hsp & Htmp) Hev] Hord Hin CI' Hks. split; [done | done | | done].
  exists k. cbn. split; [done|]. split; [done|]. split.
  - destruct Hsp as [|(i & Hi & Hini & Hs)]; [by left | right]. exists i.
    split; [done|]. split; [by apply Hin|]. by apply (node_span_keeps ids t).
  - intros Hneed. destruct (Htmp Hneed) as [(j & Hj & Hjs & Ho) (j' & Hj' & Hjin)].
    simplify_eq. split; [|by eauto]. exists j. split; [done|].
    split; [by apply (node_span_keeps ids t)|].
    destruct Ho as [|(i & Hi & Ho)]; [by left | right; eauto].
Qed.

Lemma set_same t : set_incoming_first (set_incoming_node t (incoming_node t)) (incoming_first t) = t.
Proof. by destruct t. Qed.

(** The tokenizer with its new buffer entered in the chain. *)
Definition node_entered t inc' i : tokenizer E :=
  let t := set_incoming_node (set_incoming t inc') (Some i) in
  match incoming_first t with
  | None => set_incoming_first t (Some i)
  | Some _ => t
  end.

Lemma node_entered_inv ids t buf size : tkz_inv ids t -> 0 <= size ->
  exists inc' i n,
    lexbor_in_node_make (incoming t) true (incoming_node t) buf size = (inc', Some i) /\
    tkz_inv (ids ++ [i]) (node_entered t inc' i) /\
    in_nodes (incoming (node_entered t inc' i)) !! i = Some n /\
    in_begin n = buf /\ in_end n = buf + size.
Proof.
  intros INV Hsz. pose proof INV as [[WF Hfr Hfst Hnd] _ _ _]. rewrite Hnd.
  destruct (in_node_make_ok (incoming t) ids buf size WF Hfr Hsz)
    as (inc' & i & n & Hmk & WF' & Hfr' & Hn & Hb & He & _).
  pose proof (in_make_keeps _ _ _ _ _ _ Hfr WF Hmk) as Hks.
  exists inc', i, n. split; [done|].
  set (fst_ := match incoming_first t with None => Some i | Some j => Some j end).
  assert (Hent : node_entered t inc' i =
    set_incoming_first (set_incoming_node (set_incoming t inc') (Some i)) fst_).
  { unfold node_entered, fst_. cbn. by destruct t as [? ? ? ? ? [|]]. }
  rewrite Hent. split; [|done].
  apply (tkz_inv_keeps ids); [done | apply ordered_app | | | done].
  - intros j Hj. apply elem_of_app. by left.
  - split; cbn; [done | done | | by rewrite last_snoc].
    unfold fst_. rewrite Hfst. by destruct ids.
Qed.

(** Marking a node's buffer as allocated. *)
Definition mark_alloc t i : tokenizer E :=
  set_incoming t (mk_in (alter (set_in_opt LEXBOR_IN_OPT_ALLOC) i (in_nodes (incoming t)))
                    (in_fresh (incoming t))).

Lemma mark_alloc_inv ids t i n : tkz_inv ids t -> in_nodes (incoming t) !! i = Some n ->
  tkz_inv ids (mark_alloc t i) /\
  in_nodes (incoming (mark_alloc t i)) !! i = Some (set_in_opt LEXBOR_IN_OPT_ALLOC n).
Proof.
  intros INV Hn. pose proof INV as [[WF Hfr Hfst Hnd] _ _ _].
  split; [|cbn; by rewrite lookup_alter_eq, Hn].
  destruct (chain_alter _ ids i (set_in_opt LEXBOR_IN_OPT_ALLOC) WF) as [WF' Hks]; [done..|].
  rewrite <- (set_same (mark_alloc t i)). apply (tkz_inv_keeps ids); try done.
  split; cbn; [done | | done | done].
  intros j Hj. cbn in Hj. apply Hfr. rewrite lookup_alter in Hj. case_decide; [|done].
  subst. by apply fmap_is_Some in Hj.
Qed.

Lemma erase_fault ids t : chain_wf (in_nodes (incoming t)) ids -> incoming_first t = head ids ->
  fault t = false -> fault (lxb_html_tokenizer_erase_incoming t) = false /\
    status (lxb_html_tokenizer_erase_incoming t) = status t.
Proof. intros WF Hf Hfl. by destruct (erase_incoming_ok ids t WF Hf) as [inc' ->]. Qed.

(** The part of [lxb_html_tokenizer_chunk] after the buffer is entered. *)
Lemma chunk_tail_ok ids i n t buf size :
  tkz_inv ids t -> last ids = Some i -> in_nodes (incoming t) !! i = Some n ->
  in_begin n = buf -> in_end n = buf + size -> 0 <= size ->
  exists t' st,
    (t ← lxb_html_tokenizer_chunk_process t buf size;
     if has_opt t LXB_HTML_TOKENIZER_OPT_WO_IN_DESTROY then Some (t, status t)
     else if negb (status t =? LXB_STATUS_OK) then
       let t := lxb_html_tokenizer_erase_incoming t in Some (t, status t)
     else let t := release_incoming t in Some (t, status t)) = Some (t', st) /\
    fault t' = false /\ st = status t' /\
    (st = LXB_STATUS_OK -> exists ids', ids' <> [] /\ tkz_inv ids' t').
Proof.
  intros INV Hl Hn Hb He Hsz.
  destruct (chunk_process_ok ids i n t buf size INV Hl Hn Hb He Hsz) as (t1 & -> & _ & Hr).
  assert (Hne : ids <> []) by (by intros ->).
  cbn [mbind option_bind]. destruct (has_opt t1 _).
  { exists t1, (status t1). split; [done|]. destruct Hr as [INV1|(_ & Hf & _ & Hs)].
    - split; [apply INV1|]. split; [done|]. intros _. by exists ids.
    - done. }
  destruct (status t1 =? LXB_STATUS_OK) eqn:Hst; cbn [negb]; bool_to_prop.
  - destruct Hr as [INV1|(_ & _ & _ & Hs)]; [|contradiction].
    destruct (release_incoming_ok ids t1 INV1) as (c & INV2 & Hs2 & Hc).
    eexists _, _. split; [reflexivity|]. split; [apply INV2|]. split; [done|]. eauto.
  - assert (chain_inv ids t1 /\ fault t1 = false) as [[WF _ Hfst _] Hf]
      by (destruct Hr as [[]|(? & ? & _)]; done).
    destruct (erase_fault ids t1 WF Hfst Hf) as [Hf' Hs'].
    eexists _, _. split; [reflexivity|]. split; [done|]. split; [done|]. rewrite Hs'. done.
Qed.

Lemma chunk_ok ids t node_ok copied data size : tkz_inv ids t -> 0 <= size ->
  exists t' st, lxb_html_tokenizer_chunk t node_ok copied data size = Some (t', st) /\
    fault t' = false /\
    (st = LXB_STATUS_OK -> st = status t' /\ exists ids', ids' <> [] /\ tkz_inv ids' t').
Proof.
  intros INV Hsz. pose proof INV as [[WF _ Hfst _] Hf _ _].
  assert (Hfail : forall t1, incoming t1 = incoming t -> incoming_first t1 = incoming_first t ->
    fault t1 = false ->
    exists t' st, Some (if negb (has_opt t1 LXB_HTML_TOKENIZER_OPT_WO_IN_DESTROY)
      then lxb_html_tokenizer_erase_incoming t1 else t1, LXB_STATUS_ERROR_MEMORY_ALLOCATION)
      = Some (t', st) /\ fault t' = false /\
    (st = LXB_STATUS_OK -> st = status t' /\ exists ids', ids' <> [] /\ tkz_inv ids' t')).
  { intros t1 HI HF Hft. eexists _, _. split; [reflexivity|]. split; [|done].
    destruct (negb _); [|done]. rewrite <- HI in WF. rewrite <- HF in Hfst.
    apply (erase_fault ids t1); done. }
  assert (Hgo : forall t1 buf, tkz_inv ids t1 -> incoming t1 = incoming t ->
    incoming_first t1 = incoming_first t -> forall wo_copy,
    exists t' st,
      (let '(inc, node) := lexbor_in_node_make (incoming t1) node_ok (incoming_node t1) buf size in
       let t2 := set_incoming_node (set_incoming t1 inc) node in
       match node with
       | None => Some (if negb (has_opt t2 LXB_HTML_TOKENIZER_OPT_WO_IN_DESTROY)
           then lxb_html_tokenizer_erase_incoming t2 else t2, LXB_STATUS_ERROR_MEMORY_ALLOCATION)
       | Some i =>
           let t3 := node_entered t1 inc i in
           let t4 := if wo_copy : bool then t3 else mark_alloc t3 i in
           t ← lxb_html_tokenizer_chunk_process t4 buf size;
           if has_opt t LXB_HTML_TOKENIZER_OPT_WO_IN_DESTROY then Some (t, status t)
           else if negb (status t =? LXB_STATUS_OK) then
             let t := lxb_html_tokenizer_erase_incoming t in Some (t, status t)
           else let t := release_incoming t in Some (t, status t)
       end) = Some (t', st) /\ fault t' = false /\
    (st = LXB_STATUS_OK -> st = status t' /\ exists ids', ids' <> [] /\ tkz_inv ids' t')).
  { intros t1 buf INV1 HI HF wo. destruct node_ok; [|by apply Hfail; [done..|apply INV1]].
    destruct (node_entered_inv ids t1 buf size INV1 Hsz) as (inc' & i & n & -> & INV2 & Hn & Hb & He).
    cbv beta iota zeta. destruct (mark_alloc_inv _ _ _ _ INV2 Hn) as [INV3 Hn3].
    destruct wo;
      [destruct (chunk_tail_ok _ i _ _ buf size INV2 (last_snoc _ _) Hn Hb He Hsz)
         as (t' & st & Heq & Hf' & Hst & Hok)
      |destruct (chunk_tail_ok _ i _ _ buf size INV3 (last_snoc _ _) Hn3 Hb He Hsz)
         as (t' & st & Heq & Hf' & Hst & Hok)];
      exists t', st; (split; [exact Heq|]); eauto 10. }
  unfold lxb_html_tokenizer_chunk. destruct (has_opt t LXB_HTML_TOKENIZER_OPT_WO_COPY).
  - pose proof (Hgo t data INV eq_refl eq_refl true) as H.
    by destruct (lexbor_in_node_make _ _ _ _ _) as [inc [i|]].
  - destruct copied as [c|]; [|by apply Hfail]. cbn [mbind option_bind].
    assert (INV1 : tkz_inv ids (memcpy t c data size)) by (destruct INV as [[] ? ? ?]; by split).
    pose proof (Hgo _ c INV1 eq_refl eq_refl false) as H.
    by destruct (lexbor_in_node_make _ _ _ _ _) as [inc [i|]].
Qed.

(** ** The end of the file *)

Lemma end_ok ids t : tkz_inv ids t -> ids <> [] ->
  exists t' st, lxb_html_tokenizer_end t = Some (t', st) /\ fault t' = false /\ st = status t' /\
    (st = LXB_STATUS_OK -> env_ok (env t')).
Proof.
  intros [[WF Hfr Hfst Hnd] Hf (k & Hk & Ha & Hsp & Htmp) Hev] Hne.
  unfold lxb_html_tokenizer_end. cbv zeta.
  set (t1 := set_is_eof (set_status (set_reuse t false) LXB_STATUS_OK) true).
  destruct (last ids) as [i|] eqn:Hl; [|by apply last_None in Hl].
  assert (PRE : step_pre ids t1 lxb_html_tokenizer_eof (lxb_html_tokenizer_eof + 1)).
  { split; cbn; try done.
    - eauto.
    - exists k. split; [done|]. by eapply attrs_ok_here.
    - intros Hn. apply Htmp, Hn. }
  destruct (eof_loop_ok ids eof_fuel t1) as (t2 & Hloop & F & Hf2 & Hr); [done | done | |].
  { pose proof (rank_range true (state t1) (rd t1 lxb_html_tokenizer_eof)). unfold eof_fuel. lia. }
  assert (Hend : end_loop (reuse_fuel (set_status (set_reuse t false) LXB_STATUS_OK))
            (set_status (set_reuse t false) LXB_STATUS_OK) = Some t2).
  { unfold reuse_fuel, walk_fuel. cbn [end_loop]. fold t1. rewrite Hloop. cbn [mbind option_bind].
    destruct F as (_ & _ & _ & _ & -> & _). done. }
  rewrite Hend. cbn [mbind option_bind]. cbn [status set_is_eof].
  destruct (status t2 =? LXB_STATUS_OK) eqn:Hst; cbn [negb]; bool_to_prop.
  2: { eexists _, _. split; [reflexivity|]. done. }
  destruct Hr as [[[k2 Hk2] Hev2]|]; [|contradiction].
  unfold lxb_html_token_clean, set_tag_id, upd_token. cbn [token set_is_eof]. rewrite Hk2.
  cbn [token set_token]. unfold call_token_done. cbn [token set_token].
  destruct (callback_token_done _ _) as [e r] eqn:Hcb.
  eexists _, _. split; [reflexivity|]. pose proof (fun Hev => callback_env _ _ _ _ Hev Hcb) as Hok.
  cbn. destruct (reply_token r); [|by case_if; bool_to_prop]. split; [done|]. split; [done|]. intros _. by apply Hok; [exact Hev2 | eexists].
Qed.
End Chunk.
