(* ===== verification/TkzParse.v ===== *)
(** * Parsing a document with the tokenizer

    The use of the API that [html/tokenizer.h] describes: [init], [begin], any
    number of [chunk]s, [end].  Whatever the bytes, the way they are cut into
    buffers, the options, the answers of the allocators and the client's
    callback: every call returns, and no null, dangling or foreign pointer is
    followed. *)
From S2P Require Import Prelude.
From S2P Require Import Str.
From S2P Require Import In.
From S2P Require Import Tag.
From S2P Require Import TagHeap.
From S2P Require Import TkzBase.
From S2P Require Import HtmlIn.
From S2P Require Import TkzState.
From S2P Require Import TkzComment.
From S2P Require Import TkzDoctype.
From S2P Require Import TkzText.
From S2P Require Import TkzScript.
From S2P Require Import TkzRun.
From S2P Require Import TkzInst.
From S2P Require Import TkzStep.
From S2P Require Import TkzSafe.
From S2P Require Import TkzChunk.

(** One call of [lxb_html_tokenizer_chunk]: the buffer, and what the allocators
    answer. *)
Record chunk_call := mk_chunk_call {
  cc_data : Z; cc_size : N; cc_node_ok : bool; cc_copied : option Z
}.

Section Parse.
Context {E : Type} `{EV : TkzEnv E}.
Implicit Types t : tokenizer E.

(** Feed the buffers until a call reports an error. *)
Fixpoint parse_chunks t (l : list chunk_call) : option (tokenizer E * Z) :=
  match l with
  | [] => Some (t, LXB_STATUS_OK)
  | c :: l' =>
      '(t, st) ← lxb_html_tokenizer_chunk t (cc_node_ok c) (cc_copied c) (cc_data c)
                   (Z.of_N (cc_size c));
      if st =? LXB_STATUS_OK then parse_chunks t l' else Some (t, st)
  end.

Definition parse (e : E) (m : Z -> Z) (o : Z) (token_ok : bool) (l : list chunk_call)
    : option (tokenizer E * Z) :=
  let t := set_opt (lxb_html_tokenizer_init e m) o in
  let '(t, st) := lxb_html_tokenizer_begin t token_ok in
  if st =? LXB_STATUS_OK then
    '(t, st) ← parse_chunks t l;
    if st =? LXB_STATUS_OK then lxb_html_tokenizer_end t else Some (t, st)
  else Some (t, st).

Context {EL : TkzEnvLaws E}.

Lemma parse_chunks_ok l : forall ids t, tkz_inv ids t ->
  exists t' st, parse_chunks t l = Some (t', st) /\ fault t' = false /\
    (st = LXB_STATUS_OK -> l = [] /\ t' = t \/ exists ids', ids' <> [] /\ tkz_inv ids' t').
Proof.
  induction l as [|c l IH]; intros ids t INV; cbn [parse_chunks].
  { exists t, LXB_STATUS_OK. split; [done|]. split; [apply INV | auto]. }
  destruct (chunk_ok ids t (cc_node_ok c) (cc_copied c) (cc_data c) (Z.of_N (cc_size c)) INV)
    as (t1 & st & -> & Hf & Hok); [lia|]. cbn [mbind option_bind].
  destruct (st =? LXB_STATUS_OK) eqn:Hst; bool_to_prop; [|by exists t1, st].
  destruct (Hok Hst) as (_ & ids1 & Hne & INV1).
  destruct (IH ids1 t1 INV1) as (t2 & st2 & -> & Hf2 & Hok2).
  exists t2, st2. split; [done|]. split; [done|]. intros H. right.
  destruct (Hok2 H) as [[_ ->]|]; eauto.
Qed.

(** The tokenizer after [begin]. *)
Definition begun (e : E) (m : Z -> Z) (o : Z) : tokenizer E :=
  set_token (set_opt (lxb_html_tokenizer_init e m) o) (Some token_zero).

Lemma begun_inv e m o : env_ok e -> tkz_inv [] (begun e m o).
Proof.
  intros Hev. split; [split | done | exists token_zero | done].
  - split; [constructor | done | done].
  - intros i [n Hn]. discriminate Hn.
  - done.
  - done.
  - split; [done|]. split; [done|]. split; [by left | done].
Qed.

Lemma parse_begun e m o l : parse e m o true l =
  '(t, st) ← parse_chunks (begun e m o) l;
  if st =? LXB_STATUS_OK then lxb_html_tokenizer_end t else Some (t, st).
Proof. reflexivity. Qed.

(** The end of an empty document. *)
Lemma end_begun e m o : env_ok e -> exists t st,
  lxb_html_tokenizer_end (begun e m o) = Some (t, st) /\ fault t = false /\ (st = LXB_STATUS_OK -> env_ok (env t)).
Proof.
  intros Hev. set (r := lxb_html_tokenizer_end _).
  let v := eval cbv -[callback_token_done] in r in change r with v. clear r.
  destruct (callback_token_done _ _) as [e' r] eqn:Hcb. eexists _, _. split; [reflexivity|].
  pose proof (fun H => callback_env _ _ _ _ H Hcb) as Hok.
  destruct r as [[k|] ? ? [s|]]; cbn in Hok |- *.
  1, 2: split; [done|]; intros _; apply Hok; [exact Hev | by eexists].
  - by destruct s.
  - done.
Qed.

(** C4: parsing a document terminates and is memory-safe.  For every
    content of the memory, every sequence of buffers (of any addresses and
    sizes), every combination of options (buffers copied or not, released or
    not), every answer of the allocators and every client callback that sets
    only text-mode states, [begin]; [chunk]*; [end] returns with a status, and
    no state function, buffer release or lookup has read through a null or
    released pointer.  A property of the client's state that its callback keeps
    whenever it takes a token holds at the end, if the status is OK. *)
Theorem parse_safe e m o token_ok l : env_ok e ->
  exists t st, parse e m o token_ok l = Some (t, st) /\ fault t = false /\ (st = LXB_STATUS_OK -> env_ok (env t)).
Proof.
  intros Hev. destruct token_ok; [|by eexists _, _]. rewrite parse_begun.
  destruct (parse_chunks_ok l _ _ (begun_inv e m o Hev)) as (t & st & -> & Hf & Hok).
  cbn [mbind option_bind].
  destruct (st =? LXB_STATUS_OK) eqn:Hst; bool_to_prop; [|by exists t, st].
  destruct (Hok Hst) as [[_ ->]|(ids & Hne & INV)]; [by apply end_begun|].
  destruct (end_ok ids t INV Hne) as (t' & st' & He & Hf' & _ & Hev'). by exists t', st'.
Qed.
End Parse.

Lemma parse_safe_witness :
  exists t st, parse (mk_collector [] None) (place BUF [0x3C; 0x61; 0x3E] (fun _ => 0)) 0 true
    [mk_chunk_call BUF 2 true (Some 2048); mk_chunk_call (BUF + 2) 1 true None] = Some (t, st) /\
    fault t = false.
Proof.
  destruct (parse_safe (mk_collector [] None) (place BUF [0x3C; 0x61; 0x3E] (fun _ => 0)) 0 true
    [mk_chunk_call BUF 2 true (Some 2048); mk_chunk_call (BUF + 2) 1 true None]) as (t & st & E & Hf & _); [exact I|].
  exists t, st. split; [exact E | exact Hf].
Defined.

(** ** The contracts behind it *)

Section Contracts.
Context {E : Type} `{EV : TkzEnv E} {EL : TkzEnvLaws E}.
Implicit Types (t : tokenizer E) (d : Z).

(** C7: every one of the 85 state functions keeps its contract.  Called at a
    position before the end of the buffer, in a tokenizer whose token,
    attribute and saved-name pointers are the ones the state needs
    ([step_pre]), it follows no bad pointer, changes neither the chain nor the
    options, and returns a position between the one it was given and the end
    (one past it at most, for the rest of a PUBLIC or SYSTEM keyword); if the
    position did not move, the new state is strictly closer to one that
    consumes.  The same contract then holds of the next call, unless the
    callback refused the token (an error status is set) or the end-of-file
    byte was consumed: both return the end. *)
Theorem call_state_contract ids t d end_ :
  step_pre ids t d end_ -> d < end_ ->
  let '(t', p) := call_state t d end_ in
  fault t' = false /\ frame t t' /\
  d <= p <= end_ + (if keyword_state (state t) then 1 else 0) /\
  (p = d -> rank (is_eof t) (state t') (rd t d) < rank (is_eof t) (state t) (rd t d)) /\
  (step_pre ids t' p end_ \/
   p = end_ /\ token t' = None /\ status t' <> LXB_STATUS_OK \/
   p = end_ /\ is_eof t' = true /\ is_Some (token t')).
Proof.
  intros PRE Hlt. pose proof (call_state_ok ids t d end_ PRE Hlt) as H. unfold state_post in H.
  destruct (call_state t d end_) as [t' p]. destruct H as [F Hlo Hhi Hpr Hnx].
  assert (Hf : fault t' = false).
  { destruct Hnx as [[]|[(? & _)|(_ & ? & _)]]; done. }
  split; [done|]. split; [done|]. split; [lia|]. split.
  - intros ->. destruct Hpr as [|[_ ?]]; [lia | done].
  - destruct Hnx as [|[(_ & ? & ? & ?)|(? & _ & ? & _ & ?)]]; auto.
Qed.

Lemma run_more fuel : forall t d end_ r fuel', run fuel t d end_ = Some r ->
  (fuel <= fuel')%nat -> run fuel' t d end_ = Some r.
Proof.
  induction fuel as [|fuel IH]; intros t d end_ r fuel' H Hle; cbn [run] in H.
  - destruct fuel'; cbn [run]; (destruct (d <? end_); [done | exact H]).
  - destruct fuel' as [|fuel']; [lia|]. cbn [run].
    destruct (d <? end_); [|done]. destruct (call_state t d end_) as [t1 p1].
    apply IH; [done | lia].
Qed.

(** C8: the loop over a buffer terminates: a buffer of [n] bytes is consumed
    within [4 n + 4] calls of state functions, whatever the bytes; every fuel
    from there on gives the same result, so the bound of [run] is immaterial. *)
Theorem run_terminates ids t d end_ :
  is_eof t = false -> step_pre ids t d end_ -> d <= end_ ->
  exists t' p, fault t' = false /\ end_ <= p /\
    forall fuel, 4 * (end_ - d) + 3 < Z.of_nat fuel -> run fuel t d end_ = Some (t', p).
Proof.
  intros He PRE Hle. set (n := Z.to_nat (4 * (end_ - d) + 4)).
  pose proof (rank_range false (state t) (rd t d)).
  destruct (run_ok ids n t d end_ He PRE) as (t' & p & Hr & _ & Hp & _ & Hnx); [lia|].
  exists t', p. split; [by destruct Hnx as [[]|[]]|]. split; [done|].
  intros fuel Hf. apply (run_more n); [done | lia].
Qed.

(** [lxb_html_tokenizer_chunk] keeps the invariant of the tokenizer
    between calls.  It always returns; after an OK status the chain is
    non-empty and well formed, its first and last nodes are the ones the
    tokenizer has, and the token under construction, its saved name and its
    attributes are what the current state needs, pointing into live buffers:
    the buffers released are ones nothing refers to. *)
Theorem chunk_keeps_invariant ids t node_ok copied data size :
  tkz_inv ids t -> 0 <= size ->
  exists t' st, lxb_html_tokenizer_chunk t node_ok copied data size = Some (t', st) /\
    fault t' = false /\
    (st = LXB_STATUS_OK -> st = status t' /\ exists ids', ids' <> [] /\ tkz_inv ids' t').
Proof. apply chunk_ok. Qed.

(** Releasing buffers at the end of a chunk is safe: what is dropped is a
    prefix of the chain, the chain that is left is linked and in order, and the
    token and the saved tag name still point into it. *)
Theorem release_keeps_references ids t : tkz_inv ids t ->
  exists c, tkz_inv (drop c ids) (release_incoming t) /\
    status (release_incoming t) = status t /\ (ids <> [] -> drop c ids <> []).
Proof. apply release_incoming_ok. Qed.

(** [lxb_html_tokenizer_end] terminates: in any state the tokenizer was
    left in, at most four calls consume the end-of-file byte, and the status
    returned is the tokenizer's. *)
Theorem end_terminates ids t : tkz_inv ids t -> ids <> [] ->
  exists t' st, lxb_html_tokenizer_end t = Some (t', st) /\ fault t' = false /\ st = status t' /\
    (st = LXB_STATUS_OK -> env_ok (env t')).
Proof. apply end_ok. Qed.
End Contracts.

(** The tokenizer with the three bytes of [<a>] as its first buffer. *)
Definition tkz_example : tokenizer unit :=
  let t := begun tt (place BUF [0x3C; 0x61; 0x3E] (fun _ => 0)) 0 in
  node_entered t (fst (lexbor_in_node_make (incoming t) true None BUF 3)) 1.

Lemma tkz_example_inv : tkz_inv [1%positive] tkz_example.
Proof.
  destruct (node_entered_inv [] (begun tt (place BUF [0x3C; 0x61; 0x3E] (fun _ => 0)) 0) BUF 3
    (begun_inv tt _ 0 ltac:(exact I))) as (inc & i & n & [= <- <-] & H & _); [lia | exact H].
Qed.

Lemma tkz_example_pre : step_pre [1%positive] tkz_example BUF (BUF + 3).
Proof.
  destruct tkz_example_inv as [[WF _ _ _] _ (k & [= <-] & Ha & Hs & _) _]. split; try done.
  - by exists 1%positive.
  - by exists token_zero.
  - intros _. by eexists.
  - intros _. by exists token_zero.
Qed.

Lemma call_state_contract_witness :
  let '(t', p) := call_state tkz_example BUF (BUF + 3) in fault t' = false /\ BUF <= p <= BUF + 3.
Proof.
  pose proof (call_state_contract [1%positive] tkz_example BUF (BUF + 3) tkz_example_pre
    eq_refl) as H.
  destruct (call_state tkz_example BUF (BUF + 3)) as [t' p].
  destruct H as (Hf & _ & Hp & _). split; [exact Hf | exact Hp].
Defined.

Lemma run_terminates_witness : exists t' p, fault t' = false /\ BUF + 3 <= p /\
  forall fuel, 4 * (BUF + 3 - BUF) + 3 < Z.of_nat fuel ->
    run fuel tkz_example BUF (BUF + 3) = Some (t', p).
Proof.
  apply (run_terminates [1%positive]); [reflexivity | apply tkz_example_pre | discriminate].
Defined.

Lemma chunk_keeps_invariant_witness : exists t' st,
  lxb_html_tokenizer_chunk tkz_example true (Some 2048) 4096 10 = Some (t', st) /\ fault t' = false.
Proof.
  destruct (chunk_keeps_invariant [1%positive] tkz_example true (Some 2048) 4096 10 tkz_example_inv)
    as (t' & st & H & Hf & _); [discriminate | exists t', st; split; [exact H | exact Hf]].
Defined.

Lemma release_keeps_references_witness : exists c,
  tkz_inv (drop c [1%positive]) (release_incoming tkz_example).
Proof.
  destruct (release_keeps_references [1%positive] tkz_example tkz_example_inv) as (c & H & _).
  exists c. exact H.
Defined.

Lemma end_terminates_witness : exists t' st,
  lxb_html_tokenizer_end tkz_example = Some (t', st) /\ fault t' = false /\ st = status t' /\
    (st = LXB_STATUS_OK -> env_ok (env t')).
Proof. apply (end_terminates [1%positive]); [apply tkz_example_inv | discriminate]. Defined.
