(* ===== verification/TreeBuild.v ===== *)
(** * Building the tree: the dispatcher and the parser

    The dispatcher of [html/tree.c] gives the token to the mode of the builder or to
    foreign content, again while it is not done with.  The last section puts the
    builder and the tokenizer together. *)
From S2P Require Import Prelude.
From S2P Require Import Str.
From S2P Require Import In.
From S2P Require Import Tag.
From S2P Require Import TagHeap.
From S2P Require Import TkzBase.
From S2P Require Import TokenData.
From S2P Require Import TkzRun.
From S2P Require Import TkzInst.
From S2P Require Import TkzParse.
From S2P Require Import DomNode.
From S2P Require Import DomAttr.
From S2P Require Import TagCat.
From S2P Require Import TreeStack.
From S2P Require Import TreeM.
From S2P Require Import TreeInsert.
From S2P Require Import TreeMode.
From S2P Require Import TreeInitial.
From S2P Require Import TreeHead.
From S2P Require Import TreeBody.
From S2P Require Import TreeTable.
From S2P Require Import TreeSelect.

Section Build.
Context `{TreeAlloc} `{TokenBuffers}.

Definition mode_function `{TreeModes} (m : insertion_mode) : M bool :=
  match m with
  | IM_initial => lxb_html_tree_insertion_mode_initial
  | IM_before_html => lxb_html_tree_insertion_mode_before_html
  | IM_before_head => lxb_html_tree_insertion_mode_before_head
  | IM_in_head => lxb_html_tree_insertion_mode_in_head
  | IM_in_head_noscript => lxb_html_tree_insertion_mode_in_head_noscript
  | IM_after_head => lxb_html_tree_insertion_mode_after_head
  | IM_in_body => lxb_html_tree_insertion_mode_in_body
  | IM_text => lxb_html_tree_insertion_mode_text
  | IM_in_table => lxb_html_tree_insertion_mode_in_table
  | IM_in_table_text => lxb_html_tree_insertion_mode_in_table_text
  | IM_in_caption => lxb_html_tree_insertion_mode_in_caption
  | IM_in_column_group => lxb_html_tree_insertion_mode_in_column_group
  | IM_in_table_body => lxb_html_tree_insertion_mode_in_table_body
  | IM_in_row => lxb_html_tree_insertion_mode_in_row
  | IM_in_cell => lxb_html_tree_insertion_mode_in_cell
  | IM_in_select => lxb_html_tree_insertion_mode_in_select
  | IM_in_select_in_table => lxb_html_tree_insertion_mode_in_select_in_table
  | IM_in_template => lxb_html_tree_insertion_mode_in_template
  | IM_after_body => lxb_html_tree_insertion_mode_after_body
  | IM_in_frameset => lxb_html_tree_insertion_mode_in_frameset
  | IM_after_frameset => lxb_html_tree_insertion_mode_after_frameset
  | IM_after_after_body => lxb_html_tree_insertion_mode_after_after_body
  | IM_after_after_frameset => lxb_html_tree_insertion_mode_after_after_frameset
  | IM_in_body_skip_new_line => lxb_html_tree_insertion_mode_in_body_skip_new_line
  | IM_in_body_skip_new_line_textarea => lxb_html_tree_insertion_mode_in_body_skip_new_line_textarea
  end.

(** A mode that calls modes, to a depth. *)
Fixpoint run_mode (depth : nat) (m : insertion_mode) (t : html_tree) : option (bool * html_tree) :=
  match depth with
  | O => None
  | S depth => @mode_function (run_mode depth) m t
  end.

(** No function calls modes deeper than this. *)
Definition MODE_DEPTH : nat := 8.

#[local] Instance modes : TreeModes := run_mode MODE_DEPTH.

Definition lxb_html_tree_construction_dispatcher : M bool :=
  len ← get open_length;
  adjusted ← get lxb_html_tree_adjusted_current_node;
  n ← (if (len =? 0)%nat then mret None else n ← node adjusted; mret (Some n));
  match n with
  | None => call_current
  | Some n =>
      if nd_ns n =? LXB_NS_HTML then call_current
      else
        k ← token;
        let open := Z.land (tok_type k) LXB_HTML_TOKEN_TYPE_CLOSE =? 0 in
        let text := tok_tag_id k =? LXB_TAG__TEXT in
        if lxb_html_tree_mathml_text_integration_point n &&
           (open && negb (tok_tag_id k =? LXB_TAG_MGLYPH) && negb (tok_tag_id k =? LXB_TAG_MALIGNMARK) || text)
        then call_current
        else if (nd_tag n =? LXB_TAG_ANNOTATION_XML) && (nd_ns n =? LXB_NS_MATH) && open && (tok_tag_id k =? LXB_TAG_SVG)
        then call_current
        else
          html ← getO (fun t => i ← adjusted; lxb_html_tree_html_integration_point (t_dom t) i);
          if html && (open || text) then call_current
          else if tok_tag_id k =? LXB_TAG__END_OF_FILE then call_current
          else lxb_html_tree_insertion_mode_foreign_content
  end.

(** [while (dispatcher(tree, token) == false) {}]; the result is [tree->status]. *)
Fixpoint insertion_loop (fuel : nat) : M Z :=
  match fuel with
  | O => fault
  | S fuel =>
      is_done ← lxb_html_tree_construction_dispatcher;
      if (is_done : bool) then get t_status else insertion_loop fuel
  end.

(** Reprocessing a token takes elements off the stack, or the builder on to a later
    mode. *)
Definition loop_fuel (t : html_tree) : nat := 16 * (open_length t + length (template_insertion_modes t) + 4).

Definition lxb_html_tree_insertion_mode : M Z := fuel ← get loop_fuel; insertion_loop fuel.

(** [lxb_html_tree_token_callback]: whether a token is returned, and what
    [tkz->status] is set to. *)
Definition set_tags (h : lxb_tag_heap) : M unit :=
  put (fun t =>
    let d := t_dom t in
    set_dom (mk_dom (d_nodes d) (d_attrs d) (mk_owner (doc_html (d_owner d)) (doc_quirks (d_owner d)) h)) t).

(** The token becomes the builder's, with the id of its tag. *)
Definition take_token (k : html_token) : M Z :=
  put (fun t => set_tkz_tag None (set_tkz_state None (set_t_token k t)));;
  tag_id ← (if tok_tag_id k =? LXB_TAG__UNDEF then
              '(h, id) ← getO (fun t => lxb_html_token_tag_id_from_data tb_nodes tb_byte (doc_tags (d_owner (t_dom t))) k);
              set_tags h;; mret id
            else mret (tok_tag_id k));
  put (fun t => set_t_token (with_tag_id tag_id (t_token t)) t);;
  mret tag_id.

Definition lxb_html_tree_token_callback (k : html_token) : M (bool * option Z) :=
  tag_id ← take_token k;
  if tag_id =? LXB_TAG__UNDEF then mret (false, Some LXB_STATUS_ERROR)
  else
    status ← lxb_html_tree_insertion_mode;
    if negb (status =? LXB_STATUS_OK) then mret (false, Some status) else mret (true, None).
End Build.

(** ** Parsing a document: [interfaces/document.c], [parser.c]

    The tree builder as the client of the tokenizer, and the parse of a document
    that was just created, with a parser of its own. *)
(** The buffers of a tokenizer. *)
Definition buffers {E} (t : tokenizer E) : TokenBuffers := {| tb_nodes := in_nodes (incoming t); tb_byte := rd t |}.

(** *** The client

    The environment of the tokenizer is the tree builder, or none after the
    builder has read through NULL or a dangling pointer or has not come to an end
    within its fuel; the parse then has no answer. *)

Section Client.
Context `{TreeAlloc}.

#[export] Instance tree_env : TkzEnv (option html_tree) := {|
  callback_token_done t k :=
    match (builder ← env t; @lxb_html_tree_token_callback _ (buffers t) k builder) with
    | None => (None, mk_reply None None None None)
    | Some ((returned, status), builder) =>
        (Some builder, mk_reply (if (returned : bool) then Some (t_token builder) else None)
                         (t_tkz_state builder) (t_tkz_tag builder) status)
    end;
  TkzBase.lxb_html_tree_adjusted_current_node e :=
    builder ← e; n ← node_at builder (lxb_html_tree_adjusted_current_node builder); Some (nd_ns n);
  tag_heap e := match e with Some builder => doc_tags (d_owner (t_dom builder)) | None => empty_heap end;
  attr_alloc_ok _ _ := true
|}.

(** *** [lxb_html_document_parse] *)

(** The document of [lxb_html_document_create], at an address. *)
Definition document_node : dom_node :=
  mk_node None None None None None LXB_NS_HTML LXB_TAG__DOCUMENT LXB_DOM_NODE_TYPE_DOCUMENT [] None None None None None.
Definition lxb_html_document_create (document : positive) : dom :=
  mk_dom {[document := document_node]} ∅ (mk_owner true false empty_heap).

(** The builder and the tokenizer as [lxb_html_parser_init] and
    [lxb_html_parse_chunk_prepare] leave them, before [begin]. *)
Definition chunk_prepare (document : positive) (memory : Z -> Z) : tokenizer (option html_tree) :=
  set_tree (lxb_html_tokenizer_init (Some (lxb_html_tree_init (lxb_html_document_create document) document)) memory) true.

(** The [size] bytes at [html]; what is allocated for the token, the buffer's node
    and the copy of the bytes.  The result is the client and the status. *)
Definition parse_chunk (document : positive) (memory : Z -> Z) (token_ok node_ok : bool) (copied : option Z)
    (html size : Z) : option (option html_tree * Z) :=
  let '(t, status) := lxb_html_tokenizer_begin (chunk_prepare document memory) token_ok in
  if negb (status =? LXB_STATUS_OK) then Some (env t, status)
  else
    '(t, status) ← lxb_html_tokenizer_chunk t node_ok copied html size;
    if negb (status =? LXB_STATUS_OK) then Some (env t, status)
    else '(t, status) ← lxb_html_tokenizer_end t; Some (env t, status).

(** The builder and the status.  [None] is no answer of the code: the builder read
    through NULL or a dangling pointer, or the fuel of its loop was used up. *)
Definition lxb_html_document_parse (document : positive) (memory : Z -> Z) (token_ok node_ok : bool) (copied : option Z)
    (html size : Z) : option (html_tree * Z) :=
  '(builder, status) ← parse_chunk document memory token_ok node_ok copied html size;
  builder ← builder; Some (builder, status).
End Client.
