(* ===== verification/TreeGood.v ===== *)
(** * Every insertion mode keeps what the operations keep

    The modes of [html/tree/insertion_mode/], the dispatcher and the callback of the
    tokenizer, for any property that the operations of [html/tree.c] keep. *)
From S2P Require Import Prelude.
From S2P Require Import Tag.
From S2P Require Import TkzBase.
From S2P Require Import TokenParse.
From S2P Require Import DomNode.
From S2P Require Import DomAttr.
From S2P Require Import TagCat.
From S2P Require Import TagConst.
From S2P Require Import Array.
From S2P Require Import TreeStack.
From S2P Require Import TreeM.
From S2P Require Import TreeInsert.
From S2P Require Import TreeAdopt.
From S2P Require Import TreeMode.
From S2P Require Import TreeInitial.
From S2P Require Import TreeHead.
From S2P Require Import TreeBody.
From S2P Require Import TreeTable.
From S2P Require Import TreeSelect.
From S2P Require Import TreeLogic.
From S2P Require Import TreeKeep.
From S2P Require Import TreeBuild.

Section Good.
Context `{TreeAlloc} `{TokenBuffers} {P Pf : html_tree -> Prop} {live : positive -> html_tree -> Prop} {K : Kept P Pf live}.

#[local] Abbreviation good := (good P Pf).

(** ** Handlers with ways of their own *)

Lemma head_ok k : post P (lxb_html_tree_insertion_mode_before_head_head k) (ok_or P Pf).
Proof.
  eapply post_bind; [apply kept_element|]. intros [e|]; [|by apply post_ret].
  apply (post_bind _ _ _ (fun _ => P)); [apply post_put; intros t [Ht He]; by apply kept_head | intros _; by apply post_ret].
Qed.

Lemma good_head k next : good next -> good (s ← lxb_html_tree_insertion_mode_before_head_head k; check_status s next).
Proof. intros Hk. eapply post_bind; [apply head_ok | intros s; by apply check_ok]. Qed.

Lemma body_ok k : post P (lxb_html_tree_insertion_mode_after_head_create_body k) (some_or P Pf (fun _ _ => True)).
Proof.
  eapply post_bind; [apply kept_element|]. intros [e|]; [|by apply post_ret].
  apply (post_bind _ _ _ (fun _ => P)); [apply post_put; intros t [Ht He]; by apply kept_body | intros _; by apply post_ret].
Qed.

Lemma good_body k next : good next ->
  good (element ← lxb_html_tree_insertion_mode_after_head_create_body k; not_null element (fun _ => next)).
Proof. intros Hk. eapply post_bind; [apply body_ok|]. intros o. apply not_null_ok. intros e. by apply good_with. Qed.

Lemma good_noscript : good head_noscript.
Proof.
  apply good_bind; [keep|]. intros k. apply good_bind; [keep|]. intros scripting.
  apply (post_bind _ _ _ (some_or P Pf (fun _ _ => True))); [|intros o; apply not_null_ok; intros e; apply good_with, good_ret].
  destruct scripting; [by apply generic_ok|].
  eapply post_bind; [apply kept_element|]. intros o t b t' Ht E. injection E as <- <-.
  destruct o as [e|]; [split; [eapply kept_minor, Ht|]; constructor | eapply failed_minor, Ht; constructor].
Qed.

Lemma good_or_destroy e s next : good next ->
  good (put (set_t_status s);; if s =? LXB_STATUS_OK then next else lxb_html_template_element_interface_destroy e;; lxb_html_tree_process_abort).
Proof.
  intros Hk. apply good_bind; [keep|]. intros _. destruct (s =? LXB_STATUS_OK); [done|].
  eapply post_weaken; [| apply kept_weaken | done].
  exact (post_bind _ _ _ _ _ (kept_destroy_template e) (fun _ => fail_abort)).
Qed.

Lemma good_template : good lxb_html_tree_insertion_mode_in_head_template.
Proof.
  apply good_bind; [keep|]. intros k. apply good_insert_element. intros e. apply good_with.
  apply good_bind; [keep|]. intros s. apply good_or_destroy. do 2 (apply good_bind; [keep | intros _]).
  apply good_bind; [keep|]. intros s'. apply good_or_destroy, good_ret.
Qed.

Lemma good_foreign_loop `{TreeModes} tag idx : (forall m, good (call_mode m)) -> good (foreign_closed_loop tag idx).
Proof. intros calls. induction idx as [|idx IH]; cbn [foreign_closed_loop]; good. Qed.

Lemma good_foreign_insert k ns next : (forall e, good (next e)) ->
  good (element ← lxb_html_tree_insert_foreign_element k ns;
        match element with
        | None => put (set_before_append None);; put (set_t_status LXB_STATUS_ERROR_MEMORY_ALLOCATION);; lxb_html_tree_process_abort
        | Some e => next e
        end).
Proof.
  intros Hk. eapply post_bind; [apply kept_element|]. intros [e|]; [by apply good_with|].
  apply (post_bind _ _ _ (fun _ => Pf)); [|intros _; apply fail_status].
  apply post_put. intros t Ht. eapply failed_minor, Ht. constructor.
Qed.

Lemma good_insert_foreign adjust ns next : (forall e, good (next e)) -> good (insert_foreign adjust ns next).
Proof.
  intros Hk. apply good_bind; [keep|]. intros k. apply good_bind; [keep|]. intros _.
  eapply post_bind; [apply kept_element|]. intros o.
  apply (post_bind _ _ _ (fun _ => some_or P Pf (fun _ _ => True) o)); [|intros _; apply not_null_ok; intros e; by apply good_with].
  apply post_put. intros t Ht. destruct o as [e|]; [split; [eapply kept_minor, Ht|]; constructor | eapply failed_minor, Ht; constructor].
Qed.

Lemma good_back_in_head `{TreeModes} : (forall m, good (call_mode m)) -> good back_in_head.
Proof.
  intros calls. apply post_get. intros [e|]; [|apply good_with; good].
  apply (post_bind _ _ _ (fun _ t => P t /\ t_head t = Some e)); [|intros _].
  { apply post_put. intros t [Ht He]. split; [eapply kept_minor, Ht; constructor | exact He]. }
  apply (post_bind _ _ _ (fun _ => P)); [apply kept_push_head | intros s; good].
Qed.

(** ** Loops *)

Lemma good_closed_loop tag len : good (closed_loop tag len).
Proof. induction len as [|len IH]; cbn [closed_loop]; good. Qed.

Lemma keeps_item_loop tags idx : keeps P (item_loop tags idx).
Proof. induction idx as [|idx IH]; cbn [item_loop]; [keep|]. keep. all: exact IH. Qed.

Lemma keeps_clear tags fuel : keeps P (clear_loop tags fuel).
Proof. induction fuel as [|fuel IH]; cbn [clear_loop]; keep; done. Qed.

Lemma keeps_leave fuel : keeps P (leave_foreign fuel).
Proof. induction fuel as [|fuel IH]; cbn [leave_foreign]; keep; done. Qed.

(** ** Text *)

(** The status that the function answers with is that of the builder. *)
Definition appended (s : Z) (t : html_tree) : Prop := ok_or P Pf s t /\ t_status t = s.

Lemma set_status_ok s t : ok_or P Pf s t -> appended s (set_t_status s t).
Proof.
  unfold appended, ok_or. destruct (s =? LXB_STATUS_OK); intros Ht; (split; [|done]);
    [eapply kept_minor, Ht | eapply failed_minor, Ht]; constructor.
Qed.

Lemma append_step s x : post (fun t => P t /\ t_status t = LXB_STATUS_OK) x appended ->
  post (ok_or P Pf s) (put (set_t_status s);; if negb (s =? LXB_STATUS_OK) then mret s else x) appended.
Proof.
  intros Hx. apply (post_bind _ _ _ (fun _ => appended s)); [apply post_put; intros t; apply set_status_ok | intros _].
  unfold appended at 1, ok_or. destruct (s =? LXB_STATUS_OK) eqn:Es; cbn [negb].
  - bool_to_prop. subst s. exact Hx.
  - apply post_ret. unfold appended, ok_or. by rewrite Es.
Qed.

Lemma text_append_ok str : post P (lxb_html_tree_insertion_mode_in_body_text_append str) appended.
Proof.
  eapply post_bind; [apply kept_reconstruct|]. intros s. apply append_step.
  apply (post_bind _ _ _ (fun r => ok_or P Pf (fst r))); [eapply post_weaken; [apply kept_characters | by intros t [Ht _] | done]|].
  intros [s' n]. apply append_step, post_get. intros ok.
  apply (post_bind _ _ _ (fun _ t => P t /\ t_status t = LXB_STATUS_OK)); [|by intros _; apply post_ret].
  destruct (ok && _); [|by apply post_ret; intros t [Ht _]].
  apply post_put. intros t [[Ht Hs] _]. split; [eapply kept_minor, Ht; constructor | exact Hs].
Qed.

Lemma good_text_append str next : good next -> good (_ ← lxb_html_tree_insertion_mode_in_body_text_append str; status_ok next).
Proof.
  intros Hk. eapply post_bind; [apply text_append_ok|]. intros s t b t' [Ht Hs] E. unfold status_ok, mbind, M_bind, get in E.
  unfold ok_or in Ht. rewrite <- Hs in Ht. destruct (t_status t =? LXB_STATUS_OK); [by eapply Hk | by eapply fail_abort].
Qed.

Lemma fail_erase : post Pf erase_abort (kept_or_failed P Pf).
Proof.
  apply (post_bind _ _ _ (fun _ => Pf)); [|intros _; apply fail_abort]. apply post_put. intros t Ht. eapply failed_minor, Ht. constructor.
Qed.

Lemma good_each_text append texts next : (forall str, post P (append str) (ok_or P Pf)) -> good next -> good (each_text append texts next).
Proof.
  intros Ha Hk. induction texts as [|str texts IH]; [done|]. cbn [each_text]. eapply post_bind; [apply Ha|]. intros s.
  unfold ok_or. destruct (s =? LXB_STATUS_OK); [exact IH | apply fail_erase].
Qed.

Lemma good_flush : good flush_text.
Proof.
  do 2 (apply good_bind; [keep | intros ?]). cbn zeta. destruct (_ : bool).
  - do 2 (apply good_bind; [keep | intros _]). apply good_each_text; [|good]. intros str.
    eapply post_weaken; [apply text_append_ok | done | by intros s t []].
  - apply good_each_text; [|good]. intros str. eapply post_bind; [apply kept_characters|]. intros [s n].
    apply (post_bind _ _ _ (fun _ => appended s)); [apply post_put; intros t; apply set_status_ok|].
    intros _. apply post_ret. by intros t [].
Qed.
End Good.

#[export] Hint Resolve keeps_item_loop keeps_clear keeps_leave : keep.
#[export] Hint Resolve good_noscript good_template good_closed_loop good_flush : good.
#[export] Hint Extern 1 (good _ _ (mbind _ (lxb_html_tree_insertion_mode_before_head_head _))) => apply good_head : good.

Ltac modes :=
  repeat first
    [ lazymatch goal with
      | |- good _ _ (mbind _ (lxb_html_tree_insertion_mode_before_head_head _)) => apply good_head
      | |- good _ _ (mbind _ (lxb_html_tree_insertion_mode_after_head_create_body _)) => apply good_body
      | |- good _ _ (mbind _ (lxb_html_tree_insert_foreign_element _ _)) => apply good_foreign_insert
      | |- good _ _ (mbind _ (lxb_html_tree_insertion_mode_in_body_text_append _)) => apply good_text_append
      | |- good _ _ (insert_foreign _ _ _) => apply good_insert_foreign
      | |- good _ _ (foreign_closed_loop _ _) => apply good_foreign_loop
      | |- good _ _ back_in_head => apply good_back_in_head
      | |- good _ _ table_text => unfold table_text
      end
    | good1 ].

Section Modes.
Context `{TreeAlloc} `{TokenBuffers} {P Pf : html_tree -> Prop} {live : positive -> html_tree -> Prop} {K : Kept P Pf live}.

Section Calls.
Context `{TreeModes} (calls : forall m, good P Pf (call_mode m)).

Lemma good_mode_function m : good P Pf (mode_function m).
Proof. destruct m; unfold mode_function; modes. Qed.

Lemma good_foreign_content : good P Pf lxb_html_tree_insertion_mode_foreign_content.
Proof. modes. Qed.
End Calls.

Lemma good_run_mode depth m : good P Pf (run_mode depth m).
Proof.
  revert m. induction depth as [|depth IH]; intros m; [by intros t b t' _ E|].
  apply (@good_mode_function (run_mode depth) IH).
Qed.

Lemma good_dispatcher : good P Pf lxb_html_tree_construction_dispatcher.
Proof.
  assert (calls : forall m, good P Pf (@call_mode modes m)) by (intros m; apply good_run_mode).
  assert (Hforeign : good P Pf (@lxb_html_tree_insertion_mode_foreign_content _ _ modes)) by apply good_foreign_content, calls.
  unfold lxb_html_tree_construction_dispatcher. modes.
Qed.

Lemma insertion_ok fuel :
  post P (insertion_loop fuel) (fun s t => P t \/ s <> LXB_STATUS_OK /\ Pf t).
Proof.
  induction fuel as [|fuel IH]; [apply post_fault|]. cbn [insertion_loop]. eapply post_bind; [apply good_dispatcher|].
  intros [] t s t' [Ht|(Hb & Hs & Ht)] E; try discriminate Hb.
  - injection E as <- <-. by left.
  - injection E as <- <-. by right.
  - by apply (IH t).
Qed.

Lemma take_token_ok k : keeps P (take_token k).
Proof. apply keeps_bind; [keep|]. intros _. apply keeps_bind; [destruct (_ =? _); keep|]. intros tag_id. keep. Qed.

Lemma callback_ok k : post P (lxb_html_tree_token_callback k) (fun r t => P t \/ fst r = false /\ Pf t).
Proof.
  apply (post_bind _ _ _ (fun _ => P)); [apply take_token_ok|]. intros tag_id.
  destruct (tag_id =? _); [apply post_ret; by left|].
  eapply post_bind; [apply post_get; intros fuel; eapply post_weaken; [apply insertion_ok | by intros t [Ht _] | intros s t Hst; exact Hst]|].
  intros s. destruct (s =? LXB_STATUS_OK) eqn:Es; cbn [negb]; bool_to_prop; apply post_ret; intros t [Ht|[Hs Ht]]; first [done | by left | by right].
Qed.
End Modes.
