(* ===== verification/TreeSound.v ===== *)
(** * The nodes the builder holds are live and their pointers agree

    [sound]: the pointers between the nodes of the document agree ([links]) and the
    stacks and the fields of the builder point at live nodes.  Every operation of
    [html/tree.c] keeps it, and so every insertion mode. *)
From S2P Require Import Prelude.
From S2P Require Import In.
From S2P Require Import Tag.
From S2P Require Import TkzBase.
From S2P Require Import ParserChar.
From S2P Require Import TokenParse.
From S2P Require Import DomNode.
From S2P Require Import DomPointers.
From S2P Require Import DomAttr.
From S2P Require Import TreeAttr.
From S2P Require Import TagCat.
From S2P Require Import TagConst.
From S2P Require Import Array.
From S2P Require Import TreeStack.
From S2P Require Import TreeM.
From S2P Require Import TreeInsert.
From S2P Require Import TreeAdopt.
From S2P Require Import TreeMode.
From S2P Require Import TreeInitial.
From S2P Require Import TreeHead.
From S2P Require Import TreeLogic.
From S2P Require Import TreeKeep.
From S2P Require Import TreeBuild.
From S2P Require Import TreeGood.

(** What the builder relies on: new memory is not in use. *)
Class TreeAllocLaws `{TreeAlloc} : Prop := new_node_fresh h i : new_node h = Some i -> h !! i = None.

Definition heap (t : html_tree) : gmap positive dom_node := d_nodes (t_dom t).
Definition live (i : positive) (t : html_tree) : Prop := is_Some (heap t !! i).

(** ** Operations on the document that leave the pointers between nodes alone *)

(** What holds of a result, if there is one. *)
Definition yields {A} (o : option A) (Q : A -> Prop) : Prop := forall a, o = Some a -> Q a.

Lemma yields_bind {A B} (x : option A) (k : A -> option B) R Q :
  yields x R -> (forall a, R a -> yields (k a) Q) -> yields (x ≫= k) Q.
Proof. intros Hx Hk b E. destruct x as [a|]; [|done]. exact (Hk a (Hx a eq_refl) b E). Qed.

Lemma yields_some {A} (a : A) (Q : A -> Prop) : Q a -> yields (Some a) Q.
Proof. by intros H b [= <-]. Qed.

Lemma yields_any {A} (x : option A) : yields x (fun _ => True).
Proof. done. Qed.

Section Grown.
Context (h : gmap positive dom_node).

Definition grows (d : dom) : Prop := grown h (d_nodes d).
Definition grows2 {A} (r : A * dom) : Prop := grows (snd r).

Lemma element_grows f i d : grows d -> (forall n, pointers (f n) = pointers n) -> yields (upd_element f i d) grows.
Proof.
  intros G Hf d' H. unfold upd_element in H. destruct (upd f i (d_nodes d)) as [h'|] eqn:E; [|done].
  injection H as <-. exact (grown_trans _ _ _ G (grown_upd f i _ _ Hf E)).
Qed.

Lemma upd_attr_grows f i d : grows d -> yields (upd_attr f i d) grows.
Proof. intros G d' H. unfold upd_attr in H. destruct (d_attrs d !! i); [|done]. by injection H as <-. Qed.

Lemma on_attr_grows f i d : grows d -> yields (on_attr f i d) grows2.
Proof.
  intros G [s d'] H. unfold on_attr in H. destruct (d_attrs d !! i) as [a|]; [|done]. cbn in H. destruct (f a). by injection H as _ <-.
Qed.

Lemma destroy_attr_grows i d : grows d -> yields (lxb_dom_attr_interface_destroy i d) grows.
Proof. intros G d' H. unfold lxb_dom_attr_interface_destroy in H. destruct (d_attrs d !! i); [|done]. by injection H as <-. Qed.

Lemma before_grows before attr d : grows d -> yields (before_append before attr d) grows2.
Proof.
  intros G [s d'] H. unfold before_append in H. destruct before as [f|]; [|by injection H as _ <-].
  destruct (d_attrs d !! attr) as [a|]; [|done]. cbn in H. destruct (f a) as [[s' a']|]; [|done]. by injection H as _ <-.
Qed.
End Grown.

Create HintDb grows discriminated.
#[export] Hint Resolve element_grows upd_attr_grows on_attr_grows destroy_attr_grows before_grows : grows.

Ltac grows1 :=
  lazymatch goal with
  | |- forall _ : _ * _, _ => intros [? ?]
  | |- forall _, _ => intros ?
  | H : grows2 _ (_, _) |- _ => unfold grows2 in H; cbn [snd] in H
  | |- yields None _ => intros ? [=]
  | |- yields (Some _) _ => apply yields_some; unfold grows2; cbn [snd]; first [done | assumption]
  | |- yields (?x ≫= _) _ =>
      lazymatch x with
      | match ?v with _ => _ end => destruct v
      | Some _ => cbn [mbind option_bind]
      | _ => eapply yields_bind; [first [solve [eauto with grows] | apply yields_any]|]
      end
  | |- yields (let '(_, _) := ?x in _) _ => destruct x eqn:?
  | |- yields (if ?b then _ else _) _ => destruct b
  | |- yields (match ?o with _ => _ end) _ => destruct o
  | |- yields _ _ => solve [eauto with grows]
  end.
Ltac grows := repeat grows1.

Lemma append_grows h e a d : grows h d -> yields (lxb_dom_element_attr_append d e a) (grows2 h).
Proof.
  intros G. unfold lxb_dom_element_attr_append.
  do 2 (eapply yields_bind; [apply yields_any | intros]). destruct (at_name _) as [name|]; [|by apply yields_some].
  apply (yields_bind _ _ (grows h)); [grows|]. intros d1 G1. grows.
Qed.
#[export] Hint Resolve append_grows : grows.

Lemma attributes_grows h nodes byte alloc before l : forall p e ns d, grows h d ->
  yields (append_attributes_loop nodes byte alloc before l p e ns d) (grows2 h).
Proof.
  induction l as [|x l IH]; intros p e ns d G; cbn [append_attributes_loop]; [by apply yields_some|].
  eapply yields_bind; [apply yields_any|]. intros [[[p' s] name] value] _.
  destruct (negb _); [by apply yields_some|]. do 2 (eapply yields_bind; [apply yields_any|]; intros ? _).
  destruct (_ : option positive); [by apply IH|]. unfold lxb_dom_attr_interface_create. cbn zeta.
  set (d1 := with_dom_attrs _ _). assert (G1 : grows h d1) by exact G. clearbody d1. grows; by apply IH.
Qed.

Lemma from_element_grows h alloc before fuel : forall attr e d, grows h d ->
  yields (append_from_element_loop alloc before fuel attr e d) (grows2 h).
Proof.
  induction fuel as [|fuel IH]; intros [attr|] e d G; cbn [append_from_element_loop]; try (by apply yields_some); [by intros ? [=]|].
  unfold lxb_dom_attr_interface_create. cbn zeta.
  set (d1 := with_dom_attrs _ _). assert (G1 : grows h d1) by exact G. clearbody d1. grows; by apply IH.
Qed.

Lemma destroy_attrs_grows h fuel : forall attr d, grows h d -> yields (destroy_attrs fuel attr d) (grows h).
Proof.
  induction fuel as [|fuel IH]; intros [attr|] d G; cbn [destroy_attrs]; try (by apply yields_some); [by intros ? [=]|].
  grows; by apply IH.
Qed.

(** ** The states that an operation leads to while nothing is linked *)

(** More nodes, more contents of templates. *)
Record extends (t t' : html_tree) : Prop := {
  ex_state : t' = set_content (t_content t') (set_dom (t_dom t') t);
  ex_heap : grown (heap t) (heap t');
  ex_content i c : t_content t' !! i = Some c -> t_content t !! i = Some c \/ live c t'
}.

Lemma extends_refl t : extends t t.
Proof. split; [by destruct t | apply grown_refl | by left]. Qed.

Lemma extends_trans t1 t2 t3 : extends t1 t2 -> extends t2 t3 -> extends t1 t3.
Proof.
  intros [S1 H1 C1] [S2 H2 C2]. split; [by rewrite S2, S1 | by eapply grown_trans|].
  intros i c Hc. destruct (C2 i c Hc) as [Hc2|]; [|by right]. destruct (C1 i c Hc2) as [|Hl]; [by left | right].
  by eapply grown_alive.
Qed.

Lemma extends_dom t d : grown (heap t) (d_nodes d) -> extends t (set_dom d t).
Proof. intros G. split; [by destruct t | exact G | by left]. Qed.

Record sound `{TreeAlloc} (t : html_tree) : Prop := {
  so_links : links (heap t);
  so_open i : Some i ∈ open_list t -> live i t;
  so_fmt i : Some i ∈ fmt_list t -> i = marker \/ live i t;
  so_document : live (t_document t) t;
  so_element i : t_element t = Some i -> live i t;
  so_head i : t_head t = Some i -> live i t;
  so_body i : t_body t = Some i -> live i t;
  so_doctype i : t_doctype t = Some i -> live i t;
  so_form i : t_form t = Some i -> live i t;
  so_content i c : t_content t !! i = Some c -> live c t
}.

Section Sound.
Context `{TreeAlloc} `{TokenBuffers} {TL : TreeAllocLaws}.

(** The same fields, over a heap with the live nodes of the old one. *)
Lemma sound_over t t' : sound t -> t' = set_content (t_content t') (set_dom (t_dom t') t) -> links (heap t') ->
  (forall i, live i t -> live i t') -> (forall i c, t_content t' !! i = Some c -> live c t') -> sound t'.
Proof.
  intros [S1 S2 S3 S4 S5 S6 S7 S8 S9 S10] E L Hl Hc.
  assert (open_list t' = open_list t /\ fmt_list t' = fmt_list t /\ t_document t' = t_document t /\ t_element t' = t_element t /\
    t_head t' = t_head t /\ t_body t' = t_body t /\ t_doctype t' = t_doctype t /\ t_form t' = t_form t)
    as (E1 & E2 & E3 & E4 & E5 & E6 & E7 & E8) by (by rewrite E).
  split; rewrite ?E1, ?E2, ?E3, ?E4, ?E5, ?E6, ?E7, ?E8; auto.
  intros i Hi. destruct (S3 i Hi); auto.
Qed.

Lemma sound_extends t t' : sound t -> extends t t' -> sound t'.
Proof.
  intros S [E G C]. apply (sound_over t); try done.
  - eapply grown_links; [exact G | apply S].
  - intros i. by apply grown_alive.
  - intros i c Hc. destruct (C i c Hc) as [Hc'|]; [|done]. eapply grown_alive; [exact G | by apply (so_content t S i)].
Qed.

(** Relinking the nodes of the heap. *)
Lemma sound_relink t h : sound t -> links h -> same_alive (heap t) h -> sound (set_dom (with_nodes h (t_dom t)) t).
Proof.
  intros S L A. apply (sound_over t (set_dom (with_nodes h (t_dom t)) t) S eq_refl L).
  - intros i. apply A.
  - intros i c Hc. apply A. by apply (so_content t S i).
Qed.

Lemma sound_minor t t' : minor t t' -> sound t -> sound t'.
Proof. destruct 1; intros []; by split. Qed.

Lemma sound_fewer t t' : fewer t t' -> sound t -> sound t'.
Proof.
  intros (a & b & m & e & v & -> & [Ha _] & Hb) [S1 S2 S3 S4 S5 S6 S7 S8 S9 S10]. split; try done; cbn.
  - intros i Hi. apply S2. by eapply sublist_subseteq.
  - intros i Hi. by apply S3, Hb.
Qed.

(** ** Operations on the document *)

Lemma extends_on_dom {A} t0 (f : dom -> option (A * dom)) : (forall d, yields (f d) (fun r => grown (d_nodes d) (d_nodes (snd r)))) ->
  post (extends t0) (on_dom f) (fun _ => extends t0).
Proof.
  intros Hf. apply post_on_dom. intros t a d Ht E. eapply extends_trans; [exact Ht|]. apply extends_dom.
  exact (Hf _ _ E).
Qed.

Lemma extends_on_node t0 f i : (forall n, pointers (f n) = pointers n) -> post (extends t0) (on_node f i) (fun _ => extends t0).
Proof.
  intros Hf. apply extends_on_dom. intros d. eapply yields_bind; [apply element_grows; [apply grown_refl | exact Hf]|].
  intros d' G. by apply yields_some.
Qed.

(** A new node, in no tree. *)
Definition made (t0 : html_tree) (o : option positive) (t : html_tree) : Prop :=
  match o with Some e => extends t0 t /\ heap t0 !! e = None /\ live e t | None => True end.

Lemma made_calloc t0 : post (extends t0) calloc_node (made t0).
Proof.
  intros t o t' Ht E. unfold calloc_node, on_dom in E. destruct (new_node (d_nodes (t_dom t))) as [i|] eqn:En; [|by injection E as <- <-].
  injection E as <- <-. apply new_node_fresh in En.
  assert (Hx : extends t (set_dom (with_nodes (<[i := node_zero]> (d_nodes (t_dom t))) (t_dom t)) t)) by (by apply extends_dom, grown_new).
  split; [by eapply extends_trans|]. split; [|unfold live, heap; cbn; by rewrite lookup_insert_eq].
  destruct (heap t0 !! i) eqn:E0; [|done]. pose proof (grown_alive _ _ i (ex_heap _ _ Ht) (ex_intro _ _ E0)) as [n Hn].
  unfold heap in Hn. congruence.
Qed.

Lemma made_keeps {A} t0 e (x : M A) : (forall t1, post (extends t1) x (fun _ => extends t1)) ->
  post (made t0 (Some e)) x (fun _ => made t0 (Some e)).
Proof.
  intros Hx t a t' (Ht & Hf & He) E. pose proof (Hx t t a t' (extends_refl t) E) as Ht'.
  split; [by eapply extends_trans | split; [done|]]. eapply grown_alive; [apply Ht' | exact He].
Qed.

Lemma made_none {A} t0 (x : M A) : post (made t0 None) x (fun _ => made t0 None).
Proof. by intros t a t'. Qed.

Lemma made_create t0 tag ns : post (extends t0) (lxb_html_interface_create tag ns) (made t0).
Proof.
  unfold lxb_html_interface_create. cbn zeta. destruct (_ && _); [apply post_fault|].
  eapply post_bind; [apply made_calloc|]. intros [i|]; [|by apply post_ret].
  apply (post_bind _ _ _ (fun _ => made t0 (Some i))); [by apply made_keeps; intros t1; apply extends_on_node | intros _].
  apply (post_bind _ _ _ (fun _ => made t0 (Some i))); [|intros _].
  - destruct (is_template tag ns); [|by apply post_ret]. apply made_keeps. intros t1.
    eapply post_bind; [apply made_calloc|]. intros [c|]; [|apply post_fault].
    apply (post_bind _ _ _ (fun _ => made t1 (Some c))); [by apply made_keeps; intros t2; apply extends_on_node | intros _].
    apply post_put. intros t (Ht & _ & Hc). eapply extends_trans; [exact Ht|]. split; [by destruct t | apply grown_refl|].
    intros j c'. cbn. destruct (decide (i = j)) as [<-|Hj]; [rewrite lookup_insert_eq; intros [= <-]; by right | rewrite lookup_insert_ne by done; by left].
  - apply (post_bind _ _ _ (fun _ => made t0 (Some i))); [by apply made_keeps; intros t1; apply extends_on_node | intros _].
    by apply post_ret.
Qed.

Lemma extends_append t0 e k ns : post (extends t0) (append_attributes e k ns) (fun _ => extends t0).
Proof.
  apply post_get. intros before. eapply post_weaken; [apply extends_on_dom | by intros t [Ht _]; exact Ht | done].
  intros d. unfold lxb_html_tree_append_attributes. apply attributes_grows, grown_refl.
Qed.

Lemma extends_append_from t0 e from : post (extends t0) (append_attributes_from_element e from) (fun _ => extends t0).
Proof.
  apply post_get. intros before. eapply post_weaken; [apply extends_on_dom | by intros t [Ht _]; exact Ht | done].
  intros d. eapply yields_bind; [apply yields_any|]. intros el _. apply from_element_grows, grown_refl.
Qed.

Lemma destroy_none i t o t' : lxb_html_interface_destroy i t = Some (o, t') -> o = None.
Proof.
  intros E. apply (post_bind (fun _ => True) (node (Some i)) _ (fun _ _ => True) (fun o _ => o = None)) in E; [exact E | done | | done].
  intros n. by apply (post_bind _ _ _ (fun _ _ => True)); [|intros _; apply post_ret].
Qed.

Lemma made_element t0 k ns : post (extends t0) (lxb_html_tree_create_element_for_token k ns) (made t0).
Proof.
  eapply post_bind; [apply made_create|]. intros [i|]; [|by apply post_ret].
  apply (post_bind _ _ _ (fun _ => made t0 (Some i))).
  { apply made_keeps. intros t1. destruct (tok_base_element k); [apply extends_append | apply extends_append_from | apply extends_append]. }
  intros s. destruct (negb _); [by intros t o t' _ E; apply destroy_none in E as ->|].
  apply (post_bind _ _ _ (fun _ => made t0 (Some i))); [by apply made_keeps; intros t1; apply extends_on_node | intros _].
  by apply post_ret.
Qed.
(** ** The place of a node *)

(** A place before a node is among the children of its parent. *)
Definition placed (pos : option positive) (ipos : insertion_position) (t : html_tree) : Prop :=
  ipos = LXB_HTML_TREE_INSERTION_POSITION_BEFORE -> exists p, pos = Some p /\ pa (heap t) p <> None.

Lemma search_down_found test l n i : search_down test l n = Some (Some i) -> exists p, l !! i = Some p /\ test p = Some true.
Proof.
  induction n as [|n IH]; [done|]. cbn [search_down]. destruct (l !! n) as [p|] eqn:Ep; [|done]. cbn [mbind option_bind].
  destruct (test p) as [[]|] eqn:Et; [|exact IH|done]. intros [= <-]. by exists p.
Qed.

Lemma find_reverse_tag t tag ns p idx : lxb_html_tree_open_elements_find_reverse t tag ns = Some (Some p, idx) ->
  exists n, heap t !! p = Some n /\ nd_tag n = tag /\ nd_ns n = ns.
Proof.
  unfold lxb_html_tree_open_elements_find_reverse, found_node. destruct (search_down _ _ _) as [[i|]|] eqn:E; [|done..].
  apply search_down_found in E as (q & Hq & Ht). cbn [mbind option_bind]. rewrite Hq. cbn. intros [= -> ->].
  unfold tag_test in Ht. cbn in Ht. unfold heap. destruct (d_nodes (t_dom t) !! p) as [n|]; [|done]. injection Ht as Ht.
  exists n. unfold node_is in Ht. split; [done|]. lia.
Qed.

Definition at_place (t0 : html_tree) (r : option positive * insertion_position) (t : html_tree) : Prop :=
  t = t0 /\ placed (fst r) (snd r) t0.

(** A computation that only reads. *)
Definition reads {A} (x : M A) : Prop := forall t a t', x t = Some (a, t') -> t' = t.

Lemma reads_ret {A} (a : A) : reads (mret a).
Proof. by intros t b t' [= _ <-]. Qed.
Lemma reads_get {A} (f : html_tree -> A) : reads (get f).
Proof. by intros t b t' [= _ <-]. Qed.
Lemma reads_getO {A} (f : html_tree -> option A) : reads (getO f).
Proof. intros t b t' E. unfold getO in E. destruct (f t); [|done]. by injection E as _ <-. Qed.
Lemma reads_bind {A B} (x : M A) (f : A -> M B) : reads x -> (forall a, reads (f a)) -> reads (x ≫= f).
Proof.
  intros Hx Hf t b t' E. unfold mbind, M_bind in E. destruct (x t) as [[a t1]|] eqn:Ex; [|done].
  rewrite (Hf a t1 b t' E). by apply (Hx t a).
Qed.

Lemma post_reads {A B} P (x : M A) (f : A -> M B) Q : reads x -> (forall a, post P (f a) Q) -> post P (x ≫= f) Q.
Proof. intros Hx Hf. apply (post_bind _ _ _ (fun _ => P)); [|exact Hf]. intros t a t' Ht E. by rewrite (Hx t a t' E). Qed.

Ltac reads :=
  repeat lazymatch goal with
  | |- forall _, _ => intros ?
  | |- reads (mret _) => apply reads_ret
  | |- reads (get _) => apply reads_get
  | |- reads (getO _) => apply reads_getO
  | |- reads (_ ≫= _) => apply reads_bind
  | |- reads (if ?b then _ else _) => destruct b
  | |- reads (match ?o with _ => _ end) => destruct o
  | |- reads ?x => let h := head_of x in unfold h
  end.

(** The last steps, for a place that is a child. *)
Lemma finish_ok (P : html_tree -> Prop) t0 p : (forall t, P t -> t0 = t) ->
  post P (match p with
          | Some _ =>
              template ← is_node p LXB_TAG_TEMPLATE;
              if (template : bool) then c ← content_of p; mret (c, LXB_HTML_TREE_INSERTION_POSITION_CHILD)
              else mret (p, LXB_HTML_TREE_INSERTION_POSITION_CHILD)
          | None => mret (None, LXB_HTML_TREE_INSERTION_POSITION_CHILD)
          end) (at_place t0).
Proof.
  intros HP. assert (Hchild : forall q, post P (mret (q, LXB_HTML_TREE_INSERTION_POSITION_CHILD)) (at_place t0)).
  { intros q. apply post_ret. intros t Ht. by rewrite <- (HP t Ht). }
  destruct p as [p|]; [|apply Hchild]. apply post_reads; [reads|]. intros [|]; [|apply Hchild].
  apply post_reads; [reads|]. intros c. apply Hchild.
Qed.

Lemma place_ok t0 o : post (eq t0) (lxb_html_tree_appropriate_place_inserting_node o) (at_place t0).
Proof.
  assert (Hcontent : forall (P : html_tree -> Prop) q, (forall t, P t -> t0 = t) ->
    post P (c ← content_of q; mret (c, LXB_HTML_TREE_INSERTION_POSITION_CHILD)) (at_place t0)).
  { intros P q HP. apply post_reads; [reads|]. intros c. apply post_ret. intros t Ht. by rewrite <- (HP t Ht). }
  unfold lxb_html_tree_appropriate_place_inserting_node. do 3 (apply post_reads; [reads | intros ?]).
  destruct (_ : bool); [|by apply finish_ok]. apply post_reads; [reads|]. intros [temp temp_idx]. apply post_getO. intros [table table_idx].
  assert (Htable : forall table, post (fun t => t0 = t /\ lxb_html_tree_open_elements_find_reverse t LXB_TAG_TABLE LXB_NS_HTML = Some (Some table, table_idx))
    (n ← node (Some table);
     match nd_parent n with
     | Some _ =>
         template ← is_node (Some table) LXB_TAG_TEMPLATE;
         if (template : bool) then c ← content_of (Some table); mret (c, LXB_HTML_TREE_INSERTION_POSITION_BEFORE)
         else mret (Some table, LXB_HTML_TREE_INSERTION_POSITION_BEFORE)
     | None =>
         p ← get (fun t => lxb_html_tree_open_elements_get t (size_wrap (Z.of_nat table_idx - 1)));
         match p with
         | Some _ =>
             template ← is_node p LXB_TAG_TEMPLATE;
             if (template : bool) then c ← content_of p; mret (c, LXB_HTML_TREE_INSERTION_POSITION_CHILD)
             else mret (p, LXB_HTML_TREE_INSERTION_POSITION_CHILD)
         | None => mret (None, LXB_HTML_TREE_INSERTION_POSITION_CHILD)
         end
     end) (at_place t0)).
  { intros i. apply post_getO. intros n. destruct (nd_parent n) eqn:En; [|apply post_reads; [reads|]; intros q; by apply finish_ok; intros t [[Ht _] _]].
    intros t r t' [[<- Hf] Hn] E. apply find_reverse_tag in Hf as (n' & Hn' & Htag & Hns). unfold heap in Hn'. cbn in Hn.
    assert (n' = n) as -> by congruence. unfold is_node, node, getO, mbind, M_bind, mret, M_ret in E. cbn in E. rewrite Hn in E. cbn in E.
    unfold lxb_html_tree_node_is, node_is in E. rewrite Htag, Hns in E. injection E as <- <-. split; [done|]. intros _. exists i.
    split; [done|]. unfold pa, heap. rewrite Hn. cbn. by rewrite En. }
  destruct temp as [temp|], table as [table|]; [|by apply Hcontent; intros t [Ht _] | apply Htable | apply post_reads; [reads|]; intros q; by apply finish_ok; intros t [Ht _]].
  cbn [andb]. destruct (_ <? _)%nat; [by apply Hcontent; intros t [Ht _] | apply Htable].
Qed.
(** ** Linking a node *)

Lemma post_from {A} (P : html_tree -> Prop) (x : M A) Q : (forall t0, P t0 -> post (eq t0) x Q) -> post P x Q.
Proof. intros Hx t a t' Ht E. by apply (Hx t Ht t a t'). Qed.

Lemma on_nodes_ok (P : html_tree -> Prop) f (Q : html_tree -> Prop) :
  (forall t h, P t -> f (heap t) = Some h -> Q (set_dom (with_nodes h (t_dom t)) t)) -> post P (on_nodes f) (fun _ => Q).
Proof.
  intros Hf t a t' Ht E. unfold on_nodes, on_dom in E. specialize (Hf t). unfold heap in Hf.
  destruct (f (d_nodes (t_dom t))) as [h|] eqn:Eh; [|done]. injection E as _ <-. by apply Hf.
Qed.

Lemma insert_ok p e ipos : post (fun t => sound t /\ detached (heap t) e /\ placed (Some p) ipos t)
  (lxb_html_tree_insert_node p e ipos) (fun _ t => sound t /\ live e t).
Proof.
  apply on_nodes_ok. intros t h (S & D & Hp) E. destruct ipos.
  - pose proof (insert_child_points _ _ _ _ E) as [A _]. split; [|apply A, D].
    apply sound_relink; [done | | exact A]. eapply insert_child_links; [apply S | exact D | exact E].
  - destruct (Hp eq_refl) as (q & [= <-] & Hq). pose proof (insert_before_points _ _ _ _ E) as [A _]. split; [|apply A, D].
    apply sound_relink; [done | | exact A]. eapply insert_before_links; [apply S | exact D | exact Hq | exact E].
Qed.

Lemma remove_ok p : post sound (on_nodes (fun h => lxb_dom_node_remove h p)) (fun _ t => sound t /\ detached (heap t) p).
Proof.
  apply on_nodes_ok. intros t h S E. pose proof (remove_points _ _ _ E) as [A _].
  split; [|exact (remove_detached _ _ _ E)]. apply sound_relink; [done | | exact A]. eapply remove_links; [apply S | exact E].
Qed.

Lemma made_detached t0 e t : made t0 (Some e) t -> detached (heap t) e.
Proof.
  intros (X & Hn & [n He]). split; [by exists n|]. rewrite (po_parent _ _ _ _ _ _ (grown_points _ _ (ex_heap _ _ X))). unfold pa. by rewrite Hn.
Qed.

Lemma made_placed t0 e t pos ipos : made t0 (Some e) t -> placed pos ipos t0 -> placed pos ipos t.
Proof.
  intros (X & _) Hp Hb. destruct (Hp Hb) as (p & E & Hpa). exists p. split; [done|].
  by rewrite (po_parent _ _ _ _ _ _ (grown_points _ _ (ex_heap _ _ X))).
Qed.

Lemma insert_made t0 e pos ipos : sound t0 -> placed pos ipos t0 ->
  post (made t0 (Some e)) (match pos with Some p => lxb_html_tree_insert_node p e ipos | None => nothing end) (fun _ t => sound t /\ live e t).
Proof.
  intros S Hp. destruct pos as [p|].
  - eapply post_weaken; [apply insert_ok | | done]. intros t Hm. split; [eapply sound_extends; [exact S | apply Hm]|].
    split; [by eapply made_detached | by eapply made_placed].
  - apply post_ret. intros t Hm. split; [eapply sound_extends; [exact S | apply Hm] | apply Hm].
Qed.

(** ** The stacks *)

Lemma sound_open t a : sound t -> (forall i, Some i ∈ ar_items a -> live i t) -> sound (set_open a t).
Proof. intros [] Ha. by split. Qed.

Lemma sound_fmt t a : sound t -> (forall i, Some i ∈ ar_items a -> i = marker \/ live i t) -> sound (set_formatting a t).
Proof. intros [] Ha. by split. Qed.

Lemma array_push_items a v s a' : lexbor_array_push given a v = (s, a') -> ar_items a' = ar_items a \/ ar_items a' = ar_items a ++ [v].
Proof.
  unfold lexbor_array_push, lexbor_array_expand. repeat case_match; intros [= <- <-]; simplify_eq/=; auto.
Qed.

Lemma push_sound e : post (fun t => sound t /\ live e t) (lxb_html_tree_open_elements_push (Some e)) (fun _ t => sound t /\ live e t).
Proof.
  intros t s t' [S He] E. unfold lxb_html_tree_open_elements_push in E. destruct (lexbor_array_push _ _ _) as [s' a] eqn:Ea.
  injection E as <- <-. apply array_push_items in Ea. split; [|done]. apply sound_open; [done|]. intros i Hi.
  destruct Ea as [Ea|Ea]; rewrite Ea in Hi; [by apply (so_open t S)|].
  apply elem_of_app in Hi as [Hi|Hi]; [by apply (so_open t S) | by apply list_elem_of_singleton in Hi as [= ->]].
Qed.

(** A new element, in its place and on the stack; or a failure. *)
Definition linked (o : option positive) (t : html_tree) : Prop := some_or sound (fun _ => True) live o t.

Lemma insert_foreign_ok k ns : post sound (lxb_html_tree_insert_foreign_element k ns) linked.
Proof.
  apply post_from. intros t0 S. eapply post_bind; [apply place_ok|]. intros [pos ipos].
  apply (post_weaken _ (fun t => t = t0 /\ placed pos ipos t0) _ _ linked); [|done..].
  apply post_reads; [destruct ipos; reads|]. intros _.
  apply post_from. intros t1 [-> Hp]. eapply post_bind; [eapply post_weaken; [apply (made_element t0) | intros t <-; apply extends_refl | intros o t Ho; exact Ho]|].
  intros [e|]; [|by apply post_ret].
  apply (post_bind _ _ _ (fun _ t => sound t /\ live e t)); [by apply (insert_made t0) | intros _].
  apply (post_bind _ _ _ (fun _ t => sound t /\ live e t)); [apply push_sound|]. intros s.
  destruct (negb _); [intros t o t' _ E; by apply destroy_none in E as -> | by apply post_ret].
Qed.
(** ** The list of active formatting elements *)

Lemma fmt_push_sound t e : sound t -> live e t -> sound (lxb_html_tree_active_formatting_push given t e).
Proof.
  intros S He. unfold lxb_html_tree_active_formatting_push. destruct (lexbor_array_push _ _ _) as [s a] eqn:Ea.
  apply array_push_items in Ea. apply sound_fmt; [done|]. intros i Hi. cbn in Hi.
  destruct Ea as [Ea|Ea]; rewrite Ea in Hi; [by apply (so_fmt t S)|].
  apply elem_of_app in Hi as [Hi|Hi]; [by apply (so_fmt t S) | apply list_elem_of_singleton in Hi as [= ->]; by right].
Qed.

Lemma formatting_ok e : post (fun t => sound t /\ live e t) (push_with_check_dupl e) (fun _ => sound).
Proof.
  apply post_putO. intros t t' [S He] E. unfold lxb_html_tree_active_formatting_push_with_check_dupl in E.
  destruct (dupl_loop _ _ _ _ _) as [[n idx]|]; [|done]. injection E as <-. case_match; apply fmt_push_sound; try done.
  eapply sound_fewer, S. apply fewer_remove_at.
Qed.

Lemma marker_ok : keeps sound push_marker.
Proof.
  intros t s t' S [= _ <-]. unfold lxb_html_tree_active_formatting_push_marker. destruct (lexbor_array_push _ _ _) as [s' a] eqn:Ea.
  apply array_push_items in Ea. apply sound_fmt; [done|]. intros i Hi. cbn in Hi.
  destruct Ea as [Ea|Ea]; rewrite Ea in Hi; [by apply (so_fmt t S)|].
  apply elem_of_app in Hi as [Hi|Hi]; [by apply (so_fmt t S) | apply list_elem_of_singleton in Hi as [= ->]; by left].
Qed.

Lemma store_items (l : list (option positive)) idx e i : Some i ∈ <[idx := Some e]> l -> i = e \/ Some i ∈ l.
Proof. intros [j Hj]%list_elem_of_lookup. apply list_lookup_insert_Some in Hj as [(_ & [= ->] & _)|[_ Hj]]; [by left | right; by eapply list_elem_of_lookup_2]. Qed.

Lemma store_fmt_ok (Q : html_tree -> Prop) idx e : (forall t, Q t -> sound t /\ live e t) -> (forall t a, Q t -> sound (set_formatting a t) -> Q (set_formatting a t)) ->
  post Q (store_fmt idx e) (fun _ => Q).
Proof.
  intros HQ Hs. apply post_put. intros t Ht. destruct (HQ t Ht) as [S He]. apply Hs; [done|]. apply sound_fmt; [done|].
  intros i Hi. apply store_items in Hi as [->|Hi]; [by right | by apply (so_fmt t S)].
Qed.

Lemma store_open_ok (Q : html_tree -> Prop) idx e : (forall t, Q t -> sound t /\ live e t) -> (forall t a, Q t -> sound (set_open a t) -> Q (set_open a t)) ->
  post Q (store_open idx e) (fun _ => Q).
Proof.
  intros HQ Hs. apply post_put. intros t Ht. destruct (HQ t Ht) as [S He]. apply Hs; [done|]. apply sound_open; [done|].
  intros i Hi. apply store_items in Hi as [->|Hi]; [done | by apply (so_open t S)].
Qed.

Definition ended (s : Z) (t : html_tree) : Prop := ok_or sound (fun _ => True) s t.

Lemma ended_sound s t : sound t -> ended s t.
Proof. intros S. unfold ended, ok_or. by destruct (_ =? _). Qed.

Lemma reopen_ok n : forall idx, post sound (reopen n idx) ended.
Proof.
  induction n as [|n IH]; intros idx; cbn [reopen]; [by apply post_ret|].
  do 2 (apply post_reads; [reads | intros ?]). apply post_reads; [reads|]. intros k.
  eapply post_bind; [apply insert_foreign_ok|]. intros [e|]; [|by apply post_ret].
  apply (post_bind _ _ _ (fun _ t => sound t /\ live e t)); [|intros _; eapply post_weaken; [apply IH | by intros t [] | done]].
  apply store_fmt_ok; [done | by intros t arr []].
Qed.

Lemma reconstruct_ok : post sound lxb_html_tree_active_formatting_reconstruct_elements ended.
Proof.
  unfold lxb_html_tree_active_formatting_reconstruct_elements. apply post_reads; [reads|]. intros [|idx]; [by apply post_ret|].
  apply post_reads; [reads|]. intros [|]; [by apply post_ret|]. apply post_reads; [reads | intros idx'; apply reopen_ok].
Qed.

Lemma array_insert_items a idx v s a' x : lexbor_array_insert given a idx v = (s, a') -> x ∈ ar_items a' ->
  x ∈ ar_items a \/ x = v \/ x = None.
Proof.
  assert (Hin : forall i, x ∈ take i (ar_items a) ++ v :: drop i (ar_items a) -> x ∈ ar_items a \/ x = v \/ x = None).
  { intros i. rewrite <- (take_drop i (ar_items a)) at 3. rewrite elem_of_app, elem_of_cons, elem_of_app. tauto. }
  assert (Hpad : x ∈ pad_to idx (ar_items a) ++ [v] -> x ∈ ar_items a \/ x = v \/ x = None).
  { unfold pad_to. rewrite !elem_of_app, list_elem_of_singleton. intros [[|Hr]|]; auto. apply elem_of_replicate in Hr as [-> _]. auto. }
  unfold lexbor_array_insert, lexbor_array_expand. repeat case_match; intros [= <- <-] Hx; simplify_eq/=; eauto.
Qed.

Lemma fmt_insert_ok e idx : post (fun t => sound t /\ live e t) (lxb_html_tree_active_formatting_insert (Some e) idx)
  (fun _ t => sound t /\ live e t).
Proof.
  intros t s t' [S He] E. unfold lxb_html_tree_active_formatting_insert in E. destruct (lexbor_array_insert _ _ _ _) as [s' a] eqn:Ea.
  injection E as <- <-. split; [|done]. apply sound_fmt; [done|]. intros i Hi.
  destruct (array_insert_items _ _ _ _ _ _ Ea Hi) as [Hx|[[= ->]|[=]]]; [by apply (so_fmt t S) | by right].
Qed.

Lemma open_insert_ok e idx : post (fun t => sound t /\ live e t) (lxb_html_tree_open_elements_insert_after (Some e) idx)
  (fun _ t => sound t /\ live e t).
Proof.
  intros t s t' [S He] E. unfold lxb_html_tree_open_elements_insert_after in E. destruct (lexbor_array_insert _ _ _ _) as [s' a] eqn:Ea.
  injection E as <- <-. split; [|done]. apply sound_open; [done|]. intros i Hi.
  destruct (array_insert_items _ _ _ _ _ _ Ea Hi) as [Hx|[[= ->]|[=]]]; [by apply (so_open t S) | done].
Qed.

Lemma fewer_live t t' e : fewer t t' -> sound t /\ live e t -> sound t' /\ live e t'.
Proof. intros F [S He]. split; [by eapply sound_fewer|]. by destruct F as (a & b & m & er & v & -> & _). Qed.

(** ** The adoption agency *)

Lemma detach_ok (Q : html_tree -> Prop) p : (forall t, Q t -> sound t) ->
  (forall t h, Q t -> sound (set_dom (with_nodes h (t_dom t)) t) -> same_alive (heap t) h -> Q (set_dom (with_nodes h (t_dom t)) t)) ->
  post Q (detach p) (fun _ t => Q t /\ detached (heap t) p).
Proof.
  intros HQ Hk. apply post_getO. intros n. destruct (nd_parent n) eqn:En.
  - apply on_nodes_ok. intros t h [Ht Hn] E. split; [|by eapply remove_detached].
    apply Hk; [done | | by eapply remove_points].
    apply sound_relink; [by apply HQ | eapply remove_links; [apply (HQ t Ht) | exact E] | by eapply remove_points].
  - apply post_ret. intros t [Ht Hn]. split; [done|]. cbn in Hn. unfold detached, pa, heap. rewrite Hn. cbn. by split.
Qed.

Definition ended_loop (r : inner_end) (t : html_tree) : Prop :=
  match r with inl _ => sound t | inr s => ended s t end.

Lemma inner_ok fe fb idx : forall counter last bookmark, post sound (inner_loop fe fb counter idx last bookmark) ended_loop.
Proof.
  induction idx as [|idx IH]; intros counter last bookmark; cbn [inner_loop]; [by apply post_ret; intros t; apply ended_sound|]. cbn zeta.
  do 2 (apply post_reads; [reads | intros ?]). destruct (bool_decide _); [by apply post_ret|].
  apply post_reads; [reads|]. intros [listed afe]. 
  assert (Hput : forall f (x : M inner_end), fewerO f -> post sound x ended_loop -> post sound (putO f;; x) ended_loop).
  { intros f x Hf Hx. apply (post_bind _ _ _ (fun _ => sound)); [|by intros _]. apply post_putO. intros t t' S E.
    eapply sound_fewer, S. by apply Hf. }
  destruct (_ && _); [apply Hput; [apply fewer_remove_fmt | apply IH]|].
  destruct (negb listed); [apply Hput; [apply fewer_remove_open | apply IH]|].
  apply post_reads; [reads|]. intros k. apply post_from. intros t0 S0.
  eapply post_bind; [eapply post_weaken; [apply (made_element t0) | intros t <-; apply extends_refl | intros o t Ho; exact Ho]|].
  intros [e|]; [|by apply post_ret].
  apply (post_weaken _ (fun t => sound t /\ live e t) _ _ ended_loop); [|intros t Hm; split; [by eapply sound_extends; [|apply Hm] | apply Hm] | done].
  apply (post_bind _ _ _ (fun _ t => sound t /\ live e t)); [apply store_fmt_ok; [done | by intros t arr []] | intros _].
  apply (post_bind _ _ _ (fun _ t => sound t /\ live e t)); [apply store_open_ok; [done | by intros t arr []] | intros _].
  apply (post_bind _ _ _ (fun _ t => (sound t /\ live e t) /\ detached (heap t) last)).
  { apply detach_ok; [by intros t [] | intros t h [S He] Sh A; split; [exact Sh | by apply A]]. }
  intros _. apply (post_bind _ _ _ (fun _ => sound)); [|intros _; apply IH].
  eapply post_weaken; [apply (insert_ok e last) | intros t [[S He] D]; split; [done | split; [done | done]] | by intros _ t []].
Qed.

(** The children of a node that is in no tree are moved to it. *)
Lemma move_ok n e : forall p, post (fun t => sound t /\ detached (heap t) e /\ p <> Some e) (move_children n p e)
  (fun _ t => sound t /\ detached (heap t) e).
Proof.
  induction n as [|n IH]; intros [p|]; cbn [move_children]; try apply post_fault; try (apply post_ret; by intros t (S & D & _)).
  apply post_getO. intros c.
  apply (post_bind _ _ _ (fun _ t => sound t /\ detached (heap t) e /\ nd_next c <> Some e /\ p <> e /\ detached (heap t) p)).
  { apply on_nodes_ok. intros t h ((S & [He D] & Hp) & Hc) E. pose proof (remove_points _ _ _ E) as (A & _ & P). split; [|split; [|split]].
    - apply sound_relink; [done | eapply remove_links; [apply S | exact E] | exact A].
    - split; [by apply A|]. cbn. rewrite (po_parent _ _ _ _ _ _ P). unfold set_at. by case_decide.
    - pose proof (not_next _ (so_links t S) e p D) as Hn. unfold nx, heap in Hn. cbn in Hc. by rewrite Hc in Hn.
    - split; [congruence | exact (remove_detached _ _ _ E)]. }
  intros _. apply (post_bind _ _ _ (fun _ t => sound t /\ detached (heap t) e /\ nd_next c <> Some e)); [|intros _; apply IH].
  apply on_nodes_ok. intros t h (S & [He D] & Hn & Hpe & Dp) E. pose proof (insert_child_points _ _ _ _ E) as (A & _ & P).
  split; [apply sound_relink; [done | eapply insert_child_links; [apply S | exact Dp | exact E] | exact A]|]. split; [|done].
  split; [by apply A|]. cbn. rewrite (po_parent _ _ _ _ _ _ P). unfold set_at. by case_decide.
Qed.

Definition ended_turn (r : bool * Z) (t : html_tree) : Prop := if fst r then sound t else ended (snd r) t.

Lemma fewer_keeps f : fewerO f -> post sound (putO f) (fun _ => sound).
Proof. intros Hf. apply post_putO. intros t t' S E. eapply sound_fewer, S. by apply Hf. Qed.

Lemma adopt_ok fe i fb ca last bookmark : post sound (adopt fe i fb ca last bookmark) ended_turn.
Proof.
  unfold adopt. apply (post_bind _ _ _ (fun _ t => sound t /\ detached (heap t) last)).
  { apply (detach_ok sound); [done | by intros t h _ Sh _]. }
  intros _. apply post_from. intros t0 [S0 D0]. eapply post_bind; [apply place_ok|]. intros [[pos|] ipos].
  2:{ apply post_ret. intros t [-> _]. by apply ended_sound. }
  apply (post_weaken _ (fun t => sound t /\ detached (heap t) last /\ placed (Some pos) ipos t) _ _ ended_turn); [|by intros t [-> Hp] | done].
  apply (post_bind _ _ _ (fun _ => sound)); [eapply post_weaken; [apply insert_ok | done | by intros _ t []] | intros _].
  apply post_reads; [reads|]. intros k. clear t0 S0 D0. apply post_from. intros t0 S0.
  eapply post_bind; [eapply post_weaken; [apply (made_element t0) | intros t <-; apply extends_refl | intros o t Ho; exact Ho]|].
  intros [e|]; [|by apply post_ret].
  apply (post_weaken _ (fun t => sound t /\ detached (heap t) e) _ _ ended_turn);
    [|intros t Hm; split; [by eapply sound_extends; [|apply Hm] | by eapply made_detached] | done].
  apply post_getO. intros b. apply post_reads; [reads|]. intros h.
  apply (post_bind _ _ _ (fun _ t => sound t /\ detached (heap t) e)).
  { eapply post_weaken; [apply move_ok | | done]. intros t [[S D] Hb]. split; [done|]. split; [done|].
    pose proof (not_first _ (so_links t S) e fb (proj2 D)) as Hf. unfold fs, heap in Hf. cbn in Hb. by rewrite Hb in Hf. }
  intros _. apply (post_bind _ _ _ (fun _ t => sound t /\ live e t)).
  { eapply post_weaken; [apply (insert_ok fb e) | by intros t [S D] | done]. }
  intros _. apply (post_bind _ _ _ (fun _ t => sound t /\ live e t)).
  { apply post_put. intros t Ht. by eapply fewer_live; [apply fewer_remove_at|]. }
  intros _. apply post_reads; [reads|]. intros len.
  eapply post_bind; [apply fmt_insert_ok|]. intros s. destruct (s =? LXB_STATUS_OK) eqn:Es; cbn [negb];
    [|apply post_ret; intros t _; unfold ended_turn, ended, ok_or; cbn; by rewrite Es].
  apply (post_bind _ _ _ (fun _ t => sound t /\ live e t)).
  { apply post_putO. intros t t' Ht E. by eapply fewer_live; [apply (fewer_remove_open fe)|]. }
  intros _. apply post_reads; [reads|]. intros [found idx].
  eapply post_bind; [apply open_insert_ok|]. intros s'. apply post_ret. intros t [S _]. unfold ended_turn. cbn.
  destruct (s' =? _); [done | by apply ended_sound].
Qed.

Lemma outer_ok n subject sizes : post sound (outer_loop n subject sizes) (fun r : bool * Z => ended (snd r)).
Proof.
  induction n as [|n IH]; cbn [outer_loop]; [apply post_ret; intros t; apply ended_sound|].
  apply post_reads; [reads|]. intros now. destruct (bool_decide _); [apply post_fault|].
  assert (Hmret : forall b s, post sound (mret (b, s)) (fun r : bool * Z => ended (snd r))) by (intros b s; apply post_ret; intros t; apply ended_sound).
  assert (Herror : forall x : M (bool * Z), post sound x (fun r : bool * Z => ended (snd r)) -> post sound (parse_error;; x) (fun r : bool * Z => ended (snd r))).
  { intros x Hx. apply (post_bind _ _ _ (fun _ => sound)); [|by intros _]. apply post_put. intros t. apply sound_minor. constructor. }
  assert (Hfewer : forall f (x : M (bool * Z)), fewerO f -> post sound x (fun r : bool * Z => ended (snd r)) -> post sound (putO f;; x) (fun r : bool * Z => ended (snd r))).
  { intros f x Hf Hx. apply (post_bind _ _ _ (fun _ => sound)); [by apply fewer_keeps | by intros _]. }
  apply post_reads; [reads|]. intros [[fe fi]|]; [|apply Hmret].
  apply post_reads; [reads|]. intros [opened oi]. destruct (negb opened); [apply Herror, Hfewer; [apply fewer_remove_fmt | apply Hmret]|].
  apply post_reads; [reads|]. intros [scope|]; [|apply Herror, Hmret].
  apply post_reads; [reads|]. intros current. apply (post_bind _ _ _ (fun _ => sound)).
  { destruct (bool_decide _); [|by apply post_ret]. apply post_put. intros t. apply sound_minor. constructor. }
  intros _. apply post_reads; [reads|]. intros [block|].
  2:{ apply Hfewer; [apply fewer_pop_node|]. apply Hfewer; [apply fewer_remove_fmt | apply Hmret]. }
  do 2 (apply post_reads; [reads | intros ?]). eapply post_bind; [apply inner_ok|].
  intros [[last bookmark]|s]; [|by apply post_ret].
  eapply post_bind; [apply adopt_ok|]. intros [[|] s]; [exact IH | by apply post_ret].
Qed.

Lemma adoption_ok k : post sound (lxb_html_tree_adoption_agency_algorithm k) (fun r : bool * Z => ended (snd r)).
Proof.
  unfold lxb_html_tree_adoption_agency_algorithm. cbn zeta. do 4 (apply post_reads; [reads | intros ?]).
  destruct (_ : bool); [|apply outer_ok]. apply (post_bind _ _ _ (fun _ => sound)); [|intros _; apply post_ret; intros t; apply ended_sound].
  apply post_put. intros t. apply sound_fewer, fewer_pop.
Qed.

(** ** Comments, characters, document types *)

Lemma comment_ok k pos : post sound (lxb_html_tree_insert_comment k pos) linked.
Proof.
  apply post_from. intros t0 S.
  apply (post_bind _ _ _ (fun r t => t = t0 /\ placed (fst r) (snd r) t0)).
  { destruct pos as [p|]; [by apply post_ret; intros t <- | apply place_ok]. }
  intros [p ipos]. apply post_reads; [reads|]. intros n. apply post_from. intros t1 [-> Hp].
  eapply post_bind; [eapply post_weaken; [apply (made_create t0) | intros t <-; apply extends_refl | intros o t Ho; exact Ho]|].
  intros [c|]; [|by apply post_ret]. destruct p as [p|]; [|by apply post_ret].
  apply post_reads; [reads|]. intros [s str]. destruct (negb _).
  { intros t o t' _ E. unfold mbind, M_bind in E. destruct (free_node c t) as [[u t2]|]; [|done]. by injection E as <- <-. }
  apply (post_bind _ _ _ (fun _ => made t0 (Some c))); [by apply made_keeps; intros t1; apply extends_on_node | intros _].
  apply (post_bind _ _ _ (fun _ t => sound t /\ live c t)); [by apply (insert_made t0 c (Some p)) | intros _; by apply post_ret].
Qed.

Lemma characters_ok str : post sound (lxb_html_tree_insert_character_for_data str) (fun r : Z * option positive => ended (fst r)).
Proof.
  apply post_from. intros t0 S. eapply post_bind; [apply place_ok|]. intros [[p|] ipos]; [|by apply post_ret].
  apply post_reads; [reads|]. intros n. destruct (lxb_html_tree_node_is _ _); [apply post_ret; intros t [-> _]; by apply ended_sound|].
  cbn zeta. set (beside := match ipos with LXB_HTML_TREE_INSERTION_POSITION_CHILD => nd_last n | _ => nd_prev n end).
  apply post_reads; [destruct beside; reads|]. intros is_text.
  assert (Hnew : post (at_place t0 (Some p, ipos))
    (text ← lxb_html_tree_create_node LXB_TAG__TEXT LXB_NS_HTML;
     match text with
     | None => mret (LXB_STATUS_ERROR_MEMORY_ALLOCATION, None)
     | Some text => on_node (set_nd_data str) text;; lxb_html_tree_insert_node p text ipos;; mret (LXB_STATUS_OK, Some text)
     end) (fun r : Z * option positive => ended (fst r))).
  { apply post_from. intros t1 [-> Hp].
    eapply post_bind; [eapply post_weaken; [apply (made_create t0) | intros t <-; apply extends_refl | intros o t Ho; exact Ho]|].
    intros [e|]; [|by apply post_ret].
    apply (post_bind _ _ _ (fun _ => made t0 (Some e))); [by apply made_keeps; intros t1; apply extends_on_node | intros _].
    apply (post_bind _ _ _ (fun _ t => sound t /\ live e t)); [by apply (insert_made t0 e (Some p))|].
    intros _. apply post_ret. intros t [St _]. by apply ended_sound. }
  destruct beside as [chrs|]; [|exact Hnew]. destruct is_text; [|exact Hnew].
  apply (post_bind _ _ _ (fun _ => extends t0)); [eapply post_weaken; [by apply extends_on_node | intros t [-> _]; apply extends_refl | done]|].
  intros _. apply post_ret. intros t X. apply ended_sound. by eapply sound_extends.
Qed.

#[local] Abbreviation good := (good sound (fun _ => True)).

(** A new node that is not linked yet. *)
Definition loose (e : positive) (t : html_tree) : Prop := sound t /\ live e t /\ detached (heap t) e.

Lemma made_loose t0 e t : sound t0 -> made t0 (Some e) t -> loose e t.
Proof. intros S Hm. split; [by eapply sound_extends; [|apply Hm]|]. split; [apply Hm | by eapply made_detached]. Qed.

(** The status of the builder is not what a mode that ends with a failure looks at. *)
Lemma good_fail {A} (P : html_tree -> Prop) (x : M A) : post P (x;; lxb_html_tree_process_abort) (kept_or_failed sound (fun _ => True)).
Proof.
  intros t b t' _ E. unfold mbind, M_bind in E. destruct (x t) as [[a t1]|]; [|done]. rewrite abort_is in E. injection E as <- <-.
  right. split; [done|]. split; [|done]. by destruct (t_status t1 =? LXB_STATUS_OK) eqn:Es; bool_to_prop.
Qed.

Lemma before_html_ok e : post (loose e) (lxb_html_tree_insertion_mode_before_html_html e) ended.
Proof.
  apply (post_bind _ _ _ (fun _ => loose e)).
  { intros t s t' (S & He & D) E. destruct (push_sound e t s t' (conj S He) E) as [S' He']. split; [done|]. split; [done|].
    unfold lxb_html_tree_open_elements_push in E. destruct (lexbor_array_push _ _ _). by injection E as _ <-. }
  intros s. destruct (s =? LXB_STATUS_OK) eqn:Es; cbn [negb]; [|apply post_ret; intros t _; unfold ended, ok_or; by rewrite Es].
  apply post_reads; [reads|]. intros document.
  apply (post_bind _ _ _ (fun _ t => sound t /\ live e t)); [eapply post_weaken; [apply (insert_ok document e) | by intros t (S & He & D) | done]|].
  intros _. apply (post_bind _ _ _ (fun _ => sound)); [|intros _; by apply post_ret].
  apply post_put. intros t [[] He]. split; try done. by intros i [= <-].
Qed.

Lemma html_ok s next : good next -> post (ended s) (check_status s next) (kept_or_failed sound (fun _ => True)).
Proof.
  intros Hk. unfold check_status, ended, ok_or. destruct (s =? LXB_STATUS_OK) eqn:Es; [|apply good_fail].
  apply (post_bind _ _ _ (fun _ => sound)); [|intros _; exact Hk]. apply post_put. intros t. apply sound_minor. constructor.
Qed.

Lemma good_put f next : (forall t, rtc minor t (f t)) -> good next -> good (put f;; next).
Proof.
  intros Hf Hk. apply (post_bind _ _ _ (fun _ => sound)); [|intros _; exact Hk]. apply post_put. intros t S.
  specialize (Hf t). induction Hf as [|t1 t2 t3 H12 _ IH]; [done|]. by eapply IH, sound_minor.
Qed.

Lemma html_made e next t0 : sound t0 -> good next ->
  post (made t0 (Some e)) (s ← lxb_html_tree_insertion_mode_before_html_html e; check_status s next) (kept_or_failed sound (fun _ => True)).
Proof.
  intros S Hk. eapply post_bind; [eapply post_weaken; [apply (before_html_ok e) | intros t; by apply made_loose | intros s t Hs; exact Hs]|].
  intros s. by apply html_ok.
Qed.

Lemma before_html_good : good lxb_html_tree_insertion_mode_before_html_anything_else.
Proof.
  apply post_from. intros t0 S.
  eapply post_bind; [eapply post_weaken; [apply (made_create t0) | intros t <-; apply extends_refl | intros o t Ho; exact Ho]|].
  intros [e|]; [|apply good_fail]. apply html_made; [done|]. apply good_put; [intros t; minors|]. apply post_ret. by left.
Qed.

Lemma html_start_good : good html_start.
Proof.
  apply post_reads; [reads|]. intros k. apply post_from. intros t0 S.
  eapply post_bind; [eapply post_weaken; [apply (made_element t0) | intros t <-; apply extends_refl | intros o t Ho; exact Ho]|].
  intros [e|]; [|apply good_fail]. apply html_made; [done|]. apply good_put; [intros t; minors|]. apply post_ret. by left.
Qed.

Lemma script_good : good lxb_html_tree_insertion_mode_in_head_script.
Proof.
  apply post_from. intros t0 S. eapply post_bind; [apply place_ok|]. intros [[p|] ipos]; [|apply good_fail].
  apply post_reads; [destruct ipos; reads|]. intros _. apply post_reads; [reads|]. intros k.
  apply post_from. intros t1 [-> Hp].
  eapply post_bind; [eapply post_weaken; [apply (made_element t0) | intros t <-; apply extends_refl | intros o t Ho; exact Ho]|].
  intros [e|]; [|apply good_fail].
  apply (post_weaken _ (fun t => loose e t /\ placed (Some p) ipos t) _ _ (kept_or_failed sound (fun _ => True)));
    [|intros t Hm; split; [by eapply made_loose | by eapply made_placed] | done].
  apply (post_bind _ _ _ (fun _ t => loose e t /\ placed (Some p) ipos t)).
  { intros t s t' [(St & He & D) Hpl] E. destruct (push_sound e t s t' (conj St He) E) as [S' He'].
    unfold lxb_html_tree_open_elements_push in E. destruct (lexbor_array_push _ _ _). by injection E as _ <-. }
  intros s. apply (post_bind _ _ _ (fun _ t => loose e t /\ placed (Some p) ipos t)).
  { apply post_put. intros t [(St & He & D) Hpl]. split; [|done]. split; [|done]. eapply sound_minor, St. constructor. }
  intros _. destruct (negb _); [apply good_fail|].
  apply (post_bind _ _ _ (fun _ => sound)); [eapply post_weaken; [apply insert_ok | by intros t [(St & He & D) Hpl] | by intros _ t []]|].
  intros _. do 4 (apply good_put; [intros t; minors|]). apply post_ret. by left.
Qed.

Lemma doctype_good : good lxb_html_tree_insertion_mode_initial_doctype.
Proof.
  apply post_reads; [reads|]. intros k. apply (post_bind _ _ _ (fun o t => match o with Some e => loose e t | None => True end)).
  { apply post_from. intros t0 S. unfold lxb_html_tree_create_document_type_from_token.
    eapply post_bind; [eapply post_weaken; [apply (made_create t0) | intros t <-; apply extends_refl | intros o t Ho; exact Ho]|].
    intros [e|]; [|by apply post_ret]. apply post_reads; [reads|]. intros [s strs]. destruct (negb _).
    { intros t o t' _ E. unfold mbind, M_bind in E. destruct (free_node e t) as [[u t2]|]; [|done]. by injection E as <- <-. }
    apply (post_bind _ _ _ (fun _ => loose e)); [|intros _; by apply post_ret].
    apply post_put. intros t Hm. destruct (made_loose _ _ _ S Hm) as ([] & He & D). split; [by split | done]. }
  intros [e|]; [|apply good_fail]. apply post_reads; [reads|]. intros strs. cbn zeta.
  assert (Hminor : forall f, (forall t, minor t (f t)) -> (forall t, heap (f t) = heap t) -> post (loose e) (put f) (fun _ => loose e)).
  { intros f Hf Hh. apply post_put. intros t (S & He & D). unfold loose, live. rewrite Hh. split; [by eapply sound_minor|]. done. }
  apply (post_bind _ _ _ (fun _ => loose e)); [destruct (_ || _); [by apply Hminor; [intros t; constructor|] | by apply post_ret]|].
  intros _. do 2 (apply post_reads; [reads | intros ?]).
  apply (post_bind _ _ _ (fun _ => loose e)).
  { destruct (lxb_html_tree_insertion_mode_initial_doctype_ckeck _ _ _ _ _) as [[q l]|]; [|by apply post_ret].
    apply post_put. intros t ([] & He & D). by split; [split|]. }
  intros _. apply post_reads; [reads|]. intros document.
  apply (post_bind _ _ _ (fun _ t => sound t /\ live e t)); [eapply post_weaken; [apply (insert_ok document e) | by intros t (S & He & D) | done]|].
  intros _. apply (post_bind _ _ _ (fun _ => sound)); [|intros _; apply post_ret; by left].
  apply post_put. intros t [[] He]. split; try done. by intros i [= <-].
Qed.

(** ** What every mode keeps *)

#[export] Instance sound_kept : Kept sound (fun _ => True) live.
Proof.
  split; try done.
  - intros t t'. apply sound_minor.
  - intros t t'. apply sound_fewer.
  - intros e t [] He. split; try done. by intros i [= <-].
  - intros e t [] He. split; try done. by intros i [= <-].
  - intros e t [] He. split; try done. by intros i [= <-].
  - exact insert_foreign_ok.
  - exact formatting_ok.
  - exact marker_ok.
  - exact reconstruct_ok.
  - exact adoption_ok.
  - intros k pos. eapply post_weaken; [apply comment_ok | by intros t [] | done].
  - exact characters_ok.
  - intros e k ns. apply post_from. intros t0 S. eapply post_weaken; [apply (extends_append t0) | intros t <-; apply extends_refl|].
    intros s t X. by eapply sound_extends.
  - intros e. eapply post_weaken; [apply remove_ok | done | by intros _ t []].
  - intros e. eapply post_weaken; [apply (push_sound e) | intros t [S He]; split; [done | by apply (so_head t S)] | by intros s t []].
  - intros e name. apply post_from. intros t0 S. eapply post_weaken; [by apply (extends_on_node t0) | intros t <-; apply extends_refl|].
    intros s t X. by eapply sound_extends.
  - exact doctype_good.
  - exact html_start_good.
  - exact before_html_good.
  - exact script_good.
Qed.

End Sound.
