(* ===== verification/TreeLaws.v ===== *)
(** * The tree builder as the client of the tokenizer

    The law that the tokenizer asks of its client, [TkzEnvLaws], holds of the tree
    builder: no insertion mode puts the tokenizer in another state than the first
    one of a text mode.  What is proved of the tokenizer for every client then holds
    of [lxb_html_document_parse]; and with the states that the builder gets to for the property
    that the client keeps, the document is well formed in each of them and after a
    parse, whatever bytes were parsed. *)
From Stdlib Require Import String.
From S2P Require Import Prelude.
From S2P Require Import Str.
From S2P Require Import In.
From S2P Require Import Tag.
From S2P Require Import TagHeap.
From S2P Require Import TkzBase.
From S2P Require Import TkzRun.
From S2P Require Import TkzInst.
From S2P Require Import TkzStep.
From S2P Require Import TkzSafe.
From S2P Require Import TkzChunk.
From S2P Require Import TkzParse.
From S2P Require Import TokenParse.
From S2P Require Import DomNode.
From S2P Require Import DomPointers.
From S2P Require Import DomAttr.
From S2P Require Import TagCat.
From S2P Require Import Array.
From S2P Require Import TreeStack.
From S2P Require Import TreeM.
From S2P Require Import TreeInsert.
From S2P Require Import TreeAdopt.
From S2P Require Import TreeMode.
From S2P Require Import TreeInitial.
From S2P Require Import TreeHead.
From S2P Require Import TreeLogic.
From S2P Require Import TreeKeep.
From S2P Require Import TreeBuild.
From S2P Require Import TreeGood.
From S2P Require Import TreeSound.

(** The state that the tokenizer is asked for, if one is. *)
Definition text_asked (t : html_tree) : Prop := forall s, t_tkz_state t = Some s -> text_state s = true.

Lemma asked_same t t' : t_tkz_state t' = t_tkz_state t -> text_asked t -> text_asked t'.
Proof. unfold text_asked. by intros ->. Qed.

Lemma asked_put f : (forall t, t_tkz_state (f t) = t_tkz_state t) -> keeps text_asked (put f).
Proof. intros Hf. apply post_put. intros t. by apply asked_same. Qed.

Lemma asked_putO f : (forall t t', f t = Some t' -> t_tkz_state t' = t_tkz_state t) -> keeps text_asked (putO f).
Proof. intros Hf. apply post_putO. intros t t' Ht E. by eapply asked_same, Ht; apply Hf. Qed.

Lemma asked_on_dom {A} (f : dom -> option (A * dom)) : keeps text_asked (on_dom f).
Proof. apply post_on_dom. by intros t a d. Qed.

Lemma asked_array {A} (f : html_tree -> option (A * html_tree)) :
  (forall t a t', f t = Some (a, t') -> t_tkz_state t' = t_tkz_state t) -> keeps text_asked f.
Proof. intros Hf t a t' Ht E. by eapply asked_same, Ht; eapply Hf. Qed.

Lemma asked_fewer t t' : fewer t t' -> text_asked t -> text_asked t'.
Proof. intros (a & b & m & e & v & -> & _). by apply asked_same. Qed.

Lemma asked_putO_fewer f : fewerO f -> keeps text_asked (putO f).
Proof. intros Hf. apply post_putO. intros t t' Ht E. by eapply asked_fewer, Ht; apply Hf. Qed.

Lemma asked_minor t t' : minor t t' -> text_asked t -> text_asked t'.
Proof.
  destruct 1; try (by apply asked_same).
  - intros _ s' [= <-]. done.
  - intros _ s' [=].
Qed.

Lemma asked_state s : text_state s = true -> keeps text_asked (put (set_tkz_state (Some s))).
Proof. intros Hs. apply post_put. intros t Ht. by eapply asked_minor, Ht; constructor. Qed.

Ltac asked1 :=
  lazymatch goal with
  | |- forall _, _ => intros ?
  | |- post ?P ?x (fun _ => ?P) => change (keeps P x)
  | |- keeps _ (mbind _ _) => apply keeps_bind; [|intros ?]
  | |- keeps _ (when _ _) => apply keeps_when
  | |- keeps _ (if ?b then _ else _) => destruct b
  | |- keeps _ (match ?o with _ => _ end) => destruct o
  | |- keeps _ (put (set_tkz_state (Some _))) => apply asked_state; reflexivity
  | |- keeps _ (put _) => apply asked_put; intros ?; reflexivity
  | |- keeps _ (putO _) => apply asked_putO_fewer; solve [auto with fewer]
  | |- keeps _ ?x => first [solve [eauto with asked] | let h := head_of x in unfold h]
  end.
Create HintDb asked discriminated.
#[export] Hint Resolve keeps_get keeps_getO keeps_ret asked_on_dom : asked.
Ltac asked := repeat asked1.

Section Asked.
Context `{TreeAlloc} `{TokenBuffers}.

Lemma asked_fault {A} : keeps text_asked (@fault A).
Proof. apply post_fault. Qed.

Lemma asked_push p : keeps text_asked (lxb_html_tree_open_elements_push p).
Proof. apply asked_array. intros t a t'. unfold lxb_html_tree_open_elements_push. destruct (lexbor_array_push _ _ _). by intros [= <- <-]. Qed.

Lemma asked_insert_after p idx : keeps text_asked (lxb_html_tree_open_elements_insert_after p idx).
Proof. apply asked_array. intros t a t'. unfold lxb_html_tree_open_elements_insert_after. destruct (lexbor_array_insert _ _ _ _). by intros [= <- <-]. Qed.

Lemma asked_fmt_insert p idx : keeps text_asked (lxb_html_tree_active_formatting_insert p idx).
Proof. apply asked_array. intros t a t'. unfold lxb_html_tree_active_formatting_insert. destruct (lexbor_array_insert _ _ _ _). by intros [= <- <-]. Qed.

Lemma asked_place o : keeps text_asked (lxb_html_tree_appropriate_place_inserting_node o).
Proof. asked. Qed.
#[local] Hint Resolve asked_fault asked_push asked_insert_after asked_fmt_insert asked_place : asked.

Lemma asked_create k ns : keeps text_asked (lxb_html_tree_create_element_for_token k ns).
Proof. asked. Qed.
#[local] Hint Resolve asked_create : asked.

Lemma asked_element k ns : keeps text_asked (lxb_html_tree_insert_foreign_element k ns).
Proof. asked. Qed.
#[local] Hint Resolve asked_element : asked.

Lemma asked_reopen n af_idx : keeps text_asked (reopen n af_idx).
Proof. revert af_idx. induction n as [|n IH]; intros af_idx; cbn [reopen]; asked; apply IH. Qed.

Lemma asked_move n p e : keeps text_asked (move_children n p e).
Proof. revert p. induction n as [|n IH]; intros [p|]; cbn [move_children]; asked; apply IH. Qed.

Lemma asked_inner fe fb idx : forall counter last bookmark, keeps text_asked (inner_loop fe fb counter idx last bookmark).
Proof. induction idx as [|idx IH]; intros counter last bookmark; cbn [inner_loop]; cbn zeta; asked; apply IH. Qed.
#[local] Hint Resolve asked_reopen asked_move asked_inner : asked.

Lemma asked_adopt fe i fb ca last bookmark : keeps text_asked (adopt fe i fb ca last bookmark).
Proof. asked. Qed.
#[local] Hint Resolve asked_adopt : asked.

Lemma asked_outer n subject sizes : keeps text_asked (outer_loop n subject sizes).
Proof. induction n as [|n IH]; cbn [outer_loop]; asked. Qed.
#[local] Hint Resolve asked_outer : asked.

Lemma asked_doctype k : keeps text_asked (lxb_html_tree_create_document_type_from_token k).
Proof. asked. Qed.

Lemma asked_before_html e : keeps text_asked (lxb_html_tree_insertion_mode_before_html_html e).
Proof. asked. Qed.
#[local] Hint Resolve asked_doctype asked_before_html : asked.

Lemma asked_marker : keeps text_asked push_marker.
Proof. apply asked_array. by intros t a t' [= <- <-]. Qed.

Lemma asked_dupl p : keeps text_asked (push_with_check_dupl p).
Proof.
  apply asked_putO. intros t t'. unfold lxb_html_tree_active_formatting_push_with_check_dupl.
  destruct (dupl_loop _ _ _ _ _) as [[n i]|]; [|done]. intros [= <-]. by case_match.
Qed.
#[local] Hint Resolve asked_marker asked_dupl : asked.

(** Nothing is asked for besides by the operations. *)
Lemma asked_weaken {A} (x : M A) Q : keeps text_asked x -> (forall a t, text_asked t -> Q a t) -> post text_asked x Q.
Proof. intros Hx HQ. by eapply post_weaken; [exact Hx | |]. Qed.

#[export] Instance text_asked_kept : Kept text_asked text_asked (fun _ _ => True).
Proof.
  assert (Hok : forall s t, text_asked t -> ok_or text_asked text_asked s t) by (intros s t Ht; unfold ok_or; by destruct (_ =? _)).
  assert (Hsome : forall o t, text_asked t -> some_or text_asked text_asked (fun _ _ => True) o t) by by intros [e|].
  assert (Hgood : forall x : M bool, keeps text_asked x -> good text_asked text_asked x).
  { intros x Hx. apply (asked_weaken x _ Hx). by left. }
  split; try (intros; by eauto using asked_minor, asked_fewer).
  all: intros.
  all: lazymatch goal with
       | |- text_asked _ => by eapply asked_same; [|eassumption]
       | |- good _ _ _ => apply Hgood; asked
       | |- keeps _ _ => asked
       | |- post (fun t => _ /\ _) ?x ?Q => apply (post_weaken _ text_asked _ Q Q); [apply asked_weaken; [asked|] | by intros ? [] | done]
       | |- post _ _ _ => apply asked_weaken; [asked|]
       end.
  all: try (intros; first [done | by apply Hok | by apply Hsome]).
Qed.
End Asked.

(** ** The law, and parsing with it *)

Section Parse.
Context `{TreeAlloc}.

(** What was asked for before the token does not matter. *)
Lemma callback_forgets `{TokenBuffers} k b : lxb_html_tree_token_callback k b = lxb_html_tree_token_callback k (set_tkz_state None b).
Proof. reflexivity. Qed.

Lemma tree_callback_state (t : tokenizer (option html_tree)) k e r s :
  callback_token_done t k = (e, r) -> reply_state r = Some s -> text_state s = true.
Proof.
  intros E Hs. cbn in E.
  destruct (env t) as [b|]; [|by injection E as <- <-].
  cbn [mbind option_bind] in E. rewrite callback_forgets in E.
  destruct (lxb_html_tree_token_callback k _) as [[[returned status] b']|] eqn:Ec; [|by injection E as <- <-].
  injection E as <- <-. cbn in Hs. pose proof (text_asked_kept (H0 := buffers t)) as K.
  destruct (callback_ok (K := K) k (set_tkz_state None b) _ b' ltac:(by intros s') Ec) as [Ht|[_ Ht]]; by apply Ht.
Qed.

#[export] Instance tree_env_laws : TkzEnvLaws (option html_tree) := plain_env tree_callback_state.

(** The tokenizer after [begin], in a parser. *)
Definition prepared (document : positive) (memory : Z -> Z) : tokenizer (option html_tree) :=
  set_token (chunk_prepare document memory) (Some token_zero).

Lemma prepared_inv {TL : TkzEnvLaws (option html_tree)} document memory :
  env_ok (env (chunk_prepare document memory)) -> tkz_inv [] (prepared document memory).
Proof. intros Hev. destruct (begun_inv (env (chunk_prepare document memory)) memory 0 Hev) as [[I1 I2 I3] I4 I5]. by split; [split|..]. Qed.

(** The tokenizer returns, and what the callback keeps holds at the end. *)
Lemma parse_chunk_keeps {TL : TkzEnvLaws (option html_tree)} document memory token_ok node_ok copied html size : 0 <= size ->
  env_ok (env (chunk_prepare document memory)) ->
  exists builder status, parse_chunk document memory token_ok node_ok copied html size = Some (builder, status) /\
    (status = LXB_STATUS_OK -> env_ok builder).
Proof.
  intros Hsize Hev. unfold parse_chunk. destruct token_ok; [|by eexists _, _].
  change (lxb_html_tokenizer_begin _ _) with (prepared document memory, LXB_STATUS_OK). cbn [negb Z.eqb].
  destruct (chunk_ok [] (prepared document memory) node_ok copied html size (prepared_inv _ _ Hev)) as (t & s & -> & _ & Hok); [lia|].
  cbn [mbind option_bind]. destruct (s =? LXB_STATUS_OK) eqn:Es; cbn [negb]; bool_to_prop; [|by eexists _, _].
  destruct (Hok Es) as (_ & ids & Hne & INV). destruct (end_ok ids t INV Hne) as (t' & s' & -> & _ & _ & Hev'). by eexists _, _.
Qed.

(** A parse answers unless the builder does not. *)
Lemma document_parse_answers document memory token_ok node_ok copied html size : 0 <= size ->
  exists builder status, parse_chunk document memory token_ok node_ok copied html size = Some (builder, status) /\
    lxb_html_document_parse document memory token_ok node_ok copied html size = (b ← builder; Some (b, status)).
Proof.
  intros Hsize. destruct (parse_chunk_keeps (TL := tree_env_laws) document memory token_ok node_ok copied html size Hsize I)
    as (builder & status & E & _). exists builder, status. unfold lxb_html_document_parse. by rewrite E.
Qed.
End Parse.

(** ** The document after a parse *)

Section Doc.
Context `{TreeAlloc} {TL : TreeAllocLaws}.

(** The states that the builder gets to in a document of its own: it is given a token, or it
    calls a mode for its token, after which it is not done with it or has the
    status OK.  A call that reads through NULL or a dangling pointer is no step; a token that is never done with makes
    steps without end. *)
Inductive builder_reached (document : positive) : html_tree -> Prop :=
| reached_start : builder_reached document (lxb_html_tree_init (lxb_html_document_create document) document)
| reached_token (B : TokenBuffers) k b tag_id b' :
    builder_reached document b -> take_token k b = Some (tag_id, b') -> builder_reached document b'
| reached_call (B : TokenBuffers) b (is_done : bool) b' :
    builder_reached document b -> lxb_html_tree_construction_dispatcher b = Some (is_done, b') ->
    is_done = false \/ t_status b' = LXB_STATUS_OK -> builder_reached document b'.

Lemma reached_loop `{TokenBuffers} document fuel : forall b b',
  builder_reached document b -> insertion_loop fuel b = Some (LXB_STATUS_OK, b') -> builder_reached document b'.
Proof.
  induction fuel as [|fuel IH]; intros b b' Hb; [done|]. cbn [insertion_loop]. unfold mbind, M_bind.
  destruct (lxb_html_tree_construction_dispatcher b) as [[[] b1]|] eqn:E; [| |done].
  - intros [= Hs <-]. eapply reached_call; [exact Hb | exact E | by right].
  - apply IH. eapply reached_call; [exact Hb | exact E | by left].
Qed.

Lemma reached_callback `{TokenBuffers} document k b status b' :
  builder_reached document b -> lxb_html_tree_token_callback k b = Some ((true, status), b') -> builder_reached document b'.
Proof.
  intros Hb. unfold lxb_html_tree_token_callback, mbind, M_bind. destruct (take_token k b) as [[tag_id b1]|] eqn:E; [|done].
  destruct (tag_id =? _); [done|]. unfold lxb_html_tree_insertion_mode, mbind, M_bind. cbn [get].
  destruct (insertion_loop (loop_fuel b1) b1) as [[s b2]|] eqn:El; [|done]. destruct (Z.eqb_spec s LXB_STATUS_OK) as [->|]; cbn [negb]; [|done].
  intros [= _ <-]. eapply reached_loop; [|exact El]. by eapply reached_token.
Qed.

(** There is a builder, in a state that it gets to. *)
Definition reached_builder (document : positive) (o : option html_tree) : Prop := exists b, o = Some b /\ builder_reached document b.

Lemma builder_callback document (t : tokenizer (option html_tree)) k e r :
  reached_builder document (env t) -> callback_token_done t k = (e, r) -> is_Some (reply_token r) -> reached_builder document e.
Proof.
  intros (b & Hb & Hr) E Ht. cbn in E. rewrite Hb in E. cbn [mbind option_bind] in E.
  destruct (lxb_html_tree_token_callback k b) as [[[returned status] b']|] eqn:Ec; injection E as <- <-; [|by destruct Ht].
  exists b'. split; [done|]. destruct returned; [|by destruct Ht]. by eapply (reached_callback (H0 := buffers t)).
Qed.

Definition builder_env_laws (document : positive) : TkzEnvLaws (option html_tree) :=
  {| callback_state := tree_callback_state; env_ok := reached_builder document; callback_env := builder_callback document |}.

(** A document of its own node only. *)
Lemma lone_links d : links {[d := document_node]}.
Proof.
  assert (forall (f : dom_node -> option positive) k, f document_node = None -> ({[d := document_node]} : gmap positive dom_node) !! k ≫= f = None) as Hn.
  { intros f k Hf. destruct (_ !! k) as [n|] eqn:E; [|done]. by apply lookup_singleton_Some in E as [_ <-]. }
  split; intros; unfold nx, pv, pa, fs, la in *; rewrite !Hn in * by done; naive_solver.
Qed.

Lemma sound_initial d : sound (lxb_html_tree_init (lxb_html_document_create d) d).
Proof.
  split; try (intros; discriminate).
  - apply lone_links.
  - intros i Hi. by apply elem_of_nil in Hi.
  - intros i Hi. by apply elem_of_nil in Hi.
  - exists document_node. apply lookup_singleton_eq.
Qed.

Lemma reached_sound document b : builder_reached document b -> sound b.
Proof.
  induction 1 as [|B k b tag_id b' _ IH E|B b is_done b' _ IH E Hs]; [apply sound_initial | by apply (take_token_ok k b _ _ IH E) |].
  destruct (good_dispatcher b _ _ IH E) as [Hb|(Hd & Hf & _)]; [done|]. by destruct Hs as [->|].
Qed.

(** C3: the document is well formed in every state that the tree construction gets
    to.  For every sequence of tokens, every content of the buffers they lie in
    and every answer of the allocators (memory for a node is only assumed to be fresh):
    whenever the dispatcher of [html/tree.c] has called an insertion mode, also between two calls for
    one token and whether or not that ever ends, the builder is [sound] unless it has stopped with
    an error status: next and prev, first, last and parent pointers of all nodes agree with
    each other, and the open elements, the formatting elements, the document, its html,
    head, body, form and doctype and the contents of templates are live nodes.  The state that
    [lxb_html_document_parse] answers with, when its status is OK, is such a state.
    Nothing is said of calls that follow a NULL or dangling pointer: they have no
    state after them. *)
Theorem document_parse_sound document memory token_ok node_ok copied html size : 0 <= size ->
  (forall b, builder_reached document b -> sound b) /\
  (forall b, lxb_html_document_parse document memory token_ok node_ok copied html size = Some (b, LXB_STATUS_OK) ->
     builder_reached document b).
Proof.
  intros Hsize. split; [apply reached_sound|]. intros b. unfold lxb_html_document_parse.
  destruct (parse_chunk_keeps (TL := builder_env_laws document) document memory token_ok node_ok copied html size Hsize)
    as (builder & status & -> & Hok); [by eexists; split; [reflexivity | apply reached_start]|].
  cbn [mbind option_bind]. destruct builder as [b'|]; [|done]. intros [= -> ->]. destruct (Hok eq_refl) as (b' & [= <-] & Hb). exact Hb.
Qed.
End Doc.

(** [<p>a<table>b]: the text is
    moved in front of the table. *)
Lemma document_parse_sound_witness : exists b,
  @lxb_html_document_parse first_free 2 (place BUF (bytes_of "<p>a<table>b"%string) (fun _ => 0)) true true (Some 200000) BUF 12 =
    Some (b, LXB_STATUS_OK) /\ @builder_reached first_free 2 b /\ @sound first_free b.
Proof.
  destruct (document_parse_sound (H := first_free) (TL := first_free_fresh) 2
    (place BUF (bytes_of "<p>a<table>b"%string) (fun _ => 0)) true true (Some 200000) BUF 12) as [Hs Hr]; [discriminate|].
  destruct (@lxb_html_document_parse first_free 2 _ true true (Some 200000) BUF 12) as [[b status]|] eqn:E.
  - assert (Hst : snd <$> @lxb_html_document_parse first_free 2 (place BUF (bytes_of "<p>a<table>b"%string) (fun _ => 0)) true true (Some 200000) BUF 12 =
      Some LXB_STATUS_OK) by (vm_compute; reflexivity).
    rewrite E in Hst. cbn in Hst. injection Hst as ->. exists b. split; [reflexivity|]. split; [by apply Hr | by apply Hs, Hr].
  - exfalso. assert (Hst : is_Some (@lxb_html_document_parse first_free 2 (place BUF (bytes_of "<p>a<table>b"%string) (fun _ => 0)) true true (Some 200000) BUF 12))
      by (vm_compute; by eexists). rewrite E in Hst. by destruct Hst.
Defined.
