(* ===== verification/TreeSpec.v ===== *)
(** * What the tree builder computes

    Reference: a stack of open elements, each with its finished children.  A start
    tag opens an element, its end tag makes it a child of the one below, text goes
    behind the last child and joins a text that is there.  For the tags that the "in
    body" mode treats this way, [building] relates the states of the builder to such
    a stack, and every token keeps the relation. *)
From S2P Require Import Prelude.
From S2P Require Import In.
From S2P Require Import Tag.
From S2P Require Import TagHeap.
From S2P Require Import TkzBase.
From S2P Require Import ParserChar.
From S2P Require Import TokenData.
From S2P Require Import TokenParse.
From S2P Require Import DomNode.
From S2P Require Import DomTree.
From S2P Require Import DomLink.
From S2P Require Import DomAttr.
From S2P Require Import DomAttrSpec.
From S2P Require Import DomRead.
From S2P Require Import TreeAttr.
From S2P Require Import TagCat.
From S2P Require Import TagConst.
From S2P Require Import Array.
From S2P Require Import TreeStack.
From S2P Require Import TreeStackSpec.
From S2P Require Import TreeM.
From S2P Require Import TreeInsert.
From S2P Require Import TreeAdopt.
From S2P Require Import TreeMode.
From S2P Require Import TreeLogic.
From S2P Require Import TreeInitial.
From S2P Require Import TreeHead.
From S2P Require Import TreeBody.
From S2P Require Import TreeBuild.

#[local] Set Warnings "-clear-no-such-hyp".

(** There is memory, and new memory is not in use. *)
Class TreePlenty `{TreeAlloc} : Prop := {
  plenty_node h : exists i, new_node h = Some i /\ h !! i = None;
  plenty_attr m : m !! new_attr m = None;
  plenty_given n : given n = true
}.

Lemma first_free_plenty : @TreePlenty first_free.
Proof.
  split; [intros h; eexists; split; [reflexivity | by apply first_free_fresh] | | done]. intros m.
  apply (not_elem_of_dom (D := gset positive)). exact (is_fresh (base.dom m : gset positive)).
Qed.

(** ** Labels *)

(** An element: its tag, and the names and values of its attributes. *)
Definition kind : Type := Z * list (list Z * option (list Z)).
Definition html_attr (x : list Z * option (list Z)) : attr_label := mk_attr_label LXB_NS_HTML (Some (fst x)) (Some (fst x)) (snd x).

Definition plain_label (type tag : Z) (data : list Z) : label := mk_label type tag LXB_NS_HTML data None (Some []).
Definition element_label (k : kind) : label := mk_label LXB_DOM_NODE_TYPE_ELEMENT (fst k) LXB_NS_HTML [] None (Some (map html_attr (snd k))).
Definition text_label : list Z -> label := plain_label LXB_DOM_NODE_TYPE_TEXT LXB_TAG__TEXT.
Definition comment_label : list Z -> label := plain_label LXB_DOM_NODE_TYPE_COMMENT LXB_TAG__EM_COMMENT.
Definition document_label : label := plain_label LXB_DOM_NODE_TYPE_DOCUMENT LXB_TAG__DOCUMENT [].

Definition heap (t : html_tree) : gmap positive dom_node := d_nodes (t_dom t).
Definition attr_heap (t : html_tree) : gmap positive dom_attr := d_attrs (t_dom t).
Definition with_heap (h : gmap positive dom_node) (t : html_tree) : html_tree := set_dom (with_nodes h (t_dom t)) t.

(** ** The relation *)

(** The fields that the tokens in question leave alone. *)
Record quiet (t : html_tree) : Prop := {
  q_array : array_ok (open_elements t);
  q_fmt : fmt_list t = [];
  q_foster : foster_parenting t = false;
  q_status : t_status t = LXB_STATUS_OK;
  q_fragment : t_fragment t = None;
  q_templates : template_insertion_modes t = [];
  q_before : before_append_attr t = None
}.

(** The open elements [els], innermost first, in the document. *)
Record built (els : spine) (finished : list tree) (fs : list opened) (t : html_tree) : Prop := {
  b_quiet : quiet t;
  b_open : open_list t = map Some (rev (map fst els));
  b_holds : spine_holds (attr_heap t) (heap t) (els ++ [(t_document t, finished)]) fs
}.

(** ** The reference *)

(** An open element and its finished children; innermost first. *)
Definition open_element : Type := kind * list dom_item.
Definition open_tag (e : open_element) : Z := fst (fst e).

Inductive event :=
  | Open (k : kind)
  | Close (tag : Z)
  | Void (k : kind)
  | Chars (s : list Z)
  | Remark (s : list Z).

(** Blocks, which end an open [p]; other elements, which are not formatting; elements
    without an end. *)
Definition block_tags : list Z :=
  [LXB_TAG_ADDRESS; LXB_TAG_ARTICLE; LXB_TAG_ASIDE; LXB_TAG_BLOCKQUOTE; LXB_TAG_CENTER; LXB_TAG_DETAILS; LXB_TAG_DIALOG; LXB_TAG_DIR;
   LXB_TAG_DIV; LXB_TAG_DL; LXB_TAG_FIELDSET; LXB_TAG_FIGCAPTION; LXB_TAG_FIGURE; LXB_TAG_FOOTER; LXB_TAG_HEADER; LXB_TAG_HGROUP;
   LXB_TAG_MAIN; LXB_TAG_MENU; LXB_TAG_NAV; LXB_TAG_OL; LXB_TAG_SECTION; LXB_TAG_SUMMARY; LXB_TAG_UL].
Definition other_tags : list Z :=
  [LXB_TAG_ABBR; LXB_TAG_BDI; LXB_TAG_BDO; LXB_TAG_CITE; LXB_TAG_DATA; LXB_TAG_DATALIST; LXB_TAG_DEL; LXB_TAG_DFN; LXB_TAG_INS; LXB_TAG_KBD;
   LXB_TAG_LABEL; LXB_TAG_MAP; LXB_TAG_MARK; LXB_TAG_METER; LXB_TAG_OUTPUT; LXB_TAG_PICTURE; LXB_TAG_PROGRESS; LXB_TAG_Q; LXB_TAG_SAMP;
   LXB_TAG_SLOT; LXB_TAG_SPAN; LXB_TAG_SUB; LXB_TAG_SUP; LXB_TAG_TIME; LXB_TAG_VAR].
Definition void_tags : list Z := [LXB_TAG_AREA; LXB_TAG_BR; LXB_TAG_EMBED; LXB_TAG_IMG; LXB_TAG_KEYGEN; LXB_TAG_WBR].

Definition p_open (es : list open_element) : bool := existsb (fun e => open_tag e =? LXB_TAG_P) es.

(** Text behind the children: it joins a text that is last. *)
Definition add_data (s : list Z) (l : label) : label := mk_label (l_type l) (l_tag l) (l_ns l) (l_data l ++ s) (l_qname l) (l_attrs l).
Definition add_text (cs : list dom_item) (s : list Z) : list dom_item :=
  match last cs with
  | Some (Item l ks) =>
      if l_tag l =? LXB_TAG__TEXT then removelast cs ++ [Item (add_data s l) ks] else cs ++ [Item (text_label s) []]
  | None => cs ++ [Item (text_label s) []]
  end.

(** What a token does; [None] for the tokens that are treated in another way. *)
Definition event_step (e : event) (es : list open_element) : option (list open_element) :=
  match e, es with
  | Open k, _ :: _ =>
      if one_of (fst k) (LXB_TAG_P :: block_tags) && negb (p_open es) || one_of (fst k) other_tags then Some ((k, []) :: es) else None
  | Close tag, (k, cs) :: (k', cs') :: es =>
      if (tag =? fst k) && one_of tag (LXB_TAG_P :: block_tags ++ other_tags)
      then Some ((k', cs' ++ [Item (element_label k) cs]) :: es) else None
  | Void k, (k', cs) :: es => if one_of (fst k) void_tags then Some ((k', cs ++ [Item (element_label k) []]) :: es) else None
  | Chars s, (k, cs) :: es => Some ((k, add_text cs s) :: es)
  | Remark s, (k, cs) :: es => Some ((k, cs ++ [Item (comment_label s) []]) :: es)
  | _, _ => None
  end.

(** The tags whose nodes are elements without contents. *)
Definition plain (tag : Z) : bool :=
  (0 <? tag) && (tag <? LXB_TAG__LAST_ENTRY) &&
  negb (one_of tag [LXB_TAG__TEXT; LXB_TAG__EM_COMMENT; LXB_TAG__EM_DOCTYPE; LXB_TAG__DOCUMENT; LXB_TAG_TEMPLATE]).

(** The builder has the elements [es] open, in a document whose other children are
    [dcs]. *)
Definition opened_of (e : open_element) : opened := (element_label (fst e), snd e).
Definition building (es : list open_element) (dcs : list dom_item) (t : html_tree) : Prop :=
  exists els finished, built els finished (map opened_of es ++ [(document_label, dcs)]) t /\ Forall (fun e => plain (open_tag e) = true) es.

(** What a token of the "in body" mode leaves alone. *)
Definition rest (t : html_tree) := (t_mode t, t_tkz_state t, t_tkz_tag t).

(** A change of the other fields. *)
Lemma built_same els finished fs t t' : built els finished fs t -> quiet t' ->
  t_document t' = t_document t -> open_list t' = open_list t -> t_dom t' = t_dom t -> built els finished fs t'.
Proof. intros [Q O S] Q' Hd Ho Hh. split; [done | by rewrite Ho |]. unfold attr_heap, heap in *. by rewrite Hd, Hh. Qed.

Ltac quietly Q := destruct Q as [Q1 Q2 Q3 Q4 Q5 Q6 Q7]; split; try assumption.

Lemma rev_in {A} (x : A) l : x ∈ rev l -> x ∈ l.
Proof. rewrite !list_elem_of_In. by rewrite <- in_rev. Qed.

Lemma insert_is_alter (h : gmap positive dom_node) e g n : h !! e = Some n -> <[e := g n]> h = alter g e h.
Proof.
  intros Hn. apply map_eq. intros k. destruct (decide (e = k)) as [<-|Hk].
  - by rewrite lookup_insert_eq, lookup_alter_eq, Hn.
  - by rewrite lookup_insert_ne, lookup_alter_ne.
Qed.

Section Spec.
Context `{TreePlenty} `{TokenBuffers}.

(** ** Nodes *)

(** A node just made. *)
Definition leaf (l : label) : dom_node := set_nd_data (l_data l) (set_nd_kind (l_ns l) (l_tag l) (l_type l) node_zero).

Lemma attrs_of_none m n : nd_first_attr n = None -> attrs_of m n = Some [].
Proof. unfold attrs_of. intros ->. by destruct (size m). Qed.

Lemma label_leaf m type tag s : label_of m (leaf (plain_label type tag s)) = plain_label type tag s.
Proof. unfold label_of. by rewrite attrs_of_none. Qed.

Lemma wp_on_node f i n (Q : unit -> html_tree -> Prop) t : heap t !! i = Some n -> Q tt (with_heap (<[i := f n]> (heap t)) t) -> wp (on_node f i) Q t.
Proof.
  intros Hn HQ. unfold on_node. apply (wp_on_dom _ tt (with_nodes (<[i := f n]> (heap t)) (t_dom t))); [|exact HQ].
  unfold upd_element, upd. fold (heap t). by rewrite Hn.
Qed.

Lemma with_heap_insert e m m' t : with_heap (<[e := m']> (heap (with_heap (<[e := m]> (heap t)) t))) (with_heap (<[e := m]> (heap t)) t) =
  with_heap (<[e := m']> (heap t)) t.
Proof. unfold with_heap. cbn. by rewrite insert_insert_eq. Qed.

(** A node of a type is made. *)
Definition made (l : label) (t : html_tree) (r : option positive) (t' : html_tree) : Prop :=
  exists e, r = Some e /\ heap t !! e = None /\ t' = with_heap (<[e := leaf l]> (heap t)) t.

Lemma wp_create tag type (t : html_tree) : tag < LXB_TAG__LAST_ENTRY -> is_template tag LXB_NS_HTML = false ->
  lxb_html_interface_res_constructors tag LXB_NS_HTML = type ->
  wp (lxb_html_tree_create_node tag LXB_NS_HTML) (made (plain_label type tag []) t) t.
Proof.
  intros Htag Htemp Htype. unfold lxb_html_tree_create_node, lxb_html_interface_create.
  rewrite (proj2 (Z.ltb_lt _ _) Htag), Htype, Htemp. cbn [andb Z.leb]. change (LXB_NS__LAST_ENTRY <=? LXB_NS_HTML) with false. cbn iota.
  destruct (plenty_node (heap t)) as (e & He & Hf). unfold calloc_node.
  eapply wp_step; [unfold on_dom; fold (heap t); rewrite He; reflexivity|]. cbn beta iota.
  apply wp_bind. eapply wp_on_node; [apply lookup_insert_eq|]. wps.
  eapply wp_on_node; [apply lookup_insert_eq|]. wps. exists e. split; [done|]. split; [done|].
  unfold with_heap. cbn. by rewrite !insert_insert_eq.
Qed.

(** ** Inserting *)

(** The innermost open node. *)
Lemma innermost_at els fin fs t : built els fin fs t -> exists i l sp lab cs fs', els ++ [(t_document t, fin)] = (i, l) :: sp /\
  fs = (lab, cs) :: fs' /\ label_at (attr_heap t) (heap t) i = Some lab /\ map (read_tree (attr_heap t) (heap t)) l = cs.
Proof.
  intros [Q O [L [F _]]]. destruct els as [|[i l] sp]; cbn in *; apply Forall2_cons_inv_l in F as ([lab cs] & fs' & [F1 F2] & F & ->); by repeat eexists.
Qed.

Lemma current_is i l els fin fs t : built ((i, l) :: els) fin fs t -> lxb_html_tree_current_node t = Some i.
Proof.
  intros B. unfold lxb_html_tree_current_node, open_length, length_of. fold (open_list t). rewrite (b_open _ _ _ _ B). cbn [map rev fst].
  rewrite map_app, length_app, Nat.add_1_r. cbn [Nat.eqb]. rewrite Nat.sub_succ, Nat.sub_0_r.
  rewrite lookup_app_r, Nat.sub_diag by done. done.
Qed.

Lemma node_of i l els fin lab cs fs t : built ((i, l) :: els) fin ((lab, cs) :: fs) t -> exists n,
  heap t !! i = Some n /\ label_of (attr_heap t) n = lab /\ nd_first n = first_id l None /\ nd_last n = last_id l None.
Proof.
  intros [Q O [L [F _]]]. cbn in *. apply Forall2_cons in F as [[F1 F2] F]. destruct (innermost _ _ _ _ L) as (n & Hn & Hf & Hl). exists n.
  unfold label_at in F1. cbn in F1. rewrite Hn in F1. split; [done|]. split; [by injection F1 | done].
Qed.

Lemma wp_place i l els fin k cs fs t Q : built ((i, l) :: els) fin ((element_label k, cs) :: fs) t -> fst k <> LXB_TAG_TEMPLATE ->
  Q (Some i, LXB_HTML_TREE_INSERTION_POSITION_CHILD) t -> wp (lxb_html_tree_appropriate_place_inserting_node None) Q t.
Proof.
  intros B Htag HQ. pose proof (current_is _ _ _ _ _ _ B) as Hc. destruct (node_of _ _ _ _ _ _ _ _ B) as (n & Hn & Hlab & _).
  unfold lxb_html_tree_appropriate_place_inserting_node, current_node, is_node, node. wps. rewrite (q_foster t (b_quiet _ _ _ _ B)). wps.
  rewrite Hc. wps. eapply wp_getO; [unfold node_at; exact Hn|]. wps.
  assert (lxb_html_tree_node_is n LXB_TAG_TEMPLATE = false) as ->; [|by apply wp_ret].
  unfold lxb_html_tree_node_is, node_is. injection Hlab as _ E _ _ _. rewrite E. by rewrite (proj2 (Z.eqb_neq _ _)).
Qed.

(** A node goes behind the last child of the innermost open node. *)
Lemma wp_insert_new i l sp lab fs h0 t e n Q : spine_holds (attr_heap t) h0 ((i, l) :: sp) fs -> h0 !! e = None -> heap t = <[e := n]> h0 ->
  nd_first n = None -> nd_last n = None -> label_of (attr_heap t) n = lab -> is_Some (l_attrs lab) ->
  (forall h, spine_holds (attr_heap t) h ((e, []) :: (i, l) :: sp) ((lab, []) :: fs) -> Q tt (with_heap h t)) ->
  wp (insert_child i e) Q t.
Proof.
  intros S He Ht Hf Hl <- Ha HQ. destruct (holds_new _ _ i l sp fs e n S He Hf Hl Ha) as (h & E & Sh).
  unfold insert_child, lxb_html_tree_insert_node, on_nodes. eapply wp_on_dom; [|exact (HQ h Sh)]. fold (heap t). by rewrite Ht, E.
Qed.

(** There is room on the stack. *)
Definition room (t : html_tree) : Prop := Z.of_nat (length (open_list t)) + 129 <= SIZE_MAX.

Lemma wp_push p Q t : quiet t -> room t ->
  (forall a, array_ok a -> ar_items a = open_list t ++ [p] -> Q LXB_STATUS_OK (set_open a t)) -> wp (lxb_html_tree_open_elements_push p) Q t.
Proof.
  intros Qt Hlen HQ. destruct (push_ok given (open_elements t) p (q_array t Qt)) as (a & E & Ha & Hok).
  - unfold ar_length, room in *. fold (open_list t). lia.
  - apply plenty_given.
  - eapply wp_of; [unfold lxb_html_tree_open_elements_push; rewrite E; reflexivity|]. by apply HQ.
Qed.

(** What the attributes of a token are: its texts, decoded, of those with one name up
    to case only the first. *)
Definition gives (k : html_token) (l : list (list Z * option (list Z))) : Prop :=
  tok_base_element k = 0 /\ tb_byte lxb_html_parser_char_eof = 0 /\
  exists ids texts, Forall2 (attr_texts tb_nodes tb_byte ids) (tok_attrs k) texts /\ fold_left add_pair (map decoded_pair texts) [] = l.

Lemma plain_facts tag : plain tag = true -> 0 < tag /\ tag < LXB_TAG__LAST_ENTRY /\ tag <> LXB_TAG_TEMPLATE /\ is_template tag LXB_NS_HTML = false /\
  lxb_html_interface_res_constructors tag LXB_NS_HTML = LXB_DOM_NODE_TYPE_ELEMENT.
Proof.
  intros Hp. unfold plain in Hp. apply andb_true_iff in Hp as [Hp Hn]. apply andb_true_iff in Hp as [Hpos Hlast]. apply negb_true_iff in Hn.
  pose proof (fun x Hx => not_one_of tag _ x Hn Hx) as Hne.
  split; [lia|]. split; [lia|]. split; [by apply Z.eqb_neq, Hne|]. split; [unfold is_template; by rewrite Hne|].
  unfold lxb_html_interface_res_constructors. by rewrite !Hne by reflexivity.
Qed.

(** An element is made, perhaps with attributes; it is not in the tree yet. *)
Definition made_element (k : kind) (t : html_tree) (r : option positive) (t' : html_tree) : Prop :=
  exists e n d, r = Some e /\ t' = set_dom d t /\ heap t !! e = None /\ d_nodes d = <[e := n]> (heap t) /\ attr_heap t ⊆ d_attrs d /\
    nd_first n = None /\ nd_last n = None /\ label_of (d_attrs d) n = element_label k.

(** Its attributes. *)
Lemma append_made k l d e n : gives k l -> d_nodes d !! e = Some n -> el_ok n [] ->
  exists d' n', lxb_html_tree_append_attributes tb_nodes tb_byte new_attr None d e k LXB_NS_HTML = Some (LXB_STATUS_OK, d') /\
    d_nodes d' = <[e := n']> (d_nodes d) /\ not_attrs n' = not_attrs n /\ d_attrs d ⊆ d_attrs d' /\
    attrs_of (d_attrs d') n' = Some (map html_attr l).
Proof.
  intros (_ & Heof & ids & texts & Htexts & Hl) Hn Hok.
  destruct (append_loop_ok _ _ ids Heof new_attr plenty_attr e LXB_NS_HTML _ _ Htexts pc_zero d [] eq_refl) as (d' & l' & E & Hd' & Hp & O & Hnew & Hns).
  { split; [by exists n|]. split; [done|]. split; constructor. }
  cbn [app] in *. pose proof Hd' as ((n' & Hn' & _) & _). exists d', n'. split; [exact E|]. split; [|split; [|split]].
  - apply map_eq. intros i. destruct (decide (e = i)) as [<-|Hi]; [by rewrite lookup_insert_eq|].
    rewrite lookup_insert_ne by done. by apply (ao_nodes _ _ _ _ O).
  - pose proof (ao_element _ _ _ _ O) as Ha. rewrite Hn, Hn' in Ha. by apply (inj Some) in Ha.
  - apply map_subseteq_spec. intros i a Ha. rewrite (ao_attrs _ _ _ _ O); [done|]. intros Hi. by rewrite Hnew in Ha.
  - rewrite (attributes_read d' e l' LXB_NS_HTML) by (done || (intros i Hi; rewrite Hns; by case_decide)).
    rewrite <- Hl. change (pairs []) with (@nil (list Z * option (list Z))) in Hp. rewrite <- Hp. unfold pairs. by rewrite map_map.
Qed.

Lemma wp_create_element k kd t : tok_tag_id k = fst kd -> gives k (snd kd) -> plain (fst kd) = true -> before_append_attr t = None ->
  wp (lxb_html_tree_create_element_for_token k LXB_NS_HTML) (made_element kd t) t.
Proof.
  destruct kd as [tag l]. cbn [fst snd]. intros <- Hg Hp Hba. destruct (plain_facts _ Hp) as (_ & Hlast & _ & Htemp & Htype).
  unfold lxb_html_tree_create_element_for_token. eapply wp_seq; [by apply wp_create|]. intros r t' (e & -> & He & ->).
  rewrite (proj1 Hg). cbn beta iota. unfold append_attributes. apply wp_bind. apply wp_bind, wp_get.
  destruct (append_made k l (t_dom (with_heap (<[e := leaf (plain_label LXB_DOM_NODE_TYPE_ELEMENT (tok_tag_id k) [])]> (heap t)) t)) e _ Hg (lookup_insert_eq _ _ _))
    as (d & n & E & Hd & Hn & Hsub & Hat); [by split|].
  eapply wp_on_dom; [cbn [before_append_attr with_heap set_dom]; rewrite Hba; exact E|]. cbn beta iota.
  change (negb (LXB_STATUS_OK =? LXB_STATUS_OK)) with false. cbn iota. wps.
  cbn [with_heap set_dom t_dom with_nodes d_nodes] in Hd. rewrite insert_insert_eq in Hd.
  eapply wp_on_node; [unfold heap; cbn [t_dom set_dom]; rewrite Hd; apply lookup_insert_eq|]. wps.
  exists e, (set_nd_kind LXB_NS_HTML (tok_tag_id k) (nd_type n) n), (with_nodes (<[e := set_nd_kind LXB_NS_HTML (tok_tag_id k) (nd_type n) n]> (heap t)) d).
  split; [done|]. split; [unfold with_heap, heap; cbn; by rewrite Hd, insert_insert_eq|]. split; [done|]. split; [done|]. split; [exact Hsub|].
  unfold label_of. change (attrs_of ?m (set_nd_kind _ _ _ n)) with (attrs_of m n). cbn [d_attrs with_nodes]. rewrite Hat.
  pose proof (fun A (f : dom_node -> A) => f_equal f Hn) as F.
  split; [exact (F _ nd_first)|]. split; [exact (F _ nd_last)|]. unfold element_label. cbn [set_nd_kind nd_type nd_tag nd_ns nd_data nd_qname fst snd].
  f_equal; [exact (F _ nd_type) | exact (F _ nd_data) | exact (F _ nd_qname)].
Qed.

(** The innermost frame is an element that is no template. *)
Definition in_element (fs : list opened) : Prop := exists k cs fs', fs = (element_label k, cs) :: fs' /\ fst k <> LXB_TAG_TEMPLATE.

(** An element that was made goes into the tree. *)
Lemma made_insert kd i l sp fs t r t1 : spine_holds (attr_heap t) (heap t) ((i, l) :: sp) fs -> made_element kd t r t1 ->
  exists e, r = Some e /\ forall t2 (Q : unit -> html_tree -> Prop), t_dom t2 = t_dom t1 ->
    (forall d, spine_holds (d_attrs d) (d_nodes d) ((e, []) :: (i, l) :: sp) ((element_label kd, []) :: fs) -> Q tt (set_dom d t2)) ->
    wp (insert_child i e) Q t2.
Proof.
  intros S (e & n & d & -> & -> & He & Hd & Hsub & Hf & Hl & Hlab). exists e. split; [done|]. intros t2 Q Ht2 HQ.
  assert (d = t_dom t2) as -> by done.
  eapply (wp_insert_new i l sp (element_label kd) fs (heap t)); [by eapply holds_grow | done | exact Hd | done | done | exact Hlab | by eexists|].
  intros h Sh. exact (HQ (with_nodes h (t_dom t2)) Sh).
Qed.

Lemma wp_insert_element k kd i l els fin fs t Q : built ((i, l) :: els) fin fs t -> in_element fs -> room t ->
  tok_tag_id k = fst kd -> gives k (snd kd) -> plain (fst kd) = true ->
  (forall e a d, let t' := set_open a (set_dom d t) in
     built ((e, []) :: (i, l) :: els) fin ((element_label kd, []) :: fs) t' -> Q (Some e) t') ->
  wp (lxb_html_tree_insert_html_element k) Q t.
Proof.
  intros B (tag0 & cs & fs' & -> & Htemp) Hroom Htag Hk Hp HQ. pose proof B as [Qt O S].
  unfold lxb_html_tree_insert_html_element, lxb_html_tree_insert_foreign_element.
  apply wp_bind. eapply (wp_place _ _ _ _ _ _ _ _ _ B Htemp). cbn beta iota. cbn [read_parent]. wps.
  eapply wp_weaken; [by apply (wp_create_element k kd); [| | |apply Qt]|]. intros r t1 Hm.
  destruct (made_insert _ _ _ _ _ _ _ _ S Hm) as (e & -> & Hins).
  destruct Hm as (_ & _ & d0 & _ & -> & _). cbn beta iota. apply wp_bind, Hins; [done|]. intros d Sh.
  apply wp_bind, wp_push; [by quietly Qt | done |]. intros a Ha Ei. change (negb (LXB_STATUS_OK =? LXB_STATUS_OK)) with false. cbn iota. wps.
  apply (HQ e a d). split; [by quietly Qt | | exact Sh].
  unfold open_list. cbn [open_elements set_open]. rewrite Ei. transitivity (open_list t ++ [Some e]); [done|]. rewrite O.
  cbn [map rev fst]. by rewrite !map_app.
Qed.

(** ** Closing *)

(** The last open element off the stack. *)
Definition without_last (t : html_tree) : html_tree := set_open (truncate (open_length t - 1) (open_elements t)) t.

Lemma close_built e le lab cs i l els fin lab' cs' fs t : built ((e, le) :: (i, l) :: els) fin ((lab, cs) :: (lab', cs') :: fs) t ->
  built ((i, l ++ [Node e le]) :: els) fin ((lab', cs' ++ [Item lab cs]) :: fs) (without_last t).
Proof.
  intros [Q O S]. split; [|unfold without_last, open_list, truncate, open_length, length_of in *; cbn | by apply holds_close].
  - quietly Q. unfold without_last, truncate, array_ok, ar_length in *. cbn. rewrite length_take. destruct Q1 as [Q1 Q1']. split; [lia | done].
  - rewrite O. cbn [map rev fst]. rewrite !map_app, !length_app. cbn [map length]. by rewrite Nat.add_sub, take_app_length' by (by rewrite length_app).
Qed.

Lemma pop_is t : open_list t <> [] -> lxb_html_tree_open_elements_pop t = without_last t.
Proof.
  intros Ho. unfold lxb_html_tree_open_elements_pop, without_last, lexbor_array_pop, truncate, open_length, length_of, ar_length, open_list in *.
  destruct (ar_items (open_elements t)) eqn:E; [done|]. by rewrite (proj2 (Z.eqb_neq _ _)) by (cbn; lia).
Qed.

Lemma open_ne e le els fin fs t : built ((e, le) :: els) fin fs t -> open_list t <> [].
Proof. intros B. rewrite (b_open _ _ _ _ B). cbn [map rev fst]. rewrite map_app. by destruct (map Some _). Qed.

(** ** Text and comments *)

(** A finished child. *)
Lemma leaf_built els fin fs t i l lab lab' cs fs' h e : built ((i, l) :: els) fin fs t -> fs = (lab', cs) :: fs' ->
  spine_holds (attr_heap t) h ((e, []) :: (i, l) :: els ++ [(t_document t, fin)]) ((lab, []) :: fs) ->
  built ((i, l ++ [Node e []]) :: els) fin ((lab', cs ++ [Item lab []]) :: fs') (with_heap h t).
Proof.
  intros [Q O S] -> Sh. split; [by quietly Q | exact O | by apply holds_close].
Qed.

Lemma wp_insert_data s i l els fin k cs fs t Q : built ((i, l) :: els) fin ((element_label k, cs) :: fs) t -> fst k <> LXB_TAG_TEMPLATE ->
  fst k <> LXB_TAG__DOCUMENT ->
  (forall r l' h, let t' := with_heap h t in built ((i, l') :: els) fin ((element_label k, add_text cs s) :: fs) t' -> Q (LXB_STATUS_OK, r) t') ->
  wp (lxb_html_tree_insert_character_for_data s) Q t.
Proof.
  intros B Htag Hdoc HQ. pose proof B as [Qt O S]. destruct (node_of _ _ _ _ _ _ _ _ B) as (n & Hn & Hlab & _ & Hlast).
  unfold lxb_html_tree_insert_character_for_data. apply wp_bind. eapply (wp_place _ _ _ _ _ _ _ _ _ B Htag). cbn beta iota.
  unfold node. apply wp_bind. eapply wp_getO; [exact Hn|].
  assert (lxb_html_tree_node_is n LXB_TAG__DOCUMENT = false) as ->
    by (unfold lxb_html_tree_node_is, node_is; injection Hlab as _ E _ _ _; rewrite E; by rewrite (proj2 (Z.eqb_neq _ _))).
  rewrite Hlast.
  assert (Hnew : (forall h e, built ((i, l ++ [Node e []]) :: els) fin ((element_label k, cs ++ [Item (text_label s) []]) :: fs) (with_heap h t) ->
      Q (LXB_STATUS_OK, Some e) (with_heap h t)) ->
    wp (text ← lxb_html_tree_create_node LXB_TAG__TEXT LXB_NS_HTML;
        match text with
        | None => mret (LXB_STATUS_ERROR_MEMORY_ALLOCATION, None)
        | Some text => on_node (set_nd_data s) text;; insert_child i text;; mret (LXB_STATUS_OK, Some text)
        end) Q t).
  { intros HQ'. apply wp_bind. eapply wp_weaken; [by apply wp_create|]. intros r t1 (e & -> & He & ->). cbn beta iota.
    apply wp_bind. eapply wp_on_node; [apply lookup_insert_eq|]. apply wp_bind.
    rewrite with_heap_insert. eapply (wp_insert_new _ _ _ (text_label s) _ (heap t) _ _ (leaf (text_label s))); [exact S | exact He | done..| apply label_leaf | by eexists |]. intros h Sh. wps. apply HQ'. by eapply leaf_built. }
  destruct (last_id l None) as [c|] eqn:Ec.
  - assert (exists cs0 lt ks, cs = cs0 ++ [Item lt ks]) as (cs0 & lt & ks & ->).
    { destruct S as (_ & F & _). apply Forall2_cons in F as [[_ F] _]. cbn in F. destruct l as [|[j js] l _] using rev_ind; [done|].
      rewrite map_app in F. by repeat eexists. }
    destruct (holds_last _ _ _ _ _ _ _ _ _ _ c (fun x => set_nd_data (nd_data x ++ s) x) S Ec) as (x & Hx & Hlt & Sh); [done..|].
    unfold node. apply wp_bind, wp_bind. eapply wp_getO; [exact Hx|]. wps.
    assert (nd_tag x = l_tag lt) as Etag by (by rewrite <- Hlt). unfold add_text in HQ. rewrite last_snoc, removelast_last, <- Etag in HQ.
    destruct (nd_tag x =? LXB_TAG__TEXT) eqn:Ex.
    + apply wp_bind. eapply wp_on_node; [exact Hx|]. wps. apply (HQ (Some c) l).
      pose proof (insert_is_alter (heap t) c (fun x => set_nd_data (nd_data x ++ s) x) x Hx) as Ei. cbn beta in Ei. rewrite Ei.
      split; [by quietly Qt | exact O|]. subst lt. exact Sh.
    + apply Hnew. intros h e. apply HQ.
  - apply wp_bind, wp_ret. cbn iota. assert (cs = []) as ->.
    { destruct S as (_ & F & _). apply Forall2_cons in F as [[_ F] _]. cbn in F. destruct l as [|x l _] using rev_ind; [done|].
      by rewrite last_id_app in Ec. }
    apply Hnew. intros h e. apply HQ.
Qed.

(** The text of a token, with the settings of the parser of characters. *)
Definition text_is (pc : parser_char) (k : html_token) (s : list Z) : Prop :=
  exists pc', lxb_html_token_parse_data tb_nodes tb_byte k pc [] = Some (pc', LXB_STATUS_OK, s).

Lemma wp_parse_data k s Q t : text_is pc_zero k s -> Q (LXB_STATUS_OK, s) t -> wp (parse_data k) Q t.
Proof. intros [pc' E] HQ. eapply wp_getO; [|exact HQ]. by rewrite E. Qed.

Lemma wp_insert_comment k s i l els fin kd cs fs t Q : built ((i, l) :: els) fin ((element_label kd, cs) :: fs) t -> fst kd <> LXB_TAG_TEMPLATE ->
  tok_tag_id k = LXB_TAG__EM_COMMENT -> text_is pc_zero k s ->
  (forall e h, let t' := with_heap h t in
     built ((i, l ++ [Node e []]) :: els) fin ((element_label kd, cs ++ [Item (comment_label s) []]) :: fs) t' -> Q (Some e) t') ->
  wp (lxb_html_tree_insert_comment k None) Q t.
Proof.
  intros B Htag Hk Hs HQ. pose proof B as [Qt O S]. destruct (node_of _ _ _ _ _ _ _ _ B) as (n & Hn & Hlab & _ & _).
  unfold lxb_html_tree_insert_comment. apply wp_bind. eapply (wp_place _ _ _ _ _ _ _ _ _ B Htag). cbn beta iota.
  unfold node. apply wp_bind. eapply wp_getO; [exact Hn|]. rewrite Hk. assert (nd_ns n = LXB_NS_HTML) as -> by by injection Hlab.
  apply wp_bind. eapply wp_weaken; [by apply wp_create|]. intros r t1 (e & -> & He & ->). cbn beta iota.
  apply wp_bind, (wp_parse_data k s _ _ Hs). cbn beta iota. change (negb (LXB_STATUS_OK =? LXB_STATUS_OK)) with false. cbn iota.
  apply wp_bind. eapply wp_on_node; [apply lookup_insert_eq|]. rewrite with_heap_insert. apply wp_bind.
  eapply (wp_insert_new _ _ _ (comment_label s) _ (heap t) _ _ (leaf (comment_label s))); [exact S | exact He | done..| apply label_leaf | by eexists |]. intros h Sh. wps. apply HQ. by eapply leaf_built.
Qed.

(** ** The top of the stack *)

Section Top.
Context (i : positive) (l : list tree) (els : spine) (fin : list tree) (k : kind) (cs : list dom_item) (fs : list opened) (t : html_tree).
Context (B : built ((i, l) :: els) fin ((element_label k, cs) :: fs) t).

Lemma top_of : exists n, open_length t = S n /\ open_list t !! n = Some (Some i).
Proof.
  unfold open_length, length_of. fold (open_list t). rewrite (b_open _ _ _ _ B). cbn [map rev fst]. rewrite map_app, length_app, Nat.add_1_r.
  eexists. split; [done|]. by rewrite lookup_app_r, Nat.sub_diag by done.
Qed.

Lemma top_node : exists n, node_at t (Some i) = Some n /\ nd_tag n = fst k /\ nd_ns n = LXB_NS_HTML.
Proof. destruct (node_of _ _ _ _ _ _ _ _ B) as (n & Hn & Hlab & _). exists n. injection Hlab. by intros. Qed.

Lemma pop_top test : test (Some i) = Some true -> pop_open t test true = Some (without_last t).
Proof.
  intros Ht. destruct top_of as (n & Hlen & Hi). unfold pop_open, without_last. rewrite Hlen. cbn [pop_until]. rewrite Hi. cbn. rewrite Ht.
  cbn. by rewrite Nat.sub_0_r.
Qed.

Lemma top_tag : tag_test t (fst k) LXB_NS_HTML (Some i) = Some true.
Proof. destruct top_node as (n & Hn & Et & En). unfold tag_test, node_is. rewrite Hn. cbn. by rewrite Et, En, !Z.eqb_refl. Qed.

Lemma scope_top test stop : test (Some i) = Some true -> in_scope t test stop = Some (Some i).
Proof.
  intros Ht. destruct top_of as (n & Hlen & Hi). unfold in_scope. rewrite Hlen. cbn [scope_down]. rewrite Hi. cbn. by rewrite Ht.
Qed.

Lemma wp_expect_top Q : Q tt t -> wp (expect_current (fst k)) Q t.
Proof.
  intros HQ. destruct top_node as (n & Hn & Et & En). unfold expect_current, current_node, is_node, node. wps. rewrite (current_is _ _ _ _ _ _ B).
  wps. eapply wp_getO; [exact Hn|]. wps. unfold lxb_html_tree_node_is, node_is. rewrite Et, En, !Z.eqb_refl. cbn [andb negb]. by wps.
Qed.

Lemma wp_implied_top ex_tag ex_ns Q : one_of (fst k) implied_tags = false \/ (ex_tag = fst k /\ ex_ns = LXB_NS_HTML) -> Q tt t -> wp (implied_end_tags ex_tag ex_ns) Q t.
Proof.
  intros Hex HQ. destruct top_node as (n & Hn & Et & En). destruct top_of as (m & Hlen & _). apply (wp_putO _ t); [|exact HQ].
  unfold lxb_html_tree_generate_implied_end_tags. rewrite Hlen. cbn [implied_loop]. rewrite Hlen. cbn [Nat.eqb]. rewrite (current_is _ _ _ _ _ _ B), Hn.
  cbn [mbind option_bind]. rewrite Et. destruct (one_of (fst k) implied_tags); [|done]. destruct Hex as [|[-> ->]]; [done|].
  unfold node_is. by rewrite Et, En, !Z.eqb_refl.
Qed.

Lemma wp_pop_top Q : Q tt (without_last t) -> wp (pop_until_tag (fst k)) Q t.
Proof. intros HQ. eapply wp_putO; [|exact HQ]. apply pop_top, top_tag. Qed.
End Top.

(** ** The elements of the stack *)

Lemma opened_find m h sp fs i : Forall2 (opened_ok m h) sp fs -> i ∈ map fst sp -> exists lab cs, label_at m h i = Some lab /\ (lab, cs) ∈ fs.
Proof.
  induction 1 as [|[j l] [lab cs] sp fs [F1 F2] _ IH]; intros Hi; [by apply elem_of_nil in Hi|].
  apply elem_of_cons in Hi as [->|Hi]; [exists lab, cs; split; [done | left]|].
  destruct (IH Hi) as (lab' & cs' & E & Hin). exists lab', cs'. split; [done | by right].
Qed.

Lemma built_stack els fin fs t : built els fin fs t -> stack_is t (rev (map fst els)).
Proof.
  intros [Q O [L [F _]]]. split; [done|]. intros i Hi. apply rev_in in Hi.
  destruct (opened_find _ _ _ _ i F) as (lab & cs & E & _); [rewrite map_app; set_solver|].
  unfold label_at in E. fold (heap t). by destruct (heap t !! i).
Qed.

Lemma no_scope f g k : (forall i, i ∈ k -> f i = false) -> has_in_scope f g k = None.
Proof. induction k as [|i k IH]; intros Hk; [done|]. cbn. rewrite Hk by left. destruct (g i); [done|]. apply IH. intros j Hj. apply Hk. by right. Qed.

(** No element of the tag is open. *)
Lemma scope_none els fin es dcs t tag ct : built els fin (map opened_of es ++ [(document_label, dcs)]) t -> tag <> LXB_TAG__DOCUMENT ->
  existsb (fun e => open_tag e =? tag) es = false -> lxb_html_tree_element_in_scope t tag LXB_NS_HTML ct = Some None.
Proof.
  intros B Hdoc Hno. pose proof (built_stack _ _ _ _ B) as St. unfold lxb_html_tree_element_in_scope.
  rewrite (in_scope_spec t _ St _ _ (holds t (tag_ns tag LXB_NS_HTML)) (holds t (fun tag ns => lxb_html_tag_is_category tag ns ct))).
  - f_equal. apply no_scope. intros i Hi. destruct B as [_ _ [_ [F _]]].
    apply rev_in, rev_in in Hi. destruct (opened_find _ _ _ _ i F) as (lab & cs & E & Hin); [rewrite map_app; set_solver|].
    unfold holds, tag_ns. unfold label_at in E. fold (heap t). destruct (heap t !! i) as [n|]; [|done]. injection E as <-.
    apply elem_of_app in Hin as [Hin|Hin].
    + apply list_elem_of_fmap in Hin as ([[tag' at'] cs'] & E & Hin). unfold opened_of in E. cbn in E. injection E as E1 E2 E3 E4 _. rewrite E2.
      destruct (tag' =? tag) eqn:Et; [|done]. exfalso. apply not_true_iff_false in Hno. apply Hno, existsb_exists. exists ((tag', at'), cs').
      split; [by apply list_elem_of_In | done].
    + apply list_elem_of_singleton in Hin as [= E1 E2 E3 E4 _]. rewrite E2. by rewrite (proj2 (Z.eqb_neq _ _)).
  - intros i Hi. by apply tag_test_holds with (l := rev (map fst els)).
  - intros i Hi. by apply category_stop_holds with (l := rev (map fst els)).
Qed.

Lemma wp_no_p els fin es dcs t Q : built els fin (map opened_of es ++ [(document_label, dcs)]) t -> p_open es = false -> Q tt t -> wp close_p_in_button_scope Q t.
Proof.
  intros B Hp HQ. unfold close_p_in_button_scope, in_scope_of. apply wp_bind.
  eapply wp_getO; [by eapply scope_none|]. cbn iota. by wps.
Qed.

(** There are no formatting elements to open again. *)
Lemma wp_reconstruct next els fin fs t Q : built els fin fs t -> wp next Q (set_t_status LXB_STATUS_OK t) -> wp (reconstruct next) Q t.
Proof.
  intros B HQ. unfold reconstruct, lxb_html_tree_active_formatting_reconstruct_elements. wps. unfold fmt_length, length_of.
  fold (fmt_list t). rewrite (q_fmt t (b_quiet _ _ _ _ B)). cbn [length]. wps. unfold check_status. by wps.
Qed.

Lemma built_status els fin fs t : built els fin fs t -> built els fin fs (set_t_status LXB_STATUS_OK t).
Proof. intros [Q O S]. split; [by quietly Q | done | done]. Qed.

(** ** Building *)

(** An open element is on the stack. *)
Lemma building_top k cs es dcs t : building ((k, cs) :: es) dcs t -> exists i l els fin,
  built ((i, l) :: els) fin ((element_label k, cs) :: map opened_of es ++ [(document_label, dcs)]) t /\
  Forall (fun e => plain (open_tag e) = true) ((k, cs) :: es).
Proof.
  intros (els & fin & B & P). destruct els as [|[i l] els]; [|by exists i, l, els, fin].
  destruct B as [_ _ [_ [F _]]]. apply Forall2_length in F. cbn in F. rewrite length_app in F. cbn in F. lia.
Qed.

Lemma building_length es dcs t : building es dcs t -> length (open_list t) = length es.
Proof.
  intros (els & fin & [_ O [_ [F _]]] & _). rewrite O, length_map, length_rev, length_map. apply Forall2_length in F.
  rewrite !length_app, length_map in F. cbn in F. lia.
Qed.

Lemma building_close k cs k' cs' es dcs t : building ((k, cs) :: (k', cs') :: es) dcs t ->
  building ((k', cs' ++ [Item (element_label k) cs]) :: es) dcs (without_last t).
Proof.
  intros B. destruct (building_top _ _ _ _ _ B) as (e & le & els & fin & B' & P). apply Forall_cons in P as [_ P].
  destruct els as [|[i l] els].
  - destruct B' as [_ _ [_ [F _]]]. apply Forall2_length in F. cbn in F. rewrite length_app in F. cbn in F. lia.
  - exists ((i, l ++ [Node e le]) :: els), fin. split; [|apply Forall_cons in P as [P0 P]; by constructor].
    exact (close_built _ _ _ _ _ _ _ _ _ _ _ _ B').
Qed.

Lemma building_no_document es dcs t : building es dcs t -> Forall (fun e => plain (open_tag e) = true) es.
Proof. by intros (? & ? & _ & P). Qed.

Definition deep (es : list open_element) : Prop := Z.of_nat (length es) + 129 <= SIZE_MAX.

Lemma wp_open k kd next es dcs t Q : building es dcs t -> es <> [] -> deep es -> tok_tag_id k = fst kd -> gives k (snd kd) -> plain (fst kd) = true ->
  (forall e t', building ((kd, []) :: es) dcs t' -> rest t' = rest t -> t_token t' = t_token t -> wp (next e) Q t') ->
  wp (insert_element k next) Q t.
Proof.
  intros B Hes Hd Hk Hb Hp HQ. destruct es as [|[k' cs] es]; [done|]. destruct (building_top _ _ _ _ _ B) as (i & l & els & fin & B' & P).
  unfold insert_element. apply wp_bind. eapply (wp_insert_element k kd); [exact B' | | | done..|].
  - apply Forall_cons in P as [P _]. destruct (plain_facts _ P) as (_ & _ & Ht & _). by repeat eexists.
  - unfold room. by rewrite (building_length _ _ _ B).
  - intros e a d t' Bt. cbn [not_null]. apply HQ; [|done|done]. exists ((e, []) :: (i, l) :: els), fin. split; [exact Bt | by constructor].
Qed.

Lemma wp_open_token kd next es dcs t Q : building es dcs t -> es <> [] -> deep es -> tok_tag_id (t_token t) = fst kd -> gives (t_token t) (snd kd) -> plain (fst kd) = true ->
  (forall t', building ((kd, []) :: es) dcs t' -> rest t' = rest t -> t_token t' = t_token t -> wp next Q t') ->
  wp (insert_token next) Q t.
Proof. intros B Hes Hd Hk Hb Hp HQ. unfold insert_token. wps. eapply wp_open; eauto. Qed.

Lemma building_reconstruct next es dcs t Q : building es dcs t -> (building es dcs (set_t_status LXB_STATUS_OK t) -> wp next Q (set_t_status LXB_STATUS_OK t)) ->
  wp (reconstruct next) Q t.
Proof.
  intros (els & fin & B & P) HQ. eapply wp_reconstruct; [exact B|]. apply HQ. exists els, fin. split; [by apply built_status | done].
Qed.

Lemma building_no_p es dcs t Q : building es dcs t -> p_open es = false -> Q tt t -> wp close_p_in_button_scope Q t.
Proof. intros (els & fin & B & _) Hp HQ. by eapply wp_no_p. Qed.

(** Other fields. *)
Lemma building_frameset es dcs b t : building es dcs t -> building es dcs (set_frameset_ok b t).
Proof. intros (els & fin & [Q O S] & P). exists els, fin. split; [|done]. split; [by quietly Q | done | done]. Qed.

Lemma building_error es dcs t : building es dcs t -> building es dcs (lxb_html_tree_parse_error t).
Proof. intros (els & fin & [Q O S] & P). exists els, fin. split; [|done]. split; [by quietly Q | done | done]. Qed.

(** ** The functions of "in body" *)

(** The token is done with, and the builder has [es] open. *)
Definition did (es : list open_element) (dcs : list dom_item) (t : html_tree) (r : bool) (t' : html_tree) : Prop :=
  r = true /\ building es dcs t' /\ rest t' = rest t.

Section Handlers.
Context `{TreeModes}.
Context (es : list open_element) (dcs : list dom_item) (t : html_tree) (B : building es dcs t).

Lemma block_ok kd : es <> [] -> deep es -> tok_tag_id (t_token t) = fst kd -> gives (t_token t) (snd kd) -> plain (fst kd) = true -> p_open es = false ->
  wp lxb_html_tree_insertion_mode_in_body_abcdfhmnopsu (did ((kd, []) :: es) dcs t) t.
Proof.
  intros Hes Hd Hk Hb Hp Hno. unfold lxb_html_tree_insertion_mode_in_body_abcdfhmnopsu. apply wp_bind.
  eapply building_no_p; [exact B | done|]. eapply wp_open_token; [exact B | done..|]. intros t' B' R' _. by wps.
Qed.

Lemma other_ok kd : es <> [] -> deep es -> tok_tag_id (t_token t) = fst kd -> gives (t_token t) (snd kd) -> plain (fst kd) = true ->
  wp lxb_html_tree_insertion_mode_in_body_anything_else (did ((kd, []) :: es) dcs t) t.
Proof.
  intros Hes Hd Hk Hb Hp. unfold lxb_html_tree_insertion_mode_in_body_anything_else. eapply building_reconstruct; [exact B|]. intros B1.
  eapply wp_open_token; [exact B1 | done..|]. intros t' B' R' _. by wps.
Qed.

Lemma wp_acknowledge k Q : (forall t', building es dcs t' -> rest t' = rest t -> Q tt t') -> wp (lxb_html_tree_acknowledge_token_self_closing k) Q t.
Proof.
  intros HQ. unfold lxb_html_tree_acknowledge_token_self_closing. destruct (_ =? 0); [by wps; apply HQ|].
  destruct (lxb_html_tag_is_void _); cbn [when]; wps; apply HQ; [by apply building_error | done | done | done].
Qed.
End Handlers.

Lemma void_ok `{TreeModes} k cs es dcs t void : building ((k, cs) :: es) dcs t -> deep ((k, cs) :: es) ->
  tok_tag_id (t_token t) = fst void -> gives (t_token t) (snd void) -> plain (fst void) = true ->
  wp lxb_html_tree_insertion_mode_in_body_abeikw (did ((k, cs ++ [Item (element_label void) []]) :: es) dcs t) t.
Proof.
  intros B Hd Hk Hb Hp. unfold lxb_html_tree_insertion_mode_in_body_abeikw, insert_void. eapply building_reconstruct; [exact B|]. intros B1.
  eapply wp_open_token; [exact B1 | done..|]. intros t' B' R' _. unfold oe_pop. wps.
  destruct (building_top _ _ _ _ _ B') as (i & l & els & fin & Bt & _). rewrite (pop_is _ (open_ne _ _ _ _ _ _ Bt)).
  apply building_close in B'. unfold acknowledge_self_closing. wps. eapply wp_acknowledge; [exact B'|]. intros t2 B2 R2.
  unfold not_frameset_ok. wps. split; [done|]. split; [by apply building_frameset|]. exact (eq_trans R2 R').
Qed.

(** End tags. *)
Lemma block_closed_ok `{TreeModes} k cs k' cs' es dcs t : building ((k, cs) :: (k', cs') :: es) dcs t -> tok_tag_id (t_token t) = fst k ->
  one_of (fst k) implied_tags = false ->
  wp lxb_html_tree_insertion_mode_in_body_abcdfhlmnopsu_closed (did ((k', cs' ++ [Item (element_label k) cs]) :: es) dcs t) t.
Proof.
  intros B Hk Hi. destruct (building_top _ _ _ _ _ B) as (i & l & els & fin & Bt & _).
  unfold lxb_html_tree_insertion_mode_in_body_abcdfhlmnopsu_closed, token_tag, if_in_scope, in_scope_default, in_scope_of. wps. rewrite Hk.
  eapply wp_getO; [eapply scope_top; [exact Bt | by eapply top_tag]|]. cbn iota. unfold end_element. apply wp_bind, wp_bind.
  eapply wp_implied_top; [exact Bt | by left |]. apply wp_bind. eapply wp_expect_top; [exact Bt|].
  eapply wp_pop_top; [exact Bt|]. wps. split; [done|]. split; [by apply building_close | done].
Qed.

Lemma p_closed_ok `{TreeModes} k cs k' cs' es dcs t : building ((k, cs) :: (k', cs') :: es) dcs t -> fst k = LXB_TAG_P ->
  wp lxb_html_tree_insertion_mode_in_body_p_closed (did ((k', cs' ++ [Item (element_label k) cs]) :: es) dcs t) t.
Proof.
  intros B Hk. destruct (building_top _ _ _ _ _ B) as (i & l & els & fin & Bt & _).
  pose proof (top_tag _ _ _ _ _ _ _ _ Bt) as Htop. rewrite Hk in Htop.
  unfold lxb_html_tree_insertion_mode_in_body_p_closed, in_scope_of. wps.
  eapply wp_getO; [eapply scope_top; [exact Bt | exact Htop]|]. cbn iota. wps. unfold close_p.
  assert (Himp : wp (implied_end_tags LXB_TAG_P LXB_NS_HTML) (fun _ t' => t' = t) t) by (eapply wp_implied_top; [exact Bt | right; by rewrite Hk | done]).
  destruct Himp as (u & t' & E & ->). unfold implied_end_tags, putO in E.
  destruct (top_node _ _ _ _ _ _ _ _ Bt) as (n & Hn & Et & En). rewrite Hk in Et.
  eapply wp_putO.
  - unfold lxb_html_tree_close_p_element. destruct (lxb_html_tree_generate_implied_end_tags t LXB_TAG_P LXB_NS_HTML); [|done].
    cbn in E. injection E as _ ->. cbn [mbind option_bind]. rewrite (current_is _ _ _ _ _ _ Bt), Hn. cbn [mbind option_bind].
    unfold lxb_html_tree_node_is, node_is. rewrite Et, En, !Z.eqb_refl. cbn [andb negb].
    unfold lxb_html_tree_open_elements_pop_until_tag_id. eapply pop_top; [exact Bt | exact Htop].
  - wps. split; [done|]. split; [by apply building_close | done].
Qed.

Lemma other_closed_ok `{TreeModes} k cs k' cs' es dcs t : building ((k, cs) :: (k', cs') :: es) dcs t -> tok_tag_id (t_token t) = fst k ->
  wp lxb_html_tree_insertion_mode_in_body_anything_else_closed (did ((k', cs' ++ [Item (element_label k) cs]) :: es) dcs t) t.
Proof.
  intros B Hk. destruct (building_top _ _ _ _ _ B) as (i & l & els & fin & Bt & _).
  unfold lxb_html_tree_insertion_mode_in_body_anything_else_closed, token_tag. wps. rewrite Hk.
  destruct (top_of _ _ _ _ _ _ _ _ Bt) as (n & Hlen & Hi). rewrite Hlen. cbn [closed_loop]. apply wp_bind. eapply wp_getO; [exact Hi|].
  destruct (top_node _ _ _ _ _ _ _ _ Bt) as (m & Hn & Et & En). unfold node. apply wp_bind. eapply wp_getO; [exact Hn|].
  unfold lxb_html_tree_node_is, node_is. rewrite Et, En, !Z.eqb_refl. cbn [andb]. apply wp_bind.
  eapply wp_implied_top; [exact Bt | by right |]. unfold current_node. wps. rewrite (current_is _ _ _ _ _ _ Bt), bool_decide_true by done.
  cbn [negb]. wps. eapply wp_getO; [done|]. unfold pop_until_node. wps. eapply wp_putO.
  - unfold lxb_html_tree_open_elements_pop_until_node. eapply pop_top; [exact Bt|]. unfold is_ptr. by rewrite bool_decide_true.
  - wps. split; [done|]. split; [by apply building_close | done].
Qed.

(** Text and comments. *)
Lemma wp_text_append s k cs es dcs t Q : building ((k, cs) :: es) dcs t ->
  (forall t', building ((k, add_text cs s) :: es) dcs t' -> rest t' = rest t -> t_status t' = LXB_STATUS_OK -> Q LXB_STATUS_OK t') ->
  wp (lxb_html_tree_insertion_mode_in_body_text_append s) Q t.
Proof.
  intros B HQ. unfold lxb_html_tree_insertion_mode_in_body_text_append, lxb_html_tree_active_formatting_reconstruct_elements. wps.
  assert (fmt_list t = []) as Hf by (destruct B as (? & ? & Bt & _); apply Bt). unfold fmt_length, length_of.
  fold (fmt_list t). rewrite Hf. cbn [length]. wps. change (negb (LXB_STATUS_OK =? LXB_STATUS_OK)) with false. cbn iota.
  assert (building ((k, cs) :: es) dcs (set_t_status LXB_STATUS_OK t)) as B1.
  { destruct B as (els & fin & Bt & P). exists els, fin. split; [by apply built_status | done]. }
  destruct (building_top _ _ _ _ _ B1) as (i & l & els & fin & Bt & P). pose proof P as P'. apply Forall_cons in P' as [Pt _].
  destruct (plain_facts _ Pt) as (_ & _ & Ht & _). apply wp_bind. eapply (wp_insert_data s); [exact Bt | exact Ht | | ].
  { intros E. change (plain (fst k) = true) in Pt. by rewrite E in Pt. }
  intros r l' h t' B'. cbn beta iota. wps. change (negb (LXB_STATUS_OK =? LXB_STATUS_OK)) with false. cbn iota. wps.
  assert (building ((k, add_text cs s) :: es) dcs (set_t_status LXB_STATUS_OK t')) as B2.
  { exists ((i, l') :: els), fin. split; [by apply built_status|]. apply Forall_cons in P as [P0 P]. by constructor. }
  destruct (_ && _); cbn [when]; unfold not_frameset_ok; wps; apply HQ; [by apply building_frameset | done | done | done | done | done].
Qed.

Lemma text_ok `{TreeModes} s k cs es dcs t : building ((k, cs) :: es) dcs t -> text_is pc_drop_null (t_token t) s -> s <> [] ->
  wp lxb_html_tree_insertion_mode_in_body_text (did ((k, add_text cs s) :: es) dcs t) t.
Proof.
  intros B [pc' Hs] Hne. unfold lxb_html_tree_insertion_mode_in_body_text, null_error, token_has. wps.
  assert (Hrest : forall t1, building ((k, cs) :: es) dcs t1 -> rest t1 = rest t -> t_token t1 = t_token t ->
    wp (token_text pc_drop_null (fun str => if (length str =? 0)%nat then done else _ ← lxb_html_tree_insertion_mode_in_body_text_append str; status_ok done))
      (did ((k, add_text cs s) :: es) dcs t) t1).
  { intros t1 B1 R1 K1. unfold token_text. wps. rewrite K1. eapply wp_getO; [exact Hs|]. cbn beta iota. unfold check_status. wps.
    change (LXB_STATUS_OK =? LXB_STATUS_OK) with true. cbn iota. destruct s as [|c s]; [done|]. cbn [length Nat.eqb]. apply wp_bind.
    assert (building ((k, cs) :: es) dcs (set_t_status LXB_STATUS_OK t1)) as B2.
    { destruct B1 as (els & fin & Bt & P). exists els, fin. split; [by apply built_status | done]. }
    eapply wp_text_append; [exact B2|]. intros t' B' R' S'. unfold status_ok. wps. rewrite S'.
    change (LXB_STATUS_OK =? LXB_STATUS_OK) with true. cbn iota. wps. split; [done|]. split; [exact B'|]. by rewrite R'. }
  destruct (negb _); cbn [when]; wps; apply Hrest; [by apply building_error | done..].
Qed.

Lemma remark_ok `{TreeModes} s k cs es dcs t : building ((k, cs) :: es) dcs t -> text_is pc_zero (t_token t) s ->
  tok_tag_id (t_token t) = LXB_TAG__EM_COMMENT ->
  wp lxb_html_tree_insertion_mode_in_body_comment (did ((k, cs ++ [Item (comment_label s) []]) :: es) dcs t) t.
Proof.
  intros B Hs Hk. destruct (building_top _ _ _ _ _ B) as (i & l & els & fin & Bt & P). pose proof P as P'. apply Forall_cons in P' as [Pt _].
  destruct (plain_facts _ Pt) as (_ & _ & Ht & _).
  unfold lxb_html_tree_insertion_mode_in_body_comment, comment_done, insert_comment_at. wps.
  eapply wp_insert_comment; [exact Bt | exact Ht | exact Hk | exact Hs|]. intros e h t' B'. cbn [not_null]. wps.
  split; [done|]. split; [|done]. exists ((i, l ++ [Node e []]) :: els), fin. split; [exact B'|]. apply Forall_cons in P as [P0 P]. by constructor.
Qed.

(** ** One token *)

Definition closes (k : html_token) : bool := negb (Z.land (tok_type k) LXB_HTML_TOKEN_TYPE_CLOSE =? 0).

(** The token of an event. *)
Definition shows (e : event) (k : html_token) : Prop :=
  match e with
  | Open kd | Void kd => tok_tag_id k = fst kd /\ closes k = false /\ gives k (snd kd)
  | Close tag => tok_tag_id k = tag /\ closes k = true
  | Chars s => tok_tag_id k = LXB_TAG__TEXT /\ closes k = false /\ text_is pc_drop_null k s /\ s <> []
  | Remark s => tok_tag_id k = LXB_TAG__EM_COMMENT /\ closes k = false /\ text_is pc_zero k s
  end.

Lemma plain_tags tag : one_of tag ((LXB_TAG_P :: block_tags) ++ other_tags ++ void_tags) = true -> plain tag = true.
Proof.
  intros Ht. unfold one_of in Ht. apply existsb_exists in Ht as (x & Hx & E). apply Z.eqb_eq in E as <-. revert tag Hx.
  apply forallb_forall. reflexivity.
Qed.

Lemma one_of_app c l1 l2 : one_of c (l1 ++ l2) = one_of c l1 || one_of c l2.
Proof. apply existsb_app. Qed.

(** The row of all tags of a list. *)
Ltac to_row n Hr := lazymatch goal with |- wp (nth (row_of ?tag ?rows) _ _) _ _ => let tags := lazymatch type of Hr with one_of _ ?tags = true => tags end in rewrite (row_all tags n rows tag eq_refl Hr); cbn [nth] end.

Section Step.
Context `{TreeModes}.

Lemma open_row tag next Q t : tok_tag_id (t_token t) = tag -> closes (t_token t) = false ->
  (one_of tag (LXB_TAG_P :: block_tags) = true /\ next = lxb_html_tree_insertion_mode_in_body_abcdfhmnopsu \/
   one_of tag other_tags = true /\ next = lxb_html_tree_insertion_mode_in_body_anything_else \/
   one_of tag void_tags = true /\ next = lxb_html_tree_insertion_mode_in_body_abeikw \/
   tag = LXB_TAG__TEXT /\ next = lxb_html_tree_insertion_mode_in_body_text \/
   tag = LXB_TAG__EM_COMMENT /\ next = lxb_html_tree_insertion_mode_in_body_comment) ->
  wp next Q t -> wp lxb_html_tree_insertion_mode_in_body Q t.
Proof.
  intros Hk Hc Hrow HQ. apply negb_false_iff in Hc. unfold lxb_html_tree_insertion_mode_in_body.
  apply wp_on_tables.
  - assert (plain tag = true \/ tag = LXB_TAG__TEXT \/ tag = LXB_TAG__EM_COMMENT) as Hp.
    { destruct Hrow as [[Hr _]|[[Hr _]|[[Hr _]|[[Hr _]|[Hr _]]]]]; [left; apply plain_tags; rewrite !one_of_app, Hr.. | by right; left | by right; right];
        by rewrite ?orb_true_r. }
    rewrite Hk. destruct Hp as [Hp|[->| ->]]; [apply plain_facts in Hp as (_ & Hl & _); exact Hl | reflexivity..].
  - rewrite Hc. unfold lxb_html_tree_insertion_mode_in_body_res. apply wp_on_tag. rewrite Hk. cbn [map fst snd].
    destruct Hrow as [[Hr ->]|[[Hr ->]|[[Hr ->]|[[-> ->]|[-> ->]]]]]; [to_row 5%nat Hr | to_row 38%nat Hr | to_row 7%nat Hr | exact HQ | exact HQ]; exact HQ.
Qed.
Lemma close_row tag next Q t : tok_tag_id (t_token t) = tag -> closes (t_token t) = true ->
  (one_of tag block_tags = true /\ next = lxb_html_tree_insertion_mode_in_body_abcdfhlmnopsu_closed \/
   one_of tag other_tags = true /\ next = lxb_html_tree_insertion_mode_in_body_anything_else_closed \/
   tag = LXB_TAG_P /\ next = lxb_html_tree_insertion_mode_in_body_p_closed) ->
  wp next Q t -> wp lxb_html_tree_insertion_mode_in_body Q t.
Proof.
  intros Hk Hc Hrow HQ. apply negb_true_iff in Hc. unfold lxb_html_tree_insertion_mode_in_body. apply wp_on_tables.
  - assert (plain tag = true) as Hp.
    { apply plain_tags. destruct Hrow as [[Hr _]|[[Hr _]|[-> _]]]; [| |done]; cbn [app]; change (LXB_TAG_P :: ?l) with ([LXB_TAG_P] ++ l);
        rewrite !one_of_app, Hr; by rewrite ?orb_true_r. }
    rewrite Hk. apply plain_facts in Hp as (_ & Hl & _). exact Hl.
  - rewrite Hc. unfold lxb_html_tree_insertion_mode_in_body_closed_res. apply wp_on_tag. rewrite Hk. cbn [map fst snd].
    destruct Hrow as [[Hr ->]|[[Hr ->]|[-> ->]]]; [to_row 2%nat Hr | to_row 13%nat Hr |]; exact HQ.
Qed.

(** Every event keeps the relation, and is done with. *)
Lemma in_body_ok e es es' dcs t : building es dcs t -> event_step e es = Some es' -> deep es -> shows e (t_token t) ->
  wp lxb_html_tree_insertion_mode_in_body (did es' dcs t) t.
Proof.
  intros B He Hd Hs. destruct es as [|[k' cs] es]; [by destruct e|]. destruct e as [[tag at_]|tag|[tag at_]|s|s]; cbn [event_step fst] in He.
  - destruct Hs as (Hk & Hc & Hb). cbn [fst snd] in Hk, Hb. destruct (one_of tag (LXB_TAG_P :: block_tags)) eqn:E1.
    + assert (plain tag = true) as Hp by (apply plain_tags; rewrite one_of_app, E1; done).
      match type of He with context [p_open ?x] => destruct (p_open x) eqn:E2 end; cbn [andb negb orb] in He.
      * destruct (one_of tag other_tags) eqn:E3; [|done]. injection He as <-. eapply (open_row tag); [done | done | right; left; done |].
        by apply other_ok.
      * injection He as <-. eapply (open_row tag); [done | done | left; done |]. by apply block_ok.
    + cbn [andb orb] in He. destruct (one_of tag other_tags) eqn:E3; [|done]. injection He as <-.
      eapply (open_row tag); [done | done | right; left; done |]. apply other_ok; try done.
      apply plain_tags. cbn [fst]. rewrite !one_of_app, E3. by rewrite orb_true_r.
  - destruct Hs as (Hk & Hc). destruct es as [|[k'' cs'] es]; [done|]. destruct (tag =? fst k') eqn:E; [|done]. apply Z.eqb_eq in E.
    cbn [andb] in He. destruct (one_of tag (LXB_TAG_P :: block_tags ++ other_tags)) eqn:E1; [|done]. injection He as <-.
    change (LXB_TAG_P :: block_tags ++ other_tags) with ([LXB_TAG_P] ++ block_tags ++ other_tags) in E1. rewrite !one_of_app in E1.
    destruct (one_of tag block_tags) eqn:E2; [|destruct (one_of tag other_tags) eqn:E3].
    + eapply (close_row tag); [done | done | left; done |]. apply block_closed_ok; [done | by rewrite Hk | rewrite <- E].
      apply not_true_iff_false. clear E. intros E. apply one_of_true in E. apply one_of_true in E2. revert E E2. clear.
      intros E. repeat (destruct E as [<-|E]; [by intros E2; apply one_of_true in E2|]). done.
    + eapply (close_row tag); [done | done | right; left; done |]. apply other_closed_ok; [done | by rewrite Hk].
    + rewrite !orb_false_r in E1. apply one_of_true in E1 as [<-|[]]. eapply (close_row LXB_TAG_P); [done | done | right; right; done |].
      apply p_closed_ok; [done | by symmetry].
  - destruct (one_of tag void_tags) eqn:E; [|done]. injection He as <-. destruct Hs as (Hk & Hc & Hb). cbn [fst snd] in Hk, Hb.
    eapply (open_row tag); [done | done | right; right; left; done |]. apply void_ok; try done.
    apply plain_tags. cbn [fst]. rewrite !one_of_app, E. by rewrite !orb_true_r.
  - injection He as <-. destruct Hs as (Hk & Hc & Hs & Hne). eapply (open_row LXB_TAG__TEXT); [done | done | do 3 right; left; done |]. by apply text_ok.
  - injection He as <-. destruct Hs as (Hk & Hc & Hs). eapply (open_row LXB_TAG__EM_COMMENT); [done | done | do 4 right; done |]. by apply remark_ok.
Qed.
End Step.

(** ** The dispatcher and the callback *)

(** Nothing is open, or the current node is an element of HTML: the mode is called. *)
Lemma wp_dispatcher m es dcs t Q : building es dcs t -> t_mode t = Some m ->
  wp (@mode_function _ _ (run_mode 7) m) Q t -> wp lxb_html_tree_construction_dispatcher Q t.
Proof.
  intros B Hm HQ. assert (Hcall : wp (@call_current modes) Q t) by (unfold call_current; apply wp_bind; by eapply wp_getO).
  unfold lxb_html_tree_construction_dispatcher. wps. unfold open_length, length_of. fold (open_list t). rewrite (building_length _ _ _ B).
  destruct es as [|[k cs] es]; cbn [length Nat.eqb]; [by wps|]. destruct (building_top _ _ _ _ _ B) as (i & l & els & fin & Bt & _).
  destruct (top_node _ _ _ _ _ _ _ _ Bt) as (n & Hn & _ & En). unfold lxb_html_tree_adjusted_current_node.
  rewrite (q_fragment t (b_quiet _ _ _ _ Bt)), (current_is _ _ _ _ _ _ Bt). unfold node. wps. eapply wp_getO; [exact Hn|]. wps.
  rewrite En. exact Hcall.
Qed.

(** A token that the mode is done with. *)
Lemma wp_insertion_mode m es dcs t (R : html_tree -> Prop) : building es dcs t -> t_mode t = Some m ->
  wp (@mode_function _ _ (run_mode 7) m) (fun r t' => r = true /\ t_status t' = LXB_STATUS_OK /\ R t') t ->
  forall fuel, wp (insertion_loop (S fuel)) (fun s t' => s = LXB_STATUS_OK /\ R t') t.
Proof.
  intros B Hm Hw fuel. cbn [insertion_loop]. apply wp_bind. eapply wp_dispatcher; [exact B | exact Hm|].
  eapply wp_weaken; [exact Hw|]. intros r t' (-> & Hs & HR). by wps.
Qed.

(** The tag of a token, found by its name. *)
Definition resolves (k : html_token) (tag : Z) : Prop :=
  tag <> LXB_TAG__UNDEF /\
  (tok_tag_id k = tag \/
   tok_tag_id k = LXB_TAG__UNDEF /\ forall h, exists h', lxb_html_token_tag_id_from_data tb_nodes tb_byte h k = Some (h', tag)).

(** What the builder is after a token was done with: in the mode [m], with [es] open,
    and the tokenizer goes on as it is. *)
Definition stands (m : insertion_mode) (es : list open_element) (dcs : list dom_item) (t : html_tree) : Prop :=
  building es dcs t /\ t_mode t = Some m /\ t_tkz_state t = None /\ t_tkz_tag t = None.

Definition accepted (R : html_tree -> Prop) (r : bool * option Z) (t : html_tree) : Prop := r = (true, None) /\ R t.

Lemma wp_callback k tag m es dcs t (R : html_tree -> Prop) : stands m es dcs t -> resolves k tag ->
  (forall t1, stands m es dcs t1 -> t_token t1 = with_tag_id tag k -> wp lxb_html_tree_insertion_mode (fun s t' => s = LXB_STATUS_OK /\ R t') t1) ->
  wp (lxb_html_tree_token_callback k) (accepted R) t.
Proof.
  intros ((els & fin & [Q O S] & P) & Hm & _ & _) [Htag Hk] Hw. unfold lxb_html_tree_token_callback, take_token. apply wp_bind, wp_bind, wp_put, wp_bind.
  assert (Hafter : forall t1, stands m es dcs t1 -> t_token t1 = k ->
    wp (put (fun t => set_t_token (with_tag_id tag (t_token t)) t);; mret tag)
      (fun tag => wp (if tag =? LXB_TAG__UNDEF then mret (false, Some LXB_STATUS_ERROR)
        else status ← lxb_html_tree_insertion_mode; if negb (status =? LXB_STATUS_OK) then mret (false, Some status) else mret (true, None)) (accepted R)) t1).
  { intros t1 ((els1 & fin1 & [Q1 O1 S1] & P1) & Hrest) K1. wps. rewrite (proj2 (Z.eqb_neq _ _)) by done. apply wp_bind.
    eapply wp_weaken; [apply Hw|].
    - split; [|exact Hrest]. exists els1, fin1. split; [|done]. split; [by quietly Q1 | exact O1 | exact S1].
    - cbn. by rewrite K1.
    - intros s t' [-> HR]. change (negb (LXB_STATUS_OK =? LXB_STATUS_OK)) with false. cbn iota. by wps. }
  destruct Hk as [Hk|[Hk Hh]]; rewrite Hk.
  - rewrite (proj2 (Z.eqb_neq _ _)) by done. apply wp_ret, Hafter; [|done]. split; [|done]. exists els, fin. split; [|done].
    split; [by quietly Q | exact O | exact S].
  - change (LXB_TAG__UNDEF =? LXB_TAG__UNDEF) with true. cbn iota. wps. destruct (Hh (doc_tags (d_owner (t_dom t)))) as [h' E].
    eapply wp_getO; [exact E|]. cbn beta iota. unfold set_tags. apply wp_bind, wp_put, wp_ret, Hafter; [|done]. split; [|done]. exists els, fin. split; [|done].
    split; [by quietly Q | exact O | exact S].
Qed.

(** ** In the body *)

(** The token, after its tag was found, is that of the event. *)
Definition told (e : event) (k : html_token) : Prop := exists tag, resolves k tag /\ shows e (with_tag_id tag k).

Lemma building_status es dcs t : building es dcs t -> t_status t = LXB_STATUS_OK.
Proof. intros (els & fin & [Q _ _] & _). apply Q. Qed.

Lemma event_ok e k es es' dcs t : stands IM_in_body es dcs t -> event_step e es = Some es' -> deep es -> told e k ->
  wp (lxb_html_tree_token_callback k) (accepted (stands IM_in_body es' dcs)) t.
Proof.
  intros St He Hd (tag & Hr & Hs). eapply wp_callback; [exact St | exact Hr|]. intros t1 (B & Hm & Hst & Htag) K1.
  unfold lxb_html_tree_insertion_mode. apply wp_bind, wp_get. unfold loop_fuel.
  destruct (16 * _)%nat as [|fuel] eqn:E; [lia|]. eapply wp_insertion_mode; [exact B | exact Hm|].
  cbn [mode_function]. eapply wp_weaken; [eapply in_body_ok; [exact B | exact He | exact Hd | by rewrite K1]|].
  intros r t' (-> & B' & R'). injection R' as Rm Rs Rt. split; [done|]. split; [by eapply building_status|]. split; [exact B'|].
  by rewrite Rm, Rs, Rt.
Qed.

(** The events one after the other. *)
Fixpoint events (l : list event) (es : list open_element) : option (list open_element) :=
  match l with [] => Some es | e :: l => es ← event_step e es; events l es end.

Lemma event_length e es es' : event_step e es = Some es' -> (length es' <= S (length es))%nat.
Proof.
  destruct e, es as [|[tag' cs] es]; try done; cbn [event_step]; intros E; try (destruct (_ || _); [|done]); try (destruct (one_of _ _); [|done]);
    try (destruct es as [|[tag'' cs''] es]; [done|]; destruct (_ && _); [|done]); injection E as <-; cbn; lia.
Qed.

(** ** The document around the body *)

(** A token that is done with by the mode that gets it. *)
Lemma token_ok e k m es dcs t (R : html_tree -> Prop) : stands m es dcs t -> told e k ->
  (forall t1 tag, stands m es dcs t1 -> t_token t1 = with_tag_id tag k -> shows e (with_tag_id tag k) ->
     wp (@mode_function _ _ (run_mode 7) m) (fun r t' => r = true /\ t_status t' = LXB_STATUS_OK /\ R t') t1) ->
  wp (lxb_html_tree_token_callback k) (accepted R) t.
Proof.
  intros St (tag & Hr & Hs) Hw. eapply wp_callback; [exact St | exact Hr|]. intros t1 St1 K1.
  unfold lxb_html_tree_insertion_mode. apply wp_bind, wp_get. unfold loop_fuel. destruct (16 * _)%nat as [|fuel] eqn:E; [lia|].
  pose proof St1 as (B & Hm & _). eapply wp_insertion_mode; [exact B | exact Hm|]. by eapply Hw.
Qed.

Lemma stands_rest m es dcs t es' t' : stands m es dcs t -> building es' dcs t' -> rest t' = rest t -> stands m es' dcs t'.
Proof. intros (_ & Hm & Hs & Ht) B R. injection R as Rm Rs Rt. split; [exact B|]. by rewrite Rm, Rs, Rt. Qed.

Lemma stands_status m es dcs t : stands m es dcs t -> t_status t = LXB_STATUS_OK.
Proof. intros (B & _). by eapply building_status. Qed.

(** After writes to other fields. *)
Ltac still St :=
  let Q := fresh in let O := fresh in let S := fresh in
  destruct St as ((? & ? & [Q O S] & ?) & ? & ? & ?); split; [|by split_and?]; do 2 eexists;
    (split; [split; [by quietly Q | exact O | exact S] | done]).

(** [<html>] *)
Lemma html_start_ok ah t : stands IM_before_html [] [] t -> tok_tag_id (t_token t) = LXB_TAG_HTML -> gives (t_token t) ah ->
  wp html_start (fun r t' => r = true /\ t_status t' = LXB_STATUS_OK /\ stands IM_before_head [((LXB_TAG_HTML, ah), [])] [] t') t.
Proof.
  intros St Hk Hb. pose proof St as ((els & fin & [Q O S] & P) & Hm & Hs & Ht).
  destruct els as [|x els]; [|destruct S as (_ & F & _); apply Forall2_length in F; cbn in F; rewrite length_app in F; cbn in F; lia].
  unfold html_start. wps. eapply wp_weaken; [eapply (wp_create_element _ (LXB_TAG_HTML, ah)); [done | done | done | apply Q]|].
  intros r t1 Hme. destruct (made_insert _ _ _ _ _ _ _ _ S Hme) as (e & -> & Hins). destruct Hme as (_ & _ & d0 & _ & -> & _).
  cbn [not_null]. apply wp_bind. unfold lxb_html_tree_insertion_mode_before_html_html. apply wp_bind.
  eapply wp_push; [by quietly Q | unfold room; replace (open_list _) with (open_list t) by done; by rewrite O |]. intros a Ha Ei.
  change (negb (LXB_STATUS_OK =? LXB_STATUS_OK)) with false. cbn iota. apply wp_bind, wp_get, wp_bind.
  apply Hins; [done|]. intros d Sh. wps.
  unfold check_status. wps. change (LXB_STATUS_OK =? LXB_STATUS_OK) with true. cbn iota. wps. split; [done|]. split; [done|].
  split; [|done]. exists [(e, [])], fin. split; [|by constructor]. split; [by quietly Q | | exact Sh].
  transitivity (open_list t ++ [Some e]); [exact Ei|]. by rewrite O.
Qed.

Lemma start_ok ah k t : stands IM_initial [] [] t -> told (Open (LXB_TAG_HTML, ah)) k ->
  wp (lxb_html_tree_token_callback k) (accepted (stands IM_before_head [((LXB_TAG_HTML, ah), [])] [])) t.
Proof.
  intros St (tag & Hr & Hs & Hc & Hb). eapply wp_callback; [exact St | exact Hr|]. intros t1 St1 K1.
  unfold lxb_html_tree_insertion_mode. apply wp_bind, wp_get. unfold loop_fuel. destruct (16 * _)%nat as [|[|fuel]] eqn:E; [lia..|].
  pose proof St1 as (B & Hm & _). cbn [insertion_loop]. apply wp_bind. eapply wp_dispatcher; [exact B | exact Hm|].
  cbn [mode_function]. unfold lxb_html_tree_insertion_mode_initial. apply wp_on_tag. rewrite K1, Hs. cbn [map fst snd].
  change (row_of LXB_TAG_HTML _) with 3%nat. cbn [nth]. unfold initial_default. apply wp_bind, wp_get.
  assert (Hlast : forall t2, stands IM_initial [] [] t2 -> t_token t2 = with_tag_id tag k ->
    wp (mode_is IM_before_html;; again) (fun r t' => wp (if r then get t_status else insertion_loop (S fuel))
      (fun s t' => s = LXB_STATUS_OK /\ stands IM_before_head [((LXB_TAG_HTML, ah), [])] [] t') t') t2).
  { intros t2 St2 K2. wps. assert (St3 : stands IM_before_html [] [] (set_mode (Some IM_before_html) t2)) by still St2.
    eapply (wp_insertion_mode IM_before_html); [apply St3 | done|]. cbn [mode_function]. unfold lxb_html_tree_insertion_mode_before_html.
    apply wp_on_close. cbn [t_token set_mode]. rewrite K2. apply negb_false_iff in Hc. rewrite Hc.
    unfold lxb_html_tree_insertion_mode_before_html_open. apply wp_on_tag. cbn [t_token set_mode]. rewrite K2, Hs. cbn [map fst snd].
    change (row_of LXB_TAG_HTML _) with 2%nat. cbn [nth]. eapply html_start_ok; [exact St3 | cbn; by rewrite K2 | cbn; by rewrite K2]. }
  eapply (wp_seq (fun _ t2 => stands IM_initial [] [] t2 /\ t_token t2 = with_tag_id tag k)); [|intros _ t2 [St2 K2]; by apply Hlast].
  destruct (negb _); cbn [when]; unfold set_compat_mode; wps; (split; [|done]); still St1.
Qed.

(** [<head>], [</head>], [<body>] *)
Lemma deep_small es : (length es <= 2)%nat -> deep es.
Proof. unfold deep, SIZE_MAX. lia. Qed.

Lemma open_stands m k kd es dcs t : stands m es dcs t -> es <> [] -> deep es -> tok_tag_id k = fst kd -> gives k (snd kd) -> plain (fst kd) = true ->
  wp (lxb_html_tree_insert_html_element k) (fun r t' => exists e, r = Some e /\ stands m ((kd, []) :: es) dcs t') t.
Proof.
  intros St Hes Hd Hk Hb Hp. pose proof St as (B & _). destruct es as [|[k' cs] es]; [done|]. destruct (building_top _ _ _ _ _ B) as (i & l & els & fin & B' & P).
  eapply (wp_insert_element k kd); [exact B' | | | done..|].
  - apply Forall_cons in P as [P _]. destruct (plain_facts _ P) as (_ & _ & Ht & _). by repeat eexists.
  - unfold room. by rewrite (building_length _ _ _ B).
  - intros e a d t' Bt. exists e. split; [done|]. eapply stands_rest; [exact St | | done]. exists ((e, []) :: (i, l) :: els), fin. split; [exact Bt | by constructor].
Qed.

(** All elements of the stack can be looked at. *)
Lemma search_up_total test (l : list (option positive)) : (forall p, p ∈ l -> is_Some (test p)) -> forall n i, (i + n <= length l)%nat -> is_Some (search_up test l n i).
Proof.
  intros Ht. induction n as [|n IH]; intros i Hi; [done|]. cbn [search_up]. destruct (lookup_lt_is_Some_2 l i) as [p Hp]; [lia|]. rewrite Hp.
  destruct (Ht p) as [b Hb]; [by eapply list_elem_of_lookup_2|]. cbn. rewrite Hb. cbn. destruct b; [done|]. apply IH. lia.
Qed.

Lemma check_scope_total es dcs t : building es dcs t -> is_Some (lxb_html_tree_check_scope_element t).
Proof.
  intros (els & fin & B & _). destruct (built_stack _ _ _ _ B) as [Ho Hl]. unfold lxb_html_tree_check_scope_element.
  match goal with |- is_Some (search_up ?test ?l ?len 0 ≫= _) =>
    assert (Ht : forall p, p ∈ l -> is_Some (test p)); [|destruct (search_up_total test l Ht len 0) as [r Hr]; [done | by rewrite Hr]] end.
  intros p Hp. rewrite Ho in Hp. apply list_elem_of_fmap in Hp as (i & -> & Hi). destruct (Hl i Hi) as [n Hn]. unfold node_at. cbn. by rewrite Hn.
Qed.

Lemma head_open_ok ah ad k t : stands IM_before_head [((LXB_TAG_HTML, ah), [])] [] t -> told (Open (LXB_TAG_HEAD, ad)) k ->
  wp (lxb_html_tree_token_callback k) (accepted (stands IM_in_head [((LXB_TAG_HEAD, ad), []); ((LXB_TAG_HTML, ah), [])] [])) t.
Proof.
  intros St Hk. eapply token_ok; [exact St | exact Hk|]. intros t1 tag St1 K1 (Hs & Hc & Hb). apply negb_false_iff in Hc.
  cbn [mode_function]. unfold lxb_html_tree_insertion_mode_before_head. apply wp_on_close. rewrite K1, Hc.
  unfold lxb_html_tree_insertion_mode_before_head_open. apply wp_on_tag. rewrite K1, Hs. cbn [map fst snd].
  change (row_of LXB_TAG_HEAD _) with 3%nat. cbn [nth]. apply wp_bind, wp_get, wp_bind. rewrite K1.
  unfold lxb_html_tree_insertion_mode_before_head_head.
  apply wp_bind. eapply wp_weaken; [eapply open_stands; [exact St1 | done | by apply deep_small; cbn; lia | exact Hs | exact Hb | done]|]. intros r t2 (e & -> & St2). cbn iota. wps.
  unfold check_status. wps. change (LXB_STATUS_OK =? LXB_STATUS_OK) with true. cbn iota. wps. split; [done|]. split; [done|].
  still St2.
Qed.

Lemma head_closed_ok ah ad k t : stands IM_in_head [((LXB_TAG_HEAD, ad), []); ((LXB_TAG_HTML, ah), [])] [] t -> told (Close LXB_TAG_HEAD) k ->
  wp (lxb_html_tree_token_callback k) (accepted (stands IM_after_head [((LXB_TAG_HTML, ah), [Item (element_label (LXB_TAG_HEAD, ad)) []])] [])) t.
Proof.
  intros St Hk. eapply token_ok; [exact St | exact Hk|]. intros t1 tag St1 K1 (Hs & Hc). apply negb_true_iff in Hc.
  cbn [mode_function]. unfold lxb_html_tree_insertion_mode_in_head. apply wp_on_close. rewrite K1, Hc.
  unfold lxb_html_tree_insertion_mode_in_head_closed. apply wp_on_tag. rewrite K1, Hs. cbn [map fst snd].
  change (row_of LXB_TAG_HEAD _) with 0%nat. cbn [nth]. unfold oe_pop. wps. pose proof St1 as (B & _).
  destruct (building_top _ _ _ _ _ B) as (i & l & els & fin & Bt & _). rewrite (pop_is _ (open_ne _ _ _ _ _ _ Bt)).
  apply building_close in B. assert (St2 := stands_rest _ _ _ _ _ _ St1 B eq_refl). split; [done|]. split; [by eapply (stands_status _ _ _ _ St2)|].
  still St2.
Qed.

Lemma body_open_ok ah ab k h t : stands IM_after_head [((LXB_TAG_HTML, ah), h)] [] t -> told (Open (LXB_TAG_BODY, ab)) k ->
  wp (lxb_html_tree_token_callback k) (accepted (stands IM_in_body [((LXB_TAG_BODY, ab), []); ((LXB_TAG_HTML, ah), h)] [])) t.
Proof.
  intros St Hk. eapply token_ok; [exact St | exact Hk|]. intros t1 tag St1 K1 (Hs & Hc & Hb). apply negb_false_iff in Hc.
  cbn [mode_function]. unfold lxb_html_tree_insertion_mode_after_head. apply wp_on_close. rewrite K1, Hc.
  unfold lxb_html_tree_insertion_mode_after_head_open. apply wp_on_tag. rewrite K1, Hs. cbn [map fst snd].
  change (row_of LXB_TAG_BODY _) with 3%nat. cbn [nth]. apply wp_bind, wp_get, wp_bind. rewrite K1.
  unfold lxb_html_tree_insertion_mode_after_head_create_body.
  apply wp_bind. eapply wp_weaken; [eapply open_stands; [exact St1 | done | by apply deep_small; cbn; lia | exact Hs | exact Hb | done]|]. intros r t2 (e & -> & St2). cbn iota. wps.
  cbn [not_null]. wps. split; [done|]. split; [exact (stands_status _ _ _ _ St2)|]. still St2.
Qed.

(** [</body>], [</html>] and the end *)
Lemma body_closed_ok ab k es dcs cs t : stands IM_in_body (((LXB_TAG_BODY, ab), cs) :: es) dcs t -> told (Close LXB_TAG_BODY) k ->
  wp (lxb_html_tree_token_callback k) (accepted (stands IM_after_body (((LXB_TAG_BODY, ab), cs) :: es) dcs)) t.
Proof.
  intros St Hk. eapply token_ok; [exact St | exact Hk|]. intros t1 tag St1 K1 (Hs & Hc). apply negb_true_iff in Hc.
  cbn [mode_function]. unfold lxb_html_tree_insertion_mode_in_body. apply wp_on_tables; [by rewrite K1, Hs|]. rewrite K1, Hc.
  unfold lxb_html_tree_insertion_mode_in_body_closed_res. apply wp_on_tag. rewrite K1, Hs. cbn [map fst snd].
  change (row_of LXB_TAG_BODY _) with 4%nat. cbn [nth]. pose proof St1 as (B & _). destruct (building_top _ _ _ _ _ B) as (i & l & els & fin & Bt & _).
  unfold lxb_html_tree_insertion_mode_in_body_body_closed, body_closed, if_in_scope, in_scope_default, in_scope_of. apply wp_bind.
  eapply wp_getO; [eapply scope_top; [exact Bt | exact (top_tag _ _ _ _ _ _ _ _ Bt)]|]. cbn iota. apply wp_bind.
  destruct (check_scope_total _ _ _ B) as [b Hcheck]. eapply wp_getO; [exact Hcheck|].
  destruct b; cbn [negb when]; wps; (split; [done|]); (split; [exact (stands_status _ _ _ _ St1)|]); still St1.
Qed.

Lemma html_closed_ok k es dcs t : stands IM_after_body es dcs t -> told (Close LXB_TAG_HTML) k ->
  wp (lxb_html_tree_token_callback k) (accepted (stands IM_after_after_body es dcs)) t.
Proof.
  intros St Hk. eapply token_ok; [exact St | exact Hk|]. intros t1 tag St1 K1 (Hs & Hc). apply negb_true_iff in Hc.
  cbn [mode_function]. unfold lxb_html_tree_insertion_mode_after_body. apply wp_on_tag. rewrite K1, Hs. cbn [map fst snd].
  change (row_of LXB_TAG_HTML _) with 2%nat. cbn [nth]. apply wp_on_close. rewrite K1, Hc. wps.
  assert (t_fragment t1 = None) as -> by (destruct St1 as ((? & ? & [Q _ _] & _) & _); apply Q). wps.
  split; [done|]. split; [exact (stands_status _ _ _ _ St1)|]. still St1.
Qed.

Definition is_eof_token (k : html_token) : Prop := tok_tag_id k = LXB_TAG__END_OF_FILE.

Lemma eof_token_ok k es dcs t : stands IM_after_after_body es dcs t -> is_eof_token k ->
  wp (lxb_html_tree_token_callback k) (accepted (fun t' => stands IM_after_after_body es dcs t' /\ t_complete t' = true)) t.
Proof.
  intros St Hk. eapply (wp_callback k LXB_TAG__END_OF_FILE); [exact St | by split; [|left]|]. intros t1 St1 K1.
  unfold lxb_html_tree_insertion_mode. apply wp_bind, wp_get. unfold loop_fuel. destruct (16 * _)%nat as [|fuel] eqn:E; [lia|].
  pose proof St1 as (B & Hm & _). eapply wp_insertion_mode; [exact B | exact Hm|]. cbn [mode_function].
  unfold lxb_html_tree_insertion_mode_after_after_body. apply wp_on_tag. rewrite K1. cbn [map fst snd].
  change (row_of (tok_tag_id (with_tag_id LXB_TAG__END_OF_FILE k)) _) with 2%nat. cbn [nth].
  unfold stop_parsing_done, lxb_html_tree_stop_parsing, check_status. wps. change (LXB_STATUS_OK =? LXB_STATUS_OK) with true. cbn iota. wps.
  split; [done|]. split; [done|]. split; [|done]. still St1.
Qed.

(** ** Whole documents *)

(** The tree of the document reads back as an item. *)
Definition document_reads (t : html_tree) (it : dom_item) : Prop :=
  exists tr, tree_id tr = t_document t /\ forest_at (heap t) None None [tr] None /\ NoDup (tree_ids tr) /\ read_tree (attr_heap t) (heap t) tr = it.

Lemma stands_initial d : stands IM_initial [] [] (lxb_html_tree_init (lxb_html_document_create d) d).
Proof.
  split; [|done]. exists [], []. split; [|constructor]. split; [|done|].
  - by split.
  - assert (heap (lxb_html_tree_init (lxb_html_document_create d) d) !! d = Some document_node) as Hd by apply lookup_insert_eq.
    split; [split|split]; cbn.
    + apply fa_cons with document_node; try done; constructor.
    + apply NoDup_singleton.
    + constructor; [|constructor]. split; [|done]. cbn. unfold label_at. etransitivity; [exact (f_equal (fmap _) Hd) | done].
    + intros i n [_ <-]%lookup_singleton_Some. by eexists.
Qed.

Lemma body_reads kb kh cs hs dcs m t : stands m [(kb, cs); (kh, hs)] dcs t ->
  document_reads t (Item document_label (dcs ++ [Item (element_label kh) (hs ++ [Item (element_label kb) cs])])).
Proof.
  intros ((els & fin & [Q O S] & P) & _). assert (length els = 2%nat) as Hlen.
  { pose proof S as (_ & F & _). apply Forall2_length in F. rewrite !length_app in F. cbn in F. lia. }
  destruct els as [|[b lb] [|[h lh] [|]]]; try done. cbn in S. apply holds_close, holds_close in S as ([F N] & S & _).
  apply Forall2_cons in S as [[S1 S2] _]. cbn in S1, S2. exists (Node (t_document t) (fin ++ [Node h (lh ++ [Node b lb])])).
  split; [done|]. rewrite whole_cons in F, N. split; [exact F|]. split; [|cbn [read_tree]; by rewrite S1, S2].
  cbn [ctx_of plug] in N. unfold forest_ids in N. cbn [flat_map] in N. by rewrite app_nil_r in N.
Qed.

End Spec.
