(* ===== verification/TkzSpec.v ===== *)
(** * What the tokenizer computes

    Reference: a document is a sequence of texts, tags and comments; [render]
    writes it.  Tokenizing the written document gives back its items, with
    their names, attributes and texts, and the end-of-file token. *)
From S2P Require Import Prelude.
From S2P Require Import Str.
From S2P Require Import In.
From S2P Require Import Tag.
From S2P Require Import TagHeap.
From S2P Require Import TkzBase.
From S2P Require Import HtmlIn.
From S2P Require Import TkzState.
From S2P Require Import TkzComment.
From S2P Require Import TkzDoctype.
From S2P Require Import TkzText.
From S2P Require Import TkzScript.
From S2P Require Import TkzRun.
From S2P Require Import TkzInst.
From S2P Require Import TkzStep.
From S2P Require Import TkzSafe.
From S2P Require Import TkzChunk.
From S2P Require Import TkzParse.

(** ** Documents *)

Inductive item :=
  | Text (s : list Z)
  | StartTag (name : list Z) (attrs : list (list Z * list Z)) (self_closing : bool)
  | EndTag (name : list Z)
  | Comment (s : list Z).

Definition render_attr (a : list Z * list Z) : list Z :=
  [0x20] ++ fst a ++ [0x3D; 0x22] ++ snd a ++ [0x22].

Definition render_item (it : item) : list Z :=
  match it with
  | Text s => s
  | StartTag n attrs sc =>
      [0x3C] ++ n ++ concat (map render_attr attrs) ++ (if sc then [0x2F] else []) ++ [0x3E]
  | EndTag n => [0x3C; 0x2F] ++ n ++ [0x3E]
  | Comment s => [0x3C; 0x21; 0x2D; 0x2D] ++ s ++ [0x2D; 0x2D; 0x3E]
  end.

Definition render (l : list item) : list Z := concat (map render_item l).

(** The bytes allowed in a tag name after its first letter, in an attribute
    name, in a double-quoted value, in a text and in a comment. *)
Definition name_char (c : Z) : bool :=
  negb (one_of c [0x09; 0x0A; 0x0C; 0x0D; 0x20; 0x2F; 0x3E; 0x00]).
Definition attr_name_char (c : Z) : bool := name_char c && negb (c =? 0x3D).
Definition value_char (c : Z) : bool := negb (one_of c [0x22; 0x00]).
Definition text_char (c : Z) : bool := negb (one_of c [0x3C; 0x00]).
Definition comment_char (c : Z) : bool := negb (one_of c [0x3C; 0x2D; 0x00]).

Definition tag_name_ok (n : list Z) : bool :=
  match n with [] => false | c :: n' => is_alpha c && forallb name_char n end.

Definition attr_ok (a : list Z * list Z) : bool :=
  match fst a with [] => false | _ => forallb attr_name_char (fst a) end &&
  forallb value_char (snd a).

Definition item_ok (it : item) : bool :=
  match it with
  | Text s => match s with [] => false | _ => forallb text_char s end
  | StartTag n attrs _ => tag_name_ok n && forallb attr_ok attrs
  | EndTag n => tag_name_ok n
  | Comment s => forallb comment_char s && negb (nth 0 s 0 =? 0x3E)
  end.

Definition is_text (it : item) : bool := match it with Text _ => true | _ => false end.

(** No two texts in a row. *)
Fixpoint doc_ok (l : list item) : bool :=
  match l with
  | [] => true
  | it :: l' => item_ok it && doc_ok l' &&
      negb (is_text it && match l' with it' :: _ => is_text it' | [] => false end)
  end.

Lemma doc_ok_items l : doc_ok l = true -> forallb item_ok l = true.
Proof. induction l as [|it l IH]; [done|]. cbn [doc_ok forallb]. intros [[Hit Hl]%andb_prop _]%andb_prop. by rewrite Hit, IH. Qed.

(** The token of an item. *)
Definition item_view (it : item) : token_view :=
  match it with
  | Text s => mk_view LXB_TAG__TEXT LXB_HTML_TOKEN_TYPE_TEXT s []
  | StartTag n attrs sc =>
      mk_view LXB_TAG__UNDEF
        (if sc then LXB_HTML_TOKEN_TYPE_CLOSE_SELF else LXB_HTML_TOKEN_TYPE_OPEN) n attrs
  | EndTag n => mk_view LXB_TAG__UNDEF LXB_HTML_TOKEN_TYPE_CLOSE n []
  | Comment s => mk_view LXB_TAG__EM_COMMENT LXB_HTML_TOKEN_TYPE_DATA s []
  end.

Definition eof_view : token_view := mk_view LXB_TAG__END_OF_FILE 0 [] [].

(** ** A client that takes the items

    [expects e l]: the client [e] takes tokens that show as the views [l], one after
    the other, and gives each back to the tokenizer without telling it anything. *)

Class Expects (E : Type) := expects : E -> list token_view -> Prop.

(** A token is the one for the end of the file or lies in the only buffer, with its
    attributes. *)
Definition eof_token : html_token := with_tag_id LXB_TAG__END_OF_FILE token_zero.
Definition attr_within (i : positive) (nd : in_node) (a : token_attr) : Prop :=
  in_name a = Some i /\ in_begin nd <= name_begin a <= name_end a /\ name_end a <= in_end nd /\
  in_value a = Some i /\ in_begin nd <= value_begin a <= value_end a /\ value_end a <= in_end nd.
Definition in_buffer {E} (t : tokenizer E) (k : html_token) : Prop :=
  tok_base_element k = 0 /\ exists i nd, in_nodes (incoming t) !! i = Some nd /\ chain_wf (in_nodes (incoming t)) [i] /\ 0 < in_begin nd /\ tok_in_begin k = Some i /\
    in_begin nd <= tok_begin k <= tok_end k /\ tok_end k <= in_end nd /\ Forall (attr_within i nd) (tok_attrs k).
Definition located {E} (t : tokenizer E) (k : html_token) : Prop := k = eof_token \/ in_buffer t k.

Class ExpectsLaws (E : Type) `{TkzEnv E} `{Expects E} : Prop := {
  expects_next (t : tokenizer E) k l : expects (env t) (view_token t k :: l) -> located t k ->
    exists e k', callback_token_done t k = (e, mk_reply (Some k') None None None) /\ expects e l;
  expects_alloc (e : E) n : attr_alloc_ok e n = true
}.

(** ** Executing on known bytes *)

Lemma name_char_tests c : name_char c = true ->
  is_ws c = false /\ (c =? 0x2F) = false /\ (c =? 0x3E) = false /\ (c =? 0x00) = false.
Proof.
  unfold name_char, is_ws. intros H%negb_true_iff.
  rewrite (not_one_of _ _ 0x2F H eq_refl), (not_one_of _ _ 0x3E H eq_refl),
    (not_one_of _ _ 0x00 H eq_refl). split; [|done].
  cbn in H |- *. repeat (apply orb_false_iff in H as [-> H]). done.
Qed.

(** The bytes of a span of one buffer. *)
Lemma span_bytes_node {E} (t : tokenizer E) i nd b e :
  in_nodes (incoming t) !! i = Some nd -> in_begin nd <= b -> b <= e -> e <= in_end nd -> 0 < b ->
  span_bytes t (Some i) b e = read_range (rd t) b e.
Proof.
  intros Hnd Hb Hbe He H0. unfold span_bytes, lxb_html_in_make.
  destruct (b =? 0) eqn:E0; bool_to_prop; [lia|]. cbn [mbind option_bind].
  unfold walk_fuel. cbn [in_make_loop]. rewrite Hnd. cbn [mbind option_bind].
  assert (lexbor_in_segment nd e = true) as ->; [|done].
  unfold lexbor_in_segment. rewrite Z.geb_leb. apply andb_true_iff. split; apply Z.leb_le; lia.
Qed.

Lemma span_bytes_at {E} (t : tokenizer E) i nd b s :
  in_nodes (incoming t) !! i = Some nd -> in_begin nd <= b -> 0 < b ->
  b + Z.of_nat (length s) <= in_end nd -> bytes_at (rd t) b s ->
  span_bytes t (Some i) b (b + Z.of_nat (length s)) = s.
Proof.
  intros Hnd Hb H0 He Hs. rewrite (span_bytes_node t i nd) by (done || lia).
  by apply bytes_at_range.
Qed.

Section Exec.
Context {E : Type} `{EV : TkzEnv E} `{EX : Expects E} {XL : ExpectsLaws E}.
Context (t0 : tokenizer E) (i : positive) (nd : in_node).
Context (H_node : incoming_node t0 = Some i) (H_nd : in_nodes (incoming t0) !! i = Some nd).
Context (H_eof : is_eof t0 = false) (H_pos : 0 < in_begin nd) (H_wf : chain_wf (in_nodes (incoming t0)) [i]).
Implicit Types (t : tokenizer E) (k : html_token) (l : list token_view) (d : Z).

(** A tokenizer in the middle of the buffer: its state, token and record. *)
Record cfg t (st : tkz_state) k l : Prop := {
  c_state : state t = st;
  c_token : token t = Some k;
  c_rec : expects (env t) l;
  c_fault : fault t = false;
  c_status : status t = LXB_STATUS_OK;
  c_frame : frame t0 t
}.
Arguments c_state {t st k l}. Arguments c_token {t st k l}. Arguments c_frame {t st k l}.

Lemma cfg_set_state t st k l s : cfg t st k l -> cfg (set_state t s) s k l.
Proof. intros []. by split. Qed.
Lemma cfg_error_add t st k l p id : cfg t st k l -> cfg (error_add t p id) st k l.
Proof. intros []. by split. Qed.
Lemma cfg_upd_token t st k l f : cfg t st k l -> cfg (upd_token t f) st (f k) l.
Proof. intros [? Hk]. unfold upd_token. rewrite Hk. by split. Qed.

Lemma cfg_incoming {t st k l} : cfg t st k l -> incoming_node t = Some i.
Proof. intros [_ _ _ _ _ (_ & _ & -> & _)]. done. Qed.
Lemma cfg_eof {t st k l} : cfg t st k l -> is_eof t = false.
Proof. intros [_ _ _ _ _ (_ & _ & _ & -> & _)]. done. Qed.
Lemma cfg_rd {t st k l} : cfg t st k l -> forall a, rd t a = rd t0 a.
Proof. intros C. apply frame_rd, C. Qed.
Lemma cfg_tok {t st k l} : cfg t st k l -> tok t = k.
Proof. intros [_ Hk]. unfold tok. by rewrite Hk. Qed.
Lemma cfg_deref {t st k l} : cfg t st k l -> deref_token t = t.
Proof. intros [_ Hk]. unfold deref_token. by rewrite Hk. Qed.

Lemma cfg_set_end t st k l v : cfg t st k l -> cfg (set_end t v) st (with_end v k) l.
Proof. apply cfg_upd_token. Qed.
Lemma cfg_type_or t st k l v :
  cfg t st k l -> cfg (type_or t v) st (with_type (Z.lor (tok_type k) v) k) l.
Proof. apply (cfg_upd_token _ _ _ _ (fun k => with_type (Z.lor (tok_type k) v) k)). Qed.
Lemma cfg_set_type t st k l v : cfg t st k l -> cfg (set_type t v) st (with_type v k) l.
Proof. apply cfg_upd_token. Qed.
Lemma cfg_set_tag_id t st k l v : cfg t st k l -> cfg (set_tag_id t v) st (with_tag_id v k) l.
Proof. apply cfg_upd_token. Qed.
Lemma cfg_set_begin t st k l v :
  cfg t st k l -> cfg (set_begin t v) st (with_begin v (with_in_begin (Some i) k)) l.
Proof.
  intros C. unfold set_begin. rewrite (cfg_incoming C).
  exact (cfg_upd_token _ _ _ _ (fun k => with_begin v (with_in_begin (Some i) k)) C).
Qed.

Lemma cfg_upd_attr_last t st k l la a f : cfg t st k l -> tok_attrs k = la ++ [a] ->
  cfg (upd_attr_last t f) st (with_attrs (la ++ [f a]) k) l.
Proof.
  intros C Ha. unfold upd_attr_last, attr_last. rewrite (cfg_tok C), Ha, last_snoc.
  apply (cfg_upd_token _ _ _ _ (fun k => with_attrs (map_last f (tok_attrs k)) k)) in C.
  unfold map_last in C at 2. rewrite Ha, last_snoc, removelast_last in C. done.
Qed.

Lemma view_frame t k : frame t0 t -> view_token t k = view_token t0 k.
Proof.
  intros (HI & _ & _ & _ & _ & _ & _ & HM). unfold view_token, attr_view, span_bytes, rd. by rewrite HI, HM.
Qed.

(** The token lies in the buffer. *)
Definition placed k : Prop := tok_base_element k = 0 /\ tok_in_begin k = Some i /\ in_begin nd <= tok_begin k <= tok_end k /\ tok_end k <= in_end nd /\
  Forall (attr_within i nd) (tok_attrs k).

Lemma placed_bare k : tok_base_element k = 0 -> tok_in_begin k = Some i -> tok_attrs k = [] -> in_begin nd <= tok_begin k <= tok_end k ->
  tok_end k <= in_end nd -> placed k.
Proof. intros H1 H2 H3 H4 H5. unfold placed. rewrite H3. split_and!; (done || lia || constructor). Qed.

Lemma placed_attr k ta : placed k -> attr_within i nd ta -> placed (with_attrs (tok_attrs k ++ [ta]) k).
Proof. intros (H1 & H2 & H3 & H4 & H5) Ha. repeat (split; [done|]). apply Forall_app. split; [done | by constructor]. Qed.

(** Emitting the token: the client gets what it expects. *)
Lemma cfg_emit {R} `{Ret E R} t st k l v (kk : tokenizer E -> R) :
  cfg t st k (view_token t0 k :: l) -> placed k -> exists t' k', _token_done_m t v kk = kk t' /\ cfg t' st k' l.
Proof.
  intros [Hs Hk Hr Hf Hst F] Hp. rewrite <- (view_frame t k F) in Hr.
  destruct (expects_next t k l Hr) as (e & k' & Hc & He).
  { right. destruct Hp as [Hb Hp]. split; [done|]. exists i, nd. destruct F as (-> & _). done. }
  eexists _, k'. split.
  - unfold _token_done_m, call_token_done. rewrite Hk, Hc. cbn [reply_token token set_token]. reflexivity.
  - by split.
Qed.

Lemma cfg_done {R} `{Ret E R} t st k l v (kk : tokenizer E -> R) :
  cfg t st k (view_token t0 k :: l) -> placed k -> exists t', token_done_wo_check_m t v kk = kk t' /\
    cfg t' st token_zero l.
Proof.
  intros C Hp. unfold token_done_wo_check_m.
  destruct (cfg_emit t st k l v (fun t => kk (lxb_html_token_clean t)) C Hp) as (t1 & k' & -> & C1).
  eexists. split; [reflexivity|]. exact (cfg_upd_token _ _ _ _ (fun _ => token_zero) C1).
Qed.

Lemma cfg_done_check {R} `{Ret E R} t st k l v (kk : tokenizer E -> R) :
  cfg t st k (view_token t0 k :: l) -> placed k -> tok_begin k <> tok_end k -> exists t', token_done_m t v kk = kk t' /\
    cfg t' st token_zero l.
Proof.
  intros C Hp Hne. unfold token_done_m. cbv zeta. rewrite (cfg_deref C), (cfg_tok C).
  rewrite (proj2 (Z.eqb_neq _ _) Hne). by apply (cfg_done t st k).
Qed.

(** ** Runs to the end of the buffer *)

Definition runs t d t' : Prop := exists fuel, run fuel t d (in_end nd) = Some (t', in_end nd).

Lemma runs_end t : runs t (in_end nd) t.
Proof. exists O. cbn. by rewrite Z.ltb_irrefl. Qed.

Lemma runs_step t d t1 d1 t' : d < in_end nd -> call_state t d (in_end nd) = (t1, d1) ->
  runs t1 d1 t' -> runs t d t'.
Proof.
  intros Hlt Hc [fuel Hr]. exists (S fuel). cbn [run].
  rewrite (proj2 (Z.ltb_lt _ _) Hlt), Hc. done.
Qed.

Lemma runs_eq t d d' t' : runs t d t' -> d = d' -> runs t d' t'.
Proof. by intros H <-. Qed.

(** A loop over bytes that change nothing but the errors. *)
Lemma scan_cfg body st k l : forall n t d, cfg t st k l ->
  (forall t x, cfg t st k l -> d <= x < d + Z.of_nat n ->
     exists t', body t x = (t', None) /\ cfg t' st k l) ->
  d + Z.of_nat n <= in_end nd ->
  exists t', scan body t d (in_end nd) = scan body t' (d + Z.of_nat n) (in_end nd) /\ cfg t' st k l.
Proof.
  induction n as [|n IH]; intros t d C Hb Hle; [rewrite Z.add_0_r; eauto|].
  rewrite scan_step by lia. destruct (Hb t d C) as (t1 & -> & C1); [lia|].
  destruct (IH t1 (d + 1) C1) as (t2 & Hs & C2); [intros; apply Hb; (done || lia) | lia |].
  exists t2. split; [|done]. rewrite Hs. f_equal. lia.
Qed.

(** *** Text *)

Lemma step_data_before t k l d : cfg t S_data_before k l -> exists t',
  call_state t d (in_end nd) = (t', d) /\
  cfg t' S_data (with_begin d (with_in_begin (Some i) k)) l.
Proof.
  intros C. unfold call_state. rewrite (c_state C).
  unfold lxb_html_tokenizer_state_data_before. rewrite (cfg_eof C). eexists. split; [reflexivity|].
  eapply cfg_set_state, cfg_set_begin, C.
Qed.

Lemma data_body_text t k l d : cfg t S_data k l -> text_char (rd t0 d) = true ->
  data_body (in_end nd) t d = (t, None).
Proof.
  intros C Hc. unfold data_body. rewrite (cfg_rd C). unfold text_char in Hc.
  apply negb_true_iff in Hc.
  by rewrite (not_one_of _ _ 0x3C Hc eq_refl), (not_one_of _ _ 0x00 Hc eq_refl).
Qed.

Lemma runs_text t k l d s t' : cfg t S_data k l -> bytes_at (rd t0) d s ->
  forallb text_char s = true -> s <> [] -> d + Z.of_nat (length s) <= in_end nd ->
  runs t (d + Z.of_nat (length s)) t' -> runs t d t'.
Proof.
  intros C Hs Hc Hne Hle [fuel Hr].
  assert (Hn : 0 < Z.of_nat (length s)) by (destruct s; cbn; [done | lia]).
  assert (Hcall : call_state t d (in_end nd) =
    scan (data_body (in_end nd)) t (d + Z.of_nat (length s)) (in_end nd)).
  { unfold call_state. rewrite (c_state C). apply scan_skip; [|done].
    intros x Hx. eapply data_body_text; [done|]. by eapply bytes_at_all. }
  destruct (decide (d + Z.of_nat (length s) = in_end nd)) as [Heq|].
  - rewrite Heq in *. rewrite scan_done in Hcall by lia.
    apply (runs_step _ _ t (in_end nd)); [lia | done | by exists fuel].
  - exists fuel. destruct fuel as [|fuel]; cbn [run] in *;
      rewrite (proj2 (Z.ltb_lt _ _)) in Hr by lia; [done|].
    rewrite (proj2 (Z.ltb_lt _ _)) by lia. rewrite Hcall.
    unfold call_state in Hr. rewrite (c_state C) in Hr. exact Hr.
Qed.

Lemma step_data_lt t k l d : cfg t S_data k l -> rd t0 d = 0x3C -> d < in_end nd -> exists t',
  call_state t d (in_end nd) = (t', d + 1) /\ cfg t' S_tag_open (with_end d k) l.
Proof.
  intros C Hc Hlt. unfold call_state. rewrite (c_state C).
  unfold lxb_html_tokenizer_state_data. rewrite scan_step by done.
  unfold data_body. rewrite (cfg_rd C), Hc. eexists. split; [reflexivity|].
  eapply cfg_set_state, cfg_set_end, C.
Qed.

(** *** Between items

    [s] is the text read and not yet emitted. *)
Definition pend (s : list Z) : list token_view :=
  match s with [] => [] | _ => [item_view (Text s)] end.

Inductive at_item t d l : list Z -> Prop :=
  | at_before : cfg t S_data_before token_zero l -> at_item t d l []
  | at_text b s : cfg t S_data (mk_token b 0 (Some i) [] 0 0 0) l ->
      in_begin nd <= b -> b + Z.of_nat (length s) = d -> bytes_at (rd t0) b s ->
      at_item t d l s.

(** A [<] between items. *)
Lemma at_item_lt t d l s : at_item t d l s -> in_begin nd <= d < in_end nd -> rd t0 d = 0x3C ->
  exists t' b, (forall tf, runs t' (d + 1) tf -> runs t d tf) /\
    cfg t' S_tag_open (mk_token b d (Some i) [] 0 0 0) l /\
    in_begin nd <= b /\ b + Z.of_nat (length s) = d /\ bytes_at (rd t0) b s.
Proof.
  intros [C|b s' C Hb Hd Hs] Hlt Hc.
  - destruct (step_data_before t _ l d C) as (t1 & Hc1 & C1).
    destruct (step_data_lt t1 _ l d C1) as (t2 & Hc2 & C2); [done | lia |].
    exists t2, d. split.
    + intros tf Hr. eapply runs_step; [lia | exact Hc1|]. eapply runs_step; [lia | exact Hc2 | done].
    + split; [exact C2|]. cbn. repeat split; lia.
  - destruct (step_data_lt t _ l d C) as (t2 & Hc2 & C2); [done | lia |].
    exists t2, b. split; [|done].
    intros tf Hr. eapply runs_step; [lia | exact Hc2 | done].
Qed.

(** What the states of a tag find in the token: no attributes, no type. *)
Definition blank k : Prop :=
  tok_attrs k = [] /\ tok_tag_id k = 0 /\ tok_type k = 0 /\ tok_base_element k = 0.

Lemma cfg_emit_text {R} `{Ret E R} t st b d s l v (kk : tokenizer E -> R) :
  cfg t st (mk_token b d (Some i) [] 0 0 0) (pend s ++ l) -> in_begin nd <= b ->
  b + Z.of_nat (length s) = d -> d <= in_end nd -> bytes_at (rd t0) b s ->
  exists t' k, emit_text_not_empty_m t v kk = kk t' /\ cfg t' st k l /\ blank k.
Proof.
  intros C Hb Hd Hle Hs. unfold emit_text_not_empty_m. cbv zeta. rewrite (cfg_deref C), (cfg_tok C).
  cbn [tok_begin tok_end]. destruct s as [|c s].
  - cbn in Hd. assert (d = b) as -> by lia. rewrite Z.eqb_refl. cbn [negb].
    eexists _, _. split; [reflexivity|]. done.
  - cbn [length] in Hd. rewrite (proj2 (Z.eqb_neq b d)) by lia. cbn [negb].
    assert (Hview : view_token t0 (mk_token b d (Some i) [] 0 LXB_TAG__TEXT LXB_HTML_TOKEN_TYPE_TEXT) = item_view (Text (c :: s))).
    { unfold view_token. cbn. f_equal. replace d with (b + Z.of_nat (length (c :: s))) by (cbn; lia).
      apply (span_bytes_at _ i nd); (done || cbn; lia). }
    assert (C1 : cfg (set_type (set_tag_id t LXB_TAG__TEXT) LXB_HTML_TOKEN_TYPE_TEXT) st
      (mk_token b d (Some i) [] 0 LXB_TAG__TEXT LXB_HTML_TOKEN_TYPE_TEXT) (pend (c :: s) ++ l))
      by exact (cfg_set_type _ _ _ _ _ (cfg_set_tag_id _ _ _ _ _ C)).
    cbn [pend app] in C1. rewrite <- Hview in C1.
    destruct (cfg_done _ _ _ _ v kk C1) as (t1 & Hd1 & C2); [by apply placed_bare; (reflexivity || (cbn; lia))|].
    exists t1, token_zero. split; [exact Hd1|]. split; [exact C2 | done].
Qed.

(** *** Tags *)

(** The token of a tag whose name begins at [d]. *)
Definition named k d ty : Prop :=
  tok_begin k = d /\ tok_in_begin k = Some i /\ tok_attrs k = [] /\ tok_tag_id k = 0 /\
  tok_type k = ty /\ tok_base_element k = 0.

Lemma step_tag_open_alpha t b d s l :
  cfg t S_tag_open (mk_token b d (Some i) [] 0 0 0) (pend s ++ l) -> in_begin nd <= b ->
  b + Z.of_nat (length s) = d -> d <= in_end nd -> bytes_at (rd t0) b s ->
  is_alpha (rd t0 (d + 1)) = true ->
  exists t' k, call_state t (d + 1) (in_end nd) = (t', d + 1) /\
    cfg t' S_tag_name k l /\ named k (d + 1) LXB_HTML_TOKEN_TYPE_OPEN.
Proof.
  intros C Hb Hd Hle Hs Ha. unfold call_state. rewrite (c_state C).
  unfold lxb_html_tokenizer_state_tag_open. rewrite (cfg_rd C), Ha. cbv zeta.
  destruct (cfg_emit_text (R := tokenizer E * Z) _ S_tag_name b d s l (in_end nd)
    (fun t => ret (set_begin t (d + 1)) (d + 1)) (cfg_set_state _ _ _ _ _ C))
    as (t1 & k & He & C1 & Hk1 & Hk2 & Hk3 & Hk4); try done.
  eexists _, _. split; [exact He|]. split; [eapply cfg_set_begin, C1|]. done.
Qed.

Lemma step_end_tag_open_alpha t b d s l :
  cfg t S_end_tag_open (mk_token b d (Some i) [] 0 0 0) (pend s ++ l) -> in_begin nd <= b ->
  b + Z.of_nat (length s) = d -> d <= in_end nd -> bytes_at (rd t0) b s ->
  is_alpha (rd t0 (d + 2)) = true ->
  exists t' k, call_state t (d + 2) (in_end nd) = (t', d + 2) /\
    cfg t' S_tag_name k l /\ named k (d + 2) LXB_HTML_TOKEN_TYPE_CLOSE.
Proof.
  intros C Hb Hd Hle Hs Ha. unfold call_state. rewrite (c_state C).
  unfold lxb_html_tokenizer_state_end_tag_open. rewrite (cfg_rd C), Ha. cbv zeta.
  destruct (cfg_emit_text (R := tokenizer E * Z) _ S_tag_name b d s l (in_end nd)
    (fun t => ret (type_or (set_begin t (d + 2)) LXB_HTML_TOKEN_TYPE_CLOSE) (d + 2))
    (cfg_set_state _ _ _ _ _ C)) as (t1 & k & He & C1 & Hk1 & Hk2 & Hk3 & Hk4); try done.
  eexists _, _. split; [exact He|]. split; [eapply cfg_type_or, cfg_set_begin, C1|].
  unfold named. cbn. by rewrite Hk3.
Qed.

Lemma step_tag_open_slash t k d l : cfg t S_tag_open k l -> rd t0 d = 0x2F -> exists t',
  call_state t d (in_end nd) = (t', d + 1) /\ cfg t' S_end_tag_open k l.
Proof.
  intros C Hc. unfold call_state. rewrite (c_state C).
  unfold lxb_html_tokenizer_state_tag_open. rewrite (cfg_rd C), Hc. eexists.
  split; [reflexivity | eapply cfg_set_state, C].
Qed.

(** The tag name up to the byte that ends it. *)
Lemma step_tag_name t k l d n : cfg t S_tag_name k l -> bytes_at (rd t0) d n ->
  forallb name_char n = true -> d + Z.of_nat (length n) < in_end nd ->
  let e := d + Z.of_nat (length n) in
  call_state t d (in_end nd) =
    match tag_name_body (in_end nd) t e with
    | (t', Some p) => (t', p)
    | (t', None) => scan (tag_name_body (in_end nd)) t' (e + 1) (in_end nd)
    end.
Proof.
  intros C Hn Hc Hlt e. unfold call_state. rewrite (c_state C).
  unfold lxb_html_tokenizer_state_tag_name. unfold e. rewrite <- scan_step by done.
  apply scan_skip; [|lia]. intros x Hx. pose proof (bytes_at_all _ _ _ _ Hn Hc x Hx) as Hr.
  unfold tag_name_body. rewrite (cfg_rd C). by destruct (name_char_tests _ Hr) as (-> & -> & -> & ->).
Qed.

Lemma step_tag_name_to t k l d n c st : cfg t S_tag_name k l -> bytes_at (rd t0) d n ->
  forallb name_char n = true -> d + Z.of_nat (length n) < in_end nd ->
  rd t0 (d + Z.of_nat (length n)) = c ->
  c = 0x20 /\ st = S_before_attribute_name \/ c = 0x2F /\ st = S_self_closing_start_tag ->
  exists t', call_state t d (in_end nd) = (t', d + Z.of_nat (length n) + 1) /\
    cfg t' st (with_end (d + Z.of_nat (length n)) k) l.
Proof.
  intros C Hn Hc Hlt He Hst. rewrite (step_tag_name t k l d n C Hn Hc Hlt).
  unfold tag_name_body. rewrite (cfg_rd C), He.
  destruct Hst as [[-> ->]|[-> ->]]; (eexists; split; [reflexivity|]);
    eapply cfg_set_state, cfg_set_end, C.
Qed.

Lemma step_tag_name_gt t k l d n : cfg t S_tag_name k (view_token t0 (with_end (d + Z.of_nat (length n)) k) :: l) ->
  placed (with_end (d + Z.of_nat (length n)) k) -> bytes_at (rd t0) d n ->
  forallb name_char n = true -> d + Z.of_nat (length n) < in_end nd ->
  rd t0 (d + Z.of_nat (length n)) = 0x3E -> tok_begin k <> d + Z.of_nat (length n) ->
  exists t', call_state t d (in_end nd) = (t', d + Z.of_nat (length n) + 1) /\
    cfg t' S_data_before token_zero l.
Proof.
  intros C Hp Hn Hc Hlt He Hne. rewrite (step_tag_name t k _ d n C Hn Hc Hlt).
  unfold tag_name_body. rewrite (cfg_rd C), He. cbv zeta.
  destruct (cfg_done_check (R := tokenizer E * option Z) _ S_data_before
    (with_end (d + Z.of_nat (length n)) k) l (in_end nd)
    (fun t => ret t (d + Z.of_nat (length n) + 1))
    (cfg_set_end _ _ _ _ (d + Z.of_nat (length n)) (cfg_set_state _ _ _ _ S_data_before C)))
    as (t1 & He1 & C1); [done | done |].
  cbn [is_ws one_of Z.eqb Pos.eqb orb]. rewrite He1. eexists. split; [reflexivity | done].
Qed.

(** *** Attributes *)

Lemma cfg_attr_add {R} `{Ret E R} t st k l v (kk : tokenizer E -> R) :
  cfg t st k l -> exists t', attr_add_m t v kk = kk t' /\
    cfg t' st (with_attrs (tok_attrs k ++ [attr_zero]) k) l.
Proof.
  intros C. unfold attr_add_m. cbv zeta. rewrite (cfg_deref C), expects_alloc.
  eexists. split; [reflexivity|].
  assert (C1 : cfg (set_attrs_allocated t (S (attrs_allocated t))) st k l) by (by destruct C; split).
  exact (cfg_upd_token _ _ _ _ lxb_html_token_attr_append C1).
Qed.

Lemma step_before_attribute_name t k l d :
  cfg t S_before_attribute_name k l -> d < in_end nd -> attr_name_char (rd t0 d) = true ->
  exists t', call_state t d (in_end nd) = (t', d) /\
    cfg t' S_attribute_name
      (with_attrs (tok_attrs k ++ [mk_attr d 0 0 0 (Some i) None 0]) k) l.
Proof.
  intros C Hlt Hc. unfold call_state. rewrite (c_state C).
  unfold lxb_html_tokenizer_state_before_attribute_name. rewrite scan_step by done.
  unfold before_attribute_name_body. rewrite (cfg_rd C).
  unfold attr_name_char in Hc. apply andb_true_iff in Hc as [Hn He]. apply negb_true_iff in He.
  destruct (name_char_tests _ Hn) as (-> & H1 & H2 & ->).
  rewrite He. cbn [one_of existsb]. rewrite H1, H2. cbn [orb]. cbv zeta.
  destruct (cfg_attr_add (R := tokenizer E * option Z) _ _ _ _ (in_end nd)
    (fun t => ret (set_state (attr_set_name_begin t d) S_attribute_name) d) C) as (t1 & He1 & C1).
  rewrite He1. eexists. split; [reflexivity|].
  unfold attr_set_name_begin. rewrite (cfg_incoming C1). eapply cfg_set_state.
  eapply (cfg_upd_attr_last _ _ _ _ (tok_attrs k) attr_zero _) in C1; [exact C1 | done].
Qed.

Lemma step_attribute_name t k l d n la a :
  cfg t S_attribute_name k l -> tok_attrs k = la ++ [a] -> bytes_at (rd t0) d n ->
  forallb attr_name_char n = true -> d + Z.of_nat (length n) < in_end nd ->
  rd t0 (d + Z.of_nat (length n)) = 0x3D ->
  exists t', call_state t d (in_end nd) = (t', d + Z.of_nat (length n) + 1) /\
    cfg t' S_before_attribute_value
      (with_attrs (la ++ [attr_with_name_end (d + Z.of_nat (length n)) a]) k) l.
Proof.
  intros C Ha Hn Hc Hlt He. unfold call_state. rewrite (c_state C).
  unfold lxb_html_tokenizer_state_attribute_name.
  destruct (scan_cfg attribute_name_body S_attribute_name k l (length n) t d C)
    as (t1 & -> & C1); [|lia|].
  { intros t1 x C1 Hx. pose proof (bytes_at_all _ _ _ _ Hn Hc x Hx) as Hr.
    unfold attr_name_char in Hr. apply andb_true_iff in Hr as [Hr Hr2]. apply negb_true_iff in Hr2.
    unfold attribute_name_body. rewrite (cfg_rd C1).
    destruct (name_char_tests _ Hr) as (Hw & H1 & H2 & ->). rewrite Hr2.
    unfold is_ws in Hw. cbn [one_of existsb] in Hw |- *. rewrite H1, H2.
    repeat (apply orb_false_iff in Hw as [-> Hw]). cbn [orb].
    case_if; eexists; (split; [reflexivity|]); [by apply cfg_error_add | done]. }
  rewrite scan_step by done. unfold attribute_name_body. rewrite (cfg_rd C1), He.
  eexists. split; [reflexivity|]. eapply cfg_set_state. by apply cfg_upd_attr_last.
Qed.

Lemma step_before_attribute_value t k l d : cfg t S_before_attribute_value k l ->
  rd t0 d = 0x22 -> d < in_end nd -> exists t',
  call_state t d (in_end nd) = (t', d + 1) /\ cfg t' S_attribute_value_double_quoted k l.
Proof.
  intros C Hc Hlt. unfold call_state. rewrite (c_state C).
  unfold lxb_html_tokenizer_state_before_attribute_value. rewrite scan_step by done.
  unfold before_attribute_value_body. rewrite (cfg_rd C), Hc. eexists.
  split; [reflexivity | eapply cfg_set_state, C].
Qed.

Lemma step_attribute_value t k l d v la a :
  cfg t S_attribute_value_double_quoted k l -> tok_attrs k = la ++ [a] -> value_begin a = 0 ->
  bytes_at (rd t0) d v -> forallb value_char v = true -> d + Z.of_nat (length v) < in_end nd ->
  rd t0 (d + Z.of_nat (length v)) = 0x22 ->
  exists t', call_state t d (in_end nd) = (t', d + Z.of_nat (length v) + 1) /\
    cfg t' S_after_attribute_value_quoted
      (with_attrs (la ++ [attr_with_value_end (d + Z.of_nat (length v))
                            (attr_with_value_begin (Some i) d a)]) k) l.
Proof.
  intros C Ha Hvb Hv Hc Hlt He. unfold call_state. rewrite (c_state C).
  unfold lxb_html_tokenizer_state_attribute_value_double_quoted. cbv zeta.
  assert (C1 : cfg (value_begin_once t d) S_attribute_value_double_quoted
    (with_attrs (la ++ [attr_with_value_begin (Some i) d a]) k) l).
  { unfold value_begin_once, deref_attr_last, attr_last_, attr_last.
    rewrite (cfg_tok C), Ha, last_snoc. cbv zeta. rewrite (cfg_tok C), Ha, last_snoc.
    cbn [default from_option]. unfold id. rewrite Hvb, (cfg_eof C). change (0 =? NULL) with true. cbn [andb negb].
    unfold attr_set_value_begin. rewrite (cfg_incoming C). by apply cfg_upd_attr_last. }
  rewrite (scan_skip _ _ _ (length v)); [|intros x Hx | lia].
  - rewrite scan_step by done. unfold attribute_value_double_quoted_body.
    rewrite (cfg_rd C1), He. eexists. split; [reflexivity|]. eapply cfg_set_state.
    eapply (cfg_upd_attr_last _ _ _ _ la _ _) in C1; [exact C1 | done].
  - unfold attribute_value_double_quoted_body. rewrite (cfg_rd C1).
    pose proof (bytes_at_all _ _ _ _ Hv Hc x Hx) as Hr. unfold value_char in Hr.
    apply negb_true_iff in Hr.
    by rewrite (not_one_of _ _ 0x22 Hr eq_refl), (not_one_of _ _ 0x00 Hr eq_refl).
Qed.

Lemma step_after_value_to t k l d c st : cfg t S_after_attribute_value_quoted k l ->
  rd t0 d = c ->
  c = 0x20 /\ st = S_before_attribute_name \/ c = 0x2F /\ st = S_self_closing_start_tag ->
  exists t', call_state t d (in_end nd) = (t', d + 1) /\ cfg t' st k l.
Proof.
  intros C Hc Hst. unfold call_state. rewrite (c_state C).
  unfold lxb_html_tokenizer_state_after_attribute_value_quoted. rewrite (cfg_rd C), Hc.
  destruct Hst as [[-> ->]|[-> ->]]; (eexists; split; [reflexivity | eapply cfg_set_state, C]).
Qed.

Lemma step_after_value_gt t k l d : cfg t S_after_attribute_value_quoted k (view_token t0 k :: l) -> placed k ->
  rd t0 d = 0x3E -> tok_begin k <> tok_end k ->
  exists t', call_state t d (in_end nd) = (t', d + 1) /\
    cfg t' S_data_before token_zero l.
Proof.
  intros C Hp Hc Hne. unfold call_state. rewrite (c_state C).
  unfold lxb_html_tokenizer_state_after_attribute_value_quoted. rewrite (cfg_rd C), Hc. cbv zeta.
  destruct (cfg_done_check (R := tokenizer E * Z) _ S_data_before k l (in_end nd)
    (fun t => ret t (d + 1)) (cfg_set_state _ _ _ _ S_data_before C)) as (t1 & He1 & C1); [done | done |].
  eexists. split; [exact He1 | done].
Qed.

Lemma step_self_closing_gt t k l d : cfg t S_self_closing_start_tag k
    (view_token t0 (with_type (Z.lor (tok_type k) LXB_HTML_TOKEN_TYPE_CLOSE_SELF) k) :: l) -> placed k ->
  rd t0 d = 0x3E -> tok_begin k <> tok_end k ->
  exists t', call_state t d (in_end nd) = (t', d + 1) /\
    cfg t' S_data_before token_zero l.
Proof.
  intros C Hp Hc Hne. unfold call_state. rewrite (c_state C).
  unfold lxb_html_tokenizer_state_self_closing_start_tag. rewrite (cfg_rd C), Hc. cbv zeta.
  destruct (cfg_done_check (R := tokenizer E * Z) _ S_data_before _ l (in_end nd)
    (fun t => ret t (d + 1))
    (cfg_type_or _ _ _ _ LXB_HTML_TOKEN_TYPE_CLOSE_SELF (cfg_set_state _ _ _ _ S_data_before C)))
    as (t1 & He1 & C1); [done | done |].
  eexists. split; [exact He1 | done].
Qed.

(** One attribute, from its first byte to after its closing quote. *)
Lemma run_attribute t k l d a : cfg t S_before_attribute_name k l -> attr_ok a = true ->
  in_begin nd <= d -> bytes_at (rd t0) d (fst a ++ [0x3D; 0x22] ++ snd a ++ [0x22]) ->
  let e := d + Z.of_nat (length (fst a ++ [0x3D; 0x22] ++ snd a ++ [0x22])) in
  e <= in_end nd ->
  exists t' ta, (forall tf, runs t' e tf -> runs t d tf) /\
    cfg t' S_after_attribute_value_quoted (with_attrs (tok_attrs k ++ [ta]) k) l /\
    attr_view t0 ta = a /\ attr_within i nd ta.
Proof.
  destruct a as [n v]. cbv zeta. cbn [fst snd]. intros C Hok Hd Hb He.
  unfold attr_ok in Hok. cbn [fst snd] in Hok. apply andb_true_iff in Hok as [Hn Hv].
  assert (Hn' : forallb attr_name_char n = true) by (by destruct n).
  assert (Hlen : 0 < Z.of_nat (length n)) by (destruct n; [done | cbn; lia]).
  rewrite !bytes_at_app in Hb. destruct Hb as (Hbn & Hq & Hbv & Hq2).
  cbn [bytes_at length] in Hq, Hq2. destruct Hq as (Heq & Hqt & _). destruct Hq2 as (Hqt2 & _).
  rewrite !length_app in He |- *. cbn [length] in He, Hbv, Hqt2 |- *.
  destruct (step_before_attribute_name t k l d C) as (t1 & Hc1 & C1); [lia | |].
  { destruct n as [|c n]; [done|]. cbn in Hbn. destruct Hbn as [-> _].
    cbn in Hn'. by apply andb_true_iff in Hn' as [-> _]. }
  destruct (step_attribute_name t1 _ l d n _ _ C1 eq_refl Hbn Hn') as (t2 & Hc2 & C2); [lia|done|].
  cbn [with_attrs attr_with_name_end tok_attrs] in C2.
  destruct (step_before_attribute_value t2 _ l (d + Z.of_nat (length n) + 1) C2)
    as (t3 & Hc3 & C3); [done | lia |].
  replace (d + Z.of_nat (length n) + Z.of_nat 2) with (d + Z.of_nat (length n) + 1 + 1)
    in Hbv, Hqt2 by lia.
  destruct (step_attribute_value t3 _ l (d + Z.of_nat (length n) + 1 + 1) v _ _ C3 eq_refl)
    as (t4 & Hc4 & C4); [done | done | done | lia | done |].
  eexists t4, _. split; [|split; [exact C4|split]].
  - intros tf Hr. eapply runs_step; [lia | exact Hc1|]. eapply runs_step; [lia | exact Hc2|].
    eapply runs_step; [lia | exact Hc3|]. eapply runs_step; [lia | exact Hc4|].
    eapply runs_eq; [exact Hr | lia].
  - unfold attr_view. cbn. f_equal; apply (span_bytes_at t0 i nd); (done || lia).
  - repeat split; cbn; lia.
Qed.

(** *** The rest of a start tag *)

Definition tag_tail (attrs : list (list Z * list Z)) (sc : bool) : list Z :=
  concat (map render_attr attrs) ++ (if sc then [0x2F] else []) ++ [0x3E].

Definition close_self (sc : bool) : Z := if sc then LXB_HTML_TOKEN_TYPE_CLOSE_SELF else 0.

(** The token of a tag with more attributes. *)
Definition tag_view k attrs sc : token_view :=
  mk_view (tok_tag_id k) (Z.lor (tok_type k) (close_self sc))
    (span_bytes t0 (tok_in_begin k) (tok_begin k) (tok_end k))
    (map (attr_view t0) (tok_attrs k) ++ attrs).

Lemma tag_view_nil k : tag_view k [] false = view_token t0 k.
Proof. unfold tag_view, view_token. by rewrite Z.lor_0_r, app_nil_r. Qed.

Lemma tag_view_self k : tag_view k [] true =
  view_token t0 (with_type (Z.lor (tok_type k) LXB_HTML_TOKEN_TYPE_CLOSE_SELF) k).
Proof. unfold tag_view, view_token. by rewrite app_nil_r. Qed.

Lemma tag_view_attr k ta a attrs sc : attr_view t0 ta = a ->
  tag_view (with_attrs (tok_attrs k ++ [ta]) k) attrs sc = tag_view k (a :: attrs) sc.
Proof. intros <-. unfold tag_view. cbn. by rewrite map_app, <- app_assoc. Qed.

Lemma run_tag_tail sc attrs : forall t k l d,
  cfg t S_after_attribute_value_quoted k (tag_view k attrs sc :: l) -> placed k -> forallb attr_ok attrs = true ->
  tok_begin k <> tok_end k -> in_begin nd <= d -> bytes_at (rd t0) d (tag_tail attrs sc) ->
  d + Z.of_nat (length (tag_tail attrs sc)) <= in_end nd ->
  exists t', (forall tf, runs t' (d + Z.of_nat (length (tag_tail attrs sc))) tf -> runs t d tf) /\
    cfg t' S_data_before token_zero l.
Proof.
  unfold tag_tail. induction attrs as [|a attrs IH]; intros t k l d C Hp Hok Hne Hd Hb He.
  - destruct sc; cbn [map concat app bytes_at length] in Hb, He |- *.
    + destruct Hb as (Hs & Hg & _).
      destruct (step_after_value_to t k _ d 0x2F S_self_closing_start_tag C Hs) as (t1 & Hc1 & C1);
        [auto|]. rewrite tag_view_self in C1.
      destruct (step_self_closing_gt t1 k l (d + 1) C1 Hp Hg Hne) as (t2 & Hc2 & C2).
      exists t2. split; [|done]. intros tf Hr.
      eapply runs_step; [lia | exact Hc1|]. eapply runs_step; [lia | exact Hc2|].
      eapply runs_eq; [exact Hr | lia].
    + destruct Hb as (Hg & _). rewrite tag_view_nil in C. destruct (step_after_value_gt t k l d C Hp Hg Hne) as (t1 & Hc1 & C1).
      exists t1. split; [|done]. intros tf Hr.
      eapply runs_step; [lia | exact Hc1|]. eapply runs_eq; [exact Hr | lia].
  - cbn [forallb] in Hok. apply andb_true_iff in Hok as [Ha Hok].
    cbn [map concat] in Hb, He |- *. unfold render_attr at 1 in Hb. unfold render_attr at 1 in He.
    unfold render_attr at 1. set (body := fst a ++ [0x3D; 0x22] ++ snd a ++ [0x22]) in *.
    rewrite <- !app_assoc in Hb, He |- *. cbn [app bytes_at length] in Hb, He |- *.
    destruct Hb as (Hsp & Hb). rewrite bytes_at_app in Hb. destruct Hb as (Hb1 & Hb2).
    rewrite length_app in He |- *.
    destruct (step_after_value_to t k _ d 0x20 S_before_attribute_name C Hsp) as (t1 & Hc1 & C1);
      [auto|].
    destruct (run_attribute t1 k _ (d + 1) a C1 Ha) as (t2 & ta & Hr2 & C2 & Hv & Hw);
      [lia | done | fold body; lia |]. fold body in Hr2.
    rewrite <- (tag_view_attr _ _ _ attrs sc Hv) in C2.
    destruct (IH t2 _ l (d + 1 + Z.of_nat (length body)) C2 (placed_attr k ta Hp Hw) Hok Hne) as (t3 & Hr3 & C3);
      [lia | exact Hb2 | lia |].
    exists t3. split; [|done]. intros tf Hr.
    eapply runs_step; [lia | exact Hc1|]. apply Hr2, Hr3. eapply runs_eq; [exact Hr | lia].
Qed.

(** A tag from the first byte of its name. *)
Lemma run_tag_name sc attrs n t k l d ty :
  cfg t S_tag_name k (mk_view LXB_TAG__UNDEF (Z.lor ty (close_self sc)) n attrs :: l) -> named k d ty -> n <> [] -> forallb name_char n = true ->
  forallb attr_ok attrs = true -> in_begin nd <= d -> bytes_at (rd t0) d (n ++ tag_tail attrs sc) ->
  d + Z.of_nat (length (n ++ tag_tail attrs sc)) <= in_end nd ->
  exists t', (forall tf, runs t' (d + Z.of_nat (length (n ++ tag_tail attrs sc))) tf -> runs t d tf) /\
    cfg t' S_data_before token_zero l.
Proof.
  intros C (Hk1 & Hk2 & Hk3 & Hk4 & Hk5 & Hk6) Hne Hn Hok Hd Hb He.
  rewrite bytes_at_app in Hb. destruct Hb as (Hbn & Hb). rewrite length_app in He |- *.
  set (e := d + Z.of_nat (length n)) in *.
  assert (Hlen : 0 < Z.of_nat (length n)) by (destruct n; [done | cbn; lia]).
  assert (Hview : tag_view (with_end e k) attrs sc =
    mk_view LXB_TAG__UNDEF (Z.lor ty (close_self sc)) n attrs).
  { unfold tag_view. cbn. rewrite Hk1, Hk2, Hk3, Hk4, Hk5. f_equal.
    apply (span_bytes_at t0 i nd); (done || lia). }
  assert (Hp : placed (with_end e k)) by (apply placed_bare; cbn; (done || lia)).
  rewrite <- Hview in C. destruct attrs as [|a attrs].
  - destruct sc; unfold tag_tail in Hb, He |- *;
      cbn [map concat app bytes_at length] in Hb, He |- *.
    + destruct Hb as (Hs & Hg & _).
      destruct (step_tag_name_to t k _ d n 0x2F S_self_closing_start_tag C Hbn Hn)
        as (t1 & Hc1 & C1); [lia | done | auto |]. rewrite tag_view_self in C1.
      destruct (step_self_closing_gt t1 _ l (e + 1) C1 Hp Hg) as (t2 & Hc2 & C2); [cbn; lia|].
      exists t2. split; [|done]. intros tf Hr.
      eapply runs_step; [lia | exact Hc1|]. eapply runs_step; [lia | exact Hc2|].
      eapply runs_eq; [exact Hr | lia].
    + destruct Hb as (Hg & _). rewrite tag_view_nil in C.
      destruct (step_tag_name_gt t k l d n C Hp Hbn Hn) as (t1 & Hc1 & C1); [lia | done | lia |].
      exists t1. split; [|done]. intros tf Hr.
      eapply runs_step; [lia | exact Hc1|]. eapply runs_eq; [exact Hr | lia].
  - cbn [forallb] in Hok. apply andb_true_iff in Hok as [Ha Hok].
    unfold tag_tail in Hb, He |- *. cbn [map concat] in Hb, He |- *.
    unfold render_attr at 1 in Hb. unfold render_attr at 1 in He. unfold render_attr at 1.
    set (body := fst a ++ [0x3D; 0x22] ++ snd a ++ [0x22]) in *.
    rewrite <- !app_assoc in Hb, He |- *. cbn [app bytes_at length] in Hb, He |- *.
    destruct Hb as (Hsp & Hb). rewrite bytes_at_app in Hb. destruct Hb as (Hb1 & Hb2).
    rewrite length_app in He |- *.
    destruct (step_tag_name_to t k _ d n 0x20 S_before_attribute_name C Hbn Hn)
      as (t1 & Hc1 & C1); [lia | done | auto |].
    destruct (run_attribute t1 _ _ (e + 1) a C1 Ha) as (t2 & ta & Hr2 & C2 & Hv & Hw);
      [lia | done | fold body; lia |]. fold body in Hr2.
    rewrite <- (tag_view_attr _ _ _ attrs sc Hv) in C2.
    destruct (run_tag_tail sc attrs t2 _ l (e + 1 + Z.of_nat (length body)) C2 (placed_attr _ _ Hp Hw) Hok)
      as (t3 & Hr3 & C3); [cbn; lia | lia | exact Hb2 | unfold tag_tail; lia |].
    exists t3. split; [|done]. intros tf Hr.
    eapply runs_step; [lia | exact Hc1|]. apply Hr2, Hr3. unfold tag_tail.
    eapply runs_eq; [exact Hr | lia].
Qed.

(** *** Comments *)

Lemma step_tag_open_bang t b d s l :
  cfg t S_tag_open (mk_token b d (Some i) [] 0 0 0) (pend s ++ l) -> in_begin nd <= b ->
  b + Z.of_nat (length s) = d -> d <= in_end nd -> bytes_at (rd t0) b s ->
  rd t0 (d + 1) = 0x21 ->
  exists t' k, call_state t (d + 1) (in_end nd) = (t', d + 2) /\
    cfg t' S_markup_declaration_open k l /\ blank k.
Proof.
  intros C Hb Hd Hle Hs Hc. unfold call_state. rewrite (c_state C).
  unfold lxb_html_tokenizer_state_tag_open. rewrite (cfg_rd C), Hc. cbv zeta.
  destruct (cfg_emit_text (R := tokenizer E * Z) _ S_markup_declaration_open b d s l
    (in_end nd) (fun t => ret t (d + 1 + 1)) (cfg_set_state _ _ _ _ _ C))
    as (t1 & k & He & C1 & Hk); try done.
  exists t1, k. split; [|done]. replace (d + 2) with (d + 1 + 1) by lia. exact He.
Qed.

(** From [--] to the first byte of the comment. *)
Lemma step_markup_comment t k l d : cfg t S_markup_declaration_open k l -> blank k ->
  rd t0 d = 0x2D -> rd t0 (d + 1) = 0x2D -> d + 2 <= in_end nd ->
  exists t' k', call_state t d (in_end nd) = (t', d + 2) /\
    cfg t' S_comment_before_start k' l /\ blank k'.
Proof.
  intros C Hk H1 H2 Hle. unfold call_state. rewrite (c_state C).
  unfold lxb_html_tokenizer_state_markup_declaration_open. rewrite (cfg_eof C). cbn [negb]. cbv zeta.
  pose proof (cfg_set_begin _ _ _ _ d C) as C1. rewrite !(cfg_rd C1), H1, H2.
  rewrite (proj2 (Z.ltb_ge (in_end nd - d) 2)) by lia.
  eexists _, _. split; [reflexivity|]. split; [eapply cfg_set_state, C1 | done].
Qed.

Definition comment_token b e : html_token :=
  mk_token b e (Some i) [] 0 LXB_TAG__EM_COMMENT LXB_HTML_TOKEN_TYPE_DATA.

(** The first byte of the comment: [-] of [-->], or a comment byte. *)
Lemma step_comment_before_start t k l d c st : cfg t S_comment_before_start k l -> blank k ->
  rd t0 d = c ->
  c = 0x2D /\ st = S_comment_start_dash \/
  (c =? 0x2D) = false /\ (c =? 0x3E) = false /\ st = S_comment ->
  exists t', call_state t d (in_end nd) = (t', if c =? 0x2D then d + 1 else d) /\
    cfg t' st (comment_token d d) l.
Proof.
  intros C (Hk1 & Hk2 & Hk3 & Hk4) Hc Hst. unfold call_state. rewrite (c_state C).
  unfold lxb_html_tokenizer_state_comment_before_start. rewrite (cfg_eof C). cbn [negb]. cbv zeta.
  assert (C1 : cfg (set_type (set_tag_id (set_end (set_begin t d) d) LXB_TAG__EM_COMMENT)
    LXB_HTML_TOKEN_TYPE_DATA) S_comment_before_start (comment_token d d) l).
  { pose proof (cfg_set_type _ _ _ _ LXB_HTML_TOKEN_TYPE_DATA (cfg_set_tag_id _ _ _ _
      LXB_TAG__EM_COMMENT (cfg_set_end _ _ _ _ d (cfg_set_begin _ _ _ _ d C)))) as C1.
    destruct k as [? ? ? ? ? ? ?]. cbn in *. subst. exact C1. }
  unfold lxb_html_tokenizer_state_comment_start. rewrite (cfg_rd C1), Hc.
  destruct Hst as [[-> ->]|(-> & -> & ->)];
    (eexists; split; [reflexivity | eapply cfg_set_state, C1]).
Qed.

(** The states that only move on a [-]. *)
Lemma step_dash t k l d st st' : cfg t st k l -> rd t0 d = 0x2D -> d < in_end nd ->
  st = S_comment_start_dash /\ st' = S_comment_end \/
  st = S_comment_end_dash /\ st' = S_comment_end \/ st = S_comment /\ st' = S_comment_end_dash ->
  exists t', call_state t d (in_end nd) = (t', d + 1) /\ cfg t' st' k l.
Proof.
  intros C Hc Hlt Hst. unfold call_state. rewrite (c_state C).
  destruct Hst as [[-> ->]|[[-> ->]|[-> ->]]].
  - unfold lxb_html_tokenizer_state_comment_start_dash. rewrite (cfg_rd C), Hc.
    eexists; split; [reflexivity | eapply cfg_set_state, C].
  - unfold lxb_html_tokenizer_state_comment_end_dash. rewrite (cfg_rd C), Hc.
    eexists; split; [reflexivity | eapply cfg_set_state, C].
  - unfold lxb_html_tokenizer_state_comment. rewrite scan_step by done.
    unfold comment_body. rewrite (cfg_rd C), Hc.
    eexists; split; [reflexivity | eapply cfg_set_state, C].
Qed.

(** The bytes of the comment and the [-] after them. *)
Lemma step_comment t k l d s : cfg t S_comment k l -> bytes_at (rd t0) d s ->
  forallb comment_char s = true -> d + Z.of_nat (length s) < in_end nd ->
  rd t0 (d + Z.of_nat (length s)) = 0x2D ->
  exists t', call_state t d (in_end nd) = (t', d + Z.of_nat (length s) + 1) /\
    cfg t' S_comment_end_dash k l.
Proof.
  intros C Hs Hc Hlt He. unfold call_state. rewrite (c_state C).
  unfold lxb_html_tokenizer_state_comment.
  rewrite (scan_skip _ _ _ (length s)); [|intros x Hx | lia].
  - rewrite scan_step by done. unfold comment_body. rewrite (cfg_rd C), He.
    eexists; split; [reflexivity | eapply cfg_set_state, C].
  - pose proof (bytes_at_all _ _ _ _ Hs Hc x Hx) as Hr. unfold comment_char in Hr.
    apply negb_true_iff in Hr. unfold comment_body. rewrite (cfg_rd C).
    by rewrite (not_one_of _ _ 0x3C Hr eq_refl), (not_one_of _ _ 0x2D Hr eq_refl),
      (not_one_of _ _ 0x00 Hr eq_refl).
Qed.

Lemma step_comment_end_gt t l b e d : cfg t S_comment_end (comment_token b e) (view_token t0 (comment_token b (d - 2)) :: l) ->
  rd t0 d = 0x3E -> in_begin nd <= b <= d - 2 -> d <= in_end nd ->
  exists t', call_state t d (in_end nd) = (t', d + 1) /\
    cfg t' S_data_before token_zero l.
Proof.
  intros C Hc Hle Hend. unfold call_state. rewrite (c_state C).
  unfold lxb_html_tokenizer_state_comment_end. rewrite (cfg_rd C), Hc. cbv zeta.
  pose proof (cfg_set_state _ _ _ _ S_data_before C) as C1.
  assert (C2 : cfg (set_end_down (set_state t S_data_before) d 2) S_data_before
    (comment_token b (d - 2)) (view_token t0 (comment_token b (d - 2)) :: l)).
  { unfold set_end_down. rewrite (cfg_incoming C1). destruct (c_frame C1) as (HI & _). rewrite HI.
    unfold lexbor_in_node_pos_down, walk_fuel. cbn [pos_down_loop]. rewrite H_nd.
    cbn [mbind option_bind]. rewrite (proj2 (Z.leb_le _ _)) by lia.
    exact (cfg_set_end _ _ _ _ (d - 2) C1). }
  destruct (cfg_done (R := tokenizer E * Z) _ _ _ _ (in_end nd) (fun t => ret t (d + 1)) C2)
    as (t1 & He1 & C3); [by apply placed_bare; (reflexivity || (cbn; lia))|].
  exists t1. split; [exact He1 | done].
Qed.

Lemma run_comment t k l d s : cfg t S_comment_before_start k (item_view (Comment s) :: l) -> blank k ->
  forallb comment_char s && negb (nth 0 s 0 =? 0x3E) = true ->
  in_begin nd <= d -> bytes_at (rd t0) d (s ++ [0x2D; 0x2D; 0x3E]) ->
  d + Z.of_nat (length (s ++ [0x2D; 0x2D; 0x3E])) <= in_end nd ->
  exists t', (forall tf, runs t' (d + Z.of_nat (length (s ++ [0x2D; 0x2D; 0x3E]))) tf -> runs t d tf) /\
    cfg t' S_data_before token_zero l.
Proof.
  intros C Hk Hok Hd Hb He. apply andb_true_iff in Hok as [Hs Hnth].
  rewrite bytes_at_app in Hb. destruct Hb as (Hbs & H1 & H2 & H3 & _).
  rewrite length_app in He |- *. cbn [length] in He |- *.
  set (e := d + Z.of_nat (length s)) in *.
  assert (Hend : exists t2, (forall tf, runs t2 (e + 2) tf -> runs t d tf) /\
    cfg t2 S_comment_end (comment_token d d) (item_view (Comment s) :: l)).
  { destruct s as [|c s].
    - unfold e in *. cbn [length] in *. rewrite Z.add_0_r in *.
      destruct (step_comment_before_start t k _ d 0x2D S_comment_start_dash C Hk H1)
        as (t1 & Hc1 & C1); [auto|].
      destruct (step_dash t1 _ _ (d + 1) _ S_comment_end C1 H2) as (t2 & Hc2 & C2); [lia | auto |].
      exists t2. split; [|done]. intros tf Hr. eapply runs_step; [lia | exact Hc1|].
      eapply runs_step; [lia | exact Hc2|]. eapply runs_eq; [exact Hr | lia].
    - cbn [forallb nth] in Hs, Hnth. pose proof Hs as [Hcc _]%andb_true_iff.
      unfold comment_char in Hcc. apply negb_true_iff in Hcc, Hnth.
      pose proof (not_one_of _ _ 0x2D Hcc eq_refl) as Hdash.
      pose proof Hbs as [Hrc _].
      destruct (step_comment_before_start t k _ d c S_comment C Hk Hrc) as (t1 & Hc1 & C1); [auto|].
      rewrite Hdash in Hc1.
      destruct (step_comment t1 _ _ d (c :: s) C1 Hbs Hs) as (t2 & Hc2 & C2); [lia | done |].
      destruct (step_dash t2 _ _ (e + 1) _ S_comment_end C2 H2) as (t3 & Hc3 & C3); [lia | auto |].
      exists t3. split; [|done]. intros tf Hr. cbn [length] in *.
      eapply runs_step; [lia | exact Hc1|]. eapply runs_step; [lia | exact Hc2|].
      eapply runs_step; [lia | exact Hc3|]. eapply runs_eq; [exact Hr | lia]. }
  destruct Hend as (t2 & Hr2 & C2). replace (e + 1 + 1) with (e + 2) in H3 by lia.
  assert (Hview : view_token t0 (comment_token d (e + 2 - 2)) = item_view (Comment s)).
  { replace (e + 2 - 2) with (d + Z.of_nat (length s)) by lia. unfold view_token. cbn. f_equal.
    apply (span_bytes_at t0 i nd); (done || lia). }
  rewrite <- Hview in C2. destruct (step_comment_end_gt t2 l d d (e + 2) C2 H3) as (t3 & Hc3 & C3); [lia | lia |].
  exists t3. split; [|exact C3].
  intros tf Hr. apply Hr2. eapply runs_step; [lia | exact Hc3|]. eapply runs_eq; [exact Hr | lia].
Qed.

(** *** A whole document *)

(** One markup item, the text before it being emitted first. *)
Lemma run_markup it t d l s : at_item t d (pend s ++ item_view it :: l) s -> is_text it = false -> item_ok it = true ->
  in_begin nd <= d -> bytes_at (rd t0) d (render_item it) ->
  d + Z.of_nat (length (render_item it)) <= in_end nd ->
  exists t', (forall tf, runs t' (d + Z.of_nat (length (render_item it))) tf -> runs t d tf) /\
    cfg t' S_data_before token_zero l.
Proof.
  intros AT Hit Hok Hd Hb He.
  assert (Hlt : d < in_end nd /\ rd t0 d = 0x3C).
  { destruct it; try done; cbn [render_item app bytes_at length] in Hb, He; destruct Hb as [-> _]; lia. }
  destruct Hlt as [Hlt Hc]. destruct (at_item_lt t d _ s AT ltac:(lia) Hc)
    as (t1 & b & Hr1 & C1 & Hb1 & Hb2 & Hb3).
  destruct it as [|n attrs sc|n|c]; [done|..];
    cbn [render_item app bytes_at length item_ok] in Hb, He, Hok |- *.
  - apply andb_true_iff in Hok as [Hn Ha]. destruct n as [|c0 n0] eqn:En; [done|].
    rewrite <- En in *. assert (Hn' : is_alpha c0 = true /\ forallb name_char n = true)
      by (rewrite En in Hn; apply andb_true_iff in Hn; by rewrite En). destruct Hn' as [Hal Hnc].
    fold (tag_tail attrs sc) in Hb, He |- *. destruct Hb as [_ Hb].
    assert (Hal' : is_alpha (rd t0 (d + 1)) = true) by (rewrite En in Hb; destruct Hb as [-> _]; done).
    destruct (step_tag_open_alpha t1 b d s _ C1) as (t2 & k & Hc2 & C2 & Hk); try done; [lia|].
    replace (item_view (StartTag n attrs sc)) with
      (mk_view LXB_TAG__UNDEF (Z.lor LXB_HTML_TOKEN_TYPE_OPEN (close_self sc)) n attrs) in C2 by (by destruct sc).
    destruct (run_tag_name sc attrs n t2 k _ (d + 1) _ C2 Hk) as (t3 & Hr3 & C3);
      [by rewrite En | done | done | lia | done | lia |].
    exists t3. split; [|exact C3].
    intros tf Hr. apply Hr1. eapply runs_step; [|exact Hc2|].
      { rewrite En in He. cbn in He. lia. }
      apply Hr3. eapply runs_eq; [exact Hr | lia].
  - destruct n as [|c0 n0] eqn:En; [done|]. rewrite <- En in *.
    assert (Hn' : is_alpha c0 = true /\ forallb name_char n = true)
      by (rewrite En in Hok; apply andb_true_iff in Hok; by rewrite En). destruct Hn' as [Hal Hnc].
    destruct Hb as (_ & Hsl & Hb). replace (d + 1 + 1) with (d + 2) in Hb by lia.
    assert (Hal' : is_alpha (rd t0 (d + 2)) = true) by (rewrite En in Hb; destruct Hb as [-> _]; done).
    destruct (step_tag_open_slash t1 _ (d + 1) _ C1 Hsl) as (t2 & Hc2 & C2).
    replace (d + 1 + 1) with (d + 2) in Hc2 by lia.
    destruct (step_end_tag_open_alpha t2 b d s _ C2) as (t3 & k & Hc3 & C3 & Hk); try done; [lia|].
    change (item_view (EndTag n)) with (mk_view LXB_TAG__UNDEF (Z.lor LXB_HTML_TOKEN_TYPE_CLOSE (close_self false)) n []) in C3.
    destruct (run_tag_name false [] n t3 k _ (d + 2) _ C3 Hk) as (t4 & Hr4 & C4);
      [by rewrite En | done | done | lia | done | cbn [tag_tail map concat app]; lia |].
    exists t4. split; [|done]. intros tf Hr. apply Hr1. rewrite En in He. cbn in He.
    eapply runs_step; [lia | exact Hc2|]. eapply runs_step; [lia | exact Hc3|].
    apply Hr4. eapply runs_eq; [exact Hr | cbn [tag_tail map concat app]; lia].
  - destruct Hb as (_ & Hbang & Hd1 & Hd2 & Hb).
    replace (d + 1 + 1) with (d + 2) in * by lia. replace (d + 2 + 1 + 1) with (d + 2 + 2) in Hb by lia.
    destruct (step_tag_open_bang t1 b d s _ C1) as (t2 & k & Hc2 & C2 & Hk); try done; [lia|].
    destruct (step_markup_comment t2 k _ (d + 2) C2 Hk Hd1 Hd2) as (t3 & k' & Hc3 & C3 & Hk'); [lia|].
    destruct (run_comment t3 k' _ (d + 2 + 2) c C3 Hk' Hok) as (t4 & Hr4 & C4); [lia | done | lia |].
    exists t4. split; [|done]. intros tf Hr. apply Hr1.
    eapply runs_step; [lia | exact Hc2|]. eapply runs_step; [lia | exact Hc3|].
    apply Hr4. eapply runs_eq; [exact Hr | lia].
Qed.

(** The document from an item on: it is read to the end of the buffer, and
    what was emitted and what is still pending are its items. *)
Lemma run_items l doc : forall t d s, at_item t d (pend s ++ map item_view doc ++ l) s -> doc_ok doc = true ->
  (s <> [] -> match doc with it :: _ => is_text it = false | [] => True end) ->
  in_begin nd <= d -> bytes_at (rd t0) d (render doc) ->
  d + Z.of_nat (length (render doc)) = in_end nd ->
  exists t' s', runs t d t' /\ at_item t' (in_end nd) (pend s' ++ l) s'.
Proof.
  induction doc as [|it doc IH]; intros t d s AT Hok Hs Hd Hb He.
  - cbn in He. assert (d = in_end nd) as -> by lia.
    exists t, s. split; [apply runs_end | exact AT].
  - cbn [doc_ok] in Hok. apply andb_true_iff in Hok as [Hok Htt].
    apply andb_true_iff in Hok as [Hit Hok].
    unfold render in Hb, He. cbn [map concat] in Hb, He. fold (render doc) in Hb, He.
    rewrite bytes_at_app in Hb. destruct Hb as [Hb1 Hb2]. rewrite length_app in He.
    destruct (is_text it) eqn:Et.
    + destruct it as [s1| | |]; try done. destruct s; [|by specialize (Hs ltac:(done))].
      cbn [item_ok render_item] in Hit, Hb1, Hb2, He.
      assert (Hne : s1 <> []) by (by intros ->). assert (Hc : forallb text_char s1 = true) by (by destruct s1).
      assert (Hst : exists t1, (forall tf, runs t1 d tf -> runs t d tf) /\
        cfg t1 S_data (mk_token d 0 (Some i) [] 0 0 0) (pend s1 ++ map item_view doc ++ l)).
      { assert (0 < Z.of_nat (length s1)) by (destruct s1; cbn; [done | lia]).
        assert (pend s1 = [item_view (Text s1)]) as -> by (by destruct s1). cbn [pend map app] in AT |- *.
        inversion AT as [C|b s' C Hb Hd' _]; subst.
        - destruct (step_data_before t _ _ d C) as (t1 & Hc1 & C1). exists t1. split; [|exact C1].
          intros tf Hr. eapply runs_step; [lia | exact Hc1 | done].
        - exists t. split; [done|]. cbn. by rewrite Z.add_0_r. }
      destruct Hst as (t1 & Hr1 & C1).
      destruct (IH t1 (d + Z.of_nat (length s1)) s1) as (t' & s' & Hr & AT');
        [by eapply at_text | done | | lia | done | lia |].
      { intros _. destruct doc as [|it' doc]; [done|]. by destruct (is_text it'). }
      exists t', s'. split; [|exact AT'].
      apply Hr1, (runs_text t1 _ _ d s1 t' C1); [done | done | done | lia | done].
    + destruct (run_markup it t d _ s AT Et Hit Hd Hb1) as (t1 & Hr1 & C1); [lia|].
      destruct (IH t1 (d + Z.of_nat (length (render_item it))) []
        (at_before _ _ _ C1)) as (t' & s' & Hr & AT'); [done | done | lia | done | lia |].
      exists t', s'. split; [by apply Hr1 | exact AT'].
Qed.
End Exec.

(** ** The end of the file *)

Section EndOfFile.
Context {E : Type} `{EV : TkzEnv E} `{EX : Expects E} {XL : ExpectsLaws E}.

(** The call of the callback for a token the client expects. *)
Lemma call_expected (t : tokenizer E) k l : token t = Some k -> expects (env t) (view_token t k :: l) -> located t k ->
  exists e k', call_token_done t = set_token (set_env t e) (Some k') /\ expects e l.
Proof.
  intros Hk Hx Hl. destruct (expects_next t k l Hx Hl) as (e & k' & Hc & He). exists e, k'. split; [|exact He].
  unfold call_token_done. rewrite Hk, Hc. by destruct t.
Qed.

(** What is pending when the last buffer has been read. *)
Definition pending (t : tokenizer E) i nd l s : Prop :=
  expects (env t) (pend s ++ l) /\ incoming_node t = Some i /\ in_nodes (incoming t) !! i = Some nd /\
  chain_wf (in_nodes (incoming t)) [i] /\
  (s = [] /\ state t = S_data_before /\ token t = Some token_zero \/
   exists b, state t = S_data /\ token t = Some (mk_token b 0 (Some i) [] 0 0 0) /\
     0 < in_begin nd /\ in_begin nd <= b /\ b + Z.of_nat (length s) = in_end nd /\ bytes_at (rd t) b s).

Lemma rd_eof (t : tokenizer E) : rd t lxb_html_tokenizer_eof = 0.
Proof. reflexivity. Qed.

(** The state at the end of the file, from text or from an item. *)
Lemma eof_call_text t i nd l s b :
  is_eof t = true -> status t = LXB_STATUS_OK -> expects (env t) (pend s ++ l) -> incoming_node t = Some i ->
  in_nodes (incoming t) !! i = Some nd -> chain_wf (in_nodes (incoming t)) [i] -> state t = S_data ->
  token t = Some (mk_token b 0 (Some i) [] 0 0 0) -> 0 < in_begin nd -> in_begin nd <= b ->
  b + Z.of_nat (length s) = in_end nd -> bytes_at (rd t) b s ->
  exists t', call_state t lxb_html_tokenizer_eof (lxb_html_tokenizer_eof + 1) =
      (t', lxb_html_tokenizer_eof + 1) /\ expects (env t') l /\
    is_Some (token t') /\ reuse t' = reuse t /\ status t' = LXB_STATUS_OK.
Proof.
  intros He Hst Hr Hi Hn WF Hs Hk H0 Hb Hl Hbs. unfold call_state. rewrite Hs.
  unfold lxb_html_tokenizer_state_data. rewrite scan_step by lia.
  unfold data_body. rewrite rd_eof. cbn [Z.eqb]. rewrite He. cbv zeta.
  assert (deref_token t = t) as -> by (unfold deref_token; by rewrite Hk).
  assert (tok t = mk_token b 0 (Some i) [] 0 0 0) as -> by (unfold tok; by rewrite Hk).
  cbn [tok_begin]. rewrite (proj2 (Z.eqb_neq b NULL)) by lia. cbn [negb].
  assert (Hoef : set_end_oef t = set_token t (Some (mk_token b (in_end nd) (Some i) [] 0 0 0))).
  { unfold set_end_oef, deref_node, incoming_end, in_lookup. rewrite Hi. cbn [mbind option_bind].
    rewrite Hn. cbv iota. rewrite Hi. cbn [mbind option_bind]. rewrite Hn. unfold set_end, upd_token. by rewrite Hk. }
  rewrite Hoef. set (k := mk_token b (in_end nd) (Some i) [] 0 0 0).
  change (tok (set_token t (Some k))) with k. cbn [tok_begin tok_end k].
  destruct s as [|c s].
  - cbn in Hl. rewrite (proj2 (Z.eqb_eq b (in_end nd))) by lia. eexists. split; [reflexivity|]. cbn. eauto.
  - rewrite (proj2 (Z.eqb_neq b (in_end nd))) by (cbn in Hl; lia).
    set (k1 := mk_token b (in_end nd) (Some i) [] 0 LXB_TAG__TEXT LXB_HTML_TOKEN_TYPE_TEXT).
    destruct (call_expected (set_token t (Some k1)) k1 l) as (e & k' & Hc & Hx); [done | | |].
    + cbn [env set_token]. replace (view_token (set_token t (Some k1)) k1) with (item_view (Text (c :: s))); [exact Hr|].
      unfold view_token. cbn. f_equal. symmetry. rewrite <- Hl. apply (span_bytes_at _ i nd); (done || lia).
    + right. split; [done|]. exists i, nd. do 4 (split; [done|]). cbn in Hl |- *. split_and!; (lia || constructor).
    + eexists. split.
      * cbn [negb]. unfold token_done_wo_check_m, _token_done_m.
        assert (set_type (set_tag_id (set_token t (Some k)) LXB_TAG__TEXT) LXB_HTML_TOKEN_TYPE_TEXT = set_token t (Some k1)) as -> by done.
        rewrite Hc. reflexivity.
      * cbn. split; [done|]. eauto.
Qed.

Lemma eof_loop_step fuel (t : tokenizer E) : eof_loop (S fuel) t =
  let '(t, p) := call_state t lxb_html_tokenizer_eof (lxb_html_tokenizer_eof + 1) in
  if p <? lxb_html_tokenizer_eof + 1 then eof_loop fuel t else Some t.
Proof. reflexivity. Qed.

Lemma eof_call_before (t : tokenizer E) : is_eof t = true -> state t = S_data_before ->
  call_state t lxb_html_tokenizer_eof (lxb_html_tokenizer_eof + 1) =
  (set_state t S_data, lxb_html_tokenizer_eof).
Proof.
  intros He Hs. unfold call_state. rewrite Hs.
  unfold lxb_html_tokenizer_state_data_before. by rewrite He.
Qed.

Lemma eof_call_zero (t : tokenizer E) : is_eof t = true -> state t = S_data ->
  token t = Some token_zero ->
  call_state t lxb_html_tokenizer_eof (lxb_html_tokenizer_eof + 1) = (t, lxb_html_tokenizer_eof + 1).
Proof.
  intros He Hs Hk. unfold call_state. rewrite Hs. unfold lxb_html_tokenizer_state_data.
  rewrite scan_step by lia. unfold data_body. rewrite rd_eof, He. cbn [Z.eqb]. cbv zeta.
  assert (deref_token t = t) as -> by (unfold deref_token; by rewrite Hk).
  assert (tok t = token_zero) as -> by (unfold tok; by rewrite Hk).
  cbn [token_zero tok_begin Z.eqb negb].
  by assert (tok t = token_zero) as -> by (unfold tok; by rewrite Hk).
Qed.

Lemma Z_ltb_succ n : (n <? n + 1) = true.
Proof. apply Z.ltb_lt. lia. Qed.

Lemma end_pending t i nd l s : pending t i nd (eof_view :: l) s -> exists t',
  lxb_html_tokenizer_end t = Some (t', LXB_STATUS_OK) /\ expects (env t') l.
Proof.
  intros (Hr & Hi & Hn & WF & Hcase). unfold lxb_html_tokenizer_end. cbv zeta.
  set (t1 := set_status (set_reuse t false) LXB_STATUS_OK).
  assert (Hloop : exists t2, eof_loop eof_fuel (set_is_eof t1 true) = Some t2 /\
    expects (env t2) (eof_view :: l) /\ is_Some (token t2) /\ reuse t2 = false /\
    status t2 = LXB_STATUS_OK).
  { destruct Hcase as [(-> & Hs & Hk)|(b & Hs & Hk & H0 & Hb & Hl & Hbs)].
    - eexists. split; [|split; [|split; [|split]]].
      + unfold eof_fuel. rewrite eof_loop_step, eof_call_before by done. rewrite Z_ltb_succ.
        rewrite eof_loop_step, eof_call_zero by done. by rewrite Z.ltb_irrefl.
      + exact Hr.
      + cbn. eauto.
      + done.
      + done.
    - destruct (eof_call_text (set_is_eof t1 true) i nd (eof_view :: l) s b) as (t2 & Hc & Hrest); try done.
      exists t2. split; [|done]. unfold eof_fuel. rewrite eof_loop_step, Hc.
      by rewrite Z.ltb_irrefl. }
  destruct Hloop as (t2 & Hl & Hr2 & [k Hk] & Hre & Hst).
  assert (Hend : end_loop (reuse_fuel t1) t1 = Some t2).
  { unfold reuse_fuel, walk_fuel. cbn [end_loop]. rewrite Hl. cbn [mbind option_bind]. by rewrite Hre. }
  rewrite Hend. cbn [mbind option_bind status set_is_eof]. rewrite Hst. cbn [negb Z.eqb].
  unfold lxb_html_token_clean, set_tag_id, upd_token. cbn [token set_is_eof]. rewrite Hk.
  cbn [token set_token]. set (t3 := set_token _ (Some (with_tag_id LXB_TAG__END_OF_FILE token_zero))).
  destruct (call_expected t3 eof_token l) as (e & k' & -> & He); [done | exact Hr2 | by left |].
  eexists. split; [cbn; rewrite Hst; reflexivity | exact He].
Qed.

(** ** The whole parse *)

Lemma only_prev (m : gmap positive in_node) i n : chain_wf m [i] -> m !! i = Some n -> chain_wf (alter (set_in_prev None) i m) [i].
Proof.
  intros [W1 W2 W3] Hn. split; [done | |].
  - intros [|k] j Hj; [|done]. injection Hj as <-. destruct (W2 0%nat i eq_refl) as (n' & Hn' & Hp & Hx & Hu). exists (set_in_prev None n').
    by rewrite lookup_alter_eq, Hn'.
  - intros k j j' n1 n2 Hj Hj'. by destruct k.
Qed.

Lemma release_pending t i nd l s : pending t i nd l s -> incoming_first t = Some i ->
  exists nd', pending (release_incoming t) i nd' l s /\
    status (release_incoming t) = status t.
Proof.
  intros (Hr & Hi & Hn & WF & Hcase) Hf.
  assert (Hk : exists k, token t = Some k) by (destruct Hcase as [(_ & _ & ->)|(b & _ & -> & _)]; eauto).
  destruct Hk as [k Hk]. unfold release_incoming. cbv zeta.
  assert (deref_token t = t) as -> by (unfold deref_token; by rewrite Hk).
  assert (tok t = k) as -> by (unfold tok; by rewrite Hk).
  destruct Hcase as [(-> & Hs & Hk')|(b & Hs & Hk' & H0 & Hb & Hl & Hbs)];
    rewrite Hk in Hk'; injection Hk' as ->.
  - exists nd. split; [|done]. do 4 (split; [done|]). by left.
  - cbn [tok_begin]. rewrite (proj2 (Z.eqb_neq b NULL)) by lia. cbn [negb].
    unfold walk_fuel. cbn [drop_incoming]. rewrite Hf, Hn.
    assert (lexbor_in_segment nd b = true) as ->.
    { unfold lexbor_in_segment. rewrite Z.geb_leb. apply andb_true_iff. split; apply Z.leb_le; lia. }
    rewrite Hf. exists (set_in_prev None nd). split; [|done]. split; [done|]. split; [done|].
    cbn. rewrite lookup_alter_eq, Hn. split; [done|]. split; [by eapply only_prev|]. right. exists b. done.
Qed.

(** The bytes of a document in one buffer of its own, at [a]. *)
Section Whole.
Context (tb : tokenizer E) (a o : Z) (s : list Z).
Context (H_a : STATIC_END <= a) (H_s : bytes_at (rd tb) a s).
Context {TL : TkzEnvLaws E} (H_inv : tkz_inv [] tb).
Context (H_state : state tb = S_data_before) (H_token : token tb = Some token_zero).

Definition node0 : in_node :=
  mk_in_node 0 o a (a + Z.of_nat (length s)) a None None.

(** The tokenizer when it starts on the buffer. *)
Definition started : tokenizer E := node_entered tb (mk_in {[1%positive := node0]} 2) 1.

Context (H_started : tkz_inv [1%positive] started) (H_first : incoming_first tb = None).

Lemma started_bytes : bytes_at (rd started) a s.
Proof. unfold started, node_entered. cbn [incoming_first set_incoming_node set_incoming]. by rewrite H_first. Qed.

Lemma started_incoming : incoming started = mk_in {[1%positive := node0]} 2.
Proof. unfold started, node_entered. cbn [incoming_first set_incoming_node set_incoming]. by rewrite H_first. Qed.

Lemma started_wf : chain_wf {[1%positive := node0]} [1%positive].
Proof. destruct H_started as [[W _ _ _] _ _]. by rewrite started_incoming in W. Qed.

(** The bound of [run] does not matter here either. *)
Lemma process_started t' :
  runs node0 (set_status (set_is_eof started false) LXB_STATUS_OK) a t' -> incoming t' = incoming started ->
  incoming_node t' = Some 1%positive ->
  lxb_html_tokenizer_chunk_process started a (Z.of_nat (length s)) =
    Some (set_use t' (Some 1%positive) (a + Z.of_nat (length s))).
Proof.
  intros [fuel Hr] HI HN. cbn [node0 in_end] in Hr.
  pose proof started_incoming as Hinc.
  destruct (chunk_process_ok [1%positive] 1 node0 started a (Z.of_nat (length s)) H_started)
    as (tc & Hc & _); try done; [by rewrite Hinc | lia |].
  unfold lxb_html_tokenizer_chunk_process in *. cbv zeta in *.
  destruct (run (run_fuel _ _) _ _ _) as [[t1 p1]|] eqn:Hrun; [|done].
  apply (run_more _ _ _ _ _ (fuel + run_fuel a (a + Z.of_nat (length s)))) in Hrun; [|lia].
  apply (run_more _ _ _ _ _ (fuel + run_fuel a (a + Z.of_nat (length s)))) in Hr; [|lia].
  rewrite Hr in Hrun. injection Hrun as <- <-. cbn [mbind option_bind].
  unfold in_lookup. rewrite HN. cbn [mbind option_bind]. rewrite HI, Hinc.
  change (in_nodes (mk_in {[1%positive := node0]} 2) !! 1%positive) with (Some node0).
  cbn [node0 in_next mbind option_bind]. by rewrite HN.
Qed.

(** What the whole buffer leaves behind. *)
Lemma process_pending doc l : s = render doc -> doc_ok doc = true -> expects (env tb) (map item_view doc ++ l) -> exists t' s' nd,
  lxb_html_tokenizer_chunk_process started a (Z.of_nat (length s)) = Some t' /\
  pending t' 1 nd l s' /\ incoming_first t' = Some 1%positive /\ status t' = LXB_STATUS_OK /\ opt t' = opt tb.
Proof.
  intros Hs Hdoc Hx. set (t0 := set_status (set_is_eof started false) LXB_STATUS_OK).
  assert (Hst0 : state t0 = S_data_before /\ token t0 = Some token_zero /\ env t0 = env tb /\ fault t0 = false /\
    incoming t0 = mk_in {[1%positive := node0]} 2 /\ incoming_node t0 = Some 1%positive /\ incoming_first t0 = Some 1%positive /\ opt t0 = opt tb).
  { unfold t0, started, node_entered. cbn [incoming_first set_incoming_node set_incoming]. rewrite H_first.
    destruct H_inv as [_ Hf _]. done. }
  destruct Hst0 as (S1 & S2 & S3 & S4 & S5 & S6 & S7 & S8).
  assert (AT : at_item t0 1 node0 t0 a (pend [] ++ map item_view doc ++ l) []) by (apply at_before; split; try done; by rewrite S3).
  destruct (run_items t0 1 node0 S6) with (l := l) (doc := doc) (t := t0) (d := a) (s := @nil Z) as (t' & s' & Hr & AT');
    [by rewrite S5 | done | unfold STATIC_END in *; cbn; lia | | done | done | done | cbn; lia
    | rewrite <- Hs; exact started_bytes | rewrite <- Hs; done |].
  { rewrite S5. exact started_wf. }
  assert (F : frame t0 t' /\ expects (env t') (pend s' ++ l) /\ status t' = LXB_STATUS_OK)
    by (inversion AT' as [C|b s'' C Hb He Hbs]; subst s'; by destruct C).
  destruct F as ((HI & HF & HN & _ & _ & Ho & _ & HM) & Hrec & Hst).
  pose proof (process_started t' Hr HI (eq_trans HN S6)) as Hp.
  assert (Hwf : chain_wf (in_nodes (incoming (set_use t' (Some 1%positive) (a + Z.of_nat (length s))))) [1%positive]).
  { destruct (chunk_process_ok [1%positive] 1 node0 started a (Z.of_nat (length s)) H_started)
      as (tc & Hc & _ & Hinv); try done; [by rewrite started_incoming | lia |].
    rewrite Hp in Hc. injection Hc as <-. by destruct Hinv as [[[]]|[[]]]. }
  unfold set_use, in_lookup in Hp, Hwf. cbn [mbind option_bind] in Hp, Hwf. rewrite HI, S5 in Hp, Hwf.
  change (in_nodes (mk_in {[1%positive := node0]} 2) !! 1%positive) with (Some node0) in Hp, Hwf. cbv iota in Hp, Hwf.
  eexists _, s', _. split; [exact Hp|]. cbn [incoming_first set_incoming status opt].
  split; [|split; [by rewrite HF | split; [done | by rewrite Ho]]].
  split; [done|]. split; [exact (eq_trans HN S6)|]. split; [apply lookup_insert_eq|].
  split; [exact Hwf|].
  inversion AT' as [C|b s'' C Hb He Hbs]; subst s'; destruct C as [Hs1 Hk1 _ _ _ _].
  - by left.
  - right. exists b. split; [done|]. split; [done|]. cbn in Hb, He |- *.
    split; [unfold STATIC_END in *; lia|]. split; [done|]. split; [done|].
    unfold rd in *. cbn. by rewrite HM.
Qed.
End Whole.

(** ** One buffer *)

Context {TL : TkzEnvLaws E}.

(** The tokenizer before its first buffer. *)
Record ready (t : tokenizer E) : Prop := {
  rd_inv : tkz_inv [] t;
  rd_state : state t = S_data_before;
  rd_token : token t = Some token_zero;
  rd_incoming : incoming t = lexbor_in_init;
  rd_first : incoming_first t = None;
  rd_node : incoming_node t = None
}.

Lemma memcpy_bytes (t : tokenizer E) c data s : STATIC_END <= c -> bytes_at (rd t) data s -> bytes_at (rd (memcpy t c data (Z.of_nat (length s)))) c s.
Proof.
  intros Hc Hs. enough (H : forall l k, bytes_at (rd t) (data + k) l -> 0 <= k -> k + Z.of_nat (length l) <= Z.of_nat (length s) ->
    bytes_at (rd (memcpy t c data (Z.of_nat (length s)))) (c + k) l).
  { specialize (H s 0). rewrite !Z.add_0_r in H. apply H; [done | lia..]. }
  induction l as [|b l IH]; intros k; cbn [bytes_at length]; [done|]. intros [Hb Hl] Hk Hle. split.
  - unfold rd at 1, rdm, memcpy. cbn [mem set_mem]. rewrite (proj2 (Z.ltb_ge (c + k) STATIC_END)) by lia.
    rewrite (proj2 (Z.leb_le c (c + k))), (proj2 (Z.ltb_lt (c + k) _)) by lia. cbn [andb]. rewrite <- Hb. f_equal. lia.
  - replace (c + k + 1) with (c + (k + 1)) by lia. apply IH; [by replace (data + (k + 1)) with (data + k + 1) by lia | lia..].
Qed.

(** The chunk, where the buffer is used as it is or copied. *)
Lemma chunk_pending (tb : tokenizer E) a copied data doc l : ready tb -> doc_ok doc = true -> expects (env tb) (map item_view doc ++ l) ->
  bytes_at (rd tb) data (render doc) -> STATIC_END <= a ->
  (if has_opt tb LXB_HTML_TOKENIZER_OPT_WO_COPY then a = data else copied = Some a) ->
  exists t nd s, lxb_html_tokenizer_chunk tb true copied data (Z.of_nat (length (render doc))) = Some (t, LXB_STATUS_OK) /\
    pending t 1 nd l s.
Proof.
  intros R Hdoc Hx Hb Ha Hcopy. pose proof R as [INV Rs Rt Ri Rf Rn].
  assert (Htail : forall (t1 : tokenizer E) o, tkz_inv [] t1 -> state t1 = S_data_before -> token t1 = Some token_zero -> incoming_first t1 = None ->
    expects (env t1) (map item_view doc ++ l) -> bytes_at (rd t1) a (render doc) -> tkz_inv [1%positive] (started t1 a o (render doc)) ->
    exists t nd s, (t ← lxb_html_tokenizer_chunk_process (started t1 a o (render doc)) a (Z.of_nat (length (render doc)));
      if has_opt t LXB_HTML_TOKENIZER_OPT_WO_IN_DESTROY then Some (t, status t)
      else if negb (status t =? LXB_STATUS_OK) then let t := lxb_html_tokenizer_erase_incoming t in Some (t, status t)
      else let t := release_incoming t in Some (t, status t)) = Some (t, LXB_STATUS_OK) /\ pending t 1 nd l s).
  { intros t1 o I1 S1 T1 F1 X1 B1 I2.
    destruct (process_pending t1 a o (render doc) Ha B1 I1 S1 T1 I2 F1 doc l eq_refl Hdoc X1) as (t' & s' & nd & -> & P & Hf & Hst & _).
    cbn [mbind option_bind]. rewrite Hst. destruct (has_opt t' _); [by exists t', nd, s'|].
    change (negb (LXB_STATUS_OK =? LXB_STATUS_OK)) with false. cbv zeta iota.
    destruct (release_pending t' 1 nd l s' P Hf) as (nd2 & P2 & Hs2). exists (release_incoming t'), nd2, s'. by rewrite Hs2, Hst. }
  assert (Hmake : lexbor_in_node_make (incoming tb) true (incoming_node tb) a (Z.of_nat (length (render doc))) =
    (mk_in {[1%positive := node0 a 0 (render doc)]} 2, Some 1%positive)) by (rewrite Ri, Rn; reflexivity).
  unfold lxb_html_tokenizer_chunk. cbv zeta. destruct (has_opt tb LXB_HTML_TOKENIZER_OPT_WO_COPY).
  - subst data. rewrite Hmake. cbv beta iota. apply (Htail tb 0); try done.
    destruct (node_entered_inv [] tb a (Z.of_nat (length (render doc))) INV) as (inc & i & n & Hm & I & _); [lia|].
    rewrite Hmake in Hm. by injection Hm as <- <-.
  - subst copied. cbn [mbind option_bind]. set (t1 := memcpy tb a data (Z.of_nat (length (render doc)))).
    assert (I1 : tkz_inv [] t1) by (destruct INV as [[] ? ? ?]; by split).
    change (incoming t1) with (incoming tb). change (incoming_node t1) with (incoming_node tb). rewrite Hmake. cbv beta iota.
    destruct (node_entered_inv [] t1 a (Z.of_nat (length (render doc))) I1) as (inc & i & n & Hm & I & Hn & _); [lia|].
    change (incoming t1) with (incoming tb) in Hm. change (incoming_node t1) with (incoming_node tb) in Hm. rewrite Hmake in Hm. injection Hm as <- <-.
    apply (mark_alloc_inv _ _ _ _ I) in Hn as [I2 _].
    assert (Hmark : mark_alloc (node_entered t1 (mk_in {[1%positive := node0 a 0 (render doc)]} 2) 1) 1 = started t1 a LEXBOR_IN_OPT_ALLOC (render doc)).
    { unfold mark_alloc, started, node_entered. cbn [incoming_first set_incoming_node set_incoming]. change (incoming_first t1) with (incoming_first tb).
      rewrite Rf. reflexivity. }
    rewrite Hmark in I2.
    match goal with |- context [lxb_html_tokenizer_chunk_process ?x _ _] =>
      change x with (mark_alloc (node_entered t1 (mk_in {[1%positive := node0 a 0 (render doc)]} 2) 1) 1) end. rewrite Hmark.
    apply (Htail t1 LEXBOR_IN_OPT_ALLOC); try done. by apply memcpy_bytes.
Qed.

(** The whole of the tokenizer's part: the client gets the items and the end. *)
Lemma tokenize_pending (tb : tokenizer E) a copied data doc l : ready tb -> doc_ok doc = true ->
  expects (env tb) (map item_view doc ++ eof_view :: l) -> bytes_at (rd tb) data (render doc) -> STATIC_END <= a ->
  (if has_opt tb LXB_HTML_TOKENIZER_OPT_WO_COPY then a = data else copied = Some a) ->
  exists t t', lxb_html_tokenizer_chunk tb true copied data (Z.of_nat (length (render doc))) = Some (t, LXB_STATUS_OK) /\
    lxb_html_tokenizer_end t = Some (t', LXB_STATUS_OK) /\ expects (env t') l.
Proof.
  intros R Hdoc Hx Hb Ha Hcopy. destruct (chunk_pending tb a copied data doc _ R Hdoc Hx Hb Ha Hcopy) as (t & nd & s & Hc & P).
  destruct (end_pending t 1 nd l s P) as (t' & He & X). by exists t, t'.
Qed.
End EndOfFile.

(** ** A client that records what it is given *)

Record recorder := mk_recorder { recorded : list token_view }.

#[export] Instance recorder_env : TkzEnv recorder := {|
  callback_token_done t k :=
    (mk_recorder (recorded (env t) ++ [view_token t k]), mk_reply (Some k) None None None);
  lxb_html_tree_adjusted_current_node _ := None;
  tag_heap _ := empty_heap;
  attr_alloc_ok _ _ := true
|}.

#[export] Instance recorder_env_laws : TkzEnvLaws recorder.
Proof. apply plain_env. intros t k e r s [= <- <-]. done. Defined.


(** It expects what is still to be recorded of a list. *)
#[local] Instance recorder_expects (whole : list token_view) : Expects recorder := fun e l => recorded e ++ l = whole.

#[local] Instance recorder_laws whole : ExpectsLaws recorder (H0 := recorder_expects whole).
Proof.
  split; [|done]. intros t k l Hx _. eexists _, _. split; [reflexivity|]. unfold expects, recorder_expects in *. cbn. by rewrite <- app_assoc.
Qed.

(** The static bytes do not hide what lies behind them. *)
Lemma bytes_at_static m s : forall a, STATIC_END <= a -> bytes_at m a s -> bytes_at (rdm m) a s.
Proof.
  induction s as [|b s IH]; intros a Ha; cbn [bytes_at]; [done|]. intros [<- Hs].
  split; [|apply IH; [lia | done]]. unfold rdm. by rewrite (proj2 (Z.ltb_ge a STATIC_END)).
Qed.

(** The tokenizer that starts on a buffer that is not copied. *)
Lemma parse_one_buffer m o a doc : doc_ok doc = true -> STATIC_END <= a -> bytes_at m a (render doc) ->
  Z.land o LXB_HTML_TOKENIZER_OPT_WO_COPY <> 0 -> exists t,
  parse (mk_recorder []) m o true [mk_chunk_call a (N.of_nat (length (render doc))) true None] =
    Some (t, LXB_STATUS_OK) /\
  recorded (env t) = map item_view doc ++ [eof_view].
Proof.
  intros Hdoc Ha Hb Ho. set (whole := map item_view doc ++ [eof_view]).
  destruct (tokenize_pending (EX := recorder_expects whole) (XL := recorder_laws whole) (begun (mk_recorder []) m o) a None a doc [])
    as (t & t' & Hc & He & Hx); [split; try done; by apply begun_inv | done | done | | done | |].
  - by apply bytes_at_static.
  - assert (has_opt (begun (mk_recorder []) m o) LXB_HTML_TOKENIZER_OPT_WO_COPY = true) as -> by (by apply negb_true_iff, Z.eqb_neq). done.
  - exists t'. rewrite parse_begun. cbn [parse_chunks cc_data cc_size cc_node_ok cc_copied]. rewrite nat_N_Z, Hc.
    cbn [mbind option_bind]. change (LXB_STATUS_OK =? LXB_STATUS_OK) with true. cbv iota. cbn [mbind option_bind].
    change (LXB_STATUS_OK =? LXB_STATUS_OK) with true. cbv iota. rewrite He. split; [done|].
    unfold expects, recorder_expects in Hx. by rewrite app_nil_r in Hx.
Qed.

(** C5: tokenizing inverts writing.  For every document of texts, tags (with
    double-quoted attributes, self-closing or not), end tags and comments, written
    at any address of any memory, tokenizing the written bytes (the buffer not
    copied, released early or kept) calls the callback with exactly the document's
    items in order: each text and comment with its bytes, each tag with its name
    and its attributes' names and values in order, then the end-of-file token; the
    status is OK. *)
Theorem tokenize_render doc m o a :
  doc_ok doc = true -> STATIC_END <= a -> bytes_at m a (render doc) ->
  Z.land o LXB_HTML_TOKENIZER_OPT_WO_COPY <> 0 ->
  exists t, parse (mk_recorder []) m o true
      [mk_chunk_call a (N.of_nat (length (render doc))) true None] = Some (t, LXB_STATUS_OK) /\
    recorded (env t) = map item_view doc ++ [eof_view].
Proof. intros Hd Ha Hb Ho. by apply parse_one_buffer. Qed.

(** [hi<b x="1&">c</b><!--k--><br/>!] *)
Definition doc_example : list item :=
  [Text [0x68; 0x69]; StartTag [0x62] [([0x78], [0x31; 0x26])] false; Text [0x63]; EndTag [0x62];
   Comment [0x6B]; StartTag [0x62; 0x72] [] true; Text [0x21]].

Lemma tokenize_render_witness :
  exists t, parse (mk_recorder []) (place BUF (render doc_example) (fun _ => 0)) 1 true
      [mk_chunk_call BUF (N.of_nat (length (render doc_example))) true None] =
        Some (t, LXB_STATUS_OK) /\
    recorded (env t) = map item_view doc_example ++ [eof_view].
Proof.
  apply (tokenize_render doc_example); [reflexivity | discriminate | | discriminate].
  vm_compute. repeat split.
Defined.
