(* ===== verification/TreeRender.v ===== *)
(** * Writing a document and parsing it

    The tokenizer and the tree builder together: the items of the body of a
    document, written between the tags of a document, are parsed to the tree that
    the reference machine of [TreeSpec] builds from them. *)
From Stdlib Require Import String.
From S2P Require Import Prelude.
From S2P Require Import Str.
From S2P Require Import In.
From S2P Require Import Tag.
From S2P Require Import TagHeap.
From S2P Require Import TkzBase.
From S2P Require Import HtmlIn.
From S2P Require Import TokenData.
From S2P Require Import ParserChar.
From S2P Require Import ParserCharProof.
From S2P Require Import TokenParse.
From S2P Require Import TkzRun.
From S2P Require Import TkzInst.
From S2P Require Import TkzStep.
From S2P Require Import TkzSafe.
From S2P Require Import TkzChunk.
From S2P Require Import TkzParse.
From S2P Require Import TkzSpec.
From S2P Require Import DomNode.
From S2P Require Import DomTree.
From S2P Require Import DomLink.
From S2P Require Import DomAttr.
From S2P Require Import DomRead.
From S2P Require Import TreeAttr.
From S2P Require Import TagCat.
From S2P Require Import TagConst.
From S2P Require Import Array.
From S2P Require Import TreeStack.
From S2P Require Import TreeM.
From S2P Require Import TreeInsert.
From S2P Require Import TreeMode.
From S2P Require Import TreeInitial.
From S2P Require Import TreeLogic.
From S2P Require Import TreeBuild.
From S2P Require Import TreeLaws.
From S2P Require Import TreeSpec.

(** ** The events of the items *)

Definition tag_of (name : list Z) : option Z := tag_id <$> lxb_tag_static_by_name name.

(** The attributes of a start tag: names in lower case, references in values decoded,
    of those with one name the first. *)
Definition decoded_attrs (l : list (list Z * list Z)) : list (list Z * option (list Z)) :=
  fold_left add_pair (map (fun x => decoded_pair (fst x, Some (snd x))) l) [].

(** A text with its references decoded and without NULs; a comment as it is, up to
    newlines. *)
Definition text_options : options := mk_options CM_ref false true false.
Definition comment_options : options := mk_options CM_data true false false.

Definition event_of (it : item) : option event :=
  match it with
  | Text s => match decoded text_options s with [] => None | s' => Some (Chars s') end
  | StartTag n attrs _ =>
      tag ← tag_of n; let k := (tag, decoded_attrs attrs) in Some (if one_of tag void_tags then Void k else Open k)
  | EndTag n => Close <$> tag_of n
  | Comment s => Some (Remark (decoded comment_options s))
  end.

Lemma tag_of_known n tag : tag_name_ok n = true -> tag_of n = Some tag -> tag <> LXB_TAG__UNDEF.
Proof.
  unfold tag_of. destruct n as [|c n]; [done|]. intros [Hc _]%andb_prop. destruct (lxb_tag_static_by_name (c :: n)) as [d|] eqn:Hd; [|done].
  intros [= <-]. eapply (by_name_not_undef empty_heap (c :: n)); [by eapply (tag_heap_init_wf 128) | done|]. unfold lxb_tag_data_by_name_default_cb. by rewrite Hd.
Qed.

Section Items.
Context {E : Type} (t : tokenizer E) (k : html_token).
Context (L : in_buffer t k).
#[local] Instance bufs : TokenBuffers := buffers t.

(** A span in the one buffer. *)
Lemma span_node i nd b e : in_nodes (incoming t) !! i = Some nd -> chain_wf (in_nodes (incoming t)) [i] -> 0 < in_begin nd ->
  in_begin nd <= b <= e -> e <= in_end nd ->
  chain_span (in_nodes (incoming t)) [i] i i nd nd b e /\ lexbor_in_segment nd e = true /\
  span_bytes t (Some i) b e = read_range (rd t) b e.
Proof.
  intros Hnd WF Hpos Hb He. split; [|split].
  - split; try done; [|split; [done | lia] | split; [done | lia] | unfold in_abs; lia].
    exists 0%nat, 0%nat. repeat (split; [done|]). lia.
  - unfold lexbor_in_segment. rewrite Z.geb_leb. apply andb_true_iff. split; apply Z.leb_le; lia.
  - apply (span_bytes_node t i nd); (done || lia).
Qed.

Lemma text_node i nd b e : in_nodes (incoming t) !! i = Some nd -> chain_wf (in_nodes (incoming t)) [i] -> 0 < in_begin nd ->
  in_begin nd <= b <= e -> e <= in_end nd ->
  span_text (in_nodes (incoming t)) (rd t) [i] (Some i) b e (span_bytes t (Some i) b e).
Proof.
  intros Hnd WF Hpos Hb He. destruct (span_node i nd b e Hnd WF Hpos Hb He) as (SP & Hseg & ->). exists i, i, i, nd, nd, nd. repeat (split; [done|]).
  exact (one_buffer_bytes (rd := rd t) (k := mk_token b e (Some i) [] 0 0 0) SP eq_refl Hnd eq_refl Hseg).
Qed.

(** The bytes of the token. *)
Lemma span_in_buffer : exists i nd, tok_in_begin k = Some i /\ in_nodes (incoming t) !! i = Some nd /\ lexbor_in_segment nd (tok_end k) = true /\
  span_bytes t (tok_in_begin k) (tok_begin k) (tok_end k) = read_range (rd t) (tok_begin k) (tok_end k).
Proof.
  destruct L as (_ & i & nd & Hnd & WF & Hpos & Hi & Hb & He & _). exists i, nd.
  destruct (span_node i nd _ _ Hnd WF Hpos Hb He) as (_ & Hseg & Hbytes). by rewrite Hi.
Qed.

Lemma span_text_in_buffer : exists i, span_text (in_nodes (incoming t)) (rd t) [i] (tok_in_begin k) (tok_begin k) (tok_end k)
  (span_bytes t (tok_in_begin k) (tok_begin k) (tok_end k)).
Proof.
  destruct L as (_ & i & nd & Hnd & WF & Hpos & Hi & Hb & He & _). exists i. rewrite Hi. by eapply text_node.
Qed.

(** The attributes of the token. *)
Lemma attrs_given : gives k (decoded_attrs (map (attr_view t) (tok_attrs k))).
Proof.
  destruct L as (Hbase & i & nd & Hnd & WF & Hpos & _ & _ & _ & Hattrs). split; [done|]. split; [done|].
  exists [i], (map (fun x => (fst x, Some (snd x))) (map (attr_view t) (tok_attrs k))). split; [|unfold decoded_attrs; by rewrite !map_map].
  induction Hattrs as [|ta l (H1 & H2 & H3 & H4 & H5 & H6) _ IH]; [constructor|]. cbn [map]. constructor; [|exact IH]. split; (split; [lia|]).
  - cbn [fst attr_view]. rewrite H1. by eapply text_node.
  - cbn [snd attr_view]. rewrite H4. by eapply text_node.
Qed.

(** The tag of a name of the static table. *)
Lemma resolves_name n tag : span_bytes t (tok_in_begin k) (tok_begin k) (tok_end k) = n -> tag_of n = Some tag -> tag <> LXB_TAG__UNDEF ->
  tok_tag_id k = LXB_TAG__UNDEF -> Z.land (tok_type k) LXB_HTML_TOKEN_TYPE_NULL = 0 -> resolves k tag.
Proof.
  intros Hn Ht Hne Hk Hnull. split; [done|]. right. split; [done|]. intros h. exists h.
  destruct span_in_buffer as (i & nd & Hi & Hnd & Hseg & Hr). rewrite Hr in Hn.
  unfold lxb_html_token_tag_id_from_data. rewrite Hi. cbn [mbind option_bind bufs buffers tb_nodes tb_byte]. rewrite Hnd. cbn [mbind option_bind].
  rewrite Hseg, Hnull. cbn [andb Z.eqb]. rewrite Hn. unfold lxb_tag_id_by_name, lxb_tag_data_by_name_default_cb.
  unfold tag_of in Ht. destruct (lxb_tag_static_by_name n) as [d|]; [|done]. injection Ht as Ht. rewrite Ht.
  by rewrite (proj2 (Z.eqb_neq _ _)).
Qed.

(** The text of the token. *)
Lemma text_is_decoded O pc s : span_bytes t (tok_in_begin k) (tok_begin k) (tok_end k) = s -> data_options k pc = Some O ->
  text_is pc k (decoded O s).
Proof.
  intros <- HO. destruct span_text_in_buffer as [i Hsp]. unfold data_options in HO. unfold text_is, lxb_html_token_parse_data, has_type in *.
  pose proof (fun O' p' => process_text (in_nodes (incoming t)) (rd t) _ eq_refl O' _ _ _ _ p' [] Hsp) as Hp.
  repeat case_match; try discriminate HO; injection HO as <-; (edestruct Hp as (p' & Hp' & _); [..|by exists p']); done.
Qed.
Lemma told_item it e : view_token t k = item_view it -> event_of it = Some e -> item_ok it = true -> told e k.
Proof.
  unfold view_token. intros V He Hok. destruct it as [s|n attrs sc|n|s]; cbn -[one_of] in V, He; injection V as Ht Hty Hs Ha.
  - destruct (decoded text_options s) as [|c l] eqn:Hd; [done|]. injection He as <-. exists LXB_TAG__TEXT. split; [by split; [|left]|].
    split; [done|]. split; [by unfold closes; cbn [with_tag_id tok_type]; rewrite Hty|]. split; [|done]. rewrite <- Hd.
    apply (text_is_decoded text_options); [done|]. unfold data_options, has_type. by rewrite Hty.
  - destruct (tag_of n) as [tag|] eqn:Htag; [|done]. cbn -[one_of] in He.
    assert (tag <> LXB_TAG__UNDEF) as Hne by exact (tag_of_known n tag (proj1 (andb_prop _ _ Hok)) Htag).
    assert (shows (Open (tag, decoded_attrs attrs)) (with_tag_id tag k)) as Hsh.
    { split; [done|]. split; [unfold closes; cbn [with_tag_id tok_type]; rewrite Hty; by destruct sc|]. cbn [snd]. rewrite <- Ha. exact attrs_given. }
    exists tag. split; [|destruct (one_of tag void_tags); injection He as <-; exact Hsh]. apply (resolves_name n); try done. rewrite Hty. by destruct sc.
  - destruct (tag_of n) as [tag|] eqn:Htag; [|done]. injection He as <-. exists tag. split; [|by split; [|unfold closes; cbn [with_tag_id tok_type]; rewrite Hty]].
    apply (resolves_name n); try done; [by eapply tag_of_known | by rewrite Hty].
  - injection He as <-. exists LXB_TAG__EM_COMMENT. split; [by split; [|left]|]. split; [done|].
    split; [by unfold closes; cbn [with_tag_id tok_type]; rewrite Hty|].
    apply (text_is_decoded comment_options); [done|]. unfold data_options, has_type. by rewrite Hty.
Qed.
End Items.

(** ** Pages *)

(** The attributes of the tags [<html>], [<head>] and [<body>]. *)
Record page_attrs := mk_page_attrs { pa_html : list (list Z * list Z); pa_head : list (list Z * list Z); pa_body : list (list Z * list Z) }.

(** The items [body] between the tags of a document. *)
Definition page (p : page_attrs) (body : list item) : list item :=
  [StartTag (bytes_of "html"%string) (pa_html p) false; StartTag (bytes_of "head"%string) (pa_head p) false; EndTag (bytes_of "head"%string);
   StartTag (bytes_of "body"%string) (pa_body p) false] ++
  body ++ [EndTag (bytes_of "body"%string); EndTag (bytes_of "html"%string)].

(** The elements of the tags. *)
Definition page_html (p : page_attrs) : kind := (LXB_TAG_HTML, decoded_attrs (pa_html p)).
Definition page_head (p : page_attrs) : kind := (LXB_TAG_HEAD, decoded_attrs (pa_head p)).
Definition page_body (p : page_attrs) : kind := (LXB_TAG_BODY, decoded_attrs (pa_body p)).

(** What is open in the body, with [cs] in it. *)
Definition page_open (p : page_attrs) (cs : list dom_item) : list open_element :=
  [(page_body p, cs); (page_html p, [Item (element_label (page_head p)) []])].

(** The tree of a document with an empty [head], and [cs] in its [body]. *)
Definition page_tree (html head body : kind) (cs : list dom_item) : dom_item :=
  Item document_label [Item (element_label html) [Item (element_label head) []; Item (element_label body) cs]].

(** ** The builder expects the items *)

Section Client.
Context `{TreePlenty}.

(** The builder takes tokens that show as the views [l], from any buffer, and is then
    such that [Q]. *)
Fixpoint reads (Q : html_tree -> Prop) (l : list token_view) (b : html_tree) : Prop :=
  match l with
  | [] => Q b
  | v :: l => forall (t : tokenizer (option html_tree)) k, view_token t k = v -> located t k ->
      wp (lxb_html_tree_token_callback (H0 := buffers t) k)
        (accepted (fun b' => t_tkz_state b' = None /\ t_tkz_tag b' = None /\ reads Q l b')) b
  end.

Definition tree_expects (Q : html_tree -> Prop) : Expects (option html_tree) := fun e l => exists b, e = Some b /\ reads Q l b.

Lemma tree_expects_laws Q : ExpectsLaws (option html_tree) (H0 := tree_expects Q).
Proof.
  split; [|done]. intros t k l (b & Hb & Hr) L. destruct (Hr t k eq_refl L) as ([returned s] & b' & Hc & [= -> ->] & Hs & Htag & Hl).
  cbn [callback_token_done tree_env]. rewrite Hb. cbn [mbind option_bind]. rewrite Hc, Hs, Htag. eexists _, _. split; [reflexivity|]. by exists b'.
Qed.
Lemma reads_item Q it e l m es dcs b : event_of it = Some e -> item_ok it = true ->
  (forall (TB : TokenBuffers) k, told e k -> wp (lxb_html_tree_token_callback k) (accepted (stands m es dcs)) b) ->
  (forall b', stands m es dcs b' -> reads Q l b') -> reads Q (item_view it :: l) b.
Proof.
  intros He Hok Hw Hl t k V L. assert (@told (buffers t) e k) as Hk.
  { destruct L as [->|L]; [|by eapply told_item]. exfalso. apply (f_equal view_tag_id) in V. by destruct it. }
  eapply wp_weaken; [by apply Hw|]. intros r b' [-> St]. split; [done|]. destruct (St) as (_ & _ & Hs & Ht). split; [done|]. split; [done|]. by apply Hl.
Qed.

(** The events of the items of a body. *)
Lemma reads_body Q l' body : forall es es' dcs b evs, mapM event_of body = Some evs -> forallb item_ok body = true -> events evs es = Some es' ->
  stands IM_in_body es dcs b -> Z.of_nat (length es) + Z.of_nat (length body) + 129 <= SIZE_MAX ->
  (forall b', stands IM_in_body es' dcs b' -> reads Q l' b') -> reads Q (map item_view body ++ l') b.
Proof.
  induction body as [|it body IH]; intros es es' dcs b evs Hev Hok He St Hlen Hl.
  - injection Hev as <-. injection He as <-. by apply Hl.
  - cbn [forallb] in Hok. apply andb_prop in Hok as [Hit Hok]. cbn [mapM] in Hev. destruct (event_of it) as [e|] eqn:E1; [|done].
    cbn [mbind option_bind] in Hev. destruct (mapM event_of body) as [evs'|] eqn:E2; [|done]. injection Hev as <-.
    cbn [events] in He. destruct (event_step e es) as [es1|] eqn:E3; [|done]. pose proof (event_length _ _ _ E3) as Hn.
    cbn [map app]. cbn [length] in Hlen. eapply reads_item; [exact E1 | exact Hit | |].
    + intros TB k Hk. eapply event_ok; [exact St | exact E3 | unfold deep; lia | exact Hk].
    + intros b' St'. eapply IH; [done | done | exact He | exact St' | lia | exact Hl].
Qed.

(** The builder that is given the items of a page. *)
Lemma reads_page Q l document p body evs cs : mapM event_of body = Some evs -> forallb item_ok (page p body) = true ->
  events evs (page_open p []) = Some (page_open p cs) -> Z.of_nat (length body) < 2 ^ 63 ->
  (forall b, t_complete b = true -> document_reads b (page_tree (page_html p) (page_head p) (page_body p) cs) -> reads Q l b) ->
  reads Q (map item_view (page p body) ++ eof_view :: l) (lxb_html_tree_init (lxb_html_document_create document) document).
Proof.
  intros Hev Hok He Hlen HQ. unfold page in *. rewrite !forallb_app in Hok. cbn [forallb] in Hok.
  apply andb_prop in Hok as [[Hok1 [Hok2 [_ [Hok4 _]%andb_prop]%andb_prop]%andb_prop]%andb_prop [Hok _]%andb_prop].
  rewrite map_app, <- app_assoc. cbn [map app].
  eapply (reads_item _ _ (Open (page_html p))); [reflexivity | exact Hok1 | intros TB k; apply start_ok, stands_initial | intros b1 St1].
  eapply (reads_item _ _ (Open (page_head p))); [reflexivity | exact Hok2 | intros TB k; by apply head_open_ok | intros b2 St2].
  eapply (reads_item _ _ (Close LXB_TAG_HEAD)); [reflexivity | reflexivity | intros TB k; by apply head_closed_ok | intros b3 St3].
  eapply (reads_item _ _ (Open (page_body p))); [reflexivity | exact Hok4 | intros TB k; by apply body_open_ok | intros b4 St4].
  rewrite map_app, <- app_assoc. eapply reads_body; [exact Hev | exact Hok | exact He | exact St4 | unfold SIZE_MAX; cbn; lia | intros b5 St5].
  cbn [map app].
  eapply (reads_item _ _ (Close LXB_TAG_BODY)); [reflexivity | reflexivity | intros TB k; by eapply body_closed_ok | intros b6 St6].
  eapply (reads_item _ _ (Close LXB_TAG_HTML)); [reflexivity | reflexivity | intros TB k; by eapply html_closed_ok | intros b7 St7].
  intros t k V L. eapply wp_weaken; [eapply eof_token_ok; [exact St7|]|].
  - by apply (f_equal view_tag_id) in V.
  - intros r b8 [-> [St8 Hc]]. split; [done|]. pose proof St8 as (_ & _ & Hs & Ht). split; [done|]. split; [done|].
    apply HQ; [done|]. exact (body_reads _ _ _ _ _ _ _ St8).
Qed.

Lemma length_render l : forallb item_ok l = true -> (length l <= length (render l))%nat.
Proof.
  induction l as [|it l IH]; [done|]. cbn [forallb]. intros [Hit Hl]%andb_prop. specialize (IH Hl). change (render (it :: l)) with (render_item it ++ render l).
  rewrite length_app. cbn [length]. enough (1 <= length (render_item it))%nat by lia.
  destruct it as [[|c s]| | |]; [done | cbn; lia..].
Qed.

(** The parse of a page. *)
Lemma page_parsed document memory html a p body evs cs :
  doc_ok (page p body) = true -> mapM event_of body = Some evs -> events evs (page_open p []) = Some (page_open p cs) ->
  STATIC_END <= html -> bytes_at memory html (render (page p body)) -> STATIC_END <= a -> Z.of_nat (length (render (page p body))) < 2 ^ 63 ->
  exists builder,
    lxb_html_document_parse document memory true true (Some a) html (Z.of_nat (length (render (page p body)))) =
      Some (builder, LXB_STATUS_OK) /\
    t_complete builder = true /\ document_reads builder (page_tree (page_html p) (page_head p) (page_body p) cs).
Proof.
  intros Hdoc Hev He Hhtml Hb Ha Hlen. set (Q b := t_complete b = true /\ document_reads b (page_tree (page_html p) (page_head p) (page_body p) cs)).
  pose proof (doc_ok_items _ Hdoc) as Hok. pose proof (length_render _ Hok) as Hn. unfold page in Hn. rewrite !length_app in Hn. fold (page p body) in Hn.
  destruct (tokenize_pending (EX := tree_expects Q) (XL := tree_expects_laws Q) (prepared document memory) a (Some a) html (page p body) [])
    as (t & t' & Hc & Hend & (b & Hbuilder & Hq1 & Hq2)).
  - split; try done. by apply prepared_inv.
  - done.
  - eexists. split; [reflexivity|]. eapply reads_page; [exact Hev | exact Hok | exact He | lia | by split].
  - by apply bytes_at_static.
  - done.
  - reflexivity.
  - exists b. split; [|by split]. unfold lxb_html_document_parse, parse_chunk.
    change (lxb_html_tokenizer_begin _ _) with (prepared document memory, LXB_STATUS_OK). cbn beta iota. cbn [negb Z.eqb].
    change (negb (LXB_STATUS_OK =? LXB_STATUS_OK)) with false. cbn iota. rewrite Hc. cbn [mbind option_bind].
    change (negb (LXB_STATUS_OK =? LXB_STATUS_OK)) with false. cbn iota. rewrite Hend. cbn [mbind option_bind]. by rewrite Hbuilder.
Qed.
End Client.

(** *** The property *)

(** C1: parsing a document builds the tree that its text describes.  The text is
    any in which the items of [body] stand between the tags of a document: texts,
    comments and tags, with any attributes, that [events] accepts.  These are the
    tags of [TreeSpec] ([p], [block_tags], [other_tags], [void_tags]) properly nested:
    every end tag ends the innermost open element, nothing is left open but [body],
    and no [p] and no block starts while a [p] is open.  Then
    [lxb_html_document_parse] returns OK, the builder says that the document is
    complete, and the document node reads back as an [html] element with an empty
    [head] and with a [body] whose children are those of the items: an element with
    what stands between its tags, a text joined to the text before it, references in
    texts and in attribute values decoded, the names of attributes in lower case and
    of attributes with one name the first, a void element without children.  The text
    may lie anywhere in memory; its copy, the token, the nodes and the attributes are
    allocated. *)
Theorem document_parse_page `{TreePlenty} document memory html a p body evs cs :
  doc_ok (page p body) = true -> mapM event_of body = Some evs -> events evs (page_open p []) = Some (page_open p cs) ->
  STATIC_END <= html -> bytes_at memory html (render (page p body)) -> STATIC_END <= a -> Z.of_nat (length (render (page p body))) < 2 ^ 63 ->
  exists builder,
    lxb_html_document_parse document memory true true (Some a) html (Z.of_nat (length (render (page p body)))) =
      Some (builder, LXB_STATUS_OK) /\
    t_complete builder = true /\ document_reads builder (page_tree (page_html p) (page_head p) (page_body p) cs).
Proof. intros Hdoc Hev He Hhtml Hb Ha Hlen. by eapply page_parsed. Qed.

(** [<html lang="en">], [<body CLASS="x">], and in the body
    [hi &amp; <p id="a&lt;b" ID="c">a<br/>b<!--k--></p><DIV><span title="">c</span></div>] *)
Definition attrs_example : page_attrs :=
  mk_page_attrs [(bytes_of "lang"%string, bytes_of "en"%string)] [] [(bytes_of "CLASS"%string, bytes_of "x"%string)].
Definition page_example : list item :=
  [Text (bytes_of "hi &amp; "%string);
   StartTag (bytes_of "p"%string) [(bytes_of "id"%string, bytes_of "a&lt;b"%string); (bytes_of "ID"%string, bytes_of "c"%string)] false;
   Text (bytes_of "a"%string); StartTag (bytes_of "br"%string) [] true;
   Text (bytes_of "b"%string); Comment (bytes_of "k"%string); EndTag (bytes_of "p"%string); StartTag (bytes_of "DIV"%string) [] false;
   StartTag (bytes_of "span"%string) [(bytes_of "title"%string, [])] false; Text (bytes_of "c"%string); EndTag (bytes_of "span"%string); EndTag (bytes_of "div"%string)].
Definition children_example : list dom_item :=
  [Item (text_label (bytes_of "hi & "%string)) [];
   Item (element_label (LXB_TAG_P, [(bytes_of "id"%string, Some (bytes_of "a<b"%string))]))
     [Item (text_label (bytes_of "a"%string)) []; Item (element_label (LXB_TAG_BR, [])) []; Item (text_label (bytes_of "b"%string)) [];
      Item (comment_label (bytes_of "k"%string)) []];
   Item (element_label (LXB_TAG_DIV, []))
     [Item (element_label (LXB_TAG_SPAN, [(bytes_of "title"%string, Some [])])) [Item (text_label (bytes_of "c"%string)) []]]].

Lemma document_parse_page_witness : exists builder,
  @lxb_html_document_parse first_free 2 (place BUF (render (page attrs_example page_example)) (fun _ => 0)) true true (Some 200000) BUF
      (Z.of_nat (length (render (page attrs_example page_example)))) = Some (builder, LXB_STATUS_OK) /\
  t_complete builder = true /\
  document_reads builder
    (page_tree (LXB_TAG_HTML, [(bytes_of "lang"%string, Some (bytes_of "en"%string))]) (LXB_TAG_HEAD, [])
       (LXB_TAG_BODY, [(bytes_of "class"%string, Some (bytes_of "x"%string))]) children_example).
Proof.
  eapply (document_parse_page (H0 := first_free_plenty) _ _ _ _ attrs_example page_example);
    [vm_compute; reflexivity | vm_compute; reflexivity | vm_compute; reflexivity | discriminate | vm_compute; repeat split | discriminate | reflexivity].
Defined.
