(* ===== verification/TreeWrite.v ===== *)
(** * Writing a tree and parsing it

    A tree is written with its tags, attributes, comments and texts; in texts and in
    values, [&] and what would end them become references.  Parsing the page that was
    written gives the tree back. *)
From Stdlib Require Import String.
From S2P Require Import Prelude.
From S2P Require Import Str.
From S2P Require Import Tag.
From S2P Require Import TkzBase.
From S2P Require Import Sbst.
From S2P Require Import EntityRes.
From S2P Require Import ParserChar.
From S2P Require Import ParserCharSpec.
From S2P Require Import ParserCharName.
From S2P Require Import ParserCharProof.
From S2P Require Import TokenParse.
From S2P Require Import SerializeText.
From S2P Require Import TkzRun.
From S2P Require Import TkzInst.
From S2P Require Import TkzSpec.
From S2P Require Import DomNode.
From S2P Require Import DomTree.
From S2P Require Import DomLink.
From S2P Require Import DomAttr.
From S2P Require Import DomRead.
From S2P Require Import TreeAttr.
From S2P Require Import TagCat.
From S2P Require Import TagConst.
From S2P Require Import Array.
From S2P Require Import TreeStack.
From S2P Require Import TreeM.
From S2P Require Import TreeMode.
From S2P Require Import TreeInitial.
From S2P Require Import TreeInsert.
From S2P Require Import TreeBuild.
From S2P Require Import TreeSpec.
From S2P Require Import TreeRender.

(** ** Writing a tree *)

Definition tag_bytes (tag : Z) : list Z := match lxb_tag_res_data_default !! Z.to_nat tag with Some d => tag_name d | None => [] end.

(** The element of a label. *)
Definition kind_of (l : label) : kind :=
  (l_tag l, map (fun a => (default [] (al_name a), al_value a)) (default [] (l_attrs l))).

Definition write_attrs (l : list (list Z * option (list Z))) : list (list Z * list Z) :=
  map (fun x => (fst x, escape_value (default [] (snd x)))) l.
Definition write_tag (k : kind) : item := StartTag (tag_bytes (fst k)) (write_attrs (snd k)) false.

Fixpoint write (it : dom_item) : list item :=
  match it with
  | Item l ks =>
      if l_tag l =? LXB_TAG__TEXT then [Text (escape_text (l_data l))]
      else if l_tag l =? LXB_TAG__EM_COMMENT then [Comment (l_data l)]
      else if one_of (l_tag l) void_tags then [write_tag (kind_of l)]
      else write_tag (kind_of l) :: concat (map write ks) ++ [EndTag (tag_bytes (l_tag l))]
  end.

(** The trees that a parser can build: a [p] has no [p] and no block in it, no two
    texts are next to each other, an element without an end has no children; the tags
    are those of [TreeSpec], the names of attributes are in lower case and different,
    and newlines are normalised. *)
Definition is_text_item (it : dom_item) : bool := match it with Item l _ => l_tag l =? LXB_TAG__TEXT end.

Fixpoint separate (its : list dom_item) : bool :=
  match its with
  | it :: its' => negb (is_text_item it && match its' with it' :: _ => is_text_item it' | [] => false end) && separate its'
  | [] => true
  end.

#[local] Instance qualified_name_eq_dec : EqDecision qualified_name.
Proof. solve_decision. Defined.
#[local] Instance attr_label_eq_dec : EqDecision attr_label.
Proof. solve_decision. Defined.
#[local] Instance label_eq_dec : EqDecision label.
Proof. solve_decision. Defined.

Definition no_items (its : list dom_item) : bool := match its with [] => true | _ => false end.

Definition attr_tidy (x : list Z * option (list Z)) : bool :=
  match fst x with [] => false | _ => forallb attr_name_char (fst x) end && bool_decide (map lower (fst x) = fst x) &&
  match snd x with Some v => forallb text_byte v | None => false end.
Definition attrs_tidy (l : list (list Z * option (list Z))) : bool := forallb attr_tidy l && bool_decide (NoDup (map fst l)).

Fixpoint tidy (in_p : bool) (it : dom_item) : bool :=
  match it with
  | Item l ks =>
      if l_tag l =? LXB_TAG__TEXT then
        bool_decide (l = text_label (l_data l)) && no_items ks && negb (bool_decide (l_data l = [])) && forallb text_byte (l_data l)
      else if l_tag l =? LXB_TAG__EM_COMMENT then
        bool_decide (l = comment_label (l_data l)) && no_items ks && forallb text_byte (l_data l) && item_ok (Comment (l_data l))
      else
        bool_decide (l = element_label (kind_of l)) && attrs_tidy (snd (kind_of l)) &&
        (if one_of (l_tag l) void_tags then no_items ks
         else (one_of (l_tag l) (LXB_TAG_P :: block_tags) && negb in_p || one_of (l_tag l) other_tags) &&
              forallb (tidy (in_p || (l_tag l =? LXB_TAG_P))) ks && separate ks)
  end.

Lemma dom_item_induction (P : dom_item -> Prop) : (forall l ks, Forall P ks -> P (Item l ks)) -> forall it, P it.
Proof.
  intros H. fix go 1. intros [l ks]. apply H. induction ks as [|k ks IH]; constructor; [apply go | exact IH].
Qed.

(** *** The events of what is written *)

(** The kinds of tidy items. *)
Inductive tidy_item (p : bool) : dom_item -> Prop :=
  | ti_text s : s <> [] -> forallb text_byte s = true -> tidy_item p (Item (text_label s) [])
  | ti_comment s : forallb text_byte s = true -> item_ok (Comment s) = true -> tidy_item p (Item (comment_label s) [])
  | ti_void k : one_of (fst k) void_tags = true -> attrs_tidy (snd k) = true -> tidy_item p (Item (element_label k) [])
  | ti_element k ks : one_of (fst k) (LXB_TAG_P :: block_tags) && negb p || one_of (fst k) other_tags = true -> attrs_tidy (snd k) = true ->
      forallb (tidy (p || (fst k =? LXB_TAG_P))) ks = true -> separate ks = true -> tidy_item p (Item (element_label k) ks).

Lemma tidy_cases p it : tidy p it = true -> tidy_item p it.
Proof.
  destruct it as [l ks]. cbn [tidy]. destruct (Z.eqb_spec (l_tag l) LXB_TAG__TEXT) as [_|Ht].
  - intros [[[Hl Hks]%andb_prop Hne]%andb_prop Hs]%andb_prop. apply bool_decide_eq_true in Hl. apply negb_true_iff, bool_decide_eq_false in Hne.
    destruct ks; [|done]. rewrite Hl. by constructor.
  - destruct (Z.eqb_spec (l_tag l) LXB_TAG__EM_COMMENT) as [_|Hc].
    + intros [[[Hl Hks]%andb_prop Hs]%andb_prop Hok]%andb_prop. apply bool_decide_eq_true in Hl. destruct ks; [|done]. rewrite Hl. by constructor.
    + intros [[Hl Ha]%andb_prop H]%andb_prop. apply bool_decide_eq_true in Hl. rewrite Hl. destruct (one_of (l_tag l) void_tags) eqn:Hv.
      * destruct ks; [|done]. by constructor.
      * apply andb_prop in H as [[Htag Hks]%andb_prop Hsep]. by constructor.
Qed.

Lemma tidy_kinds p l ks : tidy p (Item l ks) = true ->
  (exists s, l = text_label s /\ ks = [] /\ s <> [] /\ forallb text_byte s = true) \/
  (exists s, l = comment_label s /\ ks = [] /\ forallb text_byte s = true /\ item_ok (Comment s) = true) \/
  (exists k, l = element_label k /\ ks = [] /\ one_of (fst k) void_tags = true /\ attrs_tidy (snd k) = true) \/
  (exists k, l = element_label k /\ (one_of (fst k) (LXB_TAG_P :: block_tags) && negb p || one_of (fst k) other_tags = true) /\
     attrs_tidy (snd k) = true /\ forallb (tidy (p || (fst k =? LXB_TAG_P))) ks = true /\ separate ks = true).
Proof. intros Ht%tidy_cases. inversion Ht; subst; [left | right; left | do 2 right; left | do 3 right]; by eexists. Qed.

Lemma kind_label k : kind_of (element_label k) = k.
Proof.
  destruct k as [tag l]. unfold kind_of. cbn. f_equal. rewrite map_map. cbn. rewrite <- (map_id l) at 2. apply map_ext. by intros [? ?].
Qed.

(** *** Attributes *)

(** Attributes whose names are different are all kept. *)
Lemma pairs_kept l : forall acc, Forall (fun x => map lower (fst x) = fst x) (acc ++ l) -> NoDup (map fst (acc ++ l)) ->
  fold_left add_pair l acc = acc ++ l.
Proof.
  induction l as [|x l IH]; intros acc Hl Hnd; [by rewrite app_nil_r|]. cbn [fold_left]. unfold add_pair at 2.
  destruct (existsb _ acc) eqn:E.
  - apply existsb_exists in E as (y & Hy & E). apply bool_decide_eq_true in E. apply list_elem_of_In in Hy. rewrite Forall_forall in Hl.
    rewrite !Hl in E by set_solver. rewrite map_app in Hnd. apply NoDup_app in Hnd as (_ & Hnd & _). destruct (Hnd (fst y)); [by apply list_elem_of_fmap_2|].
    rewrite E. left.
  - rewrite (cons_middle x acc l), app_assoc in Hl, Hnd |- *. by apply IH.
Qed.

(** A name in lower case, a value that was escaped: decoded they are as before. *)
Lemma attr_tidy_decoded x : attr_tidy x = true -> decoded_pair (fst x, Some (escape_value (default [] (snd x)))) = x.
Proof.
  destruct x as [n [v|]]; unfold attr_tidy; cbn [fst snd default]; [|by rewrite andb_false_r].
  intros [[Hn Hl]%andb_prop Hv]%andb_prop. apply bool_decide_eq_true in Hl. unfold decoded_pair. cbn [fst snd]. f_equal.
  - rewrite decode_lower; [done | done|]. assert (forallb attr_name_char n = true) as Hall by (by destruct n).
    rewrite forallb_forall in Hall |- *. intros c Hc. specialize (Hall c Hc). unfold attr_name_char, name_char in Hall.
    apply andb_prop in Hall as [Hc0%negb_true_iff _]. unfold text_byte. cbn [one_of existsb]. by rewrite !(not_one_of _ _ _ Hc0).
  - unfold escape_value. cbn [fmap option_fmap option_map]. f_equal. apply decode_escape; [done | by apply value_more_ok | done].
Qed.

Lemma attrs_decoded l : attrs_tidy l = true -> decoded_attrs (write_attrs l) = l.
Proof.
  intros [Hl Hnd]%andb_prop. apply bool_decide_eq_true in Hnd. unfold decoded_attrs, write_attrs. rewrite map_map. cbn [fst snd].
  rewrite forallb_forall in Hl. rewrite (map_ext_in _ (fun x => x)) by (intros x Hx; by apply attr_tidy_decoded, Hl). rewrite map_id.
  apply (pairs_kept l []); [|done]. apply Forall_forall. intros x Hx. apply list_elem_of_In, Hl in Hx. unfold attr_tidy in Hx.
  apply andb_prop in Hx as [[_ Hx]%andb_prop _]. by apply bool_decide_eq_true in Hx.
Qed.

(** Attributes that are written can be tokenized. *)
Lemma attrs_written l : attrs_tidy l = true -> forallb attr_ok (write_attrs l) = true.
Proof.
  intros [Hl _]%andb_prop. unfold write_attrs. rewrite forallb_forall in Hl |- *. intros y Hy. apply in_map_iff in Hy as (x & <- & Hx).
  specialize (Hl x Hx). destruct x as [n [v|]]; unfold attr_tidy in Hl; cbn [fst snd] in Hl; [|by rewrite andb_false_r in Hl].
  apply andb_prop in Hl as [[Hn _]%andb_prop Hv]. unfold attr_ok. cbn [fst snd default]. rewrite Hn. cbn [andb].
  apply (escape_forall value_more value_char text_byte); [|done]. intros c data Hc _. apply text_byte_facts in Hc as [H0 _]. apply Z.eqb_neq in H0.
  assert (forall d, c <> 0x22 -> forallb value_char (fst ([c], d : list Z)) = true) as Hplain.
  { intros d Hlt. apply Z.eqb_neq in Hlt. cbn [fst forallb]. unfold value_char. cbn [one_of existsb]. by rewrite H0, Hlt. }
  unfold escape_step, value_more. destruct (Z.eqb_spec c 0x26) as [->|_]; [done|].
  destruct (Z.eqb_spec c 0xC2) as [->|_]; [destruct data as [|d data]; [done|]; by destruct (d =? 0xA0)|].
  destruct (Z.eqb_spec c 0x22) as [->|Hlt]; [done | by apply Hplain].
Qed.

(** The tags in question have names, and are the tags of their names. *)
Definition named (tag : Z) : bool :=
  bool_decide (tag_of (tag_bytes tag) = Some tag) && tag_name_ok (tag_bytes tag) && negb (one_of tag [LXB_TAG__TEXT; LXB_TAG__EM_COMMENT]).

Lemma tags_named tag : one_of tag ((LXB_TAG_P :: block_tags) ++ other_tags ++ void_tags) = true -> named tag = true.
Proof.
  intros Ht. unfold one_of in Ht. apply existsb_exists in Ht as (x & Hx & E). apply Z.eqb_eq in E as <-. revert tag Hx.
  apply forallb_forall. vm_compute. reflexivity.
Qed.

(** The elements with an end are not those without. *)
Lemma not_void tag : one_of tag ((LXB_TAG_P :: block_tags) ++ other_tags) = true -> one_of tag void_tags = false.
Proof.
  intros Ht. unfold one_of in Ht. apply existsb_exists in Ht as (x & Hx & E). apply Z.eqb_eq in E as <-. apply negb_true_iff. revert tag Hx.
  apply forallb_forall. vm_compute. reflexivity.
Qed.

Lemma open_tags p tag : one_of tag (LXB_TAG_P :: block_tags) && p || one_of tag other_tags = true ->
  one_of tag ((LXB_TAG_P :: block_tags) ++ other_tags) = true.
Proof. rewrite one_of_app. destruct (one_of tag (LXB_TAG_P :: block_tags)); [done|]. cbn [andb orb]. by intros ->. Qed.

(** How each kind is written. *)
Lemma write_element k ks : named (fst k) = true -> one_of (fst k) void_tags = false ->
  write (Item (element_label k) ks) = write_tag k :: concat (map write ks) ++ [EndTag (tag_bytes (fst k))].
Proof.
  intros [_ H]%andb_prop Hv. apply negb_true_iff in H. pose proof (not_one_of _ _ LXB_TAG__TEXT H eq_refl) as H1.
  pose proof (not_one_of _ _ LXB_TAG__EM_COMMENT H eq_refl) as H2. cbn [write]. rewrite kind_label. cbn [element_label l_tag]. by rewrite H1, H2, Hv.
Qed.
Lemma write_void k : named (fst k) = true -> one_of (fst k) void_tags = true -> write (Item (element_label k) []) = [write_tag k].
Proof.
  intros [_ H]%andb_prop Hv. apply negb_true_iff in H. pose proof (not_one_of _ _ LXB_TAG__TEXT H eq_refl) as H1.
  pose proof (not_one_of _ _ LXB_TAG__EM_COMMENT H eq_refl) as H2. cbn [write]. rewrite kind_label. cbn [element_label l_tag]. by rewrite H1, H2, Hv.
Qed.

Lemma event_tag k : named (fst k) = true -> attrs_tidy (snd k) = true ->
  event_of (write_tag k) = Some (if one_of (fst k) void_tags then Void k else Open k).
Proof.
  destruct k as [tag l]. cbn [fst snd]. intros [[Hof%bool_decide_eq_true _]%andb_prop _]%andb_prop Ha. unfold write_tag. cbn [event_of fst snd].
  rewrite Hof. cbn [mbind option_bind]. by rewrite attrs_decoded.
Qed.

Definition event_list (l : list item) (evs : list event) : Prop := Forall2 (fun it e => event_of it = Some e) l evs.

(** The last child is not a text. *)
Definition ends_with_text (cs : list dom_item) : bool := match last cs with Some it => is_text_item it | None => false end.

Definition writes (it : dom_item) : Prop := forall k cs es, tidy (p_open ((k, cs) :: es)) it = true -> is_text_item it && ends_with_text cs = false ->
  exists evs, event_list (write it) evs /\ forall l, events (evs ++ l) ((k, cs) :: es) = events l ((k, cs ++ [it]) :: es).

Lemma writes_all its : Forall writes its -> forall k cs es, forallb (tidy (p_open ((k, cs) :: es))) its = true -> separate its = true ->
  match its with it :: _ => is_text_item it | [] => false end && ends_with_text cs = false ->
  exists evs, event_list (concat (map write its)) evs /\ forall l, events (evs ++ l) ((k, cs) :: es) = events l ((k, cs ++ its) :: es).
Proof.
  induction 1 as [|it its Hit _ IH]; intros k cs es Ht Hs Hc.
  - exists []. split; [constructor|]. intros l. by rewrite app_nil_r.
  - cbn [forallb] in Ht. apply andb_prop in Ht as [Ht1 Ht2]. cbn [separate] in Hs. apply andb_prop in Hs as [Hs1 Hs2].
    destruct (Hit k cs es Ht1 Hc) as (evs1 & F1 & E1). destruct (IH k (cs ++ [it]) es Ht2 Hs2) as (evs2 & F2 & E2).
    { unfold ends_with_text. rewrite last_snoc, andb_comm. by apply negb_true_iff. }
    exists (evs1 ++ evs2). split; [by apply Forall2_app|]. intros l. by rewrite <- app_assoc, E1, E2, <- app_assoc.
Qed.

Lemma writes_item it : writes it.
Proof.
  induction it as [l ks IH] using dom_item_induction. intros k cs es Ht Hc. apply tidy_cases in Ht.
  inversion Ht as [s Hne Hs|s Hs Hok|k' Hv Ha|k' ks' Htag Ha Hks Hsep]; subst.
  - exists [Chars s]. split; [|].
    + constructor; [|constructor]. cbn [event_of text_label l_data]. unfold escape_text. rewrite (decode_escape text_options) by (done || by apply text_more_ok). by destruct s.
    + intros l. cbn [app events event_step mbind option_bind]. do 3 f_equal. unfold ends_with_text in Hc. unfold add_text.
      destruct (last cs) as [[lc kc]|]; [|done]. cbn in Hc. by rewrite Hc.
  - exists [Remark s]. split; [|done]. apply Forall2_cons. split; [|constructor]. cbn [event_of comment_label l_data]. by rewrite (decode_plain comment_options).
  - assert (named (fst k') = true) as Hn by (apply tags_named; rewrite !one_of_app, Hv; by rewrite !orb_true_r).
    rewrite write_void by done. exists [Void k']. split; [|intros l; cbn [app events event_step]; by rewrite Hv].
    constructor; [|constructor]. by rewrite event_tag, Hv.
  - pose proof (open_tags _ _ Htag) as Hin. pose proof (not_void _ Hin) as Hv.
    assert (named (fst k') = true) as Hn by (apply tags_named; rewrite app_assoc, one_of_app, Hin; done).
    rewrite write_element by done. pose proof (event_tag k' Hn Ha) as Htg. rewrite Hv in Htg. apply andb_prop in Hn as [[Hof%bool_decide_eq_true _]%andb_prop _].
    destruct (writes_all _ IH k' [] ((k, cs) :: es)) as (evs & F & Hev); [|exact Hsep | by destruct ks; rewrite andb_comm |].
    { cbn [p_open existsb fst] in Hks |- *. by rewrite orb_comm. }
    exists (Open k' :: evs ++ [Close (fst k')]). split.
    + constructor; [exact Htg|]. apply Forall2_app; [exact F|].
      constructor; [|constructor]. cbn [event_of]. by rewrite Hof.
    + intros l. cbn [app events event_step]. rewrite Htag. cbn [mbind option_bind]. rewrite <- app_assoc, Hev. cbn [app events event_step].
      rewrite Z.eqb_refl. change (LXB_TAG_P :: block_tags ++ other_tags) with ((LXB_TAG_P :: block_tags) ++ other_tags). by rewrite Hin.
Qed.

(** *** What is written can be tokenized *)

Definition starts_with_text (l : list item) : bool := match l with it :: _ => is_text it | [] => false end.
Definition stops_with_text (l : list item) : bool := match last l with Some it => is_text it | None => false end.

Lemma doc_ok_app l1 l2 : doc_ok l1 = true -> doc_ok l2 = true -> stops_with_text l1 && starts_with_text l2 = false -> doc_ok (l1 ++ l2) = true.
Proof.
  induction l1 as [|it l1 IH]; [done|]. cbn [doc_ok app]. intros [[-> H1]%andb_prop Hn]%andb_prop H2 Hs. destruct l1 as [|it1 l1].
  - cbn [app andb]. rewrite H2. unfold stops_with_text in Hs. cbn [last] in Hs. cbn [andb]. fold (starts_with_text l2). by rewrite Hs.
  - rewrite IH by done. cbn [app andb]. exact Hn.
Qed.

Definition written_ok (it : dom_item) : Prop := forall p, tidy p it = true ->
  doc_ok (write it) = true /\ starts_with_text (write it) = is_text_item it /\ stops_with_text (write it) = is_text_item it /\ write it <> [].

Lemma written_all its p : Forall written_ok its -> forallb (tidy p) its = true -> separate its = true ->
  doc_ok (concat (map write its)) = true /\ starts_with_text (concat (map write its)) = match its with it :: _ => is_text_item it | [] => false end.
Proof.
  induction 1 as [|it its Hit _ IH]; [done|]. cbn [forallb separate]. intros [Ht1 Ht2]%andb_prop [Hs1 Hs2]%andb_prop.
  destruct (Hit p Ht1) as (Hd & Hstart & Hstop & Hne). destruct (IH Ht2 Hs2) as [Hd' Hstart']. cbn [map concat]. split.
  - apply doc_ok_app; [done..|]. rewrite Hstop, Hstart'. by apply negb_true_iff.
  - rewrite <- Hstart. by destruct (write it).
Qed.

Lemma text_escaped_ok s : s <> [] -> forallb text_byte s = true -> item_ok (Text (escape_text s)) = true.
Proof.
  intros Hne Hs. cbn [item_ok]. assert (forallb text_char (escape_text s) = true) as Hall.
  { apply (escape_forall text_more text_char text_byte); [|done]. intros c data Hc _. apply text_byte_facts in Hc as [H0 _]. apply Z.eqb_neq in H0.
    assert (forall d, c <> 0x3C -> forallb text_char (fst ([c], d : list Z)) = true) as Hplain.
    { intros d Hlt. apply Z.eqb_neq in Hlt. cbn [fst forallb]. unfold text_char. cbn [one_of existsb]. by rewrite H0, Hlt. }
    unfold escape_step, text_more. destruct (Z.eqb_spec c 0x26) as [->|_]; [done|].
    destruct (Z.eqb_spec c 0xC2) as [->|_]; [destruct data as [|d data]; [done|]; by destruct (d =? 0xA0)|].
    destruct (Z.eqb_spec c 0x3C) as [->|Hlt]; [done|]. destruct (c =? 0x3E); [done | by apply Hplain]. }
  destruct (escape_text s) eqn:E; [|exact Hall]. exfalso. apply Hne.
  rewrite <- (decode_escape text_options text_more eq_refl (text_more_ok text_options eq_refl) s Hs). unfold escape_text in E. by rewrite E.
Qed.

Lemma written_item it : written_ok it.
Proof.
  induction it as [l ks IH] using dom_item_induction. intros p Ht. apply tidy_cases in Ht.
  inversion Ht as [s Hne Hs|s Hs Hok|k Hv Ha|k ks' Htag Ha Hks Hsep]; subst.
  - split; [|done]. cbn [write text_label l_tag l_data]. change (doc_ok [Text (escape_text s)] = true). cbn [doc_ok]. by rewrite text_escaped_ok.
  - split; [|done]. change (doc_ok [Comment s] = true). cbn [doc_ok]. by rewrite Hok.
  - assert (named (fst k) = true) as Hn by (apply tags_named; rewrite !one_of_app, Hv; by rewrite !orb_true_r).
    rewrite write_void by done. apply andb_prop in Hn as [[_ Hok]%andb_prop Htext]. apply negb_true_iff in Htext.
    pose proof (not_one_of _ _ LXB_TAG__TEXT Htext eq_refl) as H1. cbn [is_text_item element_label l_tag]. rewrite H1.
    split; [|done]. cbn [doc_ok item_ok write_tag]. by rewrite Hok, attrs_written.
  - pose proof (open_tags _ _ Htag) as Hin. pose proof (not_void _ Hin) as Hv.
    assert (named (fst k) = true) as Hn by (apply tags_named; rewrite app_assoc, one_of_app, Hin; done).
    rewrite write_element by done. apply andb_prop in Hn as [[_ Hok]%andb_prop Htext]. apply negb_true_iff in Htext.
    pose proof (not_one_of _ _ LXB_TAG__TEXT Htext eq_refl) as H1. cbn [is_text_item element_label l_tag]. rewrite H1.
    destruct (written_all _ _ IH Hks Hsep) as [Hd _].
    split; [|split; [done|]; split; [|done]].
    + change (doc_ok ([write_tag k] ++ (concat (map write ks) ++ [EndTag (tag_bytes (fst k))])) = true).
      apply doc_ok_app; [cbn [doc_ok item_ok write_tag]; by rewrite Hok, attrs_written | | done].
      apply doc_ok_app; [done | cbn [doc_ok item_ok]; by rewrite Hok | by rewrite andb_comm].
    + unfold stops_with_text. rewrite app_comm_cons, last_snoc. done.
Qed.

(** *** The round trip *)

Section Page.
Context (ah ad ab : list (list Z * option (list Z))) (Hattrs : forallb attrs_tidy [ah; ad; ab] = true).

Definition written_attrs : page_attrs := mk_page_attrs (write_attrs ah) (write_attrs ad) (write_attrs ab).

(** A page whose elements have these attributes. *)
Definition page_of (cs : list dom_item) : dom_item := page_tree (LXB_TAG_HTML, ah) (LXB_TAG_HEAD, ad) (LXB_TAG_BODY, ab) cs.

Lemma attrs_each : attrs_tidy ah = true /\ attrs_tidy ad = true /\ attrs_tidy ab = true.
Proof. cbn [forallb] in Hattrs. apply andb_prop in Hattrs as [H1 [H2 [H3 _]%andb_prop]%andb_prop]. done. Qed.

Lemma page_written cs : page_tree (page_html written_attrs) (page_head written_attrs) (page_body written_attrs) cs = page_of cs.
Proof. destruct attrs_each as (H1 & H2 & H3). unfold page_html, page_head, page_body, written_attrs, page_of. cbn [pa_html pa_head pa_body]. by rewrite !attrs_decoded. Qed.

Lemma written_page cs : forallb (tidy false) cs = true -> separate cs = true -> doc_ok (page written_attrs (concat (map write cs))) = true.
Proof.
  intros Ht Hs. destruct (written_all cs false) as [Hd _]; [apply Forall_true; apply written_item | done | done |].
  destruct attrs_each as (H1 & H2 & H3). unfold page. apply doc_ok_app; [|apply doc_ok_app; [exact Hd | done | by rewrite andb_comm] | done].
  cbn [doc_ok written_attrs pa_html pa_head pa_body item_ok]. by rewrite !attrs_written.
Qed.

(** Writing a tree and parsing it gives the tree back. *)
Lemma written_parsed `{TreePlenty} document memory html a cs :
  forallb (tidy false) cs = true -> separate cs = true ->
  let text := render (page written_attrs (concat (map write cs))) in
  STATIC_END <= html -> bytes_at memory html text -> STATIC_END <= a -> Z.of_nat (length text) < 2 ^ 63 ->
  exists builder,
    lxb_html_document_parse document memory true true (Some a) html (Z.of_nat (length text)) = Some (builder, LXB_STATUS_OK) /\
    t_complete builder = true /\ document_reads builder (page_of cs).
Proof.
  intros Ht Hs text Hhtml Hb Ha Hlen. rewrite <- page_written. pose proof (Forall_true writes cs writes_item) as Hw.
  destruct (writes_all cs Hw (page_body written_attrs) [] [(page_html written_attrs, [Item (element_label (page_head written_attrs)) []])]) as (evs & F & E);
    [exact Ht | exact Hs | by rewrite andb_comm |].
  apply (page_parsed document memory html a written_attrs _ evs cs); try done; [by apply written_page | by apply mapM_Some | ].
  specialize (E []). by rewrite app_nil_r in E.
Qed.
End Page.
