(* ===== verification/TreeRound.v ===== *)
(** * Serialising a document and parsing it again

    [lxb_html_serialize_tree_str] writes for a document the page of [TreeWrite]; so
    parsing what was serialised gives the tree that was
    serialised. *)
From Stdlib Require Import String.
From S2P Require Import Prelude.
From S2P Require Import Str.
From S2P Require Import Tag.
From S2P Require Import TagHeap.
From S2P Require Import TkzBase.
From S2P Require Import Sbst.
From S2P Require Import EntityRes.
From S2P Require Import ParserChar.
From S2P Require Import ParserCharSpec.
From S2P Require Import ParserCharName.
From S2P Require Import ParserCharProof.
From S2P Require Import TokenParse.
From S2P Require Import SerializeText.
From S2P Require Import TkzRun.
From S2P Require Import TkzInst.
From S2P Require Import TkzSpec.
From S2P Require Import DomNode.
From S2P Require Import DomTree.
From S2P Require Import DomLink.
From S2P Require Import DomAttr.
From S2P Require Import DomRead.
From S2P Require Import TagCat.
From S2P Require Import TagConst.
From S2P Require Import Array.
From S2P Require Import TreeStack.
From S2P Require Import TreeM.
From S2P Require Import TreeMode.
From S2P Require Import TreeInitial.
From S2P Require Import TreeInsert.
From S2P Require Import TreeBuild.
From S2P Require Import TreeSpec.
From S2P Require Import TreeRender.
From S2P Require Import Serialize.
From S2P Require Import SerializeSpec.
From S2P Require Import TreeWrite.

(** ** What is sent for a tidy tree *)

Lemma render_app l1 l2 : render (l1 ++ l2) = render l1 ++ render l2.
Proof. unfold render. by rewrite map_app, concat_app. Qed.

(** The name of the tag is in the static table, and the serializer treats it like
    [write]. *)
Definition static_tag (tag : Z) : bool :=
  (tag <? LXB_TAG__LAST_ENTRY) && bool_decide (is_Some (lxb_tag_res_data_default !! Z.to_nat tag)) && negb (tag =? LXB_TAG_TEMPLATE).

Lemma tags_static tag : one_of tag ([LXB_TAG_HTML; LXB_TAG_HEAD; LXB_TAG_BODY] ++ (LXB_TAG_P :: block_tags) ++ other_tags ++ void_tags) = true ->
  static_tag tag = true /\ raw_parent tag || (tag =? LXB_TAG_NOSCRIPT) = false /\
  (forall n, nd_tag n = tag -> nd_ns n = LXB_NS_HTML -> lxb_html_serialize_node_is_void n = one_of tag void_tags).
Proof.
  intros Ht. unfold one_of in Ht. apply existsb_exists in Ht as (x & Hx & E). apply Z.eqb_eq in E as <-.
  enough (static_tag tag && negb (raw_parent tag || (tag =? LXB_TAG_NOSCRIPT)) &&
    eqb (lxb_html_serialize_node_is_void (set_nd_kind LXB_NS_HTML tag 0 node_zero)) (one_of tag void_tags) = true) as H.
  { apply andb_prop in H as [[H1 H2]%andb_prop H3]. apply negb_true_iff in H2. apply eqb_prop in H3. split; [done|]. split; [done|].
    intros n Hn Hns. rewrite <- H3. unfold lxb_html_serialize_node_is_void. by rewrite Hn, Hns. }
  revert tag Hx. apply forallb_forall. vm_compute. reflexivity.
Qed.

Section Emit.
Context (t : html_tree) (target : positive -> list Z).
#[local] Abbreviation h := (d_nodes (t_dom t)).
#[local] Abbreviation m := (d_attrs (t_dom t)).
#[local] Abbreviation none := (fun _ : positive => @None (list Z)).
#[local] Abbreviation send_forest := (send_forest str_cb t none target).
#[local] Abbreviation send_tree := (send_tree str_cb t none target).
#[local] Abbreviation close := (close_element str_cb t).

Lemma emits_read {A} (o : option A) a f l : o = Some a -> emits (f a) l -> emits (x ← wread o; f x) l.
Proof. intros -> Hf s. apply Hf. Qed.

(** The name of an element. *)
Lemma emits_name n k f l : label_of m n = element_label k -> static_tag (fst k) = true ->
  emits (f (tag_bytes (fst k))) l -> emits (name ← element_name t n; f name) l.
Proof.
  intros Hn [[Hlast Hsome]%andb_prop _]%andb_prop Hf s. injection Hn as _ Ht Hns _ Hq _. unfold element_name. rewrite Hns. cbn [one_of existsb orb].
  change (LXB_NS_HTML =? LXB_NS_HTML) with true. cbn iota. unfold lxb_dom_element_local_name. rewrite Hq, Ht. unfold lxb_tag_name_by_id, lxb_tag_data_by_id_default_cb.
  rewrite Z.geb_leb, (proj2 (Z.leb_gt _ _)) by (by apply Z.ltb_lt). apply bool_decide_eq_true in Hsome as [d Hd]. unfold tag_bytes in Hf. rewrite Hd in Hf |- *. apply Hf.
Qed.

(** Its attributes. *)
Lemma emits_attribute a x : attr_tidy x = true -> attr_label_of a = html_attr x ->
  emits (lxb_html_serialize_attribute_cb str_cb a false) (fst x ++ [0x3D; 0x22] ++ escape_value (default [] (snd x)) ++ [0x22]).
Proof.
  destruct x as [n [v|]]; unfold attr_tidy; cbn [fst snd default]; [|by rewrite andb_false_r]. intros _ [= Hns Hname _ Hvalue].
  unfold lxb_html_serialize_attribute_cb. rewrite Hns, Hvalue. change (LXB_NS_HTML =? LXB_NS__UNDEF) with false.
  change (LXB_NS_HTML =? LXB_NS_XML) with false. change (LXB_NS_HTML =? LXB_NS_XMLNS) with false. change (LXB_NS_HTML =? LXB_NS_XLINK) with false. cbn iota.
  unfold name_of. rewrite Hname. cbn [default].
  apply emits_seq; [apply emits_send|]. apply emits_seq; [apply emits_send|]. apply emits_seq; [apply escaping_attribute_emits | apply emits_send].
Qed.

Lemma emits_attributes l : forallb attr_tidy l = true -> forall fuel i, read_attrs m fuel i = Some (map html_attr l) ->
  emits (attributes_loop str_cb t fuel false i) (concat (map render_attr (write_attrs l))).
Proof.
  induction l as [|x l IH]; intros Hl fuel i Hr.
  - destruct i as [i|]; [|destruct fuel; apply emits_done]. destruct fuel as [|fuel]; [done|]. cbn [read_attrs] in Hr.
    destruct (m !! i) as [a|]; [|done]. cbn [mbind option_bind] in Hr. by destruct (read_attrs m fuel (at_next a)).
  - cbn [forallb] in Hl. apply andb_prop in Hl as [Hx Hl]. destruct i as [i|]; [|by destruct fuel]. destruct fuel as [|fuel]; [done|].
    cbn [read_attrs attributes_loop] in *. destruct (m !! i) as [a|] eqn:Ha; [|done]. cbn [mbind option_bind] in Hr.
    destruct (read_attrs m fuel (at_next a)) as [l'|] eqn:El; [|done]. cbn [mbind option_bind map] in Hr.
    assert (attr_label_of a = html_attr x /\ l' = map html_attr l) as [Hal ->] by (split; congruence).
    eapply emits_read; [reflexivity|].
    eapply emits_eq; [exact (emits_seq _ _ _ _ (emits_str _) (emits_seq _ _ _ _ (emits_attribute a x Hx Hal) (IH Hl fuel _ El)))|].
    unfold write_attrs. cbn [map concat]. unfold render_attr at 2. cbn [fst snd]. change (bytes_of " "%string) with [0x20]. by rewrite <- !app_assoc.
Qed.

Lemma render_tag k : render [write_tag k] = [0x3C] ++ tag_bytes (fst k) ++ concat (map render_attr (write_attrs (snd k))) ++ [0x3E].
Proof. unfold render, write_tag. cbn [map concat render_item app]. by rewrite app_nil_r. Qed.

Lemma emits_open i n k : h !! i = Some n -> label_of m n = element_label k -> static_tag (fst k) = true -> attrs_tidy (snd k) = true ->
  emits (lxb_html_serialize_cb str_cb t none target i) (render [write_tag k]).
Proof.
  intros Hi Hn Hs [Ha _]%andb_prop. pose proof (f_equal l_type Hn) as Hty. pose proof (f_equal l_attrs Hn) as Hat. cbn [l_type l_attrs label_of element_label] in Hty, Hat.
  unfold lxb_html_serialize_cb, lxb_html_serialize_element_cb, read_node. eapply emits_read; [exact Hi|]. rewrite Hty.
  change (LXB_DOM_NODE_TYPE_ELEMENT =? LXB_DOM_NODE_TYPE_ELEMENT) with true. cbn iota. eapply emits_read; [exact Hi|].
  eapply emits_name; [exact Hn | exact Hs|]. unfold send_is_value, send_attributes.
  pose proof (emits_attributes (snd k) Ha _ _ Hat) as Hattrs.
  eapply emits_eq; [exact (emits_seq _ _ _ _ (emits_str _) (emits_seq _ _ _ _ (emits_send _) (emits_seq _ _ _ _ emits_done (emits_seq _ _ _ _ Hattrs (emits_str _)))))|].
  by rewrite render_tag.
Qed.

Lemma emits_close i n k : h !! i = Some n -> label_of m n = element_label k -> static_tag (fst k) = true ->
  lxb_html_serialize_node_is_void n = false -> emits (close i) (render [EndTag (tag_bytes (fst k))]).
Proof.
  intros Hi Hn Hs Hv. pose proof (f_equal l_type Hn) as Hty. cbn in Hty. unfold close_element, read_node. eapply emits_read; [exact Hi|]. rewrite Hty, Hv.
  change (LXB_DOM_NODE_TYPE_ELEMENT =? LXB_DOM_NODE_TYPE_ELEMENT) with true. cbn [andb negb wwhen]. unfold lxb_html_serialize_element_closed_cb, read_node.
  eapply emits_read; [exact Hi|]. eapply emits_name; [exact Hn | exact Hs|].
  eapply emits_eq; [apply emits_seq; [apply emits_str | apply emits_seq; [apply emits_send | apply emits_str]]|].
  cbn [render map concat render_item app]. by rewrite !app_nil_r.
Qed.

(** An element with an end tag. *)
Lemma emits_element i n cs k l : h !! i = Some n -> label_of m n = element_label k -> static_tag (fst k) = true -> attrs_tidy (snd k) = true ->
  lxb_html_serialize_node_is_void n = false -> emits (send_forest cs) l ->
  emits (send_tree (Node i cs)) (render [write_tag k] ++ l ++ render [EndTag (tag_bytes (fst k))]).
Proof.
  intros Hi Hn Hs Ha Hv Hl. cbn [SerializeSpec.send_tree]. unfold read_node. eapply emits_read; [exact Hi|]. rewrite Hv. cbn [negb wwhen].
  apply emits_seq; [by eapply emits_open|]. apply emits_seq; [exact Hl | by eapply emits_close].
Qed.

(** A text below an element whose text is not sent as it is. *)
Lemma emits_text i n p pn s : h !! i = Some n -> label_of m n = text_label s -> nd_parent n = Some p -> h !! p = Some pn ->
  raw_parent (nd_tag pn) || (nd_tag pn =? LXB_TAG_NOSCRIPT) = false ->
  emits (send_tree (Node i [])) (escape_text s).
Proof.
  intros Hi Hn Hp Hpn Hraw. injection Hn as Hty Htag Hns Hd _ _. apply orb_false_iff in Hraw as [Hr1 Hr2].
  cbn [SerializeSpec.send_tree]. unfold read_node. eapply emits_read; [exact Hi|].
  assert (emits (close i) []) as Hc.
  { unfold close_element, read_node. eapply emits_read; [exact Hi|]. rewrite Hty. apply emits_done. }
  assert (emits (lxb_html_serialize_cb str_cb t none target i) (escape_text s)) as Hs.
  { unfold lxb_html_serialize_cb, read_node. eapply emits_read; [exact Hi|]. rewrite Hty. unfold lxb_html_serialize_text_cb, read_node.
    change (LXB_DOM_NODE_TYPE_TEXT =? LXB_DOM_NODE_TYPE_ELEMENT) with false. change (LXB_DOM_NODE_TYPE_TEXT =? LXB_DOM_NODE_TYPE_TEXT) with true. cbn iota.
    eapply emits_read; [exact Hi|]. intros s0. assert (is_raw_text t n s0 = Some (s0, inr false)) as Hraw.
    { unfold is_raw_text, read_node, wread. rewrite Hp. unfold mbind, W_bind. cbn [mbind option_bind]. rewrite Hpn. cbn [mbind option_bind]. by rewrite Hr1, Hr2. }
    unfold mbind, W_bind. rewrite Hraw, Hd. apply escaping_string_emits. }
  eapply emits_eq; [apply emits_seq; [exact Hs | apply emits_seq; [|exact Hc]]|].
  - instantiate (1 := []). destruct (negb _); apply emits_done.
  - by rewrite !app_nil_r.
Qed.

Lemma emits_comment i n s : h !! i = Some n -> label_of m n = comment_label s -> emits (send_tree (Node i [])) (render [Comment s]).
Proof.
  intros Hi Hn. injection Hn as Hty Htag Hns Hd _ _.
  cbn [SerializeSpec.send_tree]. unfold read_node. eapply emits_read; [exact Hi|].
  assert (emits (close i) []) as Hc.
  { unfold close_element, read_node. eapply emits_read; [exact Hi|]. rewrite Hty. apply emits_done. }
  assert (emits (lxb_html_serialize_cb str_cb t none target i) (render [Comment s])) as Hs.
  { unfold lxb_html_serialize_cb, read_node. eapply emits_read; [exact Hi|]. rewrite Hty. unfold lxb_html_serialize_comment_cb, read_node.
    change (LXB_DOM_NODE_TYPE_COMMENT =? LXB_DOM_NODE_TYPE_ELEMENT) with false. change (LXB_DOM_NODE_TYPE_COMMENT =? LXB_DOM_NODE_TYPE_TEXT) with false.
    change (LXB_DOM_NODE_TYPE_COMMENT =? LXB_DOM_NODE_TYPE_COMMENT) with true. cbn iota.
    eapply emits_read; [exact Hi|]. rewrite Hd.
    eapply emits_eq; [apply emits_seq; [apply emits_str | apply emits_seq; [apply emits_send | apply emits_str]]|].
    cbn [render map concat render_item]. by rewrite app_nil_r. }
  eapply emits_eq; [apply emits_seq; [exact Hs | apply emits_seq; [|exact Hc]]|].
  - instantiate (1 := []). destruct (negb _); apply emits_done.
  - by rewrite !app_nil_r.
Qed.

(** An element without an end. *)
Lemma emits_void i n k : h !! i = Some n -> label_of m n = element_label k -> static_tag (fst k) = true -> attrs_tidy (snd k) = true ->
  lxb_html_serialize_node_is_void n = true -> emits (send_tree (Node i [])) (render [write_tag k]).
Proof.
  intros Hi Hn Hs Ha Hv. cbn [SerializeSpec.send_tree]. unfold read_node. eapply emits_read; [exact Hi|]. rewrite Hv. cbn [negb wwhen].
  eapply emits_eq; [apply emits_seq; [by eapply emits_open | apply emits_seq; [apply emits_done|]]|].
  - unfold close_element, read_node. eapply emits_read; [exact Hi|]. rewrite Hv, andb_false_r. apply emits_done.
  - by rewrite !app_nil_r.
Qed.

(** The label of a node of the tree. *)
Lemma item_label i n cs : h !! i = Some n -> read_tree m h (Node i cs) = Item (label_of m n) (map (read_tree m h) cs).
Proof. intros Hn. cbn [read_tree]. unfold label_at. by rewrite Hn. Qed.

Lemma emits_forest pp prev f next : forest_at h pp prev f next -> forall p pn in_p, pp = Some p -> h !! p = Some pn ->
  raw_parent (nd_tag pn) || (nd_tag pn =? LXB_TAG_NOSCRIPT) = false -> forallb (tidy in_p) (map (read_tree m h) f) = true ->
  emits (send_forest f) (render (concat (map write (map (read_tree m h) f)))).
Proof.
  induction 1 as [|pp prev i n cs f next Hn Hp Hpr Hne Hfi Hla Hcs IHcs Hf IHf]; intros q pn in_p -> Hpn Hraw Ht; [apply emits_done|].
  change (map (read_tree m h) (Node i cs :: f)) with (read_tree m h (Node i cs) :: map (read_tree m h) f) in Ht |- *.
  cbn [forallb] in Ht. apply andb_prop in Ht as [Ht1 Ht2]. cbn [map concat]. rewrite render_app.
  change (send_forest (Node i cs :: f)) with (send_tree (Node i cs);; send_forest f).
  apply emits_seq; [|by eapply (IHf q pn in_p)]. clear IHf Ht2. rewrite (item_label i n cs Hn) in *.
  apply tidy_kinds in Ht1 as [(s & Hl & Hc & Hne' & Hs)|[(s & Hl & Hc & Hs & Hok)|[(k & Hl & Hc & Hv & Ha)|(k & Hl & Htag & Ha & Hks & Hsep)]]]; rewrite Hl.
  - rewrite Hc. apply map_eq_nil in Hc as ->. eapply emits_eq; [by eapply emits_text|]. cbn. by rewrite app_nil_r.
  - rewrite Hc. apply map_eq_nil in Hc as ->. by eapply emits_comment.
  - rewrite Hc. apply map_eq_nil in Hc as ->. destruct (tags_static (fst k)) as (Hst & _ & Hvoid); [by rewrite !one_of_app, Hv, !orb_true_r|].
    rewrite write_void by (done || (apply tags_named; by rewrite !one_of_app, Hv, !orb_true_r)).
    eapply emits_void; [done | done | done | done|]. injection Hl as _ Htg Hns _ _ _. by rewrite (Hvoid n Htg Hns).
  - pose proof (open_tags _ _ Htag) as Hin.
    destruct (tags_static (fst k)) as (Hst & Hrp & Hvoid); [rewrite one_of_app, app_assoc, (one_of_app _ (_ ++ _)), Hin; by rewrite orb_true_r|].
    rewrite write_element by ((apply tags_named; by rewrite app_assoc, one_of_app, Hin) || by apply not_void).
    pose proof Hl as Hlab. injection Hl as Hty Htg Hns Hd Hq Hfa. change (write_tag k :: ?l) with ([write_tag k] ++ l). rewrite !render_app.
    eapply emits_element; [exact Hn | exact Hlab | exact Hst | exact Ha | by rewrite (Hvoid n Htg Hns), not_void |].
    eapply (IHcs i n); [done | exact Hn | by rewrite Htg | exact Hks].
Qed.

Lemma emits_cons tr f l l' : emits (send_tree tr) l -> emits (send_forest f) l' -> emits (send_forest (tr :: f)) (l ++ l').
Proof. apply emits_seq. Qed.

(** No element of a tidy tree is a template. *)
Lemma tidy_no_template f in_p : forallb (tidy in_p) (map (read_tree m h) f) = true -> no_templates t f.
Proof.
  intros Ht. assert (H : forall tr in_p, tidy in_p (read_tree m h tr) = true -> forall i n, i ∈ tree_ids tr -> h !! i = Some n -> nd_tag n <> LXB_TAG_TEMPLATE).
  { clear f in_p Ht. induction tr as [i cs IH] using tree_induction. intros in_p Ht j n Hj Hn. cbn [tree_ids] in Hj. apply elem_of_cons in Hj as [->|Hj].
    - rewrite (item_label i n cs Hn) in Ht.
      apply tidy_kinds in Ht as [(s & Hl & _)|[(s & Hl & _)|[(k & Hl & _ & Hv & _)|(k & Hl & Htag & _)]]]; apply (f_equal l_tag) in Hl; cbn in Hl; rewrite Hl.
      1, 2: done.
      all: apply (plain_facts (fst k)), plain_tags.
      + by rewrite !one_of_app, Hv, !orb_true_r.
      + pose proof (open_tags _ _ Htag) as Hin. by rewrite app_assoc, one_of_app, Hin.
    - assert (exists in_p', forallb (tidy in_p') (map (read_tree m h) cs) = true) as [in_p' Hcs].
      { cbn [read_tree] in Ht. apply tidy_kinds in Ht as [(s & _ & -> & _)|[(s & _ & -> & _)|[(k & _ & -> & _)|(k & _ & _ & _ & Hks & _)]]];
          [by exists false..|by eexists]. }
      clear Ht. induction cs as [|c cs IHl]; [by apply elem_of_nil in Hj|]. cbn [map forallb flat_map] in Hcs, Hj. apply andb_prop in Hcs as [Hc Hcs].
      apply Forall_cons in IH as [IHc IHcs]. apply elem_of_app in Hj as [Hj|Hj]; [by eapply IHc | by apply IHl]. }
  induction f as [|tr f IH]; intros i n Hi Hn; [by apply elem_of_nil in Hi|]. unfold forest_ids in Hi. cbn [flat_map] in Hi.
  cbn [map forallb] in Ht. apply andb_prop in Ht as [Ht1 Ht2]. apply elem_of_app in Hi as [Hi|Hi]; [by eapply H | by eapply IH].
Qed.
End Emit.

(** ** Documents *)

Lemma item_inj l ks l' ks' : Item l ks = Item l' ks' -> l = l' /\ ks = ks'.
Proof. by intros [= -> ->]. Qed.

Lemma map_singleton {A B} (f : A -> B) l b : map f l = [b] -> exists a, l = [a] /\ f a = b.
Proof. destruct l as [|a [|]]; try done. intros [= <-]. by exists a. Qed.

Lemma map_pair {A B} (f : A -> B) l b c : map f l = [b; c] -> exists a a', l = [a; a'] /\ f a = b /\ f a' = c.
Proof. destruct l as [|a [|a' [|]]]; try done. intros [= <- <-]. by exists a, a'. Qed.

Lemma render_page p body : render (page p body) =
  render [StartTag (tag_bytes LXB_TAG_HTML) (pa_html p) false] ++
  ((render [StartTag (tag_bytes LXB_TAG_HEAD) (pa_head p) false] ++ render [EndTag (tag_bytes LXB_TAG_HEAD)]) ++
   (render [StartTag (tag_bytes LXB_TAG_BODY) (pa_body p) false] ++ render body ++ render [EndTag (tag_bytes LXB_TAG_BODY)])) ++
  render [EndTag (tag_bytes LXB_TAG_HTML)].
Proof.
  unfold page. change ([?x; ?y; ?z; ?w]) with ([x] ++ [y] ++ [z] ++ [w]). change ([?x; ?y]) with ([x] ++ [y]). rewrite !render_app, <- !app_assoc. reflexivity.
Qed.

Section Page.
Context (b : html_tree) (target : positive -> list Z).
#[local] Abbreviation h := (d_nodes (t_dom b)).
#[local] Abbreviation m := (d_attrs (t_dom b)).

(** The node at [i] reads as [l]. *)
Definition node_reads (i : positive) (l : label) : Prop := exists n, h !! i = Some n /\ label_of m n = l.

(** The nodes of a page. *)
Lemma page_nodes kh kd kb cs : document_reads b (page_tree kh kd kb cs) -> exists hi ei bi bs,
  let tr := Node (t_document b) [Node hi [Node ei []; Node bi bs]] in
  forest_at h None None [tr] None /\ NoDup (tree_ids tr) /\
  node_reads (t_document b) document_label /\ node_reads hi (element_label kh) /\ node_reads ei (element_label kd) /\ node_reads bi (element_label kb) /\
  forest_at h (Some bi) None bs None /\ map (read_tree m h) bs = cs.
Proof.
  intros (tr & Hid & Hf & Hnd & Hr). destruct tr as [d ts]. cbn [tree_id] in Hid. subst d. unfold heap, attr_heap in *.
  pose proof (forest_cons_inv _ _ _ _ _ _ _ Hf) as (dn & Hdn & _ & _ & _ & _ & _ & Hts & _). rewrite (item_label b _ dn) in Hr by done.
  apply item_inj in Hr as [Hdl Hr]. apply map_singleton in Hr as ([hi hs] & -> & Hr).
  pose proof (forest_cons_inv _ _ _ _ _ _ _ Hts) as (hn & Hhn & _ & _ & _ & _ & _ & Hhs & _). rewrite (item_label b _ hn) in Hr by done.
  apply item_inj in Hr as [Hhl Hr]. apply map_pair in Hr as ([ei es] & [bi bs] & -> & He & Hb).
  pose proof (forest_cons_inv _ _ _ _ _ _ _ Hhs) as (en & Hen & _ & _ & _ & _ & _ & Hes & Hbf). rewrite (item_label b _ en) in He by done.
  apply item_inj in He as [Hel He]. apply map_eq_nil in He as ->.
  pose proof (forest_cons_inv _ _ _ _ _ _ _ Hbf) as (bn & Hbn & _ & _ & _ & _ & _ & Hbs & _). rewrite (item_label b _ bn) in Hb by done.
  apply item_inj in Hb as [Hbl Hb]. exists hi, ei, bi, bs. split_and!; try done; by eexists.
Qed.

(** Its elements are sent with their tags. *)
Lemma page_element i k : node_reads i (element_label k) -> In (fst k) [LXB_TAG_HTML; LXB_TAG_HEAD; LXB_TAG_BODY] -> attrs_tidy (snd k) = true ->
  exists n, h !! i = Some n /\ raw_parent (nd_tag n) || (nd_tag n =? LXB_TAG_NOSCRIPT) = false /\ nd_tag n <> LXB_TAG_TEMPLATE /\
    forall cs l, emits (send_forest str_cb b (fun _ => None) target cs) l ->
      emits (send_tree str_cb b (fun _ => None) target (Node i cs)) (render [write_tag k] ++ l ++ render [EndTag (tag_bytes (fst k))]).
Proof.
  intros (n & Hn & Hl) Hin Ha. exists n. split; [done|]. pose proof (f_equal l_tag Hl) as Htag. pose proof (f_equal l_ns Hl) as Hns. cbn in Htag, Hns.
  destruct (tags_static (fst k)) as (H1 & H2 & H3); [by destruct Hin as [<-|[<-|[<-|[]]]]|]. rewrite Htag. split; [done|].
  split; [by destruct Hin as [<-|[<-|[<-|[]]]]|]. intros cs l Hcs. eapply emits_element; [exact Hn | exact Hl | exact H1 | exact Ha | | exact Hcs].
  rewrite (H3 n Htag Hns). by destruct Hin as [<-|[<-|[<-|[]]]].
Qed.

Lemma page_serialized ah ad ab cs : forallb attrs_tidy [ah; ad; ab] = true -> document_reads b (page_of ah ad ab cs) -> forallb (tidy false) cs = true ->
  lxb_html_serialize_tree_str (fun _ _ => true) true b (fun _ => None) target (t_document b) None =
    Some (Some (render (page (written_attrs ah ad ab) (concat (map write cs)))), LXB_STATUS_OK).
Proof.
  intros Hattrs Hr Ht. destruct (attrs_each ah ad ab Hattrs) as (Ha1 & Ha2 & Ha3).
  destruct (page_nodes _ _ _ _ Hr) as (hi & ei & bi & bs & Hf & Hnd & (dn & Hdn & Hdl) & Hh & He & Hb & Hbs & Hcs).
  destruct (page_element _ _ Hh) as (hn & Hhn & _ & Hht & Hhs); [by left | done |].
  destruct (page_element _ _ He) as (en & Hen & _ & Het & Hes); [by right; left | done |].
  destruct (page_element _ _ Hb) as (bn & Hbn & Hraw & Hbt & Hbsend); [by do 2 right; left | done |].
  rewrite <- Hcs in *. assert (Htp : no_templates b [Node (t_document b) [Node hi [Node ei []; Node bi bs]]]).
  { pose proof (tidy_no_template b bs false Ht) as Htb. intros k x Hk Hx. cbn in Hk. rewrite !app_nil_r in Hk. rewrite !elem_of_cons in Hk.
    destruct Hk as [->|[->|[->|[->|Hk]]]]; [|congruence..|by eapply Htb]. assert (x = dn) as -> by congruence.
    assert (nd_tag dn = LXB_TAG__DOCUMENT) as -> by exact (f_equal l_tag Hdl). done. }
  pose proof (emits_forest b target _ _ _ _ Hbs bi bn false eq_refl Hbn Hraw Ht) as Hbody.
  assert (emits (lxb_html_serialize_tree_cb str_cb b (fun _ => None) target (t_document b))
    (render (page (written_attrs ah ad ab) (concat (map write (map (read_tree m h) bs)))))) as Hem.
  { intros s. rewrite (same_at (proj2 (serialize_same str_cb b (fun _ => None) target _ _ _ _ _ Hf Hnd Htp))). revert s.
    eapply emits_eq.
    - apply emits_cons; [|apply emits_done]. apply Hhs. apply emits_cons; [apply (Hes [] []), emits_done|].
      apply emits_cons; [apply Hbsend, Hbody | apply emits_done].
    - rewrite render_page. by rewrite !app_nil_r. }
  unfold lxb_html_serialize_tree_str, into_str, status_of. fold str_cb. by rewrite Hem.
Qed.
End Page.

(** C2: what a document was serialised to is parsed back to the same document.  For
    every document that reads as a page with a tidy body (elements with the tags of
    [TreeSpec] nested to any depth, without a [p] or a block in a [p]; texts with any
    bytes but NUL and carriage return, no two next to each other; comments that have
    no [-] and no [<] either; elements, [html], [head] and [body] too, may have
    attributes, with different names in lower case and such values),
    [lxb_html_serialize_tree_str] answers OK with a text, and parsing that text with
    [lxb_html_document_parse], from any place in memory, answers OK with a complete
    document that reads as the same page. *)
Theorem serialize_parse `{TreePlenty} b target ah ad ab cs : document_reads b (page_of ah ad ab cs) ->
  forallb attrs_tidy [ah; ad; ab] = true -> forallb (tidy false) cs = true -> separate cs = true ->
  exists text,
    lxb_html_serialize_tree_str (fun _ _ => true) true b (fun _ => None) target (t_document b) None = Some (Some text, LXB_STATUS_OK) /\
    forall document memory html a, STATIC_END <= html -> bytes_at memory html text -> STATIC_END <= a -> Z.of_nat (length text) < 2 ^ 63 ->
    exists builder,
      lxb_html_document_parse document memory true true (Some a) html (Z.of_nat (length text)) = Some (builder, LXB_STATUS_OK) /\
      t_complete builder = true /\ document_reads builder (page_of ah ad ab cs).
Proof.
  intros Hr Ha Ht Hs. eexists. split; [by apply page_serialized|]. intros document memory html a Hhtml Hb Haddr Hlen. by apply written_parsed.
Qed.

(** [<html lang="e&quot;n">], and in the body
    [a < b<p id="x&amp;y" class="">c<br>d<!--k--></p><div><span>e & f</span></div>] *)
Definition lang_example : list (list Z * option (list Z)) :=
  [(bytes_of "lang"%string, Some (bytes_of "e"%string ++ [0x22] ++ bytes_of "n"%string))].
Definition tree_example : list dom_item :=
  [Item (text_label (bytes_of "a < b"%string)) [];
   Item (element_label (LXB_TAG_P, [(bytes_of "id"%string, Some (bytes_of "x&y"%string)); (bytes_of "class"%string, Some [])]))
     [Item (text_label (bytes_of "c"%string)) []; Item (element_label (LXB_TAG_BR, [])) []; Item (text_label (bytes_of "d"%string)) [];
      Item (comment_label (bytes_of "k"%string)) []];
   Item (element_label (LXB_TAG_DIV, [])) [Item (element_label (LXB_TAG_SPAN, [])) [Item (text_label (bytes_of "e & f"%string)) []]]].

Lemma serialize_parse_witness : exists b text,
  document_reads b (page_of lang_example [] [] tree_example) /\
  lxb_html_serialize_tree_str (fun _ _ => true) true b (fun _ => None) (fun _ => []) (t_document b) None = Some (Some text, LXB_STATUS_OK) /\
  (forall document memory html a, STATIC_END <= html -> bytes_at memory html text -> STATIC_END <= a -> Z.of_nat (length text) < 2 ^ 63 ->
   exists builder,
     @lxb_html_document_parse first_free document memory true true (Some a) html (Z.of_nat (length text)) = Some (builder, LXB_STATUS_OK) /\
     t_complete builder = true /\ document_reads builder (page_of lang_example [] [] tree_example)).
Proof.
  destruct (written_parsed lang_example [] [] ltac:(vm_compute; reflexivity) (H0 := first_free_plenty) 2
    (place BUF (render (page (written_attrs lang_example [] []) (concat (map write tree_example)))) (fun _ => 0)) BUF 200000 tree_example)
    as (b & _ & _ & Hb); [vm_compute; reflexivity | vm_compute; reflexivity | discriminate | vm_compute; repeat split | discriminate | reflexivity |].
  destruct (serialize_parse (H0 := first_free_plenty) b (fun _ => []) lang_example [] [] tree_example Hb) as (text & Ht & Hp);
    [vm_compute; reflexivity | vm_compute; reflexivity | vm_compute; reflexivity|].
  exists b, text. split; [exact Hb|]. split; [exact Ht | exact Hp].
Defined.
