(* ===== verification/AppWorkers.v ===== *)
(** * The worker threads of tgnews

    [LoadDocs] ([io.hpp]), [RecognizeLanguage] ([langrec.hpp]),
    [GenerateFeatures] ([features.hpp]) and [DetectNews] ([news_det.hpp]) split
    the documents between threads with the same loop; each thread runs a task
    over its range of the shared vector, reading and writing one document at a
    time.  The threads are run here one document at a time in any order. *)
From S2P Require Import Prelude.
From stdpp Require Import relations.

Definition kNumThreads : nat := 8.

(** The loop
      [for (; start < n; start += step) { end = min(n, start+step); ... }]
    that starts the threads: their ranges. *)
Fixpoint spawn (fuel start step n : nat) : list (nat * nat) :=
  match fuel with
  | O => []
  | S fuel' =>
      if (start <? n)%nat then
        let end_ := Nat.min n (start + step) in
        (start, end_) :: spawn fuel' (start + step) step n
      else []
  end.

(** [n] documents take at most [n] threads. *)
Definition LoadDocs_ranges (n : nat) : list (nat * nat) :=
  let step := Nat.max (n / kNumThreads) 1 in
  spawn (S n) 0 step n.

(** The indices of a range. *)
Definition range_of (r : nat * nat) : list nat := seq (fst r) (snd r - fst r).

Lemma spawn_covers step n : (0 < step)%nat -> forall fuel start, (n - start < fuel)%nat ->
  concat (map range_of (spawn fuel start step n)) = seq start (n - start).
Proof.
  intros Hs fuel. induction fuel as [|fuel IH]; intros start Hf; [lia|]. cbn [spawn].
  destruct (Nat.ltb_spec start n) as [Hlt|Hge].
  - cbn [map concat]. rewrite IH by lia. unfold range_of. cbn [fst snd].
    destruct (decide (start + step <= n)%nat).
    + rewrite Nat.min_r by lia. replace (n - start)%nat with (step + (n - (start + step)))%nat by lia.
      rewrite seq_app. do 2 f_equal. lia.
    + rewrite Nat.min_l by lia. replace (n - (start + step))%nat with O by lia. apply app_nil_r.
  - by replace (n - start)%nat with O by lia.
Qed.

Lemma spawn_length step n : (0 < step)%nat -> forall fuel start,
  (start <= n -> length (spawn fuel start step n) * step < n - start + step)%nat.
Proof.
  intros Hs fuel. induction fuel as [|fuel IH]; intros start Hle; cbn [spawn length]; [lia|].
  destruct (Nat.ltb_spec start n); [|cbn; lia]. cbn [length].
  destruct (decide (start + step <= n)%nat); [specialize (IH (start + step)%nat ltac:(lia)); lia|].
  assert (Hnil : spawn fuel (start + step) step n = []).
  { destruct fuel; [done|]. cbn [spawn]. by rewrite (proj2 (Nat.ltb_ge _ _)) by lia. }
  rewrite Hnil. cbn. lia.
Qed.

Lemma ranges_partition n : concat (map range_of (LoadDocs_ranges n)) = seq 0 n.
Proof.
  unfold LoadDocs_ranges. rewrite spawn_covers by lia. by rewrite Nat.sub_0_r.
Qed.

(** The threads' ranges partition the documents: put one after the other they
    are the indices [0..n-1], so that every document is in exactly one range; and
    there are at most 15 of them. *)
Theorem workers_partition n :
  concat (map range_of (LoadDocs_ranges n)) = seq 0 n /\
  (length (LoadDocs_ranges n) <= 15)%nat.
Proof.
  split; [apply ranges_partition|].
  unfold LoadDocs_ranges. set (step := Nat.max (n / kNumThreads) 1).
  pose proof (spawn_length step n ltac:(lia) (S n) 0 ltac:(lia)) as H.
  assert (Hn : (n < kNumThreads * step + kNumThreads)%nat).
  { pose proof (Nat.div_mod n kNumThreads ltac:(done)).
    pose proof (Nat.mod_upper_bound n kNumThreads ltac:(done)). unfold step. nia. }
  unfold kNumThreads in Hn. assert (1 <= step)%nat by lia. nia.
Qed.

(** More threads can run than [kNumThreads]: 15 documents are given to 15
    threads. *)
Lemma workers_exceed_kNumThreads :
  length (LoadDocs_ranges 15) = 15%nat /\ (kNumThreads < length (LoadDocs_ranges 15))%nat.
Proof. split; [vm_compute; reflexivity | vm_compute; lia]. Qed.

Section Tasks.
Context {A : Type} (task : nat -> A -> A).

(** What the threads have left to do, and the shared vector. *)
Record workers_state := mk_workers { todo : list (nat * nat); documents : list A }.

(** One thread does the next document of its range. *)
Inductive worker_step : workers_state -> workers_state -> Prop :=
  | worker_next w j s e d :
      todo w !! j = Some (s, e) -> (s < e)%nat -> documents w !! s = Some d ->
      worker_step w (mk_workers (<[j := (S s, e)]> (todo w)) (<[s := task s d]> (documents w))).

(** [join]: every thread has done its range. *)
Definition joined (w : workers_state) : Prop := Forall (fun r => (snd r <= fst r)%nat) (todo w).

Definition started_workers (docs : list A) : workers_state :=
  mk_workers (LoadDocs_ranges (length docs)) docs.

Definition pending_docs (w : workers_state) : list nat := concat (map range_of (todo w)).

Lemma range_of_first s e : (s < e)%nat -> range_of (s, e) = s :: range_of (S s, e).
Proof.
  intros H. unfold range_of. cbn. replace (e - s)%nat with (S (e - S s)) by lia. done.
Qed.

(** A step takes one index from the pending ones. *)
Lemma worker_step_inv w w' : worker_step w w' -> exists s d,
  documents w !! s = Some d /\ documents w' = <[s := task s d]> (documents w) /\
  pending_docs w ≡ₚ s :: pending_docs w'.
Proof.
  intros [w0 j s e d Hj Hlt Hd]. exists s, d. split; [done|]. split; [done|].
  unfold pending_docs. cbn [todo]. rewrite (insert_take_drop _ _ (S s, e)) by (by eapply lookup_lt_Some).
  rewrite <- (take_drop_middle _ _ _ Hj) at 1. rewrite !map_app, !concat_app. cbn [map concat].
  rewrite (range_of_first s e Hlt). cbn [app]. by rewrite <- Permutation_middle.
Qed.

(** What the vector holds while the threads run. *)
Record workers_inv (docs : list A) (w : workers_state) : Prop := {
  wi_length : length (documents w) = length docs;
  wi_nodup : NoDup (pending_docs w);
  wi_range : forall i, i ∈ pending_docs w -> (i < length docs)%nat;
  wi_docs : forall i d, docs !! i = Some d ->
    documents w !! i = Some (if decide (i ∈ pending_docs w) then d else task i d)
}.

Lemma started_workers_inv docs : workers_inv docs (started_workers docs).
Proof.
  assert (Hp : pending_docs (started_workers docs) = seq 0 (length docs)) by apply ranges_partition.
  split; [done | rewrite Hp; apply NoDup_seq | |].
  - intros i. rewrite Hp, elem_of_seq. lia.
  - intros i d Hi. rewrite decide_True; [done|]. rewrite Hp, elem_of_seq.
    apply lookup_lt_Some in Hi. lia.
Qed.

Lemma step_inv docs w w' : workers_inv docs w -> worker_step w w' -> workers_inv docs w'.
Proof.
  intros [Hl Hnd Hr Hd] Hstep. destruct (worker_step_inv w w' Hstep) as (s & d & Hs & Hw & Hp).
  rewrite Hp in Hnd. apply NoDup_cons in Hnd as [Hns Hnd].
  assert (Hin : forall i, i ∈ pending_docs w <-> i = s \/ i ∈ pending_docs w')
    by (intros i; by rewrite Hp, elem_of_cons).
  split; [by rewrite Hw, length_insert | done | |].
  - intros i Hi. apply Hr, Hin. by right.
  - intros i d0 Hi. rewrite Hw. specialize (Hd i d0 Hi). destruct (decide (i = s)) as [->|Hne].
    + rewrite list_lookup_insert_eq by (by eapply lookup_lt_Some).
      rewrite decide_True in Hd by (apply Hin; by left). rewrite decide_False by done. congruence.
    + rewrite list_lookup_insert_ne by done. rewrite Hd.
      destruct (decide (i ∈ pending_docs w')) as [Hi'|Hi'];
        [rewrite decide_True by (apply Hin; by right) | rewrite decide_False by (rewrite Hin; tauto)];
        done.
Qed.

Lemma reach_inv docs w : rtc worker_step (started_workers docs) w -> workers_inv docs w.
Proof.
  intros H. remember (started_workers docs) as w0 eqn:E.
  assert (Hi : workers_inv docs w0) by (rewrite E; apply started_workers_inv). clear E.
  induction H as [|w1 w2 w3 Hs _ IH]; [done|]. apply IH. by eapply step_inv.
Qed.

Lemma joined_documents docs w : rtc worker_step (started_workers docs) w -> joined w ->
  documents w = imap task docs.
Proof.
  intros Hr Hj. pose proof (reach_inv docs w Hr) as [Hl _ _ Hd].
  assert (Hp : pending_docs w = []).
  { unfold pending_docs. clear - Hj. unfold joined in Hj. induction Hj as [|r l Hr _ IH]; [done|].
    cbn. rewrite IH, app_nil_r. unfold range_of. by replace (snd r - fst r)%nat with O by lia. }
  apply list_eq. intros i. rewrite list_lookup_imap.
  destruct (docs !! i) as [d|] eqn:Hi; cbn.
  - rewrite (Hd i d Hi), Hp. by rewrite decide_False by apply not_elem_of_nil.
  - apply lookup_ge_None. apply lookup_ge_None in Hi. lia.
Qed.

(** C34: the threads are free of races and the result does not depend on their
    scheduling.  In every interleaving of the threads' steps, when all have
    finished the vector holds each document after exactly one run of its task;
    before that some thread can always take a step (no access is out of range),
    and a run has at most as many steps as there are documents. *)
Theorem workers_deterministic docs w k :
  nsteps worker_step k (started_workers docs) w ->
  (joined w -> documents w = imap task docs) /\
  (joined w \/ exists w', worker_step w w') /\
  (k + length (pending_docs w) = length docs)%nat.
Proof.
  intros Hk. assert (Hr : rtc worker_step (started_workers docs) w) by (apply rtc_nsteps; eauto).
  pose proof (reach_inv docs w Hr) as [Hl _ Hrg _]. split; [|split].
  - by apply joined_documents.
  - destruct (decide (Forall (fun r => (snd r <= fst r)%nat) (todo w))) as [Hj|Hj]; [by left | right].
    apply not_Forall_Exists in Hj; [|intros r; apply _].
    apply Exists_exists in Hj as ([s e] & Hin & Hlt). cbn in Hlt.
    apply list_elem_of_lookup in Hin as [j Hj].
    assert (Hs : s ∈ pending_docs w).
    { unfold pending_docs. apply list_elem_of_In, in_concat. exists (range_of (s, e)).
      split; [by eapply in_map, list_elem_of_In, list_elem_of_lookup_2|].
      rewrite range_of_first by lia. by left. }
    destruct (documents w !! s) as [d|] eqn:Hds.
    + eexists. eapply worker_next; [exact Hj | lia | exact Hds].
    + apply lookup_ge_None in Hds. pose proof (Hrg s Hs). lia.
  - clear - Hk. remember (started_workers docs) as w0 eqn:E.
    assert (H0 : length (pending_docs w0) = length docs).
    { rewrite E. change (pending_docs (started_workers docs))
        with (concat (map range_of (LoadDocs_ranges (length docs)))).
      by rewrite ranges_partition, length_seq. }
    rewrite <- H0. clear E H0. induction Hk as [|k w1 w2 w3 Hs _ IH]; [done|].
    destruct (worker_step_inv _ _ Hs) as (s & d & _ & _ & Hp). rewrite Hp. cbn. lia.
Qed.
End Tasks.

Lemma workers_deterministic_witness : exists w,
  nsteps (worker_step (fun i d => (i + d)%nat)) 1 (started_workers [5; 6]%nat) w /\
  (1 + length (pending_docs w) = 2)%nat.
Proof.
  eexists. assert (H : nsteps (worker_step (fun i d => (i + d)%nat)) 1 (started_workers [5; 6]%nat)
    (mk_workers [(0, 1); (2, 2)] [5; 7])%nat).
  { apply nsteps_once. exact (worker_next (fun i d => (i + d)%nat) (started_workers [5; 6]%nat) 1 1 2 6
      eq_refl (le_n _) eq_refl). }
  split; [exact H|]. exact (proj2 (proj2 (workers_deterministic _ _ _ _ H))).
Defined.
