(* ===== verification/AppDocs.v ===== *)
(** * Files, printed paths and bags of words of tgnews

    Which files are HTML and what is printed of their paths ([utils.hpp],
    [io.hpp]), how the JSON library writes strings ([json.hpp]: exactly those that
    are UTF-8), the bags of words and the splitting of UDPipe's feature strings
    ([common.h], [features.hpp], [io.hpp]).

    A [std::string] is the list of its bytes; a call that throws is [None].  The
    counters of a bag are doubles in the code; they count words, and are exact
    below 2^53. *)
From S2P Require Import Prelude.
From S2P Require Import Str.

(** ** [utils.hpp] *)

Definition SIZE_MAX_1 : Z := 2 ^ 64.
Definition dot_html : list Z := [0x2E; 0x68; 0x74; 0x6D; 0x6C].

(** [s.compare(pos, len, str) == 0]; it throws [out_of_range] past the end. *)
Definition compare_eq (s : list Z) (pos len : Z) (str : list Z) : option bool :=
  if pos >? Z.of_nat (length s) then None
  else Some (bool_decide (take (Z.to_nat len) (drop (Z.to_nat pos) s) = str)).

(** [file_name.size()-5] is computed in [size_t]. *)
Definition IsHTML (file_name : list Z) : option bool :=
  compare_eq file_name ((Z.of_nat (length file_name) - 5) mod SIZE_MAX_1) 5 dot_html.

(** The entries of the directory, in the iterator's order: whether each is a
    regular file, and its path. *)
Fixpoint GlobHTML (entries : list (bool * list Z)) : option (list (list Z)) :=
  match entries with
  | [] => Some []
  | (regular, path) :: rest =>
      if regular : bool then
        html ← IsHTML path;
        l ← GlobHTML rest;
        Some (if html : bool then path :: l else l)
      else GlobHTML rest
  end.

(** A file is taken for HTML exactly when its name ends in [.html]; a name of
    fewer than five bytes makes [IsHTML] throw, the subtraction wrapping around. *)
Theorem is_html_spec s : Z.of_nat (length s) < SIZE_MAX_1 ->
  IsHTML s = (if Z.of_nat (length s) <? 5 then None
              else Some (bool_decide (drop (length s - 5) s = dot_html))).
Proof.
  intros Hs. unfold IsHTML, compare_eq. unfold SIZE_MAX_1 in *.
  destruct (Z.ltb_spec (Z.of_nat (length s)) 5) as [Hlt|Hge].
  - replace ((Z.of_nat (length s) - 5) mod 2 ^ 64) with (Z.of_nat (length s) - 5 + 2 ^ 64).
    + by rewrite (proj2 (Z.gtb_lt _ _)) by lia.
    + rewrite <- (Z.mod_add _ 1) by lia. rewrite Z.mod_small; lia.
  - rewrite Z.mod_small by lia.
    destruct (Z.gtb_spec (Z.of_nat (length s) - 5) (Z.of_nat (length s))); [lia|].
    replace (Z.to_nat (Z.of_nat (length s) - 5)) with (length s - 5)%nat by lia.
    rewrite take_ge; [done|]. rewrite length_drop. lia.
Qed.

Lemma is_html_spec_witness : IsHTML (0x61 :: dot_html) = Some true /\ IsHTML [0x2E; 0x2F; 0x61] = None.
Proof.
  split; (refine (eq_trans (is_html_spec _ _) _); [reflexivity | vm_compute; reflexivity]).
Defined.

(** ** JSON strings ([json/single_include/nlohmann/json.hpp])

    [operator<<] of a JSON value prints its strings by [serializer::dump_escaped],
    with [ensure_ascii] false and the error handler [strict].  The bytes gathered in
    [string_buffer] and written in pieces are one list here. *)

Definition UTF8_ACCEPT : Z := 0.
Definition UTF8_REJECT : Z := 1.

Definition utf8d : list Z :=
  [0; 0; 0; 0; 0; 0; 0; 0; 0; 0; 0; 0; 0; 0; 0; 0; 0; 0; 0; 0; 0; 0; 0; 0; 0; 0; 0; 0; 0; 0; 0; 0;
   0; 0; 0; 0; 0; 0; 0; 0; 0; 0; 0; 0; 0; 0; 0; 0; 0; 0; 0; 0; 0; 0; 0; 0; 0; 0; 0; 0; 0; 0; 0; 0;
   0; 0; 0; 0; 0; 0; 0; 0; 0; 0; 0; 0; 0; 0; 0; 0; 0; 0; 0; 0; 0; 0; 0; 0; 0; 0; 0; 0; 0; 0; 0; 0;
   0; 0; 0; 0; 0; 0; 0; 0; 0; 0; 0; 0; 0; 0; 0; 0; 0; 0; 0; 0; 0; 0; 0; 0; 0; 0; 0; 0; 0; 0; 0; 0;
   1; 1; 1; 1; 1; 1; 1; 1; 1; 1; 1; 1; 1; 1; 1; 1; 9; 9; 9; 9; 9; 9; 9; 9; 9; 9; 9; 9; 9; 9; 9; 9;
   7; 7; 7; 7; 7; 7; 7; 7; 7; 7; 7; 7; 7; 7; 7; 7; 7; 7; 7; 7; 7; 7; 7; 7; 7; 7; 7; 7; 7; 7; 7; 7;
   8; 8; 2; 2; 2; 2; 2; 2; 2; 2; 2; 2; 2; 2; 2; 2; 2; 2; 2; 2; 2; 2; 2; 2; 2; 2; 2; 2; 2; 2; 2; 2;
   0xA; 0x3; 0x3; 0x3; 0x3; 0x3; 0x3; 0x3; 0x3; 0x3; 0x3; 0x3; 0x3; 0x4; 0x3; 0x3;
   0xB; 0x6; 0x6; 0x6; 0x5; 0x8; 0x8; 0x8; 0x8; 0x8; 0x8; 0x8; 0x8; 0x8; 0x8; 0x8;
   0x0; 0x1; 0x2; 0x3; 0x5; 0x8; 0x7; 0x1; 0x1; 0x1; 0x4; 0x6; 0x1; 0x1; 0x1; 0x1;
   1; 1; 1; 1; 1; 1; 1; 1; 1; 1; 1; 1; 1; 1; 1; 1; 1; 0; 1; 1; 1; 1; 1; 0; 1; 0; 1; 1; 1; 1; 1; 1;
   1; 2; 1; 1; 1; 1; 1; 2; 1; 2; 1; 1; 1; 1; 1; 1; 1; 1; 1; 1; 1; 1; 1; 2; 1; 1; 1; 1; 1; 1; 1; 1;
   1; 2; 1; 1; 1; 1; 1; 1; 1; 2; 1; 1; 1; 1; 1; 1; 1; 1; 1; 1; 1; 1; 1; 3; 1; 3; 1; 1; 1; 1; 1; 1;
   1; 3; 1; 1; 1; 1; 1; 3; 1; 3; 1; 1; 1; 1; 1; 1; 1; 3; 1; 1; 1; 1; 1; 1; 1; 1; 1; 1; 1; 1; 1; 1].

(** [decode]: the new state and [codep], a [uint32_t].  A byte is below 256. *)
Definition decode (state codep byte : Z) : Z * Z :=
  let type := if (0 <=? byte) && (byte <=? 255) then nth (Z.to_nat byte) utf8d 8 else 8 in
  let codep := if negb (state =? UTF8_ACCEPT) then Z.lor (Z.land byte 0x3F) (Z.shiftl codep 6 mod 2 ^ 32)
               else Z.land (Z.shiftr 0xFF type) byte in
  (nth (Z.to_nat (256 + state * 16 + type)) utf8d UTF8_REJECT, codep).

(** A digit of [%04x]. *)
Definition hex_digit (d : Z) : Z := if d <? 10 then 0x30 + d else 0x57 + d.

(** What is written for a code point whose last byte is [byte]. *)
Definition escaped (codepoint byte : Z) : list Z :=
  if codepoint =? 0x08 then [0x5C; 0x62]
  else if codepoint =? 0x09 then [0x5C; 0x74]
  else if codepoint =? 0x0A then [0x5C; 0x6E]
  else if codepoint =? 0x0C then [0x5C; 0x66]
  else if codepoint =? 0x0D then [0x5C; 0x72]
  else if codepoint =? 0x22 then [0x5C; 0x22]
  else if codepoint =? 0x5C then [0x5C; 0x5C]
  else if codepoint <=? 0x1F then
    [0x5C; 0x75; hex_digit (codepoint / 4096 mod 16); hex_digit (codepoint / 256 mod 16);
     hex_digit (codepoint / 16 mod 16); hex_digit (codepoint mod 16)]
  else [byte].

(** [None] is the exception [type_error.316]. *)
Fixpoint dump_escaped_loop (s : list Z) (state codepoint : Z) : option (list Z) :=
  match s with
  | [] => if state =? UTF8_ACCEPT then Some [] else None
  | byte :: s =>
      let '(state, codepoint) := decode state codepoint byte in
      if state =? UTF8_ACCEPT then out ← dump_escaped_loop s state codepoint; Some (escaped codepoint byte ++ out)
      else if state =? UTF8_REJECT then None
      else out ← dump_escaped_loop s state codepoint; Some (byte :: out)
  end.

Definition dump_escaped (s : list Z) : option (list Z) := dump_escaped_loop s UTF8_ACCEPT 0.

(** *** The reference: the grammar of UTF-8 (RFC 3629) *)

Definition between (lo hi c : Z) : bool := (lo <=? c) && (c <=? hi).
Definition utf8_tail (c : Z) : bool := between 0x80 0xBF c.

(** The second byte of a sequence of three or four. *)
Definition utf8_second (b c : Z) : bool :=
  if b =? 0xE0 then between 0xA0 0xBF c
  else if b =? 0xED then between 0x80 0x9F c
  else if b =? 0xF0 then between 0x90 0xBF c
  else if b =? 0xF4 then between 0x80 0x8F c
  else utf8_tail c.

Fixpoint utf8 (s : list Z) : bool :=
  match s with
  | [] => true
  | b :: s =>
      if between 0x00 0x7F b then utf8 s
      else if between 0xC2 0xDF b then match s with c1 :: s => utf8_tail c1 && utf8 s | _ => false end
      else if between 0xE0 0xEF b then
        match s with c1 :: c2 :: s => utf8_second b c1 && (utf8_tail c2 && utf8 s) | _ => false end
      else if between 0xF0 0xF4 b then
        match s with c1 :: c2 :: c3 :: s => utf8_second b c1 && (utf8_tail c2 && (utf8_tail c3 && utf8 s)) | _ => false end
      else false
  end.

(** Quotes, backslashes and control characters are escaped, other bytes copied. *)
Definition json_escape (b : Z) : list Z := escaped b b.

(** *** The automaton accepts the grammar *)

(** What the automaton still accepts from each state. *)
Definition utf8_rest (state : Z) (s : list Z) : bool :=
  let tails1 s := match s with c :: s => utf8_tail c && utf8 s | [] => false end in
  let tails2 (f : Z -> bool) s := match s with c :: s => f c && tails1 s | [] => false end in
  let tails3 (f : Z -> bool) s := match s with c :: s => f c && tails2 utf8_tail s | [] => false end in
  if state =? 0 then utf8 s
  else if state =? 2 then tails1 s
  else if state =? 3 then tails2 utf8_tail s
  else if state =? 4 then tails2 (between 0xA0 0xBF) s
  else if state =? 5 then tails2 (between 0x80 0x9F) s
  else if state =? 6 then tails3 (between 0x90 0xBF) s
  else if state =? 7 then tails3 utf8_tail s
  else if state =? 8 then tails3 (between 0x80 0x8F) s
  else false.

(** What [codep] is known to be in each state: large enough that the code point is
    none of those escaped, small enough not to wrap. *)
Definition codep_ok (state codep : Z) : bool :=
  if state =? 2 then between 2 (2 ^ 16 - 1) codep
  else if state =? 3 then between 1 (2 ^ 10 - 1) codep
  else if one_of state [5; 7; 8] then between 1 15 codep
  else between 0 15 codep.

(** The automaton's state alone. *)
Definition utf8_next (state byte : Z) : Z := fst (decode state 0 byte).

Lemma decode_state state codep byte : fst (decode state codep byte) = utf8_next state byte.
Proof. reflexivity. Qed.

(** From a state inside a sequence: the bytes it takes, and where they lead. *)
Definition takes (state byte : Z) : bool :=
  if state =? 4 then between 0xA0 0xBF byte
  else if state =? 5 then between 0x80 0x9F byte
  else if state =? 6 then between 0x90 0xBF byte
  else if state =? 8 then between 0x80 0x8F byte
  else utf8_tail byte.

Definition leads (state : Z) : Z := if state =? 2 then 0 else if state <=? 5 then (if state =? 3 then 2 else 2) else 3.

Definition inside : list Z := [2; 3; 4; 5; 6; 7; 8].

Lemma outside_type b : ~ 0 <= b < 256 -> forall state codep, fst (decode state codep b) = nth (Z.to_nat (256 + state * 16 + 8)) utf8d UTF8_REJECT.
Proof. intros Hb state codep. unfold decode. by assert ((0 <=? b) && (b <=? 255) = false) as -> by lia. Qed.

Lemma next_inside state b : In state inside -> utf8_next state b = if takes state b then leads state else UTF8_REJECT.
Proof.
  intros Hs. destruct (decide (0 <= b < 256)) as [Hb|Hb].
  2: { unfold utf8_next. rewrite outside_type by done. assert (takes state b = false) as -> by (unfold takes, utf8_tail, between; repeat case_if; lia).
       cbn [inside In] in Hs. by destruct_or! Hs; subst. }
  apply Z.eqb_eq. revert state Hs. apply forallb_forall.
  exact (forall_bytes (fun b => forallb (fun state => utf8_next state b =? if takes state b then leads state else UTF8_REJECT) inside)
    ltac:(vm_compute; reflexivity) b Hb).
Qed.

Lemma rest_inside state b s : In state inside ->
  utf8_rest state (b :: s) = takes state b && utf8_rest (leads state) s.
Proof. cbn [inside In]. intros Hs. by destruct_or! Hs; subst. Qed.

(** From the accepting state, by the first byte of a sequence. *)
Definition first (b : Z) : Z :=
  if between 0x00 0x7F b then 0
  else if between 0xC2 0xDF b then 2
  else if between 0xE0 0xEF b then (if b =? 0xE0 then 4 else if b =? 0xED then 5 else 3)
  else if between 0xF0 0xF4 b then (if b =? 0xF0 then 6 else if b =? 0xF4 then 8 else 7)
  else UTF8_REJECT.

Lemma rest_first b s : utf8_rest 0 (b :: s) = utf8_rest (first b) s.
Proof.
  cbn [utf8_rest Z.eqb utf8]. unfold first, utf8_second.
  destruct (between 0x00 0x7F b); [done|]. destruct (between 0xC2 0xDF b); [by destruct s|].
  destruct (between 0xE0 0xEF b) eqn:E.
  - unfold between in E. destruct (Z.eqb_spec b 0xE0); [by destruct s as [|? [|? ?]]; cbn; rewrite ?andb_false_r|].
    destruct (Z.eqb_spec b 0xED); [by destruct s as [|? [|? ?]]; cbn; rewrite ?andb_false_r|].
    destruct (Z.eqb_spec b 0xF0); [lia|]. destruct (Z.eqb_spec b 0xF4); [lia|].
    by destruct s as [|? [|? ?]]; cbn; rewrite ?andb_false_r.
  - destruct (between 0xF0 0xF4 b) eqn:E'; [|done]. unfold between in E'.
    destruct (Z.eqb_spec b 0xE0); [lia|]. destruct (Z.eqb_spec b 0xED); [lia|].
    destruct (Z.eqb_spec b 0xF0), (Z.eqb_spec b 0xF4); try lia;
      by destruct s as [|? [|? [|? ?]]]; cbn; rewrite ?andb_false_r.
Qed.

(** The code point after one step inside a sequence. *)
Lemma codep_inside state codep b : In state inside -> codep_ok state codep = true -> takes state b = true ->
  let codep' := snd (decode state codep b) in
  if leads state =? 0 then 0x80 <= codep' else codep_ok (leads state) codep' = true.
Proof.
  intros Hs Hc Ht. assert (0 <= codep < 2 ^ 16) as Hr.
  { unfold codep_ok, between in Hc. cbn [inside In] in Hs. destruct_or! Hs; subst; cbn in Hc; lia. }
  assert (snd (decode state codep b) = codep * 64 + b mod 64) as ->.
  { unfold decode. cbn [snd].
    assert (state =? UTF8_ACCEPT = false) as -> by (cbn [inside In] in Hs; unfold UTF8_ACCEPT; lia). cbn [negb].
    rewrite Z.shiftl_mul_pow2, Z.mod_small by lia. change 0x3F with (Z.ones 6). rewrite Z.land_ones by lia.
    rewrite Z.lor_comm. apply (lor_add _ _ 6 codep); [lia | done | apply Z.mod_pos_bound; lia]. }
  unfold takes, utf8_tail, codep_ok, between in *. cbn [inside In] in Hs.
  destruct_or! Hs; subst; cbn in Hc, Ht |- *; try done; Z.to_euclidean_division_equations; lia.
Qed.

Lemma first_step b : let '(state, codep) := decode 0 0 b in
  state = first b /\ (if state =? 0 then codep = b else codep_ok state codep = true \/ state = UTF8_REJECT).
Proof.
  destruct (decide (0 <= b < 256)) as [Hb|Hb].
  2: { pose proof (outside_type b Hb 0 0) as E. destruct (decode 0 0 b) as [state codep]. cbn in E. subst state.
       assert (first b = 1) as -> by (unfold first, between; repeat case_if; lia || done). split; [done | by right]. }
  pose proof (forall_bytes (fun b => let '(state, codep) := decode 0 0 b in
    (state =? first b) && (if state =? 0 then codep =? b else codep_ok state codep || (state =? UTF8_REJECT)))
    ltac:(vm_compute; reflexivity) b Hb) as H. cbv beta in H. destruct (decode 0 0 b) as [state codep].
  apply andb_true_iff in H as [H1 H2]. split; [lia|]. destruct (state =? 0); [lia|].
  apply orb_true_iff in H2 as [H2|H2]; [by left | right; lia].
Qed.

Lemma first_cases b : first b = 0 \/ first b = UTF8_REJECT \/ (In (first b) inside /\ 0x80 <= b).
Proof.
  unfold first, between. repeat case_if; cbn; lia.
Qed.

Lemma decode_accept codep b : decode 0 codep b = decode 0 0 b.
Proof. reflexivity. Qed.

Lemma high_copied codep b : 0x80 <= codep -> escaped codep b = [b].
Proof. intros H. unfold escaped. by repeat rewrite (proj2 (Z.eqb_neq codep _)) by lia; rewrite (proj2 (Z.leb_gt _ _)) by lia. Qed.

Lemma inside_high state b : takes state b = true -> 0x80 <= b.
Proof. unfold takes, utf8_tail, between. repeat case_if; lia. Qed.

Lemma dump_loop_spec s : forall state codep, state = 0 \/ (In state inside /\ codep_ok state codep = true) ->
  dump_escaped_loop s state codep = if utf8_rest state s then Some (flat_map json_escape s) else None.
Proof.
  induction s as [|b s IH]; intros state codep Hst; cbn [dump_escaped_loop flat_map].
  { destruct Hst as [-> | [Hs _]]; [done|]. cbn [inside In] in Hs. by destruct_or! Hs; subst. }
  destruct Hst as [-> | [Hs Hc]].
  - rewrite decode_accept, rest_first. pose proof (first_step b) as H. destruct (decode 0 0 b) as [state' codep'].
    destruct H as [-> H]. unfold UTF8_ACCEPT. destruct (first_cases b) as [E | [E | [E Hhigh]]].
    + rewrite E in *. cbn in H |- *. subst codep'. rewrite (IH 0) by auto. cbn. by destruct (utf8 s).
    + by rewrite E.
    + assert (first b =? 0 = false) as E0 by (cbn [inside In] in E; lia).
      assert (first b =? UTF8_REJECT = false) as E1 by (unfold UTF8_REJECT; cbn [inside In] in E; lia).
      rewrite E0, E1 in *. rewrite (IH (first b)) by (right; destruct H; [auto | lia]).
      unfold json_escape at 2. rewrite high_copied by done. by destruct (utf8_rest _ s).
  - rewrite rest_inside by done. pose proof (next_inside state b Hs) as Hn. pose proof (codep_inside state codep b Hs Hc) as Hi.
    pose proof (decode_state state codep b) as Hd. destruct (decode state codep b) as [state' codep']. cbn [fst snd] in *. subst state'.
    rewrite Hn. destruct (takes state b) eqn:Ht; cbn [andb]; [|done]. specialize (Hi eq_refl). apply inside_high in Ht.
    unfold UTF8_ACCEPT, json_escape at 1. rewrite (high_copied b) by done.
    destruct (leads state =? 0) eqn:E.
    + rewrite high_copied by done. apply Z.eqb_eq in E. rewrite E, (IH 0) by auto. cbn. by destruct (utf8 s).
    + assert (In (leads state) inside) as Hl by (cbn [inside In] in Hs; destruct_or! Hs; subst; cbn; auto; discriminate).
      assert (leads state =? UTF8_REJECT = false) as -> by (unfold UTF8_REJECT; cbn [inside In] in Hl; lia).
      rewrite (IH (leads state)) by auto. by destruct (utf8_rest _ s).
Qed.

(** A string is dumped exactly when it is UTF-8, and then with its quotes,
    backslashes and control characters escaped. *)
Lemma dump_escaped_spec s : dump_escaped s = if utf8 s then Some (flat_map json_escape s) else None.
Proof. unfold dump_escaped. by rewrite dump_loop_spec by auto. Qed.

(** [std::cout << std::setw(2) << result], the value [result] given by what its
    keys hold and by the strings in it; the keys of the reports are ASCII. *)
Definition print_json {A} (strings : list (list Z)) (result : A) : option A :=
  _ ← mapM dump_escaped strings; Some result.

Lemma print_json_spec {A} strings (result : A) :
  print_json strings result = if forallb utf8 strings then Some result else None.
Proof.
  unfold print_json. induction strings as [|s strings IH]; [done|]. cbn [mapM forallb].
  rewrite dump_escaped_spec. destruct (utf8 s); [|done]. cbn [mbind option_bind andb]. rewrite <- IH.
  by destruct (mapM dump_escaped strings).
Qed.

(** ** Printed paths ([io.hpp]) *)

(** [path_prefix.size() + (path_prefix.back() != '/')]; [back] of an empty string
    is undefined. *)
Definition prefix_len (path_prefix : list Z) : option nat :=
  match last path_prefix with
  | None => None
  | Some c => Some (length path_prefix + (if (c =? 0x2F)%Z then 0 else 1))%nat
  end.

(** [s.substr(pos)] *)
Definition substr (s : list Z) (pos : nat) : option (list Z) :=
  if (length s <? pos)%nat then None else Some (drop pos s).

Definition lang_ru : list Z := [0x72; 0x75].
Definition lang_en : list Z := [0x65; 0x6E].

(** An element of the printed array: its code and, when there is one, the array
    under ["articles"]. *)
Record lang_entry := mk_lang_entry { lang_code : list Z; lang_articles : option (list (list Z)) }.

(** [lang2json[lang]["articles"].emplace_back(path)] *)
Definition entry_add (e : lang_entry) (path : list Z) : lang_entry :=
  mk_lang_entry (lang_code e) (Some (default [] (lang_articles e) ++ [path])).

Fixpoint dump_language_loop (n : nat) (docs : list (list Z * list Z)) (ru en : lang_entry)
    : option (lang_entry * lang_entry) :=
  match docs with
  | [] => Some (ru, en)
  | (lang, path) :: rest =>
      if bool_decide (lang = lang_ru) then
        p ← substr path n;
        dump_language_loop n rest (entry_add ru p) en
      else if bool_decide (lang = lang_en) then
        p ← substr path n;
        dump_language_loop n rest ru (entry_add en p)
      else dump_language_loop n rest ru en
  end.

(** The documents are their language and their path. *)
Definition DumpLanguage (docs : list (list Z * list Z)) (path_prefix : list Z)
    : option (lang_entry * lang_entry) :=
  n ← prefix_len path_prefix;
  '(ru, en) ← dump_language_loop n docs (mk_lang_entry lang_ru None) (mk_lang_entry lang_en None);
  print_json (lang_code ru :: default [] (lang_articles ru) ++ lang_code en :: default [] (lang_articles en)) (ru, en).

(** The folder with its final slash. *)
Definition with_slash (path_prefix : list Z) : list Z :=
  match last path_prefix with
  | Some c => if c =? 0x2F then path_prefix else path_prefix ++ [0x2F]
  | None => path_prefix
  end.

Lemma prefix_len_slash p : p <> [] -> prefix_len p = Some (length (with_slash p)).
Proof.
  intros Hp. unfold prefix_len, with_slash. destruct (last p) as [c|] eqn:Hl.
  - case_if; [by rewrite Nat.add_0_r | by rewrite length_app].
  - by apply last_None in Hl.
Qed.

Lemma substr_app a b : substr (a ++ b) (length a) = Some b.
Proof.
  unfold substr. rewrite length_app, (proj2 (Nat.ltb_ge _ _)) by lia. by rewrite drop_app_length.
Qed.

(** The articles of a language; the key is missing when there is none. *)
Definition articles_of (l : list Z) (docs : list (list Z * list Z)) : option (list (list Z)) :=
  match filter (fun d => fst d = l) docs with
  | [] => None
  | ds => Some (map snd ds)
  end.

Definition more_articles (old : option (list (list Z))) (l : list Z) (docs : list (list Z * list Z)) :=
  match filter (fun d => fst d = l) docs with
  | [] => old
  | ds => Some (default [] old ++ map snd ds)
  end.

Lemma more_articles_cons old l d docs :
  more_articles old l (d :: docs) =
  if decide (fst d = l) then more_articles (Some (default [] old ++ [snd d])) l docs
  else more_articles old l docs.
Proof.
  unfold more_articles. rewrite filter_cons. destruct (decide (fst d = l)); [|done].
  destruct (filter _ docs); [done|]. cbn [map default from_option]. unfold id.
  by rewrite <- app_assoc.
Qed.

Lemma dump_language_loop_eq folder docs : forall ru en,
  dump_language_loop (length folder) (map (fun d => (fst d, folder ++ snd d)) docs) ru en =
  Some (mk_lang_entry (lang_code ru) (more_articles (lang_articles ru) lang_ru docs),
        mk_lang_entry (lang_code en) (more_articles (lang_articles en) lang_en docs)).
Proof.
  induction docs as [|[l p] docs IH]; intros ru en; cbn [map dump_language_loop fst snd].
  - by destruct ru, en.
  - rewrite !more_articles_cons. cbn [fst snd].
    destruct (decide (l = lang_ru)) as [->|Hru].
    + rewrite bool_decide_true by done. rewrite substr_app. cbn [mbind option_bind].
      rewrite IH. by rewrite (decide_False (P := lang_ru = lang_en)) by done.
    + rewrite bool_decide_false by done. destruct (decide (l = lang_en)) as [->|Hen].
      * rewrite bool_decide_true by done. rewrite substr_app. cbn [mbind option_bind]. by rewrite IH.
      * rewrite bool_decide_false by done. by rewrite IH.
Qed.

Lemma dump_language_eq path_prefix docs : path_prefix <> [] ->
  DumpLanguage (map (fun d => (fst d, with_slash path_prefix ++ snd d)) docs) path_prefix =
    (let articles l := default [] (articles_of l docs) in
     if forallb utf8 (articles lang_ru) && forallb utf8 (articles lang_en)
     then Some (mk_lang_entry lang_ru (articles_of lang_ru docs), mk_lang_entry lang_en (articles_of lang_en docs))
     else None).
Proof.
  intros Hp. unfold DumpLanguage. rewrite prefix_len_slash by done. cbn [mbind option_bind].
  rewrite dump_language_loop_eq. cbn [mbind option_bind lang_code lang_articles].
  rewrite print_json_spec. cbn [forallb]. rewrite forallb_app. done.
Qed.

(** The printed language report lists, for each of the two languages, the
    paths relative to the input folder of its documents, in their order, whether
    the folder was given with a final slash or not; a language without documents
    has no ["articles"] array at all.  If one of these paths is not UTF-8 nothing
    but an exception comes of it. *)
Theorem dump_language_spec path_prefix docs : path_prefix <> [] ->
  DumpLanguage (map (fun d => (fst d, with_slash path_prefix ++ snd d)) docs) path_prefix =
    (let articles l := default [] (articles_of l docs) in
     if forallb utf8 (articles lang_ru) && forallb utf8 (articles lang_en)
     then Some (mk_lang_entry lang_ru (articles_of lang_ru docs), mk_lang_entry lang_en (articles_of lang_en docs))
     else None).
Proof. apply dump_language_eq. Qed.

Lemma dump_language_spec_witness :
  DumpLanguage [(lang_en, [0x64; 0x2F; 0x61])] [0x64] =
    Some (mk_lang_entry lang_ru None, mk_lang_entry lang_en (Some [[0x61]])) /\
  DumpLanguage [(lang_en, [0x64; 0x2F; 0xE9])] [0x64] = None.
Proof.
  split; [apply (dump_language_spec [0x64] [(lang_en, [0x61])]) | apply (dump_language_spec [0x64] [(lang_en, [0xE9])])];
    discriminate.
Defined.

(** ** Features ([common.h], [features.hpp], [io.hpp]) *)

Definition BAR : Z := 0x7C.

(** [UpdateFeats]: the substrings it hands to [Update]; [cur] is the text from
    [begin] to [end]. *)
Fixpoint feats_loop (cur feats : list Z) : list (list Z) :=
  match feats with
  | [] => if bool_decide (cur = []) then [] else [cur]
  | c :: rest => if c =? BAR then cur :: feats_loop [] rest else feats_loop (cur ++ [c]) rest
  end.

Definition UpdateFeats_words (feats : list Z) : list (list Z) := feats_loop [] feats.

(** The words written one after the other with bars between them. *)
Fixpoint join_bar (words : list (list Z)) : list Z :=
  match words with
  | [] => []
  | [w] => w
  | w :: ws => w ++ [BAR] ++ join_bar ws
  end.

Definition last_bar (s : list Z) : list Z := if bool_decide (last s = Some BAR) then [BAR] else [].

Lemma feats_loop_nonempty l : forall cur, cur ++ l <> [] -> feats_loop cur l <> [].
Proof.
  induction l as [|c l IH]; intros cur Hne; cbn [feats_loop].
  - rewrite app_nil_r in Hne. by rewrite bool_decide_false.
  - destruct (c =? BAR); [done|]. apply IH. by destruct cur.
Qed.

Lemma last_bar_none l : ~ In BAR l -> last_bar l = [].
Proof.
  intros Hl. unfold last_bar. rewrite bool_decide_false; [done|]. intros H. apply Hl.
  rewrite last_lookup in H. by eapply list_elem_of_In, list_elem_of_lookup_2.
Qed.

Lemma feats_loop_spec feats : forall cur, ~ In BAR cur ->
  cur ++ feats = join_bar (feats_loop cur feats) ++ last_bar (cur ++ feats) /\
  Forall (fun w => ~ In BAR w) (feats_loop cur feats).
Proof.
  induction feats as [|c rest IH]; intros cur Hcur; cbn [feats_loop].
  - rewrite !app_nil_r, (last_bar_none _ Hcur), app_nil_r.
    destruct (decide (cur = [])) as [->|Hne]; [done|]. rewrite bool_decide_false by done.
    split; [done | by apply Forall_singleton].
  - destruct (Z.eqb_spec c BAR) as [->|Hc].
    + destruct (IH [] ltac:(intros [])) as [He Hf]. cbn [app] in He. split; [|by constructor].
      destruct rest as [|r rest']; [unfold last_bar; rewrite last_snoc, bool_decide_true by done; done|].
      assert (Hl : last_bar (cur ++ BAR :: r :: rest') = last_bar (r :: rest'))
        by (unfold last_bar; by rewrite last_app_cons).
      pose proof (feats_loop_nonempty (r :: rest') [] ltac:(done)) as Hne.
      rewrite Hl. destruct (feats_loop [] (r :: rest')) as [|w ws]; [done|].
      change (join_bar (cur :: w :: ws)) with (cur ++ [BAR] ++ join_bar (w :: ws)).
      rewrite <- !app_assoc. cbn [app]. by rewrite <- He.
    + change (cur ++ c :: rest) with (cur ++ [c] ++ rest). rewrite (app_assoc cur [c] rest).
      apply IH. intros [H|[H|[]]]%in_app_or; [done | congruence].
Qed.

(** A UDPipe feature string is cut at its bars: the words given to the bag
    hold no bar and, joined by bars, are the string again, up to one bar at its
    end, which starts no word. *)
Theorem feats_words_join feats :
  feats = join_bar (UpdateFeats_words feats) ++
    (if bool_decide (last feats = Some BAR) then [BAR] else []) /\
  Forall (fun w => ~ In BAR w) (UpdateFeats_words feats).
Proof. apply (feats_loop_spec feats []). intros []. Qed.

(** A [BOWDict] is a map from words to positions.
    [ReadFeaturesNames]: [emplace] keeps the first position of a word. *)
Fixpoint read_names_loop (pos : nat) (words : list (list Z)) (dict : gmap (list Z) nat) : gmap (list Z) nat :=
  match words with
  | [] => dict
  | w :: rest =>
      read_names_loop (S pos) rest
        (match dict !! w with Some _ => dict | None => <[w := pos]> dict end)
  end.

Definition ReadFeaturesNames (words : list (list Z)) : gmap (list Z) nat := read_names_loop 0 words ∅.

(** A [BOW]: its counters and its dictionary. *)
Record BOW := mk_bow { bag : list Z; bow_dict : gmap (list Z) nat }.

Definition BOW_make (dict : gmap (list Z) nat) : BOW := mk_bow (replicate (size dict) 0) dict.

(** [Update]; [bag_.at] throws out of range. *)
Definition BOW_Update (b : BOW) (word : list Z) : option BOW :=
  match bow_dict b !! word with
  | None => Some b
  | Some i =>
      v ← bag b !! i;
      Some (mk_bow (<[i := v + 1]> (bag b)) (bow_dict b))
  end.

Fixpoint BOW_Update_all (b : BOW) (words : list (list Z)) : option BOW :=
  match words with
  | [] => Some b
  | w :: rest => b ← BOW_Update b w; BOW_Update_all b rest
  end.

Definition BOW_Clear (b : BOW) : BOW := mk_bow (replicate (length (bag b)) 0) (bow_dict b).

Lemma read_names_loop_spec words : forall pos dict, NoDup words ->
  (forall w, w ∈ words -> dict !! w = None) ->
  size (read_names_loop pos words dict) = (size dict + length words)%nat /\
  forall w, read_names_loop pos words dict !! w =
    match dict !! w with
    | Some i => Some i
    | None => (fun i => pos + i)%nat <$> (fst <$> list_find (w =.) words)
    end.
Proof.
  induction words as [|x words IH]; intros pos dict Hnd Hd; cbn [read_names_loop].
  - split; [cbn; lia|]. intros w. cbn. by destruct (dict !! w).
  - apply NoDup_cons in Hnd as [Hx Hnd]. rewrite (Hd x) by apply list_elem_of_here.
    destruct (IH (S pos) (<[x := pos]> dict) Hnd) as [Hs Hl].
    { intros w Hw. rewrite lookup_insert_ne by (intros ->; done). by apply Hd, list_elem_of_further. }
    split.
    + rewrite Hs, map_size_insert_None by (apply Hd, list_elem_of_here). cbn. lia.
    + intros w. rewrite Hl. destruct (decide (w = x)) as [->|Hne].
      * rewrite lookup_insert_eq, (Hd x) by apply list_elem_of_here. cbn.
        rewrite decide_True by done. cbn. f_equal. lia.
      * rewrite lookup_insert_ne by done. destruct (dict !! w); [done|]. cbn.
        rewrite decide_False by done. destruct (list_find (w =.) words) as [[i y]|]; cbn; [|done].
        f_equal. lia.
Qed.

(** How often a word occurs. *)
Definition occurrences (w : list Z) (words : list (list Z)) : nat := length (filter (w =.) words).

Lemma names_lookup names w i : NoDup names -> ReadFeaturesNames names !! w = Some i <-> names !! i = Some w.
Proof.
  intros Hnd. unfold ReadFeaturesNames.
  destruct (read_names_loop_spec names 0 ∅ Hnd) as [_ Hl]; [intros; apply lookup_empty|].
  rewrite Hl, lookup_empty. split.
  - destruct (list_find (w =.) names) as [[j y]|] eqn:Hf; cbn; [|done]. intros [= <-].
    apply list_find_Some in Hf as (Hy & -> & _). done.
  - intros Hi. destruct (list_find (w =.) names) as [[j y]|] eqn:Hf; cbn.
    + apply list_find_Some in Hf as (Hy & -> & _). f_equal. by eapply NoDup_lookup.
    + exfalso. apply list_find_None in Hf. by eapply (Forall_lookup_1 _ _ _ _ Hf Hi).
Qed.

Lemma names_size names : NoDup names -> size (ReadFeaturesNames names) = length names.
Proof.
  intros Hnd. destruct (read_names_loop_spec names 0 ∅ Hnd) as [Hs _]; [intros; apply lookup_empty|].
  unfold ReadFeaturesNames. rewrite Hs, map_size_empty. done.
Qed.

Lemma update_all_spec names words : NoDup names -> forall b,
  bow_dict b = ReadFeaturesNames names -> length (bag b) = length names ->
  exists b', BOW_Update_all b words = Some b' /\ bow_dict b' = ReadFeaturesNames names /\
    length (bag b') = length names /\
    forall i n, names !! i = Some n -> exists v, bag b !! i = Some v /\
      bag b' !! i = Some (v + Z.of_nat (occurrences n words)).
Proof.
  intros Hnd. induction words as [|w words IH]; intros b Hb Hl; cbn [BOW_Update_all].
  - exists b. split; [done|]. split; [done|]. split; [done|]. intros i n Hi.
    apply lookup_lt_Some in Hi. rewrite <- Hl in Hi. apply lookup_lt_is_Some in Hi as [v Hv].
    exists v. split; [done|]. rewrite Hv. cbn. f_equal. lia.
  - unfold BOW_Update. rewrite Hb. destruct (ReadFeaturesNames names !! w) as [j|] eqn:Hj.
    + apply names_lookup in Hj; [|done]. pose proof Hj as Hjl. apply lookup_lt_Some in Hjl.
      rewrite <- Hl in Hjl. apply lookup_lt_is_Some in Hjl as [v0 Hv0]. rewrite Hv0.
      cbn [mbind option_bind].
      destruct (IH (mk_bow (<[j := v0 + 1]> (bag b)) (ReadFeaturesNames names))) as (b' & Hu & Hd & Hl' & Hc);
        [done | cbn; by rewrite length_insert |].
      exists b'. split; [done|]. split; [done|]. split; [done|]. intros i n Hi.
      destruct (Hc i n Hi) as (v & Hv & Hv'). cbn in Hv. unfold occurrences in *. rewrite filter_cons.
      destruct (decide (i = j)) as [->|Hne].
      * assert (n = w) as -> by congruence.
        rewrite list_lookup_insert_eq in Hv by (by eapply lookup_lt_Some).
        exists v0. split; [done|]. rewrite Hv'. rewrite decide_True by done. cbn [length]. f_equal.
        injection Hv as <-. lia.
      * rewrite list_lookup_insert_ne in Hv by done. exists v. split; [done|]. rewrite Hv'.
        rewrite decide_False; [done|]. intros ->. apply Hne. by eapply NoDup_lookup.
    + cbn [mbind option_bind]. destruct (IH b Hb Hl) as (b' & Hu & Hd & Hl' & Hc).
      exists b'. split; [done|]. split; [done|]. split; [done|]. intros i n Hi.
      destruct (Hc i n Hi) as (v & Hv & Hv'). exists v. split; [done|]. rewrite Hv'.
      unfold occurrences. rewrite filter_cons, decide_False; [done|]. intros ->.
      apply (names_lookup names w i Hnd) in Hi. congruence.
Qed.

(** A bag of words over a list of distinct names counts them: updating it
    with any words never throws, and its [i]-th counter is how often the [i]-th
    name occurs among the words. *)
Theorem bow_counts names words : NoDup names ->
  exists b, BOW_Update_all (BOW_make (ReadFeaturesNames names)) words = Some b /\
    length (bag b) = length names /\
    forall i n, names !! i = Some n -> bag b !! i = Some (Z.of_nat (occurrences n words)).
Proof.
  intros Hnd. destruct (update_all_spec names words Hnd (BOW_make (ReadFeaturesNames names)))
    as (b & Hu & _ & Hl & Hc); [done | cbn; by rewrite length_replicate, names_size |].
  exists b. split; [done|]. split; [done|]. intros i n Hi. destruct (Hc i n Hi) as (v & Hv & ->).
  cbn in Hv. apply lookup_replicate in Hv as [-> _]. by rewrite Z.add_0_l.
Qed.

Lemma bow_counts_witness : NoDup [[1]; [2]] /\ exists b,
  BOW_Update_all (BOW_make (ReadFeaturesNames [[1]; [2]])) [[2]; [3]; [2]] = Some b /\
  bag b !! 1%nat = Some 2.
Proof.
  assert (H : NoDup [[1]; [2]]) by (apply (bool_decide_unpack _); vm_compute; exact I).
  split; [exact H|]. destruct (bow_counts [[1]; [2]] [[2]; [3]; [2]] H) as (b & Hu & _ & Hc).
  exists b. split; [exact Hu|]. exact (Hc 1%nat [2] eq_refl).
Defined.
