(* ===== verification/AppLang.v ===== *)
(** * Documents and their languages: [html_parse.hpp], [langrec.hpp]

    An [HTMLDocument] as the rest of the program sees it, the recognition of
    languages by site lists and by CLD3, and what [RecognizeLanguage] leaves in
    the vector it selects from.  A document that is moved from is swapped with a
    default one.  CLD3 and [std::to_string] of its probability are parameters,
    and so are the lines of the site lists. *)
From Stdlib Require Import String.
From S2P Require Import Prelude.
From S2P Require Import Tag.
From S2P Require Import AppWorkers.
From S2P Require Import AppDocs.
From stdpp Require Import relations.

(** ** [HTMLDocument]: what is read of the file *)

Record HTMLDocument := mk_html {
  meta : gmap (list Z) (list Z);
  text : list Z;
  related_links : list (list Z)
}.

(** [HTMLDocument()] *)
Definition HTMLDocument_empty : HTMLDocument := mk_html ∅ [] [].

Definition GetMeta (d : HTMLDocument) (key : list Z) : list Z := default [] (meta d !! key).

Definition SetMeta (key value : list Z) (d : HTMLDocument) : HTMLDocument :=
  mk_html (<[key := value]> (meta d)) (text d) (related_links d).

(** [HTMLDocument(HTMLDocument&&)]: the new document and what is left of the
    old one. *)
Definition HTMLDocument_move (d : HTMLDocument) : HTMLDocument * HTMLDocument :=
  (d, HTMLDocument_empty).

Definition key_site : list Z := bytes "og:site_name".
Definition key_lang : list Z := bytes "lang".
Definition key_score : list Z := bytes "lang_score".

(** ** The site lists *)

(** [url2lang.emplace(url, lang)] for the lines of a list. *)
Fixpoint emplace_lines (lang : list Z) (urls : list (list Z)) (m : gmap (list Z) (list Z)) :=
  match urls with
  | [] => m
  | url :: rest =>
      emplace_lines lang rest (match m !! url with Some _ => m | None => <[url := lang]> m end)
  end.

Definition GetUrl2Lang (lines : list Z -> list (list Z)) : gmap (list Z) (list Z) :=
  fold_left (fun m lang => emplace_lines lang (lines lang) m) [lang_ru; lang_en; bytes "other"] ∅.

Lemma emplace_lines_lookup lang urls url : forall m,
  emplace_lines lang urls m !! url =
    match m !! url with Some l => Some l | None => if decide (url ∈ urls) then Some lang else None end.
Proof.
  induction urls as [|u urls IH]; intros m; cbn [emplace_lines].
  - destruct (m !! url); [done|]. by rewrite decide_False by apply not_elem_of_nil.
  - rewrite IH. destruct (decide (u = url)) as [->|Hne].
    + destruct (m !! url) eqn:E; [by rewrite E|]. rewrite lookup_insert_eq.
      by rewrite decide_True by apply list_elem_of_here.
    + assert (match m !! u with Some _ => m | None => <[u := lang]> m end !! url = m !! url) as ->
        by (destruct (m !! u); [done | by rewrite lookup_insert_ne]).
      destruct (m !! url); [done|]. destruct (decide (url ∈ urls)) as [Hi|Hi].
      * by rewrite decide_True by (by apply list_elem_of_further).
      * rewrite decide_False; [done|]. rewrite elem_of_cons. by intros [->|?].
Qed.

Section Recognize.
Context {P : Type} (FindLanguage : list Z -> list Z * P) (to_string : P -> list Z).
Context (lines : list Z -> list (list Z)).

(** The body of the loop of [RecogTask]. *)
Definition RecogTask (site2lang : gmap (list Z) (list Z)) (use_lists : bool) (d : HTMLDocument)
    : HTMLDocument :=
  match site2lang !! GetMeta d key_site with
  | Some lang =>
      if use_lists then SetMeta key_score (bytes "1") (SetMeta key_lang lang d)
      else let '(lang, p) := FindLanguage (text d) in
           SetMeta key_score (to_string p) (SetMeta key_lang lang d)
  | None =>
      let '(lang, p) := FindLanguage (text d) in
      SetMeta key_score (to_string p) (SetMeta key_lang lang d)
  end.

Definition is_ru_or_en (d : HTMLDocument) : bool :=
  bool_decide (GetMeta d key_lang = lang_ru) || bool_decide (GetMeta d key_lang = lang_en).

(** [for (auto& doc : *documents) if (...) recognized.emplace_back(std::move(doc))]:
    the new vector and what the old one holds after it. *)
Fixpoint GetRuEnDocs (docs : list HTMLDocument) : list HTMLDocument * list HTMLDocument :=
  match docs with
  | [] => ([], [])
  | d :: rest =>
      let '(out, left_) := GetRuEnDocs rest in
      if is_ru_or_en d then
        let '(d, e) := HTMLDocument_move d in (d :: out, e :: left_)
      else (out, d :: left_)
  end.

(** The threads, here one after the other, and the selection. *)
Definition RecognizeLanguage (docs : list HTMLDocument) (use_lists : bool)
    : list HTMLDocument * list HTMLDocument :=
  GetRuEnDocs (map (RecogTask (GetUrl2Lang lines) use_lists) docs).

Lemma get_ru_en_docs_eq docs :
  GetRuEnDocs docs =
    (List.filter is_ru_or_en docs, map (fun d => if is_ru_or_en d then HTMLDocument_empty else d) docs).
Proof.
  induction docs as [|d docs IH]; [done|]. cbn [GetRuEnDocs List.filter map]. rewrite IH.
  by destruct (is_ru_or_en d).
Qed.

Lemma recog_task_lang site2lang use_lists d :
  GetMeta (RecogTask site2lang use_lists d) key_lang =
    match site2lang !! GetMeta d key_site with
    | Some lang => if use_lists then lang else fst (FindLanguage (text d))
    | None => fst (FindLanguage (text d))
    end.
Proof.
  assert (H : forall l s, GetMeta (SetMeta key_score s (SetMeta key_lang l d)) key_lang = l).
  { intros l s. unfold GetMeta, SetMeta. cbn [meta].
    rewrite lookup_insert_ne by discriminate. by rewrite lookup_insert_eq. }
  unfold RecogTask. destruct (site2lang !! _); destruct (FindLanguage _), use_lists; apply H.
Qed.

(** The language a site list or CLD3 gives a document. *)
Definition language_of (use_lists : bool) (d : HTMLDocument) : list Z :=
  let site := GetMeta d key_site in
  if use_lists then
    if decide (site ∈ lines lang_ru) then lang_ru
    else if decide (site ∈ lines lang_en) then lang_en
    else if decide (site ∈ lines (bytes "other")) then bytes "other"
    else fst (FindLanguage (text d))
  else fst (FindLanguage (text d)).

Lemma recog_language use_lists d :
  GetMeta (RecogTask (GetUrl2Lang lines) use_lists d) key_lang = language_of use_lists d.
Proof.
  rewrite recog_task_lang. unfold GetUrl2Lang, language_of. cbn [fold_left].
  rewrite !emplace_lines_lookup, lookup_empty.
  destruct use_lists; repeat case_decide; done.
Qed.

Lemma recog_path use_lists d key : key <> key_lang -> key <> key_score ->
  GetMeta (RecogTask (GetUrl2Lang lines) use_lists d) key = GetMeta d key.
Proof.
  intros H1 H2. assert (H : forall l s, GetMeta (SetMeta key_score s (SetMeta key_lang l d)) key = GetMeta d key).
  { intros l s. unfold GetMeta, SetMeta. cbn [meta]. by rewrite !lookup_insert_ne. }
  unfold RecogTask. destruct (_ !! _); destruct (FindLanguage _), use_lists; apply H.
Qed.

Lemma recog_text site2lang use_lists d : text (RecogTask site2lang use_lists d) = text d.
Proof. unfold RecogTask. destruct (_ !! _); destruct (FindLanguage _), use_lists; done. Qed.

Lemma recog_is_ru_or_en use_lists d :
  is_ru_or_en (RecogTask (GetUrl2Lang lines) use_lists d) =
    bool_decide (language_of use_lists d = lang_ru) || bool_decide (language_of use_lists d = lang_en).
Proof. unfold is_ru_or_en. by rewrite recog_language. Qed.

(** C37: language recognition.  Whatever the scheduling of its threads,
    [RecognizeLanguage] returns, in their order, the documents that are Russian
    or English, each marked with its language: that of the first site list its
    [og:site_name] is on (Russian, English, other), and CLD3's when it is on
    none.  The vector it was given keeps the other documents, and an empty
    document in the place of each returned one. *)
Theorem recognize_language_spec docs w :
  let task (_ : nat) := RecogTask (GetUrl2Lang lines) true in
  rtc (worker_step task) (started_workers docs) w -> joined w ->
  GetRuEnDocs (documents w) = RecognizeLanguage docs true /\
  Forall2 (fun d d' => GetMeta d' key_lang = language_of true d) docs (documents w) /\
  fst (RecognizeLanguage docs true) = List.filter is_ru_or_en (documents w) /\
  snd (RecognizeLanguage docs true) =
    map (fun d => if is_ru_or_en d then HTMLDocument_empty else d) (documents w).
Proof.
  intros task Hr Hj.
  assert (Hd : documents w = map (task 0%nat) docs).
  { rewrite (joined_documents task docs w Hr Hj). unfold task. apply imap_const. }
  rewrite Hd. split; [done|]. split.
  - apply Forall2_fmap_r, Forall_Forall2_diag, Forall_forall. intros d _. apply recog_language.
  - unfold RecognizeLanguage. by rewrite get_ru_en_docs_eq.
Qed.
End Recognize.

Definition example_lines (lang : list Z) : list (list Z) :=
  if decide (lang = lang_ru) then [bytes "lenta.ru"] else [].
Definition example_doc : HTMLDocument := mk_html {[key_site := bytes "lenta.ru"]} [] [].

Lemma recognize_language_spec_witness :
  fst (RecognizeLanguage (fun _ => (lang_en, tt)) (fun _ => []) example_lines [example_doc; HTMLDocument_empty] true) =
    [mk_html {[key_site := bytes "lenta.ru"; key_lang := lang_ru; key_score := bytes "1"]} [] [];
     mk_html {[key_lang := lang_en; key_score := []]} [] []].
Proof.
  pose (f := RecogTask (fun _ => (lang_en, tt)) (fun _ => []) (GetUrl2Lang example_lines) true).
  pose (w := mk_workers [(1, 1)%nat; (2, 2)%nat] [f example_doc; f HTMLDocument_empty]).
  assert (Hr : rtc (worker_step (fun _ => f)) (started_workers [example_doc; HTMLDocument_empty]) w).
  { eapply rtc_l; [apply (worker_next _ _ 0 0 1 example_doc); [reflexivity | lia | reflexivity]|].
    eapply rtc_l; [apply (worker_next _ _ 1 1 2 HTMLDocument_empty); [reflexivity | lia | reflexivity]|].
    apply rtc_refl. }
  assert (Hj : joined w) by (repeat constructor).
  destruct (recognize_language_spec (fun _ => (lang_en, tt)) (fun _ => []) example_lines
    [example_doc; HTMLDocument_empty] w Hr Hj) as (_ & _ & H & _).
  rewrite H. vm_compute. reflexivity.
Defined.
