(* ===== verification/AppHtml.v ===== *)
(** * Loading a document: [html_parse.hpp]

    What the program reads of a parsed page: the [meta] properties, the text of the
    paragraphs and the links.  Reading the file and the tree builder behind
    [lxb_html_document_parse] are parameters; what the program relies on of the
    latter is that the document it builds is a tree whose elements have attribute
    lists. *)
From Stdlib Require Import String.
From S2P Require Import Prelude.
From S2P Require Import Str.
From S2P Require Import Tag.
From S2P Require Import TagHeap.
From S2P Require Import TkzBase.
From S2P Require Import ParserChar.
From S2P Require Import DomNode.
From S2P Require Import DomTree.
From S2P Require Import DomLink.
From S2P Require Import DomWalk.
From S2P Require Import DomAttr.
From S2P Require Import DomAttrSpec.
From S2P Require Import DomQuery.
From S2P Require Import AppLang.

(** [lxb_html_document_parse]: the document and its node; [fresh_memory size] is
    what the buffer of a text holds before it is written. *)
Class HtmlParser := {
  parse : list Z -> dom * positive;
  fresh_memory : Z -> list Z
}.

Section Load.
Context `{HtmlParser}.

(** [LXBCollection]: the elements of that name below the document. *)
Definition LXBCollection (d : dom) (document : positive) (tag_name : list Z) : option (list positive) :=
  '(_, collection) ← lxb_dom_elements_by_tag_name d document [] tag_name; Some collection.

(** [std::string] of NULL and length 0 is empty. *)
Definition GetRawAttribute (d : dom) (node : positive) (attribute_name : list Z) : option (list Z) :=
  value ← lxb_dom_element_get_attribute d node attribute_name; Some (default [] value).

Fixpoint meta_loop (d : dom) (collection : list positive) (meta_ : gmap (list Z) (list Z))
    : option (gmap (list Z) (list Z)) :=
  match collection with
  | [] => Some meta_
  | element :: collection =>
      property ← GetRawAttribute d element (bytes "property");
      if (0 <? length property)%nat then
        content ← GetRawAttribute d element (bytes "content");
        meta_loop d collection (<[property := content]> meta_)
      else meta_loop d collection meta_
  end.

Definition ParseMeta (d : dom) (document : positive) (meta_ : gmap (list Z) (list Z)) : option (gmap (list Z) (list Z)) :=
  collection ← LXBCollection d document (bytes "meta"); meta_loop d collection meta_.

Fixpoint text_loop (d : dom) (collection : list positive) (text_ : list Z) : option (list Z) :=
  match collection with
  | [] => Some text_
  | element :: collection =>
      p_lxb_text ← lxb_dom_node_text_content fresh_memory (fun i => d_attrs d !! i ≫= at_value) (d_nodes d) element;
      text_loop d collection (text_ ++ default [] p_lxb_text)
  end.

Definition ParseText (d : dom) (document : positive) : option (list Z) :=
  collection ← LXBCollection d document (bytes "p"); text_loop d collection [].

Fixpoint links_loop (d : dom) (collection : list positive) (links : list (list Z)) : option (list (list Z)) :=
  match collection with
  | [] => Some links
  | element :: collection =>
      href ← GetRawAttribute d element (bytes "href");
      links_loop d collection (if (0 <? length href)%nat then links ++ [href] else links)
  end.

Definition ParseLinks (d : dom) (document : positive) (links : list (list Z)) : option (list (list Z)) :=
  collection ← LXBCollection d document (bytes "related");
  if (0 <? length collection)%nat then
    '(_, collection_a) ← lxb_dom_elements_by_tag_name d document [] (bytes "a");
    links_loop d collection_a links
  else Some links.

Definition ParseDocument (html : list Z) (doc : HTMLDocument) : option HTMLDocument :=
  let '(d, document) := parse html in
  meta_ ← ParseMeta d document (meta doc);
  text_ ← ParseText d document;
  links ← ParseLinks d document (related_links doc);
  Some (mk_html meta_ text_ links).

(** [HTMLDocument(const std::string&)]; [None] for a file that cannot be read is
    the exception of [new lxb_char_t[-1]]. *)
Definition HTMLDocument_load (ReadDocument : list Z -> option (list Z)) (file_path : list Z) : option HTMLDocument :=
  html ← ReadDocument file_path;
  doc ← ParseDocument html HTMLDocument_empty;
  Some (SetMeta (bytes "path") file_path doc).
End Load.

(** ** Subtrees in document order *)

Fixpoint tree_subtrees (t : tree) : list tree := match t with Node _ cs => t :: flat_map tree_subtrees cs end.
Definition subtrees (f : list tree) : list tree := flat_map tree_subtrees f.

Lemma subtrees_cons i cs f : subtrees (Node i cs :: f) = Node i cs :: subtrees cs ++ subtrees f.
Proof. done. Qed.

Lemma subtree_ids h p prev f next : forest_at h p prev f next -> map tree_id (subtrees f) = forest_ids f.
Proof.
  induction 1 as [|p prev i n cs f next Hn Hp Hpr Hne Hfi Hla Hcs IHcs Hf IHf]; [done|].
  rewrite subtrees_cons, forest_ids_cons. cbn [map tree_id]. by rewrite map_app, IHcs, IHf.
Qed.

Lemma subtree_laid h p prev f next : forest_at h p prev f next -> forall t, t ∈ subtrees f ->
  NoDup (forest_ids f) -> (exists p' prev' next', forest_at h p' prev' [t] next') /\ NoDup (tree_ids t).
Proof.
  induction 1 as [|p prev i n cs f next Hn Hp Hpr Hne Hfi Hla Hcs IHcs Hf IHf]; intros t Ht Hnd; [by apply elem_of_nil in Ht|].
  rewrite subtrees_cons in Ht. rewrite forest_ids_cons in Hnd. pose proof Hnd as Hnd0.
  apply NoDup_cons in Hnd as [Hi Hnd]. apply NoDup_app in Hnd as (Hnd1 & _ & Hnd2).
  apply elem_of_cons in Ht as [->|Ht]; [|apply elem_of_app in Ht as [Ht|Ht]; [by apply IHcs | by apply IHf]].
  split.
  - exists p, prev, (first_id f next). apply fa_cons with n; try done. constructor.
  - change (tree_ids (Node i cs)) with (i :: forest_ids cs). apply NoDup_cons. split; [set_solver | done].
Qed.

(** ** What is read of a page *)

(** What the program relies on of the parser: the document is a tree, its elements
    have the attribute lists [attrs_of], fresh memory has the size asked for. *)
Class HtmlParserOk `{HtmlParser} (html : list Z) := {
  page : list tree;
  attrs_of : positive -> list entry;
  page_laid : forest_at (d_nodes (fst (parse html))) None None [Node (snd (parse html)) page] None;
  page_distinct : NoDup (tree_ids (Node (snd (parse html)) page));
  page_attrs : forall i n, i ∈ forest_ids page -> d_nodes (fst (parse html)) !! i = Some n -> is_element n = true ->
    attributes (fst (parse html)) i (attrs_of i);
  fresh_size : forall size, 0 <= size -> str_len (fresh_memory size) = size
}.

Section Spec.
Context `{P : HtmlParser} (html : list Z) `{OK : !HtmlParserOk html}.
Let d : dom := fst (parse html).
Let root : positive := snd (parse html).

(** The elements of a name in document order, as trees. *)
Definition elements (name : string) : list tree :=
  List.filter (fun t => tag_matches (fst (parse html)) (bytes name) (tree_id t)) (subtrees page).

(** The value of an attribute, empty when it is missing or has none. *)
Definition value_of (name : string) (t : tree) : list Z :=
  default [] (x ← lookup_name (same_name (fst (parse html)) (tree_id t) (bytes name)) (attrs_of (tree_id t)); e_value x).

Definition read_meta (meta_ : gmap (list Z) (list Z)) (t : tree) : gmap (list Z) (list Z) :=
  match value_of "property" t with [] => meta_ | property => <[property := value_of "content" t]> meta_ end.

Lemma collection_elements name : bytes name <> [0x2A] -> memchr 0x3A (bytes name) = None ->
  lxb_dom_elements_by_tag_name d root [] (bytes name) = Some (LXB_STATUS_OK, map tree_id (elements name)).
Proof.
  intros Hs Hc. rewrite (by_tag_name_ok d None None root page None page_laid page_distinct) by done. cbn [app].
  f_equal. f_equal. unfold elements. pose proof page_laid as Hl. apply forest_cons_inv in Hl as (n & _ & _ & _ & _ & _ & _ & Hl & _).
  rewrite <- (subtree_ids _ _ _ _ _ Hl). fold d. induction (subtrees page) as [|t f IH]; [done|]. cbn [map List.filter].
  destruct (tag_matches d (bytes name) (tree_id t)); cbn [map]; by rewrite IH.
Qed.

Lemma collection_names name : name ∈ ["meta"; "p"; "related"; "a"]%string ->
  lxb_dom_elements_by_tag_name d root [] (bytes name) = Some (LXB_STATUS_OK, map tree_id (elements name)).
Proof.
  intros Hn. rewrite !elem_of_cons, elem_of_nil in Hn.
  destruct Hn as [-> | [-> | [-> | [-> | []]]]]; by apply collection_elements.
Qed.

(** An element found is laid out in the document and has its attributes. *)
Lemma element_found name t : t ∈ elements name ->
  (exists p prev next, forest_at (d_nodes d) p prev [t] next) /\ NoDup (tree_ids t) /\
  exists n, d_nodes d !! tree_id t = Some n /\ is_element n = true /\ attributes d (tree_id t) (attrs_of (tree_id t)).
Proof.
  intros Ht. apply list_elem_of_In, filter_In in Ht as [Ht Hm]. apply list_elem_of_In in Ht.
  pose proof page_laid as Hl. apply forest_cons_inv in Hl as (n & _ & _ & _ & _ & _ & _ & Hl & _).
  assert (Hnd : NoDup (forest_ids page)) by (pose proof page_distinct as Hnd; by apply NoDup_cons in Hnd as [_ ?]).
  destruct (subtree_laid _ _ _ _ _ Hl t Ht Hnd) as [Hlaid Hndt]. split; [done|]. split; [done|].
  unfold tag_matches in Hm. fold d in Hm. destruct (d_nodes d !! tree_id t) as [nt|] eqn:En; [|done]. exists nt.
  split; [done|]. rewrite !andb_true_iff in Hm. destruct Hm as ((((Hel & _) & _) & _) & _). split; [done|].
  apply (page_attrs _ nt); try done. rewrite <- (subtree_ids _ _ _ _ _ Hl). by apply list_elem_of_fmap_2.
Qed.

Lemma raw_attribute name attr t : t ∈ elements name ->
  GetRawAttribute d (tree_id t) (bytes attr) = Some (value_of attr t).
Proof.
  intros (_ & _ & n & _ & _ & Ha)%element_found. unfold GetRawAttribute. by rewrite (get_attribute_spec d _ _ _ Ha).
Qed.

Lemma meta_loop_ok ts : ts ⊆ elements "meta" -> forall meta_,
  meta_loop d (map tree_id ts) meta_ = Some (fold_left read_meta ts meta_).
Proof.
  induction ts as [|t ts IH]; intros Hts meta_; [done|]. cbn [map meta_loop fold_left]. unfold read_meta at 2.
  rewrite !(raw_attribute "meta") by set_solver. cbn [mbind option_bind].
  destruct (value_of "property" t); cbn [length Nat.ltb Nat.leb]; apply IH; set_solver.
Qed.

Lemma text_loop_ok ts : ts ⊆ elements "p" -> forall out,
  text_loop d (map tree_id ts) out = Some (out ++ flat_map (tree_text (d_nodes d)) ts).
Proof.
  induction ts as [|t ts IH]; intros Hts out; cbn [map text_loop flat_map]; [by rewrite app_nil_r|].
  destruct (element_found "p" t) as ((p & prev & next & Hl) & Hnd & n & Hn & Hel & _); [set_solver|].
  destruct t as [i cs]. cbn [tree_id] in *.
  rewrite (text_content_ok _ _ (d_nodes d) p prev i cs next n); [|done|done|done|left; by apply Z.eqb_eq|apply fresh_size].
  cbn [mbind option_bind default]. rewrite IH by set_solver. by rewrite <- app_assoc.
Qed.

Lemma links_loop_ok ts : ts ⊆ elements "a" -> forall links,
  links_loop d (map tree_id ts) links =
    Some (links ++ List.filter (fun href => (0 <? length href)%nat) (map (value_of "href") ts)).
Proof.
  induction ts as [|t ts IH]; intros Hts links; cbn [map links_loop List.filter]; [by rewrite app_nil_r|].
  rewrite (raw_attribute "a") by set_solver. cbn [mbind option_bind]. rewrite IH by set_solver.
  destruct (0 <? length (value_of "href" t))%nat; [by rewrite <- app_assoc | done].
Qed.

(** C21: loading a page reads no bad pointer and gives a document whose text is that
    of the [p] elements in document order, concatenated; whose properties are the
    [content] of the [meta] elements that have a non-empty [property], a later one
    replacing an earlier one, and the path; and whose links are the non-empty
    [href]s of the [a] elements in document order if there is a [related] element,
    none otherwise. *)
Theorem load_spec ReadDocument file_path : ReadDocument file_path = Some html ->
  HTMLDocument_load ReadDocument file_path = Some (mk_html
    (<[bytes "path" := file_path]> (fold_left read_meta (elements "meta") ∅))
    (flat_map (tree_text (d_nodes (fst (parse html)))) (elements "p"))
    (match elements "related" with
     | [] => []
     | _ => List.filter (fun href => (0 <? length href)%nat) (map (value_of "href") (elements "a"))
     end)).
Proof.
  intros Hr. unfold HTMLDocument_load, ParseDocument. rewrite Hr. cbn [mbind option_bind].
  rewrite (surjective_pairing (parse html)). fold d root.
  unfold ParseMeta, ParseText, ParseLinks, LXBCollection. rewrite !collection_names by set_solver.
  cbn [mbind option_bind]. rewrite meta_loop_ok by done. cbn [mbind option_bind]. rewrite text_loop_ok by done.
  cbn [mbind option_bind app]. rewrite length_map. destruct (elements "related"); cbn [length Nat.ltb Nat.leb]; [done|].
  by rewrite links_loop_ok.
Qed.
End Spec.

(** ** A page with [meta 2], [p 3] around a text, [a 5] and [related 6] *)

Definition page_el (prev next child attr last_attr : option positive) (tag : Z) : dom_node :=
  mk_node next prev (Some 1%positive) child child LXB_NS_HTML tag LXB_DOM_NODE_TYPE_ELEMENT [] None attr last_attr None None.

Definition sample_page : dom := mk_dom
  (list_to_map [
    (1%positive, linked None None None (Some 2%positive) (Some 6%positive) LXB_DOM_NODE_TYPE_DOCUMENT []);
    (2%positive, page_el None (Some 3%positive) None (Some 11%positive) (Some 12%positive) LXB_TAG_META);
    (3%positive, page_el (Some 2%positive) (Some 5%positive) (Some 4%positive) None None LXB_TAG_P);
    (4%positive, linked (Some 3%positive) None None None None LXB_DOM_NODE_TYPE_TEXT (bytes "news"));
    (5%positive, page_el (Some 3%positive) (Some 6%positive) None (Some 13%positive) (Some 13%positive) LXB_TAG_A);
    (6%positive, page_el (Some 5%positive) None None None None LXB_TAG__LAST_ENTRY)])
  (list_to_map [
    (11%positive, example_attr "property" "og:site_name" (Some 12%positive) None);
    (12%positive, example_attr "content" "site" None (Some 11%positive));
    (13%positive, example_attr "href" "/next" None None)])
  (mk_owner true false (fst (lxb_tag_append (mk_tag_heap [] (lexbor_shbst_init 1)) (bytes "related")))).

Definition sample_attrs (i : positive) : list entry :=
  if bool_decide (i = 2%positive) then
    [mk_entry 11 (bytes "property") (Some (bytes "og:site_name")); mk_entry 12 (bytes "content") (Some (bytes "site"))]
  else if bool_decide (i = 5%positive) then [mk_entry 13 (bytes "href") (Some (bytes "/next"))]
  else [].

#[local] Instance sample_parser : HtmlParser :=
  { parse := fun _ => (sample_page, 1%positive); fresh_memory := fun size => replicate (Z.to_nat size) 0xFF }.

Lemma sample_attributes i n : i ∈ [2; 3; 4; 5; 6]%positive -> d_nodes sample_page !! i = Some n -> is_element n = true ->
  attributes sample_page i (sample_attrs i).
Proof.
  intros Hi Hn Hel. rewrite !elem_of_cons, elem_of_nil in Hi.
  destruct Hi as [-> | [-> | [-> | [-> | [-> | []]]]]]; vm_compute in Hn; injection Hn as <-; try discriminate Hel.
  all: split; [eexists; split; [reflexivity | by split]|]; split; [|split; apply (bool_decide_unpack _); vm_compute; exact I].
  all: cbn; repeat split; eexists; (split; [reflexivity | by repeat split]).
Qed.

#[local] Instance sample_ok : HtmlParserOk [].
Proof.
  refine (Build_HtmlParserOk _ [] [Node 2 []; Node 3 [Node 4 []]; Node 5 []; Node 6 []] sample_attrs _ _ _ _).
  - laid_out.
  - apply (bool_decide_unpack _). vm_compute. exact I.
  - exact sample_attributes.
  - intros size Hs. unfold str_len. cbn. rewrite length_replicate. lia.
Defined.

Lemma load_spec_witness : HTMLDocument_load (fun _ => Some []) (bytes "a.html") = Some (mk_html
  (<[bytes "path" := bytes "a.html"]> {[ bytes "og:site_name" := bytes "site" ]}) (bytes "news") [bytes "/next"]).
Proof.
  rewrite (load_spec [] (fun _ => Some []) (bytes "a.html") eq_refl). vm_compute. reflexivity.
Defined.
