(* ===== verification/AppFeatures.v ===== *)
(** * Features of a document: [common.h], [features.hpp]

    What [FeaturesGenerator] counts of the words UDPipe finds in the text and
    the title of a document.  Parameters: the sentences UDPipe reads and tags in
    a text ([Sentences], each without its root word), the two Boost regular
    expressions of [CleanText], and [boost::erase_all].  The counters of a bag
    are doubles and those of the lemmas floats in the code; they are integers
    here, exact below 2^53 and 2^24.  A call that throws is [None]. *)
From Stdlib Require Import String.
From S2P Require Import Prelude.
From S2P Require Import Tag.
From S2P Require Import AppDocs.
From S2P Require Import AppLang.

(** The fields of [udpipe::word] the code reads. *)
Record word := mk_word { upostag : list Z; lemma : list Z; feats : list Z }.

(** [DocFeatures]; the score kept for the debug output is left out. *)
Record DocFeatures := mk_doc {
  bows : gmap (list Z) BOW;
  lemmas : gmap (list Z) (gmap nat Z);
  title : list Z;
  doc_name : list Z;
  doc_lang : list Z;
  url : list Z;
  is_news : bool
}.

Definition title_upostags := bytes "title:upostags".
Definition title_feats := bytes "title:feats".
Definition text_upostags := bytes "text:upostags".
Definition text_feats := bytes "text:feats".
Definition class_text := bytes "text".
Definition class_title := bytes "title".

(** [DocFeatures()] *)
Definition DocFeatures_make : DocFeatures :=
  mk_doc ∅ (<[class_title := ∅]> (<[class_text := ∅]> ∅)) [] [] [] [] false.

Definition set_bow (name : list Z) (b : BOW) (f : DocFeatures) : DocFeatures :=
  mk_doc (<[name := b]> (bows f)) (lemmas f) (title f) (doc_name f) (doc_lang f) (url f) (is_news f).
Definition set_lemmas (v : gmap (list Z) (gmap nat Z)) (f : DocFeatures) : DocFeatures :=
  mk_doc (bows f) v (title f) (doc_name f) (doc_lang f) (url f) (is_news f).
Definition set_identity (name lang u t : list Z) (f : DocFeatures) : DocFeatures :=
  mk_doc (bows f) (lemmas f) t name lang u (is_news f).
Definition set_is_news (b : bool) (f : DocFeatures) : DocFeatures :=
  mk_doc (bows f) (lemmas f) (title f) (doc_name f) (doc_lang f) (url f) b.

(** [features.bows_.emplace(name, dict)] *)
Definition emplace_bow (name : list Z) (dict : gmap (list Z) nat) (f : DocFeatures) : DocFeatures :=
  match bows f !! name with Some _ => f | None => set_bow name (BOW_make dict) f end.

(** [bows_.at(name).Update(w)] for each of the words in turn. *)
Definition update_bow (name : list Z) (words : list (list Z)) (f : DocFeatures) : option DocFeatures :=
  b ← bows f !! name;
  b ← BOW_Update_all b words;
  Some (set_bow name b f).

Section Features.
Context (Sentences : list Z -> list Z -> list (list word)) (CleanText : list Z -> list Z).
Context (erase_colons : list Z -> list Z).
(** The dictionaries of the generator: [upostags_dict_], [feats_dict_],
    [lang2lemmas_dict_]. *)
Context (upostags_dict feats_dict : gmap (list Z) nat).
Context (lang2lemmas_dict : list Z -> list Z -> gmap (list Z) nat).

Definition UpdateFeats (features : DocFeatures) (fs feats_name : list Z) : option DocFeatures :=
  update_bow feats_name (UpdateFeats_words fs) features.

Definition UpdateLemma (features : DocFeatures) (l : list Z) (lemmas_dict : gmap (list Z) nat)
    (class_id : list Z) : DocFeatures :=
  match lemmas_dict !! erase_colons l with
  | None => features
  | Some i =>
      let counts := default ∅ (lemmas features !! class_id) in
      set_lemmas (<[class_id := <[i := default 0 (counts !! i) + 1]> counts]> (lemmas features)) features
  end.

Definition lemma_upostags : list (list Z) :=
  map bytes ["ADJ"; "INTJ"; "NOUN"; "PROPN"; "VERB"]%string.

(** The body of the loop over a sentence's words; [names] are the names of the
    two bags and the class of the lemmas. *)
Definition update_word (names : list Z * list Z * list Z) (lemmas_dict : gmap (list Z) nat)
    (features : DocFeatures) (w : word) : option DocFeatures :=
  let '(upos_name, feats_name, class_id) := names in
  features ← update_bow upos_name [upostag w] features;
  let features :=
    if bool_decide (upostag w ∈ lemma_upostags) then UpdateLemma features (lemma w) lemmas_dict class_id
    else features in
  UpdateFeats features (feats w) feats_name.

Fixpoint update_words names lemmas_dict (ws : list word) (features : DocFeatures) : option DocFeatures :=
  match ws with
  | [] => Some features
  | w :: rest => features ← update_word names lemmas_dict features w; update_words names lemmas_dict rest features
  end.

(** The loop over the sentences, at most [sentences_count] of them. *)
Fixpoint update_sentences (sentences_count : nat) names lemmas_dict (ss : list (list word))
    (features : DocFeatures) : option DocFeatures :=
  match sentences_count, ss with
  | S n, s :: rest =>
      features ← update_words names lemmas_dict s features;
      update_sentences n names lemmas_dict rest features
  | _, _ => Some features
  end.

Definition UpdateUDPipe (features : DocFeatures) (lang input_text : list Z)
    (names : list Z * list Z * list Z) (sentences_count : Z) : option DocFeatures :=
  update_sentences (Z.to_nat sentences_count) names (lang2lemmas_dict lang (snd names))
    (Sentences lang (CleanText input_text)) features.

(** [FeaturesGenerator::GenerateFeatures]; [readers_.at(lang)] throws for other
    languages. *)
Definition GenerateFeatures_doc (doc : HTMLDocument) (sentences_count : Z) : option DocFeatures :=
  let features := DocFeatures_make in
  let features := emplace_bow title_upostags upostags_dict features in
  let features := emplace_bow title_feats feats_dict features in
  let features := emplace_bow text_upostags upostags_dict features in
  let features := emplace_bow text_feats feats_dict features in
  let lang := GetMeta doc key_lang in
  if negb (is_ru_or_en doc) then None else
  let sentences_count := if sentences_count <? 0 then 1000000 else sentences_count in
  features ← UpdateUDPipe features lang (text doc) (text_upostags, text_feats, class_text) sentences_count;
  UpdateUDPipe features lang (GetMeta doc (bytes "og:title")) (title_upostags, title_feats, class_title)
    sentences_count.

(** The conversion from [size_t] to [int] at the call. *)
Definition int_of_size_t (n : Z) : Z := let m := n mod 2 ^ 32 in if m <? 2 ^ 31 then m else m - 2 ^ 32.

(** The body of the loop of [GenerateFeaturesTask]. *)
Definition GenerateFeaturesTask (doc : HTMLDocument) (total_sentences : Z) : option DocFeatures :=
  feature ← (if is_ru_or_en doc then GenerateFeatures_doc doc (int_of_size_t total_sentences)
             else Some DocFeatures_make);
  Some (set_identity (GetMeta doc (bytes "path")) (GetMeta doc key_lang) (GetMeta doc (bytes "og:url"))
          (GetMeta doc (bytes "og:title")) feature).

Definition GenerateFeatures (docs : list HTMLDocument) (total_sentences : Z) : option (list DocFeatures) :=
  mapM (fun d => GenerateFeaturesTask d total_sentences) docs.

(** ** What is counted *)

Definition upostags_of (ws : list word) : list (list Z) := map upostag ws.
Definition feats_of (ws : list word) : list (list Z) := concat (map (fun w => UpdateFeats_words (feats w)) ws).

Lemma update_all_app b l1 l2 :
  BOW_Update_all b (l1 ++ l2) = b ← BOW_Update_all b l1; BOW_Update_all b l2.
Proof.
  revert b. induction l1 as [|w l1 IH]; intros b; [done|]. cbn [BOW_Update_all app].
  destruct (BOW_Update b w); [apply IH | done].
Qed.

(** Fields the counting leaves alone. *)
Definition same_identity (f g : DocFeatures) : Prop :=
  title f = title g /\ doc_name f = doc_name g /\ doc_lang f = doc_lang g /\ url f = url g /\
  is_news f = is_news g.

Lemma same_identity_trans f g h : same_identity f g -> same_identity g h -> same_identity f h.
Proof. unfold same_identity. intros (?&?&?&?&?) (?&?&?&?&?). repeat split; congruence. Qed.

Lemma update_words_spec un fn cl ld ws : un <> fn -> forall f b1 b2 b1' b2',
  bows f !! un = Some b1 -> bows f !! fn = Some b2 ->
  BOW_Update_all b1 (upostags_of ws) = Some b1' -> BOW_Update_all b2 (feats_of ws) = Some b2' ->
  exists f', update_words (un, fn, cl) ld ws f = Some f' /\
    bows f' = <[un := b1']> (<[fn := b2']> (bows f)) /\ same_identity f f'.
Proof.
  intros Hne. induction ws as [|w ws IH]; intros f b1 b2 b1' b2' H1 H2 H3 H4.
  - cbn in H3, H4. injection H3 as <-. injection H4 as <-. exists f. split; [done|]. split; [|done].
    by rewrite (insert_id _ fn), insert_id.
  - cbn [upostags_of map BOW_Update_all] in H3. unfold feats_of in H4. cbn [map concat] in H4.
    rewrite update_all_app in H4.
    destruct (BOW_Update b1 (upostag w)) as [c1|] eqn:E1; [|done].
    destruct (BOW_Update_all b2 (UpdateFeats_words (feats w))) as [c2|] eqn:E2; [|done].
    cbn [mbind option_bind] in H3, H4. cbn [update_words]. unfold update_word, update_bow at 1.
    rewrite H1. cbn [mbind option_bind BOW_Update_all]. rewrite E1. cbn [mbind option_bind].
    set (g := if bool_decide _ then _ else _).
    assert (Hg : bows g = <[un := c1]> (bows f) /\ same_identity f g).
    { unfold g, UpdateLemma. destruct (bool_decide _); [destruct (ld !! _)|]; done. }
    destruct Hg as [Hg Hid]. unfold UpdateFeats, update_bow. rewrite Hg, lookup_insert_ne by done.
    rewrite H2. cbn [mbind option_bind]. rewrite E2. cbn [mbind option_bind].
    destruct (IH (set_bow fn c2 g) c1 c2 b1' b2') as (f' & Hf & Hb & Hi).
    + cbn [bows set_bow]. rewrite Hg, lookup_insert_ne by done. apply lookup_insert_eq.
    + cbn [bows set_bow]. apply lookup_insert_eq.
    + exact H3.
    + exact H4.
    + exists f'. split; [exact Hf|]. split.
      * rewrite Hb. cbn [bows set_bow]. rewrite Hg. rewrite insert_insert_eq.
        rewrite (insert_insert_ne _ fn un) by done. by rewrite insert_insert_eq.
      * by eapply same_identity_trans.
Qed.

Lemma update_sentences_words names ld ss : forall n f,
  update_sentences n names ld ss f = update_words names ld (concat (take n ss)) f.
Proof.
  assert (Happ : forall l1 l2 f, update_words names ld (l1 ++ l2) f =
    f ← update_words names ld l1 f; update_words names ld l2 f).
  { induction l1 as [|w l1 IH]; intros l2 f; [done|]. cbn [update_words app].
    destruct (update_word _ _ _ _); [apply IH | done]. }
  induction ss as [|s ss IH]; intros [|n] f; cbn [update_sentences take concat]; try done.
  rewrite Happ. destruct (update_words names ld s f); [apply IH | done].
Qed.

(** A bag over [names] that holds how often each of them is among [words]. *)
Definition counts (names words : list (list Z)) (b : BOW) : Prop :=
  bow_dict b = ReadFeaturesNames names /\ length (bag b) = length names /\
  forall i n, names !! i = Some n -> bag b !! i = Some (Z.of_nat (occurrences n words)).

Lemma counts_make names words : NoDup names ->
  exists b, BOW_Update_all (BOW_make (ReadFeaturesNames names)) words = Some b /\ counts names words b.
Proof.
  intros Hnd. destruct (update_all_spec names words Hnd (BOW_make (ReadFeaturesNames names)))
    as (b & Hu & Hd & Hl & Hc); [done | cbn; by rewrite length_replicate, names_size |].
  exists b. split; [done|]. split; [done|]. split; [done|]. intros i n Hi.
  destruct (Hc i n Hi) as (v & Hv & ->). cbn in Hv. apply lookup_replicate in Hv as [-> _].
  by rewrite Z.add_0_l.
Qed.

(** The words read of a text: those of its first million of sentences. *)
Definition words_of (lang input_text : list Z) : list word :=
  concat (take (Z.to_nat 1000000) (Sentences lang (CleanText input_text))).

Lemma update_udpipe_spec up fe un fn cl f lang input_text : NoDup up -> NoDup fe -> un <> fn ->
  bows f !! un = Some (BOW_make (ReadFeaturesNames up)) ->
  bows f !! fn = Some (BOW_make (ReadFeaturesNames fe)) ->
  exists f' b1 b2, UpdateUDPipe f lang input_text (un, fn, cl) 1000000 = Some f' /\
    same_identity f f' /\ bows f' = <[un := b1]> (<[fn := b2]> (bows f)) /\
    counts up (upostags_of (words_of lang input_text)) b1 /\
    counts fe (feats_of (words_of lang input_text)) b2.
Proof.
  intros Hu Hf Hne H1 H2.
  destruct (counts_make up (upostags_of (words_of lang input_text)) Hu) as (b1 & E1 & C1).
  destruct (counts_make fe (feats_of (words_of lang input_text)) Hf) as (b2 & E2 & C2).
  destruct (update_words_spec un fn cl (lang2lemmas_dict lang cl) (words_of lang input_text) Hne
    f _ _ _ _ H1 H2 E1 E2) as (f' & Hw & Hb & Hi).
  exists f', b1, b2. unfold UpdateUDPipe. rewrite update_sentences_words. done.
Qed.

Lemma generate_features_doc_spec up fe doc : NoDup up -> NoDup fe ->
  upostags_dict = ReadFeaturesNames up -> feats_dict = ReadFeaturesNames fe ->
  is_ru_or_en doc = true ->
  let ws := words_of (GetMeta doc key_lang) (text doc) in
  let ts := words_of (GetMeta doc key_lang) (GetMeta doc (bytes "og:title")) in
  exists f b1 b2 b3 b4, GenerateFeatures_doc doc (-1) = Some f /\ same_identity DocFeatures_make f /\
    bows f !! text_upostags = Some b1 /\ bows f !! text_feats = Some b2 /\
    bows f !! title_upostags = Some b3 /\ bows f !! title_feats = Some b4 /\
    counts up (upostags_of ws) b1 /\ counts fe (feats_of ws) b2 /\
    counts up (upostags_of ts) b3 /\ counts fe (feats_of ts) b4.
Proof.
  intros Hu Hf Hud Hfd Hlang ws ts. unfold GenerateFeatures_doc. rewrite Hlang. cbn [negb Z.ltb Z.compare].
  set (f0 := emplace_bow text_feats _ _).
  assert (Hb0 : forall n d, In (n, d) [(title_upostags, upostags_dict); (title_feats, feats_dict);
      (text_upostags, upostags_dict); (text_feats, feats_dict)] -> bows f0 !! n = Some (BOW_make d)).
  { intros n d [H|[H|[H|[H|[]]]]]; injection H as <- <-; reflexivity. }
  rewrite Hud, Hfd in Hb0.
  destruct (update_udpipe_spec up fe text_upostags text_feats class_text f0 (GetMeta doc key_lang) (text doc)
    Hu Hf) as (f1 & b1 & b2 & E1 & I1 & B1 & C1 & C2); [discriminate | apply Hb0; cbn; auto ..|].
  rewrite E1. cbn [mbind option_bind].
  destruct (update_udpipe_spec up fe title_upostags title_feats class_title f1 (GetMeta doc key_lang)
    (GetMeta doc (bytes "og:title")) Hu Hf) as (f2 & b3 & b4 & E2 & I2 & B2 & C3 & C4);
    [discriminate | rewrite B1, !lookup_insert_ne by discriminate; apply Hb0; cbn; auto ..|].
  exists f2, b1, b2, b3, b4. rewrite E2, B2, B1. split; [done|]. split.
  { eapply same_identity_trans; [|exact I2]. eapply same_identity_trans; [|exact I1]. done. }
  do 4 (split; [rewrite ?lookup_insert_ne by discriminate; apply lookup_insert_eq|]).
  exact (conj C1 (conj C2 (conj C3 C4))).
Qed.

(** C36: the features of a Russian or English document, as the program asks for
    them (for [-1] sentences, a [size_t] that comes back as an [int]): generating
    them never throws, the part-of-speech bags count the tags and the feature
    bags the feature words of the words UDPipe finds in the first million of
    sentences of the text, and of the title, whatever UDPipe answers; path,
    language, address and title are the document's. *)
Theorem generate_features_spec up fe doc :
  NoDup up -> NoDup fe ->
  upostags_dict = ReadFeaturesNames up -> feats_dict = ReadFeaturesNames fe ->
  is_ru_or_en doc = true ->
  let ws := words_of (GetMeta doc key_lang) (text doc) in
  let ts := words_of (GetMeta doc key_lang) (GetMeta doc (bytes "og:title")) in
  exists f b1 b2 b3 b4, GenerateFeaturesTask doc (2 ^ 64 - 1) = Some f /\
    (doc_name f, doc_lang f, url f, title f, is_news f) =
      (GetMeta doc (bytes "path"), GetMeta doc key_lang, GetMeta doc (bytes "og:url"),
       GetMeta doc (bytes "og:title"), false) /\
    bows f !! text_upostags = Some b1 /\ bows f !! text_feats = Some b2 /\
    bows f !! title_upostags = Some b3 /\ bows f !! title_feats = Some b4 /\
    counts up (upostags_of ws) b1 /\ counts fe (feats_of ws) b2 /\
    counts up (upostags_of ts) b3 /\ counts fe (feats_of ts) b4.
Proof.
  intros Hu Hf Hud Hfd Hlang ws ts.
  destruct (generate_features_doc_spec up fe doc Hu Hf Hud Hfd Hlang)
    as (f & b1 & b2 & b3 & b4 & Hg & (_ & _ & _ & _ & Hn) & Hb).
  unfold GenerateFeaturesTask. rewrite Hlang.
  change (int_of_size_t (2 ^ 64 - 1)) with (-1). rewrite Hg. cbn [mbind option_bind].
  eexists _, b1, b2, b3, b4. split; [reflexivity|]. cbn. split; [by rewrite <- Hn | exact Hb].
Qed.
End Features.

(** UDPipe instantiated by one noun with two features. *)
Definition example_sentences (lang txt : list Z) : list (list word) :=
  [[mk_word (bytes "NOUN") txt (bytes "Case=Nom|Number=Sing")]].

Definition ru_doc : HTMLDocument := SetMeta key_lang lang_ru HTMLDocument_empty.

Lemma generate_features_spec_witness : exists f b,
  GenerateFeaturesTask example_sentences (fun l => l) (fun l => l)
    (ReadFeaturesNames [bytes "VERB"; bytes "NOUN"]) (ReadFeaturesNames [bytes "Number=Sing"]) (fun _ _ => ∅)
    ru_doc (2 ^ 64 - 1) = Some f /\
  bows f !! text_upostags = Some b /\ bag b !! 1%nat = Some 1.
Proof.
  destruct (generate_features_spec example_sentences (fun l => l) (fun l => l)
    (ReadFeaturesNames [bytes "VERB"; bytes "NOUN"]) (ReadFeaturesNames [bytes "Number=Sing"]) (fun _ _ => ∅)
    [bytes "VERB"; bytes "NOUN"] [bytes "Number=Sing"] ru_doc)
    as (f & b1 & b2 & b3 & b4 & Hg & _ & Hb & _ & _ & _ & (_ & _ & Hc) & _).
  - apply (bool_decide_unpack _). vm_compute. exact I.
  - apply (bool_decide_unpack _). vm_compute. exact I.
  - reflexivity.
  - reflexivity.
  - reflexivity.
  - exists f, b1. split; [exact Hg|]. split; [exact Hb|]. rewrite (Hc 1%nat (bytes "NOUN") eq_refl).
    replace (words_of _ _ _ _) with [mk_word (bytes "NOUN") [] (bytes "Case=Nom|Number=Sing")].
    + vm_compute. reflexivity.
    + unfold words_of. change (example_sentences _ _)
        with [[mk_word (bytes "NOUN") [] (bytes "Case=Nom|Number=Sing")]].
      rewrite take_ge; [reflexivity|]. cbn [length]. lia.
Defined.
