(* ===== verification/AppNews.v ===== *)
(** * Detection of news: [news_det.hpp], [logreg.hpp]

    The address of a document decides first: with its scheme and host removed,
    does it hold [news] or [novosti]?  Otherwise a logistic regression over the
    normalised bag of the text's features decides.  The two regular expressions
    are the matchers they denote; floating-point numbers are IEEE doubles
    (Stdlib's [SpecFloat]), [std::exp] and the numbers of the weights file are
    parameters. *)
From Stdlib Require Import String SpecFloat.
From S2P Require Import Prelude.
From S2P Require Import Tag.
From S2P Require Import AppDocs.
From S2P Require Import AppLang.
From S2P Require Import AppFeatures.

(** ** The regular expressions *)

(** What follows the prefix [p] of [s]. *)
Fixpoint after_prefix (p s : list Z) : option (list Z) :=
  match p, s with
  | [], _ => Some s
  | a :: p', b :: s' => if a =? b then after_prefix p' s' else None
  | _, [] => None
  end.

(** What is left of [s] after the longest run of bytes in [p]. *)
Fixpoint drop_while (p : Z -> bool) (s : list Z) : list Z :=
  match s with
  | c :: s' => if p c then drop_while p s' else s
  | [] => []
  end.

(** [https*://[^/]*] at the beginning of [s]: what is left after the match.  A
    run of [s] is never given back, since [:] follows it. *)
Definition match_https (s : list Z) : option (list Z) :=
  r ← after_prefix (bytes "http") s;
  r ← after_prefix (bytes "://") (drop_while (fun c => c =? 0x73) r);
  Some (drop_while (fun c => negb (c =? 0x2F)) r).

(** [std::regex_replace(url, https, "")]: every match is removed, from the left.
    The fuel is the length of the text. *)
Fixpoint remove_https (fuel : nat) (s : list Z) : list Z :=
  match fuel, s with
  | S n, c :: s' =>
      match match_https s with
      | Some rest => remove_https n rest
      | None => c :: remove_https n s'
      end
  | _, _ => s
  end.

Definition url_without_host (u : list Z) : list Z := remove_https (List.length u) u.

(** [w] occurs in [s]. *)
Fixpoint contains (w s : list Z) : bool :=
  match after_prefix w s, s with
  | Some _, _ => true
  | None, [] => false
  | None, _ :: s' => contains w s'
  end.

(** [std::regex_search(url, news)] *)
Definition news_url (u : list Z) : bool := contains (bytes "news") u || contains (bytes "novosti") u.

(** ** Doubles *)

Definition double := spec_float.
Definition dadd : double -> double -> double := SFadd 53 1024.
Definition dsub : double -> double -> double := SFsub 53 1024.
Definition dmul : double -> double -> double := SFmul 53 1024.
Definition ddiv : double -> double -> double := SFdiv 53 1024.
Definition double_of_Z (n : Z) : double := binary_normalize 53 1024 n 0 false.
(** The double nearest to 0.3. *)
Definition d_0_3 : double := S754_finite false 5404319552844595 (-54).

(** [BOW::Normalize], [BOW::Get] on a copy. *)
Definition BOW_normalized (b : BOW) : list double :=
  let denumerator := fold_left (fun acc v => dadd acc (double_of_Z v)) (bag b) (double_of_Z 0) in
  if SFltb (double_of_Z 0) denumerator then map (fun v => ddiv (double_of_Z v) denumerator) (bag b)
  else map double_of_Z (bag b).

(** ** [LogisticRegression] *)

Record LogisticRegression := mk_logreg {
  weights : list double;
  bias : double;
  features_count : nat;
  mean : list double;
  std : list double
}.

(** The loop of the constructor: [None] when the file has more rows than it
    announces, which are written past the end of the vectors. *)
Fixpoint read_rows (pos : nat) (rows : list (double * double * double)) (m : LogisticRegression)
    : option LogisticRegression :=
  match rows with
  | [] => Some m
  | (w, mu, sd) :: rest =>
      if (pos <? features_count m)%nat then
        let w := if SFltb (double_of_Z 0) sd then ddiv w sd else w in
        read_rows (S pos) rest (mk_logreg (<[pos := w]> (weights m)) (bias m) (features_count m)
          (<[pos := mu]> (mean m)) (<[pos := sd]> (std m)))
      else None
  end.

(** The contents of a weights file: the number of features, the bias, a row per
    feature. *)
Definition LogisticRegression_read (count : nat) (b : double) (rows : list (double * double * double))
    : option LogisticRegression :=
  let zeros := replicate count (double_of_Z 0) in
  read_rows 0 rows (mk_logreg zeros b count zeros zeros).

Lemma read_rows_lengths rows : forall pos m m', read_rows pos rows m = Some m' ->
  List.length (weights m) = features_count m -> List.length (mean m) = features_count m ->
  features_count m' = features_count m /\ List.length (weights m') = features_count m /\
  List.length (mean m') = features_count m.
Proof.
  induction rows as [|[[w mu] sd] rows IH]; intros pos m m' Hr Hw Hm; cbn [read_rows] in Hr.
  - by injection Hr as <-.
  - destruct (pos <? features_count m)%nat; [|done].
    apply IH in Hr; cbn [weights mean features_count] in *; by rewrite ?length_insert.
Qed.

Lemma logreg_read_lengths count b rows m : LogisticRegression_read count b rows = Some m ->
  features_count m = count /\ List.length (weights m) = count /\ List.length (mean m) = count.
Proof. intros H. by apply read_rows_lengths in H; cbn; rewrite ?length_replicate. Qed.

Section Infer.
Context (exp : double -> double).

(** The sum of [Infer]; [None] when a vector is read past its end. *)
Fixpoint infer_sum (features mu w : list double) (n : nat) (acc : double) {struct n} : option double :=
  match n, features, mu, w with
  | O, _, _, _ => Some acc
  | S n', f :: features', m :: mu', v :: w' => infer_sum features' mu' w' n' (dadd acc (dmul (dsub f m) v))
  | _, _, _, _ => None
  end.

Definition Infer (m : LogisticRegression) (features : list double) : option double :=
  result ← infer_sum features (mean m) (weights m) (features_count m) (double_of_Z 0);
  Some (ddiv (double_of_Z 1) (dadd (double_of_Z 1) (exp (SFopp (dadd result (bias m)))))).

Lemma infer_sum_some n : forall features mu w acc, (n <= List.length features)%nat ->
  (n <= List.length mu)%nat -> (n <= List.length w)%nat -> is_Some (infer_sum features mu w n acc).
Proof.
  induction n as [|n IH]; intros [|f features] [|m mu] [|v w] acc; cbn; try lia; eauto; intros; apply IH; lia.
Qed.

(** ** [DetectNewsTask] *)

(** [GenerateNewsDetFeatures] *)
Definition GenerateNewsDetFeatures (d : DocFeatures) : option (list double) :=
  b ← bows d !! text_feats;
  Some (BOW_normalized b).

Definition score_is_news (m : LogisticRegression) (d : DocFeatures) : option DocFeatures :=
  x ← GenerateNewsDetFeatures d;
  score ← Infer m x;
  Some (set_is_news (SFltb d_0_3 score) d).

(** The body of the loop. *)
Definition DetectNewsTask (ru_model en_model : LogisticRegression) (d : DocFeatures) : option DocFeatures :=
  if news_url (url_without_host (url d)) then Some (set_is_news true d)
  else if bool_decide (doc_lang d = lang_ru) then score_is_news ru_model d
  else if bool_decide (doc_lang d = lang_en) then score_is_news en_model d
  else Some d.

(** The selection at the end: [news]. *)
Fixpoint select_news (docs : list DocFeatures) : list DocFeatures :=
  match docs with
  | [] => []
  | d :: rest => if is_news d then d :: select_news rest else select_news rest
  end.

Definition DetectNews (ru_model en_model : LogisticRegression) (docs : list DocFeatures)
    : option (list DocFeatures) :=
  docs ← mapM (DetectNewsTask ru_model en_model) docs;
  Some (select_news docs).
End Infer.

(** ** The removal of scheme and host *)

Lemma after_prefix_app p r : after_prefix p (p ++ r) = Some r.
Proof. induction p as [|a p IH]; [done|]. cbn. by rewrite Z.eqb_refl. Qed.

Lemma after_prefix_length p : forall s r, after_prefix p s = Some r ->
  List.length s = (List.length p + List.length r)%nat.
Proof.
  induction p as [|a p IH]; intros s r H; cbn in H; [by injection H as <-|].
  destruct s as [|b s]; [done|]. destruct (a =? b); [|done]. cbn. by rewrite (IH s r H).
Qed.

Lemma drop_while_length p s : (List.length (drop_while p s) <= List.length s)%nat.
Proof. induction s as [|c s IH]; cbn; [lia|]. destruct (p c); cbn; lia. Qed.

Lemma drop_while_app p l r : forallb p l = true ->
  match r with c :: _ => p c = false | [] => True end -> drop_while p (l ++ r) = r.
Proof.
  intros Hl Hr. induction l as [|c l IH]; cbn.
  - destruct r as [|c r]; [done|]. cbn. by rewrite Hr.
  - cbn in Hl. apply andb_true_iff in Hl as [-> Hl]. by apply IH.
Qed.

Lemma match_https_length s r : match_https s = Some r -> (List.length r < List.length s)%nat.
Proof.
  unfold match_https. destruct (after_prefix (bytes "http") s) as [r1|] eqn:E1; [|done].
  cbn [mbind option_bind]. destruct (after_prefix (bytes "://") _) as [r2|] eqn:E2; [|done].
  cbn [mbind option_bind]. intros [= <-]. apply after_prefix_length in E1, E2.
  pose proof (drop_while_length (fun c => c =? 0x73) r1).
  pose proof (drop_while_length (fun c => negb (c =? 0x2F)) r2). cbn in E1, E2. lia.
Qed.

Lemma match_https_contains s : contains (bytes "http") s = false -> match_https s = None.
Proof.
  unfold match_https. intros H. destruct (after_prefix (bytes "http") s) eqn:E; [|done].
  exfalso. destruct s; cbn [contains] in H; by rewrite E in H.
Qed.

Lemma contains_tail w c s : contains w (c :: s) = false -> contains w s = false.
Proof. cbn [contains]. by destruct (after_prefix w (c :: s)). Qed.

Lemma remove_https_none fuel s : contains (bytes "http") s = false -> remove_https fuel s = s.
Proof.
  revert s. induction fuel as [|n IH]; intros [|c s] H; try done. cbn [remove_https].
  rewrite (match_https_contains _ H). f_equal. apply IH. by eapply contains_tail.
Qed.

(** Enough fuel makes no difference. *)
Lemma remove_https_fuel n : forall s, (List.length s <= n)%nat -> remove_https n s = url_without_host s.
Proof.
  enough (H : forall k n s, (List.length s <= k)%nat -> (List.length s <= n)%nat ->
    remove_https n s = remove_https k s).
  { intros s Hs. by apply H. }
  induction k as [|k IH]; intros m s Hk Hm; [destruct s; [by destruct m | cbn in Hk; lia]|].
  destruct s as [|c s]; [by destruct m|]. destruct m as [|m]; [cbn in Hm; lia|]. cbn [remove_https].
  destruct (match_https (c :: s)) as [r|] eqn:E.
  - apply match_https_length in E. cbn in *. apply IH; lia.
  - f_equal. cbn in *. apply IH; lia.
Qed.

Lemma url_without_host_match s r : match_https s = Some r -> url_without_host s = url_without_host r.
Proof.
  intros H. pose proof (match_https_length s r H) as Hl. destruct s as [|c s]; [done|].
  unfold url_without_host at 1. cbn [List.length remove_https]. rewrite H.
  apply remove_https_fuel. cbn in Hl. lia.
Qed.

(** The host of a document's address never makes it news: of an address
    [http://host/path], with any number of [s] after [http], the search for
    [news] and [novosti] sees the path alone (the path holding no further
    [http]). *)
Theorem news_url_path n host path :
  ~ In 0x2F host -> match path with c :: _ => c = 0x2F | [] => True end ->
  contains (bytes "http") path = false ->
  let u := bytes "http" ++ replicate n 0x73 ++ bytes "://" ++ host ++ path in
  url_without_host u = path /\
  news_url (url_without_host u) = contains (bytes "news") path || contains (bytes "novosti") path.
Proof.
  intros Hh Hp Hc u. assert (Hu : url_without_host u = path).
  { rewrite (url_without_host_match u path).
    - by apply remove_https_none.
    - unfold u, match_https. rewrite after_prefix_app. cbn [mbind option_bind].
      rewrite drop_while_app; [| apply forallb_forall; intros x Hx; apply list_elem_of_In, elem_of_replicate in Hx as [-> _]; done | done].
      rewrite after_prefix_app. cbn [mbind option_bind]. f_equal. apply drop_while_app.
      + apply forallb_forall. intros x Hx. apply negb_true_iff, Z.eqb_neq. by intros ->.
      + by destruct path; subst. }
  by rewrite Hu.
Qed.

Lemma news_url_path_witness :
  news_url (url_without_host (bytes "https://news.ru/a")) = false /\
  news_url (url_without_host (bytes "https://a.ru/news")) = true.
Proof.
  split.
  - refine (eq_trans (proj2 (news_url_path 1 (bytes "news.ru") (bytes "/a") _ _ _)) _);
      [cbn; intuition discriminate | reflexivity ..].
  - refine (eq_trans (proj2 (news_url_path 1 (bytes "a.ru") (bytes "/news") _ _ _)) _);
      [cbn; intuition discriminate | reflexivity ..].
Defined.

(** ** The documents selected *)

Section Detect.
Context (exp : double -> double) (ru_model en_model : LogisticRegression).

(** The score of a document is over the threshold. *)
Definition over (m : LogisticRegression) (d : DocFeatures) : bool :=
  match x ← GenerateNewsDetFeatures d; Infer exp m x with
  | Some score => SFltb d_0_3 score
  | None => false
  end.

Definition verdict (d : DocFeatures) : bool :=
  if news_url (url_without_host (url d)) then true
  else if bool_decide (doc_lang d = lang_ru) then over ru_model d
  else if bool_decide (doc_lang d = lang_en) then over en_model d
  else false.

(** The document has a counter for every weight. *)
Definition scorable (d : DocFeatures) : Prop := is_news d = false /\
  exists b, bows d !! text_feats = Some b /\
    (features_count ru_model <= List.length (bag b))%nat /\ (features_count en_model <= List.length (bag b))%nat.

(** What the constructor leaves. *)
Definition model_ok (m : LogisticRegression) : Prop :=
  List.length (weights m) = features_count m /\ List.length (mean m) = features_count m.

Lemma length_normalized b : List.length (BOW_normalized b) = List.length (bag b).
Proof. unfold BOW_normalized. case_if; apply length_map. Qed.

Lemma score_is_news_over m d b : model_ok m -> bows d !! text_feats = Some b ->
  (features_count m <= List.length (bag b))%nat ->
  score_is_news exp m d = Some (set_is_news (over m d) d).
Proof.
  intros [Hw Hm] Hb Hle. unfold score_is_news, over, GenerateNewsDetFeatures. rewrite Hb.
  cbn [mbind option_bind]. unfold Infer.
  destruct (infer_sum_some (features_count m) (BOW_normalized b) (mean m) (weights m) (double_of_Z 0))
    as [r Hr]; [rewrite length_normalized; lia | lia | lia |].
  by rewrite Hr.
Qed.

Lemma detect_news_task_verdict d : model_ok ru_model -> model_ok en_model -> scorable d ->
  DetectNewsTask exp ru_model en_model d = Some (set_is_news (verdict d) d).
Proof.
  intros Hr He (Hn & b & Hb & Hrb & Heb). unfold DetectNewsTask, verdict.
  destruct (news_url _); [done|]. destruct (bool_decide (doc_lang d = lang_ru)).
  { by eapply score_is_news_over. }
  destruct (bool_decide (doc_lang d = lang_en)); [by eapply score_is_news_over|].
  f_equal. destruct d. cbn in *. by subst.
Qed.

Lemma select_news_verdict docs :
  select_news (map (fun d => set_is_news (verdict d) d) docs) =
    map (set_is_news true) (List.filter verdict docs).
Proof.
  induction docs as [|d docs IH]; [done|]. cbn [map select_news List.filter]. rewrite IH.
  change (is_news (set_is_news (verdict d) d)) with (verdict d). by destruct (verdict d) eqn:E; cbn.
Qed.

Lemma detect_news_eq docs : model_ok ru_model -> model_ok en_model -> Forall (scorable) docs ->
  DetectNews exp ru_model en_model docs = Some (map (set_is_news true) (List.filter verdict docs)).
Proof.
  intros Hr He Hs. unfold DetectNews.
  assert (mapM (DetectNewsTask exp ru_model en_model) docs =
    Some (map (fun d => set_is_news (verdict d) d) docs)) as ->.
  { induction Hs as [|d docs Hd _ IH]; [done|]. cbn [map mapM].
    rewrite (detect_news_task_verdict _ Hr He Hd). cbn [mbind option_bind]. by rewrite IH. }
  cbn [mbind option_bind]. by rewrite select_news_verdict.
Qed.
End Detect.

(** C38: [DetectNews] returns, in their order, the documents whose address says
    [news] or whose score under the model of their language is over 0.3, marked
    as news; it reads no feature or weight out of range when the bags are at
    least as long as the models read from the files. *)
Theorem detect_news_spec exp ru_file en_file ru_model en_model docs :
  LogisticRegression_read (fst (fst ru_file)) (snd (fst ru_file)) (snd ru_file) = Some ru_model ->
  LogisticRegression_read (fst (fst en_file)) (snd (fst en_file)) (snd en_file) = Some en_model ->
  Forall (scorable ru_model en_model) docs ->
  DetectNews exp ru_model en_model docs =
    Some (map (set_is_news true) (List.filter (verdict exp ru_model en_model) docs)).
Proof.
  intros Hr He Hs. apply logreg_read_lengths in Hr as (Hrc & Hrw & Hrm).
  apply logreg_read_lengths in He as (Hec & Hew & Hem). apply detect_news_eq; [split; congruence .. | done].
Qed.

Definition scored_doc (name : list Z) (n : Z) : DocFeatures :=
  set_identity name lang_ru [] [] (set_bow text_feats (mk_bow [n; 1] ∅) DocFeatures_make).

(** [std::exp] replaced by a step at 0. *)
Definition step_exp (x : double) : double := if SFltb x (double_of_Z 0) then double_of_Z 0 else double_of_Z 4.

Definition example_rows : list (double * double * double) :=
  [(double_of_Z 1, ddiv (double_of_Z 1) (double_of_Z 2), double_of_Z 1);
   (double_of_Z 0, double_of_Z 0, double_of_Z 0)].

Lemma detect_news_spec_witness : exists m,
  LogisticRegression_read 2 (double_of_Z 0) example_rows = Some m /\
  DetectNews step_exp m m [scored_doc [1] 0; scored_doc [2] 3] =
    Some [set_is_news true (scored_doc [2] 3)].
Proof.
  destruct (LogisticRegression_read 2 (double_of_Z 0) example_rows) as [m|] eqn:E; [|discriminate E].
  exists m. split; [reflexivity|].
  assert (Hm : features_count m = 2%nat) by (apply logreg_read_lengths in E; tauto).
  rewrite (detect_news_spec step_exp (2%nat, double_of_Z 0, example_rows) (2%nat, double_of_Z 0, example_rows)
    m m [scored_doc [1] 0; scored_doc [2] 3] E E).
  - vm_compute in E. injection E as <-. vm_compute. reflexivity.
  - repeat constructor; cbn; try reflexivity; eexists; (split; [reflexivity|]); cbn; rewrite Hm; lia.
Defined.
