(* ===== verification/AppGroups.v ===== *)
(** * Grouping of documents in tgnews

    By title ([news_threads.hpp]) and by language and topic
    ([news_categories.hpp]).  BigARTM's model is a parameter: what [Transform]
    answers for the documents of a language. *)
From S2P Require Import Prelude.
From S2P Require Import AppDocs.
From S2P Require Import AppLang.
From S2P Require Import AppFeatures.

(** ** [GetThreads] *)

Definition threads_step (threads : gmap (list Z) (list DocFeatures)) (d : DocFeatures) :=
  <[title d := [d]]> threads.

Definition GetThreads (docs : list DocFeatures) : gmap (list Z) (list DocFeatures) :=
  fold_left threads_step docs ∅.

Lemma threads_fold docs : forall threads t,
  fold_left threads_step docs threads !! t =
  match last (filter (fun d => title d = t) docs) with
  | Some d => Some [d]
  | None => threads !! t
  end.
Proof.
  induction docs as [|d docs IH]; intros threads t; cbn [fold_left]; [done|].
  rewrite IH, filter_cons. unfold threads_step. destruct (decide (title d = t)) as [<-|Hne].
  - destruct (filter _ docs) as [|d' l]; [by cbn; rewrite lookup_insert_eq|].
    rewrite (last_cons_cons d d' l). destruct (last (d' :: l)) eqn:E; [done|]. by apply last_None in E.
  - destruct (last _); [done|]. by rewrite lookup_insert_ne.
Qed.

(** A thread is a title and never holds more than one document: of the
    documents with the same title only the last one is kept, the earlier ones
    appear in no thread. *)
Theorem threads_keep_last docs t :
  GetThreads docs !! t =
    match last (filter (fun d => title d = t) docs) with
    | Some d => Some [d]
    | None => None
    end.
Proof. unfold GetThreads. by rewrite threads_fold, lookup_empty. Qed.

(** ** [GetCategories] *)

Section Categories.
(** Topic weights as the library's; [over w] is [w > 0.3]. *)
Context {W : Type} (over : W -> bool).
(** [model_->Transform]: the names of the topics and, for each document, their
    weights. *)
Context (Transform : list Z -> list DocFeatures -> list (list Z) * list (list W)).

Implicit Types (cats : gmap (list Z) (list DocFeatures)).

(** [cat2doc->at(topic).emplace_back(doc)] *)
Definition cat_add cats (topic : list Z) (d : DocFeatures) : option (gmap (list Z) (list DocFeatures)) :=
  l ← cats !! topic;
  Some (<[topic := l ++ [d]]> cats).

(** The inner loop, [cat_idx + 1 < num_topics]: the last topic is left out.
    [d] is [documents.at(doc_idx)], [None] past the end; so is the answer when a
    weight is missing. *)
Fixpoint add_topics (topics : list (list Z)) (weights : list W) (d : option DocFeatures) cats :=
  match topics with
  | [] | [_] => Some cats
  | topic :: rest =>
      match weights with
      | [] => None
      | w :: ws =>
          cats ← (if over w then d ← d; cat_add cats topic d else Some cats);
          add_topics rest ws d cats
      end
  end.

Fixpoint add_docs (topics : list (list Z)) (theta : list (list W)) (docs : list DocFeatures) cats :=
  match theta with
  | [] => Some cats
  | ws :: theta' =>
      cats ← add_topics topics ws (head docs) cats;
      add_docs topics theta' (tail docs) cats
  end.

Definition AddCategories (lang : list Z) (docs : list DocFeatures) cats :=
  let '(topics, theta) := Transform lang docs in
  add_docs topics theta docs cats.

Definition categories : list (list Z) :=
  [[83; 111; 99; 105; 101; 116; 121];                                   (* Society *)
   [69; 99; 111; 110; 111; 109; 121];                                   (* Economy *)
   [84; 101; 99; 104; 110; 111; 108; 111; 103; 121];                    (* Technology *)
   [69; 110; 116; 101; 114; 116; 97; 105; 110; 109; 101; 110; 116];     (* Entertainment *)
   [83; 99; 105; 101; 110; 99; 101];                                    (* Science *)
   [83; 112; 111; 114; 116; 115];                                       (* Sports *)
   [79; 116; 104; 101; 114]].                                           (* Other *)

(** [lang2docs[doc.lang_].emplace_back(doc)] *)
Definition by_lang_step (m : gmap (list Z) (list DocFeatures)) (d : DocFeatures) :=
  <[doc_lang d := default [] (m !! doc_lang d) ++ [d]]> m.

Definition by_lang (docs : list DocFeatures) : gmap (list Z) (list DocFeatures) :=
  fold_left by_lang_step docs ∅.

Definition empty_categories : gmap (list Z) (list DocFeatures) :=
  fold_left (fun m c => <[c := []]> m) categories ∅.

(** [None] is an [out_of_range] exception. *)
Definition GetCategories (docs : list DocFeatures) : option (gmap (list Z) (list DocFeatures)) :=
  let lang2docs := by_lang docs in
  ru ← lang2docs !! lang_ru;
  cats ← AddCategories lang_ru ru empty_categories;
  en ← lang2docs !! lang_en;
  AddCategories lang_en en cats.

Lemma by_lang_fold docs : forall m lang,
  fold_left by_lang_step docs m !! lang =
  match filter (fun d => doc_lang d = lang) docs with
  | [] => m !! lang
  | ds => Some (default [] (m !! lang) ++ ds)
  end.
Proof.
  induction docs as [|d docs IH]; intros m lang; cbn [fold_left]; [done|].
  rewrite IH, filter_cons. unfold by_lang_step. destruct (decide (doc_lang d = lang)) as [<-|Hne].
  - rewrite lookup_insert_eq. destruct (filter _ docs); [done|]. cbn [default from_option].
    unfold id. by rewrite <- app_assoc.
  - by rewrite lookup_insert_ne.
Qed.

Lemma by_lang_none docs lang : filter (fun d => doc_lang d = lang) docs = [] ->
  by_lang docs !! lang = None.
Proof. intros H. unfold by_lang. by rewrite by_lang_fold, H. Qed.

Lemma by_lang_some docs lang : filter (fun d => doc_lang d = lang) docs <> [] ->
  by_lang docs !! lang = Some (filter (fun d => doc_lang d = lang) docs).
Proof.
  intros H. unfold by_lang. rewrite by_lang_fold, lookup_empty. by destruct (filter _ docs).
Qed.

(** The topics of a document: over the threshold, the last one left out. *)
Fixpoint topics_over (topics : list (list Z)) (weights : list W) : list (list Z) :=
  match topics, weights with
  | [], _ | [_], _ | _, [] => []
  | topic :: rest, w :: ws => (if over w then [topic] else []) ++ topics_over rest ws
  end.

(** The documents of a category, among documents with their weights. *)
Fixpoint category_docs (cat : list Z) (topics : list (list Z)) (theta : list (list W))
    (docs : list DocFeatures) : list DocFeatures :=
  match theta, docs with
  | ws :: theta', d :: docs' =>
      replicate (length (filter (cat =.) (topics_over topics ws))) d ++
      category_docs cat topics theta' docs'
  | _, _ => []
  end.

(** The matrix has a row per document and a column per topic. *)
Definition theta_shape (topics : list (list Z)) (theta : list (list W)) (docs : list DocFeatures) : Prop :=
  length theta = length docs /\ Forall (fun ws => length ws = length topics) theta.

(** The topics of the model but the last are categories. *)
Definition topics_known (topics : list (list Z)) cats : Prop :=
  forall t, t ∈ removelast topics -> is_Some (cats !! t).

Lemma topics_known_keep topics cats cats' : topics_known topics cats ->
  (forall c, is_Some (cats !! c) -> is_Some (cats' !! c)) -> topics_known topics cats'.
Proof. intros H Hk t Ht. by apply Hk, H. Qed.

Lemma add_topics_spec topics : forall ws d cats, topics_known topics cats ->
  length ws = length topics ->
  exists cats', add_topics topics ws (Some d) cats = Some cats' /\
    forall c, cats' !! c =
      (fun l => l ++ replicate (length (filter (c =.) (topics_over topics ws))) d) <$> cats !! c.
Proof.
  assert (Hid : forall (cats : gmap (list Z) (list DocFeatures)) c d,
    cats !! c = (fun l => l ++ replicate 0 d) <$> cats !! c).
  { intros cats c d. destruct (cats !! c); cbn; by rewrite ?app_nil_r. }
  induction topics as [|t topics IH]; intros ws d cats Hk Hws; [exists cats; split; [done | intros; apply Hid]|].
  destruct topics as [|t2 topics]; [exists cats; split; [done | intros; apply Hid]|].
  destruct ws as [|w ws]; [done|]. apply (f_equal pred) in Hws. cbn [length pred] in Hws.
  cbn [add_topics topics_over].
  assert (Ht : is_Some (cats !! t)) by (apply Hk; apply list_elem_of_here).
  assert (Hk2 : topics_known (t2 :: topics) cats) by (intros x Hx; by apply Hk, list_elem_of_further).
  destruct (over w).
  - destruct Ht as [l Hl]. unfold cat_add. rewrite Hl. cbn [mbind option_bind].
    destruct (IH ws d (<[t := l ++ [d]]> cats)) as (cats' & Ha & Hc); [|exact Hws|].
    { eapply topics_known_keep; [exact Hk2|]. intros c Hc. apply lookup_insert_is_Some'. by right. }
    exists cats'. split; [done|]. intros c. rewrite Hc. cbn [app]. rewrite filter_cons.
    destruct (decide (c = t)) as [->|Hne].
    + rewrite lookup_insert_eq, Hl. cbn [fmap option_fmap option_map length replicate]. by rewrite <- app_assoc.
    + by rewrite lookup_insert_ne.
  - cbn [mbind option_bind app]. by apply IH.
Qed.

Lemma add_docs_spec topics theta : forall docs cats, topics_known topics cats ->
  theta_shape topics theta docs ->
  exists cats', add_docs topics theta docs cats = Some cats' /\
    forall c, cats' !! c = (fun l => l ++ category_docs c topics theta docs) <$> cats !! c.
Proof.
  induction theta as [|ws theta IH]; intros docs cats Hk [Hlen Hrow].
  { exists cats. split; [done|]. intros c. cbn. destruct (cats !! c); cbn; by rewrite ?app_nil_r. }
  destruct docs as [|d docs]; [done|]. apply Forall_cons in Hrow as [Hws Hrow].
  cbn [add_docs category_docs head tail].
  destruct (add_topics_spec topics ws d cats Hk Hws) as (c1 & -> & H1).
  cbn [mbind option_bind]. destruct (IH docs c1) as (c2 & -> & H2).
  { eapply topics_known_keep; [exact Hk|]. intros c [l Hl]. rewrite H1, Hl. eauto. }
  { split; [by injection Hlen | done]. }
  exists c2. split; [done|]. intros c. rewrite H2, H1. destruct (cats !! c); cbn; [|done].
  by rewrite <- app_assoc.
Qed.

Lemma empty_categories_lookup c : empty_categories !! c = if decide (c ∈ categories) then Some [] else None.
Proof.
  assert (H : forall l (m : gmap (list Z) (list DocFeatures)),
    fold_left (fun m c => <[c := []]> m) l m !! c = if decide (c ∈ l) then Some [] else m !! c).
  { induction l as [|x l IH]; intros m; cbn [fold_left]; [done|]. rewrite IH.
    destruct (decide (c ∈ l)); [rewrite decide_True by (by apply list_elem_of_further); done|].
    destruct (decide (c = x)) as [->|Hne].
    - by rewrite lookup_insert_eq, decide_True by apply list_elem_of_here.
    - rewrite lookup_insert_ne by done. rewrite decide_False; [done|]. rewrite elem_of_cons. by intros [?|?]. }
  apply H.
Qed.

(** C39: [GetCategories] gives every category the documents that the model puts
    over the threshold for it, the Russian ones first, each group in the order of
    the input; it throws as soon as there is no document of one of the two
    languages.  (The topics of a model but the last are categories, and its
    matrix has a row per document and a column per topic.) *)
Theorem get_categories_spec docs :
  (forall lang ds, topics_known (fst (Transform lang ds)) empty_categories /\
    theta_shape (fst (Transform lang ds)) (snd (Transform lang ds)) ds) ->
  let ru := filter (fun d => doc_lang d = lang_ru) docs in
  let en := filter (fun d => doc_lang d = lang_en) docs in
  let docs_of cat lang ds :=
    category_docs cat (fst (Transform lang ds)) (snd (Transform lang ds)) ds in
  (ru = [] \/ en = [] -> GetCategories docs = None) /\
  (ru <> [] -> en <> [] -> exists cats, GetCategories docs = Some cats /\
     forall cat, cats !! cat =
       if decide (cat ∈ categories) then Some (docs_of cat lang_ru ru ++ docs_of cat lang_en en)
       else None).
Proof.
  intros Hk ru en docs_of.
  assert (Hadd : forall lang ds cats, (forall c, is_Some (empty_categories !! c) -> is_Some (cats !! c)) ->
    exists cats', AddCategories lang ds cats = Some cats' /\
      forall c, cats' !! c = (fun l => l ++ docs_of c lang ds) <$> cats !! c).
  { intros lang ds cats Hc. unfold AddCategories, docs_of. pose proof (Hk lang ds) as [Hkk Hsh].
    destruct (Transform lang ds) as [topics theta]. apply add_docs_spec; [|exact Hsh].
    eapply topics_known_keep; [exact Hkk | exact Hc]. }
  destruct (Hadd lang_ru ru empty_categories) as (c1 & H1 & Hc1); [done|]. split.
  - intros Hno. unfold GetCategories. destruct (decide (ru = [])) as [Hr|Hr].
    + by rewrite (by_lang_none docs lang_ru Hr).
    + destruct Hno as [|He]; [done|]. rewrite (by_lang_some docs lang_ru Hr). cbn [mbind option_bind].
      fold ru. rewrite H1. cbn [mbind option_bind]. by rewrite (by_lang_none docs lang_en He).
  - intros Hr He. unfold GetCategories. rewrite (by_lang_some docs lang_ru Hr). cbn [mbind option_bind].
    fold ru. rewrite H1. cbn [mbind option_bind]. rewrite (by_lang_some docs lang_en He).
    cbn [mbind option_bind]. fold en.
    destruct (Hadd lang_en en c1) as (c2 & H2 & Hc2).
    { intros c [l Hl]. rewrite Hc1, Hl. eauto. }
    exists c2. split; [done|]. intros cat. rewrite Hc2, Hc1, empty_categories_lookup.
    by destruct (decide (cat ∈ categories)).
Qed.
End Categories.

Definition named_doc (lang : list Z) (name : Z) : DocFeatures :=
  set_identity [name] lang [] [] DocFeatures_make.

(** A model with two topics that puts every document into the first. *)
Definition example_transform (lang : list Z) (docs : list DocFeatures) : list (list Z) * list (list bool) :=
  ([[83; 112; 111; 114; 116; 115]; [0]], map (fun _ => [true; true]) docs).

Lemma get_categories_spec_witness :
  GetCategories (fun b => b) example_transform [named_doc lang_ru 1] = None /\
  exists cats,
    GetCategories (fun b => b) example_transform [named_doc lang_en 2; named_doc lang_ru 1]
      = Some cats /\
    cats !! [83; 112; 111; 114; 116; 115] =
      Some [named_doc lang_ru 1; named_doc lang_en 2].
Proof.
  assert (Hk : forall lang ds, topics_known (fst (example_transform lang ds)) empty_categories /\
    theta_shape (fst (example_transform lang ds)) (snd (example_transform lang ds)) ds).
  { intros lang ds. split; [|split; [apply length_map | apply Forall_map, Forall_forall; done]]. intros t Ht. cbn in Ht. apply list_elem_of_singleton in Ht as ->.
    rewrite empty_categories_lookup. rewrite decide_True; [by eexists|].
    apply (bool_decide_unpack _). vm_compute. exact I. }
  split.
  - apply (get_categories_spec (fun b => b) example_transform [named_doc lang_ru 1] Hk).
    right. reflexivity.
  - destruct (proj2 (get_categories_spec (fun b => b) example_transform
      [named_doc lang_en 2; named_doc lang_ru 1] Hk)) as (cats & Hg & Hc).
    + discriminate.
    + discriminate.
    + exists cats. split; [exact Hg|]. rewrite (Hc [83; 112; 111; 114; 116; 115]). vm_compute. reflexivity.
Defined.
