(* ===== verification/AppMain.v ===== *)
(** * The tasks of tgnews: [tgnews.cpp], the reports of [io.hpp]

    The pipelines of [main] over the documents read from the input folder, up
    to the printed JSON: [languages], [news], [threads], and the beginning that
    [news_test], [dump] and [features] share.  A report is what is printed
    under its keys; the order in which an [unordered_map] is printed is an
    argument. *)
From Stdlib Require Import String SpecFloat.
From S2P Require Import Prelude.
From S2P Require Import Tag.
From S2P Require Import AppDocs.
From S2P Require Import AppLang.
From S2P Require Import AppFeatures.
From S2P Require Import AppNews.
From S2P Require Import AppGroups.

(** ** Reports *)

(** The paths of documents, relative to the input folder. *)
Fixpoint relative_paths (n : nat) (docs : list DocFeatures) : option (list (list Z)) :=
  match docs with
  | [] => Some []
  | d :: rest => p ← substr (doc_name d) n; ps ← relative_paths n rest; Some (p :: ps)
  end.

Fixpoint dump_news_loop (n : nat) (docs : list DocFeatures) : option (list (list Z)) :=
  match docs with
  | [] => Some []
  | d :: rest =>
      if is_news d then p ← substr (doc_name d) n; ps ← dump_news_loop n rest; Some (p :: ps)
      else dump_news_loop n rest
  end.

(** The array under ["articles"]. *)
Definition DumpNewsDet (docs : list DocFeatures) (path_prefix : list Z) : option (list (list Z)) :=
  n ← prefix_len path_prefix;
  articles ← dump_news_loop n docs;
  print_json articles articles.

(** The elements printed, a title and its articles each; [entries] is the map in
    the order of its iteration. *)
Fixpoint dump_threads_loop (n : nat) (entries : list (list Z * list DocFeatures))
    : option (list (list Z * list (list Z))) :=
  match entries with
  | [] => Some []
  | (t, docs) :: rest =>
      paths ← relative_paths n docs;
      l ← dump_threads_loop n rest;
      Some ((t, paths) :: l)
  end.

Definition DumpNewsThreads (entries : list (list Z * list DocFeatures)) (path_prefix : list Z) :=
  n ← prefix_len path_prefix;
  threads ← dump_threads_loop n entries;
  print_json (flat_map (fun t => fst t :: snd t) threads) threads.

(** ** [main] *)

Section Main.
Context {P : Type} (FindLanguage : list Z -> list Z * P) (to_string : P -> list Z).
Context (lines : list Z -> list (list Z)).
Context (Sentences : list Z -> list Z -> list (list word)) (CleanText erase_colons : list Z -> list Z).
Context (upostags_dict feats_dict : gmap (list Z) nat).
Context (lang2lemmas_dict : list Z -> list Z -> gmap (list Z) nat).
Context (exp : double -> double) (ru_model en_model : LogisticRegression).

Definition features_of (docs : list HTMLDocument) (n : Z) : option (list DocFeatures) :=
  GenerateFeatures Sentences CleanText erase_colons upostags_dict feats_dict lang2lemmas_dict docs n.

Definition task_languages (docs : list HTMLDocument) (input_folder : list Z) :=
  let '(langs_ruen, _) := RecognizeLanguage FindLanguage to_string lines docs true in
  DumpLanguage (map (fun d => (GetMeta d key_lang, GetMeta d (bytes "path"))) langs_ruen) input_folder.

(** The beginning of the tasks [news], [categories], [threads] and [top]. *)
Definition detected_news (docs : list HTMLDocument) : option (list DocFeatures) :=
  let '(langs_ruen, _) := RecognizeLanguage FindLanguage to_string lines docs true in
  features ← features_of langs_ruen (2 ^ 64 - 1);
  DetectNews exp ru_model en_model features.

Definition task_news (docs : list HTMLDocument) (input_folder : list Z) : option (list (list Z)) :=
  news ← detected_news docs;
  DumpNewsDet news input_folder.

(** [order] lists the map of the threads. *)
Definition task_threads (order : gmap (list Z) (list DocFeatures) -> list (list Z * list DocFeatures))
    (docs : list HTMLDocument) (input_folder : list Z) :=
  news ← detected_news docs;
  DumpNewsThreads (order (GetThreads news)) input_folder.

(** The beginning of [news_test], [dump] and [features]: the vector
    [RecognizeLanguage] returns is dropped, and features are generated from
    [docs]. *)
Definition test_features (docs : list HTMLDocument) (n : Z) : option (list DocFeatures) :=
  let '(_, docs) := RecognizeLanguage FindLanguage to_string lines docs true in
  features_of docs n.

(** ** Properties *)

Definition recog : HTMLDocument -> HTMLDocument := RecogTask FindLanguage to_string (GetUrl2Lang lines) true.
Definition lang_of : HTMLDocument -> list Z := language_of FindLanguage lines true.

(** The document is taken for Russian or English. *)
Definition recognized (d : HTMLDocument) : bool :=
  bool_decide (lang_of d = lang_ru) || bool_decide (lang_of d = lang_en).

Lemma recognize_eq docs : RecognizeLanguage FindLanguage to_string lines docs true =
  (map recog (List.filter recognized docs),
   map (fun d => if recognized d then HTMLDocument_empty else recog d) docs).
Proof.
  unfold RecognizeLanguage. rewrite get_ru_en_docs_eq. f_equal.
  - induction docs as [|d docs IH]; [done|]. cbn [map List.filter].
    unfold recog at 1. rewrite recog_is_ru_or_en. fold lang_of (recognized d). destruct (recognized d); cbn [map]; by rewrite IH.
  - rewrite map_map. apply map_ext. intros d. unfold recog at 1. by rewrite recog_is_ru_or_en.
Qed.

(** The files lie in the input folder. *)
Definition in_folder (folder : list Z) (d : HTMLDocument) : Prop :=
  exists rel, GetMeta d (bytes "path") = with_slash folder ++ rel.

Definition relative (folder path : list Z) : list Z := drop (List.length (with_slash folder)) path.

(** The path printed for a document. *)
Definition printed (folder : list Z) (d : HTMLDocument) : list Z := relative folder (GetMeta d (bytes "path")).

Definition language_articles (folder : list Z) (docs : list HTMLDocument) (l : list Z) : option (list (list Z)) :=
  match List.filter (fun d => bool_decide (lang_of d = l)) docs with
  | [] => None
  | ds => Some (map (printed folder) ds)
  end.

Lemma recog_pairs folder docs : Forall (in_folder folder) docs ->
  map (fun d => (GetMeta d key_lang, GetMeta d (bytes "path"))) (map recog docs) =
  map (fun p => (fst p, with_slash folder ++ snd p)) (map (fun d => (lang_of d, printed folder d)) docs).
Proof.
  induction 1 as [|d docs [rel Hd] _ IH]; [done|]. cbn [map fst snd]. f_equal; [|exact IH].
  unfold printed, relative, recog. rewrite recog_language, recog_path by discriminate.
  by rewrite Hd, drop_app_length.
Qed.

Lemma recognized_articles folder docs l : l = lang_ru \/ l = lang_en ->
  articles_of l (map (fun d => (lang_of d, printed folder d)) (List.filter recognized docs)) =
  language_articles folder docs l.
Proof.
  intros Hl. unfold articles_of, language_articles.
  assert (H : map snd (filter (fun d => fst d = l) (map (fun d => (lang_of d, printed folder d))
      (List.filter recognized docs))) =
    map (printed folder) (List.filter (fun d => bool_decide (lang_of d = l)) docs)).
  { induction docs as [|d docs IH]; [done|]. cbn [List.filter].
    destruct (recognized d) eqn:E; cbn [map]; rewrite ?filter_cons; cbn [fst].
    - destruct (decide (lang_of d = l)) as [E2|E2];
        [rewrite bool_decide_true by done; cbn [map snd]; by rewrite IH | by rewrite bool_decide_false].
    - rewrite bool_decide_false; [exact IH|]. intros E2. unfold recognized in E.
      apply orb_false_iff in E as [E3%bool_decide_eq_false E4%bool_decide_eq_false].
      destruct Hl; congruence. }
  destruct (filter _ (map _ _)), (List.filter _ docs); cbn [map] in *; congruence.
Qed.

Lemma in_folder_filter folder p docs : Forall (in_folder folder) docs ->
  Forall (in_folder folder) (List.filter p docs).
Proof. intros H. rewrite Forall_forall in *. intros d Hd. apply H. apply list_elem_of_In, filter_In in Hd as [Hd _]. by apply list_elem_of_In. Qed.

(** The task [languages] prints, for documents in the input folder, under
    each of the two languages the relative paths of exactly the documents the
    site lists or CLD3 give that language, in the order the documents were
    read; it throws if one of the paths it would print is not UTF-8. *)
Theorem languages_task_spec docs folder : folder <> [] -> Forall (in_folder folder) docs ->
  task_languages docs folder =
    (let articles l := default [] (language_articles folder docs l) in
     if forallb utf8 (articles lang_ru) && forallb utf8 (articles lang_en)
     then Some (mk_lang_entry lang_ru (language_articles folder docs lang_ru),
                mk_lang_entry lang_en (language_articles folder docs lang_en))
     else None).
Proof.
  intros Hf Hd. unfold task_languages. rewrite recognize_eq. cbn iota beta.
  rewrite (recog_pairs folder) by (by apply in_folder_filter).
  rewrite dump_language_eq by done. cbv beta zeta. rewrite !recognized_articles by auto. done.
Qed.

Lemma generate_features_empty d n : is_ru_or_en d = false ->
  GenerateFeaturesTask Sentences CleanText erase_colons upostags_dict feats_dict lang2lemmas_dict d n =
    Some (set_identity (GetMeta d (bytes "path")) (GetMeta d key_lang) (GetMeta d (bytes "og:url"))
      (GetMeta d (bytes "og:title")) DocFeatures_make).
Proof. intros H. unfold GenerateFeaturesTask. by rewrite H. Qed.

(** The tasks that drop what [RecognizeLanguage] returns ([news_test],
    [dump], [features]) lose the documents they are about: for every Russian or
    English document the features that are generated are those of an empty
    document (no path, title, address or language, and no bags), and UDPipe runs
    on no document at all. *)
Theorem test_features_lost docs n :
  test_features docs n =
    Some (map (fun d => if recognized d then DocFeatures_make
                        else set_identity (GetMeta d (bytes "path")) (lang_of d) (GetMeta d (bytes "og:url"))
                               (GetMeta d (bytes "og:title")) DocFeatures_make) docs).
Proof.
  unfold test_features. rewrite recognize_eq. unfold features_of, GenerateFeatures.
  induction docs as [|d docs IH]; [done|]. cbn [map mapM].
  assert (is_ru_or_en (if recognized d then HTMLDocument_empty else recog d) = false) as H.
  { destruct (recognized d) eqn:E; [reflexivity|]. unfold recog. by rewrite recog_is_ru_or_en. }
  rewrite generate_features_empty by done. cbn [mbind option_bind]. rewrite IH. cbn. do 2 f_equal.
  destruct (recognized d); [done|]. unfold recog. by rewrite recog_language, !recog_path by discriminate.
Qed.

(** ** The news *)

Lemma dump_news_paths folder docs : folder <> [] ->
  Forall (fun d => is_news d = true /\ exists rel, doc_name d = with_slash folder ++ rel) docs ->
  DumpNewsDet docs folder = (let paths := map (fun d => relative folder (doc_name d)) docs in
    if forallb utf8 paths then Some paths else None).
Proof.
  intros Hf H. unfold DumpNewsDet. rewrite prefix_len_slash by done. cbn [mbind option_bind].
  assert (E : dump_news_loop (List.length (with_slash folder)) docs = Some (map (fun d => relative folder (doc_name d)) docs)).
  2: { rewrite E. cbn [mbind option_bind]. apply print_json_spec. }
  induction H as [|d docs [Hn [rel Hd]] _ IH]; [done|]. cbn [dump_news_loop map].
  rewrite Hn, Hd, substr_app. cbn [mbind option_bind]. rewrite IH. cbn [mbind option_bind].
  unfold relative. by rewrite drop_app_length.
Qed.

(** [f] are the features of the document [d]. *)
Record features_for (fe : list (list Z)) (d : HTMLDocument) (f : DocFeatures) : Prop := {
  ff_name : doc_name f = GetMeta d (bytes "path");
  ff_lang : doc_lang f = lang_of d;
  ff_url : url f = GetMeta d (bytes "og:url");
  ff_title : title f = GetMeta d (bytes "og:title");
  ff_news : is_news f = false;
  ff_feats : exists b, bows f !! text_feats = Some b /\
    counts fe (feats_of (words_of Sentences CleanText (lang_of d) (text d))) b
}.

Lemma recognized_features up fe d : NoDup up -> NoDup fe ->
  upostags_dict = ReadFeaturesNames up -> feats_dict = ReadFeaturesNames fe -> recognized d = true ->
  exists f, GenerateFeaturesTask Sentences CleanText erase_colons upostags_dict feats_dict lang2lemmas_dict
      (recog d) (2 ^ 64 - 1) = Some f /\ features_for fe d f.
Proof.
  intros Hu Hf Hud Hfd Hd.
  assert (Hr : is_ru_or_en (recog d) = true) by (unfold recog; by rewrite recog_is_ru_or_en).
  destruct (generate_features_doc_spec Sentences CleanText erase_colons upostags_dict feats_dict
    lang2lemmas_dict up fe (recog d) Hu Hf Hud Hfd Hr)
    as (f & b1 & b2 & b3 & b4 & Hg & (_ & _ & _ & _ & Hn) & _ & Hb & _ & _ & _ & Hc & _).
  unfold GenerateFeaturesTask. rewrite Hr. change (int_of_size_t (2 ^ 64 - 1)) with (-1). rewrite Hg.
  cbn [mbind option_bind]. eexists. split; [reflexivity|]. unfold recog in *.
  split; cbn [doc_name doc_lang url title is_news bows set_identity];
    rewrite ?recog_language, ?recog_path by discriminate; try done.
  exists b2. split; [done|]. by rewrite recog_language, recog_text in Hc.
Qed.

Lemma features_for_of fe docs fs f : Forall2 (features_for fe) docs fs -> f ∈ fs ->
  exists d, d ∈ docs /\ features_for fe d f.
Proof.
  intros H [i Hi]%list_elem_of_lookup. destruct (Forall2_lookup_r _ _ _ _ _ H Hi) as (d & Hd & Hff).
  exists d. split; [by eapply list_elem_of_lookup_2 | done].
Qed.

Lemma recognized_features_all up fe docs : NoDup up -> NoDup fe ->
  upostags_dict = ReadFeaturesNames up -> feats_dict = ReadFeaturesNames fe ->
  Forall (fun d => recognized d = true) docs ->
  exists fs, features_of (map recog docs) (2 ^ 64 - 1) = Some fs /\ Forall2 (features_for fe) docs fs.
Proof.
  intros Hu Hf Hud Hfd. unfold features_of, GenerateFeatures.
  induction 1 as [|d docs Hd _ (fs & IH1 & IH2)]; [by exists []|]. cbn [map mapM].
  destruct (recognized_features up fe d Hu Hf Hud Hfd Hd) as (f & E & Hff). rewrite E, IH1.
  exists (f :: fs). split; [done | by constructor].
Qed.

(** C35: the task [news], from the documents read to the report printed.  For
    documents in the input folder, a folder with a name, dictionaries of distinct
    names and models with no more weights than there are feature names, every Russian
    or English document gets its features, no vector or dictionary is read out of
    range, and the articles of the report are the paths, relative to the folder, of
    the documents whose address says [news] or whose score under the model of their
    language is over 0.3, in the order the documents were read.  The task throws
    exactly when one of these paths is not UTF-8. *)
Theorem news_task_spec up fe ru_file en_file docs folder :
  NoDup up -> NoDup fe ->
  upostags_dict = ReadFeaturesNames up -> feats_dict = ReadFeaturesNames fe ->
  LogisticRegression_read (fst (fst ru_file)) (snd (fst ru_file)) (snd ru_file) = Some ru_model ->
  LogisticRegression_read (fst (fst en_file)) (snd (fst en_file)) (snd en_file) = Some en_model ->
  (fst (fst ru_file) <= List.length fe)%nat -> (fst (fst en_file) <= List.length fe)%nat ->
  folder <> [] -> Forall (in_folder folder) docs ->
  exists fs, Forall2 (features_for fe) (List.filter recognized docs) fs /\
    task_news docs folder =
      let paths := map (fun f => relative folder (doc_name f)) (List.filter (verdict exp ru_model en_model) fs) in
      if forallb utf8 paths then Some paths else None.
Proof.
  intros Hu Hf Hud Hfd Hrf Hef Hrl Hel Hfo Hdocs.
  destruct (recognized_features_all up fe (List.filter recognized docs) Hu Hf Hud Hfd) as (fs & Hfs & H2).
  { apply Forall_forall. intros d Hd%list_elem_of_In%filter_In. tauto. }
  exists fs. split; [exact H2|]. unfold task_news, detected_news. rewrite recognize_eq. cbn iota beta.
  rewrite Hfs. cbn [mbind option_bind].
  apply logreg_read_lengths in Hrf as (Hrc & Hrw & Hrm). apply logreg_read_lengths in Hef as (Hec & Hew & Hem).
  rewrite detect_news_eq; [| split; congruence | split; congruence |].
  - cbn [mbind option_bind]. rewrite dump_news_paths; [by rewrite map_map | done |].
    apply Forall_map, Forall_forall. intros f Hin%list_elem_of_In%filter_In. destruct Hin as [Hin _].
    split; [done|]. apply list_elem_of_In in Hin. cbn.
    destruct (features_for_of fe _ _ f H2 Hin) as (d & Hd & [Hn _ _ _ _ _]). rewrite Hn.
    apply list_elem_of_In, filter_In in Hd as [Hd _]. rewrite Forall_forall in Hdocs.
    apply Hdocs. by apply list_elem_of_In.
  - apply Forall_forall. intros f Hin.
    destruct (features_for_of fe _ _ f H2 Hin) as (d & _ & [_ _ _ _ Hn (b & Hb & _ & Hl & _)]).
    split; [exact Hn|]. exists b. split; [exact Hb|]. lia.
Qed.
End Main.

(** ** Instances *)

Definition example_html (path site u : list Z) : HTMLDocument :=
  mk_html (<[bytes "path" := path]> (<[key_site := site]> {[bytes "og:url" := u]})) [] [].

Definition example_docs : list HTMLDocument :=
  [example_html (bytes "in/1.html") (bytes "lenta.ru") (bytes "https://lenta.ru/news/1");
   example_html (bytes "in/2.html") (bytes "cnn.com") (bytes "https://news.com/2");
   example_html (bytes "in/3.html") (bytes "lenta.ru") (bytes "https://news.ru/3")].

Definition no_cld (t : list Z) : list Z * unit := (bytes "fr", tt).
Definition no_score (_ : unit) : list Z := [].

Lemma example_in_folder : Forall (in_folder (bytes "in")) example_docs.
Proof.
  repeat constructor; [exists (bytes "1.html") | exists (bytes "2.html") | exists (bytes "3.html")]; reflexivity.
Defined.

Lemma languages_task_spec_witness :
  task_languages no_cld no_score example_lines example_docs (bytes "in") =
    Some (mk_lang_entry lang_ru (Some [bytes "1.html"; bytes "3.html"]), mk_lang_entry lang_en None).
Proof.
  refine (eq_trans (languages_task_spec no_cld no_score example_lines example_docs (bytes "in") _ _) _).
  - discriminate.
  - exact example_in_folder.
  - vm_compute. reflexivity.
Defined.

Definition no_feature_model : LogisticRegression := mk_logreg [] (double_of_Z (-1)) 0 [] [].

Lemma no_feature_score x :
  Infer (fun _ => double_of_Z 4) no_feature_model x = Some (ddiv (double_of_Z 1) (double_of_Z 5)).
Proof. reflexivity. Qed.

Lemma news_task_spec_witness :
  task_news no_cld no_score example_lines example_sentences (fun l => l) (fun l => l)
    (ReadFeaturesNames [bytes "NOUN"]) (ReadFeaturesNames [bytes "Number=Sing"]) (fun _ _ => ∅)
    (fun _ => double_of_Z 4) no_feature_model no_feature_model example_docs (bytes "in") =
    Some [bytes "1.html"].
Proof.
  destruct (news_task_spec no_cld no_score example_lines example_sentences (fun l => l) (fun l => l)
    (ReadFeaturesNames [bytes "NOUN"]) (ReadFeaturesNames [bytes "Number=Sing"]) (fun _ _ => ∅)
    (fun _ => double_of_Z 4) no_feature_model no_feature_model [bytes "NOUN"] [bytes "Number=Sing"]
    (0%nat, double_of_Z (-1), []) (0%nat, double_of_Z (-1), []) example_docs (bytes "in"))
    as (fs & Hfs & ->).
  1, 2: apply (bool_decide_unpack _); vm_compute; exact I.
  1, 2, 3, 4: reflexivity.
  1, 2: cbn; lia.
  1: discriminate.
  1: exact example_in_folder.
  apply Forall2_cons_inv_l in Hfs as (f1 & fs1 & H1 & Hfs & ->).
  apply Forall2_cons_inv_l in Hfs as (f2 & fs2 & H2 & Hfs & ->).
  apply Forall2_nil_inv_l in Hfs as ->.
  assert (V1 : verdict (fun _ => double_of_Z 4) no_feature_model no_feature_model f1 = true)
    by (unfold verdict; rewrite (ff_url _ _ _ _ _ _ _ H1); reflexivity).
  assert (V2 : verdict (fun _ => double_of_Z 4) no_feature_model no_feature_model f2 = false).
  { unfold verdict, over, GenerateNewsDetFeatures.
    destruct (ff_feats _ _ _ _ _ _ _ H2) as (b & Hb & _). rewrite Hb.
    rewrite (ff_url _ _ _ _ _ _ _ H2), (ff_lang _ _ _ _ _ _ _ H2).
    cbn [mbind option_bind]. rewrite no_feature_score. reflexivity. }
  cbn [List.filter]. rewrite V1, V2. cbn [map]. rewrite (ff_name _ _ _ _ _ _ _ H1). reflexivity.
Defined.
